(* ===== verification/_CoqProject ===== *)
-Q . S2P
Prelude.v
Types.v
Granule.v
Platform.v
GranuleFind.v
S2tte.v
S2tt.v
Apt.v
RealmTag.v
CsmId.v
Measurement.v
Buffer.v
Delegate.v
Walk.v
Exec.v
Realm.v
Rtt.v
RttTree.v
RttFold.v
RttCreate.v
Data.v
DataCreate.v
DataDestroy.v
CsmPropagate.v
Feature.v
Rsi.v
Gic.v
Mpidr.v
Psci.v
PsciSpec.v
Csm.v
CsmApt.v
CsmSpec.v
CsmUnmap.v
CsmAttach.v
CsmReserve.v
CsmDemo.v
AptCmd.v
AptSpec.v
DataCmd.v
Ripas.v
RipasSpec.v
RipasSet.v
RealmCmd.v
RealmInit.v
RealmCreate.v
RealmDestroy.v
Rec.v
RecAux.v
RecInit.v
RecCreate.v
RecDemo.v
Esr.v
RsiCall.v
Exit.v
RecEnter.v
ExitSpec.v
DataAbort.v
HostCall.v
RipasRequest.v
RecEnterSpec.v
AllocList.v
Alloc.v
AllocHeap.v
AllocLinks.v
AllocCalloc.v
AllocFree.v
AllocRelease.v
AllocSpec.v
SysReg.v
SysRegSpec.v
Attest.v
Token.v
AttestSpec.v
TokenSpec.v
TokenDemo.v
Xlat.v
XlatTree.v
XlatMap.v
XlatSlot.v
