(* ===== verification/Prelude.v ===== *)
(** * A model of the Realm Management Monitor and its shared memory extension

    The monitor (RMM) runs between an untrusted host and the confidential virtual machines
    ("realms"). The host gives it memory in 4KB granules and asks it, through RMI commands,
    to build realms from them; a realm talks to it through RSI calls. What must hold is
    that a granule has one owner and one use at a time, that the translation tables of a
    realm are a tree of granules that only the monitor changes, that no lock or mapping
    stays behind when a command ends, and that the measurement of a realm identifies how
    it was built. This repository adds memory shared between realms: access permission
    tables (APTs), realm tags and region identifiers.

    ** Parts of the program and where they are modelled

    - machine words, arrays, faults, the state monad and its rules: this file;
    - the shared C structures, the status codes and the state of the monitor: Types.v;
    - granule descriptors, bit lock, reference counts (lib/granule/include/granule.h,
      granule_lock.h): Granule.v; lookup and ordered locking of several granules
      (lib/granule/src/granule.c): GranuleFind.v;
    - boot manifest and numbering of granules (lib/rmm_el3_ifc/src/rmm_el3_ifc_manifest.c,
      plat/arm/src/arm_memory.c, arm_granule.c): Platform.v, with the class [PlatformLaws]
      that the rest of the development relies on;
    - stage 2 descriptors (lib/s2tt/src/s2tt.c, s2tt_pvt_defs.h): S2tte.v; whole tables:
      S2tt.v; the walk and the TLB invalidations: Walk.v;
    - slot buffers and access to host memory (lib/slot_buf): Buffer.v, with the class
      [MachineLaws];
    - GRANULE_DELEGATE and GRANULE_UNDELEGATE (runtime/rmi/granule.c): Delegate.v;
    - bounds and translation of realm addresses, mapping and unmapping of a page
      (runtime/include/realm.h, runtime/rsi/realm_ipa_helper.c): Realm.v;
    - the commands of runtime/rmi/rtt.c: reading entries and host mappings in Rtt.v, creation,
      destruction and folding of tables in RttCreate.v, RttTree.v (which also holds the lemmas on
      trees) and RttFold.v, data granules in Data.v (definitions), DataCreate.v, DataDestroy.v and
      DataCmd.v, what the destruction of shared data does to the partner realm in CsmPropagate.v,
      and RIPAS in Ripas.v (definitions), RipasSpec.v and RipasSet.v;
    - the commands of runtime/rmi/realm.c: RealmCmd.v (definitions), RealmInit.v (parameters
      and root tables), RealmCreate.v, RealmDestroy.v; the features they check
      (lib/arch/include/arch_features.h, runtime/rmi/feature.c, lib/arch/src/vmid.c): Feature.v;
    - the commands of runtime/rmi/rec.c: Rec.v (definitions), RecAux.v (destruction), RecInit.v,
      RecCreate.v, with examples in RecDemo.v; identifiers of RECs (runtime/include/rec.h,
      lib/smc): Mpidr.v; REC_ENTER (runtime/rmi/run.c): RecEnter.v and RecEnterSpec.v, with
      the run of the realm itself, [rec_run_loop], an argument of [smc_rec_enter];
    - exits from realms (runtime/core/exit.c) and injection of exceptions
      (runtime/core/inject_exp.c, lib/arch/include/esr.h): Esr.v and Exit.v, with ExitSpec.v
      (syndromes and injection) and DataAbort.v (data aborts from the exit to the next entry);
      traps of system registers (runtime/core/sysregs.c, opencca_fwb.c): SysReg.v, SysRegSpec.v;
    - the GIC (lib/gic/src/gic.c): Gic.v;
    - the calls of realms: the common types in Rsi.v; PSCI (runtime/rsi/psci.c) in Psci.v and
      PsciSpec.v; the calls of runtime/rsi/memory.c, config.c, host_call.c, system.c and feature.c
      in RsiCall.v, with HostCall.v (calls to the host) and RipasRequest.v (RIPAS requests);
      shared memory (runtime/rsi/shared_memory.c) in Csm.v (definitions), CsmApt.v (updates of
      the tables), CsmSpec.v (create, share, destroy), CsmUnmap.v (detach, revoke),
      CsmAttach.v, CsmReserve.v, and concrete runs in CsmDemo.v;
    - APTs (runtime/include/apt.h, runtime/core/apt_helpers.c): Apt.v, their commands
      (runtime/rmi/apt.c): AptCmd.v and AptSpec.v; realm tags (runtime/core/realm_tag.c):
      RealmTag.v; region identifiers (runtime/core/csm_id.c): CsmId.v;
    - the initial measurement (lib/measurement): Measurement.v; measurements of a running realm
      (runtime/rsi/realm_attest.c): Attest.v and AttestSpec.v; attestation tokens
      (runtime/rsi/realm_attest.c, lib/attestation/src/attestation_token.c): Token.v, TokenSpec.v
      and, with concrete libraries, TokenDemo.v;
    - the heap of the crypto library (lib/allocator/src/memory_alloc.c): Alloc.v (definitions),
      AllocList.v (linked lists), AllocHeap.v (the invariant), AllocLinks.v (the list of free
      blocks), AllocCalloc.v, AllocFree.v and AllocRelease.v (the steps), AllocSpec.v;
    - the monitor's own translation tables (lib/xlat): Xlat.v holds the definitions, XlatTree.v the
      tree of tables, what a write does to it, and descriptors, XlatMap.v the creation of tables and
      contexts, XlatSlot.v the pages mapped at run time and the slot buffers on the tables, with
      concrete contexts;
    - Exec.v holds the tactics that run a handler symbolically.

    A command takes the granules it names by address (GranuleFind), maps them (Buffer), reads the
    realm descriptor, and works on tables (Walk, S2tt), RECs or APTs under the locks. A REC is
    entered by REC_ENTER; its exit is either handled (Exit, Psci, RsiCall, Csm) or reported
    to the host, whose answer the next REC_ENTER checks and applies.

    ** How the code is modelled

    A handler is a function of type [M state A]: from a state it returns an answer and a
    state, or a fault. [FAssert] is a failed [assert] (the model is that of a build with
    assertions), [FPanic] a call of [panic], [FBadAccess] an access outside an array, to an
    unmapped slot or at the wrong type, and [FHang] a loop that does not end: the model is
    sequential, so that acquiring a lock that is already held hangs. A theorem that says
    that a handler returns therefore says that no assertion fails, no access is out of
    bounds and no lock is taken twice.

    A [struct granule *] is the index of its descriptor, and [granules] and [mem] of the
    state are indexed by it; the memory of a granule is a [page], the C structure the code
    keeps there, where a zeroed granule is the zero structure of any type. A buffer is
    named by the slot it is mapped at. Integers are [Z] and every operation that can leave
    its width wraps explicitly. The structures [rd] and [rec] have the members that the
    modelled code uses. TLB instructions are logged in [tlbi], with the VMID found in
    VTTBR_EL2. The heap has a state of its own, [astate]: the headers by address, and the bytes
    that belong to no header. The calls for a token work on the system's state and on what belongs to
    the REC that calls, [attest_env]. A context of the monitor's tables is an [xlat_state]: the words
    of the area of tables, where a pointer is an address, since the monitor maps that area flat.

    What the repository does not contain, or what the code reads from the machine, is a
    parameter given by a class: [Platform] (granule numbering; Platform.v proves the laws
    for the Arm platform), [Machine] (the physical address size and the loads and stores
    to host memory), [Cpu] (identification registers and what is discovered at boot), [Self] (the
    processor that runs and its stacks), [RecEnv]
    (machine state and build options that the creation of a REC reads), [IdRegs] (identification
    registers of the traps), [Interrupts] (pending interrupts), [EL3] (the firmware's
    answers), [Mbedtls] (two flags of mbed TLS), [Crypto] and [HashOps] (the hash functions), [TokenLib]
    (QCBOR and t_cose) and [Config] (the build option for boards without forced write-back); the features of the GIC are an argument of its functions. Each class of
    laws has an instance, used by the witnesses.

    ** What is proved

    - Granule: every descriptor operation is the operation on the triple of lock, state and
      reference count that it encodes, faults included. GranuleFind: locking a set of
      granules is all or nothing and in ascending order. Platform: a validated manifest
      gives a bijective numbering; a bank that wraps around is accepted.
    - S2tte: the descriptor types exclude each other, addresses and RIPAS survive encoding,
      host mappings are read back. S2tt: the test for folding is exact and inverts
      unfolding; skipping entries that are not live; an address is determined by its
      indices.
    - Walk: on a well-formed tree the walk returns, holds exactly the lock of the table it
      reports, and that table covers the address. Invalidation covers every page.
    - Buffer: copies from the host leave the monitor's state alone; two slots overlap.
      Delegate: both commands refine an abstract transition, and delegated memory is wiped.
    - Realm: translation, mapping and unmapping, on every branch. The commands on tables, data
      and RIPAS: on every branch, with the invariant [realm_at] of a realm at rest preserved: no
      lock held, no slot mapped, the tables a tree whose entries are all well typed and
      whose references count the entries of each table. Destroying shared data takes it from
      the partner when the partner maps it by a page.
    - Realm commands: exactly the requests that meet the conditions are granted, the new realm
      satisfies [realm_at], a refused request changes nothing, and destroying a new realm
      gives everything back. REC commands likewise: creation on every branch, what the new REC
      holds, destruction with all memory wiped, entry with the reference held meanwhile, and
      that nothing of an exit is answered twice.
    - Exits: at a protected address the host learns the page and the cause and nothing more, and
      may neither emulate the access nor inject an abort; at an unprotected one the emulated
      load is the architecture's. An injected exception is the one the realm would have taken.
      A trapped access to a system register changes the register that the instruction names and
      nothing else, and the host is told of writes to three registers of the GIC only.
    - PSCI, host calls, RIPAS requests: the call, the host's part and the completion. Gic: the
      validation of the host's state against a declarative statement, and that saving and
      restoring lose nothing. Mpidr: indices of RECs.
    - Shared memory: every call on every branch; after a revocation the slave maps no page of
      the region (pages mapped by blocks excepted) and the master's share is gone.
    - Apt, RealmTag, CsmId: invariants over all sequences of operations, and the exact
      effect of the operations. Measurement: measuring is total, and two realms with the
      same measurement were built in the same way unless the hash function collides. Attest: a
      read gives the hash chain over everything that was accepted, and the initial measurement
      never changes. Token: what is signed, that signing ends, and that the pieces a realm gets are
      the token, whatever happens between the calls.
    - Heap: from the initialisation on, through any sequence of allocations and releases, the
      blocks tile the buffer, both lists are linked in both directions, no two free blocks are
      neighbours, and what is handed out is aligned, zeroed and disjoint; an allocation fails only
      when no free block is large enough; a release undoes an allocation.
    - Xlat: a context whose regions pass the validation is built when there are enough tables (with
      a bound on how many are), and then the hardware translates exactly the addresses of the
      regions, to their physical addresses and with their permissions, so that nothing is both
      writable and executable. The slot buffers of Buffer.v are refined by pages of these tables:
      the same answers for every sequence of operations, and a slot translates to the granule
      mapped in it.

    ** Fuel

    Loops with a bound in the code are structural on that bound. [tlbi_loop] runs for size /
    4096 rounds, which is exactly the number the code makes when the size is a multiple of
    4096; the search of a bank (Platform.v) shrinks an interval of bank indices in
    every round and gets one round more than there are banks; the search for a fresh realm tag leaves its loop after 17
    rounds by itself; the loops over the pages of a region ([pages_loop], [attach_loop]) get one
    round more than the region has pages; the loops over the blocks of the heap ([verify_loop],
    [find_fit]) get as many rounds as there are headers; the loop that signs ([sign_loop]) gets three rounds more
    than the signature still takes; the recursion over the levels of the monitor's tables gets
    [XLAT_FUEL], one for each of the five levels. Running out of fuel is [FHang], and the theorems exclude it.

    ** What is not modelled

    Concurrency between CPUs (the locking protocol is followed step by step, but by one CPU); the
    loop around a running realm, the switch of register contexts, and the traps of SIMD
    instructions; the keys that the monitor gets at boot, and tokens that EL3 signs; drivers,
    the C library, logging, barriers and cache maintenance, and boot code but for the monitor's own
    tables. *)
From stdpp Require Export prelude gmap list fin_maps.
From Stdlib Require Export ZArith Lia.
#[export] Set Default Goal Selector "!".
Open Scope Z_scope.

(** * Machine words *)

(** [unsigned long], [uint64_t] and [size_t] are kept as [Z] in [0, 2^64); every
    operation that can leave that range wraps explicitly. *)
Definition u64 (x : Z) : Z := x mod 2 ^ 64.
Definition u32 (x : Z) : Z := x mod 2 ^ 32.
Definition u16 (x : Z) : Z := x mod 2 ^ 16.
Definition u8 (x : Z) : Z := x mod 2 ^ 8.
Definition ULONG_MAX : Z := 2 ^ 64 - 1.
Definition not64 (x : Z) : Z := Z.ldiff ULONG_MAX x.
Definition shl64 (x n : Z) : Z := u64 (Z.shiftl x n).

Definition is_u64 (x : Z) : Prop := 0 <= x < 2 ^ 64.

Declare Scope word_scope.
Delimit Scope word_scope with W.
Notation "x .+ y" := (u64 (x + y)) (at level 50, left associativity) : word_scope.
Notation "x .- y" := (u64 (x - y)) (at level 50, left associativity) : word_scope.
Notation "x .* y" := (u64 (x * y)) (at level 40, left associativity) : word_scope.
Notation "x .& y" := (Z.land x y) (at level 45, left associativity) : word_scope.
Notation "x .| y" := (Z.lor x y) (at level 48, left associativity) : word_scope.
Notation "x .^ y" := (Z.lxor x y) (at level 47, left associativity) : word_scope.
Notation ".~ x" := (not64 x) (at level 35, right associativity) : word_scope.
Notation "x .<< y" := (shl64 x y) (at level 46, left associativity) : word_scope.
Notation "x .>> y" := (Z.shiftr x y) (at level 46, left associativity) : word_scope.
#[export] Set Warnings "-notation-overridden".
Open Scope word_scope.

(** The register-field macros of lib/common/include/utils_def.h, a field being
    given by its _SHIFT and its _WIDTH. *)
Definition INPLACE (shift val : Z) : Z := val .<< shift.
Definition MASK (shift width : Z) : Z := (ULONG_MAX .>> (64 - width)) .<< shift.
Definition EXTRACT (shift width reg : Z) : Z := (reg .& MASK shift width) .>> shift.
Definition EXTRACT_BIT (shift reg : Z) : Z := (reg .>> shift) .& 1.
Definition BIT_MASK_ULL (msb lsb : Z) : Z :=
  (ULONG_MAX .>> (63 - msb)) .& (ULONG_MAX .<< lsb).
Definition ALIGNED (size alignment : Z) : bool := size mod alignment =? 0.

Definition GRANULE_SHIFT : Z := 12.
Definition GRANULE_SIZE : Z := 1 .<< GRANULE_SHIFT.
Definition GRANULE_MASK : Z := .~ (GRANULE_SIZE - 1).
Definition GRANULE_ALIGNED (addr : Z) : bool := ALIGNED addr GRANULE_SIZE.

(** BIT64 of runtime/include/apt.h. *)
Definition BIT64 (i : Z) : Z := 1 .<< i.

(** ** Bit-level lemmas *)

Lemma u64_small x : is_u64 x → u64 x = x.
Proof. apply Z.mod_small. Qed.

Lemma u64_range x : is_u64 (u64 x).
Proof. apply Z.mod_pos_bound. lia. Qed.

Lemma testbit_u64 x i : 0 <= i → Z.testbit (u64 x) i = (i <? 64) && Z.testbit x i.
Proof.
  intros Hi. unfold u64. destruct (Z.ltb_spec i 64).
  - rewrite Z.mod_pow2_bits_low by lia. done.
  - rewrite Z.mod_pow2_bits_high by lia. done.
Qed.

Lemma testbit_ones_max i : 0 <= i → Z.testbit ULONG_MAX i = (i <? 64).
Proof.
  intros Hi. change ULONG_MAX with (Z.ones 64).
  rewrite Z.testbit_ones by lia. lia.
Qed.

Lemma testbit_shl64 x n i :
  0 <= n → 0 <= i → Z.testbit (shl64 x n) i = (i <? 64) && Z.testbit x (i - n).
Proof. intros. unfold shl64. rewrite testbit_u64, Z.shiftl_spec by lia. done. Qed.

Lemma testbit_not64 x i :
  0 <= i → Z.testbit (not64 x) i = (i <? 64) && negb (Z.testbit x i).
Proof. intros. unfold not64. rewrite Z.ldiff_spec, testbit_ones_max by lia. done. Qed.

Lemma testbit_neg x i : i < 0 → Z.testbit x i = false.
Proof. intros. apply Z.testbit_neg_r. lia. Qed.

Lemma testbit_MASK s w i :
  0 <= s → 0 <= w <= 64 → 0 <= i →
  Z.testbit (MASK s w) i = (i <? 64) && (s <=? i) && (i <? s + w).
Proof.
  intros. unfold MASK. rewrite testbit_shl64 by lia.
  destruct (Z.leb_spec s i); cycle 1.
  { rewrite testbit_neg by lia. by rewrite andb_false_r. }
  rewrite Z.shiftr_spec, testbit_ones_max by lia. lia.
Qed.

Lemma testbit_BIT_MASK_ULL m l i :
  0 <= l → 0 <= m <= 63 → 0 <= i →
  Z.testbit (BIT_MASK_ULL m l) i = (l <=? i) && (i <=? m).
Proof.
  intros. unfold BIT_MASK_ULL. rewrite Z.land_spec, testbit_shl64 by lia.
  rewrite Z.shiftr_spec, testbit_ones_max by lia.
  destruct (Z.leb_spec l i); cycle 1.
  { rewrite testbit_neg by lia. lia. }
  rewrite testbit_ones_max by lia. lia.
Qed.

Lemma testbit_BIT64 n i : 0 <= n → 0 <= i → Z.testbit (BIT64 n) i = (i <? 64) && (i =? n).
Proof.
  intros. unfold BIT64. rewrite testbit_shl64 by lia.
  destruct (Z.ltb_spec i n).
  { rewrite testbit_neg by lia. lia. }
  change 1 with (2 ^ 0). rewrite Z.pow2_bits_eqb by lia. lia.
Qed.

(** A word all of whose set bits are among those of [m]. *)
Definition inmask (m a : Z) : Prop := Z.land a m = a.

Lemma inmask_land m a k : inmask m a → Z.land a k = Z.land a (Z.land m k).
Proof. unfold inmask. intros H. rewrite Z.land_assoc, H. done. Qed.

Lemma inmask_disjoint m a k : inmask m a → Z.land m k = 0 → Z.land a k = 0.
Proof. intros H Hk. rewrite (inmask_land m) by done. rewrite Hk. apply Z.land_0_r. Qed.

Lemma inmask_disjoint2 m n a b :
  inmask m a → inmask n b → Z.land m n = 0 → Z.land a b = 0.
Proof.
  intros Ha Hb H. rewrite (inmask_land m a b Ha), <- Hb, (Z.land_comm b n), (Z.land_assoc m n b).
  by rewrite H, Z.land_0_l, Z.land_0_r.
Qed.

Lemma inmask_sub m a k : inmask m a → Z.land m k = m → Z.land a k = a.
Proof. intros H Hk. rewrite (inmask_land m) by done. rewrite Hk. done. Qed.

Lemma inmask_weaken m k a : inmask m a → Z.land m k = m → inmask k a.
Proof. apply inmask_sub. Qed.

Lemma inmask_land_l m a : inmask m (Z.land a m).
Proof. unfold inmask. rewrite <- Z.land_assoc, Z.land_diag. done. Qed.

Lemma inmask_lor m a b : inmask m a → inmask m b → inmask m (Z.lor a b).
Proof. unfold inmask. intros Ha Hb. by rewrite Z.land_lor_distr_l, Ha, Hb. Qed.

Lemma inmask_lxor m a b : inmask m a → inmask m b → inmask m (Z.lxor a b).
Proof.
  unfold inmask. intros Ha Hb. rewrite <- Ha at 2. rewrite <- Hb at 2.
  apply Z.bits_inj'. intros i Hi. rewrite Z.land_spec, !Z.lxor_spec, !Z.land_spec.
  by destruct (Z.testbit a i), (Z.testbit b i), (Z.testbit m i).
Qed.

Lemma land_lor_l a b m : Z.land (Z.lor a b) m = Z.lor (Z.land a m) (Z.land b m).
Proof. apply Z.land_lor_distr_l. Qed.

Lemma land_land_r a m k : Z.land (Z.land a m) k = Z.land a (Z.land m k).
Proof. by rewrite Z.land_assoc. Qed.

Lemma land_not64 a k : is_u64 a → Z.land a (not64 k) = Z.ldiff a k.
Proof.
  intros Ha. apply Z.bits_inj'. intros i Hi.
  rewrite Z.land_spec, Z.ldiff_spec, testbit_not64 by lia.
  destruct (Z.ltb_spec i 64); [done|].
  rewrite (Z.bits_above_log2 a); [done | unfold is_u64 in *; lia |].
  destruct (decide (a = 0)) as [->|]; [simpl; lia|].
  apply Z.log2_lt_pow2; [unfold is_u64 in *; lia|].
  unfold is_u64 in Ha. assert (2 ^ 64 <= 2 ^ i) by (apply Z.pow_le_mono_r; lia). lia.
Qed.

Lemma land_bound a m : 0 <= m → 0 <= Z.land a m <= m.
Proof.
  intros Hm. split; [apply Z.land_nonneg; by right|].
  assert (Hle : ∀ p, Z.land a (Z.pos p) <= Z.pos p).
  { intros p. replace (Z.pos p) with (Z.land a (Z.pos p) + Z.ldiff (Z.pos p) a) at 2.
    - assert (0 <= Z.ldiff (Z.pos p) a) by (apply Z.ldiff_nonneg; lia). lia.
    - rewrite Z.add_nocarry_lxor.
      + apply Z.bits_inj'. intros i Hi.
        rewrite Z.lxor_spec, Z.land_spec, Z.ldiff_spec.
        by destruct (Z.testbit a i), (Z.testbit (Z.pos p) i).
      + apply Z.bits_inj'. intros i Hi.
        rewrite Z.land_spec, Z.land_spec, Z.ldiff_spec, Z.testbit_0_l.
        by destruct (Z.testbit a i), (Z.testbit (Z.pos p) i). }
  destruct m; [rewrite Z.land_0_r; lia | apply Hle | lia].
Qed.

Lemma inmask_range m a : 0 <= m → inmask m a → 0 <= a <= m.
Proof. intros Hm <-. by apply land_bound. Qed.

(** Adding disjoint words is or-ing them. *)
Lemma lor_add a b : Z.land a b = 0 → Z.lor a b = a + b.
Proof. intros. rewrite <- Z.lxor_lor by done. symmetry. by apply Z.add_nocarry_lxor. Qed.

Lemma land_ones_mod a n : 0 <= n → Z.land a (2 ^ n - 1) = a mod 2 ^ n.
Proof.
  intros. replace (2 ^ n - 1) with (Z.ones n) by (rewrite Z.ones_equiv; lia).
  by apply Z.land_ones.
Qed.

Lemma land_pow2_testbit a n : 0 <= n → negb (Z.land a (2 ^ n) =? 0) = Z.testbit a n.
Proof.
  intros Hn. destruct (Z.eqb_spec (Z.land a (2 ^ n)) 0) as [H|H]; simpl.
  - apply (f_equal (λ z, Z.testbit z n)) in H.
    rewrite Z.land_spec, Z.pow2_bits_true, andb_true_r, Z.testbit_0_l in H by lia. done.
  - destruct (Z.testbit a n) eqn:Hf; [done|]. destruct H.
    apply Z.bits_inj'. intros i Hi. rewrite Z.land_spec, Z.testbit_0_l, Z.pow2_bits_eqb by lia.
    destruct (Z.eqb_spec n i) as [<-|]; [by rewrite Hf | by rewrite andb_false_r].
Qed.

Lemma testbit_high a n i : 0 <= a < 2 ^ n → n <= i → Z.testbit a i = false.
Proof.
  intros Ha Hi. destruct (decide (a = 0)) as [->|]; [apply Z.testbit_0_l|].
  apply Z.bits_above_log2; [lia|]. apply Z.log2_lt_pow2; [lia|].
  assert (0 <= n) by (destruct (Z.le_gt_cases 0 n); [done|rewrite Z.pow_neg_r in Ha by lia; lia]).
  assert (2 ^ n <= 2 ^ i) by (apply Z.pow_le_mono_r; lia). lia.
Qed.

(** A word confined to the bits [l .. m] is a multiple of [2 ^ l] below [2 ^ (m + 1)]. *)
Lemma inmask_BIT_MASK m l a :
  0 <= l <= m → m <= 63 → inmask (BIT_MASK_ULL m l) a ↔ 0 <= a < 2 ^ (m + 1) ∧ a mod 2 ^ l = 0.
Proof.
  intros Hl Hm. split.
  - intros Ha. assert (Hbit : ∀ i, 0 <= i → Z.testbit a i = true → l <= i <= m).
    { intros i Hi Hb. rewrite <- Ha, Z.land_spec, testbit_BIT_MASK_ULL in Hb by lia. lia. }
    assert (Hlow : a mod 2 ^ (m + 1) = a).
    { rewrite <- Z.land_ones by lia. apply Z.bits_inj'. intros i Hi.
      rewrite Z.land_spec, Z.testbit_ones by lia. specialize (Hbit i Hi).
      destruct (Z.testbit a i); [|done]. specialize (Hbit eq_refl). lia. }
    split.
    + rewrite <- Hlow. apply Z.mod_pos_bound. apply Z.pow_pos_nonneg; lia.
    + rewrite <- Z.land_ones by lia. apply Z.bits_inj'. intros i Hi.
      rewrite Z.land_spec, Z.testbit_ones, Z.testbit_0_l by lia. specialize (Hbit i Hi).
      destruct (Z.testbit a i); [|done]. specialize (Hbit eq_refl). lia.
  - intros [Hr Hmod]. apply Z.bits_inj'. intros i Hi.
    rewrite Z.land_spec, testbit_BIT_MASK_ULL by lia.
    destruct (Z.leb_spec l i) as [|Hil].
    + destruct (Z.leb_spec i m); [by rewrite andb_true_r|].
      rewrite (testbit_high a (m + 1)) by lia. done.
    + rewrite <- (Z.mod_pow2_bits_low a l i) by lia. rewrite Hmod, Z.testbit_0_l. done.
Qed.

(** Granule alignment as a statement about the low twelve bits. *)
Lemma granule_aligned_land a : GRANULE_ALIGNED a = true ↔ Z.land a 4095 = 0.
Proof.
  unfold GRANULE_ALIGNED, ALIGNED. change GRANULE_SIZE with (2 ^ 12).
  rewrite Z.eqb_eq, <- land_ones_mod by lia. done.
Qed.

Lemma granule_aligned_mod a : GRANULE_ALIGNED a = true ↔ a mod 4096 = 0.
Proof. unfold GRANULE_ALIGNED, ALIGNED. change GRANULE_SIZE with 4096. apply Z.eqb_eq. Qed.

(** ** Tactics for masks *)

(** [mask_simpl] normalises [Z.land] of disjunctions of words whose bits are
    confined to known masks ([inmask] hypotheses) and of closed constants. *)
Ltac no_word_var t :=
  tryif (match goal with x : Z |- _ => match t with context [x] => idtac end end)
  then fail else idtac.

Ltac closed_word t :=
  no_word_var t;
  let r := eval vm_compute in t in
  lazymatch r with
  | Z0 => idtac
  | Zpos ?p => closed_pos p
  end
with closed_pos p :=
  lazymatch p with
  | xH => idtac
  | xI ?q => closed_pos q
  | xO ?q => closed_pos q
  end.

Ltac mask_step :=
  first
    [ rewrite land_lor_l
    | rewrite Z.lor_0_l | rewrite Z.lor_0_r
    | rewrite Z.land_0_l | rewrite Z.land_0_r
    | match goal with
      | H : inmask ?m ?a, H' : inmask ?n ?b |- context [Z.land ?a ?b] =>
          rewrite (inmask_disjoint2 m n a b H H') by (vm_compute; reflexivity)
      | H : inmask ?m ?a |- context [Z.land ?a ?k] =>
          closed_word k;
          first [ rewrite (inmask_disjoint m a k H) by (vm_compute; reflexivity)
                | rewrite (inmask_sub m a k H) by (vm_compute; reflexivity) ]
      | |- context [Z.land ?a ?k] =>
          closed_word a; closed_word k;
          let r := eval vm_compute in (Z.land a k) in
          change (Z.land a k) with r
      end ].

Ltac mask_simpl := repeat mask_step.

(** * Faults and results *)

(** What the C code cannot recover from: a failed [assert], an explicit
    [panic()], not terminating (spinning on a bit lock that is already held), and an
    access to memory that is outside an array, unmapped, or not of the accessed type. *)
Inductive fault :=
| FAssert
| FPanic
| FHang
| FBadAccess.

Inductive result (A : Type) :=
| Ok (a : A)
| Err (f : fault).
Arguments Ok {A} a.
Arguments Err {A} f.

#[export] Instance fault_eq_dec : EqDecision fault.
Proof. solve_decision. Defined.

#[export] Instance result_ret : MRet result := λ A a, Ok a.
#[export] Instance result_bind : MBind result := λ A B k m,
  match m with Ok a => k a | Err f => Err f end.

(** [assert(b)] of a debug build. *)
Definition rassert (b : bool) : result () := if b then Ok () else Err FAssert.

Lemma result_bind_ok {A B} (a : A) (k : A → result B) : Ok a ≫= k = k a.
Proof. done. Qed.

Lemma result_bind_inv {A B} (m : result A) (k : A → result B) b :
  m ≫= k = Ok b → ∃ a, m = Ok a ∧ k a = Ok b.
Proof. destruct m; [by eauto | done]. Qed.

Lemma rassert_ok b : rassert b = Ok () ↔ b = true.
Proof. by destruct b. Qed.

Lemma rassert_bind {B} b (k : () → result B) : b = true → rassert b ≫= k = k ().
Proof. by intros ->. Qed.

(** ** C arrays *)

(** [a[i]] and [a[i] = v] on an array of fixed length: out of range is an access
    the code must not make. *)
Definition aget {A} (l : list A) (i : Z) : result A :=
  if 0 <=? i then
    match l !! Z.to_nat i with Some a => Ok a | None => Err FBadAccess end
  else Err FBadAccess.

Definition aset {A} (l : list A) (i : Z) (v : A) : result (list A) :=
  if (0 <=? i) && (i <? Z.of_nat (length l)) then Ok (<[Z.to_nat i := v]> l)
  else Err FBadAccess.

Lemma aget_ok {A} (l : list A) i a :
  aget l i = Ok a ↔ 0 <= i ∧ l !! Z.to_nat i = Some a.
Proof.
  unfold aget. destruct (Z.leb_spec 0 i); [|split; [done|lia]].
  destruct (l !! Z.to_nat i); naive_solver.
Qed.

Lemma aget_lookup {A} (l : list A) i a : 0 <= i → l !! Z.to_nat i = Some a → aget l i = Ok a.
Proof. intros. by apply aget_ok. Qed.

Lemma aget_in_range {A} (l : list A) i :
  0 <= i < Z.of_nat (length l) → ∃ a, aget l i = Ok a ∧ l !! Z.to_nat i = Some a.
Proof.
  intros Hi. destruct (lookup_lt_is_Some_2 l (Z.to_nat i)) as [a Ha]; [lia|].
  exists a. split; [apply aget_lookup; [lia|done] | done].
Qed.

Lemma aset_ok {A} (l : list A) i v :
  0 <= i < Z.of_nat (length l) → aset l i v = Ok (<[Z.to_nat i := v]> l).
Proof.
  intros Hi. unfold aset.
  destruct (Z.leb_spec 0 i), (Z.ltb_spec i (Z.of_nat (length l))); simpl; lia || done.
Qed.

Lemma aset_inv {A} (l l' : list A) i v :
  aset l i v = Ok l' → 0 <= i < Z.of_nat (length l) ∧ l' = <[Z.to_nat i := v]> l.
Proof.
  unfold aset. destruct (Z.leb_spec 0 i), (Z.ltb_spec i (Z.of_nat (length l))); naive_solver lia.
Qed.

(** ** Search loops *)

(** A [for] loop from [i], [n] iterations, that returns the first index satisfying a
    test. *)
Fixpoint first_index (n : nat) (i : Z) (test : Z → result bool) : result (option Z) :=
  match n with
  | O => Ok None
  | S n' => test i ≫= λ b, if (b : bool) then Ok (Some i) else first_index n' (i + 1) test
  end.

Definition or_minus1 (o : option Z) : Z := match o with Some i => i | None => -1 end.

Lemma first_index_spec n i test :
  (∀ k, i <= k < i + Z.of_nat n → ∃ b, test k = Ok b) →
  ∃ o, first_index n i test = Ok o ∧
    match o with
    | Some k => i <= k < i + Z.of_nat n ∧ test k = Ok true ∧ ∀ j, i <= j < k → test j = Ok false
    | None => ∀ j, i <= j < i + Z.of_nat n → test j = Ok false
    end.
Proof.
  revert i. induction n as [|n IH]; intros i Htot; cbn [first_index].
  { exists None. split; [done|]. lia. }
  destruct (Htot i) as [b Hb]; [lia|]. rewrite Hb, result_bind_ok. destruct b.
  { exists (Some i). split; [done|]. split; [lia|]. split; [done|]. lia. }
  destruct (IH (i + 1)) as ([k|] & Hrun & Ho); [intros; apply Htot; lia|..].
  - exists (Some k). split; [done|]. destruct Ho as (Hk & Ht & Hf). split; [lia|]. split; [done|].
    intros j Hj. destruct (decide (j = i)) as [->|]; [done|]. apply Hf. lia.
  - exists None. split; [done|]. intros j Hj. destruct (decide (j = i)) as [->|]; [done|].
    apply Ho. lia.
Qed.

(** ** Registries: arrays with an in-use flag *)

Lemma filter_insert_new {A} (f : A → bool) (l : list A) i new old :
  l !! i = Some old → f old = false → f new = true →
  List.filter f (<[i := new]> l) ≡ₚ new :: List.filter f l.
Proof.
  intros Hi Hold Hnew. revert i Hi. induction l as [|x l IH]; intros [|i] Hi; simpl in *; try done.
  - simplify_eq. by rewrite Hnew, Hold.
  - destruct (f x); rewrite (IH i) by done; [constructor|done].
Qed.

Lemma filter_insert_del {A} (f : A → bool) (l : list A) i new old :
  l !! i = Some old → f old = true → f new = false →
  List.filter f l ≡ₚ old :: List.filter f (<[i := new]> l).
Proof.
  intros Hi Hold Hnew. revert i Hi. induction l as [|x l IH]; intros [|i] Hi; simpl in *; try done.
  - simplify_eq. by rewrite Hold, Hnew.
  - destruct (f x); rewrite (IH i) by done; [constructor|done].
Qed.

Lemma elem_of_filter_list {A} (f : A → bool) (l : list A) x :
  x ∈ List.filter f l ↔ x ∈ l ∧ f x = true.
Proof. rewrite !list_elem_of_In. apply List.filter_In. Qed.

Lemma filter_free_length {A} (f : A → bool) (l : list A) x :
  x ∈ l → f x = false → (length (List.filter f l) < length l)%nat.
Proof.
  intros [i Hi]%list_elem_of_lookup Hf. revert i Hi.
  induction l as [|y l IH]; intros [|i] Hi; simpl in *; try done.
  - simplify_eq. rewrite Hf. pose proof (List.filter_length_le f l). lia.
  - specialize (IH i Hi). destruct (f y); simpl; lia.
Qed.

(** The loop over a whole array: the first entry that passes a test. *)
Lemma scan_array {A} (l : list A) n (test : A → bool) :
  length l = n →
  ∃ o, first_index n 0 (λ i, aget l i ≫= λ e, Ok (test e)) = Ok o ∧
    match o with
    | Some i => 0 <= i < Z.of_nat n ∧ ∃ e, l !! Z.to_nat i = Some e ∧ test e = true
    | None => ∀ e, e ∈ l → test e = false
    end.
Proof.
  intros Hl. assert (Hget : ∀ k, 0 <= k < 0 + Z.of_nat n → ∃ e, l !! Z.to_nat k = Some e ∧
    (aget l k ≫= λ e, Ok (test e)) = Ok (test e)).
  { intros k Hk. destruct (aget_in_range l k) as (e & He & Hle); [lia|]. exists e. by rewrite He. }
  destruct (first_index_spec n 0 (λ i, aget l i ≫= λ e, Ok (test e))) as (o & Hrun & Ho).
  { intros k Hk. destruct (Hget k Hk) as (e & _ & H). eauto. }
  exists o. split; [done|]. destruct o as [i|].
  - destruct Ho as (Hi & Ht & _). split; [lia|]. destruct (Hget i Hi) as (e & Hle & He).
    exists e. split; [done|]. rewrite Ht in He. congruence.
  - intros e [k Hk]%list_elem_of_lookup. pose proof (lookup_lt_Some _ _ _ Hk).
    specialize (Ho (Z.of_nat k) ltac:(lia)).
    rewrite (aget_lookup _ _ e), result_bind_ok in Ho by (lia || by rewrite Nat2Z.id). congruence.
Qed.

(** * The state and fault monad *)

Definition M (S A : Type) : Type := S → result (A * S).

#[export] Instance M_ret S : MRet (M S) := λ A a s, Ok (a, s).
#[export] Instance M_bind S : MBind (M S) := λ A B k m s,
  match m s with Ok (a, s') => k a s' | Err f => Err f end.

Section monad.
Context {S : Type}.

Definition lift {A} (r : result A) : M S A := λ s,
  match r with Ok a => Ok (a, s) | Err f => Err f end.
Definition mfault {A} (f : fault) : M S A := λ _, Err f.
Definition massert (b : bool) : M S () := lift (rassert b).
Definition gets {A} (f : S → A) : M S A := λ s, Ok (f s, s).
Definition mmodify (f : S → S) : M S () := λ s, Ok ((), f s).
Definition mwhen (b : bool) (m : M S ()) : M S () := if b then m else mret ().

(** A dereference: [None] is an access the C code must not make. *)
Definition mderef {A} (o : option A) : M S A := λ s,
  match o with Some a => Ok (a, s) | None => Err FBadAccess end.

(** The loop [for (x in l) body], without early exit. *)
Fixpoint mfor {A} (l : list A) (body : A → M S ()) : M S () :=
  match l with
  | [] => mret ()
  | x :: l' => body x ≫= λ _, mfor l' body
  end.

Lemma bind_run {A B} (m : M S A) (k : A → M S B) s a s' :
  m s = Ok (a, s') → (m ≫= k) s = k a s'.
Proof. intros H. unfold mbind, M_bind. by rewrite H. Qed.

Lemma bind_run_err {A B} (m : M S A) (k : A → M S B) s f :
  m s = Err f → (m ≫= k) s = Err f.
Proof. intros H. unfold mbind, M_bind. by rewrite H. Qed.

Lemma bind_inv {A B} (m : M S A) (k : A → M S B) s b s'' :
  (m ≫= k) s = Ok (b, s'') → ∃ a s', m s = Ok (a, s') ∧ k a s' = Ok (b, s'').
Proof. unfold mbind, M_bind. destruct (m s) as [[a s']|]; [by eauto|done]. Qed.

Lemma bind_assoc {A B C} (m : M S A) (k : A → M S B) (l : B → M S C) s :
  ((m ≫= k) ≫= l) s = (m ≫= λ a, k a ≫= l) s.
Proof. unfold mbind, M_bind. by destruct (m s) as [[]|]. Qed.

Lemma ret_bind {A B} (a : A) (k : A → M S B) s : (mret a ≫= k) s = k a s.
Proof. done. Qed.

Lemma gets_bind {A B} (f : S → A) (k : A → M S B) s : (gets f ≫= k) s = k (f s) s.
Proof. done. Qed.

Lemma mmodify_bind {B} (f : S → S) (k : () → M S B) s : (mmodify f ≫= k) s = k () (f s).
Proof. done. Qed.

Lemma massert_run (b : bool) s : b = true → massert b s = Ok ((), s).
Proof. by intros ->. Qed.

Lemma mderef_run {A} (o : option A) a s : o = Some a → mderef o s = Ok (a, s).
Proof. by intros ->. Qed.

Lemma lift_run {A} (r : result A) a s : r = Ok a → lift r s = Ok (a, s).
Proof. by intros ->. Qed.

(** ** Total-correctness weakest preconditions *)

(** [wp m Q s]: from [s], [m] returns (no fault) and the answer and final state
    satisfy [Q]. *)
Definition wp {A} (m : M S A) (Q : A → S → Prop) (s : S) : Prop :=
  ∃ a s', m s = Ok (a, s') ∧ Q a s'.

Lemma wp_ret {A} (a : A) Q s : Q a s → wp (mret a) Q s.
Proof. intros. by exists a, s. Qed.

Lemma wp_bind {A B} (m : M S A) (k : A → M S B) Q s :
  wp m (λ a s', wp (k a) Q s') s → wp (m ≫= k) Q s.
Proof.
  intros (a & s' & Hm & b & s'' & Hk & HQ). exists b, s''. split; [|done].
  by rewrite (bind_run _ _ _ _ _ Hm).
Qed.

Lemma wp_mono {A} (m : M S A) (P Q : A → S → Prop) s :
  wp m P s → (∀ a s', P a s' → Q a s') → wp m Q s.
Proof. intros (a & s' & Hm & HP) HPQ. exists a, s'. eauto. Qed.

Lemma wp_run {A} (m : M S A) Q s a s' : m s = Ok (a, s') → Q a s' → wp m Q s.
Proof. intros. by exists a, s'. Qed.

Lemma wp_lift {A} (r : result A) Q s a : r = Ok a → Q a s → wp (lift r) Q s.
Proof. intros -> ?. by exists a, s. Qed.

Lemma wp_massert (b : bool) Q s : b = true → Q () s → wp (massert b) Q s.
Proof. intros -> ?. by exists (), s. Qed.

Lemma wp_mderef {A} (o : option A) a Q s : o = Some a → Q a s → wp (mderef o) Q s.
Proof. intros -> ?. by exists a, s. Qed.

Lemma wp_gets {A} (f : S → A) Q s : Q (f s) s → wp (gets f) Q s.
Proof. intros. by exists (f s), s. Qed.

Lemma wp_mmodify f Q s : Q () (f s) → wp (mmodify f) Q s.
Proof. intros. by exists (), (f s). Qed.

(** Loop rule: an invariant indexed by the elements already done. *)
Lemma wp_mfor {A} (Inv : list A → S → Prop) (l : list A) (body : A → M S ()) s :
  Inv [] s →
  (∀ done x rest s, l = done ++ x :: rest → Inv done s →
     wp (body x) (λ _ s', Inv (done ++ [x]) s') s) →
  wp (mfor l body) (λ _ s', Inv l s') s.
Proof.
  intros H0 Hstep.
  cut (∀ rest done s, l = done ++ rest → Inv done s → wp (mfor rest body) (λ _ s', Inv l s') s).
  { intros H. by apply (H l []). }
  induction rest as [|x rest IH]; intros done s' Hl Hinv; simpl.
  - apply wp_ret. rewrite app_nil_r in Hl. by subst.
  - apply wp_bind. eapply wp_mono; [by eapply Hstep|].
    intros [] s'' Hs''. apply (IH (done ++ [x])); [|done].
    by rewrite <- app_assoc.
Qed.
End monad.

(** [run_step] executes the head of a monadic [bind] whose head's equation is
    given; [wp_step] applies the rule of the head constructor. *)
Tactic Notation "run_step" uconstr(H) := rewrite (bind_run _ _ _ _ _ H); cbv beta.

(** Applies a computation on a component of the state. *)
Definition zoom {S T A} (get : S → T) (set : T → S → S) (m : M T A) : M S A := λ s,
  match m (get s) with Ok (a, t) => Ok (a, set t s) | Err f => Err f end.

(** More distinct candidates than names in use: one candidate is free. *)
Lemma pigeonhole_free (cands used : list Z) :
  (length used < length (remove_dups cands))%nat → ∃ c, c ∈ cands ∧ c ∉ used.
Proof.
  intros Hlt. destruct (decide (Exists (λ c, c ∉ used) cands)) as [Hex|Hno].
  { apply Exists_exists in Hex as (c & ? & ?). by exists c. }
  exfalso. assert (Hsub : remove_dups cands ⊆+ used).
  { apply NoDup_submseteq; [apply NoDup_remove_dups|]. intros c Hc. rewrite elem_of_remove_dups in Hc.
    destruct (decide (c ∈ used)); [done|]. destruct Hno. apply Exists_exists. by exists c. }
  apply submseteq_length in Hsub. lia.
Qed.

Create HintDb rmm discriminated.
#[export] Hint Resolve u64_range : rmm.
