(* ===== verification/Types.v ===== *)
(** The data the components share: the RMI and RSI status values, the C
    structures kept in granules (realm descriptor, REC, access permission table,
    translation table), and the state of the monitor as one record. *)
From S2P Require Import Prelude.

(** * Status values (lib/smc/include/smc-rmi.h, smc-rsi.h) *)

Definition RMI_SUCCESS : Z := 0.
Definition RMI_ERROR_INPUT : Z := 1.
Definition RMI_ERROR_REALM : Z := 2.
Definition RMI_ERROR_REC : Z := 3.
Definition RMI_ERROR_RTT : Z := 4.
Definition RMI_ERROR_COUNT : Z := 5.

Definition RMI_UNASSIGNED : Z := 0.
Definition RMI_ASSIGNED : Z := 1.
Definition RMI_TABLE : Z := 2.

Definition RMI_EMPTY : Z := 0.
Definition RMI_RAM : Z := 1.
Definition RMI_DESTROYED : Z := 2.

Definition RMI_NO_MEASURE_CONTENT : Z := 0.
Definition RMI_MEASURE_CONTENT : Z := 1.

Definition RSI_SUCCESS : Z := 0.
Definition RSI_ERROR_INPUT : Z := 1.
Definition RSI_ERROR_STATE : Z := 2.

(** [enum ripas] and [enum ripas_change_destroyed] of lib/s2tt/include/ripas.h. *)
Inductive ripas := RIPAS_EMPTY | RIPAS_RAM | RIPAS_DESTROYED | RIPAS_DEV.
Inductive ripas_change_destroyed := NO_CHANGE_DESTROYED | CHANGE_DESTROYED.

#[export] Instance ripas_eq_dec : EqDecision ripas.
Proof. solve_decision. Defined.
#[export] Instance ripas_change_destroyed_eq_dec : EqDecision ripas_change_destroyed.
Proof. solve_decision. Defined.

Definition ripas_to_Z (r : ripas) : Z :=
  match r with
  | RIPAS_EMPTY => RMI_EMPTY
  | RIPAS_RAM => RMI_RAM
  | RIPAS_DESTROYED => RMI_DESTROYED
  | RIPAS_DEV => 3
  end.

(** ** Return codes (lib/common/include/status.h) *)

Record return_code_t := { status : Z; index : Z }.

Definition make_return_code (st ix : Z) : return_code_t := {| status := u32 st; index := u32 ix |}.

Definition pack_struct_return_code (rc : return_code_t) : Z :=
  (index rc .<< 8) .| status rc.

(** [index] is an [unsigned char] argument: the caller's cast keeps eight bits. *)
Definition pack_return_code (st ix : Z) : result Z :=
  rassert (st <? RMI_ERROR_COUNT) ≫= λ _,
  mret (pack_struct_return_code (make_return_code st (u8 ix))).

Definition unpack_return_code (error_code : Z) : return_code_t :=
  make_return_code (Z.land (u32 error_code) 255) (Z.shiftr (u32 error_code) 8).

(** * Granules (lib/granule/include/granule_types.h) *)

Definition GRANULE_STATE_NS : Z := 0.
Definition GRANULE_STATE_DELEGATED : Z := 1.
Definition GRANULE_STATE_RD : Z := 2.
Definition GRANULE_STATE_REC : Z := 3.
Definition GRANULE_STATE_REC_AUX : Z := 4.
Definition GRANULE_STATE_DATA : Z := 5.
Definition GRANULE_STATE_RTT : Z := 6.
Definition GRANULE_STATE_APT : Z := 7.

Definition GRN_LOCK_SHIFT : Z := 15.
Definition GRN_LOCK_BIT : Z := 1 .<< GRN_LOCK_SHIFT.
Definition GRN_STATE_SHIFT : Z := 10.
Definition GRN_STATE_WIDTH : Z := 5.
Definition GRN_REFCOUNT_SHIFT : Z := 0.
Definition GRN_REFCOUNT_WIDTH : Z := 10.
Definition STATE_MASK : Z := u16 (MASK GRN_STATE_SHIFT GRN_STATE_WIDTH).
Definition REFCOUNT_MASK : Z := u16 (MASK GRN_REFCOUNT_SHIFT GRN_REFCOUNT_WIDTH).

(** A [struct granule *] is the index of its element of the [granules] array. *)
Record granule := { descriptor : Z; owner_tag : Z }.

(** * Stage 2 configuration (lib/s2tt/include/s2tt.h) *)

Record s2tt_context := {
  ipa_bits : Z;
  s2_starting_level : Z;
  num_root_rtts : Z;
  g_rtt : Z;
  vmid : Z;
  enable_lpa2 : bool;
}.

Record s2tt_walk := { g_llt : Z; windex : Z; last_level : Z }.

Definition S2TT_MIN_STARTING_LEVEL : Z := 0.
Definition S2TT_MIN_STARTING_LEVEL_LPA2 : Z := -1.
Definition S2TT_PAGE_LEVEL : Z := 3.
Definition S2TT_MIN_BLOCK_LEVEL : Z := 1.
Definition S2TT_MAX_PA_BITS : Z := 48.
Definition S2TTE_STRIDE : Z := GRANULE_SHIFT - 3.
Definition S2TTES_PER_S2TT : Z := 1 .<< S2TTE_STRIDE.
Definition S2TTE_STRIDE_LM1 : Z := 4.
Definition S2TTES_PER_S2TT_LM1 : Z := 1 .<< S2TTE_STRIDE_LM1.

(** * Access permission tables (runtime/include/apt.h) *)

Definition MAX_MEM_REGIONS : Z := 20.
Definition CSM_MAX_MASTER_SHARES : Z := 3.

Record master_share := {
  slave_ID : Z;
  slave_rd_pa : Z;
  permission : Z;
  in_use : bool;
}.

Record master_mem := {
  m_region_ID : Z;
  m_ipa_start : Z;
  m_map_size : Z;
  share_count : Z;
  shares : list master_share;
}.

Record slave_mem := {
  master_ID : Z;
  s_region_ID : Z;
  master_rd_pa : Z;
  s_ipa_start : Z;
  s_map_size : Z;
}.

(** [struct enabled_master_regions] and [struct enabled_slave_regions] have the
    same members: a packed array of enabled region indices and its inverse. *)
Record enabled_regions := {
  elen : Z;
  eindex : list Z;
  epos_by_index : list Z;
}.

Record apt := {
  master_memory : list master_mem;
  slave_memory : list slave_mem;
  enabled_mr : enabled_regions;
  enabled_sr : enabled_regions;
  master_used_mask : Z;
  slave_used_mask : Z;
  master_enabled_mask : Z;
  slave_enabled_mask : Z;
}.

(** The all-zero structures that [memset] and freshly delegated granules hold. *)
Definition master_share_zero : master_share :=
  {| slave_ID := 0; slave_rd_pa := 0; permission := 0; in_use := false |}.
Definition master_mem_zero : master_mem :=
  {| m_region_ID := 0; m_ipa_start := 0; m_map_size := 0; share_count := 0;
     shares := replicate (Z.to_nat CSM_MAX_MASTER_SHARES) master_share_zero |}.
Definition slave_mem_zero : slave_mem :=
  {| master_ID := 0; s_region_ID := 0; master_rd_pa := 0; s_ipa_start := 0; s_map_size := 0 |}.
Definition enabled_regions_zero : enabled_regions :=
  {| elen := 0; eindex := replicate (Z.to_nat MAX_MEM_REGIONS) 0;
     epos_by_index := replicate (Z.to_nat MAX_MEM_REGIONS) 0 |}.
Definition apt_zero : apt :=
  {| master_memory := replicate (Z.to_nat MAX_MEM_REGIONS) master_mem_zero;
     slave_memory := replicate (Z.to_nat MAX_MEM_REGIONS) slave_mem_zero;
     enabled_mr := enabled_regions_zero; enabled_sr := enabled_regions_zero;
     master_used_mask := 0; slave_used_mask := 0;
     master_enabled_mask := 0; slave_enabled_mask := 0 |}.

(** * Realm descriptor and REC (runtime/include/realm.h, rec.h) *)

Definition REALM_NEW : Z := 0.
Definition REALM_ACTIVE : Z := 1.
Definition REALM_SYSTEM_OFF : Z := 2.

(** [enum hash_algo] of lib/measurement/include/measurement.h. *)
Inductive hash_algo := HASH_SHA_256 | HASH_SHA_512.

(** [struct simd_config] of lib/arch/include/simd.h. *)
Record simd_config := { sve_en : bool; sve_vq : Z; sme_en : bool }.
Definition simd_config_zero : simd_config := {| sve_en := false; sve_vq := 0; sme_en := false |}.

(** [struct rd]; the measurements are the RIM, in the first slot, and the four that a realm extends. *)
Record rd := {
  rd_state : Z;
  rec_count : Z;
  rim : list Z;
  rems : list (list Z);
  s2_ctx : s2tt_context;
  num_rec_aux : Z;
  algorithm : hash_algo;
  pmu_enabled : bool;
  pmu_num_ctrs : Z;
  simd_cfg : simd_config;
  rpv : list Z;
  apt_pa : Z;
}.

(** [struct simd_context] of lib/arch/include/simd.h, less the saved vector registers. *)
Record simd_context := { sc_owner : Z; sc_tflags : Z; sc_sflags : Z; sc_cptr_el2 : Z; sc_svcr : Z; sc_zcr_el2 : Z }.
Definition simd_context_zero : simd_context :=
  {| sc_owner := 0; sc_tflags := 0; sc_sflags := 0; sc_cptr_el2 := 0; sc_svcr := 0; sc_zcr_el2 := 0 |}.

(** [struct gic_cpu_state] of lib/gic/include/gic.h. *)
Record gic_cpu_state := {
  ich_ap0r_el2 : list Z;
  ich_ap1r_el2 : list Z;
  ich_vmcr_el2 : Z;
  ich_hcr_el2 : Z;
  ich_lr_el2 : list Z;
  ich_misr_el2 : Z;
}.

(** The members of [struct sysreg_state] that the monitor gives values to, as opposed to those
    it only saves and restores. *)
Record sysreg_state := {
  elr_el1 : Z;
  spsr_el1 : Z;
  pmcr_el0 : Z;
  sctlr_el1 : Z;
  esr_el1 : Z;
  far_el1 : Z;
  vbar_el1 : Z;
  mdscr_el1 : Z;
  cnthctl_el2 : Z;
  gicstate : gic_cpu_state;
  vmpidr_el2 : Z;
  hcr_el2 : Z;
  cptr_el2 : Z;
}.

Record common_sysreg_state := { c_vttbr_el2 : Z; c_vtcr_el2 : Z; c_hcr_el2 : Z; c_mdcr_el2 : Z }.

(** [enum ripas_response] *)
Inductive ripas_response := ACCEPT | REJECT.

Record set_ripas_info := {
  sr_base : Z;
  sr_top : Z;
  sr_addr : Z;
  sr_ripas_val : ripas;
  sr_change_destroyed : ripas_change_destroyed;
  sr_response : ripas_response;
}.

(** The member [realm_info] of [struct rec]: values common to the RECs of a realm. *)
Record rec_realm_info := {
  inf_g_rd : Z;
  inf_pmu_enabled : bool;
  inf_pmu_num_ctrs : Z;
  inf_algorithm : hash_algo;
  inf_simd_cfg : simd_config;
  inf_s2_ctx : s2tt_context;
}.

Record last_run_info := { last_esr : Z; last_hpfar : Z; last_far : Z }.
Record serror_info := { serror_vsesr_el2 : Z; serror_inject : bool }.

(** [struct rec], less what only the assembly code and the save and restore of the processor
    state use (the stack pointer, the pointer authentication keys, the pointers to the state
    of the host's processor and into the auxiliary granules). *)
Record rec := {
  g_rec : Z;
  rec_idx : Z;
  runnable : bool;
  regs : list Z;
  pc : Z;
  pstate : Z;
  sysregs : sysreg_state;
  common_sysregs : common_sysreg_state;
  set_ripas : set_ripas_info;
  realm_info : rec_realm_info;
  last_run : last_run_info;
  psci_pending : bool;
  rec_num_aux : Z;
  g_aux : list Z;
  serror : serror_info;
  host_call : bool;
}.
Definition ri_g_rd (r : rec) : Z := inf_g_rd (realm_info r).
Definition ri_s2_ctx (r : rec) : s2tt_context := inf_s2_ctx (realm_info r).

Definition set_runnable (v : bool) (r : rec) : rec :=
  {| g_rec := g_rec r; rec_idx := rec_idx r; runnable := v; regs := regs r; pc := pc r; pstate := pstate
     r; sysregs := sysregs r; common_sysregs := common_sysregs r; set_ripas := set_ripas r; realm_info :=
     realm_info r; last_run := last_run r; psci_pending := psci_pending r; rec_num_aux := rec_num_aux r;
     g_aux := g_aux r; serror := serror r; host_call := host_call r |}.
Definition set_regs (v : list Z) (r : rec) : rec :=
  {| g_rec := g_rec r; rec_idx := rec_idx r; runnable := runnable r; regs := v; pc := pc r; pstate :=
     pstate r; sysregs := sysregs r; common_sysregs := common_sysregs r; set_ripas := set_ripas r;
     realm_info := realm_info r; last_run := last_run r; psci_pending := psci_pending r; rec_num_aux :=
     rec_num_aux r; g_aux := g_aux r; serror := serror r; host_call := host_call r |}.
Definition set_pc (v : Z) (r : rec) : rec :=
  {| g_rec := g_rec r; rec_idx := rec_idx r; runnable := runnable r; regs := regs r; pc := v; pstate :=
     pstate r; sysregs := sysregs r; common_sysregs := common_sysregs r; set_ripas := set_ripas r;
     realm_info := realm_info r; last_run := last_run r; psci_pending := psci_pending r; rec_num_aux :=
     rec_num_aux r; g_aux := g_aux r; serror := serror r; host_call := host_call r |}.
Definition set_pstate (v : Z) (r : rec) : rec :=
  {| g_rec := g_rec r; rec_idx := rec_idx r; runnable := runnable r; regs := regs r; pc := pc r; pstate
     := v; sysregs := sysregs r; common_sysregs := common_sysregs r; set_ripas := set_ripas r; realm_info
     := realm_info r; last_run := last_run r; psci_pending := psci_pending r; rec_num_aux := rec_num_aux
     r; g_aux := g_aux r; serror := serror r; host_call := host_call r |}.
Definition set_sysregs (v : sysreg_state) (r : rec) : rec :=
  {| g_rec := g_rec r; rec_idx := rec_idx r; runnable := runnable r; regs := regs r; pc := pc r; pstate
     := pstate r; sysregs := v; common_sysregs := common_sysregs r; set_ripas := set_ripas r; realm_info
     := realm_info r; last_run := last_run r; psci_pending := psci_pending r; rec_num_aux := rec_num_aux
     r; g_aux := g_aux r; serror := serror r; host_call := host_call r |}.
Definition set_common_sysregs (v : common_sysreg_state) (r : rec) : rec :=
  {| g_rec := g_rec r; rec_idx := rec_idx r; runnable := runnable r; regs := regs r; pc := pc r; pstate
     := pstate r; sysregs := sysregs r; common_sysregs := v; set_ripas := set_ripas r; realm_info :=
     realm_info r; last_run := last_run r; psci_pending := psci_pending r; rec_num_aux := rec_num_aux r;
     g_aux := g_aux r; serror := serror r; host_call := host_call r |}.
Definition set_set_ripas (v : set_ripas_info) (r : rec) : rec :=
  {| g_rec := g_rec r; rec_idx := rec_idx r; runnable := runnable r; regs := regs r; pc := pc r; pstate
     := pstate r; sysregs := sysregs r; common_sysregs := common_sysregs r; set_ripas := v; realm_info :=
     realm_info r; last_run := last_run r; psci_pending := psci_pending r; rec_num_aux := rec_num_aux r;
     g_aux := g_aux r; serror := serror r; host_call := host_call r |}.
Definition set_realm_info (v : rec_realm_info) (r : rec) : rec :=
  {| g_rec := g_rec r; rec_idx := rec_idx r; runnable := runnable r; regs := regs r; pc := pc r; pstate
     := pstate r; sysregs := sysregs r; common_sysregs := common_sysregs r; set_ripas := set_ripas r;
     realm_info := v; last_run := last_run r; psci_pending := psci_pending r; rec_num_aux := rec_num_aux
     r; g_aux := g_aux r; serror := serror r; host_call := host_call r |}.
Definition set_last_run (v : last_run_info) (r : rec) : rec :=
  {| g_rec := g_rec r; rec_idx := rec_idx r; runnable := runnable r; regs := regs r; pc := pc r; pstate
     := pstate r; sysregs := sysregs r; common_sysregs := common_sysregs r; set_ripas := set_ripas r;
     realm_info := realm_info r; last_run := v; psci_pending := psci_pending r; rec_num_aux :=
     rec_num_aux r; g_aux := g_aux r; serror := serror r; host_call := host_call r |}.
Definition set_psci_pending (v : bool) (r : rec) : rec :=
  {| g_rec := g_rec r; rec_idx := rec_idx r; runnable := runnable r; regs := regs r; pc := pc r; pstate
     := pstate r; sysregs := sysregs r; common_sysregs := common_sysregs r; set_ripas := set_ripas r;
     realm_info := realm_info r; last_run := last_run r; psci_pending := v; rec_num_aux := rec_num_aux r;
     g_aux := g_aux r; serror := serror r; host_call := host_call r |}.
Definition set_serror (v : serror_info) (r : rec) : rec :=
  {| g_rec := g_rec r; rec_idx := rec_idx r; runnable := runnable r; regs := regs r; pc := pc r; pstate
     := pstate r; sysregs := sysregs r; common_sysregs := common_sysregs r; set_ripas := set_ripas r;
     realm_info := realm_info r; last_run := last_run r; psci_pending := psci_pending r; rec_num_aux :=
     rec_num_aux r; g_aux := g_aux r; serror := v; host_call := host_call r |}.
Definition set_host_call (v : bool) (r : rec) : rec :=
  {| g_rec := g_rec r; rec_idx := rec_idx r; runnable := runnable r; regs := regs r; pc := pc r; pstate
     := pstate r; sysregs := sysregs r; common_sysregs := common_sysregs r; set_ripas := set_ripas r;
     realm_info := realm_info r; last_run := last_run r; psci_pending := psci_pending r; rec_num_aux :=
     rec_num_aux r; g_aux := g_aux r; serror := serror r; host_call := v |}.
Definition set_sctlr_el1 (v : Z) (y : sysreg_state) : sysreg_state :=
  {| elr_el1 := elr_el1 y; spsr_el1 := spsr_el1 y; pmcr_el0 := pmcr_el0 y; sctlr_el1 := v; esr_el1 :=
     esr_el1 y; far_el1 := far_el1 y; vbar_el1 := vbar_el1 y; mdscr_el1 := mdscr_el1 y; cnthctl_el2 :=
     cnthctl_el2 y; gicstate := gicstate y; vmpidr_el2 := vmpidr_el2 y; hcr_el2 := hcr_el2 y; cptr_el2 :=
     cptr_el2 y |}.
Definition set_gicstate (v : gic_cpu_state) (y : sysreg_state) : sysreg_state :=
  {| elr_el1 := elr_el1 y; spsr_el1 := spsr_el1 y; pmcr_el0 := pmcr_el0 y; sctlr_el1 := sctlr_el1 y;
     esr_el1 := esr_el1 y; far_el1 := far_el1 y; vbar_el1 := vbar_el1 y; mdscr_el1 := mdscr_el1 y;
     cnthctl_el2 := cnthctl_el2 y; gicstate := v; vmpidr_el2 := vmpidr_el2 y; hcr_el2 := hcr_el2 y;
     cptr_el2 := cptr_el2 y |}.
Definition set_hcr_el2 (v : Z) (y : sysreg_state) : sysreg_state :=
  {| elr_el1 := elr_el1 y; spsr_el1 := spsr_el1 y; pmcr_el0 := pmcr_el0 y; sctlr_el1 := sctlr_el1 y;
     esr_el1 := esr_el1 y; far_el1 := far_el1 y; vbar_el1 := vbar_el1 y; mdscr_el1 := mdscr_el1 y;
     cnthctl_el2 := cnthctl_el2 y; gicstate := gicstate y; vmpidr_el2 := vmpidr_el2 y; hcr_el2 := v;
     cptr_el2 := cptr_el2 y |}.

(** The states of memory that is all zero. *)
Definition gic_cpu_state_zero : gic_cpu_state :=
  {| ich_ap0r_el2 := replicate 4 0; ich_ap1r_el2 := replicate 4 0; ich_vmcr_el2 := 0; ich_hcr_el2 := 0;
     ich_lr_el2 := replicate 16 0; ich_misr_el2 := 0 |}.
Definition sysreg_state_zero : sysreg_state :=
  {| elr_el1 := 0; spsr_el1 := 0; pmcr_el0 := 0; sctlr_el1 := 0; esr_el1 := 0; far_el1 := 0; vbar_el1 := 0;
     mdscr_el1 := 0; cnthctl_el2 := 0; gicstate := gic_cpu_state_zero; vmpidr_el2 := 0; hcr_el2 := 0; cptr_el2 := 0 |}.
Definition set_ripas_zero : set_ripas_info :=
  {| sr_base := 0; sr_top := 0; sr_addr := 0; sr_ripas_val := RIPAS_EMPTY; sr_change_destroyed := NO_CHANGE_DESTROYED;
     sr_response := ACCEPT |}.

Definition s2tt_context_zero : s2tt_context :=
  {| ipa_bits := 0; s2_starting_level := 0; num_root_rtts := 0; g_rtt := 0;
     vmid := 0; enable_lpa2 := false |}.

Definition realm_info_zero : rec_realm_info :=
  {| inf_g_rd := 0; inf_pmu_enabled := false; inf_pmu_num_ctrs := 0; inf_algorithm := HASH_SHA_256;
     inf_simd_cfg := simd_config_zero; inf_s2_ctx := s2tt_context_zero |}.
Definition rec_zero : rec :=
  {| g_rec := 0; rec_idx := 0; runnable := false; regs := replicate 31 0; pc := 0; pstate := 0;
     sysregs := sysreg_state_zero;
     common_sysregs := {| c_vttbr_el2 := 0; c_vtcr_el2 := 0; c_hcr_el2 := 0; c_mdcr_el2 := 0 |};
     set_ripas := set_ripas_zero; realm_info := realm_info_zero;
     last_run := {| last_esr := 0; last_hpfar := 0; last_far := 0 |}; psci_pending := false; rec_num_aux := 0;
     g_aux := replicate 16 0; serror := {| serror_vsesr_el2 := 0; serror_inject := false |}; host_call := false |}.

(** * The state of the monitor *)

(** What a granule's 4KB hold, at the type at which the code accesses them. [PData]
    carries the bytes of realm data or of host memory. *)
Inductive page :=
| PZero
| PData (bytes : list Z)
| PTable (s2tt : list Z)
| PRd (r : rd)
| PRec (r : rec)
| PApt (a : apt)
| PSimd (c : simd_context).

(** The RMM's tag and region-ID registries (runtime/core/realm_tag.c, csm_id.c). *)
Record tag_entry := { te_rd_pa : Z; te_tag : Z; te_in_use : bool }.
Record tag_registry := {
  g_tags : list tag_entry;
  g_tag_lock : bool;
  g_tag_next_index : Z;
  g_tag_counter : Z;
}.

Record csm_region_id_entry := { ce_owner_rd_pa : Z; ce_region_id : Z; ce_in_use : bool }.
Record csm_registry := {
  g_csm_region_ids : list csm_region_id_entry;
  g_csm_region_id_lock : bool;
  g_csm_region_id_counter : Z;
}.

(** The TLB maintenance instructions, with the VMID they act on: [tlbiipas2e1is] for one
    page of intermediate addresses, and [tlbivmalle1is]. *)
Inductive tlb_event :=
| TlbIpas2e1is (vmid ipa_page : Z)
| TlbVmalle1is (vmid : Z).

(** [granules] and [mem] are indexed by granule; [slots] maps a buffer slot of the
    CPU to the granule mapped there; [tlbi] is the log of TLB invalidations, latest
    first; [vmids] is the bitmap of VMIDs in use, 64 to a word. *)
Record state := {
  granules : gmap Z granule;
  mem : gmap Z page;
  slots : gmap Z Z;
  vttbr_el2 : Z;
  tlbi : list tlb_event;
  tags : tag_registry;
  csm_ids : csm_registry;
  vmids : list Z;
}.

Definition set_granules (f : gmap Z granule) (s : state) : state :=
  {| granules := f; mem := mem s; slots := slots s; vttbr_el2 := vttbr_el2 s;
     tlbi := tlbi s; tags := tags s; csm_ids := csm_ids s; vmids := vmids s |}.
Definition set_mem (f : gmap Z page) (s : state) : state :=
  {| granules := granules s; mem := f; slots := slots s; vttbr_el2 := vttbr_el2 s;
     tlbi := tlbi s; tags := tags s; csm_ids := csm_ids s; vmids := vmids s |}.
Definition set_slots (f : gmap Z Z) (s : state) : state :=
  {| granules := granules s; mem := mem s; slots := f; vttbr_el2 := vttbr_el2 s;
     tlbi := tlbi s; tags := tags s; csm_ids := csm_ids s; vmids := vmids s |}.
Definition set_vttbr_el2 (v : Z) (s : state) : state :=
  {| granules := granules s; mem := mem s; slots := slots s; vttbr_el2 := v;
     tlbi := tlbi s; tags := tags s; csm_ids := csm_ids s; vmids := vmids s |}.
Definition set_tlbi (l : list tlb_event) (s : state) : state :=
  {| granules := granules s; mem := mem s; slots := slots s; vttbr_el2 := vttbr_el2 s;
     tlbi := l; tags := tags s; csm_ids := csm_ids s; vmids := vmids s |}.
Definition set_tags (t : tag_registry) (s : state) : state :=
  {| granules := granules s; mem := mem s; slots := slots s; vttbr_el2 := vttbr_el2 s;
     tlbi := tlbi s; tags := t; csm_ids := csm_ids s; vmids := vmids s |}.
Definition set_csm_ids (c : csm_registry) (s : state) : state :=
  {| granules := granules s; mem := mem s; slots := slots s; vttbr_el2 := vttbr_el2 s;
     tlbi := tlbi s; tags := tags s; csm_ids := c; vmids := vmids s |}.
Definition set_vmids (v : list Z) (s : state) : state :=
  {| granules := granules s; mem := mem s; slots := slots s; vttbr_el2 := vttbr_el2 s;
     tlbi := tlbi s; tags := tags s; csm_ids := csm_ids s; vmids := v |}.

(** A state in which nothing is mapped and no table is populated. *)
Definition state_init : state :=
  {| granules := ∅; mem := ∅; slots := ∅; vttbr_el2 := 0; tlbi := [];
     tags := {| g_tags := []; g_tag_lock := false; g_tag_next_index := 0; g_tag_counter := 1 |};
     csm_ids := {| g_csm_region_ids := []; g_csm_region_id_lock := false; g_csm_region_id_counter := 1 |};
     vmids := replicate 1024 0 |}.
