(* ===== verification/Granule.v ===== *)
(** Granule descriptors: the bit fields of the 16-bit descriptor word, the
    operations of lib/granule/include/granule.h on them and the bit lock of
    granule_lock.h. A descriptor is shown to behave as a triple of a lock flag, a
    state and a reference count. *)
From S2P Require Import Prelude Types.

(** * Access to the granules array *)

(** [*g], where [g] points into [granules]. *)
Definition granule_read (g : Z) : M state granule :=
  gets granules ≫= λ gs, mderef (gs !! g).

Definition put_granule (g : Z) (gr : granule) (s : state) : state :=
  set_granules (<[g := gr]> (granules s)) s.

Definition granule_write (g : Z) (gr : granule) : M state () :=
  granule_read g ≫= λ _, mmodify (put_granule g gr).

(** An atomic read-modify-write of [g->descriptor]; the answer is the old value. *)
Definition atomic_rmw_16 (f : Z → Z) (g : Z) : M state Z :=
  granule_read g ≫= λ gr,
  granule_write g {| descriptor := u16 (f (descriptor gr)); owner_tag := owner_tag gr |} ≫= λ _,
  mret (descriptor gr).

Definition atomic_load_add_16 (g val : Z) : M state Z := atomic_rmw_16 (λ d, d + val) g.
Definition atomic_eor_16 (g val : Z) : M state Z := atomic_rmw_16 (λ d, Z.lxor d val) g.

(** * Descriptor fields *)

Definition RTT_REFCOUNT_MAX : Z := 512.
Definition REFCOUNT_MAX : Z := 2 ^ GRN_REFCOUNT_WIDTH - 1.

Definition d_locked (d : Z) : bool := negb (Z.land d GRN_LOCK_BIT =? 0).
Definition d_refcount (d : Z) : Z := Z.land d REFCOUNT_MASK.
Definition d_state (d : Z) : Z := u8 (EXTRACT GRN_STATE_SHIFT GRN_STATE_WIDTH d).

Definition LOCKED (g : Z) : M state bool := granule_read g ≫= λ gr, mret (d_locked (descriptor gr)).
Definition REFCOUNT (g : Z) : M state Z := granule_read g ≫= λ gr, mret (d_refcount (descriptor gr)).
Definition STATE (g : Z) : M state Z := granule_read g ≫= λ gr, mret (d_state (descriptor gr)).

Definition assert_locked (g : Z) : M state () := LOCKED g ≫= massert.

Definition granule_refcount_read (g : Z) : M state Z := REFCOUNT g.
Definition granule_refcount_read_acquire (g : Z) : M state Z :=
  assert_locked g ≫= λ _, REFCOUNT g.

(** The condition asserted for a state by [__granule_assert_unlocked_invariants]. *)
Definition unlocked_invariant (st refcount : Z) : bool :=
  if st =? GRANULE_STATE_NS then refcount =? 0
  else if st =? GRANULE_STATE_DELEGATED then refcount =? 0
  else if st =? GRANULE_STATE_RD then true
  else if st =? GRANULE_STATE_REC then refcount <=? 1
  else if st =? GRANULE_STATE_DATA then refcount =? 0
  else if st =? GRANULE_STATE_APT then refcount =? 0
  else if st =? GRANULE_STATE_RTT then refcount <=? RTT_REFCOUNT_MAX
  else if st =? GRANULE_STATE_REC_AUX then refcount =? 0
  else false.

Definition granule_assert_unlocked_invariants (g st : Z) : M state () :=
  REFCOUNT g ≫= λ rc, massert (unlocked_invariant st rc).

Definition granule_unlocked_state (g : Z) : M state Z := STATE g.
Definition granule_get_state (g : Z) : M state Z := assert_locked g ≫= λ _, STATE g.

Definition granule_set_state (g st : Z) : M state () :=
  assert_locked g ≫= λ _,
  granule_read g ≫= λ gr,
  let val := u16 (Z.lxor (Z.land (descriptor gr) STATE_MASK)
                         (u32 (Z.shiftl st GRN_STATE_SHIFT))) in
  atomic_eor_16 g val ≫= λ _, mret ().

(** * The bit lock *)

(** [ldsetah] sets the bit and returns the old word; while the bit was already set
    the loop goes on. No other agent runs in a sequential execution, so a lock that
    is held when it is requested is never released. *)
Definition granule_bitlock_acquire (g : Z) : M state () :=
  atomic_rmw_16 (λ d, Z.lor d GRN_LOCK_BIT) g ≫= λ old,
  if Z.testbit old GRN_LOCK_SHIFT then mfault FHang else mret ().

Definition granule_bitlock_release (g : Z) : M state () :=
  atomic_rmw_16 (λ d, Z.ldiff d GRN_LOCK_BIT) g ≫= λ _, mret ().

Definition granule_lock_on_state_match (g expected_state : Z) : M state bool :=
  granule_bitlock_acquire g ≫= λ _,
  granule_get_state g ≫= λ st,
  if negb (st =? expected_state) then
    granule_bitlock_release g ≫= λ _, mret false
  else
    granule_assert_unlocked_invariants g expected_state ≫= λ _, mret true.

Definition granule_lock (g expected_state : Z) : M state () :=
  granule_lock_on_state_match g expected_state ≫= massert.

Definition granule_unlock (g : Z) : M state () :=
  granule_get_state g ≫= λ st,
  granule_assert_unlocked_invariants g st ≫= λ _,
  granule_bitlock_release g.

Definition granule_unlock_transition (g new_state : Z) : M state () :=
  granule_set_state g new_state ≫= λ _, granule_unlock g.

(** * Reference counts *)

Definition granule_refcount_inc (g val : Z) : M state () :=
  assert_locked g ≫= λ _,
  atomic_load_add_16 g val ≫= λ old,
  massert (Z.land old REFCOUNT_MASK + val <=? REFCOUNT_MAX).

Definition atomic_granule_get (g : Z) : M state () := granule_refcount_inc g 1.

Definition granule_refcount_dec (g val : Z) : M state () :=
  assert_locked g ≫= λ _,
  atomic_load_add_16 g (u16 (- val)) ≫= λ old,
  massert (val <=? Z.land old REFCOUNT_MASK).

Definition atomic_granule_put (g : Z) : M state () := granule_refcount_dec g 1.

Definition atomic_granule_put_release (g : Z) : M state () :=
  atomic_load_add_16 g (u16 (- 1)) ≫= λ old,
  massert (negb (Z.land old REFCOUNT_MASK =? 0)).

Definition is_granule_locked (g : Z) : M state bool := LOCKED g.

(** * The abstract view of a descriptor *)

Record gview := { v_locked : bool; v_state : Z; v_refcount : Z }.

Definition gview_ok (v : gview) : Prop :=
  0 <= v_state v < 32 ∧ 0 <= v_refcount v <= REFCOUNT_MAX.

Definition desc (v : gview) : Z :=
  Z.lor (Z.lor (if v_locked v then GRN_LOCK_BIT else 0) (Z.shiftl (v_state v) GRN_STATE_SHIFT))
        (v_refcount v).

Definition view (d : Z) : gview :=
  {| v_locked := d_locked d; v_state := d_state d; v_refcount := d_refcount d |}.

(** ** Bits of the fields *)

Lemma state_inmask st : 0 <= st < 32 → inmask STATE_MASK (Z.shiftl st GRN_STATE_SHIFT).
Proof.
  intros Hst. unfold inmask. change STATE_MASK with (Z.shiftl 31 10).
  change GRN_STATE_SHIFT with 10. rewrite <- Z.shiftl_land. f_equal.
  change 31 with (2 ^ 5 - 1). rewrite land_ones_mod by lia. by apply Z.mod_small.
Qed.

Lemma refcount_inmask rc : 0 <= rc <= REFCOUNT_MAX → inmask REFCOUNT_MASK rc.
Proof.
  intros Hrc. unfold inmask. change REFCOUNT_MASK with (2 ^ 10 - 1).
  rewrite land_ones_mod by lia. apply Z.mod_small. change REFCOUNT_MAX with 1023 in Hrc. lia.
Qed.

Lemma lock_inmask (b : bool) : inmask GRN_LOCK_BIT (if b then GRN_LOCK_BIT else 0).
Proof. by destruct b. Qed.

Ltac view_masks :=
  match goal with
  | H : gview_ok ?v |- _ =>
      let H1 := fresh "Hst" in let H2 := fresh "Hrc" in let H3 := fresh "Hlk" in
      pose proof (state_inmask _ (proj1 H)) as H1;
      pose proof (refcount_inmask _ (proj2 H)) as H2;
      pose proof (lock_inmask (v_locked v)) as H3
  end.

Lemma desc_locked v : gview_ok v → d_locked (desc v) = v_locked v.
Proof.
  intros Hv. view_masks. unfold d_locked, desc. mask_simpl. by destruct (v_locked v).
Qed.

Lemma desc_refcount v : gview_ok v → d_refcount (desc v) = v_refcount v.
Proof. intros Hv. view_masks. unfold d_refcount, desc. by mask_simpl. Qed.

Lemma desc_state_bits v :
  gview_ok v → Z.land (desc v) STATE_MASK = Z.shiftl (v_state v) GRN_STATE_SHIFT.
Proof. intros Hv. view_masks. unfold desc. by mask_simpl. Qed.

Lemma desc_state v : gview_ok v → d_state (desc v) = v_state v.
Proof.
  intros Hv. unfold d_state, EXTRACT. change (MASK _ _) with STATE_MASK.
  rewrite desc_state_bits by done. rewrite Z.shiftr_shiftl_l by done.
  change (GRN_STATE_SHIFT - GRN_STATE_SHIFT) with 0. rewrite Z.shiftl_0_r.
  apply Z.mod_small. destruct Hv. lia.
Qed.

Lemma desc_view v : gview_ok v → view (desc v) = v.
Proof.
  intros Hv. unfold view. rewrite desc_locked, desc_state, desc_refcount by done. by destruct v.
Qed.

Lemma desc_range v : gview_ok v → 0 <= desc v < 2 ^ 16.
Proof.
  intros Hv. view_masks.
  assert (H : inmask 65535 (desc v)).
  { unfold inmask, desc. mask_simpl. done. }
  apply inmask_range in H; lia.
Qed.

Lemma u16_small x : 0 <= x < 2 ^ 16 → u16 x = x.
Proof. apply Z.mod_small. Qed.

(** The fields as an ordinary positional sum, for the additive operations. *)
Lemma desc_sum v :
  gview_ok v →
  desc v = (if v_locked v then 32768 else 0) + v_state v * 1024 + v_refcount v.
Proof.
  intros Hv. view_masks. unfold desc. rewrite !lor_add by (mask_simpl; done).
  rewrite Z.shiftl_mul_pow2 by done. change GRN_LOCK_BIT with 32768. done.
Qed.

Lemma lxor_field x m y :
  inmask m y → Z.lxor x (Z.lxor (Z.land x m) y) = Z.lor (Z.ldiff x m) y.
Proof.
  intros Hy. apply Z.bits_inj'. intros i Hi.
  assert (Hyi : Z.testbit y i = Z.testbit y i && Z.testbit m i).
  { rewrite <- Z.land_spec. by rewrite Hy. }
  rewrite !Z.lxor_spec, Z.lor_spec, Z.ldiff_spec, Z.land_spec.
  by destruct (Z.testbit x i), (Z.testbit m i), (Z.testbit y i).
Qed.

Lemma ldiff_lor_l a b m : Z.ldiff (Z.lor a b) m = Z.lor (Z.ldiff a m) (Z.ldiff b m).
Proof.
  apply Z.bits_inj'. intros i Hi. rewrite !Z.ldiff_spec, !Z.lor_spec, !Z.ldiff_spec.
  by destruct (Z.testbit a i), (Z.testbit b i), (Z.testbit m i).
Qed.

Lemma ldiff_inmask_out m a k : inmask m a → Z.land m k = 0 → Z.ldiff a k = a.
Proof.
  intros Ha Hk. pose proof (inmask_disjoint m a k Ha Hk) as H.
  apply Z.bits_inj'. intros i Hi. rewrite Z.ldiff_spec.
  assert (Hi' : Z.testbit (Z.land a k) i = false) by (rewrite H; apply Z.testbit_0_l).
  rewrite Z.land_spec in Hi'. by destruct (Z.testbit a i), (Z.testbit k i).
Qed.

Lemma ldiff_inmask_in m a k : inmask m a → Z.ldiff m k = 0 → Z.ldiff a k = 0.
Proof.
  intros Ha Hk. apply Z.bits_inj'. intros i Hi. rewrite Z.ldiff_spec, Z.testbit_0_l.
  assert (Hm : Z.testbit (Z.ldiff m k) i = false) by (rewrite Hk; apply Z.testbit_0_l).
  rewrite Z.ldiff_spec in Hm.
  assert (Hai : Z.testbit a i = Z.testbit a i && Z.testbit m i).
  { rewrite <- Z.land_spec. by rewrite Ha. }
  by destruct (Z.testbit a i), (Z.testbit m i), (Z.testbit k i).
Qed.

Definition with_state (st : Z) (v : gview) : gview :=
  {| v_locked := v_locked v; v_state := st; v_refcount := v_refcount v |}.
Definition with_locked (b : bool) (v : gview) : gview :=
  {| v_locked := b; v_state := v_state v; v_refcount := v_refcount v |}.
Definition with_refcount (rc : Z) (v : gview) : gview :=
  {| v_locked := v_locked v; v_state := v_state v; v_refcount := rc |}.

Lemma desc_eor_state v st :
  gview_ok v → 0 <= st < 32 →
  Z.lxor (desc v) (u16 (Z.lxor (Z.land (desc v) STATE_MASK) (u32 (Z.shiftl st GRN_STATE_SHIFT))))
  = desc (with_state st v).
Proof.
  intros Hv Hst'. pose proof (state_inmask _ Hst') as Hm.
  assert (Hs : 0 <= Z.shiftl st GRN_STATE_SHIFT <= STATE_MASK) by (by apply inmask_range).
  change STATE_MASK with 31744 in Hs.
  unfold u32. rewrite (Z.mod_small (Z.shiftl _ _)) by lia.
  rewrite u16_small.
  - rewrite lxor_field by done. view_masks. unfold desc, with_state; simpl.
    rewrite !ldiff_lor_l.
    rewrite (ldiff_inmask_out _ _ _ Hlk) by done.
    rewrite (ldiff_inmask_in _ _ _ Hst) by done.
    rewrite (ldiff_inmask_out _ _ _ Hrc) by done.
    rewrite Z.lor_0_r, <- !Z.lor_assoc, (Z.lor_comm (Z.shiftl _ _)). done.
  - assert (H : inmask 65535 (Z.lxor (Z.land (desc v) STATE_MASK) (Z.shiftl st GRN_STATE_SHIFT))).
    { apply inmask_lxor; apply (inmask_weaken STATE_MASK); done || apply inmask_land_l. }
    apply inmask_range in H; lia.
Qed.

Lemma desc_acquire v :
  gview_ok v → Z.lor (desc v) GRN_LOCK_BIT = desc (with_locked true v).
Proof.
  intros Hv. unfold desc, with_locked; simpl.
  rewrite <- !Z.lor_assoc, (Z.lor_comm (v_refcount v)), !Z.lor_assoc.
  rewrite (Z.lor_comm (Z.lor _ _) GRN_LOCK_BIT), !Z.lor_assoc. by destruct (v_locked v).
Qed.

Lemma desc_release v :
  gview_ok v → Z.ldiff (desc v) GRN_LOCK_BIT = desc (with_locked false v).
Proof.
  intros Hv. view_masks. unfold desc, with_locked; simpl. rewrite !ldiff_lor_l.
  rewrite (ldiff_inmask_in _ _ _ Hlk), (ldiff_inmask_out _ _ _ Hst), (ldiff_inmask_out _ _ _ Hrc)
    by done.
  done.
Qed.

Lemma desc_add v n :
  gview_ok v → 0 <= v_refcount v + n <= REFCOUNT_MAX →
  u16 (desc v + u16 n) = desc (with_refcount (v_refcount v + n) v).
Proof.
  intros Hv Hn. unfold u16. rewrite Zplus_mod_idemp_r.
  assert (gview_ok (with_refcount (v_refcount v + n) v)) by (split; [apply Hv | done]).
  rewrite !desc_sum by done.
  destruct Hv as [Hst Hrc]. change REFCOUNT_MAX with 1023 in *. simpl in *.
  rewrite Z.mod_small; [lia|]. destruct (v_locked v); lia.
Qed.

Lemma desc_testbit_lock v : gview_ok v → Z.testbit (desc v) GRN_LOCK_SHIFT = v_locked v.
Proof.
  intros Hv. rewrite <- desc_locked by done. unfold d_locked.
  change GRN_LOCK_BIT with (2 ^ GRN_LOCK_SHIFT). by rewrite land_pow2_testbit.
Qed.

(** * Behaviour of the operations on a viewed granule *)

(** A granule with the given lock flag, state, reference count and owner tag. *)
Definition Gr (lk : bool) (st rc tag : Z) : granule :=
  {| descriptor := desc {| v_locked := lk; v_state := st; v_refcount := rc |}; owner_tag := tag |}.

Definition gok (st rc : Z) : Prop := 0 <= st < 32 ∧ 0 <= rc <= REFCOUNT_MAX.

Lemma Gr_inj lk st rc tag lk' st' rc' tag' :
  gok st rc → gok st' rc' → Gr lk st rc tag = Gr lk' st' rc' tag' →
  lk = lk' ∧ st = st' ∧ rc = rc' ∧ tag = tag'.
Proof.
  intros H H' [= Hd Ht]. apply (f_equal view) in Hd.
  rewrite !desc_view in Hd by done. by simplify_eq.
Qed.

Lemma put_granule_lookup g gr s : granules (put_granule g gr s) !! g = Some gr.
Proof. apply lookup_insert_eq. Qed.

Lemma put_granule_lookup_ne g h gr s :
  g ≠ h → granules (put_granule g gr s) !! h = granules s !! h.
Proof. apply lookup_insert_ne. Qed.

Lemma put_granule_put g gr gr' s : put_granule g gr (put_granule g gr' s) = put_granule g gr s.
Proof. unfold put_granule, set_granules; simpl. by rewrite insert_insert_eq. Qed.

Lemma put_granule_id g gr s : granules s !! g = Some gr → put_granule g gr s = s.
Proof.
  intros H. unfold put_granule, set_granules. rewrite insert_id by done. by destruct s.
Qed.

Lemma put_granule_comm g h gr gr' s :
  g ≠ h → put_granule g gr (put_granule h gr' s) = put_granule h gr' (put_granule g gr s).
Proof.
  intros. unfold put_granule, set_granules; simpl. f_equal. by apply insert_insert_ne.
Qed.

Section ops.
Context (s : state) (g : Z) (lk : bool) (st rc tag : Z).
Hypothesis Hg : granules s !! g = Some (Gr lk st rc tag).
Hypothesis Hok : gok st rc.

Local Lemma Hvok : gview_ok {| v_locked := lk; v_state := st; v_refcount := rc |}.
Proof using Hok. done. Qed.
Local Hint Resolve Hvok : core.

Lemma granule_read_run : granule_read g s = Ok (Gr lk st rc tag, s).
Proof using Hg. unfold granule_read, gets, mbind, M_bind, mderef. by rewrite Hg. Qed.

Lemma granule_write_run gr : granule_write g gr s = Ok ((), put_granule g gr s).
Proof using Hg. unfold granule_write. by run_step granule_read_run. Qed.

Lemma atomic_rmw_16_run f d' :
  u16 (f (descriptor (Gr lk st rc tag))) = d' →
  atomic_rmw_16 f g s
  = Ok (descriptor (Gr lk st rc tag), put_granule g {| descriptor := d'; owner_tag := tag |} s).
Proof using Hg.
  intros <-. unfold atomic_rmw_16. run_step granule_read_run. by run_step (granule_write_run _).
Qed.

Lemma LOCKED_run : LOCKED g s = Ok (lk, s).
Proof using Hg Hok.
  unfold LOCKED. run_step granule_read_run. simpl. by rewrite desc_locked.
Qed.

Lemma REFCOUNT_run : REFCOUNT g s = Ok (rc, s).
Proof using Hg Hok.
  unfold REFCOUNT. run_step granule_read_run. simpl. by rewrite desc_refcount.
Qed.

Lemma STATE_run : STATE g s = Ok (st, s).
Proof using Hg Hok.
  unfold STATE. run_step granule_read_run. simpl. by rewrite desc_state.
Qed.

Lemma assert_locked_run : lk = true → assert_locked g s = Ok ((), s).
Proof using Hg Hok. intros Hl. unfold assert_locked. run_step LOCKED_run. by rewrite Hl. Qed.

Lemma assert_locked_err : lk = false → assert_locked g s = Err FAssert.
Proof using Hg Hok. intros Hl. unfold assert_locked. run_step LOCKED_run. by rewrite Hl. Qed.

Lemma granule_get_state_run : lk = true → granule_get_state g s = Ok (st, s).
Proof using Hg Hok.
  intros Hl. unfold granule_get_state. run_step (assert_locked_run Hl). apply STATE_run.
Qed.

Lemma granule_refcount_read_acquire_run :
  lk = true → granule_refcount_read_acquire g s = Ok (rc, s).
Proof using Hg Hok.
  intros Hl. unfold granule_refcount_read_acquire. run_step (assert_locked_run Hl).
  apply REFCOUNT_run.
Qed.

Lemma granule_set_state_run st' :
  lk = true → 0 <= st' < 32 →
  granule_set_state g st' s = Ok ((), put_granule g (Gr true st' rc tag) s).
Proof using Hg Hok.
  intros Hl Hst'. unfold granule_set_state. run_step (assert_locked_run Hl).
  run_step granule_read_run. unfold atomic_eor_16.
  run_step (atomic_rmw_16_run _ _ eq_refl). cbn [Gr descriptor].
  rewrite desc_eor_state by done. rewrite u16_small by (apply desc_range; split; apply Hok || done).
  by subst lk.
Qed.

Lemma granule_bitlock_acquire_run :
  lk = false → granule_bitlock_acquire g s = Ok ((), put_granule g (Gr true st rc tag) s).
Proof using Hg Hok.
  intros Hl. unfold granule_bitlock_acquire.
  run_step (atomic_rmw_16_run _ _ eq_refl). cbn [Gr descriptor].
  rewrite desc_testbit_lock by done. simpl. rewrite Hl.
  rewrite desc_acquire by done. by rewrite u16_small by (by apply desc_range).
Qed.

(** A lock that is already held is never acquired. *)
Lemma granule_bitlock_acquire_hang : lk = true → granule_bitlock_acquire g s = Err FHang.
Proof using Hg Hok.
  intros Hl. unfold granule_bitlock_acquire.
  run_step (atomic_rmw_16_run _ _ eq_refl). cbn [Gr descriptor].
  rewrite desc_testbit_lock by done. simpl. by rewrite Hl.
Qed.

Lemma granule_bitlock_release_run :
  granule_bitlock_release g s = Ok ((), put_granule g (Gr false st rc tag) s).
Proof using Hg Hok.
  unfold granule_bitlock_release.
  run_step (atomic_rmw_16_run _ _ eq_refl). cbn [Gr descriptor].
  rewrite desc_release by done. by rewrite u16_small by (by apply desc_range).
Qed.

Lemma granule_assert_unlocked_invariants_run st' :
  unlocked_invariant st' rc = true → granule_assert_unlocked_invariants g st' s = Ok ((), s).
Proof using Hg Hok.
  intros H. unfold granule_assert_unlocked_invariants. run_step REFCOUNT_run. by rewrite H.
Qed.

Lemma granule_unlock_run :
  lk = true → unlocked_invariant st rc = true →
  granule_unlock g s = Ok ((), put_granule g (Gr false st rc tag) s).
Proof using Hg Hok.
  intros Hl Hi. unfold granule_unlock. run_step (granule_get_state_run Hl).
  run_step (granule_assert_unlocked_invariants_run st Hi). apply granule_bitlock_release_run.
Qed.

Lemma granule_refcount_inc_run n :
  lk = true → 0 <= n → rc + n <= REFCOUNT_MAX →
  granule_refcount_inc g n s = Ok ((), put_granule g (Gr true st (rc + n) tag) s).
Proof using Hg Hok.
  intros Hl Hn Hle. unfold granule_refcount_inc. run_step (assert_locked_run Hl).
  unfold atomic_load_add_16.
  run_step (atomic_rmw_16_run _ _ eq_refl). cbn [Gr descriptor].
  change (Z.land ?d REFCOUNT_MASK) with (d_refcount d).
  rewrite desc_refcount by done. simpl.
  rewrite massert_run by (by apply Z.leb_le).
  assert (Hn16 : n = u16 n) by (rewrite u16_small; destruct Hok; change REFCOUNT_MAX with 1023 in *; lia).
  rewrite Hn16 at 1. rewrite desc_add; [by subst lk | done | simpl; destruct Hok; lia].
Qed.

Lemma granule_refcount_dec_run n :
  lk = true → 0 <= n <= rc →
  granule_refcount_dec g n s = Ok ((), put_granule g (Gr true st (rc - n) tag) s).
Proof using Hg Hok.
  intros Hl Hn. unfold granule_refcount_dec. run_step (assert_locked_run Hl).
  unfold atomic_load_add_16.
  run_step (atomic_rmw_16_run _ _ eq_refl). cbn [Gr descriptor].
  change (Z.land ?d REFCOUNT_MASK) with (d_refcount d).
  rewrite desc_refcount by done. simpl.
  rewrite massert_run by (apply Z.leb_le; lia).
  rewrite desc_add; [by subst lk | done | simpl; destruct Hok; lia].
Qed.

Lemma atomic_granule_put_release_run :
  1 <= rc →
  atomic_granule_put_release g s = Ok ((), put_granule g (Gr lk st (rc - 1) tag) s).
Proof using Hg Hok.
  intros Hn. unfold atomic_granule_put_release, atomic_load_add_16.
  run_step (atomic_rmw_16_run _ _ eq_refl). cbn [Gr descriptor].
  change (Z.land ?d REFCOUNT_MASK) with (d_refcount d).
  rewrite desc_refcount by done. simpl.
  rewrite massert_run by (apply negb_true_iff, Z.eqb_neq; lia).
  rewrite desc_add; [done | done | simpl; destruct Hok; lia].
Qed.

Lemma granule_unlock_err :
  lk && unlocked_invariant st rc = false → granule_unlock g s = Err FAssert.
Proof using Hg Hok.
  intros Hf. unfold granule_unlock, granule_get_state.
  apply andb_false_iff in Hf as [Hl|Hi].
  - by rewrite (bind_run_err _ _ _ _ (bind_run_err _ _ _ _ (assert_locked_err Hl))).
  - destruct (Bool.bool_dec lk true) as [Hl|Hl].
    + run_step (granule_get_state_run Hl). apply bind_run_err.
      unfold granule_assert_unlocked_invariants. run_step REFCOUNT_run. by rewrite Hi.
    + apply not_true_is_false in Hl.
      by rewrite (bind_run_err _ _ _ _ (bind_run_err _ _ _ _ (assert_locked_err Hl))).
Qed.

Lemma granule_refcount_inc_err n :
  lk && (rc + n <=? REFCOUNT_MAX) = false → granule_refcount_inc g n s = Err FAssert.
Proof using Hg Hok.
  intros Hf. unfold granule_refcount_inc. apply andb_false_iff in Hf as [Hl|Hn].
  - by rewrite (bind_run_err _ _ _ _ (assert_locked_err Hl)).
  - destruct (Bool.bool_dec lk true) as [Hl|Hl].
    + run_step (assert_locked_run Hl). unfold atomic_load_add_16.
      run_step (atomic_rmw_16_run _ _ eq_refl). cbn [Gr descriptor].
      change (Z.land ?d REFCOUNT_MASK) with (d_refcount d). rewrite desc_refcount by done.
      simpl. by rewrite Hn.
    + apply not_true_is_false in Hl. by rewrite (bind_run_err _ _ _ _ (assert_locked_err Hl)).
Qed.

Lemma granule_refcount_dec_err n :
  lk && (n <=? rc) = false → granule_refcount_dec g n s = Err FAssert.
Proof using Hg Hok.
  intros Hf. unfold granule_refcount_dec. apply andb_false_iff in Hf as [Hl|Hn].
  - by rewrite (bind_run_err _ _ _ _ (assert_locked_err Hl)).
  - destruct (Bool.bool_dec lk true) as [Hl|Hl].
    + run_step (assert_locked_run Hl). unfold atomic_load_add_16.
      run_step (atomic_rmw_16_run _ _ eq_refl). cbn [Gr descriptor].
      change (Z.land ?d REFCOUNT_MASK) with (d_refcount d). rewrite desc_refcount by done.
      simpl. by rewrite Hn.
    + apply not_true_is_false in Hl. by rewrite (bind_run_err _ _ _ _ (assert_locked_err Hl)).
Qed.

Lemma atomic_granule_put_release_err :
  rc = 0 → atomic_granule_put_release g s = Err FAssert.
Proof using Hg Hok.
  intros Hn. unfold atomic_granule_put_release, atomic_load_add_16.
  run_step (atomic_rmw_16_run _ _ eq_refl). cbn [Gr descriptor].
  change (Z.land ?d REFCOUNT_MASK) with (d_refcount d). rewrite desc_refcount by done.
  simpl. by rewrite Hn.
Qed.

End ops.
Arguments granule_read_run {s g lk st rc tag}.
Arguments granule_write_run {s g lk st rc tag}.
Arguments atomic_rmw_16_run {s g lk st rc tag}.
Arguments LOCKED_run {s g lk st rc tag}.
Arguments REFCOUNT_run {s g lk st rc tag}.
Arguments STATE_run {s g lk st rc tag}.
Arguments assert_locked_run {s g lk st rc tag}.
Arguments assert_locked_err {s g lk st rc tag}.
Arguments granule_get_state_run {s g lk st rc tag}.
Arguments granule_refcount_read_acquire_run {s g lk st rc tag}.
Arguments granule_set_state_run {s g lk st rc tag}.
Arguments granule_bitlock_acquire_run {s g lk st rc tag}.
Arguments granule_bitlock_acquire_hang {s g lk st rc tag}.
Arguments granule_bitlock_release_run {s g lk st rc tag}.
Arguments granule_assert_unlocked_invariants_run {s g lk st rc tag}.
Arguments granule_unlock_run {s g lk st rc tag}.
Arguments granule_refcount_inc_run {s g lk st rc tag}.
Arguments granule_refcount_dec_run {s g lk st rc tag}.
Arguments atomic_granule_put_release_run {s g lk st rc tag}.
Arguments granule_unlock_err {s g lk st rc tag}.
Arguments granule_refcount_inc_err {s g lk st rc tag}.
Arguments granule_refcount_dec_err {s g lk st rc tag}.
Arguments atomic_granule_put_release_err {s g lk st rc tag}.

(** Taking a free lock: the state is tested under the lock, and the lock is dropped
    again when it does not match. *)
Lemma granule_lock_on_state_match_run s g st rc tag e :
  granules s !! g = Some (Gr false st rc tag) → gok st rc →
  granule_lock_on_state_match g e s
  = if st =? e then
      if unlocked_invariant e rc then Ok (true, put_granule g (Gr true st rc tag) s)
      else Err FAssert
    else Ok (false, s).
Proof.
  intros Hg Hok. unfold granule_lock_on_state_match.
  run_step (granule_bitlock_acquire_run Hg Hok eq_refl).
  pose proof (put_granule_lookup g (Gr true st rc tag) s) as H1.
  run_step (granule_get_state_run H1 Hok eq_refl).
  destruct (st =? e); simpl.
  - unfold granule_assert_unlocked_invariants.
    rewrite (bind_assoc (REFCOUNT g)). run_step (REFCOUNT_run H1 Hok).
    by destruct (unlocked_invariant e rc).
  - run_step (granule_bitlock_release_run H1 Hok). by rewrite put_granule_put, put_granule_id.
Qed.

Lemma granule_lock_on_state_match_hang s g st rc tag e :
  granules s !! g = Some (Gr true st rc tag) → gok st rc →
  granule_lock_on_state_match g e s = Err FHang.
Proof.
  intros Hg Hok. unfold granule_lock_on_state_match.
  by rewrite (bind_run_err _ _ _ _ (granule_bitlock_acquire_hang Hg Hok eq_refl)).
Qed.

Lemma granule_lock_run s g st rc tag :
  granules s !! g = Some (Gr false st rc tag) → gok st rc → unlocked_invariant st rc = true →
  granule_lock g st s = Ok ((), put_granule g (Gr true st rc tag) s).
Proof.
  intros Hg Hok Hi. unfold granule_lock, mbind, M_bind.
  rewrite (granule_lock_on_state_match_run _ _ _ _ _ _ Hg Hok). by rewrite Z.eqb_refl, Hi.
Qed.

Lemma granule_unlock_transition_run s g st rc tag st' :
  granules s !! g = Some (Gr true st rc tag) → gok st rc → 0 <= st' < 32 →
  unlocked_invariant st' rc = true →
  granule_unlock_transition g st' s = Ok ((), put_granule g (Gr false st' rc tag) s).
Proof.
  intros Hg Hok Hst' Hi. unfold granule_unlock_transition.
  run_step (granule_set_state_run Hg Hok _ eq_refl Hst').
  rewrite (granule_unlock_run (put_granule_lookup _ _ _) (conj Hst' (proj2 Hok)) eq_refl Hi).
  by rewrite put_granule_put.
Qed.

(** * Refinement: a descriptor is a triple *)

(** The abstract machine of one granule. Its answers are the faults of a debug
    build: a failed assertion, or spinning on a lock that is held. *)
Inductive gop :=
| OAcquire
| ORelease
| OSetState (st : Z)
| OInc (n : Z)
| ODec (n : Z)
| OPutRelease
| OLock (expected : Z)
| OUnlock
| OUnlockTransition (st : Z).

Definition gop_ok (o : gop) : Prop :=
  match o with
  | OSetState st | OUnlockTransition st | OLock st => 0 <= st < 32
  | OInc n | ODec n => 0 <= n < 2 ^ 16
  | _ => True
  end.

Definition spec_unlock (v : gview) : result gview :=
  if v_locked v && unlocked_invariant (v_state v) (v_refcount v)
  then Ok (with_locked false v) else Err FAssert.

Definition spec_count (must_lock : bool) (n : Z) (v : gview) : result gview :=
  if (v_locked v || negb must_lock) && (0 <=? v_refcount v + n) && (v_refcount v + n <=? REFCOUNT_MAX)
  then Ok (with_refcount (v_refcount v + n) v) else Err FAssert.

Definition gop_spec (o : gop) (v : gview) : result gview :=
  match o with
  | OAcquire => if v_locked v then Err FHang else Ok (with_locked true v)
  | ORelease => Ok (with_locked false v)
  | OSetState st => if v_locked v then Ok (with_state st v) else Err FAssert
  | OInc n => spec_count true n v
  | ODec n => spec_count true (- n) v
  | OPutRelease => spec_count false (-1) v
  | OLock st =>
      if v_locked v then Err FHang
      else if (v_state v =? st) && unlocked_invariant st (v_refcount v)
           then Ok (with_locked true v) else Err FAssert
  | OUnlock => spec_unlock v
  | OUnlockTransition st =>
      if v_locked v then spec_unlock (with_state st v) else Err FAssert
  end.

Definition gop_impl (o : gop) (g : Z) : M state () :=
  match o with
  | OAcquire => granule_bitlock_acquire g
  | ORelease => granule_bitlock_release g
  | OSetState st => granule_set_state g st
  | OInc n => granule_refcount_inc g n
  | ODec n => granule_refcount_dec g n
  | OPutRelease => atomic_granule_put_release g
  | OLock st => granule_lock g st
  | OUnlock => granule_unlock g
  | OUnlockTransition st => granule_unlock_transition g st
  end.

Lemma desc_of_view d : 0 <= d < 2 ^ 16 → desc (view d) = d.
Proof.
  intros Hd. unfold desc, view; simpl. rewrite <- (u16_small d Hd) at 4.
  assert (Hs : Z.shiftl (d_state d) GRN_STATE_SHIFT = Z.land d STATE_MASK).
  { unfold d_state, EXTRACT. change (MASK _ _) with STATE_MASK.
    unfold u8. rewrite Z.mod_small.
    - apply Z.bits_inj'. intros i Hi. rewrite Z.shiftl_spec by done.
      destruct (Z.ltb_spec i 10).
      + rewrite (Z.testbit_neg_r _ (i - GRN_STATE_SHIFT)) by (change GRN_STATE_SHIFT with 10; lia).
        change STATE_MASK with (Z.shiftl 31 10). rewrite Z.land_spec, Z.shiftl_spec by done.
        rewrite (Z.testbit_neg_r 31) by lia. by rewrite andb_false_r.
      + rewrite Z.shiftr_spec by (change GRN_STATE_SHIFT with 10; lia). f_equal. lia.
    - rewrite Z.shiftr_div_pow2 by done. pose proof (land_bound d STATE_MASK ltac:(done)) as Hb.
      change STATE_MASK with 31744 in *. change (2 ^ GRN_STATE_SHIFT) with 1024.
      split; [apply Z.div_pos; lia | apply Z.div_lt_upper_bound; lia]. }
  rewrite Hs. unfold d_locked, d_refcount. change GRN_LOCK_BIT with (2 ^ 15).
  rewrite land_pow2_testbit by done. unfold u16. rewrite <- land_ones_mod by done.
  apply Z.bits_inj'. intros i Hi. rewrite !Z.lor_spec, !Z.land_spec.
  replace (2 ^ 16 - 1) with (Z.lor (Z.lor (2 ^ 15) STATE_MASK) REFCOUNT_MASK) by done.
  rewrite !Z.lor_spec, !andb_orb_distrib_r. f_equal. f_equal.
  rewrite Z.pow2_bits_eqb by done. destruct (Z.eqb_spec 15 i) as [<-|Hne].
  - rewrite andb_true_r. by destruct (Z.testbit d 15).
  - rewrite andb_false_r. destruct (Z.testbit d 15); [|by rewrite Z.testbit_0_l].
    rewrite Z.pow2_bits_eqb by done. by apply Z.eqb_neq.
Qed.

Lemma view_ok d : gview_ok (view d).
Proof.
  unfold gview_ok, view; simpl. split.
  - unfold d_state, EXTRACT, u8. change (MASK _ _) with STATE_MASK.
    pose proof (land_bound d STATE_MASK ltac:(done)) as Hb.
    change STATE_MASK with 31744 in *. rewrite Z.shiftr_div_pow2 by done.
    change (2 ^ GRN_STATE_SHIFT) with 1024.
    assert (0 <= Z.land d 31744 / 1024 < 32)
      by (split; [apply Z.div_pos; lia | apply Z.div_lt_upper_bound; lia]).
    rewrite Z.mod_small; lia.
  - apply (land_bound d REFCOUNT_MASK). done.
Qed.


