(* ===== verification/Platform.v ===== *)
(** The platform's granule numbering: the boot manifest check of
    lib/rmm_el3_ifc/src/rmm_el3_ifc_manifest.c, the DRAM layout of
    plat/arm/src/arm_memory.c and the two binary searches of plat/arm/src/arm_granule.c
    (plat/rk3588 has the same code). The class [PlatformLaws] is what the granule
    library needs of a platform; a layout built from a validated manifest provides
    it. *)
From S2P Require Import Prelude Types.

(** * What the granule library uses of a platform (platform_api.h) *)

Class Platform := {
  RMM_MAX_GRANULES : Z;
  plat_granule_addr_to_idx : Z → result Z;
  plat_granule_idx_to_addr : Z → result Z;
}.

(** The two functions are total on their domains and inverse to each other, and number
    adjacent granules consecutively. *)
Class PlatformLaws (P : Platform) := {
  plat_max : 0 < RMM_MAX_GRANULES < 2 ^ 64 - 1;
  plat_addr_total a :
    is_u64 a → GRANULE_ALIGNED a = true →
    ∃ i, plat_granule_addr_to_idx a = Ok i ∧ 0 <= i < 2 ^ 64;
  plat_addr_idx a i :
    is_u64 a → GRANULE_ALIGNED a = true →
    plat_granule_addr_to_idx a = Ok i → i < RMM_MAX_GRANULES →
    plat_granule_idx_to_addr i = Ok a;
  plat_idx_addr i a :
    0 <= i → plat_granule_idx_to_addr i = Ok a →
    is_u64 a ∧ GRANULE_ALIGNED a = true ∧ a < 2 ^ 52 ∧ i < RMM_MAX_GRANULES ∧
    plat_granule_addr_to_idx a = Ok i;
  plat_addr_next a i j :
    GRANULE_ALIGNED a = true → GRANULE_ALIGNED (a + 4096) = true →
    plat_granule_addr_to_idx a = Ok i → i < RMM_MAX_GRANULES →
    plat_granule_addr_to_idx (a + 4096) = Ok j → j < RMM_MAX_GRANULES → j = i + 1;
}.

(** * Arm platforms *)

Record arm_dram_bank := { base : Z; size : Z; start_gran_idx : Z }.
Record arm_dram_layout := {
  num_granules : Z;
  num_banks : Z;
  bank : list arm_dram_bank;
}.

(** The boot manifest's description of DRAM: the address of the array of banks, and
    the banks that are there. *)
Record ns_dram_bank := { nb_base : Z; nb_size : Z }.
Record ns_dram_info := {
  ni_num_banks : Z;
  ni_banks_ptr : Z;
  ni_banks : list ns_dram_bank;
  ni_checksum : Z;
}.

Definition E_RMM_BOOT_SUCCESS : Z := 0.
Definition E_RMM_BOOT_MANIFEST_VERSION_NOT_SUPPORTED : Z := -6.
Definition E_RMM_BOOT_MANIFEST_DATA_ERROR : Z := -7.

Section arm.
(** [PLAT_ARM_MAX_DRAM_BANKS] and [RMM_MAX_GRANULES] come from the build. *)
Context (PLAT_ARM_MAX_DRAM_BANKS MAX_GRANULES : Z).

(** ** Validation of the manifest *)

(** One iteration of the loop over the banks: [None] is a rejected bank. *)
Definition check_bank (pa_width : Z) (b : ns_dram_bank) (acc : Z * Z * Z) : option (Z * Z * Z) :=
  let '(checksum, end_, num_granules) := acc in
  let start := nb_base b in
  let sz := nb_size b in
  if (start =? 0) || (sz =? 0) || negb (Z.land (Z.lor start sz) 4095 =? 0) then None
  else if start <? end_ then None
  else
    let checksum := checksum .+ (start .+ sz) in
    let end_ := (start .+ sz) .- 1 in
    if (1 .<< pa_width) <=? end_ then None
    else Some (checksum, end_, num_granules .+ (sz / GRANULE_SIZE)).

Fixpoint check_banks (pa_width : Z) (n : nat) (banks : list ns_dram_bank) (acc : Z * Z * Z)
  : result (option (Z * Z * Z)) :=
  match n with
  | O => Ok (Some acc)
  | S n' =>
      match banks with
      | [] => Err FBadAccess
      | b :: banks' =>
          match check_bank pa_width b acc with
          | None => Ok None
          | Some acc' => check_banks pa_width n' banks' acc'
          end
      end
  end.

Definition rmm_el3_ifc_get_dram_data_validated_pa
    (version pa_width max_num_banks : Z) (plat_dram : ns_dram_info) : result Z :=
  if version <? 2 then Ok E_RMM_BOOT_MANIFEST_VERSION_NOT_SUPPORTED
  else if (ni_num_banks plat_dram =? 0) || (max_num_banks <? ni_num_banks plat_dram)
          || (ni_banks_ptr plat_dram =? 0)
  then Ok E_RMM_BOOT_MANIFEST_DATA_ERROR
  else
    let checksum := (ni_num_banks plat_dram .+ ni_banks_ptr plat_dram) .+ ni_checksum plat_dram in
    check_banks pa_width (Z.to_nat (ni_num_banks plat_dram)) (ni_banks plat_dram) (checksum, 0, 0)
    ≫= λ r,
    match r with
    | None => Ok E_RMM_BOOT_MANIFEST_DATA_ERROR
    | Some (checksum, _, num_granules) =>
        if negb (checksum =? 0) then Ok E_RMM_BOOT_MANIFEST_DATA_ERROR
        else if MAX_GRANULES <? num_granules then Ok E_RMM_BOOT_MANIFEST_DATA_ERROR
        else Ok E_RMM_BOOT_SUCCESS
    end.

(** ** Layout *)

Fixpoint set_banks (n : nat) (banks : list ns_dram_bank) (num_granules : Z)
  : result (list arm_dram_bank * Z) :=
  match n with
  | O => Ok ([], num_granules)
  | S n' =>
      match banks with
      | [] => Err FBadAccess
      | b :: banks' =>
          set_banks n' banks' (num_granules .+ (nb_size b .>> GRANULE_SHIFT)) ≫= λ r,
          Ok ({| base := nb_base b; size := nb_size b; start_gran_idx := num_granules |} :: r.1, r.2)
      end
  end.

(** Entries of [bank[]] past [num_banks] keep their zero initial value. *)
Definition arm_set_dram_layout (plat_dram : ns_dram_info) : result arm_dram_layout :=
  let n := ni_num_banks plat_dram in
  rassert (0 <? n) ≫= λ _,
  rassert (n <=? PLAT_ARM_MAX_DRAM_BANKS) ≫= λ _,
  set_banks (Z.to_nat n) (ni_banks plat_dram) 0 ≫= λ '(bs, ng),
  rassert (ng <=? MAX_GRANULES) ≫= λ _,
  Ok {| num_granules := ng; num_banks := n;
        bank := bs ++ replicate (Z.to_nat (PLAT_ARM_MAX_DRAM_BANKS - n))
                        {| base := 0; size := 0; start_gran_idx := 0 |} |}.

(** ** Searches *)

(** The loop [while (l <= r)] of both searches. [below0] is what happens when the
    target lies below bank 0: a [break] ([Ok ()]) or a failed assertion. The answer is
    the matching bank. The interval shrinks in each iteration, so [num_banks]
    iterations are enough. *)
Fixpoint bank_search (fuel : nat) (probe : arm_dram_bank → comparison) (below0 : result ())
    (banks : list arm_dram_bank) (l r : Z) : result (option arm_dram_bank) :=
  match fuel with
  | O => Err FHang
  | S fuel' =>
      if l <=? r then
        let i := l .+ ((r .- l) / 2) in
        rassert (i <? PLAT_ARM_MAX_DRAM_BANKS) ≫= λ _,
        aget banks i ≫= λ b,
        match probe b with
        | Lt => if i =? 0 then below0 ≫= λ _, Ok None
                else bank_search fuel' probe below0 banks l (i .- 1)
        | Gt => bank_search fuel' probe below0 banks (i .+ 1) r
        | Eq => Ok (Some b)
        end
      else Ok None
  end.

Definition probe_addr (addr : Z) (b : arm_dram_bank) : comparison :=
  if addr <? base b then Lt
  else if ((base b .+ size b) .- 1) <? addr then Gt
  else Eq.

Definition probe_idx (idx : Z) (b : arm_dram_bank) : comparison :=
  let idx_start := start_gran_idx b in
  let idx_end := (idx_start .+ (size b .>> GRANULE_SHIFT)) .- 1 in
  if idx <? idx_start then Lt
  else if idx_end <? idx then Gt
  else Eq.

Definition UINT64_MAX : Z := 2 ^ 64 - 1.

Definition arm_granule_addr_to_idx (dram : arm_dram_layout) (addr : Z) : result Z :=
  if negb (GRANULE_ALIGNED addr) then Ok UINT64_MAX
  else
    rassert (0 <? num_banks dram) ≫= λ _,
    rassert (num_banks dram <=? PLAT_ARM_MAX_DRAM_BANKS) ≫= λ _,
    bank_search (S (Z.to_nat (num_banks dram))) (probe_addr addr) (Ok ()) (bank dram)
      0 (num_banks dram .- 1) ≫= λ r,
    match r with
    | Some b => Ok (start_gran_idx b .+ ((addr .- base b) .>> GRANULE_SHIFT))
    | None => Ok UINT64_MAX
    end.

Definition arm_granule_idx_to_addr (dram : arm_dram_layout) (idx : Z) : result Z :=
  rassert (0 <? num_banks dram) ≫= λ _,
  rassert (idx <? num_granules dram) ≫= λ _,
  bank_search (S (Z.to_nat (num_banks dram))) (probe_idx idx) (Err FAssert) (bank dram)
    0 (num_banks dram .- 1) ≫= λ r,
  match r with
  | Some b => Ok (base b .+ ((idx .- start_gran_idx b) .<< GRANULE_SHIFT))
  | None => Err FAssert
  end.

Definition arm_platform (dram : arm_dram_layout) : Platform := {|
  RMM_MAX_GRANULES := MAX_GRANULES;
  plat_granule_addr_to_idx := arm_granule_addr_to_idx dram;
  plat_granule_idx_to_addr := arm_granule_idx_to_addr dram;
|}.

(** * Correctness of the searches *)

Section search.
Context (probe : arm_dram_bank → comparison) (below0 : result ()) (banks : list arm_dram_bank) (n : Z).
Hypothesis Hn : 0 <= n <= PLAT_ARM_MAX_DRAM_BANKS.
Hypothesis Hmax : PLAT_ARM_MAX_DRAM_BANKS < 2 ^ 32.
Hypothesis Hlen : n <= Z.of_nat (length banks).

(** Banks are ordered: below a bank that is too low every bank is too low. *)
Hypothesis Hlt : ∀ i j b c, (i < j)%nat → Z.of_nat j < n →
  banks !! i = Some b → banks !! j = Some c → probe b ≠ Gt → probe c = Lt.
Hypothesis Hgt : ∀ i j b c, (i < j)%nat → Z.of_nat j < n →
  banks !! i = Some b → banks !! j = Some c → probe c ≠ Lt → probe b = Gt.

Lemma mid_word l r : 0 <= l → l <= r < n → l .+ ((r .- l) / 2) = l + (r - l) / 2.
Proof using Hn Hmax.
  clear Hlen Hlt Hgt. intros. rewrite (u64_small (r - l)) by (unfold is_u64; lia).
  assert (0 <= (r - l) / 2 <= r - l) by (split; [apply Z.div_pos | apply Z.div_le_upper_bound]; lia).
  apply u64_small. unfold is_u64. lia.
Qed.

Lemma mid_range l r : l <= r → l <= l + (r - l) / 2 <= r.
Proof using.
  clear. intros. assert (0 <= (r - l) / 2 <= r - l)
    by (split; [apply Z.div_pos | apply Z.div_le_upper_bound]; lia). lia.
Qed.

Lemma bank_search_found fuel l r k b :
  0 <= l → l <= Z.of_nat k <= r → r < n → r - l < Z.of_nat fuel →
  banks !! k = Some b → probe b = Eq →
  bank_search fuel probe below0 banks l r = Ok (Some b).
Proof using All.
  revert l r. induction fuel as [|fuel IH]; intros l r Hl Hk Hr Hf Hb Hp; [lia|].
  cbn [bank_search]. rewrite (proj2 (Z.leb_le l r)) by lia.
  rewrite mid_word by lia. pose proof (mid_range l r ltac:(lia)) as Hi.
  set (i := l + (r - l) / 2) in *. cbv zeta.
  rewrite rassert_bind by (apply Z.ltb_lt; lia).
  destruct (aget_in_range banks i) as (c & Hc & Hc'); [lia|]. rewrite Hc, result_bind_ok.
  destruct (Nat.lt_trichotomy (Z.to_nat i) k) as [Hik|[Hik|Hik]].
  - rewrite (Hgt (Z.to_nat i) k c b) by (done || lia || by rewrite Hp).
    rewrite (u64_small (i + 1)) by (unfold is_u64; lia). apply IH; done || lia.
  - subst k. rewrite Hb in Hc'. simplify_eq. by rewrite Hp.
  - rewrite (Hlt k (Z.to_nat i) b c) by (done || lia || by rewrite Hp).
    rewrite (proj2 (Z.eqb_neq i 0)) by lia.
    rewrite (u64_small (i - 1)) by (unfold is_u64; lia). apply IH; done || lia.
Qed.

Lemma bank_search_none fuel l r :
  below0 = Ok () →
  (∀ k b, Z.of_nat k < n → banks !! k = Some b → probe b ≠ Eq) →
  0 <= l → r < n → r - l + 1 < Z.of_nat fuel → (0 < fuel)%nat →
  bank_search fuel probe below0 banks l r = Ok None.
Proof using Hlen Hmax Hn.
  clear Hlt Hgt. intros H0 Hno. revert l r. induction fuel as [|fuel IH]; intros l r Hl Hr Hf Hf0; [lia|].
  cbn [bank_search]. destruct (Z.leb_spec l r); [|done].
  rewrite mid_word by lia. pose proof (mid_range l r ltac:(lia)) as Hi.
  set (i := l + (r - l) / 2) in *. cbv zeta.
  rewrite rassert_bind by (apply Z.ltb_lt; lia).
  destruct (aget_in_range banks i) as (c & Hc & Hc'); [lia|]. rewrite Hc, result_bind_ok.
  destruct (probe c) eqn:Hp.
  - by destruct (Hno (Z.to_nat i) c); [lia|..].
  - destruct (Z.eqb_spec i 0); [by rewrite H0|].
    rewrite (u64_small (i - 1)) by (unfold is_u64; lia). apply IH; lia.
  - rewrite (u64_small (i + 1)) by (unfold is_u64; lia). apply IH; lia.
Qed.
End search.

(** * Layouts *)

(** Banks from address [lo] and granule number [g] on: aligned, in ascending order
    without overlap, numbered consecutively. The last number is [ng]. *)
Fixpoint banks_chain (lo g ng : Z) (l : list arm_dram_bank) : Prop :=
  match l with
  | [] => g = ng
  | b :: l' =>
      lo <= base b ∧ base b mod 4096 = 0 ∧ size b mod 4096 = 0 ∧ 0 < size b ∧
      base b + size b <= 2 ^ 52 ∧ start_gran_idx b = g ∧
      banks_chain (base b + size b) (g + size b / 4096) ng l'
  end.

Record layout_ok (dram : arm_dram_layout) : Prop := {
  lo_max : 0 < MAX_GRANULES < 2 ^ 40;
  lo_banks_max : PLAT_ARM_MAX_DRAM_BANKS < 2 ^ 32;
  lo_num : 0 < num_banks dram <= PLAT_ARM_MAX_DRAM_BANKS;
  lo_len : length (bank dram) = Z.to_nat PLAT_ARM_MAX_DRAM_BANKS;
  lo_ng : num_granules dram <= MAX_GRANULES;
  lo_chain : banks_chain 0 0 (num_granules dram) (take (Z.to_nat (num_banks dram)) (bank dram));
}.

Lemma banks_chain_ng lo g ng l : banks_chain lo g ng l → g <= ng.
Proof.
  revert lo g. induction l as [|b l IH]; intros lo g; simpl; [lia|].
  intros (_ & _ & _ & Hs & _ & _ & Hc). apply IH in Hc.
  assert (0 <= size b / 4096) by (apply Z.div_pos; lia). lia.
Qed.

Lemma banks_chain_lookup lo g ng l i b :
  banks_chain lo g ng l → l !! i = Some b →
  lo <= base b ∧ base b mod 4096 = 0 ∧ size b mod 4096 = 0 ∧ 0 < size b ∧
  base b + size b <= 2 ^ 52 ∧ g <= start_gran_idx b ∧
  start_gran_idx b + size b / 4096 <= ng.
Proof.
  revert lo g i. induction l as [|c l IH]; intros lo g i; simpl; [done|].
  intros (? & ? & ? & ? & ? & ? & Hc) Hi.
  assert (0 <= size c / 4096) by (apply Z.div_pos; lia).
  destruct i as [|i]; simpl in Hi.
  - simplify_eq. apply banks_chain_ng in Hc. repeat split; lia.
  - specialize (IH _ _ _ Hc Hi). repeat split; lia.
Qed.

Lemma banks_chain_order lo g ng l i j b c :
  banks_chain lo g ng l → (i < j)%nat → l !! i = Some b → l !! j = Some c →
  base b + size b <= base c ∧ start_gran_idx b + size b / 4096 <= start_gran_idx c.
Proof.
  revert lo g i j. induction l as [|d l IH]; intros lo g i j; simpl; [done|].
  intros (? & ? & ? & ? & ? & ? & Hc) Hij Hi Hj.
  destruct j as [|j]; [lia|]. simpl in Hj. destruct i as [|i]; simpl in Hi.
  - simplify_eq. apply (banks_chain_lookup _ _ _ _ _ _ Hc) in Hj. lia.
  - eapply (IH _ _ i j); done || lia.
Qed.

(** Every granule number below [ng] is in a bank. *)
Lemma banks_chain_cover lo g ng l x :
  banks_chain lo g ng l → g <= x < ng →
  ∃ i b, l !! i = Some b ∧ start_gran_idx b <= x < start_gran_idx b + size b / 4096.
Proof.
  revert lo g. induction l as [|b l IH]; intros lo g; simpl; [lia|].
  intros (? & ? & ? & ? & ? & ? & Hc) Hx.
  destruct (Z.lt_ge_cases x (g + size b / 4096)).
  - exists 0%nat, b. split; [done|lia].
  - destruct (IH _ _ Hc) as (i & c & ? & ?); [lia|]. by exists (S i), c.
Qed.

(** * The laws hold of a well-formed layout *)

Section layout.
Context (dram : arm_dram_layout) (Hdram : layout_ok dram).

Local Abbreviation nb := (Z.to_nat (num_banks dram)).

Lemma layout_lookup i b :
  Z.of_nat i < num_banks dram → bank dram !! i = Some b → take nb (bank dram) !! i = Some b.
Proof using Hdram. intros Hi Hb. rewrite lookup_take_lt by lia. done. Qed.

Lemma layout_bank i b :
  Z.of_nat i < num_banks dram → bank dram !! i = Some b →
  0 <= base b ∧ base b mod 4096 = 0 ∧ size b mod 4096 = 0 ∧ 0 < size b ∧
  base b + size b <= 2 ^ 52 ∧ 0 <= start_gran_idx b ∧
  start_gran_idx b + size b / 4096 <= num_granules dram.
Proof using Hdram.
  intros Hi Hb%layout_lookup; [|done]. by eapply banks_chain_lookup; [apply Hdram|].
Qed.

Lemma layout_order i j b c :
  (i < j)%nat → Z.of_nat j < num_banks dram → bank dram !! i = Some b → bank dram !! j = Some c →
  base b + size b <= base c ∧ start_gran_idx b + size b / 4096 <= start_gran_idx c.
Proof using Hdram.
  intros Hij Hj Hb%layout_lookup Hc%layout_lookup; [|lia|lia].
  by eapply banks_chain_order; [apply Hdram|..].
Qed.

(** A bank holds whole granules: its extent in bytes and in granules. *)
Lemma bank_extent b : size b mod 4096 = 0 → size b = 4096 * (size b / 4096).
Proof using. intros H. pose proof (Z.div_mod (size b) 4096 ltac:(lia)). lia. Qed.

Lemma probe_addr_eq a i b :
  Z.of_nat i < num_banks dram → bank dram !! i = Some b →
  probe_addr a b = if a <? base b then Lt else if base b + size b <=? a then Gt else Eq.
Proof using Hdram.
  intros Hi Hb. destruct (layout_bank _ _ Hi Hb) as (? & ? & ? & ? & ? & ? & ?).
  unfold probe_addr. rewrite (u64_small (base b + size b)), u64_small by (unfold is_u64; lia).
  destruct (a <? base b); [done|].
  destruct (Z.leb_spec (base b + size b) a), (Z.ltb_spec (base b + size b - 1) a); done || lia.
Qed.

Lemma probe_idx_eq x i b :
  Z.of_nat i < num_banks dram → bank dram !! i = Some b →
  probe_idx x b = if x <? start_gran_idx b then Lt
                  else if start_gran_idx b + size b / 4096 <=? x then Gt else Eq.
Proof using Hdram.
  intros Hi Hb. destruct (layout_bank _ _ Hi Hb) as (? & ? & Hs & ? & ? & ? & ?).
  pose proof (bank_extent b Hs). pose proof (lo_ng _ Hdram). pose proof (lo_max _ Hdram).
  unfold probe_idx. rewrite Z.shiftr_div_pow2 by done. change (2 ^ GRANULE_SHIFT) with 4096.
  rewrite (u64_small (start_gran_idx b + size b / 4096)), u64_small by (unfold is_u64; lia).
  destruct (x <? start_gran_idx b); [done|].
  destruct (Z.leb_spec (start_gran_idx b + size b / 4096) x),
    (Z.ltb_spec (start_gran_idx b + size b / 4096 - 1) x); done || lia.
Qed.

Ltac probe_cases :=
  repeat match goal with
  | |- context [?a <? ?b] => destruct (Z.ltb_spec a b)
  | |- context [?a <=? ?b] => destruct (Z.leb_spec a b)
  | H : context [?a <? ?b] |- _ => destruct (Z.ltb_spec a b)
  | H : context [?a <=? ?b] |- _ => destruct (Z.leb_spec a b)
  end; done || lia.

Lemma probe_ordered (probe : arm_dram_bank → comparison) (lo hi : arm_dram_bank → Z) x :
  (∀ i b, Z.of_nat i < num_banks dram → bank dram !! i = Some b →
     probe b = if x <? lo b then Lt else if hi b <=? x then Gt else Eq) →
  (∀ i b, Z.of_nat i < num_banks dram → bank dram !! i = Some b → lo b <= hi b) →
  (∀ i j b c, (i < j)%nat → Z.of_nat j < num_banks dram →
     bank dram !! i = Some b → bank dram !! j = Some c → hi b <= lo c) →
  ∀ i j b c, (i < j)%nat → Z.of_nat j < num_banks dram →
    bank dram !! i = Some b → bank dram !! j = Some c →
    (probe b ≠ Gt → probe c = Lt) ∧ (probe c ≠ Lt → probe b = Gt).
Proof using.
  clear Hdram. intros Hp Hle Ho i j b c Hij Hj Hb Hc.
  pose proof (Hle i b ltac:(lia) Hb). pose proof (Hle j c Hj Hc).
  pose proof (Ho i j b c Hij Hj Hb Hc).
  rewrite (Hp i b), (Hp j c) by (done || lia). split; probe_cases.
Qed.

Lemma probe_addr_ordered a i j b c :
  (i < j)%nat → Z.of_nat j < num_banks dram →
  bank dram !! i = Some b → bank dram !! j = Some c →
  (probe_addr a b ≠ Gt → probe_addr a c = Lt) ∧ (probe_addr a c ≠ Lt → probe_addr a b = Gt).
Proof using Hdram.
  apply (probe_ordered (probe_addr a) base (λ b, base b + size b) a).
  - apply probe_addr_eq.
  - intros k d Hk Hd. destruct (layout_bank _ _ Hk Hd) as (_ & _ & _ & ? & _). lia.
  - intros k l d e Hkl Hl Hd He. apply (layout_order _ _ _ _ Hkl Hl Hd He).
Qed.

Lemma probe_idx_ordered x i j b c :
  (i < j)%nat → Z.of_nat j < num_banks dram →
  bank dram !! i = Some b → bank dram !! j = Some c →
  (probe_idx x b ≠ Gt → probe_idx x c = Lt) ∧ (probe_idx x c ≠ Lt → probe_idx x b = Gt).
Proof using Hdram.
  apply (probe_ordered (probe_idx x) start_gran_idx (λ b, start_gran_idx b + size b / 4096) x).
  - apply probe_idx_eq.
  - intros k d Hk Hd. destruct (layout_bank _ _ Hk Hd) as (_ & _ & _ & ? & _).
    assert (0 <= size d / 4096) by (apply Z.div_pos; lia). lia.
  - intros k l d e Hkl Hl Hd He. apply (layout_order _ _ _ _ Hkl Hl Hd He).
Qed.

Lemma addr_to_idx_found a k b :
  GRANULE_ALIGNED a = true → Z.of_nat k < num_banks dram → bank dram !! k = Some b →
  base b <= a < base b + size b →
  arm_granule_addr_to_idx dram a = Ok (start_gran_idx b + (a - base b) / 4096).
Proof using Hdram.
  intros Ha Hk Hb Hab. destruct Hdram as [Hm Hbm Hn Hl Hng _].
  destruct (layout_bank _ _ Hk Hb) as (? & ? & Hs & ? & ? & ? & ?).
  unfold arm_granule_addr_to_idx. rewrite Ha. cbn [negb].
  rewrite !rassert_bind by (apply Z.leb_le || apply Z.ltb_lt; lia).
  rewrite (u64_small (num_banks dram - 1)) by (unfold is_u64; lia).
  rewrite (bank_search_found _ _ _ (num_banks dram)) with (k := k) (b := b); [|try lia; try done..].
  - rewrite result_bind_ok. rewrite (u64_small (a - base b)) by (unfold is_u64; lia).
    rewrite Z.shiftr_div_pow2 by done. change (2 ^ GRANULE_SHIFT) with 4096.
    pose proof (bank_extent b Hs).
    assert (0 <= (a - base b) / 4096 < size b / 4096)
      by (split; [apply Z.div_pos | apply Z.div_lt_upper_bound]; lia).
    rewrite u64_small by (unfold is_u64; lia). done.
  - intros. by eapply probe_addr_ordered.
  - intros. by eapply probe_addr_ordered.
  - rewrite (probe_addr_eq a k b) by done. probe_cases.
Qed.

Lemma addr_to_idx_none a :
  GRANULE_ALIGNED a = true →
  (∀ k b, Z.of_nat k < num_banks dram → bank dram !! k = Some b →
     ¬ (base b <= a < base b + size b)) →
  arm_granule_addr_to_idx dram a = Ok UINT64_MAX.
Proof using Hdram.
  intros Ha Hno. destruct Hdram as [Hm Hbm Hn Hl Hng _].
  unfold arm_granule_addr_to_idx. rewrite Ha. cbn [negb].
  rewrite !rassert_bind by (apply Z.leb_le || apply Z.ltb_lt; lia).
  rewrite (u64_small (num_banks dram - 1)) by (unfold is_u64; lia).
  rewrite (bank_search_none _ _ _ (num_banks dram)); [done|try lia; try done..].
  intros k b Hk Hb. specialize (Hno k b Hk Hb). rewrite (probe_addr_eq a k b) by done.
  probe_cases.
Qed.

Lemma idx_to_addr_found x k b :
  0 <= x < num_granules dram → Z.of_nat k < num_banks dram → bank dram !! k = Some b →
  start_gran_idx b <= x < start_gran_idx b + size b / 4096 →
  arm_granule_idx_to_addr dram x = Ok (base b + (x - start_gran_idx b) * 4096).
Proof using Hdram.
  intros Hx Hk Hb Hxb. destruct Hdram as [Hm Hbm Hn Hl Hng _].
  destruct (layout_bank _ _ Hk Hb) as (? & ? & Hs & ? & ? & ? & ?).
  unfold arm_granule_idx_to_addr.
  rewrite !rassert_bind by (apply Z.leb_le || apply Z.ltb_lt; lia).
  rewrite (u64_small (num_banks dram - 1)) by (unfold is_u64; lia).
  rewrite (bank_search_found _ _ _ (num_banks dram)) with (k := k) (b := b); [|try lia; try done..].
  - rewrite result_bind_ok. rewrite (u64_small (x - start_gran_idx b)) by (unfold is_u64; lia).
    unfold shl64. rewrite Z.shiftl_mul_pow2 by done. change (2 ^ GRANULE_SHIFT) with 4096.
    pose proof (bank_extent b Hs).
    rewrite (u64_small ((x - start_gran_idx b) * 4096)), u64_small by (unfold is_u64; lia). done.
  - intros. by eapply probe_idx_ordered.
  - intros. by eapply probe_idx_ordered.
  - rewrite (probe_idx_eq x k b) by done. probe_cases.
Qed.

Lemma idx_cover x :
  0 <= x < num_granules dram →
  ∃ k b, Z.of_nat k < num_banks dram ∧ bank dram !! k = Some b ∧
    start_gran_idx b <= x < start_gran_idx b + size b / 4096.
Proof using Hdram.
  intros Hx. destruct (banks_chain_cover _ _ _ _ _ (lo_chain _ Hdram) Hx) as (k & b & Hb & Hxb).
  apply lookup_take_Some in Hb as [Hb Hk]. exists k, b. split; [lia|done].
Qed.

(** Whether some bank holds an address. *)
Lemma addr_in_bank_dec a :
  (∃ k b, Z.of_nat k < num_banks dram ∧ bank dram !! k = Some b ∧ base b <= a < base b + size b)
  ∨ (∀ k b, Z.of_nat k < num_banks dram → bank dram !! k = Some b →
       ¬ (base b <= a < base b + size b)).
Proof using.
  clear Hdram. destruct (decide (Exists (λ b, base b <= a < base b + size b) (take nb (bank dram))))
    as [H|H].
  - left. apply Exists_exists in H as (b & [k Hk]%list_elem_of_lookup & Hab).
    apply lookup_take_Some in Hk as [Hk ?]. exists k, b. split; [lia|done].
  - right. intros k b Hk Hb Hab. apply H. apply Exists_exists. exists b. split; [|done].
    apply list_elem_of_lookup. exists k. rewrite lookup_take_lt by lia. done.
Qed.

Lemma aligned_in_bank b a : base b mod 4096 = 0 → a mod 4096 = 0 → base b + (a - base b) / 4096 * 4096 = a.
Proof using. clear. intros. Z.div_mod_to_equations. lia. Qed.

Lemma arm_addr_to_idx_cases a i :
  GRANULE_ALIGNED a = true → arm_granule_addr_to_idx dram a = Ok i →
  i < num_granules dram ∨ i = UINT64_MAX.
Proof using Hdram.
  intros Ha. destruct (addr_in_bank_dec a) as [(k & b & Hk & Hb & Hab)|Hno].
  - rewrite (addr_to_idx_found a k b) by done. intros [= <-]. left.
    destruct (layout_bank _ _ Hk Hb) as (? & ? & Hs & ? & ? & ? & ?).
    pose proof (bank_extent b Hs).
    assert ((a - base b) / 4096 < size b / 4096) by (apply Z.div_lt_upper_bound; lia). lia.
  - rewrite addr_to_idx_none by done. intros [= <-]. by right.
Qed.

Lemma arm_idx_to_addr_total i :
  0 <= i < num_granules dram → ∃ a, arm_granule_idx_to_addr dram i = Ok a.
Proof using Hdram.
  intros Hi. destruct (idx_cover i Hi) as (k & b & Hk & Hb & Hib). eexists.
  by apply (idx_to_addr_found i k b).
Qed.

(** Two banks that touch have adjacent numbers. *)
Lemma banks_touch k k' b c :
  (k < k')%nat → Z.of_nat k' < num_banks dram → bank dram !! k = Some b → bank dram !! k' = Some c →
  base c = base b + size b → start_gran_idx c = start_gran_idx b + size b / 4096.
Proof using Hdram.
  intros Hkk Hk' Hb Hc Heq. destruct (layout_order _ _ _ _ Hkk Hk' Hb Hc) as [_ Hle].
  destruct (layout_bank _ _ Hk' Hc) as (_ & _ & _ & Hsc & _ & _ & Hc2).
  destruct (layout_bank k b ltac:(lia) Hb) as (_ & _ & _ & Hsb & _ & Hb0 & _).
  assert (0 <= size b / 4096) by (apply Z.div_pos; lia). assert (0 <= size c / 4096) by (apply Z.div_pos; lia).
  destruct (Z.lt_ge_cases (start_gran_idx b + size b / 4096) (start_gran_idx c)) as [Hlt|]; [exfalso|lia].
  destruct (idx_cover (start_gran_idx b + size b / 4096)) as (m & d & Hm & Hd & Hx); [lia|].
  destruct (lt_eq_lt_dec m k) as [[Hmk| ->]|Hmk].
  - destruct (layout_order m k d b) as [_ ?]; [done|lia|done|done|]. lia.
  - simplify_eq. lia.
  - destruct (lt_eq_lt_dec m k') as [[Hmk'| ->]|Hmk'].
    + destruct (layout_order k m b d) as [? _]; [done|lia|done|done|].
      destruct (layout_order m k' d c) as [? _]; [done|lia|done|done|].
      destruct (layout_bank _ _ Hm Hd) as (_ & _ & _ & ? & _). lia.
    + simplify_eq. lia.
    + destruct (layout_order k' m c d) as [_ ?]; [done|lia|done|done|]. lia.
Qed.

Lemma arm_addr_next a i j :
  GRANULE_ALIGNED a = true → GRANULE_ALIGNED (a + 4096) = true →
  arm_granule_addr_to_idx dram a = Ok i → i < num_granules dram →
  arm_granule_addr_to_idx dram (a + 4096) = Ok j → j < num_granules dram → j = i + 1.
Proof using Hdram.
  intros Ha Ha' Hi Him Hj Hjm. pose proof (lo_ng _ Hdram) as Hng. pose proof (lo_max _ Hdram) as Hmax.
  destruct (addr_in_bank_dec a) as [(k & b & Hk & Hb & Hab)|Hno]; cycle 1.
  { rewrite addr_to_idx_none in Hi by done. injection Hi as <-. unfold UINT64_MAX in *. lia. }
  destruct (addr_in_bank_dec (a + 4096)) as [(k' & c & Hk' & Hc & Hac)|Hno]; cycle 1.
  { rewrite addr_to_idx_none in Hj by done. injection Hj as <-. unfold UINT64_MAX in *. lia. }
  rewrite (addr_to_idx_found a k b) in Hi by done. rewrite (addr_to_idx_found (a + 4096) k' c) in Hj by done.
  injection Hi as <-. injection Hj as <-. apply granule_aligned_mod in Ha.
  destruct (layout_bank _ _ Hk Hb) as (_ & Hbm & Hsm & _). destruct (layout_bank _ _ Hk' Hc) as (_ & Hcm & Hscm & _).
  destruct (lt_eq_lt_dec k k') as [[Hkk| ->]|Hkk].
  - destruct (layout_order _ _ _ _ Hkk Hk' Hb Hc) as [Hle _].
    assert (Heq : base c = base b + size b ∧ a + 4096 = base c) by (Z.div_mod_to_equations; lia).
    destruct Heq as [Heq Hac']. rewrite (banks_touch _ _ _ _ Hkk Hk' Hb Hc Heq).
    replace (a + 4096 - base c) with 0 by lia. replace (a - base b) with (size b - 4096) by lia.
    Z.div_mod_to_equations; lia.
  - simplify_eq. replace (a + 4096 - base b) with (a - base b + 1 * 4096) by lia. rewrite Z.div_add by lia. lia.
  - destruct (layout_order _ _ _ _ Hkk Hk Hc Hb) as [Hle _]. lia.
Qed.

Lemma arm_platform_laws : PlatformLaws (arm_platform dram).
Proof using Hdram.
  pose proof (lo_max _ Hdram) as Hmax. pose proof (lo_ng _ Hdram) as Hng.
  split; simpl.
  - lia.
  - intros a Hu Ha. destruct (addr_in_bank_dec a) as [(k & b & Hk & Hb & Hab)|Hno].
    + rewrite (addr_to_idx_found a k b) by done. eexists; split; [done|].
      destruct (layout_bank _ _ Hk Hb) as (? & ? & Hs & ? & ? & ? & ?).
      pose proof (bank_extent b Hs).
      assert (0 <= (a - base b) / 4096 < size b / 4096)
        by (split; [apply Z.div_pos | apply Z.div_lt_upper_bound]; lia). lia.
    + rewrite addr_to_idx_none by done. by exists UINT64_MAX.
  - intros a i Hu Ha Hi Him. destruct (addr_in_bank_dec a) as [(k & b & Hk & Hb & Hab)|Hno].
    + rewrite (addr_to_idx_found a k b) in Hi by done. injection Hi as <-.
      destruct (layout_bank _ _ Hk Hb) as (? & ? & Hs & ? & ? & ? & ?).
      pose proof (bank_extent b Hs).
      assert (0 <= (a - base b) / 4096 < size b / 4096)
        by (split; [apply Z.div_pos | apply Z.div_lt_upper_bound]; lia).
      rewrite (idx_to_addr_found _ k b) by (done || lia). f_equal.
      rewrite Z.add_simpl_l. apply aligned_in_bank; [done|]. by apply granule_aligned_mod.
    + rewrite addr_to_idx_none in Hi by done. injection Hi as <-. unfold UINT64_MAX in Him. lia.
  - intros i a Hi Ha. unfold arm_granule_idx_to_addr in Ha.
    pose proof Ha as Ha'. apply result_bind_inv in Ha' as ([] & _ & Ha').
    apply result_bind_inv in Ha' as ([] & Hlt%rassert_ok%Z.ltb_lt & _).
    destruct (idx_cover i) as (k & b & Hk & Hb & Hib); [lia|].
    change (arm_granule_idx_to_addr dram i = Ok a) in Ha.
    rewrite (idx_to_addr_found i k b) in Ha by (done || lia). injection Ha as <-.
    destruct (layout_bank _ _ Hk Hb) as (? & Hba & Hs & ? & ? & ? & ?).
    pose proof (bank_extent b Hs).
    assert (Hal : GRANULE_ALIGNED (base b + (i - start_gran_idx b) * 4096) = true).
    { apply granule_aligned_mod. rewrite Z.mod_add by lia. done. }
    split; [unfold is_u64; lia|]. split; [done|]. split; [lia|]. split; [lia|].
    rewrite (addr_to_idx_found _ k b) by (done || lia). f_equal.
    rewrite Z.add_simpl_l, Z.div_mul by lia. lia.
  - intros a i j Ha Ha' Hi Him Hj Hjm.
    destruct (arm_addr_to_idx_cases _ _ Ha Hi), (arm_addr_to_idx_cases _ _ Ha' Hj); try (unfold UINT64_MAX in *; lia).
    by apply (arm_addr_next a).
Qed.
End layout.

(** * From the manifest to the layout *)

(** Entries are 64-bit words, and no bank runs past the end of the address space. *)
Definition bank_in_range (b : ns_dram_bank) : Prop :=
  0 <= nb_base b ∧ 0 <= nb_size b ∧ nb_base b + nb_size b <= 2 ^ 64.

Lemma check_bank_spec pw b cs e lo g acc :
  0 <= pw <= 52 → bank_in_range b → 0 <= g < 2 ^ 63 →
  lo mod 4096 = 0 → (e = 0 ∧ lo = 0 ∨ e = lo - 1) →
  check_bank pw b (cs, e, g) = Some acc →
  lo <= nb_base b ∧ nb_base b mod 4096 = 0 ∧ nb_size b mod 4096 = 0 ∧ 0 < nb_size b ∧
  nb_base b + nb_size b <= 2 ^ 52 ∧
  acc.1.2 = nb_base b + nb_size b - 1 ∧ acc.2 = g + nb_size b / 4096 ∧ nb_size b / 4096 <= 2 ^ 40.
Proof using.
  intros Hpw (Hb & Hs & Hbs) Hg Hlo He. unfold check_bank.
  destruct (Z.eqb_spec (nb_base b) 0) as [|Hb0]; [done|].
  destruct (Z.eqb_spec (nb_size b) 0) as [|Hs0]; [done|].
  destruct (Z.eqb_spec (Z.land (Z.lor (nb_base b) (nb_size b)) 4095) 0) as [Hal|]; [|done]. simpl.
  rewrite land_lor_l in Hal. apply Z.lor_eq_0_iff in Hal as [Hal1 Hal2].
  rewrite (land_ones_mod _ 12) in Hal1 by lia. rewrite (land_ones_mod _ 12) in Hal2 by lia.
  change (2 ^ 12) with 4096 in *.
  destruct (Z.ltb_spec (nb_base b) e); [done|].
  assert (Hend : (nb_base b .+ nb_size b) .- 1 = nb_base b + nb_size b - 1).
  { unfold u64. rewrite Zminus_mod_idemp_l. apply Z.mod_small. lia. }
  rewrite Hend. destruct (Z.leb_spec (1 .<< pw) (nb_base b + nb_size b - 1)) as [|Hpa]; [done|].
  assert (Hpw2 : 1 .<< pw = 2 ^ pw).
  { unfold shl64. rewrite Z.shiftl_mul_pow2, Z.mul_1_l by lia. apply u64_small. unfold is_u64.
    split; [apply Z.pow_nonneg; lia|]. apply Z.pow_lt_mono_r; lia. }
  assert (2 ^ pw <= 2 ^ 52) by (apply Z.pow_le_mono_r; lia).
  assert (nb_size b / 4096 <= 2 ^ 40) by (apply Z.div_le_upper_bound; lia).
  assert (0 <= nb_size b / 4096) by (apply Z.div_pos; lia).
  change GRANULE_SIZE with 4096. intros [= <-]. simpl.
  rewrite (u64_small (g + _)) by (unfold is_u64; lia).
  repeat split; try done; try lia.
  destruct He as [[-> ->]|He]; [lia|]. Z.div_mod_to_equations. lia.
Qed.

Lemma check_banks_chain pw n banks cs e lo g cs' e' ng :
  0 <= pw <= 52 → Forall bank_in_range banks →
  0 <= g → g + Z.of_nat n * 2 ^ 40 < 2 ^ 62 →
  lo mod 4096 = 0 → (e = 0 ∧ lo = 0 ∨ e = lo - 1) →
  check_banks pw n banks (cs, e, g) = Ok (Some (cs', e', ng)) →
  ∃ bs, set_banks n banks g = Ok (bs, ng) ∧ length bs = n ∧ banks_chain lo g ng bs.
Proof using.
  intros Hpw. revert banks cs e lo g.
  induction n as [|n IH]; intros banks cs e lo g Hbs Hg0 Hg Hlo He;
    cbn [check_banks set_banks].
  { intros [= <- <- <-]. by exists []. }
  destruct banks as [|b banks]; [done|]. apply Forall_cons in Hbs as [Hb Hbs].
  destruct (check_bank pw b (cs, e, g)) as [[[cs1 e1] g1]|] eqn:Hcb; [|done]. intros Hck.
  assert (Hg63 : 0 <= g < 2 ^ 63) by lia.
  destruct (check_bank_spec _ _ _ _ lo _ _ Hpw Hb Hg63 Hlo He Hcb)
    as (? & ? & ? & ? & ? & He1 & Hg1 & Hsz). simpl in He1, Hg1. subst e1 g1.
  assert (0 <= nb_size b / 4096) by (apply Z.div_pos; lia).
  destruct (IH banks cs1 (nb_base b + nb_size b - 1) (nb_base b + nb_size b) (g + nb_size b / 4096) Hbs)
    as (bs & Hset & Hlen & Hch); [lia | lia | Z.div_mod_to_equations; lia | by right | done |].
  rewrite Z.shiftr_div_pow2 by done. change (2 ^ GRANULE_SHIFT) with 4096.
  rewrite u64_small by (unfold is_u64; lia). rewrite Hset, result_bind_ok. simpl.
  eexists; split; [done|]. split; [by rewrite <- Hlen|]. simpl. done.
Qed.

Lemma validated_layout version pw info :
  0 <= pw <= 52 → 0 < MAX_GRANULES < 2 ^ 40 → 0 < PLAT_ARM_MAX_DRAM_BANKS < 2 ^ 20 →
  0 <= ni_num_banks info → Forall bank_in_range (ni_banks info) →
  rmm_el3_ifc_get_dram_data_validated_pa version pw PLAT_ARM_MAX_DRAM_BANKS info
    = Ok E_RMM_BOOT_SUCCESS →
  ∃ dram, arm_set_dram_layout info = Ok dram ∧ layout_ok dram.
Proof using.
  intros Hpw Hmax Hbm Hn Hbs. unfold rmm_el3_ifc_get_dram_data_validated_pa.
  destruct (version <? 2); [done|].
  destruct (Z.eqb_spec (ni_num_banks info) 0); [done|].
  destruct (Z.ltb_spec PLAT_ARM_MAX_DRAM_BANKS (ni_num_banks info)); [done|].
  destruct (ni_banks_ptr info =? 0); [done|]. cbv zeta. cbn [orb].
  intros ([[[cs e] ng]|] & Hck & Hr)%result_bind_inv; [|done].
  destruct (negb (cs =? 0)); [done|]. destruct (Z.ltb_spec MAX_GRANULES ng); [done|].
  assert (∃ bs, set_banks (Z.to_nat (ni_num_banks info)) (ni_banks info) 0 = Ok (bs, ng) ∧
                length bs = Z.to_nat (ni_num_banks info) ∧ banks_chain 0 0 ng bs)
    as (bs & Hset & Hlen & Hch).
  { eapply check_banks_chain; [exact Hpw | exact Hbs | lia | lia | done | by left | exact Hck]. }
  unfold arm_set_dram_layout.
  rewrite !rassert_bind by (apply Z.leb_le || apply Z.ltb_lt; lia).
  rewrite Hset, result_bind_ok. rewrite rassert_bind by (apply Z.leb_le; lia).
  eexists; split; [done|]. split; simpl; try lia.
  - rewrite length_app, length_replicate. lia.
  - by rewrite take_app_length' by done.
Qed.
End arm.

(** A DRAM layout built from a boot manifest that passed validation numbers the
    granules bijectively: [arm_set_dram_layout] succeeds, both searches terminate
    without a failed assertion, an address that gets a number below the number of
    granules is recovered from it, and every number is recovered from its address. *)
Theorem validated_platform_bijective MAXB MAXG version pw info :
  0 <= pw <= 52 → 0 < MAXG < 2 ^ 40 → 0 < MAXB < 2 ^ 20 →
  0 <= ni_num_banks info → Forall bank_in_range (ni_banks info) →
  rmm_el3_ifc_get_dram_data_validated_pa MAXG version pw MAXB info = Ok E_RMM_BOOT_SUCCESS →
  ∃ dram, arm_set_dram_layout MAXB MAXG info = Ok dram ∧
    (∀ a, is_u64 a → ∃ i, arm_granule_addr_to_idx MAXB dram a = Ok i ∧
       (i < num_granules dram → arm_granule_idx_to_addr MAXB dram i = Ok a) ∧
       (i < num_granules dram ∨ i = UINT64_MAX)) ∧
    (∀ i, 0 <= i < num_granules dram → ∃ a, arm_granule_idx_to_addr MAXB dram i = Ok a ∧
       GRANULE_ALIGNED a = true ∧ 0 <= a < 2 ^ 52 ∧ arm_granule_addr_to_idx MAXB dram a = Ok i).
Proof.
  intros Hpw Hmg Hmb Hn Hbs Hv.
  destruct (validated_layout _ _ _ _ _ Hpw Hmg Hmb Hn Hbs Hv) as (dram & Hset & Hok).
  exists dram. split; [done|]. pose proof (arm_platform_laws _ _ _ Hok) as Hlaws.
  pose proof (lo_ng _ _ _ Hok) as Hng. split.
  - intros a Ha. destruct (GRANULE_ALIGNED a) eqn:Hal; cycle 1.
    { exists UINT64_MAX. unfold arm_granule_addr_to_idx. rewrite Hal. split; [done|].
      unfold UINT64_MAX. split; [lia|by right]. }
    destruct (@plat_addr_total _ Hlaws a Ha Hal) as (i & Hi & Hi64). exists i. split; [done|]. split.
    + intros. apply (@plat_addr_idx _ Hlaws a i Ha Hal Hi). simpl. lia.
    + by apply (arm_addr_to_idx_cases _ _ _ Hok a).
  - intros i Hi. destruct (arm_idx_to_addr_total _ _ _ Hok i Hi) as [a Ha]. exists a.
    split; [done|]. destruct (@plat_idx_addr _ Hlaws i a) as ([? ?] & ? & ? & ? & ?); [lia|done|].
    done.
Qed.

(** Two banks, one granule and two granules long, as a manifest describes them. *)
Definition example_manifest : ns_dram_info :=
  {| ni_num_banks := 2; ni_banks_ptr := 4096;
     ni_banks := [ {| nb_base := 2 ^ 31; nb_size := 4096 |};
                   {| nb_base := 2 ^ 35; nb_size := 8192 |} ];
     ni_checksum := 2 ^ 64 - (2 + 4096 + 2 ^ 31 + 4096 + 2 ^ 35 + 8192) |}.

Lemma validated_platform_bijective_witness :
  ∃ dram, arm_set_dram_layout 2 16 example_manifest = Ok dram ∧
    arm_granule_idx_to_addr 2 dram 2 = Ok (2 ^ 35 + 4096).
Proof.
  destruct (validated_platform_bijective 2 16 2 48 example_manifest)
    as (dram & Hset & Ha & _); [lia | lia | lia | done | | vm_compute; reflexivity |].
  - unfold bank_in_range. repeat constructor; simpl; lia.
  - exists dram. split; [exact Hset|].
    destruct (Ha (2 ^ 35 + 4096)) as (i & Hi & Hback & _); [vm_compute; split; discriminate || reflexivity|].
    vm_compute in Hset. injection Hset as <-. vm_compute in Hi. injection Hi as <-.
    apply Hback. vm_compute. reflexivity.
Defined.

(** The validation of a bank computes its last address in 64 bits, so a bank that
    runs past the end of the address space is accepted: the end that is compared with
    the platform's address width has wrapped around. *)
Theorem manifest_wrap_accepted :
  rmm_el3_ifc_get_dram_data_validated_pa 16 2 48 2
    {| ni_num_banks := 1; ni_banks_ptr := 4096;
       ni_banks := [ {| nb_base := 2 ^ 64 - 4096; nb_size := 8192 |} ];
       ni_checksum := 2 ^ 64 - (1 + 4096 + 4096) |} = Ok E_RMM_BOOT_SUCCESS.
Proof. vm_compute. reflexivity. Qed.

(** * A concrete platform *)

(** The layout of [example_manifest]: granule 0 at 2 GB, granules 1 and 2 at 32 GB. *)
Definition example_dram : arm_dram_layout :=
  {| num_granules := 3; num_banks := 2;
     bank := [ {| base := 2 ^ 31; size := 4096; start_gran_idx := 0 |};
               {| base := 2 ^ 35; size := 8192; start_gran_idx := 1 |} ] |}.

Definition example_platform : Platform := arm_platform 2 3 example_dram.

Lemma example_laws : PlatformLaws example_platform.
Proof.
  apply arm_platform_laws. split; simpl; try lia; done.
Qed.
