(* ===== verification/GranuleFind.v ===== *)
(** Finding and locking granules by address (lib/granule/src/granule.c): lookup of
    a granule, locking one, and locking several in the order of their addresses with
    all-or-nothing behaviour. *)
From stdpp Require Import sorting.
From S2P Require Import Prelude Types Granule Platform.

Section find.
Context {P : Platform}.

(** * Lookup *)

Definition granule_addr (g : Z) : result Z := plat_granule_idx_to_addr g.

Definition granule_from_idx (idx : Z) : result Z :=
  rassert (idx <? RMM_MAX_GRANULES) ≫= λ _, Ok idx.

Definition addr_to_granule (addr : Z) : result Z :=
  rassert (GRANULE_ALIGNED addr) ≫= λ _,
  plat_granule_addr_to_idx addr ≫= λ idx, granule_from_idx idx.

Definition find_granule (addr : Z) : result (option Z) :=
  if negb (GRANULE_ALIGNED addr) then Ok None
  else
    plat_granule_addr_to_idx addr ≫= λ idx,
    if RMM_MAX_GRANULES <=? idx then Ok None
    else granule_from_idx idx ≫= λ g, Ok (Some g).

Definition find_lock_granule (addr expected_state : Z) : M state (option Z) :=
  lift (find_granule addr) ≫= λ og,
  match og with
  | None => mret None
  | Some g =>
      granule_lock_on_state_match g expected_state ≫= λ ok,
      if negb ok then mret None else mret (Some g)
  end.

Definition EINVAL : Z := 22.
Definition EBUSY : Z := 16.

(** The status and [*g]. *)
Definition find_lock_unused_granule (addr expected_state : Z) : M state (Z * option Z) :=
  find_lock_granule addr expected_state ≫= λ og,
  match og with
  | None => mret (- EINVAL, None)
  | Some g =>
      granule_refcount_read_acquire g ≫= λ rc,
      if negb (rc =? 0) then granule_unlock g ≫= λ _, mret (- EBUSY, None)
      else mret (0, Some g)
  end.

(** * Locking a set of granules *)

(** [gs_ret] names the cell that [g_ret] points to. *)
Record granule_set := {
  gs_addr : Z;
  gs_g : option Z;
  gs_ret : Z;
  gs_state : Z;
}.

Definition set_gs_g (og : option Z) (e : granule_set) : granule_set :=
  {| gs_addr := gs_addr e; gs_g := og; gs_ret := gs_ret e; gs_state := gs_state e |}.

(** [while ((j > 0UL) && (gs[j - 1UL].addr > temp.addr)) { gs[j] = gs[j - 1UL]; j--; }] *)
Fixpoint sort_inner (j : nat) (temp : granule_set) (gs : list granule_set)
  : result (nat * list granule_set) :=
  match j with
  | O => Ok (O, gs)
  | S j' =>
      aget gs (Z.of_nat j') ≫= λ p,
      if gs_addr temp <? gs_addr p
      then aset gs (Z.of_nat j) p ≫= λ gs, sort_inner j' temp gs
      else Ok (j, gs)
  end.

(** The iterations [i], [i + 1], ... of the outer loop, [k] of them. *)
Fixpoint sort_outer (k i : nat) (gs : list granule_set) : result (list granule_set) :=
  match k with
  | O => Ok gs
  | S k' =>
      aget gs (Z.of_nat i) ≫= λ temp,
      sort_inner i temp gs ≫= λ '(j, gs),
      (if negb (i =? j)%nat then aset gs (Z.of_nat j) temp else Ok gs) ≫= λ gs,
      sort_outer k' (S i) gs
  end.

Definition sort_granules (gs : list granule_set) (n : nat) : result (list granule_set) :=
  sort_outer (n - 1) 1 gs.

(** The loop over the sorted set; the answer is whether it ran to the end, and where
    it stopped. [k] iterations are left. *)
Fixpoint lock_loop (k i : nat) (gs : list granule_set) : M state (bool * nat * list granule_set) :=
  match k with
  | O => mret (true, i, gs)
  | S k' =>
      lift (aget gs (Z.of_nat i)) ≫= λ e,
      (if negb (i =? 0)%nat
       then lift (aget gs (Z.of_nat i - 1)) ≫= λ p, mret (gs_addr e =? gs_addr p)
       else mret false) ≫= λ dup,
      if (dup : bool) then mret (false, i, gs)
      else
        find_lock_granule (gs_addr e) (gs_state e) ≫= λ og,
        lift (aset gs (Z.of_nat i) (set_gs_g og e)) ≫= λ gs,
        match og with
        | None => mret (false, i, gs)
        | Some _ => lock_loop k' (S i) gs
        end
  end.

(** [while (i != 0UL) { granule_unlock(gs[--i].g); }] *)
Fixpoint unlock_loop (i : nat) (gs : list granule_set) : M state () :=
  match i with
  | O => mret ()
  | S i' =>
      lift (aget gs (Z.of_nat i')) ≫= λ e,
      mderef (gs_g e) ≫= λ g,
      granule_unlock g ≫= λ _,
      unlock_loop i' gs
  end.

(** [*gs[i].g_ret = gs[i].g] for every entry: the cells written. *)
Definition store_rets (gs : list granule_set) (outs : gmap Z (option Z)) : gmap Z (option Z) :=
  foldl (λ o e, <[gs_ret e := gs_g e]> o) outs gs.

Definition find_lock_granules (gs : list granule_set) (outs : gmap Z (option Z))
  : M state (bool * gmap Z (option Z)) :=
  lift (sort_granules gs (length gs)) ≫= λ gs,
  lock_loop (length gs) 0 gs ≫= λ '(ok, i, gs),
  if (ok : bool) then mret (true, store_rets gs outs)
  else unlock_loop i gs ≫= λ _, mret (false, outs).

(** [Some (g1, g2)] stands for the answer [true] and the granules stored. *)
Definition find_lock_two_granules (addr1 expected_state1 addr2 expected_state2 : Z)
  : M state (option (Z * Z)) :=
  let gs := [ {| gs_addr := addr1; gs_g := None; gs_ret := 1; gs_state := expected_state1 |};
              {| gs_addr := addr2; gs_g := None; gs_ret := 2; gs_state := expected_state2 |} ] in
  find_lock_granules gs ∅ ≫= λ '(ok, outs),
  if (ok : bool) then
    mderef (outs !! 1 ≫= id) ≫= λ g1, mderef (outs !! 2 ≫= id) ≫= λ g2, mret (Some (g1, g2))
  else mret None.

(** * Sorting *)

Definition gs_le (a b : granule_set) : Prop := gs_addr a <= gs_addr b.

Lemma aget_app_mid {A} (l1 l2 : list A) x : aget (l1 ++ x :: l2) (Z.of_nat (length l1)) = Ok x.
Proof. apply aget_lookup; [lia|]. rewrite Nat2Z.id. by apply list_lookup_middle. Qed.

Lemma aset_app_mid {A} (l1 l2 : list A) x y :
  aset (l1 ++ x :: l2) (Z.of_nat (length l1)) y = Ok (l1 ++ y :: l2).
Proof.
  rewrite aset_ok; [|rewrite length_app; simpl; lia].
  rewrite Nat2Z.id. by rewrite insert_app_r_alt, Nat.sub_diag by lia.
Qed.

Lemma sort_inner_spec l1 x rest temp :
  ∃ a b y,
    l1 = a ++ b ∧
    sort_inner (length l1) temp (l1 ++ x :: rest) = Ok (length a, a ++ y :: b ++ rest) ∧
    Forall (λ e, gs_addr temp < gs_addr e) b ∧
    (∀ e, last a = Some e → gs_le e temp) ∧
    (b = [] → y = x).
Proof.
  revert x rest. induction l1 as [|p l1 IH] using rev_ind; intros x rest.
  { exists [], [], x. naive_solver. }
  rewrite length_app, Nat.add_comm. cbn [length Nat.add sort_inner].
  rewrite <- app_assoc. cbn [app]. rewrite aget_app_mid, result_bind_ok.
  destruct (Z.ltb_spec (gs_addr temp) (gs_addr p)) as [Hlt|Hge].
  - replace (l1 ++ p :: x :: rest) with ((l1 ++ [p]) ++ x :: rest) by (by rewrite <- app_assoc).
    replace (Z.of_nat (S (length l1))) with (Z.of_nat (length (l1 ++ [p])))
      by (rewrite length_app; simpl; lia).
    rewrite aset_app_mid, result_bind_ok, <- app_assoc. cbn [app].
    destruct (IH p (p :: rest)) as (a & b & y & -> & Hs & Hb & Ha & Hy).
    exists a, (b ++ [p]), y. split; [by rewrite <- app_assoc|]. split.
    { rewrite Hs. by rewrite <- app_assoc. }
    split; [apply Forall_app; auto|]. split; [done|]. by destruct b.
  - exists (l1 ++ [p]), [], x. rewrite app_nil_r, length_app, Nat.add_comm, <- app_assoc.
    split; [done|]. split; [done|]. split; [done|]. split; [|done].
    intros e. rewrite last_snoc. intros [= <-]. done.
Qed.

Lemma sorted_insert a b t :
  StronglySorted gs_le (a ++ b) → Forall (λ e, gs_addr t < gs_addr e) b →
  (∀ e, last a = Some e → gs_le e t) → StronglySorted gs_le (a ++ t :: b).
Proof.
  intros Hs Hb Ha. induction a as [|x a IH]; simpl in *.
  - constructor; [done|]. eapply Forall_impl; [done|]. unfold gs_le. intros. simpl in *. lia.
  - apply StronglySorted_inv in Hs as [Hs Hx]. apply Forall_app in Hx as [Hxa Hxb].
    assert (Hxt : gs_le x t).
    { destruct a as [|y a] using rev_ind; [by apply Ha|].
      apply Forall_app in Hxa as [_ [Hy _]%Forall_cons_1].
      rewrite app_comm_cons in Ha. specialize (Ha y (last_snoc _ _)). unfold gs_le in *. lia. }
    constructor.
    + apply IH; [done|]. intros e He. apply Ha. destruct a; [done|]. done.
    + apply Forall_app. split; [done|]. by constructor.
Qed.

Lemma sort_outer_spec l1 l2 :
  l1 ≠ [] → StronglySorted gs_le l1 →
  ∃ l', sort_outer (length l2) (length l1) (l1 ++ l2) = Ok l' ∧
        StronglySorted gs_le l' ∧ l' ≡ₚ l1 ++ l2.
Proof.
  revert l1. induction l2 as [|t l2 IH]; intros l1 Hne Hs.
  { rewrite app_nil_r. by exists l1. }
  cbn [length sort_outer]. rewrite aget_app_mid, result_bind_ok.
  destruct (sort_inner_spec l1 t l2 t) as (a & b & y & -> & -> & Hb & Ha & Hy).
  rewrite result_bind_ok.
  assert (Hset : (if negb (length (a ++ b) =? length a)%nat
                  then aset (a ++ y :: b ++ l2) (Z.of_nat (length a)) t
                  else Ok (a ++ y :: b ++ l2)) = Ok ((a ++ t :: b) ++ l2)).
  { rewrite <- app_assoc. cbn [app]. rewrite length_app.
    destruct (Nat.eqb_spec (length a + length b) (length a)); simpl.
    - assert (b = []) as -> by (apply nil_length_inv; lia). by rewrite Hy.
    - apply aset_app_mid. }
  rewrite Hset, result_bind_ok.
  replace (S (length (a ++ b))) with (length (a ++ t :: b)) by (rewrite !length_app; simpl; lia).
  destruct (IH (a ++ t :: b)) as (l' & Hl' & Hs' & Hp').
  { by destruct a. } { by apply sorted_insert. }
  exists l'. split; [done|]. split; [done|]. rewrite Hp'. solve_Permutation.
Qed.

Lemma sort_granules_spec gs :
  ∃ l', sort_granules gs (length gs) = Ok l' ∧ StronglySorted gs_le l' ∧ l' ≡ₚ gs.
Proof.
  unfold sort_granules. destruct gs as [|x gs]; [by exists []; split; [|split; constructor]|].
  simpl. rewrite Nat.sub_0_r. apply (sort_outer_spec [x] gs); [done|]. repeat constructor.
Qed.

(** * Quiescent states *)

(** A granule whose lock is free satisfies its state's unlocked invariant. *)
Definition granule_quiet (gr : granule) : Prop :=
  ∃ st rc tag, gr = Gr false st rc tag ∧ gok st rc ∧ unlocked_invariant st rc = true.

(** Between two handlers of a sequential execution no lock is held. *)
Definition quiescent (s : state) : Prop :=
  ∀ g, 0 <= g < RMM_MAX_GRANULES → ∃ gr, granules s !! g = Some gr ∧ granule_quiet gr.

Definition lock_one (g : Z) (s : state) : state :=
  match granules s !! g with
  | Some gr => put_granule g {| descriptor := desc (with_locked true (view (descriptor gr)));
                                owner_tag := owner_tag gr |} s
  | None => s
  end.

Definition lock_all (gl : list Z) (s : state) : state := foldl (λ s g, lock_one g s) s gl.

(** The granule that can be locked at an address in a given state, if any. *)
Definition lockable (s : state) (addr st : Z) : option Z :=
  match find_granule addr with
  | Ok (Some g) =>
      match granules s !! g with
      | Some gr => if d_state (descriptor gr) =? st then Some g else None
      | None => None
      end
  | _ => None
  end.

Lemma lock_one_Gr g s st rc tag :
  granules s !! g = Some (Gr false st rc tag) → gok st rc →
  lock_one g s = put_granule g (Gr true st rc tag) s.
Proof.
  intros Hg Hok. unfold lock_one. rewrite Hg. unfold Gr; cbn [descriptor owner_tag].
  rewrite desc_view by done. done.
Qed.

Lemma lock_one_ne g h s : g ≠ h → granules (lock_one g s) !! h = granules s !! h.
Proof.
  intros. unfold lock_one. destruct (granules s !! g); [|done]. by apply put_granule_lookup_ne.
Qed.

Lemma lock_all_snoc gl g s : lock_all (gl ++ [g]) s = lock_one g (lock_all gl s).
Proof. unfold lock_all. by rewrite foldl_app. Qed.

Lemma lock_all_ne gl h s : h ∉ gl → granules (lock_all gl s) !! h = granules s !! h.
Proof.
  revert s. induction gl as [|g gl IH]; intros s Hh; simpl; [done|].
  apply not_elem_of_cons in Hh as [? ?]. rewrite IH by done. by apply lock_one_ne.
Qed.

Context {L : PlatformLaws P}.

Lemma find_granule_total a : is_u64 a → ∃ og, find_granule a = Ok og.
Proof.
  intros Ha. unfold find_granule. destruct (GRANULE_ALIGNED a) eqn:Hal; simpl; [|by eexists].
  destruct (plat_addr_total a Ha Hal) as (i & Hi & _). rewrite Hi, result_bind_ok.
  destruct (Z.leb_spec RMM_MAX_GRANULES i); [by eexists|]. unfold granule_from_idx.
  rewrite rassert_bind by (by apply Z.ltb_lt). by eexists.
Qed.

Lemma find_granule_Some a g :
  is_u64 a → find_granule a = Ok (Some g) →
  GRANULE_ALIGNED a = true ∧ 0 <= g < RMM_MAX_GRANULES ∧ granule_addr g = Ok a.
Proof.
  intros Ha. unfold find_granule, granule_addr.
  destruct (GRANULE_ALIGNED a) eqn:Hal; simpl; [|done].
  destruct (plat_addr_total a Ha Hal) as (i & Hi & Hr). rewrite Hi, result_bind_ok.
  destruct (Z.leb_spec RMM_MAX_GRANULES i); [done|]. unfold granule_from_idx.
  rewrite rassert_bind by (by apply Z.ltb_lt). intros [= <-].
  split; [done|]. split; [lia|]. by apply plat_addr_idx.
Qed.

Lemma find_granule_addr g a :
  0 <= g → granule_addr g = Ok a → find_granule a = Ok (Some g).
Proof.
  intros Hg Ha. destruct (plat_idx_addr g a Hg Ha) as (Hu & Hal & _ & Hm & Hi).
  unfold find_granule. rewrite Hal, Hi. cbn [negb]. rewrite result_bind_ok.
  rewrite (proj2 (Z.leb_gt _ _)) by lia. unfold granule_from_idx.
  by rewrite rassert_bind by (by apply Z.ltb_lt).
Qed.

Lemma find_granule_inj a b g :
  is_u64 a → is_u64 b → find_granule a = Ok (Some g) → find_granule b = Ok (Some g) → a = b.
Proof.
  intros Ha Hb Hfa Hfb. apply find_granule_Some in Hfa as (_ & _ & Hfa); [|done].
  apply find_granule_Some in Hfb as (_ & _ & Hfb); [|done]. congruence.
Qed.

Lemma find_lock_granule_spec s a st :
  is_u64 a →
  (∀ g, find_granule a = Ok (Some g) → ∃ gr, granules s !! g = Some gr ∧ granule_quiet gr) →
  find_lock_granule a st s
  = Ok (lockable s a st, match lockable s a st with Some g => lock_one g s | None => s end).
Proof.
  intros Ha Hq. unfold find_lock_granule, lockable.
  destruct (find_granule_total a Ha) as [[g|] Hf]; rewrite Hf; [|done].
  destruct (Hq g Hf) as (gr & Hg & st' & rc & tag & -> & Hok & Hi).
  run_step (lift_run _ _ _ eq_refl). rewrite Hg. cbn [Gr descriptor].
  rewrite desc_state by done. cbn [v_state]. unfold mbind, M_bind.
  rewrite (granule_lock_on_state_match_run _ _ _ _ _ _ Hg Hok).
  destruct (Z.eqb_spec st' st) as [<-|]; [|done]. rewrite Hi. simpl.
  by rewrite (lock_one_Gr _ _ _ _ _ Hg).
Qed.

Lemma unlock_locked s g :
  (∃ gr, granules s !! g = Some gr ∧ granule_quiet gr) →
  granule_unlock g (lock_one g s) = Ok ((), s).
Proof.
  intros (gr & Hg & st & rc & tag & -> & Hok & Hi).
  rewrite (lock_one_Gr _ _ _ _ _ Hg Hok).
  rewrite (granule_unlock_run (put_granule_lookup _ _ _) Hok eq_refl Hi).
  by rewrite put_granule_put, put_granule_id.
Qed.

(** * Locking in order of address *)

(** Entry [e] holds the lock of [g], which was lockable in [s]. *)
Definition held (s : state) (e : granule_set) (g : Z) : Prop :=
  gs_g e = Some g ∧ lockable s (gs_addr e) (gs_state e) = Some g.

Definition same_entry (e f : granule_set) : Prop :=
  gs_addr e = gs_addr f ∧ gs_ret e = gs_ret f ∧ gs_state e = gs_state f.

Lemma lockable_find s a st g : lockable s a st = Some g → find_granule a = Ok (Some g).
Proof.
  unfold lockable. destruct (find_granule a) as [[h|]|]; [|done..].
  destruct (granules s !! h) as [gr|]; [|done]. by destruct (_ =? _); intros; simplify_eq.
Qed.

Lemma sorted_addrs l : StronglySorted gs_le l → StronglySorted Z.le (gs_addr <$> l).
Proof. induction 1; simpl; constructor; [done|]. by apply Forall_fmap. Qed.

(** In a sorted list, an element that differs from its predecessor is new. *)
Lemma sorted_fresh (l : list Z) p x r :
  StronglySorted Z.le (l ++ p :: x :: r) → x ≠ p → x ∉ l ++ [p].
Proof.
  intros Hs Hne [Hx|Hx%list_elem_of_singleton]%elem_of_app; [|done].
  assert (x <= p) by (apply (StronglySorted_app_1_elem_of _ _ _ _ _ Hs); set_solver).
  apply StronglySorted_app_1_r in Hs; apply StronglySorted_inv in Hs as [_ [Hp _]%Forall_cons_1]. lia.
Qed.

Lemma held_fresh s done gl e g :
  Forall2 (held s) done gl → Forall (λ e, is_u64 (gs_addr e)) done → is_u64 (gs_addr e) →
  gs_addr e ∉ gs_addr <$> done → find_granule (gs_addr e) = Ok (Some g) → g ∉ gl.
Proof.
  intros Hh Hu He Hn Hf. induction Hh as [|d h done gl [_ Hd] Hh IH]; [apply not_elem_of_nil|].
  apply Forall_cons in Hu as [Hud Hu]. simpl in Hn. apply not_elem_of_cons in Hn as [Hne Hn].
  apply not_elem_of_cons. split; [|by apply IH]. intros ->. apply Hne.
  eapply find_granule_inj; [done|done|done|]. by eapply lockable_find.
Qed.

Lemma lockable_lock_all s gl a st g :
  find_granule a = Ok (Some g) → g ∉ gl → lockable (lock_all gl s) a st = lockable s a st.
Proof. intros Hf Hg. unfold lockable. rewrite Hf. by rewrite lock_all_ne. Qed.

(** One step of the loop at a fresh address. *)
Lemma find_lock_step s done gl e :
  quiescent s → Forall2 (held s) done gl → Forall (λ e, is_u64 (gs_addr e)) done →
  is_u64 (gs_addr e) → gs_addr e ∉ gs_addr <$> done →
  find_lock_granule (gs_addr e) (gs_state e) (lock_all gl s)
  = Ok (lockable s (gs_addr e) (gs_state e),
        match lockable s (gs_addr e) (gs_state e) with
        | Some g => lock_all (gl ++ [g]) s
        | None => lock_all gl s
        end).
Proof.
  intros Hq Hh Hu He Hn.
  assert (Hl : lockable (lock_all gl s) (gs_addr e) (gs_state e)
               = lockable s (gs_addr e) (gs_state e)).
  { destruct (find_granule_total _ He) as [[g|] Hf].
    - eapply lockable_lock_all; [done|]. by eapply held_fresh.
    - unfold lockable. by rewrite Hf. }
  rewrite find_lock_granule_spec, Hl; [|done|].
  - destruct (lockable s _ _); [|done]. by rewrite lock_all_snoc.
  - intros g Hf. rewrite lock_all_ne by (by eapply held_fresh).
    apply Hq. by apply find_granule_Some in Hf as (_ & ? & _).
Qed.

Lemma dup_check done e rest :
  ∃ b, (∀ s : state, (if negb (length done =? 0)%nat
         then lift (aget (done ++ e :: rest) (Z.of_nat (length done) - 1)) ≫= λ p,
              mret (gs_addr e =? gs_addr p)
         else mret false) s = Ok (b, s)) ∧
    (b = true → gs_addr e ∈ gs_addr <$> done) ∧
    (b = false → StronglySorted Z.le (gs_addr <$> done ++ e :: rest) →
       gs_addr e ∉ gs_addr <$> done).
Proof.
  destruct done as [|p done _] using rev_ind.
  { exists false. split; [done|]. split; [done|]. intros _ _. apply not_elem_of_nil. }
  exists (gs_addr e =? gs_addr p). split.
  { intros s. rewrite length_app. cbn [length]. rewrite (proj2 (Nat.eqb_neq _ _)) by lia. cbn [negb].
    replace (Z.of_nat (length done + 1) - 1) with (Z.of_nat (length done)) by lia.
    rewrite <- app_assoc. cbn [app]. rewrite aget_app_mid. done. }
  rewrite fmap_app. split.
  - intros ->%Z.eqb_eq. set_solver.
  - intros Hne%Z.eqb_neq Hs. rewrite <- app_assoc, fmap_app in Hs. simpl in Hs.
    by eapply sorted_fresh.
Qed.

Lemma same_entry_mid l done e rest og :
  Forall2 same_entry l (done ++ [set_gs_g og e] ++ rest) →
  Forall2 same_entry l (done ++ e :: rest).
Proof.
  intros (l1 & l2 & H1 & H2 & ->)%Forall2_app_inv_r.
  apply Forall2_app; [done|]. simpl in H2.
  apply Forall2_cons_inv_r in H2 as (x & l2' & Hx & H2 & ->). by constructor.
Qed.

Lemma lock_loop_spec s rest : ∀ done gl,
  quiescent s → Forall (λ e, is_u64 (gs_addr e)) (done ++ rest) →
  StronglySorted Z.le (gs_addr <$> done ++ rest) →
  NoDup (gs_addr <$> done) → Forall2 (held s) done gl →
  ∃ (ok : bool) i gs' gl',
    lock_loop (length rest) (length done) (done ++ rest) (lock_all gl s)
      = Ok ((ok, i, gs'), lock_all gl' s) ∧
    Forall2 same_entry gs' (done ++ rest) ∧
    Forall2 (held s) (take i gs') gl' ∧ NoDup (gs_addr <$> take i gs') ∧
    Forall (λ e, is_u64 (gs_addr e)) (take i gs') ∧ (i <= length gs')%nat ∧
    if ok then i = length gs'
    else ¬ (NoDup (gs_addr <$> done ++ rest) ∧
            Forall (λ e, is_Some (lockable s (gs_addr e) (gs_state e))) rest).
Proof.
  induction rest as [|e rest IH]; intros done gl Hq Hu Hs Hnd Hh.
  - rewrite app_nil_r in *. exists true, (length done), done, gl.
    rewrite firstn_all. repeat split; try done. by apply Forall_Forall2_diag, Forall_true.
  - apply Forall_app in Hu as Hu'. destruct Hu' as [Hud [Hue Hur]%Forall_cons_1].
    destruct (dup_check done e rest) as (b & Hb & Hdup & Hfresh).
    cbn [length lock_loop].
    run_step (lift_run _ _ _ (aget_app_mid _ _ _)). run_step (Hb _). destruct b.
    { exists false, (length done), (done ++ e :: rest), gl. rewrite take_app_length.
      rewrite length_app. repeat split; try done; try lia.
      - by apply Forall_Forall2_diag, Forall_true.
      - intros [Hn _]. rewrite fmap_app in Hn. apply NoDup_app in Hn as (_ & Hn & _).
        apply (Hn (gs_addr e)); [by apply Hdup|]. set_solver. }
    specialize (Hfresh eq_refl Hs).
    run_step (find_lock_step s done gl e Hq Hh Hud Hue Hfresh).
    set (o := lockable s (gs_addr e) (gs_state e)) in *.
    run_step (lift_run _ _ _ (aset_app_mid _ _ _ _)). destruct o as [g|] eqn:Ho; subst o.
    + replace (S (length done)) with (length (done ++ [set_gs_g (Some g) e]))
        by (rewrite length_app; simpl; lia).
      replace (done ++ set_gs_g (Some g) e :: rest)
        with ((done ++ [set_gs_g (Some g) e]) ++ rest) by (by rewrite <- app_assoc).
      destruct (IH (done ++ [set_gs_g (Some g) e]) (gl ++ [g]))
        as (ok & i & gs' & gl' & Hrun & Hsame & Hheld & Hnd' & Hu' & Hi & Hok).
      * done.
      * rewrite <- app_assoc. apply Forall_app. split; [done|]. by constructor.
      * rewrite <- app_assoc, fmap_app. by rewrite fmap_app in Hs.
      * rewrite fmap_app. simpl. apply NoDup_app. split; [done|]. split; [set_solver|].
        apply NoDup_singleton.
      * apply Forall2_app; [done|]. by constructor.
      * exists ok, i, gs', gl'. split; [done|].
        split. { rewrite <- app_assoc in Hsame. by eapply same_entry_mid. }
        split; [done|]. split; [done|]. split; [done|]. split; [done|].
        destruct ok; [done|]. rewrite <- app_assoc, fmap_app in Hok. rewrite fmap_app.
        intros [Hn [_ Hf]%Forall_cons_1]. apply Hok. done.
    + exists false, (length done), (done ++ set_gs_g None e :: rest), gl. rewrite take_app_length.
      rewrite length_app. repeat split; try done; try lia.
      * apply Forall2_app; [by apply Forall_Forall2_diag, Forall_true|]. constructor; [done|].
        by apply Forall_Forall2_diag, Forall_true.
      * intros [_ [Hf _]%Forall_cons_1]. rewrite Ho in Hf. by destruct Hf.
Qed.

Lemma held_nodup s l gl :
  Forall2 (held s) l gl → Forall (λ e, is_u64 (gs_addr e)) l → NoDup (gs_addr <$> l) → NoDup gl.
Proof.
  intros Hh. induction Hh as [|e g l gl [_ He] Hh IH]; intros Hu Hn; [constructor|].
  apply Forall_cons in Hu as [Hue Hu]. simpl in Hn. apply NoDup_cons in Hn as [Hn1 Hn2].
  constructor; [|by apply IH]. eapply held_fresh; [done..|]. by eapply lockable_find.
Qed.

Lemma unlock_loop_spec s gs i gl :
  quiescent s → Forall2 (held s) (take i gs) gl → Forall (λ e, is_u64 (gs_addr e)) (take i gs) →
  NoDup gl → (i <= length gs)%nat →
  unlock_loop i gs (lock_all gl s) = Ok ((), s).
Proof.
  intros Hq. revert gl. induction i as [|i IH]; intros gl Hh Hu Hn Hi.
  { rewrite take_0 in Hh. by inversion Hh. }
  destruct (lookup_lt_is_Some_2 gs i) as [e He]; [lia|].
  rewrite (take_S_r _ _ _ He) in Hh, Hu. apply Forall_app in Hu as [Hu [Hue _]%Forall_cons_1].
  apply Forall2_app_inv_l in Hh as (gl1 & gl2 & Hh & Hh2 & ->).
  inversion Hh2 as [|? g ? gl3 [Hg Hl] Hnil]; subst. inversion Hnil; subst. clear Hnil Hh2.
  cbn [unlock_loop].
  assert (Hget : aget gs (Z.of_nat i) = Ok e) by (apply aget_lookup; [lia|]; by rewrite Nat2Z.id).
  run_step (lift_run _ _ _ Hget). run_step (mderef_run _ _ _ Hg).
  apply NoDup_app in Hn as (Hn & Hng & _). rewrite lock_all_snoc.
  assert (Hr : 0 <= g < RMM_MAX_GRANULES).
  { apply lockable_find, find_granule_Some in Hl as (_ & ? & _); done. }
  assert (Hlk : granule_unlock g (lock_one g (lock_all gl1 s)) = Ok ((), lock_all gl1 s)).
  { apply unlock_locked. rewrite lock_all_ne by (intros Hin; apply (Hng _ Hin); set_solver).
    by apply Hq. }
  run_step Hlk. apply IH; done || lia.
Qed.

Lemma store_rets_lookup l outs e :
  NoDup (gs_ret <$> l) → e ∈ l → store_rets l outs !! gs_ret e = Some (gs_g e).
Proof.
  revert outs. induction l as [|x l IH] using rev_ind; intros outs Hn He.
  { by apply not_elem_of_nil in He. }
  unfold store_rets. rewrite foldl_app. simpl. rewrite fmap_app in Hn.
  apply NoDup_app in Hn as (Hn & Hx & _).
  apply elem_of_app in He as [He|He]; [|apply list_elem_of_singleton in He as ->].
  - rewrite lookup_insert_ne; [by apply IH|]. intros Heq.
    apply (Hx (gs_ret e)); [by apply list_elem_of_fmap_2|]. rewrite <- Heq. set_solver.
  - by rewrite lookup_insert_eq.
Qed.

(** The entries [gs] can be locked together: their addresses are distinct and each
    names a granule in the expected state. *)
Definition all_lockable (s : state) (gs : list granule_set) : Prop :=
  NoDup (gs_addr <$> gs) ∧ Forall (λ e, is_Some (lockable s (gs_addr e) (gs_state e))) gs.

Lemma all_lockable_perm s gs gs' : gs ≡ₚ gs' → all_lockable s gs → all_lockable s gs'.
Proof. intros Hp [Hn Hf]. split; by rewrite <- Hp. Qed.

Lemma same_entry_fields l l' :
  Forall2 same_entry l l' → gs_addr <$> l = gs_addr <$> l' ∧ gs_ret <$> l = gs_ret <$> l'.
Proof.
  induction 1 as [|e f l l' (Ha & Hr & _) _ [IH1 IH2]]; [done|]. csimpl. by rewrite Ha, Hr, IH1, IH2.
Qed.

Lemma held_lockable s l l' gl :
  Forall2 same_entry l l' → Forall2 (held s) l gl →
  Forall2 (λ e g, lockable s (gs_addr e) (gs_state e) = Some g) l' gl.
Proof.
  intros Hs. revert gl. induction Hs as [|e f l l' (Ha & _ & Hst) _ IH]; intros gl Hh.
  { inversion Hh. constructor. }
  inversion Hh as [|? g ? gl' [_ Hg] Hh']; subst. constructor; [by rewrite <- Ha, <- Hst | by apply IH].
Qed.

Lemma sorted_strict (l : list Z) : StronglySorted Z.le l → NoDup l → StronglySorted Z.lt l.
Proof.
  induction 1 as [|x l Hs IH Hx]; intros Hn; [constructor|].
  apply NoDup_cons in Hn as [Hxl Hn]. constructor; [by apply IH|].
  rewrite Forall_forall in *. intros y Hy. specialize (Hx y Hy).
  assert (x ≠ y) by (by intros ->). lia.
Qed.

Lemma store_rets_same s l l' gl outs e :
  Forall2 same_entry l l' → Forall2 (held s) l gl → NoDup (gs_ret <$> l) → e ∈ l' →
  store_rets l outs !! gs_ret e = Some (lockable s (gs_addr e) (gs_state e)).
Proof.
  intros Hs Hh Hn [k Hk]%list_elem_of_lookup.
  destruct (Forall2_lookup_r _ _ _ _ _ Hs Hk) as (f & Hf & Ha & Hr & Hst).
  destruct (Forall2_lookup_l _ _ _ _ _ Hh Hf) as (g & _ & Hg & Hl).
  rewrite <- Hr, store_rets_lookup; [rewrite Hg, <- Ha, <- Hst; by rewrite Hl|done|].
  by eapply list_elem_of_lookup_2.
Qed.

(** What [find_lock_granules] promises, on every set of entries. *)
Definition find_lock_contract (s : state) (gs : list granule_set) (outs : gmap Z (option Z)) : Prop :=
  (all_lockable s gs ∧ ∃ outs' l gl,
     find_lock_granules gs outs s = Ok ((true, outs'), lock_all gl s) ∧
     l ≡ₚ gs ∧ StronglySorted Z.lt (gs_addr <$> l) ∧
     Forall2 (λ e g, lockable s (gs_addr e) (gs_state e) = Some g) l gl ∧
     ∀ e, e ∈ gs → outs' !! gs_ret e = Some (lockable s (gs_addr e) (gs_state e)))
  ∨ (¬ all_lockable s gs ∧ find_lock_granules gs outs s = Ok ((false, outs), s)).

Lemma find_lock_granules_correct s gs outs :
  quiescent s → Forall (λ e, is_u64 (gs_addr e)) gs → NoDup (gs_ret <$> gs) →
  find_lock_contract s gs outs.
Proof.
  intros Hq Hu Hret. destruct (sort_granules_spec gs) as (l & Hsort & Hs & Hp).
  assert (Hul : Forall (λ e, is_u64 (gs_addr e)) l) by (by rewrite Hp).
  apply sorted_addrs in Hs.
  destruct (lock_loop_spec s l [] [] Hq Hul Hs) as
    (ok & i & gs' & gl & Hrun & Hsame & Hheld & Hnd & Hu' & Hi & Hok); [constructor..|].
  unfold find_lock_contract, find_lock_granules. run_step (lift_run _ _ _ Hsort).
  simpl in Hrun. run_step Hrun. destruct ok; cbv beta iota.
  - left. subst i. rewrite firstn_all in *.
    destruct (same_entry_fields _ _ Hsame) as [Haddr Hrets]. simpl in Haddr, Hrets.
    assert (Hl : Forall2 (λ e g, lockable s (gs_addr e) (gs_state e) = Some g) l gl).
    { by eapply held_lockable. }
    split.
    { eapply all_lockable_perm; [done|]. split; [by rewrite <- Haddr|].
      clear -Hl. induction Hl; constructor; eauto. }
    exists (store_rets gs' outs), l, gl. split; [done|]. split; [done|].
    split; [apply sorted_strict; [done|by rewrite <- Haddr]|]. split; [done|].
    intros e He. eapply store_rets_same; [done|done| |by rewrite Hp].
    rewrite Hrets, Hp. done.
  - right. split; [|by run_step (unlock_loop_spec s gs' i gl Hq Hheld Hu'
                       (held_nodup _ _ _ Hheld Hu' Hnd) Hi)].
    intros Hall. by apply Hok, (all_lockable_perm s gs l).
Qed.

Lemma lock_one_comm g h s : g ≠ h → lock_one g (lock_one h s) = lock_one h (lock_one g s).
Proof.
  intros Hne. unfold lock_one at 1 3. rewrite !lock_one_ne by done.
  unfold lock_one. destruct (granules s !! g), (granules s !! h); [|done..].
  by apply put_granule_comm.
Qed.

Lemma find_lock_two_granules_spec s a1 st1 a2 st2 :
  quiescent s → is_u64 a1 → is_u64 a2 →
  find_lock_two_granules a1 st1 a2 st2 s
  = match lockable s a1 st1, lockable s a2 st2 with
    | Some g1, Some g2 =>
        if a1 =? a2 then Ok (None, s) else Ok (Some (g1, g2), lock_one g1 (lock_one g2 s))
    | _, _ => Ok (None, s)
    end.
Proof.
  intros Hq H1 H2. unfold find_lock_two_granules. cbv zeta.
  set (e1 := Build_granule_set a1 None 1 st1). set (e2 := Build_granule_set a2 None 2 st2).
  destruct (find_lock_granules_correct s [e1; e2] ∅ Hq)
    as [([Hnd Hall] & outs & l & gl & Hrun & Hp & Hs & Hl & Hout)|[Hno Hrun]].
  - rewrite !Forall_cons. auto.
  - simpl. apply NoDup_cons. split; [set_solver|apply NoDup_singleton].
  - run_step Hrun. cbv beta iota.
    pose proof (Hout e1 ltac:(set_solver)) as Ho1. pose proof (Hout e2 ltac:(set_solver)) as Ho2.
    simpl in Ho1, Ho2. apply Forall_cons_1 in Hall as [[g1 Hg1] [[g2 Hg2] _]%Forall_cons_1].
    simpl in Hg1, Hg2. rewrite Ho1, Ho2, Hg1, Hg2.
    assert (Hne : a1 ≠ a2).
    { intros ->. simpl in Hnd. apply NoDup_cons in Hnd as [Hnd _]. set_solver. }
    rewrite (proj2 (Z.eqb_neq a1 a2)) by done.
    change (Some (Some ?g) ≫= id) with (Some g).
    do 2 run_step (mderef_run _ _ _ eq_refl). unfold mret, M_ret. f_equal. f_equal.
    assert (Hg : g1 ≠ g2).
    { intros ->. apply Hne. apply lockable_find in Hg1, Hg2. by eapply find_granule_inj. }
    symmetry in Hp. apply Permutation_length_2_inv in Hp as [-> | ->].
    + inversion Hl as [|? x ? ? Hx Hl']; subst. inversion Hl' as [|? y ? ? Hy Hl'']; subst.
      inversion Hl''; subst. simpl in Hx, Hy. simplify_eq. unfold lock_all; simpl. by apply lock_one_comm.
    + inversion Hl as [|? x ? ? Hx Hl']; subst. inversion Hl' as [|? y ? ? Hy Hl'']; subst.
      inversion Hl''; subst. simpl in Hx, Hy. by simplify_eq.
  - run_step Hrun. cbv beta iota.
    destruct (lockable s a1 st1) as [g1|] eqn:Hg1; [|done].
    destruct (lockable s a2 st2) as [g2|] eqn:Hg2; [|done].
    destruct (Z.eqb_spec a1 a2); [done|]. exfalso. apply Hno. split.
    + simpl. apply NoDup_cons. split; [set_solver|apply NoDup_singleton].
    + rewrite !Forall_cons. simpl. rewrite Hg1, Hg2. eauto.
Qed.

(** [find_lock_granules] on any set of entries, in a state where no lock is held,
    always returns. When the addresses are distinct and every entry names a granule in
    the expected state it answers true, the locks of exactly these granules are held,
    taken in strictly ascending order of address, and every result cell holds its
    granule; otherwise it answers false, no lock is held, and neither the state nor any
    result cell has changed. *)
Theorem find_lock_granules_spec s gs outs :
  quiescent s → Forall (λ e, is_u64 (gs_addr e)) gs → NoDup (gs_ret <$> gs) →
  find_lock_contract s gs outs.
Proof. apply find_lock_granules_correct. Qed.
End find.

(** Three granules: one not delegated, one delegated, one realm descriptor. *)
Definition example_state : state :=
  set_granules (<[0 := Gr false GRANULE_STATE_NS 0 0]>
               (<[1 := Gr false GRANULE_STATE_DELEGATED 0 0]>
               (<[2 := Gr false GRANULE_STATE_RD 5 17]> ∅))) state_init.

Lemma example_quiescent : quiescent (P := example_platform) example_state.
Proof.
  intros g Hg. change RMM_MAX_GRANULES with 3 in Hg.
  assert (g = 0 ∨ g = 1 ∨ g = 2) as [-> | [-> | ->]] by lia; (eexists; split; [reflexivity|]).
  - by exists GRANULE_STATE_NS, 0, 0.
  - by exists GRANULE_STATE_DELEGATED, 0, 0.
  - by exists GRANULE_STATE_RD, 5, 17.
Qed.

Lemma find_lock_granules_spec_witness :
  find_lock_contract (P := example_platform) example_state
    [ {| gs_addr := 2 ^ 35 + 4096; gs_g := None; gs_ret := 1; gs_state := GRANULE_STATE_RD |};
      {| gs_addr := 2 ^ 35; gs_g := None; gs_ret := 2; gs_state := GRANULE_STATE_DELEGATED |} ] ∅.
Proof.
  apply (find_lock_granules_spec (L := example_laws)).
  - apply example_quiescent.
  - rewrite !Forall_cons. repeat split; simpl; lia || auto.
  - apply NoDup_cons. split; [set_solver|apply NoDup_singleton].
Defined.
