(* ===== verification/S2tte.v ===== *)
(** Stage 2 translation table entries (lib/s2tt/src/s2tt.c, s2tt_pvt_defs.h): the
    encoding of the descriptor types, the constructors and the classifiers. Shown
    here: output addresses survive encoding (with and without FEAT_LPA2), every
    constructor's entry is recognised by exactly its own classifier, and what the host
    supplied for a non-secure mapping can be read back. *)
From S2P Require Import Prelude Types.

(** The build option ENABLE_OPENCCA (platforms without stage 2 forced write-back). *)
Class Config := { ENABLE_OPENCCA : bool }.

(** * Bit fields *)

Definition S2TTE_INVALID_HIPAS_SHIFT : Z := 2.
Definition S2TTE_INVALID_HIPAS_WIDTH : Z := 3.
Definition S2TTE_INVALID_HIPAS_MASK : Z := MASK S2TTE_INVALID_HIPAS_SHIFT S2TTE_INVALID_HIPAS_WIDTH.
Definition S2TTE_CREATE_FLAG_RO : Z := 1 .<< 62.
Definition S2TTE_INVALID_HIPAS_UNASSIGNED : Z := INPLACE S2TTE_INVALID_HIPAS_SHIFT RMI_UNASSIGNED.
Definition S2TTE_INVALID_HIPAS_ASSIGNED : Z := INPLACE S2TTE_INVALID_HIPAS_SHIFT RMI_ASSIGNED.
Definition S2TTE_INVALID_RIPAS_SHIFT : Z := 5.
Definition S2TTE_INVALID_RIPAS_WIDTH : Z := 2.
Definition S2TTE_INVALID_RIPAS_MASK : Z := MASK S2TTE_INVALID_RIPAS_SHIFT S2TTE_INVALID_RIPAS_WIDTH.
Definition S2TTE_INVALID_RIPAS_EMPTY : Z := INPLACE S2TTE_INVALID_RIPAS_SHIFT RMI_EMPTY.
Definition S2TTE_INVALID_RIPAS_RAM : Z := INPLACE S2TTE_INVALID_RIPAS_SHIFT RMI_RAM.
Definition S2TTE_INVALID_RIPAS_DESTROYED : Z := INPLACE S2TTE_INVALID_RIPAS_SHIFT RMI_DESTROYED.
Definition S2TTE_INVALID_RIPAS_RAM_READ_ONLY : Z := S2TTE_INVALID_RIPAS_RAM .| S2TTE_CREATE_FLAG_RO.
Definition S2TTE_NS : Z := 1 .<< 55.
Definition S2TTE_AF : Z := 1 .<< 10.
Definition S2TTE_XN : Z := 2 .<< 53.

Definition S2TT_DESC_TYPE_MASK : Z := 3.
Definition S2TTE_INVALID : Z := 0.
Definition S2TTE_L012_BLOCK : Z := 1.
Definition S2TTE_L012_TABLE : Z := 3.
Definition S2TTE_L3_PAGE : Z := 3.
Definition BLOCK_L2_SIZE : Z := GRANULE_SIZE .* S2TTES_PER_S2TT.

Definition S2TTE_OA_BITS : Z := 48.
Definition S2TTE_OA_BITS_LPA2 : Z := 52.
Definition LPA2_OA_51_50_SHIFT : Z := 50.
Definition LPA2_OA_51_50_WIDTH : Z := 2.
Definition LPA2_OA_49_48_SHIFT : Z := 48.
Definition LPA2_OA_49_48_WIDTH : Z := 2.
Definition LPA2_S2TTE_51_50_SHIFT : Z := 8.
Definition LPA2_S2TTE_51_50_WIDTH : Z := LPA2_OA_51_50_WIDTH.

Definition S2TTE_MEMATTR_SHIFT : Z := 2.
Definition S2TTE_MEMATTR_MASK : Z := 7 .<< S2TTE_MEMATTR_SHIFT.
Definition S2TTE_MEMATTR_FWB_RESERVED : Z := (1 .<< 4) .| (0 .<< 2).
Definition S2TTE_AP_SHIFT : Z := 6.
Definition S2TTE_AP_MASK : Z := 3 .<< S2TTE_AP_SHIFT.
Definition S2TTE_AP_RW : Z := 3 .<< S2TTE_AP_SHIFT.
Definition S2TTE_AP_RO : Z := 1 .<< S2TTE_AP_SHIFT.
Definition S2TTE_SH_SHIFT : Z := 8.
Definition S2TTE_SH_IS : Z := 3 .<< S2TTE_SH_SHIFT.
Definition S2TTE_NS_ATTR_MASK : Z := S2TTE_MEMATTR_MASK .| S2TTE_AP_MASK.
Definition S2TTE_TABLE : Z := S2TTE_L012_TABLE.

(** * Case analysis on levels *)

Lemma level_cases level : -1 <= level <= 3 → level = -1 ∨ level = 0 ∨ level = 1 ∨ level = 2 ∨ level = 3.
Proof. lia. Qed.

Lemma block_level_cases level : 1 <= level <= 3 → level = 1 ∨ level = 2 ∨ level = 3.
Proof. lia. Qed.

Ltac level_split H := apply level_cases in H as [-> | [-> | [-> | [-> | ->]]]].

Ltac block_level_split H := apply block_level_cases in H as [-> | [-> | ->]].

Section s2tte.
Context {C : Config}.

Definition S2TTE_MEMATTR_FWB_NORMAL_WB : Z :=
  if ENABLE_OPENCCA then 15 .<< 2 else (1 .<< 4) .| (2 .<< 2).
Definition S2TTE_ATTRS_LPA2 : Z := S2TTE_MEMATTR_FWB_NORMAL_WB .| S2TTE_AP_RW .| S2TTE_AF.
Definition S2TTE_ATTRS_LPA2_RO : Z := S2TTE_MEMATTR_FWB_NORMAL_WB .| S2TTE_AP_RO .| S2TTE_AF.
Definition S2TTE_ATTRS : Z := S2TTE_ATTRS_LPA2 .| S2TTE_SH_IS.
Definition S2TTE_ATTRS_RO : Z := S2TTE_ATTRS_LPA2_RO .| S2TTE_SH_IS.
Definition S2TTE_NS_ATTR_RMM : Z :=
  if ENABLE_OPENCCA then S2TTE_AF .| S2TTE_NS .| S2TTE_XN .| S2TTE_MEMATTR_FWB_NORMAL_WB
  else S2TTE_AF .| S2TTE_NS .| S2TTE_XN.
Definition S2TTE_BLOCK : Z := S2TTE_ATTRS .| S2TTE_L012_BLOCK.
Definition S2TTE_BLOCK_RO : Z := S2TTE_ATTRS_RO .| S2TTE_L012_BLOCK.
Definition S2TTE_BLOCK_LPA2 : Z := S2TTE_ATTRS_LPA2 .| S2TTE_L012_BLOCK.
Definition S2TTE_BLOCK_LPA2_RO : Z := S2TTE_ATTRS_LPA2_RO .| S2TTE_L012_BLOCK.
Definition S2TTE_PAGE : Z := S2TTE_ATTRS .| S2TTE_L3_PAGE.
Definition S2TTE_PAGE_RO : Z := S2TTE_ATTRS_RO .| S2TTE_L3_PAGE.
Definition S2TTE_PAGE_LPA2 : Z := S2TTE_ATTRS_LPA2 .| S2TTE_L3_PAGE.
Definition S2TTE_PAGE_LPA2_RO : Z := S2TTE_ATTRS_LPA2_RO .| S2TTE_L3_PAGE.
Definition S2TTE_BLOCK_NS : Z := S2TTE_NS_ATTR_RMM .| S2TTE_L012_BLOCK.
Definition S2TTE_PAGE_NS : Z := S2TTE_NS_ATTR_RMM .| S2TTE_L3_PAGE.

(** * Output addresses *)

(** Least significant address bit translated at [level]. *)
Definition lvl_lsb (level : Z) : Z := (S2TT_PAGE_LEVEL - level) * S2TTE_STRIDE + GRANULE_SHIFT.

Definition s2tte_map_size (level : Z) : Z := 1 .<< lvl_lsb level.

Definition s2tte_lvl_mask (level : Z) (lpa2 : bool) : result Z :=
  rassert (level <=? S2TT_PAGE_LEVEL) ≫= λ _,
  rassert (S2TT_MIN_STARTING_LEVEL_LPA2 <=? level) ≫= λ _,
  let mask := BIT_MASK_ULL (S2TTE_OA_BITS - 1) (lvl_lsb level) in
  Ok (if lpa2 then
        mask .| (MASK LPA2_S2TTE_51_50_SHIFT LPA2_S2TTE_51_50_WIDTH
                 .| MASK LPA2_OA_49_48_SHIFT LPA2_OA_49_48_WIDTH)
      else mask).

Definition s2tte_to_pa (s2tte level : Z) (lpa2 : bool) : result Z :=
  s2tte_lvl_mask level lpa2 ≫= λ mask,
  let pa := s2tte .& mask in
  Ok (if lpa2 then
        (pa .& (.~ MASK LPA2_S2TTE_51_50_SHIFT LPA2_S2TTE_51_50_WIDTH))
        .| INPLACE LPA2_OA_51_50_SHIFT
             (EXTRACT LPA2_S2TTE_51_50_SHIFT LPA2_S2TTE_51_50_WIDTH s2tte)
      else pa).

Definition pa_to_s2tte (pa : Z) (lpa2 : bool) : Z :=
  if lpa2 then
    (pa .& (.~ MASK LPA2_OA_51_50_SHIFT LPA2_OA_51_50_WIDTH))
    .| INPLACE LPA2_S2TTE_51_50_SHIFT (EXTRACT LPA2_OA_51_50_SHIFT LPA2_OA_51_50_WIDTH pa)
  else pa.

Definition min_starting_level (s2_ctx : s2tt_context) : Z :=
  if enable_lpa2 s2_ctx then S2TT_MIN_STARTING_LEVEL_LPA2 else S2TT_MIN_STARTING_LEVEL.

Definition s2tte_oa_bits (lpa2 : bool) : Z := if lpa2 then S2TTE_OA_BITS_LPA2 else S2TTE_OA_BITS.

Definition s2tte_is_addr_lvl_aligned (s2_ctx : s2tt_context) (addr level : Z) : result bool :=
  rassert (level <=? S2TT_PAGE_LEVEL) ≫= λ _,
  rassert (min_starting_level s2_ctx <=? level) ≫= λ _,
  Ok (addr =? (addr .& BIT_MASK_ULL (s2tte_oa_bits (enable_lpa2 s2_ctx) - 1) (lvl_lsb level))).

(** * Constructors *)

Definition s2tte_create_unassigned_empty : Z :=
  S2TTE_INVALID_HIPAS_UNASSIGNED .| S2TTE_INVALID_RIPAS_EMPTY.
Definition s2tte_create_unassigned_ram : Z :=
  S2TTE_INVALID_HIPAS_UNASSIGNED .| S2TTE_INVALID_RIPAS_RAM.
Definition s2tte_create_unassigned_destroyed : Z :=
  S2TTE_INVALID_HIPAS_UNASSIGNED .| S2TTE_INVALID_RIPAS_DESTROYED.
Definition s2tte_create_unassigned_ns : Z := S2TTE_NS .| S2TTE_INVALID_HIPAS_UNASSIGNED.

Definition s2tte_create_assigned (s2_ctx : s2tt_context) (pa level s2tte_ripas : Z) : result Z :=
  rassert (S2TT_MIN_BLOCK_LEVEL <=? level) ≫= λ _,
  rassert (level <=? S2TT_PAGE_LEVEL) ≫= λ _,
  let ripas_only := s2tte_ripas .& S2TTE_INVALID_RIPAS_MASK in
  rassert (EXTRACT S2TTE_INVALID_RIPAS_SHIFT S2TTE_INVALID_RIPAS_WIDTH ripas_only
           <=? EXTRACT S2TTE_INVALID_RIPAS_SHIFT S2TTE_INVALID_RIPAS_WIDTH
                 S2TTE_INVALID_RIPAS_DESTROYED) ≫= λ _,
  s2tte_is_addr_lvl_aligned s2_ctx pa level ≫= λ aligned,
  rassert aligned ≫= λ _,
  let want_ro := negb ((s2tte_ripas .& S2TTE_CREATE_FLAG_RO) =? 0) in
  let tte := pa_to_s2tte pa (enable_lpa2 s2_ctx) in
  let '(s2tte_page, s2tte_block, s2tte_page_ro, s2tte_block_ro) :=
    if enable_lpa2 s2_ctx
    then (S2TTE_PAGE_LPA2, S2TTE_BLOCK_LPA2, S2TTE_PAGE_LPA2_RO, S2TTE_BLOCK_LPA2_RO)
    else (S2TTE_PAGE, S2TTE_BLOCK, S2TTE_PAGE_RO, S2TTE_BLOCK_RO) in
  if ripas_only =? S2TTE_INVALID_RIPAS_RAM then
    if level =? S2TT_PAGE_LEVEL
    then Ok (tte .| (if want_ro then s2tte_page_ro else s2tte_page))
    else Ok (tte .| (if want_ro then s2tte_block_ro else s2tte_block))
  else Ok (tte .| S2TTE_INVALID_HIPAS_ASSIGNED .| ripas_only).

Definition s2tte_create_assigned_destroyed (s2_ctx : s2tt_context) (pa level : Z) : result Z :=
  s2tte_create_assigned s2_ctx pa level S2TTE_INVALID_RIPAS_DESTROYED.
Definition s2tte_create_assigned_empty (s2_ctx : s2tt_context) (pa level : Z) : result Z :=
  s2tte_create_assigned s2_ctx pa level S2TTE_INVALID_RIPAS_EMPTY.
Definition s2tte_create_assigned_ram (s2_ctx : s2tt_context) (pa level : Z) : result Z :=
  s2tte_create_assigned s2_ctx pa level S2TTE_INVALID_RIPAS_RAM.
Definition s2tte_create_assigned_ram_read_only (s2_ctx : s2tt_context) (pa level : Z) : result Z :=
  s2tte_create_assigned s2_ctx pa level S2TTE_INVALID_RIPAS_RAM_READ_ONLY.
Definition s2tte_create_assigned_unchanged (s2_ctx : s2tt_context) (s2tte pa level : Z) : result Z :=
  s2tte_create_assigned s2_ctx pa level (s2tte .& S2TTE_INVALID_RIPAS_MASK).

Definition s2tte_create_assigned_ns (s2_ctx : s2tt_context) (s2tte level : Z) : result Z :=
  let new_s2tte := s2tte .& (.~ S2TT_DESC_TYPE_MASK) in
  rassert (S2TT_MIN_BLOCK_LEVEL <=? level) ≫= λ _,
  rassert (level <=? S2TT_PAGE_LEVEL) ≫= λ _,
  let new_s2tte := if negb (enable_lpa2 s2_ctx) then new_s2tte .| S2TTE_SH_IS else new_s2tte in
  if level =? S2TT_PAGE_LEVEL then Ok (new_s2tte .| S2TTE_PAGE_NS)
  else Ok (new_s2tte .| S2TTE_BLOCK_NS).

Definition host_ns_s2tte_is_valid (s2_ctx : s2tt_context) (s2tte level : Z) : result bool :=
  rassert (S2TT_MIN_BLOCK_LEVEL <=? level) ≫= λ _,
  s2tte_lvl_mask level (enable_lpa2 s2_ctx) ≫= λ m,
  let mask := m .| S2TTE_NS_ATTR_MASK in
  if negb ((s2tte .& (.~ mask)) =? 0) then Ok false
  else if (s2tte .& S2TTE_MEMATTR_MASK) =? S2TTE_MEMATTR_FWB_RESERVED then Ok false
  else Ok true.

Definition host_ns_s2tte (s2_ctx : s2tt_context) (s2tte level : Z) : result Z :=
  s2tte_lvl_mask level (enable_lpa2 s2_ctx) ≫= λ m,
  let mask := m .| S2TTE_NS_ATTR_MASK in
  rassert (S2TT_MIN_BLOCK_LEVEL <=? level) ≫= λ _,
  Ok (s2tte .& mask).

Definition s2tte_create_table (s2_ctx : s2tt_context) (pa level : Z) : result Z :=
  rassert (level <? S2TT_PAGE_LEVEL) ≫= λ _,
  rassert (min_starting_level s2_ctx <=? level) ≫= λ _,
  rassert (GRANULE_ALIGNED pa) ≫= λ _,
  Ok (pa_to_s2tte pa (enable_lpa2 s2_ctx) .| S2TTE_TABLE).

(** * Classifiers *)

Definition s2tte_is_table (s2tte level : Z) : bool :=
  (level <? S2TT_PAGE_LEVEL) && ((s2tte .& S2TT_DESC_TYPE_MASK) =? S2TTE_L012_TABLE).

Definition s2tte_has_ripas (s2tte level : Z) : bool :=
  ((s2tte .& S2TTE_NS) =? 0) && negb (s2tte_is_table s2tte level).

Definition s2tte_has_hipas (s2tte hipas : Z) : bool :=
  ((s2tte .& S2TT_DESC_TYPE_MASK) =? S2TTE_INVALID) &&
  ((s2tte .& S2TTE_INVALID_HIPAS_MASK) =? hipas).

Definition s2tte_has_unassigned_ripas (s2tte ripas : Z) : bool :=
  ((s2tte .& S2TTE_INVALID_RIPAS_MASK) =? ripas) &&
  s2tte_has_hipas s2tte S2TTE_INVALID_HIPAS_UNASSIGNED.

Definition s2tte_has_assigned_ripas (s2tte ripas : Z) : bool :=
  ((s2tte .& S2TTE_INVALID_RIPAS_MASK) =? ripas) &&
  s2tte_has_hipas s2tte S2TTE_INVALID_HIPAS_ASSIGNED.

Definition s2tte_is_unassigned (s2tte : Z) : bool :=
  s2tte_has_hipas s2tte S2TTE_INVALID_HIPAS_UNASSIGNED.
Definition s2tte_is_unassigned_empty (s2tte : Z) : bool :=
  ((s2tte .& S2TTE_NS) =? 0) && s2tte_has_unassigned_ripas s2tte S2TTE_INVALID_RIPAS_EMPTY.
Definition s2tte_is_unassigned_ram (s2tte : Z) : bool :=
  s2tte_has_unassigned_ripas s2tte S2TTE_INVALID_RIPAS_RAM.
Definition s2tte_is_unassigned_ns (s2tte : Z) : bool :=
  negb ((s2tte .& S2TTE_NS) =? 0) && s2tte_has_hipas s2tte S2TTE_INVALID_HIPAS_UNASSIGNED.
Definition s2tte_is_unassigned_destroyed (s2tte : Z) : bool :=
  s2tte_has_unassigned_ripas s2tte S2TTE_INVALID_RIPAS_DESTROYED.
Definition s2tte_is_assigned_destroyed (s2tte level : Z) : bool :=
  s2tte_has_assigned_ripas s2tte S2TTE_INVALID_RIPAS_DESTROYED.
Definition s2tte_is_assigned_empty (s2tte level : Z) : bool :=
  s2tte_has_assigned_ripas s2tte S2TTE_INVALID_RIPAS_EMPTY.

Definition s2tte_check (s2tte level ns : Z) : bool :=
  if negb ((s2tte .& S2TTE_NS) =? ns) then false
  else
    let desc_type := s2tte .& S2TT_DESC_TYPE_MASK in
    if level =? S2TT_PAGE_LEVEL then desc_type =? S2TTE_L3_PAGE
    else (S2TT_MIN_BLOCK_LEVEL <=? level) && (desc_type =? S2TTE_L012_BLOCK).

Definition s2tte_is_assigned_ram (s2tte level : Z) : bool := s2tte_check s2tte level 0.
Definition s2tte_is_assigned_ns (s2tte level : Z) : bool := s2tte_check s2tte level S2TTE_NS.

Definition ripas_of_field (r : Z) : ripas :=
  if r =? 0 then RIPAS_EMPTY
  else if r =? 1 then RIPAS_RAM
  else if r =? 2 then RIPAS_DESTROYED
  else RIPAS_DEV.

Definition s2tte_get_ripas (s2tte : Z) : result ripas :=
  let desc_ripas := s2tte .& S2TTE_INVALID_RIPAS_MASK in
  let desc_type := s2tte .& S2TT_DESC_TYPE_MASK in
  if negb (desc_type =? S2TTE_INVALID) then
    rassert ((desc_type =? S2TTE_L012_BLOCK) || (desc_type =? S2TTE_L3_PAGE)) ≫= λ _,
    Ok RIPAS_RAM
  else
    rassert (EXTRACT S2TTE_INVALID_HIPAS_SHIFT S2TTE_INVALID_HIPAS_WIDTH s2tte <=? RMI_ASSIGNED)
    ≫= λ _,
    let desc_ripas := desc_ripas .>> S2TTE_INVALID_RIPAS_SHIFT in
    rassert (desc_ripas <=? RMI_DESTROYED) ≫= λ _,
    Ok (ripas_of_field desc_ripas).

Definition s2tte_has_pa (s2tte level : Z) : bool :=
  negb ((s2tte .& S2TT_DESC_TYPE_MASK) =? S2TTE_INVALID) ||
  s2tte_is_assigned_empty s2tte level || s2tte_is_assigned_destroyed s2tte level.

Definition s2tte_is_live (s2tte level : Z) : bool := s2tte_has_pa s2tte level.

Definition table_entry_to_phys (tte : Z) (lpa2 : bool) : result Z :=
  s2tte_to_pa tte S2TT_PAGE_LEVEL lpa2.

Definition s2tte_pa (s2_ctx : s2tt_context) (s2tte level : Z) : result Z :=
  rassert (min_starting_level s2_ctx <=? level) ≫= λ _,
  rassert (level <=? S2TT_PAGE_LEVEL) ≫= λ _,
  rassert (s2tte_has_pa s2tte level) ≫= λ _,
  if s2tte_is_table s2tte level then table_entry_to_phys s2tte (enable_lpa2 s2_ctx)
  else s2tte_to_pa s2tte level (enable_lpa2 s2_ctx).

(** * Output addresses survive encoding *)

Definition lvl_aligned (lpa2 : bool) (level pa : Z) : Prop :=
  inmask (BIT_MASK_ULL (s2tte_oa_bits lpa2 - 1) (lvl_lsb level)) pa.

#[export] Instance lvl_aligned_dec lpa2 level pa : Decision (lvl_aligned lpa2 level pa).
Proof. unfold lvl_aligned, inmask. apply _. Defined.

Definition oa_mask (lpa2 : bool) (level : Z) : Z :=
  let mask := BIT_MASK_ULL (S2TTE_OA_BITS - 1) (lvl_lsb level) in
  if lpa2 then
    mask .| (MASK LPA2_S2TTE_51_50_SHIFT LPA2_S2TTE_51_50_WIDTH
             .| MASK LPA2_OA_49_48_SHIFT LPA2_OA_49_48_WIDTH)
  else mask.

Lemma s2tte_lvl_mask_ok level lpa2 : -1 <= level <= 3 → s2tte_lvl_mask level lpa2 = Ok (oa_mask lpa2 level).
Proof. by intros [-> | [-> | [-> | [-> | ->]]]]%level_cases. Qed.

Lemma lvl_aligned_spec s2_ctx pa level :
  min_starting_level s2_ctx <= level <= 3 →
  s2tte_is_addr_lvl_aligned s2_ctx pa level
  = Ok (bool_decide (lvl_aligned (enable_lpa2 s2_ctx) level pa)).
Proof.
  intros Hl. unfold s2tte_is_addr_lvl_aligned.
  rewrite !rassert_bind by (apply Z.leb_le; apply Hl). f_equal.
  unfold lvl_aligned, inmask. case_bool_decide as H; [by rewrite H, Z.eqb_refl|].
  apply Z.eqb_neq. by intros ?.
Qed.

(** A field is moved down and back up without loss. *)
Lemma field_down_up sh w y :
  0 <= sh → 0 <= w <= 64 → inmask (MASK sh w) y → (y .>> sh) .<< sh = y.
Proof.
  intros Hs Hw Hy. apply Z.bits_inj'. intros i Hi.
  assert (Hyi : Z.testbit y i = Z.testbit y i && Z.testbit (MASK sh w) i).
  { rewrite <- Z.land_spec. by rewrite Hy. }
  rewrite testbit_MASK in Hyi by lia. rewrite testbit_shl64 by lia.
  destruct (Z.ltb_spec i 64); simpl in *; [|by rewrite Hyi, andb_false_r].
  destruct (Z.leb_spec sh i); simpl in *.
  - rewrite Z.shiftr_spec by lia. f_equal. lia.
  - rewrite Hyi, andb_false_r. apply testbit_neg. lia.
Qed.

Lemma field_up_down sh t x : 0 <= sh → 0 <= x < 2 ^ t → t + sh <= 64 → (x .<< sh) .>> sh = x.
Proof.
  intros Hs Hx Ht. unfold shl64. rewrite u64_small.
  - rewrite Z.shiftr_shiftl_l by lia. rewrite Z.sub_diag. apply Z.shiftl_0_r.
  - unfold is_u64. rewrite Z.shiftl_mul_pow2 by lia.
    assert (2 ^ (t + sh) <= 2 ^ 64) by (apply Z.pow_le_mono_r; lia).
    destruct (Z.le_gt_cases 0 t).
    + rewrite Z.pow_add_r in * by lia. assert (0 < 2 ^ sh) by (apply Z.pow_pos_nonneg; lia). nia.
    + rewrite Z.pow_neg_r in Hx by lia. lia.
Qed.

(** The two parts of an encoded 52-bit address. *)
Definition oa_lo (pa : Z) : Z := pa .& (.~ MASK LPA2_OA_51_50_SHIFT LPA2_OA_51_50_WIDTH).
Definition oa_hi (pa : Z) : Z := pa .& MASK LPA2_OA_51_50_SHIFT LPA2_OA_51_50_WIDTH.
Definition oa_hi_field (pa : Z) : Z := (oa_hi pa .>> LPA2_OA_51_50_SHIFT) .<< LPA2_S2TTE_51_50_SHIFT.

Lemma oa_hi_range pa : 0 <= oa_hi pa .>> LPA2_OA_51_50_SHIFT < 4.
Proof.
  unfold oa_hi. set (m := MASK _ _). pose proof (land_bound pa m ltac:(done)) as Hb.
  change m with (3 * 2 ^ 50) in *. rewrite Z.shiftr_div_pow2 by done.
  change (2 ^ LPA2_OA_51_50_SHIFT) with (2 ^ 50).
  split; [apply Z.div_pos; lia | apply Z.div_lt_upper_bound; lia].
Qed.

Lemma oa_hi_field_inmask pa :
  inmask (MASK LPA2_S2TTE_51_50_SHIFT LPA2_S2TTE_51_50_WIDTH) (oa_hi_field pa).
Proof.
  unfold oa_hi_field. pose proof (oa_hi_range pa) as Hr.
  set (x := oa_hi pa .>> _) in *.
  assert (x = 0 ∨ x = 1 ∨ x = 2 ∨ x = 3) as [-> | [-> | [-> | ->]]] by lia; done.
Qed.

Lemma oa_hi_field_back pa :
  INPLACE LPA2_OA_51_50_SHIFT (oa_hi_field pa .>> LPA2_S2TTE_51_50_SHIFT) = oa_hi pa.
Proof.
  unfold oa_hi_field. rewrite (field_up_down _ 2) by (done || apply oa_hi_range).
  unfold INPLACE. eapply field_down_up; [| |apply inmask_land_l]; done.
Qed.

Lemma oa_lo_hi pa level :
  -1 <= level <= 3 → lvl_aligned true level pa →
  Z.lor (oa_lo pa) (oa_hi pa) = pa ∧ inmask (BIT_MASK_ULL 49 (lvl_lsb level)) (oa_lo pa).
Proof.
  intros Hl Hpa. unfold oa_lo, oa_hi. split.
  - rewrite <- Z.land_lor_distr_r. unfold lvl_aligned in Hpa.
    level_split Hl; by rewrite (inmask_sub _ _ _ Hpa).
  - unfold inmask. rewrite land_land_r. set (n := .~ _). set (k := BIT_MASK_ULL 49 _).
    rewrite (inmask_land _ _ (n .& k) Hpa), (inmask_land _ _ n Hpa). subst n k. by level_split Hl.
Qed.

Lemma pa_to_s2tte_inmask pa level lpa2 :
  -1 <= level <= 3 → lvl_aligned lpa2 level pa → inmask (oa_mask lpa2 level) (pa_to_s2tte pa lpa2).
Proof.
  intros Hl Hpa. destruct lpa2; [|done].
  destruct (oa_lo_hi pa level Hl Hpa) as [_ Hlo]. pose proof (oa_hi_field_inmask pa) as Hhi.
  change (pa_to_s2tte pa true) with (Z.lor (oa_lo pa) (oa_hi_field pa)). unfold inmask.
  level_split Hl; by mask_simpl.
Qed.

(** Attribute bits outside the address field do not disturb the address. *)
Lemma s2tte_to_pa_lor pa attr level lpa2 :
  -1 <= level <= 3 → lvl_aligned lpa2 level pa → Z.land attr (oa_mask lpa2 level) = 0 →
  s2tte_to_pa (Z.lor (pa_to_s2tte pa lpa2) attr) level lpa2 = Ok pa.
Proof.
  intros Hl Hpa Hattr. unfold s2tte_to_pa. rewrite s2tte_lvl_mask_ok, result_bind_ok by done.
  pose proof (pa_to_s2tte_inmask pa level lpa2 Hl Hpa) as Ht.
  assert (Hand : Z.lor (pa_to_s2tte pa lpa2) attr .& oa_mask lpa2 level = pa_to_s2tte pa lpa2).
  { rewrite land_lor_l, Hattr, Z.lor_0_r. exact Ht. }
  cbv zeta. rewrite Hand. destruct lpa2; [|done]. f_equal.
  destruct (oa_lo_hi pa level Hl Hpa) as [Hsplit Hlo]. pose proof (oa_hi_field_inmask pa) as Hhi.
  unfold EXTRACT.
  replace (MASK LPA2_S2TTE_51_50_SHIFT LPA2_S2TTE_51_50_WIDTH)
    with (Z.land (oa_mask true level) (MASK LPA2_S2TTE_51_50_SHIFT LPA2_S2TTE_51_50_WIDTH)) at 2
    by (by level_split Hl).
  rewrite Z.land_assoc, Hand.
  change (pa_to_s2tte pa true) with (Z.lor (oa_lo pa) (oa_hi_field pa)).
  assert (Hlo' : Z.lor (oa_lo pa) (oa_hi_field pa)
                 .& (.~ MASK LPA2_S2TTE_51_50_SHIFT LPA2_S2TTE_51_50_WIDTH) = oa_lo pa).
  { level_split Hl; by mask_simpl. }
  assert (Hhi' : Z.lor (oa_lo pa) (oa_hi_field pa)
                 .& MASK LPA2_S2TTE_51_50_SHIFT LPA2_S2TTE_51_50_WIDTH = oa_hi_field pa).
  { level_split Hl; by mask_simpl. }
  by rewrite Hlo', Hhi', oa_hi_field_back.
Qed.

(** * Descriptor types *)

Inductive s2tte_type :=
| UnassignedEmpty | UnassignedRam | UnassignedDestroyed | UnassignedNs
| AssignedEmpty | AssignedRam | AssignedDestroyed | AssignedNs
| Table.

#[export] Instance s2tte_type_eq_dec : EqDecision s2tte_type.
Proof. solve_decision. Defined.

(** The code's classifier of each type. *)
Definition s2tte_is (t : s2tte_type) (s2tte level : Z) : bool :=
  match t with
  | UnassignedEmpty => s2tte_is_unassigned_empty s2tte
  | UnassignedRam => s2tte_is_unassigned_ram s2tte
  | UnassignedDestroyed => s2tte_is_unassigned_destroyed s2tte
  | UnassignedNs => s2tte_is_unassigned_ns s2tte
  | AssignedEmpty => s2tte_is_assigned_empty s2tte level
  | AssignedRam => s2tte_is_assigned_ram s2tte level
  | AssignedDestroyed => s2tte_is_assigned_destroyed s2tte level
  | AssignedNs => s2tte_is_assigned_ns s2tte level
  | Table => s2tte_is_table s2tte level
  end.

(** The code's constructor of each type; a non-secure entry is made from the
    attributes and address that the host supplies. *)
Definition s2tte_make (s2_ctx : s2tt_context) (t : s2tte_type) (attrs pa level : Z) : result Z :=
  match t with
  | UnassignedEmpty => Ok s2tte_create_unassigned_empty
  | UnassignedRam => Ok s2tte_create_unassigned_ram
  | UnassignedDestroyed => Ok s2tte_create_unassigned_destroyed
  | UnassignedNs => Ok s2tte_create_unassigned_ns
  | AssignedEmpty => s2tte_create_assigned_empty s2_ctx pa level
  | AssignedRam => s2tte_create_assigned_ram s2_ctx pa level
  | AssignedDestroyed => s2tte_create_assigned_destroyed s2_ctx pa level
  | AssignedNs =>
      s2tte_create_assigned_ns s2_ctx
        ((attrs .& S2TTE_NS_ATTR_MASK) .| pa_to_s2tte pa (enable_lpa2 s2_ctx)) level
  | Table => s2tte_create_table s2_ctx pa level
  end.

(** Where an entry of each type may stand, and with which address. *)
Definition type_ok (s2_ctx : s2tt_context) (t : s2tte_type) (pa level : Z) : Prop :=
  match t with
  | UnassignedEmpty | UnassignedRam | UnassignedDestroyed | UnassignedNs =>
      min_starting_level s2_ctx <= level <= 3
  | AssignedEmpty | AssignedRam | AssignedDestroyed | AssignedNs =>
      1 <= level <= 3 ∧ lvl_aligned (enable_lpa2 s2_ctx) level pa
  | Table => min_starting_level s2_ctx <= level < 3 ∧ lvl_aligned (enable_lpa2 s2_ctx) 3 pa
  end.

Definition assigned_attrs (lpa2 : bool) (level s2tte_ripas : Z) : Z :=
  let ripas_only := s2tte_ripas .& S2TTE_INVALID_RIPAS_MASK in
  let want_ro := negb ((s2tte_ripas .& S2TTE_CREATE_FLAG_RO) =? 0) in
  if ripas_only =? S2TTE_INVALID_RIPAS_RAM then
    if level =? S2TT_PAGE_LEVEL then
      if lpa2 then (if want_ro then S2TTE_PAGE_LPA2_RO else S2TTE_PAGE_LPA2)
      else (if want_ro then S2TTE_PAGE_RO else S2TTE_PAGE)
    else
      if lpa2 then (if want_ro then S2TTE_BLOCK_LPA2_RO else S2TTE_BLOCK_LPA2)
      else (if want_ro then S2TTE_BLOCK_RO else S2TTE_BLOCK)
  else S2TTE_INVALID_HIPAS_ASSIGNED .| ripas_only.

Definition ns_attrs (lpa2 : bool) (level : Z) : Z :=
  (if lpa2 then 0 else S2TTE_SH_IS) .|
  (if level =? S2TT_PAGE_LEVEL then S2TTE_PAGE_NS else S2TTE_BLOCK_NS).

Lemma min_starting_level_le s2_ctx : -1 <= min_starting_level s2_ctx <= 0.
Proof. unfold min_starting_level. destruct (enable_lpa2 s2_ctx); done. Qed.

Lemma s2tte_create_assigned_ok s2_ctx pa level r :
  1 <= level <= 3 → lvl_aligned (enable_lpa2 s2_ctx) level pa →
  EXTRACT S2TTE_INVALID_RIPAS_SHIFT S2TTE_INVALID_RIPAS_WIDTH (r .& S2TTE_INVALID_RIPAS_MASK) <= 2 →
  s2tte_create_assigned s2_ctx pa level r
  = Ok (pa_to_s2tte pa (enable_lpa2 s2_ctx) .| assigned_attrs (enable_lpa2 s2_ctx) level r).
Proof.
  intros Hl Hpa Hr. unfold s2tte_create_assigned.
  rewrite !rassert_bind by (apply Z.leb_le; apply Hl). cbv zeta.
  rewrite rassert_bind by (by apply Z.leb_le).
  rewrite lvl_aligned_spec, result_bind_ok by (pose proof (min_starting_level_le s2_ctx); lia).
  rewrite rassert_bind by (by apply bool_decide_eq_true). unfold assigned_attrs. cbv zeta.
  destruct (enable_lpa2 s2_ctx); (destruct (_ =? S2TTE_INVALID_RIPAS_RAM);
    [destruct (level =? S2TT_PAGE_LEVEL); by destruct (negb _) | by rewrite Z.lor_assoc]).
Qed.

Lemma ns_host_inmask attrs : inmask S2TTE_NS_ATTR_MASK (attrs .& S2TTE_NS_ATTR_MASK).
Proof. apply inmask_land_l. Qed.

Lemma s2tte_create_assigned_ns_ok s2_ctx attrs pa level :
  1 <= level <= 3 → lvl_aligned (enable_lpa2 s2_ctx) level pa →
  s2tte_create_assigned_ns s2_ctx
    ((attrs .& S2TTE_NS_ATTR_MASK) .| pa_to_s2tte pa (enable_lpa2 s2_ctx)) level
  = Ok (pa_to_s2tte pa (enable_lpa2 s2_ctx) .|
        ((attrs .& S2TTE_NS_ATTR_MASK) .| ns_attrs (enable_lpa2 s2_ctx) level)).
Proof.
  intros Hl Hpa. unfold s2tte_create_assigned_ns, ns_attrs. cbv zeta.
  rewrite !rassert_bind by (apply Z.leb_le; apply Hl).
  assert (Hl' : -1 <= level <= 3) by lia.
  pose proof (pa_to_s2tte_inmask pa level _ Hl' Hpa) as Ht. pose proof (ns_host_inmask attrs) as Ha.
  set (t := pa_to_s2tte pa _) in *. set (a := attrs .& _) in *. clearbody t a.
  assert (Hm : (a .| t) .& (.~ S2TT_DESC_TYPE_MASK) = a .| t).
  { clear Hpa Hl'. block_level_split Hl; destruct (enable_lpa2 s2_ctx); by mask_simpl. }
  rewrite Hm, (Z.lor_comm a t).
  destruct (enable_lpa2 s2_ctx), (level =? S2TT_PAGE_LEVEL); cbn [negb];
    by rewrite ?Z.lor_0_l, <- ?Z.lor_assoc.
Qed.

Lemma s2tte_make_table_ok s2_ctx pa level :
  min_starting_level s2_ctx <= level < 3 → lvl_aligned (enable_lpa2 s2_ctx) 3 pa →
  s2tte_create_table s2_ctx pa level = Ok (pa_to_s2tte pa (enable_lpa2 s2_ctx) .| S2TTE_TABLE).
Proof.
  intros Hl Hpa. unfold s2tte_create_table.
  rewrite !rassert_bind; [done| | |].
  - apply granule_aligned_land. unfold lvl_aligned in Hpa.
    destruct (enable_lpa2 s2_ctx); by apply (inmask_disjoint _ _ _ Hpa).
  - apply Z.leb_le. lia.
  - apply Z.ltb_lt. apply Hl.
Qed.

(** Every constructor's value, as an address field and attribute bits outside it. *)
Lemma s2tte_make_ok s2_ctx t attrs pa level :
  type_ok s2_ctx t pa level →
  s2tte_make s2_ctx t attrs pa level
  = Ok match t with
       | UnassignedEmpty => s2tte_create_unassigned_empty
       | UnassignedRam => s2tte_create_unassigned_ram
       | UnassignedDestroyed => s2tte_create_unassigned_destroyed
       | UnassignedNs => s2tte_create_unassigned_ns
       | AssignedEmpty => pa_to_s2tte pa (enable_lpa2 s2_ctx)
           .| assigned_attrs (enable_lpa2 s2_ctx) level S2TTE_INVALID_RIPAS_EMPTY
       | AssignedRam => pa_to_s2tte pa (enable_lpa2 s2_ctx)
           .| assigned_attrs (enable_lpa2 s2_ctx) level S2TTE_INVALID_RIPAS_RAM
       | AssignedDestroyed => pa_to_s2tte pa (enable_lpa2 s2_ctx)
           .| assigned_attrs (enable_lpa2 s2_ctx) level S2TTE_INVALID_RIPAS_DESTROYED
       | AssignedNs => pa_to_s2tte pa (enable_lpa2 s2_ctx)
           .| ((attrs .& S2TTE_NS_ATTR_MASK) .| ns_attrs (enable_lpa2 s2_ctx) level)
       | Table => pa_to_s2tte pa (enable_lpa2 s2_ctx) .| S2TTE_TABLE
       end.
Proof.
  destruct t; simpl; try done; intros [Hl Hpa].
  1-3: by apply s2tte_create_assigned_ok.
  - by apply s2tte_create_assigned_ns_ok.
  - by apply s2tte_make_table_ok.
Qed.

(** The bits that decide an entry's type. *)
Definition type_mask : Z :=
  S2TT_DESC_TYPE_MASK .| S2TTE_INVALID_HIPAS_MASK .| S2TTE_INVALID_RIPAS_MASK .| S2TTE_NS.

Lemma s2tte_is_type_bits t e level : s2tte_is t e level = s2tte_is t (e .& type_mask) level.
Proof.
  destruct t; unfold s2tte_is, s2tte_is_unassigned_empty, s2tte_is_unassigned_ram,
    s2tte_is_unassigned_destroyed, s2tte_is_unassigned_ns, s2tte_is_assigned_empty,
    s2tte_is_assigned_ram, s2tte_is_assigned_destroyed, s2tte_is_assigned_ns, s2tte_is_table,
    s2tte_check, s2tte_has_unassigned_ripas, s2tte_has_assigned_ripas, s2tte_has_hipas;
    rewrite !land_land_r; reflexivity.
Qed.

Lemma oa_mask_type_bits (lpa2 : bool) level tte :
  1 <= level <= 3 → inmask (oa_mask lpa2 level) tte → tte .& type_mask = 0.
Proof. intros Hl Ht. block_level_split Hl; destruct lpa2; by apply (inmask_disjoint _ _ _ Ht). Qed.

Lemma classify_assigned (lpa2 : bool) level r tte t' :
  1 <= level <= 3 → inmask (oa_mask lpa2 level) tte →
  r = S2TTE_INVALID_RIPAS_EMPTY ∨ r = S2TTE_INVALID_RIPAS_RAM ∨ r = S2TTE_INVALID_RIPAS_DESTROYED
    ∨ r = S2TTE_INVALID_RIPAS_RAM_READ_ONLY →
  s2tte_is t' (tte .| assigned_attrs lpa2 level r) level
  = bool_decide (t' = if r =? S2TTE_INVALID_RIPAS_EMPTY then AssignedEmpty
                      else if r =? S2TTE_INVALID_RIPAS_DESTROYED then AssignedDestroyed
                      else AssignedRam).
Proof.
  intros Hl Ht Hr. rewrite s2tte_is_type_bits, land_lor_l, (oa_mask_type_bits _ _ _ Hl Ht), Z.lor_0_l.
  clear Ht. unfold assigned_attrs, S2TTE_PAGE_LPA2_RO, S2TTE_PAGE_LPA2, S2TTE_PAGE_RO, S2TTE_PAGE,
    S2TTE_BLOCK_LPA2_RO, S2TTE_BLOCK_LPA2, S2TTE_BLOCK_RO, S2TTE_BLOCK, S2TTE_ATTRS, S2TTE_ATTRS_RO,
    S2TTE_ATTRS_LPA2, S2TTE_ATTRS_LPA2_RO, S2TTE_MEMATTR_FWB_NORMAL_WB.
  destruct ENABLE_OPENCCA; block_level_split Hl; destruct lpa2;
    destruct Hr as [-> | [-> | [-> | ->]]]; destruct t'; vm_compute; reflexivity.
Qed.

Lemma classify_ns (lpa2 : bool) level a tte t' :
  1 <= level <= 3 → inmask (oa_mask lpa2 level) tte → inmask S2TTE_NS_ATTR_MASK a →
  s2tte_is t' (tte .| (a .| ns_attrs lpa2 level)) level = bool_decide (t' = AssignedNs).
Proof.
  intros Hl Ht Ha. rewrite s2tte_is_type_bits, !land_lor_l, (oa_mask_type_bits _ _ _ Hl Ht), Z.lor_0_l.
  assert (Hns : ∃ d, ns_attrs lpa2 level .& (S2TT_DESC_TYPE_MASK .| S2TTE_NS) = (d .| S2TTE_NS) ∧
                     d = if level =? S2TT_PAGE_LEVEL then S2TTE_L3_PAGE else S2TTE_L012_BLOCK).
  { eexists; split; [|done]. unfold ns_attrs, S2TTE_PAGE_NS, S2TTE_BLOCK_NS, S2TTE_NS_ATTR_RMM,
      S2TTE_MEMATTR_FWB_NORMAL_WB.
    destruct ENABLE_OPENCCA, lpa2; block_level_split Hl; vm_compute; reflexivity. }
  destruct Hns as (d & Hns & Hd). rewrite <- !land_lor_l, <- s2tte_is_type_bits.
  set (n := ns_attrs lpa2 level) in *.
  assert (Hns1 : (a .| n) .& S2TTE_NS = S2TTE_NS).
  { rewrite land_lor_l. rewrite (inmask_disjoint _ _ S2TTE_NS Ha) by done.
    rewrite Z.lor_0_l. change S2TTE_NS with ((S2TT_DESC_TYPE_MASK .| S2TTE_NS) .& S2TTE_NS) at 1.
    rewrite Z.land_assoc, Hns, Hd. by destruct (level =? S2TT_PAGE_LEVEL). }
  assert (Hdt : (a .| n) .& S2TT_DESC_TYPE_MASK = d).
  { rewrite land_lor_l. rewrite (inmask_disjoint _ _ S2TT_DESC_TYPE_MASK Ha) by done.
    rewrite Z.lor_0_l.
    change S2TT_DESC_TYPE_MASK with ((S2TT_DESC_TYPE_MASK .| S2TTE_NS) .& S2TT_DESC_TYPE_MASK) at 1.
    rewrite Z.land_assoc, Hns, Hd. by destruct (level =? S2TT_PAGE_LEVEL). }
  destruct t'; unfold s2tte_is, s2tte_is_unassigned_empty, s2tte_is_unassigned_ram,
    s2tte_is_unassigned_destroyed, s2tte_is_unassigned_ns, s2tte_is_assigned_empty,
    s2tte_is_assigned_ram, s2tte_is_assigned_destroyed, s2tte_is_assigned_ns, s2tte_is_table,
    s2tte_check, s2tte_has_unassigned_ripas, s2tte_has_assigned_ripas, s2tte_has_hipas;
    rewrite ?Hns1, ?Hdt, Hd; clear -Hl; block_level_split Hl;
    rewrite ?andb_false_r; reflexivity.
Qed.

Lemma classify_table (lpa2 : bool) level tte t' :
  -1 <= level < 3 → inmask (oa_mask lpa2 3) tte →
  s2tte_is t' (tte .| S2TTE_TABLE) level = bool_decide (t' = Table).
Proof.
  intros Hl Ht. rewrite s2tte_is_type_bits, land_lor_l, (oa_mask_type_bits lpa2 3), Z.lor_0_l by done.
  assert (-1 <= level <= 3) as Hl' by lia.
  level_split Hl'; destruct lpa2; destruct t'; reflexivity || lia.
Qed.

Lemma s2tte_make_is s2_ctx t attrs pa level e t' :
  type_ok s2_ctx t pa level → s2tte_make s2_ctx t attrs pa level = Ok e →
  s2tte_is t' e level = bool_decide (t' = t).
Proof.
  intros Hok. rewrite s2tte_make_ok by done. intros [= <-].
  pose proof (min_starting_level_le s2_ctx) as Hmin.
  destruct t; simpl in Hok.
  1-4: assert (-1 <= level <= 3) as Hl by lia; level_split Hl; by destruct t'.
  1-3: destruct Hok as [Hl Hpa]; rewrite classify_assigned; [done|done| |auto].
  1-3: apply pa_to_s2tte_inmask; [lia|done].
  - destruct Hok as [Hl Hpa]. apply classify_ns; [done| |apply ns_host_inmask].
    apply pa_to_s2tte_inmask; [lia|done].
  - destruct Hok as [Hl Hpa]. apply (classify_table (enable_lpa2 s2_ctx)); [lia|].
    apply pa_to_s2tte_inmask; [lia|done].
Qed.

(** C18: the descriptor types are told apart: an entry made by the constructor of one
    type, at any level and address where it may stand and with any host attributes, is
    recognised by that type's classifier and by no other. *)
Theorem s2tte_types_exclusive s2_ctx t attrs pa level :
  type_ok s2_ctx t pa level →
  ∃ e, s2tte_make s2_ctx t attrs pa level = Ok e ∧
       ∀ t', s2tte_is t' e level = bool_decide (t' = t).
Proof.
  intros Hok. eexists; split; [by apply s2tte_make_ok|]. intros t'.
  eapply s2tte_make_is; [done|by apply s2tte_make_ok].
Qed.

(** * Addresses, RIPAS and liveness by type *)

Definition type_has_pa (t : s2tte_type) : bool :=
  match t with
  | UnassignedEmpty | UnassignedRam | UnassignedDestroyed | UnassignedNs => false
  | _ => true
  end.

Definition type_ripas (t : s2tte_type) : option ripas :=
  match t with
  | UnassignedEmpty | AssignedEmpty => Some RIPAS_EMPTY
  | UnassignedRam | AssignedRam => Some RIPAS_RAM
  | UnassignedDestroyed | AssignedDestroyed => Some RIPAS_DESTROYED
  | UnassignedNs | AssignedNs | Table => None
  end.

(** The entry of type [t] is one of the constructor's values. *)
Definition is_made (s2_ctx : s2tt_context) (t : s2tte_type) (pa level e : Z) : Prop :=
  type_ok s2_ctx t pa level ∧ ∃ attrs, s2tte_make s2_ctx t attrs pa level = Ok e.

Lemma made_is s2_ctx t pa level e t' :
  is_made s2_ctx t pa level e → s2tte_is t' e level = bool_decide (t' = t).
Proof.
  intros [Hok [attrs He]]. by eapply s2tte_make_is.
Qed.

Lemma assigned_attrs_oa (lpa2 : bool) level r :
  1 <= level <= 3 →
  r = S2TTE_INVALID_RIPAS_EMPTY ∨ r = S2TTE_INVALID_RIPAS_RAM ∨ r = S2TTE_INVALID_RIPAS_DESTROYED
    ∨ r = S2TTE_INVALID_RIPAS_RAM_READ_ONLY →
  assigned_attrs lpa2 level r .& oa_mask lpa2 level = 0.
Proof.
  intros Hl Hr. unfold assigned_attrs, S2TTE_PAGE_LPA2_RO, S2TTE_PAGE_LPA2, S2TTE_PAGE_RO, S2TTE_PAGE,
    S2TTE_BLOCK_LPA2_RO, S2TTE_BLOCK_LPA2, S2TTE_BLOCK_RO, S2TTE_BLOCK, S2TTE_ATTRS, S2TTE_ATTRS_RO,
    S2TTE_ATTRS_LPA2, S2TTE_ATTRS_LPA2_RO, S2TTE_MEMATTR_FWB_NORMAL_WB.
  destruct ENABLE_OPENCCA; block_level_split Hl; destruct lpa2;
    destruct Hr as [-> | [-> | [-> | ->]]]; vm_compute; reflexivity.
Qed.

Lemma ns_attrs_oa (lpa2 : bool) level a :
  1 <= level <= 3 → inmask S2TTE_NS_ATTR_MASK a → (a .| ns_attrs lpa2 level) .& oa_mask lpa2 level = 0.
Proof.
  intros Hl Ha. rewrite land_lor_l.
  unfold ns_attrs, S2TTE_PAGE_NS, S2TTE_BLOCK_NS, S2TTE_NS_ATTR_RMM, S2TTE_MEMATTR_FWB_NORMAL_WB.
  destruct ENABLE_OPENCCA; block_level_split Hl; destruct lpa2;
    (rewrite (inmask_disjoint _ _ _ Ha) by (vm_compute; reflexivity)); vm_compute; reflexivity.
Qed.

Lemma s2tte_has_pa_is e level :
  s2tte_has_pa e level = negb ((e .& S2TT_DESC_TYPE_MASK) =? S2TTE_INVALID)
    || s2tte_is AssignedEmpty e level || s2tte_is AssignedDestroyed e level.
Proof. done. Qed.

(** An entry of a mapping type has a valid descriptor. *)
Lemma desc_valid_is t e level :
  s2tte_is t e level = true → t = AssignedRam ∨ t = AssignedNs ∨ t = Table →
  (e .& S2TT_DESC_TYPE_MASK =? S2TTE_INVALID) = false.
Proof.
  assert (Hchk : ∀ ns, s2tte_check e level ns = true → (e .& S2TT_DESC_TYPE_MASK =? S2TTE_INVALID) = false).
  { intros ns. unfold s2tte_check. destruct (negb _); [done|].
    destruct (level =? S2TT_PAGE_LEVEL).
    - by intros ->%Z.eqb_eq.
    - intros [_ ->%Z.eqb_eq]%andb_true_iff. done. }
  intros Hi [-> | [-> | ->]]; [by eapply Hchk|by eapply Hchk|].
  simpl in Hi. unfold s2tte_is_table in Hi. apply andb_true_iff in Hi as [_ ->%Z.eqb_eq]. done.
Qed.

Lemma desc_invalid_is t e level :
  s2tte_is t e level = true →
  t ≠ AssignedRam → t ≠ AssignedNs → t ≠ Table →
  (e .& S2TT_DESC_TYPE_MASK) = S2TTE_INVALID.
Proof.
  assert (Hh : ∀ h, s2tte_has_hipas e h = true → (e .& S2TT_DESC_TYPE_MASK) = S2TTE_INVALID).
  { intros h [H _]%andb_true_iff. by apply Z.eqb_eq. }
  intros Hi ???. destruct t; simpl in Hi; try done; apply andb_true_iff in Hi as [_ Hi];
    try (by eapply Hh). apply andb_true_iff in Hi as [_ Hi]. by eapply Hh.
Qed.

Lemma made_has_pa s2_ctx t pa level e :
  is_made s2_ctx t pa level e → s2tte_has_pa e level = type_has_pa t.
Proof.
  intros Hm. rewrite s2tte_has_pa_is, !(made_is _ _ _ _ _ _ Hm).
  pose proof (made_is _ _ _ _ _ t Hm) as Ht. rewrite bool_decide_eq_true_2 in Ht by done.
  destruct t; try (by rewrite orb_true_r); try (by rewrite orb_true_r, orb_true_l);
    try (rewrite (desc_invalid_is _ _ _ Ht) by done; reflexivity);
    rewrite (desc_valid_is _ _ _ Ht) by auto; reflexivity.
Qed.

Lemma made_pa s2_ctx t pa level e :
  is_made s2_ctx t pa level e → type_has_pa t = true → s2tte_pa s2_ctx e level = Ok pa.
Proof.
  intros Hm Hhas. pose proof (made_has_pa _ _ _ _ _ Hm) as Hpa.
  pose proof (made_is _ _ _ _ _ Table Hm) as Htb.
  destruct Hm as [Hok [attrs He]]. pose proof (min_starting_level_le s2_ctx) as Hmin.
  assert (Hlev : min_starting_level s2_ctx <= level <= 3) by (destruct t; simpl in Hok; lia).
  unfold s2tte_pa. rewrite !rassert_bind by (apply Z.leb_le; apply Hlev).
  rewrite Hpa, Hhas. rewrite rassert_bind by done.
  change (s2tte_is_table e level) with (s2tte_is Table e level). rewrite Htb.
  rewrite s2tte_make_ok in He by done. injection He as <-.
  destruct t; try done; cbn [bool_decide decide decide_rel]; destruct Hok as [Hl Hal].
  1-3: apply s2tte_to_pa_lor; [lia|done|]; apply assigned_attrs_oa; auto.
  - apply s2tte_to_pa_lor; [lia|done|]. apply ns_attrs_oa; [done|apply ns_host_inmask].
  - apply s2tte_to_pa_lor; [done|done|]. by destruct (enable_lpa2 s2_ctx).
Qed.

(** The output address round trip: every entry with an output address made at an
    aligned address [pa], with or without FEAT_LPA2 and whatever the host attributes,
    gives [pa] back, and an entry of a type without an address trips the assertion. *)
Theorem s2tte_pa_roundtrip s2_ctx t pa level e :
  is_made s2_ctx t pa level e →
  s2tte_pa s2_ctx e level = if type_has_pa t then Ok pa else Err FAssert.
Proof.
  intros Hm. destruct (type_has_pa t) eqn:Hhas; [by eapply made_pa|].
  pose proof (made_has_pa _ _ _ _ _ Hm) as Hpa. rewrite Hhas in Hpa.
  destruct Hm as [Hok _]. pose proof (min_starting_level_le s2_ctx) as Hmin.
  assert (Hlev : min_starting_level s2_ctx <= level <= 3) by (destruct t; simpl in Hok; lia).
  unfold s2tte_pa. rewrite !rassert_bind by (apply Z.leb_le; apply Hlev). by rewrite Hpa.
Qed.

Lemma made_ns s2_ctx t pa level e :
  is_made s2_ctx t pa level e →
  ((e .& S2TTE_NS) =? 0) = match t with UnassignedNs | AssignedNs => false | _ => true end.
Proof.
  intros [Hok [attrs He]]. rewrite s2tte_make_ok in He by done. injection He as <-.
  change S2TTE_NS with (type_mask .& S2TTE_NS) at 1. rewrite Z.land_assoc.
  destruct t; try done; destruct Hok as [Hl Hal]; rewrite land_lor_l.
  1-4: rewrite (oa_mask_type_bits (enable_lpa2 s2_ctx) level), Z.lor_0_l
         by (done || apply pa_to_s2tte_inmask; done || lia).
  5: rewrite (oa_mask_type_bits (enable_lpa2 s2_ctx) 3), Z.lor_0_l
       by (done || apply pa_to_s2tte_inmask; done || lia).
  5: done.
  4: { rewrite !land_lor_l, !land_land_r.
       replace (S2TTE_NS_ATTR_MASK .& (type_mask .& S2TTE_NS)) with 0 by done.
       rewrite Z.land_0_r, Z.lor_0_l.
       unfold ns_attrs, S2TTE_PAGE_NS, S2TTE_BLOCK_NS, S2TTE_NS_ATTR_RMM, S2TTE_MEMATTR_FWB_NORMAL_WB.
       clear Hal. destruct ENABLE_OPENCCA, (enable_lpa2 s2_ctx); block_level_split Hl;
         vm_compute; reflexivity. }
  all: clear Hal; unfold assigned_attrs, S2TTE_PAGE_LPA2_RO, S2TTE_PAGE_LPA2, S2TTE_PAGE_RO, S2TTE_PAGE,
    S2TTE_BLOCK_LPA2_RO, S2TTE_BLOCK_LPA2, S2TTE_BLOCK_RO, S2TTE_BLOCK, S2TTE_ATTRS, S2TTE_ATTRS_RO,
    S2TTE_ATTRS_LPA2, S2TTE_ATTRS_LPA2_RO, S2TTE_MEMATTR_FWB_NORMAL_WB;
    destruct ENABLE_OPENCCA, (enable_lpa2 s2_ctx); block_level_split Hl; vm_compute; reflexivity.
Qed.

Lemma get_ripas_invalid e h r :
  (e .& S2TT_DESC_TYPE_MASK) = S2TTE_INVALID → (e .& S2TTE_INVALID_HIPAS_MASK) = INPLACE 2 h →
  (e .& S2TTE_INVALID_RIPAS_MASK) = INPLACE 5 (ripas_to_Z r) → h = 0 ∨ h = 1 → r ≠ RIPAS_DEV →
  s2tte_get_ripas e = Ok r.
Proof.
  intros Hd Hh Hr Hh01 Hdev. unfold s2tte_get_ripas, EXTRACT. rewrite Hd.
  change (MASK S2TTE_INVALID_HIPAS_SHIFT S2TTE_INVALID_HIPAS_WIDTH) with S2TTE_INVALID_HIPAS_MASK.
  rewrite Hh, Hr. destruct Hh01 as [-> | ->]; by destruct r.
Qed.

(** The RIPAS of an entry is decided by its classifier. *)
Lemma s2tte_is_ripas t e level r :
  s2tte_is t e level = true → type_ripas t = Some r → s2tte_get_ripas e = Ok r.
Proof.
  intros Hi Hr. destruct t; try done; injection Hr as <-; simpl in Hi.
  5: { unfold s2tte_is_assigned_ram, s2tte_check in Hi. destruct (negb _); [done|].
       unfold s2tte_get_ripas. destruct (level =? S2TT_PAGE_LEVEL).
       - by apply Z.eqb_eq in Hi as ->.
       - by apply andb_true_iff in Hi as [_ ->%Z.eqb_eq]. }
  1: apply andb_true_iff in Hi as [_ Hi].
  all: apply andb_true_iff in Hi as [Hr [Hd Hh]%andb_true_iff];
    apply Z.eqb_eq in Hr, Hd, Hh; eapply get_ripas_invalid; [done|exact Hh|exact Hr|auto|done].
Qed.

(** RIPAS and liveness by type: an entry has a RIPAS exactly when its type has one,
    [s2tte_get_ripas] then returns it without tripping its assertions, and the live
    entries are exactly those with an output address. *)
Theorem s2tte_ripas_live s2_ctx t pa level e :
  is_made s2_ctx t pa level e →
  s2tte_has_ripas e level = bool_decide (is_Some (type_ripas t)) ∧
  (∀ r, type_ripas t = Some r → s2tte_get_ripas e = Ok r) ∧
  s2tte_is_live e level = type_has_pa t.
Proof.
  intros Hm. split; [|split; [|by eapply made_has_pa]].
  - unfold s2tte_has_ripas. change (s2tte_is_table e level) with (s2tte_is Table e level).
    rewrite (made_is _ _ _ _ _ _ Hm), (made_ns _ _ _ _ _ Hm). by destruct t.
  - intros r. apply (s2tte_is_ripas t e level). rewrite (made_is _ _ _ _ _ _ Hm).
    by apply bool_decide_eq_true.
Qed.

(** * What the host supplies for a non-secure mapping *)

Lemma ldiff_0_inmask a m : Z.ldiff a m = 0 → inmask m a.
Proof.
  intros H. apply Z.bits_inj'. intros i Hi. rewrite Z.land_spec.
  assert (Hb : Z.testbit (Z.ldiff a m) i = false) by (rewrite H; apply Z.testbit_0_l).
  rewrite Z.ldiff_spec in Hb. by destruct (Z.testbit a i), (Z.testbit m i).
Qed.

Lemma host_valid_inmask s2_ctx s2tte level :
  1 <= level <= 3 → is_u64 s2tte → host_ns_s2tte_is_valid s2_ctx s2tte level = Ok true →
  inmask (oa_mask (enable_lpa2 s2_ctx) level .| S2TTE_NS_ATTR_MASK) s2tte.
Proof.
  intros Hl Hu. unfold host_ns_s2tte_is_valid.
  rewrite rassert_bind by (apply Z.leb_le; apply Hl).
  rewrite s2tte_lvl_mask_ok, result_bind_ok by lia. cbv zeta. rewrite land_not64 by done.
  destruct (Z.eqb_spec (Z.ldiff s2tte (oa_mask (enable_lpa2 s2_ctx) level .| S2TTE_NS_ATTR_MASK)) 0)
    as [H|]; [|done]. intros _. by apply ldiff_0_inmask.
Qed.

(** Every value of the address field is an address of the level. *)
Lemma oa_bits_pa lpa2 level x :
  1 <= level <= 3 → inmask (oa_mask lpa2 level) x → ∃ pa, lvl_aligned lpa2 level pa ∧ pa_to_s2tte pa lpa2 = x.
Proof.
  intros Hl Hx. destruct lpa2; cycle 1.
  { exists x. split; [|done]. unfold lvl_aligned. exact Hx. }
  set (m := MASK LPA2_S2TTE_51_50_SHIFT LPA2_S2TTE_51_50_WIDTH).
  set (f := (x .& m) .>> LPA2_S2TTE_51_50_SHIFT).
  assert (Hf : 0 <= f < 4).
  { subst f. pose proof (land_bound x m ltac:(done)) as Hb. change m with (3 * 2 ^ 8) in *.
    rewrite Z.shiftr_div_pow2 by done. change (2 ^ LPA2_S2TTE_51_50_SHIFT) with (2 ^ 8).
    split; [apply Z.div_pos; lia | apply Z.div_lt_upper_bound; lia]. }
  assert (Hback : (f .<< LPA2_S2TTE_51_50_SHIFT) = x .& m).
  { subst f. eapply field_down_up; [| |apply inmask_land_l]; done. }
  set (lo := x .& BIT_MASK_ULL 49 (lvl_lsb level)).
  assert (Hlo : inmask (BIT_MASK_ULL 49 (lvl_lsb level)) lo) by apply inmask_land_l.
  assert (Hsplit : lo .| (x .& m) = x).
  { unfold lo. rewrite <- Z.land_lor_distr_r. block_level_split Hl; by rewrite (inmask_sub _ _ _ Hx). }
  exists (lo .| (f .<< LPA2_OA_51_50_SHIFT)).
  rewrite <- Hsplit, <- Hback. clearbody lo f. clear Hsplit Hback Hx x.
  assert (f = 0 ∨ f = 1 ∨ f = 2 ∨ f = 3) as Hfs by lia. clear Hf.
  unfold lvl_aligned, inmask, pa_to_s2tte, EXTRACT.
  block_level_split Hl; destruct Hfs as [-> | [-> | [-> | ->]]]; (split; [by mask_simpl|]); by mask_simpl.
Qed.

Lemma host_valid_made s2_ctx s2tte level :
  1 <= level <= 3 → is_u64 s2tte → host_ns_s2tte_is_valid s2_ctx s2tte level = Ok true →
  ∃ pa e, s2tte_create_assigned_ns s2_ctx s2tte level = Ok e ∧ is_made s2_ctx AssignedNs pa level e.
Proof.
  intros Hl Hu Hv. pose proof (host_valid_inmask _ _ _ Hl Hu Hv) as Hm.
  destruct (oa_bits_pa (enable_lpa2 s2_ctx) level (s2tte .& oa_mask (enable_lpa2 s2_ctx) level) Hl
    ltac:(apply inmask_land_l)) as (pa & Hal & Hpa).
  assert (Heq : (s2tte .& S2TTE_NS_ATTR_MASK) .| pa_to_s2tte pa (enable_lpa2 s2_ctx) = s2tte).
  { rewrite Hpa, <- Z.land_lor_distr_r, Z.lor_comm. exact Hm. }
  assert (Hok : type_ok s2_ctx AssignedNs pa level) by done.
  pose proof (s2tte_make_ok s2_ctx AssignedNs s2tte pa level Hok) as He.
  eexists pa, _. split; [|by split; [|exists s2tte]]. cbn [s2tte_make] in He. by rewrite Heq in He.
Qed.
(** Folding a table of host mappings: the first entry, taken as the host's value for the
    level above, makes the block. *)
Lemma ns_fold_made s2_ctx base level e :
  2 <= level <= 3 → is_made s2_ctx AssignedNs base level e →
  lvl_aligned (enable_lpa2 s2_ctx) (level - 1) base →
  ∃ e', s2tte_create_assigned_ns s2_ctx e (level - 1) = Ok e' ∧ is_made s2_ctx AssignedNs base (level - 1) e'.
Proof.
  intros Hl [Hok [attrs He]] Hal.
  assert (Hok' : type_ok s2_ctx AssignedNs base (level - 1)) by (split; [lia|done]).
  rewrite s2tte_make_ok in He by done. injection He as <-.
  pose proof (s2tte_make_ok s2_ctx AssignedNs attrs base (level - 1) Hok') as He'.
  eexists. split; [|by split; [|exists attrs]].
  destruct Hok as [_ Hal3]. pose proof (pa_to_s2tte_inmask base level _ ltac:(lia) Hal3) as Ht.
  pose proof (ns_host_inmask attrs) as Ha. clear He' Hok' Hal Hal3.
  set (t := pa_to_s2tte base _) in *. set (a := attrs .& _) in *. clearbody t a.
  unfold s2tte_create_assigned_ns. rewrite !rassert_bind by (apply Z.leb_le; unfold S2TT_MIN_BLOCK_LEVEL, S2TT_PAGE_LEVEL; lia).
  assert (Hlv : level = 2 ∨ level = 3) by lia.
  assert (Hm : (t .| (a .| ns_attrs (enable_lpa2 s2_ctx) level)) .& (.~ S2TT_DESC_TYPE_MASK)
    = t .| (a .| (ns_attrs (enable_lpa2 s2_ctx) level .& (.~ S2TT_DESC_TYPE_MASK)))).
  { rewrite !land_lor_l. f_equal; [|f_equal].
    - destruct Hlv as [-> | ->]; destruct (enable_lpa2 s2_ctx); by mask_simpl.
    - clear Hl Ht. by mask_simpl. }
  rewrite Hm. rewrite (proj2 (Z.eqb_neq (level - 1) S2TT_PAGE_LEVEL)) by (unfold S2TT_PAGE_LEVEL; lia).
  clear Hm Ht Ha Hl. destruct Hlv as [-> | ->]; destruct (enable_lpa2 s2_ctx); cbn [negb]; f_equal;
    rewrite <- !Z.lor_assoc; do 2 f_equal; unfold ns_attrs, S2TTE_PAGE_NS, S2TTE_BLOCK_NS, S2TTE_NS_ATTR_RMM,
      S2TTE_MEMATTR_FWB_NORMAL_WB; by destruct ENABLE_OPENCCA.
Qed.

Lemma host_ns_s2tte_ok s2_ctx e level :
  1 <= level <= 3 →
  host_ns_s2tte s2_ctx e level = Ok (e .& (oa_mask (enable_lpa2 s2_ctx) level .| S2TTE_NS_ATTR_MASK)).
Proof.
  intros Hl. unfold host_ns_s2tte. rewrite s2tte_lvl_mask_ok, result_bind_ok by lia. cbv zeta.
  by rewrite rassert_bind by (apply Z.leb_le; apply Hl).
Qed.

(** What the host supplies for a non-secure mapping, once accepted, is mapped as an
    assigned_ns entry from which exactly the host's address and attributes are read
    back; on builds without stage 2 forced write-back the memory type read back is all
    ones instead of the host's. *)
Theorem host_ns_roundtrip s2_ctx s2tte level :
  1 <= level <= 3 → is_u64 s2tte → host_ns_s2tte_is_valid s2_ctx s2tte level = Ok true →
  ∃ e, s2tte_create_assigned_ns s2_ctx s2tte level = Ok e ∧
       s2tte_is_assigned_ns e level = true ∧
       host_ns_s2tte s2_ctx e level
         = Ok (if ENABLE_OPENCCA then s2tte .| S2TTE_MEMATTR_MASK else s2tte).
Proof.
  intros Hl Hu Hv. pose proof (host_valid_inmask _ _ _ Hl Hu Hv) as Hm.
  unfold s2tte_create_assigned_ns. cbv zeta.
  rewrite !rassert_bind by (apply Z.leb_le; apply Hl).
  setoid_rewrite (λ e, host_ns_s2tte_ok s2_ctx e level Hl).
  unfold S2TTE_PAGE_NS, S2TTE_BLOCK_NS, S2TTE_NS_ATTR_RMM, S2TTE_MEMATTR_FWB_NORMAL_WB.
  unfold s2tte_is_assigned_ns, s2tte_check. clear Hv Hu.
  destruct (enable_lpa2 s2_ctx), ENABLE_OPENCCA; block_level_split Hl;
    (eexists; split; [reflexivity|]); cbn [negb]; (split; [by mask_simpl | f_equal; by mask_simpl]).
Qed.
End s2tte.

(** * Witnesses *)

#[local] Instance plain_config : Config := {| ENABLE_OPENCCA := false |}.

Definition example_ctx (lpa2 : bool) : s2tt_context :=
  {| ipa_bits := 40; s2_starting_level := 0; num_root_rtts := 1; g_rtt := 1; vmid := 5;
     enable_lpa2 := lpa2 |}.

Lemma s2tte_types_exclusive_witness :
  ∃ e, s2tte_make (example_ctx true) AssignedRam 0 (2 ^ 51 + 2 ^ 21) 2 = Ok e ∧
       s2tte_is AssignedRam e 2 = true ∧ s2tte_is Table e 2 = false.
Proof.
  destruct (s2tte_types_exclusive (example_ctx true) AssignedRam 0 (2 ^ 51 + 2 ^ 21) 2)
    as (e & He & Hx); [split; [lia | reflexivity]|].
  exists e. rewrite !Hx. done.
Defined.

Lemma s2tte_pa_roundtrip_witness :
  ∃ e, s2tte_pa (example_ctx true) e 3 = Ok (2 ^ 51 + 4096).
Proof.
  exists (pa_to_s2tte (2 ^ 51 + 4096) true .| S2TTE_PAGE_LPA2).
  apply (s2tte_pa_roundtrip (example_ctx true) AssignedRam).
  split; [split; [lia | reflexivity] | exists 0; vm_compute; reflexivity].
Defined.

Lemma s2tte_ripas_live_witness :
  s2tte_get_ripas s2tte_create_unassigned_destroyed = Ok RIPAS_DESTROYED ∧
  s2tte_is_live s2tte_create_unassigned_destroyed 3 = false.
Proof.
  destruct (s2tte_ripas_live (example_ctx false) UnassignedDestroyed 0 3
              s2tte_create_unassigned_destroyed) as (_ & Hr & Hlive).
  - split; [split; vm_compute; discriminate | exists 0; reflexivity].
  - split; [by apply Hr | exact Hlive].
Defined.

Lemma host_ns_roundtrip_witness :
  ∃ e, s2tte_create_assigned_ns (example_ctx false) (2 ^ 32 + 8 + 192) 3 = Ok e ∧
       s2tte_is_assigned_ns e 3 = true ∧
       host_ns_s2tte (example_ctx false) e 3 = Ok (2 ^ 32 + 8 + 192).
Proof.
  destruct (host_ns_roundtrip (example_ctx false) (2 ^ 32 + 8 + 192) 3) as (e & He & Hns & Hback);
    [lia | vm_compute; split; [discriminate | reflexivity] | vm_compute; reflexivity |].
  exists e. split; [exact He | split; [exact Hns | exact Hback]].
Defined.
