(* ===== verification/S2tt.v ===== *)
(** Stage 2 translation tables (lib/s2tt/src/s2tt.c): filling a table, testing whether
    a table can be folded into a block, skipping non-live entries, and the index of an
    address at each level. *)
From S2P Require Import Prelude Types S2tte.

Section s2tt.
Context {C : Config}.

(** * Filling a table *)

Definition s2tt_fill (s2tte : Z) : list Z := replicate (Z.to_nat S2TTES_PER_S2TT) s2tte.

Definition s2tt_init_unassigned_empty : list Z := s2tt_fill s2tte_create_unassigned_empty.
Definition s2tt_init_unassigned_ram : list Z := s2tt_fill s2tte_create_unassigned_ram.
Definition s2tt_init_unassigned_ns : list Z := s2tt_fill s2tte_create_unassigned_ns.
Definition s2tt_init_unassigned_destroyed : list Z := s2tt_fill s2tte_create_unassigned_destroyed.

(** [for (...) { s2tt[i] = create(pa); pa += map_size; }], [n] iterations. *)
Fixpoint init_loop (n : nat) (pa map_size : Z) (create : Z → result Z) : result (list Z) :=
  match n with
  | O => Ok []
  | S n' =>
      create pa ≫= λ s2tte,
      init_loop n' (pa .+ map_size) map_size create ≫= λ l,
      Ok (s2tte :: l)
  end.

Definition init_assigned (s2_ctx : s2tt_context) (pa level : Z) (create : Z → result Z)
  : result (list Z) :=
  rassert (S2TT_MIN_BLOCK_LEVEL <=? level) ≫= λ _,
  rassert (level <=? S2TT_PAGE_LEVEL) ≫= λ _,
  s2tte_is_addr_lvl_aligned s2_ctx pa level ≫= λ aligned,
  rassert aligned ≫= λ _,
  init_loop (Z.to_nat S2TTES_PER_S2TT) pa (s2tte_map_size level) create.

Definition s2tt_init_assigned_destroyed (s2_ctx : s2tt_context) (pa level : Z) : result (list Z) :=
  init_assigned s2_ctx pa level (λ pa, s2tte_create_assigned_destroyed s2_ctx pa level).
Definition s2tt_init_assigned_empty (s2_ctx : s2tt_context) (pa level : Z) : result (list Z) :=
  init_assigned s2_ctx pa level (λ pa, s2tte_create_assigned_empty s2_ctx pa level).
Definition s2tt_init_assigned_ram (s2_ctx : s2tt_context) (pa level : Z) : result (list Z) :=
  init_assigned s2_ctx pa level (λ pa, s2tte_create_assigned_ram s2_ctx pa level).
Definition s2tt_init_assigned_ns (s2_ctx : s2tt_context) (attrs pa level : Z) : result (list Z) :=
  init_assigned s2_ctx pa level (λ pa,
    s2tte_create_assigned_ns s2_ctx
      ((attrs .& S2TTE_NS_ATTR_MASK) .| pa_to_s2tte pa (enable_lpa2 s2_ctx)) level).

(** * Tests on whole tables *)

(** The loop from index [i], [n] iterations. *)
Fixpoint uniform_loop (n : nat) (i : Z) (table : list Z) (s2tte_is_x : Z → bool) : result bool :=
  match n with
  | O => Ok true
  | S n' =>
      aget table i ≫= λ s2tte,
      if negb (s2tte_is_x s2tte) then Ok false
      else uniform_loop n' (i + 1) table s2tte_is_x
  end.

Definition table_is_uniform_block (table : list Z) (s2tte_is_x : Z → bool) : result bool :=
  uniform_loop (Z.to_nat S2TTES_PER_S2TT) 0 table s2tte_is_x.

Definition s2tt_is_unassigned_empty_block (table : list Z) : result bool :=
  table_is_uniform_block table s2tte_is_unassigned_empty.
Definition s2tt_is_unassigned_ram_block (table : list Z) : result bool :=
  table_is_uniform_block table s2tte_is_unassigned_ram.
Definition s2tt_is_unassigned_ns_block (table : list Z) : result bool :=
  table_is_uniform_block table s2tte_is_unassigned_ns.
Definition s2tt_is_unassigned_destroyed_block (table : list Z) : result bool :=
  table_is_uniform_block table s2tte_is_unassigned_destroyed.

Fixpoint maps_loop (n : nat) (i : Z) (s2_ctx : s2tt_context) (table : list Z) (level : Z)
    (s2tte_is_x : Z → Z → bool) (check_ns_attrs : bool) (base_pa map_size s2tt_ns_attrs : Z)
  : result bool :=
  match n with
  | O => Ok true
  | S n' =>
      let expected_pa := base_pa .+ (i .* map_size) in
      aget table i ≫= λ s2tte,
      if negb (s2tte_is_x s2tte level) then Ok false
      else
        s2tte_pa s2_ctx s2tte level ≫= λ pa,
        if negb (pa =? expected_pa) then Ok false
        else if check_ns_attrs && negb (s2tt_ns_attrs =? (s2tte .& S2TTE_NS_ATTR_MASK)) then Ok false
        else maps_loop n' (i + 1) s2_ctx table level s2tte_is_x check_ns_attrs
               base_pa map_size s2tt_ns_attrs
  end.

Definition table_maps_block (s2_ctx : s2tt_context) (table : list Z) (level : Z)
    (s2tte_is_x : Z → Z → bool) (check_ns_attrs : bool) : result bool :=
  let map_size := s2tte_map_size level in
  aget table 0 ≫= λ s2tte,
  rassert (min_starting_level s2_ctx <=? level) ≫= λ _,
  rassert (level <=? S2TT_PAGE_LEVEL) ≫= λ _,
  if negb (s2tte_is_x s2tte level) then Ok false
  else
    s2tte_pa s2_ctx s2tte level ≫= λ base_pa,
    s2tte_is_addr_lvl_aligned s2_ctx base_pa (level - 1) ≫= λ aligned,
    if negb aligned then Ok false
    else maps_loop (Z.to_nat (S2TTES_PER_S2TT - 1)) 1 s2_ctx table level s2tte_is_x check_ns_attrs
           base_pa map_size (s2tte .& S2TTE_NS_ATTR_MASK).

Definition s2tt_maps_assigned_empty_block (s2_ctx : s2tt_context) (table : list Z) (level : Z) :=
  table_maps_block s2_ctx table level s2tte_is_assigned_empty false.
Definition s2tt_maps_assigned_ram_block (s2_ctx : s2tt_context) (table : list Z) (level : Z) :=
  table_maps_block s2_ctx table level s2tte_is_assigned_ram false.
Definition s2tt_maps_assigned_ns_block (s2_ctx : s2tt_context) (table : list Z) (level : Z) :=
  table_maps_block s2_ctx table level s2tte_is_assigned_ns true.
Definition s2tt_maps_assigned_destroyed_block (s2_ctx : s2tt_context) (table : list Z) (level : Z) :=
  table_maps_block s2_ctx table level s2tte_is_assigned_destroyed false.

(** * Skipping non-live entries *)

(** The index at which [for (i = index + 1UL; i < S2TTES_PER_S2TT; i++)] stops; [n]
    iterations are left. *)
Fixpoint skip_loop (n : nat) (i : Z) (table : list Z) (level : Z) : result Z :=
  match n with
  | O => Ok i
  | S n' =>
      aget table i ≫= λ s2tte,
      if s2tte_is_live s2tte level then Ok i
      else skip_loop n' (i + 1) table level
  end.

Definition s2tt_skip_non_live_entries (s2_ctx : s2tt_context) (addr : Z) (table : list Z)
    (wi : s2tt_walk) : result Z :=
  rassert (windex wi <=? S2TTES_PER_S2TT) ≫= λ _,
  rassert (last_level wi <=? S2TT_PAGE_LEVEL) ≫= λ _,
  rassert (min_starting_level s2_ctx <=? last_level wi) ≫= λ _,
  let index := windex wi in
  let level := last_level wi in
  aget table index ≫= λ s2tte,
  if s2tte_is_live s2tte level then Ok addr
  else
    let map_size := s2tte_map_size level in
    let addr := addr .& (.~ (map_size .- 1)) in
    skip_loop (Z.to_nat (S2TTES_PER_S2TT - (index + 1))) (index + 1) table level ≫= λ i,
    Ok (addr .+ ((i .- index) .* map_size)).

(** * Indices *)

Definition s2_addr_to_idx (addr level : Z) : Z :=
  let s2tte_stride := if level <? S2TT_MIN_STARTING_LEVEL then S2TTE_STRIDE_LM1 else S2TTE_STRIDE in
  (addr .>> lvl_lsb level) .& ((1 .<< s2tte_stride) .- 1).

Definition s2_sl_addr_to_idx (addr start_level ipa_bits : Z) : Z :=
  (addr .& ((1 .<< ipa_bits) .- 1)) .>> lvl_lsb start_level.

(** * Uniform tables *)

Lemma uniform_loop_spec (f : Z → bool) l1 l2 :
  uniform_loop (length l2) (Z.of_nat (length l1)) (l1 ++ l2) f = Ok (forallb f l2).
Proof.
  revert l1. induction l2 as [|e l2 IH]; intros l1; [done|]. cbn [length uniform_loop forallb].
  rewrite (aget_lookup _ _ e), result_bind_ok by (lia || rewrite Nat2Z.id; by apply list_lookup_middle).
  destruct (f e); [|done]. cbn [negb andb].
  replace (Z.of_nat (length l1) + 1) with (Z.of_nat (length (l1 ++ [e]))) by (rewrite length_app; simpl; lia).
  rewrite <- (IH (l1 ++ [e])). by rewrite <- app_assoc.
Qed.

Lemma table_is_uniform_block_forallb table f :
  length table = Z.to_nat S2TTES_PER_S2TT → table_is_uniform_block table f = Ok (forallb f table).
Proof. intros Hl. unfold table_is_uniform_block. rewrite <- Hl. apply (uniform_loop_spec f [] table). Qed.

(** * Level arithmetic *)

Lemma lvl_lsb_range level : -1 <= level <= 3 → 12 <= lvl_lsb level <= 48.
Proof. intros H. level_split H; vm_compute; split; discriminate. Qed.

Lemma map_size_pow2 level : -1 <= level <= 3 → s2tte_map_size level = 2 ^ lvl_lsb level.
Proof. intros H. by level_split H. Qed.

Lemma lvl_aligned_arith lpa2 level pa :
  0 <= level <= 3 ∨ lpa2 = true ∧ -1 <= level <= 3 →
  lvl_aligned lpa2 level pa ↔ 0 <= pa < 2 ^ s2tte_oa_bits lpa2 ∧ pa mod s2tte_map_size level = 0.
Proof.
  intros Hl. assert (Hl' : -1 <= level <= 3) by lia. unfold lvl_aligned.
  rewrite map_size_pow2 by done. rewrite inmask_BIT_MASK.
  - by rewrite Z.sub_add.
  - pose proof (lvl_lsb_range _ Hl').
    destruct lpa2; [change (s2tte_oa_bits true) with 52; lia|].
    change (s2tte_oa_bits false) with 48. destruct Hl as [Hl|[? _]]; [|done].
    assert (lvl_lsb level <= 39) by (level_split Hl'; vm_compute; discriminate || lia). lia.
  - by destruct lpa2.
Qed.

(** A table at [level] covers one entry of the level above. *)
Lemma map_size_parent level :
  0 <= level <= 3 → s2tte_map_size (level - 1) = S2TTES_PER_S2TT * s2tte_map_size level.
Proof.
  intros Hl. assert (level = 0 ∨ level = 1 ∨ level = 2 ∨ level = 3) as [-> | [-> | [-> | ->]]] by lia; done.
Qed.

(** * Folding *)

Definition is_assigned_type (t : s2tte_type) : bool :=
  match t with AssignedEmpty | AssignedRam | AssignedDestroyed | AssignedNs => true | _ => false end.

Lemma is_has_pa t e level :
  is_assigned_type t = true → s2tte_is t e level = true → s2tte_has_pa e level = true.
Proof.
  intros Ht Hi. rewrite s2tte_has_pa_is. destruct t; try done.
  - by rewrite Hi, orb_true_r.
  - by rewrite (desc_valid_is _ _ _ Hi) by auto.
  - by rewrite Hi, orb_true_r.
  - by rewrite (desc_valid_is _ _ _ Hi) by auto.
Qed.

Lemma s2tte_to_pa_total e level lpa2 : -1 <= level <= 3 → ∃ pa, s2tte_to_pa e level lpa2 = Ok pa.
Proof.
  intros Hl. unfold s2tte_to_pa. rewrite s2tte_lvl_mask_ok, result_bind_ok by done. by eexists.
Qed.

Lemma s2tte_pa_total s2_ctx e level :
  min_starting_level s2_ctx <= level <= 3 → s2tte_has_pa e level = true →
  ∃ pa, s2tte_pa s2_ctx e level = Ok pa.
Proof.
  intros Hl Hp. pose proof (min_starting_level_le s2_ctx) as Hm. unfold s2tte_pa.
  rewrite !rassert_bind by (done || apply Z.leb_le; apply Hl).
  destruct (s2tte_is_table e level); apply s2tte_to_pa_total; [done|lia].
Qed.

(** Entry [e] at index [i] continues the block of type [t] that starts at [base]. *)
Definition block_entry (s2_ctx : s2tt_context) (t : s2tte_type) (check : bool) (level base attrs : Z)
    (i e : Z) : Prop :=
  s2tte_is t e level = true ∧
  s2tte_pa s2_ctx e level = Ok (base + i * s2tte_map_size level) ∧
  (check = true → e .& S2TTE_NS_ATTR_MASK = attrs).

(** A table at [level] maps one block of the level above. *)
Definition foldable (s2_ctx : s2tt_context) (t : s2tte_type) (check : bool) (level : Z)
    (table : list Z) : Prop :=
  ∃ base attrs,
    lvl_aligned (enable_lpa2 s2_ctx) (level - 1) base ∧
    ∀ i e, table !! i = Some e → block_entry s2_ctx t check level base attrs (Z.of_nat i) e.

Lemma map_size_bound level : 0 <= level <= 3 → 0 < s2tte_map_size level <= 2 ^ 39.
Proof.
  intros Hl. assert (level = 0 ∨ level = 1 ∨ level = 2 ∨ level = 3) as [-> | [-> | [-> | ->]]] by lia;
    vm_compute; split; discriminate || reflexivity.
Qed.

Lemma block_pa_word base i msz :
  0 <= base < 2 ^ 52 → 0 <= i < 512 → 0 < msz <= 2 ^ 39 → base .+ (i .* msz) = base + i * msz.
Proof.
  intros Hb Hi Hm. rewrite (u64_small (i * msz)) by (unfold is_u64; nia).
  apply u64_small. unfold is_u64. nia.
Qed.

Section maps.
Context (s2_ctx : s2tt_context) (t : s2tte_type) (check : bool) (level : Z).
Hypothesis Ht : is_assigned_type t = true.
Hypothesis Hlev : min_starting_level s2_ctx < level <= 3.

Lemma maps_loop_spec base attrs l1 l2 :
  0 <= base < 2 ^ 52 → (length (l1 ++ l2) <= 512)%nat →
  ∃ b, maps_loop (length l2) (Z.of_nat (length l1)) s2_ctx (l1 ++ l2) level (s2tte_is t) check
         base (s2tte_map_size level) attrs = Ok b ∧
    (b = true ↔ ∀ j e, l2 !! j = Some e →
       block_entry s2_ctx t check level base attrs (Z.of_nat (length l1 + j)) e).
Proof using Ht Hlev.
  intros Hb. pose proof (min_starting_level_le s2_ctx) as Hmin. revert l1.
  induction l2 as [|e l2 IH]; intros l1 Hlen; [by exists true|].
  cbn [length maps_loop]. rewrite length_app in Hlen. simpl in Hlen.
  pose proof (map_size_bound level ltac:(lia)) as Hms.
  rewrite block_pa_word by (done || lia). cbv zeta.
  rewrite (aget_lookup _ _ e), result_bind_ok by (lia || rewrite Nat2Z.id; by apply list_lookup_middle).
  assert (Hstop : ¬ block_entry s2_ctx t check level base attrs (Z.of_nat (length l1)) e →
    (false = true ↔ ∀ j e', (e :: l2) !! j = Some e' →
       block_entry s2_ctx t check level base attrs (Z.of_nat (length l1 + j)) e')).
  { intros Hn. split; [done|]. intros Hall. specialize (Hall O e eq_refl).
    rewrite Nat.add_0_r in Hall. done. }
  destruct (s2tte_is t e level) eqn:Hi; cbn [negb]; cycle 1.
  { exists false. split; [done|]. apply Hstop. intros (? & _). congruence. }
  destruct (s2tte_pa_total s2_ctx e level) as [pa Hpa]; [lia|by eapply is_has_pa|].
  rewrite Hpa, result_bind_ok.
  destruct (Z.eqb_spec pa (base + Z.of_nat (length l1) * s2tte_map_size level)) as [->|Hne];
    cbn [negb]; cycle 1.
  { exists false. split; [done|]. apply Hstop. intros (_ & Hp & _). congruence. }
  destruct (check && negb (attrs =? e .& S2TTE_NS_ATTR_MASK)) eqn:Hc.
  { exists false. split; [done|]. apply Hstop. intros (_ & _ & Ha).
    apply andb_true_iff in Hc as [Hc1 Hc2%negb_true_iff%Z.eqb_neq]. by destruct Hc2; rewrite Ha. }
  replace (Z.of_nat (length l1) + 1) with (Z.of_nat (length (l1 ++ [e]))) by (rewrite length_app; simpl; lia).
  replace (l1 ++ e :: l2) with ((l1 ++ [e]) ++ l2) by (by rewrite <- app_assoc).
  destruct (IH (l1 ++ [e])) as (b & Hrun & Hb'); [rewrite !length_app; simpl; lia|].
  exists b. split; [done|]. rewrite Hb'. rewrite length_app. cbn [length]. split.
  - intros Hall [|j] e'; cbn [lookup list_lookup].
    + intros [= <-]. rewrite Nat.add_0_r. split; [done|]. split; [done|]. intros Hck.
      rewrite Hck in Hc. by apply negb_false_iff, Z.eqb_eq in Hc.
    + intros He. replace (length l1 + S j)%nat with (length l1 + 1 + j)%nat by lia. by apply Hall.
  - intros Hall j e' He. replace (length l1 + 1 + j)%nat with (length l1 + S j)%nat by lia.
    by apply Hall.
Qed.

Lemma table_maps_block_foldable table :
  length table = Z.to_nat S2TTES_PER_S2TT →
  ∃ b, table_maps_block s2_ctx table level (s2tte_is t) check = Ok b ∧
    (b = true ↔ foldable s2_ctx t check level table).
Proof using Ht Hlev.
  intros Hlen. change (Z.to_nat S2TTES_PER_S2TT) with 512%nat in Hlen.
  destruct table as [|e l]; [done|]. pose proof (min_starting_level_le s2_ctx) as Hmin.
  unfold table_maps_block. cbv zeta.
  rewrite (aget_lookup _ _ e), result_bind_ok by (lia || done).
  rewrite !rassert_bind by (apply Z.leb_le; unfold S2TT_PAGE_LEVEL; lia).
  destruct (s2tte_is t e level) eqn:Hi; cbn [negb]; cycle 1.
  { exists false. split; [done|]. split; [done|]. intros (base & a & _ & Hall).
    destruct (Hall O e eq_refl) as [? _]. congruence. }
  destruct (s2tte_pa_total s2_ctx e level) as [pa Hpa]; [lia|by eapply is_has_pa|].
  rewrite Hpa, result_bind_ok.
  rewrite lvl_aligned_spec, result_bind_ok by lia.
  case_bool_decide as Hal; cbn [negb]; cycle 1.
  { exists false. split; [done|]. split; [done|]. intros (base & a & Hb & Hall).
    destruct (Hall O e eq_refl) as (_ & Hp & _). rewrite Hpa in Hp. simpl in Hp.
    rewrite Z.add_0_r in Hp. congruence. }
  assert (Hb52 : 0 <= pa < 2 ^ 52).
  { apply lvl_aligned_arith in Hal as [Hr _].
    - by destruct (enable_lpa2 s2_ctx); [|change (s2tte_oa_bits false) with 48 in Hr; lia].
    - unfold min_starting_level in Hlev. destruct (enable_lpa2 s2_ctx);
        unfold S2TT_MIN_STARTING_LEVEL, S2TT_MIN_STARTING_LEVEL_LPA2 in Hlev; [right; split; [done|lia]|left; lia]. }
  destruct (maps_loop_spec pa (e .& S2TTE_NS_ATTR_MASK) [e] l Hb52) as (b & Hrun & Hb).
  { simpl in *. lia. }
  injection Hlen as Hlen.
  exists b. change (Z.to_nat (S2TTES_PER_S2TT - 1)) with 511%nat. rewrite <- Hlen.
  split; [exact Hrun|]. rewrite Hb. split.
  - intros Hall. exists pa, (e .& S2TTE_NS_ATTR_MASK). split; [done|]. intros [|j] e'.
    + intros [= <-]. split; [done|]. split; [by rewrite Z.mul_0_l, Z.add_0_r|done].
    + intros He. apply (Hall j e' He).
  - intros (base & a & _ & Hall) j e' He.
    destruct (Hall O e eq_refl) as (_ & Hp & Ha). rewrite Hpa in Hp. injection Hp as Hp.
    rewrite Z.mul_0_l, Z.add_0_r in Hp. subst base.
    destruct (Hall (S j) e' He) as (Hi' & Hp' & Ha'). split; [done|]. split; [done|].
    intros Hck. by rewrite Ha, Ha'.
Qed.

(** The test that decides whether a table can be folded, against its meaning: on
    every table of 512 entries it answers, and answers true exactly when all entries
    have the type asked for, map consecutive addresses from a base aligned to the level
    above and, when asked to compare them, have the same host attributes. *)
Theorem table_maps_block_iff table :
  length table = Z.to_nat S2TTES_PER_S2TT →
  ∃ b, table_maps_block s2_ctx table level (s2tte_is t) check = Ok b ∧
    (b = true ↔ foldable s2_ctx t check level table).
Proof using Ht Hlev.
  intros Hlen. by apply table_maps_block_foldable.
Qed.
End maps.

(** * Unfolding *)

(** The code's way to fill a table with each assigned type. *)
Definition s2tt_init (s2_ctx : s2tt_context) (t : s2tte_type) (attrs pa level : Z) : result (list Z) :=
  match t with
  | AssignedEmpty => s2tt_init_assigned_empty s2_ctx pa level
  | AssignedRam => s2tt_init_assigned_ram s2_ctx pa level
  | AssignedDestroyed => s2tt_init_assigned_destroyed s2_ctx pa level
  | AssignedNs => s2tt_init_assigned_ns s2_ctx attrs pa level
  | _ => Err FAssert
  end.

(** The code's test for each assigned type. *)
Definition s2tt_maps (s2_ctx : s2tt_context) (t : s2tte_type) (table : list Z) (level : Z) : result bool :=
  match t with
  | AssignedEmpty => s2tt_maps_assigned_empty_block s2_ctx table level
  | AssignedRam => s2tt_maps_assigned_ram_block s2_ctx table level
  | AssignedDestroyed => s2tt_maps_assigned_destroyed_block s2_ctx table level
  | AssignedNs => s2tt_maps_assigned_ns_block s2_ctx table level
  | _ => Err FAssert
  end.

Lemma s2tt_init_eq s2_ctx t attrs pa level :
  is_assigned_type t = true →
  s2tt_init s2_ctx t attrs pa level
  = init_assigned s2_ctx pa level (λ pa, s2tte_make s2_ctx t attrs pa level).
Proof. by destruct t. Qed.

Lemma s2tt_maps_eq s2_ctx t table level :
  is_assigned_type t = true →
  s2tt_maps s2_ctx t table level
  = table_maps_block s2_ctx table level (s2tte_is t) (bool_decide (t = AssignedNs)).
Proof. by destruct t. Qed.

Lemma init_loop_spec n pa msz create :
  0 <= pa → 0 <= msz → pa + Z.of_nat n * msz <= 2 ^ 63 →
  (∀ i, (i < n)%nat → ∃ e, create (pa + Z.of_nat i * msz) = Ok e) →
  ∃ l, init_loop n pa msz create = Ok l ∧ length l = n ∧
    ∀ i e, l !! i = Some e → create (pa + Z.of_nat i * msz) = Ok e.
Proof.
  revert pa. induction n as [|n IH]; intros pa H0 Hm Hb Hc; [by exists []|].
  destruct (Hc O) as [e He]; [lia|]. rewrite Z.mul_0_l, Z.add_0_r in He.
  cbn [init_loop]. rewrite He, result_bind_ok.
  rewrite (u64_small (pa + msz)) by (unfold is_u64; nia).
  destruct (IH (pa + msz)) as (l & Hl & Hlen & Hall); [lia|lia|nia| |].
  - intros i Hi. destruct (Hc (S i)) as [e' He']; [lia|]. exists e'.
    replace (pa + msz + Z.of_nat i * msz) with (pa + Z.of_nat (S i) * msz) by nia. done.
  - exists (e :: l). rewrite Hl, result_bind_ok. split; [done|]. split; [by rewrite <- Hlen|].
    intros [|i] e'; simpl; [intros [= <-]; by rewrite Z.add_0_r|].
    intros Hi. rewrite <- (Hall i e' Hi). f_equal. lia.
Qed.

Lemma lvl_aligned_sub lpa2 level pa i :
  1 <= level <= 3 → lvl_aligned lpa2 (level - 1) pa → 0 <= i < 512 →
  lvl_aligned lpa2 level (pa + i * s2tte_map_size level) ∧
  0 <= pa ∧ pa + 512 * s2tte_map_size level <= 2 ^ 52.
Proof.
  intros Hl Hpa Hi. apply lvl_aligned_arith in Hpa as [Hr Hmod]; [|left; lia].
  rewrite map_size_parent in Hmod by lia. change S2TTES_PER_S2TT with 512 in Hmod.
  pose proof (map_size_bound level ltac:(lia)) as Hms.
  assert (Hoa : 2 ^ s2tte_oa_bits lpa2 mod (512 * s2tte_map_size level) = 0).
  { block_level_split Hl; by destruct lpa2. }
  set (m := s2tte_map_size level) in *. set (o := 2 ^ s2tte_oa_bits lpa2) in *.
  apply Z.mod_divide in Hmod as [q Hq]; [|lia]. apply Z.mod_divide in Hoa as [p Hp]; [|lia].
  assert (q < p) by nia. assert (Hfit : pa + 512 * m <= o) by nia.
  assert (o <= 2 ^ 52) by (subst o; by destruct lpa2).
  split; [|split; [lia|lia]]. apply lvl_aligned_arith; [left; lia|]. fold m o. split; [nia|].
  subst pa. replace (q * (512 * m) + i * m) with ((q * 512 + i) * m) by lia. apply Z.mod_mul. lia.
Qed.

Lemma made_block_entry s2_ctx t attrs level base i e :
  is_assigned_type t = true →
  type_ok s2_ctx t (base + i * s2tte_map_size level) level →
  s2tte_make s2_ctx t attrs (base + i * s2tte_map_size level) level = Ok e →
  block_entry s2_ctx t (bool_decide (t = AssignedNs)) level base
    (((attrs .& S2TTE_NS_ATTR_MASK) .| ns_attrs (enable_lpa2 s2_ctx) level) .& S2TTE_NS_ATTR_MASK) i e.
Proof.
  intros Ht Hok He.
  assert (Hm : is_made s2_ctx t (base + i * s2tte_map_size level) level e) by (split; eauto).
  split; [|split].
  - rewrite (made_is _ _ _ _ _ _ Hm). by apply bool_decide_eq_true.
  - eapply made_pa; [done|]. by destruct t.
  - intros ->%bool_decide_eq_true. rewrite s2tte_make_ok in He by done. injection He as <-.
    destruct Hok as [Hl Hal]. rewrite land_lor_l.
    pose proof (pa_to_s2tte_inmask _ level _ ltac:(lia) Hal) as Htte.
    assert (Hz : oa_mask (enable_lpa2 s2_ctx) level .& S2TTE_NS_ATTR_MASK = 0).
    { clear Hal Htte Hm. block_level_split Hl; by destruct (enable_lpa2 s2_ctx). }
    by rewrite (inmask_disjoint _ _ _ Htte Hz).
Qed.

(** The table that each way of filling makes. *)
Lemma s2tt_init_run s2_ctx t attrs pa level :
  is_assigned_type t = true → 1 <= level <= 3 →
  lvl_aligned (enable_lpa2 s2_ctx) (level - 1) pa →
  ∃ table, s2tt_init s2_ctx t attrs pa level = Ok table ∧
    length table = Z.to_nat S2TTES_PER_S2TT ∧
    (∀ i e, table !! i = Some e →
       is_made s2_ctx t (pa + Z.of_nat i * s2tte_map_size level) level e) ∧
    s2tt_maps s2_ctx t table level = Ok true.
Proof.
  intros Ht Hl Hpa. pose proof (min_starting_level_le s2_ctx) as Hmin.
  pose proof (map_size_bound level ltac:(lia)) as Hms.
  assert (Hok : ∀ i, 0 <= i < 512 → type_ok s2_ctx t (pa + i * s2tte_map_size level) level).
  { intros i Hi. destruct (lvl_aligned_sub _ _ _ i Hl Hpa Hi) as [? _]. by destruct t. }
  destruct (lvl_aligned_sub _ _ _ 0 Hl Hpa ltac:(lia)) as (Hal0 & H0 & Hfit).
  rewrite Z.mul_0_l, Z.add_0_r in Hal0.
  destruct (init_loop_spec 512 pa (s2tte_map_size level) (λ pa, s2tte_make s2_ctx t attrs pa level))
    as (l & Hrun & Hlen & Hall); [lia|lia|lia| |].
  { intros i Hi. eexists. apply s2tte_make_ok. apply Hok. lia. }
  assert (Hmade : ∀ i e, l !! i = Some e →
    is_made s2_ctx t (pa + Z.of_nat i * s2tte_map_size level) level e).
  { intros i e Hi. pose proof (lookup_lt_Some _ _ _ Hi). split; [apply Hok; lia|].
    exists attrs. by apply Hall. }
  exists l. rewrite s2tt_init_eq, s2tt_maps_eq by done. split; [|split; [done|split; [done|]]].
  { unfold init_assigned. rewrite !rassert_bind by (apply Z.leb_le; apply Hl).
    rewrite lvl_aligned_spec, result_bind_ok by lia.
    by rewrite rassert_bind by (by apply bool_decide_eq_true). }
  destruct (table_maps_block_foldable s2_ctx t (bool_decide (t = AssignedNs)) level Ht ltac:(lia) l Hlen)
    as (b & Hb & Hiff). rewrite Hb. f_equal. apply Hiff.
  eexists pa, _. split; [done|]. intros i e Hi.
  eapply made_block_entry; [done|apply Hok; apply lookup_lt_Some in Hi; lia|by apply Hall].
Qed.

(** Unfolding a block and testing it again: filling a table for the block of
    any assigned type at an address aligned to the level above never trips an assertion,
    every entry is the constructor's entry for its part of the block, and the table is
    recognised as foldable. *)
Theorem unfold_fold s2_ctx t attrs pa level :
  is_assigned_type t = true → 1 <= level <= 3 →
  lvl_aligned (enable_lpa2 s2_ctx) (level - 1) pa →
  ∃ table, s2tt_init s2_ctx t attrs pa level = Ok table ∧
    length table = Z.to_nat S2TTES_PER_S2TT ∧
    (∀ i e, table !! i = Some e →
       is_made s2_ctx t (pa + Z.of_nat i * s2tte_map_size level) level e) ∧
    s2tt_maps s2_ctx t table level = Ok true.
Proof. apply s2tt_init_run. Qed.

(** * Skipping non-live entries *)

Lemma skip_loop_spec l1 l2 level :
  ∃ j, skip_loop (length l2) (Z.of_nat (length l1)) (l1 ++ l2) level = Ok (Z.of_nat (length l1 + j)) ∧
    (j <= length l2)%nat ∧
    (∀ k e, (k < j)%nat → l2 !! k = Some e → s2tte_is_live e level = false) ∧
    (∀ e, l2 !! j = Some e → s2tte_is_live e level = true).
Proof.
  revert l1. induction l2 as [|e l2 IH]; intros l1.
  { exists O. rewrite Nat.add_0_r. by repeat split. }
  cbn [length skip_loop].
  rewrite (aget_lookup _ _ e), result_bind_ok by (lia || rewrite Nat2Z.id; by apply list_lookup_middle).
  destruct (s2tte_is_live e level) eqn:Hlive.
  { exists O. rewrite Nat.add_0_r. repeat split; [lia|lia|]. intros e'. simpl. by intros [= <-]. }
  replace (Z.of_nat (length l1) + 1) with (Z.of_nat (length (l1 ++ [e]))) by (rewrite length_app; simpl; lia).
  replace (l1 ++ e :: l2) with ((l1 ++ [e]) ++ l2) by (by rewrite <- app_assoc).
  destruct (IH (l1 ++ [e])) as (j & Hrun & Hj & Hno & Hyes). exists (S j). rewrite Hrun, length_app.
  split; [do 2 f_equal; simpl; lia|]. split; [lia|]. split; [|done].
  intros [|k] e' Hk He'; simpl in He'; [by simplify_eq|]. apply (Hno k); [lia|done].
Qed.

(** [addr & ~(size - 1)] rounds down to a multiple of a power of two. *)
Lemma land_not_align addr n :
  is_u64 addr → 0 <= n < 64 → addr .& (.~ (2 ^ n .- 1)) = addr - addr mod 2 ^ n.
Proof.
  intros Ha Hn. assert (2 ^ n < 2 ^ 64) by (apply Z.pow_lt_mono_r; lia).
  assert (0 < 2 ^ n) by (apply Z.pow_pos_nonneg; lia).
  rewrite u64_small by (unfold is_u64; lia). rewrite land_not64 by done.
  replace (2 ^ n - 1) with (Z.ones n) by (rewrite Z.ones_equiv; lia).
  rewrite Z.ldiff_ones_r by lia. rewrite Z.shiftl_mul_pow2, Z.shiftr_div_pow2 by lia.
  pose proof (Z.div_mod addr (2 ^ n)). lia.
Qed.

Lemma skip_non_live_run s2_ctx addr table g idx level e :
  length table = Z.to_nat S2TTES_PER_S2TT → min_starting_level s2_ctx <= level <= 3 →
  table !! idx = Some e → 0 <= addr < 2 ^ 52 →
  ∃ j,
    (idx <= j <= 512)%nat ∧
    (∀ k x, (idx <= k < j)%nat → table !! k = Some x → s2tte_is_live x level = false) ∧
    (∀ x, table !! j = Some x → s2tte_is_live x level = true) ∧
    s2tt_skip_non_live_entries s2_ctx addr table
      {| g_llt := g; windex := Z.of_nat idx; last_level := level |}
    = Ok (if decide (j = idx) then addr
          else addr - addr mod s2tte_map_size level
               + (Z.of_nat j - Z.of_nat idx) * s2tte_map_size level).
Proof.
  intros Hlen Hlev He Haddr. change (Z.to_nat S2TTES_PER_S2TT) with 512%nat in Hlen.
  pose proof (lookup_lt_Some _ _ _ He) as Hidx. pose proof (min_starting_level_le s2_ctx) as Hmin.
  unfold s2tt_skip_non_live_entries. cbn [windex last_level].
  change S2TTES_PER_S2TT with 512. change S2TT_PAGE_LEVEL with 3.
  rewrite !rassert_bind by (apply Z.leb_le; lia). cbv zeta.
  rewrite (aget_lookup _ _ e), result_bind_ok by (lia || by rewrite Nat2Z.id).
  destruct (s2tte_is_live e level) eqn:Hlive.
  { exists idx. rewrite decide_True by done. split; [lia|]. split; [intros; lia|]. split; [naive_solver|done]. }
  destruct (skip_loop_spec (take (S idx) table) (drop (S idx) table) level)
    as (j & Hrun & Hj & Hno & Hyes).
  rewrite take_drop, length_take, length_drop in Hrun. rewrite length_drop in Hj.
  replace (Z.of_nat (Nat.min (S idx) (length table))) with (Z.of_nat idx + 1) in Hrun by lia.
  replace (Z.to_nat (512 - (Z.of_nat idx + 1))) with (length table - S idx)%nat by lia.
  rewrite Hrun, result_bind_ok. exists (S idx + j)%nat. split; [lia|]. split; [|split].
  - intros k x Hk Hx. destruct (decide (k = idx)) as [->|]; [congruence|].
    apply (Hno (k - S idx)%nat); [lia|]. rewrite lookup_drop. by replace (S idx + (k - S idx))%nat with k by lia.
  - intros x Hx. apply Hyes. by rewrite lookup_drop.
  - rewrite decide_False by lia.
    assert (Hl : -1 <= level <= 3) by lia. rewrite map_size_pow2 by done.
    pose proof (lvl_lsb_range level Hl) as Hr.
    rewrite land_not_align by (unfold is_u64; lia).
    replace (Z.of_nat (Nat.min (S idx) (length table) + j)) with (Z.of_nat (S idx + j)) by lia.
    rewrite (u64_small (Z.of_nat (S idx + j) - Z.of_nat idx)) by (unfold is_u64; lia).
    assert (0 < 2 ^ lvl_lsb level <= 2 ^ 48).
    { split; [apply Z.pow_pos_nonneg; lia | apply Z.pow_le_mono_r; lia]. }
    pose proof (Z.mod_pos_bound addr (2 ^ lvl_lsb level) ltac:(lia)).
    pose proof (Z.mod_le addr (2 ^ lvl_lsb level) ltac:(lia) ltac:(lia)).
    rewrite (u64_small ((Z.of_nat (S idx + j) - Z.of_nat idx) * _)) by (unfold is_u64; nia).
    rewrite u64_small by (unfold is_u64; nia). done.
Qed.

(** [s2tt_skip_non_live_entries] from a valid index of a table returns the
    address itself when its entry is live, and otherwise the start address of the first
    live entry after it, or of the table after this one when there is none. *)
Theorem s2tt_skip_non_live_spec s2_ctx addr table g idx level e :
  length table = Z.to_nat S2TTES_PER_S2TT → min_starting_level s2_ctx <= level <= 3 →
  table !! idx = Some e → 0 <= addr < 2 ^ 52 →
  ∃ j,
    (idx <= j <= 512)%nat ∧
    (∀ k x, (idx <= k < j)%nat → table !! k = Some x → s2tte_is_live x level = false) ∧
    (∀ x, table !! j = Some x → s2tte_is_live x level = true) ∧
    s2tt_skip_non_live_entries s2_ctx addr table
      {| g_llt := g; windex := Z.of_nat idx; last_level := level |}
    = Ok (if decide (j = idx) then addr
          else addr - addr mod s2tte_map_size level
               + (Z.of_nat j - Z.of_nat idx) * s2tte_map_size level).
Proof. apply skip_non_live_run. Qed.

(** * Indices *)

Lemma s2_addr_to_idx_mod addr level :
  -1 <= level <= 3 →
  s2_addr_to_idx addr level
  = (addr / s2tte_map_size level) mod (if level <? 0 then 16 else 512).
Proof.
  intros Hl. unfold s2_addr_to_idx. rewrite map_size_pow2 by done. change S2TT_MIN_STARTING_LEVEL with 0.
  pose proof (lvl_lsb_range level Hl). rewrite <- Z.shiftr_div_pow2 by lia.
  destruct (level <? 0).
  - change ((1 .<< S2TTE_STRIDE_LM1) .- 1) with (2 ^ 4 - 1). by rewrite land_ones_mod by lia.
  - change ((1 .<< S2TTE_STRIDE) .- 1) with (2 ^ 9 - 1). by rewrite land_ones_mod by lia.
Qed.

Lemma s2_sl_addr_to_idx_div addr start_level ipa_bits :
  -1 <= start_level <= 3 → 0 <= ipa_bits < 64 → 0 <= addr < 2 ^ ipa_bits →
  s2_sl_addr_to_idx addr start_level ipa_bits = addr / s2tte_map_size start_level.
Proof.
  intros Hl Hi Ha. unfold s2_sl_addr_to_idx. rewrite map_size_pow2 by done.
  pose proof (lvl_lsb_range start_level Hl).
  assert (Hw : (1 .<< ipa_bits) .- 1 = 2 ^ ipa_bits - 1).
  { unfold shl64. rewrite Z.shiftl_mul_pow2, Z.mul_1_l by lia.
    assert (2 ^ ipa_bits < 2 ^ 64) by (apply Z.pow_lt_mono_r; lia).
    rewrite (u64_small (2 ^ ipa_bits)), u64_small by (unfold is_u64; lia). done. }
  rewrite Hw, land_ones_mod, Z.mod_small by lia. by rewrite Z.shiftr_div_pow2 by lia.
Qed.

(** The part of an address that a walk down to [level] has consumed. *)
Lemma idx_step addr level :
  0 <= level <= 3 → 0 <= addr →
  addr / s2tte_map_size level = 512 * (addr / s2tte_map_size (level - 1)) + s2_addr_to_idx addr level.
Proof.
  intros Hl Ha. rewrite s2_addr_to_idx_mod by lia. rewrite (proj2 (Z.ltb_ge level 0)) by lia.
  rewrite map_size_parent by lia. change S2TTES_PER_S2TT with 512.
  pose proof (map_size_bound level Hl). rewrite (Z.mul_comm 512 (s2tte_map_size level)), <- Z.div_div by lia.
  apply Z.div_mod. lia.
Qed.

(** A walk identifies the address: two addresses in the realm's address space that
    have the same index in the starting level and the same index in every level below it
    down to [level] lie in the same block of that level; and no index exceeds its
    table. *)
Theorem walk_indices_injective s2_ctx level a b :
  -1 <= s2_starting_level s2_ctx <= level → level <= 3 →
  0 <= ipa_bits s2_ctx < 64 → 0 <= a < 2 ^ ipa_bits s2_ctx → 0 <= b < 2 ^ ipa_bits s2_ctx →
  s2_sl_addr_to_idx a (s2_starting_level s2_ctx) (ipa_bits s2_ctx)
    = s2_sl_addr_to_idx b (s2_starting_level s2_ctx) (ipa_bits s2_ctx) →
  (∀ l, s2_starting_level s2_ctx < l <= level → s2_addr_to_idx a l = s2_addr_to_idx b l) →
  a / s2tte_map_size level = b / s2tte_map_size level ∧
  (∀ l, -1 <= l <= 3 → 0 <= s2_addr_to_idx a l < S2TTES_PER_S2TT).
Proof.
  intros Hs Hl Hi Ha Hb Hsl Hidx. rewrite !s2_sl_addr_to_idx_div in Hsl by lia. split.
  - cut (∀ n, (Z.of_nat n <= level - s2_starting_level s2_ctx) →
           a / s2tte_map_size (s2_starting_level s2_ctx + Z.of_nat n)
           = b / s2tte_map_size (s2_starting_level s2_ctx + Z.of_nat n)).
    { intros Hcut. specialize (Hcut (Z.to_nat (level - s2_starting_level s2_ctx)) ltac:(lia)).
      rewrite Z2Nat.id, Zplus_minus in Hcut by lia. done. }
    induction n as [|n IHn]; intros Hn; [by rewrite Z.add_0_r|].
    rewrite (idx_step a), (idx_step b) by lia.
    replace (s2_starting_level s2_ctx + Z.of_nat (S n) - 1)
      with (s2_starting_level s2_ctx + Z.of_nat n) by lia.
    rewrite IHn, Hidx by lia. done.
  - intros l Hl'. rewrite s2_addr_to_idx_mod by lia. change S2TTES_PER_S2TT with 512.
    destruct (l <? 0); [pose proof (Z.mod_pos_bound (a / s2tte_map_size l) 16 ltac:(lia)); lia|].
    apply Z.mod_pos_bound. lia.
Qed.
End s2tt.

(** * Witnesses *)

#[local] Instance s2tt_config : Config := plain_config.

(** A zeroed table is not foldable into an assigned block. *)
Lemma table_maps_block_iff_witness :
  ¬ foldable (example_ctx false) AssignedRam false 3 (replicate 512 0).
Proof.
  destruct (table_maps_block_iff (example_ctx false) AssignedRam false 3 eq_refl
              ltac:(vm_compute; split; [reflexivity | discriminate]) (replicate 512 0) eq_refl)
    as (b & Hb & Hiff).
  intros Hf. apply Hiff in Hf. subst b. vm_compute in Hb. discriminate.
Defined.

Lemma unfold_fold_witness :
  ∃ table, s2tt_init (example_ctx true) AssignedNs 200 (2 ^ 51 + 2 ^ 30) 2 = Ok table ∧
    s2tt_maps (example_ctx true) AssignedNs table 2 = Ok true.
Proof.
  destruct (unfold_fold (example_ctx true) AssignedNs 200 (2 ^ 51 + 2 ^ 30) 2)
    as (table & Hi & _ & _ & Hm); [reflexivity | lia | reflexivity |].
  by exists table.
Defined.

Lemma s2tt_skip_non_live_spec_witness :
  ∃ j, s2tt_skip_non_live_entries (example_ctx false) (2 ^ 21 + 5 * 4096)
         (replicate 7 0 ++ [3] ++ replicate 504 0)
         {| g_llt := 0; windex := 5; last_level := 3 |} = Ok (2 ^ 21 + (Z.of_nat j) * 4096) ∧ j = 7%nat.
Proof.
  destruct (s2tt_skip_non_live_spec (example_ctx false) (2 ^ 21 + 5 * 4096)
              (replicate 7 0 ++ [3] ++ replicate 504 0) 0 5 3 0)
    as (j & Hj & Hno & Hyes & Hrun);
    [reflexivity | split; vm_compute; discriminate | reflexivity | lia |].
  exists 7%nat. split; [vm_compute; reflexivity | reflexivity].
Defined.

Lemma walk_indices_injective_witness :
  (2 ^ 39 + 2 ^ 21 + 4096) / s2tte_map_size 2 = (2 ^ 39 + 2 ^ 21 + 8192) / s2tte_map_size 2.
Proof.
  apply (walk_indices_injective (example_ctx false) 2 (2 ^ 39 + 2 ^ 21 + 4096) (2 ^ 39 + 2 ^ 21 + 8192));
    [simpl; lia | lia | simpl; lia | simpl; lia | simpl; lia | vm_compute; reflexivity |].
  intros l Hl. simpl in Hl. assert (l = 1 ∨ l = 2) as [-> | ->] by lia; vm_compute; reflexivity.
Defined.
