(* ===== verification/Apt.v ===== *)
(** Access permission tables (runtime/include/apt.h, runtime/core/apt_helpers.c): the
    per-realm table of memory regions a realm shares as master or uses as slave. The
    packed arrays of enabled regions, their inverse and the bit masks are kept
    consistent by every operation, so no access leaves its array; the test for
    conflicting regions is exact. *)
From S2P Require Import Prelude Types.

Definition SIZE_MAX : Z := 2 ^ 64 - 1.

(** * Sharing identifiers *)

Definition apt_make_sharing_id (region_ID master_ID slave_ID : Z) : Z :=
  Z.lor (Z.lor (u32 (Z.shiftl region_ID 16)) (u32 (Z.shiftl master_ID 8))) slave_ID.
Definition apt_sharing_region_id (sharing_ID : Z) : Z := u8 (Z.land (Z.shiftr sharing_ID 16) 255).
Definition apt_sharing_master_id (sharing_ID : Z) : Z := u8 (Z.land (Z.shiftr sharing_ID 8) 255).
Definition apt_sharing_slave_id (sharing_ID : Z) : Z := u8 (Z.land sharing_ID 255).

(** * Lookups *)

Definition mask_bit (mask idx : Z) : bool := negb ((mask .& BIT64 idx) =? 0).

Definition apt_idx_in_range (idx : Z) : bool := idx <? MAX_MEM_REGIONS.
Definition apt_master_used (a : apt) (idx : Z) : bool :=
  apt_idx_in_range idx && mask_bit (master_used_mask a) idx.
Definition apt_slave_used (a : apt) (idx : Z) : bool :=
  apt_idx_in_range idx && mask_bit (slave_used_mask a) idx.
Definition apt_master_enabled (a : apt) (idx : Z) : bool :=
  apt_idx_in_range idx && mask_bit (master_enabled_mask a) idx.
Definition apt_slave_enabled (a : apt) (idx : Z) : bool :=
  apt_idx_in_range idx && mask_bit (slave_enabled_mask a) idx.

Definition apt_enabled_master_len (a : apt) : Z := elen (enabled_mr a).
Definition apt_enabled_master_index_at (a : apt) (pos : Z) : result Z := aget (eindex (enabled_mr a)) pos.
Definition apt_enabled_master_at (a : apt) (pos : Z) : result master_mem :=
  aget (eindex (enabled_mr a)) pos ≫= λ idx, aget (master_memory a) idx.
Definition apt_enabled_slave_len (a : apt) : Z := elen (enabled_sr a).
Definition apt_enabled_slave_index_at (a : apt) (pos : Z) : result Z := aget (eindex (enabled_sr a)) pos.
Definition apt_enabled_slave_at (a : apt) (pos : Z) : result slave_mem :=
  aget (eindex (enabled_sr a)) pos ≫= λ idx, aget (slave_memory a) idx.

Definition apt_find_master_by_region_id (a : apt) (region_ID : Z) : result Z :=
  first_index (Z.to_nat MAX_MEM_REGIONS) 0 (λ i,
    if mask_bit (master_used_mask a) i
    then aget (master_memory a) i ≫= λ m, Ok (m_region_ID m =? region_ID)
    else Ok false) ≫= λ o, Ok (or_minus1 o).

Definition apt_find_master_share_slot (m : master_mem) (sl_ID : Z) : result Z :=
  first_index (Z.to_nat CSM_MAX_MASTER_SHARES) 0 (λ i,
    aget (shares m) i ≫= λ sh, Ok (in_use sh && (slave_ID sh =? sl_ID))) ≫= λ o,
  Ok (or_minus1 o).

Definition apt_find_free_master (a : apt) : result Z :=
  first_index (Z.to_nat MAX_MEM_REGIONS) 0 (λ i, Ok (negb (mask_bit (master_used_mask a) i))) ≫= λ o,
  Ok (or_minus1 o).
Definition apt_find_free_slave (a : apt) : result Z :=
  first_index (Z.to_nat MAX_MEM_REGIONS) 0 (λ i, Ok (negb (mask_bit (slave_used_mask a) i))) ≫= λ o,
  Ok (or_minus1 o).

Definition first_free_from_mask (used_mask : Z) : result Z :=
  first_index (Z.to_nat MAX_MEM_REGIONS) 0 (λ i, Ok (negb (mask_bit used_mask i))) ≫= λ o,
  Ok (match o with Some i => i | None => SIZE_MAX end).

(** * Field updates *)

Definition set_master_memory (l : list master_mem) (a : apt) : apt :=
  {| master_memory := l; slave_memory := slave_memory a; enabled_mr := enabled_mr a;
     enabled_sr := enabled_sr a; master_used_mask := master_used_mask a;
     slave_used_mask := slave_used_mask a; master_enabled_mask := master_enabled_mask a;
     slave_enabled_mask := slave_enabled_mask a |}.
Definition set_slave_memory (l : list slave_mem) (a : apt) : apt :=
  {| master_memory := master_memory a; slave_memory := l; enabled_mr := enabled_mr a;
     enabled_sr := enabled_sr a; master_used_mask := master_used_mask a;
     slave_used_mask := slave_used_mask a; master_enabled_mask := master_enabled_mask a;
     slave_enabled_mask := slave_enabled_mask a |}.
Definition set_master_used_mask (m : Z) (a : apt) : apt :=
  {| master_memory := master_memory a; slave_memory := slave_memory a; enabled_mr := enabled_mr a;
     enabled_sr := enabled_sr a; master_used_mask := m;
     slave_used_mask := slave_used_mask a; master_enabled_mask := master_enabled_mask a;
     slave_enabled_mask := slave_enabled_mask a |}.
Definition set_slave_used_mask (m : Z) (a : apt) : apt :=
  {| master_memory := master_memory a; slave_memory := slave_memory a; enabled_mr := enabled_mr a;
     enabled_sr := enabled_sr a; master_used_mask := master_used_mask a;
     slave_used_mask := m; master_enabled_mask := master_enabled_mask a;
     slave_enabled_mask := slave_enabled_mask a |}.
Definition set_master_enabled (p : enabled_regions * Z) (a : apt) : apt :=
  {| master_memory := master_memory a; slave_memory := slave_memory a; enabled_mr := p.1;
     enabled_sr := enabled_sr a; master_used_mask := master_used_mask a;
     slave_used_mask := slave_used_mask a; master_enabled_mask := p.2;
     slave_enabled_mask := slave_enabled_mask a |}.
Definition set_slave_enabled (p : enabled_regions * Z) (a : apt) : apt :=
  {| master_memory := master_memory a; slave_memory := slave_memory a; enabled_mr := enabled_mr a;
     enabled_sr := p.1; master_used_mask := master_used_mask a;
     slave_used_mask := slave_used_mask a; master_enabled_mask := master_enabled_mask a;
     slave_enabled_mask := p.2 |}.

(** * The packed set of enabled regions *)

(** The bodies of [enable_push_master] and [enable_push_slave] on the set and its mask. *)
Definition enable_push (e : enabled_regions) (mask idx : Z) : result (enabled_regions * Z) :=
  let pos := elen e in
  aset (eindex e) pos idx ≫= λ index',
  aset (epos_by_index e) idx pos ≫= λ pos_by_index',
  Ok ({| elen := u8 (elen e + 1); eindex := index'; epos_by_index := pos_by_index' |},
      mask .| BIT64 idx).

Definition enable_push_master (a : apt) (idx : Z) : result apt :=
  enable_push (enabled_mr a) (master_enabled_mask a) idx ≫= λ p, Ok (set_master_enabled p a).
Definition enable_push_slave (a : apt) (idx : Z) : result apt :=
  enable_push (enabled_sr a) (slave_enabled_mask a) idx ≫= λ p, Ok (set_slave_enabled p a).

(** The bodies of [disable_swap_pop_master] and [disable_swap_pop_slave]. *)
Definition disable_swap_pop (e : enabled_regions) (mask idx : Z) : result (enabled_regions * Z) :=
  aget (epos_by_index e) idx ≫= λ pos,
  let last_pos := elen e .- 1 in
  (if negb (pos =? last_pos) then
     aget (eindex e) last_pos ≫= λ moved,
     aset (eindex e) pos moved ≫= λ index',
     aset (epos_by_index e) moved pos ≫= λ pos_by_index',
     Ok (index', pos_by_index')
   else Ok (eindex e, epos_by_index e)) ≫= λ '(index', pos_by_index'),
  Ok ({| elen := u8 (elen e - 1); eindex := index'; epos_by_index := pos_by_index' |},
      mask .& (.~ BIT64 idx)).

Definition disable_swap_pop_master (a : apt) (idx : Z) : result apt :=
  disable_swap_pop (enabled_mr a) (master_enabled_mask a) idx ≫= λ p, Ok (set_master_enabled p a).
Definition disable_swap_pop_slave (a : apt) (idx : Z) : result apt :=
  disable_swap_pop (enabled_sr a) (slave_enabled_mask a) idx ≫= λ p, Ok (set_slave_enabled p a).

(** * Operations *)

Definition apt_reset (a : apt) : apt := apt_zero.

Definition apt_add_master (a : apt) (region_ID ipa_start map_size : Z) (enable_now : bool)
  : result (Z * apt) :=
  first_free_from_mask (master_used_mask a) ≫= λ idx,
  if idx =? SIZE_MAX then Ok (SIZE_MAX, a)
  else
    aset (master_memory a) idx
      {| m_region_ID := region_ID; m_ipa_start := ipa_start; m_map_size := map_size;
         share_count := 0;
         shares := replicate (Z.to_nat CSM_MAX_MASTER_SHARES) master_share_zero |} ≫= λ mm,
    let a := set_master_used_mask (master_used_mask a .| BIT64 idx) (set_master_memory mm a) in
    (if enable_now && negb (mask_bit (master_enabled_mask a) idx)
     then enable_push_master a idx else Ok a) ≫= λ a,
    Ok (idx, a).

Definition apt_add_slave (a : apt) (mst_ID region_ID mst_rd_pa ipa_start map_size : Z)
    (enable_now : bool) : result (Z * apt) :=
  first_free_from_mask (slave_used_mask a) ≫= λ idx,
  if idx =? SIZE_MAX then Ok (SIZE_MAX, a)
  else
    aset (slave_memory a) idx
      {| master_ID := mst_ID; s_region_ID := region_ID; master_rd_pa := mst_rd_pa;
         s_ipa_start := ipa_start; s_map_size := map_size |} ≫= λ sm,
    let a := set_slave_used_mask (slave_used_mask a .| BIT64 idx) (set_slave_memory sm a) in
    (if enable_now && negb (mask_bit (slave_enabled_mask a) idx)
     then enable_push_slave a idx else Ok a) ≫= λ a,
    Ok (idx, a).

Definition apt_enable_master_idx (a : apt) (idx : Z) : result (bool * apt) :=
  if negb (apt_idx_in_range idx) then Ok (false, a)
  else if negb (mask_bit (master_used_mask a) idx) then Ok (false, a)
  else if mask_bit (master_enabled_mask a) idx then Ok (true, a)
  else enable_push_master a idx ≫= λ a, Ok (true, a).

Definition apt_disable_master_idx (a : apt) (idx : Z) : result (bool * apt) :=
  if negb (apt_idx_in_range idx) then Ok (false, a)
  else if negb (mask_bit (master_enabled_mask a) idx) then Ok (true, a)
  else disable_swap_pop_master a idx ≫= λ a, Ok (true, a).

Definition apt_enable_slave_idx (a : apt) (idx : Z) : result (bool * apt) :=
  if negb (apt_idx_in_range idx) then Ok (false, a)
  else if negb (mask_bit (slave_used_mask a) idx) then Ok (false, a)
  else if mask_bit (slave_enabled_mask a) idx then Ok (true, a)
  else enable_push_slave a idx ≫= λ a, Ok (true, a).

Definition apt_disable_slave_idx (a : apt) (idx : Z) : result (bool * apt) :=
  if negb (apt_idx_in_range idx) then Ok (false, a)
  else if negb (mask_bit (slave_enabled_mask a) idx) then Ok (true, a)
  else disable_swap_pop_slave a idx ≫= λ a, Ok (true, a).

Definition apt_master_add_share (a : apt) (idx sl_ID sl_rd_pa perm : Z) : result (bool * apt) :=
  if negb (apt_idx_in_range idx) then Ok (false, a)
  else if (master_used_mask a .& BIT64 idx) =? 0 then Ok (false, a)
  else
    aget (master_memory a) idx ≫= λ m,
    apt_find_master_share_slot m sl_ID ≫= λ slot,
    if 0 <=? slot then Ok (false, a)
    else
      first_index (Z.to_nat CSM_MAX_MASTER_SHARES) 0 (λ i,
        aget (shares m) i ≫= λ sh, Ok (negb (in_use sh))) ≫= λ o,
      match o with
      | None => Ok (false, a)
      | Some i =>
          aset (shares m) i {| slave_ID := sl_ID; slave_rd_pa := sl_rd_pa; permission := perm;
                               in_use := true |} ≫= λ shs,
          aset (master_memory a) idx
            {| m_region_ID := m_region_ID m; m_ipa_start := m_ipa_start m;
               m_map_size := m_map_size m; share_count := u8 (share_count m + 1);
               shares := shs |} ≫= λ mm,
          Ok (true, set_master_memory mm a)
      end.

(** * Conflicts *)

Definition range_overlaps_ul (a_start a_size b_start b_size : Z) : bool :=
  if (a_size =? 0) || (b_size =? 0) then false
  else
    let a_end := a_start .+ a_size in
    let b_end := b_start .+ b_size in
    if (a_end <? a_start) || (b_end <? b_start) then true
    else negb ((a_end <=? b_start) || (b_end <=? a_start)).

Inductive apt_region_kind := APT_REGION_MASTER | APT_REGION_SLAVE.

(** [Some (kind, idx)] is the answer [true] with the values stored through the output
    pointers. *)
Definition apt_find_enabled_conflict (a : apt) (ipa_start map_size : Z) (skip_master_check : bool)
  : result (option (apt_region_kind * Z)) :=
  (if negb skip_master_check then
     first_index (Z.to_nat (elen (enabled_mr a))) 0 (λ pos,
       aget (eindex (enabled_mr a)) pos ≫= λ idx,
       aget (master_memory a) idx ≫= λ m,
       Ok (range_overlaps_ul ipa_start map_size (m_ipa_start m) (m_map_size m)))
   else Ok None) ≫= λ o,
  match o with
  | Some pos => aget (eindex (enabled_mr a)) pos ≫= λ idx, Ok (Some (APT_REGION_MASTER, idx))
  | None =>
      first_index (Z.to_nat (elen (enabled_sr a))) 0 (λ pos,
        aget (eindex (enabled_sr a)) pos ≫= λ idx,
        aget (slave_memory a) idx ≫= λ sm,
        Ok (range_overlaps_ul ipa_start map_size (s_ipa_start sm) (s_map_size sm))) ≫= λ o,
      match o with
      | Some pos => aget (eindex (enabled_sr a)) pos ≫= λ idx, Ok (Some (APT_REGION_SLAVE, idx))
      | None => Ok None
      end
  end.

(** * Bits and loops *)

Lemma mask_bit_testbit mask idx : 0 <= idx < 64 → mask_bit mask idx = Z.testbit mask idx.
Proof.
  intros Hi. unfold mask_bit, BIT64, shl64. rewrite Z.shiftl_mul_pow2, Z.mul_1_l by lia.
  rewrite u64_small.
  - apply land_pow2_testbit. lia.
  - unfold is_u64. split; [apply Z.pow_nonneg; lia | apply Z.pow_lt_mono_r; lia].
Qed.

Lemma testbit_set mask idx i :
  0 <= idx < 64 → 0 <= i → Z.testbit (mask .| BIT64 idx) i = Z.testbit mask i || (i =? idx).
Proof.
  intros Hx Hi. rewrite Z.lor_spec, testbit_BIT64 by lia.
  destruct (Z.eqb_spec i idx); [|by rewrite andb_false_r].
  by rewrite (proj2 (Z.ltb_lt i 64)) by lia.
Qed.

Lemma testbit_clear mask idx i :
  0 <= idx < 64 → 0 <= i < 64 →
  Z.testbit (mask .& (.~ BIT64 idx)) i = Z.testbit mask i && negb (i =? idx).
Proof.
  intros Hx Hi. rewrite Z.land_spec, testbit_not64, testbit_BIT64 by lia.
  by rewrite (proj2 (Z.ltb_lt i 64)) by lia.
Qed.

(** * Consistency of an enabled set *)

Record einv (e : enabled_regions) (mask : Z) : Prop := {
  ei_index : length (eindex e) = Z.to_nat MAX_MEM_REGIONS;
  ei_pos : length (epos_by_index e) = Z.to_nat MAX_MEM_REGIONS;
  ei_len : 0 <= elen e <= MAX_MEM_REGIONS;
  ei_mask : 0 <= mask < 2 ^ MAX_MEM_REGIONS;
  ei_fwd p : (p < Z.to_nat (elen e))%nat →
    ∃ i, eindex e !! p = Some (Z.of_nat i) ∧ (i < 20)%nat ∧
         Z.testbit mask (Z.of_nat i) = true ∧ epos_by_index e !! i = Some (Z.of_nat p);
  ei_bwd i : (i < 20)%nat → Z.testbit mask (Z.of_nat i) = true →
    ∃ p, (p < Z.to_nat (elen e))%nat ∧ epos_by_index e !! i = Some (Z.of_nat p) ∧
         eindex e !! p = Some (Z.of_nat i);
}.

Lemma einv_zero : einv enabled_regions_zero 0.
Proof.
  split; try done; simpl; [lia|]. intros i _ H. by rewrite Z.testbit_0_l in H.
Qed.

Lemma mask_range_set mask idx : 0 <= mask < 2 ^ 20 → 0 <= idx < 20 → 0 <= mask .| BIT64 idx < 2 ^ 20.
Proof.
  intros Hm Hi. assert (H : inmask (2 ^ 20 - 1) (mask .| BIT64 idx)).
  { apply inmask_lor; unfold inmask; rewrite land_ones_mod by lia; apply Z.mod_small; [done|].
    unfold BIT64, shl64. rewrite Z.shiftl_mul_pow2, Z.mul_1_l by lia.
    rewrite u64_small by (unfold is_u64; split; [apply Z.pow_nonneg|apply Z.pow_lt_mono_r]; lia).
    split; [apply Z.pow_nonneg; lia | apply Z.pow_lt_mono_r; lia]. }
  apply inmask_range in H; lia.
Qed.

Lemma mask_range_clear mask k : 0 <= mask < 2 ^ 20 → 0 <= mask .& k < 2 ^ 20.
Proof. intros Hm. rewrite Z.land_comm. pose proof (land_bound k mask ltac:(lia)). lia. Qed.

(** While a region is not enabled there is room for it. *)
Lemma einv_room e mask idx :
  einv e mask → (idx < 20)%nat → Z.testbit mask (Z.of_nat idx) = false → elen e < 20.
Proof.
  intros He Hi Hb. destruct (Z.lt_ge_cases (elen e) 20) as [|Hge]; [done|exfalso].
  pose proof (ei_len _ _ He) as Hlen. change MAX_MEM_REGIONS with 20 in Hlen.
  assert (Hlen20 : Z.to_nat (elen e) = 20%nat) by lia.
  assert (Hfwd := ei_fwd _ _ He). rewrite Hlen20 in Hfwd.
  assert (Hl : length (eindex e) = 20%nat) by apply (ei_index _ _ He).
  assert (Hsub : (Z.of_nat idx :: eindex e) ⊆+ (Z.of_nat <$> seq 0 20)).
  { apply NoDup_submseteq.
    - apply NoDup_cons. split.
      + intros [p Hp]%list_elem_of_lookup. pose proof (lookup_lt_Some _ _ _ Hp).
        destruct (Hfwd p) as (i & Hpi & _ & Hbi & _); [lia|].
        assert (i = idx) as -> by (simplify_eq; lia). congruence.
      + apply NoDup_alt. intros p q x Hp Hq.
        pose proof (lookup_lt_Some _ _ _ Hp). pose proof (lookup_lt_Some _ _ _ Hq).
        destruct (Hfwd p) as (i & Hpi & _ & _ & Hip); [lia|].
        destruct (Hfwd q) as (j & Hqj & _ & _ & Hjq); [lia|].
        assert (i = j) as -> by (simplify_eq; lia). simplify_eq. lia.
    - intros x Hx. apply list_elem_of_fmap. apply elem_of_cons in Hx as [->|Hx].
      + exists idx. split; [done|]. apply elem_of_seq. lia.
      + apply list_elem_of_lookup in Hx as [p Hp]. pose proof (lookup_lt_Some _ _ _ Hp).
        destruct (Hfwd p) as (i & Hpi & Hi20 & _); [lia|].
        exists i. split; [by simplify_eq|]. apply elem_of_seq. lia. }
  apply submseteq_length in Hsub. rewrite length_fmap, length_seq in Hsub. simpl in Hsub. lia.
Qed.

Lemma enable_push_spec e mask idx :
  einv e mask → (idx < 20)%nat → Z.testbit mask (Z.of_nat idx) = false →
  ∃ e', enable_push e mask (Z.of_nat idx) = Ok (e', mask .| BIT64 (Z.of_nat idx)) ∧
        einv e' (mask .| BIT64 (Z.of_nat idx)) ∧ elen e' = elen e + 1.
Proof.
  intros He Hi Hb. pose proof (einv_room _ _ _ He Hi Hb) as Hroom.
  pose proof (ei_len _ _ He) as [Hl0 _]. unfold enable_push. cbv zeta.
  assert (Hil : length (eindex e) = 20%nat) by apply (ei_index _ _ He).
  assert (Hpl : length (epos_by_index e) = 20%nat) by apply (ei_pos _ _ He).
  rewrite (aset_ok (eindex e)), result_bind_ok by lia.
  rewrite (aset_ok (epos_by_index e)), result_bind_ok by lia.
  rewrite Nat2Z.id. unfold u8. rewrite Z.mod_small by lia.
  eexists; split; [done|]. split; [|done].
  set (n := Z.to_nat (elen e)). assert (Hn : elen e = Z.of_nat n) by lia.
  split; simpl; rewrite ?length_insert; try done.
  - change MAX_MEM_REGIONS with 20. lia.
  - apply mask_range_set; [apply (ei_mask _ _ He)|lia].
  - intros p Hp. replace (Z.to_nat (elen e + 1)) with (S n) in Hp by lia.
    destruct (decide (p = n)) as [->|Hne].
    + exists idx. rewrite !list_lookup_insert_eq by lia. split; [done|]. split; [done|].
      rewrite testbit_set, Z.eqb_refl, orb_true_r by lia. split; [done|]. by rewrite Hn.
    + destruct (ei_fwd _ _ He p) as (i & Hpi & Hi20 & Hbi & Hip); [lia|]. exists i.
      assert (i ≠ idx) by (intros ->; congruence).
      rewrite !list_lookup_insert_ne by done. rewrite testbit_set, Hbi by lia. done.
  - intros i Hi20. rewrite testbit_set by lia. replace (Z.to_nat (elen e + 1)) with (S n) by lia.
    destruct (decide (i = idx)) as [->|Hne].
    + intros _. exists n. rewrite !list_lookup_insert_eq by lia. split; [lia|]. by rewrite Hn.
    + rewrite (proj2 (Z.eqb_neq _ _)), orb_false_r by lia. intros Hbi.
      destruct (ei_bwd _ _ He i Hi20 Hbi) as (p & Hp & Hip & Hpi). exists p.
      rewrite !list_lookup_insert_ne by lia. split; [lia|done].
Qed.

Lemma disable_swap_pop_spec e mask idx :
  einv e mask → (idx < 20)%nat → Z.testbit mask (Z.of_nat idx) = true →
  ∃ e', disable_swap_pop e mask (Z.of_nat idx) = Ok (e', mask .& (.~ BIT64 (Z.of_nat idx))) ∧
        einv e' (mask .& (.~ BIT64 (Z.of_nat idx))) ∧ elen e' = elen e - 1.
Proof.
  intros He Hi Hb. destruct (ei_bwd _ _ He idx Hi Hb) as (p0 & Hp0 & Hpos & Hidx).
  pose proof (ei_len _ _ He) as [Hl0 Hl1]. change MAX_MEM_REGIONS with 20 in Hl1.
  assert (Hil : length (eindex e) = 20%nat) by apply (ei_index _ _ He).
  assert (Hpl : length (epos_by_index e) = 20%nat) by apply (ei_pos _ _ He).
  set (n := Z.to_nat (elen e)). assert (Hn : elen e = Z.of_nat n) by lia. fold n in Hp0.
  unfold disable_swap_pop.
  rewrite (aget_lookup (epos_by_index e) _ (Z.of_nat p0)), result_bind_ok by (lia || by rewrite Nat2Z.id).
  rewrite (u64_small (elen e - 1)) by (unfold is_u64; lia). cbv zeta.
  destruct (ei_fwd _ _ He (n - 1)) as (im & Hlast & Him & Hbm & Hpm); [lia|].
  assert (Hmask : 0 <= mask .& (.~ BIT64 (Z.of_nat idx)) < 2 ^ 20)
    by (apply mask_range_clear; apply (ei_mask _ _ He)).
  assert (Hclear : ∀ i, (i < 20)%nat → Z.testbit (mask .& (.~ BIT64 (Z.of_nat idx))) (Z.of_nat i)
                   = Z.testbit mask (Z.of_nat i) && negb (Z.of_nat i =? Z.of_nat idx)).
  { intros i Hi'. apply testbit_clear; lia. }
  unfold u8. rewrite (Z.mod_small (elen e - 1)) by lia.
  destruct (Z.eqb_spec (Z.of_nat p0) (elen e - 1)) as [Hp|Hp]; cbn [negb].
  - rewrite result_bind_ok. eexists; split; [done|]. split; [|done].
    assert (p0 = n - 1)%nat by lia. subst p0.
    split; simpl; try done; [change MAX_MEM_REGIONS with 20; lia|..].
    + intros p Hp'. destruct (ei_fwd _ _ He p) as (i & Hpi & Hi20 & Hbi & Hip); [lia|]. exists i.
      assert (i ≠ idx) by (intros ->; simplify_eq; lia).
      rewrite Hclear, Hbi, (proj2 (Z.eqb_neq _ _)) by lia. done.
    + intros i Hi20. rewrite Hclear by done. intros [Hbi Hne%negb_true_iff%Z.eqb_neq]%andb_true_iff.
      destruct (ei_bwd _ _ He i Hi20 Hbi) as (p & Hpn & Hip & Hpi). exists p. split; [|done].
      assert (p ≠ n - 1)%nat by (intros ->; simplify_eq; lia). lia.
  - rewrite (aget_lookup _ _ (Z.of_nat im)), result_bind_ok
      by (lia || by replace (Z.to_nat (elen e - 1)) with (n - 1)%nat by lia).
    rewrite (aset_ok (eindex e)), result_bind_ok by lia.
    rewrite (aset_ok (epos_by_index e)), !result_bind_ok by lia. rewrite !Nat2Z.id. eexists; split; [done|]. split; [|done].
    assert (im ≠ idx) by (intros ->; simplify_eq; lia).
    split; simpl; rewrite ?length_insert; try done; [change MAX_MEM_REGIONS with 20; lia|..].
    + intros p Hp'. destruct (decide (p = p0)) as [->|Hne].
      * exists im. rewrite !list_lookup_insert_eq by lia.
        rewrite Hclear, Hbm, (proj2 (Z.eqb_neq _ _)) by lia. done.
      * destruct (ei_fwd _ _ He p) as (i & Hpi & Hi20 & Hbi & Hip); [lia|]. exists i.
        assert (i ≠ idx) by (intros ->; simplify_eq; lia).
        assert (i ≠ im) by (intros ->; simplify_eq; lia).
        rewrite !list_lookup_insert_ne by lia.
        rewrite Hclear, Hbi, (proj2 (Z.eqb_neq _ _)) by lia. done.
    + intros i Hi20. rewrite Hclear by done. intros [Hbi Hne%negb_true_iff%Z.eqb_neq]%andb_true_iff.
      destruct (ei_bwd _ _ He i Hi20 Hbi) as (p & Hpn & Hip & Hpi).
      destruct (decide (i = im)) as [->|Him'].
      * exists p0. rewrite !list_lookup_insert_eq by lia. split; [lia|done].
      * exists p. assert (p ≠ n - 1)%nat by (intros ->; simplify_eq; lia).
        assert (p ≠ p0) by (intros ->; simplify_eq; lia).
        rewrite !list_lookup_insert_ne by lia. split; [lia|done].
Qed.

(** * Well-formed tables *)

(** A master region: at most three shares, counted, no slave twice. *)
Definition master_ok (m : master_mem) : Prop :=
  length (shares m) = Z.to_nat CSM_MAX_MASTER_SHARES ∧
  share_count m = Z.of_nat (length (List.filter in_use (shares m))) ∧
  NoDup (slave_ID <$> List.filter in_use (shares m)).

Record apt_inv (a : apt) : Prop := {
  ai_masters : length (master_memory a) = Z.to_nat MAX_MEM_REGIONS;
  ai_slaves : length (slave_memory a) = Z.to_nat MAX_MEM_REGIONS;
  ai_master_ok : Forall master_ok (master_memory a);
  ai_mr : einv (enabled_mr a) (master_enabled_mask a);
  ai_sr : einv (enabled_sr a) (slave_enabled_mask a);
  ai_mu : 0 <= master_used_mask a < 2 ^ MAX_MEM_REGIONS;
  ai_su : 0 <= slave_used_mask a < 2 ^ MAX_MEM_REGIONS;
  ai_msub i : 0 <= i → Z.testbit (master_enabled_mask a) i = true → Z.testbit (master_used_mask a) i = true;
  ai_ssub i : 0 <= i → Z.testbit (slave_enabled_mask a) i = true → Z.testbit (slave_used_mask a) i = true;
}.

Lemma apt_inv_zero : apt_inv apt_zero.
Proof.
  split; try done; try apply einv_zero.
  apply Forall_replicate. split; [done|]. split; [done|]. constructor.
Qed.

Lemma first_free_spec mask :
  ∃ r, first_free_from_mask mask = Ok r ∧
    ((0 <= r < 20 ∧ Z.testbit mask r = false ∧ ∀ j, 0 <= j < r → Z.testbit mask j = true)
     ∨ (r = SIZE_MAX ∧ ∀ j, 0 <= j < 20 → Z.testbit mask j = true)).
Proof.
  unfold first_free_from_mask. change (Z.to_nat MAX_MEM_REGIONS) with 20%nat.
  destruct (first_index_spec 20 0 (λ i, Ok (negb (mask_bit mask i)))) as ([k|] & Hrun & Ho).
  - by eexists.
  - rewrite Hrun, result_bind_ok. eexists; split; [done|]. left. destruct Ho as (Hk & Ht & Hf).
    assert (0 <= k < 20) by lia. split; [done|]. split.
    + injection Ht as Ht. rewrite mask_bit_testbit in Ht by lia. by apply negb_true_iff.
    + intros j Hj. specialize (Hf j ltac:(lia)). injection Hf as Hf.
      rewrite mask_bit_testbit in Hf by lia. by apply negb_false_iff.
  - rewrite Hrun, result_bind_ok. eexists; split; [done|]. right. split; [done|].
    intros j Hj. specialize (Ho j ltac:(lia)). injection Ho as Hf.
    rewrite mask_bit_testbit in Hf by lia. by apply negb_false_iff.
Qed.

Lemma SIZE_MAX_ne r : 0 <= r < 20 → (r =? SIZE_MAX) = false.
Proof. intros Hr. apply Z.eqb_neq. unfold SIZE_MAX. lia. Qed.

Lemma push_master_inv a idx :
  apt_inv a → 0 <= idx < 20 → Z.testbit (master_used_mask a) idx = true →
  Z.testbit (master_enabled_mask a) idx = false →
  ∃ e, enable_push_master a idx
       = Ok (set_master_enabled (e, master_enabled_mask a .| BIT64 idx) a) ∧
    apt_inv (set_master_enabled (e, master_enabled_mask a .| BIT64 idx) a) ∧
    elen e = elen (enabled_mr a) + 1.
Proof.
  intros Ha Hi Hu Hb. unfold enable_push_master.
  destruct (enable_push_spec _ _ (Z.to_nat idx) (ai_mr _ Ha)) as (e & He & Hinv & Hlen);
    [lia|by rewrite Z2Nat.id by lia|]. rewrite Z2Nat.id in * by lia.
  exists e. rewrite He, result_bind_ok. split; [done|]. split; [|done].
  split; try apply Ha; simpl; [done|]. intros i Hi0. rewrite testbit_set by lia.
  intros [Hbi| ->%Z.eqb_eq]%orb_true_iff; [by apply (ai_msub _ Ha)|done].
Qed.

Lemma push_slave_inv a idx :
  apt_inv a → 0 <= idx < 20 → Z.testbit (slave_used_mask a) idx = true →
  Z.testbit (slave_enabled_mask a) idx = false →
  ∃ e, enable_push_slave a idx
       = Ok (set_slave_enabled (e, slave_enabled_mask a .| BIT64 idx) a) ∧
    apt_inv (set_slave_enabled (e, slave_enabled_mask a .| BIT64 idx) a) ∧
    elen e = elen (enabled_sr a) + 1.
Proof.
  intros Ha Hi Hu Hb. unfold enable_push_slave.
  destruct (enable_push_spec _ _ (Z.to_nat idx) (ai_sr _ Ha)) as (e & He & Hinv & Hlen);
    [lia|by rewrite Z2Nat.id by lia|]. rewrite Z2Nat.id in * by lia.
  exists e. rewrite He, result_bind_ok. split; [done|]. split; [|done].
  split; try apply Ha; simpl; [done|]. intros i Hi0. rewrite testbit_set by lia.
  intros [Hbi| ->%Z.eqb_eq]%orb_true_iff; [by apply (ai_ssub _ Ha)|done].
Qed.

Lemma clear_sub_testbit m idx i :
  0 <= m < 2 ^ 20 → 0 <= idx < 20 → 0 <= i →
  Z.testbit (m .& (.~ BIT64 idx)) i = Z.testbit m i && negb (i =? idx).
Proof.
  intros Hm Hx Hi. destruct (Z.lt_ge_cases i 64).
  - apply testbit_clear; lia.
  - rewrite Z.land_spec, (testbit_high m 20) by lia. done.
Qed.

Lemma pop_master_inv a idx :
  apt_inv a → 0 <= idx < 20 → Z.testbit (master_enabled_mask a) idx = true →
  ∃ e, disable_swap_pop_master a idx
       = Ok (set_master_enabled (e, master_enabled_mask a .& (.~ BIT64 idx)) a) ∧
    apt_inv (set_master_enabled (e, master_enabled_mask a .& (.~ BIT64 idx)) a) ∧
    elen e = elen (enabled_mr a) - 1.
Proof.
  intros Ha Hi Hb. unfold disable_swap_pop_master.
  destruct (disable_swap_pop_spec _ _ (Z.to_nat idx) (ai_mr _ Ha)) as (e & He & Hinv & Hlen);
    [lia|by rewrite Z2Nat.id by lia|]. rewrite Z2Nat.id in * by lia.
  exists e. rewrite He, result_bind_ok. split; [done|]. split; [|done].
  split; try apply Ha; simpl; [done|]. intros i Hi0.
  rewrite clear_sub_testbit by (lia || apply (ei_mask _ _ (ai_mr _ Ha))).
  intros [Hbi _]%andb_true_iff. by apply (ai_msub _ Ha).
Qed.

Lemma pop_slave_inv a idx :
  apt_inv a → 0 <= idx < 20 → Z.testbit (slave_enabled_mask a) idx = true →
  ∃ e, disable_swap_pop_slave a idx
       = Ok (set_slave_enabled (e, slave_enabled_mask a .& (.~ BIT64 idx)) a) ∧
    apt_inv (set_slave_enabled (e, slave_enabled_mask a .& (.~ BIT64 idx)) a) ∧
    elen e = elen (enabled_sr a) - 1.
Proof.
  intros Ha Hi Hb. unfold disable_swap_pop_slave.
  destruct (disable_swap_pop_spec _ _ (Z.to_nat idx) (ai_sr _ Ha)) as (e & He & Hinv & Hlen);
    [lia|by rewrite Z2Nat.id by lia|]. rewrite Z2Nat.id in * by lia.
  exists e. rewrite He, result_bind_ok. split; [done|]. split; [|done].
  split; try apply Ha; simpl; [done|]. intros i Hi0.
  rewrite clear_sub_testbit by (lia || apply (ei_mask _ _ (ai_sr _ Ha))).
  intros [Hbi _]%andb_true_iff. by apply (ai_ssub _ Ha).
Qed.

Lemma add_master_inv a rid ipa sz en :
  apt_inv a → ∃ r a', apt_add_master a rid ipa sz en = Ok (r, a') ∧ apt_inv a'.
Proof.
  intros Ha. unfold apt_add_master. destruct (first_free_spec (master_used_mask a)) as (r & Hr & Hc).
  rewrite Hr, result_bind_ok. destruct Hc as [(Hr20 & Hfree & _)|[-> _]]; [|by eauto].
  rewrite SIZE_MAX_ne by done. pose proof (ai_masters _ Ha) as Hlen.
  change (Z.to_nat MAX_MEM_REGIONS) with 20%nat in Hlen. rewrite aset_ok, result_bind_ok by lia.
  cbv zeta. set (a1 := set_master_used_mask _ _).
  assert (Ha1 : apt_inv a1).
  { split; try apply Ha; subst a1; simpl.
    - by rewrite length_insert, Hlen.
    - apply Forall_insert; [apply Ha|]. split; [done|]. split; [done|]. constructor.
    - apply mask_range_set; [apply Ha|done].
    - intros i Hi0 Hb. rewrite testbit_set by lia. by rewrite (ai_msub _ Ha). }
  destruct (en && _) eqn:Hen; [|by eauto].
  apply andb_true_iff in Hen as [_ Hen%negb_true_iff]. rewrite mask_bit_testbit in Hen by lia.
  destruct (push_master_inv a1 r Ha1 Hr20) as (e & He & Hinv & _).
  - subst a1; simpl. by rewrite testbit_set, Z.eqb_refl, orb_true_r by lia.
  - done.
  - rewrite He, result_bind_ok. eauto.
Qed.

Lemma add_slave_inv a mid rid pa ipa sz en :
  apt_inv a → ∃ r a', apt_add_slave a mid rid pa ipa sz en = Ok (r, a') ∧ apt_inv a'.
Proof.
  intros Ha. unfold apt_add_slave. destruct (first_free_spec (slave_used_mask a)) as (r & Hr & Hc).
  rewrite Hr, result_bind_ok. destruct Hc as [(Hr20 & Hfree & _)|[-> _]]; [|by eauto].
  rewrite SIZE_MAX_ne by done. pose proof (ai_slaves _ Ha) as Hlen.
  change (Z.to_nat MAX_MEM_REGIONS) with 20%nat in Hlen. rewrite aset_ok, result_bind_ok by lia.
  cbv zeta. set (a1 := set_slave_used_mask _ _).
  assert (Ha1 : apt_inv a1).
  { split; try apply Ha; subst a1; simpl.
    - by rewrite length_insert, Hlen.
    - apply mask_range_set; [apply Ha|done].
    - intros i Hi0 Hb. rewrite testbit_set by lia. by rewrite (ai_ssub _ Ha). }
  destruct (en && _) eqn:Hen; [|by eauto].
  apply andb_true_iff in Hen as [_ Hen%negb_true_iff]. rewrite mask_bit_testbit in Hen by lia.
  destruct (push_slave_inv a1 r Ha1 Hr20) as (e & He & Hinv & _).
  - subst a1; simpl. by rewrite testbit_set, Z.eqb_refl, orb_true_r by lia.
  - done.
  - rewrite He, result_bind_ok. eauto.
Qed.

Lemma in_range_iff idx : 0 <= idx → apt_idx_in_range idx = true ↔ 0 <= idx < 20.
Proof.
  intros. unfold apt_idx_in_range. change MAX_MEM_REGIONS with 20. rewrite Z.ltb_lt. lia.
Qed.

(** ** Enabling and disabling *)

Section enable.
Context (a : apt) (idx : Z).
Hypothesis Ha : apt_inv a.
Hypothesis Hidx : 0 <= idx.

Lemma enable_master_spec :
  ∃ a', apt_enable_master_idx a idx = Ok (apt_master_used a idx, a') ∧ apt_inv a' ∧
    master_memory a' = master_memory a ∧ master_used_mask a' = master_used_mask a ∧
    (∀ i, 0 <= i → apt_master_enabled a' i
          = apt_master_enabled a i || (apt_master_used a idx && (i =? idx))) ∧
    apt_enabled_master_len a' = apt_enabled_master_len a
      + (if apt_master_used a idx && negb (apt_master_enabled a idx) then 1 else 0).
Proof using Ha Hidx.
  unfold apt_enable_master_idx, apt_master_used, apt_master_enabled.
  destruct (apt_idx_in_range idx) eqn:Hr; cbn [negb andb]; cycle 1.
  { exists a. split; [done|]. split; [done|]. do 2 (split; [done|]).
    split; [intros; by rewrite orb_false_r|lia]. }
  apply in_range_iff in Hr; [|done]. rewrite !mask_bit_testbit by lia.
  destruct (Z.testbit (master_used_mask a) idx) eqn:Hu; cbn [negb andb]; cycle 1.
  { exists a. split; [done|]. split; [done|]. do 2 (split; [done|]).
    split; [intros; by rewrite orb_false_r|lia]. }
  destruct (Z.testbit (master_enabled_mask a) idx) eqn:He; cbn [negb].
  { exists a. split; [done|]. split; [done|]. do 2 (split; [done|]). split; [|lia].
    intros i Hi. destruct (Z.eqb_spec i idx) as [->|]; [|by rewrite orb_false_r].
    rewrite mask_bit_testbit, He by lia. rewrite (proj2 (in_range_iff _ Hidx)) by done. done. }
  destruct (push_master_inv a idx Ha Hr Hu He) as (e & Hrun & Hinv & Hlen).
  rewrite Hrun, result_bind_ok. eexists; split; [done|]. split; [done|].
  do 2 (split; [done|]). split; [|unfold apt_enabled_master_len; simpl; lia].
  intros i Hi. simpl. destruct (apt_idx_in_range i) eqn:Hri; cbn [andb].
  - apply in_range_iff in Hri; [|done]. rewrite !mask_bit_testbit by lia. apply testbit_set; lia.
  - destruct (Z.eqb_spec i idx) as [->|]; [|done].
    rewrite (proj2 (in_range_iff _ Hidx)) in Hri by done. done.
Qed.

Lemma disable_master_spec :
  ∃ a', apt_disable_master_idx a idx = Ok (apt_idx_in_range idx, a') ∧ apt_inv a' ∧
    master_memory a' = master_memory a ∧ master_used_mask a' = master_used_mask a ∧
    (∀ i, 0 <= i → apt_master_enabled a' i = apt_master_enabled a i && negb (i =? idx)) ∧
    apt_enabled_master_len a' = apt_enabled_master_len a
      - (if apt_master_enabled a idx then 1 else 0).
Proof using Ha Hidx.
  unfold apt_disable_master_idx, apt_master_enabled.
  destruct (apt_idx_in_range idx) eqn:Hr; cbn [negb andb]; cycle 1.
  { exists a. split; [done|]. split; [done|]. do 2 (split; [done|]). split; [|lia].
    intros i Hi. destruct (Z.eqb_spec i idx) as [->|]; [by rewrite Hr|by rewrite andb_true_r]. }
  apply in_range_iff in Hr; [|done]. rewrite !mask_bit_testbit by lia.
  destruct (Z.testbit (master_enabled_mask a) idx) eqn:He; cbn [negb]; cycle 1.
  { exists a. split; [done|]. split; [done|]. do 2 (split; [done|]). split; [|lia].
    intros i Hi. destruct (Z.eqb_spec i idx) as [->|]; [|by rewrite andb_true_r].
    by rewrite mask_bit_testbit, He, andb_false_r by lia. }
  destruct (pop_master_inv a idx Ha Hr He) as (e & Hrun & Hinv & Hlen).
  rewrite Hrun, result_bind_ok. eexists; split; [done|]. split; [done|].
  do 2 (split; [done|]). split; [|unfold apt_enabled_master_len; simpl; lia].
  intros i Hi. simpl. destruct (apt_idx_in_range i) eqn:Hri; cbn [andb]; [|done].
  apply in_range_iff in Hri; [|done]. rewrite !mask_bit_testbit by lia. apply testbit_clear; lia.
Qed.

Lemma enable_slave_spec :
  ∃ a', apt_enable_slave_idx a idx = Ok (apt_slave_used a idx, a') ∧ apt_inv a' ∧
    slave_memory a' = slave_memory a ∧ slave_used_mask a' = slave_used_mask a ∧
    (∀ i, 0 <= i → apt_slave_enabled a' i
          = apt_slave_enabled a i || (apt_slave_used a idx && (i =? idx))) ∧
    apt_enabled_slave_len a' = apt_enabled_slave_len a
      + (if apt_slave_used a idx && negb (apt_slave_enabled a idx) then 1 else 0).
Proof using Ha Hidx.
  unfold apt_enable_slave_idx, apt_slave_used, apt_slave_enabled.
  destruct (apt_idx_in_range idx) eqn:Hr; cbn [negb andb]; cycle 1.
  { exists a. split; [done|]. split; [done|]. do 2 (split; [done|]).
    split; [intros; by rewrite orb_false_r|lia]. }
  apply in_range_iff in Hr; [|done]. rewrite !mask_bit_testbit by lia.
  destruct (Z.testbit (slave_used_mask a) idx) eqn:Hu; cbn [negb andb]; cycle 1.
  { exists a. split; [done|]. split; [done|]. do 2 (split; [done|]).
    split; [intros; by rewrite orb_false_r|lia]. }
  destruct (Z.testbit (slave_enabled_mask a) idx) eqn:He; cbn [negb].
  { exists a. split; [done|]. split; [done|]. do 2 (split; [done|]). split; [|lia].
    intros i Hi. destruct (Z.eqb_spec i idx) as [->|]; [|by rewrite orb_false_r].
    rewrite mask_bit_testbit, He by lia. rewrite (proj2 (in_range_iff _ Hidx)) by done. done. }
  destruct (push_slave_inv a idx Ha Hr Hu He) as (e & Hrun & Hinv & Hlen).
  rewrite Hrun, result_bind_ok. eexists; split; [done|]. split; [done|].
  do 2 (split; [done|]). split; [|unfold apt_enabled_slave_len; simpl; lia].
  intros i Hi. simpl. destruct (apt_idx_in_range i) eqn:Hri; cbn [andb].
  - apply in_range_iff in Hri; [|done]. rewrite !mask_bit_testbit by lia. apply testbit_set; lia.
  - destruct (Z.eqb_spec i idx) as [->|]; [|done].
    rewrite (proj2 (in_range_iff _ Hidx)) in Hri by done. done.
Qed.

Lemma disable_slave_spec :
  ∃ a', apt_disable_slave_idx a idx = Ok (apt_idx_in_range idx, a') ∧ apt_inv a' ∧
    slave_memory a' = slave_memory a ∧ slave_used_mask a' = slave_used_mask a ∧
    (∀ i, 0 <= i → apt_slave_enabled a' i = apt_slave_enabled a i && negb (i =? idx)) ∧
    apt_enabled_slave_len a' = apt_enabled_slave_len a
      - (if apt_slave_enabled a idx then 1 else 0).
Proof using Ha Hidx.
  unfold apt_disable_slave_idx, apt_slave_enabled.
  destruct (apt_idx_in_range idx) eqn:Hr; cbn [negb andb]; cycle 1.
  { exists a. split; [done|]. split; [done|]. do 2 (split; [done|]). split; [|lia].
    intros i Hi. destruct (Z.eqb_spec i idx) as [->|]; [by rewrite Hr|by rewrite andb_true_r]. }
  apply in_range_iff in Hr; [|done]. rewrite !mask_bit_testbit by lia.
  destruct (Z.testbit (slave_enabled_mask a) idx) eqn:He; cbn [negb]; cycle 1.
  { exists a. split; [done|]. split; [done|]. do 2 (split; [done|]). split; [|lia].
    intros i Hi. destruct (Z.eqb_spec i idx) as [->|]; [|by rewrite andb_true_r].
    by rewrite mask_bit_testbit, He, andb_false_r by lia. }
  destruct (pop_slave_inv a idx Ha Hr He) as (e & Hrun & Hinv & Hlen).
  rewrite Hrun, result_bind_ok. eexists; split; [done|]. split; [done|].
  do 2 (split; [done|]). split; [|unfold apt_enabled_slave_len; simpl; lia].
  intros i Hi. simpl. destruct (apt_idx_in_range i) eqn:Hri; cbn [andb]; [|done].
  apply in_range_iff in Hri; [|done]. rewrite !mask_bit_testbit by lia. apply testbit_clear; lia.
Qed.
End enable.

(** ** Shares *)

Lemma share_test_total m (f : master_share → bool) :
  master_ok m → ∀ k, 0 <= k < 0 + Z.of_nat (Z.to_nat CSM_MAX_MASTER_SHARES) →
  ∃ sh, shares m !! Z.to_nat k = Some sh ∧ (aget (shares m) k ≫= λ sh, Ok (f sh)) = Ok (f sh).
Proof.
  intros [Hl _] k Hk. destruct (aget_in_range (shares m) k) as (sh & Hg & Hsh); [lia|].
  exists sh. by rewrite Hg.
Qed.

Lemma share_slot_spec m sl :
  master_ok m → ∃ r, apt_find_master_share_slot m sl = Ok r ∧
    (0 <= r ∨ r = -1 ∧ sl ∉ slave_ID <$> List.filter in_use (shares m)).
Proof.
  intros Hm. unfold apt_find_master_share_slot.
  destruct (first_index_spec (Z.to_nat CSM_MAX_MASTER_SHARES) 0 (λ i,
    aget (shares m) i ≫= λ sh, Ok (in_use sh && (slave_ID sh =? sl)))) as (o & Hrun & Ho).
  { intros k Hk. destruct (share_test_total m (λ sh, in_use sh && (slave_ID sh =? sl)) Hm k Hk)
      as (sh & _ & H). eauto. }
  rewrite Hrun, result_bind_ok. eexists; split; [done|]. destruct o as [k|]; simpl; [left; lia|].
  right. split; [done|]. intros (sh & -> & Hin)%list_elem_of_fmap.
  apply list_elem_of_In, List.filter_In in Hin as [Hin Huse].
  apply list_elem_of_In, list_elem_of_lookup in Hin as [k Hk].
  destruct Hm as [Hl _]. pose proof (lookup_lt_Some _ _ _ Hk).
  specialize (Ho (Z.of_nat k) ltac:(lia)).
  rewrite (aget_lookup _ _ sh), result_bind_ok in Ho by (lia || by rewrite Nat2Z.id).
  by rewrite Huse, Z.eqb_refl in Ho.
Qed.

(** The new share takes the first free slot. *)
Lemma share_insert m sh :
  master_ok m → slave_ID sh ∉ slave_ID <$> List.filter in_use (shares m) → in_use sh = true →
  ∃ o, first_index (Z.to_nat CSM_MAX_MASTER_SHARES) 0 (λ i,
         aget (shares m) i ≫= λ sh, Ok (negb (in_use sh))) = Ok o ∧
    match o with
    | None => share_count m = CSM_MAX_MASTER_SHARES
    | Some i => ∃ shs, aset (shares m) i sh = Ok shs ∧
        master_ok {| m_region_ID := m_region_ID m; m_ipa_start := m_ipa_start m;
                     m_map_size := m_map_size m; share_count := u8 (share_count m + 1);
                     shares := shs |}
    end.
Proof.
  intros Hm Hfresh Huse.
  destruct (first_index_spec (Z.to_nat CSM_MAX_MASTER_SHARES) 0 (λ i,
    aget (shares m) i ≫= λ sh, Ok (negb (in_use sh)))) as (o & Hrun & Ho).
  { intros k Hk. destruct (share_test_total m (λ sh, negb (in_use sh)) Hm k Hk) as (x & _ & H). eauto. }
  exists o. split; [done|].
  assert (Htest := share_test_total m (λ sh, negb (in_use sh)) Hm).
  destruct Hm as (Hl & Hcnt & Hnd). change (Z.to_nat CSM_MAX_MASTER_SHARES) with 3%nat in *.
  destruct o as [i|].
  - destruct Ho as (Hi & Ht & _). destruct (Htest i Hi) as (old & Hold & Hrd).
    rewrite Ht in Hrd. injection Hrd as Hfree. symmetry in Hfree. apply negb_true_iff in Hfree.
    exists (<[Z.to_nat i := sh]> (shares m)). split; [apply aset_ok; lia|].
    pose proof (filter_insert_new in_use _ _ sh _ Hold Hfree Huse) as Hperm.
    pose proof (List.filter_length_le in_use (<[Z.to_nat i := sh]> (shares m))) as Hle.
    rewrite length_insert, Hl in Hle.
    rewrite Hperm in Hle. simpl in Hle. split; [simpl; by rewrite length_insert|]. cbn [share_count shares]. split.
    + rewrite Hperm. simpl. unfold u8. rewrite Hcnt, Z.mod_small by lia. lia.
    + rewrite Hperm. csimpl. by apply NoDup_cons.
  - rewrite Hcnt. change CSM_MAX_MASTER_SHARES with (Z.of_nat 3). f_equal. rewrite <- Hl. f_equal.
    apply List.forallb_filter_id, List.forallb_forall. intros x Hx.
    apply list_elem_of_In, list_elem_of_lookup in Hx as [k Hk].
    pose proof (lookup_lt_Some _ _ _ Hk). specialize (Ho (Z.of_nat k) ltac:(lia)).
    rewrite (aget_lookup _ _ x), result_bind_ok in Ho by (lia || by rewrite Nat2Z.id).
    injection Ho as Ho. by apply negb_false_iff.
Qed.

Lemma add_share_inv a idx sl pa perm :
  apt_inv a → 0 <= idx →
  ∃ b a', apt_master_add_share a idx sl pa perm = Ok (b, a') ∧ apt_inv a'.
Proof.
  intros Ha Hidx. unfold apt_master_add_share.
  destruct (apt_idx_in_range idx) eqn:Hr; cbn [negb]; [|by eauto].
  apply in_range_iff in Hr; [|done]. destruct (_ =? 0); [by eauto|].
  pose proof (ai_masters _ Ha) as Hlen. change (Z.to_nat MAX_MEM_REGIONS) with 20%nat in Hlen.
  destruct (aget_in_range (master_memory a) idx) as (m & Hm & Hm'); [lia|].
  rewrite Hm, result_bind_ok. pose proof (Forall_lookup_1 _ _ _ _ (ai_master_ok _ Ha) Hm') as Hok.
  destruct (share_slot_spec m sl Hok) as (r & Hr' & [Hr0|[-> Hfresh]]).
  { rewrite Hr', result_bind_ok, (proj2 (Z.leb_le 0 r)) by done. eauto. }
  rewrite Hr', result_bind_ok. cbn [Z.leb Z.compare].
  destruct (share_insert m (Build_master_share sl pa perm true) Hok Hfresh eq_refl) as (o & Ho & Hins).
  rewrite Ho, result_bind_ok. destruct o as [i|]; [|by eauto].
  destruct Hins as (shs & Hset & Hok'). rewrite Hset, result_bind_ok.
  rewrite aset_ok, result_bind_ok by lia. eexists _, _. split; [done|].
  split; try apply Ha; simpl; [by rewrite length_insert, Hlen|].
  apply Forall_insert; [apply Ha|done].
Qed.

(** * Sequences of operations *)

Inductive apt_op :=
| AReset
| AAddMaster (region_ID ipa_start map_size : Z) (enable_now : bool)
| AAddSlave (mst_ID region_ID mst_rd_pa ipa_start map_size : Z) (enable_now : bool)
| AEnableMaster (idx : Z)
| ADisableMaster (idx : Z)
| AEnableSlave (idx : Z)
| ADisableSlave (idx : Z)
| AAddShare (idx sl_ID sl_rd_pa perm : Z).

(** Indices are [size_t]. *)
Definition apt_op_ok (o : apt_op) : Prop :=
  match o with
  | AEnableMaster i | ADisableMaster i | AEnableSlave i | ADisableSlave i | AAddShare i _ _ _ => 0 <= i
  | _ => True
  end.

Definition apt_step (a : apt) (o : apt_op) : result apt :=
  match o with
  | AReset => Ok (apt_reset a)
  | AAddMaster rid ipa sz en => apt_add_master a rid ipa sz en ≫= λ r, Ok r.2
  | AAddSlave mid rid pa ipa sz en => apt_add_slave a mid rid pa ipa sz en ≫= λ r, Ok r.2
  | AEnableMaster i => apt_enable_master_idx a i ≫= λ r, Ok r.2
  | ADisableMaster i => apt_disable_master_idx a i ≫= λ r, Ok r.2
  | AEnableSlave i => apt_enable_slave_idx a i ≫= λ r, Ok r.2
  | ADisableSlave i => apt_disable_slave_idx a i ≫= λ r, Ok r.2
  | AAddShare i sl pa perm => apt_master_add_share a i sl pa perm ≫= λ r, Ok r.2
  end.

Fixpoint apt_exec (a : apt) (l : list apt_op) : result apt :=
  match l with
  | [] => Ok a
  | o :: l' => apt_step a o ≫= λ a', apt_exec a' l'
  end.

Lemma apt_step_inv a o : apt_inv a → apt_op_ok o → ∃ a', apt_step a o = Ok a' ∧ apt_inv a'.
Proof.
  intros Ha Ho. destruct o as [|rid ipa sz en|mid rid pa ipa sz en|i|i|i|i|i sl pa perm]; simpl in *.
  - exists apt_zero. split; [done|apply apt_inv_zero].
  - destruct (add_master_inv a rid ipa sz en Ha) as (r & a' & -> & ?). eauto.
  - destruct (add_slave_inv a mid rid pa ipa sz en Ha) as (r & a' & -> & ?). eauto.
  - destruct (enable_master_spec a i Ha Ho) as (a' & -> & ? & _). eauto.
  - destruct (disable_master_spec a i Ha Ho) as (a' & -> & ? & _). eauto.
  - destruct (enable_slave_spec a i Ha Ho) as (a' & -> & ? & _). eauto.
  - destruct (disable_slave_spec a i Ha Ho) as (a' & -> & ? & _). eauto.
  - destruct (add_share_inv a i sl pa perm Ha Ho) as (r & a' & -> & ?). eauto.
Qed.

(** C19: every sequence of table operations, from a zeroed table and with any
    arguments, runs without an access outside an array and keeps the table
    consistent: the packed array of enabled regions and its inverse agree with each
    other and with the mask, enabled regions are used ones, and every master region
    counts its shares and has no slave twice. *)
Theorem apt_ops_safe ops :
  Forall apt_op_ok ops → ∃ a, apt_exec apt_zero ops = Ok a ∧ apt_inv a.
Proof.
  intros Hops. assert (H : ∀ a, apt_inv a → ∃ a', apt_exec a ops = Ok a' ∧ apt_inv a').
  { induction Hops as [|o ops Ho _ IH]; intros a Ha; simpl; [by eauto|].
    destruct (apt_step_inv a o Ha Ho) as (a' & -> & Ha'). by apply IH. }
  apply H, apt_inv_zero.
Qed.

Lemma apt_ops_safe_witness :
  ∃ a, apt_exec apt_zero
         [AAddMaster 7 4096 8192 true; AAddShare 0 2 4096 1; AAddMaster 8 65536 4096 true;
          ADisableMaster 0; AEnableMaster 25] = Ok a ∧ apt_inv a.
Proof.
  apply apt_ops_safe. repeat (apply Forall_cons; split; [simpl; auto; lia|]). apply Forall_nil. exact I.
Defined.

(** Enabling and disabling are set operations: from a consistent table, enabling an
    index succeeds exactly when the region is used, and then adds exactly that index to
    the enabled set; disabling succeeds on every index in range and removes exactly that
    index; lengths follow, and regions and used masks do not change. *)
Theorem apt_enable_disable_sets a idx :
  apt_inv a → 0 <= idx →
  (∃ a', apt_enable_master_idx a idx = Ok (apt_master_used a idx, a') ∧
     master_memory a' = master_memory a ∧ master_used_mask a' = master_used_mask a ∧
     (∀ i, 0 <= i → apt_master_enabled a' i
           = apt_master_enabled a i || (apt_master_used a idx && (i =? idx))) ∧
     apt_enabled_master_len a' = apt_enabled_master_len a
       + (if apt_master_used a idx && negb (apt_master_enabled a idx) then 1 else 0)) ∧
  (∃ a', apt_disable_slave_idx a idx = Ok (apt_idx_in_range idx, a') ∧
     slave_memory a' = slave_memory a ∧ slave_used_mask a' = slave_used_mask a ∧
     (∀ i, 0 <= i → apt_slave_enabled a' i = apt_slave_enabled a i && negb (i =? idx)) ∧
     apt_enabled_slave_len a' = apt_enabled_slave_len a
       - (if apt_slave_enabled a idx then 1 else 0)).
Proof.
  intros Ha Hi. split.
  - destruct (enable_master_spec a idx Ha Hi) as (a' & ? & _ & ?). eauto.
  - destruct (disable_slave_spec a idx Ha Hi) as (a' & ? & _ & ?). eauto.
Qed.

Lemma apt_enable_disable_sets_witness :
  ∃ a', apt_enable_master_idx apt_zero 3 = Ok (false, a') ∧ apt_enabled_master_len a' = 0.
Proof.
  destruct (apt_enable_disable_sets apt_zero 3 apt_inv_zero) as [(a' & Hr & _ & _ & _ & Hl) _]; [lia|].
  exists a'. split; [exact Hr | exact Hl].
Defined.

(** * Conflicts *)

(** The addresses of a region of [size] bytes from [start]. *)
Definition in_region (x start sz : Z) : Prop := start <= x < start + sz.

(** For regions that end below 2^64 the test is intersection; a region that does not
    is reported as a conflict. *)
Lemma range_overlaps_iff a_start a_size b_start b_size :
  is_u64 a_start → is_u64 a_size → is_u64 b_start → is_u64 b_size →
  range_overlaps_ul a_start a_size b_start b_size = true ↔
    0 < a_size ∧ 0 < b_size ∧
    (2 ^ 64 <= a_start + a_size ∨ 2 ^ 64 <= b_start + b_size ∨
     ∃ x, in_region x a_start a_size ∧ in_region x b_start b_size).
Proof.
  unfold is_u64, range_overlaps_ul, in_region. intros Has Haz Hbs Hbz.
  assert (Hwrap : ∀ x y, 0 <= x < 2 ^ 64 → 0 <= y < 2 ^ 64 →
    (x .+ y = x + y ∧ x + y < 2 ^ 64) ∨ (x .+ y = x + y - 2 ^ 64 ∧ 2 ^ 64 <= x + y)).
  { intros x y Hx Hy. unfold u64. destruct (Z.lt_ge_cases (x + y) (2 ^ 64)).
    - left. rewrite Z.mod_small by lia. lia.
    - right. rewrite <- (Z.mod_unique (x + y) (2 ^ 64) 1 (x + y - 2 ^ 64)) by lia. lia. }
  destruct (Z.eqb_spec a_size 0), (Z.eqb_spec b_size 0); simpl; try (split; [done|lia]).
  destruct (Hwrap a_start a_size Has Haz) as [[-> Ha]|[-> Ha]],
    (Hwrap b_start b_size Hbs Hbz) as [[-> Hb]|[-> Hb]].
  2-4: rewrite ?(proj2 (Z.ltb_lt (a_start + a_size - 2 ^ 64) a_start)) by lia;
    rewrite ?(proj2 (Z.ltb_lt (b_start + b_size - 2 ^ 64) b_start)) by lia;
    rewrite ?orb_true_r, ?orb_true_l; split; [lia|done].
  rewrite !(proj2 (Z.ltb_ge _ _)) by lia. simpl. rewrite negb_true_iff, orb_false_iff, !Z.leb_gt. split.
  - intros [??]. split; [lia|]. split; [lia|]. right; right. exists (Z.max a_start b_start). lia.
  - intros (_ & _ & [?|[?|(x & ? & ?)]]); lia.
Qed.

(** Region [idx] of the given kind is enabled and its range tests positive. *)
Definition conflicts (a : apt) (ipa_start map_size : Z) (c : apt_region_kind * Z) : Prop :=
  match c with
  | (APT_REGION_MASTER, idx) =>
      apt_master_enabled a idx = true ∧ ∃ m, master_memory a !! Z.to_nat idx = Some m ∧
      range_overlaps_ul ipa_start map_size (m_ipa_start m) (m_map_size m) = true
  | (APT_REGION_SLAVE, idx) =>
      apt_slave_enabled a idx = true ∧ ∃ m, slave_memory a !! Z.to_nat idx = Some m ∧
      range_overlaps_ul ipa_start map_size (s_ipa_start m) (s_map_size m) = true
  end.

(** Scanning the packed array visits exactly the enabled regions. *)
Lemma enabled_scan {A} (e : enabled_regions) (mask : Z) (regions : list A) (f : A → bool) :
  einv e mask → length regions = Z.to_nat MAX_MEM_REGIONS →
  ∃ o, first_index (Z.to_nat (elen e)) 0 (λ pos,
         aget (eindex e) pos ≫= λ idx, aget regions idx ≫= λ m, Ok (f m)) = Ok o ∧
    match o with
    | Some pos => ∃ idx m, aget (eindex e) pos = Ok idx ∧ 0 <= idx < 20 ∧
        Z.testbit mask idx = true ∧ regions !! Z.to_nat idx = Some m ∧ f m = true
    | None => ∀ idx m, 0 <= idx < 20 → Z.testbit mask idx = true →
        regions !! Z.to_nat idx = Some m → f m = false
    end.
Proof.
  intros He Hl. change (Z.to_nat MAX_MEM_REGIONS) with 20%nat in Hl.
  assert (Hvisit : ∀ pos, 0 <= pos < 0 + Z.of_nat (Z.to_nat (elen e)) →
    ∃ i m, eindex e !! Z.to_nat pos = Some (Z.of_nat i) ∧ (i < 20)%nat ∧
      Z.testbit mask (Z.of_nat i) = true ∧ regions !! i = Some m ∧
      (aget (eindex e) pos ≫= λ idx, aget regions idx ≫= λ m, Ok (f m)) = Ok (f m)).
  { intros pos Hpos. destruct (ei_fwd _ _ He (Z.to_nat pos)) as (i & Hpi & Hi & Hb & _); [lia|].
    destruct (lookup_lt_is_Some_2 regions i) as [m Hm]; [lia|]. exists i, m.
    rewrite (aget_lookup (eindex e) _ (Z.of_nat i)), result_bind_ok by (done || lia).
    rewrite (aget_lookup regions _ m) by (lia || by rewrite Nat2Z.id). done. }
  destruct (first_index_spec (Z.to_nat (elen e)) 0 (λ pos,
    aget (eindex e) pos ≫= λ idx, aget regions idx ≫= λ m, Ok (f m))) as (o & Hrun & Ho).
  { intros k Hk. destruct (Hvisit k Hk) as (i & m & _ & _ & _ & _ & H). eauto. }
  exists o. split; [done|]. destruct o as [pos|].
  - destruct Ho as (Hpos & Ht & _). destruct (Hvisit pos Hpos) as (i & m & Hpi & Hi & Hb & Hm & Hv).
    exists (Z.of_nat i), m. split; [by apply aget_lookup; [lia|]|]. split; [lia|]. split; [done|].
    rewrite Nat2Z.id. split; [done|]. rewrite Ht in Hv. congruence.
  - intros idx m Hi Hb Hm. destruct (ei_bwd _ _ He (Z.to_nat idx)) as (p & Hp & _ & Hpi);
      [lia|by rewrite Z2Nat.id by lia|].
    rewrite Z2Nat.id in Hpi by lia. specialize (Ho (Z.of_nat p) ltac:(lia)).
    rewrite (aget_lookup (eindex e) _ idx), result_bind_ok in Ho by (lia || by rewrite Nat2Z.id).
    rewrite (aget_lookup regions _ m), result_bind_ok in Ho by (done || lia). congruence.
Qed.

Lemma conflicts_master a start sz i :
  0 <= i → conflicts a start sz (APT_REGION_MASTER, i) ↔
    i < 20 ∧ Z.testbit (master_enabled_mask a) i = true ∧
    ∃ m, master_memory a !! Z.to_nat i = Some m ∧
         range_overlaps_ul start sz (m_ipa_start m) (m_map_size m) = true.
Proof.
  intros Hi. unfold conflicts, apt_master_enabled. rewrite andb_true_iff, in_range_iff by done. split.
  - intros [[? Hb] ?]. rewrite mask_bit_testbit in Hb by lia. split; [lia|done].
  - intros (? & ? & ?). rewrite mask_bit_testbit by lia. done.
Qed.

Lemma conflicts_slave a start sz i :
  0 <= i → conflicts a start sz (APT_REGION_SLAVE, i) ↔
    i < 20 ∧ Z.testbit (slave_enabled_mask a) i = true ∧
    ∃ m, slave_memory a !! Z.to_nat i = Some m ∧
         range_overlaps_ul start sz (s_ipa_start m) (s_map_size m) = true.
Proof.
  intros Hi. unfold conflicts, apt_slave_enabled. rewrite andb_true_iff, in_range_iff by done. split.
  - intros [[? Hb] ?]. rewrite mask_bit_testbit in Hb by lia. split; [lia|done].
  - intros (? & ? & ?). rewrite mask_bit_testbit by lia. done.
Qed.

Lemma master_scan a start sz :
  apt_inv a →
  ∃ o, first_index (Z.to_nat (elen (enabled_mr a))) 0 (λ pos,
         aget (eindex (enabled_mr a)) pos ≫= λ idx, aget (master_memory a) idx ≫= λ m,
         Ok (range_overlaps_ul start sz (m_ipa_start m) (m_map_size m))) = Ok o ∧
    match o with
    | Some pos => ∃ idx, aget (eindex (enabled_mr a)) pos = Ok idx ∧
                         conflicts a start sz (APT_REGION_MASTER, idx)
    | None => ∀ i, 0 <= i → ¬ conflicts a start sz (APT_REGION_MASTER, i)
    end.
Proof.
  intros Ha.
  destruct (enabled_scan _ _ _ (λ m, range_overlaps_ul start sz (m_ipa_start m) (m_map_size m))
              (ai_mr _ Ha) (ai_masters _ Ha)) as (o & Hrun & Ho). exists o. split; [done|].
  destruct o as [pos|].
  - destruct Ho as (idx & m & Hg & Hi & Hb & Hl & Hf). exists idx. split; [done|].
    apply conflicts_master; [lia|]. split; [lia|]. eauto.
  - intros i Hi (Hi20 & Hb & m & Hl & Hf)%conflicts_master; [|done].
    by rewrite (Ho i m) in Hf.
Qed.

Lemma slave_scan a start sz :
  apt_inv a →
  ∃ o, first_index (Z.to_nat (elen (enabled_sr a))) 0 (λ pos,
         aget (eindex (enabled_sr a)) pos ≫= λ idx, aget (slave_memory a) idx ≫= λ m,
         Ok (range_overlaps_ul start sz (s_ipa_start m) (s_map_size m))) = Ok o ∧
    match o with
    | Some pos => ∃ idx, aget (eindex (enabled_sr a)) pos = Ok idx ∧
                         conflicts a start sz (APT_REGION_SLAVE, idx)
    | None => ∀ i, 0 <= i → ¬ conflicts a start sz (APT_REGION_SLAVE, i)
    end.
Proof.
  intros Ha.
  destruct (enabled_scan _ _ _ (λ m, range_overlaps_ul start sz (s_ipa_start m) (s_map_size m))
              (ai_sr _ Ha) (ai_slaves _ Ha)) as (o & Hrun & Ho). exists o. split; [done|].
  destruct o as [pos|].
  - destruct Ho as (idx & m & Hg & Hi & Hb & Hl & Hf). exists idx. split; [done|].
    apply conflicts_slave; [lia|]. split; [lia|]. eauto.
  - intros i Hi (Hi20 & Hb & m & Hl & Hf)%conflicts_slave; [|done].
    by rewrite (Ho i m) in Hf.
Qed.

Lemma conflict_search a ipa_start map_size skip :
  apt_inv a →
  ∃ o, apt_find_enabled_conflict a ipa_start map_size skip = Ok o ∧
    match o with
    | Some c => conflicts a ipa_start map_size c ∧ (skip = true → ∃ i, c = (APT_REGION_SLAVE, i))
    | None => ∀ k i, 0 <= i → (skip = true → k = APT_REGION_SLAVE) →
                ¬ conflicts a ipa_start map_size (k, i)
    end.
Proof.
  intros Ha. unfold apt_find_enabled_conflict.
  destruct (master_scan a ipa_start map_size Ha) as (om & Hm & Hom).
  destruct (slave_scan a ipa_start map_size Ha) as (os & Hs & Hos).
  rewrite Hm, Hs.
  destruct skip; cbn [negb]; rewrite result_bind_ok.
  - rewrite result_bind_ok. destruct os as [pos|].
    + destruct Hos as (idx & -> & Hc). rewrite result_bind_ok. eexists; split; [done|]. split; [done|]. eauto.
    + exists None. split; [done|]. intros k i Hi Hk. rewrite (Hk eq_refl). by apply Hos.
  - destruct om as [pos|].
    + destruct Hom as (idx & -> & Hc). rewrite result_bind_ok. eexists; split; [done|]. done.
    + rewrite result_bind_ok. destruct os as [pos|].
      * destruct Hos as (idx & -> & Hc). rewrite result_bind_ok. eexists; split; [done|]. done.
      * exists None. split; [done|]. intros [] i Hi _; [by apply Hom | by apply Hos].
Qed.

(** The search for conflicts is exact: on a consistent table it returns, a reported
    region is enabled and overlaps, and when it reports none no enabled slave region
    overlaps the range, nor any enabled master region unless the caller asked to skip
    those. *)
Theorem apt_find_enabled_conflict_exact a ipa_start map_size skip :
  apt_inv a →
  ∃ o, apt_find_enabled_conflict a ipa_start map_size skip = Ok o ∧
    match o with
    | Some c => conflicts a ipa_start map_size c ∧ (skip = true → ∃ i, c = (APT_REGION_SLAVE, i))
    | None => ∀ k i, 0 <= i → (skip = true → k = APT_REGION_SLAVE) →
                ¬ conflicts a ipa_start map_size (k, i)
    end.
Proof. apply conflict_search. Qed.

Lemma apt_find_enabled_conflict_exact_witness :
  ∃ o, apt_find_enabled_conflict apt_zero 4096 4096 false = Ok o ∧ o = None.
Proof.
  destruct (apt_find_enabled_conflict_exact apt_zero 4096 4096 false apt_inv_zero) as (o & Hr & Ho).
  exists o. split; [exact Hr|]. destruct o as [[k i]|]; [|reflexivity].
  vm_compute in Hr. discriminate.
Defined.

(** Sharing identifiers: the three identifiers packed into a sharing identifier are
    all recovered from it. *)
Theorem sharing_id_roundtrip r m sl :
  0 <= r < 256 → 0 <= m < 256 → 0 <= sl < 256 →
  apt_sharing_region_id (apt_make_sharing_id r m sl) = r ∧
  apt_sharing_master_id (apt_make_sharing_id r m sl) = m ∧
  apt_sharing_slave_id (apt_make_sharing_id r m sl) = sl.
Proof.
  intros Hr Hm Hs. unfold apt_make_sharing_id, u32.
  rewrite !Z.shiftl_mul_pow2 by lia. rewrite (Z.mod_small (r * _)), (Z.mod_small (m * _)) by lia.
  assert (Hin : ∀ k x, 0 <= k → 0 <= x < 256 → inmask (255 * 2 ^ k) (x * 2 ^ k)).
  { intros k x Hk Hx. unfold inmask. rewrite <- !Z.shiftl_mul_pow2, <- Z.shiftl_land by lia.
    f_equal. change 255 with (2 ^ 8 - 1). rewrite land_ones_mod by lia. by apply Z.mod_small. }
  pose proof (Hin 16 r ltac:(lia) Hr) as H16. pose proof (Hin 8 m ltac:(lia) Hm) as H8.
  pose proof (Hin 0 sl ltac:(lia) Hs) as H0. change (2 ^ 0) with 1 in H0. rewrite !Z.mul_1_r in H0.
  rewrite (lor_add (Z.lor _ _) sl) by (mask_simpl; done).
  rewrite (lor_add (r * _)) by (mask_simpl; done).
  unfold apt_sharing_region_id, apt_sharing_master_id, apt_sharing_slave_id, u8.
  rewrite !Z.shiftr_div_pow2 by lia. change 255 with (2 ^ 8 - 1). rewrite !land_ones_mod by lia.
  change (2 ^ 8) with 256. change (2 ^ 16) with 65536.
  split; [|split]; Z.div_mod_to_equations; lia.
Qed.

Lemma sharing_id_roundtrip_witness :
  apt_sharing_region_id (apt_make_sharing_id 200 17 255) = 200.
Proof. apply (sharing_id_roundtrip 200 17 255); lia. Defined.
