(* ===== verification/RealmTag.v ===== *)
(** The registry of realm tags (runtime/core/realm_tag.c): each realm gets an 8-bit tag
    that identifies it as the owner of granules. Tags of live realms are distinct, and
    the bounded search for a fresh tag always succeeds while a slot is free. *)
From S2P Require Import Prelude Types.

Definition CONFIG_MAX_REALMS : Z := 10.

Definition k_default_tags : list Z := [17; 34; 51; 68; 85; 102; 119; 136; 153; 170].

Definition set_tag_entries (l : list tag_entry) (r : tag_registry) : tag_registry :=
  {| g_tags := l; g_tag_lock := g_tag_lock r; g_tag_next_index := g_tag_next_index r;
     g_tag_counter := g_tag_counter r |}.
Definition set_tag_lock (b : bool) (r : tag_registry) : tag_registry :=
  {| g_tags := g_tags r; g_tag_lock := b; g_tag_next_index := g_tag_next_index r;
     g_tag_counter := g_tag_counter r |}.
Definition set_tag_next_index (i : Z) (r : tag_registry) : tag_registry :=
  {| g_tags := g_tags r; g_tag_lock := g_tag_lock r; g_tag_next_index := i;
     g_tag_counter := g_tag_counter r |}.
Definition set_tag_counter (c : Z) (r : tag_registry) : tag_registry :=
  {| g_tags := g_tags r; g_tag_lock := g_tag_lock r; g_tag_next_index := g_tag_next_index r;
     g_tag_counter := c |}.

(** [spinlock_acquire(&g_tag_lock)]: a lock that is held is never released by a
    sequential execution. *)
Definition tag_lock_acquire : M tag_registry () :=
  gets g_tag_lock ≫= λ b, if (b : bool) then mfault FHang else mmodify (set_tag_lock true).
Definition tag_lock_release : M tag_registry () := mmodify (set_tag_lock false).

Definition realm_tag_generate_next : M tag_registry Z :=
  gets g_tag_next_index ≫= λ i,
  if i <? Z.of_nat (length k_default_tags) then
    lift (aget k_default_tags i) ≫= λ t,
    mmodify (set_tag_next_index (i + 1)) ≫= λ _,
    mret (if t =? 0 then 1 else t)
  else
    gets g_tag_counter ≫= λ c,
    mmodify (set_tag_counter (u8 (c + 1))) ≫= λ _,
    let candidate := u8 (Z.lxor 240 c) in
    mret (if candidate =? 0 then 1 else candidate).

(** The three loops over the registry. *)
Definition scan_tags (test : tag_entry → bool) : M tag_registry (option Z) :=
  gets g_tags ≫= λ tags,
  lift (first_index (Z.to_nat CONFIG_MAX_REALMS) 0 (λ i, aget tags i ≫= λ e, Ok (test e))).

Definition find_slot_by_rd (rd_pa : Z) : M tag_registry Z :=
  scan_tags (λ e, te_in_use e && (te_rd_pa e =? rd_pa)) ≫= λ o, mret (or_minus1 o).
Definition find_free_slot : M tag_registry Z :=
  scan_tags (λ e, negb (te_in_use e)) ≫= λ o, mret (or_minus1 o).
Definition tag_collides (tag : Z) : M tag_registry bool :=
  scan_tags (λ e, te_in_use e && (te_tag e =? tag)) ≫= λ o, mret (bool_decide (is_Some o)).

Definition tag_entry_zero : tag_entry := {| te_rd_pa := 0; te_tag := 0; te_in_use := false |}.

Definition realm_tag_init (r : tag_registry) : tag_registry :=
  {| g_tags := replicate (Z.to_nat CONFIG_MAX_REALMS) tag_entry_zero; g_tag_lock := g_tag_lock r;
     g_tag_next_index := 0; g_tag_counter := 1 |}.

(** The [do ... while (tag_collides(tag))] loop; [None] is the exit after too many
    collisions. The 17th iteration leaves the loop, so 17 rounds of fuel are enough. *)
Fixpoint assign_loop (fuel : nat) (tries : Z) : M tag_registry (option Z) :=
  match fuel with
  | O => mfault FHang
  | S fuel' =>
      realm_tag_generate_next ≫= λ tag,
      let tries := tries + 1 in
      if 16 <? tries then mret None
      else
        tag_collides tag ≫= λ c,
        if (c : bool) then assign_loop fuel' tries else mret (Some tag)
  end.

(** [Some tag] is the answer [true] with [*out_tag = tag]. *)
Definition realm_tag_assign (rd_pa : Z) : M tag_registry (option Z) :=
  tag_lock_acquire ≫= λ _,
  (find_slot_by_rd rd_pa ≫= λ i,
   if 0 <=? i then mret None
   else
     find_free_slot ≫= λ slot,
     if slot <? 0 then mret None
     else
       assign_loop 17 0 ≫= λ o,
       match o with
       | None => mret None
       | Some tag =>
           gets g_tags ≫= λ tags,
           lift (aset tags slot {| te_rd_pa := rd_pa; te_tag := tag; te_in_use := true |}) ≫= λ tags,
           mmodify (set_tag_entries tags) ≫= λ _, mret (Some tag)
       end) ≫= λ ok,
  tag_lock_release ≫= λ _, mret ok.

Definition realm_tag_get_by_rd (rd_pa : Z) : M tag_registry (option Z) :=
  tag_lock_acquire ≫= λ _,
  (find_slot_by_rd rd_pa ≫= λ idx,
   if 0 <=? idx then
     gets g_tags ≫= λ tags, lift (aget tags idx) ≫= λ e, mret (Some (te_tag e))
   else mret None) ≫= λ ok,
  tag_lock_release ≫= λ _, mret ok.

Definition realm_tag_remove (rd_pa : Z) : M tag_registry bool :=
  tag_lock_acquire ≫= λ _,
  (find_slot_by_rd rd_pa ≫= λ idx,
   if 0 <=? idx then
     gets g_tags ≫= λ tags, lift (aset tags idx tag_entry_zero) ≫= λ tags,
     mmodify (set_tag_entries tags) ≫= λ _, mret true
   else mret false) ≫= λ ok,
  tag_lock_release ≫= λ _, mret ok.

Definition realm_tag_exists (tag : Z) : M tag_registry bool :=
  if tag =? 0 then mret false
  else
    tag_lock_acquire ≫= λ _,
    scan_tags (λ e, te_in_use e && (te_tag e =? tag)) ≫= λ o,
    tag_lock_release ≫= λ _, mret (bool_decide (is_Some o)).

(** [Some rd_pa] is the answer [true] with the address stored. *)
Definition realm_tag_rd_by_tag (tag : Z) : M tag_registry (option Z) :=
  if tag =? 0 then mret None
  else
    tag_lock_acquire ≫= λ _,
    (scan_tags (λ e, te_in_use e && (te_tag e =? tag)) ≫= λ o,
     match o with
     | None => mret None
     | Some i => gets g_tags ≫= λ tags, lift (aget tags i) ≫= λ e, mret (Some (te_rd_pa e))
     end) ≫= λ ok,
    tag_lock_release ≫= λ _, mret ok.

(** * The generator *)

(** [realm_tag_generate_next] on the pair of next index and counter. *)
Definition gen_step (g : Z * Z) : Z * (Z * Z) :=
  if g.1 <? 10 then
    let t := nth (Z.to_nat g.1) k_default_tags 0 in
    (if t =? 0 then 1 else t, (g.1 + 1, g.2))
  else
    let candidate := u8 (Z.lxor 240 g.2) in
    (if candidate =? 0 then 1 else candidate, (g.1, u8 (g.2 + 1))).

Fixpoint candidates (n : nat) (g : Z * Z) : list Z :=
  match n with
  | O => []
  | S n' => (gen_step g).1 :: candidates n' (gen_step g).2
  end.

(** The counter starts to move once the default tags are exhausted. *)
Definition gen_ok (g : Z * Z) : Prop :=
  0 <= g.1 <= 10 ∧ 0 <= g.2 < 256 ∧ (g.1 < 10 → g.2 = 1).

Definition set_gen (g : Z * Z) (r : tag_registry) : tag_registry :=
  set_tag_next_index g.1 (set_tag_counter g.2 r).
Definition get_gen (r : tag_registry) : Z * Z := (g_tag_next_index r, g_tag_counter r).

Definition all_gens : list (Z * Z) :=
  ((λ i, (Z.of_nat i, 1)) <$> seq 0 10) ++ ((λ c, (10, Z.of_nat c)) <$> seq 0 256).

Lemma gen_ok_in g : gen_ok g → g ∈ all_gens.
Proof.
  destruct g as [n c]. intros (Hn & Hc & Hnc). simpl in *. apply elem_of_app.
  destruct (decide (n = 10)) as [->|].
  - right. apply list_elem_of_fmap. exists (Z.to_nat c). split; [f_equal; lia|]. apply elem_of_seq. lia.
  - left. apply list_elem_of_fmap. exists (Z.to_nat n).
    rewrite Hnc by lia. split; [f_equal; lia|]. apply elem_of_seq. lia.
Qed.

(** Sixteen consecutive candidates have at least ten distinct values, all of them
    non-zero bytes, from every state of the generator. *)
Lemma candidates_distinct g : gen_ok g → (10 <= length (remove_dups (candidates 16 g)))%nat.
Proof.
  intros Hg%gen_ok_in. revert g Hg.
  assert (H : forallb (λ g, (10 <=? length (remove_dups (candidates 16 g)))%nat) all_gens = true)
    by (vm_compute; reflexivity).
  rewrite List.forallb_forall in H. intros g Hg%list_elem_of_In. by apply Nat.leb_le, H.
Qed.

Lemma gen_step_ok g : gen_ok g → gen_ok (gen_step g).2 ∧ 0 < (gen_step g).1 < 256.
Proof.
  intros Hg%gen_ok_in. revert g Hg.
  assert (H : forallb (λ g, let '(t, (n, c)) := gen_step g in
      (0 <=? n) && (n <=? 10) && (0 <=? c) && (c <? 256) && ((n =? 10) || (c =? 1))
      && (0 <? t) && (t <? 256)) all_gens = true) by (vm_compute; reflexivity).
  rewrite List.forallb_forall in H. intros g Hg%list_elem_of_In. specialize (H g Hg).
  destruct (gen_step g) as [t [n c]]. unfold gen_ok. simpl in *. lia.
Qed.

Lemma generate_next_run r :
  gen_ok (get_gen r) →
  realm_tag_generate_next r = Ok ((gen_step (get_gen r)).1, set_gen (gen_step (get_gen r)).2 r).
Proof.
  intros (Hn & _ & _). simpl in Hn. unfold realm_tag_generate_next, gen_step.
  run_step eq_refl. cbn [get_gen fst snd]. change (Z.of_nat (length k_default_tags)) with 10.
  destruct (Z.ltb_spec (g_tag_next_index r) 10).
  - assert (Hget : aget k_default_tags (g_tag_next_index r)
                   = Ok (nth (Z.to_nat (g_tag_next_index r)) k_default_tags 0)).
    { apply aget_lookup; [lia|].
      destruct (nth_lookup_or_length k_default_tags (Z.to_nat (g_tag_next_index r)) 0); [done|].
      simpl in *. lia. }
    by run_step (lift_run _ _ _ Hget).
  - by run_step eq_refl.
Qed.

(** * The registry invariant *)

Definition live (r : tag_registry) : list tag_entry := List.filter te_in_use (g_tags r).

Record tag_inv (r : tag_registry) : Prop := {
  ti_len : length (g_tags r) = Z.to_nat CONFIG_MAX_REALMS;
  ti_lock : g_tag_lock r = false;
  ti_gen : gen_ok (get_gen r);
  ti_tags : NoDup (te_tag <$> live r);
  ti_rds : NoDup (te_rd_pa <$> live r);
  ti_nz : Forall (λ e, 0 < te_tag e < 256) (live r);
}.

(** Realm [rd] has tag [t]. *)
Definition registered (r : tag_registry) (rd t : Z) : Prop :=
  ∃ e, e ∈ live r ∧ te_rd_pa e = rd ∧ te_tag e = t.

Lemma scan_tags_run test r :
  length (g_tags r) = Z.to_nat CONFIG_MAX_REALMS →
  ∃ o, scan_tags test r = Ok (o, r) ∧
    match o with
    | Some i => 0 <= i < 10 ∧ ∃ e, g_tags r !! Z.to_nat i = Some e ∧ test e = true
    | None => ∀ e, e ∈ g_tags r → test e = false
    end.
Proof.
  intros Hl. destruct (scan_array (g_tags r) _ test Hl) as (o & Hrun & Ho). exists o. split; [|done].
  unfold scan_tags. run_step eq_refl. by rewrite (lift_run _ _ _ Hrun).
Qed.

Lemma assign_loop_S fuel tries :
  assign_loop (S fuel) tries
  = realm_tag_generate_next ≫= λ tag,
    let tries := tries + 1 in
    if 16 <? tries then mret None
    else tag_collides tag ≫= λ c, if (c : bool) then assign_loop fuel tries else mret (Some tag).
Proof. done. Qed.

(** The search for a fresh tag: [fuel] iterations are left, the last of which gives up. *)
Lemma assign_loop_fresh fuel r :
  length (g_tags r) = Z.to_nat CONFIG_MAX_REALMS → gen_ok (get_gen r) → (fuel <= 16)%nat →
  (∃ c, c ∈ candidates fuel (get_gen r) ∧ c ∉ te_tag <$> live r) →
  ∃ t g, assign_loop (S fuel) (16 - Z.of_nat fuel) r = Ok (Some t, set_gen g r) ∧
    gen_ok g ∧ 0 < t < 256 ∧ t ∉ te_tag <$> live r.
Proof.
  revert r. induction fuel as [|fuel IH]; intros r Hl Hg Hf (c & Hc & Hfree).
  { by apply not_elem_of_nil in Hc. }
  destruct (gen_step_ok _ Hg) as [Hg' Ht].
  rewrite assign_loop_S. run_step (generate_next_run r Hg). cbv zeta.
  rewrite (proj2 (Z.ltb_ge 16 _)) by lia.
  set (t := (gen_step (get_gen r)).1) in *. set (r1 := set_gen (gen_step (get_gen r)).2 r).
  unfold tag_collides.
  destruct (scan_tags_run (λ e, te_in_use e && (te_tag e =? t)) r1 Hl) as (o & Hrun & Ho).
  rewrite bind_assoc. run_step Hrun. run_step eq_refl. destruct o as [i|].
  - rewrite bool_decide_eq_true_2 by eauto.
    replace (16 - Z.of_nat (S fuel) + 1) with (16 - Z.of_nat fuel) by lia.
    destruct Ho as (_ & e & He & [Hu Hte]%andb_true_iff). apply Z.eqb_eq in Hte.
    assert (Hin : t ∈ te_tag <$> live r).
    { apply list_elem_of_fmap. exists e. split; [done|]. apply elem_of_filter_list. split; [|done].
      by eapply list_elem_of_lookup_2. }
    destruct (IH r1) as (t' & g & Hr & ?); [done|done|lia| |].
    { exists c. split; [|done]. simpl in Hc. apply elem_of_cons in Hc as [->|Hc]; [done|].
      by destruct (gen_step (get_gen r)) as [? []]. }
    exists t', g. by rewrite Hr.
  - rewrite bool_decide_eq_false_2 by (by intros []). eexists _, _. split; [done|].
    split; [done|]. split; [done|]. intros (e & Hte & He)%list_elem_of_fmap.
    apply elem_of_filter_list in He as [He Hu]. specialize (Ho e He).
    by rewrite Hu, <- Hte, Z.eqb_refl in Ho.
Qed.

(** * The operations *)

Lemma lock_run r : g_tag_lock r = false → tag_lock_acquire r = Ok ((), set_tag_lock true r).
Proof. intros H. unfold tag_lock_acquire. run_step eq_refl. by rewrite H. Qed.

Lemma set_tag_lock_back r : g_tag_lock r = false → set_tag_lock false (set_tag_lock true r) = r.
Proof. destruct r; simpl. by intros ->. Qed.

Lemma registered_iff r rd t :
  registered r rd t ↔ ∃ e, e ∈ g_tags r ∧ te_in_use e = true ∧ te_rd_pa e = rd ∧ te_tag e = t.
Proof.
  unfold registered, live. split.
  - intros (e & [He Hu]%elem_of_filter_list & ?). eauto.
  - intros (e & He & Hu & ?). exists e. split; [|done]. by apply elem_of_filter_list.
Qed.

Lemma find_slot_run r rd :
  length (g_tags r) = Z.to_nat CONFIG_MAX_REALMS →
  ∃ i, find_slot_by_rd rd r = Ok (i, r) ∧
    ((0 <= i < 10 ∧ ∃ e, g_tags r !! Z.to_nat i = Some e ∧ te_in_use e = true ∧ te_rd_pa e = rd)
     ∨ (i = -1 ∧ ∀ t, ¬ registered r rd t)).
Proof.
  intros Hl. unfold find_slot_by_rd.
  destruct (scan_tags_run (λ e, te_in_use e && (te_rd_pa e =? rd)) r Hl) as (o & Hrun & Ho).
  run_step Hrun. eexists; split; [done|]. destruct o as [i|]; simpl.
  - left. destruct Ho as (Hi & e & He & [Hu Hr%Z.eqb_eq]%andb_true_iff). eauto.
  - right. split; [done|]. intros t (e & He & Hu & Hr & _)%registered_iff. specialize (Ho e He).
    by rewrite Hu, Hr, Z.eqb_refl in Ho.
Qed.

Lemma find_free_run r :
  length (g_tags r) = Z.to_nat CONFIG_MAX_REALMS →
  ∃ i, find_free_slot r = Ok (i, r) ∧
    ((0 <= i < 10 ∧ ∃ e, g_tags r !! Z.to_nat i = Some e ∧ te_in_use e = false)
     ∨ (i = -1 ∧ length (live r) = 10%nat)).
Proof.
  intros Hl. unfold find_free_slot.
  destruct (scan_tags_run (λ e, negb (te_in_use e)) r Hl) as (o & Hrun & Ho).
  run_step Hrun. eexists; split; [done|]. destruct o as [i|]; simpl.
  - left. destruct Ho as (Hi & e & He & Hu%negb_true_iff). eauto.
  - right. split; [done|]. change 10%nat with (Z.to_nat CONFIG_MAX_REALMS). rewrite <- Hl.
    unfold live. rewrite List.forallb_filter_id; [done|]. apply List.forallb_forall.
    intros e He%list_elem_of_In. by apply negb_false_iff, Ho.
Qed.

Lemma insert_live_inv r g i old rd t :
  tag_inv r → gen_ok g → g_tags r !! i = Some old → te_in_use old = false →
  (∀ t, ¬ registered r rd t) → 0 < t < 256 → t ∉ te_tag <$> live r →
  let r' := set_tag_entries
    (<[i := {| te_rd_pa := rd; te_tag := t; te_in_use := true |}]> (g_tags r)) (set_gen g r) in
  tag_inv r' ∧ ∀ x u, registered r' x u ↔ registered r x u ∨ (x = rd ∧ u = t).
Proof.
  intros Hr Hg Hi Hold Hrd Ht Hfree r'. set (new := Build_tag_entry rd t true).
  assert (Hp : live r' ≡ₚ new :: live r) by (by apply (filter_insert_new te_in_use _ _ new old)).
  assert (Hreg : ∀ x u, registered r' x u ↔ registered r x u ∨ (x = rd ∧ u = t)).
  { intros x u. unfold registered. setoid_rewrite Hp. setoid_rewrite elem_of_cons. subst new.
    naive_solver. }
  split; [|done]. split.
  - simpl. rewrite length_insert. apply Hr.
  - apply Hr.
  - by destruct g.
  - rewrite Hp. csimpl. apply NoDup_cons. split; [done|apply Hr].
  - rewrite Hp. csimpl. apply NoDup_cons. split; [|apply Hr].
    intros (e & He & Hin)%list_elem_of_fmap. apply (Hrd (te_tag e)). by exists e.
  - rewrite Hp. apply Forall_cons. split; [done|apply Hr].
Qed.

(** Assigning a tag either registers the realm with a fresh tag or changes nothing, and
    it fails only for a registered realm or a full registry. *)
Lemma realm_tag_assign_cases r rd :
  tag_inv r →
  (∃ t r', realm_tag_assign rd r = Ok (Some t, r') ∧ tag_inv r' ∧
     (∀ u, ¬ registered r rd u) ∧ (length (live r) < 10)%nat ∧
     (∀ x, ¬ registered r x t) ∧
     (∀ x u, registered r' x u ↔ registered r x u ∨ (x = rd ∧ u = t)))
  ∨ (realm_tag_assign rd r = Ok (None, r) ∧
     ((∃ u, registered r rd u) ∨ length (live r) = 10%nat)).
Proof.
  intros Hr. pose proof (ti_lock _ Hr) as Hlock. pose proof (ti_len _ Hr) as Hl.
  unfold realm_tag_assign. run_step (lock_run r Hlock). set (r1 := set_tag_lock true r).
  destruct (find_slot_run r1 rd Hl) as (i & Hfind & Hi). rewrite bind_assoc. run_step Hfind.
  destruct Hi as [(Hi & e & He & Hu & Hrd)|[-> Hnone]].
  { right. rewrite (proj2 (Z.leb_le 0 i)) by lia. rewrite ret_bind. unfold tag_lock_release. rewrite mmodify_bind.
    subst r1. rewrite set_tag_lock_back by done. split; [done|]. left. exists (te_tag e).
    apply registered_iff. exists e. split; [by eapply list_elem_of_lookup_2|done]. }
  cbn [Z.leb Z.compare]. destruct (find_free_run r1 Hl) as (i & Hfree & Hi).
  rewrite bind_assoc. run_step Hfree. destruct Hi as [(Hi & old & Hold & Hu)|[-> Hfull]]; cycle 1.
  { right. cbn [Z.ltb Z.compare]. rewrite ret_bind. unfold tag_lock_release. rewrite mmodify_bind.
    subst r1. rewrite set_tag_lock_back by done. split; [done|]. by right. }
  rewrite (proj2 (Z.ltb_ge i 0)) by lia.
  assert (Hroom : (length (live r) < 10)%nat).
  { unfold live. pose proof (filter_free_length te_in_use (g_tags r) old) as Hlt.
    rewrite Hl in Hlt. apply Hlt; [by eapply list_elem_of_lookup_2|done]. }
  destruct (assign_loop_fresh 16 r1) as (t & g & Hloop & Hg & Ht & Hfresh); [done|apply Hr|done| |].
  { apply pigeonhole_free. rewrite length_fmap. change (live r1) with (live r).
    pose proof (candidates_distinct _ (ti_gen _ Hr)). change (get_gen r1) with (get_gen r). lia. }
  rewrite bind_assoc. run_step Hloop. cbv iota. rewrite bind_assoc, gets_bind.
  assert (Hset : aset (g_tags r) i {| te_rd_pa := rd; te_tag := t; te_in_use := true |}
    = Ok (<[Z.to_nat i := {| te_rd_pa := rd; te_tag := t; te_in_use := true |}]> (g_tags r))).
  { apply aset_ok. rewrite Hl. done. }
  rewrite bind_assoc. run_step (lift_run _ _ _ Hset). rewrite bind_assoc, mmodify_bind, ret_bind.
  unfold tag_lock_release. rewrite mmodify_bind.
  destruct (insert_live_inv r g _ _ rd t Hr Hg Hold Hu Hnone Ht Hfresh) as [Hinv Hreg].
  left. eexists t, _. split; [done|]. split; [|split; [done|split; [done|split]]].
  - destruct Hinv. by split.
  - intros x (e & He & _ & Hte). apply Hfresh. apply list_elem_of_fmap. by exists e.
  - apply Hreg.
Qed.

Lemma realm_tag_remove_cases r rd :
  tag_inv r →
  ∃ b r', realm_tag_remove rd r = Ok (b, r') ∧ tag_inv r' ∧
    (b = true ↔ ∃ u, registered r rd u) ∧
    (∀ x u, registered r' x u ↔ registered r x u ∧ x ≠ rd).
Proof.
  intros Hr. pose proof (ti_lock _ Hr) as Hlock. pose proof (ti_len _ Hr) as Hl.
  unfold realm_tag_remove. run_step (lock_run r Hlock). set (r1 := set_tag_lock true r).
  destruct (find_slot_run r1 rd Hl) as (i & Hfind & Hi). rewrite bind_assoc. run_step Hfind.
  destruct Hi as [(Hi & old & He & Hu & Hrd)|[-> Hnone]]; cycle 1.
  { cbn [Z.leb Z.compare]. rewrite ret_bind. unfold tag_lock_release. rewrite mmodify_bind. subst r1.
    rewrite set_tag_lock_back by done. exists false, r. split; [done|]. split; [done|]. split.
    - split; [done|]. intros [u Hreg]. by destruct (Hnone u).
    - intros x u. split; [|by intros []]. intros Hreg. split; [done|]. intros ->. by apply (Hnone u). }
  rewrite (proj2 (Z.leb_le 0 i)) by lia. rewrite bind_assoc, gets_bind.
  assert (Hset : aset (g_tags r) i tag_entry_zero = Ok (<[Z.to_nat i := tag_entry_zero]> (g_tags r))).
  { apply aset_ok. rewrite Hl. done. }
  rewrite bind_assoc. run_step (lift_run _ _ _ Hset). rewrite bind_assoc, mmodify_bind, ret_bind.
  unfold tag_lock_release. rewrite mmodify_bind. eexists _, _. split; [done|].
  set (r' := set_tag_lock false _).
  assert (Hp : live r ≡ₚ old :: live r') by (by apply (filter_insert_del te_in_use _ _ tag_entry_zero old)).
  pose proof (ti_tags _ Hr) as Htags. pose proof (ti_rds _ Hr) as Hrds. pose proof (ti_nz _ Hr) as Hnz.
  rewrite Hp in Htags, Hrds, Hnz. csimpl in *. apply NoDup_cons in Htags as [_ Htags].
  apply NoDup_cons in Hrds as [Hold Hrds]. apply Forall_cons in Hnz as [_ Hnz].
  split; [split; try done; [by simpl; rewrite length_insert|apply Hr]|]. split.
  - split; [|done]. intros _. exists (te_tag old). exists old. rewrite Hp. split; [by left|done].
  - intros x u. unfold registered. setoid_rewrite Hp. setoid_rewrite elem_of_cons. split.
    + intros (e & Hin & Hx & Ht). split; [eauto|]. intros ->. apply Hold. rewrite Hrd, <- Hx.
      by apply list_elem_of_fmap_2.
    + intros [(e & [->|Hin] & Hx & Ht) Hne]; [|eauto]. by subst.
Qed.

(** ** Lookups *)

Lemma registered_fun r rd t u : tag_inv r → registered r rd t → registered r rd u → t = u.
Proof.
  intros Hr (e & He & Hrd & <-) (f & Hf & Hrd' & <-). f_equal.
  pose proof (ti_rds _ Hr) as Hn. apply list_elem_of_lookup in He as [i Hi].
  apply list_elem_of_lookup in Hf as [j Hj].
  assert (i = j) as ->; [|congruence].
  eapply (NoDup_lookup _ _ _ (te_rd_pa e) Hn); rewrite list_lookup_fmap; [by rewrite Hi|].
  rewrite Hj. simpl. by rewrite Hrd, Hrd'.
Qed.

Lemma registered_inj r x y t : tag_inv r → registered r x t → registered r y t → x = y.
Proof.
  intros Hr (e & He & <- & Ht) (f & Hf & <- & Ht'). f_equal.
  pose proof (ti_tags _ Hr) as Hn. apply list_elem_of_lookup in He as [i Hi].
  apply list_elem_of_lookup in Hf as [j Hj].
  assert (i = j) as ->; [|congruence].
  eapply (NoDup_lookup _ _ _ (te_tag e) Hn); rewrite list_lookup_fmap; [by rewrite Hi|].
  rewrite Hj. simpl. by rewrite Ht, Ht'.
Qed.

Lemma realm_tag_get_by_rd_cases r rd :
  tag_inv r → ∃ o, realm_tag_get_by_rd rd r = Ok (o, r) ∧ ∀ t, o = Some t ↔ registered r rd t.
Proof.
  intros Hr. pose proof (ti_lock _ Hr) as Hlock. pose proof (ti_len _ Hr) as Hl.
  unfold realm_tag_get_by_rd. run_step (lock_run r Hlock). set (r1 := set_tag_lock true r).
  destruct (find_slot_run r1 rd Hl) as (i & Hfind & Hi). rewrite bind_assoc. run_step Hfind.
  unfold tag_lock_release.
  destruct Hi as [(Hi & e & He & Hu & Hrd)|[-> Hnone]].
  - rewrite (proj2 (Z.leb_le 0 i)) by lia. rewrite bind_assoc, gets_bind, bind_assoc.
    run_step (lift_run _ _ _ (aget_lookup (g_tags r1) i e ltac:(lia) He)).
    rewrite ret_bind, mmodify_bind. subst r1. rewrite set_tag_lock_back by done.
    eexists; split; [done|]. intros t.
    assert (Hreg : registered r rd (te_tag e)).
    { apply registered_iff. exists e. split; [by eapply list_elem_of_lookup_2|done]. }
    split; [by intros [= <-]|]. intros Ht. f_equal. by eapply registered_fun.
  - cbn [Z.leb Z.compare]. rewrite ret_bind, mmodify_bind. subst r1.
    rewrite set_tag_lock_back by done. eexists; split; [done|]. intros t. split; [done|].
    intros Ht. by destruct (Hnone t).
Qed.

Lemma realm_tag_rd_by_tag_cases r t :
  tag_inv r → ∃ o, realm_tag_rd_by_tag t r = Ok (o, r) ∧ ∀ rd, o = Some rd ↔ registered r rd t.
Proof.
  intros Hr. pose proof (ti_lock _ Hr) as Hlock. pose proof (ti_len _ Hr) as Hl.
  unfold realm_tag_rd_by_tag. destruct (Z.eqb_spec t 0) as [->|Ht].
  { exists None. split; [done|]. intros rd. split; [done|]. intros (e & He & _ & Hz).
    pose proof (ti_nz _ Hr) as Hnz. rewrite Forall_forall in Hnz. specialize (Hnz e He). simpl in Hnz. lia. }
  run_step (lock_run r Hlock). set (r1 := set_tag_lock true r).
  destruct (scan_tags_run (λ e, te_in_use e && (te_tag e =? t)) r1 Hl) as (o & Hscan & Ho).
  rewrite bind_assoc. run_step Hscan. unfold tag_lock_release. destruct o as [i|].
  - destruct Ho as (Hi & e & He & [Hu Hte%Z.eqb_eq]%andb_true_iff).
    rewrite bind_assoc, gets_bind, bind_assoc.
    run_step (lift_run _ _ _ (aget_lookup (g_tags r1) i e ltac:(lia) He)).
    rewrite ret_bind, mmodify_bind. subst r1. rewrite set_tag_lock_back by done.
    eexists; split; [done|]. intros rd.
    assert (Hreg : registered r (te_rd_pa e) t).
    { apply registered_iff. exists e. split; [by eapply list_elem_of_lookup_2|done]. }
    split; [by intros [= <-]|]. intros Hrd. f_equal. by eapply registered_inj.
  - rewrite ret_bind, mmodify_bind. subst r1. rewrite set_tag_lock_back by done.
    eexists; split; [done|]. intros rd. split; [done|].
    intros (e & He & Hu & _ & Hte)%registered_iff. specialize (Ho e He).
    by rewrite Hu, Hte, Z.eqb_refl in Ho.
Qed.

(** * Properties *)

Inductive tag_op := TAssign (rd_pa : Z) | TRemove (rd_pa : Z).

Definition tag_step (o : tag_op) : M tag_registry () :=
  match o with
  | TAssign rd => realm_tag_assign rd ≫= λ _, mret ()
  | TRemove rd => realm_tag_remove rd ≫= λ _, mret ()
  end.

Definition tag_registry_boot : tag_registry :=
  realm_tag_init {| g_tags := []; g_tag_lock := false; g_tag_next_index := 0; g_tag_counter := 0 |}.

Lemma tag_inv_boot : tag_inv tag_registry_boot.
Proof. split; try done; unfold live; simpl; by constructor. Qed.

Lemma tag_ops_inv ops r :
  tag_inv r → ∃ r', mfor ops tag_step r = Ok ((), r') ∧ tag_inv r'.
Proof.
  revert r. induction ops as [|o ops IH]; intros r Hr; [by exists r|].
  assert (∃ r', tag_step o r = Ok ((), r') ∧ tag_inv r') as (r' & Hstep & Hr').
  { destruct o as [rd|rd]; unfold tag_step.
    - destruct (realm_tag_assign_cases r rd Hr) as [(t & r' & Hrun & Hr' & _)|[Hrun _]];
        run_step Hrun; eauto.
    - destruct (realm_tag_remove_cases r rd Hr) as (b & r' & Hrun & Hr' & _). run_step Hrun. eauto. }
  cbn [mfor]. run_step Hstep. by apply IH.
Qed.

(** Realm tags identify realms: after any sequence of assignments and removals from
    boot, which all return with the registry unlocked, no two live realms have the same
    tag, no realm has two tags, and tag 0 is never given out. *)
Theorem realm_tags_unique ops :
  ∃ r, mfor ops tag_step tag_registry_boot = Ok ((), r) ∧ g_tag_lock r = false ∧
    (∀ x y t, registered r x t → registered r y t → x = y) ∧
    (∀ x t u, registered r x t → registered r x u → t = u) ∧
    (∀ x t, registered r x t → 0 < t < 256).
Proof.
  destruct (tag_ops_inv ops _ tag_inv_boot) as (r & Hrun & Hr). exists r.
  split; [done|]. split; [apply Hr|]. split; [|split].
  - intros x y t. by apply registered_inj.
  - intros x t u. by apply registered_fun.
  - intros x t (e & He & _ & <-). pose proof (ti_nz _ Hr) as Hnz.
    rewrite Forall_forall in Hnz. by apply Hnz.
Qed.

(** Assigning a tag succeeds exactly when the realm has none and fewer than ten
    realms are registered (sixteen attempts always find a free tag); the new tag is fresh
    and can be looked up in both directions, all other registrations stay, and a failed
    assignment changes nothing. *)
Theorem realm_tag_assign_spec r rd :
  tag_inv r →
  ∃ o r', realm_tag_assign rd r = Ok (o, r') ∧
    (is_Some o ↔ (∀ u, ¬ registered r rd u) ∧ (length (live r) < 10)%nat) ∧
    match o with
    | None => r' = r
    | Some t => (∀ x, ¬ registered r x t) ∧
        (∀ x u, registered r' x u ↔ registered r x u ∨ (x = rd ∧ u = t)) ∧
        realm_tag_get_by_rd rd r' = Ok (Some t, r') ∧
        realm_tag_rd_by_tag t r' = Ok (Some rd, r')
    end.
Proof.
  intros Hr.
  destruct (realm_tag_assign_cases r rd Hr)
    as [(t & r' & Hrun & Hr' & Hno & Hroom & Hfresh & Hreg)|[Hrun Hwhy]].
  - exists (Some t), r'. split; [done|]. split; [by split|]. split; [done|]. split; [done|].
    assert (Hnew : registered r' rd t) by (apply Hreg; by right).
    destruct (realm_tag_get_by_rd_cases r' rd Hr') as (o1 & -> & Ho1).
    destruct (realm_tag_rd_by_tag_cases r' t Hr') as (o2 & -> & Ho2).
    apply Ho1 in Hnew as Hnew1. apply Ho2 in Hnew. by subst.
  - exists None, r. split; [done|]. split; [|done]. split; [by intros []|].
    intros [Hno Hroom]. destruct Hwhy as [[u Hu]|]; [by destruct (Hno u)|lia].
Qed.

Lemma realm_tag_assign_spec_witness :
  ∃ r', realm_tag_assign 4096 tag_registry_boot = Ok (Some 17, r') ∧
        realm_tag_rd_by_tag 17 r' = Ok (Some 4096, r').
Proof.
  destruct (realm_tag_assign_spec tag_registry_boot 4096 tag_inv_boot) as (o & r' & Hrun & _ & Ho).
  assert (o = Some 17) as -> by (vm_compute in Hrun; congruence).
  exists r'. split; [exact Hrun | apply Ho].
Defined.
