(* ===== verification/CsmId.v ===== *)
(** The registry of shared-region identifiers (runtime/core/csm_id.c): every confidential
    shared memory region that exists has an 8-bit identifier of its own, never 0. *)
From S2P Require Import Prelude Types.

Definition CONFIG_MAX_CSM_REGION_IDS : Z := 64.

Definition set_csm_entries (l : list csm_region_id_entry) (r : csm_registry) : csm_registry :=
  {| g_csm_region_ids := l; g_csm_region_id_lock := g_csm_region_id_lock r;
     g_csm_region_id_counter := g_csm_region_id_counter r |}.
Definition set_csm_lock (b : bool) (r : csm_registry) : csm_registry :=
  {| g_csm_region_ids := g_csm_region_ids r; g_csm_region_id_lock := b;
     g_csm_region_id_counter := g_csm_region_id_counter r |}.
Definition set_csm_counter (c : Z) (r : csm_registry) : csm_registry :=
  {| g_csm_region_ids := g_csm_region_ids r; g_csm_region_id_lock := g_csm_region_id_lock r;
     g_csm_region_id_counter := c |}.

Definition csm_lock_acquire : M csm_registry () :=
  gets g_csm_region_id_lock ≫= λ b,
  if (b : bool) then mfault FHang else mmodify (set_csm_lock true).
Definition csm_lock_release : M csm_registry () := mmodify (set_csm_lock false).

Definition scan_csm_ids (test : csm_region_id_entry → bool) : M csm_registry (option Z) :=
  gets g_csm_region_ids ≫= λ ids,
  lift (first_index (Z.to_nat CONFIG_MAX_CSM_REGION_IDS) 0 (λ i, aget ids i ≫= λ e, Ok (test e))).

Definition csm_region_id_find_free_slot : M csm_registry Z :=
  scan_csm_ids (λ e, negb (ce_in_use e)) ≫= λ o, mret (or_minus1 o).
Definition csm_region_id_collides (region_id : Z) : M csm_registry bool :=
  scan_csm_ids (λ e, ce_in_use e && (ce_region_id e =? region_id)) ≫= λ o,
  mret (bool_decide (is_Some o)).

(** [g_csm_region_id_counter++] on a [uint8_t]. *)
Definition csm_counter_post_incr : M csm_registry Z :=
  gets g_csm_region_id_counter ≫= λ c,
  mmodify (set_csm_counter (u8 (c + 1))) ≫= λ _, mret c.

(** The [do ... while] loop; the 65th iteration leaves it, so 65 rounds of fuel are
    enough. *)
Fixpoint csm_assign_loop (fuel : nat) (tries : Z) : M csm_registry (option Z) :=
  match fuel with
  | O => mfault FHang
  | S fuel' =>
      csm_counter_post_incr ≫= λ candidate,
      (if candidate =? 0 then csm_counter_post_incr else mret candidate) ≫= λ candidate,
      let tries := tries + 1 in
      if CONFIG_MAX_CSM_REGION_IDS <? tries then mret None
      else
        csm_region_id_collides candidate ≫= λ c,
        if (c : bool) then csm_assign_loop fuel' tries else mret (Some candidate)
  end.

(** [Some id] is the answer [true] with [*out_region_id = id]. *)
Definition csm_region_id_assign (owner_rd_pa : Z) : M csm_registry (option Z) :=
  csm_lock_acquire ≫= λ _,
  (csm_region_id_find_free_slot ≫= λ slot,
   if slot <? 0 then mret None
   else
     csm_assign_loop 65 0 ≫= λ o,
     match o with
     | None => mret None
     | Some candidate =>
         gets g_csm_region_ids ≫= λ ids,
         lift (aset ids slot {| ce_owner_rd_pa := owner_rd_pa; ce_region_id := candidate;
                                ce_in_use := true |}) ≫= λ ids,
         mmodify (set_csm_entries ids) ≫= λ _, mret (Some candidate)
     end) ≫= λ ok,
  csm_lock_release ≫= λ _, mret ok.

Definition csm_entry_zero : csm_region_id_entry :=
  {| ce_owner_rd_pa := 0; ce_region_id := 0; ce_in_use := false |}.

Definition csm_region_id_remove (region_id : Z) : M csm_registry bool :=
  csm_lock_acquire ≫= λ _,
  (scan_csm_ids (λ e, ce_in_use e && (ce_region_id e =? region_id)) ≫= λ o,
   match o with
   | None => mret false
   | Some i =>
       gets g_csm_region_ids ≫= λ ids, lift (aset ids i csm_entry_zero) ≫= λ ids,
       mmodify (set_csm_entries ids) ≫= λ _, mret true
   end) ≫= λ ok,
  csm_lock_release ≫= λ _, mret ok.

(** The statically initialised registry. *)
Definition csm_registry_boot : csm_registry :=
  {| g_csm_region_ids := replicate (Z.to_nat CONFIG_MAX_CSM_REGION_IDS) csm_entry_zero;
     g_csm_region_id_lock := false; g_csm_region_id_counter := 1 |}.

(** * The generator *)

Definition csm_gen (c : Z) : Z * Z :=
  if c =? 0 then (u8 (c + 1), u8 (u8 (c + 1) + 1)) else (c, u8 (c + 1)).

Fixpoint csm_candidates (n : nat) (c : Z) : list Z :=
  match n with
  | O => []
  | S n' => (csm_gen c).1 :: csm_candidates n' (csm_gen c).2
  end.

Lemma counter_in c : 0 <= c < 256 → c ∈ Z.of_nat <$> seq 0 256.
Proof.
  intros Hc. apply list_elem_of_fmap. exists (Z.to_nat c). split; [lia|]. apply elem_of_seq. lia.
Qed.

(** Sixty-four consecutive candidates are pairwise distinct from every counter value. *)
Lemma csm_candidates_distinct c :
  0 <= c < 256 → length (remove_dups (csm_candidates 64 c)) = 64%nat.
Proof.
  intros Hc%counter_in. revert c Hc.
  assert (H : forallb (λ c, (length (remove_dups (csm_candidates 64 c)) =? 64)%nat)
    (Z.of_nat <$> seq 0 256) = true) by (vm_compute; reflexivity).
  rewrite List.forallb_forall in H. intros c Hc%list_elem_of_In. by apply Nat.eqb_eq, H.
Qed.

Lemma csm_gen_ok c : 0 <= c < 256 → 0 <= (csm_gen c).2 < 256 ∧ 0 < (csm_gen c).1 < 256.
Proof.
  intros Hc. unfold csm_gen, u8. destruct (Z.eqb_spec c 0) as [->|]; [done|]. cbn [fst snd].
  split; [apply Z.mod_pos_bound; lia | lia].
Qed.

Lemma csm_gen_run {B} (k : Z → M csm_registry B) r :
  (csm_counter_post_incr ≫= λ candidate,
   (if candidate =? 0 then csm_counter_post_incr else mret candidate) ≫= k) r
  = k (csm_gen (g_csm_region_id_counter r)).1
      (set_csm_counter (csm_gen (g_csm_region_id_counter r)).2 r).
Proof.
  unfold csm_counter_post_incr, csm_gen. rewrite bind_assoc, gets_bind, bind_assoc, mmodify_bind.
  rewrite ret_bind. by destruct (Z.eqb_spec (g_csm_region_id_counter r) 0).
Qed.

(** * The registry invariant *)

Definition csm_live (r : csm_registry) : list csm_region_id_entry :=
  List.filter ce_in_use (g_csm_region_ids r).
Definition ids (r : csm_registry) : list Z := ce_region_id <$> csm_live r.

Record csm_inv (r : csm_registry) : Prop := {
  ci_len : length (g_csm_region_ids r) = Z.to_nat CONFIG_MAX_CSM_REGION_IDS;
  ci_lock : g_csm_region_id_lock r = false;
  ci_counter : 0 <= g_csm_region_id_counter r < 256;
  ci_ids : NoDup (ids r);
  ci_nz : Forall (λ id, 0 < id < 256) (ids r);
}.

Lemma scan_csm_ids_run test r :
  length (g_csm_region_ids r) = Z.to_nat CONFIG_MAX_CSM_REGION_IDS →
  ∃ o, scan_csm_ids test r = Ok (o, r) ∧
    match o with
    | Some i => 0 <= i < 64 ∧ ∃ e, g_csm_region_ids r !! Z.to_nat i = Some e ∧ test e = true
    | None => ∀ e, e ∈ g_csm_region_ids r → test e = false
    end.
Proof.
  intros Hl. destruct (scan_array (g_csm_region_ids r) _ test Hl) as (o & Hrun & Ho).
  exists o. split; [|done]. unfold scan_csm_ids. run_step eq_refl. by rewrite (lift_run _ _ _ Hrun).
Qed.

Lemma elem_of_ids r id :
  id ∈ ids r ↔ ∃ e, e ∈ g_csm_region_ids r ∧ ce_in_use e = true ∧ ce_region_id e = id.
Proof.
  unfold ids, csm_live. rewrite list_elem_of_fmap. setoid_rewrite elem_of_filter_list. naive_solver.
Qed.

Lemma scan_id_none r id :
  (∀ e, e ∈ g_csm_region_ids r → ce_in_use e && (ce_region_id e =? id) = false) → id ∉ ids r.
Proof.
  intros Ho (e & He & Hu & Hid)%elem_of_ids. specialize (Ho e He).
  by rewrite Hu, Hid, Z.eqb_refl in Ho.
Qed.

Lemma scan_id_some r id i e :
  g_csm_region_ids r !! i = Some e → ce_in_use e && (ce_region_id e =? id) = true → id ∈ ids r.
Proof.
  intros He [Hu Hid%Z.eqb_eq]%andb_true_iff. apply elem_of_ids. exists e.
  split; [by eapply list_elem_of_lookup_2|done].
Qed.

Lemma csm_assign_loop_S fuel tries :
  csm_assign_loop (S fuel) tries
  = csm_counter_post_incr ≫= λ candidate,
    (if candidate =? 0 then csm_counter_post_incr else mret candidate) ≫= λ candidate,
    let tries := tries + 1 in
    if CONFIG_MAX_CSM_REGION_IDS <? tries then mret None
    else csm_region_id_collides candidate ≫= λ c,
      if (c : bool) then csm_assign_loop fuel tries else mret (Some candidate).
Proof. done. Qed.

Lemma csm_assign_loop_fresh fuel r :
  length (g_csm_region_ids r) = Z.to_nat CONFIG_MAX_CSM_REGION_IDS →
  0 <= g_csm_region_id_counter r < 256 → (fuel <= 64)%nat →
  (∃ c, c ∈ csm_candidates fuel (g_csm_region_id_counter r) ∧ c ∉ ids r) →
  ∃ t c, csm_assign_loop (S fuel) (64 - Z.of_nat fuel) r = Ok (Some t, set_csm_counter c r) ∧
    0 <= c < 256 ∧ 0 < t < 256 ∧ t ∉ ids r.
Proof.
  revert r. induction fuel as [|fuel IH]; intros r Hl Hg Hf (c & Hc & Hfree).
  { by apply not_elem_of_nil in Hc. }
  destruct (csm_gen_ok _ Hg) as [Hg' Ht].
  rewrite csm_assign_loop_S, csm_gen_run. cbv zeta. unfold CONFIG_MAX_CSM_REGION_IDS.
  rewrite (proj2 (Z.ltb_ge 64 _)) by lia.
  set (t := (csm_gen (g_csm_region_id_counter r)).1) in *. set (r1 := set_csm_counter _ r).
  unfold csm_region_id_collides.
  destruct (scan_csm_ids_run (λ e, ce_in_use e && (ce_region_id e =? t)) r1 Hl) as (o & Hrun & Ho).
  rewrite bind_assoc. run_step Hrun. run_step eq_refl. destruct o as [i|].
  - rewrite bool_decide_eq_true_2 by eauto.
    replace (64 - Z.of_nat (S fuel) + 1) with (64 - Z.of_nat fuel) by lia.
    destruct Ho as (_ & e & He & Htest).
    assert (Hin : t ∈ ids r) by (by eapply (scan_id_some r)).
    destruct (IH r1) as (t' & g & Hr & ?); [done|done|lia| |].
    { exists c. split; [|done]. simpl in Hc. by apply elem_of_cons in Hc as [->|Hc]. }
    exists t', g. by rewrite Hr.
  - rewrite bool_decide_eq_false_2 by (by intros []). eexists _, _. split; [done|].
    split; [done|]. split; [done|]. by apply (scan_id_none r1).
Qed.

(** * The operations *)

Lemma csm_lock_run r :
  g_csm_region_id_lock r = false → csm_lock_acquire r = Ok ((), set_csm_lock true r).
Proof. intros H. unfold csm_lock_acquire. run_step eq_refl. by rewrite H. Qed.

Lemma set_csm_lock_back r :
  g_csm_region_id_lock r = false → set_csm_lock false (set_csm_lock true r) = r.
Proof. destruct r; simpl. by intros ->. Qed.

Lemma csm_insert_inv r c i old rd t :
  csm_inv r → 0 <= c < 256 → g_csm_region_ids r !! i = Some old → ce_in_use old = false →
  0 < t < 256 → t ∉ ids r →
  let r' := set_csm_entries (<[i := {| ce_owner_rd_pa := rd; ce_region_id := t; ce_in_use := true |}]>
              (g_csm_region_ids r)) (set_csm_counter c r) in
  csm_inv r' ∧ ids r' ≡ₚ t :: ids r.
Proof.
  intros Hr Hc Hi Hold Ht Hfree r'. set (new := Build_csm_region_id_entry rd t true).
  assert (Hp : ids r' ≡ₚ t :: ids r).
  { unfold ids. change (t :: ?l) with (ce_region_id new :: l). rewrite <- fmap_cons.
    apply fmap_Permutation. by apply (filter_insert_new ce_in_use _ _ new old). }
  split; [|done]. split; try done.
  - simpl. rewrite length_insert. apply Hr.
  - apply Hr.
  - rewrite Hp. apply NoDup_cons. split; [done|apply Hr].
  - rewrite Hp. apply Forall_cons. split; [done|apply Hr].
Qed.

Lemma csm_region_id_assign_cases r rd :
  csm_inv r →
  (∃ t r', csm_region_id_assign rd r = Ok (Some t, r') ∧ csm_inv r' ∧
     (length (ids r) < 64)%nat ∧ t ∉ ids r ∧ ids r' ≡ₚ (t :: ids r))
  ∨ (csm_region_id_assign rd r = Ok (None, r) ∧ length (ids r) = 64%nat).
Proof.
  intros Hr. pose proof (ci_lock _ Hr) as Hlock. pose proof (ci_len _ Hr) as Hl.
  unfold csm_region_id_assign. run_step (csm_lock_run r Hlock). set (r1 := set_csm_lock true r).
  unfold csm_region_id_find_free_slot, csm_lock_release.
  destruct (scan_csm_ids_run (λ e, negb (ce_in_use e)) r1 Hl) as (o & Hscan & Ho).
  rewrite !bind_assoc. run_step Hscan. rewrite ret_bind.
  destruct o as [i|]; cbn [or_minus1]; cycle 1.
  { right. cbn [Z.ltb Z.compare]. rewrite ret_bind, mmodify_bind. subst r1.
    rewrite set_csm_lock_back by done. split; [done|]. unfold ids, csm_live.
    rewrite length_fmap, List.forallb_filter_id; [done|]. apply List.forallb_forall.
    intros e He%list_elem_of_In. by apply negb_false_iff, Ho. }
  destruct Ho as (Hi & old & Hold & Hu%negb_true_iff). rewrite (proj2 (Z.ltb_ge i 0)) by lia.
  assert (Hroom : (length (ids r) < 64)%nat).
  { unfold ids, csm_live. rewrite length_fmap.
    pose proof (filter_free_length ce_in_use (g_csm_region_ids r) old) as Hlt. rewrite Hl in Hlt.
    apply Hlt; [by eapply list_elem_of_lookup_2|done]. }
  destruct (csm_assign_loop_fresh 64 r1) as (t & c & Hloop & Hc & Ht & Hfresh); [done|apply Hr|done| |].
  { apply pigeonhole_free. rewrite csm_candidates_distinct by apply Hr. done. }
  rewrite bind_assoc. run_step Hloop. cbv iota. rewrite bind_assoc, gets_bind.
  assert (Hset : aset (g_csm_region_ids r) i (Build_csm_region_id_entry rd t true)
    = Ok (<[Z.to_nat i := Build_csm_region_id_entry rd t true]> (g_csm_region_ids r))).
  { apply aset_ok. rewrite Hl. done. }
  rewrite bind_assoc. run_step (lift_run _ _ _ Hset). rewrite bind_assoc, mmodify_bind, ret_bind.
  rewrite mmodify_bind.
  destruct (csm_insert_inv r c _ _ rd t Hr Hc Hold Hu Ht Hfresh) as [Hinv Hids].
  left. eexists t, _. split; [done|]. split; [destruct Hinv; by split | done].
Qed.

Lemma csm_region_id_remove_cases r id :
  csm_inv r →
  ∃ b r', csm_region_id_remove id r = Ok (b, r') ∧ csm_inv r' ∧ (b = true ↔ id ∈ ids r) ∧
    ∀ x, x ∈ ids r' ↔ x ∈ ids r ∧ x ≠ id.
Proof.
  intros Hr. pose proof (ci_lock _ Hr) as Hlock. pose proof (ci_len _ Hr) as Hl.
  unfold csm_region_id_remove, csm_lock_release. run_step (csm_lock_run r Hlock).
  set (r1 := set_csm_lock true r).
  destruct (scan_csm_ids_run (λ e, ce_in_use e && (ce_region_id e =? id)) r1 Hl) as (o & Hscan & Ho).
  rewrite bind_assoc. run_step Hscan. destruct o as [i|]; cycle 1.
  { rewrite ret_bind, mmodify_bind. apply scan_id_none in Ho. subst r1.
    rewrite set_csm_lock_back by done. exists false, r. split; [done|]. split; [done|].
    change (id ∉ ids r) in Ho. split; [done|]. intros x. split; [|by intros []]. by intros Hx; split; [|intros ->]. }
  destruct Ho as (Hi & old & Hold & Htest). rewrite bind_assoc, gets_bind.
  assert (Hset : aset (g_csm_region_ids r1) i csm_entry_zero
    = Ok (<[Z.to_nat i := csm_entry_zero]> (g_csm_region_ids r1))).
  { apply aset_ok. simpl. rewrite Hl. done. }
  rewrite bind_assoc. run_step (lift_run _ _ _ Hset). rewrite bind_assoc, mmodify_bind, ret_bind.
  rewrite mmodify_bind. eexists _, _. split; [done|]. set (r' := set_csm_lock false _).
  assert (Hin : id ∈ ids r) by (by eapply (scan_id_some r)).
  apply andb_true_iff in Htest as [Hu Hid%Z.eqb_eq].
  assert (Hp : ids r ≡ₚ id :: ids r').
  { unfold ids. rewrite <- Hid. rewrite <- fmap_cons. apply fmap_Permutation.
    by apply (filter_insert_del ce_in_use _ _ csm_entry_zero old). }
  pose proof (ci_ids _ Hr) as Hnd. pose proof (ci_nz _ Hr) as Hnz. rewrite Hp in Hnd, Hnz.
  apply NoDup_cons in Hnd as [Hout Hnd]. apply Forall_cons in Hnz as [_ Hnz].
  split; [split; try done; [by simpl; rewrite length_insert|apply Hr]|]. split; [done|].
  intros x. rewrite Hp, elem_of_cons. split; [|by intros [[->|]]].
  intros Hx. split; [by right|]. by intros ->.
Qed.

Lemma csm_inv_boot : csm_inv csm_registry_boot.
Proof. split; try done; unfold ids, csm_live; simpl; by constructor. Qed.

(** * Properties *)

Inductive csm_op := CAssign (owner_rd_pa : Z) | CRemove (region_id : Z).

Definition csm_step (o : csm_op) : M csm_registry () :=
  match o with
  | CAssign rd => csm_region_id_assign rd ≫= λ _, mret ()
  | CRemove id => csm_region_id_remove id ≫= λ _, mret ()
  end.

Lemma csm_ops_inv ops r : csm_inv r → ∃ r', mfor ops csm_step r = Ok ((), r') ∧ csm_inv r'.
Proof.
  revert r. induction ops as [|o ops IH]; intros r Hr; [by exists r|].
  assert (∃ r', csm_step o r = Ok ((), r') ∧ csm_inv r') as (r' & Hstep & Hr').
  { destruct o as [rd|rd]; unfold csm_step.
    - destruct (csm_region_id_assign_cases r rd Hr) as [(t & r' & Hrun & Hr' & _)|[Hrun _]];
        run_step Hrun; eauto.
    - destruct (csm_region_id_remove_cases r rd Hr) as (b & r' & Hrun & Hr' & _). run_step Hrun. eauto. }
  cbn [mfor]. run_step Hstep. by apply IH.
Qed.

(** Shared-region identifiers are unique: after any sequence of assignments and
    removals from boot, which all return with the registry unlocked, the identifiers in
    use are pairwise distinct bytes other than 0; and from there the next assignment
    fails exactly when all 64 slots are in use, and otherwise gives out an identifier
    that was not in use. *)
Theorem csm_region_ids_unique ops rd :
  ∃ r, mfor ops csm_step csm_registry_boot = Ok ((), r) ∧ g_csm_region_id_lock r = false ∧
    NoDup (ids r) ∧ Forall (λ id, 0 < id < 256) (ids r) ∧
    ∃ o r', csm_region_id_assign rd r = Ok (o, r') ∧
      match o with
      | None => r' = r ∧ length (ids r) = 64%nat
      | Some id => id ∉ ids r ∧ ids r' ≡ₚ id :: ids r
      end.
Proof.
  destruct (csm_ops_inv ops _ csm_inv_boot) as (r & Hrun & Hr). exists r.
  split; [done|]. split; [apply Hr|]. split; [apply Hr|]. split; [apply Hr|].
  destruct (csm_region_id_assign_cases r rd Hr) as [(t & r' & Hass & _ & _ & ? & ?)|[Hass ?]].
  - by exists (Some t), r'.
  - by exists None, r.
Qed.

(** Releasing an identifier frees exactly that identifier, and answers whether it
    was in use. *)
Theorem csm_region_id_remove_spec r id :
  csm_inv r →
  ∃ b r', csm_region_id_remove id r = Ok (b, r') ∧ csm_inv r' ∧ (b = true ↔ id ∈ ids r) ∧
    ∀ x, x ∈ ids r' ↔ x ∈ ids r ∧ x ≠ id.
Proof. apply csm_region_id_remove_cases. Qed.

Lemma csm_region_id_remove_spec_witness :
  ∃ b r', csm_region_id_remove 1 csm_registry_boot = Ok (b, r') ∧ ids r' = [].
Proof.
  destruct (csm_region_id_remove_spec csm_registry_boot 1 csm_inv_boot) as (b & r' & Hrun & _ & _ & Hx).
  exists b, r'. split; [exact Hrun|]. destruct (ids r') as [|x l]; [done|].
  destruct (Hx x) as [H _]. destruct H as [H _]; [by left|]. by apply not_elem_of_nil in H.
Defined.
