(* ===== verification/Measurement.v ===== *)
(** The Realm Initial Measurement (lib/measurement/src/rim.c, measurement.c): every step of
    a realm's construction is hashed, in a typed descriptor, together with the previous
    value. The byte layouts are those of lib/measurement/src/measurement_descs.h and of the
    parameter structures of lib/smc/include/smc-rmi.h. *)
From S2P Require Import Prelude Types.

(** The hash function of the PSA Crypto library. *)
Class Crypto := { psa_hash_compute : hash_algo → list Z → list Z }.

Definition SHA256_SIZE : Z := 32.
Definition SHA512_SIZE : Z := 64.
Definition MAX_MEASUREMENT_SIZE : nat := 64.
Definition MEASURE_DESC_TYPE_DATA : Z := 0.
Definition MEASURE_DESC_TYPE_REC : Z := 1.
Definition MEASURE_DESC_TYPE_RIPAS : Z := 2.
Definition REC_CREATE_NR_GPRS : nat := 8.

Definition measurement_get_size (algorithm : hash_algo) : Z :=
  match algorithm with HASH_SHA_256 => SHA256_SIZE | HASH_SHA_512 => SHA512_SIZE end.

(** ** Layout *)

(** The little-endian bytes of an integer member. *)
Definition le_bytes (n : nat) (x : Z) : list Z :=
  (λ i, Z.shiftr x (8 * Z.of_nat i) mod 256) <$> seq 0 n.

(** A member followed by its zero padding: [SET_MEMBER(member, start, end)] with
    [n = end - start]. *)
Definition member (n : nat) (l : list Z) : list Z := l ++ replicate (n - length l) 0.

Record measurement_desc_data := {
  dd_rim : list Z;
  dd_ipa : Z;
  dd_flags : Z;
  dd_content : list Z;
}.

Definition measurement_desc_data_bytes (d : measurement_desc_data) : list Z :=
  member 8 (le_bytes 1 MEASURE_DESC_TYPE_DATA) ++ member 8 (le_bytes 8 256) ++
  member 64 (dd_rim d) ++ member 8 (le_bytes 8 (dd_ipa d)) ++
  member 8 (le_bytes 8 (dd_flags d)) ++ member 160 (dd_content d).

Record measurement_desc_rec := { dr_rim : list Z; dr_content : list Z }.

Definition measurement_desc_rec_bytes (d : measurement_desc_rec) : list Z :=
  member 8 (le_bytes 1 MEASURE_DESC_TYPE_REC) ++ member 8 (le_bytes 8 256) ++
  member 64 (dr_rim d) ++ member 176 (dr_content d).

Record measurement_desc_ripas := { dp_rim : list Z; dp_base : Z; dp_top : Z }.

Definition measurement_desc_ripas_bytes (d : measurement_desc_ripas) : list Z :=
  member 8 (le_bytes 1 MEASURE_DESC_TYPE_RIPAS) ++ member 8 (le_bytes 8 256) ++
  member 64 (dp_rim d) ++ member 8 (le_bytes 8 (dp_base d)) ++ member 168 (le_bytes 8 (dp_top d)).

(** The members of [struct rmi_realm_params] and [struct rmi_rec_params] that are
    measured; all others are zero in the measured copy. *)
Record rmi_realm_params := {
  rp_flags : Z; rp_s2sz : Z; rp_sve_vl : Z; rp_num_bps : Z; rp_num_wps : Z;
  rp_pmu_num_ctrs : Z; rp_algorithm : Z;
}.

Definition rmi_realm_params_bytes (p : rmi_realm_params) : list Z :=
  member 8 (le_bytes 8 (rp_flags p)) ++ member 8 (le_bytes 4 (rp_s2sz p)) ++
  member 8 (le_bytes 4 (rp_sve_vl p)) ++ member 8 (le_bytes 4 (rp_num_bps p)) ++
  member 8 (le_bytes 4 (rp_num_wps p)) ++ member 8 (le_bytes 4 (rp_pmu_num_ctrs p)) ++
  member 976 (le_bytes 1 (rp_algorithm p)) ++ member 1024 [] ++ member 2048 [].

Record rmi_rec_params := { cp_flags : Z; cp_pc : Z; cp_gprs : list Z }.

Definition rmi_rec_params_bytes (p : rmi_rec_params) : list Z :=
  member 256 (le_bytes 8 (cp_flags p)) ++ member 256 [] ++ member 256 (le_bytes 8 (cp_pc p)) ++
  member 1280 (mjoin (le_bytes 8 <$> cp_gprs p)) ++ member 2048 [].

Definition digest_size (algorithm : hash_algo) : nat := Z.to_nat (measurement_get_size algorithm).

Section rim.
Context {C : Crypto}.

(** The digest overwrites the start of [out]. *)
Definition do_hash (algorithm : hash_algo) (data out : list Z) : result (list Z) :=
  rassert (Z.of_nat (length data) <=? GRANULE_SIZE) ≫= λ _,
  let digest := psa_hash_compute algorithm data in
  rassert (Z.of_nat (length digest) =? measurement_get_size algorithm) ≫= λ _,
  Ok (digest ++ drop (length digest) out).

Definition measurement_hash_compute (algorithm : hash_algo) (data out : list Z) : result (list Z) :=
  do_hash algorithm data out.

(** [memcpy(measure_desc.rim, rim_measurement, measurement_get_size(algorithm))]. *)
Definition copy_rim (algorithm : hash_algo) (rim_measurement : list Z) : list Z :=
  take (digest_size algorithm) rim_measurement.

Definition zero_content : list Z := replicate MAX_MEASUREMENT_SIZE 0.

Definition measurement_data_granule_measure (rim_measurement : list Z) (algorithm : hash_algo)
  (data : list Z) (ipa flags : Z) : result (list Z) :=
  (if flags =? RMI_MEASURE_CONTENT then measurement_hash_compute algorithm data zero_content
   else Ok zero_content) ≫= λ content,
  measurement_hash_compute algorithm
    (measurement_desc_data_bytes {| dd_rim := copy_rim algorithm rim_measurement; dd_ipa := ipa;
                                    dd_flags := flags; dd_content := content |})
    rim_measurement.

Definition measurement_realm_params_measure (rim_measurement : list Z) (algorithm : hash_algo)
  (realm_params : rmi_realm_params) : result (list Z) :=
  measurement_hash_compute algorithm (rmi_realm_params_bytes realm_params) rim_measurement.

Definition measurement_rec_params_measure (rim_measurement : list Z) (algorithm : hash_algo)
  (rec_params : rmi_rec_params) : result (list Z) :=
  measurement_hash_compute algorithm (rmi_rec_params_bytes rec_params) zero_content ≫= λ content,
  measurement_hash_compute algorithm
    (measurement_desc_rec_bytes {| dr_rim := copy_rim algorithm rim_measurement;
                                   dr_content := content |})
    rim_measurement.

Definition measurement_init_ripas_measure (rim_measurement : list Z) (algorithm : hash_algo)
  (base top : Z) : result (list Z) :=
  measurement_hash_compute algorithm
    (measurement_desc_ripas_bytes {| dp_rim := copy_rim algorithm rim_measurement;
                                     dp_base := base; dp_top := top |})
    rim_measurement.

(** ** Measured histories *)

Inductive rim_op :=
| MData (data : list Z) (ipa flags : Z)
| MRec (p : rmi_rec_params)
| MRipas (base top : Z).

Definition rim_step (algorithm : hash_algo) (rim : list Z) (o : rim_op) : result (list Z) :=
  match o with
  | MData data ipa flags => measurement_data_granule_measure rim algorithm data ipa flags
  | MRec p => measurement_rec_params_measure rim algorithm p
  | MRipas base top => measurement_init_ripas_measure rim algorithm base top
  end.

Fixpoint rim_run (algorithm : hash_algo) (rim : list Z) (l : list rim_op) : result (list Z) :=
  match l with
  | [] => Ok rim
  | o :: l' => rim_step algorithm rim o ≫= λ rim, rim_run algorithm rim l'
  end.

(** The RIM of a realm created with [p] and then built by [l]; the slot of a fresh realm
    descriptor is zero. *)
Definition rim_of (algorithm : hash_algo) (p : rmi_realm_params) (l : list rim_op)
  : result (list Z) :=
  measurement_realm_params_measure zero_content algorithm p ≫= λ rim, rim_run algorithm rim l.

(** The content that is measured: what is not copied into a descriptor is forgotten. *)
Definition op_view (o : rim_op) : rim_op :=
  match o with
  | MData data ipa flags => MData (if flags =? RMI_MEASURE_CONTENT then data else []) ipa flags
  | _ => o
  end.

(** Arguments as the callers pass them. *)
Definition op_ok (o : rim_op) : Prop :=
  match o with
  | MData data ipa flags =>
      Z.of_nat (length data) = GRANULE_SIZE ∧ is_u64 ipa ∧ is_u64 flags
  | MRec p => is_u64 (cp_flags p) ∧ is_u64 (cp_pc p) ∧ length (cp_gprs p) = REC_CREATE_NR_GPRS ∧
      Forall is_u64 (cp_gprs p)
  | MRipas base top => is_u64 base ∧ is_u64 top
  end.

Definition params_ok (p : rmi_realm_params) : Prop :=
  is_u64 (rp_flags p) ∧ 0 <= rp_s2sz p < 2 ^ 32 ∧ 0 <= rp_sve_vl p < 2 ^ 32 ∧
  0 <= rp_num_bps p < 2 ^ 32 ∧ 0 <= rp_num_wps p < 2 ^ 32 ∧ 0 <= rp_pmu_num_ctrs p < 2 ^ 32 ∧
  0 <= rp_algorithm p < 2 ^ 8.

(** The messages hashed for one step after [rim], and for a whole history. *)
Definition content_msgs (o : rim_op) : list (list Z) :=
  match o with
  | MData data _ flags => if flags =? RMI_MEASURE_CONTENT then [data] else []
  | MRec p => [rmi_rec_params_bytes p]
  | MRipas _ _ => []
  end.

(** A digest in a 64-byte member. *)
Definition slot_of (algorithm : hash_algo) (m : list Z) : list Z :=
  member MAX_MEASUREMENT_SIZE (psa_hash_compute algorithm m).

Definition desc_msg (algorithm : hash_algo) (rim : list Z) (o : rim_op) : list Z :=
  match o with
  | MData data ipa flags =>
      measurement_desc_data_bytes
        {| dd_rim := copy_rim algorithm rim; dd_ipa := ipa; dd_flags := flags;
           dd_content := if flags =? RMI_MEASURE_CONTENT then slot_of algorithm data else zero_content |}
  | MRec p => measurement_desc_rec_bytes
      {| dr_rim := copy_rim algorithm rim; dr_content := slot_of algorithm (rmi_rec_params_bytes p) |}
  | MRipas base top => measurement_desc_ripas_bytes
      {| dp_rim := copy_rim algorithm rim; dp_base := base; dp_top := top |}
  end.

Fixpoint run_msgs (algorithm : hash_algo) (rim : list Z) (l : list rim_op) : list (list Z) :=
  match l with
  | [] => []
  | o :: l' => content_msgs o ++ desc_msg algorithm rim o ::
               run_msgs algorithm (slot_of algorithm (desc_msg algorithm rim o)) l'
  end.

Definition hashed_msgs (algorithm : hash_algo) (p : rmi_realm_params) (l : list rim_op)
  : list (list Z) :=
  rmi_realm_params_bytes p ::
  run_msgs algorithm (slot_of algorithm (rmi_realm_params_bytes p)) l.
End rim.

(** The documented behaviour of [psa_hash_compute]: a digest of the algorithm's length. *)
Class CryptoLaws (C : Crypto) : Prop := {
  hash_len : ∀ a m, Z.of_nat (length (psa_hash_compute a m)) = measurement_get_size a;
}.

(** * Layout lemmas *)

Lemma length_le_bytes n x : length (le_bytes n x) = n.
Proof. unfold le_bytes. by rewrite length_fmap, length_seq. Qed.

Lemma length_member n l : (length l <= n)%nat → length (member n l) = n.
Proof. intros. unfold member. rewrite length_app, length_replicate. lia. Qed.

Lemma le_bytes_S n x : le_bytes (S n) x = x mod 256 :: le_bytes n (x / 256).
Proof.
  unfold le_bytes. rewrite <- cons_seq, fmap_cons. f_equal.
  rewrite <- fmap_S_seq, <- list_fmap_compose. apply list_fmap_ext. intros i k Hk. unfold compose.
  f_equal. replace (8 * Z.of_nat (S k)) with (8 + 8 * Z.of_nat k) by lia.
  rewrite <- Z.shiftr_shiftr by lia. f_equal. by rewrite Z.shiftr_div_pow2.
Qed.

Lemma le_bytes_inj n x y :
  0 <= x < 2 ^ (8 * Z.of_nat n) → 0 <= y < 2 ^ (8 * Z.of_nat n) → le_bytes n x = le_bytes n y → x = y.
Proof.
  revert x y. induction n as [|n IH]; intros x y Hx Hy.
  { change (2 ^ (8 * Z.of_nat 0)) with 1 in *. lia. }
  rewrite !le_bytes_S. intros [= Hm Hd%IH].
  - rewrite (Z.div_mod x 256), (Z.div_mod y 256) by lia. congruence.
  - replace (8 * Z.of_nat (S n)) with (8 + 8 * Z.of_nat n) in * by lia.
    rewrite Z.pow_add_r in * by lia. split; [apply Z.div_pos; lia|].
    apply Z.div_lt_upper_bound; lia.
  - replace (8 * Z.of_nat (S n)) with (8 + 8 * Z.of_nat n) in * by lia.
    rewrite Z.pow_add_r in * by lia. split; [apply Z.div_pos; lia|].
    apply Z.div_lt_upper_bound; lia.
Qed.

Lemma member_app_inj n l l' r r' :
  (length l <= n)%nat → length l = length l' →
  member n l ++ r = member n l' ++ r' → l = l' ∧ r = r'.
Proof.
  intros Hl Hll H. apply app_inj_1 in H as [H Hr]; [|by rewrite !length_member; lia].
  split; [|done]. by apply app_inj_1 in H as [H _].
Qed.

Lemma member_inj n l l' : length l = length l' → member n l = member n l' → l = l'.
Proof. intros Hll H. by apply app_inj_1 in H as [H _]. Qed.

Lemma u64_bytes_inj n x y r r' :
  (8 <= n)%nat → is_u64 x → is_u64 y →
  member n (le_bytes 8 x) ++ r = member n (le_bytes 8 y) ++ r' → x = y ∧ r = r'.
Proof.
  intros Hn Hx Hy H. apply member_app_inj in H as [H Hr]; [|rewrite !length_le_bytes; lia..].
  split; [|done]. apply (le_bytes_inj 8); [exact Hx|exact Hy|done].
Qed.

Lemma u32_bytes_inj n x y r r' :
  (4 <= n)%nat → 0 <= x < 2 ^ 32 → 0 <= y < 2 ^ 32 →
  member n (le_bytes 4 x) ++ r = member n (le_bytes 4 y) ++ r' → x = y ∧ r = r'.
Proof.
  intros Hn Hx Hy H. apply member_app_inj in H as [H Hr]; [|rewrite !length_le_bytes; lia..].
  split; [|done]. apply (le_bytes_inj 4); [exact Hx|exact Hy|done].
Qed.

Lemma gprs_bytes_cons x l :
  mjoin (le_bytes 8 <$> x :: l) = le_bytes 8 x ++ mjoin (le_bytes 8 <$> l).
Proof. done. Qed.

Lemma gprs_bytes_inj l l' :
  length l = length l' → Forall is_u64 l → Forall is_u64 l' →
  mjoin (le_bytes 8 <$> l) = mjoin (le_bytes 8 <$> l') → l = l'.
Proof.
  revert l'. induction l as [|x l IH]; intros [|y l'] Hl Hx Hy; try done.
  rewrite !gprs_bytes_cons.
  apply Forall_cons in Hx as [Hx Hxs]. apply Forall_cons in Hy as [Hy Hys]. simpl in Hl.
  intros H. apply app_inj_1 in H as [H1 H2]; [|by rewrite !length_le_bytes].
  f_equal; [apply (le_bytes_inj 8); [exact Hx|exact Hy|done]|]. apply IH; [lia|done..].
Qed.

Lemma length_gprs l : length (mjoin (le_bytes 8 <$> l)) = (8 * length l)%nat.
Proof.
  induction l as [|x l IH]; [done|]. rewrite gprs_bytes_cons, length_app, length_le_bytes, IH. simpl. lia.
Qed.

Lemma realm_params_bytes_inj p q :
  params_ok p → params_ok q → rmi_realm_params_bytes p = rmi_realm_params_bytes q → p = q.
Proof.
  intros (?&?&?&?&?&?&Hp) (?&?&?&?&?&?&Hq) Heq. unfold rmi_realm_params_bytes in Heq.
  apply u64_bytes_inj in Heq as [Hq0 Heq]; [|lia|done..].
  do 5 (apply u32_bytes_inj in Heq as [? Heq]; [|lia|done..]).
  apply member_app_inj in Heq as [Ha _]; [|rewrite !length_le_bytes; lia..].
  apply le_bytes_inj in Ha; [|exact Hp|exact Hq]. destruct p, q. simpl in *. congruence.
Qed.

Lemma rec_params_bytes_inj p q :
  op_ok (MRec p) → op_ok (MRec q) → rmi_rec_params_bytes p = rmi_rec_params_bytes q → p = q.
Proof.
  intros (?&?&Hl&?) (?&?&Hl'&?) Heq. unfold rmi_rec_params_bytes in Heq.
  apply u64_bytes_inj in Heq as [Hq0 Heq]; [|lia|done..].
  apply member_app_inj in Heq as [_ Heq]; [|simpl; lia|done].
  apply u64_bytes_inj in Heq as [Hq1 Heq]; [|lia|done..].
  apply member_app_inj in Heq as [Heq _]; [|rewrite !length_gprs; unfold REC_CREATE_NR_GPRS in *; lia..].
  apply gprs_bytes_inj in Heq; [|congruence|done..]. destruct p, q. simpl in *. congruence.
Qed.

(** All descriptors have the size of the structure. *)
Lemma length_app_member n l r : (length l <= n)%nat → length (member n l ++ r) = (n + length r)%nat.
Proof. intros. by rewrite length_app, length_member. Qed.

Lemma length_realm_params p : length (rmi_realm_params_bytes p) = 4096%nat.
Proof.
  unfold rmi_realm_params_bytes. rewrite !length_app_member by (rewrite ?length_le_bytes; simpl; lia).
  by rewrite length_member by (simpl; lia).
Qed.

Lemma length_rec_params p :
  length (cp_gprs p) = REC_CREATE_NR_GPRS → length (rmi_rec_params_bytes p) = 4096%nat.
Proof.
  intros Hl. unfold rmi_rec_params_bytes.
  rewrite !length_app_member by (rewrite ?length_le_bytes, ?length_gprs, ?Hl; simpl; lia).
  by rewrite length_member by (simpl; lia).
Qed.

(** * Runs *)

Section binding.
Context {C : Crypto} {L : CryptoLaws C} (alg : hash_algo).

Lemma size_le : (digest_size alg <= 64)%nat.
Proof. apply Nat.leb_le. by destruct alg. Qed.

Lemma digest_len m : length (psa_hash_compute alg m) = digest_size alg.
Proof. pose proof (hash_len alg m). unfold digest_size. lia. Qed.

(** The measurement slot holds a digest followed by zeros. *)
Definition slot_ok (rim : list Z) : Prop := ∃ m, rim = slot_of alg m.

Lemma length_slot m : length (slot_of alg m) = 64%nat.
Proof. unfold slot_of. rewrite length_member; [done|]. rewrite digest_len. apply size_le. Qed.

Lemma slot_drop m : drop (digest_size alg) (slot_of alg m) = replicate (64 - digest_size alg) 0.
Proof. unfold slot_of, member. rewrite <- (digest_len m) at 1. by rewrite drop_app_length, digest_len. Qed.

Lemma hash_compute_run m out :
  (length m <= 4096)%nat → drop (digest_size alg) out = replicate (64 - digest_size alg) 0 →
  measurement_hash_compute alg m out = Ok (slot_of alg m).
Proof.
  intros Hm Hout. unfold measurement_hash_compute, do_hash.
  rewrite rassert_bind by (apply Z.leb_le; change GRANULE_SIZE with 4096; lia).
  rewrite rassert_bind by (apply Z.eqb_eq; apply hash_len).
  unfold slot_of, member. rewrite digest_len, Hout. done.
Qed.

Lemma drop_zero : drop (digest_size alg) zero_content = replicate (64 - digest_size alg) 0.
Proof. by destruct alg. Qed.

Lemma copy_rim_slot m : copy_rim alg (slot_of alg m) = psa_hash_compute alg m.
Proof.
  unfold copy_rim, slot_of, member. rewrite <- (digest_len m) at 1. by rewrite take_app_length.
Qed.

Lemma slot_inj m m' : slot_of alg m = slot_of alg m' → psa_hash_compute alg m = psa_hash_compute alg m'.
Proof. intros H. apply member_inj in H; [done|]. by rewrite !digest_len. Qed.

Lemma length_content b m : length (if b : bool then slot_of alg m else zero_content) = 64%nat.
Proof. destruct b; [apply length_slot|done]. Qed.

Lemma length_desc_msg m o : op_ok o → length (desc_msg alg (slot_of alg m) o) = 256%nat.
Proof.
  pose proof size_le as Hs. pose proof (digest_len m) as Hd.
  intros Ho. destruct o as [data ipa flags|p|base top]; cbn [desc_msg].
  - unfold measurement_desc_data_bytes. cbn [dd_rim dd_ipa dd_flags dd_content]. rewrite copy_rim_slot.
    rewrite !length_app_member by (rewrite ?length_le_bytes; simpl; lia).
    rewrite length_member by (rewrite length_content; lia). done.
  - unfold measurement_desc_rec_bytes. cbn [dr_rim dr_content]. rewrite copy_rim_slot.
    rewrite !length_app_member by (rewrite ?length_le_bytes; simpl; lia).
    rewrite length_member by (rewrite length_slot; lia). done.
  - unfold measurement_desc_ripas_bytes. cbn [dp_rim dp_base dp_top]. rewrite copy_rim_slot.
    rewrite !length_app_member by (rewrite ?length_le_bytes; simpl; lia).
    rewrite length_member by (rewrite length_le_bytes; lia). done.
Qed.

Lemma rim_step_run m o :
  op_ok o →
  rim_step alg (slot_of alg m) o = Ok (slot_of alg (desc_msg alg (slot_of alg m) o)).
Proof.
  intros Ho. pose proof (length_desc_msg m o Ho) as Hlen.
  assert (Hd : drop (digest_size alg) (slot_of alg m) = replicate (64 - digest_size alg) 0) by apply slot_drop.
  destruct o as [data ipa flags|p|base top]; cbn [rim_step desc_msg] in *.
  - destruct Ho as (Hdata & _). change GRANULE_SIZE with 4096 in Hdata.
    unfold measurement_data_granule_measure. revert Hlen.
    destruct (flags =? RMI_MEASURE_CONTENT); intros Hlen.
    + rewrite hash_compute_run, result_bind_ok by (done || apply drop_zero || lia).
      rewrite hash_compute_run; [done|lia|done].
    + rewrite result_bind_ok. rewrite hash_compute_run; [done|lia|done].
  - destruct Ho as (_ & _ & Hg & _). unfold measurement_rec_params_measure.
    rewrite hash_compute_run, result_bind_ok by (rewrite ?length_rec_params by done; lia || apply drop_zero).
    rewrite hash_compute_run; [done|lia|done].
  - unfold measurement_init_ripas_measure.
    rewrite hash_compute_run; [done|lia|done].
Qed.

(** The messages of the last descriptors of a history, and its final slot. *)
Fixpoint run_last (m : list Z) (l : list rim_op) : list Z :=
  match l with
  | [] => m
  | o :: l' => run_last (desc_msg alg (slot_of alg m) o) l'
  end.

Lemma rim_run_last m l :
  Forall op_ok l → rim_run alg (slot_of alg m) l = Ok (slot_of alg (run_last m l)).
Proof.
  revert m. induction l as [|o l IH]; intros m Hl; [done|]. apply Forall_cons in Hl as [Ho Hl].
  cbn [rim_run run_last]. rewrite rim_step_run, result_bind_ok by done. by apply IH.
Qed.

Lemma rim_of_last p l :
  Forall op_ok l → rim_of alg p l = Ok (slot_of alg (run_last (rmi_realm_params_bytes p) l)).
Proof.
  intros Hl. unfold rim_of, measurement_realm_params_measure.
  rewrite hash_compute_run, result_bind_ok by (rewrite ?length_realm_params; lia || apply drop_zero).
  by apply rim_run_last.
Qed.

Lemma run_last_snoc m l o :
  run_last m (l ++ [o]) = desc_msg alg (slot_of alg (run_last m l)) o.
Proof. revert m. induction l as [|x l IH]; intros m; [done|]. cbn [run_last app]. apply IH. Qed.

Lemma run_msgs_snoc m l o :
  run_msgs alg (slot_of alg m) (l ++ [o])
  = run_msgs alg (slot_of alg m) l ++ content_msgs o ++ [desc_msg alg (slot_of alg (run_last m l)) o].
Proof.
  revert m. induction l as [|x l IH]; intros m; cbn [run_msgs run_last app]; [done|].
  by rewrite IH, <- app_assoc.
Qed.

(** ** Descriptors determine what they describe *)

Definition inj_on (S : list (list Z)) : Prop :=
  ∀ x y, x ∈ S → y ∈ S → psa_hash_compute alg x = psa_hash_compute alg y → x = y.

Lemma desc_header t t' r r' :
  0 <= t < 256 → 0 <= t' < 256 →
  member 8 (le_bytes 1 t) ++ member 8 (le_bytes 8 256) ++ r
  = member 8 (le_bytes 1 t') ++ member 8 (le_bytes 8 256) ++ r' → t = t' ∧ r = r'.
Proof.
  intros Ht Ht' H. apply member_app_inj in H as [H1 H]; [|rewrite !length_le_bytes; lia..].
  apply member_app_inj in H as [_ H]; [|rewrite !length_le_bytes; lia..].
  split; [|done]. apply le_bytes_inj in H1; [done|exact Ht|exact Ht'].
Qed.

Ltac desc_split H :=
  apply desc_header in H as [Htype H]; [|done|done];
  apply member_app_inj in H as [Hrim H]; [|rewrite !copy_rim_slot, !digest_len; (apply size_le || done)..].

Lemma desc_msg_inj S m m' o o' :
  op_ok o → op_ok o' → inj_on S → content_msgs o ⊆ S → content_msgs o' ⊆ S →
  desc_msg alg (slot_of alg m) o = desc_msg alg (slot_of alg m') o' →
  psa_hash_compute alg m = psa_hash_compute alg m' ∧ op_view o = op_view o'.
Proof.
  intros Ho Ho' Hinj Hc Hc' H.
  destruct o as [d i f|p|b t], o' as [d' i' f'|p'|b' t']; cbn [desc_msg] in H;
    unfold measurement_desc_data_bytes, measurement_desc_rec_bytes, measurement_desc_ripas_bytes in H;
    cbn [dd_rim dd_ipa dd_flags dd_content dr_rim dr_content dp_rim dp_base dp_top] in H;
    desc_split H; try done; rewrite !copy_rim_slot in Hrim; split; try done.
  - destruct Ho as (_ & Hi & Hf), Ho' as (_ & Hi' & Hf').
    apply u64_bytes_inj in H as [<- H]; [|lia|done..].
    apply u64_bytes_inj in H as [<- H]; [|lia|done..].
    apply member_inj in H; [|by rewrite !length_content]. cbn [content_msgs op_view] in *.
    destruct (f =? RMI_MEASURE_CONTENT); [|done].
    apply slot_inj in H. f_equal. apply Hinj; [set_solver|set_solver|done].
  - apply member_inj in H;
      [|by rewrite !length_slot].
    apply slot_inj in H. cbn [content_msgs] in *.
    apply Hinj, rec_params_bytes_inj in H; [congruence|done|done|set_solver|set_solver].
  - destruct Ho as (Hb & Ht), Ho' as (Hb' & Ht').
    apply u64_bytes_inj in H as [<- H]; [|lia|done..].
    rewrite <- (app_nil_r (member 168 (le_bytes 8 t))), <- (app_nil_r (member 168 (le_bytes 8 t'))) in H.
    by apply u64_bytes_inj in H as [<- _]; [|lia|..].
Qed.

Lemma run_last_length p l :
  Forall op_ok l → length (run_last (rmi_realm_params_bytes p) l) = if l is [] then 4096%nat else 256%nat.
Proof.
  destruct l as [|o l _] using rev_ind; intros Hl; [apply length_realm_params|].
  apply Forall_app in Hl as [_ [Ho _]%Forall_cons]. rewrite run_last_snoc, length_desc_msg by done.
  by destruct l.
Qed.

Lemma run_last_in p l :
  run_last (rmi_realm_params_bytes p) l ∈ hashed_msgs alg p l.
Proof.
  unfold hashed_msgs. destruct l as [|o l _] using rev_ind; [by left|]. right.
  rewrite run_msgs_snoc, run_last_snoc. set_solver.
Qed.

Lemma hashed_msgs_snoc p l o :
  hashed_msgs alg p (l ++ [o])
  = hashed_msgs alg p l ++ content_msgs o ++
    [desc_msg alg (slot_of alg (run_last (rmi_realm_params_bytes p) l)) o].
Proof. unfold hashed_msgs. by rewrite run_msgs_snoc. Qed.

Lemma rim_binding_aux p q l k :
  params_ok p → params_ok q → Forall op_ok l → Forall op_ok k →
  inj_on (hashed_msgs alg p l ++ hashed_msgs alg q k) →
  psa_hash_compute alg (run_last (rmi_realm_params_bytes p) l)
  = psa_hash_compute alg (run_last (rmi_realm_params_bytes q) k) →
  p = q ∧ op_view <$> l = op_view <$> k.
Proof.
  intros Hp Hq. revert k. induction l as [|o l IH] using rev_ind; intros k Hl Hk Hinj H;
    destruct k as [|o' k _] using rev_ind;
    (apply Hinj in H; [|apply elem_of_app; left; apply run_last_in
                       |apply elem_of_app; right; apply run_last_in]);
    pose proof (f_equal length H) as Hlen; rewrite !run_last_length in Hlen by done.
  - split; [|done]. by apply realm_params_bytes_inj.
  - by destruct k.
  - by destruct l.
  - rewrite !run_last_snoc in H. rewrite !hashed_msgs_snoc in Hinj.
    apply Forall_app in Hl as [Hl [Ho _]%Forall_cons]. apply Forall_app in Hk as [Hk [Ho' _]%Forall_cons].
    destruct (desc_msg_inj _ _ _ _ _ Ho Ho' Hinj ltac:(set_solver) ltac:(set_solver) H) as [Hprev Hop].
    destruct (IH k Hl Hk) as [-> Hv]; [|done|].
    + intros x y Hx Hy. apply Hinj; set_solver.
    + split; [done|]. by rewrite !fmap_app, Hv, !list_fmap_singleton, Hop.
Qed.

(** The RIM binds the construction of a realm: two realms with the same RIM were
    created with the same measured parameters and built by the same sequence of measured
    steps, provided the hash function has no collision among the messages hashed in the
    two constructions. *)
Theorem rim_binding p q l k r :
  params_ok p → params_ok q → Forall op_ok l → Forall op_ok k →
  inj_on (hashed_msgs alg p l ++ hashed_msgs alg q k) →
  rim_of alg p l = Ok r → rim_of alg q k = Ok r →
  p = q ∧ op_view <$> l = op_view <$> k.
Proof.
  intros Hp Hq Hl Hk Hinj. rewrite !rim_of_last by done. intros [= <-] [= H].
  apply rim_binding_aux; [done..|]. symmetry. by apply slot_inj.
Qed.

End binding.

(** * A concrete hash for the witnesses *)

Definition toy_hash (a : hash_algo) (m : list Z) : list Z :=
  le_bytes (Z.to_nat (measurement_get_size a)) (foldl (λ h b, (h * 257 + b + 1) mod 1000003) 0 m).

#[local] Instance toy_crypto : Crypto := {| psa_hash_compute := toy_hash |}.
#[local] Instance toy_laws : CryptoLaws toy_crypto.
Proof. split. intros a m. simpl. unfold toy_hash. rewrite length_le_bytes. by destruct a. Qed.

Definition example_params : rmi_realm_params :=
  {| rp_flags := 0; rp_s2sz := 40; rp_sve_vl := 0; rp_num_bps := 1; rp_num_wps := 1;
     rp_pmu_num_ctrs := 0; rp_algorithm := 0 |}.

Definition inj_onb (a : hash_algo) (S : list (list Z)) : bool :=
  forallb (λ x, forallb (λ y, negb (bool_decide (psa_hash_compute a x = psa_hash_compute a y))
                              || bool_decide (x = y)) S) S.

Lemma inj_onb_ok a S : inj_onb a S = true → inj_on a S.
Proof.
  unfold inj_onb. rewrite List.forallb_forall. intros H x y Hx Hy Hxy.
  apply list_elem_of_In in Hx, Hy. specialize (H x Hx). rewrite List.forallb_forall in H.
  specialize (H y Hy). rewrite (bool_decide_eq_true_2 _ Hxy) in H. simpl in H.
  by apply bool_decide_eq_true in H.
Qed.

Lemma example_params_ok : params_ok example_params.
Proof. unfold params_ok, is_u64; simpl. lia. Qed.

Lemma example_ops_ok : Forall op_ok [MRipas 0 4096].
Proof. repeat constructor; simpl; lia. Qed.

Lemma rim_binding_witness :
  [op_view (MRipas 0 4096)] = [op_view (MRipas 0 4096)].
Proof.
  eapply (rim_binding HASH_SHA_256 example_params example_params [MRipas 0 4096] [MRipas 0 4096]
    (slot_of HASH_SHA_256 (run_last HASH_SHA_256 (rmi_realm_params_bytes example_params) [MRipas 0 4096]))).
  - apply example_params_ok.
  - apply example_params_ok.
  - apply example_ops_ok.
  - apply example_ops_ok.
  - apply inj_onb_ok. vm_compute. reflexivity.
  - apply rim_of_last, example_ops_ok.
  - apply rim_of_last, example_ops_ok.
Defined.

