(* ===== verification/Buffer.v ===== *)
(** The slot buffers through which the monitor reaches the memory of granules
    (lib/slot_buf/src/buffer.c): mapping, unmapping, zeroing, and the copies from and to
    host memory; and the typed views of what a mapped granule holds. *)
From S2P Require Import Prelude Types Granule Platform GranuleFind.

(** * Slots (lib/slot_buf/include/buffer.h) *)

Definition MAX_REC_AUX_GRANULES : Z := 16.

Definition SLOT_NS : Z := 0.
Definition SLOT_DELEGATED : Z := 1.
Definition SLOT_RD : Z := 2.
Definition SLOT_RD2 : Z := 3.
Definition SLOT_REC : Z := 4.
Definition SLOT_REC2 : Z := 5.
Definition SLOT_REC_TARGET : Z := 6.
Definition SLOT_REC_AUX0 : Z := 7.
Definition SLOT_RTT : Z := SLOT_REC_AUX0 + MAX_REC_AUX_GRANULES.
Definition SLOT_RTT2 : Z := SLOT_RTT + 1.
Definition SLOT_RSI_CALL : Z := SLOT_RTT2 + 1.
Definition SLOT_EL3_TOKEN_SIGN_REC : Z := SLOT_RSI_CALL + 1.
Definition SLOT_EL3_TOKEN_SIGN_AUX0 : Z := SLOT_EL3_TOKEN_SIGN_REC + 1.
Definition SLOT_APT : Z := SLOT_EL3_TOKEN_SIGN_AUX0 + 1.
Definition SLOT_APT2 : Z := SLOT_APT + 1.
Definition NR_CPU_SLOTS : Z := SLOT_EL3_TOKEN_SIGN_AUX0 + MAX_REC_AUX_GRANULES.

(** * Memory outside the monitor *)

(** What the hardware and the host decide: the widest physical address, and whether an
    8-byte access to host memory faults, with the bytes it reads. *)
Class Machine := {
  xlat_arch_get_max_supported_pa : Z;
  ns_ldr : state → Z → Z → option (list Z);
  ns_str : state → Z → Z → list Z → bool;
}.

Class MachineLaws (P : Platform) (H : Machine) : Prop := {
  max_pa_granules g a : 0 <= g → granule_addr g = Ok a → a <= xlat_arch_get_max_supported_pa;
  ns_ldr_len s g o l : ns_ldr s g o = Some l → length l = 8%nat;
  ns_ldr_byte s g o l : ns_ldr s g o = Some l → Forall (λ b, 0 <= b < 256) l;
}.

Section buffer.
Context {P : Platform} {H : Machine}.

Definition is_ns_slot (slot : Z) : bool := slot =? SLOT_NS.
Definition is_realm_slot (slot : Z) : bool := negb (slot =? SLOT_NS) && (slot <? NR_CPU_SLOTS).

(** ** Mapping *)

(** The virtual address of a slot determines it, so a mapped buffer is named by its
    slot; the memory of granule [g] is at [addr]. *)
Definition buffer_map_internal (slot g addr : Z) : M state (option Z) :=
  massert (slot <? NR_CPU_SLOTS) ≫= λ _,
  massert (GRANULE_ALIGNED addr) ≫= λ _,
  gets slots ≫= λ m,
  match m !! slot with
  | Some _ => mret None
  | None =>
      if xlat_arch_get_max_supported_pa <? addr then mret None
      else mmodify (set_slots (<[slot := g]> m)) ≫= λ _, mret (Some slot)
  end.

Definition buffer_unmap_internal (buf : Z) : M state () :=
  gets slots ≫= λ m,
  massert (bool_decide (is_Some (m !! buf))) ≫= λ _,
  mmodify (set_slots (delete buf m)).

Definition ns_buffer_granule_map (slot g : Z) : M state (option Z) :=
  lift (granule_addr g) ≫= λ addr,
  massert (is_ns_slot slot) ≫= λ _, buffer_map_internal slot g addr.

Definition buffer_granule_map (g slot : Z) : M state (option Z) :=
  lift (granule_addr g) ≫= λ addr,
  massert (is_realm_slot slot) ≫= λ _, buffer_map_internal slot g addr.

Definition buffer_unmap (buf : Z) : M state () := buffer_unmap_internal buf.

(** [p = buffer_granule_map(g, slot); assert(p != NULL);] *)
Definition map_assert (g slot : Z) : M state Z :=
  buffer_granule_map g slot ≫= λ p,
  massert (bool_decide (is_Some p)) ≫= λ _, mderef p.

Definition check_cpu_slots_empty : M state bool :=
  gets slots ≫= λ m,
  lift (first_index (Z.to_nat NR_CPU_SLOTS) 0 (λ i, Ok (bool_decide (is_Some (m !! i))))) ≫= λ o,
  mret (bool_decide (o = None)).

(** ** Access to a mapped granule *)

Definition read_page (buf : Z) : M state page :=
  gets slots ≫= λ m, mderef (m !! buf) ≫= λ g, gets mem ≫= λ mm, mderef (mm !! g).

Definition write_page (buf : Z) (p : page) : M state () :=
  gets slots ≫= λ m, mderef (m !! buf) ≫= λ g,
  gets mem ≫= λ mm, mmodify (set_mem (<[g := p]> mm)).

Definition rd_zero : rd :=
  {| rd_state := 0; rec_count := 0; rim := replicate 64 0; rems := replicate 4 (replicate 64 0); s2_ctx := s2tt_context_zero;
     num_rec_aux := 0;
     algorithm := HASH_SHA_256; pmu_enabled := false; pmu_num_ctrs := 0;
     simd_cfg := simd_config_zero; rpv := replicate 64 0; apt_pa := 0 |}.

(** The typed views; a zeroed granule is the zero value of every type. *)
Definition page_table (p : page) : option (list Z) :=
  match p with
  | PZero => Some (replicate (Z.to_nat S2TTES_PER_S2TT) 0)
  | PTable t => Some t
  | _ => None
  end.
Definition page_rd (p : page) : option rd :=
  match p with PZero => Some rd_zero | PRd r => Some r | _ => None end.
Definition page_rec (p : page) : option rec :=
  match p with PZero => Some rec_zero | PRec r => Some r | _ => None end.
Definition page_apt (p : page) : option apt :=
  match p with PZero => Some apt_zero | PApt a => Some a | _ => None end.

Definition read_table (buf : Z) : M state (list Z) := read_page buf ≫= λ p, mderef (page_table p).
Definition read_rd (buf : Z) : M state rd := read_page buf ≫= λ p, mderef (page_rd p).
Definition read_rec (buf : Z) : M state rec := read_page buf ≫= λ p, mderef (page_rec p).
Definition read_apt (buf : Z) : M state apt := read_page buf ≫= λ p, mderef (page_apt p).

(** [s2tte_read(&table[i])] and [s2tte_write(&table[i], e)] on a mapped table. *)
Definition tte_read (table i : Z) : M state Z := read_table table ≫= λ t, lift (aget t i).
Definition tte_write (table i e : Z) : M state () :=
  read_table table ≫= λ t, lift (aset t i e) ≫= λ t, write_page table (PTable t).

Definition granule_memzero_mapped (buf : Z) : M state () := write_page buf PZero.

Definition buffer_granule_memzero (g slot : Z) : M state () :=
  map_assert g slot ≫= λ buf,
  granule_memzero_mapped buf ≫= λ _, buffer_unmap buf.

(** ** Host memory *)

(** The loop of [memcpy_ns_read], [n] words left: whether it ran to the end, and the
    bytes copied. *)
Fixpoint memcpy_ns_read (n : nat) (s : state) (g offset : Z) : bool * list Z :=
  match n with
  | O => (true, [])
  | S n' =>
      match ns_ldr s g offset with
      | None => (false, [])
      | Some w => let '(ok, l) := memcpy_ns_read n' s g (offset + 8) in (ok, w ++ l)
      end
  end.

Fixpoint memcpy_ns_write (n : nat) (s : state) (g offset : Z) (src : list Z) : bool :=
  match n with
  | O => true
  | S n' => ns_str s g offset (take 8 src) && memcpy_ns_write n' s g (offset + 8) (drop 8 src)
  end.

(** The answer, and the bytes written at [dest]. *)
Definition ns_buffer_read (slot ns_gr offset sz : Z) : M state (bool * list Z) :=
  massert (is_ns_slot slot) ≫= λ _,
  massert (ALIGNED sz 8) ≫= λ _,
  massert (ALIGNED offset 8) ≫= λ _,
  let offset := Z.land offset (u32 (.~ GRANULE_MASK)) in
  massert (offset .+ sz <=? GRANULE_SIZE) ≫= λ _,
  ns_buffer_granule_map slot ns_gr ≫= λ src,
  mderef src ≫= λ src,
  gets (λ s, memcpy_ns_read (Z.to_nat (sz / 8)) s ns_gr offset) ≫= λ retval,
  buffer_unmap_internal src ≫= λ _, mret retval.

Definition ns_buffer_write (slot ns_gr offset sz : Z) (src : list Z) : M state bool :=
  massert (is_ns_slot slot) ≫= λ _,
  massert (ALIGNED sz 8) ≫= λ _,
  massert (ALIGNED offset 8) ≫= λ _,
  let offset := Z.land offset (u32 (.~ GRANULE_MASK)) in
  massert (offset .+ sz <=? GRANULE_SIZE) ≫= λ _,
  ns_buffer_granule_map slot ns_gr ≫= λ dest,
  mderef dest ≫= λ dest,
  gets (λ s, memcpy_ns_write (Z.to_nat (sz / 8)) s ns_gr offset src) ≫= λ retval,
  buffer_unmap_internal dest ≫= λ _, mret retval.

(** ** Auxiliary granules *)

Fixpoint aux_map_loop (l : list Z) (slot i : Z) (rec_aux : option Z) : M state (option Z) :=
  match l with
  | [] => mret rec_aux
  | g :: l' =>
      buffer_granule_map g (slot + i) ≫= λ aux,
      massert (bool_decide (is_Some aux)) ≫= λ _,
      aux_map_loop l' slot (i + 1) (if i =? 0 then aux else rec_aux)
  end.

Definition buffer_aux_granules_map_internal (g_rec_aux : list Z) (num_aux slot : Z)
  : M state (option Z) :=
  massert (num_aux <=? MAX_REC_AUX_GRANULES) ≫= λ _,
  aux_map_loop (take (Z.to_nat num_aux) g_rec_aux) slot 0 None.

Definition buffer_aux_granules_map (g_rec_aux : list Z) (num_aux : Z) : M state (option Z) :=
  buffer_aux_granules_map_internal g_rec_aux num_aux SLOT_REC_AUX0.

Definition buffer_aux_granules_map_el3_token_sign_slot (g_rec_aux : list Z) (num_aux : Z)
  : M state (option Z) :=
  buffer_aux_granules_map_internal g_rec_aux num_aux SLOT_EL3_TOKEN_SIGN_AUX0.

Definition buffer_aux_unmap (rec_aux num_aux : Z) : M state () :=
  massert (num_aux <=? MAX_REC_AUX_GRANULES) ≫= λ _,
  mfor (Z.of_nat <$> seq 0 (Z.to_nat num_aux)) (λ i, buffer_unmap (rec_aux + i)).

(** * Runs *)

Context {L : PlatformLaws P} {HL : MachineLaws P H}.

(** [g] is a granule of the platform. *)
Definition has_addr (g : Z) : Prop := 0 <= g ∧ ∃ a, granule_addr g = Ok a.

Lemma find_granule_has_addr a g : is_u64 a → find_granule a = Ok (Some g) → has_addr g.
Proof. intros Ha Hf. apply find_granule_Some in Hf as (_ & ? & ?); [|done]. split; [lia|eauto]. Qed.

Lemma buffer_map_internal_run s slot g a :
  slot < NR_CPU_SLOTS → 0 <= g → granule_addr g = Ok a → slots s !! slot = None →
  buffer_map_internal slot g a s = Ok (Some slot, set_slots (<[slot := g]> (slots s)) s).
Proof using L HL.
  intros Hs Hg Ha Hn. destruct (plat_idx_addr g a Hg Ha) as (_ & Hal & _).
  unfold buffer_map_internal. run_step (massert_run _ s (proj2 (Z.ltb_lt _ _) Hs)).
  run_step (massert_run _ s Hal). rewrite gets_bind, Hn.
  rewrite (proj2 (Z.ltb_ge _ _)) by (by eapply max_pa_granules). done.
Qed.

Lemma buffer_granule_map_run s g slot :
  has_addr g → is_realm_slot slot = true → slots s !! slot = None →
  buffer_granule_map g slot s = Ok (Some slot, set_slots (<[slot := g]> (slots s)) s).
Proof using L HL.
  intros [Hg [a Ha]] Hs Hn. unfold buffer_granule_map. run_step (lift_run _ _ _ Ha).
  run_step (massert_run _ s Hs). apply andb_true_iff in Hs as [_ Hs%Z.ltb_lt].
  by apply buffer_map_internal_run.
Qed.

Lemma map_assert_run s g slot :
  has_addr g → is_realm_slot slot = true → slots s !! slot = None →
  map_assert g slot s = Ok (slot, set_slots (<[slot := g]> (slots s)) s).
Proof using L HL. intros Hg Hs Hn. unfold map_assert. by run_step (buffer_granule_map_run s g slot Hg Hs Hn). Qed.

Lemma buffer_unmap_run s buf g :
  slots s !! buf = Some g →
  buffer_unmap buf s = Ok ((), set_slots (delete buf (slots s)) s).
Proof.
  intros Hb. unfold buffer_unmap, buffer_unmap_internal. rewrite gets_bind.
  by rewrite (bind_run _ _ _ _ _ (massert_run _ s (bool_decide_eq_true_2 _ (mk_is_Some _ _ Hb)))).
Qed.

Lemma read_page_run s buf g p :
  slots s !! buf = Some g → mem s !! g = Some p → read_page buf s = Ok (p, s).
Proof.
  intros Hb Hp. unfold read_page. rewrite gets_bind, Hb.
  run_step (mderef_run _ _ _ eq_refl). by rewrite gets_bind, Hp.
Qed.

Lemma write_page_run s buf g p :
  slots s !! buf = Some g → write_page buf p s = Ok ((), set_mem (<[g := p]> (mem s)) s).
Proof. intros Hb. unfold write_page. by rewrite gets_bind, Hb. Qed.

Lemma read_table_run s buf g p t :
  slots s !! buf = Some g → mem s !! g = Some p → page_table p = Some t →
  read_table buf s = Ok (t, s).
Proof. intros Hb Hp Ht. unfold read_table. run_step (read_page_run s _ _ _ Hb Hp). by rewrite Ht. Qed.

Lemma read_rd_run s buf g p r :
  slots s !! buf = Some g → mem s !! g = Some p → page_rd p = Some r →
  read_rd buf s = Ok (r, s).
Proof. intros Hb Hp Ht. unfold read_rd. run_step (read_page_run s _ _ _ Hb Hp). by rewrite Ht. Qed.

Lemma read_rec_run s buf g p r :
  slots s !! buf = Some g → mem s !! g = Some p → page_rec p = Some r →
  read_rec buf s = Ok (r, s).
Proof. intros Hb Hp Ht. unfold read_rec. run_step (read_page_run s _ _ _ Hb Hp). by rewrite Ht. Qed.

Lemma tte_read_run s buf g p t i e :
  slots s !! buf = Some g → mem s !! g = Some p → page_table p = Some t →
  0 <= i → t !! Z.to_nat i = Some e → tte_read buf i s = Ok (e, s).
Proof.
  intros Hb Hp Ht Hi He. unfold tte_read. run_step (read_table_run s _ _ _ _ Hb Hp Ht).
  by rewrite (lift_run _ _ _ (aget_lookup _ _ _ Hi He)).
Qed.

Lemma tte_write_run s buf g p t i e :
  slots s !! buf = Some g → mem s !! g = Some p → page_table p = Some t →
  0 <= i < Z.of_nat (length t) →
  tte_write buf i e s = Ok ((), set_mem (<[g := PTable (<[Z.to_nat i := e]> t)]> (mem s)) s).
Proof.
  intros Hb Hp Ht Hi. unfold tte_write. run_step (read_table_run s _ _ _ _ Hb Hp Ht).
  run_step (lift_run _ _ _ (aset_ok _ _ e Hi)). by apply write_page_run.
Qed.

(** Mapping a free slot and unmapping it leaves the slots as they were. *)
Lemma slots_restore s g slot :
  slots s !! slot = None →
  set_slots (delete slot (<[slot := g]> (slots s))) s = s.
Proof. intros Hn. rewrite delete_insert_id by done. by destruct s. Qed.

Lemma buffer_granule_memzero_run s g slot :
  has_addr g → is_realm_slot slot = true → slots s !! slot = None →
  buffer_granule_memzero g slot s = Ok ((), set_mem (<[g := PZero]> (mem s)) s).
Proof using L HL.
  intros Hg Hs Hn. unfold buffer_granule_memzero. run_step (map_assert_run s g slot Hg Hs Hn).
  unfold granule_memzero_mapped.
  run_step (write_page_run _ _ _ PZero (lookup_insert_eq (slots s) slot g)).
  erewrite buffer_unmap_run by apply lookup_insert_eq. unfold set_slots, set_mem; simpl.
  by rewrite delete_insert_id.
Qed.

(** ** Copies from the host *)

Lemma memcpy_ns_read_ok n s g o :
  let '(ok, l) := memcpy_ns_read n s g o in
  (ok = true → length l = (8 * n)%nat) ∧
  (ok = true ↔ ∀ k, (k < n)%nat → is_Some (ns_ldr s g (o + 8 * Z.of_nat k))).
Proof using HL.
  revert o. induction n as [|n IH]; intros o; cbn [memcpy_ns_read].
  { split; [done|]. split; [lia|done]. }
  destruct (ns_ldr s g o) as [w|] eqn:Hw; cycle 1.
  { split; [done|]. split; [done|]. intros Hk. specialize (Hk 0%nat ltac:(lia)).
    rewrite Z.mul_0_r, Z.add_0_r, Hw in Hk. by destruct Hk. }
  specialize (IH (o + 8)). destruct (memcpy_ns_read n s g (o + 8)) as [ok l]. destruct IH as [Hl Hok].
  split.
  { intros Ht. rewrite length_app, Hl by done. rewrite (ns_ldr_len _ _ _ _ Hw). lia. }
  rewrite Hok. split.
  - intros Hk [|k] Hlt; [rewrite Z.mul_0_r, Z.add_0_r, Hw; eauto|].
    replace (o + 8 * Z.of_nat (S k)) with (o + 8 + 8 * Z.of_nat k) by lia. apply Hk. lia.
  - intros Hk k Hlt. replace (o + 8 + 8 * Z.of_nat k) with (o + 8 * Z.of_nat (S k)) by lia.
    apply Hk. lia.
Qed.

Lemma memcpy_ns_read_byte n s g o : Forall (λ b, 0 <= b < 256) (memcpy_ns_read n s g o).2.
Proof using HL.
  revert o. induction n as [|n IH]; intros o; cbn [memcpy_ns_read]; [constructor|].
  destruct (ns_ldr s g o) as [w|] eqn:Hw; [|constructor]. specialize (IH (o + 8)).
  destruct (memcpy_ns_read n s g (o + 8)) as [ok l]. apply Forall_app. split; [by eapply ns_ldr_byte|done].
Qed.

Lemma ns_buffer_read_run s g offset sz :
  has_addr g → slots s !! SLOT_NS = None → 0 <= sz → ALIGNED sz 8 = true → ALIGNED offset 8 = true →
  offset mod 4096 + sz <= 4096 →
  ns_buffer_read SLOT_NS g offset sz s
  = Ok (memcpy_ns_read (Z.to_nat (sz / 8)) (set_slots (<[SLOT_NS := g]> (slots s)) s) g (offset mod 4096), s).
Proof using L HL.
  intros [Hg [a Ha]] Hn Hsz Has Hao Hfit. unfold ns_buffer_read. run_step (massert_run _ s eq_refl).
  run_step (massert_run _ s Has). run_step (massert_run _ s Hao). cbv zeta.
  change (u32 (.~ GRANULE_MASK)) with (2 ^ 12 - 1). rewrite land_ones_mod by lia.
  change (2 ^ 12) with 4096. pose proof (Z.mod_pos_bound offset 4096 ltac:(lia)).
  rewrite (bind_run _ _ _ _ _ (massert_run _ s (proj2 (Z.leb_le (offset mod 4096 .+ sz) GRANULE_SIZE)
    ltac:(rewrite u64_small by (unfold is_u64; lia); exact Hfit)))).
  unfold ns_buffer_granule_map. rewrite bind_assoc. run_step (lift_run _ _ _ Ha).
  rewrite bind_assoc. run_step (massert_run _ s eq_refl).
  run_step (buffer_map_internal_run s SLOT_NS g a eq_refl Hg Ha Hn).
  run_step (mderef_run _ _ _ eq_refl). rewrite gets_bind.
  change buffer_unmap_internal with buffer_unmap.
  erewrite bind_run by (eapply buffer_unmap_run; apply lookup_insert_eq).
  unfold set_slots at 1; simpl. rewrite delete_insert_id by done. by destruct s.
Qed.

(** Reading host memory always returns and leaves the monitor's state as it was: the
    answer is [true] exactly when none of the 8-byte loads faults, and then exactly the
    requested number of bytes was copied. *)
Theorem ns_buffer_read_spec s g offset sz :
  has_addr g → slots s !! SLOT_NS = None → 0 <= sz → ALIGNED sz 8 = true → ALIGNED offset 8 = true →
  offset mod 4096 + sz <= 4096 →
  ∃ ok l, ns_buffer_read SLOT_NS g offset sz s = Ok ((ok, l), s) ∧
    (ok = true → Z.of_nat (length l) = sz) ∧
    (ok = true ↔ ∀ k, (k < Z.to_nat (sz / 8))%nat →
       is_Some (ns_ldr (set_slots (<[SLOT_NS := g]> (slots s)) s) g (offset mod 4096 + 8 * Z.of_nat k))).
Proof using L HL.
  intros Hg Hn Hsz Has Hao Hfit. rewrite ns_buffer_read_run by done.
  pose proof (memcpy_ns_read_ok (Z.to_nat (sz / 8)) (set_slots (<[SLOT_NS := g]> (slots s)) s) g (offset mod 4096)) as Hm.
  destruct (memcpy_ns_read _ _ _ _) as [ok l]. destruct Hm as [Hl Hok]. exists ok, l.
  split; [done|]. split; [|done]. intros Ht. rewrite Hl by done.
  unfold ALIGNED in Has. apply Z.eqb_eq in Has.
  pose proof (Z.div_mod sz 8 ltac:(lia)). pose proof (Z.div_pos sz 8 Hsz ltac:(lia)). lia.
Qed.

(** The slots reserved for the auxiliary granules of a token-signing REC overlap the
    slots of access permission tables: while a table is mapped, mapping two or more
    auxiliary granules fails its assertion. *)
Theorem slot_apt_alias s g1 g2 g_apt :
  has_addr g1 → has_addr g2 → slots s !! SLOT_EL3_TOKEN_SIGN_AUX0 = None →
  slots s !! SLOT_APT = Some g_apt →
  buffer_aux_granules_map_el3_token_sign_slot [g1; g2] 2 s = Err FAssert.
Proof using L HL.
  intros Hg1 [Hg2 [a Ha]] Hn Hapt.
  unfold buffer_aux_granules_map_el3_token_sign_slot, buffer_aux_granules_map_internal.
  run_step (massert_run _ s eq_refl). change (take (Z.to_nat 2) [g1; g2]) with [g1; g2]. cbn [aux_map_loop].
  run_step (buffer_granule_map_run s g1 (SLOT_EL3_TOKEN_SIGN_AUX0 + 0) Hg1 eq_refl Hn).
  run_step (massert_run _ _ eq_refl).
  unfold buffer_granule_map at 1. rewrite bind_assoc. run_step (lift_run _ _ _ Ha).
  rewrite bind_assoc. run_step (massert_run _ _ eq_refl).
  unfold buffer_map_internal. rewrite bind_assoc. run_step (massert_run _ _ eq_refl).
  destruct (plat_idx_addr g2 a Hg2 Ha) as (_ & Hal & _).
  rewrite bind_assoc. run_step (massert_run _ _ Hal). rewrite bind_assoc, gets_bind. simpl.
  change (SLOT_EL3_TOKEN_SIGN_AUX0 + 1) with SLOT_APT in *.
  change (SLOT_EL3_TOKEN_SIGN_AUX0 + (0 + 1)) with SLOT_APT.
  rewrite lookup_insert_ne by done. rewrite Hapt. done.
Qed.
End buffer.

(** * A platform and a machine for the examples *)

(** [n] granules from [base]. *)
Definition flat_platform (n base : Z) : Platform := {|
  RMM_MAX_GRANULES := n;
  plat_granule_addr_to_idx a :=
    Ok (if (base <=? a) && (a <? base + 4096 * n) then (a - base) / 4096 else 2 ^ 64 - 1);
  plat_granule_idx_to_addr i :=
    if (0 <=? i) && (i <? n) then Ok (base + 4096 * i) else Err FAssert;
|}.

Lemma flat_laws n b :
  0 < n < 2 ^ 32 → 0 <= b < 2 ^ 48 → b mod 4096 = 0 → PlatformLaws (flat_platform n b).
Proof.
  intros Hn Hb Hal. assert (Hdiv : ∀ i, (b + 4096 * i - b) / 4096 = i).
  { intros i. replace (b + 4096 * i - b) with (i * 4096) by lia. by apply Z.div_mul. }
  split; simpl.
  - lia.
  - intros a Ha Haa. eexists. split; [done|].
    destruct (Z.leb_spec b a), (Z.ltb_spec a (b + 4096 * n)); simpl; try lia.
    split; [apply Z.div_pos; lia|]. apply Z.div_lt_upper_bound; lia.
  - intros a i Ha Haa [= <-] Hi. apply granule_aligned_mod in Haa.
    destruct (Z.leb_spec b a), (Z.ltb_spec a (b + 4096 * n)); simpl in *; try lia.
    assert (Hm : (a - b) mod 4096 = 0).
    { rewrite Zminus_mod, Haa, Hal. done. }
    pose proof (Z.div_mod (a - b) 4096 ltac:(lia)). pose proof (Z.div_pos (a - b) 4096 ltac:(lia) ltac:(lia)).
    rewrite (proj2 (Z.leb_le 0 _)), (proj2 (Z.ltb_lt _ n)) by lia. simpl. f_equal. lia.
  - intros i a Hi. destruct (Z.leb_spec 0 i), (Z.ltb_spec i n); simpl; try done. intros [= <-].
    split; [unfold is_u64; lia|]. split.
    { apply granule_aligned_mod. rewrite Zplus_mod, Hal, Z.mul_comm, Z.mod_mul by lia. done. }
    split; [lia|]. split; [done|].
    rewrite (proj2 (Z.leb_le _ _)), (proj2 (Z.ltb_lt _ _)) by lia. simpl. by rewrite Hdiv.
  - intros a i j _ _ [= <-] Hi [= <-] Hj.
    destruct (Z.leb_spec b a), (Z.ltb_spec a (b + 4096 * n)), (Z.leb_spec b (a + 4096)), (Z.ltb_spec (a + 4096) (b + 4096 * n));
      simpl in *; try lia. replace (a + 4096 - b) with (a - b + 1 * 4096) by lia. by rewrite Z.div_add by lia.
Qed.

(** Host memory that never faults and reads as zeros. *)
Definition zero_machine : Machine := {|
  xlat_arch_get_max_supported_pa := 2 ^ 52 - 1;
  ns_ldr _ _ _ := Some (replicate 8 0);
  ns_str _ _ _ _ := true;
|}.

Lemma zero_machine_laws n b :
  0 < n < 2 ^ 32 → 0 <= b < 2 ^ 48 → b mod 4096 = 0 → MachineLaws (flat_platform n b) zero_machine.
Proof.
  intros Hn Hb Hal. split.
  - intros g a Hg Ha. destruct (flat_laws n b Hn Hb Hal) as [_ _ _ Hidx].
    destruct (Hidx g a Hg Ha) as (_ & _ & Hlt & _). simpl. lia.
  - intros s g o l [= <-]. done.
  - intros s g o l [= <-]. by repeat constructor.
Qed.

Lemma ns_buffer_read_spec_witness :
  ∃ ok l, ns_buffer_read (P := flat_platform 16 0) (H := zero_machine) SLOT_NS 3 0 4096 state_init
          = Ok ((ok, l), state_init).
Proof.
  destruct (ns_buffer_read_spec (P := flat_platform 16 0) (H := zero_machine)
    (L := flat_laws 16 0 ltac:(lia) ltac:(lia) eq_refl)
    (HL := zero_machine_laws 16 0 ltac:(lia) ltac:(lia) eq_refl) state_init 3 0 4096)
    as (ok & l & Hrun & _).
  - split; [lia|]. by exists 12288.
  - reflexivity.
  - lia.
  - reflexivity.
  - reflexivity.
  - vm_compute. discriminate.
  - exists ok, l. exact Hrun.
Defined.

Lemma slot_apt_alias_witness :
  buffer_aux_granules_map_el3_token_sign_slot (P := flat_platform 16 0) (H := zero_machine) [1; 2] 2
    (set_slots {[ SLOT_APT := 3 ]} state_init) = Err FAssert.
Proof.
  apply (slot_apt_alias (P := flat_platform 16 0) (H := zero_machine)
    (L := flat_laws 16 0 ltac:(lia) ltac:(lia) eq_refl)
    (HL := zero_machine_laws 16 0 ltac:(lia) ltac:(lia) eq_refl) _ _ _ 3).
  - split; [lia|]. by exists 4096.
  - split; [lia|]. by exists 8192.
  - reflexivity.
  - reflexivity.
Defined.
