(* ===== verification/Delegate.v ===== *)
(** Granule delegation (runtime/rmi/granule.c): a granule moves between the host and the
    Realm world, and is wiped on its way in. *)
From S2P Require Import Prelude Types Granule Platform GranuleFind Buffer.

(** The answers of EL3 to the granule transition calls; EL3 may decide from anything. *)
Class EL3 := {
  rmm_el3_ifc_gtsi_delegate : Z → state → Z;
  rmm_el3_ifc_gtsi_undelegate : Z → state → Z;
}.

Definition SMC_SUCCESS : Z := 0.

Section delegate.
Context {P : Platform} {H : Machine} {E : EL3}.

Definition smc_granule_delegate (addr : Z) : M state Z :=
  find_lock_granule addr GRANULE_STATE_NS ≫= λ og,
  match og with
  | None => mret RMI_ERROR_INPUT
  | Some g =>
      gets (rmm_el3_ifc_gtsi_delegate addr) ≫= λ r,
      if negb (r =? SMC_SUCCESS) then granule_unlock g ≫= λ _, mret RMI_ERROR_INPUT
      else
        granule_set_state g GRANULE_STATE_DELEGATED ≫= λ _,
        buffer_granule_memzero g SLOT_DELEGATED ≫= λ _,
        granule_unlock g ≫= λ _, mret RMI_SUCCESS
  end.

Definition smc_granule_undelegate (addr : Z) : M state Z :=
  find_lock_granule addr GRANULE_STATE_DELEGATED ≫= λ og,
  match og with
  | None => mret RMI_ERROR_INPUT
  | Some g =>
      gets (rmm_el3_ifc_gtsi_undelegate addr) ≫= λ r,
      if negb (r =? SMC_SUCCESS) then granule_unlock g ≫= λ _, mfault FPanic
      else
        granule_set_state g GRANULE_STATE_NS ≫= λ _,
        granule_unlock g ≫= λ _, mret RMI_SUCCESS
  end.

(** * The abstract transitions *)

(** Granule [g] becomes an unlocked, unreferenced granule in state [st]. *)
Definition retype (g st : Z) (s : state) : state :=
  match granules s !! g with
  | Some gr => put_granule g (Gr false st 0 (owner_tag gr)) s
  | None => s
  end.

Definition wipe (g : Z) (s : state) : state := set_mem (<[g := PZero]> (mem s)) s.

Definition delegate_spec (addr : Z) (s : state) : result (Z * state) :=
  match lockable s addr GRANULE_STATE_NS with
  | None => Ok (RMI_ERROR_INPUT, s)
  | Some g =>
      if rmm_el3_ifc_gtsi_delegate addr (lock_one g s) =? SMC_SUCCESS
      then Ok (RMI_SUCCESS, retype g GRANULE_STATE_DELEGATED (wipe g s))
      else Ok (RMI_ERROR_INPUT, s)
  end.

Definition undelegate_spec (addr : Z) (s : state) : result (Z * state) :=
  match lockable s addr GRANULE_STATE_DELEGATED with
  | None => Ok (RMI_ERROR_INPUT, s)
  | Some g =>
      if rmm_el3_ifc_gtsi_undelegate addr (lock_one g s) =? SMC_SUCCESS
      then Ok (RMI_SUCCESS, retype g GRANULE_STATE_NS s)
      else Err FPanic
  end.

Context {L : PlatformLaws P} {HL : MachineLaws P H}.

(** What is known of a granule that could be locked. *)
Lemma lockable_quiet s a st g :
  is_u64 a → quiescent s → lockable s a st = Some g →
  ∃ rc tag, granules s !! g = Some (Gr false st rc tag) ∧ gok st rc ∧
    unlocked_invariant st rc = true ∧ has_addr g ∧ 0 <= g < RMM_MAX_GRANULES.
Proof using L.
  intros Ha Hq Hl. pose proof (lockable_find _ _ _ _ Hl) as Hf.
  pose proof (find_granule_has_addr _ _ Ha Hf) as Hadr.
  apply find_granule_Some in Hf as (_ & Hg & _); [|done].
  destruct (Hq g Hg) as (gr & Hgr & st' & rc & tag & -> & Hok & Hi).
  unfold lockable in Hl. destruct (find_granule a) as [[h|]|]; try done.
  destruct (decide (h = g)) as [->|Hne].
  - rewrite Hgr in Hl. cbn [Gr descriptor] in Hl. rewrite desc_state in Hl by done. simpl in Hl.
    destruct (Z.eqb_spec st' st) as [->|]; [|done]. by exists rc, tag.
  - destruct (granules s !! h); [|done]. destruct (_ =? st); by simplify_eq.
Qed.

Lemma find_lock_granule_quiet s a st :
  is_u64 a → quiescent s →
  find_lock_granule a st s
  = Ok (lockable s a st, match lockable s a st with Some g => lock_one g s | None => s end).
Proof using L.
  intros Ha Hq. apply find_lock_granule_spec; [done|]. intros g Hf. apply Hq.
  by apply find_granule_Some in Hf as (_ & ? & _).
Qed.

Lemma smc_granule_delegate_run s addr :
  is_u64 addr → quiescent s → slots s !! SLOT_DELEGATED = None →
  smc_granule_delegate addr s = delegate_spec addr s.
Proof using L HL.
  intros Ha Hq Hs. unfold smc_granule_delegate, delegate_spec.
  run_step (find_lock_granule_quiet s addr GRANULE_STATE_NS Ha Hq).
  destruct (lockable s addr GRANULE_STATE_NS) as [g|] eqn:Hl; [|done].
  destruct (lockable_quiet _ _ _ _ Ha Hq Hl) as (rc & tag & Hg & Hok & Hi & Hadr & Hr).
  rewrite gets_bind. destruct (_ =? SMC_SUCCESS); cbn [negb].
  - apply Z.eqb_eq in Hi as ->. rewrite (lock_one_Gr _ _ _ _ _ Hg Hok).
    pose proof (put_granule_lookup g (Gr true GRANULE_STATE_NS 0 tag) s) as H1.
    run_step (granule_set_state_run H1 Hok GRANULE_STATE_DELEGATED eq_refl ltac:(done)).
    rewrite put_granule_put.
    rewrite (bind_run _ _ _ _ _ (buffer_granule_memzero_run
      (put_granule g (Gr true GRANULE_STATE_DELEGATED 0 tag) s) g SLOT_DELEGATED Hadr eq_refl Hs)).
    assert (H2 : granules (set_mem (<[g:=PZero]> (mem (put_granule g (Gr true GRANULE_STATE_DELEGATED 0 tag) s)))
      (put_granule g (Gr true GRANULE_STATE_DELEGATED 0 tag) s)) !! g = Some (Gr true GRANULE_STATE_DELEGATED 0 tag))
      by apply put_granule_lookup.
    run_step (granule_unlock_run H2 ltac:(done) eq_refl eq_refl).
    unfold retype, wipe. cbn [granules set_mem]. rewrite Hg. unfold mret, M_ret. f_equal. f_equal.
    unfold put_granule, set_granules, set_mem; simpl. by rewrite insert_insert_eq.
  - by run_step (unlock_locked s g (ex_intro _ _ (conj Hg (ex_intro _ _ (ex_intro _ _ (ex_intro _ _
        (conj eq_refl (conj Hok Hi)))))))).
Qed.

Lemma smc_granule_undelegate_run s addr :
  is_u64 addr → quiescent s → smc_granule_undelegate addr s = undelegate_spec addr s.
Proof using L.
  intros Ha Hq. unfold smc_granule_undelegate, undelegate_spec.
  run_step (find_lock_granule_quiet s addr GRANULE_STATE_DELEGATED Ha Hq).
  destruct (lockable s addr GRANULE_STATE_DELEGATED) as [g|] eqn:Hl; [|done].
  destruct (lockable_quiet _ _ _ _ Ha Hq Hl) as (rc & tag & Hg & Hok & Hi & Hadr & Hr).
  rewrite gets_bind. destruct (_ =? SMC_SUCCESS); cbn [negb].
  - apply Z.eqb_eq in Hi as ->. rewrite (lock_one_Gr _ _ _ _ _ Hg Hok).
    pose proof (put_granule_lookup g (Gr true GRANULE_STATE_DELEGATED 0 tag) s) as H1.
    run_step (granule_set_state_run H1 Hok GRANULE_STATE_NS eq_refl ltac:(done)).
    rewrite put_granule_put.
    pose proof (put_granule_lookup g (Gr true GRANULE_STATE_NS 0 tag) s) as H2.
    run_step (granule_unlock_run H2 ltac:(done) eq_refl eq_refl).
    rewrite put_granule_put. unfold retype. by rewrite Hg.
  - by run_step (unlock_locked s g (ex_intro _ _ (conj Hg (ex_intro _ _ (ex_intro _ _ (ex_intro _ _
        (conj eq_refl (conj Hok Hi)))))))).
Qed.

Lemma retype_quiescent s g st :
  quiescent s → 0 <= st < 32 → unlocked_invariant st 0 = true → quiescent (retype g st s).
Proof.
  intros Hq Hst Hi h Hh. unfold retype. destruct (granules s !! g) as [gr|] eqn:Hg; [|by apply Hq].
  destruct (decide (g = h)) as [<-|Hne].
  - exists (Gr false st 0 (owner_tag gr)). split; [apply put_granule_lookup|].
    exists st, 0, (owner_tag gr). by repeat split; try lia.
  - rewrite put_granule_lookup_ne by done. by apply Hq.
Qed.

Lemma wipe_quiescent s g : quiescent s → quiescent (wipe g s).
Proof. done. Qed.

(** C11: delegation does what the two abstract transitions say, on every address: an
    address that is not a granule in the expected state, or a refusal by EL3, changes
    nothing; a delegated granule is zeroed and in state DELEGATED; nothing else changes
    and no lock stays held. Only a refusal by EL3 to take a granule back is fatal. *)
Theorem delegation_refines s addr :
  is_u64 addr → quiescent s → slots s !! SLOT_DELEGATED = None →
  smc_granule_delegate addr s = delegate_spec addr s ∧
  smc_granule_undelegate addr s = undelegate_spec addr s ∧
  (∀ r s', smc_granule_delegate addr s = Ok (r, s') → quiescent s') ∧
  (∀ r s', smc_granule_undelegate addr s = Ok (r, s') → quiescent s').
Proof using L HL.
  intros Ha Hq Hs. rewrite smc_granule_delegate_run, smc_granule_undelegate_run by done.
  split; [done|]. split; [done|]. unfold delegate_spec, undelegate_spec. split; intros r s' Hr.
  - destruct (lockable _ _ _) as [g|]; [|by simplify_eq]. destruct (_ =? _); simplify_eq; [|done].
    by apply retype_quiescent.
  - destruct (lockable _ _ _) as [g|]; [|by simplify_eq]. destruct (_ =? _); simplify_eq.
    by apply retype_quiescent.
Qed.

(** A granule that is delegated and then undelegated is again a host granule, all of
    the granule table is as it was, and its memory reads as zeros: nothing the host wrote
    survives inside, and nothing written inside survives. *)
Theorem delegate_undelegate s addr s1 r :
  is_u64 addr → quiescent s → slots s !! SLOT_DELEGATED = None →
  smc_granule_delegate addr s = Ok (RMI_SUCCESS, s1) →
  smc_granule_undelegate addr s1 = Ok r →
  ∃ g, lockable s addr GRANULE_STATE_NS = Some g ∧
       r = (RMI_SUCCESS, wipe g s) ∧ mem s1 !! g = Some PZero.
Proof using L HL.
  intros Ha Hq Hs. rewrite smc_granule_delegate_run by done. unfold delegate_spec.
  destruct (lockable s addr GRANULE_STATE_NS) as [g|] eqn:Hl; [|done].
  destruct (lockable_quiet _ _ _ _ Ha Hq Hl) as (rc & tag & Hg & Hok & Hi & Hadr & Hr).
  apply Z.eqb_eq in Hi as ->.
  destruct (_ =? SMC_SUCCESS); [|done]. intros [= <-].
  rewrite smc_granule_undelegate_run; [|done|apply retype_quiescent; [by apply wipe_quiescent|done|done]].
  assert (Hre : retype g GRANULE_STATE_DELEGATED (wipe g s)
                = put_granule g (Gr false GRANULE_STATE_DELEGATED 0 tag) (wipe g s)).
  { unfold retype. cbn [wipe granules set_mem]. by rewrite Hg. }
  assert (Hl2 : lockable (retype g GRANULE_STATE_DELEGATED (wipe g s)) addr GRANULE_STATE_DELEGATED = Some g).
  { unfold lockable. rewrite (lockable_find _ _ _ _ Hl), Hre, put_granule_lookup.
    cbn [Gr descriptor]. by rewrite desc_state by done. }
  unfold undelegate_spec. rewrite Hl2. destruct (_ =? SMC_SUCCESS); [|done]. intros [= <-].
  exists g. split; [done|]. split; [|rewrite Hre; cbn; apply lookup_insert_eq]. f_equal.
  unfold retype at 1. rewrite Hre, put_granule_lookup, put_granule_put. cbn [Gr owner_tag].
  by apply put_granule_id.
Qed.
End delegate.

(** * Examples *)

Definition accepting_el3 : EL3 := {|
  rmm_el3_ifc_gtsi_delegate _ _ := SMC_SUCCESS;
  rmm_el3_ifc_gtsi_undelegate _ _ := SMC_SUCCESS;
|}.

Definition ns_state : state :=
  set_granules (<[0 := Gr false GRANULE_STATE_NS 0 0]> (<[1 := Gr false GRANULE_STATE_NS 0 0]> ∅))
    (set_mem (<[0 := PData [1; 2; 3]]> ∅) state_init).

Lemma ns_state_quiescent : quiescent (P := flat_platform 2 0) ns_state.
Proof.
  intros g Hg. change RMM_MAX_GRANULES with 2 in Hg.
  assert (g = 0 ∨ g = 1) as [-> | ->] by lia;
    (eexists; split; [reflexivity|]; by exists GRANULE_STATE_NS, 0, 0).
Qed.

Lemma delegation_refines_witness :
  smc_granule_delegate (P := flat_platform 2 0) (H := zero_machine) (E := accepting_el3) 0 ns_state
  = Ok (RMI_SUCCESS, retype 0 GRANULE_STATE_DELEGATED (wipe 0 ns_state)).
Proof.
  destruct (delegation_refines (P := flat_platform 2 0) (H := zero_machine) (E := accepting_el3)
    (L := flat_laws 2 0 ltac:(lia) ltac:(lia) eq_refl)
    (HL := zero_machine_laws 2 0 ltac:(lia) ltac:(lia) eq_refl) ns_state 0) as (Hrun & _).
  - unfold is_u64. lia.
  - apply ns_state_quiescent.
  - reflexivity.
  - rewrite Hrun. reflexivity.
Defined.

Lemma delegate_undelegate_witness :
  ∃ s1, smc_granule_delegate (P := flat_platform 2 0) (H := zero_machine) (E := accepting_el3) 0 ns_state
        = Ok (RMI_SUCCESS, s1) ∧
        smc_granule_undelegate (P := flat_platform 2 0) (E := accepting_el3) 0 s1
        = Ok (RMI_SUCCESS, wipe 0 ns_state).
Proof.
  set (s1 := retype 0 GRANULE_STATE_DELEGATED (wipe 0 ns_state)).
  assert (Hd : smc_granule_delegate (P := flat_platform 2 0) (H := zero_machine) (E := accepting_el3) 0
    ns_state = Ok (RMI_SUCCESS, s1)) by reflexivity.
  destruct (smc_granule_undelegate (P := flat_platform 2 0) (E := accepting_el3) 0 s1) as [r|] eqn:Hu;
    [|vm_compute in Hu; discriminate].
  destruct (delegate_undelegate (P := flat_platform 2 0) (H := zero_machine) (E := accepting_el3)
    (L := flat_laws 2 0 ltac:(lia) ltac:(lia) eq_refl)
    (HL := zero_machine_laws 2 0 ltac:(lia) ltac:(lia) eq_refl) ns_state 0 s1 r) as (g & Hg & -> & _).
  - unfold is_u64. lia.
  - apply ns_state_quiescent.
  - reflexivity.
  - exact Hd.
  - exact Hu.
  - assert (g = 0) as -> by (vm_compute in Hg; congruence). exists s1. split; [exact Hd|done].
Defined.
