(* ===== verification/Walk.v ===== *)
(** The walk of a realm's stage 2 translation tables (lib/s2tt/src/s2tt.c): hand-over-hand
    locking from the root to the last level table, and the TLB invalidations. *)
From S2P Require Import Prelude Types Granule Platform GranuleFind S2tte S2tt Buffer.

Definition VTTBR_EL2_VMID_SHIFT : Z := 48.
Definition VTTBR_EL2_VMID_WIDTH : Z := 16.

(** * TLB invalidation *)

(** A TLB instruction acts on the VMID in [VTTBR_EL2]. *)
Definition tlb_log (ev : Z → tlb_event) : M state () :=
  gets (λ s, EXTRACT VTTBR_EL2_VMID_SHIFT VTTBR_EL2_VMID_WIDTH (vttbr_el2 s)) ≫= λ v,
  gets tlbi ≫= λ l, mmodify (set_tlbi (ev v :: l)).

(** [while (size != 0UL)]; [size / GRANULE_SIZE] rounds are enough for a multiple of the
    granule size, and any other size does not terminate. *)
Fixpoint tlbi_loop (fuel : nat) (ipa sz : Z) : M state () :=
  if sz =? 0 then mret ()
  else
    match fuel with
    | O => mfault FHang
    | S fuel' =>
        tlb_log (λ v, TlbIpas2e1is v (ipa .>> 12)) ≫= λ _,
        tlbi_loop fuel' (ipa .+ GRANULE_SIZE) (sz .- GRANULE_SIZE)
    end.

Definition stage2_tlbi_ipa (s2_ctx : s2tt_context) (ipa sz : Z) : M state () :=
  gets vttbr_el2 ≫= λ old_vttbr_el2,
  mmodify (set_vttbr_el2 (INPLACE VTTBR_EL2_VMID_SHIFT (vmid s2_ctx))) ≫= λ _,
  tlbi_loop (Z.to_nat (sz / GRANULE_SIZE)) ipa sz ≫= λ _,
  tlb_log TlbVmalle1is ≫= λ _,
  mmodify (set_vttbr_el2 old_vttbr_el2).

Definition s2tt_invalidate_page (s2_ctx : s2tt_context) (addr : Z) : M state () :=
  stage2_tlbi_ipa s2_ctx addr GRANULE_SIZE.
Definition s2tt_invalidate_block (s2_ctx : s2tt_context) (addr : Z) : M state () :=
  stage2_tlbi_ipa s2_ctx addr GRANULE_SIZE.
Definition s2tt_invalidate_pages_in_block (s2_ctx : s2tt_context) (addr : Z) : M state () :=
  stage2_tlbi_ipa s2_ctx addr BLOCK_L2_SIZE.

(** * The walk *)

Definition entry_is_table (entry : Z) : bool := (entry .& S2TT_DESC_TYPE_MASK) =? S2TTE_L012_TABLE.

Section walk.
Context {P : Platform} {H : Machine}.

Definition table_get_entry (g_tbl idx : Z) : M state Z :=
  map_assert g_tbl SLOT_RTT ≫= λ table,
  tte_read table idx ≫= λ entry,
  buffer_unmap table ≫= λ _, mret entry.

Definition find_next_level_idx (s2_ctx : s2tt_context) (g_tbl idx : Z) : M state (option Z) :=
  table_get_entry g_tbl idx ≫= λ entry,
  if negb (entry_is_table entry) then mret None
  else
    lift (table_entry_to_phys entry (enable_lpa2 s2_ctx)) ≫= λ pa,
    lift (addr_to_granule pa) ≫= λ g, mret (Some g).

Definition find_lock_next_level (s2_ctx : s2tt_context) (g_tbl map_addr level : Z)
  : M state (option Z) :=
  let idx := s2_addr_to_idx map_addr level in
  find_next_level_idx s2_ctx g_tbl idx ≫= λ og,
  match og with
  | Some g => granule_lock g GRANULE_STATE_RTT ≫= λ _, mret (Some g)
  | None => mret None
  end.

(** The loop from level [i], [n] levels left; [g] is [g_tbls[i + 1]]. The answer is the
    last table and its level. *)
Fixpoint walk_loop (n : nat) (s2_ctx : s2tt_context) (map_addr i g : Z) : M state (Z * Z) :=
  match n with
  | O => mret (g, i)
  | S n' =>
      find_lock_next_level s2_ctx g map_addr i ≫= λ og,
      match og with
      | None => mret (g, i)
      | Some h => granule_unlock g ≫= λ _, walk_loop n' s2_ctx map_addr (i + 1) h
      end
  end.

Definition s2tt_walk_lock_unlock (s2_ctx : s2tt_context) (map_addr level : Z) : M state s2tt_walk :=
  let start_level := s2_starting_level s2_ctx in
  massert (start_level <=? level) ≫= λ _,
  massert (level <=? S2TT_PAGE_LEVEL) ≫= λ _,
  massert (map_addr <? 1 .<< ipa_bits s2_ctx) ≫= λ _,
  massert (ipa_bits s2_ctx <=? s2tte_oa_bits (enable_lpa2 s2_ctx)) ≫= λ _,
  let sl_idx := s2_sl_addr_to_idx map_addr start_level (ipa_bits s2_ctx) in
  (if S2TTES_PER_S2TT <=? sl_idx then
     let tt_num := u32 (sl_idx .>> S2TTE_STRIDE) in
     massert (tt_num <? num_root_rtts s2_ctx) ≫= λ _,
     let g_concat_root := g_rtt s2_ctx + tt_num in
     granule_lock g_concat_root GRANULE_STATE_RTT ≫= λ _,
     granule_unlock (g_rtt s2_ctx) ≫= λ _, mret g_concat_root
   else mret (g_rtt s2_ctx)) ≫= λ g_root,
  walk_loop (Z.to_nat (level - start_level)) s2_ctx map_addr start_level g_root ≫= λ '(g, last),
  mret {| g_llt := g; windex := s2_addr_to_idx map_addr last; last_level := last |}.

(** * Well-formed trees *)

(** The 512 entries of a table granule. *)
Definition table_of (s : state) (g : Z) : option (list Z) := mem s !! g ≫= page_table.

Definition rtt_granule (s : state) (g : Z) : Prop :=
  has_addr g ∧
  (∃ rc tag, granules s !! g = Some (Gr false GRANULE_STATE_RTT rc tag) ∧ 0 <= rc <= 512) ∧
  ∃ t, table_of s g = Some t ∧ length t = 512%nat.

(** [T] gives the level and the first address of every table of the realm: the roots
    cover the address space, and an entry that points to a table points to the one for
    its own range. *)
Record rtt_wf (s : state) (s2_ctx : s2tt_context) (T : gmap Z (Z * Z)) : Prop := {
  wf_start : min_starting_level s2_ctx <= s2_starting_level s2_ctx <= 3;
  wf_bits : 0 <= ipa_bits s2_ctx <= s2tte_oa_bits (enable_lpa2 s2_ctx);
  wf_space : 2 ^ ipa_bits s2_ctx <= num_root_rtts s2_ctx * (512 * s2tte_map_size (s2_starting_level s2_ctx));
  wf_num : num_root_rtts s2_ctx < 2 ^ 32;
  wf_root k : 0 <= k < num_root_rtts s2_ctx →
    T !! (g_rtt s2_ctx + k)
    = Some (s2_starting_level s2_ctx, k * (512 * s2tte_map_size (s2_starting_level s2_ctx)));
  wf_table g i b : T !! g = Some (i, b) → s2_starting_level s2_ctx <= i <= 3 ∧ rtt_granule s g;
  wf_next g i b t idx e : T !! g = Some (i, b) → i < 3 → table_of s g = Some t →
    t !! idx = Some e → entry_is_table e = true →
    ∃ pa h, table_entry_to_phys e (enable_lpa2 s2_ctx) = Ok pa ∧ addr_to_granule pa = Ok h ∧
      T !! h = Some (i + 1, b + Z.of_nat idx * s2tte_map_size i);
}.

(** ** Locking does not touch memory *)

Lemma lock_one_mem g s : mem (lock_one g s) = mem s.
Proof. unfold lock_one. by destruct (granules s !! g). Qed.
Lemma lock_one_slots g s : slots (lock_one g s) = slots s.
Proof. unfold lock_one. by destruct (granules s !! g). Qed.

Context {L : PlatformLaws P} {HL : MachineLaws P H}.

Lemma rtt_unlocked rc : 0 <= rc <= 512 → unlocked_invariant GRANULE_STATE_RTT rc = true.
Proof.
  intros Hrc. change (unlocked_invariant GRANULE_STATE_RTT rc) with (rc <=? 512). apply Z.leb_le. lia.
Qed.

Lemma rtt_granule_quiet s g :
  rtt_granule s g → ∃ gr, granules s !! g = Some gr ∧ granule_quiet gr.
Proof.
  intros (_ & (rc & tag & Hg & Hrc) & _). eexists; split; [done|].
  exists GRANULE_STATE_RTT, rc, tag. split; [done|]. split.
  - split; [done|]. change REFCOUNT_MAX with 1023. lia.
  - by apply rtt_unlocked.
Qed.

Lemma granule_lock_rtt s g :
  rtt_granule s g → granule_lock g GRANULE_STATE_RTT s = Ok ((), lock_one g s).
Proof.
  intros (_ & (rc & tag & Hg & Hrc) & _).
  assert (Hok : gok GRANULE_STATE_RTT rc).
  { split; [done|]. change REFCOUNT_MAX with 1023. lia. }
  rewrite (granule_lock_run _ _ _ _ _ Hg Hok) by (by apply rtt_unlocked).
  by rewrite (lock_one_Gr _ _ _ _ _ Hg Hok).
Qed.

Lemma table_get_entry_run s g t idx e :
  has_addr g → slots s !! SLOT_RTT = None → table_of s g = Some t →
  0 <= idx → t !! Z.to_nat idx = Some e → table_get_entry g idx s = Ok (e, s).
Proof using L HL.
  intros Hg Hs Ht Hi He. unfold table_get_entry, table_of in *.
  apply bind_Some in Ht as (p & Hp & Ht).
  run_step (map_assert_run s g SLOT_RTT Hg eq_refl Hs).
  erewrite bind_run; [|by eapply tte_read_run; [apply lookup_insert_eq|..]].
  erewrite bind_run by (eapply buffer_unmap_run; apply lookup_insert_eq).
  unfold set_slots at 1; simpl. rewrite delete_insert_id by done. by destruct s.
Qed.

(** The table of an address at level [i]: it starts at [b] and covers the address. *)
Definition covers (i b addr : Z) : Prop :=
  b mod (512 * s2tte_map_size i) = 0 ∧ b <= addr < b + 512 * s2tte_map_size i.

Lemma map_size_pos i : -1 <= i <= 3 → 0 < s2tte_map_size i.
Proof. intros Hi. rewrite map_size_pow2 by done. apply Z.pow_pos_nonneg; [lia|]. pose proof (lvl_lsb_range i Hi). lia. Qed.

Lemma covers_idx i b addr :
  0 <= i <= 3 → 0 <= addr → covers i b addr →
  s2_addr_to_idx addr i = (addr - b) / s2tte_map_size i ∧ 0 <= s2_addr_to_idx addr i < 512.
Proof.
  intros Hi Ha [Hb Hin]. rewrite s2_addr_to_idx_mod by lia.
  rewrite (proj2 (Z.ltb_ge i 0)) by lia. pose proof (map_size_pos i ltac:(lia)) as Hp.
  split; [|apply Z.mod_pos_bound; lia]. set (m := s2tte_map_size i) in *.
  apply Z.div_exact in Hb; [|lia]. set (q := b / (512 * m)) in *.
  replace (addr - b) with (addr + (- (512 * q)) * m) by lia. rewrite Z.div_add by lia.
  assert (Hd : 512 * q <= addr / m < 512 * q + 512).
  { split; [apply Z.div_le_lower_bound; lia|]. apply Z.div_lt_upper_bound; lia. }
  rewrite (Z.mod_eq (addr / m) 512) by lia.
  assert (addr / m / 512 = q) as ->; [|lia].
  symmetry. apply (Z.div_unique_pos _ _ _ (addr / m - 512 * q)); lia.
Qed.

Lemma covers_next i b addr :
  0 <= i < 3 → 0 <= addr → covers i b addr →
  covers (i + 1) (b + s2_addr_to_idx addr i * s2tte_map_size i) addr.
Proof.
  intros Hi Ha Hc. destruct (covers_idx i b addr ltac:(lia) Ha Hc) as [Hidx Hr].
  pose proof (map_size_parent (i + 1) ltac:(lia)) as Hpar. rewrite Z.add_simpl_r in Hpar.
  change S2TTES_PER_S2TT with 512 in Hpar. unfold covers. rewrite <- Hpar.
  pose proof (map_size_pos i ltac:(lia)) as Hp. destruct Hc as [Hb Hin].
  set (m := s2tte_map_size i) in *. rewrite Hidx. split.
  - apply Z.mod_divide in Hb; [|lia]. destruct Hb as [q Hq]. apply Z.mod_divide; [lia|].
    exists (q * 512 + (addr - b) / m). lia.
  - pose proof (Z.div_mod (addr - b) m ltac:(lia)). pose proof (Z.mod_pos_bound (addr - b) m ltac:(lia)). lia.
Qed.

(** Level -1 has one table of 16 entries at address 0. *)
Lemma idx_lm1 addr : 0 <= addr < 2 ^ 52 →
  s2_addr_to_idx addr (-1) = addr / s2tte_map_size (-1) ∧ 0 <= s2_addr_to_idx addr (-1) < 16 ∧
  covers 0 (s2_addr_to_idx addr (-1) * s2tte_map_size (-1)) addr.
Proof.
  intros Ha. rewrite s2_addr_to_idx_mod by lia. cbn [Z.ltb Z.compare].
  change (s2tte_map_size (-1)) with (2 ^ 48). unfold covers. change (s2tte_map_size 0) with (2 ^ 39).
  assert (Hlt : 0 <= addr / 2 ^ 48 < 16).
  { split; [apply Z.div_pos; lia|]. apply Z.div_lt_upper_bound; lia. }
  rewrite Z.mod_small by lia. split; [done|]. split; [done|]. change (512 * 2 ^ 39) with (2 ^ 48).
  split; [by apply Z.mod_mul|]. pose proof (Z.div_mod addr (2 ^ 48) ltac:(lia)).
  pose proof (Z.mod_pos_bound addr (2 ^ 48) ltac:(lia)). lia.
Qed.

(** The table of level [i] for [addr]. *)
Definition covers_lvl (i b addr : Z) : Prop :=
  (0 <= i ∧ covers i b addr) ∨ (i = -1 ∧ b = 0 ∧ addr < 2 ^ 52).

Lemma covers_lvl_idx i b addr :
  i <= 3 → 0 <= addr → covers_lvl i b addr → 0 <= s2_addr_to_idx addr i < 512.
Proof.
  intros Hi Ha [[Hi0 Hc]|(-> & -> & Hlt)].
  - apply (covers_idx i b addr); [lia|done|done].
  - destruct (idx_lm1 addr) as (_ & ? & _); lia.
Qed.

Lemma covers_lvl_next i b addr :
  i < 3 → 0 <= addr → covers_lvl i b addr →
  covers_lvl (i + 1) (b + s2_addr_to_idx addr i * s2tte_map_size i) addr.
Proof.
  intros Hi Ha [[Hi0 Hc]|(-> & -> & Hlt)]; left; (split; [lia|]).
  - apply covers_next; [lia|done|done].
  - apply idx_lm1. lia.
Qed.

Section tree.
Context (s : state) (s2_ctx : s2tt_context) (T : gmap Z (Z * Z)) (addr : Z).
Hypothesis Hwf : rtt_wf s s2_ctx T.
Hypothesis Hslot : slots s !! SLOT_RTT = None.
Hypothesis Haddr : 0 <= addr < 2 ^ ipa_bits s2_ctx.

(** Entry of [addr] in the table [g] of level [i]. *)
Definition entry_at (g i e : Z) : Prop :=
  ∃ t, table_of s g = Some t ∧ t !! Z.to_nat (s2_addr_to_idx addr i) = Some e.

Lemma entry_exists g i b :
  T !! g = Some (i, b) → covers_lvl i b addr → ∃ e, entry_at g i e.
Proof using Hwf Haddr.
  intros Hg Hc. destruct (wf_table _ _ _ Hwf g i b Hg) as (Hi & _ & _ & t & Ht & Hl).
  pose proof (covers_lvl_idx i b addr ltac:(lia) ltac:(lia) Hc) as Hidx.
  destruct (lookup_lt_is_Some_2 t (Z.to_nat (s2_addr_to_idx addr i)) ltac:(lia)) as [e He].
  by exists e, t.
Qed.

Lemma next_level_run g i b e :
  T !! g = Some (i, b) → i < 3 → covers_lvl i b addr → entry_at g i e →
  if entry_is_table e then
    ∃ h, T !! h = Some (i + 1, b + s2_addr_to_idx addr i * s2tte_map_size i) ∧ h ≠ g ∧
         find_lock_next_level s2_ctx g addr i (lock_one g s) = Ok (Some h, lock_one h (lock_one g s))
  else find_lock_next_level s2_ctx g addr i (lock_one g s) = Ok (None, lock_one g s).
Proof using L HL Hwf Hslot Haddr.
  intros Hg Hi Hc (t & Ht & He).
  destruct (wf_table _ _ _ Hwf g i b Hg) as (_ & Hadr & _).
  pose proof (covers_lvl_idx i b addr ltac:(lia) ltac:(lia) Hc) as Hidx.
  assert (Hget : table_get_entry g (s2_addr_to_idx addr i) (lock_one g s) = Ok (e, lock_one g s)).
  { eapply table_get_entry_run; [done|by rewrite lock_one_slots| |lia|done].
    unfold table_of. by rewrite lock_one_mem. }
  unfold find_lock_next_level, find_next_level_idx. destruct (entry_is_table e) eqn:Htab.
  - destruct (wf_next _ _ _ Hwf g i b t _ e Hg Hi Ht He Htab) as (pa & h & Hpa & Hh & HT).
    rewrite Z2Nat.id in HT by lia. exists h. split; [done|].
    assert (Hne : h ≠ g) by (intros ->; rewrite Hg in HT; simplify_eq; lia).
    split; [done|]. rewrite bind_assoc. run_step Hget. rewrite Htab. cbn [negb].
    rewrite bind_assoc. run_step (lift_run _ _ _ Hpa). rewrite bind_assoc.
    run_step (lift_run _ _ _ Hh). rewrite ret_bind.
    assert (Hr : rtt_granule (lock_one g s) h).
    { destruct (wf_table _ _ _ Hwf h _ _ HT) as (_ & Hha & Hgr & Htt). split; [done|].
      rewrite lock_one_ne by done. unfold table_of. by rewrite lock_one_mem. }
    by run_step (granule_lock_rtt _ _ Hr).
  - rewrite bind_assoc. run_step Hget. by rewrite Htab.
Qed.

(** The end of a walk that was asked to go to [level]: the table reached covers the
    address, and the walk is not short of [level] unless its entry is a leaf. *)
Definition walk_end (level g i : Z) : Prop :=
  ∃ b e, T !! g = Some (i, b) ∧ covers_lvl i b addr ∧ entry_at g i e ∧
    i <= level ∧ (i < level → entry_is_table e = false).

Lemma walk_loop_run n g i b :
  T !! g = Some (i, b) → covers_lvl i b addr → i + Z.of_nat n <= 3 →
  ∃ h j, walk_loop n s2_ctx addr i g (lock_one g s) = Ok ((h, j), lock_one h s) ∧
         walk_end (i + Z.of_nat n) h j.
Proof using L HL Hwf Hslot Haddr.
  revert g i b. induction n as [|n IH]; intros g i b Hg Hc Hn.
  - destruct (entry_exists g i b Hg Hc) as [e He]. exists g, i. split; [done|].
    exists b, e. split; [done|]. split; [done|]. split; [done|]. lia.
  - destruct (entry_exists g i b Hg Hc) as [e He]. cbn [walk_loop].
    pose proof (next_level_run g i b e Hg ltac:(lia) Hc He) as Hnext.
    destruct (entry_is_table e) eqn:Htab.
    + destruct Hnext as (h & HT & Hne & Hrun). run_step Hrun.
      rewrite lock_one_comm by done.
      assert (Hunlock : granule_unlock g (lock_one g (lock_one h s)) = Ok ((), lock_one h s)).
      { apply unlock_locked. rewrite lock_one_ne by done.
        apply rtt_granule_quiet. by apply (wf_table _ _ _ Hwf g i b). }
      run_step Hunlock.
      destruct (IH h (i + 1) _ HT) as (h' & j & Hrun' & Hend).
      { apply covers_lvl_next; [lia|lia|done]. }
      { lia. }
      exists h', j. split; [done|].
      replace (i + Z.of_nat (S n)) with (i + 1 + Z.of_nat n) by lia. done.
    + run_step Hnext. exists g, i. split; [done|]. exists b, e.
      split; [done|]. split; [done|]. split; [done|]. split; [lia|done].
Qed.

Lemma covers_root sl k :
  0 <= sl <= 3 → k = addr / (512 * s2tte_map_size sl) →
  covers sl (k * (512 * s2tte_map_size sl)) addr.
Proof using Haddr.
  intros Hsl ->. pose proof (map_size_pos sl ltac:(lia)). split; [apply Z.mod_mul; lia|].
  pose proof (Z.div_mod addr (512 * s2tte_map_size sl) ltac:(lia)).
  pose proof (Z.mod_pos_bound addr (512 * s2tte_map_size sl) ltac:(lia)). lia.
Qed.

Lemma sl_idx_div :
  s2_sl_addr_to_idx addr (s2_starting_level s2_ctx) (ipa_bits s2_ctx)
  = addr / s2tte_map_size (s2_starting_level s2_ctx).
Proof using Hwf Haddr.
  destruct Hwf as [Hst Hb _ _ _ _ _]. apply s2_sl_addr_to_idx_div; [|..].
  - unfold min_starting_level, S2TT_MIN_STARTING_LEVEL_LPA2, S2TT_MIN_STARTING_LEVEL in Hst.
    destruct (enable_lpa2 s2_ctx); lia.
  - unfold s2tte_oa_bits, S2TTE_OA_BITS, S2TTE_OA_BITS_LPA2 in Hb. destruct (enable_lpa2 s2_ctx); lia.
  - done.
Qed.
End tree.

(** The walk to [level] from a locked root. *)
Lemma s2tt_walk_run s s2_ctx T addr level :
  rtt_wf s s2_ctx T → slots s !! SLOT_RTT = None →
  0 <= addr < 2 ^ ipa_bits s2_ctx → s2_starting_level s2_ctx <= level <= 3 →
  ∃ g i, s2tt_walk_lock_unlock s2_ctx addr level (lock_one (g_rtt s2_ctx) s)
         = Ok ({| g_llt := g; windex := s2_addr_to_idx addr i; last_level := i |}, lock_one g s) ∧
         walk_end s T addr level g i.
Proof using L HL.
  intros Hwf Hslot Haddr Hlev. pose proof (sl_idx_div _ _ _ _ Hwf Haddr) as Hsl.
  destruct Hwf as [Hst Hb Hspace Hnum Hroot Htable Hnext] eqn:Hwfe. clear Hwfe.
  assert (Hoa : s2tte_oa_bits (enable_lpa2 s2_ctx) <= 52).
  { unfold s2tte_oa_bits, S2TTE_OA_BITS, S2TTE_OA_BITS_LPA2. destruct (enable_lpa2 s2_ctx); lia. }
  assert (Hst' : -1 <= s2_starting_level s2_ctx <= 3).
  { unfold min_starting_level, S2TT_MIN_STARTING_LEVEL_LPA2, S2TT_MIN_STARTING_LEVEL in Hst.
    destruct (enable_lpa2 s2_ctx); lia. }
  assert (Hpow : 1 .<< ipa_bits s2_ctx = 2 ^ ipa_bits s2_ctx).
  { unfold shl64. rewrite Z.shiftl_mul_pow2, Z.mul_1_l by lia. apply u64_small. split; [lia|].
    apply Z.pow_lt_mono_r; lia. }
  assert (Hlt52 : addr < 2 ^ 52).
  { assert (2 ^ ipa_bits s2_ctx <= 2 ^ 52) by (apply Z.pow_le_mono_r; lia). lia. }
  unfold s2tt_walk_lock_unlock. cbv zeta.
  run_step (massert_run _ (lock_one (g_rtt s2_ctx) s) (proj2 (Z.leb_le _ _) (proj1 Hlev))).
  run_step (massert_run _ (lock_one (g_rtt s2_ctx) s) (proj2 (Z.leb_le level S2TT_PAGE_LEVEL) (proj2 Hlev))).
  rewrite Hpow.
  run_step (massert_run _ (lock_one (g_rtt s2_ctx) s) (proj2 (Z.ltb_lt _ _) (proj2 Haddr))).
  run_step (massert_run _ (lock_one (g_rtt s2_ctx) s) (proj2 (Z.leb_le _ _) (proj2 Hb))).
  rewrite Hsl. set (sl := s2_starting_level s2_ctx) in *.
  pose proof (map_size_pos sl Hst') as Hpos. set (m := s2tte_map_size sl) in *.
  (** The root table of the address. *)
  set (k := addr / (512 * m)).
  assert (Hk : k = addr / m / 512).
  { unfold k. rewrite (Z.mul_comm 512 m), <- Z.div_div by lia. done. }
  assert (Hkr : 0 <= k < num_root_rtts s2_ctx).
  { split; [apply Z.div_pos; lia|]. apply Z.div_lt_upper_bound; lia. }
  assert (Hcov : covers_lvl sl (k * (512 * m)) addr).
  { destruct (decide (sl = -1)) as [Hm1|].
    - right. assert (Hmv : m = 2 ^ 48) by (unfold m; by rewrite Hm1).
      assert (k = 0) as -> by (unfold k; apply Z.div_small; lia). lia.
    - left. split; [lia|]. eapply covers_root; [done|lia|done]. }
  pose proof (Hroot k Hkr) as HTk. pose proof (Hroot 0 ltac:(lia)) as HT0. rewrite Z.add_0_r in HT0.
  assert (Hwf' : rtt_wf s s2_ctx T) by (by split).
  assert (Hstep : (if S2TTES_PER_S2TT <=? addr / m
    then massert (u32 ((addr / m) .>> S2TTE_STRIDE) <? num_root_rtts s2_ctx) ≫= λ _,
         granule_lock (g_rtt s2_ctx + u32 ((addr / m) .>> S2TTE_STRIDE)) GRANULE_STATE_RTT ≫= λ _,
         granule_unlock (g_rtt s2_ctx) ≫= λ _, mret (g_rtt s2_ctx + u32 ((addr / m) .>> S2TTE_STRIDE))
    else mret (g_rtt s2_ctx)) (lock_one (g_rtt s2_ctx) s)
    = Ok (g_rtt s2_ctx + k, lock_one (g_rtt s2_ctx + k) s)).
  { change S2TTES_PER_S2TT with 512. change S2TTE_STRIDE with 9.
    rewrite Z.shiftr_div_pow2 by lia. change (2 ^ 9) with 512. rewrite <- Hk.
    assert (u32 k = k) as -> by (apply Z.mod_small; lia).
    destruct (Z.leb_spec 512 (addr / m)) as [Hge|Hlt].
    - assert (Hk1 : 1 <= k) by (rewrite Hk; apply Z.div_le_lower_bound; lia).
      run_step (massert_run _ (lock_one (g_rtt s2_ctx) s) (proj2 (Z.ltb_lt _ _) (proj2 Hkr))).
      assert (Hr : rtt_granule (lock_one (g_rtt s2_ctx) s) (g_rtt s2_ctx + k)).
      { destruct (Htable _ _ _ HTk) as (_ & Hha & Hgr & Htt). split; [done|].
        rewrite lock_one_ne by lia. unfold table_of. by rewrite lock_one_mem. }
      run_step (granule_lock_rtt _ _ Hr). rewrite lock_one_comm by lia.
      assert (Hunlock : granule_unlock (g_rtt s2_ctx) (lock_one (g_rtt s2_ctx) (lock_one (g_rtt s2_ctx + k) s))
        = Ok ((), lock_one (g_rtt s2_ctx + k) s)).
      { apply unlock_locked. rewrite lock_one_ne by lia.
        apply rtt_granule_quiet. by apply (Htable _ _ _ HT0). }
      by run_step Hunlock.
    - assert (k = 0) as -> by (rewrite Hk; apply Z.div_small; split; [apply Z.div_pos; lia|lia]).
      by rewrite Z.add_0_r. }
  rewrite (bind_run _ _ _ _ _ Hstep).
  destruct (walk_loop_run s s2_ctx T addr Hwf' Hslot Haddr (Z.to_nat (level - sl)) _ _ _ HTk Hcov)
    as (h & j & Hrun & Hend); [lia|].
  rewrite (bind_run _ _ _ _ _ Hrun). exists h, j. split; [done|].
  by replace (sl + Z.of_nat (Z.to_nat (level - sl))) with level in Hend by lia.
Qed.

(** The walk of a well-formed tree of translation tables, from a locked root, always
    returns; at the end the lock of the root has become the lock of the last table and no
    other lock is held; that table covers the address at the level reported, the index is
    that of the address' entry, and the walk stops short of the requested level only at an
    entry that is not a table. *)
Theorem s2tt_walk_spec s s2_ctx T addr level :
  rtt_wf s s2_ctx T → slots s !! SLOT_RTT = None →
  0 <= addr < 2 ^ ipa_bits s2_ctx → s2_starting_level s2_ctx <= level <= 3 →
  ∃ g i, s2tt_walk_lock_unlock s2_ctx addr level (lock_one (g_rtt s2_ctx) s)
         = Ok ({| g_llt := g; windex := s2_addr_to_idx addr i; last_level := i |}, lock_one g s) ∧
         walk_end s T addr level g i.
Proof using L HL. apply s2tt_walk_run. Qed.
End walk.

(** * TLB invalidation *)

Lemma tlb_log_run ev s :
  tlb_log ev s
  = Ok ((), set_tlbi (ev (EXTRACT VTTBR_EL2_VMID_SHIFT VTTBR_EL2_VMID_WIDTH (vttbr_el2 s)) :: tlbi s) s).
Proof. done. Qed.

(** The pages of [n] granules from [ipa], latest first. *)
Fixpoint page_events (n : nat) (v ipa : Z) (l : list tlb_event) : list tlb_event :=
  match n with
  | O => l
  | S n' => page_events n' v (ipa .+ GRANULE_SIZE) (TlbIpas2e1is v (ipa .>> 12) :: l)
  end.

Lemma tlbi_loop_run n ipa s :
  (Z.of_nat n) * 4096 < 2 ^ 64 →
  tlbi_loop n ipa (Z.of_nat n * 4096) s
  = Ok ((), set_tlbi (page_events n (EXTRACT VTTBR_EL2_VMID_SHIFT VTTBR_EL2_VMID_WIDTH (vttbr_el2 s))
                        ipa (tlbi s)) s).
Proof.
  revert ipa s. induction n as [|n IH]; intros ipa s Hn; cbn [tlbi_loop page_events].
  { by destruct s. }
  rewrite (proj2 (Z.eqb_neq _ 0)) by lia. run_step (tlb_log_run (λ v, TlbIpas2e1is v (ipa .>> 12)) s).
  change GRANULE_SIZE with 4096.
  assert (Z.of_nat (S n) * 4096 .- 4096 = Z.of_nat n * 4096) as ->.
  { rewrite u64_small by (unfold is_u64; lia). lia. }
  rewrite IH by lia. done.
Qed.

Lemma vmid_field v :
  0 <= v < 2 ^ 16 →
  EXTRACT VTTBR_EL2_VMID_SHIFT VTTBR_EL2_VMID_WIDTH (INPLACE VTTBR_EL2_VMID_SHIFT v) = v.
Proof.
  intros Hv. unfold EXTRACT, INPLACE. apply Z.bits_inj'. intros i Hi.
  change VTTBR_EL2_VMID_SHIFT with 48. change VTTBR_EL2_VMID_WIDTH with 16.
  rewrite Z.shiftr_spec, Z.land_spec, testbit_shl64, testbit_MASK by lia.
  rewrite Z.add_simpl_r. destruct (Z.ltb_spec (i + 48) 64).
  - rewrite (proj2 (Z.leb_le 48 _)), (proj2 (Z.ltb_lt _ (48 + 16))) by lia. by rewrite andb_true_r.
  - by rewrite (testbit_high v 16) by lia.
Qed.

Lemma stage2_tlbi_ipa_run s2_ctx ipa n s :
  0 <= vmid s2_ctx < 2 ^ 16 → Z.of_nat n * 4096 < 2 ^ 64 →
  stage2_tlbi_ipa s2_ctx ipa (Z.of_nat n * 4096) s
  = Ok ((), set_tlbi (TlbVmalle1is (vmid s2_ctx) :: page_events n (vmid s2_ctx) ipa (tlbi s)) s).
Proof.
  intros Hv Hn. unfold stage2_tlbi_ipa. rewrite gets_bind, mmodify_bind.
  change GRANULE_SIZE with 4096. rewrite Z.div_mul by lia. rewrite Nat2Z.id.
  rewrite (bind_run _ _ _ _ _ (tlbi_loop_run n ipa _ Hn)). cbn [vttbr_el2 set_vttbr_el2].
  rewrite vmid_field by done. rewrite (bind_run _ _ _ _ _ (tlb_log_run _ _)).
  cbn [vttbr_el2 set_vttbr_el2 set_tlbi]. rewrite vmid_field by done. by destruct s.
Qed.

Lemma page_events_in n v ipa l k :
  0 <= ipa → ipa + Z.of_nat n * 4096 < 2 ^ 64 → (k < n)%nat →
  TlbIpas2e1is v ((ipa + Z.of_nat k * 4096) / 4096) ∈ page_events n v ipa l.
Proof.
  revert ipa l k. induction n as [|n IH]; intros ipa l k Hipa Hn Hk; [lia|]. cbn [page_events].
  change GRANULE_SIZE with 4096. rewrite (u64_small (ipa + 4096)) by (unfold is_u64; lia).
  destruct k as [|k].
  - assert (Hin : ∀ m ipa' l' x, x ∈ l' → x ∈ page_events m v ipa' l').
    { clear. induction m as [|m IHm]; intros ipa' l' x Hx; [done|]. cbn [page_events]. apply IHm. by right. }
    apply Hin, elem_of_cons. left. rewrite Z.shiftr_div_pow2 by lia. change (2 ^ 12) with 4096.
    do 2 f_equal. lia.
  - replace (ipa + Z.of_nat (S k) * 4096) with (ipa + 4096 + Z.of_nat k * 4096) by lia.
    apply IH; lia.
Qed.

(** Invalidating the pages of a block (512 of them) issues an invalidation for every
    page of the block, tagged with the realm's VMID, ends with the stage 1 invalidation for
    that VMID, terminates, and leaves everything else (VTTBR_EL2 included) as it was. *)
Theorem s2tt_invalidate_pages_in_block_spec s2_ctx ipa s :
  0 <= vmid s2_ctx < 2 ^ 16 → 0 <= ipa < 2 ^ 52 →
  ∃ l, s2tt_invalidate_pages_in_block s2_ctx ipa s
       = Ok ((), set_tlbi (TlbVmalle1is (vmid s2_ctx) :: l) s) ∧
       ∀ k, (k < 512)%nat → TlbIpas2e1is (vmid s2_ctx) ((ipa + Z.of_nat k * 4096) / 4096) ∈ l.
Proof.
  intros Hv Hipa. eexists. split.
  - unfold s2tt_invalidate_pages_in_block. change BLOCK_L2_SIZE with (Z.of_nat 512 * 4096).
    by apply stage2_tlbi_ipa_run.
  - intros k Hk. apply page_events_in; lia.
Qed.

Lemma s2tt_invalidate_pages_in_block_spec_witness :
  ∃ l, s2tt_invalidate_pages_in_block (example_ctx false) (2 ^ 21) state_init
       = Ok ((), set_tlbi (TlbVmalle1is (vmid (example_ctx false)) :: l) state_init).
Proof.
  destruct (s2tt_invalidate_pages_in_block_spec (example_ctx false) (2 ^ 21) state_init) as (l & Hl & _).
  - simpl. lia.
  - lia.
  - exists l. exact Hl.
Defined.

(** * An example tree *)

(** A realm with a 32-bit address space whose tables start at level 1: granules 1, 2 and 3
    are the tables of levels 1, 2 and 3 for the first addresses; granule 0 holds the
    realm's descriptor, 4 is a data granule, 5 is delegated, 6 is the host's. *)
Definition demo_ctx : s2tt_context :=
  {| ipa_bits := 32; s2_starting_level := 1; num_root_rtts := 1; g_rtt := 1; vmid := 5;
     enable_lpa2 := false |}.

Definition demo_rd : rd :=
  {| rd_state := REALM_NEW; rec_count := 0; rim := replicate 64 0; rems := replicate 4 (replicate 64 0); s2_ctx := demo_ctx;
     num_rec_aux := 0;
     algorithm := HASH_SHA_256; pmu_enabled := false; pmu_num_ctrs := 0;
     simd_cfg := simd_config_zero; rpv := replicate 64 0; apt_pa := 0 |}.

Definition demo_table (e : Z) : list Z := e :: replicate 511 0.

(** [l3] is the level 3 table, with [rc] live entries. *)
Definition demo_state (l3 : list Z) (rc : Z) : state :=
  set_granules (<[0 := Gr false GRANULE_STATE_RD 0 17]>
               (<[1 := Gr false GRANULE_STATE_RTT 1 0]>
               (<[2 := Gr false GRANULE_STATE_RTT 1 0]>
               (<[3 := Gr false GRANULE_STATE_RTT rc 0]>
               (<[4 := Gr false GRANULE_STATE_DATA 0 0]>
               (<[5 := Gr false GRANULE_STATE_DELEGATED 0 0]>
               (<[6 := Gr false GRANULE_STATE_NS 0 0]> ∅)))))))
  (set_mem (<[0 := PRd demo_rd]>
           (<[1 := PTable (demo_table (2 * 4096 + 3))]>
           (<[2 := PTable (demo_table (3 * 4096 + 3))]>
           (<[3 := PTable l3]> ∅)))) state_init).

Definition demo_tables : gmap Z (Z * Z) := <[1 := (1, 0)]> (<[2 := (2, 0)]> {[ 3 := (3, 0) ]}).

Definition demo_platform : Platform := flat_platform 7 0.
Definition demo_laws : PlatformLaws demo_platform := flat_laws 7 0 ltac:(lia) ltac:(lia) eq_refl.
Definition demo_machine_laws : MachineLaws demo_platform zero_machine :=
  zero_machine_laws 7 0 ltac:(lia) ltac:(lia) eq_refl.

Lemma demo_table_entry e idx x :
  demo_table e !! idx = Some x → entry_is_table x = true → idx = 0%nat ∧ x = e.
Proof.
  destruct idx as [|idx]; cbn [demo_table lookup list_lookup]; [naive_solver|].
  intros [-> _]%lookup_replicate. done.
Qed.

Lemma demo_quiescent l3 rc : 0 <= rc <= 512 → quiescent (P := demo_platform) (demo_state l3 rc).
Proof.
  intros Hrc g Hg. change RMM_MAX_GRANULES with 7 in Hg.
  assert (g = 0 ∨ g = 1 ∨ g = 2 ∨ g = 3 ∨ g = 4 ∨ g = 5 ∨ g = 6)
    as [-> | [-> | [-> | [-> | [-> | [-> | ->]]]]]] by lia;
    (eexists; split; [reflexivity|]; eexists _, _, _; split; [reflexivity|]); try done.
  split; [split; [done|change REFCOUNT_MAX with 1023; lia]|]. by apply rtt_unlocked.
Qed.

Lemma demo_wf l3 rc :
  length l3 = 512%nat → 0 <= rc <= 512 →
  rtt_wf (P := demo_platform) (demo_state l3 rc) demo_ctx demo_tables.
Proof.
  intros Hl Hrc. split; try done.
  - cbn [num_root_rtts demo_ctx g_rtt s2_starting_level]. intros k Hk. assert (k = 0) as -> by lia. done.
  - intros g i b. unfold demo_tables. rewrite !lookup_insert_Some, lookup_singleton_Some.
    intros [[<- [= <- <-]]|[_ [[<- [= <- <-]]|[_ [<- [= <- <-]]]]]]; (split; [simpl; lia|]);
      (split; [split; [lia|by eexists]|]); (split; [by eexists _, _|]); by eexists.
  - intros g i b t idx e. unfold demo_tables. rewrite !lookup_insert_Some, lookup_singleton_Some.
    intros [[<- [= <- <-]]|[_ [[<- [= <- <-]]|[_ [<- [= <- <-]]]]]] Hi; [..|lia];
      intros [= <-] Hidx Htab; destruct (demo_table_entry _ _ _ Hidx Htab) as [-> ->].
    + by exists (2 * 4096), 2.
    + by exists (3 * 4096), 3.
Qed.

Lemma s2tt_walk_spec_witness :
  ∃ g i, s2tt_walk_lock_unlock (P := demo_platform) (H := zero_machine) demo_ctx (5 * 4096) 3
           (lock_one 1 (demo_state (replicate 512 0) 0))
         = Ok ({| g_llt := g; windex := s2_addr_to_idx (5 * 4096) i; last_level := i |},
               lock_one g (demo_state (replicate 512 0) 0)).
Proof.
  destruct (s2tt_walk_spec (P := demo_platform) (H := zero_machine) (L := demo_laws) (HL := demo_machine_laws)
    (demo_state (replicate 512 0) 0) demo_ctx demo_tables (5 * 4096) 3) as (g & i & Hrun & _).
  - apply demo_wf; [reflexivity | lia].
  - reflexivity.
  - simpl. lia.
  - simpl. lia.
  - exists g, i. exact Hrun.
Defined.
