(* ===== verification/Exec.v ===== *)
(** Symbolic execution of handlers: tactics that run one operation at a time from its
    [_run] lemma and keep the state in a normal form, a record whose maps are insertions
    over those of the initial state. *)
From S2P Require Import Prelude Types Granule Platform GranuleFind S2tte S2tt Buffer Walk.

(** The state as a record literal. *)
Ltac st_norm :=
  unfold put_granule, set_granules, set_mem, set_slots, set_tlbi, set_vttbr_el2, set_vmids;
  cbn [granules mem slots vttbr_el2 tlbi tags csm_ids vmids].

(** A lookup in a chain of insertions and deletions. *)
Ltac key_ne := first [ done | congruence | lia | assumption ].
Ltac lk_solve :=
  cbn [granules mem slots vttbr_el2 tlbi tags csm_ids vmids];
  first
    [ eassumption
    | apply lookup_insert_eq
    | rewrite lookup_insert_ne by key_ne; lk_solve
    | rewrite lookup_delete_ne by key_ne; lk_solve
    | apply lookup_delete_eq | apply lookup_empty ].

Lemma gok_rtt rc : 0 <= rc <= 1023 → gok GRANULE_STATE_RTT rc.
Proof. intros Hrc. split; [done|]. change REFCOUNT_MAX with 1023. lia. Qed.

Ltac exec_side :=
  st_norm;
  lazymatch goal with
  | |- gok GRANULE_STATE_RTT _ => first [ eassumption | apply gok_rtt; lia ]
  | |- gok _ _ => first [ eassumption | by split; try done; lia ]
  | |- unlocked_invariant GRANULE_STATE_RTT _ = true => first [ reflexivity | eassumption | apply rtt_unlocked; lia ]
  | |- unlocked_invariant _ _ = true => first [ reflexivity | eassumption ]
  | |- has_addr _ => eassumption
  | |- lookup _ _ = _ => lk_solve
  | |- _ => first [ reflexivity | eassumption | done
                  | change REFCOUNT_MAX with 1023; lia | rewrite ?length_insert; lia | lk_solve ]
  end.

(** [exec lem] runs the head of the monadic goal, whose equation is [lem]; the side
    conditions are solved in order, so that lookups instantiate the state of a granule
    before its invariants are checked. *)
Tactic Notation "exec" uconstr(lem) :=
  erewrite bind_run; [|unshelve (eapply lem; exec_side); exec_side];
  cbv beta; st_norm.

Lemma bind_cong {S A B} (m m' : M S A) (k : A → M S B) s s' :
  m s = m' s' → (m ≫= k) s = (m' ≫= k) s'.
Proof. intros Hm. unfold mbind, M_bind. by rewrite Hm. Qed.

(** Reassociates so that the head of the goal is an operation. *)
Ltac assoc := rewrite ?bind_assoc.

(** The same, and passes the answers that are already computed. *)
Ltac steps := repeat first [ rewrite bind_assoc | rewrite ret_bind ].

(** Decides which classifier answers, once the type is known. *)
Ltac which_type :=
  repeat match goal with
  | |- context [bool_decide (?x = ?x)] => rewrite (bool_decide_eq_true_2 (x = x)) by done
  | |- context [bool_decide (?x = ?y)] => rewrite (bool_decide_eq_false_2 (x = y)) by done
  end; cbv iota.

(** * The single table that a walk ends in *)

Section locked.
Context {P : Platform} {H : Machine}.

(** Table [g] as the handlers find it: unlocked, with [rc] references and entries [t]. *)
Record rtt_view (s : state) (g rc tag : Z) (p : page) (t : list Z) : Prop := {
  rv_addr : has_addr g;
  rv_gr : granules s !! g = Some (Gr false GRANULE_STATE_RTT rc tag);
  rv_rc : 0 <= rc <= 512;
  rv_mem : mem s !! g = Some p;
  rv_page : page_table p = Some t;
  rv_len : length t = 512%nat;
}.

Lemma rtt_granule_view s g : rtt_granule s g → ∃ rc tag p t, rtt_view s g rc tag p t.
Proof.
  intros (Ha & (rc & tag & Hg & Hrc) & t & Ht & Hl). unfold table_of in Ht.
  apply bind_Some in Ht as (p & Hp & Ht). by exists rc, tag, p, t.
Qed.

Lemma rtt_view_lock s g rc tag p t :
  rtt_view s g rc tag p t → lock_one g s = put_granule g (Gr true GRANULE_STATE_RTT rc tag) s.
Proof. intros [_ Hg Hrc _ _ _]. apply lock_one_Gr; [done|]. apply gok_rtt. lia. Qed.

Context {L : PlatformLaws P} {HL : MachineLaws P H}.

(** Locking the root and walking. *)
Lemma lock_walk_run s s2_ctx T addr level :
  rtt_wf s s2_ctx T → slots s !! SLOT_RTT = None →
  0 <= addr < 2 ^ ipa_bits s2_ctx → s2_starting_level s2_ctx <= level <= 3 →
  ∃ g i b rc tag p t e,
    granule_lock (g_rtt s2_ctx) GRANULE_STATE_RTT s = Ok ((), lock_one (g_rtt s2_ctx) s) ∧
    s2tt_walk_lock_unlock s2_ctx addr level (lock_one (g_rtt s2_ctx) s)
    = Ok ({| g_llt := g; windex := s2_addr_to_idx addr i; last_level := i |},
          put_granule g (Gr true GRANULE_STATE_RTT rc tag) s) ∧
    T !! g = Some (i, b) ∧ covers_lvl i b addr ∧ rtt_view s g rc tag p t ∧
    0 <= s2_addr_to_idx addr i < 512 ∧ t !! Z.to_nat (s2_addr_to_idx addr i) = Some e ∧
    s2_starting_level s2_ctx <= i <= level ∧ (i < level → entry_is_table e = false).
Proof using L HL.
  intros Hwf Hs Ha Hl. destruct (s2tt_walk_run s s2_ctx T addr level Hwf Hs Ha Hl) as (g & i & Hrun & Hend).
  destruct Hend as (b & e & HT & Hc & (t & Ht & He) & Hi & Hleaf).
  destruct (wf_table _ _ _ Hwf g i b HT) as [Hlv Hg].
  destruct (rtt_granule_view _ _ Hg) as (rc & tag & p & t' & Hv).
  assert (t' = t) as ->.
  { unfold table_of in Ht. destruct Hv as [_ _ _ Hm Hp _]. rewrite Hm in Ht. simpl in Ht. congruence. }
  exists g, i, b, rc, tag, p, t, e. split.
  - apply granule_lock_rtt. eapply (wf_table _ _ _ Hwf).
    replace (g_rtt s2_ctx) with (g_rtt s2_ctx + 0) by lia. apply (wf_root _ _ _ Hwf).
    pose proof (wf_space _ _ _ Hwf) as Hsp.
    assert (0 < 2 ^ ipa_bits s2_ctx) by (apply Z.pow_pos_nonneg; [lia|apply (wf_bits _ _ _ Hwf)]).
    assert (Hst : -1 <= s2_starting_level s2_ctx <= 3).
    { pose proof (wf_start _ _ _ Hwf) as Hw. unfold min_starting_level in Hw.
      unfold S2TT_MIN_STARTING_LEVEL_LPA2, S2TT_MIN_STARTING_LEVEL in Hw. destruct (enable_lpa2 s2_ctx); lia. }
    pose proof (map_size_pos _ Hst). nia.
  - rewrite <- (rtt_view_lock _ _ _ _ _ _ Hv). split; [done|]. split; [done|]. split; [done|].
    split; [done|]. split; [|split; [done|split; [lia|done]]].
    apply (covers_lvl_idx i b addr); [lia|lia|done].
Qed.
End locked.
