(* ===== verification/Realm.v ===== *)
(** The realm's address space as the handlers see it: the accessors and bounds of
    runtime/include/realm.h, and the translation, mapping and unmapping of single pages of
    runtime/rsi/realm_ipa_helper.c. *)
From S2P Require Import Prelude Types Granule Platform GranuleFind S2tte S2tt Buffer Walk Exec.

(** * Accessors (runtime/include/realm.h) *)

Definition set_rd_state (st : Z) (r : rd) : rd :=
  {| rd_state := st; rec_count := rec_count r; rim := rim r; rems := rems r; s2_ctx := s2_ctx r;
     num_rec_aux := num_rec_aux r;
     algorithm := algorithm r; pmu_enabled := pmu_enabled r; pmu_num_ctrs := pmu_num_ctrs r;
     simd_cfg := simd_cfg r; rpv := rpv r; apt_pa := apt_pa r |}.
Definition get_rd_state_locked (r : rd) : Z := rd_state r.
Definition get_rd_state_unlocked (r : rd) : Z := rd_state r.
Definition set_rd_rec_count (v : Z) (r : rd) : rd :=
  {| rd_state := rd_state r; rec_count := v; rim := rim r; rems := rems r; s2_ctx := s2_ctx r;
     num_rec_aux := num_rec_aux r;
     algorithm := algorithm r; pmu_enabled := pmu_enabled r; pmu_num_ctrs := pmu_num_ctrs r;
     simd_cfg := simd_cfg r; rpv := rpv r; apt_pa := apt_pa r |}.
Definition get_rd_rec_count_locked (r : rd) : Z := rec_count r.
Definition get_rd_rec_count_unlocked (r : rd) : Z := rec_count r.
Definition set_rd_rim (m : list Z) (r : rd) : rd :=
  {| rd_state := rd_state r; rec_count := rec_count r; rim := m; rems := rems r; s2_ctx := s2_ctx r;
     num_rec_aux := num_rec_aux r;
     algorithm := algorithm r; pmu_enabled := pmu_enabled r; pmu_num_ctrs := pmu_num_ctrs r;
     simd_cfg := simd_cfg r; rpv := rpv r; apt_pa := apt_pa r |}.
Definition set_rd_apt_pa (pa : Z) (r : rd) : rd :=
  {| rd_state := rd_state r; rec_count := rec_count r; rim := rim r; rems := rems r; s2_ctx := s2_ctx r;
     num_rec_aux := num_rec_aux r;
     algorithm := algorithm r; pmu_enabled := pmu_enabled r; pmu_num_ctrs := pmu_num_ctrs r;
     simd_cfg := simd_cfg r; rpv := rpv r; apt_pa := pa |}.

Definition realm_ipa_bits (r : rd) : Z := ipa_bits (s2_ctx r).
Definition realm_ipa_size (r : rd) : Z := 1 .<< realm_ipa_bits r.
Definition realm_par_size (r : rd) : Z := realm_ipa_size r .>> 1.
Definition realm_rtt_starting_level (r : rd) : Z := s2_starting_level (s2_ctx r).
Definition addr_in_par (r : rd) (addr : Z) : bool := addr <? realm_par_size r.

Definition addr_is_contained (container_base container_end address : Z) : bool :=
  if container_end .- 1 <? container_base then false
  else (container_base <=? address) && (address <=? container_end .- 1).

Definition region_is_contained (container_base container_end region_base region_end : Z) : bool :=
  if region_end .- 1 <? region_base then false
  else addr_is_contained container_base container_end region_base &&
       addr_is_contained container_base container_end (region_end .- 1).

Definition rec_ipa_size (r : rec) : Z := 1 .<< ipa_bits (ri_s2_ctx r).
Definition rec_par_size (r : rec) : Z := rec_ipa_size r .>> 1.
Definition addr_in_rec_par (r : rec) (addr : Z) : bool := addr <? rec_par_size r.
Definition region_in_rec_par (r : rec) (base end_ : Z) : bool :=
  region_is_contained 0 (rec_par_size r) base end_.

(** * Translation (runtime/rsi/realm_ipa_helper.c) *)

Inductive s2_walk_status := WALK_SUCCESS | WALK_INVALID_PARAMS | WALK_FAIL.

Record s2_walk_result := {
  sw_pa : Z;
  sw_rtt_level : Z;
  sw_ripas_val : ripas;
  sw_llt : option Z;
}.

Section realm.
Context {P : Platform} {H : Machine} {CF : Config}.

(** The common part of [realm_ipa_to_pa] and [realm_ipa_to_pa_with_rd]: everything after
    the checks of the address. *)
Definition ipa_walk (s2_ctx : s2tt_context) (ipa : Z) (sw : s2_walk_result)
  : M state (s2_walk_status * s2_walk_result) :=
  granule_lock (g_rtt s2_ctx) GRANULE_STATE_RTT ≫= λ _,
  s2tt_walk_lock_unlock s2_ctx ipa S2TT_PAGE_LEVEL ≫= λ wi,
  map_assert (g_llt wi) SLOT_RTT ≫= λ ll_table,
  tte_read ll_table (windex wi) ≫= λ s2tte,
  (if s2tte_is_assigned_ram s2tte (last_level wi) then
     lift (s2tte_pa s2_ctx s2tte (last_level wi)) ≫= λ pa,
     let offset := ipa .& (s2tte_map_size (last_level wi) .- 1) in
     mret (WALK_SUCCESS,
       {| sw_pa := pa .+ offset; sw_rtt_level := sw_rtt_level sw; sw_ripas_val := RIPAS_RAM;
          sw_llt := Some (g_llt wi) |})
   else
     let r := if s2tte_is_unassigned_destroyed s2tte || s2tte_is_assigned_destroyed s2tte (last_level wi)
              then RIPAS_DESTROYED
              else if s2tte_is_unassigned_ram s2tte then RIPAS_RAM else RIPAS_EMPTY in
     granule_unlock (g_llt wi) ≫= λ _,
     mret (WALK_FAIL,
       {| sw_pa := sw_pa sw; sw_rtt_level := sw_rtt_level sw; sw_ripas_val := r;
          sw_llt := sw_llt sw |})) ≫= λ '(status, sw),
  buffer_unmap ll_table ≫= λ _,
  mret (status, {| sw_pa := sw_pa sw; sw_rtt_level := u64 (last_level wi);
                   sw_ripas_val := sw_ripas_val sw; sw_llt := sw_llt sw |}).

Definition realm_ipa_to_pa (r : rec) (ipa : Z) (sw : s2_walk_result)
  : M state (s2_walk_status * s2_walk_result) :=
  if negb (GRANULE_ALIGNED ipa) || negb (addr_in_rec_par r ipa) then mret (WALK_INVALID_PARAMS, sw)
  else ipa_walk (ri_s2_ctx r) ipa sw.

Definition realm_ipa_to_pa_with_rd (r : rd) (ipa : Z) (sw : s2_walk_result)
  : M state (s2_walk_status * s2_walk_result) :=
  if negb (GRANULE_ALIGNED ipa) then mret (WALK_INVALID_PARAMS, sw)
  else ipa_walk (s2_ctx r) ipa sw.

(** The loop of [realm_ipa_get_ripas] from [index], [n] entries left: the final [addr]
    and [res]. *)
Fixpoint get_ripas_loop (n : nat) (index : Z) (table : Z) (level map_size start end_ : Z)
  (addr : Z) (res : ripas) : M state (Z * ripas) :=
  match n with
  | O => mret (addr, res)
  | S n' =>
      tte_read table index ≫= λ s2tte,
      if negb (s2tte_has_ripas s2tte level) then mret (addr, res)
      else
        (if s2tte_is_assigned_ram s2tte level then mret RIPAS_RAM
         else lift (s2tte_get_ripas s2tte)) ≫= λ tmp,
        if negb (addr =? start) && negb (bool_decide (tmp = res)) then mret (addr, res)
        else
          let res := if addr =? start then tmp else res in
          let addr := addr .+ map_size in
          if end_ <=? addr then mret (addr, res)
          else get_ripas_loop n' (index + 1) table level map_size start end_ addr res
  end.

(** [Some (ripas, top)] is WALK_SUCCESS, [None] is WALK_FAIL. *)
Definition realm_ipa_get_ripas (r : rec) (start end_ : Z) : M state (option (ripas * Z)) :=
  massert (GRANULE_ALIGNED start && GRANULE_ALIGNED end_) ≫= λ _,
  massert (addr_in_rec_par r start && addr_in_rec_par r (end_ .- 1)) ≫= λ _,
  let s2_ctx := ri_s2_ctx r in
  granule_lock (g_rtt s2_ctx) GRANULE_STATE_RTT ≫= λ _,
  s2tt_walk_lock_unlock s2_ctx start S2TT_PAGE_LEVEL ≫= λ wi,
  map_assert (g_llt wi) SLOT_RTT ≫= λ ll_table,
  let map_size := s2tte_map_size (last_level wi) in
  let start := start .& .~ (map_size .- 1) in
  get_ripas_loop (Z.to_nat (S2TTES_PER_S2TT - windex wi)) (windex wi) ll_table (last_level wi)
    map_size start end_ start RIPAS_EMPTY ≫= λ '(addr, res),
  buffer_unmap ll_table ≫= λ _,
  granule_unlock (g_llt wi) ≫= λ _,
  mret (if negb (addr =? start) then Some (res, addr) else None).

Definition map_ipa_to_pa (r : rd) (pa_addr ipa_addr : Z) : M state Z :=
  let s2_ctx := s2_ctx r in
  granule_lock (g_rtt s2_ctx) GRANULE_STATE_RTT ≫= λ _,
  s2tt_walk_lock_unlock s2_ctx ipa_addr S2TT_PAGE_LEVEL ≫= λ wi,
  if negb (last_level wi =? S2TT_PAGE_LEVEL) then granule_unlock (g_llt wi) ≫= λ _, mret 0
  else
    map_assert (g_llt wi) SLOT_RTT ≫= λ s2tt,
    tte_read s2tt (windex wi) ≫= λ _,
    lift (s2tte_create_assigned_ram s2_ctx pa_addr S2TT_PAGE_LEVEL) ≫= λ s2tte,
    tte_write s2tt (windex wi) s2tte ≫= λ _,
    s2tt_invalidate_page s2_ctx ipa_addr ≫= λ _,
    atomic_granule_get (g_llt wi) ≫= λ _,
    buffer_unmap s2tt ≫= λ _,
    granule_unlock (g_llt wi) ≫= λ _, mret 0.

Definition unmap_ipa_from_rd (r : rd) (ipa_addr : Z) : M state () :=
  let s2_ctx := s2_ctx r in
  granule_lock (g_rtt s2_ctx) GRANULE_STATE_RTT ≫= λ _,
  s2tt_walk_lock_unlock s2_ctx ipa_addr S2TT_PAGE_LEVEL ≫= λ wi,
  if negb (last_level wi =? S2TT_PAGE_LEVEL) then granule_unlock (g_llt wi)
  else
    map_assert (g_llt wi) SLOT_RTT ≫= λ s2tt,
    tte_read s2tt (windex wi) ≫= λ s2tte,
    (if s2tte_is_assigned_ram s2tte S2TT_PAGE_LEVEL then
       tte_write s2tt (windex wi) s2tte_create_unassigned_destroyed ≫= λ _,
       s2tt_invalidate_page s2_ctx ipa_addr ≫= λ _,
       atomic_granule_put (g_llt wi)
     else if s2tte_is_assigned_destroyed s2tte S2TT_PAGE_LEVEL then
       tte_write s2tt (windex wi) s2tte_create_unassigned_destroyed ≫= λ _,
       atomic_granule_put (g_llt wi)
     else if s2tte_is_assigned_empty s2tte S2TT_PAGE_LEVEL then
       tte_write s2tt (windex wi) s2tte_create_unassigned_empty ≫= λ _,
       atomic_granule_put (g_llt wi)
     else mret ()) ≫= λ _,
    buffer_unmap s2tt ≫= λ _,
    granule_unlock (g_llt wi).

Definition is_2mb_aligned (addr : Z) : bool := (addr .& (2 * 1024 * 1024 - 1)) =? 0.
End realm.

(** * Bounds *)

(** On regions that do not wrap, [region_is_contained] is inclusion of intervals. *)
Lemma region_is_contained_iff cb ce rb re :
  is_u64 cb → 0 < ce < 2 ^ 64 → is_u64 rb → 0 < re < 2 ^ 64 →
  region_is_contained cb ce rb re = true ↔ cb <= rb < re ∧ re <= ce.
Proof.
  intros Hcb Hce Hrb Hre. unfold region_is_contained, addr_is_contained.
  rewrite !u64_small by (unfold is_u64 in *; lia).
  destruct (Z.ltb_spec (re - 1) rb), (Z.ltb_spec (ce - 1) cb); lia.
Qed.

(** * Translation *)

(** Table [g] has entries [t] and [rc] references, and [l] was added to the TLB log;
    everything else is as in [s]. *)
Definition set_rtt (g rc tag : Z) (t : list Z) (l : list tlb_event) (s : state) : state :=
  {| granules := <[g := Gr false GRANULE_STATE_RTT rc tag]> (granules s);
     mem := <[g := PTable t]> (mem s); slots := slots s; vttbr_el2 := vttbr_el2 s;
     tlbi := l ++ tlbi s; tags := tags s; csm_ids := csm_ids s; vmids := vmids s |}.

Ltac unmap_finish rc :=
  destruct (Z.eqb_spec rc 0) as [->|];
  [ apply bind_run_err; eapply granule_refcount_dec_err; exec_side
  | exec granule_refcount_dec_run; exec buffer_unmap_run;
    erewrite granule_unlock_run by exec_side; st_norm; do 2 f_equal; unfold set_rtt;
    by rewrite !insert_insert_eq, delete_insert_id by done ].

Section specs.
Context {P : Platform} {H : Machine} {CF : Config} {L : PlatformLaws P} {HL : MachineLaws P H}.

Definition page_tlbi (s2_ctx : s2tt_context) (addr : Z) : list tlb_event :=
  [TlbVmalle1is (vmid s2_ctx); TlbIpas2e1is (vmid s2_ctx) (addr .>> 12)].

Lemma s2tt_invalidate_page_run s2_ctx addr s :
  0 <= vmid s2_ctx < 2 ^ 16 →
  s2tt_invalidate_page s2_ctx addr s = Ok ((), set_tlbi (page_tlbi s2_ctx addr ++ tlbi s) s).
Proof. intros Hv. by apply (stage2_tlbi_ipa_run s2_ctx addr 1 s). Qed.

Lemma restore_state s g gr slot h :
  granules s !! g = Some gr → slots s !! slot = None →
  {| granules := <[g := gr]> (granules s); mem := mem s;
     slots := delete slot (<[slot := h]> (slots s)); vttbr_el2 := vttbr_el2 s; tlbi := tlbi s;
     tags := tags s; csm_ids := csm_ids s; vmids := vmids s |} = s.
Proof. intros Hg Hs. rewrite insert_id, delete_insert_id by done. by destruct s. Qed.

(** ** Mapping a page *)

Lemma map_ipa_to_pa_run s r T pa ipa e' :
  rtt_wf s (s2_ctx r) T → slots s !! SLOT_RTT = None →
  0 <= vmid (s2_ctx r) < 2 ^ 16 → 0 <= ipa < 2 ^ ipa_bits (s2_ctx r) →
  s2tte_create_assigned_ram (s2_ctx r) pa 3 = Ok e' →
  ∃ g i b rc tag p t e, T !! g = Some (i, b) ∧ covers_lvl i b ipa ∧ rtt_view s g rc tag p t ∧
    t !! Z.to_nat (s2_addr_to_idx ipa i) = Some e ∧ (i < 3 → entry_is_table e = false) ∧
    map_ipa_to_pa r pa ipa s
    = if negb (i =? 3) then Ok (0, s)
      else if rc + 1 <=? 512
      then Ok (0, set_rtt g (rc + 1) tag (<[Z.to_nat (s2_addr_to_idx ipa 3) := e']> t)
                  (page_tlbi (s2_ctx r) ipa) s)
      else Err FAssert.
Proof using L HL.
  intros Hwf Hs Hv Ha He'.
  destruct (lock_walk_run s (s2_ctx r) T ipa 3 Hwf Hs Ha) as
    (g & i & b & rc & tag & p & t & e & Hlock & Hwalk & HT & Hc & Hview & Hidx & He & Hi & Hleaf).
  { pose proof (wf_start _ _ _ Hwf). lia. }
  exists g, i, b, rc, tag, p, t, e. do 5 (split; [done|]).
  destruct Hview as [Hadr Hg Hrc Hm Hp Hlen]. unfold map_ipa_to_pa. cbv zeta.
  run_step Hlock. run_step Hwalk. cbn [last_level g_llt windex].
  change S2TT_PAGE_LEVEL with 3. destruct (Z.eqb_spec i 3) as [->|Hne]; cbn [negb].
  - st_norm. exec map_assert_run. exec tte_read_run.
    exec (lift_run _ _ _ He'). exec tte_write_run.
    exec s2tt_invalidate_page_run. unfold atomic_granule_get.
    exec granule_refcount_inc_run. exec buffer_unmap_run.
    destruct (Z.leb_spec (rc + 1) 512).
    + exec granule_unlock_run. unfold mret, M_ret. do 2 f_equal. unfold set_rtt.
      rewrite !insert_insert_eq, delete_insert_id by done. done.
    + apply bind_run_err. eapply granule_unlock_err; [exec_side..|].
      change (unlocked_invariant GRANULE_STATE_RTT (rc + 1)) with (rc + 1 <=? 512).
      by rewrite (proj2 (Z.leb_gt _ _)) by lia.
  - st_norm. exec granule_unlock_run. unfold mret, M_ret. do 2 f_equal.
    rewrite insert_insert_eq, insert_id by done. by destruct s.
Qed.

(** ** Unmapping a page *)

(** The entry and the number of references after [unmap_ipa_from_rd]; [None] where the
    entry is left alone. *)
Definition unmap_entry (e : Z) : option Z :=
  if s2tte_is_assigned_ram e 3 || s2tte_is_assigned_destroyed e 3
  then Some s2tte_create_unassigned_destroyed
  else if s2tte_is_assigned_empty e 3 then Some s2tte_create_unassigned_empty
  else None.

Lemma unmap_ipa_from_rd_run s r T ipa :
  rtt_wf s (s2_ctx r) T → slots s !! SLOT_RTT = None →
  0 <= vmid (s2_ctx r) < 2 ^ 16 → 0 <= ipa < 2 ^ ipa_bits (s2_ctx r) →
  ∃ g i b rc tag p t e, T !! g = Some (i, b) ∧ covers_lvl i b ipa ∧ rtt_view s g rc tag p t ∧
    t !! Z.to_nat (s2_addr_to_idx ipa i) = Some e ∧ (i < 3 → entry_is_table e = false) ∧
    unmap_ipa_from_rd r ipa s
    = if negb (i =? 3) then Ok ((), s)
      else match unmap_entry e with
           | None => Ok ((), s)
           | Some e' =>
               if rc =? 0 then Err FAssert
               else Ok ((), set_rtt g (rc - 1) tag (<[Z.to_nat (s2_addr_to_idx ipa 3) := e']> t)
                       (if s2tte_is_assigned_ram e 3 then page_tlbi (s2_ctx r) ipa else []) s)
           end.
Proof using L HL.
  intros Hwf Hs Hv Ha.
  destruct (lock_walk_run s (s2_ctx r) T ipa 3 Hwf Hs Ha) as
    (g & i & b & rc & tag & p & t & e & Hlock & Hwalk & HT & Hc & Hview & Hidx & He & Hi & Hleaf).
  { pose proof (wf_start _ _ _ Hwf). lia. }
  exists g, i, b, rc, tag, p, t, e. do 5 (split; [done|]).
  destruct Hview as [Hadr Hg Hrc Hm Hp Hlen]. unfold unmap_ipa_from_rd. cbv zeta.
  run_step Hlock. run_step Hwalk. cbn [last_level g_llt windex].
  change S2TT_PAGE_LEVEL with 3. destruct (Z.eqb_spec i 3) as [->|Hne]; cbn [negb]; cycle 1.
  { erewrite granule_unlock_run by exec_side. st_norm. do 2 f_equal.
    rewrite insert_insert_eq, insert_id by done. by destruct s. }
  st_norm. exec map_assert_run. exec tte_read_run. unfold unmap_entry, atomic_granule_put.
  destruct (s2tte_is_assigned_ram e 3); [|destruct (s2tte_is_assigned_destroyed e 3);
    [|destruct (s2tte_is_assigned_empty e 3)]]; cbn [orb]; assoc.
  - exec tte_write_run. assoc. exec s2tt_invalidate_page_run. unmap_finish rc.
  - exec tte_write_run. unmap_finish rc.
  - exec tte_write_run. unmap_finish rc.
  - rewrite ret_bind. exec buffer_unmap_run.
    erewrite granule_unlock_run by exec_side. st_norm. do 2 f_equal.
    rewrite insert_insert_eq. by apply restore_state.
Qed.

(** ** Translation *)

Lemma assigned_ram_pa s2_ctx e i :
  min_starting_level s2_ctx <= i <= 3 → s2tte_is_assigned_ram e i = true →
  ∃ pa, s2tte_pa s2_ctx e i = Ok pa.
Proof.
  intros Hi Hram. unfold s2tte_is_assigned_ram, s2tte_check in Hram.
  assert (Hi' : -1 <= i <= 3).
  { unfold min_starting_level, S2TT_MIN_STARTING_LEVEL_LPA2, S2TT_MIN_STARTING_LEVEL in Hi.
    destruct (enable_lpa2 s2_ctx); lia. }
  assert (Hpa : ∀ l, -1 <= l <= 3 → ∃ pa, s2tte_to_pa e l (enable_lpa2 s2_ctx) = Ok pa).
  { intros l Hl. unfold s2tte_to_pa, s2tte_lvl_mask.
    rewrite rassert_bind by (apply Z.leb_le; unfold S2TT_PAGE_LEVEL; lia).
    rewrite rassert_bind by (apply Z.leb_le; unfold S2TT_MIN_STARTING_LEVEL_LPA2; lia).
    by eexists. }
  unfold s2tte_pa. rewrite rassert_bind by (apply Z.leb_le; lia).
  rewrite rassert_bind by (apply Z.leb_le; unfold S2TT_PAGE_LEVEL; lia).
  rewrite rassert_bind.
  - destruct (s2tte_is_table e i); [apply (Hpa 3)|apply Hpa]; lia.
  - unfold s2tte_has_pa. destruct (negb (_ =? 0)); [done|].
    destruct (i =? S2TT_PAGE_LEVEL).
    + apply Z.eqb_eq in Hram as ->. done.
    + apply andb_true_iff in Hram as [_ ->%Z.eqb_eq]. done.
Qed.

(** The RIPAS reported for an entry that is not a valid mapping. *)
Definition fail_ripas (e i : Z) : ripas :=
  if s2tte_is_unassigned_destroyed e || s2tte_is_assigned_destroyed e i then RIPAS_DESTROYED
  else if s2tte_is_unassigned_ram e then RIPAS_RAM else RIPAS_EMPTY.

Lemma ipa_walk_run s s2_ctx T ipa sw :
  rtt_wf s s2_ctx T → slots s !! SLOT_RTT = None → 0 <= ipa < 2 ^ ipa_bits s2_ctx →
  ∃ g i b rc tag p t e, T !! g = Some (i, b) ∧ covers_lvl i b ipa ∧ rtt_view s g rc tag p t ∧
    t !! Z.to_nat (s2_addr_to_idx ipa i) = Some e ∧ (i < 3 → entry_is_table e = false) ∧
    if s2tte_is_assigned_ram e i then
      ∃ pa, s2tte_pa s2_ctx e i = Ok pa ∧
        ipa_walk s2_ctx ipa sw s
        = Ok ((WALK_SUCCESS, {| sw_pa := pa .+ (ipa .& (s2tte_map_size i .- 1)); sw_rtt_level := u64 i;
                                sw_ripas_val := RIPAS_RAM; sw_llt := Some g |}), lock_one g s)
    else
      ipa_walk s2_ctx ipa sw s
      = Ok ((WALK_FAIL, {| sw_pa := sw_pa sw; sw_rtt_level := u64 i; sw_ripas_val := fail_ripas e i;
                           sw_llt := sw_llt sw |}), s).
Proof using L HL.
  intros Hwf Hs Ha. pose proof (wf_start _ _ _ Hwf) as Hst.
  destruct (lock_walk_run s s2_ctx T ipa 3 Hwf Hs Ha) as
    (g & i & b & rc & tag & p & t & e & Hlock & Hwalk & HT & Hc & Hview & Hidx & He & Hi & Hleaf); [lia|].
  exists g, i, b, rc, tag, p, t, e. do 5 (split; [done|]).
  rewrite (rtt_view_lock _ _ _ _ _ _ Hview).
  destruct Hview as [Hadr Hg Hrc Hm Hp Hlen]. unfold ipa_walk.
  destruct (s2tte_is_assigned_ram e i) eqn:Hram.
  - destruct (assigned_ram_pa s2_ctx e i ltac:(lia) Hram) as [pa Hpa]. exists pa. split; [done|].
    run_step Hlock. run_step Hwalk. cbn [last_level g_llt windex]. st_norm.
    exec map_assert_run. exec tte_read_run. rewrite Hram. assoc.
    exec (lift_run _ _ _ Hpa). rewrite ret_bind. exec buffer_unmap_run.
    unfold mret, M_ret. do 2 f_equal. by rewrite delete_insert_id.
  - run_step Hlock. run_step Hwalk. cbn [last_level g_llt windex]. st_norm.
    exec map_assert_run. exec tte_read_run. rewrite Hram. assoc. cbv zeta.
    exec granule_unlock_run. rewrite ret_bind. exec buffer_unmap_run.
    unfold mret, M_ret. do 2 f_equal. rewrite insert_insert_eq. by apply restore_state.
Qed.

Lemma rec_par_bound r ipa :
  0 <= ipa_bits (ri_s2_ctx r) <= 52 → 0 <= ipa → addr_in_rec_par r ipa = true →
  0 <= ipa < 2 ^ ipa_bits (ri_s2_ctx r).
Proof.
  intros Hb Hi Hpar. apply Z.ltb_lt in Hpar. split; [done|]. unfold rec_par_size, rec_ipa_size in Hpar.
  assert (Hpow : 1 .<< ipa_bits (ri_s2_ctx r) = 2 ^ ipa_bits (ri_s2_ctx r)).
  { unfold shl64. rewrite Z.shiftl_mul_pow2, Z.mul_1_l by lia. apply u64_small. split; [lia|].
    apply Z.pow_lt_mono_r; lia. }
  rewrite Hpow, Z.shiftr_div_pow2 in Hpar by lia.
  assert (2 ^ ipa_bits (ri_s2_ctx r) / 2 ^ 1 <= 2 ^ ipa_bits (ri_s2_ctx r)); [|lia].
  apply Z.div_le_upper_bound; lia.
Qed.

(** Translating a realm's address always returns. An address that is not aligned or
    not protected is refused. Otherwise the answer is that of the last table for the
    address: a success exactly when its entry is a valid mapping, with the physical
    address of the page and exactly that table left locked for the caller; else a failure
    that reports the RIPAS of the entry and leaves the whole state as it was. *)
Theorem realm_ipa_to_pa_spec s r T ipa sw :
  rtt_wf s (ri_s2_ctx r) T → slots s !! SLOT_RTT = None → 0 <= ipa →
  if GRANULE_ALIGNED ipa && addr_in_rec_par r ipa then
    ∃ g i b rc tag p t e, T !! g = Some (i, b) ∧ covers_lvl i b ipa ∧ rtt_view s g rc tag p t ∧
      t !! Z.to_nat (s2_addr_to_idx ipa i) = Some e ∧ (i < 3 → entry_is_table e = false) ∧
      if s2tte_is_assigned_ram e i then
        ∃ pa, s2tte_pa (ri_s2_ctx r) e i = Ok pa ∧
          realm_ipa_to_pa r ipa sw s
          = Ok ((WALK_SUCCESS, {| sw_pa := pa .+ (ipa .& (s2tte_map_size i .- 1)); sw_rtt_level := u64 i;
                                  sw_ripas_val := RIPAS_RAM; sw_llt := Some g |}), lock_one g s)
      else
        realm_ipa_to_pa r ipa sw s
        = Ok ((WALK_FAIL, {| sw_pa := sw_pa sw; sw_rtt_level := u64 i; sw_ripas_val := fail_ripas e i;
                             sw_llt := sw_llt sw |}), s)
  else realm_ipa_to_pa r ipa sw s = Ok ((WALK_INVALID_PARAMS, sw), s).
Proof using L HL.
  intros Hwf Hs Hi. unfold realm_ipa_to_pa.
  destruct (GRANULE_ALIGNED ipa); [|done]. destruct (addr_in_rec_par r ipa) eqn:Hpar; [|done].
  cbn [negb orb andb]. eapply ipa_walk_run; [done|done|]. apply rec_par_bound; [|done|done].
  pose proof (wf_bits _ _ _ Hwf) as Hb. unfold s2tte_oa_bits, S2TTE_OA_BITS, S2TTE_OA_BITS_LPA2 in Hb.
  destruct (enable_lpa2 _); lia.
Qed.

(** ** Mapping twice *)

(** The entries that hold a reference on their table. *)
Definition live_count (t : list Z) : nat := length (List.filter (λ e, s2tte_is_live e 3) t).

Lemma filter_insert_same {A} (f : A → bool) (l : list A) i x y :
  l !! i = Some x → f x = true → f y = true →
  length (List.filter f (<[i := y]> l)) = length (List.filter f l).
Proof.
  revert i. induction l as [|a l IH]; intros [|i] Hi Hx Hy; simpl in *; try done.
  - simplify_eq. by rewrite Hx, Hy.
  - destruct (f a); simpl; by rewrite (IH i).
Qed.

Lemma filter_insert_add {A} (f : A → bool) (l : list A) i x y :
  l !! i = Some x → f x = false → f y = true →
  length (List.filter f (<[i := y]> l)) = S (length (List.filter f l)).
Proof. intros Hi Hx Hy. by rewrite (filter_insert_new f l i y x). Qed.

Lemma unmap_entry_live e e' :
  unmap_entry e = Some e' → s2tte_is_live e 3 = true ∧ s2tte_is_live e' 3 = false.
Proof.
  unfold unmap_entry, s2tte_is_live. intros He. split.
  - unfold s2tte_has_pa. destruct (s2tte_is_assigned_ram e 3) eqn:Hram.
    + unfold s2tte_is_assigned_ram, s2tte_check in Hram. destruct (negb (_ =? 0)) eqn:Hns; [done|].
      cbn [Z.eqb Pos.eqb S2TT_PAGE_LEVEL] in Hram. apply Z.eqb_eq in Hram as ->. done.
    + cbn [orb] in He. destruct (s2tte_is_assigned_destroyed e 3); [by rewrite orb_true_r|].
      destruct (s2tte_is_assigned_empty e 3); [|done]. by rewrite orb_true_r.
  - destruct (s2tte_is_assigned_ram e 3 || s2tte_is_assigned_destroyed e 3); [by simplify_eq|].
    destruct (s2tte_is_assigned_empty e 3); by simplify_eq.
Qed.

(** Mapping a page into a realm's address space (as the sharing of memory does)
    replaces whatever entry is there and takes one more reference on the table: on an entry
    that is not live the references keep counting the live entries, but on an entry that is
    already live they do not: the table ends with one reference more than live entries. *)
Theorem map_ipa_to_pa_spec s r T pa ipa e' :
  rtt_wf s (s2_ctx r) T → slots s !! SLOT_RTT = None →
  0 <= vmid (s2_ctx r) < 2 ^ 16 → 0 <= ipa < 2 ^ ipa_bits (s2_ctx r) →
  is_made (s2_ctx r) AssignedRam pa 3 e' →
  ∃ g i b rc tag p t e, T !! g = Some (i, b) ∧ covers_lvl i b ipa ∧ rtt_view s g rc tag p t ∧
    t !! Z.to_nat (s2_addr_to_idx ipa i) = Some e ∧ (i < 3 → entry_is_table e = false) ∧
    (i ≠ 3 → map_ipa_to_pa r pa ipa s = Ok (0, s)) ∧
    (i = 3 → rc < 512 → ∃ t',
       t' = <[Z.to_nat (s2_addr_to_idx ipa 3) := e']> t ∧
       map_ipa_to_pa r pa ipa s = Ok (0, set_rtt g (rc + 1) tag t' (page_tlbi (s2_ctx r) ipa) s) ∧
       if s2tte_is_live e 3
       then rc = Z.of_nat (live_count t) → rc + 1 ≠ Z.of_nat (live_count t')
       else rc = Z.of_nat (live_count t) → rc + 1 = Z.of_nat (live_count t')).
Proof using L HL.
  intros Hwf Hs Hv Ha Hm. pose proof (made_has_pa _ _ _ _ _ Hm) as Hlive.
  assert (He' : s2tte_create_assigned_ram (s2_ctx r) pa 3 = Ok e') by (by destruct Hm as [_ [? ?]]).
  destruct (map_ipa_to_pa_run s r T pa ipa e' Hwf Hs Hv Ha He')
    as (g & i & b & rc & tag & p & t & e & HT & Hc & Hview & He & Hleaf & Hrun).
  exists g, i, b, rc, tag, p, t, e. do 5 (split; [done|]). split.
  - intros Hne. by rewrite Hrun, (proj2 (Z.eqb_neq i 3)).
  - intros -> Hrc. rewrite (proj2 (Z.leb_le _ _)) in Hrun by lia.
    eexists. split; [done|]. split; [done|]. unfold live_count.
    destruct (s2tte_is_live e 3) eqn:Hel.
    + rewrite (filter_insert_same _ _ _ _ _ He Hel Hlive). lia.
    + rewrite (filter_insert_add _ _ _ _ _ He Hel Hlive). lia.
Qed.

(** Unmapping a page undoes mapping it: an assigned entry becomes unassigned (destroyed
    if it was RAM or destroyed, empty if it was empty), gives back one reference, and a
    valid mapping is invalidated in the TLBs; any other entry, and an address without a
    level 3 table, is left alone. The references keep counting the live entries. *)
Theorem unmap_ipa_from_rd_spec s r T ipa :
  rtt_wf s (s2_ctx r) T → slots s !! SLOT_RTT = None →
  0 <= vmid (s2_ctx r) < 2 ^ 16 → 0 <= ipa < 2 ^ ipa_bits (s2_ctx r) →
  ∃ g i b rc tag p t e, T !! g = Some (i, b) ∧ covers_lvl i b ipa ∧ rtt_view s g rc tag p t ∧
    t !! Z.to_nat (s2_addr_to_idx ipa i) = Some e ∧ (i < 3 → entry_is_table e = false) ∧
    match (if i =? 3 then unmap_entry e else None) with
    | None => unmap_ipa_from_rd r ipa s = Ok ((), s)
    | Some e' =>
        let t' := <[Z.to_nat (s2_addr_to_idx ipa 3) := e']> t in
        rc = Z.of_nat (live_count t) →
        rc - 1 = Z.of_nat (live_count t') ∧
        unmap_ipa_from_rd r ipa s
        = Ok ((), set_rtt g (rc - 1) tag t'
                    (if s2tte_is_assigned_ram e 3 then page_tlbi (s2_ctx r) ipa else []) s)
    end.
Proof using L HL.
  intros Hwf Hs Hv Ha.
  destruct (unmap_ipa_from_rd_run s r T ipa Hwf Hs Hv Ha)
    as (g & i & b & rc & tag & p & t & e & HT & Hc & Hview & He & Hleaf & Hrun).
  exists g, i, b, rc, tag, p, t, e. do 5 (split; [done|]).
  destruct (Z.eqb_spec i 3) as [->|]; cbn [negb] in Hrun; [|done].
  destruct (unmap_entry e) as [e'|] eqn:Hu; [|done]. cbv zeta. intros Hrc.
  assert (Hcnt : S (live_count (<[Z.to_nat (s2_addr_to_idx ipa 3) := e']> t)) = live_count t).
  { unfold live_count. apply unmap_entry_live in Hu as [Hel Hel'].
    by rewrite (filter_insert_del _ _ _ e' _ He Hel Hel'). }
  rewrite (proj2 (Z.eqb_neq rc 0)) in Hrun by lia. split; [lia|done].
Qed.
End specs.

(** * Examples *)

#[local] Instance realm_config : Config := plain_config.

Definition demo_rec : rec :=
  set_runnable true (set_realm_info
    {| inf_g_rd := 0; inf_pmu_enabled := false; inf_pmu_num_ctrs := 0; inf_algorithm := HASH_SHA_256;
       inf_simd_cfg := simd_config_zero; inf_s2_ctx := demo_ctx |} rec_zero).

Definition demo_sw : s2_walk_result :=
  {| sw_pa := 0; sw_rtt_level := 0; sw_ripas_val := RIPAS_EMPTY; sw_llt := None |}.

Lemma realm_ipa_to_pa_spec_witness :
  ∃ st sw s', realm_ipa_to_pa (P := demo_platform) (H := zero_machine) demo_rec (5 * 4096) demo_sw
                (demo_state (replicate 512 0) 0) = Ok ((st, sw), s').
Proof.
  pose proof (realm_ipa_to_pa_spec (P := demo_platform) (H := zero_machine) (L := demo_laws)
    (HL := demo_machine_laws) (demo_state (replicate 512 0) 0) demo_rec demo_tables (5 * 4096) demo_sw) as Hw.
  change (GRANULE_ALIGNED (5 * 4096) && addr_in_rec_par demo_rec (5 * 4096)) with true in Hw. cbv iota in Hw.
  destruct Hw as (g & i & b & rc & tag & p & t & e & _ & _ & _ & _ & _ & Hrun);
    [apply demo_wf; [reflexivity|lia] | reflexivity | lia |].
  destruct (s2tte_is_assigned_ram e i); [destruct Hrun as (pa & _ & Hrun)|]; eauto.
Defined.

Lemma demo_level3 g b : demo_tables !! g = Some (3, b) → g = 3.
Proof.
  unfold demo_tables. rewrite !lookup_insert_Some, lookup_singleton_Some.
  by intros [[_ [=]]|[_ [[_ [=]]|[_ [<- _]]]]].
Qed.

Lemma demo_page_made :
  is_made demo_ctx AssignedRam (4 * 4096) 3 (4 * 4096 + S2TTE_PAGE).
Proof. split; [split; [lia|reflexivity]|]. exists 0. reflexivity. Qed.

Lemma demo_rc rc tag p t :
  rtt_view (P := demo_platform) (demo_state (replicate 512 0) 0) 3 rc tag p t →
  rc = 0 ∧ t = replicate 512 0.
Proof.
  intros [_ Hg Hb Hm Hp _]. split.
  - assert (Hk : granules (demo_state (replicate 512 0) 0) !! 3 = Some (Gr false GRANULE_STATE_RTT 0 0))
      by reflexivity.
    rewrite Hk in Hg. apply (inj Some) in Hg.
    apply Gr_inj in Hg as (_ & _ & Hz & _); [lia | apply gok_rtt; lia | apply gok_rtt; lia].
  - assert (Hk : mem (demo_state (replicate 512 0) 0) !! 3 = Some (PTable (replicate 512 0))) by reflexivity.
    rewrite Hk in Hm. apply (inj Some) in Hm as <-. by injection Hp.
Qed.

Lemma map_ipa_to_pa_spec_witness :
  ∃ s', map_ipa_to_pa (P := demo_platform) (H := zero_machine) demo_rd (4 * 4096) (5 * 4096)
          (demo_state (replicate 512 0) 0) = Ok (0, s').
Proof.
  destruct (map_ipa_to_pa_spec (P := demo_platform) (H := zero_machine) (L := demo_laws)
    (HL := demo_machine_laws) (demo_state (replicate 512 0) 0) demo_rd demo_tables (4 * 4096) (5 * 4096)
    (4 * 4096 + S2TTE_PAGE) (demo_wf (replicate 512 0) 0 eq_refl ltac:(lia)) eq_refl ltac:(done) ltac:(done)
    demo_page_made) as (g & i & b & rc & tag & p & t & e & HT & _ & Hv & _ & _ & Hno & Hyes).
  destruct (decide (i = 3)) as [Hi|Hi]; [|exists (demo_state (replicate 512 0) 0); exact (Hno Hi)].
  subst i. apply demo_level3 in HT as ->. apply demo_rc in Hv as [Hrc _].
  destruct (Hyes eq_refl ltac:(lia)) as (t' & _ & Hrun & _).
  eexists. exact Hrun.
Defined.

Lemma unmap_ipa_from_rd_spec_witness :
  unmap_ipa_from_rd (P := demo_platform) (H := zero_machine) demo_rd (5 * 4096)
    (demo_state (replicate 512 0) 0) = Ok ((), demo_state (replicate 512 0) 0).
Proof.
  destruct (unmap_ipa_from_rd_spec (P := demo_platform) (H := zero_machine) (L := demo_laws)
    (HL := demo_machine_laws) (demo_state (replicate 512 0) 0) demo_rd demo_tables (5 * 4096))
    as (g & i & b & rc & tag & p & t & e & HT & _ & Hv & He & _ & Hrun).
  - apply demo_wf; [reflexivity|lia].
  - reflexivity.
  - simpl. lia.
  - simpl. lia.
  - destruct (Z.eqb_spec i 3) as [->|]; [|exact Hrun].
    apply demo_level3 in HT as ->.
    apply demo_rc in Hv as [_ ->]. apply lookup_replicate in He as [-> _]. exact Hrun.
Defined.
