(* ===== verification/Rtt.v ===== *)
(** The RMI commands on translation tables (runtime/rmi/rtt.c): creating, folding,
    destroying and reading tables, and mapping host memory outside the protected space.
    A handler that answers through [struct smc_result] takes the registers and returns
    them. *)
From S2P Require Import Prelude Types Granule Platform GranuleFind S2tte S2tt Buffer Delegate Walk Exec Realm.

(** [(long)ulevel]. *)
Definition s64 (x : Z) : Z := if x <? 2 ^ 63 then x else x - 2 ^ 64.

Record smc_result := { x0 : Z; x1 : Z; x2 : Z; x3 : Z; x4 : Z }.
Definition set_x0 (v : Z) (r : smc_result) : smc_result :=
  {| x0 := v; x1 := x1 r; x2 := x2 r; x3 := x3 r; x4 := x4 r |}.
Definition set_x1 (v : Z) (r : smc_result) : smc_result :=
  {| x0 := x0 r; x1 := v; x2 := x2 r; x3 := x3 r; x4 := x4 r |}.
Definition set_x2 (v : Z) (r : smc_result) : smc_result :=
  {| x0 := x0 r; x1 := x1 r; x2 := v; x3 := x3 r; x4 := x4 r |}.
Definition set_x234 (a b c : Z) (r : smc_result) : smc_result :=
  {| x0 := x0 r; x1 := x1 r; x2 := a; x3 := b; x4 := c |}.

(** * Validation of arguments *)

Definition validate_map_addr (map_addr level : Z) (r : rd) : result bool :=
  if map_addr <? realm_ipa_size r then s2tte_is_addr_lvl_aligned (s2_ctx r) map_addr level
  else Ok false.

Definition validate_rtt_structure_cmds (map_addr level : Z) (r : rd) : result bool :=
  let min_level := realm_rtt_starting_level r + 1 in
  if (level <? min_level) || (S2TT_PAGE_LEVEL <? level) then Ok false
  else validate_map_addr map_addr (level - 1) r.

Definition validate_rtt_map_cmds (map_addr level : Z) (r : rd) : result bool :=
  if (level <? S2TT_MIN_BLOCK_LEVEL) || (S2TT_PAGE_LEVEL <? level) then Ok false
  else validate_map_addr map_addr level r.

Definition validate_rtt_entry_cmds (map_addr level : Z) (r : rd) : result bool :=
  if (level <? realm_rtt_starting_level r) || (S2TT_PAGE_LEVEL <? level) then Ok false
  else validate_map_addr map_addr level r.

Section rtt.
Context {P : Platform} {H : Machine} {CF : Config}.

(** [pack_return_code(RMI_ERROR_RTT, (unsigned char)level)]. *)
Definition rtt_error (level : Z) : M state Z := lift (pack_return_code RMI_ERROR_RTT (u8 level)).

(** * RTT_CREATE *)

(** The entries of the new table follow the parent's entry. [Some ret] is the exit
    [out_unmap_table] with an error. *)
Definition rtt_create_init (s2_ctx : s2tt_context) (wi : s2tt_walk)
  (g_tbl parent_s2tt s2tt parent_s2tte map_addr level : Z) : M state (option Z) :=
  let block (init : Z → result (list Z)) (valid : bool) (account : M state ()) :=
    massert (S2TT_MIN_BLOCK_LEVEL <? level) ≫= λ _,
    mwhen valid
      (tte_write parent_s2tt (windex wi) 0 ≫= λ _, s2tt_invalidate_block s2_ctx map_addr) ≫= λ _,
    lift (s2tte_pa s2_ctx parent_s2tte (level - 1)) ≫= λ block_pa,
    lift (init block_pa) ≫= λ t,
    write_page s2tt (PTable t) ≫= λ _, account ≫= λ _, mret None in
  let unassigned (t : list Z) :=
    write_page s2tt (PTable t) ≫= λ _, atomic_granule_get (g_llt wi) ≫= λ _, mret None in
  if s2tte_is_unassigned_empty parent_s2tte then unassigned s2tt_init_unassigned_empty
  else if s2tte_is_unassigned_ram parent_s2tte then unassigned s2tt_init_unassigned_ram
  else if s2tte_is_unassigned_ns parent_s2tte then unassigned s2tt_init_unassigned_ns
  else if s2tte_is_unassigned_destroyed parent_s2tte then unassigned s2tt_init_unassigned_destroyed
  else if s2tte_is_assigned_destroyed parent_s2tte (level - 1) then
    block (λ pa, s2tt_init_assigned_destroyed s2_ctx pa level) false
      (granule_refcount_inc g_tbl (u16 S2TTES_PER_S2TT))
  else if s2tte_is_assigned_empty parent_s2tte (level - 1) then
    block (λ pa, s2tt_init_assigned_empty s2_ctx pa level) false
      (granule_refcount_inc g_tbl (u16 S2TTES_PER_S2TT))
  else if s2tte_is_assigned_ram parent_s2tte (level - 1) then
    block (λ pa, s2tt_init_assigned_ram s2_ctx pa level) true
      (granule_refcount_inc g_tbl (u16 S2TTES_PER_S2TT))
  else if s2tte_is_assigned_ns parent_s2tte (level - 1) then
    block (λ pa, s2tt_init_assigned_ns s2_ctx parent_s2tte pa level) true
      (atomic_granule_get (g_llt wi))
  else if s2tte_is_table parent_s2tte (level - 1) then
    rtt_error (level - 1) ≫= λ ret, mret (Some ret)
  else mfault FAssert.

(** From the walk to [out_unlock_llt]. *)
Definition rtt_create_link (s2_ctx : s2tt_context) (wi : s2tt_walk)
  (g_tbl rtt_addr map_addr level : Z) : M state Z :=
  if negb (last_level wi =? level - 1) then rtt_error (last_level wi)
  else
    map_assert (g_llt wi) SLOT_RTT ≫= λ parent_s2tt,
    tte_read parent_s2tt (windex wi) ≫= λ parent_s2tte,
    map_assert g_tbl SLOT_DELEGATED ≫= λ s2tt,
    rtt_create_init s2_ctx wi g_tbl parent_s2tt s2tt parent_s2tte map_addr level ≫= λ err,
    match err with
    | Some ret => mret ret
    | None =>
        granule_set_state g_tbl GRANULE_STATE_RTT ≫= λ _,
        lift (s2tte_create_table s2_ctx rtt_addr (level - 1)) ≫= λ e,
        tte_write parent_s2tt (windex wi) e ≫= λ _, mret RMI_SUCCESS
    end ≫= λ ret,
    buffer_unmap s2tt ≫= λ _,
    buffer_unmap parent_s2tt ≫= λ _, mret ret.

Definition smc_rtt_create (rd_addr rtt_addr map_addr ulevel : Z) : M state Z :=
  let level := s64 ulevel in
  find_lock_two_granules rtt_addr GRANULE_STATE_DELEGATED rd_addr GRANULE_STATE_RD ≫= λ og,
  match og with
  | None => mret RMI_ERROR_INPUT
  | Some (g_tbl, g_rd) =>
      map_assert g_rd SLOT_RD ≫= λ rdp,
      read_rd rdp ≫= λ r,
      lift (validate_rtt_structure_cmds map_addr level r) ≫= λ ok,
      if negb ok then
        buffer_unmap rdp ≫= λ _, granule_unlock g_rd ≫= λ _, granule_unlock g_tbl ≫= λ _,
        mret RMI_ERROR_INPUT
      else
        let s2_ctx := s2_ctx r in
        buffer_unmap rdp ≫= λ _,
        if negb (enable_lpa2 s2_ctx) && (1 .<< S2TT_MAX_PA_BITS <=? rtt_addr) then
          granule_unlock g_rd ≫= λ _, granule_unlock g_tbl ≫= λ _, mret RMI_ERROR_INPUT
        else
          granule_lock (g_rtt s2_ctx) GRANULE_STATE_RTT ≫= λ _,
          granule_unlock g_rd ≫= λ _,
          s2tt_walk_lock_unlock s2_ctx map_addr (level - 1) ≫= λ wi,
          rtt_create_link s2_ctx wi g_tbl rtt_addr map_addr level ≫= λ ret,
          granule_unlock (g_llt wi) ≫= λ _,
          granule_unlock g_tbl ≫= λ _, mret ret
  end.

(** * RTT_FOLD *)

(** The entry that replaces the table, or the error that is returned. *)
Definition rtt_fold_entry (s2_ctx : s2tt_context) (wi : s2tt_walk) (g_tbl table level : Z)
  : M state (Z + Z) :=
  granule_refcount_read g_tbl ≫= λ rc,
  read_table table ≫= λ t,
  if rc =? 0 then
    lift (s2tt_is_unassigned_destroyed_block t) ≫= λ b1,
    lift (if (b1 : bool) then Ok false else s2tt_is_unassigned_empty_block t) ≫= λ b2,
    lift (if b1 || b2 then Ok false else s2tt_is_unassigned_ram_block t) ≫= λ b3,
    lift (if b1 || b2 || b3 then Ok false else s2tt_is_unassigned_ns_block t) ≫= λ b4,
    lift (if b1 || b2 || b3 || b4 then Ok false else s2tt_maps_assigned_ns_block s2_ctx t level) ≫= λ b5,
    (if (b1 : bool) then mret (inl s2tte_create_unassigned_destroyed)
     else if (b2 : bool) then mret (inl s2tte_create_unassigned_empty)
     else if (b3 : bool) then mret (inl s2tte_create_unassigned_ram)
     else if (b4 : bool) then mret (inl s2tte_create_unassigned_ns)
     else if (b5 : bool) then
       if level <=? S2TT_MIN_BLOCK_LEVEL then
         rtt_error (last_level wi) ≫= λ ret, mret (inr ret)
       else
         tte_read table 0 ≫= λ s2tte,
         lift (s2tte_create_assigned_ns s2_ctx s2tte (level - 1)) ≫= λ e, mret (inl e)
     else rtt_error level ≫= λ ret, mret (inr ret)) ≫= λ res,
    match res with
    | inl e => atomic_granule_put (g_llt wi) ≫= λ _, mret (inl e)
    | inr ret => mret (inr ret)
    end
  else if rc =? u16 S2TTES_PER_S2TT then
    if level <=? S2TT_MIN_BLOCK_LEVEL then rtt_error (last_level wi) ≫= λ ret, mret (inr ret)
    else
      tte_read table 0 ≫= λ s2tte,
      lift (s2tte_pa s2_ctx s2tte level) ≫= λ block_pa,
      lift (s2tt_maps_assigned_empty_block s2_ctx t level) ≫= λ b1,
      lift (if (b1 : bool) then Ok false else s2tt_maps_assigned_ram_block s2_ctx t level) ≫= λ b2,
      lift (if b1 || b2 then Ok false else s2tt_maps_assigned_destroyed_block s2_ctx t level) ≫= λ b3,
      (if (b1 : bool) then lift (s2tte_create_assigned_empty s2_ctx block_pa (level - 1)) ≫= λ e, mret (inl e)
       else if (b2 : bool) then lift (s2tte_create_assigned_ram s2_ctx block_pa (level - 1)) ≫= λ e, mret (inl e)
       else if (b3 : bool) then lift (s2tte_create_assigned_destroyed s2_ctx block_pa (level - 1)) ≫= λ e, mret (inl e)
       else rtt_error level ≫= λ ret, mret (inr ret)) ≫= λ res,
      match res with
      | inl e => granule_refcount_dec g_tbl (u16 S2TTES_PER_S2TT) ≫= λ _, mret (inl e)
      | inr ret => mret (inr ret)
      end
  else rtt_error level ≫= λ ret, mret (inr ret).

(** From the walk to [out_unlock_parent_table]: the status and, on success, [rtt_addr]. *)
Definition rtt_fold_unlink (s2_ctx : s2tt_context) (wi : s2tt_walk) (map_addr level : Z)
  : M state (Z * option Z) :=
  if negb (last_level wi =? level - 1) then rtt_error (last_level wi) ≫= λ ret, mret (ret, None)
  else
    map_assert (g_llt wi) SLOT_RTT ≫= λ parent_s2tt,
    tte_read parent_s2tt (windex wi) ≫= λ parent_s2tte,
    (if negb (s2tte_is_table parent_s2tte (level - 1)) then
       rtt_error (level - 1) ≫= λ ret, mret (ret, None)
     else
       lift (s2tte_pa s2_ctx parent_s2tte (level - 1)) ≫= λ rtt_addr,
       find_lock_granule rtt_addr GRANULE_STATE_RTT ≫= λ og,
       massert (bool_decide (is_Some og)) ≫= λ _,
       mderef og ≫= λ g_tbl,
       map_assert g_tbl SLOT_RTT2 ≫= λ table,
       rtt_fold_entry s2_ctx wi g_tbl table level ≫= λ res,
       match res with
       | inr ret => mret (ret, None)
       | inl e =>
           tte_write parent_s2tt (windex wi) 0 ≫= λ _,
           (if s2tte_is_assigned_ram e (level - 1) || s2tte_is_assigned_ns e (level - 1)
            then s2tt_invalidate_pages_in_block s2_ctx map_addr
            else s2tt_invalidate_block s2_ctx map_addr) ≫= λ _,
           tte_write parent_s2tt (windex wi) e ≫= λ _,
           granule_memzero_mapped table ≫= λ _,
           granule_set_state g_tbl GRANULE_STATE_DELEGATED ≫= λ _,
           mret (RMI_SUCCESS, Some rtt_addr)
       end ≫= λ ret,
       buffer_unmap table ≫= λ _,
       granule_unlock g_tbl ≫= λ _, mret ret) ≫= λ ret,
    buffer_unmap parent_s2tt ≫= λ _, mret ret.

Definition smc_rtt_fold (rd_addr map_addr ulevel : Z) (res : smc_result) : M state smc_result :=
  let level := s64 ulevel in
  find_lock_granule rd_addr GRANULE_STATE_RD ≫= λ og,
  match og with
  | None => mret (set_x0 RMI_ERROR_INPUT res)
  | Some g_rd =>
      map_assert g_rd SLOT_RD ≫= λ rdp,
      read_rd rdp ≫= λ r,
      lift (validate_rtt_structure_cmds map_addr level r) ≫= λ ok,
      if negb ok then
        buffer_unmap rdp ≫= λ _, granule_unlock g_rd ≫= λ _, mret (set_x0 RMI_ERROR_INPUT res)
      else
        let s2_ctx := s2_ctx r in
        buffer_unmap rdp ≫= λ _,
        granule_lock (g_rtt s2_ctx) GRANULE_STATE_RTT ≫= λ _,
        granule_unlock g_rd ≫= λ _,
        s2tt_walk_lock_unlock s2_ctx map_addr (level - 1) ≫= λ wi,
        rtt_fold_unlink s2_ctx wi map_addr level ≫= λ '(ret, oaddr),
        granule_unlock (g_llt wi) ≫= λ _,
        mret (set_x0 ret (match oaddr with Some a => set_x1 a res | None => res end))
  end.

(** * RTT_DESTROY *)

(** From the walk to [out_unmap_parent_table]: the status, [rtt_addr] on success, and
    [skip_non_live]. *)
Definition rtt_destroy_unlink (s2_ctx : s2tt_context) (wi : s2tt_walk)
  (parent_s2tt map_addr level : Z) (in_par : bool) : M state (Z * option Z * bool) :=
  tte_read parent_s2tt (windex wi) ≫= λ parent_s2tte,
  if negb (last_level wi =? level - 1) || negb (s2tte_is_table parent_s2tte (level - 1)) then
    rtt_error (last_level wi) ≫= λ ret, mret (ret, None, true)
  else
    lift (s2tte_pa s2_ctx parent_s2tte (level - 1)) ≫= λ rtt_addr,
    find_lock_granule rtt_addr GRANULE_STATE_RTT ≫= λ og,
    massert (bool_decide (is_Some og)) ≫= λ _,
    mderef og ≫= λ g_tbl,
    granule_refcount_read g_tbl ≫= λ rc,
    (if negb (rc =? 0) then rtt_error level ≫= λ ret, mret (ret, None, false)
     else
       map_assert g_tbl SLOT_RTT2 ≫= λ table,
       let e := if in_par then s2tte_create_unassigned_destroyed else s2tte_create_unassigned_ns in
       atomic_granule_put (g_llt wi) ≫= λ _,
       tte_write parent_s2tt (windex wi) 0 ≫= λ _,
       (if in_par then s2tt_invalidate_block s2_ctx map_addr
        else s2tt_invalidate_pages_in_block s2_ctx map_addr) ≫= λ _,
       tte_write parent_s2tt (windex wi) e ≫= λ _,
       granule_memzero_mapped table ≫= λ _,
       granule_set_state g_tbl GRANULE_STATE_DELEGATED ≫= λ _,
       buffer_unmap table ≫= λ _,
       mret (RMI_SUCCESS, Some rtt_addr, true)) ≫= λ ret,
    granule_unlock g_tbl ≫= λ _, mret ret.

Definition smc_rtt_destroy (rd_addr map_addr ulevel : Z) (res : smc_result) : M state smc_result :=
  let level := s64 ulevel in
  find_lock_granule rd_addr GRANULE_STATE_RD ≫= λ og,
  match og with
  | None => mret (set_x2 0 (set_x0 RMI_ERROR_INPUT res))
  | Some g_rd =>
      map_assert g_rd SLOT_RD ≫= λ rdp,
      read_rd rdp ≫= λ r,
      lift (validate_rtt_structure_cmds map_addr level r) ≫= λ ok,
      if negb ok then
        buffer_unmap rdp ≫= λ _, granule_unlock g_rd ≫= λ _,
        mret (set_x2 0 (set_x0 RMI_ERROR_INPUT res))
      else
        let s2_ctx := s2_ctx r in
        let in_par := addr_in_par r map_addr in
        buffer_unmap rdp ≫= λ _,
        granule_lock (g_rtt s2_ctx) GRANULE_STATE_RTT ≫= λ _,
        granule_unlock g_rd ≫= λ _,
        s2tt_walk_lock_unlock s2_ctx map_addr (level - 1) ≫= λ wi,
        map_assert (g_llt wi) SLOT_RTT ≫= λ parent_s2tt,
        rtt_destroy_unlink s2_ctx wi parent_s2tt map_addr level in_par ≫= λ '(ret, oaddr, skip_non_live),
        (if (skip_non_live : bool) then
           read_table parent_s2tt ≫= λ t, lift (s2tt_skip_non_live_entries s2_ctx map_addr t wi)
         else mret map_addr) ≫= λ top,
        buffer_unmap parent_s2tt ≫= λ _,
        granule_unlock (g_llt wi) ≫= λ _,
        mret (set_x0 ret (set_x2 top (match oaddr with Some a => set_x1 a res | None => res end)))
  end.

(** * RTT_MAP_UNPROTECTED and RTT_UNMAP_UNPROTECTED *)

Inductive map_unmap_ns_op := MAP_NS | UNMAP_NS.

Definition is_map_ns (op : map_unmap_ns_op) : bool := match op with MAP_NS => true | UNMAP_NS => false end.

(** The update of the entry: the status. *)
Definition map_unmap_ns_entry (s2_ctx : s2tt_context) (wi : s2tt_walk)
  (s2tt map_addr level host_s2tte : Z) (op : map_unmap_ns_op) : M state Z :=
  tte_read s2tt (windex wi) ≫= λ s2tte,
  match op with
  | MAP_NS =>
      if negb (s2tte_is_unassigned_ns s2tte) then rtt_error level
      else
        lift (s2tte_create_assigned_ns s2_ctx host_s2tte level) ≫= λ e,
        tte_write s2tt (windex wi) e ≫= λ _, mret RMI_SUCCESS
  | UNMAP_NS =>
      if negb (last_level wi =? level) || negb (s2tte_is_assigned_ns s2tte (last_level wi))
      then rtt_error (last_level wi)
      else
        tte_write s2tt (windex wi) s2tte_create_unassigned_ns ≫= λ _,
        (if level =? S2TT_PAGE_LEVEL then s2tt_invalidate_page s2_ctx map_addr
         else s2tt_invalidate_block s2_ctx map_addr) ≫= λ _,
        mret RMI_SUCCESS
  end.

Definition map_unmap_ns (rd_addr map_addr level host_s2tte : Z) (op : map_unmap_ns_op)
  (res : smc_result) : M state smc_result :=
  find_lock_granule rd_addr GRANULE_STATE_RD ≫= λ og,
  match og with
  | None => mret (set_x0 RMI_ERROR_INPUT res)
  | Some g_rd =>
      map_assert g_rd SLOT_RD ≫= λ rdp,
      read_rd rdp ≫= λ r,
      let s2_ctx := s2_ctx r in
      lift (if is_map_ns op then host_ns_s2tte_is_valid s2_ctx host_s2tte level else Ok true) ≫= λ ok1,
      lift (if (ok1 : bool) then validate_rtt_map_cmds map_addr level r else Ok false) ≫= λ ok2,
      if negb ok2 || addr_in_par r map_addr then
        buffer_unmap rdp ≫= λ _, granule_unlock g_rd ≫= λ _, mret (set_x0 RMI_ERROR_INPUT res)
      else
        buffer_unmap rdp ≫= λ _,
        granule_lock (g_rtt s2_ctx) GRANULE_STATE_RTT ≫= λ _,
        granule_unlock g_rd ≫= λ _,
        s2tt_walk_lock_unlock s2_ctx map_addr level ≫= λ wi,
        (if is_map_ns op && negb (last_level wi =? level) then
           rtt_error (last_level wi) ≫= λ ret, mret (set_x0 ret res)
         else
           map_assert (g_llt wi) SLOT_RTT ≫= λ s2tt,
           map_unmap_ns_entry s2_ctx wi s2tt map_addr level host_s2tte op ≫= λ ret,
           (if is_map_ns op then mret (set_x0 ret res)
            else
              read_table s2tt ≫= λ t,
              lift (s2tt_skip_non_live_entries s2_ctx map_addr t wi) ≫= λ top,
              mret (set_x1 top (set_x0 ret res))) ≫= λ res,
           buffer_unmap s2tt ≫= λ _, mret res) ≫= λ res,
        granule_unlock (g_llt wi) ≫= λ _, mret res
  end.

Definition smc_rtt_map_unprotected (rd_addr map_addr ulevel s2tte : Z) : M state Z :=
  let level := s64 ulevel in
  if (level <? S2TT_MIN_BLOCK_LEVEL) || (S2TT_PAGE_LEVEL <? level) then mret RMI_ERROR_INPUT
  else
    map_unmap_ns rd_addr map_addr level s2tte MAP_NS
      {| x0 := 0; x1 := 0; x2 := 0; x3 := 0; x4 := 0 |} ≫= λ res, mret (x0 res).

Definition smc_rtt_unmap_unprotected (rd_addr map_addr ulevel : Z) (res : smc_result)
  : M state smc_result :=
  let level := s64 ulevel in
  if (level <? S2TT_MIN_BLOCK_LEVEL) || (S2TT_PAGE_LEVEL <? level) then
    mret (set_x0 RMI_ERROR_INPUT res)
  else map_unmap_ns rd_addr map_addr level 0 UNMAP_NS res.

(** * RTT_READ_ENTRY *)

(** The registers x2, x3, x4 for an entry. *)
Definition read_entry_regs (s2_ctx : s2tt_context) (s2tte level : Z) : result (Z * Z * Z) :=
  let pa := s2tte_pa s2_ctx s2tte level in
  if s2tte_is_unassigned_empty s2tte then Ok (RMI_UNASSIGNED, 0, ripas_to_Z RIPAS_EMPTY)
  else if s2tte_is_unassigned_ram s2tte then Ok (RMI_UNASSIGNED, 0, ripas_to_Z RIPAS_RAM)
  else if s2tte_is_unassigned_destroyed s2tte then Ok (RMI_UNASSIGNED, 0, ripas_to_Z RIPAS_DESTROYED)
  else if s2tte_is_assigned_empty s2tte level then pa ≫= λ a, Ok (RMI_ASSIGNED, a, ripas_to_Z RIPAS_EMPTY)
  else if s2tte_is_assigned_ram s2tte level then pa ≫= λ a, Ok (RMI_ASSIGNED, a, ripas_to_Z RIPAS_RAM)
  else if s2tte_is_assigned_destroyed s2tte level then Ok (RMI_ASSIGNED, 0, ripas_to_Z RIPAS_DESTROYED)
  else if s2tte_is_unassigned_ns s2tte then Ok (RMI_UNASSIGNED, 0, ripas_to_Z RIPAS_EMPTY)
  else if s2tte_is_assigned_ns s2tte level then
    host_ns_s2tte s2_ctx s2tte level ≫= λ a, Ok (RMI_ASSIGNED, a, ripas_to_Z RIPAS_EMPTY)
  else if s2tte_is_table s2tte level then pa ≫= λ a, Ok (RMI_TABLE, a, ripas_to_Z RIPAS_EMPTY)
  else Err FAssert.

Definition smc_rtt_read_entry (rd_addr map_addr ulevel : Z) (res : smc_result) : M state smc_result :=
  let level := s64 ulevel in
  find_lock_granule rd_addr GRANULE_STATE_RD ≫= λ og,
  match og with
  | None => mret (set_x0 RMI_ERROR_INPUT res)
  | Some g_rd =>
      map_assert g_rd SLOT_RD ≫= λ rdp,
      read_rd rdp ≫= λ r,
      lift (validate_rtt_entry_cmds map_addr level r) ≫= λ ok,
      if negb ok then
        buffer_unmap rdp ≫= λ _, granule_unlock g_rd ≫= λ _, mret (set_x0 RMI_ERROR_INPUT res)
      else
        let s2_ctx := s2_ctx r in
        buffer_unmap rdp ≫= λ _,
        granule_lock (g_rtt s2_ctx) GRANULE_STATE_RTT ≫= λ _,
        granule_unlock g_rd ≫= λ _,
        s2tt_walk_lock_unlock s2_ctx map_addr level ≫= λ wi,
        map_assert (g_llt wi) SLOT_RTT ≫= λ s2tt,
        tte_read s2tt (windex wi) ≫= λ s2tte,
        lift (read_entry_regs s2_ctx s2tte (last_level wi)) ≫= λ '(a, b, c),
        buffer_unmap s2tt ≫= λ _,
        granule_unlock (g_llt wi) ≫= λ _,
        mret (set_x0 RMI_SUCCESS (set_x234 a b c (set_x1 (u64 (last_level wi)) res)))
  end.
End rtt.

Section specs.
Context {P : Platform} {H : Machine} {CF : Config} {L : PlatformLaws P} {HL : MachineLaws P H}.

(** The entries that hold a reference on their table: tables and assigned entries; a
    host mapping holds none. *)
Definition counted (i e : Z) : bool :=
  s2tte_is_table e i || s2tte_is_assigned_empty e i || s2tte_is_assigned_ram e i ||
  s2tte_is_assigned_destroyed e i.
Definition count (i : Z) (t : list Z) : Z := Z.of_nat (length (List.filter (counted i) t)).

(** The tables of a realm: a well-formed tree whose entries are all values of the entry
    constructors, and in which the references of a table count its entries. No two tables
    stand for the same range, every table but the roots has an entry that points to it, and
    the roots are the tables of the starting level. *)
Record rtt_inv (s : state) (s2_ctx : s2tt_context) (T : gmap Z (Z * Z)) : Prop := {
  inv_wf : rtt_wf s s2_ctx T;
  inv_vmid : 0 <= vmid s2_ctx < 2 ^ 16;
  inv_typed g i b t idx e : T !! g = Some (i, b) → table_of s g = Some t → t !! idx = Some e →
    ∃ ty pa, is_made s2_ctx ty pa i e;
  inv_count g i b rc tag t : T !! g = Some (i, b) → table_of s g = Some t →
    granules s !! g = Some (Gr false GRANULE_STATE_RTT rc tag) → 0 <= rc <= 512 → rc = count i t;
  inv_base g i b : T !! g = Some (i, b) → 0 <= b ∧ b mod (512 * s2tte_map_size i) = 0;
  inv_inj g h x : T !! g = Some x → T !! h = Some x → g = h;
  inv_parent h j c : T !! h = Some (j, c) → s2_starting_level s2_ctx < j →
    ∃ g b t idx e pa, T !! g = Some (j - 1, b) ∧ table_of s g = Some t ∧ t !! idx = Some e ∧
      entry_is_table e = true ∧ table_entry_to_phys e (enable_lpa2 s2_ctx) = Ok pa ∧
      addr_to_granule pa = Ok h;
  inv_top h c : T !! h = Some (s2_starting_level s2_ctx, c) →
    ∃ k, 0 <= k < num_root_rtts s2_ctx ∧ h = g_rtt s2_ctx + k;
}.

(** Between two commands: no lock held, no slot mapped; [rd_addr] is the realm with
    descriptor [r] and tables [T]. *)
Record realm_at (s : state) (rd_addr g_rd : Z) (r : rd) (T : gmap Z (Z * Z)) : Prop := {
  ra_quiet : quiescent s;
  ra_slots : slots s = ∅;
  ra_u64 : is_u64 rd_addr;
  ra_lock : lockable s rd_addr GRANULE_STATE_RD = Some g_rd;
  ra_rd : mem s !! g_rd ≫= page_rd = Some r;
  ra_inv : rtt_inv s (s2_ctx r) T;
}.

Lemma ipa_size_pow2 r : 0 <= ipa_bits (s2_ctx r) <= 52 → realm_ipa_size r = 2 ^ ipa_bits (s2_ctx r).
Proof.
  intros Hb. unfold realm_ipa_size, realm_ipa_bits, shl64. rewrite Z.shiftl_mul_pow2, Z.mul_1_l by lia.
  apply u64_small. split; [lia|]. apply Z.pow_lt_mono_r; lia.
Qed.

Lemma wf_bits52 s s2_ctx T : rtt_wf s s2_ctx T → 0 <= ipa_bits s2_ctx <= 52.
Proof.
  intros Hwf. pose proof (wf_bits _ _ _ Hwf) as Hb.
  unfold s2tte_oa_bits, S2TTE_OA_BITS, S2TTE_OA_BITS_LPA2 in Hb. destruct (enable_lpa2 _); lia.
Qed.

(** The arguments that [validate_map_addr] accepts at a level of the realm. *)
Definition map_addr_ok (r : rd) (map_addr level : Z) : bool :=
  (map_addr <? 2 ^ ipa_bits (s2_ctx r)) &&
  (map_addr =? (map_addr .& BIT_MASK_ULL (s2tte_oa_bits (enable_lpa2 (s2_ctx r)) - 1) (lvl_lsb level))).

Lemma validate_map_addr_run r map_addr level :
  0 <= ipa_bits (s2_ctx r) <= 52 → min_starting_level (s2_ctx r) <= level <= 3 →
  validate_map_addr map_addr level r = Ok (map_addr_ok r map_addr level).
Proof.
  intros Hb Hl. unfold validate_map_addr, map_addr_ok. rewrite ipa_size_pow2 by done.
  destruct (map_addr <? _); [|done]. unfold s2tte_is_addr_lvl_aligned.
  rewrite !rassert_bind by (apply Z.leb_le; apply Hl). done.
Qed.

Lemma realm_facts s rd_addr g_rd r T :
  realm_at s rd_addr g_rd r T →
  ∃ rc tag p, granules s !! g_rd = Some (Gr false GRANULE_STATE_RD rc tag) ∧ gok GRANULE_STATE_RD rc ∧
    has_addr g_rd ∧ mem s !! g_rd = Some p ∧ page_rd p = Some r ∧
    find_lock_granule rd_addr GRANULE_STATE_RD s
    = Ok (Some g_rd, put_granule g_rd (Gr true GRANULE_STATE_RD rc tag) s) ∧
    (∀ k : Z, slots s !! k = None) ∧ 0 <= ipa_bits (s2_ctx r) <= 52.
Proof using L.
  intros [Hq Hs Ha Hl Hr Hinv].
  destruct (lockable_quiet _ _ _ _ Ha Hq Hl) as (rc & tag & Hg & Hok & Hi & Hadr & Hrange).
  apply bind_Some in Hr as (p & Hp & Hr). exists rc, tag, p. split; [done|]. split; [done|].
  split; [done|]. split; [done|]. split; [done|].
  split; [|split; [intros; by rewrite Hs|apply (wf_bits52 _ _ _ (inv_wf _ _ _ Hinv))]].
  rewrite (find_lock_granule_quiet s rd_addr GRANULE_STATE_RD Ha Hq), Hl.
  by rewrite (lock_one_Gr _ _ _ _ _ Hg Hok).
Qed.

(** What a handler needs of the realm once it holds the descriptor's lock; other granules
    may be locked as well. *)
Record realm_core (s : state) (r : rd) (T : gmap Z (Z * Z)) : Prop := {
  core_slots : slots s = ∅;
  core_wf : rtt_wf s (s2_ctx r) T;
}.

Lemma ra_core s rd_addr g_rd r T : realm_at s rd_addr g_rd r T → realm_core s r T.
Proof. intros [_ Hs _ _ _ Hinv]. split; [done|apply (inv_wf _ _ _ Hinv)]. Qed.

Section realm.
Context (s : state) (g_rd : Z) (r : rd) (T : gmap Z (Z * Z)).
Hypothesis Hco : realm_core s r T.

(** The state while the descriptor is locked. *)
Definition rd_locked (rc tag : Z) : state := put_granule g_rd (Gr true GRANULE_STATE_RD rc tag) s.

(** Mapping and reading the descriptor, unmapping it, and releasing it. *)
Lemma rd_open rc tag p {B} (k : Z → rd → M state B) :
  has_addr g_rd → mem s !! g_rd = Some p → page_rd p = Some r →
  (map_assert g_rd SLOT_RD ≫= λ rdp, read_rd rdp ≫= λ r, k rdp r) (rd_locked rc tag)
  = k SLOT_RD r (set_slots {[SLOT_RD := g_rd]} (rd_locked rc tag)).
Proof using Hco L HL.
  intros Hadr Hm Hp. pose proof (core_slots _ _ _ Hco) as Hs.
  assert (HsRD : slots (rd_locked rc tag) !! SLOT_RD = None) by (cbn; by rewrite Hs).
  run_step (map_assert_run _ g_rd SLOT_RD Hadr eq_refl HsRD).
  erewrite bind_run; [|eapply read_rd_run; [apply lookup_insert_eq|exact Hm|exact Hp]].
  cbn [rd_locked put_granule set_granules slots]. by rewrite Hs.
Qed.

Lemma rd_close rc tag {B} (k : () → M state B) :
  (buffer_unmap SLOT_RD ≫= k) (set_slots {[SLOT_RD := g_rd]} (rd_locked rc tag))
  = k () (rd_locked rc tag).
Proof using Hco.
  pose proof (core_slots _ _ _ Hco) as Hs.
  rewrite (bind_run _ _ _ _ _ (buffer_unmap_run (set_slots {[SLOT_RD := g_rd]} (rd_locked rc tag)) _ _
    (lookup_singleton_eq SLOT_RD g_rd))).
  f_equal. cbn [slots set_slots rd_locked put_granule set_granules]. rewrite delete_singleton_eq.
  unfold set_slots, rd_locked, put_granule, set_granules; simpl. by rewrite <- Hs.
Qed.

Lemma rd_unlock rc tag {B} (k : () → M state B) :
  granules s !! g_rd = Some (Gr false GRANULE_STATE_RD rc tag) → gok GRANULE_STATE_RD rc →
  (granule_unlock g_rd ≫= k) (rd_locked rc tag) = k () s.
Proof.
  intros Hg Hok. unfold rd_locked.
  rewrite (bind_run _ _ _ _ _ (granule_unlock_run (put_granule_lookup _ _ _) Hok eq_refl eq_refl)).
  by rewrite put_granule_put, put_granule_id.
Qed.

(** The root table is not the descriptor, and neither is any other table. *)
Lemma table_not_rd rc tag h :
  granules s !! g_rd = Some (Gr false GRANULE_STATE_RD rc tag) → gok GRANULE_STATE_RD rc →
  rtt_granule s h → h ≠ g_rd.
Proof.
  intros Hg Hok (_ & (rch & tagh & Hh & Hrch) & _) ->. rewrite Hg in Hh. apply (inj Some) in Hh.
  apply Gr_inj in Hh as (_ & Habs & _); [done|done|]. apply gok_rtt. lia.
Qed.

Lemma root_granule : rtt_granule s (g_rtt (s2_ctx r)).
Proof using Hco.
  pose proof (core_wf _ _ _ Hco) as Hwf. pose proof (wf_space _ _ _ Hwf) as Hsp.
  assert (0 < 2 ^ ipa_bits (s2_ctx r)) by (apply Z.pow_pos_nonneg; [lia|apply (wf_bits52 _ _ _ Hwf)]).
  assert (Hst : -1 <= s2_starting_level (s2_ctx r) <= 3).
  { pose proof (wf_start _ _ _ Hwf) as Hw. pose proof (min_starting_level_le (s2_ctx r)). lia. }
  pose proof (map_size_pos _ Hst).
  eapply (wf_table _ _ _ Hwf). replace (g_rtt (s2_ctx r)) with (g_rtt (s2_ctx r) + 0) by lia.
  apply (wf_root _ _ _ Hwf). nia.
Qed.

(** Moving from the descriptor's lock to the lock of the root table. *)
Lemma enter_root rc tag {B} (k : () → M state B) :
  granules s !! g_rd = Some (Gr false GRANULE_STATE_RD rc tag) → gok GRANULE_STATE_RD rc →
  (granule_lock (g_rtt (s2_ctx r)) GRANULE_STATE_RTT ≫= λ _, granule_unlock g_rd ≫= k) (rd_locked rc tag)
  = k () (lock_one (g_rtt (s2_ctx r)) s).
Proof using Hco.
  intros Hg Hok. pose proof (table_not_rd _ _ _ Hg Hok root_granule) as Hne. set (s1 := rd_locked rc tag).
  assert (Hs1 : s1 = lock_one g_rd s) by (symmetry; by apply lock_one_Gr).
  assert (Hroot1 : rtt_granule s1 (g_rtt (s2_ctx r))).
  { rewrite Hs1. destruct root_granule as (Hha & Hgr & Htt). split; [done|].
    rewrite lock_one_ne by done. unfold table_of. by rewrite lock_one_mem. }
  run_step (granule_lock_rtt _ _ Hroot1). rewrite Hs1, lock_one_comm by done.
  assert (Hunlock : granule_unlock g_rd (lock_one g_rd (lock_one (g_rtt (s2_ctx r)) s))
                    = Ok ((), lock_one (g_rtt (s2_ctx r)) s)).
  { apply unlock_locked. rewrite lock_one_ne by done. eexists; split; [done|].
    exists GRANULE_STATE_RD, rc, tag. by split. }
  by run_step Hunlock.
Qed.

(** Moving from the descriptor's lock to the lock of the last table of a walk. *)
Lemma enter_walk rc tag map_addr level :
  granules s !! g_rd = Some (Gr false GRANULE_STATE_RD rc tag) → gok GRANULE_STATE_RD rc →
  0 <= map_addr < 2 ^ ipa_bits (s2_ctx r) → s2_starting_level (s2_ctx r) <= level <= 3 →
  ∃ g i b rc' tag' p t e,
    (∀ (B : Type) (k : s2tt_walk → M state B),
      (granule_lock (g_rtt (s2_ctx r)) GRANULE_STATE_RTT ≫= λ _,
       granule_unlock g_rd ≫= λ _,
       s2tt_walk_lock_unlock (s2_ctx r) map_addr level ≫= k)
        (rd_locked rc tag)
      = k {| g_llt := g; windex := s2_addr_to_idx map_addr i; last_level := i |}
          (put_granule g (Gr true GRANULE_STATE_RTT rc' tag') s)) ∧
    T !! g = Some (i, b) ∧ covers_lvl i b map_addr ∧ rtt_view s g rc' tag' p t ∧ g ≠ g_rd ∧
    0 <= s2_addr_to_idx map_addr i < 512 ∧ t !! Z.to_nat (s2_addr_to_idx map_addr i) = Some e ∧
    s2_starting_level (s2_ctx r) <= i <= level ∧ (i < level → entry_is_table e = false).
Proof using Hco L HL.
  intros Hg Hok Ha Hl. pose proof (core_wf _ _ _ Hco) as Hwf.
  destruct (lock_walk_run s (s2_ctx r) T map_addr level Hwf
    ltac:(by rewrite (core_slots _ _ _ Hco)) Ha Hl) as
    (g & i & b & rc' & tag' & p & t & e & _ & Hwalk & HT & Hc & Hview & Hidx & He & Hi & Hleaf).
  exists g, i, b, rc', tag', p, t, e. split; [|split; [done|split; [done|split; [done|split]]]].
  - intros B k. rewrite (enter_root _ _ _ Hg Hok). by run_step Hwalk.
  - apply (table_not_rd _ _ _ Hg Hok). by apply (wf_table _ _ _ Hwf g i b).
  - done.
Qed.
End realm.

(** * RTT_READ_ENTRY *)

(** What is reported for an entry of a type. *)
Definition entry_report (s2_ctx : s2tt_context) (ty : s2tte_type) (pa level e : Z) : Z * Z * Z :=
  match ty with
  | UnassignedEmpty => (RMI_UNASSIGNED, 0, 0)
  | UnassignedRam => (RMI_UNASSIGNED, 0, 1)
  | UnassignedDestroyed => (RMI_UNASSIGNED, 0, 2)
  | UnassignedNs => (RMI_UNASSIGNED, 0, 0)
  | AssignedEmpty => (RMI_ASSIGNED, pa, 0)
  | AssignedRam => (RMI_ASSIGNED, pa, 1)
  | AssignedDestroyed => (RMI_ASSIGNED, 0, 2)
  | AssignedNs => (RMI_ASSIGNED, e .& (oa_mask (enable_lpa2 s2_ctx) level .| S2TTE_NS_ATTR_MASK), 0)
  | Table => (RMI_TABLE, pa, 0)
  end.

Lemma read_entry_regs_made s2_ctx ty pa level e :
  is_made s2_ctx ty pa level e →
  read_entry_regs s2_ctx e level = Ok (entry_report s2_ctx ty pa level e).
Proof.
  intros Hm. unfold read_entry_regs.
  pose proof (made_is _ _ _ _ _ UnassignedEmpty Hm) as H1. pose proof (made_is _ _ _ _ _ UnassignedRam Hm) as H2.
  pose proof (made_is _ _ _ _ _ UnassignedDestroyed Hm) as H3. pose proof (made_is _ _ _ _ _ UnassignedNs Hm) as H4.
  pose proof (made_is _ _ _ _ _ AssignedEmpty Hm) as H5. pose proof (made_is _ _ _ _ _ AssignedRam Hm) as H6.
  pose proof (made_is _ _ _ _ _ AssignedDestroyed Hm) as H7. pose proof (made_is _ _ _ _ _ AssignedNs Hm) as H8.
  pose proof (made_is _ _ _ _ _ Table Hm) as H9. cbn [s2tte_is] in *.
  rewrite H1, H2, H3, H4, H5, H6, H7, H8, H9.
  destruct ty; cbn [bool_decide decide_rel s2tte_type_eq_dec]; try done;
    try (rewrite (made_pa _ _ _ _ _ Hm eq_refl); done).
  destruct Hm as [[Hl _] _]. by rewrite host_ns_s2tte_ok.
Qed.

(** RTT_READ_ENTRY always returns and changes nothing. Invalid arguments are refused;
    otherwise the answer is the type, address and RIPAS of the entry that the walk to the
    requested level ends in, and the level that the walk reached. *)
Theorem smc_rtt_read_entry_spec s rd_addr g_rd r T map_addr ulevel res :
  realm_at s rd_addr g_rd r T → is_u64 map_addr → is_u64 ulevel →
  let level := s64 ulevel in
  if (s2_starting_level (s2_ctx r) <=? level) && (level <=? 3) && map_addr_ok r map_addr level then
    ∃ g i b t e ty pa, T !! g = Some (i, b) ∧ covers_lvl i b map_addr ∧ table_of s g = Some t ∧
      t !! Z.to_nat (s2_addr_to_idx map_addr i) = Some e ∧ is_made (s2_ctx r) ty pa i e ∧
      i <= level ∧ (i < level → ty ≠ Table) ∧
      let '(a, b, c) := entry_report (s2_ctx r) ty pa i e in
      smc_rtt_read_entry rd_addr map_addr ulevel res s
      = Ok ({| x0 := RMI_SUCCESS; x1 := u64 i; x2 := a; x3 := b; x4 := c |}, s)
  else smc_rtt_read_entry rd_addr map_addr ulevel res s = Ok (set_x0 RMI_ERROR_INPUT res, s).
Proof using L HL.
  intros Hra Hma Hul level. destruct (realm_facts _ _ _ _ _ Hra) as
    (rc & tag & p & Hg & Hok & Hadr & Hm & Hp & Hfind & Hs & Hbits).
  pose proof (ra_inv _ _ _ _ _ Hra) as Hinv. pose proof (wf_start _ _ _ (inv_wf _ _ _ Hinv)) as Hst.
  unfold smc_rtt_read_entry. rewrite (bind_run _ _ _ _ _ Hfind). cbv zeta. fold level.
  change (put_granule g_rd _ s) with (rd_locked s g_rd rc tag).
  rewrite (rd_open _ _ _ _ (ra_core _ _ _ _ _ Hra) _ _ _ _ Hadr Hm Hp).
  assert (Hval : validate_rtt_entry_cmds map_addr level r
    = Ok ((s2_starting_level (s2_ctx r) <=? level) && (level <=? 3) && map_addr_ok r map_addr level)).
  { unfold validate_rtt_entry_cmds, realm_rtt_starting_level, S2TT_PAGE_LEVEL.
    destruct (Z.ltb_spec level (s2_starting_level (s2_ctx r))), (Z.ltb_spec 3 level),
      (Z.leb_spec (s2_starting_level (s2_ctx r)) level), (Z.leb_spec level 3); try lia; try done.
    cbn [orb andb]. apply validate_map_addr_run; [done|lia]. }
  rewrite (bind_run _ _ _ _ _ (lift_run _ _ _ Hval)).
  destruct (_ && map_addr_ok r map_addr level) eqn:Hargs; cbn [negb]; cycle 1.
  { by rewrite (rd_close _ _ _ _ (ra_core _ _ _ _ _ Hra)), rd_unlock. }
  apply andb_true_iff in Hargs as [[Hl1%Z.leb_le Hl2%Z.leb_le]%andb_true_iff Hmap].
  apply andb_true_iff in Hmap as [Hlt%Z.ltb_lt _]. rewrite (rd_close _ _ _ _ (ra_core _ _ _ _ _ Hra)).
  destruct (enter_walk _ _ _ _ (ra_core _ _ _ _ _ Hra) rc tag map_addr level Hg Hok) as
    (g & i & b & rc' & tag' & p' & t & e & Hwalk & HT & Hc & Hview & Hne & Hidx & He & Hi & Hleaf);
    [unfold is_u64 in Hma; lia|lia|].
  pose proof Hview as [Hadr' Hg' Hrc' Hm' Hp' Hlen].
  assert (Htab : table_of s g = Some t) by (unfold table_of; by rewrite Hm').
  destruct (inv_typed _ _ _ Hinv g i b t _ e HT Htab He) as (ty & pa & Hmade).
  exists g, i, b, t, e, ty, pa. split; [done|]. split; [done|]. split; [done|]. split; [done|].
  split; [done|]. split; [lia|]. split.
  { intros Hlti ->. specialize (Hleaf Hlti). pose proof (made_is _ _ _ _ _ Table Hmade) as Hist.
    rewrite bool_decide_eq_true_2 in Hist by done. apply andb_true_iff in Hist as [_ Hist].
    unfold entry_is_table in Hleaf. congruence. }
  pose proof (read_entry_regs_made _ _ _ _ _ Hmade) as Hregs.
  destruct (entry_report (s2_ctx r) ty pa i e) as [[a b'] c].
  rewrite Hwalk. cbn [g_llt windex last_level]. pose proof (Hs SLOT_RTT) as HsRTT. st_norm.
  exec map_assert_run. exec tte_read_run. exec (lift_run _ _ _ Hregs).
  exec buffer_unmap_run. exec granule_unlock_run. unfold mret, M_ret. do 2 f_equal.
  rewrite insert_insert_eq. by apply restore_state.
Qed.
End specs.

(** * Updating one entry *)

Section update.
Context {P : Platform} {H : Machine} {CF : Config} {L : PlatformLaws P} {HL : MachineLaws P H}.

Lemma set_rtt_table g rc tag t l s h :
  table_of (set_rtt g rc tag t l s) h = if decide (h = g) then Some t else table_of s h.
Proof.
  unfold table_of. cbn [set_rtt mem]. destruct (decide (h = g)) as [->|].
  - by rewrite lookup_insert_eq.
  - by rewrite lookup_insert_ne.
Qed.

Lemma set_rtt_granule g rc tag t l s h :
  granules (set_rtt g rc tag t l s) !! h
  = if decide (h = g) then Some (Gr false GRANULE_STATE_RTT rc tag) else granules s !! h.
Proof.
  cbn [set_rtt granules]. destruct (decide (h = g)) as [->|].
  - by rewrite lookup_insert_eq.
  - by rewrite lookup_insert_ne.
Qed.

Lemma count_update i t idx e e' :
  t !! idx = Some e →
  count i (<[idx := e']> t) = count i t - Z.b2z (counted i e) + Z.b2z (counted i e').
Proof.
  intros He. unfold count. destruct (counted i e) eqn:H1, (counted i e') eqn:H2; cbn [Z.b2z].
  - rewrite (filter_insert_same _ _ _ _ _ He H1 H2). lia.
  - rewrite (filter_insert_del _ _ _ e' _ He H1 H2). simpl. lia.
  - rewrite (filter_insert_add _ _ _ _ _ He H1 H2). lia.
  - assert (length (List.filter (counted i) (<[idx := e']> t)) = length (List.filter (counted i) t)) as ->; [|lia].
    clear -He H1 H2. revert idx He. induction t as [|x t IH]; intros [|idx] He; simpl in *; try done.
    + simplify_eq. by rewrite H1, H2.
    + destruct (counted i x); simpl; by rewrite (IH idx).
Qed.

Lemma count_range i t : length t = 512%nat → 0 <= count i t <= 512.
Proof. intros Hl. unfold count. pose proof (List.filter_length_le (counted i) t). lia. Qed.

(** The types whose entries hold a reference on their table. *)
Definition type_counted (ty : s2tte_type) : bool :=
  match ty with Table | AssignedEmpty | AssignedRam | AssignedDestroyed => true | _ => false end.

Lemma counted_made s2_ctx ty pa i e :
  is_made s2_ctx ty pa i e →
  counted i e = type_counted ty.
Proof.
  intros Hm. unfold counted.
  pose proof (made_is _ _ _ _ _ Table Hm) as H1. pose proof (made_is _ _ _ _ _ AssignedEmpty Hm) as H2.
  pose proof (made_is _ _ _ _ _ AssignedRam Hm) as H3. pose proof (made_is _ _ _ _ _ AssignedDestroyed Hm) as H4.
  cbn [s2tte_is] in *. rewrite H1, H2, H3, H4. by destruct ty.
Qed.

(** A classifier that answers true names the type. *)
Lemma made_type s2_ctx ty pa i e ty' : is_made s2_ctx ty pa i e → s2tte_is ty' e i = true → ty = ty'.
Proof.
  intros Hm Hx. rewrite (made_is _ _ _ _ _ ty' Hm) in Hx. symmetry. by apply bool_decide_eq_true in Hx.
Qed.

(** An entry made as anything but a table is not taken for a table by the walk. *)
Lemma made_not_table s2_ctx ty pa i e :
  i < 3 → is_made s2_ctx ty pa i e → ty ≠ Table → entry_is_table e = false.
Proof.
  intros Hi Hm Hne. pose proof (made_is _ _ _ _ _ Table Hm) as Ht.
  rewrite bool_decide_eq_false_2 in Ht by done. cbn [s2tte_is] in Ht. unfold s2tte_is_table in Ht.
  rewrite (proj2 (Z.ltb_lt i S2TT_PAGE_LEVEL)) in Ht by (unfold S2TT_PAGE_LEVEL; lia). done.
Qed.

(** Replacing one entry of one table by a leaf, with the references adjusted, keeps the
    tables in order. *)
Lemma rtt_inv_set s s2_ctx T g i b rc tag p t idx e ty pa e' ty' pa' rc' l :
  rtt_inv s s2_ctx T → T !! g = Some (i, b) → rtt_view s g rc tag p t → t !! idx = Some e →
  is_made s2_ctx ty pa i e → ty ≠ Table → is_made s2_ctx ty' pa' i e' → ty' ≠ Table →
  rc' = rc - Z.b2z (counted i e) + Z.b2z (counted i e') →
  rtt_inv (set_rtt g rc' tag (<[idx := e']> t) l s) s2_ctx T.
Proof.
  intros [Hwf Hv Hty Hcnt Hbase Hinj Hpar Htop] HT Hview He Hm0 Hne0 Hm Hne Hrc.
  destruct Hview as [Hadr Hg Hb Hmem Hp Hlen].
  assert (Htab : table_of s g = Some t) by (unfold table_of; by rewrite Hmem).
  pose proof (Hcnt g i b rc tag t HT Htab Hg Hb) as Hcount.
  assert (Hrc' : rc' = count i (<[idx := e']> t)) by (rewrite (count_update _ _ _ _ _ He); lia).
  pose proof (count_range i (<[idx := e']> t) ltac:(by rewrite length_insert)) as Hrange.
  destruct Hwf as [H1 H2 H3 H4 H5 H6 H7]. split; [split; try done|done|..|done|done| |exact Htop].
  - intros h j c Hh. destruct (H6 h j c Hh) as (Hlv & Hha & Hgr & Ht). split; [done|]. split; [done|].
    rewrite set_rtt_granule, set_rtt_table. destruct (decide (h = g)) as [->|]; [|done].
    split; [by eexists _, _; split; [|rewrite Hrc']|]. eexists; split; [done|]. by rewrite length_insert.
  - intros h j c t' k x Hh Hj. rewrite set_rtt_table. destruct (decide (h = g)) as [->|]; [|by eapply H7].
    rewrite HT in Hh. simplify_eq. intros [= <-] Hx Htx.
    destruct (decide (k = idx)) as [->|Hki].
    + rewrite list_lookup_insert_eq in Hx by (by eapply lookup_lt_Some). simplify_eq.
      by rewrite (made_not_table _ _ _ _ _ Hj Hm Hne) in Htx.
    + rewrite list_lookup_insert_ne in Hx by done. by eapply H7.
  - intros h j c t' k x Hh. rewrite set_rtt_table. destruct (decide (h = g)) as [->|]; [|by eapply Hty].
    rewrite HT in Hh. simplify_eq. intros [= <-] Hx. destruct (decide (k = idx)) as [->|Hki].
    + rewrite list_lookup_insert_eq in Hx by (by eapply lookup_lt_Some). simplify_eq. eauto.
    + rewrite list_lookup_insert_ne in Hx by done. by eapply Hty.
  - intros h j c rch tagh t' Hh. rewrite set_rtt_table, set_rtt_granule.
    destruct (decide (h = g)) as [->|]; [|by eapply Hcnt].
    rewrite HT in Hh. simplify_eq. intros [= <-] Hgr Hbh. apply (inj Some) in Hgr.
    apply Gr_inj in Hgr as (_ & _ & <- & _); [done|apply gok_rtt; lia|apply gok_rtt; lia].
  - intros h j c Hh Hj. destruct (Hpar h j c Hh Hj) as (g1 & b1 & t1 & k & x & pa1 & HT1 & Ht1 & Hx & Htx & Hpa & Hgr).
    destruct (decide (g1 = g)) as [->|Hg1]; cycle 1.
    { exists g1, b1, t1, k, x, pa1. by rewrite set_rtt_table, decide_False. }
    exists g, b1, (<[idx := e']> t), k, x, pa1. rewrite set_rtt_table, decide_True by done.
    rewrite HT in HT1. rewrite Htab in Ht1. simplify_eq.
    rewrite list_lookup_insert_ne; [done|]. intros ->. rewrite He in Hx. apply (inj Some) in Hx as <-.
    destruct (H6 h j c Hh) as ([_ Hj3] & _). rewrite (λ Hlt, made_not_table _ _ _ _ _ Hlt Hm0 Hne0) in Htx; [done|lia].
Qed.

Lemma set_rtt_quiescent s g rc tag t l :
  quiescent s → 0 <= rc <= 512 → quiescent (set_rtt g rc tag t l s).
Proof.
  intros Hq Hrc h Hh. rewrite set_rtt_granule. destruct (decide (h = g)) as [->|]; [|by apply Hq].
  eexists; split; [done|]. exists GRANULE_STATE_RTT, rc, tag. split; [done|].
  split; [apply gok_rtt; lia|by apply rtt_unlocked].
Qed.

(** Updating a table of the realm leaves it a realm. *)
Lemma realm_at_set s rd_addr g_rd r T g i b rc tag p t idx e ty pa e' ty' pa' rc' l :
  realm_at s rd_addr g_rd r T → g ≠ g_rd → T !! g = Some (i, b) → rtt_view s g rc tag p t →
  t !! idx = Some e → is_made (s2_ctx r) ty pa i e → ty ≠ Table →
  is_made (s2_ctx r) ty' pa' i e' → ty' ≠ Table →
  rc' = rc - Z.b2z (counted i e) + Z.b2z (counted i e') →
  realm_at (set_rtt g rc' tag (<[idx := e']> t) l s) rd_addr g_rd r T.
Proof using L.
  intros Hra Hgr HT Hview He Hm0 Hne0 Hm Hne Hrc.
  pose proof (rtt_inv_set _ _ _ _ _ _ _ _ _ _ _ _ _ _ _ _ _ _ l (ra_inv _ _ _ _ _ Hra) HT Hview He Hm0 Hne0 Hm Hne Hrc) as Hinv.
  destruct (wf_table _ _ _ (inv_wf _ _ _ Hinv) g i b HT) as (_ & _ & (rc2 & tag2 & Hg2 & Hb2) & _).
  rewrite set_rtt_granule, decide_True in Hg2 by done. apply (inj Some) in Hg2.
  assert (Hrange : 0 <= rc' <= 512).
  { destruct Hview as [_ Hg Hb Hmem Hp Hlen].
    assert (Htab : table_of s g = Some t) by (unfold table_of; by rewrite Hmem).
    pose proof (inv_count _ _ _ (ra_inv _ _ _ _ _ Hra) g i b rc tag t HT Htab Hg Hb) as Hcount.
    pose proof (count_range i (<[idx := e']> t) ltac:(by rewrite length_insert)).
    rewrite (count_update _ _ _ _ _ He) in *. lia. }
  destruct Hra as [Hq Hs Hu Hl Hr _]. split; try done.
  - by apply set_rtt_quiescent.
  - unfold lockable in *. destruct (find_granule rd_addr) as [[h|]|]; try done.
    destruct (granules s !! h) as [gr|] eqn:Hh; [|done]. rewrite set_rtt_granule.
    destruct (decide (h = g)) as [->|]; [|by rewrite Hh].
    destruct (_ =? GRANULE_STATE_RD); by simplify_eq.
  - cbn [set_rtt mem]. by rewrite lookup_insert_ne.
Qed.
End update.

(** * Mapping host memory *)

Section ns.
Context {P : Platform} {H : Machine} {CF : Config} {L : PlatformLaws P} {HL : MachineLaws P H}.

(** The status RMI_ERROR_RTT with a level. *)
Definition rtt_code (level : Z) : Z := Z.lor (shl64 (u8 level) 8) RMI_ERROR_RTT.

Lemma rtt_error_run level s : rtt_error level s = Ok (rtt_code level, s).
Proof.
  unfold rtt_error, pack_return_code. rewrite rassert_bind by done. unfold lift, mret, result_ret.
  do 3 f_equal. unfold pack_struct_return_code, make_return_code, rtt_code. cbn [status index].
  assert (Hu : ∀ x, u32 (u8 x) = u8 x).
  { intros x. unfold u32, u8. apply Z.mod_small. pose proof (Z.mod_pos_bound x (2 ^ 8) ltac:(lia)). lia. }
  assert (Huu : u8 (u8 level) = u8 level) by (unfold u8; by rewrite Z.mod_mod).
  rewrite Huu, Hu. done.
Qed.

Lemma rtt_code_error l : (rtt_code l =? RMI_SUCCESS) = false.
Proof.
  apply Z.eqb_neq. intros Hz. assert (Hb : Z.testbit (rtt_code l) 2 = false) by (by rewrite Hz).
  unfold rtt_code in Hb. rewrite Z.lor_spec in Hb. by apply orb_false_iff in Hb as [_ ?].
Qed.

(** What [host_ns_s2tte_is_valid] answers at a level where it may be asked. *)
Definition host_valid (s2_ctx : s2tt_context) (host_s2tte level : Z) : bool :=
  match host_ns_s2tte_is_valid s2_ctx host_s2tte level with Ok b => b | Err _ => false end.

Lemma host_valid_run s2_ctx host_s2tte level :
  1 <= level <= 3 →
  host_ns_s2tte_is_valid s2_ctx host_s2tte level = Ok (host_valid s2_ctx host_s2tte level).
Proof.
  intros Hl. unfold host_valid, host_ns_s2tte_is_valid. rewrite rassert_bind by (apply Z.leb_le; apply Hl).
  rewrite s2tte_lvl_mask_ok, result_bind_ok by lia. cbv zeta.
  by destruct (negb _); [|destruct (_ =? S2TTE_MEMATTR_FWB_RESERVED)].
Qed.

Lemma validate_map_cmds_run r map_addr level :
  0 <= ipa_bits (s2_ctx r) <= 52 → 1 <= level <= 3 →
  validate_rtt_map_cmds map_addr level r = Ok (map_addr_ok r map_addr level).
Proof.
  intros Hb Hl. unfold validate_rtt_map_cmds, S2TT_MIN_BLOCK_LEVEL, S2TT_PAGE_LEVEL.
  rewrite (proj2 (Z.ltb_ge _ _)), (proj2 (Z.ltb_ge _ _)) by lia. cbn [orb].
  apply validate_map_addr_run; [done|]. pose proof (min_starting_level_le (s2_ctx r)).
  unfold min_starting_level, S2TT_MIN_STARTING_LEVEL_LPA2, S2TT_MIN_STARTING_LEVEL. destruct (enable_lpa2 _); lia.
Qed.

(** The arguments of both commands. *)
Definition ns_args_ok (r : rd) (map_addr level host_s2tte : Z) (op : map_unmap_ns_op) : bool :=
  (negb (is_map_ns op) || host_valid (s2_ctx r) host_s2tte level) &&
  map_addr_ok r map_addr level && negb (addr_in_par r map_addr).

Lemma ns_valid_run s2_ctx host_s2tte level op :
  1 <= level <= 3 → negb (is_map_ns op) || host_valid s2_ctx host_s2tte level = true →
  (if is_map_ns op then host_ns_s2tte_is_valid s2_ctx host_s2tte level else Ok true) = Ok true.
Proof.
  intros Hl Hv. destruct (is_map_ns op); [|done]. rewrite host_valid_run by done.
  by destruct (host_valid _ _ _).
Qed.

Lemma map_unmap_ns_refused s rd_addr g_rd r T map_addr level host_s2tte op res :
  realm_at s rd_addr g_rd r T → 1 <= level <= 3 → ns_args_ok r map_addr level host_s2tte op = false →
  map_unmap_ns rd_addr map_addr level host_s2tte op res s = Ok (set_x0 RMI_ERROR_INPUT res, s).
Proof using L HL.
  intros Hra Hl Hargs. destruct (realm_facts _ _ _ _ _ Hra) as
    (rc & tag & p & Hg & Hok & Hadr & Hm & Hp & Hfind & Hs & Hbits).
  unfold map_unmap_ns. rewrite (bind_run _ _ _ _ _ Hfind).
  change (put_granule g_rd _ s) with (rd_locked s g_rd rc tag).
  rewrite (rd_open _ _ _ _ (ra_core _ _ _ _ _ Hra) _ _ _ _ Hadr Hm Hp). cbv zeta.
  assert (Hv1 : (if is_map_ns op then host_ns_s2tte_is_valid (s2_ctx r) host_s2tte level else Ok true)
    = Ok (negb (is_map_ns op) || host_valid (s2_ctx r) host_s2tte level)).
  { destruct (is_map_ns op); [by apply host_valid_run|done]. }
  rewrite (bind_run _ _ _ _ _ (lift_run _ _ _ Hv1)).
  assert (Hv2 : (if negb (is_map_ns op) || host_valid (s2_ctx r) host_s2tte level
                 then validate_rtt_map_cmds map_addr level r else Ok false)
    = Ok ((negb (is_map_ns op) || host_valid (s2_ctx r) host_s2tte level) && map_addr_ok r map_addr level)).
  { destruct (negb _ || _); [by apply validate_map_cmds_run|done]. }
  rewrite (bind_run _ _ _ _ _ (lift_run _ _ _ Hv2)).
  unfold ns_args_ok in Hargs.
  destruct ((negb (is_map_ns op) || _) && map_addr_ok r map_addr level); cbn [negb orb andb] in *.
  - apply negb_false_iff in Hargs as ->. by rewrite (rd_close _ _ _ _ (ra_core _ _ _ _ _ Hra)), rd_unlock.
  - by rewrite (rd_close _ _ _ _ (ra_core _ _ _ _ _ Hra)), rd_unlock.
Qed.

(** The accepted command runs from the last table of the walk. *)
Lemma map_unmap_ns_accepted s rd_addr g_rd r T map_addr level host_s2tte op res :
  realm_at s rd_addr g_rd r T → 1 <= level <= 3 → is_u64 map_addr →
  s2_starting_level (s2_ctx r) <= level → ns_args_ok r map_addr level host_s2tte op = true →
  ∃ g i b rc tag p t e ty pa, T !! g = Some (i, b) ∧ covers_lvl i b map_addr ∧ rtt_view s g rc tag p t ∧
    g ≠ g_rd ∧ 0 <= s2_addr_to_idx map_addr i < 512 ∧ t !! Z.to_nat (s2_addr_to_idx map_addr i) = Some e ∧
    is_made (s2_ctx r) ty pa i e ∧ s2_starting_level (s2_ctx r) <= i <= level ∧ (i < level → entry_is_table e = false) ∧
    let wi := {| g_llt := g; windex := s2_addr_to_idx map_addr i; last_level := i |} in
    map_unmap_ns rd_addr map_addr level host_s2tte op res s
    = ((if is_map_ns op && negb (i =? level) then
          rtt_error i ≫= λ ret, mret (set_x0 ret res)
        else
          map_assert g SLOT_RTT ≫= λ s2tt,
          map_unmap_ns_entry (s2_ctx r) wi s2tt map_addr level host_s2tte op ≫= λ ret,
          (if is_map_ns op then mret (set_x0 ret res)
           else
             read_table s2tt ≫= λ t,
             lift (s2tt_skip_non_live_entries (s2_ctx r) map_addr t wi) ≫= λ top,
             mret (set_x1 top (set_x0 ret res))) ≫= λ res,
          buffer_unmap s2tt ≫= λ _, mret res) ≫= λ res,
       granule_unlock g ≫= λ _, mret res) (put_granule g (Gr true GRANULE_STATE_RTT rc tag) s).
Proof using L HL.
  intros Hra Hl Hma Hst Hargs. destruct (realm_facts _ _ _ _ _ Hra) as
    (rc & tag & p & Hg & Hok & Hadr & Hm & Hp & Hfind & Hs & Hbits).
  unfold ns_args_ok in Hargs. apply andb_true_iff in Hargs as [[Hv Hmap]%andb_true_iff Hpar%negb_true_iff].
  assert (Hlt : map_addr < 2 ^ ipa_bits (s2_ctx r)) by (by apply andb_true_iff in Hmap as [?%Z.ltb_lt _]).
  destruct (enter_walk _ _ _ _ (ra_core _ _ _ _ _ Hra) rc tag map_addr level Hg Hok) as
    (g & i & b & rc' & tag' & p' & t & e & Hwalk & HT & Hc & Hview & Hne & Hidx & He & Hi & Hleaf);
    [unfold is_u64 in Hma; lia|lia|].
  assert (Htab : table_of s g = Some t) by (unfold table_of; rewrite (rv_mem _ _ _ _ _ _ Hview); apply (rv_page _ _ _ _ _ _ Hview)).
  destruct (inv_typed _ _ _ (ra_inv _ _ _ _ _ Hra) g i b t _ e HT Htab He) as (ty & pa & Hmade).
  exists g, i, b, rc', tag', p', t, e, ty, pa. do 9 (split; [done|]). cbv zeta.
  unfold map_unmap_ns. rewrite (bind_run _ _ _ _ _ Hfind).
  change (put_granule g_rd _ s) with (rd_locked s g_rd rc tag).
  rewrite (rd_open _ _ _ _ (ra_core _ _ _ _ _ Hra) _ _ _ _ Hadr Hm Hp). cbv zeta.
  rewrite (bind_run _ _ _ _ _ (lift_run _ _ _ (ns_valid_run _ _ _ op Hl Hv))).
  rewrite (bind_run _ _ _ _ _ (lift_run _ _ _ (validate_map_cmds_run r map_addr level Hbits Hl))).
  rewrite Hmap, Hpar. cbn [negb orb]. rewrite (rd_close _ _ _ _ (ra_core _ _ _ _ _ Hra)). by rewrite Hwalk.
Qed.


(** A command for a level above the realm's starting level passes the checks of its
    arguments and fails an assertion of the walk. *)
Lemma map_unmap_ns_above s rd_addr g_rd r T map_addr level host_s2tte op res :
  realm_at s rd_addr g_rd r T → 1 <= level <= 3 →
  level < s2_starting_level (s2_ctx r) → ns_args_ok r map_addr level host_s2tte op = true →
  map_unmap_ns rd_addr map_addr level host_s2tte op res s = Err FAssert.
Proof using L HL.
  intros Hra Hl Hst Hargs. destruct (realm_facts _ _ _ _ _ Hra) as
    (rc & tag & p & Hg & Hok & Hadr & Hm & Hp & Hfind & Hs & Hbits).
  unfold ns_args_ok in Hargs. apply andb_true_iff in Hargs as [[Hv Hmap]%andb_true_iff Hpar%negb_true_iff].
  unfold map_unmap_ns. rewrite (bind_run _ _ _ _ _ Hfind).
  change (put_granule g_rd _ s) with (rd_locked s g_rd rc tag).
  rewrite (rd_open _ _ _ _ (ra_core _ _ _ _ _ Hra) _ _ _ _ Hadr Hm Hp). cbv zeta.
  rewrite (bind_run _ _ _ _ _ (lift_run _ _ _ (ns_valid_run _ _ _ op Hl Hv))).
  rewrite (bind_run _ _ _ _ _ (lift_run _ _ _ (validate_map_cmds_run r map_addr level Hbits Hl))).
  rewrite Hmap, Hpar. cbn [negb orb]. rewrite (rd_close _ _ _ _ (ra_core _ _ _ _ _ Hra)).
  rewrite (enter_root _ _ _ _ (ra_core _ _ _ _ _ Hra) _ _ _ Hg Hok). apply bind_run_err.
  unfold s2tt_walk_lock_unlock. cbv zeta. by rewrite (proj2 (Z.leb_gt _ level)) by lia.
Qed.

(** The address where [s2tt_skip_non_live_entries] stops from entry [idx] of a table. *)
Definition non_live_top (level addr : Z) (t : list Z) (idx : nat) (top : Z) : Prop :=
  ∃ j, (idx <= j <= 512)%nat ∧
    (∀ k x, (idx <= k < j)%nat → t !! k = Some x → s2tte_is_live x level = false) ∧
    (∀ x, t !! j = Some x → s2tte_is_live x level = true) ∧
    top = (if decide (j = idx) then addr
           else addr - addr mod s2tte_map_size level + (Z.of_nat j - Z.of_nat idx) * s2tte_map_size level).

Lemma skip_top_run s2_ctx addr t g idx level e :
  length t = 512%nat → min_starting_level s2_ctx <= level <= 3 → 0 <= idx →
  t !! Z.to_nat idx = Some e → 0 <= addr < 2 ^ 52 →
  ∃ top, non_live_top level addr t (Z.to_nat idx) top ∧
    s2tt_skip_non_live_entries s2_ctx addr t {| g_llt := g; windex := idx; last_level := level |} = Ok top.
Proof.
  intros Hlen Hl Hi He Ha.
  destruct (skip_non_live_run s2_ctx addr t g _ level e Hlen Hl He Ha) as (j & Hj & Hno & Hyes & Hrun).
  rewrite Z2Nat.id in Hrun by done. eexists. split; [|exact Hrun]. exists j. split; [done|]. split; [done|]. split; [done|]. by rewrite Z2Nat.id.
Qed.

Lemma unassigned_ns_made s2_ctx i :
  min_starting_level s2_ctx <= i <= 3 → is_made s2_ctx UnassignedNs 0 i s2tte_create_unassigned_ns.
Proof. split; [done|]. by exists 0. Qed.

Lemma ipa_52 r map_addr level :
  0 <= ipa_bits (s2_ctx r) <= 52 → map_addr_ok r map_addr level = true → map_addr < 2 ^ 52.
Proof.
  intros Hb [?%Z.ltb_lt _]%andb_true_iff.
  assert (2 ^ ipa_bits (s2_ctx r) <= 2 ^ 52) by (apply Z.pow_le_mono_r; lia). lia.
Qed.

(** RTT_MAP_UNPROTECTED. Invalid arguments are refused. Otherwise, with the walk to the
    level of the mapping ending in table [g] of level [i]: the mapping succeeds exactly when
    the walk reached the level and the entry is an unassigned host entry, which becomes the
    mapping the host asked for, while the table's references and everything else stay and
    the realm's tables remain in order; else RMI_ERROR_RTT reports the level reached and
    nothing changes. For a level above the starting level of the realm's tables the checks
    pass and the walk fails an assertion. *)
Theorem smc_rtt_map_unprotected_spec s rd_addr g_rd r T map_addr ulevel host_s2tte :
  realm_at s rd_addr g_rd r T → is_u64 map_addr → is_u64 host_s2tte →
  let level := s64 ulevel in
  let run := smc_rtt_map_unprotected rd_addr map_addr ulevel host_s2tte s in
  if (1 <=? level) && (level <=? 3) && ns_args_ok r map_addr level host_s2tte MAP_NS then
    if level <? s2_starting_level (s2_ctx r) then run = Err FAssert
    else ∃ g i b rc tag p t e, T !! g = Some (i, b) ∧ covers_lvl i b map_addr ∧ rtt_view s g rc tag p t ∧
      t !! Z.to_nat (s2_addr_to_idx map_addr i) = Some e ∧ i <= level ∧ (i < level → entry_is_table e = false) ∧
      if (i =? level) && s2tte_is_unassigned_ns e then
        ∃ e' pa s', s2tte_create_assigned_ns (s2_ctx r) host_s2tte level = Ok e' ∧
          is_made (s2_ctx r) AssignedNs pa level e' ∧
          s' = set_rtt g rc tag (<[Z.to_nat (s2_addr_to_idx map_addr i) := e']> t) [] s ∧
          run = Ok (RMI_SUCCESS, s') ∧ realm_at s' rd_addr g_rd r T
      else run = Ok (rtt_code i, s)
  else run = Ok (RMI_ERROR_INPUT, s).
Proof using L HL.
  intros Hra Hma Hh level run. unfold run, smc_rtt_map_unprotected. cbv zeta. fold level.
  unfold S2TT_MIN_BLOCK_LEVEL, S2TT_PAGE_LEVEL. clear run.
  destruct (Z.leb_spec 1 level), (Z.leb_spec level 3), (Z.ltb_spec level 1), (Z.ltb_spec 3 level); try lia; try done.
  cbn [andb orb]. set (res0 := {| x0 := 0; x1 := 0; x2 := 0; x3 := 0; x4 := 0 |}).
  destruct (ns_args_ok r map_addr level host_s2tte MAP_NS) eqn:Hargs; cycle 1.
  { by rewrite (bind_run _ _ _ _ _ (map_unmap_ns_refused s rd_addr g_rd r T map_addr level host_s2tte MAP_NS res0 Hra ltac:(lia) Hargs)). }
  destruct (Z.ltb_spec level (s2_starting_level (s2_ctx r))).
  { apply bind_run_err. by eapply map_unmap_ns_above. }
  destruct (map_unmap_ns_accepted s rd_addr g_rd r T map_addr level host_s2tte MAP_NS res0 Hra ltac:(lia) Hma ltac:(lia) Hargs)
    as (g & i & b & rc & tag & p & t & e & ty & pa & HT & Hc & Hview & Hne & Hidx & He & Hm & Hi & Hleaf & Hrun).
  exists g, i, b, rc, tag, p, t, e. do 6 (split; [first [done|lia]|]). cbv zeta in Hrun.
  rewrite (bind_cong _ _ _ _ _ Hrun). cbn [is_map_ns andb g_llt windex last_level] in *.
  pose proof (ra_slots _ _ _ _ _ Hra) as Hs. pose proof Hview as [Hadr Hgr Hrc Hmem Hp Hlen].
  assert (HsRTT : slots s !! SLOT_RTT = None) by (by rewrite Hs).
  destruct (Z.eqb_spec i level) as [->|Hil]; cbn [negb andb]; steps; cycle 1.
  { exec rtt_error_run. steps. exec granule_unlock_run. steps.
    unfold mret, M_ret. do 2 f_equal. rewrite insert_insert_eq, insert_id by done. by destruct s. }
  st_norm. exec map_assert_run. unfold map_unmap_ns_entry. steps. cbn [windex last_level].
  exec tte_read_run. destruct (s2tte_is_unassigned_ns e) eqn:Hun; cbn [negb]; steps; cycle 1.
  { exec rtt_error_run. steps. exec buffer_unmap_run. steps.
    exec granule_unlock_run. steps. unfold mret, M_ret. do 2 f_equal. rewrite insert_insert_eq. by apply restore_state. }
  unfold ns_args_ok in Hargs. apply andb_true_iff in Hargs as [[Hv Hmap]%andb_true_iff Hpar]. cbn in Hv.
  destruct (host_valid_made (s2_ctx r) host_s2tte level ltac:(lia) Hh) as (pa' & e' & Hcr & Hm').
  { rewrite host_valid_run by lia. by rewrite Hv. }
  exists e', pa'. eexists. split; [done|]. split; [done|]. split; [done|]. split.
  - exec (lift_run _ _ _ Hcr). steps. exec tte_write_run. steps.
    exec buffer_unmap_run. steps. exec granule_unlock_run. steps.
    unfold mret, M_ret. do 2 f_equal. unfold set_rtt. by rewrite !insert_insert_eq, delete_insert_id by done.
  - assert (Hty : ty = UnassignedNs) by (by apply (made_type _ _ _ _ _ UnassignedNs Hm)).
    subst ty. eapply realm_at_set; [done|done|done|done|done|exact Hm|done|exact Hm'|done|]. rewrite (counted_made _ _ _ _ _ Hm), (counted_made _ _ _ _ _ Hm'). simpl. lia.
Qed.

Lemma invalidate_entry_run s2_ctx addr level s :
  0 <= vmid s2_ctx < 2 ^ 16 →
  (if level =? S2TT_PAGE_LEVEL then s2tt_invalidate_page s2_ctx addr else s2tt_invalidate_block s2_ctx addr) s
  = Ok ((), set_tlbi (page_tlbi s2_ctx addr ++ tlbi s) s).
Proof. intros Hv. destruct (_ =? _); by apply s2tt_invalidate_page_run. Qed.

(** RTT_UNMAP_UNPROTECTED. As for the mapping: it succeeds exactly when the walk reached
    the level and the entry is a host mapping, which becomes unassigned and is invalidated
    in the TLBs, while the table's references stay and the realm's tables remain in order;
    else RMI_ERROR_RTT reports the level reached and nothing changes. Either way x1 is the
    end of the run of entries that are not live from the one of the address, in the table
    as it is then. *)
Theorem smc_rtt_unmap_unprotected_spec s rd_addr g_rd r T map_addr ulevel res :
  realm_at s rd_addr g_rd r T → is_u64 map_addr →
  let level := s64 ulevel in
  let run := smc_rtt_unmap_unprotected rd_addr map_addr ulevel res s in
  if (1 <=? level) && (level <=? 3) && ns_args_ok r map_addr level 0 UNMAP_NS then
    if level <? s2_starting_level (s2_ctx r) then run = Err FAssert
    else ∃ g i b rc tag p t e top, T !! g = Some (i, b) ∧ covers_lvl i b map_addr ∧ rtt_view s g rc tag p t ∧
      t !! Z.to_nat (s2_addr_to_idx map_addr i) = Some e ∧ i <= level ∧ (i < level → entry_is_table e = false) ∧
      if (i =? level) && s2tte_is_assigned_ns e i then
        ∃ t' s', t' = <[Z.to_nat (s2_addr_to_idx map_addr i) := s2tte_create_unassigned_ns]> t ∧
          s' = set_rtt g rc tag t' (page_tlbi (s2_ctx r) map_addr) s ∧
          non_live_top i map_addr t' (Z.to_nat (s2_addr_to_idx map_addr i)) top ∧
          run = Ok (set_x1 top (set_x0 RMI_SUCCESS res), s') ∧ realm_at s' rd_addr g_rd r T
      else non_live_top i map_addr t (Z.to_nat (s2_addr_to_idx map_addr i)) top ∧
           run = Ok (set_x1 top (set_x0 (rtt_code i) res), s)
  else run = Ok (set_x0 RMI_ERROR_INPUT res, s).
Proof using L HL.
  intros Hra Hma level run. unfold run, smc_rtt_unmap_unprotected. cbv zeta. fold level.
  unfold S2TT_MIN_BLOCK_LEVEL, S2TT_PAGE_LEVEL. clear run.
  destruct (Z.leb_spec 1 level), (Z.leb_spec level 3), (Z.ltb_spec level 1), (Z.ltb_spec 3 level); try lia; try done.
  cbn [andb orb]. destruct (ns_args_ok r map_addr level 0 UNMAP_NS) eqn:Hargs; cycle 1.
  { by apply (map_unmap_ns_refused s rd_addr g_rd r T). }
  destruct (Z.ltb_spec level (s2_starting_level (s2_ctx r))).
  { by eapply map_unmap_ns_above. }
  destruct (map_unmap_ns_accepted s rd_addr g_rd r T map_addr level 0 UNMAP_NS res Hra ltac:(lia) Hma ltac:(lia) Hargs)
    as (g & i & b & rc & tag & p & t & e & ty & pa & HT & Hc & Hview & Hne & Hidx & He & Hm & Hi & Hleaf & Hrun).
  cbv zeta in Hrun. rewrite Hrun. cbn [is_map_ns andb g_llt windex last_level] in *.
  unfold ns_args_ok in Hargs. apply andb_true_iff in Hargs as [[_ Hmap]%andb_true_iff _].
  destruct (realm_facts _ _ _ _ _ Hra) as (_ & _ & _ & _ & _ & _ & _ & _ & _ & Hs & Hbits).
  pose proof (ipa_52 _ _ _ Hbits Hmap) as H52. pose proof Hview as [Hadr Hgr Hrc Hmem Hp Hlen].
  pose proof (inv_vmid _ _ _ (ra_inv _ _ _ _ _ Hra)) as Hvm.
  pose proof (wf_start _ _ _ (inv_wf _ _ _ (ra_inv _ _ _ _ _ Hra))) as Hst.
  pose proof (Hs SLOT_RTT) as HsRTT. destruct Hma as [Hma _].
  assert (HrunE : ∀ t', length t' = 512%nat → (∃ x, t' !! Z.to_nat (s2_addr_to_idx map_addr i) = Some x) →
    ∃ top, non_live_top i map_addr t' (Z.to_nat (s2_addr_to_idx map_addr i)) top ∧
      s2tt_skip_non_live_entries (s2_ctx r) map_addr t'
        {| g_llt := g; windex := s2_addr_to_idx map_addr i; last_level := i |} = Ok top).
  { intros t' Hl [x Hx]. eapply skip_top_run; [done|lia|lia|done|lia]. }
  destruct ((i =? level) && s2tte_is_assigned_ns e i) eqn:Hyes.
  - apply andb_true_iff in Hyes as [->%Z.eqb_eq Hns].
    set (t' := <[Z.to_nat (s2_addr_to_idx map_addr level) := s2tte_create_unassigned_ns]> t) in *.
    destruct (HrunE t') as (top & Htop & Hskip); [unfold t'; by rewrite length_insert| |].
    { eexists. unfold t'. apply list_lookup_insert_eq. by eapply lookup_lt_Some. }
    exists g, level, b, rc, tag, p, t, e, top. do 6 (split; [first [done|lia]|]). rewrite Z.eqb_refl, Hns.
    exists t'. eexists. split; [done|]. split; [done|]. split; [done|]. split.
    + assoc. st_norm. exec map_assert_run. unfold map_unmap_ns_entry. steps. cbn [windex last_level].
      exec tte_read_run. rewrite Z.eqb_refl, Hns. cbn [negb orb]. steps. exec tte_write_run. steps.
      exec invalidate_entry_run. steps. exec read_table_run. steps. fold t'. exec (lift_run _ _ _ Hskip).
      steps. exec buffer_unmap_run. steps. exec granule_unlock_run. steps.
      unfold mret, M_ret. do 2 f_equal. unfold set_rtt. by rewrite !insert_insert_eq, delete_insert_id by done.
    + assert (Hty : ty = AssignedNs) by (by apply (made_type _ _ _ _ _ AssignedNs Hm)). subst ty.
      eapply realm_at_set; [done|done|done|done|done|exact Hm|done|
        apply (unassigned_ns_made (s2_ctx r) level); lia|done|].
      rewrite (counted_made _ _ _ _ _ Hm).
      rewrite (counted_made (s2_ctx r) UnassignedNs 0 level); [simpl; lia|]. apply unassigned_ns_made. lia.
  - destruct (HrunE t Hlen (ex_intro _ _ He)) as (top & Htop & Hskip).
    exists g, i, b, rc, tag, p, t, e, top. do 6 (split; [first [done|lia]|]). rewrite Hyes. split; [done|].
    assoc. st_norm. exec map_assert_run. unfold map_unmap_ns_entry. steps. cbn [windex last_level].
    exec tte_read_run.
    replace (negb (i =? level) || negb (s2tte_is_assigned_ns e i)) with true
      by (by rewrite <- negb_andb, Hyes).
    exec rtt_error_run. steps. exec read_table_run. steps. exec (lift_run _ _ _ Hskip).
    steps. exec buffer_unmap_run. steps. exec granule_unlock_run. steps.
    unfold mret, M_ret. do 2 f_equal. rewrite insert_insert_eq. by apply restore_state.
Qed.

End ns.

(** * Examples *)

#[local] Instance rtt_config : Config := plain_config.

Lemma demo_zero_made i : 1 <= i <= 3 → is_made demo_ctx UnassignedEmpty 0 i 0.
Proof. intros Hi. split; [change (0 <= i <= 3); lia|by exists 0]. Qed.

Lemma demo_table_made pa e i idx x :
  1 <= i <= 3 → i < 3 → is_made demo_ctx Table pa i e →
  demo_table e !! idx = Some x → ∃ ty pa, is_made demo_ctx ty pa i x.
Proof.
  intros Hi Hlt He. destruct idx as [|idx]; cbn [demo_table lookup list_lookup].
  - intros [= <-]. eauto.
  - intros [-> _]%lookup_replicate. exists UnassignedEmpty, 0. by apply demo_zero_made.
Qed.

Lemma demo_realm_at_gen l3 rc :
  length l3 = 512%nat → (∀ idx e, l3 !! idx = Some e → ∃ ty pa, is_made demo_ctx ty pa 3 e) →
  rc = count 3 l3 → realm_at (P := demo_platform) (demo_state l3 rc) 0 0 demo_rd demo_tables.
Proof.
  intros Hl H3 Hcnt. pose proof (count_range 3 l3 Hl) as Hr.
  split; [apply demo_quiescent; lia|done|done|done|done|]. split; [apply demo_wf; [done|lia]|done|..].
  - intros g i b t idx e. unfold demo_tables. rewrite !lookup_insert_Some, lookup_singleton_Some.
    intros [[<- [= <- <-]]|[_ [[<- [= <- <-]]|[_ [<- [= <- <-]]]]]] [= <-] He; [..|by apply (H3 idx)].
    + apply (demo_table_made (2 * 4096) (2 * 4096 + 3) 1 idx); [done|done| |done].
      split; [done|by exists 0].
    + apply (demo_table_made (3 * 4096) (3 * 4096 + 3) 2 idx); [done|done| |done].
      split; [done|by exists 0].
  - intros g i b rc' tag t. unfold demo_tables. rewrite !lookup_insert_Some, lookup_singleton_Some.
    intros [[<- [= <- <-]]|[_ [[<- [= <- <-]]|[_ [<- [= <- <-]]]]]] [= <-] Hg Hrc;
      [change (Some (Gr false GRANULE_STATE_RTT 1 0) = Some (Gr false GRANULE_STATE_RTT rc' tag)) in Hg..|
       change (Some (Gr false GRANULE_STATE_RTT rc 0) = Some (Gr false GRANULE_STATE_RTT rc' tag)) in Hg];
      apply (inj Some) in Hg; apply Gr_inj in Hg as (_ & _ & <- & _);
      first [reflexivity|done|apply gok_rtt; lia].
  - intros g i b. unfold demo_tables. rewrite !lookup_insert_Some, lookup_singleton_Some.
    by intros [[<- [= <- <-]]|[_ [[<- [= <- <-]]|[_ [<- [= <- <-]]]]]].
  - intros g h x. unfold demo_tables. rewrite !lookup_insert_Some, !lookup_singleton_Some.
    intros [[<- <-]|[_ [[<- <-]|[_ [<- <-]]]]] [[<- [=]]|[_ [[<- [=]]|[_ [<- [=]]]]]]; done.
  - intros h j c. unfold demo_tables at 1. rewrite !lookup_insert_Some, lookup_singleton_Some.
    intros [[<- [= <- <-]]|[_ [[<- [= <- <-]]|[_ [<- [= <- <-]]]]]] Hj; [by destruct (Z.lt_irrefl 1)|..].
    + by exists 1, 0, (demo_table (2 * 4096 + 3)), 0%nat, (2 * 4096 + 3), (2 * 4096).
    + by exists 2, 0, (demo_table (3 * 4096 + 3)), 0%nat, (3 * 4096 + 3), (3 * 4096).
  - intros h c. unfold demo_tables. rewrite !lookup_insert_Some, lookup_singleton_Some.
    intros [[<- _]|[_ [[_ [=]]|[_ [_ [=]]]]]]. by exists 0.
Qed.

Lemma demo_realm_at :
  realm_at (P := demo_platform) (demo_state (replicate 512 0) 0) 0 0 demo_rd demo_tables.
Proof.
  apply demo_realm_at_gen; [done| |done]. intros idx e [-> _]%lookup_replicate.
  exists UnassignedEmpty, 0. by apply demo_zero_made.
Qed.

(** The same realm with an entry for the host at address 2^31. *)
Definition demo_ns_state : state :=
  set_rtt 1 1 0 (<[2%nat := s2tte_create_unassigned_ns]> (demo_table (2 * 4096 + 3))) []
    (demo_state (replicate 512 0) 0).

Lemma demo_root_view :
  rtt_view (P := demo_platform) (demo_state (replicate 512 0) 0) 1 1 0
    (PTable (demo_table (2 * 4096 + 3))) (demo_table (2 * 4096 + 3)).
Proof. split; try done. split; [lia|by eexists]. Qed.

Lemma demo_ns_realm_at : realm_at (P := demo_platform) demo_ns_state 0 0 demo_rd demo_tables.
Proof.
  eapply (realm_at_set (P := demo_platform) (L := demo_laws)); [apply demo_realm_at|done|done|apply demo_root_view|
    reflexivity|by apply (demo_zero_made 1)|done|by apply (unassigned_ns_made demo_ctx 1)|done|reflexivity].
Qed.

Definition demo_res : smc_result := {| x0 := 0; x1 := 0; x2 := 0; x3 := 0; x4 := 0 |}.

Lemma smc_rtt_read_entry_spec_witness :
  ∃ a b c d, smc_rtt_read_entry (P := demo_platform) (H := zero_machine) 0 4096 3 demo_res
    (demo_state (replicate 512 0) 0)
    = Ok ({| x0 := RMI_SUCCESS; x1 := a; x2 := b; x3 := c; x4 := d |}, demo_state (replicate 512 0) 0).
Proof.
  pose proof (smc_rtt_read_entry_spec (P := demo_platform) (H := zero_machine) (L := demo_laws)
    (HL := demo_machine_laws) (demo_state (replicate 512 0) 0) 0 0 demo_rd demo_tables 4096 3 demo_res
    demo_realm_at ltac:(done) ltac:(done)) as (g & i & b & t & e & ty & pa & _ & _ & _ & _ & _ & _ & _ & Hrun).
  destruct (entry_report (s2_ctx demo_rd) ty pa i e) as [[a c] d]. exists (u64 i), a, c, d. exact Hrun.
Defined.

Lemma demo_level1 g i b : demo_tables !! g = Some (i, b) → i <= 1 → g = 1 ∧ i = 1.
Proof.
  unfold demo_tables. rewrite !lookup_insert_Some, lookup_singleton_Some.
  intros [[<- [= <- _]]|[_ [[_ [= <- _]]|[_ [_ [= <- _]]]]]]; lia.
Qed.

Lemma demo_ns_entry rc tag p t e :
  rtt_view (P := demo_platform) demo_ns_state 1 rc tag p t → t !! 2%nat = Some e →
  s2tte_is_unassigned_ns e = true.
Proof.
  intros [_ _ _ Hm Hp _] He.
  assert (Hk : mem demo_ns_state !! 1
    = Some (PTable (<[2%nat := s2tte_create_unassigned_ns]> (demo_table (2 * 4096 + 3))))) by apply lookup_insert_eq.
  rewrite Hk in Hm. apply (inj Some) in Hm as <-. cbn [page_table] in Hp.
  apply (inj Some) in Hp as <-. rewrite list_lookup_insert_eq in He by (cbn; lia). by apply (inj Some) in He as <-.
Qed.

Lemma smc_rtt_map_unprotected_spec_witness :
  ∃ s', smc_rtt_map_unprotected (P := demo_platform) (H := zero_machine) 0 (2 ^ 31) 1 (2 ^ 30) demo_ns_state
        = Ok (RMI_SUCCESS, s') ∧ realm_at (P := demo_platform) s' 0 0 demo_rd demo_tables.
Proof.
  pose proof (smc_rtt_map_unprotected_spec (P := demo_platform) (H := zero_machine) (L := demo_laws)
    (HL := demo_machine_laws) demo_ns_state 0 0 demo_rd demo_tables (2 ^ 31) 1 (2 ^ 30)
    demo_ns_realm_at ltac:(done) ltac:(done)) as (g & i & b & rc & tag & p & t & e & HT & _ & Hv & He & Hi & _ & Hrun).
  change (i <= 1) in Hi. destruct (demo_level1 _ _ _ HT Hi) as [-> ->].
  change (t !! 2%nat = Some e) in He. rewrite (demo_ns_entry _ _ _ _ _ Hv He) in Hrun.
  destruct Hrun as (e' & pa & s' & _ & _ & _ & Hrun & Hra). exists s'. split; [exact Hrun|exact Hra].
Defined.

Lemma smc_rtt_unmap_unprotected_spec_witness :
  ∃ res s', smc_rtt_unmap_unprotected (P := demo_platform) (H := zero_machine) 0 (2 ^ 31) 1 demo_res demo_ns_state
            = Ok (res, s').
Proof.
  pose proof (smc_rtt_unmap_unprotected_spec (P := demo_platform) (H := zero_machine) (L := demo_laws)
    (HL := demo_machine_laws) demo_ns_state 0 0 demo_rd demo_tables (2 ^ 31) 1 demo_res
    demo_ns_realm_at ltac:(done)) as (g & i & b & rc & tag & p & t & e & top & _ & _ & _ & _ & _ & _ & Hrun).
  destruct (_ && s2tte_is_assigned_ns e i).
  - destruct Hrun as (t' & s' & _ & _ & _ & Hrun & _). eexists _, s'. exact Hrun.
  - destruct Hrun as [_ Hrun]. eexists _, _. exact Hrun.
Defined.
