(* ===== verification/RttTree.v ===== *)
(** The RTT commands that change the tree of tables (runtime/rmi/rtt.c): RTT_CREATE,
    RTT_FOLD and RTT_DESTROY keep the tables of a realm a tree, on every branch. *)
From S2P Require Import Prelude Types Granule Platform GranuleFind S2tte S2tt Buffer Delegate Walk Exec Realm Rtt.

(** Granule [g] has state [st], [rc] references and page [p]; all else is as in [s]. *)
Definition set_page (g st rc tag : Z) (p : page) (s : state) : state :=
  {| granules := <[g := Gr false st rc tag]> (granules s); mem := <[g := p]> (mem s);
     slots := slots s; vttbr_el2 := vttbr_el2 s; tlbi := tlbi s; tags := tags s; csm_ids := csm_ids s; vmids := vmids s |}.

(** Equality of states that differ in the order of their updates. *)
Ltac map_solve :=
  apply map_eq; let k := fresh "k" in intros k;
  repeat first [ rewrite lookup_insert | rewrite lookup_delete ];
  repeat case_decide; subst; (done || congruence).
Ltac state_solve :=
  unfold set_page, set_rtt; cbn [granules mem slots vttbr_el2 tlbi tags csm_ids vmids]; f_equal; try done; try map_solve.

Section tree.
Context {P : Platform} {H : Machine} {CF : Config} {L : PlatformLaws P} {HL : MachineLaws P H}.

Lemma set_page_table g st rc tag p s h :
  table_of (set_page g st rc tag p s) h = if decide (h = g) then page_table p else table_of s h.
Proof.
  unfold table_of. cbn [set_page mem]. destruct (decide (h = g)) as [->|].
  - by rewrite lookup_insert_eq.
  - by rewrite lookup_insert_ne.
Qed.

Lemma set_page_granule g st rc tag p s h :
  granules (set_page g st rc tag p s) !! h
  = if decide (h = g) then Some (Gr false st rc tag) else granules s !! h.
Proof.
  cbn [set_page granules]. destruct (decide (h = g)) as [->|].
  - by rewrite lookup_insert_eq.
  - by rewrite lookup_insert_ne.
Qed.

(** * Ranges *)

Section inv.
Context (s : state) (s2_ctx : s2tt_context) (T : gmap Z (Z * Z)).
Hypothesis Hinv : rtt_inv s s2_ctx T.

Lemma inv_level g i b : T !! g = Some (i, b) → -1 <= s2_starting_level s2_ctx <= i ∧ i <= 3.
Proof using Hinv.
  intros HT. pose proof (inv_wf _ _ _ Hinv) as Hwf. destruct (wf_table _ _ _ Hwf g i b HT) as [Hi _].
  pose proof (wf_start _ _ _ Hwf). pose proof (min_starting_level_le s2_ctx). lia.
Qed.

(** The range of an entry determines its table and its index. *)
Lemma range_unique g1 g2 i b1 b2 (k1 k2 : nat) :
  T !! g1 = Some (i, b1) → T !! g2 = Some (i, b2) → (k1 < 512)%nat → (k2 < 512)%nat →
  b1 + Z.of_nat k1 * s2tte_map_size i = b2 + Z.of_nat k2 * s2tte_map_size i → g1 = g2 ∧ k1 = k2.
Proof using Hinv.
  intros H1 H2 Hk1 Hk2 Heq. destruct (inv_level _ _ _ H1) as [Hi1 Hi2].
  pose proof (map_size_pos i ltac:(lia)) as Hp.
  destruct (inv_base _ _ _ Hinv _ _ _ H1) as [_ Hb1]. destruct (inv_base _ _ _ Hinv _ _ _ H2) as [_ Hb2].
  apply Z.mod_divide in Hb1 as [q1 ->]; [|lia]. apply Z.mod_divide in Hb2 as [q2 ->]; [|lia].
  set (m := s2tte_map_size i) in *.
  assert (Hq : q1 * 512 + Z.of_nat k1 = q2 * 512 + Z.of_nat k2) by nia.
  assert (q1 = q2) as -> by lia. split; [|lia]. by apply (inv_inj _ _ _ Hinv _ _ _ H1 H2).
Qed.

(** The table that an entry points to. *)
Lemma entry_child g i b t idx e :
  T !! g = Some (i, b) → i < 3 → table_of s g = Some t → t !! idx = Some e → entry_is_table e = true →
  ∃ pa h, table_entry_to_phys e (enable_lpa2 s2_ctx) = Ok pa ∧ addr_to_granule pa = Ok h ∧
    T !! h = Some (i + 1, b + Z.of_nat idx * s2tte_map_size i).
Proof using Hinv. intros. by eapply (wf_next _ _ _ (inv_wf _ _ _ Hinv)). Qed.

Lemma inv_len g i b t : T !! g = Some (i, b) → table_of s g = Some t → length t = 512%nat.
Proof using Hinv.
  intros HT Ht. destruct (wf_table _ _ _ (inv_wf _ _ _ Hinv) g i b HT) as (_ & _ & _ & t' & Ht' & Hl).
  rewrite Ht in Ht'. by simplify_eq.
Qed.
End inv.

(** * Removing a table *)

Lemma table_entry_counted i e : i < 3 → entry_is_table e = true → counted i e = true.
Proof.
  intros Hi He. unfold counted, s2tte_is_table. rewrite (proj2 (Z.ltb_lt i S2TT_PAGE_LEVEL)) by done.
  unfold entry_is_table in He. by rewrite He.
Qed.

(** Replacing the entry that points to table [h], which points to no table itself, by a
    leaf leaves a tree without [h]. *)
Lemma rtt_inv_unlink s s2_ctx T g i b rc tag p t idx e h tagh e' ty' pa' rc' l :
  rtt_inv s s2_ctx T → T !! g = Some (i, b) → i < 3 → rtt_view s g rc tag p t →
  t !! idx = Some e → entry_is_table e = true →
  T !! h = Some (i + 1, b + Z.of_nat idx * s2tte_map_size i) →
  (∀ th k x, i + 1 < 3 → table_of s h = Some th → th !! k = Some x → entry_is_table x = false) →
  is_made s2_ctx ty' pa' i e' → ty' ≠ Table → rc' = rc - 1 + Z.b2z (counted i e') →
  rtt_inv (set_page h GRANULE_STATE_DELEGATED 0 tagh PZero (set_rtt g rc' tag (<[idx := e']> t) l s))
    s2_ctx (delete h T).
Proof.
  intros Hinv HT Hi3 Hview He Het HTh Hleaf Hm Hne Hrc. destruct Hview as [Hadr Hg Hb Hmem Hp Hlen].
  assert (Htab : table_of s g = Some t) by (unfold table_of; by rewrite Hmem).
  assert (Hgh : g ≠ h) by (intros ->; rewrite HT in HTh; simplify_eq; lia).
  assert (Hidx : (idx < 512)%nat) by (rewrite <- Hlen; by eapply lookup_lt_Some).
  assert (Hcnt : rc' = count i (<[idx := e']> t)).
  { rewrite (count_update _ _ _ _ _ He), (table_entry_counted _ _ Hi3 Het).
    rewrite <- (inv_count _ _ _ Hinv g i b rc tag t HT Htab Hg Hb). simpl. lia. }
  pose proof (count_range i (<[idx := e']> t) ltac:(by rewrite length_insert)) as Hrange.
  (* lookups in the new state *)
  assert (Htb : ∀ k, k ≠ h → table_of (set_page h GRANULE_STATE_DELEGATED 0 tagh PZero
      (set_rtt g rc' tag (<[idx := e']> t) l s)) k = if decide (k = g) then Some (<[idx := e']> t) else table_of s k).
  { intros k Hk. by rewrite set_page_table, decide_False, set_rtt_table. }
  assert (Hgr : ∀ k, k ≠ h → granules (set_page h GRANULE_STATE_DELEGATED 0 tagh PZero
      (set_rtt g rc' tag (<[idx := e']> t) l s)) !! k
      = if decide (k = g) then Some (Gr false GRANULE_STATE_RTT rc' tag) else granules s !! k).
  { intros k Hk. by rewrite set_page_granule, decide_False, set_rtt_granule. }
  destruct (entry_child _ _ _ Hinv g i b t idx e HT Hi3 Htab He Het) as (pa & h' & Hpa & Hh' & HTh').
  assert (h' = h) as -> by (by eapply (inv_inj _ _ _ Hinv)).
  pose proof Hinv as [[H1 H2 H3 H4 H5 H6 H7] Hv Hty Hct Hbase Hinj Hpar Htop].
  split; [split; try done|done|..].
  - intros k Hk. rewrite lookup_delete_ne; [by apply H5|]. intros ->. specialize (H5 k Hk).
    rewrite HTh in H5. injection H5 as Hlev _. destruct (inv_level _ _ _ Hinv g i b HT). lia.
  - intros k j c [Hkh Hk]%lookup_delete_Some. destruct (H6 k j c Hk) as (Hlv & Hha & Hgk & Htk).
    split; [done|]. split; [done|]. rewrite Hgr, Htb by done. destruct (decide (k = g)) as [->|]; [|done].
    split; [by eexists _, _; split; [|rewrite Hcnt]|]. eexists; split; [done|]. by rewrite length_insert.
  - intros k j c tk n x [Hkh Hk]%lookup_delete_Some Hj. rewrite Htb by done. intros Htk Hx Htx.
    assert (Hold : ∃ tk', table_of s k = Some tk' ∧ tk' !! n = Some x ∧ ¬ (k = g ∧ n = idx)).
    { destruct (decide (k = g)) as [->|]; [|exists tk; naive_solver]. rewrite HT in Hk. simplify_eq.
      exists t. split; [done|]. destruct (decide (n = idx)) as [->|Hn]; [|by rewrite list_lookup_insert_ne in Hx; naive_solver].
      rewrite list_lookup_insert_eq in Hx by (by eapply lookup_lt_Some). simplify_eq.
      by rewrite (made_not_table _ _ _ _ _ Hj Hm Hne) in Htx. }
    destruct Hold as (tk' & Htk' & Hx' & Hno). destruct (H7 k j c tk' n x Hk Hj Htk' Hx' Htx) as (pa1 & h1 & Hp1 & Hg1 & HT1).
    exists pa1, h1. split; [done|]. split; [done|]. rewrite lookup_delete_ne; [done|]. intros <-.
    rewrite HTh in HT1. injection HT1 as Hlev Hr. assert (i = j) as -> by lia. destruct Hno.
    eapply (range_unique _ _ _ Hinv); [done|done| |done|done].
    rewrite <- (inv_len _ _ _ Hinv k j c tk' Hk Htk'). by eapply lookup_lt_Some.
  - intros k j c tk n x [Hkh Hk]%lookup_delete_Some. rewrite Htb by done.
    destruct (decide (k = g)) as [->|]; [|by eapply Hty]. rewrite HT in Hk. simplify_eq. intros [= <-] Hx.
    destruct (decide (n = idx)) as [->|Hn].
    + rewrite list_lookup_insert_eq in Hx by (by eapply lookup_lt_Some). simplify_eq. eauto.
    + rewrite list_lookup_insert_ne in Hx by done. by eapply Hty.
  - intros k j c rck tagk tk [Hkh Hk]%lookup_delete_Some. rewrite Htb, Hgr by done.
    destruct (decide (k = g)) as [->|]; [|by eapply Hct]. rewrite HT in Hk. simplify_eq.
    intros [= <-] Hgk Hrk. apply (inj Some) in Hgk.
    apply Gr_inj in Hgk as (_ & _ & <- & _); [done|apply gok_rtt; lia|apply gok_rtt; lia].
  - intros k j c [_ Hk]%lookup_delete_Some. by eapply Hbase.
  - intros k k' x [_ Hk]%lookup_delete_Some [_ Hk']%lookup_delete_Some. by eapply Hinj.
  - intros k j c [Hkh Hk]%lookup_delete_Some Hj.
    destruct (Hpar k j c Hk Hj) as (g1 & b1 & t1 & n & x & pa1 & HT1 & Ht1 & Hx & Htx & Hp1 & Hg1).
    assert (j <= 3) by (by destruct (inv_level _ _ _ Hinv k j c Hk)).
    assert (Hg1h : g1 ≠ h).
    { intros ->. rewrite HTh in HT1. injection HT1 as Hlev _.
      by rewrite (Hleaf t1 n x ltac:(lia) Ht1 Hx) in Htx. }
    destruct (decide (g1 = g)) as [->|Hg1g].
    + rewrite HT in HT1. rewrite Htab in Ht1. simplify_eq. exists g, b1, (<[idx := e']> t1), n, x, pa1.
      rewrite lookup_delete_ne, Htb, decide_True by done. split; [done|]. split; [done|].
      rewrite list_lookup_insert_ne; [done|]. intros ->. congruence.
    + exists g1, b1, t1, n, x, pa1. by rewrite lookup_delete_ne, Htb, decide_False.
  - intros k c [_ Hk]%lookup_delete_Some. by eapply Htop.
Qed.

(** * Adding a table *)

Lemma table_made_phys s2_ctx pa i e :
  is_made s2_ctx Table pa i e →
  entry_is_table e = true ∧ table_entry_to_phys e (enable_lpa2 s2_ctx) = Ok pa.
Proof.
  intros Hm. pose proof (made_is _ _ _ _ _ Table Hm) as Ht. rewrite bool_decide_eq_true_2 in Ht by done.
  cbn [s2tte_is] in Ht. pose proof (made_pa _ _ _ _ _ Hm eq_refl) as Hpa.
  pose proof (made_has_pa _ _ _ _ _ Hm) as Hhas. destruct Hm as [[Hl _] _].
  unfold s2tte_pa in Hpa. rewrite !rassert_bind in Hpa by (done || apply Z.leb_le; unfold S2TT_PAGE_LEVEL; lia).
  rewrite Ht in Hpa. split; [by apply andb_true_iff in Ht as [_ ?]|]. done.
Qed.

Lemma addr_to_granule_addr g a : 0 <= g → granule_addr g = Ok a → addr_to_granule a = Ok g.
Proof using L.
  intros Hg Ha. destruct (plat_idx_addr g a Hg Ha) as (Hu & Hal & _ & Hm & Hi).
  unfold addr_to_granule. rewrite rassert_bind by done. rewrite Hi, result_bind_ok.
  unfold granule_from_idx. by rewrite rassert_bind by (by apply Z.ltb_lt).
Qed.

(** Replacing a leaf by an entry that points to a new table without tables below it, with
    the reference the table takes on its parent, leaves a tree with that table. *)
Lemma rtt_inv_link s s2_ctx T g i b rc tag p t idx e ty pa h rtt_addr tagh th rch e' rc' l :
  rtt_inv s s2_ctx T → T !! g = Some (i, b) → i < 3 → rtt_view s g rc tag p t →
  t !! idx = Some e → is_made s2_ctx ty pa i e → ty ≠ Table →
  T !! h = None → g ≠ h → 0 <= h → granule_addr h = Ok rtt_addr → is_made s2_ctx Table rtt_addr i e' →
  length th = 512%nat → (∀ k x, th !! k = Some x → ∃ ty pa, is_made s2_ctx ty pa (i + 1) x ∧ ty ≠ Table) →
  rch = count (i + 1) th → rc' = rc + 1 - Z.b2z (counted i e) →
  rtt_inv (set_page h GRANULE_STATE_RTT rch tagh (PTable th) (set_rtt g rc' tag (<[idx := e']> t) l s))
    s2_ctx (<[h := (i + 1, b + Z.of_nat idx * s2tte_map_size i)]> T).
Proof using L.
  intros Hinv HT Hi3 Hview He Hm0 Hne0 HTh Hgh Hh0 Hadh Hm Hlh Hty' Hrch Hrc.
  destruct Hview as [Hadr Hg Hb Hmem Hp Hlen].
  assert (Htab : table_of s g = Some t) by (unfold table_of; by rewrite Hmem).
  destruct (table_made_phys _ _ _ _ Hm) as [Het' Hphys].
  pose proof (addr_to_granule_addr _ _ Hh0 Hadh) as Hback.
  assert (Het : entry_is_table e = false) by (by eapply made_not_table).
  assert (Hidx : (idx < 512)%nat) by (rewrite <- Hlen; by eapply lookup_lt_Some).
  assert (Hcnt : rc' = count i (<[idx := e']> t)).
  { rewrite (count_update _ _ _ _ _ He), (table_entry_counted _ _ Hi3 Het').
    rewrite <- (inv_count _ _ _ Hinv g i b rc tag t HT Htab Hg Hb). simpl. lia. }
  pose proof (count_range i (<[idx := e']> t) ltac:(by rewrite length_insert)) as Hrange.
  pose proof (count_range (i + 1) th Hlh) as Hrh.
  destruct (inv_level _ _ _ Hinv g i b HT) as [Hst _].
  set (s' := set_page h GRANULE_STATE_RTT rch tagh (PTable th) (set_rtt g rc' tag (<[idx := e']> t) l s)).
  assert (Htb : ∀ k, table_of s' k = if decide (k = h) then Some th
                                     else if decide (k = g) then Some (<[idx := e']> t) else table_of s k).
  { intros k. unfold s'. by rewrite set_page_table, set_rtt_table. }
  assert (Hgr : ∀ k, granules s' !! k = if decide (k = h) then Some (Gr false GRANULE_STATE_RTT rch tagh)
      else if decide (k = g) then Some (Gr false GRANULE_STATE_RTT rc' tag) else granules s !! k).
  { intros k. unfold s'. by rewrite set_page_granule, set_rtt_granule. }
  assert (Hfresh : ∀ k, T !! k ≠ Some (i + 1, b + Z.of_nat idx * s2tte_map_size i)).
  { intros k Hk. destruct (inv_parent _ _ _ Hinv k _ _ Hk) as (g1 & b1 & t1 & n & x & pa1 & HT1 & Ht1 & Hx & Htx & Hp1 & Hg1); [lia|].
    rewrite Z.add_simpl_r in HT1.
    destruct (entry_child _ _ _ Hinv g1 i b1 t1 n x HT1 Hi3 Ht1 Hx Htx) as (pa2 & k2 & Hp2 & Hg2 & HT2).
    rewrite Hp1 in Hp2. injection Hp2 as <-. rewrite Hg1 in Hg2. injection Hg2 as <-.
    rewrite Hk in HT2. injection HT2 as Hr.
    assert (Hn : (n < 512)%nat) by (rewrite <- (inv_len _ _ _ Hinv g1 i b1 t1 HT1 Ht1); by eapply lookup_lt_Some).
    destruct (range_unique _ _ _ Hinv g g1 i b b1 idx n HT HT1 Hidx Hn Hr) as [<- <-]. congruence. }
  pose proof Hinv as [[H1 H2 H3 H4 H5 H6 H7] Hv Hty Hct Hbase Hinj Hpar Htop].
  split; [split; try done|done|..].
  - intros k Hk. specialize (H5 k Hk). rewrite lookup_insert_ne; [done|]. intros ->. congruence.
  - intros k j c [[<- [= <- <-]]|[Hkh Hk]]%lookup_insert_Some.
    + split; [lia|]. split; [by split; [|eexists]|]. rewrite Htb, Hgr, !decide_True by done.
      split; [by eexists _, _; split; [|rewrite Hrch]|by eexists].
    + destruct (H6 k j c Hk) as (Hlv & Hha & Hgk & Htk). split; [done|]. split; [done|].
      rewrite Hgr, Htb. destruct (decide (k = h)) as [?|_]; [done|]. destruct (decide (k = g)) as [->|]; [|done].
      split; [by eexists _, _; split; [|rewrite Hcnt]|]. eexists; split; [done|]. by rewrite length_insert.
  - intros k j c tk n x [[<- [= <- <-]]|[Hkh Hk]]%lookup_insert_Some Hj; rewrite Htb.
    + rewrite decide_True by done. intros [= <-] Hx Htx. destruct (Hty' n x Hx) as (ty1 & pa1 & Hm1 & Hn1).
      by rewrite (made_not_table _ _ _ _ _ Hj Hm1 Hn1) in Htx.
    + rewrite decide_False by done. intros Htk Hx Htx.
      assert (Hold : k = g ∧ n = idx ∧ x = e' ∨ (∃ tk', table_of s k = Some tk' ∧ tk' !! n = Some x)).
      { destruct (decide (k = g)) as [->|]; [|by right; eauto]. apply (inj Some) in Htk as <-.
        destruct (decide (n = idx)) as [->|Hn]; [|rewrite list_lookup_insert_ne in Hx; naive_solver].
        rewrite list_lookup_insert_eq in Hx by (by eapply lookup_lt_Some). left. naive_solver. }
      destruct Hold as [(-> & -> & ->)|(tk' & Htk' & Hx')].
      * rewrite HT in Hk. simplify_eq. exists rtt_addr, h. by rewrite lookup_insert_eq.
      * destruct (H7 k j c tk' n x Hk Hj Htk' Hx' Htx) as (pa1 & h1 & Hp1 & Hg1 & HT1).
        exists pa1, h1. rewrite lookup_insert_ne; [done|]. intros ->. congruence.
  - intros k j c tk n x [[<- [= <- <-]]|[Hkh Hk]]%lookup_insert_Some; rewrite Htb.
    + rewrite decide_True by done. intros [= <-] Hx. destruct (Hty' n x Hx) as (ty1 & pa1 & Hm1 & _). eauto.
    + rewrite decide_False by done. destruct (decide (k = g)) as [->|]; [|by eapply Hty].
      rewrite HT in Hk. simplify_eq. intros [= <-] Hx. destruct (decide (n = idx)) as [->|Hn].
      * rewrite list_lookup_insert_eq in Hx by (by eapply lookup_lt_Some). simplify_eq. eauto.
      * rewrite list_lookup_insert_ne in Hx by done. by eapply Hty.
  - intros k j c rck tagk tk [[<- [= <- <-]]|[Hkh Hk]]%lookup_insert_Some; rewrite Htb, Hgr.
    + rewrite !decide_True by done. intros [= <-] Hgk Hrk. apply (inj Some) in Hgk.
      apply Gr_inj in Hgk as (_ & _ & <- & _); [done|apply gok_rtt; lia|apply gok_rtt; lia].
    + destruct (decide (k = h)) as [?|_]; [done|]. destruct (decide (k = g)) as [->|]; [|by eapply Hct].
      rewrite HT in Hk. simplify_eq. intros [= <-] Hgk Hrk. apply (inj Some) in Hgk.
      apply Gr_inj in Hgk as (_ & _ & <- & _); [done|apply gok_rtt; lia|apply gok_rtt; lia].
  - intros k j c [[<- [= <- <-]]|[Hkh Hk]]%lookup_insert_Some; [|by eapply Hbase].
    destruct (Hbase g i b HT) as [Hb0 Hbm]. pose proof (map_size_pos i ltac:(lia)) as Hpos.
    pose proof (map_size_parent (i + 1) ltac:(lia)) as Hpr. rewrite Z.add_simpl_r in Hpr.
    change S2TTES_PER_S2TT with 512 in Hpr. rewrite <- Hpr. split; [nia|].
    apply Z.mod_divide in Hbm as [q ->]; [|lia].
    replace (q * (512 * s2tte_map_size i) + Z.of_nat idx * s2tte_map_size i)
      with ((q * 512 + Z.of_nat idx) * s2tte_map_size i) by lia. apply Z.mod_mul. lia.
  - intros k k' x [[<- <-]|[Hkh Hk]]%lookup_insert_Some [[<- Hx]|[Hkh' Hk']]%lookup_insert_Some;
      [done|by destruct (Hfresh k')|by subst x; destruct (Hfresh k)|by eapply Hinj].
  - intros k j c [[<- [= <- <-]]|[Hkh Hk]]%lookup_insert_Some Hj.
    + exists g, b, (<[idx := e']> t), idx, e', rtt_addr. rewrite Z.add_simpl_r, lookup_insert_ne by done.
      rewrite Htb, decide_False, decide_True by done. split; [done|]. split; [done|].
      rewrite list_lookup_insert_eq by (by eapply lookup_lt_Some). done.
    + destruct (Hpar k j c Hk Hj) as (g1 & b1 & t1 & n & x & pa1 & HT1 & Ht1 & Hx & Htx & Hp1 & Hg1).
      assert (Hg1h : g1 ≠ h) by (intros ->; congruence).
      destruct (decide (g1 = g)) as [->|Hg1g].
      * exists g, b1, (<[idx := e']> t), n, x, pa1. rewrite lookup_insert_ne by done.
        rewrite Htb, decide_False, decide_True by done. rewrite Htab in Ht1. simplify_eq.
        rewrite list_lookup_insert_ne; [done|]. intros ->. congruence.
      * exists g1, b1, t1, n, x, pa1. rewrite lookup_insert_ne by done. by rewrite Htb, !decide_False.
  - intros k c [[_ [= Hlev _]]|[_ Hk]]%lookup_insert_Some; [|by eapply Htop].
    destruct (inv_level _ _ _ Hinv g i b HT). lia.
Qed.

(** * Realms *)

(** A change that leaves the descriptor alone. *)
Lemma realm_at_frame s s' rd_addr g_rd r T T' :
  realm_at s rd_addr g_rd r T → rtt_inv s' (s2_ctx r) T' → quiescent s' → slots s' = slots s →
  granules s' !! g_rd = granules s !! g_rd → mem s' !! g_rd = mem s !! g_rd →
  realm_at s' rd_addr g_rd r T'.
Proof.
  intros [Hq Hs Hu Hl Hr _] Hinv Hq' Hs' Hg Hm. split; try done; [by rewrite Hs'| |by rewrite Hm].
  unfold lockable in *. destruct (find_granule rd_addr) as [[k|]|]; try done.
  destruct (granules s !! k) as [gr|] eqn:Hk; [|done]. destruct (_ =? GRANULE_STATE_RD) eqn:Hst; [|done].
  injection Hl as ->. by rewrite Hg, Hk, Hst.
Qed.

Lemma set_page_quiescent s g st rc tag p :
  quiescent s → gok st rc → unlocked_invariant st rc = true → quiescent (set_page g st rc tag p s).
Proof.
  intros Hq Hok Hi h Hh. rewrite set_page_granule. destruct (decide (h = g)) as [->|]; [|by apply Hq].
  eexists; split; [done|]. by exists st, rc, tag.
Qed.

(** A table of the realm is not its descriptor. *)
Lemma realm_table_ne s rd_addr g_rd r T g i b :
  realm_at s rd_addr g_rd r T → T !! g = Some (i, b) → g ≠ g_rd.
Proof using L.
  intros Hra HT. destruct (realm_facts _ _ _ _ _ Hra) as (rc & tag & p & Hg & Hok & _).
  apply (table_not_rd s g_rd rc tag); [done|done|]. by apply (wf_table _ _ _ (inv_wf _ _ _ (ra_inv _ _ _ _ _ Hra)) g i b).
Qed.

Lemma realm_at_unlink s rd_addr g_rd r T g i b rc tag p t idx e h tagh e' ty' pa' rc' l :
  realm_at s rd_addr g_rd r T → T !! g = Some (i, b) → i < 3 → rtt_view s g rc tag p t →
  t !! idx = Some e → entry_is_table e = true →
  T !! h = Some (i + 1, b + Z.of_nat idx * s2tte_map_size i) →
  (∀ th k x, i + 1 < 3 → table_of s h = Some th → th !! k = Some x → entry_is_table x = false) →
  is_made (s2_ctx r) ty' pa' i e' → ty' ≠ Table → rc' = rc - 1 + Z.b2z (counted i e') →
  realm_at (set_page h GRANULE_STATE_DELEGATED 0 tagh PZero (set_rtt g rc' tag (<[idx := e']> t) l s))
    rd_addr g_rd r (delete h T).
Proof using L.
  intros Hra HT Hi Hview He Het HTh Hleaf Hm Hne Hrc.
  pose proof (realm_table_ne _ _ _ _ _ _ _ _ Hra HT) as Hng. pose proof (realm_table_ne _ _ _ _ _ _ _ _ Hra HTh) as Hnh.
  pose proof (rtt_inv_unlink _ _ _ _ _ _ _ _ _ _ _ _ _ tagh _ _ _ _ l (ra_inv _ _ _ _ _ Hra) HT Hi Hview He Het HTh Hleaf Hm Hne Hrc) as Hinv.
  assert (Hgh : g ≠ h) by (intros ->; rewrite HT in HTh; simplify_eq; lia).
  assert (Hrange : 0 <= rc' <= 512).
  { destruct Hview as [_ Hg Hb Hmem Hp Hlen].
    assert (Htab : table_of s g = Some t) by (unfold table_of; by rewrite Hmem).
    pose proof (inv_count _ _ _ (ra_inv _ _ _ _ _ Hra) g i b rc tag t HT Htab Hg Hb) as Hc.
    pose proof (count_update i t idx e e' He) as Hu. rewrite (table_entry_counted _ _ Hi Het) in Hu. simpl in Hu.
    pose proof (count_range i (<[idx := e']> t) ltac:(by rewrite length_insert)). lia. }
  eapply realm_at_frame; [done|done| |done| |].
  - apply set_page_quiescent; [|by split|done]. apply set_rtt_quiescent; [apply (ra_quiet _ _ _ _ _ Hra)|done].
  - rewrite set_page_granule, decide_False, set_rtt_granule, decide_False by done. done.
  - cbn [set_page set_rtt mem]. by rewrite !lookup_insert_ne by done.
Qed.

(** The references of a parent whose leaf becomes a table. *)
Lemma link_refs s s2_ctx T g i b rc tag p t idx e e' :
  rtt_inv s s2_ctx T → T !! g = Some (i, b) → rtt_view s g rc tag p t → t !! idx = Some e →
  i < 3 → entry_is_table e' = true → 0 <= rc + 1 - Z.b2z (counted i e) <= 512.
Proof.
  intros Hinv HT [_ Hg Hb Hmem Hp Hlen] He Hi Het.
  assert (Htab : table_of s g = Some t) by (unfold table_of; by rewrite Hmem).
  pose proof (inv_count _ _ _ Hinv g i b rc tag t HT Htab Hg Hb) as Hc.
  pose proof (count_update i t idx e e' He) as Hu. rewrite (table_entry_counted i e' Hi Het) in Hu. simpl in Hu.
  pose proof (count_range i (<[idx := e']> t) ltac:(by rewrite length_insert)). lia.
Qed.

Lemma realm_at_link s rd_addr g_rd r T g i b rc tag p t idx e ty pa h rtt_addr tagh th rch e' rc' l :
  realm_at s rd_addr g_rd r T → T !! g = Some (i, b) → i < 3 → rtt_view s g rc tag p t →
  t !! idx = Some e → is_made (s2_ctx r) ty pa i e → ty ≠ Table →
  T !! h = None → g ≠ h → h ≠ g_rd → 0 <= h → granule_addr h = Ok rtt_addr →
  is_made (s2_ctx r) Table rtt_addr i e' → length th = 512%nat →
  (∀ k x, th !! k = Some x → ∃ ty pa, is_made (s2_ctx r) ty pa (i + 1) x ∧ ty ≠ Table) →
  rch = count (i + 1) th → rc' = rc + 1 - Z.b2z (counted i e) →
  realm_at (set_page h GRANULE_STATE_RTT rch tagh (PTable th) (set_rtt g rc' tag (<[idx := e']> t) l s))
    rd_addr g_rd r (<[h := (i + 1, b + Z.of_nat idx * s2tte_map_size i)]> T).
Proof using L.
  intros Hra HT Hi Hview He Hm0 Hne0 HTh Hgh Hnh Hh0 Hadh Hm Hlh Hty Hrch Hrc.
  pose proof (realm_table_ne _ _ _ _ _ _ _ _ Hra HT) as Hng.
  pose proof (rtt_inv_link _ _ _ _ _ _ _ _ _ _ _ _ _ _ _ _ tagh _ _ _ _ l (ra_inv _ _ _ _ _ Hra) HT Hi Hview He Hm0 Hne0
    HTh Hgh Hh0 Hadh Hm Hlh Hty Hrch Hrc) as Hinv.
  pose proof (count_range (i + 1) th Hlh) as Hrh.
  assert (Hrange : 0 <= rc' <= 512).
  { rewrite Hrc. eapply link_refs; [apply (ra_inv _ _ _ _ _ Hra)|done|done|done|done|by eapply table_made_phys]. }
  eapply realm_at_frame; [done|done| |done| |].
  - apply set_page_quiescent; [|apply gok_rtt; lia|apply rtt_unlocked; lia].
    apply set_rtt_quiescent; [apply (ra_quiet _ _ _ _ _ Hra)|done].
  - rewrite set_page_granule, decide_False, set_rtt_granule, decide_False by done. done.
  - cbn [set_page set_rtt mem]. by rewrite !lookup_insert_ne by done.
Qed.

(** * The commands *)

(** The arguments that the structure commands accept. *)
Definition structure_args_ok (r : rd) (map_addr level : Z) : bool :=
  (s2_starting_level (s2_ctx r) + 1 <=? level) && (level <=? 3) && map_addr_ok r map_addr (level - 1).

Lemma validate_structure_run s r T map_addr level :
  rtt_wf s (s2_ctx r) T →
  validate_rtt_structure_cmds map_addr level r = Ok (structure_args_ok r map_addr level).
Proof.
  intros Hwf. pose proof (wf_start _ _ _ Hwf) as Hst. pose proof (wf_bits52 _ _ _ Hwf) as Hb.
  unfold validate_rtt_structure_cmds, structure_args_ok, realm_rtt_starting_level, S2TT_PAGE_LEVEL.
  destruct (Z.ltb_spec level (s2_starting_level (s2_ctx r) + 1)), (Z.ltb_spec 3 level),
    (Z.leb_spec (s2_starting_level (s2_ctx r) + 1) level), (Z.leb_spec level 3); try lia; try done.
  cbn [orb andb]. apply validate_map_addr_run; [done|lia].
Qed.

(** What acceptance says: the level, the bound and the alignment. *)
Lemma structure_args s r T map_addr level :
  rtt_wf s (s2_ctx r) T → structure_args_ok r map_addr level = true → 0 <= map_addr →
  s2_starting_level (s2_ctx r) <= level - 1 ∧ level <= 3 ∧ map_addr < 2 ^ ipa_bits (s2_ctx r) ∧
  map_addr < 2 ^ 52 ∧ map_addr mod s2tte_map_size (level - 1) = 0.
Proof.
  intros Hwf [[H1%Z.leb_le H2%Z.leb_le]%andb_true_iff [H3%Z.ltb_lt H4%Z.eqb_eq]%andb_true_iff]%andb_true_iff H0.
  pose proof (wf_start _ _ _ Hwf) as Hst. pose proof (wf_bits52 _ _ _ Hwf) as Hb.
  assert (2 ^ ipa_bits (s2_ctx r) <= 2 ^ 52) by (apply Z.pow_le_mono_r; lia).
  assert (Hal : lvl_aligned (enable_lpa2 (s2_ctx r)) (level - 1) map_addr) by (symmetry; exact H4).
  apply lvl_aligned_arith in Hal as [_ Hmod]; [lia|]. unfold min_starting_level in Hst.
  unfold S2TT_MIN_STARTING_LEVEL_LPA2, S2TT_MIN_STARTING_LEVEL in Hst. destruct (enable_lpa2 _); lia.
Qed.

(** An aligned address is where the range of its entry starts. *)
Lemma covers_start i b addr :
  -1 <= i <= 3 → 0 <= addr → covers_lvl i b addr → addr mod s2tte_map_size i = 0 →
  b + Z.of_nat (Z.to_nat (s2_addr_to_idx addr i)) * s2tte_map_size i = addr.
Proof.
  intros Hi Ha Hc Hmod. pose proof (covers_lvl_idx i b addr ltac:(lia) Ha Hc) as Hidx.
  rewrite Z2Nat.id by lia. pose proof (map_size_pos i Hi) as Hp.
  assert (Hdiv : s2_addr_to_idx addr i = (addr - b) / s2tte_map_size i).
  { destruct Hc as [[Hi0 Hc]|(-> & -> & Hlt)].
    - by apply (covers_idx i b addr); [lia|..].
    - destruct (idx_lm1 addr) as (-> & _); [lia|]. by rewrite Z.sub_0_r. }
  assert (Hb : b mod s2tte_map_size i = 0).
  { destruct Hc as [[Hi0 [Hb _]]|(-> & -> & _)]; [|done].
    apply Z.mod_divide in Hb as [q ->]; [|lia]. replace (q * (512 * s2tte_map_size i)) with (q * 512 * s2tte_map_size i) by lia.
    apply Z.mod_mul. lia. }
  rewrite Hdiv. assert (Hm : (addr - b) mod s2tte_map_size i = 0) by (rewrite Zminus_mod, Hmod, Hb; apply Z.mod_0_l; lia).
  pose proof (Z.div_mod (addr - b) (s2tte_map_size i) ltac:(lia)). lia.
Qed.

(** The pages of the first block of a range, as [s2tt_invalidate_pages_in_block] does. *)
Definition block_tlbi (s2_ctx : s2tt_context) (addr : Z) : list tlb_event :=
  TlbVmalle1is (vmid s2_ctx) :: page_events 512 (vmid s2_ctx) addr [].

Lemma page_events_app n v ipa l : page_events n v ipa l = page_events n v ipa [] ++ l.
Proof.
  revert ipa l. induction n as [|n IH]; intros ipa l; cbn [page_events]; [done|].
  rewrite IH, (IH _ [_]), <- app_assoc. done.
Qed.

Lemma s2tt_invalidate_pages_run s2_ctx addr s :
  0 <= vmid s2_ctx < 2 ^ 16 →
  s2tt_invalidate_pages_in_block s2_ctx addr s = Ok ((), set_tlbi (block_tlbi s2_ctx addr ++ tlbi s) s).
Proof.
  intros Hv. unfold s2tt_invalidate_pages_in_block, block_tlbi. change BLOCK_L2_SIZE with (Z.of_nat 512 * 4096).
  rewrite stage2_tlbi_ipa_run by (done || lia). by rewrite page_events_app.
Qed.

(** Locking the table that an entry points to. *)
Lemma find_lock_table s g pa rc tag :
  is_u64 pa → addr_to_granule pa = Ok g → granules s !! g = Some (Gr false GRANULE_STATE_RTT rc tag) →
  0 <= rc <= 512 →
  find_lock_granule pa GRANULE_STATE_RTT s = Ok (Some g, put_granule g (Gr true GRANULE_STATE_RTT rc tag) s).
Proof using L.
  intros Hu Ha Hg Hrc. assert (Hf : find_granule pa = Ok (Some g)).
  { unfold addr_to_granule in Ha. unfold find_granule.
    destruct (GRANULE_ALIGNED pa) eqn:Hal; [|done]. rewrite rassert_bind in Ha by done.
    destruct (plat_addr_total pa Hu Hal) as (i & Hi & Hr). rewrite Hi in Ha |- *.
    unfold granule_from_idx in *. cbn in Ha |- *. destruct (Z.ltb_spec i RMM_MAX_GRANULES); [|by cbn in Ha].
    rewrite (proj2 (Z.leb_gt _ _)) by lia. cbn in Ha |- *. by injection Ha as ->. }
  unfold find_lock_granule. run_step (lift_run _ _ _ Hf).
  assert (Hrun : granule_lock_on_state_match g GRANULE_STATE_RTT s
    = Ok (true, put_granule g (Gr true GRANULE_STATE_RTT rc tag) s)).
  { rewrite (granule_lock_on_state_match_run _ _ _ _ _ _ Hg) by (apply gok_rtt; lia).
    rewrite Z.eqb_refl, rtt_unlocked by lia. done. }
  by run_step Hrun.
Qed.

(** The child of a table entry, as the commands find it. *)
Lemma child_view s s2_ctx T g i b t idx e :
  rtt_inv s s2_ctx T → T !! g = Some (i, b) → table_of s g = Some t → t !! idx = Some e →
  s2tte_is_table e i = true →
  ∃ h pa rch tagh ph th, i < 3 ∧ entry_is_table e = true ∧ h ≠ g ∧
    T !! h = Some (i + 1, b + Z.of_nat idx * s2tte_map_size i) ∧ rtt_view s h rch tagh ph th ∧
    is_u64 pa ∧ s2tte_pa s2_ctx e i = Ok pa ∧ addr_to_granule pa = Ok h ∧ rch = count (i + 1) th.
Proof.
  intros Hinv HT Htab He Hist. destruct (inv_typed _ _ _ Hinv g i b t idx e HT Htab He) as (ty & pa & Hm).
  assert (ty = Table) as -> by (by apply (made_type _ _ _ _ _ Table Hm)).
  destruct (table_made_phys _ _ _ _ Hm) as [Het Hphys]. pose proof (made_pa _ _ _ _ _ Hm eq_refl) as Hpa.
  destruct Hm as [[Hl Hal] _].
  destruct (entry_child _ _ _ Hinv g i b t idx e HT ltac:(lia) Htab He Het) as (pa' & h & Hp' & Hh & HTh).
  rewrite Hphys in Hp'. injection Hp' as <-.
  destruct (wf_table _ _ _ (inv_wf _ _ _ Hinv) h _ _ HTh) as [_ Hrg].
  destruct (rtt_granule_view _ _ Hrg) as (rch & tagh & ph & th & Hv).
  exists h, pa, rch, tagh, ph, th. split; [lia|]. split; [done|].
  split; [intros ->; rewrite HT in HTh; simplify_eq; lia|]. split; [done|]. split; [done|]. split.
  { apply lvl_aligned_arith in Hal as [Hr _]; [|left; lia]. unfold is_u64.
    unfold s2tte_oa_bits, S2TTE_OA_BITS, S2TTE_OA_BITS_LPA2 in Hr. destruct (enable_lpa2 s2_ctx); lia. }
  split; [done|]. split; [done|]. destruct Hv as [_ Hg Hb Hmem Hp _].
  eapply (inv_count _ _ _ Hinv); [done| |done|done]. unfold table_of. by rewrite Hmem.
Qed.

(** A table without references points to no table. *)
Lemma no_refs_leaf i t k x : count i t = 0 → i < 3 → t !! k = Some x → entry_is_table x = false.
Proof.
  intros Hc Hi Hx. destruct (entry_is_table x) eqn:Ht; [|done].
  pose proof (table_entry_counted _ _ Hi Ht) as Hcx. pose proof (count_update i t k x 0 Hx) as Hu.
  unfold count in *. rewrite Hcx in Hu. destruct (counted i 0); simpl in Hu.
  - assert (Hin : x ∈ List.filter (counted i) t) by (apply list_elem_of_In, filter_In; split; [by eapply list_elem_of_In, list_elem_of_lookup_2|done]).
    destruct (List.filter (counted i) t); [by apply not_elem_of_nil in Hin|simpl in Hc; lia].
  - lia.
Qed.

(** ** RTT_DESTROY *)

(** The entry that replaces a destroyed table, and the invalidation. *)
Definition destroyed_entry (in_par : bool) : Z :=
  if in_par then s2tte_create_unassigned_destroyed else s2tte_create_unassigned_ns.
Definition destroyed_tlbi (s2_ctx : s2tt_context) (in_par : bool) (addr : Z) : list tlb_event :=
  if in_par then page_tlbi s2_ctx addr else block_tlbi s2_ctx addr.

Lemma destroyed_made s2_ctx in_par i :
  min_starting_level s2_ctx <= i <= 3 →
  ∃ ty, is_made s2_ctx ty 0 i (destroyed_entry in_par) ∧ ty ≠ Table ∧ counted i (destroyed_entry in_par) = false.
Proof.
  intros Hi. destruct in_par; cbn [destroyed_entry].
  - assert (Hm : is_made s2_ctx UnassignedDestroyed 0 i s2tte_create_unassigned_destroyed) by (split; [done|by exists 0]).
    exists UnassignedDestroyed. split; [done|]. split; [done|]. by rewrite (counted_made _ _ _ _ _ Hm).
  - pose proof (unassigned_ns_made s2_ctx i Hi) as Hm. exists UnassignedNs. split; [done|]. split; [done|].
    by rewrite (counted_made _ _ _ _ _ Hm).
Qed.

Lemma destroyed_invalidate_run s2_ctx (in_par : bool) addr s :
  0 <= vmid s2_ctx < 2 ^ 16 →
  (if in_par then s2tt_invalidate_block s2_ctx addr else s2tt_invalidate_pages_in_block s2_ctx addr) s
  = Ok ((), set_tlbi (destroyed_tlbi s2_ctx in_par addr ++ tlbi s) s).
Proof.
  intros Hv. destruct in_par; [by apply s2tt_invalidate_page_run|by apply s2tt_invalidate_pages_run].
Qed.

(** The tables below an accepted request, from the walk to the release of the table. *)
Lemma destroy_unlink_run s s2_ctx g rc tag p t i map_addr level in_par e h pa rch tagh ph th :
  rtt_view s g rc tag p t → rtt_view s h rch tagh ph th → h ≠ g → slots s = ∅ →
  0 <= vmid s2_ctx < 2 ^ 16 → 0 <= s2_addr_to_idx map_addr i < 512 →
  t !! Z.to_nat (s2_addr_to_idx map_addr i) = Some e → i = level - 1 → s2tte_is_table e i = true →
  is_u64 pa → s2tte_pa s2_ctx e i = Ok pa → addr_to_granule pa = Ok h → (rch = 0 → 1 <= rc) →
  rtt_destroy_unlink s2_ctx {| g_llt := g; windex := s2_addr_to_idx map_addr i; last_level := i |}
    SLOT_RTT map_addr level in_par
    (set_slots (<[SLOT_RTT := g]> (slots s)) (put_granule g (Gr true GRANULE_STATE_RTT rc tag) s))
  = if rch =? 0 then
      Ok ((RMI_SUCCESS, Some pa, true),
          set_slots (<[SLOT_RTT := g]> (slots s))
            (put_granule g (Gr true GRANULE_STATE_RTT (rc - 1) tag)
              (set_page h GRANULE_STATE_DELEGATED 0 tagh PZero
                (set_rtt g (rc - 1) tag (<[Z.to_nat (s2_addr_to_idx map_addr i) := destroyed_entry in_par]> t)
                   (destroyed_tlbi s2_ctx in_par map_addr) s))))
    else
      Ok ((rtt_code level, None, false),
          set_slots (<[SLOT_RTT := g]> (slots s)) (put_granule g (Gr true GRANULE_STATE_RTT rc tag) s)).
Proof using L HL.
  intros [Hadr Hg Hb Hmem Hp Hlen] [Hadrh Hgh Hbh Hmemh Hph Hlenh] Hne Hs Hv Hidx He Hi Hist Hu Hpa Hh Hrc1.
  assert (HsRTT : ∀ k : Z, slots s !! k = None) by (intros; by rewrite Hs).
  pose proof (HsRTT SLOT_RTT2) as HsR2. clear Hs. unfold rtt_destroy_unlink. cbn [windex last_level g_llt].
  st_norm. exec tte_read_run. subst i. rewrite Hist, Z.eqb_refl. cbn [negb orb].
  exec (lift_run _ _ _ Hpa).
  erewrite bind_run; [|eapply (find_lock_table _ h pa rch tagh); [done|done|lk_solve|done]]. st_norm.
  run_step (massert_run _ _ eq_refl). run_step (mderef_run _ _ _ eq_refl).
  unfold granule_refcount_read. exec REFCOUNT_run. destruct (Z.eqb_spec rch 0) as [->|Hrch]; cbn [negb]; cycle 1.
  { steps. exec rtt_error_run. steps. exec granule_unlock_run. unfold mret, M_ret. do 2 f_equal. state_solve. }
  cbv zeta. steps. fold (destroyed_entry in_par). exec map_assert_run. steps. unfold atomic_granule_put.
  exec granule_refcount_dec_run. steps. exec tte_write_run. steps. exec destroyed_invalidate_run. steps.
  exec tte_write_run. steps. unfold granule_memzero_mapped. exec write_page_run. steps.
  exec granule_set_state_run. steps. exec buffer_unmap_run. steps. exec granule_unlock_run.
  unfold mret, M_ret. do 2 f_equal. rewrite list_insert_insert_eq. state_solve.
Qed.

(** A table with a child has a reference. *)
Lemma parent_refs s s2_ctx T g i b rc tag p t idx e :
  rtt_inv s s2_ctx T → T !! g = Some (i, b) → rtt_view s g rc tag p t → t !! idx = Some e →
  i < 3 → entry_is_table e = true → 1 <= rc.
Proof.
  intros Hinv HT [_ Hg Hb Hmem Hp Hlen] He Hi Het.
  assert (Htab : table_of s g = Some t) by (unfold table_of; by rewrite Hmem).
  rewrite (inv_count _ _ _ Hinv g i b rc tag t HT Htab Hg Hb).
  destruct (Z.eq_dec (count i t) 0) as [Hz|]; [by rewrite (no_refs_leaf i t idx e Hz Hi He) in Het|].
  pose proof (count_range i t Hlen). lia.
Qed.

(** The common start of RTT_DESTROY and RTT_FOLD, for arguments that are accepted. *)
Lemma structure_start s rd_addr g_rd r T map_addr level :
  realm_at s rd_addr g_rd r T → is_u64 map_addr → structure_args_ok r map_addr level = true →
  ∃ g i b rc tag p t e,
    (∀ (B : Type) (k : rd → s2tt_walk → M state B) (refuse : Z → M state B),
      (map_assert g_rd SLOT_RD ≫= λ rdp,
       read_rd rdp ≫= λ r0,
       lift (validate_rtt_structure_cmds map_addr level r0) ≫= λ ok,
       if negb ok then refuse rdp
       else
         buffer_unmap rdp ≫= λ _,
         granule_lock (g_rtt (s2_ctx r0)) GRANULE_STATE_RTT ≫= λ _,
         granule_unlock g_rd ≫= λ _,
         s2tt_walk_lock_unlock (s2_ctx r0) map_addr (level - 1) ≫= k r0) (lock_one g_rd s)
      = k r {| g_llt := g; windex := s2_addr_to_idx map_addr i; last_level := i |}
          (put_granule g (Gr true GRANULE_STATE_RTT rc tag) s)) ∧
    T !! g = Some (i, b) ∧ covers_lvl i b map_addr ∧ rtt_view s g rc tag p t ∧ table_of s g = Some t ∧
    0 <= s2_addr_to_idx map_addr i < 512 ∧ t !! Z.to_nat (s2_addr_to_idx map_addr i) = Some e ∧
    min_starting_level (s2_ctx r) <= i <= 2 ∧ i <= level - 1 ∧ level <= 3 ∧
    (i < level - 1 → entry_is_table e = false) ∧
    (i = level - 1 → b + Z.of_nat (Z.to_nat (s2_addr_to_idx map_addr i)) * s2tte_map_size i = map_addr).
Proof using L HL.
  intros Hra Hma Hargs. destruct (realm_facts _ _ _ _ _ Hra) as
    (rc & tag & p & Hg & Hok & Hadr & Hm & Hp & Hfind & Hs & Hbits).
  pose proof (inv_wf _ _ _ (ra_inv _ _ _ _ _ Hra)) as Hwf. pose proof (wf_start _ _ _ Hwf) as Hst.
  destruct Hma as [Hma _]. destruct (structure_args s r T map_addr level Hwf Hargs Hma) as (H1 & H2 & H3 & H4 & H5).
  destruct (enter_walk _ _ _ _ (ra_core _ _ _ _ _ Hra) rc tag map_addr (level - 1) Hg Hok ltac:(lia) ltac:(lia)) as
    (g & i & b & rc' & tag' & p' & t & e & Hwalk & HT & Hc & Hview & Hne & Hidx & He & Hi & Hleaf).
  pose proof (min_starting_level_le (s2_ctx r)) as Hmin.
  exists g, i, b, rc', tag', p', t, e. split; [|split_and!; try done; try lia].
  - intros B k refuse. rewrite (lock_one_Gr _ _ _ _ _ Hg Hok). change (put_granule g_rd _ s) with (rd_locked s g_rd rc tag).
    rewrite (rd_open _ _ _ _ (ra_core _ _ _ _ _ Hra) _ _ _ _ Hadr Hm Hp).
    run_step (lift_run _ _ _ (validate_structure_run s r T map_addr level Hwf)). rewrite Hargs. cbn [negb].
    rewrite (rd_close _ _ _ _ (ra_core _ _ _ _ _ Hra)). apply Hwalk.
  - destruct Hview as [_ _ _ Hmem Hpt _]. unfold table_of. by rewrite Hmem.
  - intros ->. apply covers_start; [lia|lia|done|done].
Qed.

(** The common refusal. *)
Lemma structure_refuse s rd_addr g_rd r T map_addr level {B} (ret : B) (k : Z → rd → M state B) :
  realm_at s rd_addr g_rd r T → structure_args_ok r map_addr level = false →
  (map_assert g_rd SLOT_RD ≫= λ rdp,
   read_rd rdp ≫= λ r0,
   lift (validate_rtt_structure_cmds map_addr level r0) ≫= λ ok,
   if negb ok then buffer_unmap rdp ≫= λ _, granule_unlock g_rd ≫= λ _, mret ret else k rdp r0) (lock_one g_rd s)
  = Ok (ret, s).
Proof using L HL.
  intros Hra Hargs. destruct (realm_facts _ _ _ _ _ Hra) as
    (rc & tag & p & Hg & Hok & Hadr & Hm & Hp & Hfind & Hs & Hbits).
  rewrite (lock_one_Gr _ _ _ _ _ Hg Hok). change (put_granule g_rd _ s) with (rd_locked s g_rd rc tag).
  rewrite (rd_open _ _ _ _ (ra_core _ _ _ _ _ Hra) _ _ _ _ Hadr Hm Hp).
  run_step (lift_run _ _ _ (validate_structure_run s r T map_addr level (inv_wf _ _ _ (ra_inv _ _ _ _ _ Hra)))).
  rewrite Hargs. cbn [negb]. by rewrite (rd_close _ _ _ _ (ra_core _ _ _ _ _ Hra)), rd_unlock.
Qed.

Lemma find_lock_rd s rd_addr g_rd r T :
  realm_at s rd_addr g_rd r T →
  find_lock_granule rd_addr GRANULE_STATE_RD s = Ok (Some g_rd, lock_one g_rd s).
Proof using L.
  intros Hra. destruct (realm_facts _ _ _ _ _ Hra) as (rc & tag & p & Hg & Hok & _ & _ & _ & Hfind & _).
  by rewrite (lock_one_Gr _ _ _ _ _ Hg Hok).
Qed.

(** C13: RTT_DESTROY on every branch: it always returns. Invalid arguments are refused. When
    the walk to the parent level ends elsewhere or the entry is not a table, RMI_ERROR_RTT
    reports the level reached; when the table is still referenced it reports the level of
    the table; in both cases nothing changes. Otherwise the table becomes a wiped delegated
    granule, the parent entry becomes DESTROYED (inside the protected space) or an empty
    host entry, the parent loses one reference, and what remains is the realm's tree
    without that table. *)
Theorem smc_rtt_destroy_spec s rd_addr g_rd r T map_addr ulevel res :
  realm_at s rd_addr g_rd r T → is_u64 map_addr →
  let level := s64 ulevel in
  let run := smc_rtt_destroy rd_addr map_addr ulevel res s in
  let in_par := addr_in_par r map_addr in
  if structure_args_ok r map_addr level then
    ∃ g i b rc tag p t e, T !! g = Some (i, b) ∧ covers_lvl i b map_addr ∧ rtt_view s g rc tag p t ∧
      t !! Z.to_nat (s2_addr_to_idx map_addr i) = Some e ∧ i <= level - 1 ∧
      (i < level - 1 → entry_is_table e = false) ∧
      if (i =? level - 1) && s2tte_is_table e i then
        ∃ h pa rch tagh ph th, T !! h = Some (level, map_addr) ∧ addr_to_granule pa = Ok h ∧
          rtt_view s h rch tagh ph th ∧
          if rch =? 0 then
            ∃ t' s' top, t' = <[Z.to_nat (s2_addr_to_idx map_addr i) := destroyed_entry in_par]> t ∧
              s' = set_page h GRANULE_STATE_DELEGATED 0 tagh PZero
                     (set_rtt g (rc - 1) tag t' (destroyed_tlbi (s2_ctx r) in_par map_addr) s) ∧
              non_live_top i map_addr t' (Z.to_nat (s2_addr_to_idx map_addr i)) top ∧
              run = Ok (set_x0 RMI_SUCCESS (set_x2 top (set_x1 pa res)), s') ∧
              realm_at s' rd_addr g_rd r (delete h T)
          else run = Ok (set_x0 (rtt_code level) (set_x2 map_addr res), s)
      else
        ∃ top, non_live_top i map_addr t (Z.to_nat (s2_addr_to_idx map_addr i)) top ∧
          run = Ok (set_x0 (rtt_code i) (set_x2 top res), s)
  else run = Ok (set_x2 0 (set_x0 RMI_ERROR_INPUT res), s).
Proof using L HL.
  intros Hra Hma level run in_par. unfold run, smc_rtt_destroy. clear run.
  run_step (find_lock_rd _ _ _ _ _ Hra). cbv zeta. fold level.
  destruct (structure_args_ok r map_addr level) eqn:Hargs; [|by eapply structure_refuse].
  destruct (structure_start _ _ _ _ _ map_addr level Hra Hma Hargs) as
    (g & i & b & rc & tag & p & t & e & Hstart & HT & Hc & Hview & Htab & Hidx & He & Hi & Hil & Hl3 & Hleaf & Hrange).
  rewrite Hstart. clear Hstart. cbn [g_llt windex last_level]. fold in_par.
  pose proof (inv_vmid _ _ _ (ra_inv _ _ _ _ _ Hra)) as Hvm. pose proof (ra_slots _ _ _ _ _ Hra) as Hs.
  pose proof Hview as [Hadr Hgr Hrc Hmem Hp Hlen]. pose proof (ra_inv _ _ _ _ _ Hra) as Hinv.
  assert (HsRTT : slots s !! SLOT_RTT = None) by (by rewrite Hs).
  assert (H52 : 0 <= map_addr < 2 ^ 52).
  { destruct Hma as [Hma _].
    destruct (structure_args s r T map_addr level (inv_wf _ _ _ Hinv) Hargs Hma) as (_ & _ & _ & ? & _). lia. }
  assert (Hskip : ∀ t' x, length t' = 512%nat → t' !! Z.to_nat (s2_addr_to_idx map_addr i) = Some x →
    ∃ top, non_live_top i map_addr t' (Z.to_nat (s2_addr_to_idx map_addr i)) top ∧
      s2tt_skip_non_live_entries (s2_ctx r) map_addr t'
        {| g_llt := g; windex := s2_addr_to_idx map_addr i; last_level := i |} = Ok top).
  { intros t' x Hl Hx. eapply skip_top_run; [done|lia|lia|done|lia]. }
  exists g, i, b, rc, tag, p, t, e. do 6 (split; [done|]).
  erewrite bind_run; [|eapply (map_assert_run _ g SLOT_RTT); [done|done|by cbn]]. cbv beta.
  destruct ((i =? level - 1) && s2tte_is_table e i) eqn:Hyes; cycle 1.
  { destruct (Hskip t e Hlen He) as (top & Htop & Hsk). exists top. split; [done|].
    unfold rtt_destroy_unlink. cbn [windex last_level g_llt]. steps. st_norm. exec tte_read_run.
    replace (negb (i =? level - 1) || negb (s2tte_is_table e (level - 1))) with true.
    - steps. exec rtt_error_run. steps. exec read_table_run. exec (lift_run _ _ _ Hsk). steps.
      exec buffer_unmap_run. steps. exec granule_unlock_run. unfold mret, M_ret. do 2 f_equal.
      rewrite insert_insert_eq. by apply restore_state.
    - destruct (Z.eqb_spec i (level - 1)) as [->|]; [|done]. simpl in Hyes. by rewrite Hyes. }
  apply andb_true_iff in Hyes as [Hie%Z.eqb_eq Hist].
  destruct (child_view _ _ _ _ _ _ _ _ _ Hinv HT Htab He Hist) as
    (h & pa & rch & tagh & ph & th & Hi3 & Het & Hne & HTh & Hvh & Hu & Hpa & Hback & Hch).
  rewrite (Hrange Hie) in HTh. replace (i + 1) with level in HTh by lia.
  exists h, pa, rch, tagh, ph, th. do 3 (split; [done|]).
  pose proof (parent_refs _ _ _ _ _ _ _ _ _ _ _ _ Hinv HT Hview He Hi3 Het) as Hrc1.
  pose proof (destroy_unlink_run s (s2_ctx r) g rc tag p t i map_addr level in_par e h pa rch tagh ph th
    Hview Hvh Hne Hs Hvm Hidx He Hie Hist Hu Hpa Hback (λ _, Hrc1)) as Hun.
  destruct (Z.eqb_spec rch 0) as [Hz|Hz]; cycle 1.
  { erewrite bind_run by exact Hun. st_norm. steps. exec buffer_unmap_run. steps.
    exec granule_unlock_run. unfold mret, M_ret. do 2 f_equal. rewrite insert_insert_eq. by apply restore_state. }
  set (t' := <[Z.to_nat (s2_addr_to_idx map_addr i) := destroyed_entry in_par]> t).
  destruct (Hskip t' (destroyed_entry in_par)) as (top & Htop & Hsk); [unfold t'; by rewrite length_insert| |].
  { unfold t'. apply list_lookup_insert_eq. by eapply lookup_lt_Some. }
  exists t'. eexists. exists top. split; [done|]. split; [done|]. split; [done|]. split.
  - erewrite bind_run by exact Hun. unfold set_page, set_rtt. st_norm. steps. exec read_table_run. steps.
    exec (lift_run _ _ _ Hsk). steps. exec buffer_unmap_run. steps. exec granule_unlock_run.
    unfold mret, M_ret. do 2 f_equal. state_solve.
  - destruct (destroyed_made (s2_ctx r) in_par i ltac:(lia)) as (ty' & Hm' & Hty' & Hcn).
    eapply realm_at_unlink; [done|done|done|done|done|done| | |done|done|rewrite Hcn; simpl; lia].
    + rewrite (Hrange Hie). by replace (i + 1) with level by lia.
    + intros th' k x Hlt Hth' Hx. eapply no_refs_leaf; [|exact Hlt|exact Hx].
      destruct Hvh as [_ _ _ Hmh Hph _]. unfold table_of in Hth'. rewrite Hmh in Hth'. cbn in Hth'.
      rewrite Hph in Hth'. simplify_eq. lia.
Qed.
End tree.

(** * An example *)

#[local] Instance tree_config : Config := plain_config.

(** The walk of the example realm to level 2, at addresses below 2^30, ends at granule 2. *)
Lemma demo_walk_end g i b rc tag p t addr e :
  demo_tables !! g = Some (i, b) → rtt_view (P := demo_platform) (demo_state (replicate 512 0) 0) g rc tag p t →
  s2_addr_to_idx addr 1 = 0 → t !! Z.to_nat (s2_addr_to_idx addr i) = Some e → i <= 2 →
  (i < 2 → entry_is_table e = false) →
  g = 2 ∧ i = 2 ∧ t = demo_table (3 * 4096 + 3).
Proof.
  unfold demo_tables. rewrite !lookup_insert_Some, lookup_singleton_Some.
  intros [[<- [= <- <-]]|[_ [[<- [= <- <-]]|[_ [<- [= <- <-]]]]]] [_ _ _ Hm Hp _] Hidx He Hi Hleaf; [..|lia].
  - change (Some (PTable (demo_table (2 * 4096 + 3))) = Some p) in Hm. apply (inj Some) in Hm as <-.
    apply (inj Some) in Hp as <-. rewrite Hidx in He. apply (inj Some) in He as <-. by specialize (Hleaf ltac:(lia)).
  - change (Some (PTable (demo_table (3 * 4096 + 3))) = Some p) in Hm. apply (inj Some) in Hm as <-.
    by apply (inj Some) in Hp as <-.
Qed.

(** A walk of the example realm to an address of the first 2MB ends at granule 3. *)
Lemma demo_leaf_end l3 rc0 g i b rc tag p t addr e :
  demo_tables !! g = Some (i, b) → rtt_view (P := demo_platform) (demo_state l3 rc0) g rc tag p t →
  s2_addr_to_idx addr 1 = 0 → s2_addr_to_idx addr 2 = 0 → t !! Z.to_nat (s2_addr_to_idx addr i) = Some e →
  (i < 3 → entry_is_table e = false) → g = 3 ∧ i = 3 ∧ t = l3.
Proof.
  unfold demo_tables. rewrite !lookup_insert_Some, lookup_singleton_Some.
  intros [[<- [= <- <-]]|[_ [[<- [= <- <-]]|[_ [<- [= <- <-]]]]]] [_ _ _ Hm Hp _] H1 H2 He Hleaf.
  - change (Some (PTable (demo_table (2 * 4096 + 3))) = Some p) in Hm. apply (inj Some) in Hm as <-.
    apply (inj Some) in Hp as <-. rewrite H1 in He. apply (inj Some) in He as <-. by specialize (Hleaf ltac:(lia)).
  - change (Some (PTable (demo_table (3 * 4096 + 3))) = Some p) in Hm. apply (inj Some) in Hm as <-.
    apply (inj Some) in Hp as <-. rewrite H2 in He. apply (inj Some) in He as <-. by specialize (Hleaf ltac:(lia)).
  - change (Some (PTable l3) = Some p) in Hm. apply (inj Some) in Hm as <-. by apply (inj Some) in Hp as <-.
Qed.

(** The page table of granule 3. *)
Lemma demo_last_table h rch tagh ph th :
  demo_tables !! h = Some (3, 0) → rtt_view (P := demo_platform) (demo_state (replicate 512 0) 0) h rch tagh ph th →
  h = 3 ∧ rch = 0 ∧ th = replicate 512 0.
Proof.
  unfold demo_tables. rewrite !lookup_insert_Some, lookup_singleton_Some.
  intros [[<- [=]]|[_ [[<- [=]]|[_ [<- _]]]]] [_ Hg Hr Hm Hp _].
  change (Some (Gr false GRANULE_STATE_RTT 0 0) = Some (Gr false GRANULE_STATE_RTT rch tagh)) in Hg.
  change (Some (PTable (replicate 512 0)) = Some ph) in Hm. apply (inj Some) in Hm as <-.
  apply (inj Some) in Hp as <-. apply (inj Some) in Hg. apply Gr_inj in Hg as (_ & _ & <- & _); [done|by split|].
  apply gok_rtt. lia.
Qed.

Lemma smc_rtt_destroy_spec_witness :
  ∃ res s', smc_rtt_destroy (P := demo_platform) (H := zero_machine) 0 0 3 demo_res (demo_state (replicate 512 0) 0)
            = Ok (res, s') ∧ x0 res = RMI_SUCCESS ∧
    realm_at (P := demo_platform) s' 0 0 demo_rd (delete 3 demo_tables).
Proof.
  pose proof (smc_rtt_destroy_spec (P := demo_platform) (H := zero_machine) (L := demo_laws)
    (HL := demo_machine_laws) (demo_state (replicate 512 0) 0) 0 0 demo_rd demo_tables 0 3 demo_res
    demo_realm_at ltac:(done)) as (g & i & b & rc & tag & p & t & e & HT & _ & Hv & He & Hi & Hleaf & Hrun).
  change (i <= 2) in Hi. change (i < 2 → entry_is_table e = false) in Hleaf.
  destruct (demo_walk_end _ _ _ _ _ _ _ 0 _ HT Hv eq_refl He Hi Hleaf) as (-> & -> & ->).
  change (demo_table (3 * 4096 + 3) !! 0%nat = Some e) in He. apply (inj Some) in He as <-.
  destruct Hrun as (h & pa & rch & tagh & ph & th & HTh & _ & Hvh & Hrun).
  destruct (demo_last_table _ _ _ _ _ HTh Hvh) as (-> & -> & ->).
  destruct Hrun as (t' & s' & top & _ & _ & _ & Hrun & Hra). eexists _, s'. split; [exact Hrun|]. split; [done|exact Hra].
Defined.
