(* ===== verification/RttFold.v ===== *)
(** RTT_FOLD (runtime/rmi/rtt.c): a table whose entries all have one type, and map one
    block if they map anything, is replaced by one entry of its parent. *)
From S2P Require Import Prelude Types Granule Platform GranuleFind S2tte S2tt Buffer Delegate Walk Exec Realm Rtt RttTree.

Section fold.
Context {P : Platform} {H : Machine} {CF : Config} {L : PlatformLaws P} {HL : MachineLaws P H}.

(** The entries of a table at [level] are one leaf of the level above: all unassigned of
    one type, or the parts of one aligned block at [base]. *)
Definition homogeneous (s2_ctx : s2tt_context) (ty : s2tte_type) (base level : Z) (t : list Z) : Prop :=
  match ty with
  | UnassignedEmpty | UnassignedRam | UnassignedDestroyed | UnassignedNs =>
      base = 0 ∧ ∀ k e, t !! k = Some e → s2tte_is ty e level = true
  | AssignedEmpty | AssignedRam | AssignedDestroyed | AssignedNs =>
      lvl_aligned (enable_lpa2 s2_ctx) (level - 1) base ∧
      ∃ attrs, ∀ k e, t !! k = Some e →
        block_entry s2_ctx ty (bool_decide (ty = AssignedNs)) level base attrs (Z.of_nat k) e
  | Table => False
  end.

Lemma filter_const {A} (f : A → bool) (b : bool) (l : list A) :
  (∀ x, x ∈ l → f x = b) → length (List.filter f l) = if b then length l else 0%nat.
Proof.
  intros Hf. induction l as [|x l IH]; simpl; [by destruct b|].
  rewrite (Hf x) by (by left). specialize (IH ltac:(intros; apply Hf; by right)).
  destruct b; simpl; by rewrite IH.
Qed.

Lemma homogeneous_is s2_ctx ty base level t k e :
  homogeneous s2_ctx ty base level t → t !! k = Some e → s2tte_is ty e level = true.
Proof. intros Hh He. destruct ty; try done; destruct Hh as [? Hh]; try (by eapply Hh); destruct Hh as [a Hh]; by destruct (Hh k e He). Qed.

Lemma homogeneous_count s2_ctx ty base level t :
  (∀ k e, t !! k = Some e → ∃ ty pa, is_made s2_ctx ty pa level e) → length t = 512%nat →
  homogeneous s2_ctx ty base level t → count level t = if type_counted ty then 512 else 0.
Proof.
  intros Hty Hlen Hh. assert (Hc : ∀ k e, t !! k = Some e → counted level e = type_counted ty).
  { intros k e He. destruct (Hty k e He) as (ty' & pa & Hm).
    assert (ty' = ty) as -> by (eapply made_type; [done|by eapply homogeneous_is]).
    by rewrite (counted_made _ _ _ _ _ Hm). }
  unfold count. rewrite (filter_const _ (type_counted ty)), Hlen; [by destruct (type_counted ty)|].
  intros x [k Hk]%list_elem_of_lookup. by eapply Hc.
Qed.

Lemma forallb_lookup (f : Z → bool) t :
  forallb f t = true ↔ ∀ k e, t !! k = Some e → f e = true.
Proof.
  rewrite forallb_forall. split.
  - intros Hf k e He. apply Hf, list_elem_of_In. by eapply list_elem_of_lookup_2.
  - intros Hf e He. apply list_elem_of_In, list_elem_of_lookup in He as [k Hk]. by eapply Hf.
Qed.

(** When the references are as many as the entries, every entry holds one. *)
Lemma filter_all_counted level t :
  512 <= count level t → ∀ k e, t !! k = Some e → (length t = 512)%nat → counted level e = true.
Proof.
  intros Hc k e He Hlen. destruct (counted level e) eqn:Hf; [done|].
  exfalso. assert (Hlt : ∀ l : list Z, e ∈ l → (length (List.filter (counted level) l) < length l)%nat).
  { intros l. induction l as [|x l IH]; [by intros ?%not_elem_of_nil|]. intros [<-|Hin]%elem_of_cons; simpl.
    - rewrite Hf. pose proof (List.filter_length_le (counted level) l). lia.
    - specialize (IH Hin). destruct (counted level x); simpl; lia. }
  specialize (Hlt t (list_elem_of_lookup_2 _ _ _ He)). unfold count in Hc. lia.
Qed.

(** The uniform tests, in terms of types. *)
Definition is_unassigned_type (ty : s2tte_type) : bool :=
  match ty with UnassignedEmpty | UnassignedRam | UnassignedDestroyed | UnassignedNs => true | _ => false end.

Lemma homogeneous_uniform s2_ctx ty level t :
  is_unassigned_type ty = true →
  forallb (λ e, s2tte_is ty e level) t = true ↔ homogeneous s2_ctx ty 0 level t.
Proof. intros Ht. rewrite forallb_lookup. destruct ty; try done; simpl; naive_solver. Qed.

Lemma homogeneous_maps s2_ctx ty level t :
  is_assigned_type ty = true → min_starting_level s2_ctx < level <= 3 → length t = 512%nat →
  ∃ b, s2tt_maps s2_ctx ty t level = Ok b ∧ (b = true ↔ ∃ base, homogeneous s2_ctx ty base level t).
Proof.
  intros Ht Hl Hlen. destruct (table_maps_block_foldable s2_ctx ty (bool_decide (ty = AssignedNs)) level Ht Hl t Hlen)
    as (b & Hb & Hiff). exists b. rewrite s2tt_maps_eq by done. split; [done|]. rewrite Hiff.
  unfold foldable. destruct ty; try done; (split; [intros (base & a & Hal & Hx); exists base; split; [done|by exists a]
    | intros (base & Hal & a & Hx); exists base, a; by split]).
Qed.

(** The entry that replaces a homogeneous table. *)
Lemma homogeneous_first s2_ctx ty base level t e0 :
  is_assigned_type ty = true → homogeneous s2_ctx ty base level t → t !! 0%nat = Some e0 →
  (∃ ty pa, is_made s2_ctx ty pa level e0) →
  lvl_aligned (enable_lpa2 s2_ctx) (level - 1) base ∧ is_made s2_ctx ty base level e0 ∧ s2tte_pa s2_ctx e0 level = Ok base.
Proof.
  intros Ht Hh H0 (ty' & pa & Hm).
  assert (ty' = ty) as -> by (eapply made_type; [done|by eapply homogeneous_is]).
  assert (Hb : lvl_aligned (enable_lpa2 s2_ctx) (level - 1) base ∧ s2tte_pa s2_ctx e0 level = Ok base).
  { destruct ty; try done; destruct Hh as [Hal [attrs Hh]]; destruct (Hh 0%nat e0 H0) as (_ & Hpa & _);
      by rewrite Z.mul_0_l, Z.add_0_r in Hpa. }
  destruct Hb as [Hal Hpa]. pose proof (made_pa _ _ _ _ _ Hm ltac:(by destruct ty)) as Hpa'.
  rewrite Hpa' in Hpa. injection Hpa as ->. done.
Qed.

Lemma uniform_made s2_ctx ty level :
  is_unassigned_type ty = true → min_starting_level s2_ctx < level <= 3 →
  ∃ e', s2tte_make s2_ctx ty 0 0 (level - 1) = Ok e' ∧ is_made s2_ctx ty 0 (level - 1) e'.
Proof.
  intros Ht Hlev. assert (Hok : type_ok s2_ctx ty 0 (level - 1)) by (destruct ty; try done; simpl; lia).
  eexists. rewrite s2tte_make_ok by done. split; [done|]. split; [done|]. exists 0. by apply s2tte_make_ok.
Qed.

Lemma not_homogeneous s2_ctx level t :
  (∀ ty, is_unassigned_type ty = true → forallb (λ e, s2tte_is ty e level) t = false) →
  (∀ ty base, is_assigned_type ty = true → homogeneous s2_ctx ty base level t → level <= 1) →
  ∀ ty base, homogeneous s2_ctx ty base level t → is_assigned_type ty = true ∧ level <= 1.
Proof.
  intros Hu Ha ty base Hh. destruct (is_assigned_type ty) eqn:Hty; [split; [done|by eapply Ha]|].
  exfalso. assert (Hut : is_unassigned_type ty = true) by (by destruct ty).
  assert (base = 0) as -> by (by destruct ty; destruct Hh).
  apply homogeneous_uniform in Hh; [|done]. by rewrite Hu in Hh.
Qed.

(** ** The decision *)

Section decide.
Context (s2_ctx : s2tt_context) (g rc tag h rch tagh i level : Z) (ph : page) (th : list Z) (s : state).
Hypothesis Hg : granules s !! g = Some (Gr true GRANULE_STATE_RTT rc tag).
Hypothesis Hgh : granules s !! h = Some (Gr true GRANULE_STATE_RTT rch tagh).
Hypothesis Hrc : 1 <= rc <= 512.
Hypothesis Hslot : slots s !! SLOT_RTT2 = Some h.
Hypothesis Hmem : mem s !! h = Some ph.
Hypothesis Hph : page_table ph = Some th.
Hypothesis Hlen : length th = 512%nat.
Hypothesis Hty : ∀ k e, th !! k = Some e → ∃ ty pa, is_made s2_ctx ty pa level e.
Hypothesis Hcnt : rch = count level th.
Hypothesis Hlev : min_starting_level s2_ctx < level <= 3.

(** The state after a table of type [ty] was accepted. *)
Definition fold_refs (ty : s2tte_type) : state :=
  if type_counted ty then put_granule h (Gr true GRANULE_STATE_RTT 0 tagh) s
  else put_granule g (Gr true GRANULE_STATE_RTT (rc - 1) tag) s.

(** Accepted with the entry, or refused because no entry can replace the table. *)
Definition fold_decision (idx : Z) : Prop :=
  (∃ ty base e', homogeneous s2_ctx ty base level th ∧ is_made s2_ctx ty base (level - 1) e' ∧ ty ≠ Table ∧
     rtt_fold_entry s2_ctx {| g_llt := g; windex := idx; last_level := i |} h SLOT_RTT2 level s
     = Ok (inl e', fold_refs ty)) ∨
  ((∀ ty base, homogeneous s2_ctx ty base level th → is_assigned_type ty = true ∧ level <= 1) ∧
   ∃ l, (l = level ∨ l = i) ∧
     rtt_fold_entry s2_ctx {| g_llt := g; windex := idx; last_level := i |} h SLOT_RTT2 level s
     = Ok (inr (rtt_code l), s)).


(** No references: the entries are unassigned or host mappings. *)
Lemma fold_unreferenced idx : rch = 0 → fold_decision idx.
Proof using Hg Hgh Hrc Hslot Hmem Hph Hlen Hty Hcnt Hlev.
  intros Hz. set (wi := {| g_llt := g; windex := idx; last_level := i |}).
  set (u ty := forallb (λ e, s2tte_is ty e level) th).
  destruct (homogeneous_maps s2_ctx AssignedNs level th eq_refl Hlev Hlen) as (b5 & Hb5 & Hns). cbn [s2tt_maps] in Hb5.
  assert (Hu : ∀ ty f, (∀ e, s2tte_is ty e level = f e) → table_is_uniform_block th f = Ok (u ty)).
  { intros ty f Hf. rewrite table_is_uniform_block_forallb by done. f_equal. unfold u.
    clear -Hf. induction th as [|x l IH]; simpl; [done|]. by rewrite Hf, IH. }
  assert (Hhead : rtt_fold_entry s2_ctx wi h SLOT_RTT2 level s
    = ((if u UnassignedDestroyed then mret (inl s2tte_create_unassigned_destroyed)
        else if u UnassignedEmpty then mret (inl s2tte_create_unassigned_empty)
        else if u UnassignedRam then mret (inl s2tte_create_unassigned_ram)
        else if u UnassignedNs then mret (inl s2tte_create_unassigned_ns)
        else if b5 then
          if level <=? S2TT_MIN_BLOCK_LEVEL then rtt_error i ≫= λ ret, mret (inr ret)
          else
            tte_read SLOT_RTT2 0 ≫= λ s2tte,
            lift (s2tte_create_assigned_ns s2_ctx s2tte (level - 1)) ≫= λ e, mret (inl e)
        else rtt_error level ≫= λ ret, mret (inr ret)) ≫= λ res,
       match res with
       | inl e => atomic_granule_put g ≫= λ _, mret (inl e)
       | inr ret => mret (inr ret)
       end) s).
  { unfold rtt_fold_entry. cbn [g_llt last_level].
    run_step (REFCOUNT_run Hgh ltac:(apply gok_rtt; lia)).
    rewrite (bind_run _ _ _ _ _ (read_table_run _ _ _ _ _ Hslot Hmem Hph)). rewrite (proj2 (Z.eqb_eq rch 0) Hz).
    unfold s2tt_is_unassigned_destroyed_block, s2tt_is_unassigned_empty_block, s2tt_is_unassigned_ram_block,
      s2tt_is_unassigned_ns_block.
    rewrite (Hu UnassignedDestroyed s2tte_is_unassigned_destroyed), (Hu UnassignedEmpty s2tte_is_unassigned_empty),
      (Hu UnassignedRam s2tte_is_unassigned_ram), (Hu UnassignedNs s2tte_is_unassigned_ns), Hb5 by done.
    destruct (u UnassignedDestroyed), (u UnassignedEmpty), (u UnassignedRam), (u UnassignedNs), b5; done. }
  assert (Hacc : ∀ ty base e', homogeneous s2_ctx ty base level th → is_made s2_ctx ty base (level - 1) e' →
    ty ≠ Table → rtt_fold_entry s2_ctx wi h SLOT_RTT2 level s
      = (mret (inl e') ≫= λ res : Z + Z, match res with inl e => atomic_granule_put g ≫= λ _, mret (inl e)
                                | inr ret => mret (inr ret) end) s → fold_decision idx).
  { intros ty base e' Hh Hm Hne Hrun. left. exists ty, base, e'. split; [done|]. split; [done|]. split; [done|].
    fold wi. rewrite Hrun. steps. unfold fold_refs. rewrite (homogeneous_count _ _ _ _ _ Hty Hlen Hh) in Hcnt.
    destruct (type_counted ty); [lia|]. unfold atomic_granule_put.
    by run_step (granule_refcount_dec_run Hg ltac:(apply gok_rtt; lia) 1 eq_refl ltac:(lia)). }
  assert (Hacu : ∀ ty, is_unassigned_type ty = true → u ty = true →
    rtt_fold_entry s2_ctx wi h SLOT_RTT2 level s
      = (mret (inl (match s2tte_make s2_ctx ty 0 0 (level - 1) with Ok e => e | Err _ => 0 end)) ≫=
         λ res : Z + Z, match res with inl e => atomic_granule_put g ≫= λ _, mret (inl e)
                        | inr ret => mret (inr ret) end) s → fold_decision idx).
  { intros ty Ht Hut Hrun. destruct (uniform_made s2_ctx ty level Ht Hlev) as (e' & He' & Hm'). rewrite He' in Hrun.
    apply (Hacc ty 0 e'); [by apply homogeneous_uniform|done|by intros ->|done]. }
  destruct (u UnassignedDestroyed) eqn:U1; [by apply (Hacu UnassignedDestroyed)|].
  destruct (u UnassignedEmpty) eqn:U2; [by apply (Hacu UnassignedEmpty)|].
  destruct (u UnassignedRam) eqn:U3; [by apply (Hacu UnassignedRam)|].
  destruct (u UnassignedNs) eqn:U4; [by apply (Hacu UnassignedNs)|]. clear Hacu.
  assert (Hno : (∀ base, homogeneous s2_ctx AssignedNs base level th → level <= 1) →
    ∀ ty base, homogeneous s2_ctx ty base level th → is_assigned_type ty = true ∧ level <= 1).
  { intros Hn. apply not_homogeneous; [intros ty Ht; by destruct ty|]. intros ty base Ht Hh.
    pose proof (homogeneous_count _ _ _ _ _ Hty Hlen Hh) as Hc. destruct ty; try done; simpl in Hc; try lia. by eapply Hn. }
  destruct b5; cycle 1.
  { right. split; [apply Hno; intros base Hh; by discriminate (proj2 Hns (ex_intro _ base Hh))|]. exists level. split; [by left|].
    fold wi. rewrite Hhead. steps. by run_step (rtt_error_run level s). }
  destruct (proj1 Hns eq_refl) as [base Hh].
  destruct (Z.leb_spec level S2TT_MIN_BLOCK_LEVEL) as [Hle|Hgt]; unfold S2TT_MIN_BLOCK_LEVEL in *.
  { right. split; [apply Hno; intros; lia|]. exists i. split; [by right|]. fold wi. rewrite Hhead. steps.
    by run_step (rtt_error_run i s). }
  destruct (lookup_lt_is_Some_2 th 0 ltac:(lia)) as [e0 He0].
  destruct (homogeneous_first s2_ctx AssignedNs base level th e0 eq_refl Hh He0 (Hty _ _ He0)) as (Hal & Hm0 & Hpa).
  destruct (ns_fold_made s2_ctx base level e0 ltac:(lia) Hm0 Hal) as (e' & Hcr & Hm').
  apply (Hacc AssignedNs base e'); [done|done|done|]. rewrite Hhead. steps.
  rewrite (bind_run _ _ _ _ _ (tte_read_run _ _ _ _ _ 0 _ Hslot Hmem Hph ltac:(lia) He0)). steps.
  by run_step (lift_run _ _ _ Hcr).
Qed.

(** Every entry holds a reference. *)
Lemma fold_full idx : rch = 512 → fold_decision idx.
Proof using Hg Hgh Hrc Hslot Hmem Hph Hlen Hty Hcnt Hlev.
  intros Hz. set (wi := {| g_llt := g; windex := idx; last_level := i |}).
  assert (Hhead : rtt_fold_entry s2_ctx wi h SLOT_RTT2 level s
    = (if level <=? S2TT_MIN_BLOCK_LEVEL then rtt_error i ≫= λ ret, mret (inr ret)
       else
         tte_read SLOT_RTT2 0 ≫= λ s2tte,
         lift (s2tte_pa s2_ctx s2tte level) ≫= λ block_pa,
         lift (s2tt_maps_assigned_empty_block s2_ctx th level) ≫= λ b1,
         lift (if (b1 : bool) then Ok false else s2tt_maps_assigned_ram_block s2_ctx th level) ≫= λ b2,
         lift (if b1 || b2 then Ok false else s2tt_maps_assigned_destroyed_block s2_ctx th level) ≫= λ b3,
         (if (b1 : bool) then lift (s2tte_create_assigned_empty s2_ctx block_pa (level - 1)) ≫= λ e, mret (inl e)
          else if (b2 : bool) then lift (s2tte_create_assigned_ram s2_ctx block_pa (level - 1)) ≫= λ e, mret (inl e)
          else if (b3 : bool) then lift (s2tte_create_assigned_destroyed s2_ctx block_pa (level - 1)) ≫= λ e, mret (inl e)
          else rtt_error level ≫= λ ret, mret (inr ret)) ≫= λ res,
         match res with
         | inl e => granule_refcount_dec h (u16 S2TTES_PER_S2TT) ≫= λ _, mret (inl e)
         | inr ret => mret (inr ret)
         end) s).
  { unfold rtt_fold_entry. cbn [g_llt last_level]. run_step (REFCOUNT_run Hgh ltac:(apply gok_rtt; lia)).
    rewrite (bind_run _ _ _ _ _ (read_table_run _ _ _ _ _ Hslot Hmem Hph)).
    rewrite (proj2 (Z.eqb_neq rch 0)), (proj2 (Z.eqb_eq rch (u16 S2TTES_PER_S2TT))) by (done || lia). done. }
  assert (Hno : (∀ ty base, is_assigned_type ty = true → type_counted ty = true →
      homogeneous s2_ctx ty base level th → level <= 1) →
    ∀ ty base, homogeneous s2_ctx ty base level th → is_assigned_type ty = true ∧ level <= 1).
  { intros Hn ty base Hh. pose proof (homogeneous_count _ _ _ _ _ Hty Hlen Hh) as Hc.
    destruct (type_counted ty) eqn:Htc; [|lia]. assert (Hta : is_assigned_type ty = true) by (by destruct ty).
    split; [done|]. by eapply Hn. }
  destruct (Z.leb_spec level S2TT_MIN_BLOCK_LEVEL) as [Hle|Hgt]; unfold S2TT_MIN_BLOCK_LEVEL in *.
  { right. split; [apply Hno; intros; lia|]. exists i. split; [by right|]. fold wi. rewrite Hhead.
    by run_step (rtt_error_run i s). }
  destruct (lookup_lt_is_Some_2 th 0 ltac:(lia)) as [e0 He0]. destruct (Hty _ _ He0) as (ty0 & pa0 & Hm0).
  assert (Hpa0 : s2tte_pa s2_ctx e0 level = Ok pa0).
  { apply (made_pa _ _ _ _ _ Hm0). pose proof (counted_made _ _ _ _ _ Hm0) as Hc0.
    destruct (type_has_pa ty0) eqn:Hp0; [done|]. exfalso.
    assert (counted level e0 = false) as Hf by (rewrite Hc0; by destruct ty0).
    by rewrite (filter_all_counted level th ltac:(lia) 0%nat e0 He0 Hlen) in Hf. }
  assert (Hacc : ∀ ty, is_assigned_type ty = true → type_counted ty = true → s2tt_maps s2_ctx ty th level = Ok true →
    (∀ e', s2tte_make s2_ctx ty 0 pa0 (level - 1) = Ok e' →
      rtt_fold_entry s2_ctx wi h SLOT_RTT2 level s
      = (granule_refcount_dec h (u16 S2TTES_PER_S2TT) ≫= λ _, mret (inl e')) s) → fold_decision idx).
  { intros ty Hta Htc Hmp Hrun. destruct (homogeneous_maps s2_ctx ty level th Hta Hlev Hlen) as (b & Hb & Hiff).
    rewrite Hmp in Hb. injection Hb as <-. destruct (proj1 Hiff eq_refl) as [base Hh].
    destruct (homogeneous_first s2_ctx ty base level th e0 Hta Hh He0 (Hty _ _ He0)) as (Hal & Hm & Hpa).
    rewrite Hpa0 in Hpa. injection Hpa as ->.
    assert (Hok : type_ok s2_ctx ty base (level - 1)) by (destruct ty; try done; simpl; split; (done || lia)).
    pose proof (s2tte_make_ok s2_ctx ty 0 base (level - 1) Hok) as He'.
    left. eexists ty, base, _. split; [done|]. split; [by split; [|eexists]|]. split; [by intros ->|]. fold wi.
    rewrite (Hrun _ He'). unfold fold_refs. rewrite Htc.
    rewrite (bind_run _ _ _ _ _ (granule_refcount_dec_run Hgh ltac:(apply gok_rtt; lia) (u16 S2TTES_PER_S2TT) eq_refl
      ltac:(change (u16 S2TTES_PER_S2TT) with 512; lia))).
    change (u16 S2TTES_PER_S2TT) with 512. by replace (rch - 512) with 0 by lia. }
  assert (Hstep : rtt_fold_entry s2_ctx wi h SLOT_RTT2 level s
    = (lift (s2tt_maps_assigned_empty_block s2_ctx th level) ≫= λ b1,
       lift (if (b1 : bool) then Ok false else s2tt_maps_assigned_ram_block s2_ctx th level) ≫= λ b2,
       lift (if b1 || b2 then Ok false else s2tt_maps_assigned_destroyed_block s2_ctx th level) ≫= λ b3,
       (if (b1 : bool) then lift (s2tte_create_assigned_empty s2_ctx pa0 (level - 1)) ≫= λ e, mret (inl e)
        else if (b2 : bool) then lift (s2tte_create_assigned_ram s2_ctx pa0 (level - 1)) ≫= λ e, mret (inl e)
        else if (b3 : bool) then lift (s2tte_create_assigned_destroyed s2_ctx pa0 (level - 1)) ≫= λ e, mret (inl e)
        else rtt_error level ≫= λ ret, mret (inr ret)) ≫= λ res,
       match res with
       | inl e => granule_refcount_dec h (u16 S2TTES_PER_S2TT) ≫= λ _, mret (inl e)
       | inr ret => mret (inr ret)
       end) s).
  { rewrite Hhead. rewrite (bind_run _ _ _ _ _ (tte_read_run _ _ _ _ _ 0 _ Hslot Hmem Hph ltac:(lia) He0)).
    by run_step (lift_run _ _ _ Hpa0). }
  clear Hhead. destruct (homogeneous_maps s2_ctx AssignedEmpty level th eq_refl Hlev Hlen) as (b1 & Hb1 & Hi1).
  destruct (homogeneous_maps s2_ctx AssignedRam level th eq_refl Hlev Hlen) as (b2 & Hb2 & Hi2).
  destruct (homogeneous_maps s2_ctx AssignedDestroyed level th eq_refl Hlev Hlen) as (b3 & Hb3 & Hi3).
  pose proof Hb1 as Hb1'. pose proof Hb2 as Hb2'. pose proof Hb3 as Hb3'. cbn [s2tt_maps] in Hb1', Hb2', Hb3'.
  rewrite Hb1', Hb2', Hb3' in Hstep.
  destruct b1; [apply (Hacc AssignedEmpty eq_refl eq_refl Hb1); intros e' He'; cbn [s2tte_make] in He';
    rewrite Hstep; cbn [orb]; steps; by rewrite He'|].
  destruct b2; [apply (Hacc AssignedRam eq_refl eq_refl Hb2); intros e' He'; cbn [s2tte_make] in He';
    rewrite Hstep; cbn [orb]; steps; by rewrite He'|].
  destruct b3; [apply (Hacc AssignedDestroyed eq_refl eq_refl Hb3); intros e' He'; cbn [s2tte_make] in He';
    rewrite Hstep; cbn [orb]; steps; by rewrite He'|].
  right. split.
  - apply Hno. intros ty base Hta Htc Hh. exfalso.
    assert (false = true); [|done]. destruct ty; try done; [apply Hi1|apply Hi2|apply Hi3]; by exists base.
  - exists level. split; [by left|]. fold wi. rewrite Hstep. unfold lift, mbind, M_bind. cbn [orb].
    by rewrite rtt_error_run.
Qed.

Lemma fold_decide idx : fold_decision idx.
Proof using Hg Hgh Hrc Hslot Hmem Hph Hlen Hty Hcnt Hlev.
  pose proof (count_range level th Hlen) as Hr.
  destruct (Z.eq_dec rch 0); [by apply fold_unreferenced|]. destruct (Z.eq_dec rch 512); [by apply fold_full|].
  right. split.
  - intros ty base Hh. pose proof (homogeneous_count _ _ _ _ _ Hty Hlen Hh) as Hc. destruct (type_counted ty); lia.
  - exists level. split; [by left|]. unfold rtt_fold_entry.
    run_step (REFCOUNT_run Hgh ltac:(apply gok_rtt; lia)).
    rewrite (bind_run _ _ _ _ _ (read_table_run _ _ _ _ _ Hslot Hmem Hph)).
    rewrite (proj2 (Z.eqb_neq rch 0)), (proj2 (Z.eqb_neq rch (u16 S2TTES_PER_S2TT))) by (done || lia).
    by run_step (rtt_error_run level s).
Qed.
End decide.

(** ** The command *)

Definition fold_tlbi (s2_ctx : s2tt_context) (e' level addr : Z) : list tlb_event :=
  if s2tte_is_assigned_ram e' (level - 1) || s2tte_is_assigned_ns e' (level - 1)
  then block_tlbi s2_ctx addr else page_tlbi s2_ctx addr.

Lemma fold_invalidate_run s2_ctx e' level addr s :
  0 <= vmid s2_ctx < 2 ^ 16 →
  (if s2tte_is_assigned_ram e' (level - 1) || s2tte_is_assigned_ns e' (level - 1)
   then s2tt_invalidate_pages_in_block s2_ctx addr else s2tt_invalidate_block s2_ctx addr) s
  = Ok ((), set_tlbi (fold_tlbi s2_ctx e' level addr ++ tlbi s) s).
Proof.
  intros Hv. unfold fold_tlbi. destruct (_ || _); [by apply s2tt_invalidate_pages_run|by apply s2tt_invalidate_page_run].
Qed.

Lemma fold_unlink_run s s2_ctx g rc tag p t i map_addr level e h pa rch tagh ph th :
  rtt_view s g rc tag p t → rtt_view s h rch tagh ph th → h ≠ g → slots s = ∅ →
  0 <= vmid s2_ctx < 2 ^ 16 → 0 <= s2_addr_to_idx map_addr i < 512 →
  t !! Z.to_nat (s2_addr_to_idx map_addr i) = Some e → i = level - 1 → s2tte_is_table e i = true →
  is_u64 pa → s2tte_pa s2_ctx e i = Ok pa → addr_to_granule pa = Ok h → 1 <= rc →
  (∀ k e, th !! k = Some e → ∃ ty pa, is_made s2_ctx ty pa level e) → rch = count level th →
  min_starting_level s2_ctx < level <= 3 →
  let run := rtt_fold_unlink s2_ctx {| g_llt := g; windex := s2_addr_to_idx map_addr i; last_level := i |}
               map_addr level (put_granule g (Gr true GRANULE_STATE_RTT rc tag) s) in
  (∃ ty base e', homogeneous s2_ctx ty base level th ∧ is_made s2_ctx ty base (level - 1) e' ∧ ty ≠ Table ∧
     run = Ok ((RMI_SUCCESS, Some pa),
       put_granule g (Gr true GRANULE_STATE_RTT (rc - 1 + Z.b2z (type_counted ty)) tag)
         (set_page h GRANULE_STATE_DELEGATED 0 tagh PZero
           (set_rtt g (rc - 1 + Z.b2z (type_counted ty)) tag
              (<[Z.to_nat (s2_addr_to_idx map_addr i) := e']> t) (fold_tlbi s2_ctx e' level map_addr) s)))) ∨
  ((∀ ty base, homogeneous s2_ctx ty base level th → is_assigned_type ty = true ∧ level <= 1) ∧
   ∃ l, (l = level ∨ l = i) ∧
     run = Ok ((rtt_code l, None), put_granule g (Gr true GRANULE_STATE_RTT rc tag) s)).
Proof using L HL.
  intros [Hadr Hg Hb Hmem Hp Hlen] [Hadrh Hgh Hbh Hmemh Hph Hlenh] Hne Hs Hv Hidx He Hi Hist Hu Hpa Hh Hrc1 Hty Hcnt Hlev run.
  assert (HsN : ∀ k : Z, slots s !! k = None) by (intros; by rewrite Hs). clear Hs.
  pose proof (HsN SLOT_RTT) as Hs1. pose proof (HsN SLOT_RTT2) as Hs2.
  set (s2 := set_slots (<[SLOT_RTT2 := h]> (<[SLOT_RTT := g]> (slots s)))
    (put_granule h (Gr true GRANULE_STATE_RTT rch tagh) (put_granule g (Gr true GRANULE_STATE_RTT rc tag) s))).
  assert (Hdec : fold_decision s2_ctx g rc tag h tagh i level th s2 (s2_addr_to_idx map_addr i)).
  { apply (fold_decide s2_ctx g rc tag h rch tagh i level ph th s2);
      first [done | lia | cbn; lk_solve]. }
  assert (Hhead : run = (rtt_fold_entry s2_ctx {| g_llt := g; windex := s2_addr_to_idx map_addr i; last_level := i |}
       h SLOT_RTT2 level ≫= λ res,
       (match res with
       | inr ret => mret (ret, None)
       | inl e =>
           tte_write SLOT_RTT (s2_addr_to_idx map_addr i) 0 ≫= λ _,
           (if s2tte_is_assigned_ram e (level - 1) || s2tte_is_assigned_ns e (level - 1)
            then s2tt_invalidate_pages_in_block s2_ctx map_addr
            else s2tt_invalidate_block s2_ctx map_addr) ≫= λ _,
           tte_write SLOT_RTT (s2_addr_to_idx map_addr i) e ≫= λ _,
           granule_memzero_mapped SLOT_RTT2 ≫= λ _,
           granule_set_state h GRANULE_STATE_DELEGATED ≫= λ _,
           mret (RMI_SUCCESS, Some pa)
       end ≫= λ ret, buffer_unmap SLOT_RTT2 ≫= λ _, granule_unlock h ≫= λ _, mret ret) ≫= λ ret,
       buffer_unmap SLOT_RTT ≫= λ _, mret ret) s2).
  { unfold run, rtt_fold_unlink, s2. cbn [windex last_level g_llt]. subst i. rewrite Z.eqb_refl. cbn [negb].
    st_norm. exec map_assert_run. exec tte_read_run. rewrite Hist. cbn [negb]. steps. exec (lift_run _ _ _ Hpa). steps.
    erewrite bind_run; [|eapply (find_lock_table _ h pa rch tagh); [done|done|lk_solve|done]]. st_norm. steps.
    run_step (massert_run _ _ eq_refl). steps. run_step (mderef_run _ _ _ eq_refl). steps.
    exec map_assert_run. steps. done. }
  rewrite Hhead. clear Hhead run. destruct Hdec as [(ty & base & e' & Hh' & Hm' & Hnt & Hrun)|[Hno (l & Hl & Hrun)]].
  - left. exists ty, base, e'. split; [done|]. split; [done|]. split; [done|]. rewrite (bind_run _ _ _ _ _ Hrun).
    steps. pose proof (homogeneous_count _ _ _ _ _ Hty Hlenh Hh') as Hc. rewrite <- Hcnt in Hc. clear Hcnt.
    unfold fold_refs, s2. destruct (type_counted ty); subst rch; cbn [Z.b2z]; st_norm.
    all: exec tte_write_run; steps; exec fold_invalidate_run; steps; exec tte_write_run; steps.
    all: unfold granule_memzero_mapped; exec write_page_run; steps; exec granule_set_state_run; steps.
    all: exec buffer_unmap_run; steps; exec granule_unlock_run; steps; exec buffer_unmap_run.
    all: unfold mret, M_ret; do 2 f_equal; rewrite list_insert_insert_eq.
    + replace (rc - 1 + 1) with rc by lia. state_solve.
    + replace (rc - 1 + 0) with (rc - 1) by lia. state_solve.
  - right. split; [done|]. exists l. split; [done|]. rewrite (bind_run _ _ _ _ _ Hrun). unfold s2. steps. st_norm.
    exec buffer_unmap_run. steps. exec granule_unlock_run. steps. exec buffer_unmap_run.
    unfold mret, M_ret. do 2 f_equal. state_solve.
Qed.

(** A homogeneous table points to no table. *)
Lemma homogeneous_leaf s2_ctx ty base level t k x :
  (∀ k e, t !! k = Some e → ∃ ty pa, is_made s2_ctx ty pa level e) → homogeneous s2_ctx ty base level t →
  level < 3 → t !! k = Some x → entry_is_table x = false.
Proof.
  intros Hty Hh Hl Hx. destruct (Hty k x Hx) as (ty' & pa & Hm).
  eapply made_not_table; [done|done|]. intros ->. pose proof (homogeneous_is _ _ _ _ _ _ _ Hh Hx) as Hi.
  rewrite (made_is _ _ _ _ _ ty Hm) in Hi. apply bool_decide_eq_true in Hi as ->. done.
Qed.

End fold.

#[local] Instance fold_config : Config := plain_config.

