(* ===== verification/RttCreate.v ===== *)
(** RTT_CREATE (runtime/rmi/rtt.c): a delegated granule becomes a table below an entry that
    is not a table, and its entries say what the entry said. *)
From S2P Require Import Prelude Types Granule Platform GranuleFind S2tte S2tt Buffer Delegate Walk Exec Realm Rtt RttTree RttFold.

Section create.
Context {P : Platform} {H : Machine} {CF : Config} {L : PlatformLaws P} {HL : MachineLaws P H}.

(** The table [th] at [level] says what an entry of type [ty] and address [pa] said. *)
Definition unfolds (s2_ctx : s2tt_context) (ty : s2tte_type) (pa level : Z) (th : list Z) : Prop :=
  length th = 512%nat ∧
  ∀ k x, th !! k = Some x →
    is_made s2_ctx ty (if type_has_pa ty then pa + Z.of_nat k * s2tte_map_size level else 0) level x.

Definition create_tlbi (s2_ctx : s2tt_context) (ty : s2tte_type) (addr : Z) : list tlb_event :=
  match ty with AssignedRam | AssignedNs => page_tlbi s2_ctx addr | _ => [] end.

Lemma unfolds_count s2_ctx ty pa level th :
  unfolds s2_ctx ty pa level th → count level th = if type_counted ty then 512 else 0.
Proof.
  intros [Hlen Hm]. unfold count. rewrite (filter_const _ (type_counted ty)), Hlen; [by destruct (type_counted ty)|].
  intros x [k Hk]%list_elem_of_lookup. by rewrite (counted_made _ _ _ _ _ (Hm k x Hk)).
Qed.

(** The tables that the code fills in. *)
Lemma unfolds_uniform s2_ctx ty pa level e :
  is_unassigned_type ty = true → min_starting_level s2_ctx <= level <= 3 →
  s2tte_make s2_ctx ty 0 0 level = Ok e → unfolds s2_ctx ty pa level (s2tt_fill e).
Proof.
  intros Ht Hl He. split; [done|]. intros k x [-> _]%lookup_replicate.
  assert (Hok : type_ok s2_ctx ty 0 level) by (by destruct ty).
  destruct ty; try done; (split; [done|by exists 0]).
Qed.

Lemma unfolds_block s2_ctx ty attrs pa level e :
  is_assigned_type ty = true → level <= 3 → is_made s2_ctx ty pa (level - 1) e →
  ∃ th, s2tt_init s2_ctx ty attrs pa level = Ok th ∧ unfolds s2_ctx ty pa level th ∧ 1 < level.
Proof.
  intros Ht Hl [Hok _].
  assert (Hal : 1 <= level - 1 ∧ lvl_aligned (enable_lpa2 s2_ctx) (level - 1) pa) by (destruct ty; try done; simpl in Hok; naive_solver).
  destruct Hal as [Hl1 Hal]. destruct (s2tt_init_run s2_ctx ty attrs pa level Ht ltac:(lia) Hal) as (th & Hi & Hlen & Hm & _).
  exists th. split; [done|]. split; [|lia]. split; [done|]. intros k x Hx.
  replace (type_has_pa ty) with true by (by destruct ty). by apply Hm.
Qed.

(** The state inside the command: the parent [g] and the new table [h] are locked. *)
Definition both_locked (g rc tag h st rch tagh : Z) (s : state) : state :=
  put_granule g (Gr true GRANULE_STATE_RTT rc tag) (put_granule h (Gr true st rch tagh) s).

Section link.
Context (s : state) (s2_ctx : s2tt_context) (g rc tag : Z) (p : page) (t : list Z) (i map_addr level e : Z).
Context (ty : s2tte_type) (pa h tagh rtt_addr e' : Z).
Hypothesis Hview : rtt_view s g rc tag p t.
Hypothesis Hne : h ≠ g.
Hypothesis Hadrh : has_addr h.
Hypothesis Hs : slots s = ∅.
Hypothesis Hv : 0 <= vmid s2_ctx < 2 ^ 16.
Hypothesis Hidx : 0 <= s2_addr_to_idx map_addr i < 512.
Hypothesis He : t !! Z.to_nat (s2_addr_to_idx map_addr i) = Some e.
Hypothesis Hi : i = level - 1.
Hypothesis Hl3 : level <= 3.
Hypothesis Hmin : min_starting_level s2_ctx <= i.
Hypothesis Hm : is_made s2_ctx ty pa i e.
Hypothesis Hcr : s2tte_create_table s2_ctx rtt_addr i = Ok e'.

(** Both granules mapped. *)
Definition both_mapped : state :=
  set_slots (<[SLOT_DELEGATED := h]> (<[SLOT_RTT := g]> (slots s)))
    (both_locked g rc tag h GRANULE_STATE_DELEGATED 0 tagh s).

Lemma create_head :
  rtt_create_link s2_ctx
    {| g_llt := g; windex := s2_addr_to_idx map_addr i; last_level := i |} h rtt_addr map_addr level (both_locked g rc tag h GRANULE_STATE_DELEGATED 0 tagh s)
  = (rtt_create_init s2_ctx
       {| g_llt := g; windex := s2_addr_to_idx map_addr i; last_level := i |} h SLOT_RTT SLOT_DELEGATED e map_addr level ≫= λ err,
     match err with
     | Some ret => mret ret
     | None =>
         granule_set_state h GRANULE_STATE_RTT ≫= λ _,
         lift (s2tte_create_table s2_ctx rtt_addr (level - 1)) ≫= λ e,
         tte_write SLOT_RTT (s2_addr_to_idx map_addr i) e ≫= λ _, mret RMI_SUCCESS
     end ≫= λ ret,
     buffer_unmap SLOT_DELEGATED ≫= λ _,
     buffer_unmap SLOT_RTT ≫= λ _, mret ret) both_mapped.
Proof using Hview Hne Hadrh Hs Hidx He Hi L HL.
  destruct Hview as [Hadr Hg Hb Hmem Hp Hlen]. unfold rtt_create_link, both_mapped, both_locked.
  assert (HsN : ∀ k : Z, slots s !! k = None) by (intros; by rewrite Hs).
  pose proof (HsN SLOT_RTT) as Hs1. pose proof (HsN SLOT_DELEGATED) as Hs2.
  cbn [windex last_level g_llt]. rewrite Hi, Z.eqb_refl. rewrite Hi in He, Hidx. cbn [negb].
  st_norm. exec map_assert_run. exec tte_read_run. exec map_assert_run. done.
Qed.

(** The classifiers on the parent's entry. *)
Lemma create_tests ty' : s2tte_is ty' e (level - 1) = bool_decide (ty' = ty).
Proof using Hm Hi. rewrite <- Hi. by apply (made_is _ _ _ _ _ ty' Hm). Qed.

Ltac create_tests :=
  unfold rtt_create_init; cbv zeta; cbn [windex last_level g_llt];
  pose proof (create_tests UnassignedEmpty) as H1; pose proof (create_tests UnassignedRam) as H2;
  pose proof (create_tests UnassignedNs) as H3; pose proof (create_tests UnassignedDestroyed) as H4;
  pose proof (create_tests AssignedDestroyed) as H5; pose proof (create_tests AssignedEmpty) as H6;
  pose proof (create_tests AssignedRam) as H7; pose proof (create_tests AssignedNs) as H8;
  pose proof (create_tests Table) as H9; cbn [s2tte_is] in *;
  rewrite H1, H2, H3, H4, H5, H6, H7, H8, H9; clear H1 H2 H3 H4 H5 H6 H7 H8 H9.

Lemma create_table_run :
  ty = Table →
  rtt_create_link s2_ctx {| g_llt := g; windex := s2_addr_to_idx map_addr i; last_level := i |} h rtt_addr map_addr level
    (both_locked g rc tag h GRANULE_STATE_DELEGATED 0 tagh s)
  = Ok (rtt_code i, both_locked g rc tag h GRANULE_STATE_DELEGATED 0 tagh s).
Proof using Hview Hne Hadrh Hs Hidx He Hi Hm L HL.
  clear Hcr Hmin. intros Ht. rewrite create_head. create_tests. rewrite Ht. which_type.
  assert (HsN : ∀ k : Z, slots s !! k = None) by (intros; by rewrite Hs).
  pose proof (HsN SLOT_RTT) as Hs1. pose proof (HsN SLOT_DELEGATED) as Hs2.
  unfold both_mapped, both_locked. st_norm. steps. exec rtt_error_run. steps. exec buffer_unmap_run.
  exec buffer_unmap_run. unfold mret, M_ret. rewrite <- Hi. do 2 f_equal. state_solve.
Qed.

(** The final state before the locks are released. *)
Definition linked (th : list Z) : state :=
  both_locked g (rc + 1 - Z.b2z (type_counted ty)) tag h GRANULE_STATE_RTT (if type_counted ty then 512 else 0) tagh
    (set_page h GRANULE_STATE_RTT (if type_counted ty then 512 else 0) tagh (PTable th)
      (set_rtt g (rc + 1 - Z.b2z (type_counted ty)) tag
         (<[Z.to_nat (s2_addr_to_idx map_addr i) := e']> t) (create_tlbi s2_ctx ty map_addr) s)).

(** The end of the command, once the new table is filled. *)
Ltac link_end :=
  exec granule_set_state_run; steps; exec (lift_run _ _ _ Hcr); steps; exec tte_write_run; steps;
  exec buffer_unmap_run; steps; exec buffer_unmap_run; unfold mret, M_ret; do 2 f_equal;
  rewrite ?list_insert_insert_eq; cbn [type_counted Z.b2z create_tlbi];
  rewrite ?Z.add_0_l, ?Z.sub_0_r, ?Z.add_simpl_r.

Lemma create_leaf_run :
  ty ≠ Table →
  ∃ th, unfolds s2_ctx ty pa level th ∧
    rtt_create_link s2_ctx {| g_llt := g; windex := s2_addr_to_idx map_addr i; last_level := i |} h rtt_addr map_addr level
      (both_locked g rc tag h GRANULE_STATE_DELEGATED 0 tagh s) = Ok (RMI_SUCCESS, linked th).
Proof using Hview Hne Hadrh Hs Hv Hidx He Hi Hl3 Hmin Hm Hcr L HL.
  intros Ht. destruct Hview as [Hadr Hg Hb Hmem Hp Hlen].
  assert (HsN : ∀ k : Z, slots s !! k = None) by (intros; by rewrite Hs).
  pose proof (HsN SLOT_RTT) as Hs1. pose proof (HsN SLOT_DELEGATED) as Hs2.
  rewrite create_head. create_tests. unfold linked, both_mapped, both_locked.
  rewrite Hi in He, Hidx, Hcr. rewrite Hi.
  destruct (is_unassigned_type ty) eqn:Hut.
  - exists (match ty with UnassignedEmpty => s2tt_init_unassigned_empty | UnassignedRam => s2tt_init_unassigned_ram
            | UnassignedNs => s2tt_init_unassigned_ns | _ => s2tt_init_unassigned_destroyed end).
    split.
    { destruct ty; try done; apply unfolds_uniform; (done || lia). }
    destruct ty; try done; which_type; steps; exec write_page_run; steps; unfold atomic_granule_get;
      exec granule_refcount_inc_run; steps; link_end; state_solve.
  - assert (Hat : is_assigned_type ty = true) by (by destruct ty).
    destruct (unfolds_block s2_ctx ty e pa level e Hat Hl3 ltac:(by rewrite <- Hi)) as (th & Hth & Hun & Hl1).
    exists th. split; [done|]. 
    assert (Hpa : s2tte_pa s2_ctx e (level - 1) = Ok pa) by (rewrite <- Hi; apply (made_pa _ _ _ _ _ Hm); by destruct ty).
    destruct ty; try done; which_type; cbn [s2tt_init mwhen] in *;
      st_norm; steps; run_step (massert_run _ _ (proj2 (Z.ltb_lt _ _) Hl1)); steps;
      try (exec tte_write_run; steps; exec s2tt_invalidate_page_run; steps);
      exec (lift_run _ _ _ Hpa); steps; exec (lift_run _ _ _ Hth); steps; exec write_page_run; steps;
      unfold atomic_granule_get; exec granule_refcount_inc_run; steps; link_end; state_solve.
Qed.
End link.

(** * Locks of the command *)

(** Locking a granule that is not a table of the realm leaves the tables as they are. *)
Lemma realm_core_lock s r T h gr :
  realm_core s r T → T !! h = None → realm_core (put_granule h gr s) r T.
Proof.
  intros [Hs Hwf] HT. split; [done|]. destruct Hwf as [H1 H2 H3 H4 H5 H6 H7]. split; try done.
  intros g i b Hg. destruct (H6 g i b Hg) as (Hi & Hha & Hgr & Ht). split; [done|]. split; [done|].
  split; [|done]. cbn [put_granule set_granules granules]. rewrite lookup_insert_ne by congruence. done.
Qed.

(** The granule that becomes a table. *)
Lemma new_table s rd_addr g_rd r T rtt_addr h :
  realm_at s rd_addr g_rd r T → is_u64 rtt_addr →
  lockable s rtt_addr GRANULE_STATE_DELEGATED = Some h →
  ∃ tagh, granules s !! h = Some (Gr false GRANULE_STATE_DELEGATED 0 tagh) ∧ has_addr h ∧ h ≠ g_rd ∧
    T !! h = None ∧ granule_addr h = Ok rtt_addr ∧ rtt_addr ≠ rd_addr ∧ 0 <= h.
Proof using L.
  intros Hra Hu Hl. destruct (realm_facts _ _ _ _ _ Hra) as (rc & tag & p & Hg & Hok & _).
  destruct (lockable_quiet _ _ _ _ Hu (ra_quiet _ _ _ _ _ Hra) Hl) as (rch & tagh & Hh & Hokh & Hih & Hadr & Hr).
  assert (rch = 0) as -> by (by apply Z.eqb_eq in Hih).
  pose proof (lockable_find _ _ _ _ Hl) as Hf. apply find_granule_Some in Hf as (_ & _ & Haddr); [|done].
  assert (Hne : h ≠ g_rd).
  { intros ->. rewrite Hg in Hh. apply (inj Some) in Hh. by apply Gr_inj in Hh as (_ & ? & _). }
  exists tagh. split_and!; try done.
  - destruct (T !! h) as [[i b]|] eqn:HT; [|done].
    destruct (wf_table _ _ _ (inv_wf _ _ _ (ra_inv _ _ _ _ _ Hra)) h i b HT) as (_ & _ & (rc' & tag' & Hh' & Hrc') & _).
    rewrite Hh in Hh'. apply (inj Some) in Hh'. apply Gr_inj in Hh' as (_ & ? & _); [done|done|apply gok_rtt; lia].
  - intros ->. pose proof (ra_lock _ _ _ _ _ Hra) as Hrd. apply lockable_find in Hrd, Hl. congruence.
  - apply Hr.
Qed.

(** The two granules locked. *)
Lemma lock_both s rd_addr g_rd r T rtt_addr h tagh rc tag :
  realm_at s rd_addr g_rd r T → is_u64 rtt_addr →
  lockable s rtt_addr GRANULE_STATE_DELEGATED = Some h → h ≠ g_rd → rtt_addr ≠ rd_addr →
  granules s !! h = Some (Gr false GRANULE_STATE_DELEGATED 0 tagh) →
  granules s !! g_rd = Some (Gr false GRANULE_STATE_RD rc tag) → gok GRANULE_STATE_RD rc →
  find_lock_two_granules rtt_addr GRANULE_STATE_DELEGATED rd_addr GRANULE_STATE_RD s
  = Ok (Some (h, g_rd), rd_locked (put_granule h (Gr true GRANULE_STATE_DELEGATED 0 tagh) s) g_rd rc tag).
Proof using L.
  intros Hra Hu Hl Hne Hna Hh Hg Hok.
  rewrite find_lock_two_granules_spec; [|apply (ra_quiet _ _ _ _ _ Hra)|done|apply (ra_u64 _ _ _ _ _ Hra)].
  rewrite Hl, (ra_lock _ _ _ _ _ Hra), (proj2 (Z.eqb_neq _ _)) by done. do 2 f_equal.
  rewrite lock_one_comm by done. rewrite (lock_one_Gr h s _ _ _ Hh) by (by split).
  apply lock_one_Gr; [|done]. cbn. by rewrite lookup_insert_ne.
Qed.

(** The address of a granule fits in a table entry. *)
Lemma rtt_addr_aligned (s2_ctx : s2tt_context) h rtt_addr :
  0 <= h → granule_addr h = Ok rtt_addr → enable_lpa2 s2_ctx || (rtt_addr <? 2 ^ 48) = true →
  lvl_aligned (enable_lpa2 s2_ctx) 3 rtt_addr.
Proof using L.
  intros Hh Ha Hb. destruct (plat_idx_addr h rtt_addr Hh Ha) as ([Hu _] & Hal & Hm & _).
  apply lvl_aligned_arith; [left; lia|]. split; [|by apply granule_aligned_mod].
  destruct (enable_lpa2 s2_ctx); [done|]. apply Z.ltb_lt in Hb. done.
Qed.

(** The arguments that RTT_CREATE accepts. *)
Definition create_args_ok (r : rd) (rtt_addr map_addr level : Z) : bool :=
  structure_args_ok r map_addr level && (enable_lpa2 (s2_ctx r) || (rtt_addr <? 2 ^ 48)).

(** From the locks to the walk, for arguments that are accepted, and the refusal. *)
Section start.
Context (s : state) (rd_addr g_rd : Z) (r : rd) (T : gmap Z (Z * Z)) (rtt_addr map_addr ulevel h : Z).
Hypothesis Hra : realm_at s rd_addr g_rd r T.
Hypothesis Hu : is_u64 rtt_addr.
Hypothesis Hma : is_u64 map_addr.
Hypothesis Hl : lockable s rtt_addr GRANULE_STATE_DELEGATED = Some h.
Let level := s64 ulevel.

Lemma lpa2_guard :
  negb (enable_lpa2 (s2_ctx r)) && (1 .<< S2TT_MAX_PA_BITS <=? rtt_addr)
  = negb (enable_lpa2 (s2_ctx r) || (rtt_addr <? 2 ^ 48)).
Proof.
  change (1 .<< S2TT_MAX_PA_BITS) with (2 ^ 48). rewrite negb_orb. f_equal. by rewrite Z.leb_antisym.
Qed.

Lemma create_refuse :
  create_args_ok r rtt_addr map_addr level = false →
  smc_rtt_create rd_addr rtt_addr map_addr ulevel s = Ok (RMI_ERROR_INPUT, s).
Proof using Hra Hu Hl L HL.
  intros Hargs. destruct (realm_facts _ _ _ _ _ Hra) as (rc & tag & p & Hg & Hok & Hadr & Hm & Hp & _).
  destruct (new_table _ _ _ _ _ _ _ Hra Hu Hl) as (tagh & Hh & Hadrh & Hne & HTh & Haddr & Hna & H0).
  pose proof (inv_wf _ _ _ (ra_inv _ _ _ _ _ Hra)) as Hwf.
  unfold smc_rtt_create. cbv zeta. fold level.
  run_step (lock_both _ _ _ _ _ _ _ _ _ _ Hra Hu Hl Hne Hna Hh Hg Hok).
  set (s0 := put_granule h (Gr true GRANULE_STATE_DELEGATED 0 tagh) s).
  pose proof (realm_core_lock s r T h (Gr true GRANULE_STATE_DELEGATED 0 tagh) (ra_core _ _ _ _ _ Hra) HTh) as Hco.
  fold s0 in Hco. rewrite (rd_open _ _ _ _ Hco _ _ _ _ Hadr Hm Hp).
  run_step (lift_run _ _ _ (validate_structure_run s r T map_addr level Hwf)).
  assert (Hg0 : granules s0 !! g_rd = Some (Gr false GRANULE_STATE_RD rc tag)) by (cbn; by rewrite lookup_insert_ne).
  assert (Hend : (granule_unlock h ≫= λ _, mret RMI_ERROR_INPUT) s0 = Ok (RMI_ERROR_INPUT, s)).
  { unfold s0. st_norm. exec granule_unlock_run. unfold mret, M_ret. do 2 f_equal.
    rewrite insert_insert_eq, insert_id by done. by destruct s. }
  destruct (structure_args_ok r map_addr level) eqn:Hst; cbn [negb]; cbv zeta.
  - rewrite (rd_close _ _ _ _ Hco), lpa2_guard. unfold create_args_ok in Hargs. rewrite Hst in Hargs.
    cbn [andb] in Hargs. rewrite Hargs. cbn [negb]. by rewrite (rd_unlock _ _ _ _ _ Hg0 Hok).
  - by rewrite (rd_close _ _ _ _ Hco), (rd_unlock _ _ _ _ _ Hg0 Hok).
Qed.

Lemma create_start :
  create_args_ok r rtt_addr map_addr level = true →
  ∃ g i b rc tag p t e tagh,
    smc_rtt_create rd_addr rtt_addr map_addr ulevel s =
      (rtt_create_link (s2_ctx r) {| g_llt := g; windex := s2_addr_to_idx map_addr i; last_level := i |}
         h rtt_addr map_addr level ≫= λ ret,
       granule_unlock g ≫= λ _, granule_unlock h ≫= λ _, mret ret)
        (both_locked g rc tag h GRANULE_STATE_DELEGATED 0 tagh s) ∧
    T !! g = Some (i, b) ∧ covers_lvl i b map_addr ∧ rtt_view s g rc tag p t ∧ h ≠ g ∧
    granules s !! h = Some (Gr false GRANULE_STATE_DELEGATED 0 tagh) ∧
    0 <= s2_addr_to_idx map_addr i < 512 ∧ t !! Z.to_nat (s2_addr_to_idx map_addr i) = Some e ∧
    min_starting_level (s2_ctx r) <= i <= 2 ∧ i <= level - 1 ∧ level <= 3 ∧
    (i < level - 1 → entry_is_table e = false) ∧
    (i = level - 1 → b + Z.of_nat (Z.to_nat (s2_addr_to_idx map_addr i)) * s2tte_map_size i = map_addr).
Proof using Hra Hu Hma Hl L HL.
  intros [Hargs Hlpa]%andb_true_iff.
  destruct (realm_facts _ _ _ _ _ Hra) as (rc & tag & p & Hg & Hok & Hadr & Hm & Hp & _).
  destruct (new_table _ _ _ _ _ _ _ Hra Hu Hl) as (tagh & Hh & Hadrh & Hne & HTh & Haddr & Hna & H0).
  pose proof (inv_wf _ _ _ (ra_inv _ _ _ _ _ Hra)) as Hwf. pose proof (wf_start _ _ _ Hwf) as Hst.
  destruct Hma as [Hma0 _]. destruct (structure_args s r T map_addr level Hwf Hargs Hma0) as (H1 & H2 & H3 & H4 & H5).
  set (s0 := put_granule h (Gr true GRANULE_STATE_DELEGATED 0 tagh) s).
  pose proof (realm_core_lock s r T h (Gr true GRANULE_STATE_DELEGATED 0 tagh) (ra_core _ _ _ _ _ Hra) HTh) as Hco.
  fold s0 in Hco.
  assert (Hg0 : granules s0 !! g_rd = Some (Gr false GRANULE_STATE_RD rc tag)) by (cbn; by rewrite lookup_insert_ne).
  destruct (enter_walk _ _ _ _ Hco rc tag map_addr (level - 1) Hg0 Hok ltac:(lia) ltac:(lia)) as
    (g & i & b & rc' & tag' & p' & t & e & Hwalk & HT & Hc & Hview & Hng & Hidx & He & Hi & Hleaf).
  pose proof (min_starting_level_le (s2_ctx r)) as Hmin. assert (Hhg : h ≠ g) by congruence.
  exists g, i, b, rc', tag', p', t, e, tagh. split; [|split_and!; try done; try lia].
  - unfold smc_rtt_create. cbv zeta. fold level. run_step (lock_both _ _ _ _ _ _ _ _ _ _ Hra Hu Hl Hne Hna Hh Hg Hok).
    rewrite (rd_open _ _ _ _ Hco _ _ _ _ Hadr Hm Hp).
    run_step (lift_run _ _ _ (validate_structure_run s r T map_addr level Hwf)). rewrite Hargs. cbn [negb]. cbv zeta.
    rewrite (rd_close _ _ _ _ Hco), lpa2_guard, Hlpa. cbn [negb]. by rewrite Hwalk.
  - destruct Hview as [Ha Hgr Hb Hmem Hpt Hlen]. split; try done.
    unfold s0 in Hgr. cbn in Hgr. by rewrite lookup_insert_ne in Hgr.
  - intros ->. apply covers_start; [lia|lia|done|done].
Qed.
End start.

(** Releasing the two locks of the command. *)
Lemma unlock_both s g rc tag h st rch tagh (ret : Z) :
  g ≠ h → 0 <= rc <= 512 → gok st rch → unlocked_invariant st rch = true →
  granules s !! g = Some (Gr false GRANULE_STATE_RTT rc tag) → granules s !! h = Some (Gr false st rch tagh) →
  (granule_unlock g ≫= λ _, granule_unlock h ≫= λ _, mret ret) (both_locked g rc tag h st rch tagh s) = Ok (ret, s).
Proof.
  intros Hne Hrc Hok Hi Hg Hh. unfold both_locked. st_norm. exec granule_unlock_run.
  erewrite bind_run; [|eapply granule_unlock_run; [lk_solve|done|done|done]].
  st_norm. unfold mret, M_ret. do 2 f_equal. destruct s as [gr m sl v tl ta cs]. cbn in *. f_equal.
  apply map_eq. intros k. destruct (decide (k = h)) as [->|Hk]; [by rewrite lookup_insert_eq|].
  rewrite lookup_insert_ne by done. destruct (decide (k = g)) as [->|Hk']; [by rewrite lookup_insert_eq|].
  by rewrite !lookup_insert_ne.
Qed.

End create.

#[local] Instance create_config : Config := plain_config.

