(* ===== verification/Data.v ===== *)
(** The RMI commands on the data of a realm (runtime/rmi/rtt.c): DATA_CREATE,
    DATA_CREATE_UNKNOWN and DATA_DESTROY, and the propagation of their effect to the
    realms that share the region of the page. *)
From S2P Require Import Prelude Types Granule Platform GranuleFind S2tte S2tt Apt Measurement Buffer Delegate Walk Exec Realm Rtt RttTree.

(** * Validation of arguments *)

Definition validate_data_create_unknown (map_addr : Z) (r : rd) : result Z :=
  if negb (addr_in_par r map_addr) then Ok RMI_ERROR_INPUT
  else
    validate_map_addr map_addr S2TT_PAGE_LEVEL r ≫= λ ok,
    if negb ok then Ok RMI_ERROR_INPUT else Ok RMI_SUCCESS.

Definition validate_data_create (map_addr : Z) (r : rd) : result Z :=
  if negb (get_rd_state_locked r =? REALM_NEW) then Ok RMI_ERROR_REALM
  else validate_data_create_unknown map_addr r.

Section data.
Context {P : Platform} {H : Machine} {CF : Config} {CR : Crypto}.

(** * DATA_CREATE *)

(** The entry of the new page, for a host source [g_src] that is copied and measured, or
    without one; [None] is a failed copy. The descriptor stays mapped at [rdp]. *)
Definition data_create_entry (rdp : Z) (s2_ctx : s2tt_context) (g_data data_addr map_addr : Z)
  (g_src : option Z) (flags s2tte : Z) : M state (option Z) :=
  match g_src with
  | Some g_src =>
      map_assert g_data SLOT_DELEGATED ≫= λ data,
      ns_buffer_read SLOT_NS g_src 0 GRANULE_SIZE ≫= λ '(ns_access_ok, bytes),
      write_page data (PData bytes) ≫= λ _,
      if negb ns_access_ok then
        granule_memzero_mapped data ≫= λ _, buffer_unmap data ≫= λ _, mret None
      else
        read_rd rdp ≫= λ r,
        lift (measurement_data_granule_measure (rim r) (algorithm r) bytes map_addr flags) ≫= λ m,
        write_page rdp (PRd (set_rd_rim m r)) ≫= λ _,
        buffer_unmap data ≫= λ _,
        lift (s2tte_create_assigned_ram s2_ctx data_addr S2TT_PAGE_LEVEL) ≫= λ e, mret (Some e)
  | None =>
      lift (s2tte_create_assigned_unchanged s2_ctx s2tte data_addr S2TT_PAGE_LEVEL) ≫= λ e, mret (Some e)
  end.

(** From the walk to [out_unlock_ll_table]: [ret] and [new_data_state]. *)
Definition data_create_map (rdp : Z) (s2_ctx : s2tt_context) (wi : s2tt_walk) (g_data data_addr map_addr : Z)
  (g_src : option Z) (flags : Z) : M state (Z * Z) :=
  if negb (last_level wi =? S2TT_PAGE_LEVEL) then
    rtt_error (last_level wi) ≫= λ ret, mret (ret, GRANULE_STATE_DELEGATED)
  else
    map_assert (g_llt wi) SLOT_RTT ≫= λ s2tt,
    tte_read s2tt (windex wi) ≫= λ s2tte,
    (if negb (s2tte_is_unassigned s2tte) then
       rtt_error S2TT_PAGE_LEVEL ≫= λ ret, mret (ret, GRANULE_STATE_DELEGATED)
     else
       data_create_entry rdp s2_ctx g_data data_addr map_addr g_src flags s2tte ≫= λ oe,
       match oe with
       | None => mret (RMI_ERROR_INPUT, GRANULE_STATE_DELEGATED)
       | Some e =>
           tte_write s2tt (windex wi) e ≫= λ _,
           atomic_granule_get (g_llt wi) ≫= λ _, mret (RMI_SUCCESS, GRANULE_STATE_DATA)
       end) ≫= λ ret,
    buffer_unmap s2tt ≫= λ _, mret ret.

Definition data_create (rd_addr data_addr map_addr : Z) (g_src : option Z) (flags : Z) : M state Z :=
  find_lock_two_granules data_addr GRANULE_STATE_DELEGATED rd_addr GRANULE_STATE_RD ≫= λ og,
  match og with
  | None => mret RMI_ERROR_INPUT
  | Some (g_data, g_rd) =>
      map_assert g_rd SLOT_RD ≫= λ rdp,
      read_rd rdp ≫= λ r,
      lift (match g_src with
            | Some _ => validate_data_create map_addr r
            | None => validate_data_create_unknown map_addr r
            end) ≫= λ ret,
      (if negb (ret =? RMI_SUCCESS) then mret (ret, GRANULE_STATE_DELEGATED)
       else if negb (enable_lpa2 (s2_ctx r)) && (1 .<< S2TT_MAX_PA_BITS <=? data_addr) then
         mret (RMI_ERROR_INPUT, GRANULE_STATE_DELEGATED)
       else
         granule_lock (g_rtt (s2_ctx r)) GRANULE_STATE_RTT ≫= λ _,
         s2tt_walk_lock_unlock (s2_ctx r) map_addr S2TT_PAGE_LEVEL ≫= λ wi,
         data_create_map rdp (s2_ctx r) wi g_data data_addr map_addr g_src flags ≫= λ ret,
         granule_unlock (g_llt wi) ≫= λ _, mret ret) ≫= λ '(ret, new_data_state),
      buffer_unmap rdp ≫= λ _,
      granule_unlock g_rd ≫= λ _,
      granule_unlock_transition g_data new_data_state ≫= λ _, mret ret
  end.

(** * Propagation to the realms that share a region *)

(** [act] is what is done in the partner realm at the address of the page there. The two
    functions of the source differ only in it. *)
Section propagate.
Context (act : rd → Z → M state ()).

(** The address in the slave's table of regions: the first used region with identifier
    [rid]. *)
Definition slave_region_ipa (sapt : apt) (rid offset : Z) : result (option Z) :=
  first_index (Z.to_nat MAX_MEM_REGIONS) 0 (λ sj,
    if mask_bit (slave_used_mask sapt) sj
    then aget (slave_memory sapt) sj ≫= λ m, Ok (s_region_ID m =? rid)
    else Ok false) ≫= λ o,
  match o with
  | None => Ok None
  | Some sj => aget (slave_memory sapt) sj ≫= λ m, Ok (Some (s_ipa_start m .+ offset))
  end.

Definition master_region_ipa (mapt : apt) (rid offset : Z) : result (option Z) :=
  apt_find_master_by_region_id mapt rid ≫= λ mi,
  if 0 <=? mi then aget (master_memory mapt) mi ≫= λ m, Ok (Some (m_ipa_start m .+ offset))
  else Ok None.

(** The partner realm at [rd_pa]: its address of the page is looked up in its table of
    regions, and [act] runs there. *)
Definition propagate_partner (rd_pa : Z) (find_ipa : apt → result (option Z)) : M state () :=
  find_lock_granule rd_pa GRANULE_STATE_RD ≫= λ og,
  match og with
  | None => mret ()
  | Some g_prd =>
      map_assert g_prd SLOT_RD2 ≫= λ prdp,
      read_rd prdp ≫= λ prd,
      find_lock_granule (apt_pa prd) GRANULE_STATE_APT ≫= λ og_apt,
      match og_apt with
      | None => buffer_unmap prdp ≫= λ _, granule_unlock g_prd
      | Some g_papt =>
          map_assert g_papt SLOT_APT2 ≫= λ paptp,
          read_apt paptp ≫= λ papt,
          lift (find_ipa papt) ≫= λ ipa,
          buffer_unmap paptp ≫= λ _,
          granule_unlock g_papt ≫= λ _,
          match ipa with Some ipa => act prd ipa | None => mret () end ≫= λ _,
          buffer_unmap prdp ≫= λ _, granule_unlock g_prd
      end
  end.

(** The enabled master regions from [pos], [n] left. *)
Fixpoint propagate_to_slaves (n : nat) (a : apt) (pos map_addr : Z) : M state () :=
  match n with
  | O => mret ()
  | S n' =>
      lift (apt_enabled_master_index_at a pos) ≫= λ midx,
      lift (aget (master_memory a) midx) ≫= λ m,
      if (map_addr <? m_ipa_start m) || (m_ipa_start m .+ m_map_size m <=? map_addr) then
        propagate_to_slaves n' a (pos + 1) map_addr
      else
        let offset := map_addr .- m_ipa_start m in
        mfor (Z.of_nat <$> seq 0 (Z.to_nat CSM_MAX_MASTER_SHARES)) (λ si,
          lift (aget (shares m) si) ≫= λ sh,
          if negb (in_use sh) then mret ()
          else propagate_partner (slave_rd_pa sh) (λ sapt, slave_region_ipa sapt (m_region_ID m) offset))
  end.

Fixpoint propagate_to_master (n : nat) (a : apt) (pos map_addr : Z) : M state () :=
  match n with
  | O => mret ()
  | S n' =>
      lift (apt_enabled_slave_index_at a pos) ≫= λ sidx,
      lift (aget (slave_memory a) sidx) ≫= λ m,
      if (map_addr <? s_ipa_start m) || (s_ipa_start m .+ s_map_size m <=? map_addr) then
        propagate_to_master n' a (pos + 1) map_addr
      else
        let offset := map_addr .- s_ipa_start m in
        propagate_partner (master_rd_pa m) (λ mapt, master_region_ipa mapt (s_region_ID m) offset)
  end.

Definition csm_propagate (rd_addr map_addr : Z) : M state () :=
  find_lock_granule rd_addr GRANULE_STATE_RD ≫= λ og,
  match og with
  | None => mret ()
  | Some g_rd =>
      map_assert g_rd SLOT_RD ≫= λ rdp,
      read_rd rdp ≫= λ r,
      (if apt_pa r =? 0 then mret ()
       else
         find_lock_granule (apt_pa r) GRANULE_STATE_APT ≫= λ og_apt,
         match og_apt with
         | None => mret ()
         | Some g_apt =>
             map_assert g_apt SLOT_APT ≫= λ aptp,
             read_apt aptp ≫= λ a,
             propagate_to_slaves (Z.to_nat (apt_enabled_master_len a)) a 0 map_addr ≫= λ _,
             propagate_to_master (Z.to_nat (apt_enabled_slave_len a)) a 0 map_addr ≫= λ _,
             buffer_unmap aptp ≫= λ _, granule_unlock g_apt
         end) ≫= λ _,
      buffer_unmap rdp ≫= λ _, granule_unlock g_rd
  end.
End propagate.

Definition csm_propagate_create (rd_addr data_addr map_addr : Z) : M state () :=
  csm_propagate (λ prd ipa, map_ipa_to_pa prd data_addr ipa ≫= λ _, mret ()) rd_addr map_addr.

Definition csm_propagate_destroy (rd_addr map_addr : Z) : M state () :=
  csm_propagate (λ prd ipa, unmap_ipa_from_rd prd ipa) rd_addr map_addr.

Definition smc_data_create (rd_addr data_addr map_addr src_addr flags : Z) : M state Z :=
  if negb (flags =? RMI_NO_MEASURE_CONTENT) && negb (flags =? RMI_MEASURE_CONTENT) then mret RMI_ERROR_INPUT
  else
    lift (find_granule src_addr) ≫= λ og,
    match og with
    | None => mret RMI_ERROR_INPUT
    | Some g_src =>
        granule_unlocked_state g_src ≫= λ st,
        if negb (st =? GRANULE_STATE_NS) then mret RMI_ERROR_INPUT
        else
          data_create rd_addr data_addr map_addr (Some g_src) flags ≫= λ ret,
          mwhen (ret =? RMI_SUCCESS) (csm_propagate_create rd_addr data_addr map_addr) ≫= λ _, mret ret
    end.

Definition smc_data_create_unknown (rd_addr data_addr map_addr : Z) : M state Z :=
  data_create rd_addr data_addr map_addr None 0 ≫= λ ret,
  mwhen (ret =? RMI_SUCCESS) (csm_propagate_create rd_addr data_addr map_addr) ≫= λ _, mret ret.

(** * DATA_DESTROY *)

(** The page's entry is removed; the address of the page, or the error. *)
Definition data_destroy_entry (s2_ctx : s2tt_context) (wi : s2tt_walk) (s2tt map_addr : Z) : M state (Z + Z) :=
  let remove (s2tte e : Z) (valid : bool) :=
    lift (s2tte_pa s2_ctx s2tte S2TT_PAGE_LEVEL) ≫= λ data_addr,
    tte_write s2tt (windex wi) e ≫= λ _,
    mwhen valid (s2tt_invalidate_page s2_ctx map_addr) ≫= λ _, mret (inl data_addr) in
  if negb (last_level wi =? S2TT_PAGE_LEVEL) then rtt_error (last_level wi) ≫= λ ret, mret (inr ret)
  else
    tte_read s2tt (windex wi) ≫= λ s2tte,
    if s2tte_is_assigned_ram s2tte S2TT_PAGE_LEVEL then remove s2tte s2tte_create_unassigned_destroyed true
    else if s2tte_is_assigned_empty s2tte S2TT_PAGE_LEVEL then remove s2tte s2tte_create_unassigned_empty false
    else if s2tte_is_assigned_destroyed s2tte S2TT_PAGE_LEVEL then
      remove s2tte s2tte_create_unassigned_destroyed false
    else rtt_error S2TT_PAGE_LEVEL ≫= λ ret, mret (inr ret).

Definition smc_data_destroy (rd_addr map_addr : Z) (res : smc_result) : M state smc_result :=
  find_lock_granule rd_addr GRANULE_STATE_RD ≫= λ og,
  match og with
  | None => mret (set_x2 0 (set_x0 RMI_ERROR_INPUT res))
  | Some g_rd =>
      map_assert g_rd SLOT_RD ≫= λ rdp,
      read_rd rdp ≫= λ r,
      lift (if negb (addr_in_par r map_addr) then Ok false
            else validate_map_addr map_addr S2TT_PAGE_LEVEL r) ≫= λ ok,
      if negb ok then
        buffer_unmap rdp ≫= λ _, granule_unlock g_rd ≫= λ _,
        mret (set_x2 0 (set_x0 RMI_ERROR_INPUT res))
      else
        let s2_ctx := s2_ctx r in
        buffer_unmap rdp ≫= λ _,
        granule_lock (g_rtt s2_ctx) GRANULE_STATE_RTT ≫= λ _,
        granule_unlock g_rd ≫= λ _,
        s2tt_walk_lock_unlock s2_ctx map_addr S2TT_PAGE_LEVEL ≫= λ wi,
        map_assert (g_llt wi) SLOT_RTT ≫= λ s2tt,
        data_destroy_entry s2_ctx wi s2tt map_addr ≫= λ out,
        match out with
        | inl data_addr =>
            atomic_granule_put (g_llt wi) ≫= λ _,
            find_lock_granule data_addr GRANULE_STATE_DATA ≫= λ og,
            massert (bool_decide (is_Some og)) ≫= λ _,
            mderef og ≫= λ g_data,
            buffer_granule_memzero g_data SLOT_DELEGATED ≫= λ _,
            granule_unlock_transition g_data GRANULE_STATE_DELEGATED ≫= λ _,
            mret (set_x1 data_addr (set_x0 RMI_SUCCESS res))
        | inr ret => mret (set_x0 ret res)
        end ≫= λ res,
        read_table s2tt ≫= λ t,
        lift (s2tt_skip_non_live_entries s2_ctx map_addr t wi) ≫= λ next,
        buffer_unmap s2tt ≫= λ _,
        granule_unlock (g_llt wi) ≫= λ _,
        mwhen (x0 res =? RMI_SUCCESS) (csm_propagate_destroy rd_addr map_addr) ≫= λ _,
        mret (set_x2 next res)
  end.
End data.
