(* ===== verification/DataCreate.v ===== *)
(** What the data commands do (runtime/rmi/rtt.c): the entries they make, the frames of a
    realm they keep, and DATA_CREATE on every branch. *)
From S2P Require Import Prelude Types Granule Platform GranuleFind S2tte S2tt Apt Measurement Buffer Delegate Walk Exec Realm Rtt RttTree RttFold RttCreate Data.

(** * Entries *)

Section entries.
Context {CF : Config}.

Lemma made_unassigned s2_ctx ty pa i e :
  is_made s2_ctx ty pa i e → s2tte_is_unassigned e = is_unassigned_type ty.
Proof.
  intros Hm. pose proof (made_is _ _ _ _ _ ty Hm) as Ht. rewrite bool_decide_eq_true_2 in Ht by done.
  unfold s2tte_is_unassigned, s2tte_has_hipas.
  destruct ty; try (rewrite (desc_valid_is _ _ _ Ht) by auto; reflexivity); cbn [is_unassigned_type].
  1-4: destruct Hm as [Hok [attrs He]]; rewrite s2tte_make_ok in He by done; by injection He as <-.
  all: apply andb_true_iff in Ht as [_ [_ ->%Z.eqb_eq]%andb_true_iff]; by rewrite andb_false_r.
Qed.

(** The type of an entry once a page is assigned to it and its RIPAS is kept. *)
Definition assign_type (ty : s2tte_type) : s2tte_type :=
  match ty with
  | UnassignedRam => AssignedRam
  | UnassignedDestroyed => AssignedDestroyed
  | _ => AssignedEmpty
  end.

Lemma assign_unchanged s2_ctx ty pa i e data_addr :
  is_made s2_ctx ty pa i e → is_unassigned_type ty = true → lvl_aligned (enable_lpa2 s2_ctx) 3 data_addr →
  ∃ e', s2tte_create_assigned_unchanged s2_ctx e data_addr 3 = Ok e' ∧
        is_made s2_ctx (assign_type ty) data_addr 3 e'.
Proof.
  intros [Hok [attrs He]] Ht Hal. rewrite s2tte_make_ok in He by done.
  assert (Hok' : type_ok s2_ctx (assign_type ty) data_addr 3) by (by destruct ty).
  eexists. split; [|split; [done|exists 0; by apply s2tte_make_ok]].
  unfold s2tte_create_assigned_unchanged. rewrite s2tte_create_assigned_ok; [|done|done|];
    destruct ty; try done; by injection He as <-.
Qed.

Lemma assign_ram s2_ctx data_addr :
  lvl_aligned (enable_lpa2 s2_ctx) 3 data_addr →
  ∃ e', s2tte_create_assigned_ram s2_ctx data_addr 3 = Ok e' ∧ is_made s2_ctx AssignedRam data_addr 3 e'.
Proof.
  intros Hal. assert (Hok : type_ok s2_ctx AssignedRam data_addr 3) by done.
  pose proof (s2tte_make_ok s2_ctx AssignedRam 0 data_addr 3 Hok) as Hr. eexists.
  split; [exact Hr|]. split; [done|]. exists 0. exact Hr.
Qed.
End entries.

(** * Frames of a realm *)

Section frames.
Context {P : Platform} {H : Machine} {CF : Config} {L : PlatformLaws P} {HL : MachineLaws P H}.

(** The tables are as they were. *)
Definition tables_same (T : gmap Z (Z * Z)) (s s' : state) : Prop :=
  ∀ k x, T !! k = Some x → granules s' !! k = granules s !! k ∧ mem s' !! k = mem s !! k.

(** The same up to how an empty table is represented. *)
Definition tables_alike (T : gmap Z (Z * Z)) (s s' : state) : Prop :=
  ∀ k x, T !! k = Some x → granules s' !! k = granules s !! k ∧ table_of s' k = table_of s k.

Lemma tables_same_alike T s s' : tables_same T s s' → tables_alike T s s'.
Proof. intros Hs k x HT. destruct (Hs k x HT) as [Hg Hm]. split; [done|]. unfold table_of. by rewrite Hm. Qed.

Lemma rtt_wf_alike s s' s2_ctx T : rtt_wf s s2_ctx T → tables_alike T s s' → rtt_wf s' s2_ctx T.
Proof.
  intros [H1 H2 H3 H4 H5 H6 H7] Hs. split; try done.
  - intros g i b HT. destruct (H6 g i b HT) as (Hi & Ha & Hg & Ht). split; [done|]. split; [done|].
    rewrite (proj1 (Hs _ _ HT)), (proj2 (Hs _ _ HT)). done.
  - intros g i b t idx e HT. rewrite (proj2 (Hs _ _ HT)). by eapply H7.
Qed.

Lemma rtt_inv_alike s s' s2_ctx T : rtt_inv s s2_ctx T → tables_alike T s s' → rtt_inv s' s2_ctx T.
Proof.
  intros [Hwf Hv Hty Hct Hb Hinj Hp Htop] Hs. split; try done; [by eapply rtt_wf_alike|..].
  - intros g i b t idx e HT. rewrite (proj2 (Hs _ _ HT)). by eapply Hty.
  - intros g i b rc tag t HT. rewrite (proj2 (Hs _ _ HT)), (proj1 (Hs _ _ HT)). by eapply Hct.
  - intros h j c HT Hj. destruct (Hp h j c HT Hj) as (g & b & t & idx & e & pa & HTg & Ht & Hrest).
    exists g, b, t, idx, e, pa. by rewrite (proj2 (Hs _ _ HTg)).
Qed.

Lemma rtt_wf_same s s' s2_ctx T : rtt_wf s s2_ctx T → tables_same T s s' → rtt_wf s' s2_ctx T.
Proof. intros Hwf Hs. by eapply rtt_wf_alike, tables_same_alike. Qed.

Lemma rtt_inv_same s s' s2_ctx T : rtt_inv s s2_ctx T → tables_same T s s' → rtt_inv s' s2_ctx T.
Proof. intros Hinv Hs. by eapply rtt_inv_alike, tables_same_alike. Qed.

Lemma realm_at_alike s s' rd_addr g_rd r T :
  realm_at s rd_addr g_rd r T → tables_alike T s s' → quiescent s' → slots s' = slots s →
  granules s' !! g_rd = granules s !! g_rd → mem s' !! g_rd = mem s !! g_rd → realm_at s' rd_addr g_rd r T.
Proof.
  intros Hra Hs Hq Hsl Hg Hm. eapply realm_at_frame; try done. eapply rtt_inv_alike; [apply (ra_inv _ _ _ _ _ Hra)|done].
Qed.

Lemma tables_same_put T s h gr : T !! h = None → tables_same T s (put_granule h gr s).
Proof.
  intros HT k x Hk. split; [|done]. cbn [put_granule set_granules granules].
  by rewrite lookup_insert_ne by congruence.
Qed.

Lemma tables_same_mem T s h p : T !! h = None → tables_same T s (set_mem (<[h := p]> (mem s)) s).
Proof. intros HT k x Hk. split; [done|]. cbn [set_mem mem]. by rewrite lookup_insert_ne by congruence. Qed.

Lemma tables_same_slots T s m : tables_same T s (set_slots m s).
Proof. by intros k x Hk. Qed.

Lemma tables_same_trans T s1 s2 s3 : tables_same T s1 s2 → tables_same T s2 s3 → tables_same T s1 s3.
Proof. intros H12 H23 k x Hk. destruct (H12 k x Hk), (H23 k x Hk). split; congruence. Qed.

Lemma quiescent_put s h st rc tag :
  quiescent s → gok st rc → unlocked_invariant st rc = true → quiescent (put_granule h (Gr false st rc tag) s).
Proof.
  intros Hq Hok Hi k Hk. cbn [put_granule set_granules granules]. destruct (decide (k = h)) as [->|].
  - rewrite lookup_insert_eq. eexists; split; [done|]. by exists st, rc, tag.
  - rewrite lookup_insert_ne by done. by apply Hq.
Qed.

(** A granule that is no table of the realm and not its descriptor changes. *)
Lemma realm_at_put s rd_addr g_rd r T h st rc tag :
  realm_at s rd_addr g_rd r T → T !! h = None → h ≠ g_rd → gok st rc → unlocked_invariant st rc = true →
  realm_at (put_granule h (Gr false st rc tag) s) rd_addr g_rd r T.
Proof.
  intros Hra HT Hne Hok Hi. eapply realm_at_frame; [done| | |done| |done].
  - eapply rtt_inv_same; [apply (ra_inv _ _ _ _ _ Hra)|by apply tables_same_put].
  - apply quiescent_put; [apply (ra_quiet _ _ _ _ _ Hra)|done|done].
  - cbn. by rewrite lookup_insert_ne.
Qed.

Lemma realm_at_write s rd_addr g_rd r T h p :
  realm_at s rd_addr g_rd r T → T !! h = None → h ≠ g_rd →
  realm_at (set_mem (<[h := p]> (mem s)) s) rd_addr g_rd r T.
Proof.
  intros Hra HT Hne. eapply realm_at_frame; [done| |apply (ra_quiet _ _ _ _ _ Hra)|done|done|].
  - eapply rtt_inv_same; [apply (ra_inv _ _ _ _ _ Hra)|by apply tables_same_mem].
  - cbn. by rewrite lookup_insert_ne.
Qed.

(** The descriptor changes, but not its stage 2 configuration. *)
Lemma realm_at_rd s rd_addr g_rd r T r' :
  realm_at s rd_addr g_rd r T → s2_ctx r' = s2_ctx r →
  realm_at (set_mem (<[g_rd := PRd r']> (mem s)) s) rd_addr g_rd r' T.
Proof using L.
  intros Hra Hc. destruct (realm_facts _ _ _ _ _ Hra) as (rc & tag & p & Hg & Hok & _).
  assert (HT : T !! g_rd = None).
  { destruct (T !! g_rd) as [[i b]|] eqn:HT; [|done]. by destruct (realm_table_ne _ _ _ _ _ _ _ _ Hra HT). }
  destruct Hra as [Hq Hs Hu Hl Hr Hinv]. split; try done.
  - cbn. by rewrite lookup_insert_eq.
  - rewrite Hc. eapply rtt_inv_same; [done|by apply tables_same_mem].
Qed.
End frames.

(** * DATA_CREATE *)

Section create.
Context {P : Platform} {H : Machine} {CF : Config} {CR : Crypto}.
Context {L : PlatformLaws P} {HL : MachineLaws P H} {CL : CryptoLaws CR}.

(** What the arguments are refused with. *)
Definition data_args (measured : bool) (r : rd) (data_addr map_addr : Z) : Z :=
  if measured && negb (rd_state r =? REALM_NEW) then RMI_ERROR_REALM
  else if addr_in_par r map_addr && map_addr_ok r map_addr 3 &&
          (enable_lpa2 (s2_ctx r) || (data_addr <? 2 ^ 48)) then RMI_SUCCESS
  else RMI_ERROR_INPUT.

(** Bytes that a read of the whole host granule [src] returned. *)
Definition host_read (s : state) (src : Z) (ok : bool) (bytes : list Z) : Prop :=
  ∃ s', mem s' = mem s ∧ memcpy_ns_read 512 s' src 0 = (ok, bytes).

Section start.
Context (s : state) (rd_addr g_rd : Z) (r : rd) (T : gmap Z (Z * Z)) (data_addr map_addr h : Z).
Context (g_src : option Z) (flags : Z).
Hypothesis Hra : realm_at s rd_addr g_rd r T.
Hypothesis Hu : is_u64 data_addr.
Hypothesis Hma : is_u64 map_addr.
Hypothesis Hl : lockable s data_addr GRANULE_STATE_DELEGATED = Some h.

Let measured : bool := bool_decide (is_Some g_src).

Definition data_end : Z * Z → M state Z := λ '(ret, new_data_state),
  buffer_unmap SLOT_RD ≫= λ _,
  granule_unlock g_rd ≫= λ _,
  granule_unlock_transition h new_data_state ≫= λ _, mret ret.

Lemma data_validate :
  match g_src with
  | Some _ => validate_data_create map_addr r
  | None => validate_data_create_unknown map_addr r
  end = Ok (if measured && negb (rd_state r =? REALM_NEW) then RMI_ERROR_REALM
            else if addr_in_par r map_addr && map_addr_ok r map_addr 3 then RMI_SUCCESS
            else RMI_ERROR_INPUT).
Proof using Hra.
  pose proof (inv_wf _ _ _ (ra_inv _ _ _ _ _ Hra)) as Hwf. pose proof (wf_start _ _ _ Hwf) as Hst.
  assert (Hun : validate_data_create_unknown map_addr r
    = Ok (if addr_in_par r map_addr && map_addr_ok r map_addr 3 then RMI_SUCCESS else RMI_ERROR_INPUT)).
  { unfold validate_data_create_unknown. destruct (addr_in_par r map_addr); [|done].
    change S2TT_PAGE_LEVEL with 3. rewrite validate_map_addr_run; [|apply (wf_bits52 _ _ _ Hwf)|lia].
    rewrite result_bind_ok. by destruct (map_addr_ok r map_addr 3). }
  unfold measured, validate_data_create, get_rd_state_locked.
  destruct g_src; [|by rewrite Hun]. rewrite bool_decide_eq_true_2 by done. cbn [andb].
  destruct (rd_state r =? REALM_NEW); [exact Hun|done].
Qed.

Lemma data_end_run rcd tagd tagh m st (ret : Z) :
  granules s !! g_rd = Some (Gr false GRANULE_STATE_RD rcd tagd) → gok GRANULE_STATE_RD rcd → h ≠ g_rd →
  0 <= st < 32 → unlocked_invariant st 0 = true →
  data_end (ret, st) (set_mem m (set_slots (<[SLOT_RD := g_rd]> ∅)
      (put_granule g_rd (Gr true GRANULE_STATE_RD rcd tagd)
        (put_granule h (Gr true GRANULE_STATE_DELEGATED 0 tagh) s))))
  = Ok (ret, set_slots ∅ (set_mem m (put_granule h (Gr false st 0 tagh) s))).
Proof using Type.
  clear Hra Hu Hma Hl. intros Hg Hok Hne Hst Hi. unfold data_end, granule_unlock_transition. st_norm.
  exec buffer_unmap_run. exec granule_unlock_run. steps. exec granule_set_state_run. steps. exec granule_unlock_run.
  unfold mret, M_ret. do 2 f_equal; state_solve.
Qed.

(** The state with the two granules locked and the descriptor mapped. *)
Definition data_opened (tagh rcd tagd : Z) : state :=
  set_slots (<[SLOT_RD := g_rd]> ∅)
    (put_granule g_rd (Gr true GRANULE_STATE_RD rcd tagd)
      (put_granule h (Gr true GRANULE_STATE_DELEGATED 0 tagh) s)).

Lemma data_open :
  ∃ tagh rcd tagd,
    granules s !! h = Some (Gr false GRANULE_STATE_DELEGATED 0 tagh) ∧
    granules s !! g_rd = Some (Gr false GRANULE_STATE_RD rcd tagd) ∧ gok GRANULE_STATE_RD rcd ∧
    (∃ p, mem s !! g_rd = Some p ∧ page_rd p = Some r) ∧
    h ≠ g_rd ∧ T !! h = None ∧ has_addr h ∧ granule_addr h = Ok data_addr ∧
    data_create rd_addr data_addr map_addr g_src flags s
    = ((if negb (data_args measured r data_addr map_addr =? RMI_SUCCESS)
        then mret (data_args measured r data_addr map_addr, GRANULE_STATE_DELEGATED)
        else
          granule_lock (g_rtt (s2_ctx r)) GRANULE_STATE_RTT ≫= λ _,
          s2tt_walk_lock_unlock (s2_ctx r) map_addr S2TT_PAGE_LEVEL ≫= λ wi,
          data_create_map SLOT_RD (s2_ctx r) wi h data_addr map_addr g_src flags ≫= λ ret,
          granule_unlock (g_llt wi) ≫= λ _, mret ret) ≫= data_end) (data_opened tagh rcd tagd).
Proof using Hra Hu Hl L HL.
  destruct (realm_facts _ _ _ _ _ Hra) as (rcd & tagd & p & Hg & Hok & Hadr & Hm & Hp & _).
  destruct (new_table _ _ _ _ _ _ _ Hra Hu Hl) as (tagh & Hh & Hadrh & Hne & HTh & Haddr & Hna & H0).
  exists tagh, rcd, tagd. split_and!; try done; [by eauto|].
  pose proof (realm_core_lock s r T h (Gr true GRANULE_STATE_DELEGATED 0 tagh) (ra_core _ _ _ _ _ Hra) HTh) as Hco.
  unfold data_create. run_step (lock_both _ _ _ _ _ _ _ _ _ _ Hra Hu Hl Hne Hna Hh Hg Hok).
  rewrite (rd_open _ _ _ _ Hco _ _ _ _ Hadr Hm Hp). rewrite data_validate.
  rewrite (bind_run _ _ _ _ _ (lift_run _ _ _ eq_refl)). fold (data_opened tagh rcd tagd).
  change (set_slots {[SLOT_RD := g_rd]} (rd_locked _ g_rd rcd tagd)) with (data_opened tagh rcd tagd).
  unfold data_args. rewrite lpa2_guard.
  destruct (measured && negb (rd_state r =? REALM_NEW)); [done|].
  destruct (addr_in_par r map_addr && map_addr_ok r map_addr 3); [|done].
  destruct (enable_lpa2 (s2_ctx r) || (data_addr <? 2 ^ 48)); [|done]. cbn [negb andb].
  change (RMI_SUCCESS =? RMI_SUCCESS) with true. cbn [negb]. done.
Qed.
End start.

(** The walk inside the command. *)
Lemma data_walk s rd_addr g_rd r T map_addr h tagh rcd tagd :
  realm_at s rd_addr g_rd r T → is_u64 map_addr → addr_in_par r map_addr = true → map_addr_ok r map_addr 3 = true →
  T !! h = None → h ≠ g_rd → granules s !! g_rd = Some (Gr false GRANULE_STATE_RD rcd tagd) → gok GRANULE_STATE_RD rcd →
  ∃ g i b rc tag p t e,
    (∀ (B : Type) (k : s2tt_walk → M state B),
      (granule_lock (g_rtt (s2_ctx r)) GRANULE_STATE_RTT ≫= λ _,
       s2tt_walk_lock_unlock (s2_ctx r) map_addr S2TT_PAGE_LEVEL ≫= k) (data_opened s g_rd h tagh rcd tagd)
      = k {| g_llt := g; windex := s2_addr_to_idx map_addr i; last_level := i |}
          (put_granule g (Gr true GRANULE_STATE_RTT rc tag) (data_opened s g_rd h tagh rcd tagd))) ∧
    T !! g = Some (i, b) ∧ covers_lvl i b map_addr ∧ rtt_view s g rc tag p t ∧ g ≠ g_rd ∧ g ≠ h ∧
    0 <= s2_addr_to_idx map_addr i < 512 ∧ t !! Z.to_nat (s2_addr_to_idx map_addr i) = Some e ∧
    min_starting_level (s2_ctx r) <= i <= 3 ∧ (i < 3 → entry_is_table e = false).
Proof using L HL.
  intros Hra [Hma _] Hpar Hok HTh Hne Hg Hgok. pose proof (inv_wf _ _ _ (ra_inv _ _ _ _ _ Hra)) as Hwf.
  assert (HTrd : T !! g_rd = None).
  { destruct (T !! g_rd) as [[i b]|] eqn:HT; [|done]. by destruct (realm_table_ne _ _ _ _ _ _ _ _ Hra HT). }
  assert (Hsame : tables_same T s (data_opened s g_rd h tagh rcd tagd)).
  { eapply tables_same_trans; [by apply (tables_same_put T s h)|].
    eapply tables_same_trans; [by apply (tables_same_put T _ g_rd)|apply tables_same_slots]. }
  pose proof (rtt_wf_same _ _ _ _ Hwf Hsame) as Hwf'. pose proof (wf_start _ _ _ Hwf) as Hst.
  assert (Hbound : map_addr < 2 ^ ipa_bits (s2_ctx r)).
  { apply andb_true_iff in Hok as [?%Z.ltb_lt _]. done. }
  destruct (lock_walk_run _ (s2_ctx r) T map_addr 3 Hwf' eq_refl ltac:(lia) ltac:(lia)) as
    (g & i & b & rc & tag & p & t & e & Hlock & Hwalk & HT & Hc & Hview & Hidx & He & Hi & Hleaf).
  assert (g ≠ g_rd) by congruence. assert (g ≠ h) by congruence.
  exists g, i, b, rc, tag, p, t, e. split_and!; try done; try lia.
  - intros B k. run_step Hlock. by run_step Hwalk.
  - destruct Hview as [Ha Hgr Hb Hm Hp Hlen]. destruct (Hsame g _ HT) as [Hsg Hsm].
    split; try done. by rewrite <- Hsg.
Qed.

(** The states that DATA_CREATE_UNKNOWN and DATA_CREATE leave. *)
Definition data_created (h tagh g rc tag : Z) (t' : list Z) (s : state) : state :=
  put_granule h (Gr false GRANULE_STATE_DATA 0 tagh) (set_rtt g (rc + 1) tag t' [] s).
Definition data_written (h : Z) (bytes : list Z) (g_rd : Z) (r : rd) (s : state) : state :=
  let s := set_mem (<[h := PData bytes]> (mem s)) s in set_mem (<[g_rd := PRd r]> (mem s)) s.

(** The end of the command from the unlocked table. *)
Lemma data_done s g_rd h g rc tag tagh rcd tagd rc' m st (ret : Z) :
  granules s !! g_rd = Some (Gr false GRANULE_STATE_RD rcd tagd) → gok GRANULE_STATE_RD rcd →
  h ≠ g_rd → g ≠ g_rd → g ≠ h → slots s = ∅ → 0 <= rc' <= 512 → 0 <= st < 32 → unlocked_invariant st 0 = true →
  ((granule_unlock g ≫= λ _, mret (ret, st)) ≫= data_end g_rd h)
    (set_mem m (put_granule g (Gr true GRANULE_STATE_RTT rc' tag)
       (put_granule g (Gr true GRANULE_STATE_RTT rc tag) (data_opened s g_rd h tagh rcd tagd))))
  = Ok (ret, set_mem m (put_granule h (Gr false st 0 tagh) (put_granule g (Gr false GRANULE_STATE_RTT rc' tag) s))).
Proof.
  intros Hg Hok Hne Hng Hngh Hs Hrc Hst Hi. unfold data_opened. st_norm. steps. exec granule_unlock_run. steps.
  unfold data_end, granule_unlock_transition.
  exec buffer_unmap_run. exec granule_unlock_run. steps. exec granule_set_state_run. steps. exec granule_unlock_run.
  unfold mret, M_ret. do 2 f_equal. rewrite Hs. state_solve.
Qed.

(** References after an entry is replaced. *)
Lemma set_refs s s2_ctx T g i b rc tag p t idx e e' :
  rtt_inv s s2_ctx T → T !! g = Some (i, b) → rtt_view s g rc tag p t → t !! idx = Some e →
  0 <= rc - Z.b2z (counted i e) + Z.b2z (counted i e') <= 512.
Proof.
  intros Hinv HT [_ Hg Hb Hmem Hp Hlen] He.
  assert (Htab : table_of s g = Some t) by (unfold table_of; by rewrite Hmem).
  pose proof (inv_count _ _ _ Hinv g i b rc tag t HT Htab Hg Hb) as Hc.
  pose proof (count_update i t idx e e' He) as Hu.
  pose proof (count_range i (<[idx := e']> t) ltac:(by rewrite length_insert)). lia.
Qed.

(** The references of the table of a new page. *)
Lemma new_page_refs s s2_ctx T g b rc tag p t idx e ty pa :
  rtt_inv s s2_ctx T → T !! g = Some (3, b) → rtt_view s g rc tag p t → t !! idx = Some e →
  is_made s2_ctx ty pa 3 e → is_unassigned_type ty = true → 0 <= rc + 1 <= 512.
Proof.
  intros Hinv HT Hv He Hm Hty. destruct (assign_ram s2_ctx 0) as (e1 & _ & Hm1); [done|].
  pose proof (set_refs _ _ _ _ _ _ _ _ _ _ _ _ e1 Hinv HT Hv He) as Hsr.
  rewrite (counted_made _ _ _ _ _ Hm), (counted_made _ _ _ _ _ Hm1) in Hsr. destruct ty; simpl in *; (done || lia).
Qed.

(** Reading a whole granule of host memory. *)
Lemma read_source src s :
  has_addr src → slots s !! SLOT_NS = None →
  ∃ ok bytes, ns_buffer_read SLOT_NS src 0 GRANULE_SIZE s = Ok ((ok, bytes), s) ∧ host_read s src ok bytes ∧
    (ok = true → Z.of_nat (length bytes) = 4096).
Proof using L HL.
  intros Hsrc Hs. rewrite (ns_buffer_read_run s src 0 GRANULE_SIZE Hsrc Hs) by done.
  change (Z.to_nat (GRANULE_SIZE / 8)) with 512%nat. change (0 mod 4096) with 0.
  pose proof (memcpy_ns_read_ok 512 (set_slots (<[SLOT_NS := src]> (slots s)) s) src 0) as Hok.
  destruct (memcpy_ns_read 512 _ src 0) as [ok bytes] eqn:Hread. exists ok, bytes. split; [done|].
  split; [by exists (set_slots (<[SLOT_NS := src]> (slots s)) s)|]. destruct Hok as [Hl _].
  intros ->. rewrite Hl by done. done.
Qed.

Section map.
Context (s : state) (g_rd h g rc tag tagh rcd tagd : Z) (p : page) (t : list Z) (map_addr e : Z).
Context (r : rd) (data_addr flags : Z) (prd : page).
Hypothesis Hview : rtt_view s g rc tag p t.
Hypothesis Hne : h ≠ g_rd.
Hypothesis Hng : g ≠ g_rd.
Hypothesis Hngh : g ≠ h.
Hypothesis Hidx : 0 <= s2_addr_to_idx map_addr 3 < 512.
Hypothesis He : t !! Z.to_nat (s2_addr_to_idx map_addr 3) = Some e.
Hypothesis Hadrh : has_addr h.
Hypothesis Hrc : rc + 1 <= 512.
Hypothesis Hprd : mem s !! g_rd = Some prd.
Hypothesis Hr : page_rd prd = Some r.

Let s1 : state := put_granule g (Gr true GRANULE_STATE_RTT rc tag) (data_opened s g_rd h tagh rcd tagd).
Let wi : s2tt_walk := {| g_llt := g; windex := s2_addr_to_idx map_addr 3; last_level := 3 |}.

Lemma data_map_refuse g_src :
  s2tte_is_unassigned e = false →
  data_create_map SLOT_RD (s2_ctx r) wi h data_addr map_addr g_src flags s1
  = Ok ((rtt_code 3, GRANULE_STATE_DELEGATED), s1).
Proof using Hview Hidx He L HL.
  intros Hun. destruct Hview as [Hadr Hg Hb Hm Hp Hlen]. unfold data_create_map, s1, data_opened, wi.
  cbn [last_level g_llt windex]. change (3 =? S2TT_PAGE_LEVEL) with true. cbn [negb]. st_norm.
  exec map_assert_run. exec tte_read_run. rewrite Hun. cbn [negb]. steps. exec rtt_error_run. steps.
  exec buffer_unmap_run. unfold mret, M_ret. do 2 f_equal; state_solve.
Qed.

Lemma data_map_unknown e' :
  s2tte_is_unassigned e = true → s2tte_create_assigned_unchanged (s2_ctx r) e data_addr 3 = Ok e' →
  data_create_map SLOT_RD (s2_ctx r) wi h data_addr map_addr None flags s1
  = Ok ((RMI_SUCCESS, GRANULE_STATE_DATA),
        set_mem (<[g := PTable (<[Z.to_nat (s2_addr_to_idx map_addr 3) := e']> t)]> (mem s))
          (put_granule g (Gr true GRANULE_STATE_RTT (rc + 1) tag) s1)).
Proof using Hview Hidx He Hrc L HL.
  intros Hun He'. destruct Hview as [Hadr Hg Hb Hm Hp Hlen]. unfold data_create_map, s1, data_opened, wi, data_create_entry.
  cbn [last_level g_llt windex]. change (3 =? S2TT_PAGE_LEVEL) with true. cbn [negb]. st_norm.
  exec map_assert_run. exec tte_read_run. rewrite Hun. cbn [negb]. steps.
  exec (lift_run _ _ _ He'). steps. exec tte_write_run. steps. unfold atomic_granule_get.
  exec granule_refcount_inc_run. steps. exec buffer_unmap_run. unfold mret, M_ret. do 2 f_equal; state_solve.
Qed.

(** Up to the copy of the source. *)
Ltac source_head Hread Hun :=
  unfold data_create_map, s1, data_opened, wi, data_create_entry;
  cbn [last_level g_llt windex]; change (3 =? S2TT_PAGE_LEVEL) with true; cbn [negb]; st_norm;
  exec map_assert_run; exec tte_read_run; rewrite Hun; cbn [negb]; steps; exec map_assert_run; steps;
  erewrite bind_run by exact Hread.

Lemma data_map_source src :
  s2tte_is_unassigned e = true → has_addr src → slot_ok (algorithm r) (rim r) → is_u64 map_addr → is_u64 flags →
  lvl_aligned (enable_lpa2 (s2_ctx r)) 3 data_addr →
  ∃ ok bytes, host_read s src ok bytes ∧
    if ok then
      ∃ m e', rim_step (algorithm r) (rim r) (MData bytes map_addr flags) = Ok m ∧ slot_ok (algorithm r) m ∧
        is_made (s2_ctx r) AssignedRam data_addr 3 e' ∧
        data_create_map SLOT_RD (s2_ctx r) wi h data_addr map_addr (Some src) flags s1
        = Ok ((RMI_SUCCESS, GRANULE_STATE_DATA),
              set_mem (<[g := PTable (<[Z.to_nat (s2_addr_to_idx map_addr 3) := e']> t)]>
                        (<[g_rd := PRd (set_rd_rim m r)]> (<[h := PData bytes]> (mem s))))
                (put_granule g (Gr true GRANULE_STATE_RTT (rc + 1) tag) s1))
    else
      data_create_map SLOT_RD (s2_ctx r) wi h data_addr map_addr (Some src) flags s1
      = Ok ((RMI_ERROR_INPUT, GRANULE_STATE_DELEGATED), set_mem (<[h := PZero]> (mem s)) s1).
Proof using Hview Hne Hng Hngh Hidx He Hadrh Hrc Hprd Hr L HL CL.
  intros Hun Hsrc Hslot Hma Hfl Hal. destruct Hview as [Hadr Hg Hb Hm Hp Hlen].
  destruct (assign_ram (s2_ctx r) data_addr Hal) as (e' & Hce & Hme).
  set (sx := set_slots (<[SLOT_DELEGATED := h]> (<[SLOT_RTT := g]> (<[SLOT_RD := g_rd]> ∅))) s1).
  destruct (read_source src sx Hsrc eq_refl) as (ok & bytes & Hread & Hhost & Hbytes).
  exists ok, bytes. split; [exact Hhost|].
  destruct ok; cycle 1.
  { source_head Hread Hun. cbn [negb]. steps. unfold sx, s1, data_opened. st_norm. exec write_page_run. steps.
    unfold granule_memzero_mapped. exec write_page_run. steps. exec buffer_unmap_run. steps.
    exec buffer_unmap_run. unfold mret, M_ret. do 2 f_equal; state_solve. }
  destruct Hslot as [m0 Hm0].
  pose proof (rim_step_run (algorithm r) m0 (MData bytes map_addr flags) (conj (Hbytes eq_refl) (conj Hma Hfl))) as Hstep.
  rewrite <- Hm0 in Hstep.
  exists (slot_of (algorithm r) (desc_msg (algorithm r) (rim r) (MData bytes map_addr flags))), e'.
  split; [exact Hstep|]. split; [by eexists|]. split; [done|]. cbn [rim_step] in Hstep.
  source_head Hread Hun. cbn [negb]. steps. unfold sx, s1, data_opened. st_norm.
  exec write_page_run. steps. exec read_rd_run. steps. exec (lift_run _ _ _ Hstep). steps.
  exec write_page_run. steps. exec buffer_unmap_run. steps. exec (lift_run _ _ _ Hce). steps.
  exec tte_write_run. steps. unfold atomic_granule_get. exec granule_refcount_inc_run. steps.
  exec buffer_unmap_run. unfold mret, M_ret. do 2 f_equal; state_solve.
Qed.
End map.

(** The realm after a page was added. *)
Lemma data_created_realm s rd_addr g_rd r T g b rc tag p t idx e ty pa h tagh data_addr e' ty' :
  realm_at s rd_addr g_rd r T → T !! g = Some (3, b) → rtt_view s g rc tag p t →
  t !! idx = Some e → is_made (s2_ctx r) ty pa 3 e → is_unassigned_type ty = true →
  is_made (s2_ctx r) ty' data_addr 3 e' → type_counted ty' = true → ty' ≠ Table →
  T !! h = None → h ≠ g_rd →
  realm_at (data_created h tagh g rc tag (<[idx := e']> t) s) rd_addr g_rd r T.
Proof using L.
  intros Hra HT Hview He Hm Hty Hm' Hcn Hnt HTh Hne. unfold data_created.
  apply realm_at_put; [|done|done|done|done].
  eapply realm_at_set; [done|by eapply realm_table_ne|done|done|done|exact Hm|by intros ->|exact Hm'|done|].
  rewrite (counted_made _ _ _ _ _ Hm), (counted_made _ _ _ _ _ Hm'), Hcn. destruct ty; simpl in *; (done || lia).
Qed.

(** DATA_CREATE and DATA_CREATE_UNKNOWN without the propagation, on every branch. *)
Lemma data_create_run s rd_addr g_rd r T data_addr map_addr g_src flags :
  realm_at s rd_addr g_rd r T → is_u64 data_addr → is_u64 map_addr → is_u64 flags →
  slot_ok (algorithm r) (rim r) → (∀ src, g_src = Some src → has_addr src) →
  let run := data_create rd_addr data_addr map_addr g_src flags s in
  let args := data_args (bool_decide (is_Some g_src)) r data_addr map_addr in
  match lockable s data_addr GRANULE_STATE_DELEGATED with
  | None => run = Ok (RMI_ERROR_INPUT, s)
  | Some h =>
      if args =? RMI_SUCCESS then
        ∃ g i b rc tag p t e ty pa tagh, T !! g = Some (i, b) ∧ covers_lvl i b map_addr ∧
          rtt_view s g rc tag p t ∧ t !! Z.to_nat (s2_addr_to_idx map_addr i) = Some e ∧
          is_made (s2_ctx r) ty pa i e ∧ (i < 3 → ty ≠ Table) ∧
          granules s !! h = Some (Gr false GRANULE_STATE_DELEGATED 0 tagh) ∧
          if (i =? 3) && is_unassigned_type ty then
            match g_src with
            | None =>
                ∃ e' s', is_made (s2_ctx r) (assign_type ty) data_addr 3 e' ∧
                  s' = data_created h tagh g rc tag (<[Z.to_nat (s2_addr_to_idx map_addr i) := e']> t) s ∧
                  run = Ok (RMI_SUCCESS, s') ∧ realm_at s' rd_addr g_rd r T
            | Some src =>
                ∃ ok bytes, host_read s src ok bytes ∧
                  if ok then
                    ∃ m e' s', rim_step (algorithm r) (rim r) (MData bytes map_addr flags) = Ok m ∧
                      slot_ok (algorithm r) m ∧ is_made (s2_ctx r) AssignedRam data_addr 3 e' ∧
                      s' = data_created h tagh g rc tag (<[Z.to_nat (s2_addr_to_idx map_addr i) := e']> t)
                             (data_written h bytes g_rd (set_rd_rim m r) s) ∧
                      run = Ok (RMI_SUCCESS, s') ∧ realm_at s' rd_addr g_rd (set_rd_rim m r) T
                  else run = Ok (RMI_ERROR_INPUT, set_mem (<[h := PZero]> (mem s)) s)
            end
          else run = Ok (rtt_code i, s)
      else run = Ok (args, s)
  end.
Proof using L HL CL.
  intros Hra Hu Hma Hfl Hslot Hsrc run args.
  destruct (lockable s data_addr GRANULE_STATE_DELEGATED) as [h|] eqn:Hl; cycle 1.
  { pose proof (find_lock_two_granules_spec s data_addr GRANULE_STATE_DELEGATED rd_addr GRANULE_STATE_RD
      (ra_quiet _ _ _ _ _ Hra) Hu (ra_u64 _ _ _ _ _ Hra)) as Hf. rewrite Hl in Hf.
    unfold run, data_create. by run_step Hf. }
  destruct (data_open s rd_addr g_rd r T data_addr map_addr h g_src flags Hra Hu Hl) as
    (tagh & rcd & tagd & Hh & Hg & Hok & (prd & Hprd & Hr) & Hne & HTh & Hadrh & Haddr & Hrun).
  unfold run. rewrite Hrun. fold args. clear run Hrun. pose proof (ra_slots _ _ _ _ _ Hra) as Hs.
  destruct (Z.eqb_spec args RMI_SUCCESS) as [Hargs|Hargs]; cbn [negb]; cycle 1.
  { rewrite ret_bind. change (data_opened s g_rd h tagh rcd tagd) with (set_mem (mem s) (data_opened s g_rd h tagh rcd tagd)).
    unfold data_opened. rewrite data_end_run by done. do 2 f_equal.
    st_norm. rewrite insert_id by done. rewrite <- Hs. by destruct s. }
  assert (Hall : addr_in_par r map_addr = true ∧ map_addr_ok r map_addr 3 = true ∧
    enable_lpa2 (s2_ctx r) || (data_addr <? 2 ^ 48) = true).
  { unfold args, data_args in Hargs. destruct (_ && negb _); [done|].
    destruct (_ && _ && _) eqn:Hb in Hargs; [|done]. by apply andb_true_iff in Hb as [[? ?]%andb_true_iff ?]. }
  destruct Hall as (Hpar & Hmo & Hlpa).
  pose proof (rtt_addr_aligned (s2_ctx r) h data_addr (proj1 Hadrh) Haddr Hlpa) as Hal.
  destruct (data_walk s rd_addr g_rd r T map_addr h tagh rcd tagd Hra Hma Hpar Hmo HTh Hne Hg Hok) as
    (g & i & b & rc & tag & p & t & e & Hwalk & HT & Hc & Hview & Hng & Hngh & Hidx & He & Hi & Hleaf).
  pose proof (ra_inv _ _ _ _ _ Hra) as Hinv. pose proof Hview as [Hadr Hgr Hb Hmem Hp Hlen].
  assert (Htab : table_of s g = Some t) by (unfold table_of; by rewrite Hmem).
  destruct (inv_typed _ _ _ Hinv g i b t _ e HT Htab He) as (ty & pa & Hm).
  exists g, i, b, rc, tag, p, t, e, ty, pa, tagh. do 5 (split; [done|]). split.
  { intros Hlt ->. destruct (table_made_phys _ _ _ _ Hm) as [Het _]. by rewrite Hleaf in Het. }
  split; [done|]. erewrite bind_cong by apply Hwalk. cbn [g_llt].
  set (s1 := put_granule g (Gr true GRANULE_STATE_RTT rc tag) (data_opened s g_rd h tagh rcd tagd)).
  assert (Hback : ∀ ret, ((granule_unlock g ≫= λ _, mret (ret, GRANULE_STATE_DELEGATED)) ≫= data_end g_rd h) s1
    = Ok (ret, s)).
  { intros ret. pose proof (data_done s g_rd h g rc tag tagh rcd tagd rc (mem s) GRANULE_STATE_DELEGATED ret
      Hg Hok Hne Hng Hngh Hs Hb ltac:(done) eq_refl) as Hd.
    unfold s1. rewrite put_granule_put in Hd. etransitivity; [exact Hd|]. do 2 f_equal. st_norm.
    rewrite (insert_id _ g) by done. rewrite insert_id by done. by destruct s. }
  assert (Hstep : ∀ ret sm,
    data_create_map SLOT_RD (s2_ctx r) {| g_llt := g; windex := s2_addr_to_idx map_addr i; last_level := i |}
      h data_addr map_addr g_src flags s1 = Ok (ret, sm) →
    ((data_create_map SLOT_RD (s2_ctx r) {| g_llt := g; windex := s2_addr_to_idx map_addr i; last_level := i |}
      h data_addr map_addr g_src flags ≫= λ ret, granule_unlock g ≫= λ _, mret ret) ≫= data_end g_rd h) s1
    = ((granule_unlock g ≫= λ _, mret ret) ≫= data_end g_rd h) sm).
  { intros ret sm Hmap. apply bind_cong. by run_step Hmap. }
  fold s1. destruct (Z.eqb_spec i 3) as [->|Hi3]; cbn [andb]; cycle 1.
  { erewrite Hstep; [apply Hback|]. unfold data_create_map. cbn [last_level]. change S2TT_PAGE_LEVEL with 3.
    rewrite (proj2 (Z.eqb_neq _ _)) by done. cbn [negb]. by run_step (rtt_error_run i s1). }
  pose proof (made_unassigned _ _ _ _ _ Hm) as Hun. destruct (is_unassigned_type ty) eqn:Hty; cycle 1.
  { erewrite Hstep; [apply Hback|]. by eapply data_map_refuse. }
  pose proof (new_page_refs _ _ _ _ _ _ _ _ _ _ _ _ _ Hinv HT Hview He Hm Hty) as Hrc.
  destruct g_src as [src|].
  - destruct (data_map_source s g_rd h g rc tag tagh rcd tagd p t map_addr e r data_addr flags prd Hview Hne Hng Hngh
      Hidx He Hadrh ltac:(lia) Hprd Hr src Hun (Hsrc src eq_refl) Hslot Hma Hfl Hal) as ([] & bytes & Hhost & Hres).
    + exists true, bytes. split; [done|]. destruct Hres as (m & e' & Hrim & Hsm & Hme & Hmap).
      exists m, e'. eexists. do 3 (split; [done|]). split; [done|]. split.
      * erewrite Hstep by exact Hmap. unfold s1. rewrite data_done by done. do 2 f_equal.
      * eapply (data_created_realm _ _ _ _ _ _ _ _ _ p); [|exact HT| |done|exact Hm|done|exact Hme|done|done|done|done].
        -- unfold data_written. cbv zeta. apply (realm_at_rd (set_mem (<[h := PData bytes]> (mem s)) s) rd_addr g_rd r T (set_rd_rim m r)); [|done].
           by apply realm_at_write.
        -- split; try done. cbn. by rewrite !lookup_insert_ne by congruence.
    + exists false, bytes. split; [done|]. erewrite Hstep by exact Hres.
      pose proof (data_done s g_rd h g rc tag tagh rcd tagd rc (<[h := PZero]> (mem s)) GRANULE_STATE_DELEGATED
        RMI_ERROR_INPUT Hg Hok Hne Hng Hngh Hs Hb ltac:(done) eq_refl) as Hd.
      unfold s1. rewrite put_granule_put in Hd. etransitivity; [exact Hd|]. do 2 f_equal. st_norm.
      rewrite (insert_id _ g) by done. by rewrite insert_id by done.
  - destruct (assign_unchanged _ _ _ _ _ data_addr Hm Hty Hal) as (e' & Hce & Hme).
    exists e'. eexists. do 2 (split; [done|]). split.
    + erewrite Hstep by (by eapply data_map_unknown; [done|done|done|lia|done|done]).
      unfold s1. rewrite data_done by done. do 2 f_equal.
    + eapply data_created_realm; try done; by destruct ty.
Qed.
End create.
