(* ===== verification/DataDestroy.v ===== *)
(** DATA_DESTROY (runtime/rmi/rtt.c) on every branch, and the data commands of realms that
    do not share the page. *)
From S2P Require Import Prelude Types Granule Platform GranuleFind S2tte S2tt Apt Measurement Buffer Delegate Walk Exec Realm Rtt RttTree RttFold RttCreate Data DataCreate.

Section destroy.
Context {P : Platform} {H : Machine} {CF : Config} {CR : Crypto}.
Context {L : PlatformLaws P} {HL : MachineLaws P H} {CL : CryptoLaws CR}.

(** The types of the entries that hold a data granule, and what removes them. *)
Definition is_data_type (ty : s2tte_type) : bool :=
  match ty with AssignedEmpty | AssignedRam | AssignedDestroyed => true | _ => false end.
Definition removed_type (ty : s2tte_type) : s2tte_type :=
  match ty with AssignedEmpty => UnassignedEmpty | _ => UnassignedDestroyed end.
Definition removed_entry (ty : s2tte_type) : Z :=
  match ty with AssignedEmpty => s2tte_create_unassigned_empty | _ => s2tte_create_unassigned_destroyed end.
Definition removed_tlbi (s2_ctx : s2tt_context) (ty : s2tte_type) (addr : Z) : list tlb_event :=
  match ty with AssignedRam => page_tlbi s2_ctx addr | _ => [] end.

Lemma removed_made s2_ctx ty i :
  min_starting_level s2_ctx <= i <= 3 → is_made s2_ctx (removed_type ty) 0 i (removed_entry ty).
Proof. intros Hi. destruct ty; (split; [done|by exists 0]). Qed.

Lemma data_pa_u64 s2_ctx ty pa e : is_made s2_ctx ty pa 3 e → is_data_type ty = true → is_u64 pa.
Proof.
  intros [Hk _] Hty. assert (Hal : lvl_aligned (enable_lpa2 s2_ctx) 3 pa) by (destruct ty; try done; apply Hk).
  apply lvl_aligned_arith in Hal as [Hr _]; [|left; lia]. unfold is_u64.
  unfold s2tte_oa_bits, S2TTE_OA_BITS, S2TTE_OA_BITS_LPA2 in Hr. destruct (enable_lpa2 s2_ctx); lia.
Qed.

(** The references of a table that loses a page. *)
Lemma remove_refs s s2_ctx T g b rc tag p t idx e ty pa :
  rtt_inv s s2_ctx T → T !! g = Some (3, b) → rtt_view s g rc tag p t → t !! idx = Some e →
  is_made s2_ctx ty pa 3 e → is_data_type ty = true → min_starting_level s2_ctx <= 3 →
  counted 3 e = true ∧ counted 3 (removed_entry ty) = false ∧ 0 <= rc - 1 <= 511.
Proof.
  intros Hinv HT Hv He Hm Hty Hmin. pose proof (removed_made s2_ctx ty 3 ltac:(lia)) as Hm'.
  pose proof (set_refs _ _ _ _ _ _ _ _ _ _ _ _ (removed_entry ty) Hinv HT Hv He) as Hrc.
  assert (Hc : counted 3 e = true ∧ counted 3 (removed_entry ty) = false).
  { rewrite (counted_made _ _ _ _ _ Hm), (counted_made _ _ _ _ _ Hm'). by destruct ty. }
  destruct Hc as [Hc1 Hc2]. rewrite Hc1, Hc2 in Hrc. simpl in Hrc. pose proof (rv_rc _ _ _ _ _ _ Hv).
  split; [done|]. split; [done|]. lia.
Qed.

(** * The entry *)

Section entry.
Context (s : state) (s2_ctx : s2tt_context) (g rc tag : Z) (p : page) (t : list Z) (map_addr i e : Z).
Context (ty : s2tte_type) (pa : Z).
Hypothesis Hview : rtt_view s g rc tag p t.
Hypothesis Hs : slots s = ∅.
Hypothesis Hv : 0 <= vmid s2_ctx < 2 ^ 16.
Hypothesis Hidx : 0 <= s2_addr_to_idx map_addr i < 512.
Hypothesis He : t !! Z.to_nat (s2_addr_to_idx map_addr i) = Some e.
Hypothesis Hm : is_made s2_ctx ty pa i e.

Let s1 : state := set_slots (<[SLOT_RTT := g]> (slots s)) (put_granule g (Gr true GRANULE_STATE_RTT rc tag) s).
Let wi : s2tt_walk := {| g_llt := g; windex := s2_addr_to_idx map_addr i; last_level := i |}.

Lemma destroy_entry_run :
  data_destroy_entry s2_ctx wi SLOT_RTT map_addr s1
  = if (i =? 3) && is_data_type ty then
      Ok (inl pa, set_tlbi (removed_tlbi s2_ctx ty map_addr ++ tlbi s)
            (set_mem (<[g := PTable (<[Z.to_nat (s2_addr_to_idx map_addr i) := removed_entry ty]> t)]> (mem s)) s1))
    else Ok (inr (rtt_code i), s1).
Proof using Hview Hv Hidx He Hm.
  destruct Hview as [Hadr Hg Hb Hmem Hp Hlen]. unfold data_destroy_entry, s1, wi. cbv zeta.
  cbn [last_level g_llt windex]. change S2TT_PAGE_LEVEL with 3.
  destruct (Z.eqb_spec i 3) as [->|Hne]; cbn [negb andb]; cycle 1.
  { st_norm. exec rtt_error_run. done. }
  st_norm. exec tte_read_run.
  pose proof (made_is _ _ _ _ _ AssignedRam Hm) as H1. pose proof (made_is _ _ _ _ _ AssignedEmpty Hm) as H2.
  pose proof (made_is _ _ _ _ _ AssignedDestroyed Hm) as H3. cbn [s2tte_is] in H1, H2, H3. rewrite H1, H2, H3.
  clear H1 H2 H3. pose proof (made_pa _ _ _ _ _ Hm) as Hpa.
  destruct ty; which_type;
    cbn [is_data_type removed_entry removed_tlbi mwhen];
    first [ exec rtt_error_run; done
          | specialize (Hpa eq_refl); exec (lift_run _ _ _ Hpa); exec tte_write_run;
            try (exec s2tt_invalidate_page_run); steps; unfold mret, M_ret; do 2 f_equal; state_solve ].
Qed.
End entry.

(** * The command *)

Lemma realm_at_set_page s rd_addr g_rd r T h st tag p :
  realm_at s rd_addr g_rd r T → T !! h = None → h ≠ g_rd → 0 <= st < 32 → unlocked_invariant st 0 = true →
  realm_at (set_page h st 0 tag p s) rd_addr g_rd r T.
Proof.
  intros Hra HT Hne Hst Hi. apply (realm_at_write (put_granule h (Gr false st 0 tag) s)); [|done|done].
  by apply realm_at_put.
Qed.

(** A granule in a state that tables and descriptors do not have. *)
Lemma other_state s rd_addr g_rd r T a st h :
  realm_at s rd_addr g_rd r T → is_u64 a → lockable s a st = Some h →
  st ≠ GRANULE_STATE_RTT → st ≠ GRANULE_STATE_RD → T !! h = None ∧ h ≠ g_rd.
Proof using L.
  intros Hra Hu Hl H1 H2. destruct (realm_facts _ _ _ _ _ Hra) as (rc & tag & p & Hg & Hok & _).
  destruct (lockable_quiet _ _ _ _ Hu (ra_quiet _ _ _ _ _ Hra) Hl) as (rch & tagh & Hh & Hokh & _). split.
  - destruct (T !! h) as [[i b]|] eqn:HT; [|done].
    destruct (wf_table _ _ _ (inv_wf _ _ _ (ra_inv _ _ _ _ _ Hra)) h i b HT) as (_ & _ & (rc' & tag' & Hh' & Hrc') & _).
    rewrite Hh in Hh'. apply (inj Some) in Hh'. apply Gr_inj in Hh' as (_ & ? & _); [done|done|apply gok_rtt; lia].
  - intros ->. rewrite Hg in Hh. apply (inj Some) in Hh. apply Gr_inj in Hh as (_ & ? & _); congruence.
Qed.

(** Locking the data granule of an entry while its table is locked. *)
Lemma lock_data_run s rd_addr g_rd r T g rc tag p t a s1 :
  realm_at s rd_addr g_rd r T → is_u64 a → rtt_view s g rc tag p t →
  (∀ k, k ≠ g → granules s1 !! k = granules s !! k) →
  (∃ rc', 0 <= rc' <= 512 ∧ granules s1 !! g = Some (Gr true GRANULE_STATE_RTT rc' tag)) →
  match lockable s a GRANULE_STATE_DATA with
  | Some h => find_lock_granule a GRANULE_STATE_DATA s1 = Ok (Some h, lock_one h s1) ∧ h ≠ g
  | None => find_lock_granule a GRANULE_STATE_DATA s1 = Ok (None, s1) ∨
            find_lock_granule a GRANULE_STATE_DATA s1 = Err FHang
  end.
Proof using L.
  intros Hra Hu Hview Hsame (rc' & Hrc' & Hg1). pose proof (ra_quiet _ _ _ _ _ Hra) as Hq.
  destruct (find_granule_total a Hu) as [[k|] Hf]; cycle 1.
  { unfold lockable. rewrite Hf. left. unfold find_lock_granule. by run_step (lift_run _ _ _ Hf). }
  pose proof (find_granule_Some a k Hu Hf) as (_ & Hk & _).
  destruct (decide (k = g)) as [->|Hne].
  - destruct Hview as [_ Hgr Hb _ _ _].
    assert (Hno : lockable s a GRANULE_STATE_DATA = None).
    { unfold lockable. rewrite Hf, Hgr. cbn [Gr descriptor].
      assert (Hok : gok GRANULE_STATE_RTT rc) by (apply gok_rtt; lia). by rewrite desc_state by done. }
    rewrite Hno. right. unfold find_lock_granule. run_step (lift_run _ _ _ Hf).
    apply bind_run_err. eapply granule_lock_on_state_match_hang; [exact Hg1|apply gok_rtt; lia].
  - destruct (Hq k Hk) as (gr & Hgr & Hquiet).
    assert (Hloc : lockable s1 a GRANULE_STATE_DATA = lockable s a GRANULE_STATE_DATA).
    { unfold lockable. by rewrite Hf, Hsame. }
    pose proof (find_lock_granule_spec s1 a GRANULE_STATE_DATA Hu) as Hfl. rewrite Hloc in Hfl.
    rewrite Hfl.
    + destruct (lockable s a GRANULE_STATE_DATA) as [h|] eqn:Hl; [|by left]. split; [done|].
      apply lockable_find in Hl. congruence.
    + intros k' Hk'. rewrite Hf in Hk'. simplify_eq. rewrite Hsame by done. eauto.
Qed.

(** DATA_DESTROY up to the propagation. *)
Lemma data_destroy_run s rd_addr g_rd r T map_addr res :
  realm_at s rd_addr g_rd r T → is_u64 map_addr →
  let run := smc_data_destroy rd_addr map_addr res s in
  if addr_in_par r map_addr && map_addr_ok r map_addr 3 then
    ∃ g i b rc tag p t e ty pa, T !! g = Some (i, b) ∧ covers_lvl i b map_addr ∧ rtt_view s g rc tag p t ∧
      t !! Z.to_nat (s2_addr_to_idx map_addr i) = Some e ∧ is_made (s2_ctx r) ty pa i e ∧ (i < 3 → ty ≠ Table) ∧
      if (i =? 3) && is_data_type ty then
        match lockable s pa GRANULE_STATE_DATA with
        | Some h =>
            ∃ tagh t' s' top, t' = <[Z.to_nat (s2_addr_to_idx map_addr i) := removed_entry ty]> t ∧
              s' = set_page h GRANULE_STATE_DELEGATED 0 tagh PZero
                     (set_rtt g (rc - 1) tag t' (removed_tlbi (s2_ctx r) ty map_addr) s) ∧
              non_live_top i map_addr t' (Z.to_nat (s2_addr_to_idx map_addr i)) top ∧
              realm_at s' rd_addr g_rd r T ∧
              run = (csm_propagate_destroy rd_addr map_addr ≫= λ _,
                     mret (set_x2 top (set_x1 pa (set_x0 RMI_SUCCESS res)))) s'
        | None => ∃ f, run = Err f
        end
      else
        ∃ top, non_live_top i map_addr t (Z.to_nat (s2_addr_to_idx map_addr i)) top ∧
          run = Ok (set_x2 top (set_x0 (rtt_code i) res), s)
  else run = Ok (set_x2 0 (set_x0 RMI_ERROR_INPUT res), s).
Proof using L HL.
  intros Hra Hma run. unfold run, smc_data_destroy. clear run.
  destruct (realm_facts _ _ _ _ _ Hra) as (rcd & tagd & prd & Hgd & Hok & Hadrd & Hmd & Hpd & Hfind & HsN & Hbits).
  pose proof (ra_core _ _ _ _ _ Hra) as Hco. pose proof (ra_inv _ _ _ _ _ Hra) as Hinv.
  pose proof (inv_wf _ _ _ Hinv) as Hwf. pose proof (wf_start _ _ _ Hwf) as Hst.
  run_step Hfind. change (put_granule g_rd _ s) with (rd_locked s g_rd rcd tagd).
  rewrite (rd_open _ _ _ _ Hco _ _ _ _ Hadrd Hmd Hpd).
  assert (Hval : (if negb (addr_in_par r map_addr) then Ok false else validate_map_addr map_addr S2TT_PAGE_LEVEL r)
    = Ok (addr_in_par r map_addr && map_addr_ok r map_addr 3)).
  { destruct (addr_in_par r map_addr); [|done]. change S2TT_PAGE_LEVEL with 3. apply validate_map_addr_run; [done|lia]. }
  run_step (lift_run _ _ _ Hval). destruct (addr_in_par r map_addr && map_addr_ok r map_addr 3) eqn:Hargs; cbn [negb]; cycle 1.
  { by rewrite (rd_close _ _ _ _ Hco), (rd_unlock _ _ _ _ _ Hgd Hok). }
  cbv zeta. rewrite (rd_close _ _ _ _ Hco).
  apply andb_true_iff in Hargs as [_ [Hlt%Z.ltb_lt _]%andb_true_iff]. destruct Hma as [Hma0 _].
  destruct (enter_walk _ _ _ _ Hco rcd tagd map_addr 3 Hgd Hok ltac:(lia) ltac:(lia)) as
    (g & i & b & rc & tag & p & t & e & Hwalk & HT & Hc & Hview & Hng & Hidx & He & Hi & Hleaf).
  pose proof Hview as [Hadr Hgr Hb Hmem Hp Hlen].
  assert (Htab : table_of s g = Some t) by (unfold table_of; by rewrite Hmem).
  destruct (inv_typed _ _ _ Hinv g i b t _ e HT Htab He) as (ty & pa & Hm).
  exists g, i, b, rc, tag, p, t, e, ty, pa. do 5 (split; [done|]). split.
  { intros Hl3 ->. destruct (table_made_phys _ _ _ _ Hm) as [Het _]. by rewrite Hleaf in Het. }
  change S2TT_PAGE_LEVEL with 3. rewrite Hwalk. clear Hwalk.
  pose proof (inv_vmid _ _ _ Hinv) as Hvm. pose proof (ra_slots _ _ _ _ _ Hra) as Hs.
  pose proof (HsN SLOT_RTT) as HsRTT. pose proof (HsN SLOT_DELEGATED) as HsDel.
  assert (H52 : 0 <= map_addr < 2 ^ 52).
  { assert (2 ^ ipa_bits (s2_ctx r) <= 2 ^ 52) by (apply Z.pow_le_mono_r; lia). lia. }
  assert (Hskip : ∀ t' x, length t' = 512%nat → t' !! Z.to_nat (s2_addr_to_idx map_addr i) = Some x →
    ∃ top, non_live_top i map_addr t' (Z.to_nat (s2_addr_to_idx map_addr i)) top ∧
      s2tt_skip_non_live_entries (s2_ctx r) map_addr t'
        {| g_llt := g; windex := s2_addr_to_idx map_addr i; last_level := i |} = Ok top).
  { intros t' x Hl Hx. eapply skip_top_run; [done|lia|lia|done|lia]. }
  erewrite bind_run; [|eapply (map_assert_run _ g SLOT_RTT); [done|done|by cbn]]. cbv beta. cbn [g_llt].
  pose proof (destroy_entry_run s (s2_ctx r) g rc tag p t map_addr i e ty pa Hview Hvm Hidx He Hm) as Hent.
  destruct ((i =? 3) && is_data_type ty) eqn:Hyes; cycle 1.
  { destruct (Hskip t e Hlen He) as (top & Htop & Hsk). exists top. split; [done|].
    erewrite bind_run by exact Hent. st_norm. steps. exec read_table_run. exec (lift_run _ _ _ Hsk).
    exec buffer_unmap_run. exec granule_unlock_run. cbn [x0 set_x0]. rewrite rtt_code_error. cbn [mwhen].
    rewrite ret_bind. unfold mret, M_ret. do 2 f_equal. rewrite insert_insert_eq. by apply restore_state. }
  apply andb_true_iff in Hyes as [->%Z.eqb_eq Hty].
  pose proof (data_pa_u64 _ _ _ _ Hm Hty) as Hu. pose proof (removed_made (s2_ctx r) ty 3 ltac:(lia)) as Hm'.
  destruct (remove_refs _ _ _ _ _ _ _ _ _ _ _ _ _ Hinv HT Hview He Hm Hty ltac:(lia)) as (Hc1 & Hc2 & Hrc1).
  set (t' := <[Z.to_nat (s2_addr_to_idx map_addr 3) := removed_entry ty]> t) in *.
  set (s2 := put_granule g (Gr true GRANULE_STATE_RTT (rc - 1) tag)
     (set_tlbi (removed_tlbi (s2_ctx r) ty map_addr ++ tlbi s) (set_mem (<[g := PTable t']> (mem s))
       (set_slots (<[SLOT_RTT := g]> (slots s)) (put_granule g (Gr true GRANULE_STATE_RTT rc tag) s))))).
  pose proof (lock_data_run s rd_addr g_rd r T g rc tag p t pa s2 Hra Hu Hview) as Hlk.
  assert (Hs2 : ∀ k, k ≠ g → granules s2 !! k = granules s !! k).
  { intros k Hk. unfold s2. st_norm. by rewrite !lookup_insert_ne. }
  assert (Hg2 : ∃ rc', 0 <= rc' <= 512 ∧ granules s2 !! g = Some (Gr true GRANULE_STATE_RTT rc' tag)).
  { exists (rc - 1). split; [lia|apply lookup_insert_eq]. }
  specialize (Hlk Hs2 Hg2).
  destruct (lockable s pa GRANULE_STATE_DATA) as [h|] eqn:Hl; cycle 1.
  { assert (Hbad : ∀ k : option Z → M state smc_result, (∀ s, ∃ f, k None s = Err f) →
      ∃ f, (find_lock_granule pa GRANULE_STATE_DATA ≫= k) s2 = Err f).
    { intros k Hk. destruct Hlk as [Hlk|Hlk].
      - rewrite (bind_run _ _ _ _ _ Hlk). apply Hk.
      - rewrite (bind_run_err _ _ _ _ Hlk). by eexists. }
    edestruct Hbad as [f Hf]; cycle 1.
    - exists f. erewrite bind_run by exact Hent. cbv beta iota. unfold atomic_granule_put. st_norm. steps.
      exec granule_refcount_dec_run. steps. exact Hf.
    - intros s3. cbv beta. eexists. by steps. }
  destruct Hlk as [Hlk Hhg].
  destruct (lockable_quiet _ _ _ _ Hu (ra_quiet _ _ _ _ _ Hra) Hl) as (rch & tagh & Hh & Hokh & Hih & Hadrh & _).
  assert (rch = 0) as -> by (by apply Z.eqb_eq in Hih).
  destruct (other_state _ _ _ _ _ _ _ _ Hra Hu Hl ltac:(done) ltac:(done)) as [HTh Hhrd].
  rewrite (lock_one_Gr h s2 _ _ _ ltac:(rewrite Hs2 by done; exact Hh) Hokh) in Hlk.
  destruct (Hskip t' (removed_entry ty)) as (top & Htop & Hsk); [unfold t'; by rewrite length_insert| |].
  { unfold t'. apply list_lookup_insert_eq. by eapply lookup_lt_Some. }
  exists tagh, t'. eexists. exists top. split; [done|]. split; [done|]. split; [done|]. split.
  - apply realm_at_set_page; [|done|done|done|done].
    eapply realm_at_set; [done|by eapply realm_table_ne|exact HT|done|done|exact Hm|by intros ->|exact Hm'|by destruct ty|].
    rewrite Hc1, Hc2. simpl. lia.
  - erewrite bind_run by exact Hent. cbv beta iota. unfold atomic_granule_put. st_norm. steps.
    exec granule_refcount_dec_run. steps. erewrite bind_run by exact Hlk. unfold s2. st_norm. steps.
    erewrite bind_run by (by apply massert_run). steps. erewrite bind_run by (by apply mderef_run). steps.
    unfold buffer_granule_memzero, granule_memzero_mapped, granule_unlock_transition. steps.
    exec map_assert_run. steps. exec write_page_run. steps. exec buffer_unmap_run. steps.
    exec granule_set_state_run. steps. exec granule_unlock_run. steps. exec read_table_run. steps.
    exec (lift_run _ _ _ Hsk). steps. exec buffer_unmap_run. steps. exec granule_unlock_run.
    cbn [x0 set_x0 set_x1]. rewrite Z.eqb_refl. cbn [mwhen]. apply bind_cong. f_equal. state_solve.
Qed.
End destroy.
