(* ===== verification/CsmPropagate.v ===== *)
(** The propagation of data commands to the realms that share a region
    (csm_propagate_create and csm_propagate_destroy of runtime/rmi/rtt.c): which realm is
    changed, and how. *)
From S2P Require Import Prelude Types Granule Platform GranuleFind S2tte S2tt Apt Measurement Buffer Delegate Walk Exec Realm Rtt RttTree RttFold RttCreate Data DataCreate DataDestroy.

Section propagate.
Context {P : Platform} {H : Machine} {CF : Config} {CR : Crypto}.
Context {L : PlatformLaws P} {HL : MachineLaws P H} {CL : CryptoLaws CR}.

(** * The region of a page *)

(** The first enabled region that contains the address, as the two loops look for it. *)
Fixpoint master_region (n : nat) (a : apt) (pos map_addr : Z) : result (option master_mem) :=
  match n with
  | O => Ok None
  | S n' =>
      apt_enabled_master_at a pos ≫= λ m,
      if (map_addr <? m_ipa_start m) || (m_ipa_start m .+ m_map_size m <=? map_addr)
      then master_region n' a (pos + 1) map_addr else Ok (Some m)
  end.

Fixpoint slave_region (n : nat) (a : apt) (pos map_addr : Z) : result (option slave_mem) :=
  match n with
  | O => Ok None
  | S n' =>
      apt_enabled_slave_at a pos ≫= λ m,
      if (map_addr <? s_ipa_start m) || (s_ipa_start m .+ s_map_size m <=? map_addr)
      then slave_region n' a (pos + 1) map_addr else Ok (Some m)
  end.

Definition region_as_master (a : apt) (map_addr : Z) : result (option master_mem) :=
  master_region (Z.to_nat (apt_enabled_master_len a)) a 0 map_addr.
Definition region_as_slave (a : apt) (map_addr : Z) : result (option slave_mem) :=
  slave_region (Z.to_nat (apt_enabled_slave_len a)) a 0 map_addr.

Lemma to_slaves_run act n a pos map_addr om s :
  master_region n a pos map_addr = Ok om →
  propagate_to_slaves act n a pos map_addr s
  = match om with
    | None => Ok ((), s)
    | Some m =>
        mfor (Z.of_nat <$> seq 0 (Z.to_nat CSM_MAX_MASTER_SHARES)) (λ si,
          lift (aget (shares m) si) ≫= λ sh,
          if negb (in_use sh) then mret ()
          else propagate_partner act (slave_rd_pa sh)
                 (λ sapt, slave_region_ipa sapt (m_region_ID m) (map_addr .- m_ipa_start m))) s
    end.
Proof.
  revert pos. induction n as [|n IH]; intros pos; cbn [master_region propagate_to_slaves]; [by intros [= <-]|].
  unfold apt_enabled_master_at, apt_enabled_master_index_at.
  intros (m & (midx & Hi & Hm)%result_bind_inv & Hrest)%result_bind_inv.
  run_step (lift_run _ _ _ Hi). run_step (lift_run _ _ _ Hm).
  destruct (_ || _); [by apply IH|]. by injection Hrest as <-.
Qed.

Lemma to_master_run act n a pos map_addr om s :
  slave_region n a pos map_addr = Ok om →
  propagate_to_master act n a pos map_addr s
  = match om with
    | None => Ok ((), s)
    | Some m =>
        propagate_partner act (master_rd_pa m)
          (λ mapt, master_region_ipa mapt (s_region_ID m) (map_addr .- s_ipa_start m)) s
    end.
Proof.
  revert pos. induction n as [|n IH]; intros pos; cbn [slave_region propagate_to_master]; [by intros [= <-]|].
  unfold apt_enabled_slave_at, apt_enabled_slave_index_at.
  intros (m & (midx & Hi & Hm)%result_bind_inv & Hrest)%result_bind_inv.
  run_step (lift_run _ _ _ Hi). run_step (lift_run _ _ _ Hm).
  destruct (_ || _); [by apply IH|]. by injection Hrest as <-.
Qed.

(** * The caller's side *)

(** The caller's descriptor [g_rd] and table of regions [ga] are locked and mapped. *)
Definition csm_locked (g_rd rcd tagd ga taga : Z) (s : state) : state :=
  set_slots (<[SLOT_APT := ga]> (<[SLOT_RD := g_rd]> ∅))
    (put_granule ga (Gr true GRANULE_STATE_APT 0 taga) (put_granule g_rd (Gr true GRANULE_STATE_RD rcd tagd) s)).

(** Granule [ga] holds the table of regions [a] of the realm with descriptor [r]. *)
Definition realm_apt (s : state) (r : rd) (ga : Z) (a : apt) : Prop :=
  is_u64 (apt_pa r) ∧ apt_pa r ≠ 0 ∧ lockable s (apt_pa r) GRANULE_STATE_APT = Some ga ∧
  mem s !! ga ≫= page_apt = Some a.

(** What both directions leave of the state that matters to the caller. *)
Definition keeps (g_rd rcd tagd ga taga : Z) (s : state) : Prop :=
  granules s !! g_rd = Some (Gr false GRANULE_STATE_RD rcd tagd) ∧ gok GRANULE_STATE_RD rcd ∧
  granules s !! ga = Some (Gr false GRANULE_STATE_APT 0 taga) ∧ ga ≠ g_rd ∧ slots s = ∅.

Lemma apt_granule s rd_addr g_rd r T ga a :
  realm_at s rd_addr g_rd r T → realm_apt s r ga a →
  ∃ taga, granules s !! ga = Some (Gr false GRANULE_STATE_APT 0 taga) ∧ has_addr ga ∧ ga ≠ g_rd ∧ T !! ga = None ∧
    find_granule (apt_pa r) = Ok (Some ga).
Proof using L.
  intros Hra (Hu & _ & Hl & Hm).
  destruct (lockable_quiet _ _ _ _ Hu (ra_quiet _ _ _ _ _ Hra) Hl) as (rc & taga & Hg & Hok & Hi & Hadr & _).
  assert (rc = 0) as -> by (by apply Z.eqb_eq in Hi).
  destruct (other_state _ _ _ _ _ _ _ _ Hra Hu Hl ltac:(done) ltac:(done)) as [HT Hne].
  exists taga. split_and!; try done. by eapply lockable_find.
Qed.

(** Locking a granule that is unlocked. *)
Lemma find_lock_run s a k st rc tag :
  find_granule a = Ok (Some k) → granules s !! k = Some (Gr false st rc tag) → gok st rc →
  unlocked_invariant st rc = true →
  find_lock_granule a st s = Ok (Some k, put_granule k (Gr true st rc tag) s).
Proof.
  intros Hf Hk Hok Hi. unfold find_lock_granule. run_step (lift_run _ _ _ Hf).
  erewrite bind_run; [|rewrite (granule_lock_on_state_match_run _ _ _ _ _ _ Hk Hok), Z.eqb_refl, Hi; reflexivity]. done.
Qed.

Lemma keeps_exists s rd_addr g_rd r T ga a :
  realm_at s rd_addr g_rd r T → realm_apt s r ga a → ∃ rcd tagd taga, keeps g_rd rcd tagd ga taga s.
Proof using L.
  intros Hra Hapt. destruct (realm_facts _ _ _ _ _ Hra) as (rcd & tagd & p & Hg & Hok & _).
  destruct (apt_granule _ _ _ _ _ _ _ Hra Hapt) as (taga & Hga & _ & Hne & _).
  exists rcd, tagd, taga. split_and!; try done. apply (ra_slots _ _ _ _ _ Hra).
Qed.

Lemma csm_open act s rd_addr g_rd r T ga a map_addr rcd tagd taga :
  realm_at s rd_addr g_rd r T → realm_apt s r ga a → keeps g_rd rcd tagd ga taga s →
  csm_propagate act rd_addr map_addr s
  = (propagate_to_slaves act (Z.to_nat (apt_enabled_master_len a)) a 0 map_addr ≫= λ _,
     (propagate_to_master act (Z.to_nat (apt_enabled_slave_len a)) a 0 map_addr ≫= λ _,
      buffer_unmap SLOT_APT ≫= λ _, granule_unlock ga) ≫= λ _,
     buffer_unmap SLOT_RD ≫= λ _, granule_unlock g_rd) (csm_locked g_rd rcd tagd ga taga s).
Proof using L HL.
  intros Hra Hapt (Hg & Hok & Hga & Hne & Hs).
  destruct (realm_facts _ _ _ _ _ Hra) as (_ & _ & p & _ & _ & Hadr & Hm & Hp & _).
  destruct (apt_granule _ _ _ _ _ _ _ Hra Hapt) as (_ & _ & Hadra & _ & HTa & Hfa).
  destruct Hapt as (Hu & Hnz & Hl & Hpa). apply bind_Some in Hpa as (pa & Hma & Hpa).
  pose proof (lockable_find _ _ _ _ (ra_lock _ _ _ _ _ Hra)) as Hf.
  unfold csm_propagate, csm_locked.
  erewrite bind_run; [|apply (find_lock_run _ _ g_rd _ rcd tagd Hf); [lk_solve|exact Hok|reflexivity]].
  assert (Hs1 : slots s !! SLOT_RD = None) by (by rewrite Hs).
  assert (Hs2 : slots s !! SLOT_APT = None) by (by rewrite Hs). st_norm.
  exec map_assert_run. exec read_rd_run. rewrite (proj2 (Z.eqb_neq _ _)) by done. steps.
  erewrite bind_run; [|apply (find_lock_run _ _ ga _ 0 taga Hfa); [lk_solve|done|reflexivity]]. st_norm. steps.
  exec map_assert_run. steps. unfold read_apt. steps. exec read_page_run. exec mderef_run. steps. by rewrite Hs.
Qed.

Lemma csm_close g_rd rcd tagd ga taga s :
  keeps g_rd rcd tagd ga taga s →
  ((buffer_unmap SLOT_APT ≫= λ _, granule_unlock ga) ≫= λ _, buffer_unmap SLOT_RD ≫= λ _, granule_unlock g_rd)
    (csm_locked g_rd rcd tagd ga taga s) = Ok ((), s).
Proof.
  intros (Hg & Hok & Ha & Hne & Hs). unfold csm_locked. st_norm. steps. exec buffer_unmap_run. exec granule_unlock_run.
  exec buffer_unmap_run. erewrite granule_unlock_run by exec_side. st_norm. do 2 f_equal.
  destruct s as [gr m sl v tl ta cs]. cbn in *. subst sl. f_equal. 
  - apply map_eq. intros k. destruct (decide (k = g_rd)) as [->|Hk]; [by rewrite lookup_insert_eq|].
    rewrite lookup_insert_ne by done. destruct (decide (k = ga)) as [->|Hk']; [by rewrite lookup_insert_eq|].
    by rewrite !lookup_insert_ne.
Qed.

(** The state after both directions, when each leaves a state that keeps the caller. *)
Lemma csm_propagate_run act s s1 s2 rd_addr g_rd r T ga a map_addr rcd tagd taga :
  realm_at s rd_addr g_rd r T → realm_apt s r ga a →
  keeps g_rd rcd tagd ga taga s → keeps g_rd rcd tagd ga taga s2 →
  propagate_to_slaves act (Z.to_nat (apt_enabled_master_len a)) a 0 map_addr (csm_locked g_rd rcd tagd ga taga s)
  = Ok ((), csm_locked g_rd rcd tagd ga taga s1) →
  propagate_to_master act (Z.to_nat (apt_enabled_slave_len a)) a 0 map_addr (csm_locked g_rd rcd tagd ga taga s1)
  = Ok ((), csm_locked g_rd rcd tagd ga taga s2) →
  csm_propagate act rd_addr map_addr s = Ok ((), s2).
Proof using L HL.
  intros Hra Hapt Hkeep Hkeep' H1 H2. rewrite (csm_open act _ _ _ _ _ _ _ map_addr _ _ _ Hra Hapt Hkeep).
  run_step H1. rewrite bind_assoc. run_step H2. rewrite <- (csm_close _ _ _ _ _ _ Hkeep'). by rewrite bind_assoc.
Qed.

(** The page is in no region that the realm shares: nothing happens. *)
Definition page_private (s : state) (rd_addr : Z) (r : rd) (map_addr : Z) : Prop :=
  apt_pa r = 0 ∨
  is_u64 (apt_pa r) ∧ apt_pa r ≠ rd_addr ∧ lockable s (apt_pa r) GRANULE_STATE_APT = None ∨
  ∃ ga a, realm_apt s r ga a ∧ region_as_master a map_addr = Ok None ∧ region_as_slave a map_addr = Ok None.

Lemma csm_propagate_private act s rd_addr g_rd r T map_addr :
  realm_at s rd_addr g_rd r T → page_private s rd_addr r map_addr → csm_propagate act rd_addr map_addr s = Ok ((), s).
Proof using L HL.
  intros Hra [Hz|[(Hu & Hna & Hn)|(ga & a & Hapt & Hm & Hsl)]].
  3: { destruct (keeps_exists _ _ _ _ _ _ _ Hra Hapt) as (rcd & tagd & taga & Hk).
       eapply csm_propagate_run; [done|done|exact Hk|exact Hk|by apply (to_slaves_run act _ _ _ _ None)|
         by apply (to_master_run act _ _ _ _ None)]. }
  all: destruct (realm_facts _ _ _ _ _ Hra) as (rcd & tagd & p & Hg & Hok & Hadr & Hm & Hp & Hfind & _);
    unfold csm_propagate; run_step Hfind; change (put_granule g_rd _ s) with (rd_locked s g_rd rcd tagd);
    rewrite (rd_open _ _ _ _ (ra_core _ _ _ _ _ Hra) _ _ _ _ Hadr Hm Hp).
  all: assert (Hul : granule_unlock g_rd (rd_locked s g_rd rcd tagd) = Ok ((), s)) by
    (unfold rd_locked; rewrite (granule_unlock_run (put_granule_lookup _ _ _) Hok eq_refl eq_refl);
     by rewrite put_granule_put, put_granule_id).
  - rewrite Hz. cbn [Z.eqb]. steps. by rewrite (rd_close _ _ _ _ (ra_core _ _ _ _ _ Hra)).
  - destruct (Z.eqb_spec (apt_pa r) 0); [steps; by rewrite (rd_close _ _ _ _ (ra_core _ _ _ _ _ Hra))|].
    set (s1 := set_slots {[SLOT_RD := g_rd]} (rd_locked s g_rd rcd tagd)).
    assert (Hk : ∀ k, find_granule (apt_pa r) = Ok (Some k) → granules s1 !! k = granules s !! k).
    { intros k Hk. unfold s1. cbn. rewrite lookup_insert_ne; [done|]. intros <-. apply Hna.
      eapply find_granule_inj; [done|apply (ra_u64 _ _ _ _ _ Hra)|done|]. eapply lockable_find, (ra_lock _ _ _ _ _ Hra). }
    assert (Hloc : lockable s1 (apt_pa r) GRANULE_STATE_APT = None).
    { rewrite <- Hn. unfold lockable. destruct (find_granule (apt_pa r)) as [[k|]|] eqn:Hf; [|done..]. by rewrite Hk. }
    assert (Hfl : find_lock_granule (apt_pa r) GRANULE_STATE_APT s1 = Ok (None, s1)).
    { rewrite find_lock_granule_spec, Hloc; [done|done|]. intros k Hf. rewrite (Hk k Hf).
      apply (ra_quiet _ _ _ _ _ Hra). by apply find_granule_Some in Hf as (_ & ? & _). }
    steps. run_step Hfl. steps. unfold s1. by rewrite (rd_close _ _ _ _ (ra_core _ _ _ _ _ Hra)).
Qed.

(** * The partner's side *)

(** The partner's descriptor is locked and mapped too. *)
Definition csm_partner (g_prd rcp tagp g_rd rcd tagd ga taga : Z) (s : state) : state :=
  set_slots (<[SLOT_RD2 := g_prd]> (<[SLOT_APT := ga]> (<[SLOT_RD := g_rd]> ∅)))
    (put_granule g_prd (Gr true GRANULE_STATE_RD rcp tagp) (csm_locked g_rd rcd tagd ga taga s)).

Lemma propagate_partner_run act find_ipa s s' prd_addr g_prd pr PT gpa papt ipa g_rd rcd tagd ga taga rcp tagp :
  realm_at s prd_addr g_prd pr PT → realm_apt s pr gpa papt → keeps g_rd rcd tagd ga taga s →
  g_prd ≠ g_rd → gpa ≠ ga → find_ipa papt = Ok ipa →
  granules s !! g_prd = Some (Gr false GRANULE_STATE_RD rcp tagp) → gok GRANULE_STATE_RD rcp →
  granules s' !! g_prd = Some (Gr false GRANULE_STATE_RD rcp tagp) →
  (match ipa with Some ipa => act pr ipa | None => mret () end : M state ()) (csm_partner g_prd rcp tagp g_rd rcd tagd ga taga s)
  = Ok ((), csm_partner g_prd rcp tagp g_rd rcd tagd ga taga s') →
  propagate_partner act prd_addr find_ipa (csm_locked g_rd rcd tagd ga taga s)
  = Ok ((), csm_locked g_rd rcd tagd ga taga s').
Proof using L HL.
  intros Hra Hapt (Hgr & Hokd & Hga & Hnd & Hs) Hne Hnea Hipa Hg Hok Hg' Hrun.
  destruct (realm_facts _ _ _ _ _ Hra) as (_ & _ & p & _ & _ & Hadr & Hm & Hp & _).
  destruct (apt_granule _ _ _ _ _ _ _ Hra Hapt) as (tagpa & Hgpa & Hadrpa & Hnpa & HTpa & Hfpa).
  destruct Hapt as (Hu & Hnz & Hlpa & Hpa). apply bind_Some in Hpa as (ppa & Hmpa & Hppa).
  assert (Hnga : g_prd ≠ ga).
  { intros ->. rewrite Hg in Hga. apply (inj Some) in Hga. by apply Gr_inj in Hga as (_ & ? & _). }
  assert (Hngpa : gpa ≠ g_rd).
  { intros ->. rewrite Hgr in Hgpa. apply (inj Some) in Hgpa. by apply Gr_inj in Hgpa as (_ & ? & _). }
  pose proof (lockable_find _ _ _ _ (ra_lock _ _ _ _ _ Hra)) as Hf.
  unfold propagate_partner, csm_locked. st_norm.
  erewrite bind_run; [|apply (find_lock_run _ _ g_prd _ rcp tagp Hf); [lk_solve|exact Hok|reflexivity]]. st_norm.
  exec map_assert_run. exec read_rd_run.
  erewrite bind_run; [|apply (find_lock_run _ _ gpa _ 0 tagpa Hfpa); [lk_solve|done|reflexivity]]. st_norm.
  exec map_assert_run. unfold read_apt. steps. exec read_page_run. exec mderef_run. exec (lift_run _ _ _ Hipa).
  exec buffer_unmap_run. exec granule_unlock_run.
  match goal with |- (_ ≫= _) ?x = _ => replace x with (csm_partner g_prd rcp tagp g_rd rcd tagd ga taga s) end; cycle 1.
  { unfold csm_partner, csm_locked. st_norm.
    by rewrite (insert_insert_eq _ gpa), (insert_id _ gpa), delete_insert_id by lk_solve. }
  erewrite bind_run by exact Hrun. unfold csm_partner, csm_locked. st_norm.
  exec buffer_unmap_run. erewrite granule_unlock_run by exec_side. st_norm. do 2 f_equal.
  by rewrite (insert_insert_eq _ g_prd), (insert_id _ g_prd), delete_insert_id by lk_solve.
Qed.

(** The only realm that shares the page's region with the caller, and how the page's
    address there is found: the master of the region, or its one slave. *)
Definition sole_partner (a : apt) (map_addr prd_addr : Z) (find_ipa : apt → result (option Z)) : Prop :=
  region_as_master a map_addr = Ok None ∧
  (∃ m, region_as_slave a map_addr = Ok (Some m) ∧ prd_addr = master_rd_pa m ∧
        find_ipa = λ mapt, master_region_ipa mapt (s_region_ID m) (map_addr .- s_ipa_start m)) ∨
  region_as_slave a map_addr = Ok None ∧
  (∃ m k sh, region_as_master a map_addr = Ok (Some m) ∧ length (shares m) = 3%nat ∧
     shares m !! k = Some sh ∧ in_use sh = true ∧ prd_addr = slave_rd_pa sh ∧
     (∀ j sh', shares m !! j = Some sh' → j ≠ k → in_use sh' = false) ∧
     find_ipa = λ sapt, slave_region_ipa sapt (m_region_ID m) (map_addr .- m_ipa_start m)).

Lemma sole_share_run (body : master_share → M state ()) (l : list master_share) k sh s s' :
  length l = 3%nat → l !! k = Some sh → in_use sh = true →
  (∀ j sh', l !! j = Some sh' → j ≠ k → in_use sh' = false) → body sh s = Ok ((), s') →
  mfor (Z.of_nat <$> seq 0 (Z.to_nat CSM_MAX_MASTER_SHARES)) (λ si,
    lift (aget l si) ≫= λ sh, if negb (in_use sh) then mret () else body sh) s = Ok ((), s').
Proof.
  intros Hlen Hk Hu Hother Hbody. destruct l as [|x [|y [|z [|]]]]; try done.
  change (Z.of_nat <$> seq 0 (Z.to_nat CSM_MAX_MASTER_SHARES)) with [0; 1; 2]. cbn [mfor].
  assert (Hskip : ∀ j sh' (B : Type) (c : () → M state B) s, [x; y; z] !! Z.to_nat j = Some sh' → 0 <= j < 3 →
    Z.to_nat j ≠ k →
    ((lift (aget [x; y; z] j) ≫= λ sh, if negb (in_use sh) then mret () else body sh) ≫= c) s = c () s).
  { intros j sh' B c s0 Hj Hr Hne. rewrite bind_assoc.
    rewrite (bind_run _ _ _ _ _ (lift_run _ _ _ (aget_lookup _ _ _ (proj1 Hr) Hj))).
    rewrite (Hother _ _ Hj Hne). cbn [negb]. by rewrite ret_bind. }
  assert (Hrun : ∀ (B : Type) (c : () → M state B),
    ((lift (aget [x; y; z] (Z.of_nat k)) ≫= λ sh, if negb (in_use sh) then mret () else body sh) ≫= c) s = c () s').
  { intros B c. rewrite bind_assoc. pose proof (lookup_lt_Some _ _ _ Hk).
    rewrite (bind_run _ _ _ _ _ (lift_run _ _ _ (aget_lookup _ (Z.of_nat k) sh ltac:(lia) ltac:(by rewrite Nat2Z.id)))).
    rewrite Hu. cbn [negb]. by run_step Hbody. }
  destruct k as [|[|[|k]]]; [..|done].
  - change (aget _ 0) with (aget [x; y; z] (Z.of_nat 0)). rewrite Hrun. by rewrite (Hskip 1 y), (Hskip 2 z).
  - rewrite (Hskip 0 x) by done. change (aget _ 1) with (aget [x; y; z] (Z.of_nat 1)). rewrite Hrun. by rewrite (Hskip 2 z).
  - rewrite (Hskip 0 x), (Hskip 1 y) by done. change (aget _ 2) with (aget [x; y; z] (Z.of_nat 2)). by rewrite Hrun.
Qed.

Lemma sole_partner_run act s s' rd_addr g_rd r T ga a map_addr prd_addr find_ipa rcd tagd taga :
  realm_at s rd_addr g_rd r T → realm_apt s r ga a → sole_partner a map_addr prd_addr find_ipa →
  keeps g_rd rcd tagd ga taga s → keeps g_rd rcd tagd ga taga s' →
  propagate_partner act prd_addr find_ipa (csm_locked g_rd rcd tagd ga taga s)
  = Ok ((), csm_locked g_rd rcd tagd ga taga s') →
  csm_propagate act rd_addr map_addr s = Ok ((), s').
Proof using L HL.
  intros Hra Hapt [[Hm (m & Hsl & -> & ->)]|[Hsl (m & k & sh & Hm & Hlen & Hk & Hu & -> & Hother & ->)]] Hkeep Hkeep' Hrun.
  - eapply (csm_propagate_run act s s s'); [done|done|exact Hkeep|done|by apply (to_slaves_run act _ _ _ _ None)|].
    by rewrite (to_master_run act _ _ _ _ (Some m) _ Hsl).
  - eapply (csm_propagate_run act s s' s'); [done|done|exact Hkeep|done| |by apply (to_master_run act _ _ _ _ None)].
    rewrite (to_slaves_run act _ _ _ _ (Some m) _ Hm).
    eapply (sole_share_run (λ sh, propagate_partner act (slave_rd_pa sh)
      (λ sapt, slave_region_ipa sapt (m_region_ID m) (map_addr .- m_ipa_start m)))); done.
Qed.

(** * Mapping and unmapping in the partner *)

Lemma not_table s rd_addr g_rd r T k st rc tag :
  realm_at s rd_addr g_rd r T → granules s !! k = Some (Gr false st rc tag) → gok st rc → st ≠ GRANULE_STATE_RTT →
  T !! k = None.
Proof.
  intros Hra Hk Hok Hst. destruct (T !! k) as [[i b]|] eqn:HT; [|done].
  destruct (wf_table _ _ _ (inv_wf _ _ _ (ra_inv _ _ _ _ _ Hra)) k i b HT) as (_ & _ & (rc' & tag' & Hk' & Hrc') & _).
  rewrite Hk in Hk'. apply (inj Some) in Hk'. apply Gr_inj in Hk' as (_ & ? & _); [done|done|apply gok_rtt; lia].
Qed.

(** A table of another realm changes. *)
Lemma realm_at_foreign s rd_addr g_rd r T g rc tag t l :
  realm_at s rd_addr g_rd r T → T !! g = None → g ≠ g_rd → 0 <= rc <= 512 →
  realm_at (set_rtt g rc tag t l s) rd_addr g_rd r T.
Proof.
  intros Hra HT Hne Hrc. eapply realm_at_frame; [done| | |done| |].
  - eapply rtt_inv_same; [apply (ra_inv _ _ _ _ _ Hra)|]. intros k x Hk. cbn [set_rtt granules mem].
    by rewrite !lookup_insert_ne by congruence.
  - apply set_rtt_quiescent; [apply (ra_quiet _ _ _ _ _ Hra)|done].
  - by rewrite set_rtt_granule, decide_False.
  - cbn [set_rtt mem]. by rewrite lookup_insert_ne.
Qed.

Section partner.
Context (s : state) (prd_addr g_prd : Z) (pr : rd) (PT : gmap Z (Z * Z)).
Context (rcp tagp g_rd rcd tagd ga taga ipa : Z).
Hypothesis Hra : realm_at s prd_addr g_prd pr PT.
Hypothesis Hk : keeps g_rd rcd tagd ga taga s.
Hypothesis Hg : granules s !! g_prd = Some (Gr false GRANULE_STATE_RD rcp tagp).
Hypothesis Hok : gok GRANULE_STATE_RD rcp.
Hypothesis Hipa : 0 <= ipa < 2 ^ ipa_bits (s2_ctx pr).

Let sp : state := csm_partner g_prd rcp tagp g_rd rcd tagd ga taga s.

Lemma partner_same : tables_same PT s sp ∧ PT !! g_prd = None ∧ PT !! g_rd = None ∧ PT !! ga = None.
Proof using Hra Hk Hg Hok.
  destruct Hk as (Hgr & Hokd & Hga & _ & _).
  assert (HT1 : PT !! g_prd = None) by (by eapply not_table).
  assert (HT2 : PT !! g_rd = None) by (by eapply not_table).
  assert (HT3 : PT !! ga = None) by (by eapply not_table).
  split; [|done]. unfold sp, csm_partner, csm_locked.
  repeat first [ apply tables_same_slots | eapply tables_same_trans; [|apply tables_same_slots]
               | eapply tables_same_trans; [|by apply tables_same_put] ]. by intros k x Hx.
Qed.

Lemma partner_view g rc tag p t i b : PT !! g = Some (i, b) → rtt_view sp g rc tag p t → rtt_view s g rc tag p t.
Proof using Hra Hk Hg Hok.
  intros HT [Ha Hgr Hb Hm Hp Hl]. destruct partner_same as [Hs _]. destruct (Hs g _ HT) as [H1 H2].
  split; try done. by rewrite <- H1.
Qed.

Lemma partner_set_rtt g rc tag t l i b :
  PT !! g = Some (i, b) →
  set_rtt g rc tag t l sp = csm_partner g_prd rcp tagp g_rd rcd tagd ga taga (set_rtt g rc tag t l s).
Proof using Hra Hk Hg Hok.
  intros HT. destruct partner_same as (_ & H1 & H2 & H3). unfold sp, csm_partner, csm_locked, set_rtt. st_norm. f_equal.
  rewrite (insert_insert_ne _ g g_prd), (insert_insert_ne _ g ga), (insert_insert_ne _ g g_rd); (done || congruence).
Qed.

Lemma partner_map pa e' :
  s2tte_create_assigned_ram (s2_ctx pr) pa 3 = Ok e' →
  ∃ g i b rc tag p t e, PT !! g = Some (i, b) ∧ covers_lvl i b ipa ∧ rtt_view s g rc tag p t ∧
    t !! Z.to_nat (s2_addr_to_idx ipa i) = Some e ∧ (i < 3 → entry_is_table e = false) ∧
    map_ipa_to_pa pr pa ipa sp
    = if negb (i =? 3) then Ok (0, sp)
      else if rc + 1 <=? 512
      then Ok (0, csm_partner g_prd rcp tagp g_rd rcd tagd ga taga
             (set_rtt g (rc + 1) tag (<[Z.to_nat (s2_addr_to_idx ipa 3) := e']> t) (page_tlbi (s2_ctx pr) ipa) s))
      else Err FAssert.
Proof using Hra Hk Hg Hok Hipa L HL.
  intros He'. pose proof (ra_inv _ _ _ _ _ Hra) as Hinv. destruct partner_same as [Hs _].
  destruct (map_ipa_to_pa_run sp pr PT pa ipa e' (rtt_wf_same _ _ _ _ (inv_wf _ _ _ Hinv) Hs) eq_refl
    (inv_vmid _ _ _ Hinv) Hipa He') as (g & i & b & rc & tag & p & t & e & HT & Hc & Hv & He & Hleaf & Hrun).
  exists g, i, b, rc, tag, p, t, e. split; [done|]. split; [done|]. split; [by eapply partner_view|]. do 2 (split; [done|]).
  rewrite Hrun. destruct (negb (i =? 3)); [done|]. destruct (rc + 1 <=? 512); [|done].
  by rewrite (partner_set_rtt _ _ _ _ _ _ _ HT).
Qed.

Lemma partner_unmap :
  ∃ g i b rc tag p t e, PT !! g = Some (i, b) ∧ covers_lvl i b ipa ∧ rtt_view s g rc tag p t ∧
    t !! Z.to_nat (s2_addr_to_idx ipa i) = Some e ∧ (i < 3 → entry_is_table e = false) ∧
    unmap_ipa_from_rd pr ipa sp
    = if negb (i =? 3) then Ok ((), sp)
      else match unmap_entry e with
           | None => Ok ((), sp)
           | Some e' =>
               if rc =? 0 then Err FAssert
               else Ok ((), csm_partner g_prd rcp tagp g_rd rcd tagd ga taga
                      (set_rtt g (rc - 1) tag (<[Z.to_nat (s2_addr_to_idx ipa 3) := e']> t)
                         (if s2tte_is_assigned_ram e 3 then page_tlbi (s2_ctx pr) ipa else []) s))
           end.
Proof using Hra Hk Hg Hok Hipa L HL.
  pose proof (ra_inv _ _ _ _ _ Hra) as Hinv. destruct partner_same as [Hs _].
  destruct (unmap_ipa_from_rd_run sp pr PT ipa (rtt_wf_same _ _ _ _ (inv_wf _ _ _ Hinv) Hs) eq_refl
    (inv_vmid _ _ _ Hinv) Hipa) as (g & i & b & rc & tag & p & t & e & HT & Hc & Hv & He & Hleaf & Hrun).
  exists g, i, b, rc, tag, p, t, e. split; [done|]. split; [done|]. split; [by eapply partner_view|]. do 2 (split; [done|]).
  rewrite Hrun. destruct (negb (i =? 3)); [done|]. destruct (unmap_entry e); [|done]. destruct (rc =? 0); [done|].
  by rewrite (partner_set_rtt _ _ _ _ _ _ _ HT).
Qed.
End partner.

(** * Two realms that share a region *)

(** The realm at [rd_addr] shares the region of [map_addr] with the realm at [prd_addr]
    alone, where the page's address is [ipa]. *)
Record sharing (s : state) (rd_addr g_rd : Z) (r : rd) (T : gmap Z (Z * Z)) (ga : Z) (a : apt)
  (prd_addr g_prd : Z) (pr : rd) (PT : gmap Z (Z * Z)) (gpa : Z) (papt : apt) (map_addr ipa : Z) : Prop := {
  sh_caller : realm_at s rd_addr g_rd r T;
  sh_apt : realm_apt s r ga a;
  sh_partner : realm_at s prd_addr g_prd pr PT;
  sh_papt : realm_apt s pr gpa papt;
  sh_ne : g_prd ≠ g_rd;
  sh_nea : gpa ≠ ga;
  sh_disjoint k x : PT !! k = Some x → T !! k = None;
  sh_region : ∃ find_ipa, sole_partner a map_addr prd_addr find_ipa ∧ find_ipa papt = Ok (Some ipa);
  sh_ipa : 0 <= ipa < 2 ^ ipa_bits (s2_ctx pr);
}.

Section sharing.
Context (s : state) (rd_addr g_rd : Z) (r : rd) (T : gmap Z (Z * Z)) (ga : Z) (a : apt).
Context (prd_addr g_prd : Z) (pr : rd) (PT : gmap Z (Z * Z)) (gpa : Z) (papt : apt) (map_addr ipa : Z).
Hypothesis Hsh : sharing s rd_addr g_rd r T ga a prd_addr g_prd pr PT gpa papt map_addr ipa.

(** The propagation is what [act] does in the partner. *)
Lemma sharing_run act rcd tagd taga rcp tagp s' :
  keeps g_rd rcd tagd ga taga s → keeps g_rd rcd tagd ga taga s' →
  granules s !! g_prd = Some (Gr false GRANULE_STATE_RD rcp tagp) → gok GRANULE_STATE_RD rcp →
  granules s' !! g_prd = Some (Gr false GRANULE_STATE_RD rcp tagp) →
  act pr ipa (csm_partner g_prd rcp tagp g_rd rcd tagd ga taga s)
  = Ok ((), csm_partner g_prd rcp tagp g_rd rcd tagd ga taga s') →
  csm_propagate act rd_addr map_addr s = Ok ((), s').
Proof using Hsh L HL.
  intros Hk Hk' Hg Hok Hg' Hact. destruct Hsh as [H1 H2 H3 H4 H5 H6 _ (find_ipa & H7 & H8) _].
  eapply sole_partner_run; [done|done|done|done|done|]. by eapply propagate_partner_run.
Qed.

Lemma sharing_start :
  ∃ rcd tagd taga rcp tagp, keeps g_rd rcd tagd ga taga s ∧
    granules s !! g_prd = Some (Gr false GRANULE_STATE_RD rcp tagp) ∧ gok GRANULE_STATE_RD rcp.
Proof using Hsh L.
  destruct Hsh as [H1 H2 H3 _ _ _ _ _ _].
  destruct (keeps_exists _ _ _ _ _ _ _ H1 H2) as (rcd & tagd & taga & Hk).
  destruct (realm_facts _ _ _ _ _ H3) as (rcp & tagp & p & Hg & Hok & _). by exists rcd, tagd, taga, rcp, tagp.
Qed.

(** A table of the partner is none of the other granules. *)
Lemma sharing_table g i b rcd tagd taga rcp tagp rc tag t l :
  PT !! g = Some (i, b) → 0 <= rc <= 512 → keeps g_rd rcd tagd ga taga s →
  granules s !! g_prd = Some (Gr false GRANULE_STATE_RD rcp tagp) → gok GRANULE_STATE_RD rcp →
  keeps g_rd rcd tagd ga taga (set_rtt g rc tag t l s) ∧
  granules (set_rtt g rc tag t l s) !! g_prd = Some (Gr false GRANULE_STATE_RD rcp tagp) ∧
  realm_at (set_rtt g rc tag t l s) rd_addr g_rd r T.
Proof using Hsh.
  intros HT Hrc Hk Hg Hok.
  destruct (partner_same s prd_addr g_prd pr PT rcp tagp g_rd rcd tagd ga taga (sh_partner _ _ _ _ _ _ _ _ _ _ _ _ _ _ _ Hsh)
    Hk Hg Hok) as (_ & H1 & H2 & H3).
  assert (g ≠ g_rd) by congruence. assert (g ≠ g_prd) by congruence. assert (g ≠ ga) by congruence.
  rewrite set_rtt_granule, decide_False by done. split; [|split; [done|]].
  - destruct Hk as (K1 & K2 & K3 & K4 & K5). split; [by rewrite set_rtt_granule, decide_False|].
    split; [done|]. split; [by rewrite set_rtt_granule, decide_False|]. by split.
  - apply realm_at_foreign; [apply (sh_caller _ _ _ _ _ _ _ _ _ _ _ _ _ _ _ Hsh)| |done|done].
    by eapply (sh_disjoint _ _ _ _ _ _ _ _ _ _ _ _ _ _ _ Hsh).
Qed.
End sharing.

(** The entry for an address in the table of a walk. *)
Lemma table_entry_at s s2_ctx T g i b rc tag p t addr :
  rtt_inv s s2_ctx T → T !! g = Some (i, b) → covers_lvl i b addr → rtt_view s g rc tag p t → 0 <= addr →
  ∃ e ty pa, t !! Z.to_nat (s2_addr_to_idx addr i) = Some e ∧ is_made s2_ctx ty pa i e.
Proof.
  intros Hinv HT Hc [_ _ _ Hmem Hp Hlen] Ha. destruct (inv_level _ _ _ Hinv _ _ _ HT) as [Hi1 Hi2].
  pose proof (covers_lvl_idx i b addr ltac:(lia) Ha Hc) as Hidx.
  destruct (lookup_lt_is_Some_2 t (Z.to_nat (s2_addr_to_idx addr i))) as [e He]; [lia|].
  assert (Htab : table_of s g = Some t) by (unfold table_of; by rewrite Hmem).
  destruct (inv_typed _ _ _ Hinv g i b t _ e HT Htab He) as (ty & pa & Hm). by exists e, ty, pa.
Qed.

Lemma leaf_type s2_ctx ty pa i e :
  is_made s2_ctx ty pa i e → (i < 3 → entry_is_table e = false) → i < 3 → ty ≠ Table.
Proof. intros Hm Hleaf Hi ->. destruct (table_made_phys _ _ _ _ Hm) as [Het _]. by rewrite (Hleaf Hi) in Het. Qed.

(** Mirroring a new page. After a page at [data_addr] was created in a region that the
    realm shares with one partner, the propagation maps it in the partner: where the walk
    for the partner's address of the page reaches a page entry that is unassigned, the
    entry becomes a valid mapping of the same page, both realms stay well-formed and
    nothing else changes; where the walk ends above the page level, nothing happens. *)
Theorem csm_propagate_create_spec s rd_addr g_rd r T ga a prd_addr g_prd pr PT gpa papt map_addr ipa data_addr :
  sharing s rd_addr g_rd r T ga a prd_addr g_prd pr PT gpa papt map_addr ipa →
  lvl_aligned (enable_lpa2 (s2_ctx pr)) 3 data_addr →
  let run := csm_propagate_create rd_addr data_addr map_addr s in
  ∃ g i b rc tag p t e ty pa, PT !! g = Some (i, b) ∧ covers_lvl i b ipa ∧ rtt_view s g rc tag p t ∧
    t !! Z.to_nat (s2_addr_to_idx ipa i) = Some e ∧ is_made (s2_ctx pr) ty pa i e ∧ (i < 3 → ty ≠ Table) ∧
    if i =? 3 then
      is_unassigned_type ty = true →
      ∃ e' s', is_made (s2_ctx pr) AssignedRam data_addr 3 e' ∧
        s' = set_rtt g (rc + 1) tag (<[Z.to_nat (s2_addr_to_idx ipa 3) := e']> t) (page_tlbi (s2_ctx pr) ipa) s ∧
        run = Ok ((), s') ∧ realm_at s' prd_addr g_prd pr PT ∧ realm_at s' rd_addr g_rd r T
    else run = Ok ((), s).
Proof using L HL.
  intros Hsh Hal run. destruct (sharing_start _ _ _ _ _ _ _ _ _ _ _ _ _ _ _ Hsh) as (rcd & tagd & taga & rcp & tagp & Hk & Hg & Hok).
  pose proof (sh_partner _ _ _ _ _ _ _ _ _ _ _ _ _ _ _ Hsh) as Hpa. pose proof (ra_inv _ _ _ _ _ Hpa) as Hinv.
  destruct (assign_ram (s2_ctx pr) data_addr Hal) as (e' & Hce & Hme).
  destruct (partner_map s prd_addr g_prd pr PT rcp tagp g_rd rcd tagd ga taga ipa Hpa Hk Hg Hok
    (sh_ipa _ _ _ _ _ _ _ _ _ _ _ _ _ _ _ Hsh) data_addr e' Hce) as (g & i & b & rc & tag & p & t & e & HT & Hc & Hv & He & Hleaf & Hmap).
  destruct (table_entry_at _ _ _ _ _ _ _ _ _ _ _ Hinv HT Hc Hv (proj1 (sh_ipa _ _ _ _ _ _ _ _ _ _ _ _ _ _ _ Hsh)))
    as (e0 & ty & pa & He0 & Hm). rewrite He in He0. injection He0 as <-.
  exists g, i, b, rc, tag, p, t, e, ty, pa. do 5 (split; [done|]). split; [by eapply leaf_type|].
  destruct (Z.eqb_spec i 3) as [->|Hi]; cbn [negb] in Hmap; cycle 1.
  { eapply sharing_run; [exact Hsh|exact Hk|exact Hk|exact Hg|exact Hok|exact Hg|]. by run_step Hmap. }
  intros Hty. pose proof (set_refs _ _ _ _ _ _ _ _ _ _ _ _ e' Hinv HT Hv He) as Hrc.
  rewrite (counted_made _ _ _ _ _ Hm), (counted_made _ _ _ _ _ Hme) in Hrc.
  assert (Hcn : type_counted ty = false) by (by destruct ty). rewrite Hcn in Hrc. simpl in Hrc.
  rewrite (proj2 (Z.leb_le _ _)) in Hmap by lia. exists e'. eexists. split; [done|]. split; [done|].
  destruct (sharing_table _ _ _ _ _ _ _ _ _ _ _ _ _ _ _ Hsh g 3 b rcd tagd taga rcp tagp (rc + 1) tag
    (<[Z.to_nat (s2_addr_to_idx ipa 3) := e']> t) (page_tlbi (s2_ctx pr) ipa) HT ltac:(lia) Hk Hg Hok) as (Hk' & Hg' & Hra').
  split; [|split; [|exact Hra']].
  - eapply sharing_run; [exact Hsh|exact Hk|exact Hk'|exact Hg|exact Hok|exact Hg'|]. by run_step Hmap.
  - eapply realm_at_set; [done|by eapply realm_table_ne|exact HT|done|done|exact Hm|by intros ->|exact Hme|done|].
    rewrite (counted_made _ _ _ _ _ Hm), (counted_made _ _ _ _ _ Hme), Hcn. simpl. lia.
Qed.

(** * Removing a page *)

Lemma unmap_entry_made s2_ctx ty pa e :
  is_made s2_ctx ty pa 3 e →
  unmap_entry e = (if is_data_type ty then Some (removed_entry ty) else None) ∧
  s2tte_is_assigned_ram e 3 = bool_decide (ty = AssignedRam).
Proof.
  intros Hm. pose proof (made_is _ _ _ _ _ AssignedRam Hm) as H1. pose proof (made_is _ _ _ _ _ AssignedEmpty Hm) as H2.
  pose proof (made_is _ _ _ _ _ AssignedDestroyed Hm) as H3. cbn [s2tte_is] in H1, H2, H3.
  unfold unmap_entry. rewrite H1, H2, H3. by destruct ty.
Qed.

(** The propagation of DATA_DESTROY: the partner's page entry loses the page too; a block
    of the partner that contains the page is left as it is. *)
Lemma csm_propagate_destroy_run s rd_addr g_rd r T ga a prd_addr g_prd pr PT gpa papt map_addr ipa :
  sharing s rd_addr g_rd r T ga a prd_addr g_prd pr PT gpa papt map_addr ipa →
  ∃ g i b rc tag p t e ty pa, PT !! g = Some (i, b) ∧ covers_lvl i b ipa ∧ rtt_view s g rc tag p t ∧
    t !! Z.to_nat (s2_addr_to_idx ipa i) = Some e ∧ is_made (s2_ctx pr) ty pa i e ∧ (i < 3 → ty ≠ Table) ∧
    if (i =? 3) && is_data_type ty then
      ∃ s', s' = set_rtt g (rc - 1) tag (<[Z.to_nat (s2_addr_to_idx ipa 3) := removed_entry ty]> t)
                   (removed_tlbi (s2_ctx pr) ty ipa) s ∧
        csm_propagate_destroy rd_addr map_addr s = Ok ((), s') ∧
        realm_at s' prd_addr g_prd pr PT ∧ realm_at s' rd_addr g_rd r T
    else csm_propagate_destroy rd_addr map_addr s = Ok ((), s).
Proof using L HL.
  intros Hsh. destruct (sharing_start _ _ _ _ _ _ _ _ _ _ _ _ _ _ _ Hsh) as (rcd & tagd & taga & rcp & tagp & Hk & Hg & Hok).
  pose proof (sh_partner _ _ _ _ _ _ _ _ _ _ _ _ _ _ _ Hsh) as Hpa. pose proof (ra_inv _ _ _ _ _ Hpa) as Hinv.
  destruct (partner_unmap s prd_addr g_prd pr PT rcp tagp g_rd rcd tagd ga taga ipa Hpa Hk Hg Hok
    (sh_ipa _ _ _ _ _ _ _ _ _ _ _ _ _ _ _ Hsh)) as (g & i & b & rc & tag & p & t & e & HT & Hc & Hv & He & Hleaf & Hmap).
  destruct (table_entry_at _ _ _ _ _ _ _ _ _ _ _ Hinv HT Hc Hv (proj1 (sh_ipa _ _ _ _ _ _ _ _ _ _ _ _ _ _ _ Hsh)))
    as (e0 & ty & pa & He0 & Hm). rewrite He in He0. injection He0 as <-.
  exists g, i, b, rc, tag, p, t, e, ty, pa. do 5 (split; [done|]). split; [by eapply leaf_type|].
  destruct (Z.eqb_spec i 3) as [->|Hi]; cbn [negb andb] in Hmap |- *; cycle 1.
  { eapply sharing_run; [exact Hsh|exact Hk|exact Hk|exact Hg|exact Hok|exact Hg|exact Hmap]. }
  destruct (unmap_entry_made _ _ _ _ Hm) as (Hue & Hram). rewrite Hue in Hmap.
  destruct (is_data_type ty) eqn:Hty; cycle 1.
  { eapply sharing_run; [exact Hsh|exact Hk|exact Hk|exact Hg|exact Hok|exact Hg|exact Hmap]. }
  pose proof (inv_level _ _ _ Hinv _ _ _ HT) as [Hl1 Hl2].
  pose proof (min_starting_level_le (s2_ctx pr)) as Hmin.
  pose proof (removed_made (s2_ctx pr) ty 3 ltac:(lia)) as Hm'.
  destruct (remove_refs _ _ _ _ _ _ _ _ _ _ _ _ _ Hinv HT Hv He Hm Hty ltac:(lia)) as (Hc1 & Hc2 & Hrc).
  rewrite (proj2 (Z.eqb_neq rc 0)) in Hmap by lia.
  assert (Htl : (if s2tte_is_assigned_ram e 3 then page_tlbi (s2_ctx pr) ipa else []) = removed_tlbi (s2_ctx pr) ty ipa)
    by (rewrite Hram; by destruct ty). rewrite Htl in Hmap.
  destruct (sharing_table _ _ _ _ _ _ _ _ _ _ _ _ _ _ _ Hsh g 3 b rcd tagd taga rcp tagp (rc - 1) tag
    (<[Z.to_nat (s2_addr_to_idx ipa 3) := removed_entry ty]> t) (removed_tlbi (s2_ctx pr) ty ipa) HT ltac:(lia) Hk Hg Hok)
    as (Hk' & Hg' & Hra').
  eexists. split; [done|]. split; [|split; [|exact Hra']].
  - eapply sharing_run; [exact Hsh|exact Hk|exact Hk'|exact Hg|exact Hok|exact Hg'|exact Hmap].
  - eapply realm_at_set; [done|by eapply realm_table_ne|exact HT|done|done|exact Hm|by intros ->|exact Hm'|by destruct ty|].
    rewrite Hc1, Hc2. simpl. lia.
Qed.

Lemma realm_apt_frame s s' r ga a :
  realm_apt s r ga a → granules s' !! ga = granules s !! ga → mem s' !! ga = mem s !! ga → realm_apt s' r ga a.
Proof.
  intros (Hu & Hnz & Hl & Hm) Hg Hme. split; [done|]. split; [done|]. rewrite Hme. split; [|done].
  pose proof (lockable_find _ _ _ _ Hl) as Hf. unfold lockable in *. rewrite Hf in *. by rewrite Hg.
Qed.

(** The sharing goes on after a table of the caller changed and a data granule was freed. *)
Lemma sharing_local s rd_addr g_rd r T ga a prd_addr g_prd pr PT gpa papt map_addr ipa g i b rc tag t l d h tagh :
  sharing s rd_addr g_rd r T ga a prd_addr g_prd pr PT gpa papt map_addr ipa →
  T !! g = Some (i, b) → 0 <= rc <= 512 → is_u64 d → lockable s d GRANULE_STATE_DATA = Some h →
  let s' := set_page h GRANULE_STATE_DELEGATED 0 tagh PZero (set_rtt g rc tag t l s) in
  realm_at s' rd_addr g_rd r T →
  sharing s' rd_addr g_rd r T ga a prd_addr g_prd pr PT gpa papt map_addr ipa ∧ PT !! h = None ∧ PT !! g = None.
Proof using L.
  intros [H1 H2 H3 H4 H5 H6 H7 H8 H9] HT Hrc Hd Hl s' Hra'.
  destruct (other_state _ _ _ _ _ _ _ _ H1 Hd Hl ltac:(done) ltac:(done)) as [HTh Hhrd].
  destruct (other_state _ _ _ _ _ _ _ _ H3 Hd Hl ltac:(done) ltac:(done)) as [HPh Hhprd].
  assert (HPg : PT !! g = None) by (destruct (PT !! g) eqn:E; [apply H7 in E; congruence|done]).
  destruct (apt_granule _ _ _ _ _ _ _ H1 H2) as (taga & Hga & _ & _ & HTa & _).
  destruct (apt_granule _ _ _ _ _ _ _ H3 H4) as (tagpa & Hgpa & _ & _ & HTpa & _).
  destruct (lockable_quiet _ _ _ _ Hd (ra_quiet _ _ _ _ _ H1) Hl) as (rch & tagh0 & Hh & Hokh & _).
  destruct (wf_table _ _ _ (inv_wf _ _ _ (ra_inv _ _ _ _ _ H1)) g i b HT) as (_ & _ & (rc0 & tag0 & Hg0 & Hrc0) & _).
  destruct (realm_facts _ _ _ _ _ H3) as (rcp & tagp & pp & Hgp & Hokp & _).
  assert (Hne : ∀ k st tagk, granules s !! k = Some (Gr false st 0 tagk) → st = GRANULE_STATE_APT → k ≠ g ∧ k ≠ h).
  { intros k st tagk Hk ->. split; intros ->.
    - rewrite Hg0 in Hk. apply (inj Some) in Hk. apply Gr_inj in Hk as (_ & ? & _); [done|apply gok_rtt; lia|done].
    - rewrite Hh in Hk. apply (inj Some) in Hk. by apply Gr_inj in Hk as (_ & ? & _). }
  destruct (Hne _ _ _ Hga eq_refl), (Hne _ _ _ Hgpa eq_refl).
  assert (g ≠ g_prd).
  { intros ->. rewrite Hgp in Hg0. apply (inj Some) in Hg0. apply Gr_inj in Hg0 as (_ & ? & _); [done|done|apply gok_rtt; lia]. }
  split; [|done]. split; try done.
  - eapply realm_apt_frame; [done|..]; unfold s', set_page, set_rtt; cbn; by rewrite !lookup_insert_ne by congruence.
  - apply realm_at_set_page; [|done|done|done|done]. by apply realm_at_foreign.
  - eapply realm_apt_frame; [done|..]; unfold s', set_page, set_rtt; cbn; by rewrite !lookup_insert_ne by congruence.
Qed.

End propagate.

(** * An example *)

#[local] Instance pair_config : Config := plain_config.

(** Two realms of the shape of the example realm, with descriptors in granules 0 and 7. The
    region with identifier 9 is the first 2MB of the slave, granule 0, and lies at 2^20 in
    the master, granule 7. *)
Definition pair_ctx (k : Z) : s2tt_context :=
  {| ipa_bits := 32; s2_starting_level := 1; num_root_rtts := 1; g_rtt := k + 1; vmid := k;
     enable_lpa2 := false |}.
Definition pair_rd (k apt_addr : Z) : rd :=
  {| rd_state := REALM_NEW; rec_count := 0; rim := replicate 64 0; rems := replicate 4 (replicate 64 0); s2_ctx := pair_ctx k;
     num_rec_aux := 0;
     algorithm := HASH_SHA_256; pmu_enabled := false; pmu_num_ctrs := 0;
     simd_cfg := simd_config_zero; rpv := replicate 64 0; apt_pa := apt_addr |}.
Definition pair_tables (k : Z) : gmap Z (Z * Z) :=
  <[k + 1 := (1, 0)]> (<[k + 2 := (2, 0)]> {[ k + 3 := (3, 0) ]}).

Definition slave_apt : apt :=
  {| master_memory := master_memory apt_zero;
     slave_memory := <[0%nat := {| master_ID := 1; s_region_ID := 9; master_rd_pa := 7 * 4096;
                                   s_ipa_start := 0; s_map_size := 2 ^ 21 |}]> (slave_memory apt_zero);
     enabled_mr := enabled_mr apt_zero;
     enabled_sr := {| elen := 1; eindex := eindex (enabled_sr apt_zero);
                      epos_by_index := epos_by_index (enabled_sr apt_zero) |};
     master_used_mask := 0; slave_used_mask := 1; master_enabled_mask := 0; slave_enabled_mask := 1 |}.
Definition master_apt : apt :=
  {| master_memory := <[0%nat := {| m_region_ID := 9; m_ipa_start := 2 ^ 20; m_map_size := 2 ^ 21;
                                    share_count := 1;
                                    shares := <[0%nat := {| slave_ID := 2; slave_rd_pa := 0; permission := 3;
                                                            in_use := true |}]> (shares master_mem_zero) |}]>
                        (master_memory apt_zero);
     slave_memory := slave_memory apt_zero;
     enabled_mr := {| elen := 1; eindex := eindex (enabled_mr apt_zero);
                      epos_by_index := epos_by_index (enabled_mr apt_zero) |};
     enabled_sr := enabled_sr apt_zero;
     master_used_mask := 1; slave_used_mask := 0; master_enabled_mask := 1; slave_enabled_mask := 0 |}.

(** The tables of levels 1 and 2 of the realm at [k]. *)
Definition pair_table (k : Z) : page := PTable (demo_table (k * 4096 + 3)).

(** [l] and [l'] are the level 3 tables, with [rc] and [rc'] live entries. *)
Definition pair_state (l : list Z) (rc : Z) (l' : list Z) (rc' : Z) : state :=
  set_granules (list_to_map (zip (seqZ 0 12)
    [Gr false GRANULE_STATE_RD 0 0; Gr false GRANULE_STATE_RTT 1 0; Gr false GRANULE_STATE_RTT 1 0;
     Gr false GRANULE_STATE_RTT rc 0; Gr false GRANULE_STATE_DATA 0 0; Gr false GRANULE_STATE_DELEGATED 0 0;
     Gr false GRANULE_STATE_APT 0 0;
     Gr false GRANULE_STATE_RD 0 0; Gr false GRANULE_STATE_RTT 1 0; Gr false GRANULE_STATE_RTT 1 0;
     Gr false GRANULE_STATE_RTT rc' 0; Gr false GRANULE_STATE_APT 0 0]))
  (set_mem (list_to_map
    [(0, PRd (pair_rd 0 (6 * 4096))); (1, pair_table 2); (2, pair_table 3); (3, PTable l); (6, PApt slave_apt);
     (7, PRd (pair_rd 7 (11 * 4096))); (8, pair_table 9); (9, pair_table 10); (10, PTable l'); (11, PApt master_apt)])
   state_init).

Definition pair_platform : Platform := flat_platform 12 0.
Definition pair_laws : PlatformLaws pair_platform := flat_laws 12 0 ltac:(lia) ltac:(lia) eq_refl.
Definition pair_machine_laws : MachineLaws pair_platform zero_machine :=
  zero_machine_laws 12 0 ltac:(lia) ltac:(lia) eq_refl.

Lemma pair_quiescent l rc l' rc' :
  0 <= rc <= 512 → 0 <= rc' <= 512 → quiescent (P := pair_platform) (pair_state l rc l' rc').
Proof.
  intros Hrc Hrc' g Hg. change RMM_MAX_GRANULES with 12 in Hg.
  assert (g = 0 ∨ g = 1 ∨ g = 2 ∨ g = 3 ∨ g = 4 ∨ g = 5 ∨ g = 6 ∨ g = 7 ∨ g = 8 ∨ g = 9 ∨ g = 10 ∨ g = 11) as Hc by lia.
  destruct_or! Hc; subst g; (eexists; split; [reflexivity|]; eexists _, _, _; split; [reflexivity|]); try done.
  all: split; [split; [done|change REFCOUNT_MAX with 1023; lia]|]; by apply rtt_unlocked.
Qed.

(** What the realm at [k] needs of the state. *)
Record pair_has (s : state) (k apt_addr : Z) (l : list Z) (rc : Z) : Prop := {
  ph_quiet : quiescent (P := pair_platform) s;
  ph_slots : slots s = ∅;
  ph_lock : lockable (P := pair_platform) s (k * 4096) GRANULE_STATE_RD = Some k;
  ph_rd : mem s !! k = Some (PRd (pair_rd k apt_addr));
  ph_g1 : granules s !! (k + 1) = Some (Gr false GRANULE_STATE_RTT 1 0);
  ph_g2 : granules s !! (k + 2) = Some (Gr false GRANULE_STATE_RTT 1 0);
  ph_g3 : granules s !! (k + 3) = Some (Gr false GRANULE_STATE_RTT rc 0);
  ph_m1 : mem s !! (k + 1) = Some (pair_table (k + 2));
  ph_m2 : mem s !! (k + 2) = Some (pair_table (k + 3));
  ph_m3 : mem s !! (k + 3) = Some (PTable l);
}.

Lemma pair_table_of s g t : mem s !! g = Some (PTable t) → table_of s g = Some t.
Proof. intros Hm. unfold table_of. by rewrite Hm. Qed.

Ltac pair_cases :=
  unfold pair_tables; rewrite !lookup_insert_Some, lookup_singleton_Some;
  intros [[<- [= <- <-]]|[_ [[<- [= <- <-]]|[_ [<- [= <- <-]]]]]].
Ltac pair_tab Hm := rewrite (pair_table_of _ _ _ Hm); intros [= <-].

Lemma pair_zero_made k i : 1 <= i <= 3 → is_made (pair_ctx k) UnassignedEmpty 0 i 0.
Proof. intros Hi. split; [change (0 <= i <= 3); lia|by exists 0]. Qed.

Lemma pair_entry_made k g i idx x :
  k = 0 ∨ k = 7 → g = k + 2 ∧ i = 1 ∨ g = k + 3 ∧ i = 2 →
  demo_table (g * 4096 + 3) !! idx = Some x → ∃ ty pa, is_made (pair_ctx k) ty pa i x.
Proof.
  intros Hk Hg. destruct idx as [|idx]; cbn [demo_table lookup list_lookup].
  - intros [= <-]. exists Table, (g * 4096). destruct Hk as [-> | ->], Hg as [[-> ->]|[-> ->]]; (split; [done|by exists 0]).
  - intros [-> _]%lookup_replicate. exists UnassignedEmpty, 0. destruct Hg as [[_ ->]|[_ ->]]; by apply pair_zero_made.
Qed.

Lemma pair_link k g : k = 0 ∨ k = 7 → g = k + 2 ∨ g = k + 3 →
  entry_is_table (g * 4096 + 3) = true ∧ table_entry_to_phys (g * 4096 + 3) false = Ok (g * 4096) ∧
  addr_to_granule (P := pair_platform) (g * 4096) = Ok g.
Proof. by intros [-> | ->] [-> | ->]. Qed.

Lemma pair_wf s k apt_addr l rc :
  k = 0 ∨ k = 7 → pair_has s k apt_addr l rc → length l = 512%nat → 0 <= rc <= 512 →
  rtt_wf (P := pair_platform) s (pair_ctx k) (pair_tables k).
Proof.
  intros Hk [_ _ _ _ Hg1 Hg2 Hg3 Hm1 Hm2 Hm3] Hl Hrc. split; try done.
  - cbn [num_root_rtts pair_ctx g_rtt s2_starting_level]. intros j Hj. assert (j = 0) as -> by lia.
    rewrite Z.add_0_r. apply lookup_insert_eq.
  - intros g i b.
    assert (Ha : ∀ j, 1 <= j <= 3 → has_addr (P := pair_platform) (k + j)).
    { intros j Hj. assert (j = 1 ∨ j = 2 ∨ j = 3) as Hc by lia.
      destruct Hk as [-> | ->]; destruct_or! Hc; subst j; split; by (lia || eexists). }
    pair_cases; (split; [simpl; lia|]); (split; [apply Ha; lia|]); (split; [by eexists _, _|]);
      [exists (demo_table ((k + 2) * 4096 + 3))|exists (demo_table ((k + 3) * 4096 + 3))|exists l];
      (split; [by apply pair_table_of|done]).
  - intros g i b t idx e.
    destruct (pair_link k (k + 2) Hk ltac:(lia)) as (_ & Hp2 & Ha2).
    destruct (pair_link k (k + 3) Hk ltac:(lia)) as (_ & Hp3 & Ha3). pair_cases; intros Hi; [..|lia].
    + pair_tab Hm1. intros Hidx Htab; destruct (demo_table_entry _ _ _ Hidx Htab) as [-> ->].
      exists ((k + 2) * 4096), (k + 2). split; [done|]. split; [done|].
      unfold pair_tables. rewrite lookup_insert_ne by lia. apply lookup_insert_eq.
    + pair_tab Hm2. intros Hidx Htab; destruct (demo_table_entry _ _ _ Hidx Htab) as [-> ->].
      exists ((k + 3) * 4096), (k + 3). split; [done|]. split; [done|].
      unfold pair_tables. rewrite !lookup_insert_ne by lia. apply lookup_singleton_eq.
Qed.

Lemma pair_count s g n m tag rc :
  granules s !! g = Some (Gr false GRANULE_STATE_RTT n 0) → 0 <= n <= 512 →
  granules s !! g = Some (Gr false GRANULE_STATE_RTT rc tag) → 0 <= rc <= 512 → n = m → rc = m.
Proof.
  intros Hg Hn Hg' Hrc <-. rewrite Hg in Hg'. apply (inj Some) in Hg'.
  apply Gr_inj in Hg' as (_ & _ & <- & _); [done|apply gok_rtt; lia..].
Qed.

Lemma pair_realm_at s k apt_addr l :
  k = 0 ∨ k = 7 → pair_has s k apt_addr l (count 3 l) → length l = 512%nat →
  (∀ idx e, l !! idx = Some e → ∃ ty pa, is_made (pair_ctx k) ty pa 3 e) →
  realm_at (P := pair_platform) s (k * 4096) k (pair_rd k apt_addr) (pair_tables k).
Proof.
  intros Hk Hs Hl H3. pose proof (count_range 3 l Hl) as Hr. pose proof Hs as [Hq Hsl Hlock Hrd Hg1 Hg2 Hg3 Hm1 Hm2 Hm3].
  split; [done|done|by destruct Hk as [-> | ->]|done|by rewrite Hrd|].
  assert (Hone : 1 = count 1 (demo_table ((k + 2) * 4096 + 3)) ∧ 1 = count 2 (demo_table ((k + 3) * 4096 + 3)))
    by (by destruct Hk as [-> | ->]).
  split; [by eapply pair_wf|by destruct Hk as [-> | ->]|..].
  - intros g i b t idx e. pair_cases; [pair_tab Hm1|pair_tab Hm2|pair_tab Hm3]; intros He; [..|by apply (H3 idx)].
    + eapply pair_entry_made; [done| |exact He]. lia.
    + eapply pair_entry_made; [done| |exact He]. lia.
  - intros g i b rc' tag t. pair_cases; [pair_tab Hm1|pair_tab Hm2|pair_tab Hm3]; intros Hg Hrc.
    + eapply pair_count; [exact Hg1|lia|exact Hg|done|apply Hone].
    + eapply pair_count; [exact Hg2|lia|exact Hg|done|apply Hone].
    + eapply pair_count; [exact Hg3|lia|exact Hg|done|done].
  - intros g i b. by pair_cases.
  - intros g h x. unfold pair_tables. rewrite !lookup_insert_Some, !lookup_singleton_Some.
    intros [[<- <-]|[_ [[<- <-]|[_ [<- <-]]]]] [[<- [=]]|[_ [[<- [=]]|[_ [<- [=]]]]]]; done.
  - intros h j c. pair_cases; intros Hj; [by destruct (Z.lt_irrefl 1)|..].
    + destruct (pair_link k (k + 2) Hk ltac:(lia)) as (H1 & H2 & H4).
      exists (k + 1), 0, (demo_table ((k + 2) * 4096 + 3)), 0%nat, ((k + 2) * 4096 + 3), ((k + 2) * 4096).
      split_and!; try done; [apply lookup_insert_eq|by apply pair_table_of].
    + destruct (pair_link k (k + 3) Hk ltac:(lia)) as (H1 & H2 & H4).
      exists (k + 2), 0, (demo_table ((k + 3) * 4096 + 3)), 0%nat, ((k + 3) * 4096 + 3), ((k + 3) * 4096).
      split_and!; try done; [rewrite lookup_insert_ne by lia; apply lookup_insert_eq|by apply pair_table_of].
  - intros h c. unfold pair_tables. rewrite !lookup_insert_Some, lookup_singleton_Some.
    intros [[<- _]|[_ [[_ [=]]|[_ [_ [=]]]]]]. exists 0. cbn. split; [lia|]. lia.
Qed.

Lemma pair_sharing l l' :
  length l = 512%nat → (∀ idx e, l !! idx = Some e → ∃ ty pa, is_made (pair_ctx 0) ty pa 3 e) →
  length l' = 512%nat → (∀ idx e, l' !! idx = Some e → ∃ ty pa, is_made (pair_ctx 7) ty pa 3 e) →
  sharing (P := pair_platform) (pair_state l (count 3 l) l' (count 3 l')) 0 0 (pair_rd 0 (6 * 4096)) (pair_tables 0)
    6 slave_apt (7 * 4096) 7 (pair_rd 7 (11 * 4096)) (pair_tables 7) 11 master_apt 4096 (2 ^ 20 + 4096).
Proof.
  intros Hl H3 Hl' H3'. pose proof (count_range 3 l Hl) as Hr. pose proof (count_range 3 l' Hl') as Hr'.
  pose proof (pair_quiescent l (count 3 l) l' (count 3 l') ltac:(lia) ltac:(lia)) as Hq. split; try done.
  - apply (pair_realm_at (pair_state l (count 3 l) l' (count 3 l')) 0 (6 * 4096) l); [by left|by split|done|done].
  - apply (pair_realm_at (pair_state l (count 3 l) l' (count 3 l')) 7 (11 * 4096) l'); [by right|by split|done|done].
  - intros k x. unfold pair_tables. rewrite !lookup_insert_Some, lookup_singleton_Some.
    by intros [[<- _]|[_ [[<- _]|[_ [<- _]]]]].
  - eexists. split; [left; split; [reflexivity|]; eexists; split; [reflexivity|]; split; [reflexivity|]; reflexivity|].
    reflexivity.
Qed.

Lemma pair_empty k idx e :
  replicate 512 0 !! idx = Some e → ∃ ty pa, is_made (pair_ctx k) ty pa 3 e.
Proof. intros [-> _]%lookup_replicate. exists UnassignedEmpty, 0. by apply pair_zero_made. Qed.

(** A walk of the realm at [k] to an address of the first 2MB that ends at an entry that is
    not a table ends at level 3. *)
Lemma pair_walk_end s k apt_addr l rc0 g i b rc tag p t addr e ty pa :
  k = 0 ∨ k = 7 → pair_has s k apt_addr l rc0 → pair_tables k !! g = Some (i, b) →
  rtt_view (P := pair_platform) s g rc tag p t → s2_addr_to_idx addr 1 = 0 → s2_addr_to_idx addr 2 = 0 →
  t !! Z.to_nat (s2_addr_to_idx addr i) = Some e → is_made (pair_ctx k) ty pa i e → (i < 3 → ty ≠ Table) →
  g = k + 3 ∧ i = 3 ∧ t = l.
Proof.
  intros Hk [_ _ _ _ Hg1 Hg2 Hg3 Hm1 Hm2 Hm3] HT [_ _ _ Hm Hp _] H1 H2 He Hmd Hnt. revert HT.
  assert (Hno : ∀ g, g = k + 2 ∨ g = k + 3 → i < 3 → e = g * 4096 + 3 → False).
  { intros x Hx Hi ->. pose proof (made_not_table _ _ _ _ _ Hi Hmd (Hnt Hi)) as Hf.
    destruct (pair_link k x Hk Hx) as [Ht _]. congruence. }
  pair_cases.
  - rewrite Hm1 in Hm. apply (inj Some) in Hm as <-. apply (inj Some) in Hp as <-. rewrite H1 in He.
    apply (inj Some) in He as <-. exfalso. by eapply (Hno (k + 2)); [lia|lia|].
  - rewrite Hm2 in Hm. apply (inj Some) in Hm as <-. apply (inj Some) in Hp as <-. rewrite H2 in He.
    apply (inj Some) in He as <-. exfalso. by eapply (Hno (k + 3)); [lia|lia|].
  - rewrite Hm3 in Hm. apply (inj Some) in Hm as <-. by apply (inj Some) in Hp as <-.
Qed.

Lemma pair_has_slave l l' :
  length l = 512%nat → length l' = 512%nat →
  pair_has (pair_state l (count 3 l) l' (count 3 l')) 0 (6 * 4096) l (count 3 l).
Proof.
  intros Hl Hl'. pose proof (count_range 3 l Hl). pose proof (count_range 3 l' Hl').
  split; try done. apply pair_quiescent; lia.
Qed.
Lemma pair_has_master l l' :
  length l = 512%nat → length l' = 512%nat →
  pair_has (pair_state l (count 3 l) l' (count 3 l')) 7 (11 * 4096) l' (count 3 l').
Proof.
  intros Hl Hl'. pose proof (count_range 3 l Hl). pose proof (count_range 3 l' Hl').
  split; try done. apply pair_quiescent; lia.
Qed.

(** The page table with one page, granule 4, at index [n]. *)
Definition pair_page (n : nat) : list Z := <[n := 4 * 4096 + S2TTE_PAGE]> (replicate 512 0).

Lemma pair_page_made k n idx e : pair_page n !! idx = Some e → ∃ ty pa, is_made (pair_ctx k) ty pa 3 e.
Proof.
  intros [[-> [<- _]]|[_ He]]%list_lookup_insert_Some; [|by eapply pair_empty].
  exists AssignedRam, (4 * 4096). split; [split; [lia|reflexivity]|]. by exists 0.
Qed.

Lemma csm_propagate_create_spec_witness :
  ∃ s', csm_propagate_create (P := pair_platform) (H := zero_machine) 0 (4 * 4096) 4096
          (pair_state (pair_page 1) 1 (replicate 512 0) 0) = Ok ((), s') ∧
    realm_at (P := pair_platform) s' (7 * 4096) 7 (pair_rd 7 (11 * 4096)) (pair_tables 7).
Proof.
  destruct (csm_propagate_create_spec (P := pair_platform) (H := zero_machine) (L := pair_laws)
    (HL := pair_machine_laws) (pair_state (pair_page 1) 1 (replicate 512 0) 0) _ _ _ _ _ _ _ _ _ _ _ _ _ _ (4 * 4096)
    (pair_sharing (pair_page 1) (replicate 512 0) eq_refl (pair_page_made 0 1) eq_refl (pair_empty 7)) ltac:(by split)) as
    (g & i & b & rc & tag & p & t & e & ty & pa & HT & _ & Hv & He & Hm & Hnt & Hrun).
  destruct (pair_walk_end (pair_state (pair_page 1) 1 (replicate 512 0) 0) 7 (11 * 4096) (replicate 512 0) 0
    g i b rc tag p t (2 ^ 20 + 4096) e ty pa ltac:(by right) (pair_has_master (pair_page 1) (replicate 512 0) eq_refl eq_refl)
    HT Hv eq_refl eq_refl He Hm Hnt) as (-> & -> & ->).
  apply lookup_replicate in He as [-> _].
  assert (ty = UnassignedEmpty) as -> by (by apply (made_type _ _ _ _ _ UnassignedEmpty Hm)).
  destruct (Hrun eq_refl) as (e' & s' & _ & _ & Hrun' & Hra & _). exists s'. split; [exact Hrun'|exact Hra].
Defined.

