(* ===== verification/Feature.v ===== *)
(** Architecture features and the RMI feature register (lib/arch/include/arch_features.h,
    lib/arch/src/arch_features.c, runtime/rmi/feature.c), and the allocation of VMIDs
    (lib/arch/src/vmid.c). The identification registers and the values that the drivers
    discover at boot are parameters. *)
From S2P Require Import Prelude Types S2tte Rtt.

(** * Registers *)

(** What the processor and the drivers report: identification registers, the SIMD
    configuration found by [simd_init], the number of GIC list registers, minus one. *)
Class Cpu := {
  read_id_aa64mmfr0_el1 : Z;
  read_id_aa64mmfr1_el1 : Z;
  read_id_aa64dfr0_el1 : Z;
  read_id_aa64dfr1_el1 : Z;
  read_pmcr_el0 : Z;
  g_simd_init_done : bool;
  g_simd_cfg : simd_config;
  nr_lrs : Z;
}.

Definition RMI_FEATURE_FALSE : Z := 0.
Definition RMI_FEATURE_TRUE : Z := 1.
Definition VMID8_COUNT : Z := 2 ^ 8.
Definition VMID16_COUNT : Z := 2 ^ 16.
Definition BITS_PER_UL : Z := 64.

(** A field of a register: its shift and width. *)
Record bitfield := { fshift : Z; fwidth : Z }.
Definition EXTRACT_F (f : bitfield) (reg : Z) : Z := EXTRACT (fshift f) (fwidth f) reg.
Definition INPLACE_F (f : bitfield) (val : Z) : Z := INPLACE (fshift f) val.

Definition ID_AA64MMFR0_EL1_PARANGE : bitfield := {| fshift := 0; fwidth := 4 |}.
Definition ID_AA64MMFR0_EL1_TGRAN4 : bitfield := {| fshift := 28; fwidth := 4 |}.
Definition ID_AA64MMFR0_EL1_TGRAN4_2 : bitfield := {| fshift := 40; fwidth := 4 |}.
Definition ID_AA64MMFR1_EL1_VMIDBits : bitfield := {| fshift := 4; fwidth := 4 |}.
Definition ID_AA64DFR0_EL1_HPMN0 : bitfield := {| fshift := 60; fwidth := 4 |}.
Definition ID_AA64DFR0_EL1_WRPs : bitfield := {| fshift := 20; fwidth := 4 |}.
Definition ID_AA64DFR0_EL1_BRPs : bitfield := {| fshift := 12; fwidth := 4 |}.
Definition ID_AA64DFR0_EL1_PMUVer : bitfield := {| fshift := 8; fwidth := 4 |}.
Definition ID_AA64DFR1_EL1_WRPs : bitfield := {| fshift := 16; fwidth := 8 |}.
Definition ID_AA64DFR1_EL1_BRPs : bitfield := {| fshift := 8; fwidth := 8 |}.
Definition PMCR_EL0_N : bitfield := {| fshift := 11; fwidth := 5 |}.

Definition RMI_FEATURE_REGISTER_0_S2SZ : bitfield := {| fshift := 0; fwidth := 8 |}.
Definition RMI_FEATURE_REGISTER_0_LPA2 : bitfield := {| fshift := 8; fwidth := 1 |}.
Definition RMI_FEATURE_REGISTER_0_SVE_EN : bitfield := {| fshift := 9; fwidth := 1 |}.
Definition RMI_FEATURE_REGISTER_0_SVE_VL : bitfield := {| fshift := 10; fwidth := 4 |}.
Definition RMI_FEATURE_REGISTER_0_NUM_BPS : bitfield := {| fshift := 14; fwidth := 6 |}.
Definition RMI_FEATURE_REGISTER_0_NUM_WPS : bitfield := {| fshift := 20; fwidth := 6 |}.
Definition RMI_FEATURE_REGISTER_0_PMU_EN : bitfield := {| fshift := 26; fwidth := 1 |}.
Definition RMI_FEATURE_REGISTER_0_PMU_NUM_CTRS : bitfield := {| fshift := 27; fwidth := 5 |}.
Definition RMI_FEATURE_REGISTER_0_HASH_SHA_256 : bitfield := {| fshift := 32; fwidth := 1 |}.
Definition RMI_FEATURE_REGISTER_0_HASH_SHA_512 : bitfield := {| fshift := 33; fwidth := 1 |}.
Definition RMI_FEATURE_REGISTER_0_GICV3_NUM_LRS : bitfield := {| fshift := 34; fwidth := 4 |}.
Definition RMI_FEATURE_REGISTER_0_MAX_RECS_ORDER : bitfield := {| fshift := 38; fwidth := 4 |}.

Section feature.
Context {CF : Config} {CPU : Cpu}.

(** * Features *)

(** The OpenCCA build answers a constant. *)
Definition is_feat_vmid16_present : bool :=
  if ENABLE_OPENCCA then false
  else EXTRACT_F ID_AA64MMFR1_EL1_VMIDBits read_id_aa64mmfr1_el1 =? 2.

Definition is_feat_lpa2_4k_present : bool :=
  if ENABLE_OPENCCA then false
  else EXTRACT_F ID_AA64MMFR0_EL1_TGRAN4 read_id_aa64mmfr0_el1 =? 1.

Definition is_feat_lpa2_4k_2_present : bool :=
  if ENABLE_OPENCCA then false
  else (EXTRACT_F ID_AA64MMFR0_EL1_TGRAN4_2 read_id_aa64mmfr0_el1 =? 3) ||
       (EXTRACT_F ID_AA64MMFR0_EL1_TGRAN4_2 read_id_aa64mmfr0_el1 =? 0) && is_feat_lpa2_4k_present.

Definition read_pmu_version : Z := u32 (EXTRACT_F ID_AA64DFR0_EL1_PMUVer read_id_aa64dfr0_el1).

Definition is_feat_hpmn0_present : bool :=
  if ENABLE_OPENCCA then false
  else EXTRACT_F ID_AA64DFR0_EL1_HPMN0 read_id_aa64dfr0_el1 =? 1.

Definition pa_range_bits_arr : list Z := [32; 36; 40; 42; 44; 48; 52].

Definition arch_feat_get_pa_width : result Z :=
  let pa_range := EXTRACT_F ID_AA64MMFR0_EL1_PARANGE read_id_aa64mmfr0_el1 in
  rassert (pa_range <? 7) ≫= λ _, aget pa_range_bits_arr pa_range.

Definition simd_get_cpu_config (simd_cfg : simd_config) : Z * simd_config :=
  if negb g_simd_init_done then (-1, simd_cfg) else (0, g_simd_cfg).

Definition gic_vgic_get_num_lrs : Z := nr_lrs.

(** ** The feature register *)

(** The number of breakpoints or watchpoints, minus one, from the two debug registers. *)
Definition num_debug (dfr0 dfr1 : bitfield) : Z :=
  let num := EXTRACT_F dfr0 read_id_aa64dfr0_el1 in
  if num =? 15 then
    let num := EXTRACT_F dfr1 read_id_aa64dfr1_el1 in
    if num =? 0 then 15 else num
  else num.

Definition get_feature_register_0 : result Z :=
  arch_feat_get_pa_width ≫= λ s2sz,
  let feat_reg0 := INPLACE_F RMI_FEATURE_REGISTER_0_S2SZ s2sz in
  let feat_reg0 :=
    if is_feat_lpa2_4k_2_present && is_feat_lpa2_4k_present
    then feat_reg0 .| INPLACE_F RMI_FEATURE_REGISTER_0_LPA2 RMI_FEATURE_TRUE else feat_reg0 in
  let feat_reg0 :=
    feat_reg0 .| (INPLACE_F RMI_FEATURE_REGISTER_0_HASH_SHA_256 RMI_FEATURE_TRUE .|
                  INPLACE_F RMI_FEATURE_REGISTER_0_HASH_SHA_512 RMI_FEATURE_TRUE) in
  rassert (ENABLE_OPENCCA || (7 <=? read_pmu_version)) ≫= λ _,
  let feat_reg0 := feat_reg0 .| INPLACE_F RMI_FEATURE_REGISTER_0_PMU_EN RMI_FEATURE_TRUE in
  let feat_reg0 :=
    feat_reg0 .| INPLACE_F RMI_FEATURE_REGISTER_0_PMU_NUM_CTRS (EXTRACT_F PMCR_EL0_N read_pmcr_el0) in
  let num_bps := num_debug ID_AA64DFR0_EL1_BRPs ID_AA64DFR1_EL1_BRPs in
  let num_wps := num_debug ID_AA64DFR0_EL1_WRPs ID_AA64DFR1_EL1_WRPs in
  let feat_reg0 :=
    feat_reg0 .| (INPLACE_F RMI_FEATURE_REGISTER_0_NUM_BPS num_bps .|
                  INPLACE_F RMI_FEATURE_REGISTER_0_NUM_WPS num_wps) in
  let simd_cfg := (simd_get_cpu_config simd_config_zero).2 in
  let feat_reg0 :=
    if sve_en simd_cfg
    then feat_reg0 .| (INPLACE_F RMI_FEATURE_REGISTER_0_SVE_EN RMI_FEATURE_TRUE .|
                       INPLACE_F RMI_FEATURE_REGISTER_0_SVE_VL (sve_vq simd_cfg))
    else feat_reg0 in
  let feat_reg0 :=
    feat_reg0 .| INPLACE_F RMI_FEATURE_REGISTER_0_GICV3_NUM_LRS gic_vgic_get_num_lrs in
  Ok (feat_reg0 .| INPLACE_F RMI_FEATURE_REGISTER_0_MAX_RECS_ORDER GRN_REFCOUNT_WIDTH).

Definition smc_read_feature_register (index : Z) (res : smc_result) : result smc_result :=
  let res := set_x0 RMI_SUCCESS res in
  if index =? 0 then get_feature_register_0 ≫= λ v, Ok (set_x1 v res)
  else Ok (set_x1 0 res).

(** * VMIDs *)

(** [atomic_bit_set_acquire_release_64]: whether the bit was set before. *)
Definition atomic_bit_set_64 (offset bit : Z) : M state bool :=
  gets vmids ≫= λ l, lift (aget l offset) ≫= λ w,
  lift (aset l offset (w .| (1 .<< bit))) ≫= λ l,
  mmodify (set_vmids l) ≫= λ _, mret (negb ((w .& (1 .<< bit)) =? 0)).

(** [atomic_bit_clear_release_64]. *)
Definition atomic_bit_clear_64 (offset bit : Z) : M state () :=
  gets vmids ≫= λ l, lift (aget l offset) ≫= λ w,
  lift (aset l offset (w .& .~ (1 .<< bit))) ≫= λ l, mmodify (set_vmids l).

Definition vmid_count : Z := if is_feat_vmid16_present then VMID16_COUNT else VMID8_COUNT.

Definition vmid_reserve (vmid : Z) : M state bool :=
  if vmid_count <=? vmid then mret false
  else
    let offset := vmid / BITS_PER_UL in
    let vmid := vmid mod BITS_PER_UL in
    atomic_bit_set_64 offset vmid ≫= λ b, mret (negb b).

Definition vmid_free (vmid : Z) : M state () :=
  massert (vmid <? vmid_count) ≫= λ _,
  let offset := vmid / BITS_PER_UL in
  let vmid := vmid mod BITS_PER_UL in
  atomic_bit_clear_64 offset vmid.
End feature.

(** * Fields *)

Lemma EXTRACT_lor s w a b : EXTRACT s w (a .| b) = EXTRACT s w a .| EXTRACT s w b.
Proof. unfold EXTRACT. by rewrite land_lor_l, Z.shiftr_lor. Qed.

Lemma testbit_EXTRACT s w x i :
  0 <= s → 0 < w → s + w <= 64 → 0 <= i → Z.testbit (EXTRACT s w x) i = (i <? w) && Z.testbit x (i + s).
Proof.
  intros Hs Hw Hsw Hi. unfold EXTRACT. rewrite Z.shiftr_spec, Z.land_spec, testbit_MASK by lia.
  destruct (Z.ltb_spec i w); [|]; rewrite andb_comm; f_equal; lia.
Qed.

Lemma EXTRACT_range s w x : 0 <= s → 0 < w → s + w <= 64 → 0 <= EXTRACT s w x < 2 ^ w.
Proof.
  intros Hs Hw Hsw. assert (Hm : Z.land (EXTRACT s w x) (Z.ones w) = EXTRACT s w x).
  { apply Z.bits_inj'. intros i Hi. rewrite Z.land_spec, Z.testbit_ones, testbit_EXTRACT by lia.
    destruct (Z.testbit x (i + s)); lia. }
  rewrite <- Hm, Z.land_ones by lia. apply Z.mod_pos_bound. lia.
Qed.

(** A value that fits its field is read back; the fields beside it stay empty. *)
Lemma EXTRACT_INPLACE_same s w v : 0 <= s → 0 < w → s + w <= 64 → 0 <= v < 2 ^ w → EXTRACT s w (INPLACE s v) = v.
Proof.
  intros Hs Hw Hsw Hv. apply Z.bits_inj'. intros i Hi. unfold INPLACE.
  rewrite testbit_EXTRACT, testbit_shl64 by lia. replace (i + s - s) with i by lia.
  destruct (Z.ltb_spec i w); [|by rewrite (testbit_high v w)].
  by destruct (Z.ltb_spec (i + s) 64); [|lia].
Qed.

Lemma EXTRACT_INPLACE_other s w s' w' v :
  0 <= s → 0 < w → s + w <= 64 → 0 <= s' → 0 <= w' → 0 <= v < 2 ^ w' → s' + w' <= s ∨ s + w <= s' →
  EXTRACT s w (INPLACE s' v) = 0.
Proof.
  intros Hs Hw Hsw Hs' Hw' Hv Hd. apply Z.bits_inj'. intros i Hi. unfold INPLACE.
  rewrite testbit_EXTRACT, testbit_shl64, Z.testbit_0_l by lia. destruct (Z.ltb_spec i w); [|done].
  destruct Hd; [rewrite (testbit_high v w') by lia|rewrite testbit_neg by lia]; by rewrite !andb_false_r.
Qed.

(** What the architecture and the drivers guarantee: a defined physical address range, at
    most 64 breakpoints and watchpoints, a 4-bit vector length and number of list
    registers, and PMUv3p7. *)
Class CpuLaws {CF : Config} (CPU : Cpu) : Prop := {
  cpu_pa_range : EXTRACT_F ID_AA64MMFR0_EL1_PARANGE read_id_aa64mmfr0_el1 < 7;
  cpu_pmu : ENABLE_OPENCCA = false → 7 <= read_pmu_version;
  cpu_bps : EXTRACT_F ID_AA64DFR1_EL1_BRPs read_id_aa64dfr1_el1 < 64;
  cpu_wps : EXTRACT_F ID_AA64DFR1_EL1_WRPs read_id_aa64dfr1_el1 < 64;
  cpu_sve_vq : 0 <= sve_vq g_simd_cfg < 16;
  cpu_lrs : 0 <= nr_lrs < 16;
}.

Ltac field :=
  unfold INPLACE_F, EXTRACT_F; rewrite ?EXTRACT_lor;
  repeat match goal with
  | |- context [fshift ?f] => let v := eval hnf in (fshift f) in change (fshift f) with v
  | |- context [fwidth ?f] => let v := eval hnf in (fwidth f) in change (fwidth f) with v
  end;
  repeat first
    [ rewrite EXTRACT_INPLACE_same by lia
    | rewrite (EXTRACT_INPLACE_other _ _ _ 8) by lia
    | rewrite (EXTRACT_INPLACE_other _ _ _ 6) by lia
    | rewrite (EXTRACT_INPLACE_other _ _ _ 5) by lia
    | rewrite (EXTRACT_INPLACE_other _ _ _ 4) by lia
    | rewrite (EXTRACT_INPLACE_other _ _ _ 1) by lia ];
  rewrite ?Z.lor_0_r, ?Z.lor_0_l; try reflexivity.

Section cpu.
Context {CF : Config} {CPU : Cpu} {CL : CpuLaws CPU}.

Lemma pa_width_run : ∃ w, arch_feat_get_pa_width = Ok w ∧ w ∈ pa_range_bits_arr.
Proof using CL.
  unfold arch_feat_get_pa_width. pose proof cpu_pa_range as Hr.
  pose proof (EXTRACT_range 0 4 read_id_aa64mmfr0_el1 ltac:(lia) ltac:(lia) ltac:(lia)) as Hp.
  change (EXTRACT 0 4 read_id_aa64mmfr0_el1) with (EXTRACT_F ID_AA64MMFR0_EL1_PARANGE read_id_aa64mmfr0_el1) in Hp.
  rewrite rassert_bind by (by apply Z.ltb_lt).
  destruct (aget_in_range pa_range_bits_arr (EXTRACT_F ID_AA64MMFR0_EL1_PARANGE read_id_aa64mmfr0_el1)) as (w & Hw & Hl).
  { change (Z.of_nat (length pa_range_bits_arr)) with 7. lia. }
  exists w. split; [done|]. by eapply list_elem_of_lookup_2.
Qed.

Lemma num_debug_range f g :
  0 <= fshift f → fwidth f = 4 → fshift f <= 60 → 0 <= fshift g → fwidth g = 8 → fshift g <= 56 →
  EXTRACT_F g read_id_aa64dfr1_el1 < 64 → 0 <= num_debug f g < 2 ^ 6.
Proof using.
  clear CL. intros Hf1 Hf2 Hf3 Hg1 Hg2 Hg3 Hg. unfold num_debug.
  pose proof (EXTRACT_range (fshift f) (fwidth f) read_id_aa64dfr0_el1 ltac:(lia) ltac:(lia) ltac:(lia)) as H1.
  pose proof (EXTRACT_range (fshift g) (fwidth g) read_id_aa64dfr1_el1 ltac:(lia) ltac:(lia) ltac:(lia)) as H2.
  rewrite Hf2 in H1. rewrite Hg2 in H2. unfold EXTRACT_F in *. rewrite Hf2, Hg2 in *.
  destruct (Z.eqb_spec (EXTRACT (fshift f) 4 read_id_aa64dfr0_el1) 15); [|lia]. cbv zeta.
  destruct (Z.eqb_spec (EXTRACT (fshift g) 8 read_id_aa64dfr1_el1) 0); lia.
Qed.

(** The RMI feature register is computed without a failing assertion, and the host reads
    back from every field exactly the value that the hardware supports. *)
Theorem feature_register_fields :
  ∃ f w, get_feature_register_0 = Ok f ∧ arch_feat_get_pa_width = Ok w ∧ w ∈ pa_range_bits_arr ∧
    EXTRACT_F RMI_FEATURE_REGISTER_0_S2SZ f = w ∧
    EXTRACT_F RMI_FEATURE_REGISTER_0_LPA2 f
      = (if is_feat_lpa2_4k_2_present && is_feat_lpa2_4k_present then 1 else 0) ∧
    EXTRACT_F RMI_FEATURE_REGISTER_0_SVE_EN f = (if sve_en (simd_get_cpu_config simd_config_zero).2 then 1 else 0) ∧
    EXTRACT_F RMI_FEATURE_REGISTER_0_SVE_VL f
      = (if sve_en (simd_get_cpu_config simd_config_zero).2 then sve_vq g_simd_cfg else 0) ∧
    EXTRACT_F RMI_FEATURE_REGISTER_0_NUM_BPS f = num_debug ID_AA64DFR0_EL1_BRPs ID_AA64DFR1_EL1_BRPs ∧
    EXTRACT_F RMI_FEATURE_REGISTER_0_NUM_WPS f = num_debug ID_AA64DFR0_EL1_WRPs ID_AA64DFR1_EL1_WRPs ∧
    EXTRACT_F RMI_FEATURE_REGISTER_0_PMU_EN f = 1 ∧
    EXTRACT_F RMI_FEATURE_REGISTER_0_PMU_NUM_CTRS f = EXTRACT_F PMCR_EL0_N read_pmcr_el0 ∧
    EXTRACT_F RMI_FEATURE_REGISTER_0_HASH_SHA_256 f = 1 ∧
    EXTRACT_F RMI_FEATURE_REGISTER_0_HASH_SHA_512 f = 1 ∧
    EXTRACT_F RMI_FEATURE_REGISTER_0_GICV3_NUM_LRS f = nr_lrs ∧
    EXTRACT_F RMI_FEATURE_REGISTER_0_MAX_RECS_ORDER f = GRN_REFCOUNT_WIDTH.
Proof using CL.
  destruct pa_width_run as (w & Hw & Hin). eexists _, w. split; [|split; [done|split; [done|]]].
  { unfold get_feature_register_0. rewrite Hw, result_bind_ok. cbv zeta. rewrite rassert_bind; [reflexivity|].
    pose proof cpu_pmu as Hp. destruct ENABLE_OPENCCA; [done|]. apply Z.leb_le. by apply Hp. }
  assert (0 <= w < 2 ^ 8) by (unfold pa_range_bits_arr in Hin; set_unfold; lia).
  pose proof (num_debug_range ID_AA64DFR0_EL1_BRPs ID_AA64DFR1_EL1_BRPs
    ltac:(done) ltac:(done) ltac:(done) ltac:(done) ltac:(done) ltac:(done) cpu_bps) as Hb.
  pose proof (num_debug_range ID_AA64DFR0_EL1_WRPs ID_AA64DFR1_EL1_WRPs
    ltac:(done) ltac:(done) ltac:(done) ltac:(done) ltac:(done) ltac:(done) cpu_wps) as Hwp.
  pose proof (EXTRACT_range 11 5 read_pmcr_el0 ltac:(lia) ltac:(lia) ltac:(lia)) as Hpm.
  change (EXTRACT 11 5 read_pmcr_el0) with (EXTRACT_F PMCR_EL0_N read_pmcr_el0) in Hpm.
  pose proof cpu_lrs as Hlr. pose proof cpu_sve_vq as Hvq. unfold gic_vgic_get_num_lrs, GRN_REFCOUNT_WIDTH, RMI_FEATURE_TRUE.
  assert (Hsv : sve_en (simd_get_cpu_config simd_config_zero).2 = true →
    sve_vq (simd_get_cpu_config simd_config_zero).2 = sve_vq g_simd_cfg).
  { unfold simd_get_cpu_config. by destruct g_simd_init_done. }
  generalize dependent (num_debug ID_AA64DFR0_EL1_BRPs ID_AA64DFR1_EL1_BRPs). intros nb Hb.
  generalize dependent (num_debug ID_AA64DFR0_EL1_WRPs ID_AA64DFR1_EL1_WRPs). intros nw Hnw.
  generalize dependent (EXTRACT_F PMCR_EL0_N read_pmcr_el0). intros np Hnp.
  destruct (sve_en (simd_get_cpu_config simd_config_zero).2);
    [rewrite Hsv by done|]; destruct (is_feat_lpa2_4k_2_present && is_feat_lpa2_4k_present);
    repeat split; field.
Qed.
End cpu.

(** * The VMID allocator as a set *)

(** The bitmap of the 2^16 identifiers. *)
Definition vmids_ok (l : list Z) : Prop := length l = 1024%nat ∧ Forall is_u64 l.

Definition vmid_used (l : list Z) (v : Z) : bool :=
  match l !! Z.to_nat (v / 64) with Some w => Z.testbit w (v mod 64) | None => false end.

Definition mark_word (b : bool) (n w : Z) : Z := if b then w .| (1 .<< n) else w .& .~ (1 .<< n).

Definition vmid_mark (b : bool) (v : Z) (l : list Z) : list Z :=
  match l !! Z.to_nat (v / 64) with
  | Some w => <[Z.to_nat (v / 64) := mark_word b (v mod 64) w]> l
  | None => l
  end.

Lemma testbit_bit n i : 0 <= n < 64 → 0 <= i → Z.testbit (1 .<< n) i = (i =? n).
Proof.
  intros Hn Hi. change (1 .<< n) with (BIT64 n). rewrite testbit_BIT64 by lia.
  destruct (Z.eqb_spec i n); lia.
Qed.

Lemma is_u64_bits w : 0 <= w → (∀ i, 64 <= i → Z.testbit w i = false) → is_u64 w.
Proof.
  intros Hw Hb. unfold is_u64. split; [done|]. destruct (decide (w = 0)) as [->|]; [lia|].
  apply Z.log2_lt_pow2; [lia|]. destruct (Z.lt_ge_cases (Z.log2 w) 64) as [|Hl]; [done|].
  specialize (Hb _ Hl). rewrite Z.bit_log2 in Hb by lia. done.
Qed.

Lemma mark_word_u64 b n w :
  0 <= n < 64 → is_u64 w → is_u64 (mark_word b n w).
Proof.
  intros Hn Hw. unfold mark_word. assert (Hh : ∀ i, 64 <= i → Z.testbit w i = false) by (intros; by apply (testbit_high w 64)).
  destruct b; apply is_u64_bits.
  - apply Z.lor_nonneg. split; [apply Hw|]. unfold shl64. apply u64_range.
  - intros i Hi. rewrite Z.lor_spec, testbit_bit, Hh by lia. lia.
  - apply Z.land_nonneg. left. apply Hw.
  - intros i Hi. by rewrite Z.land_spec, Hh.
Qed.

Lemma vmids_word l v : vmids_ok l → 0 <= v < 2 ^ 16 → ∃ w, l !! Z.to_nat (v / 64) = Some w ∧ is_u64 w.
Proof.
  intros [Hl Hu] Hv. assert (0 <= v / 64 < 1024) by (split; [apply Z.div_pos|apply Z.div_lt_upper_bound]; lia).
  destruct (lookup_lt_is_Some_2 l (Z.to_nat (v / 64))) as [w Hw]; [lia|].
  exists w. split; [done|]. by eapply Forall_lookup_1.
Qed.

Lemma testbit_mark b n w i :
  0 <= n < 64 → is_u64 w → 0 <= i →
  Z.testbit (mark_word b n w) i = if i =? n then b else Z.testbit w i.
Proof.
  intros Hn Hw Hi. unfold mark_word.
  destruct b; [rewrite Z.lor_spec, testbit_bit by lia|rewrite Z.land_spec, testbit_not64, testbit_bit by lia];
    destruct (Z.eqb_spec i n);
    [by rewrite orb_true_r|by rewrite orb_false_r|by rewrite !andb_false_r|].
  destruct (Z.ltb_spec i 64); [by rewrite andb_true_r|]. by rewrite (testbit_high w 64) by (unfold is_u64 in *; lia).
Qed.

Lemma vmid_mark_ok b v l : vmids_ok l → vmids_ok (vmid_mark b v l).
Proof.
  intros [Hl Hu]. unfold vmid_mark. destruct (l !! _) as [w|] eqn:Hw; [|done].
  split; [by rewrite length_insert|]. apply Forall_insert; [done|].
  apply mark_word_u64; [|by eapply Forall_lookup_1]. apply Z.mod_pos_bound. lia.
Qed.

Lemma vmid_used_mark b v l u :
  vmids_ok l → 0 <= v < 2 ^ 16 → 0 <= u →
  vmid_used (vmid_mark b v l) u = if u =? v then b else vmid_used l u.
Proof.
  intros Hl Hv Hu. unfold vmid_used, vmid_mark. destruct (vmids_word l v Hl Hv) as (w & Hw & Hwu). rewrite Hw.
  pose proof (Z.mod_pos_bound v 64 ltac:(lia)). pose proof (Z.mod_pos_bound u 64 ltac:(lia)).
  pose proof (Z.div_mod v 64 ltac:(lia)). pose proof (Z.div_mod u 64 ltac:(lia)).
  pose proof (lookup_lt_Some _ _ _ Hw). pose proof (Z.div_pos u 64). pose proof (Z.div_pos v 64).
  destruct (decide (u / 64 = v / 64)) as [Heq|Hne].
  - rewrite Heq, list_lookup_insert_eq, Hw, testbit_mark by (done || lia).
    destruct (Z.eqb_spec u v), (Z.eqb_spec (u mod 64) (v mod 64)); congruence || lia.
  - rewrite list_lookup_insert_ne by lia. by destruct (Z.eqb_spec u v) as [->|].
Qed.

Lemma vmid_mark_undo v l :
  vmids_ok l → 0 <= v < 2 ^ 16 → vmid_used l v = false → vmid_mark false v (vmid_mark true v l) = l.
Proof.
  intros Hl Hv Hf. destruct (vmids_word l v Hl Hv) as (w & Hw & Hwu). unfold vmid_mark, vmid_used in *.
  rewrite Hw in *. pose proof (lookup_lt_Some _ _ _ Hw). pose proof (Z.mod_pos_bound v 64 ltac:(lia)).
  rewrite list_lookup_insert_eq by done. rewrite list_insert_insert_eq. apply list_insert_id. rewrite Hw. f_equal.
  apply Z.bits_inj'. intros i Hi. rewrite !testbit_mark by (done || by apply mark_word_u64).
  destruct (Z.eqb_spec i (v mod 64)) as [->|]; [by rewrite Hf|done].
Qed.

Section vmid.
Context {CF : Config} {CPU : Cpu}.

Lemma vmid_reserve_run s v :
  vmids_ok (vmids s) → 0 <= v < 2 ^ 16 →
  vmid_reserve v s
  = if (v <? vmid_count) && negb (vmid_used (vmids s) v)
    then Ok (true, set_vmids (vmid_mark true v (vmids s)) s) else Ok (false, s).
Proof using.
  intros Hl Hv. unfold vmid_reserve, BITS_PER_UL.
  destruct (Z.leb_spec vmid_count v) as [Hc|Hc]; [by destruct (Z.ltb_spec v vmid_count); [lia|]|].
  destruct (Z.ltb_spec v vmid_count); [|lia]. cbn [andb].
  destruct (vmids_word _ _ Hl Hv) as (w & Hw & Hwu). pose proof (Z.mod_pos_bound v 64 ltac:(lia)).
  assert (0 <= v / 64) by (apply Z.div_pos; lia). pose proof (lookup_lt_Some _ _ _ Hw).
  unfold atomic_bit_set_64. cbv zeta. rewrite bind_assoc, gets_bind, bind_assoc. assert (Hget := aget_lookup _ (v / 64) _ ltac:(lia) Hw). run_step (lift_run _ _ s Hget).
  rewrite bind_assoc. erewrite bind_run by (apply lift_run, aset_ok; lia). rewrite bind_assoc, mmodify_bind, ret_bind.
  assert (Hbit : negb ((w .& (1 .<< (v mod 64))) =? 0) = vmid_used (vmids s) v).
  { unfold vmid_used. rewrite Hw. change (1 .<< (v mod 64)) with (u64 (Z.shiftl 1 (v mod 64))).
    rewrite Z.shiftl_1_l, u64_small; [apply land_pow2_testbit; lia|]. split; [lia|]. apply Z.pow_lt_mono_r; lia. }
  rewrite Hbit. destruct (vmid_used (vmids s) v) eqn:Hu; cbn [negb].
  - unfold vmid_used in Hu. rewrite Hw in Hu. change (w .| (1 .<< (v mod 64))) with (mark_word true (v mod 64) w).
    replace (mark_word true (v mod 64) w) with w; [rewrite list_insert_id by done; by destruct s|].
    apply Z.bits_inj'. intros i Hi. rewrite testbit_mark by done. by destruct (Z.eqb_spec i (v mod 64)) as [->|].
  - do 2 f_equal. unfold vmid_mark. by rewrite Hw.
Qed.

Lemma vmid_free_run s v :
  vmids_ok (vmids s) → 0 <= v < 2 ^ 16 → v < vmid_count →
  vmid_free v s = Ok ((), set_vmids (vmid_mark false v (vmids s)) s).
Proof using.
  intros Hl Hv Hc. unfold vmid_free, BITS_PER_UL. run_step (massert_run _ s (proj2 (Z.ltb_lt _ _) Hc)).
  destruct (vmids_word _ _ Hl Hv) as (w & Hw & Hwu). assert (0 <= v / 64) by (apply Z.div_pos; lia).
  pose proof (lookup_lt_Some _ _ _ Hw). unfold atomic_bit_clear_64. cbv zeta. rewrite gets_bind.
  assert (Hget := aget_lookup _ (v / 64) _ ltac:(lia) Hw). run_step (lift_run _ _ s Hget).
  erewrite bind_run by (apply lift_run, aset_ok; lia). unfold vmid_mark, mmodify. by rewrite Hw.
Qed.

Lemma vmid_reserve_free s v :
  vmids_ok (vmids s) → 0 <= v < 2 ^ 16 → v < vmid_count → vmid_used (vmids s) v = false →
  vmid_free v (set_vmids (vmid_mark true v (vmids s)) s) = Ok ((), s).
Proof using.
  intros Hl Hv Hc Hu. rewrite vmid_free_run by (done || by apply vmid_mark_ok).
  unfold set_vmids; simpl. rewrite vmid_mark_undo by done. by destruct s.
Qed.

(** VMIDs are allocated like elements of a set. Reserving always returns; it succeeds
    exactly for an identifier that the processor supports and that is not in use, and then
    this identifier and no other becomes used; a refusal changes nothing, and freeing the
    identifier restores the state before the reservation. *)
Theorem vmid_allocator_spec s v :
  vmids_ok (vmids s) → 0 <= v < 2 ^ 16 →
  ∃ b s', vmid_reserve v s = Ok (b, s') ∧
    (b = true ↔ v < vmid_count ∧ vmid_used (vmids s) v = false) ∧
    (b = false → s' = s) ∧
    (b = true → s' = set_vmids (vmids s') s ∧ vmids_ok (vmids s') ∧
       (∀ u, 0 <= u → vmid_used (vmids s') u = (u =? v) || vmid_used (vmids s) u) ∧
       vmid_free v s' = Ok ((), s)).
Proof using.
  intros Hl Hv. rewrite vmid_reserve_run by done.
  destruct (Z.ltb_spec v vmid_count) as [Hc|Hc]; destruct (vmid_used (vmids s) v) eqn:Hu; cbn [andb negb].
  1,3,4: eexists _, _; split; [done|]; split; [split; [done|lia || by intros [_ ?]]|done].
  eexists _, _; split; [done|]; split; [done|]; split; [done|]. intros _.
  split; [done|]. cbn [vmids set_vmids]. split; [by apply vmid_mark_ok|]. split; [|by apply vmid_reserve_free].
  intros u Hu'. rewrite vmid_used_mark by done. by destruct (u =? v).
Qed.
End vmid.

(** * An example processor *)

(** 48-bit addresses, 16-bit VMIDs, PMUv3p7 with six counters, six breakpoints, four
    watchpoints, SVE with 256-bit vectors, four list registers. *)
Definition demo_cpu : Cpu := {|
  read_id_aa64mmfr0_el1 := 5; read_id_aa64mmfr1_el1 := 32;
  read_id_aa64dfr0_el1 := 7 * 2 ^ 8 + 5 * 2 ^ 12 + 3 * 2 ^ 20; read_id_aa64dfr1_el1 := 0;
  read_pmcr_el0 := 6 * 2 ^ 11; g_simd_init_done := true;
  g_simd_cfg := {| sve_en := true; sve_vq := 1; sme_en := false |}; nr_lrs := 3 |}.

Definition arm_config : Config := {| ENABLE_OPENCCA := false |}.

Lemma demo_cpu_laws : CpuLaws (CF := arm_config) demo_cpu.
Proof. by split. Qed.

Lemma vmid_allocator_spec_witness :
  ∃ s', vmid_reserve (CF := arm_config) (CPU := demo_cpu) 77 state_init = Ok (true, s') ∧
    vmid_used (vmids s') 77 = true ∧ vmid_used (vmids s') 78 = false ∧
    vmid_free (CF := arm_config) (CPU := demo_cpu) 77 s' = Ok ((), state_init).
Proof.
  destruct (vmid_allocator_spec (CF := arm_config) (CPU := demo_cpu) state_init 77) as (b & s' & Hr & Hb & _ & Ht).
  - split; [done|]. by apply Forall_replicate.
  - done.
  - assert (b = true) as -> by (apply Hb; split; vm_compute; reflexivity).
    destruct (Ht eq_refl) as (_ & _ & Hu & Hf). exists s'. rewrite !Hu by done. done.
Defined.

Lemma feature_register_fields_witness :
  ∃ f, get_feature_register_0 (CF := arm_config) (CPU := demo_cpu) = Ok f ∧
    EXTRACT_F RMI_FEATURE_REGISTER_0_S2SZ f = 48 ∧ EXTRACT_F RMI_FEATURE_REGISTER_0_NUM_BPS f = 5.
Proof.
  destruct (feature_register_fields (CF := arm_config) (CPU := demo_cpu) (CL := demo_cpu_laws))
    as (f & w & Hf & Hw & _ & Hs & _ & _ & _ & Hb & _).
  exists f. split; [done|]. split; [|by rewrite Hb]. rewrite Hs. vm_compute in Hw. by injection Hw as <-.
Defined.
