(* ===== verification/Rsi.v ===== *)
(** What the handlers of calls from realms hand back (runtime/include/rsi-handler.h,
    lib/smc/include/smc-rmi.h): the record for the host and the result for the realm. *)
From S2P Require Import Prelude Types Granule Platform GranuleFind S2tte S2tt Buffer Walk Exec Realm Rtt.

Definition FLAG_UPDATE_REC : Z := 1.
Definition FLAG_EXIT_TO_HOST : Z := 2.
Definition FLAG_STAGE_2_ABORT : Z := 4.

(** [enum rsi_action] *)
Definition UPDATE_REC_RETURN_TO_REALM : Z := FLAG_UPDATE_REC.
Definition EXIT_TO_HOST : Z := FLAG_EXIT_TO_HOST.
Definition UPDATE_REC_EXIT_TO_HOST : Z := Z.lor FLAG_UPDATE_REC FLAG_EXIT_TO_HOST.
Definition STAGE_2_TRANSLATION_FAULT : Z := Z.lor FLAG_EXIT_TO_HOST FLAG_STAGE_2_ABORT.

Definition RMI_EXIT_CSM_REMOVE_GRANULES : Z := 7.
Definition RMI_EXIT_CSM_ADD_GRANULES : Z := 8.
Definition RMI_EXIT_CSM_REALM_REMOVE : Z := 9.

Definition REC_EXIT_NR_GPRS : Z := 31.
Definition REC_GIC_NUM_LRS : Z := 16.

(** [struct rmi_rec_exit] *)
Record rmi_rec_exit := {
  exit_reason : Z;
  ex_esr : Z; ex_far : Z; ex_hpfar : Z;
  ex_gprs : list Z;
  ex_gicv3_hcr : Z; ex_gicv3_lrs : list Z; ex_gicv3_misr : Z; ex_gicv3_vmcr : Z;
  ex_cntp_ctl : Z; ex_cntp_cval : Z; ex_cntv_ctl : Z; ex_cntv_cval : Z;
  ripas_base : Z; ripas_top : Z; ripas_value : Z;
  ex_imm : Z;
  pmu_ovf_status : Z;
}.

(** [memset(&rec_run.exit, 0, sizeof(struct rmi_rec_exit))] *)
Definition rmi_rec_exit_zero : rmi_rec_exit :=
  {| exit_reason := 0; ex_esr := 0; ex_far := 0; ex_hpfar := 0;
     ex_gprs := replicate (Z.to_nat REC_EXIT_NR_GPRS) 0;
     ex_gicv3_hcr := 0; ex_gicv3_lrs := replicate (Z.to_nat REC_GIC_NUM_LRS) 0; ex_gicv3_misr := 0; ex_gicv3_vmcr := 0;
     ex_cntp_ctl := 0; ex_cntp_cval := 0; ex_cntv_ctl := 0; ex_cntv_cval := 0;
     ripas_base := 0; ripas_top := 0; ripas_value := 0; ex_imm := 0; pmu_ovf_status := 0 |}.

Definition set_exit_reason (v : Z) (e : rmi_rec_exit) : rmi_rec_exit :=
  {| exit_reason := v; ex_esr := ex_esr e; ex_far := ex_far e; ex_hpfar := ex_hpfar e; ex_gprs := ex_gprs e;
     ex_gicv3_hcr := ex_gicv3_hcr e; ex_gicv3_lrs := ex_gicv3_lrs e; ex_gicv3_misr := ex_gicv3_misr e;
     ex_gicv3_vmcr := ex_gicv3_vmcr e; ex_cntp_ctl := ex_cntp_ctl e; ex_cntp_cval := ex_cntp_cval e;
     ex_cntv_ctl := ex_cntv_ctl e; ex_cntv_cval := ex_cntv_cval e; ripas_base := ripas_base e;
     ripas_top := ripas_top e; ripas_value := ripas_value e; ex_imm := ex_imm e; pmu_ovf_status := pmu_ovf_status e |}.
Definition set_exit_ripas (base top : Z) (e : rmi_rec_exit) : rmi_rec_exit :=
  {| exit_reason := exit_reason e; ex_esr := ex_esr e; ex_far := ex_far e; ex_hpfar := ex_hpfar e; ex_gprs := ex_gprs e;
     ex_gicv3_hcr := ex_gicv3_hcr e; ex_gicv3_lrs := ex_gicv3_lrs e; ex_gicv3_misr := ex_gicv3_misr e;
     ex_gicv3_vmcr := ex_gicv3_vmcr e; ex_cntp_ctl := ex_cntp_ctl e; ex_cntp_cval := ex_cntp_cval e;
     ex_cntv_ctl := ex_cntv_ctl e; ex_cntv_cval := ex_cntv_cval e; ripas_base := base;
     ripas_top := top; ripas_value := ripas_value e; ex_imm := ex_imm e; pmu_ovf_status := pmu_ovf_status e |}.

(** [struct rmi_rec_enter] *)
Record rmi_rec_enter := { en_flags : Z; en_gprs : list Z; en_gicv3_hcr : Z; en_gicv3_lrs : list Z }.

(** [struct rsi_result] *)
Record rsi_result := { action : Z; rtt_level : Z; smc_res : smc_result }.

Definition set_action (a : Z) (res : rsi_result) : rsi_result :=
  {| action := a; rtt_level := rtt_level res; smc_res := smc_res res |}.
Definition set_res (f : smc_result → smc_result) (res : rsi_result) : rsi_result :=
  {| action := action res; rtt_level := rtt_level res; smc_res := f (smc_res res) |}.

(** [res->smc_res.x[0] = code], the exit record as it was. *)
Definition rsi_fail (code : Z) (rec_exit : rmi_rec_exit) (res : rsi_result) : rmi_rec_exit * rsi_result :=
  (rec_exit, set_res (set_x0 code) res).

(** The exit to the host that concerns the addresses from [base], [size] of them. *)
Definition rsi_exit (reason base size : Z) (f : smc_result → smc_result) (rec_exit : rmi_rec_exit) (res : rsi_result)
  : rmi_rec_exit * rsi_result :=
  (set_exit_ripas base (base .+ size) (set_exit_reason reason rec_exit),
   set_res f (set_action UPDATE_REC_EXIT_TO_HOST res)).
