(* ===== verification/Gic.v ===== *)
(** The virtual GIC state of RECs (lib/gic/include/gic.h, lib/gic/src/gic.c): the features found
    at boot, the validation of the list registers that the host gives on entry, and the way
    of the state between host, REC and the registers of the interface. *)
From S2P Require Import Prelude Types Granule Platform GranuleFind S2tte S2tt Buffer Walk Exec Realm Rtt Feature Rsi.

(** * Registers *)

Definition ICH_VTR_EL2_LIST_REGS : bitfield := {| fshift := 0; fwidth := 5 |}.
Definition ICH_VTR_EL2_ID_BITS : bitfield := {| fshift := 23; fwidth := 3 |}.
Definition ICH_VTR_EL2_PRE_BITS : bitfield := {| fshift := 26; fwidth := 3 |}.
Definition ICH_VTR_EL2_PRI_BITS : bitfield := {| fshift := 29; fwidth := 3 |}.
Definition ICH_HCR_EL2_EN_BIT : Z := 1 .<< 0.
Definition ICH_HCR_EL2_UIE_BIT : Z := 1 .<< 1.
Definition ICH_HCR_EL2_LRENPIE_BIT : Z := 1 .<< 2.
Definition ICH_HCR_EL2_NPIE_BIT : Z := 1 .<< 3.
Definition ICH_HCR_EL2_VGRP0EIE_BIT : Z := 1 .<< 4.
Definition ICH_HCR_EL2_VGRP0DIE_BIT : Z := 1 .<< 5.
Definition ICH_HCR_EL2_VGRP1EIE_BIT : Z := 1 .<< 6.
Definition ICH_HCR_EL2_VGRP1DIE_BIT : Z := 1 .<< 7.
Definition ICH_HCR_EL2_VSGIEEOICOUNT_BIT : Z := 1 .<< 8.
Definition ICH_HCR_EL2_TDIR_BIT : Z := 1 .<< 14.
Definition ICH_HCR_EL2_DVIM_BIT : Z := 1 .<< 15.
Definition ICH_HCR_EL2_EOI_COUNT_MASK : Z := MASK 27 5.
Definition ICH_LR_VINTID : bitfield := {| fshift := 0; fwidth := 32 |}.
Definition ICH_LR_PINTID_MASK : Z := MASK 32 13.
Definition ICH_LR_EOI_BIT : Z := 1 .<< 41.
Definition ICH_LR_PRIORITY : bitfield := {| fshift := 48; fwidth := 8 |}.
Definition ICH_LR_HW_BIT : Z := 1 .<< 61.
Definition ICH_LR_STATE : bitfield := {| fshift := 62; fwidth := 2 |}.
Definition ICH_LR_STATE_MASK : Z := MASK 62 2.
Definition ICH_LR_STATE_INVALID : Z := INPLACE_F ICH_LR_STATE 0.
Definition ICH_HCR_EL2_NS_MASK : Z :=
  ICH_HCR_EL2_UIE_BIT .| ICH_HCR_EL2_LRENPIE_BIT .| ICH_HCR_EL2_NPIE_BIT .| ICH_HCR_EL2_VGRP0EIE_BIT .|
  ICH_HCR_EL2_VGRP0DIE_BIT .| ICH_HCR_EL2_VGRP1EIE_BIT .| ICH_HCR_EL2_VGRP1DIE_BIT .| ICH_HCR_EL2_TDIR_BIT.
Definition ICC_CTLR_EL1_EXT_RANGE_BIT : Z := 1 .<< 19.
Definition ICH_MAX_APRS : Z := 4.
Definition ICH_MAX_LRS : Z := 16.
Definition MAX_SPI_ID : Z := 1019.
Definition MIN_EPPI_ID : Z := 1056.
Definition MAX_EPPI_ID : Z := 1119.
Definition MIN_ESPI_ID : Z := 4096.
Definition MAX_ESPI_ID : Z := 5119.
Definition MIN_LPI_ID : Z := 8192.

(** * Features *)

Record gic_virt_feature_s := {
  gv_nr_lrs : Z;
  gv_nr_aprs : Z;
  gv_pri_res0_mask : Z;
  gv_max_vintid : Z;
  gv_ext_range : bool;
}.

(** [vtr] and [ctlr] are what [read_ich_vtr_el2] and [read_icc_ctrl_el1] return. *)
Definition gic_get_virt_features (vtr ctlr : Z) : result gic_virt_feature_s :=
  let nr_lrs := u32 (EXTRACT_F ICH_VTR_EL2_LIST_REGS vtr) in
  rassert (nr_lrs <? ICH_MAX_LRS) ≫= λ _,
  let nr_pre_bits := EXTRACT_F ICH_VTR_EL2_PRE_BITS vtr .+ 1 in
  rassert (5 <=? nr_pre_bits) ≫= λ _,
  let nr_aprs := u32 ((1 .<< (nr_pre_bits .- 5)) .- 1) in
  let max_vintid := if EXTRACT_F ICH_VTR_EL2_ID_BITS vtr =? 0 then (1 .<< 16) .- 1 else (1 .<< 24) .- 1 in
  let nr_pri_bits := EXTRACT_F ICH_VTR_EL2_PRI_BITS vtr .+ 1 in
  Ok {| gv_nr_lrs := nr_lrs; gv_nr_aprs := nr_aprs;
        gv_pri_res0_mask := (1 .<< (fwidth ICH_LR_PRIORITY .- nr_pri_bits)) .- 1;
        gv_max_vintid := max_vintid;
        gv_ext_range := negb ((ctlr .& ICC_CTLR_EL1_EXT_RANGE_BIT) =? 0) |}.

(** * State of a REC *)

Definition set_lrs (l : list Z) (g : gic_cpu_state) : gic_cpu_state :=
  {| ich_ap0r_el2 := ich_ap0r_el2 g; ich_ap1r_el2 := ich_ap1r_el2 g; ich_vmcr_el2 := ich_vmcr_el2 g;
     ich_hcr_el2 := ich_hcr_el2 g; ich_lr_el2 := l; ich_misr_el2 := ich_misr_el2 g |}.
Definition set_ich_hcr (v : Z) (g : gic_cpu_state) : gic_cpu_state :=
  {| ich_ap0r_el2 := ich_ap0r_el2 g; ich_ap1r_el2 := ich_ap1r_el2 g; ich_vmcr_el2 := ich_vmcr_el2 g;
     ich_hcr_el2 := v; ich_lr_el2 := ich_lr_el2 g; ich_misr_el2 := ich_misr_el2 g |}.

Definition gic_cpu_state_init (g : gic_cpu_state) : gic_cpu_state :=
  set_ich_hcr (ICH_HCR_EL2_EN_BIT .| ICH_HCR_EL2_VSGIEEOICOUNT_BIT .| ICH_HCR_EL2_DVIM_BIT) gic_cpu_state_zero.

(** [for (i = i0; ...; i++) dst[i] = src[i]], [n] entries. *)
Fixpoint copy_regs (n : nat) (i : Z) (src dst : list Z) : result (list Z) :=
  match n with
  | O => Ok dst
  | S n' => aget src i ≫= λ v, aset dst i v ≫= λ dst, copy_regs n' (i + 1) src dst
  end.

Section gic.
Context (gic_virt_feature : gic_virt_feature_s).

(** [nr_lrs + 1] *)
Definition lr_count : nat := S (Z.to_nat (gv_nr_lrs gic_virt_feature)).

Definition gic_copy_state_from_rec_entry (g : gic_cpu_state) (rec_enter : rmi_rec_enter) : result gic_cpu_state :=
  copy_regs lr_count 0 (en_gicv3_lrs rec_enter) (ich_lr_el2 g) ≫= λ lrs,
  let g := set_lrs lrs g in
  let g := set_ich_hcr (ich_hcr_el2 g .& .~ ICH_HCR_EL2_NS_MASK) g in
  Ok (set_ich_hcr (ich_hcr_el2 g .| (en_gicv3_hcr rec_enter .& ICH_HCR_EL2_NS_MASK)) g).

Definition set_exit_gic (lrs : list Z) (misr vmcr hcr : Z) (e : rmi_rec_exit) : rmi_rec_exit :=
  {| exit_reason := exit_reason e; ex_esr := ex_esr e; ex_far := ex_far e; ex_hpfar := ex_hpfar e; ex_gprs := ex_gprs e;
     ex_gicv3_hcr := hcr; ex_gicv3_lrs := lrs; ex_gicv3_misr := misr;
     ex_gicv3_vmcr := vmcr; ex_cntp_ctl := ex_cntp_ctl e; ex_cntp_cval := ex_cntp_cval e;
     ex_cntv_ctl := ex_cntv_ctl e; ex_cntv_cval := ex_cntv_cval e; ripas_base := ripas_base e;
     ripas_top := ripas_top e; ripas_value := ripas_value e; ex_imm := ex_imm e; pmu_ovf_status := pmu_ovf_status e |}.

Definition gic_copy_state_to_rec_exit (g : gic_cpu_state) (rec_exit : rmi_rec_exit) : result rmi_rec_exit :=
  copy_regs lr_count 0 (ich_lr_el2 g) (ex_gicv3_lrs rec_exit) ≫= λ lrs,
  Ok (set_exit_gic lrs (ich_misr_el2 g) (ich_vmcr_el2 g)
        (ich_hcr_el2 g .& (ICH_HCR_EL2_EOI_COUNT_MASK .| ICH_HCR_EL2_NS_MASK)) rec_exit).

(** * Validation *)

Definition is_valid_vintid (intid : Z) : bool :=
  if (intid <=? MAX_SPI_ID) || (MIN_LPI_ID <=? intid) && (intid <=? gv_max_vintid gic_virt_feature) then true
  else if gv_ext_range gic_virt_feature
  then (MIN_EPPI_ID <=? intid) && (intid <=? MAX_EPPI_ID) || (MIN_ESPI_ID <=? intid) && (intid <=? MAX_ESPI_ID)
  else false.

(** The inner loop, [n] registers from [j] on: whether one of them holds [intid]. *)
Fixpoint lr_clash (n : nat) (j intid : Z) (lrs : list Z) : result bool :=
  match n with
  | O => Ok false
  | S n' =>
      aget lrs j ≫= λ lr,
      if (lr .& ICH_LR_STATE_MASK) =? ICH_LR_STATE_INVALID then lr_clash n' (j + 1) intid lrs
      else if intid =? EXTRACT_F ICH_LR_VINTID lr then Ok true
      else lr_clash n' (j + 1) intid lrs
  end.

(** The outer loop, [n] registers from [i] on. *)
Fixpoint validate_lrs (n : nat) (i : Z) (lrs : list Z) : result bool :=
  match n with
  | O => Ok true
  | S n' =>
      aget lrs i ≫= λ lr,
      let intid := EXTRACT_F ICH_LR_VINTID lr in
      if (lr .& ICH_LR_STATE_MASK) =? ICH_LR_STATE_INVALID then validate_lrs n' (i + 1) lrs
      else if negb ((lr .& ICH_LR_HW_BIT) =? 0) ||
              negb ((EXTRACT_F ICH_LR_PRIORITY lr .& gv_pri_res0_mask gic_virt_feature) =? 0) ||
              negb ((lr .& ICH_LR_PINTID_MASK .& .~ ICH_LR_EOI_BIT) =? 0) ||
              negb (is_valid_vintid intid)
      then Ok false
      else
        lr_clash n' (i + 1) intid lrs ≫= λ clash : bool,
        if clash then Ok false else validate_lrs n' (i + 1) lrs
  end.

Definition gic_validate_state (rec_enter : rmi_rec_enter) : result bool :=
  if negb ((en_gicv3_hcr rec_enter .& .~ ICH_HCR_EL2_NS_MASK) =? 0) then Ok false
  else validate_lrs lr_count 0 (en_gicv3_lrs rec_enter).

(** * The registers of the interface *)

(** The registers [ICH_*_EL2] of the processor. *)
Record ich_regs := { hw_ap0r : list Z; hw_ap1r : list Z; hw_vmcr : Z; hw_hcr : Z; hw_lr : list Z; hw_misr : Z }.

(** [switch (n) { case max: ...; case 1: ...; default: ... 0 }]: the registers from [n] down to
    0, or 0 alone when there is no case for [n]. *)
Fixpoint copy_down (n : nat) (src dst : list Z) : result (list Z) :=
  aget src (Z.of_nat n) ≫= λ v, aset dst (Z.of_nat n) v ≫= λ dst,
  match n with O => Ok dst | S n' => copy_down n' src dst end.
Definition switch_regs (n cases : Z) (src dst : list Z) : result (list Z) :=
  copy_down (if n <=? cases then Z.to_nat n else O) src dst.

Definition read_lrs (hw : ich_regs) (g : gic_cpu_state) : result (list Z) :=
  switch_regs (gv_nr_lrs gic_virt_feature) 15 (hw_lr hw) (ich_lr_el2 g).
Definition write_lrs (g : gic_cpu_state) (hw : ich_regs) : result (list Z) :=
  switch_regs (gv_nr_lrs gic_virt_feature) 15 (ich_lr_el2 g) (hw_lr hw).

(** Groups 0 and 1. *)
Definition read_aprs (hw : ich_regs) (g : gic_cpu_state) : result (list Z * list Z) :=
  switch_regs (gv_nr_aprs gic_virt_feature) 3 (hw_ap0r hw) (ich_ap0r_el2 g) ≫= λ l0,
  switch_regs (gv_nr_aprs gic_virt_feature) 3 (hw_ap1r hw) (ich_ap1r_el2 g) ≫= λ l1, Ok (l0, l1).
Definition write_aprs (g : gic_cpu_state) (hw : ich_regs) : result (list Z * list Z) :=
  switch_regs (gv_nr_aprs gic_virt_feature) 3 (ich_ap0r_el2 g) (hw_ap0r hw) ≫= λ l0,
  switch_regs (gv_nr_aprs gic_virt_feature) 3 (ich_ap1r_el2 g) (hw_ap1r hw) ≫= λ l1, Ok (l0, l1).

Definition gic_restore_state (g : gic_cpu_state) (hw : ich_regs) : result ich_regs :=
  write_aprs g hw ≫= λ '(l0, l1),
  write_lrs g hw ≫= λ lr,
  Ok {| hw_ap0r := l0; hw_ap1r := l1; hw_vmcr := ich_vmcr_el2 g; hw_hcr := ich_hcr_el2 g; hw_lr := lr;
        hw_misr := hw_misr hw |}.

(** The saved state and the registers afterwards. *)
Definition gic_save_state (g : gic_cpu_state) (hw : ich_regs) : result (gic_cpu_state * ich_regs) :=
  read_aprs hw g ≫= λ '(l0, l1),
  read_lrs hw g ≫= λ lr,
  let g := {| ich_ap0r_el2 := l0; ich_ap1r_el2 := l1; ich_vmcr_el2 := hw_vmcr hw; ich_hcr_el2 := hw_hcr hw;
              ich_lr_el2 := lr; ich_misr_el2 := hw_misr hw |} in
  Ok (g, {| hw_ap0r := hw_ap0r hw; hw_ap1r := hw_ap1r hw; hw_vmcr := hw_vmcr hw;
            hw_hcr := ich_hcr_el2 g .& .~ ICH_HCR_EL2_EN_BIT; hw_lr := hw_lr hw; hw_misr := hw_misr hw |}).
End gic.

(** * What is proved *)

Lemma land_zero_iff a m :
  Z.land a m = 0 ↔ ∀ i, 0 <= i → Z.testbit m i = true → Z.testbit a i = false.
Proof.
  split.
  - intros Hz i Hi Hm. pose proof (f_equal (λ x, Z.testbit x i) Hz) as Hb. cbv beta in Hb.
    rewrite Z.land_spec, Hm, andb_true_r, Z.bits_0 in Hb. done.
  - intros Hb. apply Z.bits_inj'. intros i Hi. rewrite Z.land_spec, Z.bits_0.
    destruct (Z.testbit m i) eqn:Hm; [|by rewrite andb_false_r]. by rewrite (Hb i Hi Hm).
Qed.

(** ** Validation *)

(** A list register that holds an interrupt, its number, and what the host may write. *)
Definition lr_live (lr : Z) : bool := Z.testbit lr 62 || Z.testbit lr 63.
Definition lr_vintid (lr : Z) : Z := lr mod 2 ^ 32.

Definition vintid_ok (f : gic_virt_feature_s) (v : Z) : Prop :=
  v <= 1019 ∨ 8192 <= v <= gv_max_vintid f ∨
  gv_ext_range f = true ∧ (1056 <= v <= 1119 ∨ 4096 <= v <= 5119).

Definition lr_entry_ok (f : gic_virt_feature_s) (lr : Z) : Prop :=
  Z.testbit lr 61 = false ∧ (∀ b, 32 <= b < 45 → b ≠ 41 → Z.testbit lr b = false) ∧
  Z.land (EXTRACT_F ICH_LR_PRIORITY lr) (gv_pri_res0_mask f) = 0 ∧ vintid_ok f (lr_vintid lr).

Definition lrs_distinct (n : nat) (lrs : list Z) : Prop :=
  ∀ i j a b, (i < j < n)%nat → lrs !! i = Some a → lrs !! j = Some b → lr_live a = true → lr_live b = true →
    lr_vintid a ≠ lr_vintid b.

Lemma lr_live_spec lr : ((lr .& ICH_LR_STATE_MASK) =? ICH_LR_STATE_INVALID) = negb (lr_live lr).
Proof.
  rewrite <- (negb_involutive (_ =? _)). f_equal. unfold lr_live. change ICH_LR_STATE_MASK with (2 ^ 62 + 2 ^ 63). change ICH_LR_STATE_INVALID with 0.
  assert (Hm : ∀ i, 0 <= i → Z.testbit (2 ^ 62 + 2 ^ 63) i = (i =? 62) || (i =? 63)).
  { intros i Hi. change (2 ^ 62 + 2 ^ 63) with (Z.lor (2 ^ 62) (2 ^ 63)).
    rewrite Z.lor_spec, !Z.pow2_bits_eqb by lia. by rewrite (Z.eqb_sym 62), (Z.eqb_sym 63). }
  destruct (Z.eqb_spec (lr .& (2 ^ 62 + 2 ^ 63)) 0) as [Hz|Hz]; cbn [negb].
  - rewrite land_zero_iff in Hz. by rewrite (Hz 62), (Hz 63).
  - destruct (Z.testbit lr 62) eqn:H62; [done|]. destruct (Z.testbit lr 63) eqn:H63; [done|]. exfalso. apply Hz.
    apply land_zero_iff. intros i Hi. rewrite Hm by done. by intros [->%Z.eqb_eq| ->%Z.eqb_eq]%orb_true_iff.
Qed.

Lemma lr_vintid_spec lr : EXTRACT_F ICH_LR_VINTID lr = lr_vintid lr.
Proof.
  unfold EXTRACT_F, EXTRACT, lr_vintid. cbn [fshift fwidth ICH_LR_VINTID]. rewrite Z.shiftr_0_r.
  change (MASK 0 32) with (2 ^ 32 - 1). by apply land_ones_mod.
Qed.

Lemma is_valid_vintid_spec f v : is_valid_vintid f v = true ↔ vintid_ok f v.
Proof.
  unfold is_valid_vintid, vintid_ok. change MAX_SPI_ID with 1019. change MIN_LPI_ID with 8192.
  change MIN_EPPI_ID with 1056. change MAX_EPPI_ID with 1119. change MIN_ESPI_ID with 4096. change MAX_ESPI_ID with 5119.
  destruct ((v <=? 1019) || (8192 <=? v) && (v <=? gv_max_vintid f)) eqn:E.
  - split; [intros _|done]. rewrite orb_true_iff, andb_true_iff, !Z.leb_le in E. tauto.
  - assert (Hn : ¬ (v <= 1019) ∧ ¬ (8192 <= v <= gv_max_vintid f)).
    { split; intros Hv; revert E; rewrite <- not_true_iff_false, orb_true_iff, andb_true_iff, !Z.leb_le; tauto. }
    destruct (gv_ext_range f); rewrite ?orb_true_iff, ?andb_true_iff, ?Z.leb_le; intuition discriminate.
Qed.

Lemma lr_checks_spec f lr :
  negb ((lr .& ICH_LR_HW_BIT) =? 0) || negb ((EXTRACT_F ICH_LR_PRIORITY lr .& gv_pri_res0_mask f) =? 0) ||
  negb ((lr .& ICH_LR_PINTID_MASK .& .~ ICH_LR_EOI_BIT) =? 0) || negb (is_valid_vintid f (EXTRACT_F ICH_LR_VINTID lr)) = false
  ↔ lr_entry_ok f lr.
Proof.
  rewrite !orb_false_iff, !negb_false_iff, !Z.eqb_eq, is_valid_vintid_spec, lr_vintid_spec. unfold lr_entry_ok.
  change ICH_LR_HW_BIT with (2 ^ 61).
  assert (H1 : lr .& 2 ^ 61 = 0 ↔ Z.testbit lr 61 = false).
  { rewrite <- (land_pow2_testbit lr 61) by lia. by rewrite negb_false_iff, Z.eqb_eq. }
  assert (Hm : ∀ i, 0 <= i → Z.testbit (Z.land ICH_LR_PINTID_MASK (.~ ICH_LR_EOI_BIT)) i
    = (32 <=? i) && (i <? 45) && negb (i =? 41)).
  { intros i Hi. unfold ICH_LR_PINTID_MASK. rewrite Z.land_spec, testbit_MASK, testbit_not64 by lia.
    change ICH_LR_EOI_BIT with (2 ^ 41). rewrite Z.pow2_bits_eqb by lia. rewrite (Z.eqb_sym 41).
    destruct (Z.leb_spec 32 i), (Z.ltb_spec i 45), (Z.ltb_spec i 64); cbn [andb]; try lia; done. }
  assert (H2 : lr .& ICH_LR_PINTID_MASK .& .~ ICH_LR_EOI_BIT = 0 ↔ ∀ b, 32 <= b < 45 → b ≠ 41 → Z.testbit lr b = false).
  { rewrite land_land_r, land_zero_iff. split.
    - intros Hz b Hb Hne. apply Hz; [lia|]. rewrite Hm by lia. rewrite !andb_true_iff, Z.leb_le, Z.ltb_lt, negb_true_iff, Z.eqb_neq. lia.
    - intros Hz i Hi. rewrite Hm by lia. rewrite !andb_true_iff, Z.leb_le, Z.ltb_lt, negb_true_iff, Z.eqb_neq. intros [Hb Hne].
      by apply Hz. }
  rewrite H1, H2. tauto.
Qed.

Lemma lr_clash_spec lrs intid : ∀ n j,
  0 <= j → j + Z.of_nat n <= Z.of_nat (length lrs) →
  ∃ b, lr_clash n j intid lrs = Ok b ∧
    (b = false ↔ ∀ k a, (Z.to_nat j <= k < Z.to_nat j + n)%nat → lrs !! k = Some a → lr_live a = true → lr_vintid a ≠ intid).
Proof.
  induction n as [|n IH]; intros j Hj Hlen; cbn [lr_clash].
  { exists false. split; [done|]. split; [intros _ k a ?; lia|done]. }
  destruct (aget_in_range lrs j ltac:(lia)) as (lr & -> & Hlr). rewrite result_bind_ok.
  destruct (IH (j + 1) ltac:(lia) ltac:(lia)) as (b & Hb & Hiff).
  assert (Hrest : (lr_live lr = true → lr_vintid lr ≠ intid) →
    (∀ k a, (Z.to_nat (j + 1) <= k < Z.to_nat (j + 1) + n)%nat → lrs !! k = Some a → lr_live a = true → lr_vintid a ≠ intid) ↔
    (∀ k a, (Z.to_nat j <= k < Z.to_nat j + S n)%nat → lrs !! k = Some a → lr_live a = true → lr_vintid a ≠ intid)).
  { intros Hhead. split; intros Hall k a Hk Ha; [|apply (Hall k); [lia|done]].
    destruct (decide (k = Z.to_nat j)) as [->|]; [|apply (Hall k); [lia|done]]. rewrite Hlr in Ha. by injection Ha as <-. }
  rewrite lr_live_spec. destruct (lr_live lr) eqn:Hlive; cbn [negb]; cycle 1.
  { exists b. split; [done|]. rewrite Hiff. by apply Hrest. }
  rewrite lr_vintid_spec. destruct (Z.eqb_spec intid (lr_vintid lr)) as [->|Hne].
  - exists true. split; [done|]. split; [done|]. intros Hall. exfalso. by apply (Hall (Z.to_nat j) lr); [lia|..].
  - exists b. split; [done|]. rewrite Hiff. apply Hrest. congruence.
Qed.

Lemma validate_lrs_spec f lrs : ∀ n i,
  0 <= i → i + Z.of_nat n <= Z.of_nat (length lrs) →
  ∃ b, validate_lrs f n i lrs = Ok b ∧
    (b = true ↔
     (∀ k a, (Z.to_nat i <= k < Z.to_nat i + n)%nat → lrs !! k = Some a → lr_live a = true → lr_entry_ok f a) ∧
     (∀ k l a c, (Z.to_nat i <= k < l)%nat → (l < Z.to_nat i + n)%nat → lrs !! k = Some a → lrs !! l = Some c →
        lr_live a = true → lr_live c = true → lr_vintid a ≠ lr_vintid c)).
Proof.
  induction n as [|n IH]; intros i Hi Hlen; cbn [validate_lrs].
  { exists true. split; [done|]. split; [|done]. intros _. split; [intros k a ?; lia|intros k l a c ??; lia]. }
  destruct (aget_in_range lrs i ltac:(lia)) as (lr & -> & Hlr). rewrite result_bind_ok. cbv zeta.
  destruct (IH (i + 1) ltac:(lia) ltac:(lia)) as (b & Hb & Hiff).
  destruct (lr_clash_spec lrs (lr_vintid lr) n (i + 1) ltac:(lia) ltac:(lia)) as (cl & Hcl & Hcliff).
  replace (Z.to_nat (i + 1)) with (S (Z.to_nat i)) in * by lia.
  rewrite lr_live_spec. destruct (lr_live lr) eqn:Hlive; cbn [negb]; cycle 1.
  { exists b. split; [done|]. rewrite Hiff. split; intros [H1 H2]; split.
    - intros k a Hk Ha Hla. destruct (decide (k = Z.to_nat i)) as [->|]; [congruence|]. apply (H1 k); [lia|done..].
    - intros k l a c Hk Hl Ha Hc Hla Hlc. destruct (decide (k = Z.to_nat i)) as [->|]; [congruence|]. apply (H2 k l); [lia|lia|done..].
    - intros k a Hk. apply H1. lia.
    - intros k l a c Hk Hl. apply H2; lia. }
  match goal with |- context [if ?x then Ok false else _] => destruct x eqn:Hchk end.
  { exists false. split; [done|]. split; [done|]. intros [H1 _]. specialize (H1 (Z.to_nat i) lr ltac:(lia) Hlr Hlive).
    apply lr_checks_spec in H1. congruence. }
  apply lr_checks_spec in Hchk. rewrite lr_vintid_spec, Hcl, result_bind_ok. destruct cl.
  - exists false. split; [done|]. split; [done|]. intros [_ H2]. exfalso. apply diff_true_false, Hcliff.
    intros k a Hk Ha Hla Heq. by apply (H2 (Z.to_nat i) k lr a); [lia|lia|..].
  - exists b. split; [done|]. rewrite Hiff. split; intros [H1 H2]; split.
    + intros k a Hk Ha Hla. destruct (decide (k = Z.to_nat i)) as [->|]; [congruence|]. apply (H1 k); [lia|done..].
    + intros k l a c Hk Hl Ha Hc Hla Hlc. destruct (decide (k = Z.to_nat i)) as [->|]; [|apply (H2 k l); [lia|lia|done..]].
      rewrite Hlr in Ha. injection Ha as <-. apply not_eq_sym. by apply (proj1 Hcliff eq_refl l c); [lia|..].
    + intros k a Hk. apply H1. lia.
    + intros k l a c Hk Hl. apply H2; lia.
Qed.

(** The bits of ICH_HCR_EL2 that belong to the host. *)
Definition host_hcr_bit (i : Z) : bool := (1 <=? i) && (i <=? 7) || (i =? 14).

Lemma ns_mask_bit i : 0 <= i → Z.testbit ICH_HCR_EL2_NS_MASK i = host_hcr_bit i.
Proof.
  intros Hi. unfold host_hcr_bit. change ICH_HCR_EL2_NS_MASK with (Z.lor (Z.shiftl (Z.ones 7) 1) (2 ^ 14)).
  rewrite Z.lor_spec, Z.shiftl_spec, Z.pow2_bits_eqb by lia. rewrite Z.eqb_sym.
  destruct (Z.leb_spec 1 i); cycle 1. { rewrite testbit_neg by lia. done. }
  rewrite Z.testbit_ones_nonneg by lia. f_equal. lia.
Qed.

(** C26: the host's interrupt state is accepted on entry of a REC exactly when it sets no bits of
    ICH_HCR_EL2 but its own, every implemented list register that holds an interrupt is of the
    form the specification allows (not a hardware interrupt, no reserved bits, a number in an
    implemented range), and no two of them hold the same interrupt. *)
Theorem gic_validate_state_exact f e :
  0 <= gv_nr_lrs f < 16 → length (en_gicv3_lrs e) = 16%nat → is_u64 (en_gicv3_hcr e) →
  ∃ b, gic_validate_state f e = Ok b ∧
    (b = true ↔
     (∀ i, 0 <= i → Z.testbit (en_gicv3_hcr e) i = true → host_hcr_bit i = true) ∧
     (∀ k lr, (k < lr_count f)%nat → en_gicv3_lrs e !! k = Some lr → lr_live lr = true → lr_entry_ok f lr) ∧
     lrs_distinct (lr_count f) (en_gicv3_lrs e)).
Proof.
  intros Hn Hlen Hu. unfold gic_validate_state. rewrite land_not64 by done.
  destruct (validate_lrs_spec f (en_gicv3_lrs e) (lr_count f) 0 ltac:(lia) ltac:(unfold lr_count; lia)) as (b & Hb & Hiff).
  assert (Hh : Z.ldiff (en_gicv3_hcr e) ICH_HCR_EL2_NS_MASK = 0 ↔
    ∀ i, 0 <= i → Z.testbit (en_gicv3_hcr e) i = true → host_hcr_bit i = true).
  { split.
    - intros Hz i Hi Hbit. pose proof (f_equal (λ x, Z.testbit x i) Hz) as H0. cbv beta in H0.
      rewrite Z.ldiff_spec, Hbit, ns_mask_bit, Z.bits_0 in H0 by done. by destruct (host_hcr_bit i).
    - intros Hall. apply Z.bits_inj'. intros i Hi. rewrite Z.ldiff_spec, ns_mask_bit, Z.bits_0 by done.
      destruct (Z.testbit (en_gicv3_hcr e) i) eqn:Hbit; [|done]. by rewrite (Hall i Hi Hbit). }
  destruct (Z.eqb_spec (Z.ldiff (en_gicv3_hcr e) ICH_HCR_EL2_NS_MASK) 0) as [Hz|Hz]; cbn [negb].
  - exists b. split; [done|]. rewrite Hiff. pose proof (proj1 Hh Hz) as Hz'. split.
    + intros [H1 H2]. split; [done|]. split; [intros k lr Hk; apply H1; lia|]. intros i j a c Hij. apply H2; lia.
    + intros (_ & H1 & H2). split; [intros k lr Hk; apply H1; lia|]. intros k l a c Hk Hl. apply H2. lia.
  - exists false. split; [done|]. split; [done|]. intros [H1 _]. by destruct (Hz (proj2 Hh H1)).
Qed.

(** ** The way of the state *)

Lemma copy_regs_spec src : ∀ n i dst,
  0 <= i → i + Z.of_nat n <= Z.of_nat (length src) → length src = length dst →
  ∃ dst', copy_regs n i src dst = Ok dst' ∧ length dst' = length dst ∧
    ∀ k, dst' !! k = if decide (Z.to_nat i <= k < Z.to_nat i + n)%nat then src !! k else dst !! k.
Proof.
  induction n as [|n IH]; intros i dst Hi Hlen Heq; cbn [copy_regs].
  { exists dst. split; [done|]. split; [done|]. intros k. rewrite decide_False by lia. done. }
  destruct (aget_in_range src i ltac:(lia)) as (v & -> & Hv). rewrite result_bind_ok, aset_ok, result_bind_ok by lia.
  destruct (IH (i + 1) (<[Z.to_nat i := v]> dst)) as (dst' & Hrun & Hl & Hk); [lia|lia|by rewrite length_insert|].
  rewrite length_insert in Hl. exists dst'. split; [done|]. split; [done|]. intros k. rewrite Hk.
  destruct (decide (k = Z.to_nat i)) as [->|Hne].
  - rewrite decide_False, decide_True, list_lookup_insert_eq by lia. done.
  - rewrite list_lookup_insert_ne by done. destruct (decide (Z.to_nat (i + 1) <= k < Z.to_nat (i + 1) + n)%nat).
    + by rewrite decide_True by lia.
    + by rewrite decide_False by lia.
Qed.

Lemma copy_down_spec src : ∀ n dst,
  (n < length src)%nat → length src = length dst →
  ∃ dst', copy_down n src dst = Ok dst' ∧ length dst' = length dst ∧
    ∀ k, dst' !! k = if decide (k <= n)%nat then src !! k else dst !! k.
Proof.
  induction n as [|n IH]; intros dst Hn Heq; cbn [copy_down].
  - change (Z.of_nat 0) with 0. destruct (aget_in_range src 0 ltac:(lia)) as (v & -> & Hv).
    rewrite result_bind_ok, aset_ok, result_bind_ok by lia. eexists. split; [done|]. rewrite length_insert. split; [done|].
    intros k. destruct (decide (k <= 0)%nat) as [Hk|Hk].
    + assert (k = 0%nat) as -> by lia. by rewrite list_lookup_insert_eq by lia.
    + by rewrite list_lookup_insert_ne by lia.
  - destruct (aget_in_range src (Z.of_nat (S n)) ltac:(lia)) as (v & -> & Hv).
    rewrite result_bind_ok, aset_ok, result_bind_ok by lia. rewrite Nat2Z.id in *.
    destruct (IH (<[S n := v]> dst)) as (dst' & Hrun & Hl & Hk); [lia|by rewrite length_insert|].
    rewrite length_insert in Hl. exists dst'. split; [done|]. split; [done|]. intros k. rewrite Hk.
    destruct (decide (k = S n)) as [->|Hne].
    + rewrite decide_False, decide_True, list_lookup_insert_eq by lia. done.
    + rewrite list_lookup_insert_ne by done. destruct (decide (k <= n)%nat); [by rewrite decide_True by lia|by rewrite decide_False by lia].
Qed.

(** What the host gives on entry is what it gets back on exit when the REC did not run, and
    it cannot reach further: of ICH_HCR_EL2 the entry sets exactly the host's bits and leaves
    the monitor's (the enable, the virtual SGI and the direct injection bits among them) as
    they were, and the exit shows the host its own bits and the EOI count only; the
    implemented list registers come back unchanged. *)
Theorem gic_entry_exit f g e ex :
  0 <= gv_nr_lrs f < 16 → length (en_gicv3_lrs e) = 16%nat → length (ich_lr_el2 g) = 16%nat →
  length (ex_gicv3_lrs ex) = 16%nat → is_u64 (ich_hcr_el2 g) →
  ∃ g' ex', gic_copy_state_from_rec_entry f g e = Ok g' ∧ gic_copy_state_to_rec_exit f g' ex = Ok ex' ∧
    (∀ i, 0 <= i → Z.testbit (ich_hcr_el2 g') i
                   = if host_hcr_bit i then Z.testbit (en_gicv3_hcr e) i else Z.testbit (ich_hcr_el2 g) i) ∧
    (∀ i, 0 <= i → Z.testbit (ex_gicv3_hcr ex') i
                   = if host_hcr_bit i then Z.testbit (en_gicv3_hcr e) i
                     else (27 <=? i) && (i <? 32) && Z.testbit (ich_hcr_el2 g) i) ∧
    (∀ k, (k < lr_count f)%nat → ich_lr_el2 g' !! k = en_gicv3_lrs e !! k ∧ ex_gicv3_lrs ex' !! k = en_gicv3_lrs e !! k).
Proof.
  intros Hn He Hg Hx Hu. unfold gic_copy_state_from_rec_entry, gic_copy_state_to_rec_exit.
  assert (Hc : (lr_count f <= 16)%nat) by (unfold lr_count; lia).
  destruct (copy_regs_spec (en_gicv3_lrs e) (lr_count f) 0 (ich_lr_el2 g)) as (l & Hl & Hll & Hlk); [lia|lia|congruence|].
  rewrite Hl, result_bind_ok.
  set (g' := set_ich_hcr (ich_hcr_el2 g .& .~ ICH_HCR_EL2_NS_MASK .| (en_gicv3_hcr e .& ICH_HCR_EL2_NS_MASK)) (set_lrs l g)).
  exists g'.
  destruct (copy_regs_spec (ich_lr_el2 g') (lr_count f) 0 (ex_gicv3_lrs ex)) as (l' & Hl' & _ & Hlk');
    [lia|cbn; lia|cbn; congruence|].
  assert (Hbits : ∀ i, 0 <= i → Z.testbit (ich_hcr_el2 g') i
    = if host_hcr_bit i then Z.testbit (en_gicv3_hcr e) i else Z.testbit (ich_hcr_el2 g) i).
  { intros i Hi. cbn. rewrite Z.lor_spec, !Z.land_spec, testbit_not64, ns_mask_bit by done.
    destruct (host_hcr_bit i) eqn:Hh; cbn [negb]; rewrite ?andb_false_r, ?andb_true_r, ?orb_false_r; [done|].
    destruct (Z.ltb_spec i 64); [by rewrite andb_true_r|]. by rewrite (testbit_high _ 64 i Hu). }
  exists (set_exit_gic l' (ich_misr_el2 g') (ich_vmcr_el2 g')
    (ich_hcr_el2 g' .& (ICH_HCR_EL2_EOI_COUNT_MASK .| ICH_HCR_EL2_NS_MASK)) ex).
  split; [reflexivity|]. split; [by rewrite Hl'|]. split; [exact Hbits|]. split.
  - intros i Hi. cbn [ex_gicv3_hcr set_exit_gic]. unfold ICH_HCR_EL2_EOI_COUNT_MASK.
    rewrite Z.land_spec, Z.lor_spec, testbit_MASK, ns_mask_bit, Hbits by lia.
    destruct (host_hcr_bit i) eqn:Hh; [by rewrite orb_true_r, andb_true_r|]. rewrite orb_false_r, andb_comm. f_equal.
    destruct (Z.ltb_spec i 64), (Z.leb_spec 27 i), (Z.ltb_spec i 32); cbn [andb]; lia.
  - intros k Hk. cbn [ex_gicv3_lrs set_exit_gic]. rewrite Hlk', decide_True by lia. cbn [ich_lr_el2 g' set_ich_hcr set_lrs].
    rewrite Hlk, decide_True by lia. done.
Qed.

(** Saving right after restoring gives back the state that was restored, whatever the
    registers held before, with the maintenance status of the interface; and it leaves the
    virtual interface disabled. *)
Theorem gic_restore_save f g hw :
  0 <= gv_nr_lrs f < 16 → 0 <= gv_nr_aprs f →
  length (ich_lr_el2 g) = 16%nat → length (hw_lr hw) = 16%nat →
  length (ich_ap0r_el2 g) = 4%nat → length (hw_ap0r hw) = 4%nat →
  length (ich_ap1r_el2 g) = 4%nat → length (hw_ap1r hw) = 4%nat →
  ∃ hw1 hw2, gic_restore_state f g hw = Ok hw1 ∧
    gic_save_state f g hw1
    = Ok ({| ich_ap0r_el2 := ich_ap0r_el2 g; ich_ap1r_el2 := ich_ap1r_el2 g; ich_vmcr_el2 := ich_vmcr_el2 g;
             ich_hcr_el2 := ich_hcr_el2 g; ich_lr_el2 := ich_lr_el2 g; ich_misr_el2 := hw_misr hw |}, hw2) ∧
    Z.testbit (hw_hcr hw2) 0 = false.
Proof.
  intros Hn Ha L1 L2 L3 L4 L5 L6.
  assert (Hsw : ∀ n cases src dst, 0 <= n → 0 <= cases → (Z.to_nat cases < length src)%nat → length src = length dst →
    ∃ dst', switch_regs n cases src dst = Ok dst' ∧ switch_regs n cases dst' src = Ok src).
  { intros n cases src dst H0 Hcs Hlt Heq. unfold switch_regs. set (m := if n <=? cases then Z.to_nat n else 0%nat).
    assert (Hm : (m < length src)%nat) by (unfold m; destruct (Z.leb_spec n cases); lia).
    destruct (copy_down_spec src m dst Hm Heq) as (d & Hd & Hdl & Hdk). exists d. split; [done|].
    destruct (copy_down_spec d m src) as (e & He & Hel & Hek); [lia|lia|]. rewrite He. f_equal.
    apply list_eq. intros k. rewrite Hek, Hdk. by destruct (decide (k <= m)%nat). }
  unfold gic_restore_state, gic_save_state, write_aprs, write_lrs, read_aprs, read_lrs.
  destruct (Hsw (gv_nr_aprs f) 3 (ich_ap0r_el2 g) (hw_ap0r hw)) as (a0 & E0 & F0); [lia|lia|lia|congruence|].
  destruct (Hsw (gv_nr_aprs f) 3 (ich_ap1r_el2 g) (hw_ap1r hw)) as (a1 & E1 & F1); [lia|lia|lia|congruence|].
  destruct (Hsw (gv_nr_lrs f) 15 (ich_lr_el2 g) (hw_lr hw)) as (lr & E2 & F2); [lia|lia|lia|congruence|].
  rewrite E0, result_bind_ok, E1, !result_bind_ok, E2, result_bind_ok. eexists _, _. split; [done|].
  cbn [hw_ap0r hw_ap1r hw_lr hw_vmcr hw_hcr hw_misr]. rewrite F0, result_bind_ok, F1, !result_bind_ok, F2, result_bind_ok.
  split; [done|]. cbn [hw_hcr ich_hcr_el2]. rewrite Z.land_spec, testbit_not64 by lia. by rewrite andb_false_r.
Qed.

(** * Examples *)

Definition demo_gic : gic_virt_feature_s :=
  {| gv_nr_lrs := 3; gv_nr_aprs := 1; gv_pri_res0_mask := 7; gv_max_vintid := 2 ^ 16 - 1; gv_ext_range := false |}.
Definition demo_enter : rmi_rec_enter :=
  {| en_flags := 0; en_gprs := replicate 31 0; en_gicv3_hcr := 2; en_gicv3_lrs := <[0%nat := 2 ^ 62 + 27]> (replicate 16 0) |}.

Lemma gic_validate_state_exact_witness : gic_validate_state demo_gic demo_enter = Ok true.
Proof.
  destruct (gic_validate_state_exact demo_gic demo_enter) as (b & Hb & Hiff); [by vm_compute|reflexivity|by vm_compute|].
  rewrite Hb. f_equal. apply Hiff. split; [|split].
  - intros i Hi Hbit. change (en_gicv3_hcr demo_enter) with (2 ^ 1) in Hbit. rewrite Z.pow2_bits_eqb in Hbit by lia.
    by apply Z.eqb_eq in Hbit as <-.
  - intros k lr Hk Hlr Hlive. apply list_lookup_insert_Some in Hlr as [(<- & <- & _)|[_ Hlr]].
    + split; [reflexivity|]. split; [|split; [reflexivity|left; vm_compute; discriminate]].
      intros j Hj Hne. change (2 ^ 62 + 27) with (Z.lor (2 ^ 62) 27). rewrite Z.lor_spec, Z.pow2_bits_eqb by lia.
      rewrite (testbit_high 27 5 j) by lia. rewrite orb_false_r. apply Z.eqb_neq. lia.
    + apply lookup_replicate in Hlr as [-> _]. done.
  - intros i j a c Hij Ha Hc Hla Hlc. apply list_lookup_insert_Some in Hc as [(<- & _ & _)|[_ Hc]]; [lia|].
    apply lookup_replicate in Hc as [-> _]. done.
Defined.

Lemma gic_entry_exit_witness :
  ∃ g' ex', gic_copy_state_from_rec_entry demo_gic (gic_cpu_state_init gic_cpu_state_zero) demo_enter = Ok g' ∧
    gic_copy_state_to_rec_exit demo_gic g' rmi_rec_exit_zero = Ok ex' ∧ ex_gicv3_lrs ex' !! 0%nat = Some (2 ^ 62 + 27).
Proof.
  destruct (gic_entry_exit demo_gic (gic_cpu_state_init gic_cpu_state_zero) demo_enter rmi_rec_exit_zero)
    as (g' & ex' & H1 & H2 & _ & _ & H3); [by vm_compute|reflexivity..|by vm_compute|].
  exists g', ex'. split; [exact H1|]. split; [exact H2|]. destruct (H3 0%nat) as [_ ->]; [vm_compute; lia|]. reflexivity.
Defined.

Lemma gic_restore_save_witness :
  ∃ hw1 hw2, gic_restore_state demo_gic (gic_cpu_state_init gic_cpu_state_zero)
      {| hw_ap0r := replicate 4 1; hw_ap1r := replicate 4 1; hw_vmcr := 5; hw_hcr := 1; hw_lr := replicate 16 9; hw_misr := 0 |} = Ok hw1 ∧
    gic_save_state demo_gic (gic_cpu_state_init gic_cpu_state_zero) hw1 = Ok (gic_cpu_state_init gic_cpu_state_zero, hw2).
Proof.
  destruct (gic_restore_save demo_gic (gic_cpu_state_init gic_cpu_state_zero)
    {| hw_ap0r := replicate 4 1; hw_ap1r := replicate 4 1; hw_vmcr := 5; hw_hcr := 1; hw_lr := replicate 16 9; hw_misr := 0 |})
    as (hw1 & hw2 & H1 & H2 & _); [by vm_compute|by vm_compute|reflexivity..|].
  exists hw1, hw2. split; [exact H1|exact H2].
Defined.
