(* ===== verification/Mpidr.v ===== *)
(** The numbering of RECs (runtime/include/rec.h, lib/arch/include/arch.h): the MPIDR that the
    host gives a REC, the one the realm sees, and the index both stand for. *)
From S2P Require Import Prelude Types Granule Platform GranuleFind S2tte S2tt Buffer Walk Exec Realm Rtt Feature.

Definition MPIDR_EL1_AFF0 : bitfield := {| fshift := 0; fwidth := 4 |}.
Definition MPIDR_EL1_AFF0_VAL_SHIFT : Z := 0.
Definition MPIDR_EL1_AFF1 : bitfield := {| fshift := 8; fwidth := 8 |}.
Definition MPIDR_EL1_AFF1_VAL_SHIFT : Z := 4.
Definition MPIDR_EL1_AFF2 : bitfield := {| fshift := 16; fwidth := 8 |}.
Definition MPIDR_EL1_AFF2_VAL_SHIFT : Z := 4.
Definition MPIDR_EL1_AFF3 : bitfield := {| fshift := 32; fwidth := 8 |}.
Definition MPIDR_EL1_AFF3_VAL_SHIFT : Z := 12.
Definition RMI_MPIDR_AFF0 : bitfield := {| fshift := 0; fwidth := 4 |}.
Definition RMI_MPIDR_AFF0_VAL_SHIFT : Z := 0.
Definition RMI_MPIDR_AFF1 : bitfield := {| fshift := 8; fwidth := 8 |}.
Definition RMI_MPIDR_AFF1_VAL_SHIFT : Z := 4.
Definition RMI_MPIDR_AFF2 : bitfield := {| fshift := 16; fwidth := 8 |}.
Definition RMI_MPIDR_AFF2_VAL_SHIFT : Z := 4.
Definition RMI_MPIDR_AFF3 : bitfield := {| fshift := 24; fwidth := 8 |}.
Definition RMI_MPIDR_AFF3_VAL_SHIFT : Z := 4.
Definition VMPIDR_EL2_RES1 : Z := 1 .<< 31.

Definition MASK_F (f : bitfield) : Z := MASK (fshift f) (fwidth f).

(** [MPIDR_EL1_AFF(n, reg)] and [RMI_MPIDR_AFF(n, val)], with the field and the shift of [n]. *)
Definition MPIDR_EL1_AFF (f : bitfield) (val_shift reg : Z) : Z := (reg .& MASK_F f) .>> val_shift.
Definition RMI_MPIDR_AFF (f : bitfield) (val_shift val : Z) : Z := (val .& MASK_F f) .>> val_shift.

Definition rec_mpidr_is_valid (rec_mpidr : Z) : bool :=
  (rec_mpidr .& .~ (MASK_F RMI_MPIDR_AFF0 .| MASK_F RMI_MPIDR_AFF1 .| MASK_F RMI_MPIDR_AFF2 .| MASK_F RMI_MPIDR_AFF3)) =? 0.

Definition rec_mpidr_to_idx (rec_mpidr : Z) : Z :=
  RMI_MPIDR_AFF RMI_MPIDR_AFF0 RMI_MPIDR_AFF0_VAL_SHIFT rec_mpidr .|
  RMI_MPIDR_AFF RMI_MPIDR_AFF1 RMI_MPIDR_AFF1_VAL_SHIFT rec_mpidr .|
  RMI_MPIDR_AFF RMI_MPIDR_AFF2 RMI_MPIDR_AFF2_VAL_SHIFT rec_mpidr .|
  RMI_MPIDR_AFF RMI_MPIDR_AFF3 RMI_MPIDR_AFF3_VAL_SHIFT rec_mpidr.

Definition mpidr_to_rec_idx (mpidr : Z) : Z :=
  MPIDR_EL1_AFF MPIDR_EL1_AFF0 MPIDR_EL1_AFF0_VAL_SHIFT mpidr .|
  MPIDR_EL1_AFF MPIDR_EL1_AFF1 MPIDR_EL1_AFF1_VAL_SHIFT mpidr .|
  MPIDR_EL1_AFF MPIDR_EL1_AFF2 MPIDR_EL1_AFF2_VAL_SHIFT mpidr .|
  MPIDR_EL1_AFF MPIDR_EL1_AFF3 MPIDR_EL1_AFF3_VAL_SHIFT mpidr.

Definition rec_mpidr_to_mpidr (rec_mpidr : Z) : Z :=
  (rec_mpidr .& (MASK_F RMI_MPIDR_AFF0 .| MASK_F RMI_MPIDR_AFF1 .| MASK_F RMI_MPIDR_AFF2)) .|
  ((rec_mpidr .& MASK_F RMI_MPIDR_AFF3) .<< (fshift MPIDR_EL1_AFF3 - fshift RMI_MPIDR_AFF3)).

(** * Bit by bit *)

Ltac zcases :=
  repeat (match goal with
  | |- context [Z.leb ?a ?b] => destruct (Z.leb_spec a b)
  | |- context [Z.ltb ?a ?b] => destruct (Z.ltb_spec a b)
  | |- context [Z.eqb ?a ?b] => destruct (Z.eqb_spec a b)
  end; try (exfalso; lia); cbn [andb orb negb]; rewrite ?andb_false_r, ?andb_true_r, ?orb_false_r);
  try lia; try done.

Lemma testbit_MASK_F f i :
  0 <= fshift f → 0 < fwidth f → fshift f + fwidth f <= 64 → 0 <= i →
  Z.testbit (MASK_F f) i = (fshift f <=? i) && (i <? fshift f + fwidth f).
Proof. intros H1 H2 H3 Hi. unfold MASK_F. rewrite testbit_MASK by lia. zcases. Qed.

(** Bounds of fields. *)
Ltac fld := first [ lia | by vm_compute ].

(** A field, shifted. *)
Lemma testbit_aff f n v i :
  0 <= fshift f → 0 < fwidth f → fshift f + fwidth f <= 64 → 0 <= n → 0 <= i →
  Z.testbit ((v .& MASK_F f) .>> n) i = Z.testbit v (i + n) && ((fshift f <=? i + n) && (i + n <? fshift f + fwidth f)).
Proof. intros H1 H2 H3 Hn Hi. rewrite Z.shiftr_spec, Z.land_spec, testbit_MASK_F by lia. done. Qed.

Ltac aff_bits :=
  rewrite !Z.lor_spec; unfold RMI_MPIDR_AFF, MPIDR_EL1_AFF; rewrite !testbit_aff by fld;
  cbn [fshift fwidth RMI_MPIDR_AFF0 RMI_MPIDR_AFF1 RMI_MPIDR_AFF2 RMI_MPIDR_AFF3
       MPIDR_EL1_AFF0 MPIDR_EL1_AFF1 MPIDR_EL1_AFF2 MPIDR_EL1_AFF3];
  unfold RMI_MPIDR_AFF0_VAL_SHIFT, RMI_MPIDR_AFF1_VAL_SHIFT, RMI_MPIDR_AFF2_VAL_SHIFT, RMI_MPIDR_AFF3_VAL_SHIFT,
    MPIDR_EL1_AFF0_VAL_SHIFT, MPIDR_EL1_AFF1_VAL_SHIFT, MPIDR_EL1_AFF2_VAL_SHIFT, MPIDR_EL1_AFF3_VAL_SHIFT.

Lemma testbit_rec_idx m i : 0 <= i →
  Z.testbit (rec_mpidr_to_idx m) i
  = if i <? 4 then Z.testbit m i else if i <? 28 then Z.testbit m (i + 4) else false.
Proof. intros Hi. unfold rec_mpidr_to_idx. aff_bits. rewrite Z.add_0_r. zcases. Qed.

Lemma testbit_mpidr_idx m i : 0 <= i →
  Z.testbit (mpidr_to_rec_idx m) i
  = if i <? 4 then Z.testbit m i else if i <? 20 then Z.testbit m (i + 4)
    else if i <? 28 then Z.testbit m (i + 12) else false.
Proof. intros Hi. unfold mpidr_to_rec_idx. aff_bits. rewrite Z.add_0_r. zcases. Qed.

Lemma testbit_to_mpidr m i : 0 <= i < 64 →
  Z.testbit (rec_mpidr_to_mpidr m) i
  = if i <? 4 then Z.testbit m i else if i <? 8 then false else if i <? 24 then Z.testbit m i
    else if i <? 32 then false else if i <? 40 then Z.testbit m (i - 8) else false.
Proof.
  intros Hi. unfold rec_mpidr_to_mpidr. rewrite Z.lor_spec, Z.land_spec, !Z.lor_spec, testbit_shl64 by fld.
  change (fshift MPIDR_EL1_AFF3 - fshift RMI_MPIDR_AFF3) with 8.
  assert (Hm : Z.testbit (Z.land m (MASK_F RMI_MPIDR_AFF3)) (i - 8)
    = Z.testbit m (i - 8) && ((24 <=? i - 8) && (i - 8 <? 32))).
  { destruct (Z.ltb_spec i 8); [by rewrite !testbit_neg by lia|].
    rewrite Z.land_spec, testbit_MASK_F by fld. done. }
  rewrite Hm, !testbit_MASK_F by fld.
  cbn [fshift fwidth RMI_MPIDR_AFF0 RMI_MPIDR_AFF1 RMI_MPIDR_AFF2]. zcases.
Qed.

Lemma rec_mpidr_is_valid_spec m :
  is_u64 m → rec_mpidr_is_valid m = true ↔ ∀ i, 0 <= i → Z.testbit m i = true → i < 32 ∧ ¬ (4 <= i < 8).
Proof.
  intros Hu. unfold rec_mpidr_is_valid. rewrite Z.eqb_eq.
  assert (Hb : ∀ i, 0 <= i < 64 → Z.testbit (.~ (MASK_F RMI_MPIDR_AFF0 .| MASK_F RMI_MPIDR_AFF1 .| MASK_F RMI_MPIDR_AFF2
      .| MASK_F RMI_MPIDR_AFF3)) i = negb ((i <? 32) && negb ((4 <=? i) && (i <? 8)))).
  { intros i Hi. rewrite testbit_not64, !Z.lor_spec, !testbit_MASK_F by fld.
    cbn [fshift fwidth RMI_MPIDR_AFF0 RMI_MPIDR_AFF1 RMI_MPIDR_AFF2 RMI_MPIDR_AFF3]. zcases. }
  split.
  - intros Hz i Hi Hm. destruct (Z.ltb_spec i 64) as [Hlt|Hge]; [|by rewrite (testbit_high m 64 i Hu Hge) in Hm].
    pose proof (f_equal (λ x, Z.testbit x i) Hz) as Hzi. cbv beta in Hzi. rewrite Z.land_spec, Hm, Hb, Z.bits_0 in Hzi by lia.
    revert Hzi. zcases.
  - intros Hv. apply Z.bits_inj'. intros i Hi. rewrite Z.land_spec, Z.bits_0.
    destruct (Z.testbit m i) eqn:Hm; [|done]. destruct (Hv i Hi Hm). rewrite Hb by lia. zcases.
Qed.

Lemma rec_idx_range m : 0 <= rec_mpidr_to_idx m < 2 ^ 28.
Proof.
  assert (Hm : rec_mpidr_to_idx m = rec_mpidr_to_idx m mod 2 ^ 28); [|rewrite Hm; apply Z.mod_pos_bound; lia].
  apply Z.bits_inj'. intros i Hi. destruct (Z.ltb_spec i 28); [by rewrite Z.mod_pow2_bits_low|].
  rewrite Z.mod_pow2_bits_high, testbit_rec_idx by lia. zcases.
Qed.

(** The accepted value whose index is [idx]. *)
Definition idx_mpidr (idx : Z) : Z := Z.lor (idx mod 16) (Z.shiftl (Z.shiftr idx 4) 8).

Lemma idx_mpidr_spec idx : 0 <= idx < 2 ^ 28 →
  is_u64 (idx_mpidr idx) ∧ ∀ i, 0 <= i → Z.testbit (idx_mpidr idx) i
    = if i <? 4 then Z.testbit idx i else if i <? 8 then false else if i <? 32 then Z.testbit idx (i - 4) else false.
Proof.
  intros Hr. assert (Hb : ∀ i, 0 <= i → Z.testbit (idx_mpidr idx) i
    = if i <? 4 then Z.testbit idx i else if i <? 8 then false else if i <? 32 then Z.testbit idx (i - 4) else false).
  { intros i Hi. unfold idx_mpidr. change 16 with (2 ^ 4). rewrite Z.lor_spec, Z.shiftl_spec by done.
    destruct (Z.ltb_spec i 4); [rewrite Z.mod_pow2_bits_low, (testbit_neg _ (i - 8)) by lia; by rewrite orb_false_r|].
    rewrite Z.mod_pow2_bits_high by lia. destruct (Z.ltb_spec i 8); [by rewrite testbit_neg by lia|].
    rewrite Z.shiftr_spec by lia. cbn [orb]. replace (i - 8 + 4) with (i - 4) by lia.
    destruct (Z.ltb_spec i 32); [done|]. by apply (testbit_high idx 28); [|lia]. }
  split; [|done]. assert (Hm : idx_mpidr idx = idx_mpidr idx mod 2 ^ 64); [|rewrite Hm; apply Z.mod_pos_bound; lia].
  apply Z.bits_inj'. intros i Hi. destruct (Z.ltb_spec i 64); [by rewrite Z.mod_pow2_bits_low|].
  rewrite Z.mod_pow2_bits_high, Hb by lia. zcases.
Qed.

(** C25: the numbering of RECs is faithful: on the values that the RMI accepts the index is
    injective and below 2^28, every index below 2^28 is that of an accepted value, and the
    value that the realm reads in its MPIDR register names the same REC when the realm passes
    it to PSCI. *)
Theorem rec_index_faithful :
  (∀ m, is_u64 m → rec_mpidr_is_valid m = true →
     0 <= rec_mpidr_to_idx m < 2 ^ 28 ∧
     mpidr_to_rec_idx (rec_mpidr_to_mpidr m .| VMPIDR_EL2_RES1) = rec_mpidr_to_idx m) ∧
  (∀ m m', is_u64 m → is_u64 m' → rec_mpidr_is_valid m = true → rec_mpidr_is_valid m' = true →
     rec_mpidr_to_idx m = rec_mpidr_to_idx m' → m = m') ∧
  (∀ idx, 0 <= idx < 2 ^ 28 → ∃ m, is_u64 m ∧ rec_mpidr_is_valid m = true ∧ rec_mpidr_to_idx m = idx).
Proof.
  split; [|split].
  - intros m Hu Hv. pose proof (proj1 (rec_mpidr_is_valid_spec m Hu) Hv) as Hb. split; [apply rec_idx_range|].
    apply Z.bits_inj'. intros i Hi. rewrite testbit_rec_idx, testbit_mpidr_idx by done. rewrite !Z.lor_spec.
    change VMPIDR_EL2_RES1 with (2 ^ 31). rewrite !Z.pow2_bits_eqb by lia.
    destruct (Z.ltb_spec i 28); [|zcases]. rewrite !testbit_to_mpidr by lia. zcases; f_equal; lia.
  - intros m m' Hu Hu' Hv Hv' Heq. pose proof (proj1 (rec_mpidr_is_valid_spec m Hu) Hv) as Hb.
    pose proof (proj1 (rec_mpidr_is_valid_spec m' Hu') Hv') as Hb'.
    apply Z.bits_inj'. intros i Hi. destruct (decide (i < 32 ∧ ¬ (4 <= i < 8))) as [[H1 H2]|Hno].
    + pose proof (f_equal (λ x, Z.testbit x (if i <? 4 then i else i - 4)) Heq) as Hx. cbv beta in Hx.
      destruct (Z.ltb_spec i 4).
      * rewrite !testbit_rec_idx in Hx by lia. by rewrite (proj2 (Z.ltb_lt i 4)) in Hx.
      * rewrite !testbit_rec_idx in Hx by lia. rewrite (proj2 (Z.ltb_ge (i - 4) 4)), (proj2 (Z.ltb_lt (i - 4) 28)) in Hx by lia.
        by replace (i - 4 + 4) with i in Hx by lia.
    + destruct (Z.testbit m i) eqn:E1; [by destruct Hno; apply Hb|].
      destruct (Z.testbit m' i) eqn:E2; [by destruct Hno; apply Hb'|done].
  - intros idx Hi. exists (idx_mpidr idx). destruct (idx_mpidr_spec idx Hi) as [Hu Hbit]. split; [done|]. split.
    + apply rec_mpidr_is_valid_spec; [done|]. intros i H0. rewrite Hbit by done. zcases.
    + apply Z.bits_inj'. intros i H0. rewrite testbit_rec_idx, !Hbit by lia. zcases; try (f_equal; lia).
      symmetry. by apply (testbit_high idx 28).
Qed.

Lemma rec_index_faithful_witness :
  rec_mpidr_is_valid 258 = true ∧ rec_mpidr_to_idx 258 = 18 ∧ mpidr_to_rec_idx (rec_mpidr_to_mpidr 258 .| VMPIDR_EL2_RES1) = 18.
Proof.
  split; [reflexivity|]. split; [reflexivity|].
  exact (proj2 (proj1 rec_index_faithful 258 ltac:(split; [by vm_compute|reflexivity]) eq_refl)).
Defined.
