(* ===== verification/Psci.v ===== *)
(** PSCI calls of realms (runtime/rsi/psci.c, runtime/include/psci.h), and the command by which
    the host completes those that concern another REC (smc_psci_complete of
    runtime/rmi/rec.c). *)
From S2P Require Import Prelude Types Granule Platform GranuleFind S2tte S2tt Buffer Walk Exec Realm Rtt Feature Rsi Mpidr.

(** * Function identifiers and status values *)

(** [SMC_FIELD_VAL] and [SMC_SET_FIELD], with the mask and the shift of the field. *)
Definition SMC_FIELD_VAL (mask shift val : Z) : Z := u32 (Z.shiftl (val .& mask) shift).
Definition SMC_SET_FIELD (init mask shift val : Z) : Z :=
  (init .& u32 (.~ (SMC_FIELD_VAL mask shift mask))) .| SMC_FIELD_VAL mask shift val.
Definition SMC_STD_CALL_BASE : Z := SMC_SET_FIELD 0 1 31 1 .| SMC_SET_FIELD 0 63 24 4.
Definition SMC_ARCH_CALL_BASE : Z := SMC_SET_FIELD 0 1 31 1 .| SMC_SET_FIELD 0 63 24 0.
Definition SMC32_ARCH_FID (offset : Z) : Z :=
  SMC_SET_FIELD SMC_ARCH_CALL_BASE 1 30 0 .| SMC_SET_FIELD SMC_ARCH_CALL_BASE 65535 0 offset.
Definition SMC32_STD_FID (fnum_min offset : Z) : Z :=
  SMC_SET_FIELD SMC_STD_CALL_BASE 1 30 0 .| SMC_SET_FIELD SMC_STD_CALL_BASE 65535 0 (fnum_min + offset).
Definition SMC64_STD_FID (fnum_min offset : Z) : Z :=
  SMC_SET_FIELD SMC_STD_CALL_BASE 1 30 1 .| SMC_SET_FIELD SMC_STD_CALL_BASE 65535 0 (fnum_min + offset).
Definition SMC32_PSCI_FID (offset : Z) : Z := SMC32_STD_FID 0 offset.
Definition SMC64_PSCI_FID (offset : Z) : Z := SMC64_STD_FID 0 offset.

Definition SMCCC_VERSION : Z := SMC32_ARCH_FID 0.
Definition SMC32_PSCI_VERSION : Z := SMC32_PSCI_FID 0.
Definition SMC32_PSCI_CPU_SUSPEND : Z := SMC32_PSCI_FID 1.
Definition SMC64_PSCI_CPU_SUSPEND : Z := SMC64_PSCI_FID 1.
Definition SMC32_PSCI_CPU_OFF : Z := SMC32_PSCI_FID 2.
Definition SMC32_PSCI_CPU_ON : Z := SMC32_PSCI_FID 3.
Definition SMC64_PSCI_CPU_ON : Z := SMC64_PSCI_FID 3.
Definition SMC32_PSCI_AFFINITY_INFO : Z := SMC32_PSCI_FID 4.
Definition SMC64_PSCI_AFFINITY_INFO : Z := SMC64_PSCI_FID 4.
Definition SMC32_PSCI_SYSTEM_OFF : Z := SMC32_PSCI_FID 8.
Definition SMC32_PSCI_SYSTEM_RESET : Z := SMC32_PSCI_FID 9.
Definition SMC32_PSCI_FEATURES : Z := SMC32_PSCI_FID 10.

Definition PSCI_RETURN_SUCCESS : Z := 0.
Definition PSCI_RETURN_NOT_SUPPORTED : Z := u64 (-1).
Definition PSCI_RETURN_INVALID_PARAMS : Z := u64 (-2).
Definition PSCI_RETURN_DENIED : Z := u64 (-3).
Definition PSCI_RETURN_ALREADY_ON : Z := u64 (-4).
Definition PSCI_RETURN_INVALID_ADDRESS : Z := u64 (-9).
Definition PSCI_AFFINITY_INFO_ON : Z := 0.
Definition PSCI_AFFINITY_INFO_OFF : Z := 1.

Definition RMI_EXIT_PSCI : Z := 3.

Definition SPSR_EL2_MODE : bitfield := {| fshift := 0; fwidth := 4 |}.
Definition SPSR_EL2_MODE_EL1h : Z := INPLACE_F SPSR_EL2_MODE 5.
Definition SPSR_EL2_nRW : bitfield := {| fshift := 4; fwidth := 1 |}.
Definition SPSR_EL2_nRW_AARCH64 : Z := INPLACE_F SPSR_EL2_nRW 0.
Definition SPSR_EL2_F_BIT : Z := 1 .<< 6.
Definition SPSR_EL2_I_BIT : Z := 1 .<< 7.
Definition SPSR_EL2_A_BIT : Z := 1 .<< 8.
Definition SPSR_EL2_D_BIT : Z := 1 .<< 9.

(** The state in which a REC starts: EL1, AArch64, exceptions masked. *)
Definition PSTATE_RESET : Z :=
  SPSR_EL2_MODE_EL1h .| SPSR_EL2_nRW_AARCH64 .| SPSR_EL2_F_BIT .| SPSR_EL2_I_BIT .| SPSR_EL2_A_BIT .| SPSR_EL2_D_BIT.

Definition SCTLR_ELx_SA_BIT : Z := 1 .<< 3.
Definition SCTLR_ELx_SA0_BIT : Z := 1 .<< 4.
Definition SCTLR_ELx_CP15BEN_BIT : Z := 1 .<< 5.
Definition SCTLR_ELx_nAA_BIT : Z := 1 .<< 6.
Definition SCTLR_ELx_EOS_BIT : Z := 1 .<< 11.
Definition SCTLR_ELx_nTWI_BIT : Z := 1 .<< 16.
Definition SCTLR_ELx_nTWE_BIT : Z := 1 .<< 18.
Definition SCTLR_ELx_EIS_BIT {CF : Config} : Z := if ENABLE_OPENCCA then 0 else 1 .<< 22.
Definition SCTLR_ELx_SPAN_BIT : Z := 1 .<< 23.
Definition SCTLR_ELx_EE_BIT : Z := 1 .<< 25.
Definition SCTLR_EL1_FLAGS {CF : Config} : Z :=
  SCTLR_ELx_SPAN_BIT .| SCTLR_ELx_EIS_BIT .| SCTLR_ELx_nTWE_BIT .| SCTLR_ELx_nTWI_BIT .| SCTLR_ELx_EOS_BIT .|
  SCTLR_ELx_nAA_BIT .| SCTLR_ELx_CP15BEN_BIT .| SCTLR_ELx_SA0_BIT .| SCTLR_ELx_SA_BIT.

Definition set_exit_gprs (l : list Z) (e : rmi_rec_exit) : rmi_rec_exit :=
  {| exit_reason := exit_reason e; ex_esr := ex_esr e; ex_far := ex_far e; ex_hpfar := ex_hpfar e; ex_gprs := l;
     ex_gicv3_hcr := ex_gicv3_hcr e; ex_gicv3_lrs := ex_gicv3_lrs e; ex_gicv3_misr := ex_gicv3_misr e;
     ex_gicv3_vmcr := ex_gicv3_vmcr e; ex_cntp_ctl := ex_cntp_ctl e; ex_cntp_cval := ex_cntp_cval e;
     ex_cntv_ctl := ex_cntv_ctl e; ex_cntv_cval := ex_cntv_cval e; ripas_base := ripas_base e;
     ripas_top := ripas_top e; ripas_value := ripas_value e; ex_imm := ex_imm e; pmu_ovf_status := pmu_ovf_status e |}.

(** [for (i = i0; ...; ++i) dst[i] = f(i)], [n] entries. *)
Fixpoint fill_regs (n : nat) (i : Z) (f : Z → result Z) (dst : list Z) : result (list Z) :=
  match n with
  | O => Ok dst
  | S n' => f i ≫= λ v, aset dst i v ≫= λ dst, fill_regs n' (i + 1) f dst
  end.

Section psci.
Context {P : Platform} {H : Machine} {CF : Config}.

(** * Calls *)

(** A handler may change the REC of its caller, the record for the host and the result. *)
Definition psci_out : Type := rec * rmi_rec_exit * rsi_result.

Definition forward_args_to_host (count : Z) (r : rec) (rec_exit : rmi_rec_exit) : result rmi_rec_exit :=
  rassert (count <=? 4) ≫= λ _,
  fill_regs (Z.to_nat count) 0 (aget (regs r)) (ex_gprs rec_exit) ≫= λ l,
  fill_regs (Z.to_nat (REC_EXIT_NR_GPRS - count)) count (λ _, Ok 0) l ≫= λ l,
  Ok (set_exit_gprs l rec_exit).

Definition psci_version (r : rec) (rec_exit : rmi_rec_exit) (res : rsi_result) : M state psci_out :=
  let version_1_1 := (1 .<< 16) .| 1 in
  mret (r, rec_exit, set_res (set_x0 version_1_1) (set_action UPDATE_REC_RETURN_TO_REALM res)).

Definition psci_cpu_suspend (r : rec) (rec_exit : rmi_rec_exit) (res : rsi_result) : M state psci_out :=
  let res := set_action UPDATE_REC_EXIT_TO_HOST res in
  lift (forward_args_to_host 1 r rec_exit) ≫= λ rec_exit,
  mret (r, rec_exit, set_res (set_x0 PSCI_RETURN_SUCCESS) res).

Definition psci_cpu_off (r : rec) (rec_exit : rmi_rec_exit) (res : rsi_result) : M state psci_out :=
  let res := set_action UPDATE_REC_EXIT_TO_HOST res in
  let r := set_runnable false r in
  lift (forward_args_to_host 1 r rec_exit) ≫= λ rec_exit,
  mret (r, rec_exit, set_res (set_x0 PSCI_RETURN_SUCCESS) res).

Definition psci_reset_rec (r : rec) (caller_sctlr_el1 : Z) : rec :=
  let r := set_pstate PSTATE_RESET r in
  let r := set_sysregs (set_sctlr_el1 SCTLR_EL1_FLAGS (sysregs r)) r in
  set_sysregs (set_sctlr_el1 (sctlr_el1 (sysregs r) .| (caller_sctlr_el1 .& SCTLR_ELx_EE_BIT)) (sysregs r)) r.

Definition rd_map_read_rec_count (g_rd : Z) : M state Z :=
  map_assert g_rd SLOT_RD ≫= λ rdp,
  read_rd rdp ≫= λ rd,
  buffer_unmap rdp ≫= λ _, mret (get_rd_rec_count_unlocked rd).

Definition psci_cpu_on (r : rec) (rec_exit : rmi_rec_exit) (res : rsi_result) : M state psci_out :=
  lift (aget (regs r) 1) ≫= λ target_cpu,
  lift (aget (regs r) 2) ≫= λ entry_point_address,
  let res := set_action UPDATE_REC_RETURN_TO_REALM res in
  if negb (addr_in_rec_par r entry_point_address)
  then mret (r, rec_exit, set_res (set_x0 PSCI_RETURN_INVALID_ADDRESS) res)
  else
    let target_rec_idx := mpidr_to_rec_idx target_cpu in
    rd_map_read_rec_count (ri_g_rd r) ≫= λ rec_count,
    if rec_count <=? target_rec_idx then mret (r, rec_exit, set_res (set_x0 PSCI_RETURN_INVALID_PARAMS) res)
    else if target_rec_idx =? rec_idx r then mret (r, rec_exit, set_res (set_x0 PSCI_RETURN_ALREADY_ON) res)
    else
      let r := set_psci_pending true r in
      lift (forward_args_to_host 2 r rec_exit) ≫= λ rec_exit,
      mret (r, rec_exit, set_action EXIT_TO_HOST res).

Definition psci_affinity_info (r : rec) (rec_exit : rmi_rec_exit) (res : rsi_result) : M state psci_out :=
  lift (aget (regs r) 1) ≫= λ target_affinity,
  lift (aget (regs r) 2) ≫= λ lowest_affinity_level,
  let res := set_action UPDATE_REC_RETURN_TO_REALM res in
  if negb (lowest_affinity_level =? 0)
  then mret (r, rec_exit, set_res (set_x0 PSCI_RETURN_INVALID_PARAMS) res)
  else
    let target_rec_idx := mpidr_to_rec_idx target_affinity in
    rd_map_read_rec_count (ri_g_rd r) ≫= λ rec_count,
    if rec_count <=? target_rec_idx then mret (r, rec_exit, set_res (set_x0 PSCI_RETURN_INVALID_PARAMS) res)
    else if target_rec_idx =? rec_idx r then mret (r, rec_exit, set_res (set_x0 PSCI_AFFINITY_INFO_ON) res)
    else
      let r := set_psci_pending true r in
      lift (forward_args_to_host 2 r rec_exit) ≫= λ rec_exit,
      mret (r, rec_exit, set_action EXIT_TO_HOST res).

Definition system_off_reboot (r : rec) : M state () :=
  granule_lock (ri_g_rd r) GRANULE_STATE_RD ≫= λ _,
  map_assert (ri_g_rd r) SLOT_RD ≫= λ rdp,
  read_rd rdp ≫= λ rd,
  write_page rdp (PRd (set_rd_state REALM_SYSTEM_OFF rd)) ≫= λ _,
  buffer_unmap rdp ≫= λ _,
  granule_unlock (ri_g_rd r).

Definition psci_system_off_reset (r : rec) (rec_exit : rmi_rec_exit) (res : rsi_result) : M state psci_out :=
  system_off_reboot r ≫= λ _,
  lift (forward_args_to_host 1 r rec_exit) ≫= λ rec_exit,
  mret (r, rec_exit, set_action EXIT_TO_HOST res).

(** The identifiers for which [psci_features] answers with success. *)
Definition psci_features_fids : list Z :=
  [SMC32_PSCI_CPU_SUSPEND; SMC64_PSCI_CPU_SUSPEND; SMC32_PSCI_CPU_OFF; SMC32_PSCI_CPU_ON; SMC64_PSCI_CPU_ON;
   SMC32_PSCI_AFFINITY_INFO; SMC64_PSCI_AFFINITY_INFO; SMC32_PSCI_SYSTEM_OFF; SMC32_PSCI_SYSTEM_RESET;
   SMC32_PSCI_FEATURES; SMCCC_VERSION].

Definition psci_features (r : rec) (rec_exit : rmi_rec_exit) (res : rsi_result) : M state psci_out :=
  lift (aget (regs r) 1) ≫= λ reg1,
  let psci_func_id := u32 reg1 in
  let ret := if bool_decide (psci_func_id ∈ psci_features_fids) then PSCI_RETURN_SUCCESS else PSCI_RETURN_NOT_SUPPORTED in
  mret (r, rec_exit, set_action UPDATE_REC_RETURN_TO_REALM (set_res (set_x0 ret) res)).

(** The [switch] on the function identifier. *)
Definition psci_call (function_id : Z) (r : rec) (rec_exit : rmi_rec_exit) (res : rsi_result) : M state psci_out :=
  if function_id =? SMC32_PSCI_VERSION then psci_version r rec_exit res
  else if (function_id =? SMC32_PSCI_CPU_SUSPEND) || (function_id =? SMC64_PSCI_CPU_SUSPEND)
  then psci_cpu_suspend r rec_exit res
  else if function_id =? SMC32_PSCI_CPU_OFF then psci_cpu_off r rec_exit res
  else if (function_id =? SMC32_PSCI_CPU_ON) || (function_id =? SMC64_PSCI_CPU_ON) then psci_cpu_on r rec_exit res
  else if (function_id =? SMC32_PSCI_AFFINITY_INFO) || (function_id =? SMC64_PSCI_AFFINITY_INFO)
  then psci_affinity_info r rec_exit res
  else if (function_id =? SMC32_PSCI_SYSTEM_OFF) || (function_id =? SMC32_PSCI_SYSTEM_RESET)
  then psci_system_off_reset r rec_exit res
  else if function_id =? SMC32_PSCI_FEATURES then psci_features r rec_exit res
  else mret (r, rec_exit, set_res (set_x0 PSCI_RETURN_NOT_SUPPORTED) (set_action UPDATE_REC_RETURN_TO_REALM res)).

Definition handle_psci (r : rec) (rec_exit : rmi_rec_exit) (res : rsi_result) : M state psci_out :=
  lift (aget (regs r) 0) ≫= λ reg0,
  psci_call (u32 reg0) r rec_exit res ≫= λ '(r, rec_exit, res),
  mret (r, if negb ((action res .& FLAG_EXIT_TO_HOST) =? 0) then set_exit_reason RMI_EXIT_PSCI rec_exit else rec_exit, res).

(** * Completion by the host *)

(** [target] is the buffer of the target REC. *)
Definition complete_psci_cpu_on (target entry_point_address context_id caller_sctlr_el1 status : Z) : M state Z :=
  read_rec target ≫= λ target_rec,
  granule_refcount_read_acquire (g_rec target_rec) ≫= λ refcount,
  if negb (refcount =? 0) || runnable target_rec then mret PSCI_RETURN_ALREADY_ON
  else if status =? PSCI_RETURN_DENIED then mret PSCI_RETURN_DENIED
  else
    let target_rec := psci_reset_rec target_rec caller_sctlr_el1 in
    lift (aset (regs target_rec) 0 context_id) ≫= λ l,
    let target_rec := set_runnable true (set_pc entry_point_address (set_regs l target_rec)) in
    write_page target (PRec target_rec) ≫= λ _, mret PSCI_RETURN_SUCCESS.

Definition complete_psci_affinity_info (target : Z) : M state Z :=
  read_rec target ≫= λ target_rec,
  granule_refcount_read_acquire (g_rec target_rec) ≫= λ refcount,
  if negb (refcount =? 0) || runnable target_rec then mret PSCI_AFFINITY_INFO_ON
  else mret PSCI_AFFINITY_INFO_OFF.

(** The [switch] of [psci_complete_request]: [None] for an early return of RMI_ERROR_INPUT,
    else the values of [ret] and [rec_ret]. *)
Definition psci_complete_call (calling_rec : rec) (target status : Z) : M state (option (Z * Z)) :=
  lift (aget (regs calling_rec) 0) ≫= λ fid,
  if (fid =? SMC32_PSCI_CPU_ON) || (fid =? SMC64_PSCI_CPU_ON) then
    if negb (status =? PSCI_RETURN_SUCCESS) && negb (status =? PSCI_RETURN_DENIED) then mret None
    else
      lift (aget (regs calling_rec) 2) ≫= λ entry,
      lift (aget (regs calling_rec) 3) ≫= λ context_id,
      complete_psci_cpu_on target entry context_id (sctlr_el1 (sysregs calling_rec)) status ≫= λ rec_ret,
      mret (Some (if (status =? PSCI_RETURN_DENIED) && (rec_ret =? PSCI_RETURN_ALREADY_ON) then RMI_ERROR_INPUT else RMI_SUCCESS,
                  rec_ret))
  else if (fid =? SMC32_PSCI_AFFINITY_INFO) || (fid =? SMC64_PSCI_AFFINITY_INFO) then
    if negb (status =? PSCI_RETURN_SUCCESS) then mret None
    else complete_psci_affinity_info target ≫= λ rec_ret, mret (Some (RMI_SUCCESS, rec_ret))
  else massert false ≫= λ _, mret (Some (RMI_SUCCESS, PSCI_RETURN_NOT_SUPPORTED)).

(** [regs[0] = rec_ret; regs[1] = regs[2] = regs[3] = 0; psci_info.pending = false] *)
Definition psci_answer (rec_ret : Z) (r : rec) : result rec :=
  aset (regs r) 0 rec_ret ≫= λ l, aset l 1 0 ≫= λ l, aset l 2 0 ≫= λ l, aset l 3 0 ≫= λ l,
  Ok (set_psci_pending false (set_regs l r)).

(** [calling] and [target] are the buffers of the two RECs. *)
Definition psci_complete_request (calling target status : Z) : M state Z :=
  read_rec calling ≫= λ calling_rec,
  read_rec target ≫= λ target_rec,
  lift (aget (regs calling_rec) 1) ≫= λ mpidr,
  if negb (psci_pending calling_rec) then mret RMI_ERROR_INPUT
  else if negb (ri_g_rd calling_rec =? ri_g_rd target_rec) then mret RMI_ERROR_INPUT
  else if negb (mpidr_to_rec_idx mpidr =? rec_idx target_rec) then mret RMI_ERROR_INPUT
  else
    psci_complete_call calling_rec target status ≫= λ o,
    match o with
    | None => mret RMI_ERROR_INPUT
    | Some (ret, rec_ret) =>
        read_rec calling ≫= λ calling_rec,
        lift (psci_answer rec_ret calling_rec) ≫= λ calling_rec,
        write_page calling (PRec calling_rec) ≫= λ _, mret ret
    end.

Definition smc_psci_complete (calling_rec_addr target_rec_addr status : Z) : M state Z :=
  if negb (GRANULE_ALIGNED calling_rec_addr) then mret RMI_ERROR_INPUT
  else if negb (GRANULE_ALIGNED target_rec_addr) then mret RMI_ERROR_INPUT
  else
    find_lock_two_granules calling_rec_addr GRANULE_STATE_REC target_rec_addr GRANULE_STATE_REC ≫= λ og,
    match og with
    | None => mret RMI_ERROR_INPUT
    | Some (g_calling_rec, g_target_rec) =>
        granule_refcount_read_acquire g_calling_rec ≫= λ refcount,
        (if negb (refcount =? 0) then mret RMI_ERROR_INPUT
         else
           map_assert g_calling_rec SLOT_REC ≫= λ calling,
           map_assert g_target_rec SLOT_REC2 ≫= λ target,
           psci_complete_request calling target status ≫= λ ret,
           buffer_unmap target ≫= λ _,
           buffer_unmap calling ≫= λ _, mret ret) ≫= λ ret,
        granule_unlock g_calling_rec ≫= λ _,
        granule_unlock g_target_rec ≫= λ _, mret ret
    end.
End psci.
