(* ===== verification/PsciSpec.v ===== *)
(** What PSCI calls between RECs do: the completion by the host as one step on the pair of
    RECs, and the way from the call of one REC to the start of another. *)
From S2P Require Import Prelude Types Granule Platform GranuleFind S2tte S2tt Buffer Walk Exec Realm Rtt Feature Rsi Mpidr Psci.

(** * The contract *)

Inductive psci_request := ReqCpuOn | ReqAffinity.

(** The request that the value of x0 stands for. *)
Definition request_of (x0 : Z) : option psci_request :=
  if (x0 =? 0x84000003) || (x0 =? 0xC4000003) then Some ReqCpuOn
  else if (x0 =? 0x84000004) || (x0 =? 0xC4000004) then Some ReqAffinity
  else None.

(** The caller after its request was answered with [v]: results in x0 to x3, and it may be
    scheduled again. *)
Definition answered (v : Z) (c : rec) : rec :=
  set_psci_pending false (set_regs (v :: 0 :: 0 :: 0 :: drop 4 (regs c)) c).

(** The target after it was switched on: at [entry] with [context] in x0, at EL1 with all
    exceptions masked, the stage 1 MMU off, and the endianness of the caller. *)
Definition started {CF : Config} (entry context caller_sctlr : Z) (t : rec) : rec :=
  set_runnable true (set_pc entry (set_regs (context :: drop 1 (regs t))
    (set_sysregs (set_sctlr_el1 (SCTLR_EL1_FLAGS .| (caller_sctlr .& 2 ^ 25)) (sysregs t)) (set_pstate 0x3c5 t)))).

(** The answer to the host and the two RECs afterwards; [None]: the monitor stops. *)
Definition psci_outcome {CF : Config} (c_running t_running : bool) (c t : rec) (status : Z) : option (Z * rec * rec) :=
  let x i := default 0 (regs c !! i) in
  let on := t_running || runnable t in
  if c_running || negb (psci_pending c) || negb (ri_g_rd c =? ri_g_rd t) || negb (mpidr_to_rec_idx (x 1%nat) =? rec_idx t)
  then Some (RMI_ERROR_INPUT, c, t)
  else match request_of (x 0%nat) with
  | None => None
  | Some ReqAffinity =>
      if status =? PSCI_RETURN_SUCCESS
      then Some (RMI_SUCCESS, answered (if on then PSCI_AFFINITY_INFO_ON else PSCI_AFFINITY_INFO_OFF) c, t)
      else Some (RMI_ERROR_INPUT, c, t)
  | Some ReqCpuOn =>
      if status =? PSCI_RETURN_SUCCESS then
        if on then Some (RMI_SUCCESS, answered PSCI_RETURN_ALREADY_ON c, t)
        else Some (RMI_SUCCESS, answered PSCI_RETURN_SUCCESS c, started (x 2%nat) (x 3%nat) (sctlr_el1 (sysregs c)) t)
      else if status =? PSCI_RETURN_DENIED then
        if on then Some (RMI_ERROR_INPUT, answered PSCI_RETURN_ALREADY_ON c, t)
        else Some (RMI_SUCCESS, answered PSCI_RETURN_DENIED c, t)
      else Some (RMI_ERROR_INPUT, c, t)
  end.

(** * RECs in memory *)

Definition rec_of (s : state) (g : Z) : rec := match mem s !! g with Some (PRec r) => r | _ => rec_zero end.
Definition refs_of (s : state) (g : Z) : Z := match granules s !! g with Some gr => d_refcount (descriptor gr) | None => 0 end.
Definition put_rec (g : Z) (r : rec) (s : state) : state := set_mem (<[g := PRec r]> (mem s)) s.

Definition rec_page (s : state) (g : Z) (r : rec) : Prop :=
  mem s !! g = Some (PRec r) ∧ g_rec r = g ∧ length (regs r) = 31%nat.

(** Every granule in state REC holds a REC that knows its granule. *)
Definition recs_wf (s : state) : Prop :=
  ∀ g gr, granules s !! g = Some gr → d_state (descriptor gr) = GRANULE_STATE_REC → ∃ r, rec_page s g r.

Lemma regs4 (r : rec) : length (regs r) = 31%nat → ∃ a b c d l, regs r = a :: b :: c :: d :: l.
Proof. destruct (regs r) as [|a [|b [|c [|d l]]]]; intros Hl; try discriminate Hl. by exists a, b, c, d, l. Qed.

Lemma set_regs_id r : set_regs (regs r) r = r.
Proof. by destruct r. Qed.

Lemma put_rec_same s g r : mem s !! g = Some (PRec r) → put_rec g r s = s.
Proof. intros Hm. unfold put_rec, set_mem. rewrite insert_id by done. by destruct s. Qed.

Section spec.
Context {P : Platform} {H : Machine} {CF : Config}.

Lemma psci_answer_run v c : length (regs c) = 31%nat → psci_answer v c = Ok (answered v c).
Proof.
  intros Hl. destruct (regs4 c Hl) as (x0 & x1 & x2 & x3 & l & Hr). unfold psci_answer, answered. rewrite Hr.
  rewrite Hr in Hl. cbn [length] in Hl.
  rewrite aset_ok by (cbn [length]; lia). rewrite result_bind_ok, aset_ok by (rewrite length_insert; cbn [length]; lia).
  rewrite result_bind_ok, aset_ok by (rewrite !length_insert; cbn [length]; lia).
  rewrite result_bind_ok, aset_ok by (rewrite !length_insert; cbn [length]; lia). done.
Qed.

(** ** The two RECs of a request *)

Section pair.
Context (s : state) (gc gt rct tagt : Z) (c t : rec).
Hypothesis Hne : gc ≠ gt.
Hypothesis Hsc : slots s !! SLOT_REC = Some gc.
Hypothesis Hst : slots s !! SLOT_REC2 = Some gt.
Hypothesis Hc : rec_page s gc c.
Hypothesis Ht : rec_page s gt t.
Hypothesis Hg : granules s !! gt = Some (Gr true GRANULE_STATE_REC rct tagt).
Hypothesis Hok : gok GRANULE_STATE_REC rct.

Lemma complete_psci_cpu_on_run entry context sctlr status :
  complete_psci_cpu_on SLOT_REC2 entry context sctlr status s
  = Ok (if negb (rct =? 0) || runnable t then (PSCI_RETURN_ALREADY_ON, s)
        else if status =? PSCI_RETURN_DENIED then (PSCI_RETURN_DENIED, s)
        else (PSCI_RETURN_SUCCESS, put_rec gt (started entry context sctlr t) s)).
Proof using Hst Ht Hg Hok.
  destruct Ht as (Hm & Hself & Hl). unfold complete_psci_cpu_on.
  run_step (read_rec_run s _ _ _ _ Hst Hm eq_refl). rewrite Hself.
  run_step (granule_refcount_read_acquire_run Hg Hok eq_refl).
  destruct (negb (rct =? 0) || runnable t); [done|]. destruct (status =? PSCI_RETURN_DENIED); [done|]. cbv zeta.
  assert (Hset : aset (regs (psci_reset_rec t sctlr)) 0 context = Ok (context :: drop 1 (regs t))).
  { change (regs (psci_reset_rec t sctlr)) with (regs t). rewrite aset_ok by lia. by destruct (regs t). }
  run_step (lift_run _ _ _ Hset). by rewrite (bind_run _ _ _ _ _ (write_page_run s _ _ _ Hst)).
Qed.

Lemma complete_psci_affinity_info_run :
  complete_psci_affinity_info SLOT_REC2 s
  = Ok (if negb (rct =? 0) || runnable t then PSCI_AFFINITY_INFO_ON else PSCI_AFFINITY_INFO_OFF, s).
Proof using Hst Ht Hg Hok.
  destruct Ht as (Hm & Hself & Hl). unfold complete_psci_affinity_info.
  run_step (read_rec_run s _ _ _ _ Hst Hm eq_refl). rewrite Hself.
  run_step (granule_refcount_read_acquire_run Hg Hok eq_refl). by destruct (negb (rct =? 0) || runnable t).
Qed.

Lemma psci_complete_request_run status :
  psci_complete_request SLOT_REC SLOT_REC2 status s
  = match psci_outcome false (negb (rct =? 0)) c t status with
    | Some (ret, c', t') => Ok (ret, put_rec gc c' (put_rec gt t' s))
    | None => Err FAssert
    end.
Proof using Hne Hsc Hst Hc Ht Hg Hok.
  destruct Hc as (Hmc & Hselfc & Hlc). destruct Ht as (Hmt & Hselft & Hlt).
  destruct (regs4 c Hlc) as (x0 & x1 & x2 & x3 & l & Hr).
  assert (Hsame : put_rec gc c (put_rec gt t s) = s) by (by rewrite (put_rec_same s gt), (put_rec_same s gc)).
  unfold psci_complete_request, psci_outcome. cbv zeta.
  run_step (read_rec_run s _ _ _ _ Hsc Hmc eq_refl). run_step (read_rec_run s _ _ _ _ Hst Hmt eq_refl). rewrite Hr.
  cbn [lookup list_lookup default from_option]. unfold id. run_step (lift_run _ _ s (aget_lookup (x0 :: x1 :: x2 :: x3 :: l) 1 x1 ltac:(lia) eq_refl)).
  cbn [orb]. destruct (psci_pending c); cbn [negb orb]; [|by rewrite Hsame].
  destruct (ri_g_rd c =? ri_g_rd t); cbn [negb orb]; [|by rewrite Hsame].
  destruct (mpidr_to_rec_idx x1 =? rec_idx t); cbn [negb orb]; [|by rewrite Hsame].
  assert (Hend : ∀ (ret v : Z) t' s1, s1 = put_rec gt t' s →
    (read_rec SLOT_REC ≫= λ cr, lift (psci_answer v cr) ≫= λ cr, write_page SLOT_REC (PRec cr) ≫= λ _, mret ret) s1
    = Ok (ret, put_rec gc (answered v c) (put_rec gt t' s))).
  { intros ret v t' s1 ->.
    assert (Hmc' : mem (put_rec gt t' s) !! gc = Some (PRec c)) by (cbn; by rewrite lookup_insert_ne).
    run_step (read_rec_run (put_rec gt t' s) _ _ _ _ Hsc Hmc' eq_refl). run_step (lift_run _ _ (put_rec gt t' s) (psci_answer_run v c Hlc)).
    by rewrite (bind_run _ _ _ _ _ (write_page_run (put_rec gt t' s) _ _ _ Hsc)). }
  unfold psci_complete_call. rewrite Hr. rewrite bind_assoc.
  run_step (lift_run _ _ s (aget_lookup (x0 :: x1 :: x2 :: x3 :: l) 0 x0 ltac:(lia) eq_refl)).
  unfold request_of. change SMC32_PSCI_CPU_ON with 0x84000003. change SMC64_PSCI_CPU_ON with 0xC4000003.
  change SMC32_PSCI_AFFINITY_INFO with 0x84000004. change SMC64_PSCI_AFFINITY_INFO with 0xC4000004.
  destruct ((x0 =? 0x84000003) || (x0 =? 0xC4000003)).
  - destruct (status =? PSCI_RETURN_SUCCESS) eqn:Es; cbn [negb andb].
    + apply Z.eqb_eq in Es as ->. rewrite bind_assoc.
      run_step (lift_run _ _ s (aget_lookup (x0 :: x1 :: x2 :: x3 :: l) 2 x2 ltac:(lia) eq_refl)). rewrite bind_assoc.
      run_step (lift_run _ _ s (aget_lookup (x0 :: x1 :: x2 :: x3 :: l) 3 x3 ltac:(lia) eq_refl)). rewrite bind_assoc.
      pose proof (complete_psci_cpu_on_run x2 x3 (sctlr_el1 (sysregs c)) PSCI_RETURN_SUCCESS) as Hon.
      change (PSCI_RETURN_SUCCESS =? PSCI_RETURN_DENIED) with false in *.
      destruct (negb (rct =? 0) || runnable t); cbv iota in Hon; run_step Hon; rewrite ret_bind; cbv iota beta; cbn [andb].
      * apply Hend. by rewrite (put_rec_same s gt).
      * by apply Hend.
    + destruct (status =? PSCI_RETURN_DENIED) eqn:Ed; cbn [negb andb]; [|by rewrite ret_bind, Hsame].
      rewrite bind_assoc. run_step (lift_run _ _ s (aget_lookup (x0 :: x1 :: x2 :: x3 :: l) 2 x2 ltac:(lia) eq_refl)). rewrite bind_assoc.
      run_step (lift_run _ _ s (aget_lookup (x0 :: x1 :: x2 :: x3 :: l) 3 x3 ltac:(lia) eq_refl)). rewrite bind_assoc.
      pose proof (complete_psci_cpu_on_run x2 x3 (sctlr_el1 (sysregs c)) status) as Hon. rewrite Ed in Hon.
      destruct (negb (rct =? 0) || runnable t); cbv iota in Hon; run_step Hon; rewrite ret_bind; cbv iota beta; cbn [andb].
      * change (PSCI_RETURN_ALREADY_ON =? PSCI_RETURN_ALREADY_ON) with true. cbv iota. apply Hend. by rewrite (put_rec_same s gt).
      * change (PSCI_RETURN_DENIED =? PSCI_RETURN_ALREADY_ON) with false. cbv iota. apply Hend. by rewrite (put_rec_same s gt).
  - destruct ((x0 =? 0x84000004) || (x0 =? 0xC4000004)); [|done].
    destruct (status =? PSCI_RETURN_SUCCESS); cbn [negb]; [|by rewrite ret_bind, Hsame].
    rewrite bind_assoc. run_step complete_psci_affinity_info_run. rewrite ret_bind. cbv iota beta.
    apply Hend. by rewrite (put_rec_same s gt).
Qed.
End pair.

Context {L : PlatformLaws P} {HL : MachineLaws P H}.

(** A REC that can be locked. *)
Lemma rec_lockable s a g :
  quiescent s → recs_wf s → is_u64 a → lockable s a GRANULE_STATE_REC = Some g →
  ∃ rc tag, granules s !! g = Some (Gr false GRANULE_STATE_REC rc tag) ∧ gok GRANULE_STATE_REC rc ∧ 0 <= rc <= 1 ∧
    refs_of s g = rc ∧ has_addr g ∧ rec_page s g (rec_of s g) ∧ GRANULE_ALIGNED a = true.
Proof using L.
  intros Hq Hwf Hu Hl. pose proof (lockable_find _ _ _ _ Hl) as Hf.
  destruct (find_granule_Some _ _ Hu Hf) as (Hal & Hr & _).
  destruct (Hq g Hr) as (gr & Hg & st & rc & tag & -> & Hok & Hi).
  unfold lockable in Hl. rewrite Hf, Hg in Hl. cbn [Gr descriptor] in Hl. rewrite desc_state in Hl by done.
  cbn [v_state] in Hl. destruct (Z.eqb_spec st GRANULE_STATE_REC) as [->|]; [|done].
  exists rc, tag. split; [done|]. split; [done|]. split; [apply Z.leb_le in Hi; destruct Hok; lia|].
  split; [unfold refs_of; rewrite Hg; by apply desc_refcount|]. split; [by eapply find_granule_has_addr|]. split; [|done].
  destruct (Hwf g _ Hg) as (r & Hm & Hr'); [by apply desc_state|]. unfold rec_of. by rewrite Hm.
Qed.

Lemma smc_psci_complete_run s ca ta status :
  quiescent s → recs_wf s → slots s = ∅ → is_u64 ca → is_u64 ta →
  smc_psci_complete ca ta status s
  = match lockable s ca GRANULE_STATE_REC, lockable s ta GRANULE_STATE_REC with
    | Some gc, Some gt =>
        if ca =? ta then Ok (RMI_ERROR_INPUT, s)
        else match psci_outcome (negb (refs_of s gc =? 0)) (negb (refs_of s gt =? 0)) (rec_of s gc) (rec_of s gt) status with
             | Some (ret, c', t') => Ok (ret, put_rec gc c' (put_rec gt t' s))
             | None => Err FAssert
             end
    | _, _ => Ok (RMI_ERROR_INPUT, s)
    end.
Proof using L HL.
  intros Hq Hwf Hs Huc Hut. unfold smc_psci_complete.
  pose proof (find_lock_two_granules_spec s ca GRANULE_STATE_REC ta GRANULE_STATE_REC Hq Huc Hut) as Hf.
  destruct (lockable s ca GRANULE_STATE_REC) as [gc|] eqn:Hlc; cycle 1.
  { destruct (GRANULE_ALIGNED ca); [|done]. destruct (GRANULE_ALIGNED ta); [|done]. cbn [negb]. by run_step Hf. }
  destruct (rec_lockable _ _ _ Hq Hwf Huc Hlc) as (rcc & tagc & Hgc & Hokc & Hrc & Href & Hac & Hpc & ->). cbn [negb].
  destruct (lockable s ta GRANULE_STATE_REC) as [gt|] eqn:Hlt; cycle 1.
  { destruct (GRANULE_ALIGNED ta); [|done]. cbn [negb]. by run_step Hf. }
  destruct (rec_lockable _ _ _ Hq Hwf Hut Hlt) as (rct & tagt & Hgt & Hokt & Hrt & Href' & Hat & Hpt & ->). cbn [negb].
  destruct (Z.eqb_spec ca ta) as [->|Hna]; [by run_step Hf|]. run_step Hf. cbv iota.
  assert (Hne : gc ≠ gt).
  { intros ->. apply Hna. apply lockable_find in Hlc, Hlt. by eapply find_granule_inj. }
  rewrite (lock_one_Gr gt s _ _ _ Hgt Hokt), (lock_one_Gr gc (put_granule gt _ s) GRANULE_STATE_REC rcc tagc);
    [|by rewrite put_granule_lookup_ne by done|done].
  rewrite Href, Href'. st_norm. exec granule_refcount_read_acquire_run.
  assert (Hic : unlocked_invariant GRANULE_STATE_REC rcc = true) by (apply Z.leb_le; lia).
  assert (Hit : unlocked_invariant GRANULE_STATE_REC rct = true) by (apply Z.leb_le; lia).
  assert (Hend : ∀ (ret : Z) m, (granule_unlock gc ≫= λ _, granule_unlock gt ≫= λ _, mret ret)
    {| granules := <[gc := Gr true GRANULE_STATE_REC rcc tagc]> (<[gt := Gr true GRANULE_STATE_REC rct tagt]> (granules s));
       mem := m; slots := ∅; vttbr_el2 := vttbr_el2 s; tlbi := tlbi s; tags := tags s; csm_ids := csm_ids s; vmids := vmids s |}
    = Ok (ret, set_mem m s)).
  { intros ret m. exec granule_unlock_run. exec granule_unlock_run. unfold mret, M_ret, set_mem.
    do 3 f_equal; [|by rewrite Hs]. apply map_eq. intros k.
    destruct (decide (k = gt)) as [->|]; [by rewrite lookup_insert_eq|]. rewrite lookup_insert_ne by done.
    destruct (decide (k = gc)) as [->|]; [by rewrite !lookup_insert_eq|]. by rewrite !lookup_insert_ne. }
  destruct (Z.eqb_spec rcc 0) as [->|Hrun]; cbn [negb]; cycle 1.
  { rewrite ret_bind, Hs, Hend. unfold psci_outcome. cbn [orb]. destruct Hpc as [Hmc _], Hpt as [Hmt _].
    rewrite (put_rec_same s gt), (put_rec_same s gc) by done. do 2 f_equal. by destruct s. }
  rewrite Hs. assoc. exec map_assert_run. assoc. exec map_assert_run. assoc.
  set (s1 := {| granules := _; mem := mem s; slots := _; vttbr_el2 := _; tlbi := _; tags := _; csm_ids := _; vmids := _ |}).
  pose proof (psci_complete_request_run s1 gc gt rct tagt (rec_of s gc) (rec_of s gt) Hne ltac:(unfold s1; lk_solve)
    ltac:(unfold s1; lk_solve) Hpc Hpt ltac:(unfold s1; lk_solve) Hokt status) as Hreq.
  destruct (psci_outcome _ _ _ _ _) as [[[ret c'] t']|]; [|by apply bind_run_err].
  run_step Hreq. unfold put_rec, s1. st_norm. assoc. exec buffer_unmap_run. assoc. exec buffer_unmap_run. rewrite ret_bind.
  rewrite (delete_insert_id _ SLOT_REC2), delete_insert_id by done. apply Hend.
Qed.

(** * The call of the realm *)

Lemma fill_regs_run f : ∀ vs i dst,
  0 <= i → i + Z.of_nat (length vs) <= Z.of_nat (length dst) →
  (∀ k v, vs !! k = Some v → f (i + Z.of_nat k) = Ok v) →
  fill_regs (length vs) i f dst
  = Ok (take (Z.to_nat i) dst ++ vs ++ drop (Z.to_nat i + length vs) dst).
Proof using.
  induction vs as [|v vs IH]; intros i dst Hi Hlen Hf; cbn [fill_regs length].
  - by rewrite Nat.add_0_r, app_nil_l, take_drop.
  - cbn [length] in Hlen. pose proof (Hf 0%nat v eq_refl) as H0. rewrite Z.add_0_r in H0. rewrite H0, result_bind_ok.
    rewrite aset_ok, result_bind_ok by lia. rewrite IH; [|lia|rewrite length_insert; lia|].
    + f_equal. replace (Z.to_nat (i + 1)) with (S (Z.to_nat i)) by lia.
      rewrite (take_S_r _ _ v) by (apply list_lookup_insert_eq; lia). rewrite take_insert_ge by lia. rewrite drop_insert_lt by lia.
      rewrite <- app_assoc. cbn [app]. do 3 f_equal. f_equal. lia.
    + intros k w Hk. rewrite <- (Hf (S k) w Hk). f_equal. lia.
Qed.

Lemma forward_args_run k r ex :
  (k <= 4)%nat → (4 <= length (regs r))%nat → length (ex_gprs ex) = 31%nat →
  forward_args_to_host (Z.of_nat k) r ex = Ok (set_exit_gprs (take k (regs r) ++ replicate (31 - k) 0) ex).
Proof using.
  intros Hk Hr He. unfold forward_args_to_host. rewrite rassert_bind by (apply Z.leb_le; lia).
  assert (Hlt : length (take k (regs r)) = k) by (rewrite length_take; lia).
  pose proof (fill_regs_run (aget (regs r)) (take k (regs r)) 0 (ex_gprs ex)) as H1. rewrite Hlt in H1.
  rewrite Nat2Z.id, H1, result_bind_ok; [|lia|lia|].
  - change REC_EXIT_NR_GPRS with 31. replace (Z.to_nat (31 - Z.of_nat k)) with (31 - k)%nat by lia.
    change (take (Z.to_nat 0) (ex_gprs ex)) with (@nil Z). rewrite app_nil_l.
    pose proof (fill_regs_run (λ _, Ok 0) (replicate (31 - k) 0) (Z.of_nat k) (take k (regs r) ++ drop (Z.to_nat 0 + k) (ex_gprs ex))) as H2.
    rewrite length_replicate in H2. rewrite H2, result_bind_ok; [|lia|rewrite length_app, length_drop, Hlt; lia|].
    + rewrite Nat2Z.id, take_app_length', drop_ge by (rewrite ?length_app, ?length_drop, ?Hlt; lia). by rewrite app_nil_r.
    + intros j v Hj. by apply lookup_replicate in Hj as [-> _].
  - intros j v Hj. rewrite Z.add_0_l. apply aget_lookup; [lia|]. rewrite Nat2Z.id. by apply lookup_take_Some in Hj as [? _].
Qed.

(** What a call does: it is answered at once, it suspends the REC, switches the REC or the
    realm off, or it waits for the host. *)
Inductive psci_effect := Reply (v : Z) | Suspend | Off | SystemOff | Wait.

Definition psci_effect_of (d : rd) (r : rec) : psci_effect :=
  let x i := default 0 (regs r !! i) in
  let f := u32 (x 0%nat) in
  let idx := mpidr_to_rec_idx (x 1%nat) in
  if f =? 0x84000000 then Reply 0x10001
  else if (f =? 0x84000001) || (f =? 0xC4000001) then Suspend
  else if f =? 0x84000002 then Off
  else if (f =? 0x84000003) || (f =? 0xC4000003) then
    if rec_par_size r <=? x 2%nat then Reply (2 ^ 64 - 9)
    else if rec_count d <=? idx then Reply (2 ^ 64 - 2)
    else if idx =? rec_idx r then Reply (2 ^ 64 - 4) else Wait
  else if (f =? 0x84000004) || (f =? 0xC4000004) then
    if negb (x 2%nat =? 0) then Reply (2 ^ 64 - 2)
    else if rec_count d <=? idx then Reply (2 ^ 64 - 2)
    else if idx =? rec_idx r then Reply 0 else Wait
  else if (f =? 0x84000008) || (f =? 0x84000009) then SystemOff
  else if f =? 0x8400000A then
    Reply (if bool_decide (u32 (x 1%nat) ∈ [0x84000001; 0xC4000001; 0x84000002; 0x84000003; 0xC4000003; 0x84000004;
                                          0xC4000004; 0x84000008; 0x84000009; 0x8400000A; 0x80000000]) then 0 else 2 ^ 64 - 1)
  else Reply (2 ^ 64 - 1).

(** The record for the host: the reason and the first [k] registers, the others zero. *)
Definition tell_host (k : nat) (r : rec) (ex : rmi_rec_exit) : rmi_rec_exit :=
  set_exit_reason RMI_EXIT_PSCI (set_exit_gprs (take k (regs r) ++ replicate (31 - k) 0) ex).

Definition effect_out (e : psci_effect) (r : rec) (ex : rmi_rec_exit) (res : rsi_result) : rec * rmi_rec_exit * rsi_result :=
  match e with
  | Reply v => (r, ex, set_res (set_x0 v) (set_action UPDATE_REC_RETURN_TO_REALM res))
  | Suspend => (r, tell_host 1 r ex, set_res (set_x0 0) (set_action UPDATE_REC_EXIT_TO_HOST res))
  | Off => (set_runnable false r, tell_host 1 r ex, set_res (set_x0 0) (set_action UPDATE_REC_EXIT_TO_HOST res))
  | SystemOff => (r, tell_host 1 r ex, set_action EXIT_TO_HOST res)
  | Wait => (set_psci_pending true r, tell_host 2 r ex, set_action EXIT_TO_HOST res)
  end.

(** The descriptor of the realm as a REC of it finds it. *)
Record rec_realm (s : state) (r : rec) (d : rd) : Prop := {
  rr_addr : has_addr (ri_g_rd r);
  rr_slot : slots s !! SLOT_RD = None;
  rr_gr : ∃ rc tag, granules s !! ri_g_rd r = Some (Gr false GRANULE_STATE_RD rc tag) ∧ gok GRANULE_STATE_RD rc;
  rr_mem : mem s !! ri_g_rd r = Some (PRd d);
  rr_regs : length (regs r) = 31%nat;
}.

Lemma rd_map_read_rec_count_run s r d :
  rec_realm s r d → rd_map_read_rec_count (ri_g_rd r) s = Ok (rec_count d, s).
Proof using L HL.
  intros [Ha Hs _ Hm _]. unfold rd_map_read_rec_count. run_step (map_assert_run s _ SLOT_RD Ha eq_refl Hs).
  erewrite bind_run; [|eapply read_rd_run; [cbn; apply lookup_insert_eq|exact Hm|reflexivity]]. cbv beta.
  erewrite bind_run; [|eapply buffer_unmap_run; cbn; apply lookup_insert_eq]. cbv beta. unfold mret, M_ret. st_norm.
  rewrite delete_insert_id by done. by destruct s.
Qed.

Lemma system_off_reboot_run s r d :
  rec_realm s r d →
  system_off_reboot r s = Ok ((), set_mem (<[ri_g_rd r := PRd (set_rd_state REALM_SYSTEM_OFF d)]> (mem s)) s).
Proof using L HL.
  intros [Ha Hs (rc & tag & Hg & Hok) Hm _]. unfold system_off_reboot.
  erewrite bind_run; [|by eapply (granule_lock_run s)]. cbv beta. st_norm.
  exec map_assert_run. erewrite bind_run; [|eapply read_rd_run; [exec_side..|reflexivity]]. cbv beta.
  exec write_page_run. exec buffer_unmap_run. erewrite granule_unlock_run; [|exec_side..]. st_norm.
  unfold set_mem. rewrite insert_insert_eq, insert_id, delete_insert_id by done. by destruct s.
Qed.

Lemma handle_psci_run s r d ex res :
  rec_realm s r d → length (ex_gprs ex) = 31%nat →
  handle_psci r ex res s
  = Ok (effect_out (psci_effect_of d r) r ex res,
        match psci_effect_of d r with
        | SystemOff => set_mem (<[ri_g_rd r := PRd (set_rd_state REALM_SYSTEM_OFF d)]> (mem s)) s
        | _ => s
        end).
Proof using L HL.
  intros Hrr He. pose proof (rr_regs _ _ _ Hrr) as Hl. destruct (regs4 r Hl) as (x0 & x1 & x2 & x3 & l & Hr).
  assert (Hf : ∀ k, (k <= 4)%nat → ∀ s' : state, lift (forward_args_to_host (Z.of_nat k) r ex) s'
    = Ok (set_exit_gprs (take k (regs r) ++ replicate (31 - k) 0) ex, s')).
  { intros k Hk s'. apply lift_run. apply forward_args_run; [done|lia|done]. }
  assert (Hg : ∀ i v, 0 <= i → regs r !! Z.to_nat i = Some v → ∀ s' : state, lift (aget (regs r) i) s' = Ok (v, s')).
  { intros i v Hi Hv s'. apply lift_run. by apply aget_lookup. }
  unfold handle_psci. run_step (Hg 0 x0 ltac:(lia) ltac:(by rewrite Hr) s).
  unfold psci_effect_of. rewrite Hr. cbn [lookup list_lookup default from_option]. unfold id. cbv zeta. unfold psci_call.
  change SMC32_PSCI_VERSION with 0x84000000. change SMC32_PSCI_CPU_SUSPEND with 0x84000001. change SMC64_PSCI_CPU_SUSPEND with 0xC4000001.
  change SMC32_PSCI_CPU_OFF with 0x84000002. change SMC32_PSCI_CPU_ON with 0x84000003. change SMC64_PSCI_CPU_ON with 0xC4000003.
  change SMC32_PSCI_AFFINITY_INFO with 0x84000004. change SMC64_PSCI_AFFINITY_INFO with 0xC4000004.
  change SMC32_PSCI_SYSTEM_OFF with 0x84000008. change SMC32_PSCI_SYSTEM_RESET with 0x84000009. change SMC32_PSCI_FEATURES with 0x8400000A.
  destruct (u32 x0 =? 0x84000000); [done|].
  destruct ((u32 x0 =? 0x84000001) || (u32 x0 =? 0xC4000001)).
  { unfold psci_cpu_suspend. rewrite bind_assoc. by run_step (Hf 1%nat ltac:(lia) s). }
  destruct (u32 x0 =? 0x84000002).
  { unfold psci_cpu_off. rewrite bind_assoc. change (forward_args_to_host 1 (set_runnable false r) ex) with (forward_args_to_host (Z.of_nat 1) r ex).
    by run_step (Hf 1%nat ltac:(lia) s). }
  destruct ((u32 x0 =? 0x84000003) || (u32 x0 =? 0xC4000003)).
  { unfold psci_cpu_on. rewrite !bind_assoc. run_step (Hg 1 x1 ltac:(lia) ltac:(by rewrite Hr) s). rewrite !bind_assoc.
    run_step (Hg 2 x2 ltac:(lia) ltac:(by rewrite Hr) s). unfold addr_in_rec_par. cbv zeta.
    rewrite <- Z.leb_antisym. destruct (rec_par_size r <=? x2); [done|]. rewrite !bind_assoc.
    run_step (rd_map_read_rec_count_run s r d Hrr). destruct (rec_count d <=? mpidr_to_rec_idx x1); [done|].
    destruct (mpidr_to_rec_idx x1 =? rec_idx r); [done|]. rewrite bind_assoc.
    change (forward_args_to_host 2 (set_psci_pending true r) ex) with (forward_args_to_host (Z.of_nat 2) r ex).
    by run_step (Hf 2%nat ltac:(lia) s). }
  destruct ((u32 x0 =? 0x84000004) || (u32 x0 =? 0xC4000004)).
  { unfold psci_affinity_info. rewrite !bind_assoc. run_step (Hg 1 x1 ltac:(lia) ltac:(by rewrite Hr) s). rewrite !bind_assoc.
    run_step (Hg 2 x2 ltac:(lia) ltac:(by rewrite Hr) s). cbv zeta. destruct (x2 =? 0); [|done]. cbn [negb]. rewrite !bind_assoc.
    run_step (rd_map_read_rec_count_run s r d Hrr). destruct (rec_count d <=? mpidr_to_rec_idx x1); [done|].
    destruct (mpidr_to_rec_idx x1 =? rec_idx r); [done|]. rewrite bind_assoc.
    change (forward_args_to_host 2 (set_psci_pending true r) ex) with (forward_args_to_host (Z.of_nat 2) r ex).
    by run_step (Hf 2%nat ltac:(lia) s). }
  destruct ((u32 x0 =? 0x84000008) || (u32 x0 =? 0x84000009)).
  { unfold psci_system_off_reset. rewrite !bind_assoc. run_step (system_off_reboot_run s r d Hrr). rewrite !bind_assoc.
    by erewrite bind_run; [|apply (Hf 1%nat); lia]. }
  destruct (u32 x0 =? 0x8400000A); [|done].
  unfold psci_features. rewrite !bind_assoc. by run_step (Hg 1 x1 ltac:(lia) ltac:(by rewrite Hr) s).
Qed.
(** C23: every PSCI call of a realm returns, and does what [psci_effect_of] says and nothing
    else: only SYSTEM_OFF and SYSTEM_RESET change the realm (no REC of it can be entered
    again), only CPU_OFF and the calls that wait for the host change the REC, and the host
    sees at most the first two registers. *)
Theorem handle_psci_spec s r d ex res :
  rec_realm s r d → length (ex_gprs ex) = 31%nat →
  handle_psci r ex res s
  = Ok (effect_out (psci_effect_of d r) r ex res,
        match psci_effect_of d r with
        | SystemOff => set_mem (<[ri_g_rd r := PRd (set_rd_state REALM_SYSTEM_OFF d)]> (mem s)) s
        | _ => s
        end).
Proof using L HL. apply handle_psci_run. Qed.

(** PSCI_COMPLETE is one atomic step on the pair of RECs: for addresses that are not those
    of two different RECs it answers with an error and changes nothing; otherwise the answer
    and the two RECs afterwards are what the contract [psci_outcome] says, everything else
    (the other granules, locks, slots) is as before, and the monitor stops exactly when the
    contract says so, which is when a request is pending and the 64 bits of the caller's x0
    are not the identifier of a call that waits for the host. *)
Theorem smc_psci_complete_spec s ca ta status :
  quiescent s → recs_wf s → slots s = ∅ → is_u64 ca → is_u64 ta →
  smc_psci_complete ca ta status s
  = match lockable s ca GRANULE_STATE_REC, lockable s ta GRANULE_STATE_REC with
    | Some gc, Some gt =>
        if ca =? ta then Ok (RMI_ERROR_INPUT, s)
        else match psci_outcome (negb (refs_of s gc =? 0)) (negb (refs_of s gt =? 0)) (rec_of s gc) (rec_of s gt) status with
             | Some (ret, c', t') => Ok (ret, put_rec gc c' (put_rec gt t' s))
             | None => Err FAssert
             end
    | _, _ => Ok (RMI_ERROR_INPUT, s)
    end.
Proof using L HL. apply smc_psci_complete_run. Qed.

(** * From the call to the start *)

(** A later state in which the host can name the two RECs: the caller, which is not running,
    and another REC of the realm. *)
Record host_names (s : state) (ca ta gc gt : Z) (c t : rec) : Prop := {
  hn_quiet : quiescent s;
  hn_wf : recs_wf s;
  hn_slots : slots s = ∅;
  hn_ca : is_u64 ca;
  hn_ta : is_u64 ta;
  hn_gc : lockable s ca GRANULE_STATE_REC = Some gc;
  hn_gt : lockable s ta GRANULE_STATE_REC = Some gt;
  hn_idle : refs_of s gc = 0;
  hn_c : rec_of s gc = c;
  hn_t : rec_of s gt = t;
}.

(** The REC that a call which waits for the host is about. *)
Definition names_target (r t : rec) : Prop :=
  ri_g_rd t = ri_g_rd r ∧ rec_idx t = mpidr_to_rec_idx (default 0 (regs r !! 1%nat)).

Lemma wait_idx d r t : psci_effect_of d r = Wait → names_target r t → rec_idx t ≠ rec_idx r.
Proof using.
  intros Hw [_ ->]. unfold psci_effect_of in Hw. cbv zeta in Hw.
  destruct (Z.eqb_spec (mpidr_to_rec_idx (default 0 (regs r !! 1%nat))) (rec_idx r)) as [|]; [|done].
  exfalso. revert Hw. by repeat case_match.
Qed.

Lemma complete_pending s ca ta gc gt d r t status :
  psci_effect_of d r = Wait → host_names s ca ta gc gt (set_psci_pending true r) t →
  smc_psci_complete ca ta status s
  = if bool_decide (names_target r t) then
      match psci_outcome false (negb (refs_of s gt =? 0)) (set_psci_pending true r) t status with
      | Some (ret, c', t') => Ok (ret, put_rec gc c' (put_rec gt t' s))
      | None => Err FAssert
      end
    else Ok (RMI_ERROR_INPUT, s).
Proof using L HL.
  intros Hw [Hq Hwf Hs Hca Hta Hgc Hgt Hidle Hc Ht].
  rewrite (smc_psci_complete_run s ca ta status Hq Hwf Hs Hca Hta), Hgc, Hgt, Hidle, Hc, Ht. cbn [negb Z.eqb].
  destruct (Z.eqb_spec ca ta) as [->|Hne].
  - rewrite bool_decide_eq_false_2; [done|]. intros Hn. apply (wait_idx d r t Hw Hn). subst t. rewrite Hgc in Hgt.
    injection Hgt as <-. by rewrite Hc.
  - case_bool_decide as Hn; [done|]. unfold psci_outcome. cbn [orb psci_pending set_psci_pending negb].
    change (regs (set_psci_pending true r)) with (regs r). change (ri_g_rd (set_psci_pending true r)) with (ri_g_rd r).
    destruct (rec_lockable _ _ _ Hq Hwf Hca Hgc) as (? & ? & _ & _ & _ & _ & _ & [Hmc _] & _).
    destruct (rec_lockable _ _ _ Hq Hwf Hta Hgt) as (? & ? & _ & _ & _ & _ & _ & [Hmt _] & _). rewrite Hc in Hmc. rewrite Ht in Hmt.
    destruct (Z.eqb_spec (ri_g_rd r) (ri_g_rd t)) as [He|]; cbn [negb orb];
      [|by rewrite (put_rec_same s gt), (put_rec_same s gc)].
    destruct (Z.eqb_spec (mpidr_to_rec_idx (default 0 (regs r !! 1%nat))) (rec_idx t)) as [Hi|]; cbn [negb orb];
      [|by rewrite (put_rec_same s gt), (put_rec_same s gc)].
    by destruct Hn.
Qed.
(** C24: CPU_ON from end to end: a REC that asks for another REC of its realm to be started stops
    running and waits; when the host then completes the request for that REC, which was off,
    the REC is runnable at the entry point and with the context that the caller gave, in
    the reset state, and the caller is told so and can run again. The host cannot use the
    request to start anything else: for every other REC PSCI_COMPLETE changes nothing. *)
Theorem psci_cpu_on_starts s r d ex res :
  rec_realm s r d → length (ex_gprs ex) = 31%nat → psci_effect_of d r = Wait →
  request_of (default 0 (regs r !! 0%nat)) = Some ReqCpuOn →
  let r' := set_psci_pending true r in
  ∃ ex' res', handle_psci r ex res s = Ok ((r', ex', res'), s) ∧ action res' = EXIT_TO_HOST ∧
    ∀ s1 ca ta gc gt t, host_names s1 ca ta gc gt r' t →
      (¬ names_target r t → ∀ status, smc_psci_complete ca ta status s1 = Ok (RMI_ERROR_INPUT, s1)) ∧
      (names_target r t → refs_of s1 gt = 0 → runnable t = false →
       smc_psci_complete ca ta PSCI_RETURN_SUCCESS s1
       = Ok (RMI_SUCCESS, put_rec gc (answered PSCI_RETURN_SUCCESS r')
           (put_rec gt (started (default 0 (regs r !! 2%nat)) (default 0 (regs r !! 3%nat)) (sctlr_el1 (sysregs r)) t) s1))).
Proof using L HL.
  intros Hrr He Hw Hreq r'. eexists _, _. rewrite (handle_psci_run s r d ex res Hrr He), Hw. split; [reflexivity|].
  split; [done|]. intros s1 ca ta gc gt t Hn. split.
  - intros Hno status. rewrite (complete_pending _ _ _ _ _ _ _ _ status Hw Hn). by rewrite bool_decide_eq_false_2.
  - intros Ht Hrefs Hoff. rewrite (complete_pending _ _ _ _ _ _ _ _ _ Hw Hn). rewrite bool_decide_eq_true_2 by done.
    destruct Ht as [Hrd Hidx]. unfold psci_outcome. cbn [orb psci_pending set_psci_pending negb].
    change (regs (set_psci_pending true r)) with (regs r). change (ri_g_rd (set_psci_pending true r)) with (ri_g_rd r).
    rewrite Hrefs, Hoff, Hrd, Hidx, !Z.eqb_refl, Hreq. done.
Qed.

(** The two sides disagree on the identifier of the call: the call looks at the low 32 bits
    of x0 and the completion at all 64. A realm that asks to start a REC with other bits set
    makes the monitor stop as soon as the host completes the request, with whatever status. *)
Theorem psci_cpu_on_stops s r d ex res :
  rec_realm s r d → length (ex_gprs ex) = 31%nat → psci_effect_of d r = Wait →
  2 ^ 32 <= default 0 (regs r !! 0%nat) →
  let r' := set_psci_pending true r in
  ∃ ex' res', handle_psci r ex res s = Ok ((r', ex', res'), s) ∧ action res' = EXIT_TO_HOST ∧
    ∀ s1 ca ta gc gt t status, host_names s1 ca ta gc gt r' t → names_target r t →
      smc_psci_complete ca ta status s1 = Err FAssert.
Proof using L HL.
  intros Hrr He Hw Hx0 r'. eexists _, _. rewrite (handle_psci_run s r d ex res Hrr He), Hw. split; [reflexivity|].
  split; [done|]. intros s1 ca ta gc gt t status Hn Ht. rewrite (complete_pending _ _ _ _ _ _ _ _ _ Hw Hn).
  rewrite bool_decide_eq_true_2 by done.
  destruct Ht as [Hrd Hidx]. unfold psci_outcome. cbn [orb psci_pending set_psci_pending negb].
  change (regs (set_psci_pending true r)) with (regs r). change (ri_g_rd (set_psci_pending true r)) with (ri_g_rd r).
  rewrite Hrd, Hidx, !Z.eqb_refl. cbn [negb]. unfold request_of.
  rewrite !(proj2 (Z.eqb_neq _ _)) by lia. done.
Qed.
End spec.

(** * Examples *)

(** RECs 0 and 1 of a realm whose descriptor is in granule 2. *)
Definition demo_ctx : s2tt_context :=
  {| ipa_bits := 40; s2_starting_level := 1; num_root_rtts := 1; g_rtt := 9; vmid := 1; enable_lpa2 := false |}.
Definition demo_info : rec_realm_info :=
  {| inf_g_rd := 2; inf_pmu_enabled := false; inf_pmu_num_ctrs := 0; inf_algorithm := HASH_SHA_256;
     inf_simd_cfg := simd_config_zero; inf_s2_ctx := demo_ctx |}.
Definition demo_rec (g idx : Z) (run : bool) (args : list Z) : rec :=
  {| g_rec := g; rec_idx := idx; runnable := run; regs := args ++ replicate (31 - length args) 0; pc := 0; pstate := 0;
     sysregs := sysreg_state_zero; common_sysregs := {| c_vttbr_el2 := 0; c_vtcr_el2 := 0; c_hcr_el2 := 0; c_mdcr_el2 := 0 |};
     set_ripas := set_ripas_zero; realm_info := demo_info;
     last_run := {| last_esr := 0; last_hpfar := 0; last_far := 0 |}; psci_pending := false; rec_num_aux := 0;
     g_aux := replicate 16 0; serror := {| serror_vsesr_el2 := 0; serror_inject := false |}; host_call := false |}.
Definition demo_rd : rd :=
  {| rd_state := REALM_ACTIVE; rec_count := 2; rim := replicate 64 0; rems := replicate 4 (replicate 64 0); s2_ctx := demo_ctx; num_rec_aux := 0;
     algorithm := HASH_SHA_256; pmu_enabled := false; pmu_num_ctrs := 0; simd_cfg := simd_config_zero;
     rpv := replicate 64 0; apt_pa := 0 |}.

Definition demo_psci_state (c : rec) : state :=
  {| granules := <[0 := Gr false GRANULE_STATE_REC 0 0]> (<[1 := Gr false GRANULE_STATE_REC 0 0]>
       (<[2 := Gr false GRANULE_STATE_RD 2 0]> ∅));
     mem := <[0 := PRec c]> (<[1 := PRec (demo_rec 1 1 false [])]> (<[2 := PRd demo_rd]> ∅));
     slots := ∅; vttbr_el2 := 0; tlbi := []; tags := tags state_init; csm_ids := csm_ids state_init; vmids := [] |}.

Definition demo_psci_platform : Platform := flat_platform 3 0.
#[local] Instance demo_psci_laws : PlatformLaws demo_psci_platform.
Proof. by apply flat_laws. Qed.
#[local] Instance demo_psci_machine : MachineLaws demo_psci_platform zero_machine.
Proof. by apply zero_machine_laws. Qed.
#[local] Instance demo_psci_config : Config := {| ENABLE_OPENCCA := false |}.

Lemma demo_psci_quiet c : quiescent (P := demo_psci_platform) (demo_psci_state c).
Proof.
  intros g Hg. change RMM_MAX_GRANULES with 3 in Hg. assert (g = 0 ∨ g = 1 ∨ g = 2) as [-> | [-> | ->]] by lia;
    (eexists; split; [reflexivity|]); (eexists _, _, _; split; [reflexivity|]; split; [by vm_compute|reflexivity]).
Qed.

Lemma demo_psci_wf c : g_rec c = 0 → length (regs c) = 31%nat → recs_wf (demo_psci_state c).
Proof.
  intros Hc Hl g gr Hg Hst. unfold rec_page. cbn [demo_psci_state granules mem] in *.
  apply lookup_insert_Some in Hg as [[<- <-]|[H0 Hg]]; [by exists c; rewrite lookup_insert_eq|].
  apply lookup_insert_Some in Hg as [[<- <-]|[H1 Hg]];
    [by exists (demo_rec 1 1 false []); rewrite lookup_insert_ne, lookup_insert_eq by done|].
  apply lookup_insert_Some in Hg as [[<- <-]|[H2 Hg]]; [by vm_compute in Hst|]. by rewrite lookup_empty in Hg.
Qed.

Lemma demo_host_names c :
  g_rec c = 0 → length (regs c) = 31%nat →
  host_names (P := demo_psci_platform) (demo_psci_state c) 0 4096 0 1 c (demo_rec 1 1 false []).
Proof.
  intros Hc Hl. split; try done.
  - apply demo_psci_quiet.
  - by apply demo_psci_wf.
Qed.

Lemma demo_rec_realm c :
  realm_info c = demo_info → length (regs c) = 31%nat → rec_realm (P := demo_psci_platform) (demo_psci_state c) c demo_rd.
Proof.
  intros Hi Hl. assert (Hg : ri_g_rd c = 2) by (unfold ri_g_rd; by rewrite Hi). split; rewrite ?Hg; try done.
  - split; [lia|]. exists (2 * 4096). reflexivity.
  - exists 2, 0. split; [reflexivity|]. by vm_compute.
Qed.

(** The call CPU_ON for REC 1, entry point 0x1000, context 7; [x0] with the bits [hi] added. *)
Definition demo_caller (hi : Z) : rec := demo_rec 0 0 true [0xC4000003 + hi; 1; 0x1000; 7].
Definition demo_rsi_result : rsi_result :=
  {| action := 0; rtt_level := 0; smc_res := {| x0 := 0; x1 := 0; x2 := 0; x3 := 0; x4 := 0 |} |}.

Lemma handle_psci_spec_witness :
  psci_effect_of demo_rd (demo_caller 0) = Wait ∧
  ∃ out, handle_psci (P := demo_psci_platform) (H := zero_machine) (demo_caller 0) rmi_rec_exit_zero demo_rsi_result
    (demo_psci_state (demo_caller 0)) = Ok (out, demo_psci_state (demo_caller 0)).
Proof.
  split; [reflexivity|]. eexists.
  exact (handle_psci_spec (P := demo_psci_platform) (H := zero_machine) (demo_psci_state (demo_caller 0)) (demo_caller 0) demo_rd
    rmi_rec_exit_zero demo_rsi_result (demo_rec_realm (demo_caller 0) eq_refl eq_refl) eq_refl).
Defined.

Lemma smc_psci_complete_spec_witness :
  smc_psci_complete (P := demo_psci_platform) (H := zero_machine) 0 4096 0 (demo_psci_state (demo_caller 0))
  = Ok (RMI_ERROR_INPUT, demo_psci_state (demo_caller 0)).
Proof.
  refine (eq_trans (smc_psci_complete_spec (P := demo_psci_platform) (H := zero_machine) (demo_psci_state (demo_caller 0)) 0 4096 0
    (demo_psci_quiet _) (demo_psci_wf (demo_caller 0) eq_refl eq_refl) eq_refl _ _) _); [split; [by vm_compute|reflexivity]..|].
  vm_compute. reflexivity.
Defined.

Lemma psci_cpu_on_starts_witness :
  let r' := set_psci_pending true (demo_caller 0) in
  smc_psci_complete (P := demo_psci_platform) (H := zero_machine) 0 4096 0 (demo_psci_state r')
  = Ok (RMI_SUCCESS, put_rec 0 (answered 0 r') (put_rec 1 (started 0x1000 7 0 (demo_rec 1 1 false [])) (demo_psci_state r'))).
Proof.
  intros r'. destruct (psci_cpu_on_starts (P := demo_psci_platform) (H := zero_machine) (demo_psci_state (demo_caller 0)) (demo_caller 0)
    demo_rd rmi_rec_exit_zero demo_rsi_result (demo_rec_realm (demo_caller 0) eq_refl eq_refl) eq_refl eq_refl eq_refl) as (ex' & res' & _ & _ & Hdone).
  apply (Hdone _ 0 4096 0 1 _ (demo_host_names r' eq_refl eq_refl)); [split; reflexivity|reflexivity|reflexivity].
Defined.

Lemma psci_cpu_on_stops_witness :
  smc_psci_complete (P := demo_psci_platform) (H := zero_machine) 0 4096 0
    (demo_psci_state (set_psci_pending true (demo_caller (2 ^ 40)))) = Err FAssert.
Proof.
  destruct (psci_cpu_on_stops (P := demo_psci_platform) (H := zero_machine) (demo_psci_state (demo_caller (2 ^ 40))) (demo_caller (2 ^ 40))
    demo_rd rmi_rec_exit_zero demo_rsi_result (demo_rec_realm (demo_caller (2 ^ 40)) eq_refl eq_refl) eq_refl eq_refl ltac:(by vm_compute))
    as (ex' & res' & _ & _ & Hdone).
  apply (Hdone _ 0 4096 0 1 _ 0 (demo_host_names (set_psci_pending true (demo_caller (2 ^ 40))) eq_refl eq_refl)). split; reflexivity.
Defined.
