(* ===== verification/Csm.v ===== *)
(** The calls of realms on shared memory (runtime/rsi/shared_memory.c): creating a region,
    sharing it, reserving addresses for it in another realm, attaching its pages there, and
    the ways back. *)
From S2P Require Import Prelude Types Granule Platform GranuleFind S2tte S2tt Apt RealmTag CsmId Buffer Walk Exec Realm Rtt Rsi.

Definition OWNER_TAG_DECODE (x : Z) : Z := u8 (x .& 255).

(** An [unsigned long] converted to [int]. *)
Definition to_int (x : Z) : Z := if Z.testbit x 31 then u32 x - 2 ^ 32 else u32 x.

(** * Lookups and updates of tables of regions *)

(** The loop over [slave_memory] that the calls share: the first used region with an
    identifier; [None] is [SIZE_MAX]. *)
Definition find_slave_region (a : apt) (region_id : Z) : result (option Z) :=
  first_index (Z.to_nat MAX_MEM_REGIONS) 0 (λ sj,
    if mask_bit (slave_used_mask a) sj
    then aget (slave_memory a) sj ≫= λ m, Ok (s_region_ID m =? region_id)
    else Ok false).

(** [apt_disable_slave_idx(apt, i); apt->slave_used_mask &= ~BIT64(i)]. *)
Definition retire_slave (a : apt) (i : Z) : result apt :=
  apt_disable_slave_idx a i ≫= λ '(_, a),
  Ok (set_slave_used_mask (slave_used_mask a .& .~ BIT64 i) a).

(** [apt_disable_master_idx], the mask, and [memset] of the region. *)
Definition retire_master (a : apt) (i : Z) : result apt :=
  apt_disable_master_idx a i ≫= λ '(_, a),
  let a := set_master_used_mask (master_used_mask a .& .~ BIT64 i) a in
  aset (master_memory a) i master_mem_zero ≫= λ mm, Ok (set_master_memory mm a).

(** [shares[k].in_use = false; share_count--] *)
Definition drop_share (m : master_mem) (k : Z) : result master_mem :=
  aget (shares m) k ≫= λ sh,
  aset (shares m) k {| slave_ID := slave_ID sh; slave_rd_pa := slave_rd_pa sh;
                       permission := permission sh; in_use := false |} ≫= λ shs,
  Ok {| m_region_ID := m_region_ID m; m_ipa_start := m_ipa_start m; m_map_size := m_map_size m;
        share_count := u8 (share_count m - 1); shares := shs |}.

Definition set_master (a : apt) (i : Z) (m : master_mem) : result apt :=
  aset (master_memory a) i m ≫= λ mm, Ok (set_master_memory mm a).

(** [for (ipa = ...; ipa < end_; ipa += GRANULE_SIZE) body(ipa)]; with fuel for one pass over
    the address space, a run that is still inside the loop never leaves it. *)
Fixpoint pages_loop (fuel : nat) (ipa end_ : Z) (body : Z → M state ()) : M state () :=
  if ipa <? end_ then
    match fuel with
    | O => mfault FHang
    | S n => body ipa ≫= λ _, pages_loop n (ipa .+ GRANULE_SIZE) end_ body
    end
  else mret ().

(** The loop over the pages of a region. *)
Definition for_pages (base size : Z) (body : Z → M state ()) : M state () :=
  pages_loop (S (Z.to_nat (size / GRANULE_SIZE))) base (base .+ size) body.

Section csm.
Context {P : Platform} {H : Machine} {CF : Config}.

(** Mapping the table of regions: [granule_addr] asserts that the granule was found. *)
Definition map_apt (g_apt : option Z) (slot : Z) : M state Z :=
  massert (bool_decide (is_Some g_apt)) ≫= λ _, mderef g_apt ≫= λ g, map_assert g slot.

(** The descriptor of the calling realm, locked, mapped and read. *)
Definition open_rd (g_rd : Z) : M state rd :=
  granule_lock g_rd GRANULE_STATE_RD ≫= λ _,
  map_assert g_rd SLOT_RD ≫= λ rdp, read_rd rdp.

(** [buffer_unmap(p); granule_unlock(g)] *)
Definition close_buf (slot g : Z) : M state () :=
  buffer_unmap slot ≫= λ _, granule_unlock g.

(** * RSI_CSM_CREATE *)

(** Under the locks: the new region, if there is room for it. *)
Definition csm_create_region (a : apt) (owner_rd_pa base_ipa size_ipa : Z) (rec_exit : rmi_rec_exit)
  (res : rsi_result) : M state (rmi_rec_exit * rsi_result) :=
  lift (apt_find_enabled_conflict a base_ipa size_ipa true) ≫= λ conflict,
  match conflict with
  | Some _ => mret (rsi_fail RSI_ERROR_INPUT rec_exit res)
  | None =>
      zoom csm_ids set_csm_ids (csm_region_id_assign owner_rd_pa) ≫= λ oid,
      match oid with
      | None => mret (rsi_fail RSI_ERROR_STATE rec_exit res)
      | Some region_id =>
          lift (apt_add_master a region_id base_ipa size_ipa true) ≫= λ '(region_index, a),
          if region_index =? SIZE_MAX then
            zoom csm_ids set_csm_ids (csm_region_id_remove region_id) ≫= λ _,
            mret (rsi_fail RSI_ERROR_STATE rec_exit res)
          else
            write_page SLOT_APT (PApt a) ≫= λ _,
            mret (rsi_exit RMI_EXIT_CSM_ADD_GRANULES base_ipa size_ipa
                    (λ x, set_x2 region_index (set_x1 region_id (set_x0 RSI_SUCCESS x))) rec_exit res)
      end
  end.

Definition handle_rsi_csm_create (r : rec) (rec_exit : rmi_rec_exit) (res : rsi_result)
  : M state (rmi_rec_exit * rsi_result) :=
  lift (aget (regs r) 2) ≫= λ base_ipa,
  lift (aget (regs r) 3) ≫= λ size_ipa,
  lift (granule_addr (ri_g_rd r)) ≫= λ owner_rd_pa,
  let res := set_action UPDATE_REC_RETURN_TO_REALM res in
  if (size_ipa =? 0) || negb (GRANULE_ALIGNED base_ipa) || negb (GRANULE_ALIGNED size_ipa)
  then mret (rsi_fail RSI_ERROR_INPUT rec_exit res)
  else
    open_rd (ri_g_rd r) ≫= λ rd,
    find_lock_granule (apt_pa rd) GRANULE_STATE_APT ≫= λ g_apt,
    map_apt g_apt SLOT_APT ≫= λ aptp,
    mderef g_apt ≫= λ g_apt,
    read_apt aptp ≫= λ a,
    csm_create_region a owner_rd_pa base_ipa size_ipa rec_exit res ≫= λ out,
    close_buf aptp g_apt ≫= λ _,
    close_buf SLOT_RD (ri_g_rd r) ≫= λ _, mret out.

(** * RSI_CSM_SHARE *)

Definition csm_share_region (a : apt) (region_id master_id slave_id slave_rd_pa permission : Z)
  (rec_exit : rmi_rec_exit) (res : rsi_result) : M state (rmi_rec_exit * rsi_result) :=
  lift (apt_find_master_by_region_id a region_id) ≫= λ master_region_index,
  if master_region_index <? 0 then mret (rsi_fail RSI_ERROR_INPUT rec_exit res)
  else
    lift (apt_master_add_share a master_region_index slave_id slave_rd_pa permission) ≫= λ '(ok, a),
    if negb ok then mret (rsi_fail RSI_ERROR_STATE rec_exit res)
    else
      write_page SLOT_APT (PApt a) ≫= λ _,
      mret (rec_exit, set_res (λ x, set_x2 master_region_index
                                      (set_x1 (apt_make_sharing_id region_id master_id slave_id)
                                         (set_x0 RSI_SUCCESS x)))
                        (set_action UPDATE_REC_RETURN_TO_REALM res)).

Definition handle_rsi_csm_share (r : rec) (rec_exit : rmi_rec_exit) (res : rsi_result)
  : M state (rmi_rec_exit * rsi_result) :=
  lift (aget (regs r) 1) ≫= λ reg1,
  lift (aget (regs r) 2) ≫= λ reg2,
  lift (aget (regs r) 3) ≫= λ reg3,
  let region_id := OWNER_TAG_DECODE reg1 in
  let slave_id := OWNER_TAG_DECODE reg2 in
  let permission := OWNER_TAG_DECODE reg3 in
  let res := set_action UPDATE_REC_RETURN_TO_REALM res in
  lift (granule_addr (ri_g_rd r)) ≫= λ rd_pa,
  zoom tags set_tags (realm_tag_get_by_rd rd_pa) ≫= λ master_id,
  match master_id with
  | None => mret (rsi_fail RSI_ERROR_STATE rec_exit res)
  | Some master_id =>
      if master_id =? 0 then mret (rsi_fail RSI_ERROR_STATE rec_exit res)
      else if (region_id =? 0) || (slave_id =? 0) then mret (rsi_fail RSI_ERROR_INPUT rec_exit res)
      else
        zoom tags set_tags (realm_tag_rd_by_tag slave_id) ≫= λ slave_rd_pa,
        match slave_rd_pa with
        | None => mret (rsi_fail RSI_ERROR_INPUT rec_exit res)
        | Some slave_rd_pa =>
            open_rd (ri_g_rd r) ≫= λ rd,
            find_lock_granule (apt_pa rd) GRANULE_STATE_APT ≫= λ g_apt,
            map_apt g_apt SLOT_APT ≫= λ aptp,
            mderef g_apt ≫= λ g_apt,
            read_apt aptp ≫= λ a,
            csm_share_region a region_id master_id slave_id slave_rd_pa permission rec_exit res ≫= λ out,
            close_buf aptp g_apt ≫= λ _,
            close_buf SLOT_RD (ri_g_rd r) ≫= λ _, mret out
        end
  end.

(** * RSI_CSM_RESERVE *)

Definition csm_reserve_region (apt_slave apt_master : apt) (sharing_id master_rd_pa base_ipa size_ipa : Z)
  (rec_exit : rmi_rec_exit) (res : rsi_result) : M state (rmi_rec_exit * rsi_result) :=
  let region_id := apt_sharing_region_id sharing_id in
  lift (apt_find_master_by_region_id apt_master region_id) ≫= λ master_region_index,
  if master_region_index =? -1 then mret (rsi_fail RSI_ERROR_INPUT rec_exit res)
  else
    lift (aget (master_memory apt_master) master_region_index) ≫= λ m,
    lift (apt_find_master_share_slot m (apt_sharing_slave_id sharing_id)) ≫= λ master_share_slot,
    if master_share_slot <? 0 then mret (rsi_fail RSI_ERROR_INPUT rec_exit res)
    else if negb (m_map_size m =? size_ipa) then mret (rsi_fail RSI_ERROR_INPUT rec_exit res)
    else
      lift (apt_find_enabled_conflict apt_slave base_ipa size_ipa false) ≫= λ conflict,
      match conflict with
      | Some _ => mret (rsi_fail RSI_ERROR_INPUT rec_exit res)
      | None =>
          lift (apt_add_slave apt_slave (apt_sharing_master_id sharing_id) region_id master_rd_pa
                  base_ipa size_ipa true) ≫= λ '(slave_region_index, a),
          write_page SLOT_APT (PApt a) ≫= λ _,
          mret (rsi_exit RMI_EXIT_CSM_REMOVE_GRANULES base_ipa size_ipa
                  (λ x, set_x2 slave_region_index (set_x1 sharing_id (set_x0 RSI_SUCCESS x))) rec_exit res)
      end.

Definition handle_rsi_csm_reserve (r : rec) (rec_exit : rmi_rec_exit) (res : rsi_result)
  : M state (rmi_rec_exit * rsi_result) :=
  lift (aget (regs r) 1) ≫= λ reg1,
  let sharing_id := u32 reg1 in
  lift (aget (regs r) 2) ≫= λ base_ipa,
  lift (aget (regs r) 3) ≫= λ size_ipa,
  let master_id := apt_sharing_master_id sharing_id in
  let slave_id := apt_sharing_slave_id sharing_id in
  lift (granule_addr (ri_g_rd r)) ≫= λ slave_rd_pa,
  let res := set_action UPDATE_REC_RETURN_TO_REALM res in
  if (size_ipa =? 0) || negb (GRANULE_ALIGNED base_ipa) || negb (GRANULE_ALIGNED size_ipa)
  then mret (rsi_fail RSI_ERROR_INPUT rec_exit res)
  else if (sharing_id =? 0) || (apt_sharing_region_id sharing_id =? 0) || (master_id =? 0) || (slave_id =? 0)
  then mret (rsi_fail RSI_ERROR_INPUT rec_exit res)
  else
    zoom tags set_tags (realm_tag_get_by_rd slave_rd_pa) ≫= λ current_slave_id,
    if negb (bool_decide (current_slave_id = Some slave_id)) then mret (rsi_fail RSI_ERROR_INPUT rec_exit res)
    else
      zoom tags set_tags (realm_tag_rd_by_tag master_id) ≫= λ master_rd_pa,
      match master_rd_pa with
      | None => mret (rsi_fail RSI_ERROR_INPUT rec_exit res)
      | Some master_rd_pa =>
          open_rd (ri_g_rd r) ≫= λ rd,
          find_lock_granule (apt_pa rd) GRANULE_STATE_APT ≫= λ g_apt_slave,
          map_apt g_apt_slave SLOT_APT ≫= λ apt_slave,
          mderef g_apt_slave ≫= λ g_apt_slave,
          find_lock_granule master_rd_pa GRANULE_STATE_RD ≫= λ g_master_rd,
          massert (bool_decide (is_Some g_master_rd)) ≫= λ _,
          mderef g_master_rd ≫= λ g_master_rd,
          map_assert g_master_rd SLOT_RD2 ≫= λ master_rdp,
          read_rd master_rdp ≫= λ master_rd,
          find_lock_granule (apt_pa master_rd) GRANULE_STATE_APT ≫= λ g_apt_master,
          map_apt g_apt_master SLOT_APT2 ≫= λ apt_master,
          mderef g_apt_master ≫= λ g_apt_master,
          read_apt apt_slave ≫= λ a_slave,
          read_apt apt_master ≫= λ a_master,
          csm_reserve_region a_slave a_master sharing_id master_rd_pa base_ipa size_ipa rec_exit res ≫= λ out,
          close_buf apt_slave g_apt_slave ≫= λ _,
          close_buf apt_master g_apt_master ≫= λ _,
          close_buf SLOT_RD (ri_g_rd r) ≫= λ _,
          close_buf master_rdp g_master_rd ≫= λ _, mret out
      end.

(** * RSI_CSM_ATTACH *)

(** The loop over the pages of the master's region, [walk_res] carried from one page to the
    next: whether it ran to the end. *)
Fixpoint attach_loop (fuel : nat) (master_rd slave_rd : rd) (master_ipa end_ slave_ipa : Z)
  (walk_res : s2_walk_result) : M state bool :=
  if master_ipa <? end_ then
    match fuel with
    | O => mfault FHang
    | S n =>
        realm_ipa_to_pa_with_rd master_rd master_ipa walk_res ≫= λ '(walk_status, walk_res),
        let unlock_llt :=
          match sw_llt walk_res with Some llt => granule_unlock llt | None => mret () end in
        match walk_status with
        | WALK_SUCCESS =>
            map_ipa_to_pa slave_rd (sw_pa walk_res) slave_ipa ≫= λ _,
            unlock_llt ≫= λ _,
            attach_loop n master_rd slave_rd (master_ipa .+ 4096) end_ (slave_ipa .+ 4096) walk_res
        | _ => unlock_llt ≫= λ _, mret false
        end
    end
  else mret true.

Definition walk_res_zero : s2_walk_result :=
  {| sw_pa := 0; sw_rtt_level := 0; sw_ripas_val := RIPAS_EMPTY; sw_llt := None |}.

(** With both tables of regions mapped, from the lookup of the master's region on. *)
Definition attach_region (slave_rd master_rd : rd) (sm : slave_mem) (apt_master : apt)
  (rec_exit : rmi_rec_exit) (res : rsi_result) : M state (rmi_rec_exit * rsi_result) :=
  lift (apt_find_master_by_region_id apt_master (s_region_ID sm)) ≫= λ master_region_index,
  if master_region_index <? 0 then mret (rsi_fail RSI_ERROR_INPUT rec_exit res)
  else
    lift (aget (master_memory apt_master) master_region_index) ≫= λ m,
    attach_loop (S (Z.to_nat (m_map_size m / 4096))) master_rd slave_rd (m_ipa_start m)
      (m_ipa_start m .+ m_map_size m) (s_ipa_start sm) walk_res_zero ≫= λ ok,
    if negb ok then mret (rsi_fail RSI_ERROR_INPUT rec_exit res)
    else mret (rec_exit, set_res (set_x0 RSI_SUCCESS) (set_action UPDATE_REC_RETURN_TO_REALM res)).

Definition handle_rsi_csm_attach (r : rec) (rec_exit : rmi_rec_exit) (res : rsi_result)
  : M state (rmi_rec_exit * rsi_result) :=
  let res := set_action UPDATE_REC_RETURN_TO_REALM res in
  lift (aget (regs r) 1) ≫= λ reg1,
  let region_index := to_int reg1 in
  open_rd (ri_g_rd r) ≫= λ slave_rd,
  find_lock_granule (apt_pa slave_rd) GRANULE_STATE_APT ≫= λ g_apt_slave,
  map_apt g_apt_slave SLOT_APT ≫= λ apt_slave,
  mderef g_apt_slave ≫= λ g_apt_slave,
  read_apt apt_slave ≫= λ a_slave,
  lift (aget (slave_memory a_slave) region_index) ≫= λ sm,
  find_lock_granule (master_rd_pa sm) GRANULE_STATE_RD ≫= λ g_master_rd,
  match g_master_rd with
  | None =>
      close_buf apt_slave g_apt_slave ≫= λ _,
      close_buf SLOT_RD (ri_g_rd r) ≫= λ _,
      mret (rsi_fail RSI_ERROR_INPUT rec_exit res)
  | Some g_master_rd =>
      map_assert g_master_rd SLOT_RD2 ≫= λ master_rdp,
      read_rd master_rdp ≫= λ master_rd,
      find_lock_granule (apt_pa master_rd) GRANULE_STATE_APT ≫= λ g_apt_master,
      map_apt g_apt_master SLOT_APT2 ≫= λ apt_master,
      mderef g_apt_master ≫= λ g_apt_master,
      read_apt apt_master ≫= λ a_master,
      attach_region slave_rd master_rd sm a_master rec_exit res ≫= λ out,
      close_buf apt_slave g_apt_slave ≫= λ _,
      close_buf apt_master g_apt_master ≫= λ _,
      close_buf SLOT_RD (ri_g_rd r) ≫= λ _,
      close_buf master_rdp g_master_rd ≫= λ _, mret out
  end.

(** * RSI_CSM_DETACH_AND_FREE *)

Definition handle_rsi_csm_detach_and_free (r : rec) (rec_exit : rmi_rec_exit) (res : rsi_result)
  : M state (rmi_rec_exit * rsi_result) :=
  lift (aget (regs r) 1) ≫= λ reg1,
  let sharing_id := u32 reg1 in
  let region_id := apt_sharing_region_id sharing_id in
  let slave_id := apt_sharing_slave_id sharing_id in
  lift (granule_addr (ri_g_rd r)) ≫= λ slave_rd_pa,
  let res := set_action UPDATE_REC_RETURN_TO_REALM res in
  if (sharing_id =? 0) || (region_id =? 0) || (slave_id =? 0)
  then mret (rsi_fail RSI_ERROR_INPUT rec_exit res)
  else
    zoom tags set_tags (realm_tag_get_by_rd slave_rd_pa) ≫= λ caller_id,
    if negb (bool_decide (caller_id = Some slave_id)) then mret (rsi_fail RSI_ERROR_INPUT rec_exit res)
    else
      open_rd (ri_g_rd r) ≫= λ slave_rd,
      find_lock_granule (apt_pa slave_rd) GRANULE_STATE_APT ≫= λ g_slave_apt,
      match g_slave_apt with
      | None =>
          close_buf SLOT_RD (ri_g_rd r) ≫= λ _, mret (rsi_fail RSI_ERROR_STATE rec_exit res)
      | Some g_slave_apt =>
          map_assert g_slave_apt SLOT_APT ≫= λ slave_aptp,
          read_apt slave_aptp ≫= λ slave_apt,
          lift (find_slave_region slave_apt region_id) ≫= λ found_idx,
          match found_idx with
          | None =>
              close_buf slave_aptp g_slave_apt ≫= λ _,
              close_buf SLOT_RD (ri_g_rd r) ≫= λ _, mret (rsi_fail RSI_ERROR_INPUT rec_exit res)
          | Some found_idx =>
              lift (aget (slave_memory slave_apt) found_idx) ≫= λ sm,
              lift (retire_slave slave_apt found_idx) ≫= λ slave_apt,
              write_page slave_aptp (PApt slave_apt) ≫= λ _,
              close_buf slave_aptp g_slave_apt ≫= λ _,
              for_pages (s_ipa_start sm) (s_map_size sm) (unmap_ipa_from_rd slave_rd) ≫= λ _,
              close_buf SLOT_RD (ri_g_rd r) ≫= λ _,
              mret (rsi_exit RMI_EXIT_CSM_ADD_GRANULES (s_ipa_start sm) (s_map_size sm)
                      (set_x0 RSI_SUCCESS) rec_exit res)
          end
      end.

(** * RSI_CSM_REVOKE *)

(** The slave's side: its region is retired and its pages are unmapped. *)
Definition csm_revoke_slave (slave_rd_pa region_id : Z) : M state () :=
  find_lock_granule slave_rd_pa GRANULE_STATE_RD ≫= λ g_srd,
  match g_srd with
  | None => mret ()
  | Some g_srd =>
      map_assert g_srd SLOT_RD ≫= λ srdp,
      read_rd srdp ≫= λ srd,
      find_lock_granule (apt_pa srd) GRANULE_STATE_APT ≫= λ g_sapt,
      match g_sapt with
      | None => close_buf srdp g_srd
      | Some g_sapt =>
          map_assert g_sapt SLOT_APT ≫= λ saptp,
          read_apt saptp ≫= λ sapt,
          lift (find_slave_region sapt region_id) ≫= λ found_idx,
          match found_idx with
          | None => close_buf saptp g_sapt
          | Some found_idx =>
              lift (aget (slave_memory sapt) found_idx) ≫= λ sm,
              lift (retire_slave sapt found_idx) ≫= λ sapt,
              write_page saptp (PApt sapt) ≫= λ _,
              close_buf saptp g_sapt ≫= λ _,
              for_pages (s_ipa_start sm) (s_map_size sm) (unmap_ipa_from_rd srd)
          end ≫= λ _,
          close_buf srdp g_srd
      end
  end.

(** The master's side, under the locks: the realm whose share was dropped, or the error. *)
Definition csm_revoke_share (mapt : apt) (region_id slave_id : Z) : M state (option Z) :=
  lift (apt_find_master_by_region_id mapt region_id) ≫= λ midx,
  if midx <? 0 then mret None
  else
    lift (aget (master_memory mapt) midx) ≫= λ m,
    lift (apt_find_master_share_slot m slave_id) ≫= λ share_slot,
    if share_slot <? 0 then mret None
    else
      lift (aget (shares m) share_slot) ≫= λ sh,
      lift (drop_share m share_slot) ≫= λ m,
      lift (set_master mapt midx m) ≫= λ mapt,
      write_page SLOT_APT (PApt mapt) ≫= λ _, mret (Some (slave_rd_pa sh)).

Definition handle_rsi_csm_revoke (r : rec) (rec_exit : rmi_rec_exit) (res : rsi_result)
  : M state (rmi_rec_exit * rsi_result) :=
  lift (aget (regs r) 1) ≫= λ reg1,
  let sharing_id := u32 reg1 in
  let region_id := apt_sharing_region_id sharing_id in
  let master_id := apt_sharing_master_id sharing_id in
  let slave_id := apt_sharing_slave_id sharing_id in
  lift (granule_addr (ri_g_rd r)) ≫= λ master_rd_pa,
  let res := set_action UPDATE_REC_RETURN_TO_REALM res in
  if (sharing_id =? 0) || (region_id =? 0) || (master_id =? 0) || (slave_id =? 0)
  then mret (rsi_fail RSI_ERROR_INPUT rec_exit res)
  else
    zoom tags set_tags (realm_tag_get_by_rd master_rd_pa) ≫= λ caller_id,
    if negb (bool_decide (caller_id = Some master_id)) then mret (rsi_fail RSI_ERROR_INPUT rec_exit res)
    else
      open_rd (ri_g_rd r) ≫= λ mrd,
      find_lock_granule (apt_pa mrd) GRANULE_STATE_APT ≫= λ g_mapt,
      match g_mapt with
      | None => close_buf SLOT_RD (ri_g_rd r) ≫= λ _, mret (rsi_fail RSI_ERROR_STATE rec_exit res)
      | Some g_mapt =>
          map_assert g_mapt SLOT_APT ≫= λ maptp,
          read_apt maptp ≫= λ mapt,
          csm_revoke_share mapt region_id slave_id ≫= λ out,
          close_buf maptp g_mapt ≫= λ _,
          close_buf SLOT_RD (ri_g_rd r) ≫= λ _,
          match out with
          | None => mret (rsi_fail RSI_ERROR_INPUT rec_exit res)
          | Some slave_rd_pa =>
              csm_revoke_slave slave_rd_pa region_id ≫= λ _,
              mret (rec_exit, set_res (set_x0 RSI_SUCCESS) (set_action UPDATE_REC_RETURN_TO_REALM res))
          end
      end.

(** * RSI_CSM_DESTROY *)

(** Under the locks: the region that was removed, or the error. *)
Definition csm_destroy_region (mapt : apt) (region_id : Z) : M state (master_mem + Z) :=
  lift (apt_find_master_by_region_id mapt region_id) ≫= λ midx,
  if midx <? 0 then mret (inr RSI_ERROR_INPUT)
  else
    lift (aget (master_memory mapt) midx) ≫= λ m,
    if negb (share_count m =? 0) then mret (inr RSI_ERROR_STATE)
    else
      lift (retire_master mapt midx) ≫= λ mapt,
      write_page SLOT_APT (PApt mapt) ≫= λ _, mret (inl m).

Definition handle_rsi_csm_destroy (r : rec) (rec_exit : rmi_rec_exit) (res : rsi_result)
  : M state (rmi_rec_exit * rsi_result) :=
  lift (aget (regs r) 1) ≫= λ reg1,
  let region_id := u8 (reg1 .& 255) in
  lift (granule_addr (ri_g_rd r)) ≫= λ master_rd_pa,
  let res := set_action UPDATE_REC_RETURN_TO_REALM res in
  if region_id =? 0 then mret (rsi_fail RSI_ERROR_INPUT rec_exit res)
  else
    open_rd (ri_g_rd r) ≫= λ mrd,
    find_lock_granule (apt_pa mrd) GRANULE_STATE_APT ≫= λ g_mapt,
    match g_mapt with
    | None => close_buf SLOT_RD (ri_g_rd r) ≫= λ _, mret (rsi_fail RSI_ERROR_STATE rec_exit res)
    | Some g_mapt =>
        map_assert g_mapt SLOT_APT ≫= λ maptp,
        read_apt maptp ≫= λ mapt,
        csm_destroy_region mapt region_id ≫= λ out,
        close_buf maptp g_mapt ≫= λ _,
        close_buf SLOT_RD (ri_g_rd r) ≫= λ _,
        match out with
        | inr code => mret (rsi_fail code rec_exit res)
        | inl m =>
            zoom csm_ids set_csm_ids (csm_region_id_remove region_id) ≫= λ _,
            mret (rsi_exit RMI_EXIT_CSM_REALM_REMOVE (m_ipa_start m) (m_map_size m) (set_x0 RSI_SUCCESS)
                    rec_exit res)
        end
    end.
End csm.
