(* ===== verification/CsmApt.v ===== *)
(** What the calls on shared memory do to a table of regions: the searches are exact, and
    adding and retiring a region changes that region and no other. *)
From S2P Require Import Prelude Types Apt Buffer Rsi Csm.

(** * The other kind of regions *)

(** The regions the realm uses as slave, and those it owns, are the same in both tables. *)
Definition same_slaves (a a' : apt) : Prop :=
  slave_memory a' = slave_memory a ∧ enabled_sr a' = enabled_sr a ∧
  slave_used_mask a' = slave_used_mask a ∧ slave_enabled_mask a' = slave_enabled_mask a.
Definition same_masters (a a' : apt) : Prop :=
  master_memory a' = master_memory a ∧ enabled_mr a' = enabled_mr a ∧
  master_used_mask a' = master_used_mask a ∧ master_enabled_mask a' = master_enabled_mask a.

Lemma testbit_below mask j n : 0 <= mask < 2 ^ n → 0 <= n → Z.testbit mask j = true → j < n.
Proof.
  intros Hm Hn Hb. destruct (Z.lt_ge_cases j n) as [|Hge]; [done|].
  rewrite <- (Z.mod_small mask (2 ^ n)), Z.mod_pow2_bits_high in Hb by lia. done.
Qed.

(** * Searches *)

(** The first used region that passes a test. *)
Lemma used_search {A} mask (l : list A) (f : A → bool) :
  length l = 20%nat →
  ∃ o, first_index 20 0 (λ i, if mask_bit mask i then aget l i ≫= λ m, Ok (f m) else Ok false) = Ok o ∧
    match o with
    | Some i => 0 <= i < 20 ∧ apt_idx_in_range i && mask_bit mask i = true ∧
        ∃ m, l !! Z.to_nat i = Some m ∧ f m = true
    | None => ∀ i m, 0 <= i < 20 → apt_idx_in_range i && mask_bit mask i = true →
        l !! Z.to_nat i = Some m → f m = false
    end.
Proof.
  intros Hlen. set (g := λ i, if mask_bit mask i then _ else _).
  assert (Hg : ∀ k, 0 <= k < 20 → ∃ m, l !! Z.to_nat k = Some m ∧
    g k = Ok (apt_idx_in_range k && mask_bit mask k && f m)).
  { intros k Hk. destruct (aget_in_range l k) as (m & Hget & Hm); [lia|]. exists m. split; [done|].
    unfold g. rewrite (proj2 (in_range_iff k ltac:(lia))) by lia. rewrite Hget. by destruct (mask_bit mask k). }
  destruct (first_index_spec 20 0 g) as (o & Hrun & Ho).
  { intros k Hk. destruct (Hg k ltac:(lia)) as (m & _ & ->). by eexists. }
  exists o. split; [done|]. destruct o as [i|].
  - destruct Ho as (Hi & Ht & _). destruct (Hg i ltac:(lia)) as (m & Hm & Hgi). rewrite Ht in Hgi.
    injection Hgi as [Hu Hfm]%eq_sym%andb_true_iff. split; [lia|]. split; [done|]. by exists m.
  - intros i m Hi Hu Hm. destruct (Hg i Hi) as (m' & Hm' & Hgi). rewrite Hm in Hm'. injection Hm' as <-.
    rewrite (Ho i ltac:(lia)), Hu in Hgi. by injection Hgi as <-.
Qed.

Lemma find_slave_region_spec a region_id :
  apt_inv a → ∃ o, find_slave_region a region_id = Ok o ∧
    match o with
    | Some i => 0 <= i < 20 ∧ apt_slave_used a i = true ∧
        ∃ m, slave_memory a !! Z.to_nat i = Some m ∧ s_region_ID m = region_id
    | None => ∀ i m, 0 <= i < 20 → apt_slave_used a i = true → slave_memory a !! Z.to_nat i = Some m →
        s_region_ID m ≠ region_id
    end.
Proof.
  intros Ha. destruct (used_search (slave_used_mask a) (slave_memory a) (λ m, s_region_ID m =? region_id)
    (ai_slaves _ Ha)) as (o & Hrun & Ho). exists o. split; [exact Hrun|]. destruct o as [i|].
  - destruct Ho as (Hi & Hu & m & Hm & Hid%Z.eqb_eq). split; [done|]. split; [done|]. by exists m.
  - intros i m Hi Hu Hm. by apply Z.eqb_neq, (Ho i).
Qed.

Lemma find_master_region_spec a region_id :
  apt_inv a → ∃ i, apt_find_master_by_region_id a region_id = Ok i ∧
    ((0 <= i < 20 ∧ apt_master_used a i = true ∧
      ∃ m, master_memory a !! Z.to_nat i = Some m ∧ m_region_ID m = region_id)
     ∨ i = -1 ∧ ∀ j m, 0 <= j < 20 → apt_master_used a j = true → master_memory a !! Z.to_nat j = Some m →
        m_region_ID m ≠ region_id).
Proof.
  intros Ha. destruct (used_search (master_used_mask a) (master_memory a) (λ m, m_region_ID m =? region_id)
    (ai_masters _ Ha)) as (o & Hrun & Ho). unfold apt_find_master_by_region_id.
  change (Z.to_nat MAX_MEM_REGIONS) with 20%nat. rewrite Hrun, result_bind_ok. eexists. split; [done|].
  destruct o as [i|]; cbn [or_minus1].
  - left. destruct Ho as (Hi & Hu & m & Hm & Hid%Z.eqb_eq). split; [done|]. split; [done|]. by exists m.
  - right. split; [done|]. intros i m Hi Hu Hm. by apply Z.eqb_neq, (Ho i).
Qed.

(** * Adding a region *)

Definition new_master (region_ID ipa_start map_size : Z) : master_mem :=
  {| m_region_ID := region_ID; m_ipa_start := ipa_start; m_map_size := map_size; share_count := 0;
     shares := replicate (Z.to_nat CSM_MAX_MASTER_SHARES) master_share_zero |}.

Lemma used_set mask r i : 0 <= r < 20 → 0 <= i →
  apt_idx_in_range i && mask_bit (mask .| BIT64 r) i = (apt_idx_in_range i && mask_bit mask i) || (i =? r).
Proof.
  intros Hr Hi. destruct (apt_idx_in_range i) eqn:Hri; cbn [andb orb].
  - apply in_range_iff in Hri; [|done]. rewrite !mask_bit_testbit by lia. apply testbit_set; lia.
  - destruct (Z.eqb_spec i r) as [->|]; [|done]. by rewrite (proj2 (in_range_iff r ltac:(lia))) in Hri.
Qed.

Lemma used_clear mask r i : 0 <= r < 20 → 0 <= i →
  apt_idx_in_range i && mask_bit (mask .& .~ BIT64 r) i = apt_idx_in_range i && mask_bit mask i && negb (i =? r).
Proof.
  intros Hr Hi. destruct (apt_idx_in_range i) eqn:Hri; cbn [andb]; [|done].
  apply in_range_iff in Hri; [|done]. rewrite !mask_bit_testbit by lia. apply testbit_clear; lia.
Qed.

(** The region is put where no region is used, and there is none only when all are. *)
Lemma add_master_spec a rid ipa sz :
  apt_inv a → ∃ r a', apt_add_master a rid ipa sz true = Ok (r, a') ∧ apt_inv a' ∧ same_slaves a a' ∧
    ((r = SIZE_MAX ∧ a' = a ∧ ∀ i, 0 <= i < 20 → apt_master_used a i = true)
     ∨ 0 <= r < 20 ∧ apt_master_used a r = false ∧
       master_memory a' = <[Z.to_nat r := new_master rid ipa sz]> (master_memory a) ∧
       ∀ i, 0 <= i → apt_master_used a' i = apt_master_used a i || (i =? r) ∧
                     apt_master_enabled a' i = apt_master_enabled a i || (i =? r)).
Proof.
  intros Ha. destruct (add_master_inv a rid ipa sz true Ha) as (r & a' & Hrun & Ha'). exists r, a'.
  split; [done|]. split; [done|]. revert Hrun. unfold apt_add_master.
  destruct (first_free_spec (master_used_mask a)) as (k & Hk & Hc). rewrite Hk, result_bind_ok.
  destruct Hc as [(Hk20 & Hfree & _)|[-> Hall]]; cycle 1.
  { rewrite Z.eqb_refl. intros [= <- <-]. split; [done|]. left. split; [done|]. split; [done|].
    intros i Hi. unfold apt_master_used. rewrite (proj2 (in_range_iff i ltac:(lia))), mask_bit_testbit by lia. by apply Hall. }
  rewrite SIZE_MAX_ne by done. pose proof (ai_masters _ Ha) as Hlen.
  change (Z.to_nat MAX_MEM_REGIONS) with 20%nat in Hlen. rewrite aset_ok, result_bind_ok by lia. cbv zeta.
  assert (Hen : Z.testbit (master_enabled_mask a) k = false).
  { destruct (Z.testbit (master_enabled_mask a) k) eqn:E; [|done]. by rewrite (ai_msub _ Ha k) in Hfree by (done || lia). }
  cbn [master_enabled_mask set_master_used_mask set_master_memory]. rewrite (mask_bit_testbit _ k), Hen by lia.
  cbn [negb andb]. unfold enable_push_master. cbn [enabled_mr master_enabled_mask set_master_used_mask set_master_memory].
  destruct (enable_push_spec _ _ (Z.to_nat k) (ai_mr _ Ha)) as (e & He & _); [lia|by rewrite Z2Nat.id by lia|].
  rewrite Z2Nat.id in He by lia. rewrite He, result_bind_ok. intros [= <- <-].
  split; [done|]. right. split; [done|].
  assert (Hu : apt_master_used a k = false).
  { unfold apt_master_used. by rewrite mask_bit_testbit, Hfree, andb_false_r by lia. }
  split; [done|]. split; [done|]. intros i Hi. split; by apply used_set.
Qed.

Definition new_slave (mst_ID region_ID mst_rd_pa ipa_start map_size : Z) : slave_mem :=
  {| master_ID := mst_ID; s_region_ID := region_ID; master_rd_pa := mst_rd_pa; s_ipa_start := ipa_start;
     s_map_size := map_size |}.

Lemma add_slave_spec a mid rid pa ipa sz :
  apt_inv a → ∃ r a', apt_add_slave a mid rid pa ipa sz true = Ok (r, a') ∧ apt_inv a' ∧ same_masters a a' ∧
    ((r = SIZE_MAX ∧ a' = a ∧ ∀ i, 0 <= i < 20 → apt_slave_used a i = true)
     ∨ 0 <= r < 20 ∧ apt_slave_used a r = false ∧
       slave_memory a' = <[Z.to_nat r := new_slave mid rid pa ipa sz]> (slave_memory a) ∧
       ∀ i, 0 <= i → apt_slave_used a' i = apt_slave_used a i || (i =? r) ∧
                     apt_slave_enabled a' i = apt_slave_enabled a i || (i =? r)).
Proof.
  intros Ha. destruct (add_slave_inv a mid rid pa ipa sz true Ha) as (r & a' & Hrun & Ha'). exists r, a'.
  split; [done|]. split; [done|]. revert Hrun. unfold apt_add_slave.
  destruct (first_free_spec (slave_used_mask a)) as (k & Hk & Hc). rewrite Hk, result_bind_ok.
  destruct Hc as [(Hk20 & Hfree & _)|[-> Hall]]; cycle 1.
  { rewrite Z.eqb_refl. intros [= <- <-]. split; [done|]. left. split; [done|]. split; [done|].
    intros i Hi. unfold apt_slave_used. rewrite (proj2 (in_range_iff i ltac:(lia))), mask_bit_testbit by lia. by apply Hall. }
  rewrite SIZE_MAX_ne by done. pose proof (ai_slaves _ Ha) as Hlen.
  change (Z.to_nat MAX_MEM_REGIONS) with 20%nat in Hlen. rewrite aset_ok, result_bind_ok by lia. cbv zeta.
  assert (Hen : Z.testbit (slave_enabled_mask a) k = false).
  { destruct (Z.testbit (slave_enabled_mask a) k) eqn:E; [|done]. by rewrite (ai_ssub _ Ha k) in Hfree by (done || lia). }
  cbn [slave_enabled_mask set_slave_used_mask set_slave_memory]. rewrite (mask_bit_testbit _ k), Hen by lia.
  cbn [negb andb]. unfold enable_push_slave. cbn [enabled_sr slave_enabled_mask set_slave_used_mask set_slave_memory].
  destruct (enable_push_spec _ _ (Z.to_nat k) (ai_sr _ Ha)) as (e & He & _); [lia|by rewrite Z2Nat.id by lia|].
  rewrite Z2Nat.id in He by lia. rewrite He, result_bind_ok. intros [= <- <-].
  split; [done|]. right. split; [done|].
  assert (Hu : apt_slave_used a k = false).
  { unfold apt_slave_used. by rewrite mask_bit_testbit, Hfree, andb_false_r by lia. }
  split; [done|]. split; [done|]. intros i Hi. split; by apply used_set.
Qed.

(** * Retiring a region *)

Lemma retire_slave_spec a i :
  apt_inv a → 0 <= i < 20 → ∃ a', retire_slave a i = Ok a' ∧ apt_inv a' ∧ same_masters a a' ∧
    slave_memory a' = slave_memory a ∧
    ∀ j, 0 <= j → apt_slave_used a' j = apt_slave_used a j && negb (j =? i) ∧
                  apt_slave_enabled a' j = apt_slave_enabled a j && negb (j =? i).
Proof.
  intros Ha Hi. destruct (disable_slave_spec a i Ha ltac:(lia)) as (a1 & Hrun & Ha1 & Hsm & Hsu & Hen & _).
  assert (Hm : same_masters a a1).
  { revert Hrun. unfold apt_disable_slave_idx, disable_swap_pop_slave.
    destruct (negb (apt_idx_in_range i)); [by intros [= _ <-]|]. destruct (negb (mask_bit _ i)); [by intros [= _ <-]|].
    intros ([] & (p & _ & [= <-])%result_bind_inv & [= _ <-])%result_bind_inv. done. }
  unfold retire_slave. rewrite Hrun, result_bind_ok. eexists. split; [done|].
  assert (Hu : ∀ j, 0 <= j → apt_slave_used (set_slave_used_mask (slave_used_mask a1 .& .~ BIT64 i) a1) j
    = apt_slave_used a j && negb (j =? i)).
  { intros j Hj. unfold apt_slave_used. cbn [slave_used_mask set_slave_used_mask]. rewrite <- Hsu. by apply used_clear. }
  split; [|split; [done|]]; [|by split; [|intros j Hj; split; [apply Hu|apply Hen]]].
  split; try apply Ha1; cbn [slave_used_mask set_slave_used_mask slave_enabled_mask].
  - apply mask_range_clear, Ha1.
  - intros j Hj Hb. pose proof (ei_mask _ _ (ai_sr _ Ha1)) as Hr. change MAX_MEM_REGIONS with 20 in Hr.
    assert (Hj20 : j < 20) by (eapply testbit_below; [..|exact Hb]; lia).
    specialize (Hen j Hj). unfold apt_slave_enabled in Hen. rewrite (proj2 (in_range_iff j Hj)) in Hen by lia.
    rewrite !mask_bit_testbit in Hen by lia. rewrite Hb in Hen. cbn [andb] in Hen.
    rewrite testbit_clear, (ai_ssub _ Ha1 j) by (done || lia). by apply eq_sym, andb_true_iff in Hen as [_ ->].
Qed.

Lemma retire_master_spec a i :
  apt_inv a → 0 <= i < 20 → ∃ a', retire_master a i = Ok a' ∧ apt_inv a' ∧ same_slaves a a' ∧
    master_memory a' = <[Z.to_nat i := master_mem_zero]> (master_memory a) ∧
    ∀ j, 0 <= j → apt_master_used a' j = apt_master_used a j && negb (j =? i) ∧
                  apt_master_enabled a' j = apt_master_enabled a j && negb (j =? i).
Proof.
  intros Ha Hi. destruct (disable_master_spec a i Ha ltac:(lia)) as (a1 & Hrun & Ha1 & Hsm & Hsu & Hen & _).
  assert (Hm : same_slaves a a1).
  { revert Hrun. unfold apt_disable_master_idx, disable_swap_pop_master.
    destruct (negb (apt_idx_in_range i)); [by intros [= _ <-]|]. destruct (negb (mask_bit _ i)); [by intros [= _ <-]|].
    intros ([] & (p & _ & [= <-])%result_bind_inv & [= _ <-])%result_bind_inv. done. }
  unfold retire_master. rewrite Hrun, result_bind_ok. cbv zeta.
  pose proof (ai_masters _ Ha1) as Hlen. change (Z.to_nat MAX_MEM_REGIONS) with 20%nat in Hlen.
  cbn [master_memory set_master_used_mask]. rewrite aset_ok, result_bind_ok by lia. eexists. split; [done|].
  rewrite Hsm. set (a2 := set_master_memory _ _).
  assert (Hu : ∀ j, 0 <= j → apt_master_used a2 j = apt_master_used a j && negb (j =? i)).
  { intros j Hj. unfold apt_master_used, a2. cbn [master_used_mask set_master_used_mask set_master_memory].
    rewrite <- Hsu. by apply used_clear. }
  split; [|split; [done|]]; [|by split; [|intros j Hj; split; [apply Hu|apply Hen]]].
  split; try apply Ha1; cbn [a2 master_used_mask set_master_used_mask set_master_memory master_enabled_mask master_memory].
  - rewrite length_insert. apply Ha.
  - apply Forall_insert; [apply Ha|]. split; [done|]. split; [done|]. constructor.
  - apply mask_range_clear, Ha1.
  - intros j Hj Hb. pose proof (ei_mask _ _ (ai_mr _ Ha1)) as Hr. change MAX_MEM_REGIONS with 20 in Hr.
    assert (Hj20 : j < 20) by (eapply testbit_below; [..|exact Hb]; lia).
    specialize (Hen j Hj). unfold apt_master_enabled in Hen. rewrite (proj2 (in_range_iff j Hj)) in Hen by lia.
    rewrite !mask_bit_testbit in Hen by lia. rewrite Hb in Hen. cbn [andb] in Hen.
    rewrite testbit_clear, (ai_msub _ Ha1 j) by (done || lia). by apply eq_sym, andb_true_iff in Hen as [_ ->].
Qed.

(** * Shares *)

(** The shares of a region in use. *)
Definition used_shares (m : master_mem) : list master_share := List.filter in_use (shares m).

Lemma share_slot_exact m sl :
  master_ok m → ∃ k, apt_find_master_share_slot m sl = Ok k ∧
    ((0 <= k < 3 ∧ ∃ sh, shares m !! Z.to_nat k = Some sh ∧ in_use sh = true ∧ slave_ID sh = sl)
     ∨ k = -1 ∧ sl ∉ slave_ID <$> used_shares m).
Proof.
  intros Hm. destruct (share_slot_spec m sl Hm) as (k & Hk & Hc). exists k. split; [done|].
  destruct Hc as [Hk0|Hc]; [|by right]. left. revert Hk. unfold apt_find_master_share_slot.
  destruct (first_index_spec (Z.to_nat CSM_MAX_MASTER_SHARES) 0 (λ i,
    aget (shares m) i ≫= λ sh, Ok (in_use sh && (slave_ID sh =? sl)))) as (o & Hrun & Ho).
  { intros i Hi. destruct (share_test_total m (λ sh, in_use sh && (slave_ID sh =? sl)) Hm i Hi) as (sh & _ & H). eauto. }
  rewrite Hrun, result_bind_ok. intros [= <-]. destruct o as [i|]; cbn [or_minus1] in *; [|lia].
  destruct Ho as (Hi & Ht & _). change (Z.of_nat (Z.to_nat CSM_MAX_MASTER_SHARES)) with 3 in Hi. split; [lia|].
  destruct (share_test_total m (λ sh, in_use sh && (slave_ID sh =? sl)) Hm i Hi) as (sh & Hsh & Hget).
  rewrite Ht in Hget. injection Hget as [Hu Hid%Z.eqb_eq]%eq_sym%andb_true_iff. by exists sh.
Qed.

Lemma drop_share_spec m k sh :
  master_ok m → 0 <= k < 3 → shares m !! Z.to_nat k = Some sh → in_use sh = true →
  ∃ m', drop_share m k = Ok m' ∧ master_ok m' ∧ used_shares m ≡ₚ sh :: used_shares m' ∧
    m_region_ID m' = m_region_ID m ∧ m_ipa_start m' = m_ipa_start m ∧ m_map_size m' = m_map_size m.
Proof.
  intros (Hl & Hcnt & Hnd) Hk Hsh Hu. change (Z.to_nat CSM_MAX_MASTER_SHARES) with 3%nat in Hl.
  unfold drop_share. rewrite (aget_lookup _ k sh), result_bind_ok by (done || lia).
  rewrite aset_ok, result_bind_ok by lia. eexists. split; [done|]. set (new := Build_master_share _ _ _ false).
  assert (Hp : used_shares m ≡ₚ sh :: List.filter in_use (<[Z.to_nat k := new]> (shares m)))
    by (by apply filter_insert_del).
  split; [|done]. unfold used_shares in Hp. rewrite Hp in Hcnt, Hnd. cbn [length] in Hcnt.
  rewrite fmap_cons in Hnd. apply NoDup_cons in Hnd as [_ Hnd].
  pose proof (List.filter_length_le in_use (<[Z.to_nat k := new]> (shares m))) as Hle. rewrite length_insert in Hle.
  split; [by cbn [shares]; rewrite length_insert|]. split; [|done]. cbn [share_count shares]. unfold u8.
  rewrite Hcnt, Z.mod_small by lia. lia.
Qed.

Lemma set_master_spec a i m m' :
  apt_inv a → 0 <= i → master_memory a !! Z.to_nat i = Some m → master_ok m' →
  ∃ a', set_master a i m' = Ok a' ∧ apt_inv a' ∧ same_slaves a a' ∧
    a' = set_master_memory (<[Z.to_nat i := m']> (master_memory a)) a.
Proof.
  intros Ha Hi Hm Hm'. pose proof (lookup_lt_Some _ _ _ Hm) as Hlt. unfold set_master.
  rewrite aset_ok, result_bind_ok by lia. eexists. split; [done|]. split; [|done].
  split; try apply Ha; cbn [master_memory set_master_memory]; [rewrite length_insert; apply Ha|].
  apply Forall_insert; [apply Ha|done].
Qed.

(** A share is added unless the slave has one already or all three are taken. *)
Lemma add_share_spec a idx m sl pa perm :
  apt_inv a → 0 <= idx < 20 → apt_master_used a idx = true → master_memory a !! Z.to_nat idx = Some m →
  (apt_master_add_share a idx sl pa perm = Ok (false, a) ∧
   (sl ∈ slave_ID <$> used_shares m ∨ length (used_shares m) = 3%nat))
  ∨ ∃ m', apt_master_add_share a idx sl pa perm
          = Ok (true, set_master_memory (<[Z.to_nat idx := m']> (master_memory a)) a) ∧
      apt_inv (set_master_memory (<[Z.to_nat idx := m']> (master_memory a)) a) ∧ master_ok m' ∧
      used_shares m' ≡ₚ {| slave_ID := sl; slave_rd_pa := pa; permission := perm; in_use := true |} :: used_shares m ∧
      m_region_ID m' = m_region_ID m ∧ m_ipa_start m' = m_ipa_start m ∧ m_map_size m' = m_map_size m.
Proof.
  intros Ha Hidx Hu Hm. pose proof (lookup_lt_Some _ _ _ Hm) as Hlt.
  unfold apt_master_used in Hu. apply andb_true_iff in Hu as [Hr Hu].
  pose proof (Forall_lookup_1 _ _ _ _ (ai_master_ok _ Ha) Hm) as Hok.
  unfold apt_master_add_share. rewrite Hr. cbn [negb]. unfold mask_bit in Hu. apply negb_true_iff in Hu. rewrite Hu.
  rewrite (aget_lookup _ idx m), result_bind_ok by (done || lia).
  destruct (share_slot_exact m sl Hok) as (k & Hk & [(Hk3 & sh & Hsh & Hin & <-)|[-> Hfresh]]); rewrite Hk, result_bind_ok.
  { rewrite (proj2 (Z.leb_le 0 k)) by lia. left. split; [done|]. left. apply list_elem_of_fmap_2.
    apply elem_of_filter_list. split; [by eapply list_elem_of_lookup_2|done]. }
  cbn [Z.leb Z.compare]. set (new := Build_master_share sl pa perm true).
  destruct (share_insert m new Hok Hfresh eq_refl) as (o & Ho & Hins). rewrite Ho, result_bind_ok.
  destruct o as [i|]; cycle 1.
  { left. split; [done|]. right. destruct Hok as (_ & Hcnt & _). rewrite Hins in Hcnt.
    change CSM_MAX_MASTER_SHARES with 3 in Hcnt. unfold used_shares. lia. }
  destruct Hins as (shs & Hset & Hok'). rewrite Hset, result_bind_ok, aset_ok, result_bind_ok by lia. right.
  eexists. split; [done|]. split; [|split; [done|split; [|done]]].
  - edestruct (set_master_spec a idx m) as (a' & _ & Ha' & _ & Hs); [done|lia|done|exact Hok'|by rewrite <- Hs].
  - destruct (first_index_spec (Z.to_nat CSM_MAX_MASTER_SHARES) 0 (λ i,
      aget (shares m) i ≫= λ sh, Ok (negb (in_use sh)))) as (o & Hrun & Hspec).
    { intros j Hj. destruct (share_test_total m (λ sh, negb (in_use sh)) Hok j Hj) as (x & _ & H). eauto. }
    rewrite Ho in Hrun. injection Hrun as <-. destruct Hspec as (Hi & Ht & _).
    destruct (share_test_total m (λ sh, negb (in_use sh)) Hok i Hi) as (old & Hold & Hget). rewrite Ht in Hget.
    injection Hget as Hfree%eq_sym%negb_true_iff. pose proof (lookup_lt_Some _ _ _ Hold).
    rewrite aset_ok in Hset by lia. injection Hset as <-. unfold used_shares. cbn [shares].
    by rewrite (filter_insert_new in_use _ _ new _ Hold Hfree eq_refl).
Qed.
