(* ===== verification/CsmSpec.v ===== *)
(** The calls on shared memory that change only the caller's table of regions: creating,
    sharing and destroying a region. *)
From S2P Require Import Prelude Types Granule Platform GranuleFind S2tte S2tt Apt RealmTag CsmId Measurement Buffer Delegate Walk Exec Realm Rtt RttTree RttFold RttCreate Data DataCreate DataDestroy CsmPropagate Rsi Csm CsmApt.

(** The table of regions in granule [ga] is [a]. *)
Definition set_apt (ga : Z) (a : apt) (s : state) : state := set_mem (<[ga := PApt a]> (mem s)) s.

Lemma zoom_run {S T A} (get : S → T) (set : T → S → S) (m : M T A) s a t :
  m (get s) = Ok (a, t) → zoom get set m s = Ok (a, set t s).
Proof. intros Hm. unfold zoom. by rewrite Hm. Qed.

Lemma set_tags_id s : set_tags (tags s) s = s.
Proof. by destruct s. Qed.
Lemma set_csm_ids_id s : set_csm_ids (csm_ids s) s = s.
Proof. by destruct s. Qed.

Section spec.
Context {P : Platform} {H : Machine} {CF : Config} {L : PlatformLaws P} {HL : MachineLaws P H}.

Lemma realm_rd_addr s rd_addr g_rd r T : realm_at s rd_addr g_rd r T → granule_addr g_rd = Ok rd_addr.
Proof using L.
  intros Hra. pose proof (lockable_find _ _ _ _ (ra_lock _ _ _ _ _ Hra)) as Hf.
  by apply find_granule_Some in Hf as (_ & _ & ?); [|apply (ra_u64 _ _ _ _ _ Hra)].
Qed.

(** * Opening and closing the caller's table *)

(** What happens under the locks of the descriptor and the table of regions. *)
Lemma open_rd_run s rd_addr g_rd r T :
  realm_at s rd_addr g_rd r T →
  ∃ rcd tagd, granules s !! g_rd = Some (Gr false GRANULE_STATE_RD rcd tagd) ∧ gok GRANULE_STATE_RD rcd ∧
    open_rd g_rd s = Ok (r, set_slots {[SLOT_RD := g_rd]} (rd_locked s g_rd rcd tagd)).
Proof using L HL.
  intros Hra. destruct (realm_facts _ _ _ _ _ Hra) as (rcd & tagd & p & Hg & Hok & Hadr & Hm & Hp & _).
  exists rcd, tagd. split; [done|]. split; [done|]. unfold open_rd.
  erewrite bind_run; [|eapply granule_lock_run; [exact Hg|exact Hok|reflexivity]]. cbv beta.
  pose proof (rd_open _ _ _ _ (ra_core _ _ _ _ _ Hra) rcd tagd p (λ _, mret) Hadr Hm Hp) as Ho.
  etransitivity; [|exact Ho]. unfold mbind, M_bind. destruct (map_assert g_rd SLOT_RD _) as [[x y]|]; [|done].
  by destruct (read_rd x y) as [[]|].
Qed.

(** The same, with the values of the descriptor's granule known. *)
Lemma open_rd_keeps s rd_addr g_rd r T ga rcd tagd taga :
  realm_at s rd_addr g_rd r T → keeps g_rd rcd tagd ga taga s →
  open_rd g_rd s = Ok (r, set_slots {[SLOT_RD := g_rd]} (rd_locked s g_rd rcd tagd)).
Proof using L HL.
  intros Hra (Hg' & Hok' & _). destruct (open_rd_run _ _ _ _ _ Hra) as (rcd' & tagd' & Hg & Hok & Hrun).
  rewrite Hg in Hg'. apply (inj Some) in Hg'. by apply Gr_inj in Hg' as (_ & _ & <- & <-).
Qed.

Lemma csm_locked_rd s rd_addr g_rd r T ga a rcd tagd taga {B} (k : option Z → M state B) :
  realm_at s rd_addr g_rd r T → realm_apt s r ga a → keeps g_rd rcd tagd ga taga s →
  (find_lock_granule (apt_pa r) GRANULE_STATE_APT ≫= k) (set_slots {[SLOT_RD := g_rd]} (rd_locked s g_rd rcd tagd))
  = k (Some ga) (set_slots {[SLOT_RD := g_rd]} (put_granule ga (Gr true GRANULE_STATE_APT 0 taga) (rd_locked s g_rd rcd tagd))).
Proof using L.
  intros Hra Hapt (_ & _ & Hga & Hne & _).
  destruct (apt_granule _ _ _ _ _ _ _ Hra Hapt) as (_ & _ & _ & _ & _ & Hfa).
  erewrite bind_run; [|apply (find_lock_run _ _ ga _ 0 taga Hfa); [unfold rd_locked; st_norm; lk_solve|done|reflexivity]].
  done.
Qed.

(** Mapping and reading the table of regions. *)
Lemma map_apt_run s rd_addr g_rd r T ga a rcd tagd taga {B} (k : Z → apt → M state B) :
  realm_at s rd_addr g_rd r T → realm_apt s r ga a → keeps g_rd rcd tagd ga taga s →
  (map_assert ga SLOT_APT ≫= λ aptp, read_apt aptp ≫= k aptp)
    (set_slots {[SLOT_RD := g_rd]} (put_granule ga (Gr true GRANULE_STATE_APT 0 taga) (rd_locked s g_rd rcd tagd)))
  = k SLOT_APT a (csm_locked g_rd rcd tagd ga taga s).
Proof using L HL.
  intros Hra Hapt (_ & _ & Hga & Hne & Hs).
  destruct (apt_granule _ _ _ _ _ _ _ Hra Hapt) as (_ & _ & Hadra & _).
  destruct Hapt as (_ & _ & _ & Hpa). apply bind_Some in Hpa as (pa & Hma & Hpa).
  unfold rd_locked, csm_locked. rewrite <- insert_empty. st_norm. exec map_assert_run. unfold read_apt. assoc. exec read_page_run. exec mderef_run. done.
Qed.

(** The same without reading. *)
Lemma map_apt_only s rd_addr g_rd r T ga a rcd tagd taga :
  realm_at s rd_addr g_rd r T → realm_apt s r ga a → keeps g_rd rcd tagd ga taga s →
  map_assert ga SLOT_APT
    (set_slots {[SLOT_RD := g_rd]} (put_granule ga (Gr true GRANULE_STATE_APT 0 taga) (rd_locked s g_rd rcd tagd)))
  = Ok (SLOT_APT, csm_locked g_rd rcd tagd ga taga s).
Proof using L HL.
  intros Hra Hapt (_ & _ & Hga & Hne & Hs). destruct (apt_granule _ _ _ _ _ _ _ Hra Hapt) as (_ & _ & Hadra & _).
  unfold rd_locked, csm_locked. rewrite <- insert_empty. st_norm. erewrite map_assert_run by exec_side. done.
Qed.

Lemma write_apt_run s rd_addr g_rd r T ga a rcd tagd taga a' :
  realm_at s rd_addr g_rd r T → realm_apt s r ga a →
  write_page SLOT_APT (PApt a') (csm_locked g_rd rcd tagd ga taga s)
  = Ok ((), csm_locked g_rd rcd tagd ga taga (set_apt ga a' s)).
Proof using. clear L HL. intros Hra Hapt. unfold csm_locked. by erewrite write_page_run by (st_norm; lk_solve). Qed.

Lemma close_run g_rd rcd tagd ga taga s {B} (k : () → M state B) :
  keeps g_rd rcd tagd ga taga s →
  (close_buf SLOT_APT ga ≫= λ _, close_buf SLOT_RD g_rd ≫= k) (csm_locked g_rd rcd tagd ga taga s) = k () s.
Proof using.
  clear L HL. intros Hk. pose proof (csm_close _ _ _ _ _ _ Hk) as Hc. unfold close_buf.
  rewrite <- (bind_assoc (buffer_unmap SLOT_APT ≫= _)), (bind_run _ _ _ _ _ Hc). done.
Qed.

Lemma map_apt_some g slot {B} (k : Z → M state B) s : (map_apt (Some g) slot ≫= k) s = (map_assert g slot ≫= k) s.
Proof using. done. Qed.

(** The three steps in one, for a call that tests whether there is a table of regions
    ([map_assert]) and for one that does not ([map_apt]). *)
Lemma csm_session s s' rd_addr g_rd r T ga a rcd tagd taga {A} (body : apt → M state A) out :
  realm_at s rd_addr g_rd r T → realm_apt s r ga a → keeps g_rd rcd tagd ga taga s → keeps g_rd rcd tagd ga taga s' →
  body a (csm_locked g_rd rcd tagd ga taga s) = Ok (out, csm_locked g_rd rcd tagd ga taga s') →
  ∀ {B} (k : A → M state B),
  (open_rd g_rd ≫= λ rd,
   find_lock_granule (apt_pa rd) GRANULE_STATE_APT ≫= λ g_apt,
   map_apt g_apt SLOT_APT ≫= λ aptp,
   mderef g_apt ≫= λ g_apt,
   read_apt aptp ≫= λ a,
   body a ≫= λ out,
   close_buf aptp g_apt ≫= λ _,
   close_buf SLOT_RD g_rd ≫= λ _, k out) s = k out s'.
Proof using L HL.
  intros Hra Hapt Hk Hk' Hbody B k.
  run_step (open_rd_keeps _ _ _ _ _ _ _ _ _ Hra Hk).
  rewrite (csm_locked_rd _ _ _ _ _ _ _ _ _ _ _ Hra Hapt Hk). rewrite map_apt_some.
  etransitivity; [exact (map_apt_run s rd_addr g_rd r T ga a rcd tagd taga (λ aptp a, body a ≫= λ out,
    close_buf aptp ga ≫= λ _, close_buf SLOT_RD g_rd ≫= λ _, k out) Hra Hapt Hk)|].
  run_step Hbody. by apply close_run.
Qed.

Lemma csm_session_opt s s' rd_addr g_rd r T ga a rcd tagd taga {A B} (none : M state B) (body : apt → M state A) out
  (k : A → M state B) :
  realm_at s rd_addr g_rd r T → realm_apt s r ga a → keeps g_rd rcd tagd ga taga s → keeps g_rd rcd tagd ga taga s' →
  body a (csm_locked g_rd rcd tagd ga taga s) = Ok (out, csm_locked g_rd rcd tagd ga taga s') →
  (open_rd g_rd ≫= λ rd,
   find_lock_granule (apt_pa rd) GRANULE_STATE_APT ≫= λ g_apt,
   match g_apt with
   | None => none
   | Some g_apt =>
       map_assert g_apt SLOT_APT ≫= λ aptp,
       read_apt aptp ≫= λ a,
       body a ≫= λ out,
       close_buf aptp g_apt ≫= λ _,
       close_buf SLOT_RD g_rd ≫= λ _, k out
   end) s = k out s'.
Proof using L HL.
  intros Hra Hapt Hk Hk' Hbody.
  run_step (open_rd_keeps _ _ _ _ _ _ _ _ _ Hra Hk).
  rewrite (csm_locked_rd _ _ _ _ _ _ _ _ _ _ _ Hra Hapt Hk).
  etransitivity; [exact (map_apt_run s rd_addr g_rd r T ga a rcd tagd taga (λ aptp a, body a ≫= λ out,
    close_buf aptp ga ≫= λ _, close_buf SLOT_RD g_rd ≫= λ _, k out) Hra Hapt Hk)|].
  run_step Hbody. by apply close_run.
Qed.

(** * What the changes keep *)

Lemma keeps_same s s' g_rd rcd tagd ga taga :
  keeps g_rd rcd tagd ga taga s → granules s' = granules s → slots s' = slots s → keeps g_rd rcd tagd ga taga s'.
Proof using. clear L HL. intros (K1 & K2 & K3 & K4 & K5) Hg Hs. split_and!; congruence. Qed.

Lemma realm_apt_set s rd_addr g_rd r T ga a a' :
  realm_at s rd_addr g_rd r T → realm_apt s r ga a →
  realm_at (set_apt ga a' s) rd_addr g_rd r T ∧ realm_apt (set_apt ga a' s) r ga a'.
Proof using L.
  intros Hra Hapt. destruct (apt_granule _ _ _ _ _ _ _ Hra Hapt) as (taga & Hga & _ & Hne & HT & _). split.
  - by apply realm_at_write.
  - destruct Hapt as (Hu & Hnz & Hl & _). split; [done|]. split; [done|]. split; [done|].
    cbn [mem set_apt set_mem]. by rewrite lookup_insert_eq.
Qed.

Lemma realm_at_csm_ids s rd_addr g_rd r T c :
  realm_at s rd_addr g_rd r T → realm_at (set_csm_ids c s) rd_addr g_rd r T.
Proof using.
  clear L HL. intros Hra. eapply realm_at_frame; try done; [|apply (ra_quiet _ _ _ _ _ Hra)].
  by eapply rtt_inv_same; [apply (ra_inv _ _ _ _ _ Hra)|].
Qed.

(** * Creating a region *)

Definition region_args_ok (base size : Z) : bool :=
  negb ((size =? 0) || negb (GRANULE_ALIGNED base) || negb (GRANULE_ALIGNED size)).

(** The table [a'] is [a] with the new enabled region [m] at [idx]. *)
Definition master_added (a a' : apt) (idx : Z) (m : master_mem) : Prop :=
  0 <= idx < 20 ∧ apt_master_used a idx = false ∧ same_slaves a a' ∧
  master_memory a' = <[Z.to_nat idx := m]> (master_memory a) ∧
  ∀ i, 0 <= i → apt_master_used a' i = apt_master_used a i || (i =? idx) ∧
                apt_master_enabled a' i = apt_master_enabled a i || (i =? idx).

Lemma aget_reg (l : list Z) (i : nat) x : l !! i = Some x → aget l (Z.of_nat i) = Ok x.
Proof using. clear L HL. intros Hx. apply aget_lookup; [lia|by rewrite Nat2Z.id]. Qed.

(** What happens to the table [a] of the caller, in granule [ga], under the locks. *)
Definition create_outcome (s : state) (ga : Z) (a : apt) (base size : Z) (ex : rmi_rec_exit) (res : rsi_result)
  (out : rmi_rec_exit * rsi_result) (s' : state) : Prop :=
  (out = rsi_fail RSI_ERROR_INPUT ex res ∧ s' = s ∧ ∃ i, conflicts a base size (APT_REGION_SLAVE, i))
  ∨ (out = rsi_fail RSI_ERROR_STATE ex res ∧
     (length (ids (csm_ids s)) = 64%nat ∨ ∀ i, 0 <= i < 20 → apt_master_used a i = true) ∧
     ∃ c, s' = set_csm_ids c s ∧ csm_inv c ∧ ∀ x, x ∈ ids c ↔ x ∈ ids (csm_ids s))
  ∨ ∃ region_id idx a' c,
      out = rsi_exit RMI_EXIT_CSM_ADD_GRANULES base size
              (λ x, set_x2 idx (set_x1 region_id (set_x0 RSI_SUCCESS x))) ex res ∧
      s' = set_csm_ids c (set_apt ga a' s) ∧ csm_inv c ∧
      (region_id ∉ ids (csm_ids s)) ∧ ids c ≡ₚ (region_id :: ids (csm_ids s)) ∧
      apt_inv a' ∧ master_added a a' idx (new_master region_id base size) ∧
      ∀ i, 0 <= i → ¬ conflicts a base size (APT_REGION_SLAVE, i).

Lemma csm_create_region_run s g_rd ga rcd tagd taga a rd_addr base size ex res :
  apt_inv a → csm_inv (csm_ids s) →
  ∃ out s', csm_create_region a rd_addr base size ex res (csm_locked g_rd rcd tagd ga taga s)
    = Ok (out, csm_locked g_rd rcd tagd ga taga s') ∧ granules s' = granules s ∧ slots s' = slots s ∧
    create_outcome s ga a base size ex res out s'.
Proof using.
  clear L HL. intros Ha Hci. unfold csm_create_region. destruct (conflict_search a base size true Ha) as (o & Ho & Hc).
  run_step (lift_run _ _ _ Ho). destruct o as [[k i]|].
  { eexists _, s. split; [done|]. do 2 (split; [done|]). left. split; [done|]. split; [done|].
    destruct Hc as [Hc Hk]. destruct (Hk eq_refl) as (j & [= -> ->]). by exists j. }
  destruct (csm_region_id_assign_cases (csm_ids s) rd_addr Hci) as [(id & c & Hrun & Hc' & _ & Hid & Hids)|[Hrun Hfull]].
  2: { erewrite bind_run; [|apply zoom_run; exact Hrun]. eexists _, (set_csm_ids (csm_ids s) s). split; [done|].
    do 2 (split; [done|]). right; left. split; [done|]. split; [by left|]. by exists (csm_ids s). }
  erewrite bind_run; [|apply zoom_run; exact Hrun]. cbv beta.
  destruct (add_master_spec a id base size Ha) as (idx & a' & Hadd & Ha' & Hss & [(-> & -> & Hall)|(Hidx & Hu & Hmm & Hue)]).
  - run_step (lift_run _ _ _ Hadd). rewrite Z.eqb_refl.
    destruct (csm_region_id_remove_cases c id Hc') as (b & c' & Hrem & Hc'' & _ & Hx).
    erewrite bind_run; [|apply zoom_run; exact Hrem]. eexists _, (set_csm_ids c' s). split; [done|].
    do 2 (split; [done|]). right; left. split; [done|]. split; [by right|]. exists c'. split; [done|]. split; [done|].
    intros x. rewrite Hx, Hids, elem_of_cons. split; [|intros Hin; split; [by right|by intros ->]]. by intros [[->|?] ?].
  - run_step (lift_run _ _ _ Hadd). rewrite SIZE_MAX_ne by done.
    erewrite bind_run; [|apply (write_page_run _ _ ga); cbn; lk_solve].
    eexists _, (set_csm_ids c (set_apt ga a' s)). split; [done|]. do 2 (split; [done|]). right; right.
    exists id, idx, a', c. do 6 (split; [done|]). split; [by repeat (split; [done|])|]. intros i Hi. by apply Hc.
Qed.

(** RSI_CSM_CREATE always returns. It refuses a range that is empty or not aligned or that
    meets a region the realm uses as slave, and then changes nothing; it fails when all
    identifiers or all regions are in use, and then gives the identifier back; otherwise the
    realm has exactly one new region, enabled, with an identifier that no realm uses and
    without shares, and the host is asked to populate it. The realm stays well-formed. *)
Theorem csm_create_spec s rd_addr g_rd r T ga a rc base size ex res :
  realm_at s rd_addr g_rd r T → realm_apt s r ga a → apt_inv a → csm_inv (csm_ids s) →
  ri_g_rd rc = g_rd → regs rc !! 2%nat = Some base → regs rc !! 3%nat = Some size →
  let res0 := set_action UPDATE_REC_RETURN_TO_REALM res in
  ∃ out s', handle_rsi_csm_create rc ex res s = Ok (out, s') ∧
    (if region_args_ok base size then create_outcome s ga a base size ex res0 out s'
     else out = rsi_fail RSI_ERROR_INPUT ex res0 ∧ s' = s) ∧
    realm_at s' rd_addr g_rd r T ∧ ∃ a', realm_apt s' r ga a' ∧ apt_inv a'.
Proof using L HL.
  intros Hra Hapt Ha Hci Hrd Hbase Hsize res0. unfold handle_rsi_csm_create.
  run_step (lift_run _ _ _ (aget_reg _ _ _ Hbase)). run_step (lift_run _ _ _ (aget_reg _ _ _ Hsize)).
  rewrite Hrd. run_step (lift_run _ _ _ (realm_rd_addr _ _ _ _ _ Hra)). cbv zeta. fold res0. unfold region_args_ok.
  destruct (_ || _ || _) eqn:Hargs; cbn [negb].
  { eexists _, s. split; [done|]. split; [done|]. split; [done|]. by exists a. }
  destruct (keeps_exists _ _ _ _ _ _ _ Hra Hapt) as (rcd & tagd & taga & Hk).
  destruct (csm_create_region_run s g_rd ga rcd tagd taga a rd_addr base size ex res0 Ha Hci)
    as (out & s' & Hbody & Hg' & Hs' & Hcases). exists out, s'. split; [|split; [done|]].
  - eapply (csm_session s s' rd_addr g_rd r T ga a rcd tagd taga (λ a, csm_create_region a rd_addr base size ex res0) out
      Hra Hapt Hk); [|exact Hbody]. by apply (keeps_same s).
  - destruct Hcases as [(_ & -> & _)|[(_ & _ & c & -> & _)|(id & idx & a' & c & _ & -> & _ & _ & _ & Ha' & _)]].
    + split; [done|]. by exists a.
    + split; [by apply realm_at_csm_ids|]. by exists a.
    + destruct (realm_apt_set _ _ _ _ _ _ _ a' Hra Hapt) as [Hra' Hapt'].
      split; [by apply realm_at_csm_ids|]. by exists a'.
Qed.

(** * Sharing a region *)

(** The region of [a] with identifier [id], at [idx]. *)
Definition master_at (a : apt) (id idx : Z) (m : master_mem) : Prop :=
  0 <= idx < 20 ∧ apt_master_used a idx = true ∧ master_memory a !! Z.to_nat idx = Some m ∧ m_region_ID m = id.

Definition no_master (a : apt) (id : Z) : Prop := ∀ idx m, ¬ master_at a id idx m.

Lemma find_master_at a id :
  apt_inv a → ∃ i, apt_find_master_by_region_id a id = Ok i ∧
    ((∃ m, master_at a id i m) ∨ i = -1 ∧ no_master a id).
Proof using.
  clear L HL. intros Ha. destruct (find_master_region_spec a id Ha) as (i & Hrun & Hc). exists i. split; [done|].
  destruct Hc as [(Hi & Hu & m & Hm & Hid)|[-> Hno]].
  - left. by exists m.
  - right. split; [done|]. intros j m (Hj & Hu & Hm & Hid). by apply (Hno j m).
Qed.

(** The call of the realm with tag [master_id], for [slave_id], whose descriptor is at
    [slave_pa]. *)
Definition share_outcome (s : state) (ga : Z) (a : apt) (region_id master_id slave_id slave_pa perm : Z)
  (ex : rmi_rec_exit) (res : rsi_result) (out : rmi_rec_exit * rsi_result) (s' : state) : Prop :=
  (out = rsi_fail RSI_ERROR_INPUT ex res ∧ s' = s ∧ no_master a region_id)
  ∨ ∃ idx m, master_at a region_id idx m ∧
     ((out = rsi_fail RSI_ERROR_STATE ex res ∧ s' = s ∧
       (slave_id ∈ slave_ID <$> used_shares m ∨ length (used_shares m) = 3%nat))
      ∨ ∃ m', out = (ex, set_res (λ x, set_x2 idx (set_x1 (apt_make_sharing_id region_id master_id slave_id)
                                          (set_x0 RSI_SUCCESS x))) res) ∧
          s' = set_apt ga (set_master_memory (<[Z.to_nat idx := m']> (master_memory a)) a) s ∧
          apt_inv (set_master_memory (<[Z.to_nat idx := m']> (master_memory a)) a) ∧
          used_shares m' ≡ₚ ({| slave_ID := slave_id; slave_rd_pa := slave_pa; permission := perm;
                                in_use := true |} :: used_shares m) ∧
          m_region_ID m' = m_region_ID m ∧ m_ipa_start m' = m_ipa_start m ∧ m_map_size m' = m_map_size m).

Lemma csm_share_region_run s g_rd ga rcd tagd taga a region_id master_id slave_id slave_pa perm ex res :
  apt_inv a → let res0 := set_action UPDATE_REC_RETURN_TO_REALM res in
  ∃ out s', csm_share_region a region_id master_id slave_id slave_pa perm ex res0 (csm_locked g_rd rcd tagd ga taga s)
    = Ok (out, csm_locked g_rd rcd tagd ga taga s') ∧ granules s' = granules s ∧ slots s' = slots s ∧
    share_outcome s ga a region_id master_id slave_id slave_pa perm ex res0 out s'.
Proof using.
  clear L HL. intros Ha res0. unfold csm_share_region.
  destruct (find_master_at a region_id Ha) as (idx & Hrun & [(m & Hm)|[-> Hno]]); run_step (lift_run _ _ _ Hrun).
  2: { eexists _, s. split; [done|]. do 2 (split; [done|]). by left. }
  destruct (Hm) as (Hidx & Hu & Hmem & Hid). rewrite (proj2 (Z.ltb_ge idx 0)) by lia.
  destruct (add_share_spec a idx m slave_id slave_pa perm Ha Hidx Hu Hmem) as [[Hadd Hwhy]|(m' & Hadd & Ha' & _ & Hp & H1 & H2 & H3)];
    run_step (lift_run _ _ _ Hadd); cbn [negb].
  - eexists _, s. split; [done|]. do 2 (split; [done|]). right. exists idx, m. split; [done|]. by left.
  - erewrite bind_run; [|apply (write_page_run _ _ ga); cbn; lk_solve].
    eexists _, (set_apt ga _ s). split; [done|]. do 2 (split; [done|]). right. exists idx, m. split; [done|]. right. by exists m'.
Qed.

(** RSI_CSM_SHARE always returns. A caller without a tag gets an error of state; a zero
    identifier, a slave tag that no realm has, or a region that is not the caller's, an error
    of input; a region already shared with the slave or with three slaves, an error of state:
    each changes nothing. Otherwise the region has exactly one more share, for the realm that
    has the slave's tag, and the answer is the sharing identifier. *)
Theorem csm_share_spec s rd_addr g_rd r T ga a rc x y z ex res :
  realm_at s rd_addr g_rd r T → realm_apt s r ga a → apt_inv a → tag_inv (tags s) →
  ri_g_rd rc = g_rd → regs rc !! 1%nat = Some x → regs rc !! 2%nat = Some y → regs rc !! 3%nat = Some z →
  let res0 := set_action UPDATE_REC_RETURN_TO_REALM res in
  let region_id := OWNER_TAG_DECODE x in let slave_id := OWNER_TAG_DECODE y in
  ∃ out s', handle_rsi_csm_share rc ex res s = Ok (out, s') ∧
    ((out = rsi_fail RSI_ERROR_STATE ex res0 ∧ s' = s ∧ (∀ t, ¬ registered (tags s) rd_addr t))
     ∨ ∃ master_id, registered (tags s) rd_addr master_id ∧
         ((out = rsi_fail RSI_ERROR_INPUT ex res0 ∧ s' = s ∧
           (region_id = 0 ∨ slave_id = 0 ∨ ∀ pa, ¬ registered (tags s) pa slave_id))
          ∨ ∃ slave_pa, registered (tags s) slave_pa slave_id ∧ region_id ≠ 0 ∧
              share_outcome s ga a region_id master_id slave_id slave_pa (OWNER_TAG_DECODE z) ex res0 out s')) ∧
    realm_at s' rd_addr g_rd r T ∧ ∃ a', realm_apt s' r ga a' ∧ apt_inv a'.
Proof using L HL.
  intros Hra Hapt Ha Hti Hrd Hx Hy Hz res0 region_id slave_id. unfold handle_rsi_csm_share.
  run_step (lift_run _ _ _ (aget_reg _ _ _ Hx)). run_step (lift_run _ _ _ (aget_reg _ _ _ Hy)).
  run_step (lift_run _ _ _ (aget_reg _ _ _ Hz)). cbv zeta. fold res0 region_id slave_id.
  rewrite Hrd. run_step (lift_run _ _ _ (realm_rd_addr _ _ _ _ _ Hra)).
  assert (Hself : realm_at s rd_addr g_rd r T ∧ ∃ a', realm_apt s r ga a' ∧ apt_inv a') by (split; [done|by exists a]).
  destruct (realm_tag_get_by_rd_cases (tags s) rd_addr Hti) as (om & Hget & Hom).
  erewrite bind_run; [|apply zoom_run; exact Hget]. rewrite set_tags_id.
  destruct om as [master_id|]; cycle 1.
  { eexists _, s. split; [done|]. split; [|done]. left. split; [done|]. split; [done|]. intros t Ht%Hom. done. }
  assert (Hreg : registered (tags s) rd_addr master_id) by (by apply Hom).
  destruct (Z.eqb_spec master_id 0) as [->|_].
  { exfalso. destruct Hreg as (e & He & _ & Hz'). pose proof (ti_nz _ Hti) as Hnz. rewrite Forall_forall in Hnz.
    specialize (Hnz e He). simpl in Hnz. lia. }
  destruct (Z.eqb_spec region_id 0) as [Hr0|Hr0]; cbn [orb].
  { eexists _, s. split; [done|]. split; [|done]. right. exists master_id. split; [done|]. left. auto. }
  destruct (Z.eqb_spec slave_id 0) as [Hs0|Hs0].
  { eexists _, s. split; [done|]. split; [|done]. right. exists master_id. split; [done|]. left. auto. }
  destruct (realm_tag_rd_by_tag_cases (tags s) slave_id Hti) as (os & Hby & Hos).
  erewrite bind_run; [|apply zoom_run; exact Hby]. rewrite set_tags_id.
  destruct os as [slave_pa|]; cycle 1.
  { eexists _, s. split; [done|]. split; [|done]. right. exists master_id. split; [done|]. left. split; [done|]. split; [done|].
    right; right. intros pa Hpa%Hos. done. }
  destruct (keeps_exists _ _ _ _ _ _ _ Hra Hapt) as (rcd & tagd & taga & Hk).
  destruct (csm_share_region_run s g_rd ga rcd tagd taga a region_id master_id slave_id slave_pa (OWNER_TAG_DECODE z) ex res Ha)
    as (out & s' & Hbody & Hg' & Hs' & Hcases). fold res0 in Hbody, Hcases. exists out, s'. split; [|split].
  - eapply (csm_session s s' rd_addr g_rd r T ga a rcd tagd taga (λ a, csm_share_region a region_id master_id slave_id slave_pa
      (OWNER_TAG_DECODE z) ex res0) out Hra Hapt Hk); [|exact Hbody]. by apply (keeps_same s).
  - right. exists master_id. split; [done|]. right. exists slave_pa. split; [by apply Hos|]. done.
  - destruct Hcases as [(_ & -> & _)|(idx & m & _ & [(_ & -> & _)|(m' & _ & -> & Ha' & _)])]; [done|done|].
    set (a' := set_master_memory _ _) in *. destruct (realm_apt_set _ _ _ _ _ _ _ a' Hra Hapt) as [Hra' Hapt'].
    split; [done|]. by exists a'.
Qed.

(** * Destroying a region *)

(** The region at [idx] is gone from [a'], which is else as [a]. *)
Definition master_retired (a a' : apt) (idx : Z) : Prop :=
  same_slaves a a' ∧ master_memory a' = <[Z.to_nat idx := master_mem_zero]> (master_memory a) ∧
  ∀ j, 0 <= j → apt_master_used a' j = apt_master_used a j && negb (j =? idx) ∧
                apt_master_enabled a' j = apt_master_enabled a j && negb (j =? idx).

Lemma csm_destroy_region_run s g_rd ga rcd tagd taga a id :
  apt_inv a →
  ∃ out s', csm_destroy_region a id (csm_locked g_rd rcd tagd ga taga s) = Ok (out, csm_locked g_rd rcd tagd ga taga s') ∧
    match out with
    | inr code => s' = s ∧ ((code = RSI_ERROR_INPUT ∧ no_master a id)
                            ∨ code = RSI_ERROR_STATE ∧ ∃ idx m, master_at a id idx m ∧ used_shares m ≠ [])
    | inl m => ∃ idx a', master_at a id idx m ∧ used_shares m = [] ∧ s' = set_apt ga a' s ∧ apt_inv a' ∧ master_retired a a' idx
    end.
Proof using.
  clear L HL. intros Ha. unfold csm_destroy_region.
  destruct (find_master_at a id Ha) as (idx & Hrun & [(m & Hm)|[-> Hno]]); run_step (lift_run _ _ _ Hrun).
  2: { exists (inr RSI_ERROR_INPUT), s. split; [done|]. split; [done|]. by left. }
  destruct (Hm) as (Hidx & Hu & Hmem & Hid). rewrite (proj2 (Z.ltb_ge idx 0)) by lia.
  run_step (lift_run _ _ _ (aget_lookup _ idx m (proj1 Hidx) Hmem)).
  destruct (Forall_lookup_1 _ _ _ _ (ai_master_ok _ Ha) Hmem) as (_ & Hcnt & _). fold (used_shares m) in Hcnt.
  destruct (Z.eqb_spec (share_count m) 0) as [Hz|Hz]; cbn [negb]; cycle 1.
  { exists (inr RSI_ERROR_STATE), s. split; [done|]. split; [done|]. right. split; [done|]. exists idx, m. split; [done|].
    intros Hnil. rewrite Hnil in Hcnt. done. }
  destruct (retire_master_spec a idx Ha Hidx) as (a' & Hret & Ha' & Hss & Hmm & Hue). run_step (lift_run _ _ _ Hret).
  erewrite bind_run; [|apply (write_page_run _ _ ga); cbn; lk_solve].
  exists (inl m), (set_apt ga a' s). split; [done|]. exists idx, a'. split; [done|]. split; [|done].
  destruct (used_shares m); [done|]. cbn [length] in Hcnt. lia.
Qed.

(** RSI_CSM_DESTROY always returns. Identifier 0 and a region that is not the caller's are
    errors of input, a region that is still shared an error of state, and each changes
    nothing. Otherwise exactly that region is removed from the caller's table, exactly its
    identifier is released, and the host is told which addresses to reclaim. *)
Theorem csm_destroy_spec s rd_addr g_rd r T ga a rc x ex res :
  realm_at s rd_addr g_rd r T → realm_apt s r ga a → apt_inv a → csm_inv (csm_ids s) →
  ri_g_rd rc = g_rd → regs rc !! 1%nat = Some x →
  let res0 := set_action UPDATE_REC_RETURN_TO_REALM res in let id := OWNER_TAG_DECODE x in
  ∃ out s', handle_rsi_csm_destroy rc ex res s = Ok (out, s') ∧
    ((out = rsi_fail RSI_ERROR_INPUT ex res0 ∧ s' = s ∧ (id = 0 ∨ no_master a id))
     ∨ (out = rsi_fail RSI_ERROR_STATE ex res0 ∧ s' = s ∧ ∃ idx m, master_at a id idx m ∧ used_shares m ≠ [])
     ∨ ∃ idx m a' c, master_at a id idx m ∧ used_shares m = [] ∧
         out = rsi_exit RMI_EXIT_CSM_REALM_REMOVE (m_ipa_start m) (m_map_size m) (set_x0 RSI_SUCCESS) ex res0 ∧
         s' = set_csm_ids c (set_apt ga a' s) ∧ master_retired a a' idx ∧
         csm_inv c ∧ ∀ y, y ∈ ids c ↔ y ∈ ids (csm_ids s) ∧ y ≠ id) ∧
    realm_at s' rd_addr g_rd r T ∧ ∃ a', realm_apt s' r ga a' ∧ apt_inv a'.
Proof using L HL.
  intros Hra Hapt Ha Hci Hrd Hx res0 id. unfold handle_rsi_csm_destroy.
  run_step (lift_run _ _ _ (aget_reg _ _ _ Hx)). cbv zeta. fold res0. change (u8 (x .& 255)) with id.
  rewrite Hrd. run_step (lift_run _ _ _ (realm_rd_addr _ _ _ _ _ Hra)).
  assert (Hself : realm_at s rd_addr g_rd r T ∧ ∃ a', realm_apt s r ga a' ∧ apt_inv a') by (split; [done|by exists a]).
  destruct (Z.eqb_spec id 0) as [Hid0|Hid0].
  { eexists _, s. split; [done|]. split; [|done]. left. auto. }
  destruct (keeps_exists _ _ _ _ _ _ _ Hra Hapt) as (rcd & tagd & taga & Hk).
  destruct (csm_destroy_region_run s g_rd ga rcd tagd taga a id Ha) as (out & s1 & Hbody & Hcases).
  assert (Hk' : keeps g_rd rcd tagd ga taga s1).
  { destruct out; [destruct Hcases as (? & ? & _ & _ & -> & _)|destruct Hcases as [-> _]]; [|done]. by apply (keeps_same s). }
  rewrite (csm_session_opt s s1 rd_addr g_rd r T ga a rcd tagd taga _ (λ a, csm_destroy_region a id) out _ Hra Hapt Hk Hk' Hbody).
  destruct out as [m|code].
  - destruct Hcases as (idx & a' & Hm & Hnil & -> & Ha' & Hret).
    destruct (csm_region_id_remove_cases (csm_ids s) id Hci) as (b & c & Hrem & Hc & _ & Hy).
    erewrite bind_run; [|apply zoom_run; exact Hrem]. eexists _, _. split; [done|].
    destruct (realm_apt_set _ _ _ _ _ _ _ a' Hra Hapt) as [Hra' Hapt'].
    split; [|split; [by apply realm_at_csm_ids|by exists a']]. right; right. by exists idx, m, a', c.
  - destruct Hcases as [-> Hcode]. eexists _, s. split; [done|]. split; [|done].
    destruct Hcode as [[-> Hno]|[-> Hsh]]; [left|right; left]; auto.
Qed.
End spec.
