(* ===== verification/CsmUnmap.v ===== *)
(** Taking the pages of a region out of a realm: the loop over its pages removes every page
    entry of the range and nothing else, and the calls built on it, detaching and revoking. *)
From S2P Require Import Prelude Types Granule Platform GranuleFind S2tte S2tt Apt RealmTag CsmId Measurement Buffer Delegate Walk Exec Realm Rtt RttTree RttFold RttCreate Data DataCreate DataDestroy CsmPropagate Rsi Csm CsmApt CsmSpec.

Section unmap.
Context {P : Platform} {H : Machine} {CF : Config} {L : PlatformLaws P} {HL : MachineLaws P H}.

(** * The page entry of an address *)

(** The realm with tables [T] has a level 3 table for [ipa], where its entry is [e]. *)
Definition page_entry (s : state) (T : gmap Z (Z * Z)) (ipa e : Z) : Prop :=
  ∃ g b t, T !! g = Some (3, b) ∧ covers 3 b ipa ∧ table_of s g = Some t ∧
    t !! Z.to_nat (s2_addr_to_idx ipa 3) = Some e.

Lemma covers_lvl_fun i b c addr : -1 <= i <= 3 → covers_lvl i b addr → covers_lvl i c addr → b = c.
Proof using.
  clear L HL. intros Hi [[Hi0 [Hb Hba]]|(-> & -> & _)] [[Hi0' [Hc Hca]]|(Hi' & -> & _)]; try lia.
  pose proof (map_size_pos i Hi) as Hp. set (m := 512 * s2tte_map_size i) in *.
  apply Z.mod_divide in Hb as [x ->]; [|lia]. apply Z.mod_divide in Hc as [y ->]; [|lia]. f_equal. nia.
Qed.

(** The table above a table for [addr] is a table for [addr], with a table entry there. *)
Lemma parent_covers s s2_ctx T h j c addr :
  rtt_inv s s2_ctx T → T !! h = Some (j, c) → s2_starting_level s2_ctx < j → covers_lvl j c addr → 0 <= addr < 2 ^ 52 →
  ∃ g b t e, T !! g = Some (j - 1, b) ∧ covers_lvl (j - 1) b addr ∧ table_of s g = Some t ∧
    t !! Z.to_nat (s2_addr_to_idx addr (j - 1)) = Some e ∧ entry_is_table e = true.
Proof using.
  clear L HL. intros Hinv HTh Hj Hc Ha. pose proof (inv_wf _ _ _ Hinv) as Hwf.
  destruct (inv_parent _ _ _ Hinv h j c HTh Hj) as (g & b & t & idx & e & pa & HTg & Ht & He & Htab & Hpa & Hga).
  destruct (wf_table _ _ _ Hwf g (j - 1) b HTg) as ([Hlo Hhi] & _ & _ & t' & Ht' & Hlen).
  rewrite Ht in Ht'. injection Ht' as <-. pose proof (lookup_lt_Some _ _ _ He) as Hidx. rewrite Hlen in Hidx.
  destruct (wf_table _ _ _ Hwf h j c HTh) as ([_ Hj3] & _).
  destruct (wf_next _ _ _ Hwf g (j - 1) b t idx e HTg ltac:(lia) Ht He Htab) as (pa' & h' & Hpa' & Hga' & HTh').
  rewrite Hpa in Hpa'. injection Hpa' as <-. rewrite Hga in Hga'. injection Hga' as <-.
  rewrite HTh in HTh'. injection HTh' as Hj' ->. clear Hj'.
  pose proof (wf_start _ _ _ Hwf) as Hst. pose proof (min_starting_level_le s2_ctx) as Hmin.
  assert (Hm1 : -1 <= s2_starting_level s2_ctx).
  { unfold min_starting_level, S2TT_MIN_STARTING_LEVEL_LPA2, S2TT_MIN_STARTING_LEVEL in Hst. destruct (enable_lpa2 s2_ctx); lia. }
  assert (Hcov : covers j (b + Z.of_nat idx * s2tte_map_size (j - 1)) addr) by (destruct Hc as [[_ ?]|(? & _)]; [done|lia]).
  destruct Hcov as [_ Hcov]. pose proof (map_size_parent j ltac:(lia)) as Hpar. change S2TTES_PER_S2TT with 512 in Hpar.
  rewrite <- Hpar in Hcov. destruct (inv_base _ _ _ Hinv g (j - 1) b HTg) as [Hb0 Hbase].
  pose proof (map_size_pos (j - 1) ltac:(lia)) as Hp. set (m := s2tte_map_size (j - 1)) in *.
  assert (Hin : covers_lvl (j - 1) b addr ∧ s2_addr_to_idx addr (j - 1) = Z.of_nat idx).
  { destruct (Z.eqb_spec (j - 1) (-1)) as [Hj1|Hj1].
    - assert (Hb : b = 0).
      { rewrite Hj1 in HTg. assert (s2_starting_level s2_ctx = -1) as Hs by lia.
        destruct (inv_top _ _ _ Hinv g b) as (k & Hk & ->); [by rewrite Hs|].
        rewrite (wf_root _ _ _ Hwf k Hk), Hs in HTg. injection HTg as <-. change (s2tte_map_size (-1)) with (2 ^ 48) in *.
        assert (k = 0) by lia. subst k. lia. }
      subst b. split; [right; lia|]. unfold m in Hcov. rewrite Hj1 in *. destruct (idx_lm1 addr Ha) as (-> & _).
      symmetry. apply (Z.div_unique _ _ _ (addr - Z.of_nat idx * s2tte_map_size (-1))); lia.
    - assert (Hcg : covers (j - 1) b addr) by (split; [done|]; fold m; nia).
      split; [by left; split; [lia|]|]. destruct (covers_idx (j - 1) b addr ltac:(lia) ltac:(lia) Hcg) as [-> _]. fold m.
      symmetry. apply (Z.div_unique _ _ _ (addr - b - Z.of_nat idx * m)); lia. }
  destruct Hin as [Hin Hix]. exists g, b, t, e. rewrite Hix, Nat2Z.id. done.
Qed.

(** Below an entry that is not a table there is no table for the address. *)
Lemma no_table_below s s2_ctx T g i b t e addr :
  rtt_inv s s2_ctx T → T !! g = Some (i, b) → covers_lvl i b addr → 0 <= addr < 2 ^ 52 → table_of s g = Some t →
  t !! Z.to_nat (s2_addr_to_idx addr i) = Some e → entry_is_table e = false →
  ∀ n : nat, ∀ h c, T !! h = Some (i + 1 + Z.of_nat n, c) → ¬ covers_lvl (i + 1 + Z.of_nat n) c addr.
Proof using.
  clear L HL. intros Hinv HTg Hc Ha Ht He Hleaf. pose proof (inv_wf _ _ _ Hinv) as Hwf.
  destruct (wf_table _ _ _ Hwf g i b HTg) as ([Hlo Hhi] & _).
  assert (Hm1 : -1 <= i <= 3).
  { pose proof (wf_start _ _ _ Hwf) as Hst. unfold min_starting_level, S2TT_MIN_STARTING_LEVEL_LPA2, S2TT_MIN_STARTING_LEVEL in Hst.
    destruct (enable_lpa2 s2_ctx); lia. }
  induction n as [|n IH]; intros h c HTh Hch.
  - destruct (parent_covers _ _ _ _ _ _ addr Hinv HTh ltac:(lia) Hch Ha) as (g' & b' & t' & e' & HTg' & Hc' & Ht' & He' & Htab).
    replace (i + 1 + Z.of_nat 0 - 1) with i in * by lia.
    pose proof (covers_lvl_fun _ _ _ _ Hm1 Hc Hc') as <-. pose proof (inv_inj _ _ _ Hinv _ _ _ HTg HTg') as <-. congruence.
  - destruct (parent_covers _ _ _ _ _ _ addr Hinv HTh ltac:(lia) Hch Ha) as (g' & b' & t' & e' & HTg' & Hc' & _).
    replace (i + 1 + Z.of_nat (S n) - 1) with (i + 1 + Z.of_nat n) in * by lia. by apply (IH g' b').
Qed.

(** Only tables of the realm changed, and TLB entries were invalidated. *)
Definition tables_only (T : gmap Z (Z * Z)) (s s' : state) : Prop :=
  s' = set_tlbi (tlbi s') (set_mem (mem s') (set_granules (granules s') s)) ∧
  ∀ k, T !! k = None → granules s' !! k = granules s !! k ∧ mem s' !! k = mem s !! k.

Lemma tables_only_refl T s : tables_only T s s.
Proof using. clear L HL. split; [by destruct s|done]. Qed.

Lemma tables_only_trans T s1 s2 s3 : tables_only T s1 s2 → tables_only T s2 s3 → tables_only T s1 s3.
Proof using.
  clear L HL. intros [E1 H1] [E2 H2]. split; [rewrite E2 at 1; rewrite E1; by destruct s3|].
  intros k Hk. destruct (H1 k Hk), (H2 k Hk). split; congruence.
Qed.

Lemma tables_only_set T s g i b rc tag t l : T !! g = Some (i, b) → tables_only T s (set_rtt g rc tag t l s).
Proof using.
  clear L HL. intros HT. split; [by destruct s|]. intros k Hk. cbn [granules mem set_rtt].
  by rewrite !lookup_insert_ne by congruence.
Qed.

Lemma bind_cong' {S A B} (m : M S A) (k k' : A → M S B) s :
  (∀ a s', k a s' = k' a s') → (m ≫= k) s = (m ≫= k') s.
Proof using. clear L HL. intros Hk. unfold mbind, M_bind. by destruct (m s) as [[]|]. Qed.

(** * One page *)

Lemma same_page b x y :
  covers 3 b x → x mod 4096 = 0 → y mod 4096 = 0 → Z.to_nat ((x - b) / 4096) = Z.to_nat ((y - b) / 4096) → covers 3 b y → y = x.
Proof using.
  clear L HL. intros [Hb Hx] Hx4 Hy4 Heq [_ Hy]. change (512 * s2tte_map_size 3) with (512 * 4096) in *.
  assert (Hq : (x - b) / 4096 = (y - b) / 4096).
  { pose proof (Z.div_pos (x - b) 4096 ltac:(lia) ltac:(lia)). pose proof (Z.div_pos (y - b) 4096 ltac:(lia) ltac:(lia)). lia. }
  apply Z.mod_divide in Hb as [k ->]; [|lia]. apply Z.mod_divide in Hx4 as [u ->]; [|lia]. apply Z.mod_divide in Hy4 as [v ->]; [|lia].
  replace (u * 4096 - k * (512 * 4096)) with ((u - k * 512) * 4096) in Hq by lia.
  replace (v * 4096 - k * (512 * 4096)) with ((v - k * 512) * 4096) in Hq by lia.
  rewrite !Z.div_mul in Hq by lia. lia.
Qed.

Lemma page_entry_set s T g b rc tag t l ipa e' addr e s2_ctx :
  rtt_inv s s2_ctx T → T !! g = Some (3, b) → covers 3 b ipa → table_of s g = Some t → length t = 512%nat →
  0 <= ipa → 0 <= addr → ipa mod 4096 = 0 → addr mod 4096 = 0 →
  page_entry (set_rtt g rc tag (<[Z.to_nat (s2_addr_to_idx ipa 3) := e']> t) l s) T addr e ↔
  if decide (addr = ipa) then e = e' else page_entry s T addr e.
Proof using.
  clear L HL. intros Hinv HT Hc Ht Hlen Hi Ha Hi4 Ha4.
  destruct (covers_idx 3 b ipa ltac:(lia) Hi Hc) as [Hix Hir]. change (s2tte_map_size 3) with 4096 in *.
  assert (Hfun : ∀ h c, T !! h = Some (3, c) → covers 3 c ipa → h = g).
  { intros h c HTh Hch. assert (b = c) as <- by (eapply (covers_lvl_fun 3 _ _ ipa); [lia|left; by split; [lia|]..]).
    by eapply (inv_inj _ _ _ Hinv). }
  unfold page_entry. setoid_rewrite set_rtt_table. destruct (decide (addr = ipa)) as [->|Hne]; split.
  - intros (h & c & t' & HTh & Hch & Ht' & He). rewrite (Hfun _ _ HTh Hch), decide_True in Ht' by done.
    injection Ht' as <-. rewrite list_lookup_insert_eq in He by lia. by injection He.
  - intros ->. exists g, b, (<[Z.to_nat (s2_addr_to_idx ipa 3) := e']> t). rewrite decide_True by done.
    rewrite list_lookup_insert_eq by lia. done.
  - intros (h & c & t' & HTh & Hch & Ht' & He). exists h, c. destruct (decide (h = g)) as [->|]; [|by exists t'].
    injection Ht' as <-. exists t. rewrite HT in HTh. injection HTh as <-.
    destruct (covers_idx 3 b addr ltac:(lia) Ha Hch) as [Hax Har]. change (s2tte_map_size 3) with 4096 in *.
    rewrite list_lookup_insert_ne in He; [done|]. intros Heq. apply Hne.
    rewrite Hix, Hax in Heq. by apply (same_page b).
  - intros (h & c & t' & HTh & Hch & Ht' & He). exists h, c. destruct (decide (h = g)) as [->|]; [|by exists t'].
    rewrite Ht in Ht'. injection Ht' as <-. eexists. do 2 (split; [done|]). split; [done|].
    rewrite HT in HTh. injection HTh as <-. destruct (covers_idx 3 b addr ltac:(lia) Ha Hch) as [Hax Har].
    change (s2tte_map_size 3) with 4096 in *. rewrite list_lookup_insert_ne; [done|]. intros Heq. apply Hne.
    rewrite Hix, Hax in Heq. by apply (same_page b).
Qed.

(** Unmapping a page leaves its page entry, if it has one, without an address; every other
    page entry is as it was. *)
Lemma unmap_page_run s r T ipa :
  rtt_inv s (s2_ctx r) T → slots s !! SLOT_RTT = None → 0 <= ipa < 2 ^ ipa_bits (s2_ctx r) → ipa mod 4096 = 0 →
  ∃ s', unmap_ipa_from_rd r ipa s = Ok ((), s') ∧ rtt_inv s' (s2_ctx r) T ∧ tables_only T s s' ∧
    (∀ e, page_entry s' T ipa e → unmap_entry e = None) ∧
    ∀ addr e, 0 <= addr → addr mod 4096 = 0 → addr ≠ ipa → page_entry s' T addr e ↔ page_entry s T addr e.
Proof using L HL.
  intros Hinv Hsl Hipa Hal. pose proof (inv_wf _ _ _ Hinv) as Hwf.
  destruct (unmap_ipa_from_rd_run s r T ipa Hwf Hsl (inv_vmid _ _ _ Hinv) Hipa)
    as (g & i & b & rc & tag & p & t & e & HT & Hc & Hv & He & Hleaf & Hrun).
  assert (Htab : table_of s g = Some t) by (destruct Hv as [_ _ _ Hm Hp _]; unfold table_of; by rewrite Hm).
  assert (H52 : ipa < 2 ^ 52).
  { pose proof (wf_bits52 _ _ _ Hwf). assert (2 ^ ipa_bits (s2_ctx r) <= 2 ^ 52) by (apply Z.pow_le_mono_r; lia). lia. }
  destruct (Z.eqb_spec i 3) as [->|Hi]; cbn [negb] in Hrun; cycle 1.
  { exists s. split; [done|]. split; [done|]. split; [apply tables_only_refl|]. split; [|done].
    intros e' (h & c & t' & HTh & Hch & _). exfalso. destruct (inv_level _ _ _ Hinv _ _ _ HT).
    apply (no_table_below _ _ _ g i b t e ipa Hinv HT Hc ltac:(lia) Htab He (Hleaf ltac:(lia)) (Z.to_nat (2 - i)) h c);
      replace (i + 1 + Z.of_nat (Z.to_nat (2 - i))) with 3 by lia; [done|]. left. split; [lia|done]. }
  assert (Hc3 : covers 3 b ipa) by (destruct Hc as [[_ ?]|(? & _)]; [done|lia]).
  destruct (inv_typed _ _ _ Hinv g 3 b t _ e HT Htab He) as (ty & pa & Hm).
  destruct (unmap_entry_made _ _ _ _ Hm) as (Hue & _). pose proof (rv_len _ _ _ _ _ _ Hv) as Hlen.
  destruct (unmap_entry e) as [e'|] eqn:Hu; cycle 1.
  { exists s. split; [done|]. split; [done|]. split; [apply tables_only_refl|]. split; [|done].
    intros x (h & c & t' & HTh & Hch & Ht' & Hx).
    assert (b = c) as <- by (eapply (covers_lvl_fun 3 _ _ ipa); [lia|left; by split; [lia|]..]).
    pose proof (inv_inj _ _ _ Hinv _ _ _ HT HTh) as <-. rewrite Htab in Ht'. injection Ht' as <-. congruence. }
  destruct (is_data_type ty) eqn:Hty; [|done]. injection Hue as ->.
  pose proof (min_starting_level_le (s2_ctx r)) as Hmin.
  destruct (remove_refs _ _ _ _ _ _ _ _ _ _ _ _ _ Hinv HT Hv He Hm Hty ltac:(lia)) as (Hc1 & Hc2 & Hrc).
  rewrite (proj2 (Z.eqb_neq rc 0)) in Hrun by lia. eexists. split; [exact Hrun|].
  assert (Hm' : is_made (s2_ctx r) (removed_type ty) 0 3 (removed_entry ty)) by (apply removed_made; lia).
  split; [|split; [by eapply tables_only_set|split]].
  - eapply rtt_inv_set; [done|done|done|done|exact Hm|by intros ->|exact Hm'|by destruct ty|].
    rewrite Hc1, Hc2. simpl. lia.
  - intros x Hx. eapply page_entry_set in Hx; try done; try lia. rewrite decide_True in Hx by done. subst x. by destruct ty.
  - intros addr x Ha Ha4 Hne. rewrite page_entry_set; try done; try lia. by rewrite decide_False.
Qed.

(** * The pages of a region *)

(** The state after all pages of the range were unmapped: no page entry of the range maps a
    page, no other page entry changed, and only tables of the realm did. *)
Record unmapped (T : gmap Z (Z * Z)) (base size : Z) (s s' : state) : Prop := {
  um_tables : tables_only T s s';
  um_in ipa e : base <= ipa < base + size → ipa mod 4096 = 0 → page_entry s' T ipa e → unmap_entry e = None;
  um_out ipa e : 0 <= ipa → ipa mod 4096 = 0 → ¬ (base <= ipa < base + size) →
    page_entry s' T ipa e ↔ page_entry s T ipa e;
}.

Lemma pages_loop_run r T base n : ∀ fuel k s,
  rtt_inv s (s2_ctx r) T → slots s !! SLOT_RTT = None → 0 <= base → base mod 4096 = 0 →
  base + (Z.of_nat k + Z.of_nat n) * 4096 <= 2 ^ ipa_bits (s2_ctx r) → (n < fuel)%nat →
  ∃ s', pages_loop fuel (base + Z.of_nat k * 4096) (base + (Z.of_nat k + Z.of_nat n) * 4096) (unmap_ipa_from_rd r) s = Ok ((), s') ∧
    rtt_inv s' (s2_ctx r) T ∧ unmapped T (base + Z.of_nat k * 4096) (Z.of_nat n * 4096) s s'.
Proof using L HL.
  induction n as [|n IH]; intros fuel k s Hinv Hsl Hb Hal Hfit Hfuel.
  { exists s. destruct fuel; [lia|]. cbn [pages_loop]. rewrite Z.add_0_r, (proj2 (Z.ltb_ge _ _)) by lia.
    split; [done|]. split; [done|]. split; [apply tables_only_refl|lia|done]. }
  destruct fuel as [|fuel]; [lia|]. cbn [pages_loop]. rewrite (proj2 (Z.ltb_lt _ _)) by lia.
  destruct (unmap_page_run s r T (base + Z.of_nat k * 4096) Hinv Hsl ltac:(lia)) as (s1 & Hrun & Hinv1 & Hto1 & Hin1 & Hout1).
  { rewrite Z.mod_add by lia. done. }
  run_step Hrun. change GRANULE_SIZE with 4096.
  assert (Hs1 : slots s1 !! SLOT_RTT = None) by (destruct Hto1 as [-> _]; done).
  pose proof (wf_bits52 _ _ _ (inv_wf _ _ _ Hinv)) as Hbits.
  assert (2 ^ ipa_bits (s2_ctx r) <= 2 ^ 52) by (apply Z.pow_le_mono_r; lia).
  rewrite u64_small by (unfold is_u64; lia).
  replace (base + Z.of_nat k * 4096 + 4096) with (base + Z.of_nat (S k) * 4096) by lia.
  replace (Z.of_nat k + Z.of_nat (S n)) with (Z.of_nat (S k) + Z.of_nat n) in * by lia.
  destruct (IH fuel (S k) s1 Hinv1 Hs1 Hb Hal ltac:(lia) ltac:(lia)) as (s' & Hrun' & Hinv' & [Hto Hin Hout]).
  exists s'. split; [done|]. split; [done|]. split; [by eapply tables_only_trans| |].
  - intros ipa e Hr Hm He. destruct (decide (ipa = base + Z.of_nat k * 4096)) as [->|Hne].
    + apply Hin1. apply Hout; [lia|done|lia|done].
    + apply (Hin ipa); [|done|done]. apply Z.mod_divide in Hm as [x ->]; [|lia]. apply Z.mod_divide in Hal as [y ->]; [|lia]. lia.
  - intros ipa e Hp0 Hm Hr. rewrite Hout by (done || lia). apply Hout1; [done|done|lia].
Qed.

Lemma for_pages_run s r T base size :
  rtt_inv s (s2_ctx r) T → slots s !! SLOT_RTT = None → 0 <= base → base mod 4096 = 0 → 0 <= size → size mod 4096 = 0 →
  base + size <= 2 ^ ipa_bits (s2_ctx r) →
  ∃ s', for_pages base size (unmap_ipa_from_rd r) s = Ok ((), s') ∧ rtt_inv s' (s2_ctx r) T ∧ unmapped T base size s s'.
Proof using L HL.
  intros Hinv Hsl Hb Hbal Hs Hsal Hfit. pose proof (wf_bits52 _ _ _ (inv_wf _ _ _ Hinv)) as Hbits.
  assert (2 ^ ipa_bits (s2_ctx r) <= 2 ^ 52) by (apply Z.pow_le_mono_r; lia).
  apply Z.mod_divide in Hsal as [n Hn]; [|lia]. unfold for_pages. change GRANULE_SIZE with 4096.
  rewrite u64_small by (unfold is_u64; lia).
  assert (Hdiv : size / 4096 = n) by (rewrite Hn; by apply Z.div_mul). rewrite Hdiv.
  destruct (pages_loop_run r T base (Z.to_nat n) (S (Z.to_nat n)) 0 s Hinv Hsl Hb Hbal ltac:(lia) ltac:(lia)) as (s' & Hrun & Hinv' & Hum).
  exists s'. replace (base + Z.of_nat 0 * 4096) with base in * by lia.
  replace (base + (Z.of_nat 0 + Z.of_nat (Z.to_nat n)) * 4096) with (base + size) in * by lia.
  replace (Z.of_nat (Z.to_nat n) * 4096) with size in * by lia. done.
Qed.

(** * Realms across a change of tables *)

Lemma tables_only_quiescent s s' s2_ctx T :
  quiescent s → rtt_inv s' s2_ctx T → tables_only T s s' → quiescent s'.
Proof using L.
  intros Hq Hinv [_ Hs] k Hk. destruct (T !! k) as [[i b]|] eqn:HT; [|by rewrite (proj1 (Hs k HT)); apply Hq].
  destruct (wf_table _ _ _ (inv_wf _ _ _ Hinv) k i b HT) as (_ & _ & (rc & tag & Hg & Hrc) & _).
  eexists. split; [exact Hg|]. exists GRANULE_STATE_RTT, rc, tag. split; [done|].
  split; [apply gok_rtt; lia|by apply rtt_unlocked].
Qed.

Lemma realm_at_tables s s' rd_addr g_rd r T :
  realm_at s rd_addr g_rd r T → rtt_inv s' (s2_ctx r) T → tables_only T s s' → realm_at s' rd_addr g_rd r T.
Proof using L.
  intros Hra Hinv Hto. destruct (realm_facts _ _ _ _ _ Hra) as (rc & tag & _ & Hg & Hok & _).
  assert (HT : T !! g_rd = None) by (by eapply not_table).
  eapply realm_at_frame; [done|done| | |by apply Hto|by apply Hto].
  - eapply tables_only_quiescent; [apply (ra_quiet _ _ _ _ _ Hra)|done|done].
  - destruct Hto as [-> _]. done.
Qed.

(** Another realm, none of whose tables is in [T]. *)
Lemma realm_at_others s s' s2_ctx T rd_addr g_rd r T2 :
  realm_at s rd_addr g_rd r T2 → (∀ k x, T2 !! k = Some x → T !! k = None) → T !! g_rd = None →
  rtt_inv s' s2_ctx T → tables_only T s s' → realm_at s' rd_addr g_rd r T2.
Proof using L.
  intros Hra Hdis Hg Hinv Hto. eapply realm_at_frame; [done| | | |by apply Hto|by apply Hto].
  - eapply rtt_inv_same; [apply (ra_inv _ _ _ _ _ Hra)|]. intros k x Hk. apply Hto. by eapply Hdis.
  - eapply tables_only_quiescent; [apply (ra_quiet _ _ _ _ _ Hra)|done|done].
  - destruct Hto as [-> _]. done.
Qed.

Lemma realm_apt_tables s s' T r ga a :
  realm_apt s r ga a → T !! ga = None → tables_only T s s' → realm_apt s' r ga a.
Proof using. clear L HL. intros Hapt HT Hto. eapply realm_apt_frame; [done|by apply Hto|by apply Hto]. Qed.

Lemma page_entry_mem s s' T ipa e :
  (∀ k x, T !! k = Some x → mem s' !! k = mem s !! k) → page_entry s T ipa e ↔ page_entry s' T ipa e.
Proof using.
  clear L HL. intros Hm. unfold page_entry, table_of. split; intros (g & b & t & HT & Hc & Ht & He); exists g, b, t;
    (split; [done|split; [done|split; [|done]]]); by rewrite (Hm _ _ HT) in *.
Qed.

(** * Retiring a region and unmapping its pages *)

(** Under the descriptor's lock, with the table of regions released, from [s]. *)
Lemma unmap_under_lock s rd_addr g_rd r T rcd tagd base size slot {B} (k : () → M state B) :
  realm_at s rd_addr g_rd r T → slot ≠ SLOT_RTT →
  granules s !! g_rd = Some (Gr false GRANULE_STATE_RD rcd tagd) → gok GRANULE_STATE_RD rcd →
  0 <= base → base mod 4096 = 0 → 0 <= size → size mod 4096 = 0 → base + size <= 2 ^ ipa_bits (s2_ctx r) →
  ∃ s', (for_pages base size (unmap_ipa_from_rd r) ≫= λ _, close_buf slot g_rd ≫= k)
          (set_slots {[slot := g_rd]} (rd_locked s g_rd rcd tagd)) = k () s' ∧
    unmapped T base size s s' ∧ realm_at s' rd_addr g_rd r T.
Proof using L HL.
  intros Hra Hslot Hg Hok Hb Hbal Hsz Hsal Hfit. assert (HT : T !! g_rd = None) by (by eapply not_table).
  set (x := set_slots {[slot := g_rd]} (rd_locked s g_rd rcd tagd)).
  assert (Hsame : tables_same T s x) by (unfold x; eapply tables_same_trans; [by apply tables_same_put|apply tables_same_slots]).
  destruct (for_pages_run x r T base size) as (x' & Hrun & Hinv' & [Hto Hin Hout]); try done.
  { by eapply rtt_inv_same; [apply (ra_inv _ _ _ _ _ Hra)|]. }
  { unfold x. cbn [slots set_slots]. by rewrite lookup_singleton_ne. }
  set (s' := set_slots ∅ (put_granule g_rd (Gr false GRANULE_STATE_RD rcd tagd) x')).
  assert (Hxg : granules x' !! g_rd = Some (Gr true GRANULE_STATE_RD rcd tagd)).
  { rewrite (proj1 (proj2 Hto g_rd HT)). unfold x. cbn. by rewrite lookup_insert_eq. }
  assert (Hxs : slots x' = {[slot := g_rd]}) by (rewrite (proj1 Hto); done).
  assert (Hto' : tables_only T s s').
  { pose proof (ra_slots _ _ _ _ _ Hra) as Hs. split.
    - unfold s'. rewrite (proj1 Hto). unfold x. destruct s. cbn in *. by subst.
    - intros j Hj. unfold s'. cbn. destruct (proj2 Hto j Hj) as [Hjg Hjm]. destruct (decide (j = g_rd)) as [->|Hne].
      + rewrite lookup_insert_eq. split; [done|]. by rewrite Hjm.
      + rewrite lookup_insert_ne, Hjg, Hjm by done. unfold x. cbn. by rewrite lookup_insert_ne. }
  exists s'. split; [|split].
  - run_step Hrun. unfold close_buf. rewrite bind_assoc.
    rewrite (bind_run _ _ _ _ _ (buffer_unmap_run x' slot g_rd ltac:(by rewrite Hxs, lookup_singleton_eq))).
    rewrite (bind_run _ _ _ _ _ (granule_unlock_run (s := set_slots (delete slot (slots x')) x') Hxg Hok eq_refl eq_refl)).
    f_equal. rewrite Hxs, delete_singleton_eq. done.
  - split; [done| |].
    + intros ipa e Hr Hm He. apply (Hin ipa); [done|done|]. by apply (page_entry_mem x' s').
    + intros ipa e Hp Hm Hr. rewrite <- (page_entry_mem x' s') by done. rewrite Hout by done. by apply (page_entry_mem x s).
  - apply (realm_at_tables s); [done| |done]. eapply rtt_inv_same; [exact Hinv'|]. intros j y Hj. unfold s'. cbn.
    by rewrite lookup_insert_ne by congruence.
Qed.

(** The same, starting with both the descriptor and the table of regions locked. *)
Lemma retire_and_unmap s rd_addr g_rd r T ga a a' rcd tagd taga base size {B} (k : () → M state B) :
  realm_at s rd_addr g_rd r T → realm_apt s r ga a → keeps g_rd rcd tagd ga taga s →
  0 <= base → base mod 4096 = 0 → 0 <= size → size mod 4096 = 0 → base + size <= 2 ^ ipa_bits (s2_ctx r) →
  ∃ s', (write_page SLOT_APT (PApt a') ≫= λ _, close_buf SLOT_APT ga ≫= λ _,
         for_pages base size (unmap_ipa_from_rd r) ≫= λ _, close_buf SLOT_RD g_rd ≫= k)
          (csm_locked g_rd rcd tagd ga taga s) = k () s' ∧
    unmapped T base size (set_apt ga a' s) s' ∧ realm_at s' rd_addr g_rd r T ∧ realm_apt s' r ga a'.
Proof using L HL.
  intros Hra Hapt Hk Hb Hbal Hsz Hsal Hfit. run_step (write_apt_run _ _ _ _ _ _ _ rcd tagd taga a' Hra Hapt).
  destruct (realm_apt_set _ _ _ _ _ _ _ a' Hra Hapt) as [Hra1 Hapt1].
  destruct (apt_granule _ _ _ _ _ _ _ Hra1 Hapt1) as (_ & _ & _ & _ & HTa & _).
  destruct Hk as (Hg & Hok & Hga & Hne & Hs). set (s1 := set_apt ga a' s) in *.
  destruct (unmap_under_lock s1 rd_addr g_rd r T rcd tagd base size SLOT_RD k) as (s' & Hrun & Hum & Hra'); try done.
  exists s'. split; [|split; [done|split; [done|]]].
  - etransitivity; [|exact Hrun]. unfold csm_locked, close_buf. rewrite bind_assoc. st_norm.
    exec buffer_unmap_run. exec granule_unlock_run.
    rewrite delete_insert_id by lk_solve. rewrite insert_insert_eq, (insert_id _ ga) by lk_solve. by rewrite insert_empty.
  - by apply (realm_apt_tables s1 s' T); [|done|apply Hum].
Qed.

(** * Detaching from a region *)

(** The region of [a] with identifier [id] that the realm uses as slave, at [idx]. *)
Definition slave_at (a : apt) (id idx : Z) (m : slave_mem) : Prop :=
  0 <= idx < 20 ∧ apt_slave_used a idx = true ∧ slave_memory a !! Z.to_nat idx = Some m ∧ s_region_ID m = id.

Definition no_slave (a : apt) (id : Z) : Prop := ∀ idx m, ¬ slave_at a id idx m.

(** The region at [idx] is no longer used nor enabled in [a'], which is else as [a]; what the
    table recorded of it is still there. *)
Definition slave_retired (a a' : apt) (idx : Z) : Prop :=
  same_masters a a' ∧ slave_memory a' = slave_memory a ∧
  ∀ j, 0 <= j → apt_slave_used a' j = apt_slave_used a j && negb (j =? idx) ∧
                apt_slave_enabled a' j = apt_slave_enabled a j && negb (j =? idx).

Lemma find_slave_at a id :
  apt_inv a → ∃ o, find_slave_region a id = Ok o ∧
    match o with Some i => ∃ m, slave_at a id i m | None => no_slave a id end.
Proof using.
  clear L HL. intros Ha. destruct (find_slave_region_spec a id Ha) as (o & Hrun & Hc). exists o. split; [done|].
  destruct o as [i|].
  - destruct Hc as (Hi & Hu & m & Hm & Hid). by exists m.
  - intros j m (Hj & Hu & Hm & Hid). by apply (Hc j m).
Qed.

(** The regions that the realm uses as slave lie in its address space, page by page. *)
Definition slaves_fit (r : rd) (a : apt) : Prop :=
  ∀ id idx m, slave_at a id idx m →
    0 <= s_ipa_start m ∧ s_ipa_start m mod 4096 = 0 ∧ 0 <= s_map_size m ∧ s_map_size m mod 4096 = 0 ∧
    s_ipa_start m + s_map_size m <= 2 ^ ipa_bits (s2_ctx r).

(** RSI_CSM_DETACH_AND_FREE always returns. Zero identifiers, a caller that is not the slave
    of the sharing identifier and a region the caller does not use are errors of input that
    change nothing. Otherwise the region is retired from the caller's table, no page entry of
    its range maps a page any more, no other page entry of the realm changes, nothing but the
    realm's own tables and its table of regions changes, and the host is told the range. *)
Theorem csm_detach_spec s rd_addr g_rd r T ga a rc x ex res :
  realm_at s rd_addr g_rd r T → realm_apt s r ga a → apt_inv a → slaves_fit r a → tag_inv (tags s) →
  ri_g_rd rc = g_rd → regs rc !! 1%nat = Some x →
  let res0 := set_action UPDATE_REC_RETURN_TO_REALM res in
  let id := apt_sharing_region_id (u32 x) in let slave_id := apt_sharing_slave_id (u32 x) in
  ∃ out s', handle_rsi_csm_detach_and_free rc ex res s = Ok (out, s') ∧ realm_at s' rd_addr g_rd r T ∧
    ((out = rsi_fail RSI_ERROR_INPUT ex res0 ∧ s' = s ∧
      (id = 0 ∨ slave_id = 0 ∨ (¬ registered (tags s) rd_addr slave_id) ∨ no_slave a id))
     ∨ ∃ idx m a', registered (tags s) rd_addr slave_id ∧ slave_at a id idx m ∧
         out = rsi_exit RMI_EXIT_CSM_ADD_GRANULES (s_ipa_start m) (s_map_size m) (set_x0 RSI_SUCCESS) ex res0 ∧
         apt_inv a' ∧ slave_retired a a' idx ∧ realm_apt s' r ga a' ∧
         unmapped T (s_ipa_start m) (s_map_size m) (set_apt ga a' s) s').
Proof using L HL.
  intros Hra Hapt Ha Hfits Hti Hrd Hx res0 id slave_id. unfold handle_rsi_csm_detach_and_free.
  run_step (lift_run _ _ _ (aget_reg _ _ _ Hx)). cbv zeta. fold res0 id slave_id.
  rewrite Hrd. run_step (lift_run _ _ _ (realm_rd_addr _ _ _ _ _ Hra)).
  destruct ((u32 x =? 0) || (id =? 0) || (slave_id =? 0)) eqn:Hz.
  { eexists _, s. split; [done|]. split; [done|]. left. split; [done|]. split; [done|].
    apply orb_true_iff in Hz as [[Hz|Hz]%orb_true_iff|Hz]; apply Z.eqb_eq in Hz; [|by left|by right; left].
    left. unfold id. by rewrite Hz. }
  destruct (realm_tag_get_by_rd_cases (tags s) rd_addr Hti) as (oc & Hget & Hoc).
  erewrite bind_run; [|apply zoom_run; exact Hget]. rewrite set_tags_id.
  destruct (bool_decide_reflect (oc = Some slave_id)) as [Hreg|Hreg]; rewrite Hoc in Hreg; cbn [negb]; cycle 1.
  { eexists _, s. split; [done|]. split; [done|]. left. by auto 6. }
  destruct (keeps_exists _ _ _ _ _ _ _ Hra Hapt) as (rcd & tagd & taga & Hk).
  run_step (open_rd_keeps _ _ _ _ _ _ _ _ _ Hra Hk). rewrite (csm_locked_rd _ _ _ _ _ _ _ _ _ _ _ Hra Hapt Hk).
  destruct (find_slave_at a id Ha) as (o & Hfind & Ho).
  destruct o as [idx|]; cycle 1.
  { exists (rsi_fail RSI_ERROR_INPUT ex res0), s. split; [|split; [done|left; auto 8]]. etransitivity; [exact (map_apt_run s rd_addr g_rd r T ga a rcd tagd taga
      (λ aptp slave_apt, _) Hra Hapt Hk)|]. cbv beta. run_step (lift_run _ _ _ Hfind). by rewrite close_run by exact Hk. }
  destruct Ho as (m & Hm). destruct (Hm) as (Hidx & Hu & Hmem & Hid).
  destruct (Hfits _ _ _ Hm) as (F1 & F2 & F3 & F4 & F5).
  destruct (retire_slave_spec a idx Ha Hidx) as (a' & Hret & Ha' & Hsm & Hsl & Hue).
  edestruct (retire_and_unmap s rd_addr g_rd r T ga a a' rcd tagd taga (s_ipa_start m) (s_map_size m) (B := rmi_rec_exit * rsi_result))
    as (s' & Hrun & Hum & Hra' & Hapt'); [done..|].
  eexists _, s'. split; [|split; [done|]].
  - etransitivity; [exact (map_apt_run s rd_addr g_rd r T ga a rcd tagd taga (λ aptp slave_apt, _) Hra Hapt Hk)|]. cbv beta.
    run_step (lift_run _ _ _ Hfind). run_step (lift_run _ _ _ (aget_lookup _ idx m (proj1 Hidx) Hmem)).
    run_step (lift_run _ _ _ Hret). exact Hrun.
  - right. by exists idx, m, a'.
Qed.

(** * Revoking a share *)

Lemma bind_ret {S A} (m : M S A) s : (m ≫= mret) s = m s.
Proof using. clear L HL. unfold mbind, M_bind, mret, M_ret. by destruct (m s) as [[]|]. Qed.

(** The other realm of a sharing: its own descriptor, table of regions and tables. *)
Record peer (s : state) (g_rd : Z) (T : gmap Z (Z * Z)) (ga : Z)
  (prd_addr g_prd : Z) (pr : rd) (PT : gmap Z (Z * Z)) (gpa : Z) (papt : apt) : Prop := {
  pe_realm : realm_at s prd_addr g_prd pr PT;
  pe_apt : realm_apt s pr gpa papt;
  pe_inv : apt_inv papt;
  pe_fit : slaves_fit pr papt;
  pe_ne : g_prd ≠ g_rd;
  pe_nea : gpa ≠ ga;
  pe_disjoint k x : PT !! k = Some x → T !! k = None;
}.

(** Opening a realm found by the address of its descriptor. *)
Lemma find_lock_keeps s rd_addr g_rd r T ga rcd tagd taga :
  realm_at s rd_addr g_rd r T → keeps g_rd rcd tagd ga taga s →
  find_lock_granule rd_addr GRANULE_STATE_RD s = Ok (Some g_rd, rd_locked s g_rd rcd tagd).
Proof using L.
  intros Hra (Hg' & Hok' & _). destruct (realm_facts _ _ _ _ _ Hra) as (rcd' & tagd' & p & Hg & Hok & _ & _ & _ & Hrun & _).
  rewrite Hg in Hg'. apply (inj Some) in Hg'. by apply Gr_inj in Hg' as (_ & _ & <- & <-).
Qed.

Lemma csm_revoke_slave_run s prd_addr g_prd pr PT gpa papt id :
  realm_at s prd_addr g_prd pr PT → realm_apt s pr gpa papt → apt_inv papt → slaves_fit pr papt →
  ∃ s', csm_revoke_slave prd_addr id s = Ok ((), s') ∧ realm_at s' prd_addr g_prd pr PT ∧
    ((no_slave papt id ∧ s' = s)
     ∨ ∃ idx m a', slave_at papt id idx m ∧ apt_inv a' ∧ slave_retired papt a' idx ∧ realm_apt s' pr gpa a' ∧
         unmapped PT (s_ipa_start m) (s_map_size m) (set_apt gpa a' s) s').
Proof using L HL.
  intros Hra Hapt Ha Hfits. destruct (keeps_exists _ _ _ _ _ _ _ Hra Hapt) as (rcd & tagd & taga & Hk).
  unfold csm_revoke_slave. run_step (find_lock_keeps _ _ _ _ _ _ _ _ _ Hra Hk).
  destruct (realm_facts _ _ _ _ _ Hra) as (_ & _ & p & _ & _ & Hadr & Hm & Hp & _).
  rewrite (rd_open _ _ _ _ (ra_core _ _ _ _ _ Hra) _ _ _ _ Hadr Hm Hp).
  rewrite (csm_locked_rd _ _ _ _ _ _ _ _ _ _ _ Hra Hapt Hk).
  destruct (find_slave_at papt id Ha) as (o & Hfind & Ho). destruct o as [idx|]; cycle 1.
  { exists s. split; [|split; [done|by left]]. etransitivity; [exact (map_apt_run s prd_addr g_prd pr PT gpa papt rcd tagd taga
      (λ aptp sapt, _) Hra Hapt Hk)|]. cbv beta. run_step (lift_run _ _ _ Hfind).
    etransitivity; [|exact (close_run g_prd rcd tagd gpa taga s mret Hk)]. apply bind_cong'. intros [] y. by rewrite bind_ret. }
  destruct Ho as (m & Hsl). destruct (Hsl) as (Hidx & Hu & Hmem & Hid).
  destruct (Hfits _ _ _ Hsl) as (F1 & F2 & F3 & F4 & F5).
  destruct (retire_slave_spec papt idx Ha Hidx) as (a' & Hret & Ha' & Hsm & Hslm & Hue).
  destruct (retire_and_unmap s prd_addr g_prd pr PT gpa papt a' rcd tagd taga (s_ipa_start m) (s_map_size m) mret)
    as (s' & Hrun & Hum & Hra' & Hapt'); [done..|].
  exists s'. split; [|split; [done|right; by exists idx, m, a']].
  etransitivity; [exact (map_apt_run s prd_addr g_prd pr PT gpa papt rcd tagd taga (λ aptp sapt, _) Hra Hapt Hk)|]. cbv beta.
  run_step (lift_run _ _ _ Hfind). rewrite bind_assoc. run_step (lift_run _ _ _ (aget_lookup _ idx m (proj1 Hidx) Hmem)).
  rewrite bind_assoc. run_step (lift_run _ _ _ Hret). etransitivity; [|exact Hrun].
  rewrite bind_assoc. apply bind_cong'. intros [] y. rewrite bind_assoc. apply bind_cong'. intros [] z.
  apply bind_cong'. intros [] u. by rewrite bind_ret.
Qed.

(** The master's side. *)
Lemma csm_revoke_share_run s g_rd ga rcd tagd taga a id slave_id :
  apt_inv a →
  ∃ out s', csm_revoke_share a id slave_id (csm_locked g_rd rcd tagd ga taga s) = Ok (out, csm_locked g_rd rcd tagd ga taga s') ∧
    match out with
    | None => s' = s ∧ (no_master a id ∨ ∃ idx m, master_at a id idx m ∧ slave_id ∉ slave_ID <$> used_shares m)
    | Some pa => ∃ idx m sh m', master_at a id idx m ∧ sh ∈ used_shares m ∧ slave_ID sh = slave_id ∧ pa = slave_rd_pa sh ∧
        used_shares m ≡ₚ sh :: used_shares m' ∧ (slave_id ∉ slave_ID <$> used_shares m') ∧
        s' = set_apt ga (set_master_memory (<[Z.to_nat idx := m']> (master_memory a)) a) s ∧
        apt_inv (set_master_memory (<[Z.to_nat idx := m']> (master_memory a)) a) ∧
        m_region_ID m' = id ∧ m_ipa_start m' = m_ipa_start m ∧ m_map_size m' = m_map_size m
    end.
Proof using.
  clear L HL. intros Ha. unfold csm_revoke_share.
  destruct (find_master_at a id Ha) as (idx & Hrun & [(m & Hm)|[-> Hno]]); run_step (lift_run _ _ _ Hrun).
  2: { exists None, s. split; [done|]. split; [done|]. by left. }
  destruct (Hm) as (Hidx & Hu & Hmem & Hid). rewrite (proj2 (Z.ltb_ge idx 0)) by lia.
  run_step (lift_run _ _ _ (aget_lookup _ idx m (proj1 Hidx) Hmem)).
  pose proof (Forall_lookup_1 _ _ _ _ (ai_master_ok _ Ha) Hmem) as Hok.
  destruct (share_slot_exact m slave_id Hok) as (k & Hk & [(Hk3 & sh & Hsh & Hin & Hsid)|[-> Hnot]]); run_step (lift_run _ _ _ Hk).
  2: { exists None, s. split; [done|]. split; [done|]. right. by exists idx, m. }
  rewrite (proj2 (Z.ltb_ge k 0)) by lia. run_step (lift_run _ _ _ (aget_lookup _ k sh (proj1 Hk3) Hsh)).
  destruct (drop_share_spec m k sh Hok Hk3 Hsh Hin) as (m' & Hdrop & Hok' & Hperm & D1 & D2 & D3).
  run_step (lift_run _ _ _ Hdrop).
  destruct (set_master_spec a idx m m' Ha (proj1 Hidx) Hmem Hok') as (a' & Hset & Ha' & _ & ->). run_step (lift_run _ _ _ Hset).
  erewrite bind_run; [|apply (write_page_run _ _ ga); cbn; lk_solve].
  exists (Some (slave_rd_pa sh)), (set_apt ga (set_master_memory (<[Z.to_nat idx := m']> (master_memory a)) a) s).
  split; [done|]. exists idx, m, sh, m'. split; [done|].
  assert (Hel : sh ∈ used_shares m) by (rewrite Hperm; by left).
  do 4 (split; [done|]). split; [|split; [done|split; [done|split; [congruence|done]]]].
  destruct Hok as (_ & _ & Hnd). fold (used_shares m) in Hnd. rewrite Hperm, fmap_cons in Hnd. apply NoDup_cons in Hnd as [Hn _].
  by rewrite <- Hsid.
Qed.

Lemma peer_set_apt s rd_addr g_rd r T ga a a' prd_addr g_prd pr PT gpa papt :
  realm_at s rd_addr g_rd r T → realm_apt s r ga a → peer s g_rd T ga prd_addr g_prd pr PT gpa papt →
  peer (set_apt ga a' s) g_rd T ga prd_addr g_prd pr PT gpa papt.
Proof using L.
  intros Hra Hapt [H1 H2 H3 H4 H5 H6 H7]. destruct (apt_granule _ _ _ _ _ _ _ Hra Hapt) as (taga & Hga & _).
  split; try done.
  - apply realm_at_write; [done|by eapply not_table|]. intros ->.
    destruct (realm_facts _ _ _ _ _ H1) as (rc & tag & _ & Hg & Hok & _). rewrite Hg in Hga.
    apply (inj Some) in Hga. by apply Gr_inj in Hga as (_ & ? & _).
  - eapply realm_apt_frame; [done|done|]. cbn [mem set_apt set_mem]. by rewrite lookup_insert_ne.
Qed.

End unmap.
