(* ===== verification/CsmAttach.v ===== *)
(** Attaching the pages of a region (RSI_CSM_ATTACH): the slave's translation of the region
    becomes the master's. *)
From S2P Require Import Prelude Types Granule Platform GranuleFind S2tte S2tt Apt RealmTag CsmId Measurement Buffer Delegate Walk Exec Realm Rtt RttTree RttFold RttCreate Data DataCreate DataDestroy CsmPropagate Rsi Csm CsmApt CsmSpec CsmUnmap.

Section attach.
Context {P : Platform} {H : Machine} {CF : Config} {L : PlatformLaws P} {HL : MachineLaws P H}.

(** * The translation of an address *)

(** The last table for [addr] and the entry there. *)
Definition leaf (s : state) (T : gmap Z (Z * Z)) (addr g i e : Z) : Prop :=
  ∃ b t, T !! g = Some (i, b) ∧ covers_lvl i b addr ∧ table_of s g = Some t ∧
    t !! Z.to_nat (s2_addr_to_idx addr i) = Some e ∧ (i < 3 → entry_is_table e = false).

(** The address is mapped to [pa]. *)
Definition translates (s : state) (s2_ctx : s2tt_context) (T : gmap Z (Z * Z)) (addr pa : Z) : Prop :=
  ∃ g i e pa0, leaf s T addr g i e ∧ s2tte_is_assigned_ram e i = true ∧ s2tte_pa s2_ctx e i = Ok pa0 ∧
    pa = pa0 .+ (addr .& (s2tte_map_size i .- 1)).

Lemma leaf_fun s s2_ctx T addr g i e h j e' :
  rtt_inv s s2_ctx T → 0 <= addr < 2 ^ 52 → leaf s T addr g i e → leaf s T addr h j e' → h = g ∧ j = i ∧ e' = e.
Proof using.
  clear L HL. intros Hinv Ha.
  assert (Hle : ∀ g i e h j e', leaf s T addr g i e → leaf s T addr h j e' → j <= i).
  { clear g i e h j e'. intros g i e h j e' (b & t & HT & Hc & Ht & He & Hl) (c & t' & HT' & Hc' & _).
    destruct (Z.le_gt_cases j i) as [|Hlt]; [done|]. exfalso. destruct (inv_level _ _ _ Hinv _ _ _ HT') as [_ Hj3].
    apply (no_table_below _ _ _ g i b t e addr Hinv HT Hc Ha Ht He (Hl ltac:(lia)) (Z.to_nat (j - i - 1)) h c);
      replace (i + 1 + Z.of_nat (Z.to_nat (j - i - 1))) with j by lia; done. }
  intros H1 H2. pose proof (Hle _ _ _ _ _ _ H1 H2). pose proof (Hle _ _ _ _ _ _ H2 H1). assert (j = i) as -> by lia.
  destruct H1 as (b & t & HT & Hc & Ht & He & _), H2 as (c & t' & HT' & Hc' & Ht' & He' & _).
  destruct (wf_table _ _ _ (inv_wf _ _ _ Hinv) _ _ _ HT) as ([Hlo Hhi] & _).
  pose proof (wf_start _ _ _ (inv_wf _ _ _ Hinv)) as Hst.
  unfold min_starting_level, S2TT_MIN_STARTING_LEVEL_LPA2, S2TT_MIN_STARTING_LEVEL in Hst.
  assert (b = c) as <- by (eapply covers_lvl_fun; [|done|done]; destruct (enable_lpa2 s2_ctx); lia).
  pose proof (inv_inj _ _ _ Hinv _ _ _ HT HT') as <-. rewrite Ht in Ht'. injection Ht' as <-. split; [done|]. split; [done|]. congruence.
Qed.

(** A page entry is the last entry. *)
Lemma page_entry_leaf s T addr e : page_entry s T addr e ↔ ∃ g, leaf s T addr g 3 e.
Proof using.
  clear L HL. split.
  - intros (g & b & t & HT & Hc & Ht & He). exists g, b, t. split; [done|]. split; [left; by split; [lia|]|]. split; [done|]. split; [done|lia].
  - intros (g & b & t & HT & Hc & Ht & He & _). exists g, b, t. split; [done|]. split; [|done]. destruct Hc as [[_ ?]|(? & _)]; [done|lia].
Qed.

Lemma translates_fun s s2_ctx T addr pa pa' :
  rtt_inv s s2_ctx T → 0 <= addr < 2 ^ 52 → translates s s2_ctx T addr pa → translates s s2_ctx T addr pa' → pa = pa'.
Proof using.
  clear L HL. intros Hinv Ha (g & i & e & p & Hl & _ & Hp & ->) (h & j & e' & p' & Hl' & _ & Hp' & ->).
  destruct (leaf_fun _ _ _ _ _ _ _ _ _ _ Hinv Ha Hl Hl') as (-> & -> & ->). rewrite Hp in Hp'. by injection Hp' as <-.
Qed.

Lemma leaf_mem s s' T addr g i e :
  (∀ k x, T !! k = Some x → mem s' !! k = mem s !! k) → leaf s T addr g i e → leaf s' T addr g i e.
Proof using. clear L HL. intros Hm (b & t & HT & ?). exists b, t. unfold table_of. by rewrite (Hm _ _ HT). Qed.

Lemma translates_mem s s' s2_ctx T addr pa :
  (∀ k x, T !! k = Some x → mem s' !! k = mem s !! k) → translates s s2_ctx T addr pa → translates s' s2_ctx T addr pa.
Proof using. clear L HL. intros Hm (g & i & e & p & Hl & ?). exists g, i, e, p. split; [by eapply leaf_mem|done]. Qed.

Lemma page_ram_translates s s2_ctx T addr e pa :
  page_entry s T addr e → is_made s2_ctx AssignedRam pa 3 e → 0 <= addr → addr mod 4096 = 0 → translates s s2_ctx T addr pa.
Proof using.
  clear L HL. intros He Hm Ha Hal. apply page_entry_leaf in He as (g & Hl). exists g, 3, e, pa. split; [done|].
  pose proof (made_is _ _ _ _ _ AssignedRam Hm) as Hram. cbn [s2tte_is] in Hram. split; [done|].
  split; [by apply (made_pa _ _ _ _ _ Hm)|]. change (s2tte_map_size 3 .- 1) with 4095.
  assert (addr .& 4095 = 0) as -> by (apply granule_aligned_land; by apply granule_aligned_mod).
  rewrite Z.add_0_r. symmetry. apply u64_small. by apply (data_pa_u64 _ _ _ _ Hm).
Qed.

(** * One page *)

(** The slave can take a page at [addr]: it has a page entry there, without a page. *)
Definition page_free (s : state) (s2_ctx : s2tt_context) (T : gmap Z (Z * Z)) (addr : Z) : Prop :=
  ∃ e ty pa, page_entry s T addr e ∧ is_made s2_ctx ty pa 3 e ∧ is_unassigned_type ty = true.

Lemma walk_translates s s2_ctx T addr pa sw :
  rtt_inv s s2_ctx T → slots s !! SLOT_RTT = None → 0 <= addr < 2 ^ ipa_bits s2_ctx → translates s s2_ctx T addr pa →
  ∃ g i b rc tag p t, T !! g = Some (i, b) ∧ rtt_view s g rc tag p t ∧
    ipa_walk s2_ctx addr sw s
    = Ok ((WALK_SUCCESS, {| sw_pa := pa; sw_rtt_level := u64 i; sw_ripas_val := RIPAS_RAM; sw_llt := Some g |}),
          put_granule g (Gr true GRANULE_STATE_RTT rc tag) s).
Proof using L HL.
  intros Hinv Hs Ha (g & i & e & pa0 & Hl & Hram & Hpa & ->). pose proof (inv_wf _ _ _ Hinv) as Hwf.
  destruct (ipa_walk_run s s2_ctx T addr sw Hwf Hs Ha) as (h & j & b & rc & tag & p & t & e' & HT & Hc & Hv & He & Hleaf & Hrun).
  assert (H52 : addr < 2 ^ 52).
  { pose proof (wf_bits52 _ _ _ Hwf). assert (2 ^ ipa_bits s2_ctx <= 2 ^ 52) by (apply Z.pow_le_mono_r; lia). lia. }
  assert (Hl' : leaf s T addr h j e').
  { exists b, t. do 2 (split; [done|]). split; [|done]. destruct Hv as [_ _ _ Hm Hp _]. unfold table_of. by rewrite Hm. }
  destruct (leaf_fun _ _ _ _ _ _ _ _ _ _ Hinv (conj (proj1 Ha) H52) Hl Hl') as (-> & -> & ->).
  rewrite Hram in Hrun. destruct Hrun as (pa & Hpa' & Hrun). rewrite Hpa in Hpa'. injection Hpa' as <-.
  exists g, i, b, rc, tag, p, t. rewrite <- (rtt_view_lock _ _ _ _ _ _ Hv). done.
Qed.

(** What one page of the loop leaves: the slave maps [pa] at [addr], all else is as it was. *)
Record attached1 (s2_ctx : s2tt_context) (T : gmap Z (Z * Z)) (addr pa : Z) (s s' : state) : Prop := {
  at_inv : rtt_inv s' s2_ctx T;
  at_tables : tables_only T s s';
  at_new : translates s' s2_ctx T addr pa;
  at_page : ∃ e, page_entry s' T addr e;
  at_old x e : 0 <= x → x mod 4096 = 0 → x ≠ addr → page_entry s' T x e ↔ page_entry s T x e;
}.

Lemma map_page_run s r T addr pa :
  rtt_inv s (s2_ctx r) T → slots s !! SLOT_RTT = None → 0 <= addr < 2 ^ ipa_bits (s2_ctx r) → addr mod 4096 = 0 →
  page_free s (s2_ctx r) T addr → lvl_aligned (enable_lpa2 (s2_ctx r)) 3 pa →
  ∃ g b rc tag t l, T !! g = Some (3, b) ∧ 0 <= rc <= 512 ∧
    map_ipa_to_pa r pa addr s = Ok (0, set_rtt g rc tag t l s) ∧ attached1 (s2_ctx r) T addr pa s (set_rtt g rc tag t l s).
Proof using L HL.
  intros Hinv Hs Ha Hal (e0 & ty & pa0 & Hpe & Hm0 & Hty) Hpa. pose proof (inv_wf _ _ _ Hinv) as Hwf.
  destruct (assign_ram (s2_ctx r) pa Hpa) as (e' & Hce & Hme).
  destruct (map_ipa_to_pa_run s r T pa addr e' Hwf Hs (inv_vmid _ _ _ Hinv) Ha Hce)
    as (g & i & b & rc & tag & p & t & e & HT & Hc & Hv & He & Hleaf & Hrun).
  assert (Htab : table_of s g = Some t) by (destruct Hv as [_ _ _ Hm Hp _]; unfold table_of; by rewrite Hm).
  assert (H52 : addr < 2 ^ 52).
  { pose proof (wf_bits52 _ _ _ Hwf). assert (2 ^ ipa_bits (s2_ctx r) <= 2 ^ 52) by (apply Z.pow_le_mono_r; lia). lia. }
  pose proof (proj1 (page_entry_leaf _ _ _ _) Hpe) as (g0 & Hl0).
  assert (Hl : leaf s T addr g i e) by (by exists b, t).
  destruct (leaf_fun _ _ _ _ _ _ _ _ _ _ Hinv (conj (proj1 Ha) H52) Hl0 Hl) as (-> & -> & ->).
  assert (Hc3 : covers 3 b addr) by (destruct Hc as [[_ ?]|(? & _)]; [done|lia]).
  pose proof (set_refs _ _ _ _ _ _ _ _ _ _ _ _ e' Hinv HT Hv He) as Hrc.
  rewrite (counted_made _ _ _ _ _ Hm0), (counted_made _ _ _ _ _ Hme) in Hrc.
  assert (Hcn : type_counted ty = false) by (by destruct ty). rewrite Hcn in Hrc. simpl in Hrc.
  cbn [negb Z.eqb Pos.eqb] in Hrun. rewrite (proj2 (Z.leb_le _ _)) in Hrun by lia.
  exists g0, b, (rc + 1), tag. eexists _, _. split; [done|]. split; [lia|]. split; [exact Hrun|].
  assert (Hent : ∀ x y, 0 <= x → x mod 4096 = 0 → page_entry (set_rtt g0 (rc + 1) tag
    (<[Z.to_nat (s2_addr_to_idx addr 3) := e']> t) (page_tlbi (s2_ctx r) addr) s) T x y ↔ if decide (x = addr) then y = e' else page_entry s T x y).
  { intros x y Hx Hx4. eapply page_entry_set; try done; [|lia]. apply (rv_len _ _ _ _ _ _ Hv). }
  split.
  - eapply rtt_inv_set; [done|done|done|done|exact Hm0|by intros ->|exact Hme|done|].
    rewrite (counted_made _ _ _ _ _ Hm0), (counted_made _ _ _ _ _ Hme), Hcn. simpl. lia.
  - by eapply tables_only_set.
  - apply (page_ram_translates _ _ _ _ e'); [|done|lia|done]. apply Hent; [lia|done|]. by rewrite decide_True.
  - exists e'. apply Hent; [lia|done|]. by rewrite decide_True.
  - intros x y Hx Hx4 Hne. rewrite Hent by done. by rewrite decide_False.
Qed.

(** * The loop over the pages *)

Section loop.
Context (mr sr : rd) (MT ST : gmap Z (Z * Z)).
Hypothesis Hdis : ∀ k x, ST !! k = Some x → MT !! k = None.

(** Both realms, with slot [SLOT_RTT] free. *)
Definition both (x : state) : Prop :=
  rtt_inv x (s2_ctx mr) MT ∧ rtt_inv x (s2_ctx sr) ST ∧ slots x !! SLOT_RTT = None.

(** The page [maddr] of the master can be mapped at [saddr] of the slave. *)
Definition can_attach (x : state) (maddr saddr : Z) : Prop :=
  0 <= maddr < 2 ^ ipa_bits (s2_ctx mr) ∧ maddr mod 4096 = 0 ∧ 0 <= saddr < 2 ^ ipa_bits (s2_ctx sr) ∧ saddr mod 4096 = 0 ∧
  page_free x (s2_ctx sr) ST saddr ∧
  ∃ pa, translates x (s2_ctx mr) MT maddr pa ∧ lvl_aligned (enable_lpa2 (s2_ctx sr)) 3 pa.

Lemma attach_page_run x maddr saddr w :
  both x → can_attach x maddr saddr →
  ∃ pa w' llt y y' z, translates x (s2_ctx mr) MT maddr pa ∧ both z ∧ attached1 (s2_ctx sr) ST saddr pa x z ∧
    realm_ipa_to_pa_with_rd mr maddr w x = Ok ((WALK_SUCCESS, w'), y) ∧
    map_ipa_to_pa sr (sw_pa w') saddr y = Ok (0, y') ∧ sw_llt w' = Some llt ∧ granule_unlock llt y' = Ok ((), z).
Proof using Hdis L HL.
  intros (Hm & Hs & Hsl) (Ha & Hal & Hb & Hbl & (e & ty & pa0 & Hpe & Hme & Hty) & pa & Htr & Hpa).
  destruct (walk_translates x (s2_ctx mr) MT maddr pa w Hm Hsl Ha Htr) as (g & i & b & rc & tag & p & t & HT & Hv & Hwalk).
  assert (HSg : ST !! g = None) by (destruct (ST !! g) eqn:E; [|done]; apply Hdis in E; congruence).
  set (y := put_granule g (Gr true GRANULE_STATE_RTT rc tag) x).
  assert (Hsame : tables_same ST x y) by (by apply tables_same_put).
  destruct (map_page_run y sr ST saddr pa) as (h & c & rch & tagh & th & l & HTh & Hrch & Hmap & [A1 A2 A3 (e0 & A5) A4]); try done.
  { by eapply rtt_inv_same. }
  { exists e, ty, pa0. split; [|done]. by apply (page_entry_mem x y). }
  assert (Hgh : h ≠ g) by congruence. set (z := set_rtt h rch tagh th l x).
  assert (Hz : tables_same ST (set_rtt h rch tagh th l y) z).
  { intros k u Hk. split; [|done]. unfold z, y. cbn. destruct (decide (k = h)) as [->|]; [by rewrite !lookup_insert_eq|].
    by rewrite !lookup_insert_ne by congruence. }
  exists pa. eexists _, g, y, (set_rtt h rch tagh th l y), z. split; [done|]. split; [|split; [|split; [|split; [|split]]]].
  - split; [|split; [by eapply rtt_inv_same|done]]. eapply rtt_inv_same; [exact Hm|]. intros k u Hk. unfold z. cbn.
    by rewrite !lookup_insert_ne by (intros ->; apply Hdis in HTh; congruence).
  - split; [by eapply rtt_inv_same|by eapply tables_only_set|by eapply translates_mem; [|exact A3]; intros k u Hk; apply (Hz k u)|
      exists e0; by apply (page_entry_mem (set_rtt h rch tagh th l y) z)|].
    intros u v Hu Hu4 Hne. rewrite <- (page_entry_mem (set_rtt h rch tagh th l y) z) by done.
    rewrite A4 by done. by rewrite (page_entry_mem x y).
  - unfold realm_ipa_to_pa_with_rd. rewrite (proj2 (granule_aligned_mod maddr) Hal). cbn [negb]. exact Hwalk.
  - exact Hmap.
  - done.
  - destruct Hv as [_ Hg Hrc _ _ _].
    erewrite granule_unlock_run; [|unfold y; cbn; rewrite lookup_insert_ne, lookup_insert_eq by done; reflexivity|
      apply gok_rtt; lia|done|by apply rtt_unlocked].
    do 2 f_equal. unfold z, set_rtt, y. st_norm. f_equal. rewrite insert_insert_ne by done. f_equal.
    rewrite insert_insert_eq. by apply insert_id.
Qed.

(** After the pages [k], ..., [k + n - 1] from [sb] were mapped to those from [mb]. *)
Record attached (mb sb : Z) (k n : nat) (s s' : state) : Prop := {
  ad_both : both s';
  ad_tables : tables_only ST s s';
  ad_new j pa : (k <= j < k + n)%nat → translates s (s2_ctx mr) MT (mb + Z.of_nat j * 4096) pa →
    translates s' (s2_ctx sr) ST (sb + Z.of_nat j * 4096) pa;
  ad_old x e : 0 <= x → x mod 4096 = 0 → ¬ (sb + Z.of_nat k * 4096 <= x < sb + Z.of_nat (k + n) * 4096) →
    page_entry s' ST x e ↔ page_entry s ST x e;
}.

Lemma translates_page s s' s2_ctx T addr pa :
  rtt_inv s' s2_ctx T → 0 <= addr < 2 ^ 52 → (∀ e, page_entry s' T addr e ↔ page_entry s T addr e) →
  (∃ e, page_entry s T addr e) → rtt_inv s s2_ctx T → translates s s2_ctx T addr pa → translates s' s2_ctx T addr pa.
Proof using.
  clear Hdis L HL. intros Hinv' Ha Hiff (e & He) Hinv (g & i & x & p & Hl & Hram & Hp & ->).
  destruct (proj1 (page_entry_leaf _ _ _ _) He) as (h & Hlh).
  destruct (leaf_fun _ _ _ _ _ _ _ _ _ _ Hinv Ha Hlh Hl) as (-> & -> & ->).
  apply Hiff, page_entry_leaf in He as (g' & Hl'). by exists g', 3, e, p.
Qed.

Lemma attach_loop_run mb sb n : ∀ fuel k x w,
  both x → (∀ j, (k <= j < k + n)%nat → can_attach x (mb + Z.of_nat j * 4096) (sb + Z.of_nat j * 4096)) →
  0 <= mb → 0 <= sb → sb mod 4096 = 0 → mb + Z.of_nat (k + n) * 4096 <= 2 ^ 52 → sb + Z.of_nat (k + n) * 4096 <= 2 ^ 52 → (n < fuel)%nat →
  ∃ x', attach_loop fuel mr sr (mb + Z.of_nat k * 4096) (mb + Z.of_nat (k + n) * 4096) (sb + Z.of_nat k * 4096) w x = Ok (true, x') ∧
    attached mb sb k n x x'.
Proof using Hdis L HL.
  induction n as [|n IH]; intros fuel k x w Hx Hcan Hmb Hsb Hsal Hmf Hsf Hfuel.
  { exists x. destruct fuel; [lia|]. cbn [attach_loop]. rewrite Nat.add_0_r, Z.ltb_irrefl. split; [done|].
    split; [done|apply tables_only_refl|lia|done]. }
  destruct fuel as [|fuel]; [lia|]. cbn [attach_loop]. rewrite (proj2 (Z.ltb_lt _ _)) by lia.
  destruct (attach_page_run x _ _ w Hx (Hcan k ltac:(lia))) as (pa & w' & llt & y & y' & z & Htr & Hz & Hat & Hw & Hmap & Hllt & Hun).
  run_step Hw. cbv zeta. run_step Hmap. rewrite Hllt. run_step Hun.
  rewrite (u64_small (mb + _ + 4096)), (u64_small (sb + _ + 4096)) by (unfold is_u64; lia).
  replace (mb + Z.of_nat k * 4096 + 4096) with (mb + Z.of_nat (S k) * 4096) by lia.
  replace (sb + Z.of_nat k * 4096 + 4096) with (sb + Z.of_nat (S k) * 4096) by lia.
  replace (k + S n)%nat with (S k + n)%nat in * by lia.
  assert (Hmt : ∀ addr p, translates x (s2_ctx mr) MT addr p → translates z (s2_ctx mr) MT addr p).
  { intros addr p Hp. eapply translates_mem; [|exact Hp]. intros j u Hj. apply (at_tables _ _ _ _ _ _ Hat).
    destruct (ST !! j) eqn:E; [|done]. apply Hdis in E. congruence. }
  destruct (IH fuel (S k) z w' Hz) as (x' & Hrun & [B1 B2 B3 B4]); [|lia..|].
  { intros j Hj. destruct (Hcan j ltac:(lia)) as (C1 & C2 & C3 & C4 & (e & ty & q & Hpe & Hq) & p & Hp & Hpl).
    split_and!; try done; try lia; [|by exists p; split; [apply Hmt|]]. exists e, ty, q. split; [|done].
    apply (at_old _ _ _ _ _ _ Hat); [lia|done|lia|done]. }
  exists x'. split; [done|]. split; [done|eapply tables_only_trans; [apply (at_tables _ _ _ _ _ _ Hat)|done]| |].
  - intros j p Hj Hp. destruct (decide (j = k)) as [->|Hne]; cycle 1.
    { apply (B3 j); [lia|]. by apply Hmt. }
    assert (p = pa) as -> by (eapply (translates_fun x); [exact (proj1 Hx)| |exact Hp|exact Htr]; lia).
    destruct (Hcan k ltac:(lia)) as (_ & _ & C3 & C4 & (e & _ & _ & Hpe & _) & _).
    apply (translates_page z); [apply B1|lia| |apply (at_page _ _ _ _ _ _ Hat)|apply Hz|apply (at_new _ _ _ _ _ _ Hat)].
    intros y0. apply B4; [lia|done|lia].
  - intros u e Hu Hu4 Hr. rewrite B4 by (done || lia). apply (at_old _ _ _ _ _ _ Hat); [done|done|]. lia.
Qed.
End loop.

(** * The call *)

(** All four granules of the two realms are locked and mapped. *)
Definition attach_locked (g_prd rcp tagp gpa tagpa g_rd rcd tagd ga taga : Z) (s : state) : state :=
  set_slots (<[SLOT_APT2 := gpa]> (<[SLOT_RD2 := g_prd]> (<[SLOT_APT := ga]> (<[SLOT_RD := g_rd]> ∅))))
    (put_granule gpa (Gr true GRANULE_STATE_APT 0 tagpa)
       (put_granule g_prd (Gr true GRANULE_STATE_RD rcp tagp) (csm_locked g_rd rcd tagd ga taga s))).

(** Locking and mapping the other realm, while the caller's granules are locked. *)
Lemma peer_open s rd_addr g_rd r T ga a prd_addr g_prd pr PT gpa papt rcd tagd taga rcp tagp tagpa :
  realm_at s rd_addr g_rd r T → realm_apt s r ga a → peer s g_rd T ga prd_addr g_prd pr PT gpa papt →
  keeps g_rd rcd tagd ga taga s → keeps g_prd rcp tagp gpa tagpa s →
  let x := attach_locked g_prd rcp tagp gpa tagpa g_rd rcd tagd ga taga s in
  ∃ y, find_lock_granule prd_addr GRANULE_STATE_RD (csm_locked g_rd rcd tagd ga taga s) = Ok (Some g_prd, y) ∧
    (∀ B (k : Z → rd → option Z → Z → M state B),
       (map_assert g_prd SLOT_RD2 ≫= λ master_rdp,
        read_rd master_rdp ≫= λ master_rd,
        find_lock_granule (apt_pa master_rd) GRANULE_STATE_APT ≫= λ g_apt_master,
        map_apt g_apt_master SLOT_APT2 ≫= k master_rdp master_rd g_apt_master) y = k SLOT_RD2 pr (Some gpa) SLOT_APT2 x) ∧
    read_apt SLOT_APT2 x = Ok (papt, x) ∧ read_apt SLOT_APT x = Ok (a, x).
Proof using L HL.
  intros Hra Hapt Hpe Hk Hkp x. destruct Hpe as [P1 P2 _ _ P5 P6 _].
  destruct (realm_facts _ _ _ _ _ P1) as (_ & _ & p & _ & _ & Hadr & Hm & Hp & _).
  destruct (apt_granule _ _ _ _ _ _ _ P1 P2) as (_ & _ & Hadrpa & Hnpa & _ & Hfpa).
  destruct (apt_granule _ _ _ _ _ _ _ Hra Hapt) as (_ & _ & _ & Hna & _).
  destruct P2 as (Hu & Hnz & Hlpa & Hpa). apply bind_Some in Hpa as (ppa & Hmpa & Hppa).
  destruct Hk as (Hgr & Hokd & Hga & _ & Hs), Hkp as (Hg & Hok & Hgpa & _ & _).
  assert (Hnga : g_prd ≠ ga).
  { intros ->. rewrite Hg in Hga. apply (inj Some) in Hga. by apply Gr_inj in Hga as (_ & ? & _). }
  assert (Hngpa : gpa ≠ g_rd).
  { intros ->. rewrite Hgr in Hgpa. apply (inj Some) in Hgpa. by apply Gr_inj in Hgpa as (_ & ? & _). }
  pose proof (lockable_find _ _ _ _ (ra_lock _ _ _ _ _ P1)) as Hf. unfold csm_locked. st_norm.
  destruct Hapt as (_ & _ & _ & Hpa). apply bind_Some in Hpa as (qa & Hma & Hqa).
  eexists. split; [apply (find_lock_run _ _ g_prd _ rcp tagp Hf); [lk_solve|exact Hok|reflexivity]|].
  split; [|unfold x, attach_locked, csm_locked; st_norm; split].
  - intros B k. st_norm. exec map_assert_run. exec read_rd_run.
    erewrite bind_run; [|apply (find_lock_run _ _ gpa _ 0 tagpa Hfpa); [lk_solve|done|reflexivity]]. st_norm.
    unfold map_apt. rewrite bind_assoc. erewrite bind_run by (by apply massert_run). rewrite bind_assoc.
    erewrite bind_run by (by apply mderef_run). exec map_assert_run. done.
  - unfold read_apt. exec read_page_run. by rewrite (mderef_run _ papt).
  - unfold read_apt. exec read_page_run. by rewrite (mderef_run _ a).
Qed.

(** Releasing all of them, from a state [x'] in which only tables of [T] changed. *)
Lemma attach_close s x' T rcp tagp g_prd gpa tagpa g_rd rcd tagd ga taga {B} (k : () → M state B) :
  keeps g_rd rcd tagd ga taga s → keeps g_prd rcp tagp gpa tagpa s → g_prd ≠ g_rd → gpa ≠ ga → g_prd ≠ ga → gpa ≠ g_rd →
  T !! g_rd = None → T !! ga = None → T !! g_prd = None → T !! gpa = None →
  tables_only T (attach_locked g_prd rcp tagp gpa tagpa g_rd rcd tagd ga taga s) x' →
  ∃ s', (close_buf SLOT_APT ga ≫= λ _, close_buf SLOT_APT2 gpa ≫= λ _, close_buf SLOT_RD g_rd ≫= λ _,
         close_buf SLOT_RD2 g_prd ≫= k) x' = k () s' ∧
    tables_only T s s' ∧ mem s' = mem x' ∧ (∀ j y, T !! j = Some y → granules s' !! j = granules x' !! j) ∧ tlbi s' = tlbi x'.
Proof using.
  clear L HL. intros (Hg & Hok & Hga & Hna & Hs) (Hgp & Hokp & Hgpa & Hnpa & _) N1 N2 N3 N4 T1 T2 T3 T4 [Heq Hto].
  unfold attach_locked, csm_locked in *. cbn [granules mem put_granule set_granules set_slots] in Hto.
  assert (G1 : granules x' !! ga = Some (Gr true GRANULE_STATE_APT 0 taga)) by (rewrite (proj1 (Hto ga T2)); lk_solve).
  assert (G2 : granules x' !! gpa = Some (Gr true GRANULE_STATE_APT 0 tagpa)) by (rewrite (proj1 (Hto gpa T4)); lk_solve).
  assert (G3 : granules x' !! g_rd = Some (Gr true GRANULE_STATE_RD rcd tagd)) by (rewrite (proj1 (Hto g_rd T1)); lk_solve).
  assert (G4 : granules x' !! g_prd = Some (Gr true GRANULE_STATE_RD rcp tagp)) by (rewrite (proj1 (Hto g_prd T3)); lk_solve).
  assert (Hsl : slots x' = <[SLOT_APT2 := gpa]> (<[SLOT_RD2 := g_prd]> (<[SLOT_APT := ga]> (<[SLOT_RD := g_rd]> ∅)))) by (by rewrite Heq).
  assert (E1 : slots x' !! SLOT_APT = Some ga) by (by rewrite Hsl).
  assert (E2 : slots x' !! SLOT_APT2 = Some gpa) by (by rewrite Hsl).
  assert (E3 : slots x' !! SLOT_RD = Some g_rd) by (by rewrite Hsl).
  assert (E4 : slots x' !! SLOT_RD2 = Some g_prd) by (by rewrite Hsl).
  eexists. split.
  - unfold close_buf. assoc. exec buffer_unmap_run. assoc. exec granule_unlock_run. assoc. exec buffer_unmap_run. assoc.
    exec granule_unlock_run. assoc. exec buffer_unmap_run. assoc. exec granule_unlock_run. assoc. exec buffer_unmap_run. exec granule_unlock_run.
    reflexivity.
  - assert (Hgr : ∀ j, granules x' !! j = if decide (T !! j = None) then
        if decide (j = gpa) then Some (Gr true GRANULE_STATE_APT 0 tagpa) else if decide (j = g_prd) then Some (Gr true GRANULE_STATE_RD rcp tagp)
        else if decide (j = ga) then Some (Gr true GRANULE_STATE_APT 0 taga) else if decide (j = g_rd) then Some (Gr true GRANULE_STATE_RD rcd tagd)
        else granules s !! j else granules x' !! j).
    { intros j. destruct (decide (T !! j = None)) as [Hj|]; [|done]. rewrite (proj1 (Hto j Hj)).
      repeat (destruct (decide _) as [->|]; [lk_solve|]). by rewrite !lookup_insert_ne by done. }
    split; [split|split; [|split]].
    + assert (V : vttbr_el2 x' = vttbr_el2 s ∧ tags x' = tags s ∧ csm_ids x' = csm_ids s ∧ vmids x' = vmids s)
        by (rewrite Heq; split_and!; reflexivity).
      destruct V as (-> & -> & -> & ->). st_norm. f_equal. by rewrite Hs, Hsl.
    + intros j Hj. cbn [granules mem]. split; [|by apply Hto].
      destruct (decide (j = g_prd)) as [->|]; [by rewrite lookup_insert_eq|]. rewrite lookup_insert_ne by done.
      destruct (decide (j = g_rd)) as [->|]; [by rewrite lookup_insert_eq|]. rewrite lookup_insert_ne by done.
      destruct (decide (j = gpa)) as [->|]; [by rewrite lookup_insert_eq|]. rewrite lookup_insert_ne by done.
      destruct (decide (j = ga)) as [->|]; [by rewrite lookup_insert_eq|]. rewrite lookup_insert_ne by done.
      rewrite Hgr, decide_True by done. by rewrite !decide_False by done.
    + done.
    + intros j y Hj. cbn [granules]. by rewrite !lookup_insert_ne by congruence.
    + done.
Qed.

(** The same when nothing changed. *)
Lemma attach_close_same s rcp tagp g_prd gpa tagpa g_rd rcd tagd ga taga {B} (k : () → M state B) :
  keeps g_rd rcd tagd ga taga s → keeps g_prd rcp tagp gpa tagpa s → g_prd ≠ g_rd → gpa ≠ ga → g_prd ≠ ga → gpa ≠ g_rd →
  (close_buf SLOT_APT ga ≫= λ _, close_buf SLOT_APT2 gpa ≫= λ _, close_buf SLOT_RD g_rd ≫= λ _,
   close_buf SLOT_RD2 g_prd ≫= k) (attach_locked g_prd rcp tagp gpa tagpa g_rd rcd tagd ga taga s) = k () s.
Proof using.
  clear L HL. intros Hk Hkp N1 N2 N3 N4.
  destruct (attach_close s (attach_locked g_prd rcp tagp gpa tagpa g_rd rcd tagd ga taga s) ∅ rcp tagp g_prd gpa tagpa g_rd rcd tagd ga taga k)
    as (s' & -> & [Heq Hto] & Hm & _ & Htl); try done. f_equal. rewrite Heq, Hm, Htl.
  assert (granules s' = granules s) as -> by (apply map_eq; intros j; by apply Hto). by destruct s.
Qed.

(** C2: attaching the pages of a region. When the slot of the caller's table names a master
    that still owns the region, every page of the region is mapped in the master, and the
    caller has a page entry without a page for each, RSI_CSM_ATTACH succeeds: afterwards the
    caller translates each page of the range to exactly what the master translates it to, no
    other page entry changes, nothing but the caller's tables changes, and both realms stay
    well-formed. Neither the slot being in use nor a share of the region is asked for. *)
Theorem csm_attach_spec s rd_addr g_rd r T ga a rc x ex res prd_addr g_prd pr PT gpa papt sm idx m n :
  realm_at s rd_addr g_rd r T → realm_apt s r ga a → peer s g_rd T ga prd_addr g_prd pr PT gpa papt →
  ri_g_rd rc = g_rd → regs rc !! 1%nat = Some x →
  0 <= to_int x → slave_memory a !! Z.to_nat (to_int x) = Some sm → master_rd_pa sm = prd_addr →
  master_at papt (s_region_ID sm) idx m → (∀ j m', master_at papt (s_region_ID sm) j m' → m' = m) →
  m_map_size m = Z.of_nat n * 4096 → 0 <= m_ipa_start m → m_ipa_start m + m_map_size m <= 2 ^ 52 →
  0 <= s_ipa_start sm → s_ipa_start sm mod 4096 = 0 → s_ipa_start sm + m_map_size m <= 2 ^ 52 →
  (∀ j, (j < n)%nat → can_attach pr r PT T s (m_ipa_start m + Z.of_nat j * 4096) (s_ipa_start sm + Z.of_nat j * 4096)) →
  ∃ s', handle_rsi_csm_attach rc ex res s
        = Ok ((ex, set_res (set_x0 RSI_SUCCESS) (set_action UPDATE_REC_RETURN_TO_REALM res)), s') ∧
    realm_at s' rd_addr g_rd r T ∧ realm_at s' prd_addr g_prd pr PT ∧ tables_only T s s' ∧
    (∀ j pa, (j < n)%nat → translates s (s2_ctx pr) PT (m_ipa_start m + Z.of_nat j * 4096) pa →
       translates s' (s2_ctx r) T (s_ipa_start sm + Z.of_nat j * 4096) pa) ∧
    ∀ y e, 0 <= y → y mod 4096 = 0 → ¬ (s_ipa_start sm <= y < s_ipa_start sm + m_map_size m) →
      page_entry s' T y e ↔ page_entry s T y e.
Proof using L HL.
  intros Hra Hapt Hpe Hrd Hx Hx0 Hsm Hmpa Hmat Huniq Hsize Hmb Hmf Hsb Hsal Hsf Hcan.
  destruct (keeps_exists _ _ _ _ _ _ _ Hra Hapt) as (rcd & tagd & taga & Hk).
  destruct (keeps_exists _ _ _ _ _ _ _ (pe_realm _ _ _ _ _ _ _ _ _ _ Hpe) (pe_apt _ _ _ _ _ _ _ _ _ _ Hpe)) as (rcp & tagp & tagpa & Hkp).
  destruct (peer_open _ _ _ _ _ _ _ _ _ _ _ _ _ _ _ _ _ _ _ Hra Hapt Hpe Hk Hkp) as (y & Hfind & Hopen & Hread & _).
  set (st := attach_locked g_prd rcp tagp gpa tagpa g_rd rcd tagd ga taga s) in *.
  destruct Hpe as [P1 P2 P3 _ P5 P6 P7].
  destruct (Hk) as (Hg & Hok & Hga & Hna & Hs), (Hkp) as (Hgp & Hokp & Hgpa & Hnpa & _).
  assert (T1 : T !! g_rd = None) by (by eapply not_table). assert (T2 : T !! ga = None) by (by eapply (not_table s rd_addr g_rd)).
  assert (T3 : T !! g_prd = None) by (by eapply (not_table s rd_addr g_rd)). assert (T4 : T !! gpa = None) by (by eapply (not_table s rd_addr g_rd)).
  assert (U1 : PT !! g_rd = None) by (by eapply (not_table s prd_addr g_prd)). assert (U2 : PT !! ga = None) by (by eapply (not_table s prd_addr g_prd)).
  assert (U3 : PT !! g_prd = None) by (by eapply (not_table s prd_addr g_prd)). assert (U4 : PT !! gpa = None) by (by eapply (not_table s prd_addr g_prd)).
  assert (Hdis : ∀ k u, T !! k = Some u → PT !! k = None).
  { intros k u Hu. destruct (PT !! k) eqn:E; [|done]. apply P7 in E. congruence. }
  assert (Hst : ∀ T', T' !! g_rd = None → T' !! ga = None → T' !! g_prd = None → T' !! gpa = None → tables_same T' s st).
  { intros T' N1 N2 N3 N4. unfold st, attach_locked, csm_locked.
    repeat first [ apply tables_same_slots | eapply tables_same_trans; [|apply tables_same_slots]
                 | eapply tables_same_trans; [|by apply tables_same_put] ]. by intros k u Hu. }
  pose proof (Hst T T1 T2 T3 T4) as HsT. pose proof (Hst PT U1 U2 U3 U4) as HsP.
  assert (Hmem : mem st = mem s) by reflexivity.
  assert (Hboth : both pr r PT T st).
  { split; [eapply rtt_inv_same; [apply (ra_inv _ _ _ _ _ P1)|done]|].
    split; [eapply rtt_inv_same; [apply (ra_inv _ _ _ _ _ Hra)|done]|done]. }
  destruct (attach_loop_run pr r PT T Hdis (m_ipa_start m) (s_ipa_start sm) n (S n) 0 st walk_res_zero Hboth) as (x' & Hloop & [B1 B2 B3 B4]);
    [|done|done|done|lia|lia|lia|].
  { intros j Hj. destruct (Hcan j ltac:(lia)) as (C1 & C2 & C3 & C4 & (e & ty & q & Hpe & Hq) & p & Hp & Hpl).
    split_and!; try done; try lia.
    - exists e, ty, q. split; [|done]. apply (page_entry_mem s st); [|done]. intros. by rewrite Hmem.
    - exists p. split; [|done]. eapply translates_mem; [|exact Hp]. intros. by rewrite Hmem. }
  change (Z.of_nat 0) with 0 in Hloop. rewrite !Z.mul_0_l, !Z.add_0_r, Nat.add_0_l, <- Hsize in Hloop.
  assert (Hng : g_prd ≠ ga).
  { intros ->. rewrite Hgp in Hga. apply (inj Some) in Hga. by apply Gr_inj in Hga as (_ & ? & _). }
  assert (Hngp : gpa ≠ g_rd).
  { intros ->. rewrite Hg in Hgpa. apply (inj Some) in Hgpa. by apply Gr_inj in Hgpa as (_ & ? & _). }
  edestruct (attach_close s x' T rcp tagp g_prd gpa tagpa g_rd rcd tagd ga taga (B := rmi_rec_exit * rsi_result))
    as (s' & Hclose & Hto & Hm' & Hgr & _); [done..|].
  exists s'. split.
  - unfold handle_rsi_csm_attach. cbv zeta. run_step (lift_run _ _ _ (aget_reg _ _ _ Hx)). rewrite Hrd.
    run_step (open_rd_keeps _ _ _ _ _ _ _ _ _ Hra Hk). rewrite (csm_locked_rd _ _ _ _ _ _ _ _ _ _ _ Hra Hapt Hk).
    rewrite map_apt_some.
    etransitivity; [exact (map_apt_run s rd_addr g_rd r T ga a rcd tagd taga (λ aptp a_slave, _) Hra Hapt Hk)|]. cbv beta.
    run_step (lift_run _ _ _ (aget_lookup _ _ _ Hx0 Hsm)). rewrite Hmpa. run_step Hfind. etransitivity; [apply Hopen|].
    erewrite bind_run by (by apply mderef_run). cbv beta. run_step Hread. unfold attach_region.
    destruct (find_master_at papt (s_region_ID sm) P3) as (i & Hi & [(m0 & Hm0)|[-> Hno]]); [|by destruct (Hno idx m)].
    pose proof (Huniq _ _ Hm0) as ->. destruct Hm0 as (Hi0 & _ & Hmi & _). rewrite bind_assoc.
    run_step (lift_run _ _ _ Hi). rewrite (proj2 (Z.ltb_ge i 0)) by lia. rewrite bind_assoc.
    run_step (lift_run _ _ _ (aget_lookup _ i m (proj1 Hi0) Hmi)). rewrite bind_assoc.
    rewrite (u64_small (m_ipa_start m + _)) by (unfold is_u64; lia).
    replace (Z.to_nat (m_map_size m / 4096)) with n by (rewrite Hsize, Z.div_mul by lia; lia).
    run_step Hloop. cbn [negb]. rewrite ret_bind. exact Hclose.
  - assert (HsT' : tables_same T x' s') by (intros k u Hu; split; [by apply Hgr with u|by rewrite Hm']).
    assert (Hinv' : rtt_inv s' (s2_ctx r) T) by (eapply rtt_inv_same; [apply B1|done]).
    split; [by apply (realm_at_tables s)|]. split.
    { apply (realm_at_others s s' (s2_ctx r) T); try done. }
    split; [done|]. split.
    + intros j pa Hj Htr. eapply translates_mem; [|apply (B3 j pa); [lia|]].
      * intros. by rewrite Hm'.
      * eapply translates_mem; [|exact Htr]. intros. by rewrite Hmem.
    + intros u e Hu Hu4 Hr. rewrite <- (page_entry_mem x' s') by (intros; by rewrite Hm').
      rewrite B4; [|done|done|lia]. rewrite (page_entry_mem st s) by (intros; by rewrite Hmem). done.
Qed.
End attach.
