(* ===== verification/CsmDemo.v ===== *)
(** The shared memory calls on two concrete realms: the statements about the calls applied to
    them, and what a realm can do with a region after it was revoked. *)
From S2P Require Import Prelude Types Granule Platform GranuleFind S2tte S2tt Apt RealmTag CsmId Measurement Buffer Delegate Walk Exec Realm Rtt RttTree RttFold RttCreate Data DataCreate DataDestroy CsmPropagate Rsi Csm CsmApt CsmSpec CsmUnmap CsmAttach CsmReserve.

#[local] Instance demo_config : Config := plain_config.

Lemma apt_exec_inv ops : ∀ a a', apt_inv a → Forall apt_op_ok ops → apt_exec a ops = Ok a' → apt_inv a'.
Proof.
  induction ops as [|o ops IH]; intros a a' Ha Hops; cbn [apt_exec]; [by intros [= <-]|].
  apply Forall_cons in Hops as [Ho Hops]. destruct (apt_step_inv a o Ha Ho) as (b & -> & Hb). by apply IH.
Qed.

Definition apt_of (ops : list apt_op) : apt :=
  match apt_exec apt_zero ops with Ok a => a | Err _ => apt_zero end.

Lemma apt_of_inv ops : Forall apt_op_ok ops → apt_inv (apt_of ops).
Proof.
  intros Hops. unfold apt_of. destruct (apt_exec apt_zero ops) as [a|] eqn:Ha; [|apply apt_inv_zero].
  by eapply apt_exec_inv; [apply apt_inv_zero| |].
Qed.

(** The slave, tag 2, has the page at 4096; it is the page at 2^20 + 4096 of the master, tag 1. *)
Definition page_master : apt_op := AAddMaster 9 (2 ^ 20 + 4096) 4096 true.
Definition page_share : apt_op := AAddShare 0 2 0 3.
Definition page_slave : apt_op := AAddSlave 1 9 (7 * 4096) 4096 4096 true.

Definition demo_tags : tag_registry :=
  {| g_tags := {| te_rd_pa := 0; te_tag := 2; te_in_use := true |}
               :: {| te_rd_pa := 7 * 4096; te_tag := 1; te_in_use := true |} :: replicate 8 tag_entry_zero;
     g_tag_lock := false; g_tag_next_index := 2; g_tag_counter := 1 |}.
Definition demo_ids : csm_registry :=
  {| g_csm_region_ids := {| ce_region_id := 9; ce_owner_rd_pa := 7 * 4096; ce_in_use := true |} :: replicate 63 csm_entry_zero;
     g_csm_region_id_lock := false; g_csm_region_id_counter := 10 |}.

Lemma demo_tags_inv : tag_inv demo_tags.
Proof.
  split; try done.
  - cbn. apply NoDup_cons. split; [|apply NoDup_singleton]. by intros H%list_elem_of_singleton.
  - cbn. apply NoDup_cons. split; [|apply NoDup_singleton]. by intros H%list_elem_of_singleton.
  - by repeat constructor.
Qed.
Lemma demo_ids_inv : csm_inv demo_ids.
Proof. split; try done; [apply NoDup_singleton|by repeat constructor]. Qed.

(** [so] and [mo] made the tables of regions; [l] and [l'] are the page tables. *)
Definition csm_state (so mo : list apt_op) (l l' : list Z) : state :=
  set_tags demo_tags (set_csm_ids demo_ids
    (set_mem (<[6 := PApt (apt_of so)]> (<[11 := PApt (apt_of mo)]> (mem (pair_state l (count 3 l) l' (count 3 l')))))
      (pair_state l (count 3 l) l' (count 3 l')))).

Lemma demo_slave_at so mo l l' :
  length l = 512%nat → length l' = 512%nat → (∀ idx e, l !! idx = Some e → ∃ ty pa, is_made (pair_ctx 0) ty pa 3 e) →
  realm_at (P := pair_platform) (csm_state so mo l l') 0 0 (pair_rd 0 (6 * 4096)) (pair_tables 0) ∧
  realm_apt (P := pair_platform) (csm_state so mo l l') (pair_rd 0 (6 * 4096)) 6 (apt_of so).
Proof.
  intros Hl Hl' H3. pose proof (pair_has_slave l l' Hl Hl') as [Hq Hsl Hlk Hrd G1 G2 G3 M1 M2 M3]. split.
  - apply (pair_realm_at _ 0 (6 * 4096) l); [by left|by split|done|done].
  - done.
Qed.
Lemma demo_master_at so mo l l' :
  length l = 512%nat → length l' = 512%nat → (∀ idx e, l' !! idx = Some e → ∃ ty pa, is_made (pair_ctx 7) ty pa 3 e) →
  realm_at (P := pair_platform) (csm_state so mo l l') (7 * 4096) 7 (pair_rd 7 (11 * 4096)) (pair_tables 7) ∧
  realm_apt (P := pair_platform) (csm_state so mo l l') (pair_rd 7 (11 * 4096)) 11 (apt_of mo).
Proof.
  intros Hl Hl' H3. pose proof (pair_has_master l l' Hl Hl') as [Hq Hsl Hlk Hrd G1 G2 G3 M1 M2 M3]. split.
  - apply (pair_realm_at _ 7 (11 * 4096) l'); [by right|by split|done|done].
  - done.
Qed.

(** A record of the realm with descriptor [g_rd] that makes a call with three arguments. *)
Definition caller (g_rd x1 x2 x3 : Z) : rec :=
  set_regs [0; x1; x2; x3] (set_runnable true (set_realm_info
    {| inf_g_rd := g_rd; inf_pmu_enabled := false; inf_pmu_num_ctrs := 0; inf_algorithm := HASH_SHA_256;
       inf_simd_cfg := simd_config_zero; inf_s2_ctx := pair_ctx g_rd |} rec_zero)).
Definition no_exit : rmi_rec_exit := rmi_rec_exit_zero.
Definition no_result : rsi_result := {| action := 0; rtt_level := 0; smc_res := demo_res |}.
Definition the_share : Z := apt_make_sharing_id 9 1 2.

(** The only used region of a table is the first one. *)
Lemma only_first (used : Z → bool) idx :
  forallb (λ i, negb (used i)) (seqZ 1 19) = true → 0 <= idx < 20 → used idx = true → idx = 0.
Proof.
  intros Hall Hidx Hu. rewrite forallb_forall in Hall. destruct (decide (idx = 0)) as [|Hne]; [done|].
  specialize (Hall idx). rewrite <- list_elem_of_In, elem_of_seqZ, Hu in Hall. by specialize (Hall ltac:(lia)).
Qed.

Lemma page_slave_fits : slaves_fit (pair_rd 0 (6 * 4096)) (apt_of [page_slave]).
Proof.
  intros id idx m (Hidx & Hu & Hm & _). apply only_first in Hu as ->; [|done|done].
  change (Some (new_slave 1 9 (7 * 4096) 4096 4096) = Some m) in Hm. injection Hm as <-. by split_and!.
Qed.
Lemma master_fits ops : slave_used_mask (apt_of ops) = 0 → slaves_fit (pair_rd 7 (11 * 4096)) (apt_of ops).
Proof.
  intros Hz id idx m (Hidx & Hu & _). unfold apt_slave_used, mask_bit in Hu. rewrite Hz in Hu.
  by destruct (apt_idx_in_range idx).
Qed.

(** Each realm as the other's. *)
Lemma demo_peer_slave mo l l' :
  length l = 512%nat → length l' = 512%nat → (∀ idx e, l !! idx = Some e → ∃ ty pa, is_made (pair_ctx 0) ty pa 3 e) →
  peer (P := pair_platform) (csm_state [page_slave] mo l l') 7 (pair_tables 7) 11 0 0 (pair_rd 0 (6 * 4096)) (pair_tables 0) 6
    (apt_of [page_slave]).
Proof.
  intros Hl Hl' H3. destruct (demo_slave_at [page_slave] mo l l' Hl Hl' H3) as [Hr Ha]. split; try done.
  - apply apt_of_inv. by repeat constructor.
  - apply page_slave_fits.
  - intros k x. unfold pair_tables. rewrite !lookup_insert_Some, lookup_singleton_Some.
    by intros [[<- _]|[_ [[<- _]|[_ [<- _]]]]].
Qed.
Lemma demo_peer_master so mo l l' :
  Forall apt_op_ok mo → slave_used_mask (apt_of mo) = 0 →
  length l = 512%nat → length l' = 512%nat → (∀ idx e, l' !! idx = Some e → ∃ ty pa, is_made (pair_ctx 7) ty pa 3 e) →
  peer (P := pair_platform) (csm_state so mo l l') 0 (pair_tables 0) 6 (7 * 4096) 7 (pair_rd 7 (11 * 4096)) (pair_tables 7) 11
    (apt_of mo).
Proof.
  intros Hops Hz Hl Hl' H3. destruct (demo_master_at so mo l l' Hl Hl' H3) as [Hr Ha]. split; try done.
  - by apply apt_of_inv.
  - by apply master_fits.
  - intros k x. unfold pair_tables. rewrite !lookup_insert_Some, lookup_singleton_Some.
    by intros [[<- _]|[_ [[<- _]|[_ [<- _]]]]].
Qed.

Lemma empty_len : length (replicate 512 0) = 512%nat.
Proof. reflexivity. Qed.
Lemma page_len n : length (pair_page n) = 512%nat.
Proof. unfold pair_page. by rewrite length_insert. Qed.

(** The realms of the states below are well-formed, and no table has anything it should not. *)
Definition slave_empty so mo := demo_slave_at so mo _ _ empty_len (page_len 257) (pair_empty 0).
Definition slave_page so mo := demo_slave_at so mo _ _ (page_len 1) (page_len 257) (pair_page_made 0 1).
Definition master_page so mo l Hl := demo_master_at so mo l _ Hl (page_len 257) (pair_page_made 7 257).

Ltac apt_of_ok := apply apt_of_inv; by repeat constructor.

Lemma csm_create_spec_witness :
  ∃ out s', handle_rsi_csm_create (P := pair_platform) (H := zero_machine) (caller 7 0 8192 4096) no_exit no_result
        (csm_state [] [page_master] (replicate 512 0) (pair_page 257)) = Ok (out, s') ∧
    x0 (smc_res out.2) = RSI_SUCCESS ∧
    realm_at (P := pair_platform) s' (7 * 4096) 7 (pair_rd 7 (11 * 4096)) (pair_tables 7).
Proof.
  destruct (master_page [] [page_master] _ empty_len) as [Hra Hapt].
  destruct (csm_create_spec (P := pair_platform) (H := zero_machine) (L := pair_laws) (HL := pair_machine_laws)
    (csm_state [] [page_master] (replicate 512 0) (pair_page 257)) _ _ _ _ _ _ (caller 7 0 8192 4096) 8192 4096 no_exit no_result
    Hra Hapt ltac:(apt_of_ok) demo_ids_inv eq_refl eq_refl eq_refl) as (out & s' & Hrun & Hout & Hra' & _).
  exists out, s'. split; [exact Hrun|]. split; [|exact Hra'].
  destruct Hout as [(_ & _ & i & Hc)|[(_ & [Hids|Hfull] & _)|(id & idx & a' & c & -> & _)]]; [..|reflexivity].
  - destruct Hc as [Hc _]. change (apt_idx_in_range i && mask_bit 0 i = true) in Hc. by destruct (apt_idx_in_range i).
  - by vm_compute in Hids.
  - by specialize (Hfull 1 ltac:(lia)).
Defined.

Lemma csm_share_spec_witness :
  ∃ out s', handle_rsi_csm_share (P := pair_platform) (H := zero_machine) (caller 7 9 2 3) no_exit no_result
        (csm_state [] [page_master] (replicate 512 0) (pair_page 257)) = Ok (out, s') ∧
    realm_at (P := pair_platform) s' (7 * 4096) 7 (pair_rd 7 (11 * 4096)) (pair_tables 7).
Proof.
  destruct (master_page [] [page_master] _ empty_len) as [Hra Hapt].
  destruct (csm_share_spec (P := pair_platform) (H := zero_machine) (L := pair_laws) (HL := pair_machine_laws)
    (csm_state [] [page_master] (replicate 512 0) (pair_page 257)) _ _ _ _ _ _ (caller 7 9 2 3) 9 2 3 no_exit no_result
    Hra Hapt ltac:(apt_of_ok) demo_tags_inv eq_refl eq_refl eq_refl eq_refl) as (out & s' & Hrun & _ & Hra' & _).
  exists out, s'. split; [exact Hrun|exact Hra'].
Defined.

Lemma csm_destroy_spec_witness :
  ∃ out s', handle_rsi_csm_destroy (P := pair_platform) (H := zero_machine) (caller 7 9 0 0) no_exit no_result
        (csm_state [] [page_master; page_share] (replicate 512 0) (pair_page 257)) = Ok (out, s') ∧
    realm_at (P := pair_platform) s' (7 * 4096) 7 (pair_rd 7 (11 * 4096)) (pair_tables 7).
Proof.
  destruct (master_page [] [page_master; page_share] _ empty_len) as [Hra Hapt].
  destruct (csm_destroy_spec (P := pair_platform) (H := zero_machine) (L := pair_laws) (HL := pair_machine_laws)
    (csm_state [] [page_master; page_share] (replicate 512 0) (pair_page 257)) _ _ _ _ _ _ (caller 7 9 0 0) 9 no_exit no_result
    Hra Hapt ltac:(apt_of_ok) demo_ids_inv eq_refl eq_refl) as (out & s' & Hrun & _ & Hra' & _).
  exists out, s'. split; [exact Hrun|exact Hra'].
Defined.

Lemma csm_detach_spec_witness :
  ∃ out s', handle_rsi_csm_detach_and_free (P := pair_platform) (H := zero_machine) (caller 0 the_share 0 0) no_exit no_result
        (csm_state [page_slave] [page_master; page_share] (pair_page 1) (pair_page 257)) = Ok (out, s') ∧
    realm_at (P := pair_platform) s' 0 0 (pair_rd 0 (6 * 4096)) (pair_tables 0).
Proof.
  destruct (slave_page [page_slave] [page_master; page_share]) as [Hra Hapt].
  destruct (csm_detach_spec (P := pair_platform) (H := zero_machine) (L := pair_laws) (HL := pair_machine_laws)
    (csm_state [page_slave] [page_master; page_share] (pair_page 1) (pair_page 257)) _ _ _ _ _ _ (caller 0 the_share 0 0)
    the_share no_exit no_result Hra Hapt ltac:(apt_of_ok) page_slave_fits demo_tags_inv eq_refl eq_refl)
    as (out & s' & Hrun & Hra' & _).
  exists out, s'. split; [exact Hrun|exact Hra'].
Defined.

Lemma master_at_shared id idx m :
  master_at (apt_of [page_master; page_share]) id idx m →
  used_shares m = [{| slave_ID := 2; slave_rd_pa := 0; permission := 3; in_use := true |}].
Proof.
  intros (Hidx & Hu & Hm & _). apply only_first in Hu as ->; [|done|done].
  vm_compute in Hm. by injection Hm as <-.
Qed.




Lemma csm_attach_spec_witness :
  ∃ s', handle_rsi_csm_attach (P := pair_platform) (H := zero_machine) (caller 0 0 0 0) no_exit no_result
        (csm_state [page_slave] [page_master; page_share] (replicate 512 0) (pair_page 257))
      = Ok ((no_exit, set_res (set_x0 RSI_SUCCESS) (set_action UPDATE_REC_RETURN_TO_REALM no_result)), s') ∧
    translates s' (pair_ctx 0) (pair_tables 0) 4096 (4 * 4096).
Proof.
  destruct (slave_empty [page_slave] [page_master; page_share]) as [Hra Hapt].
  assert (Htr : translates (csm_state [page_slave] [page_master; page_share] (replicate 512 0) (pair_page 257))
    (pair_ctx 7) (pair_tables 7) (2 ^ 20 + 4096) (4 * 4096)).
  { exists 10, 3, (4 * 4096 + S2TTE_PAGE), (4 * 4096). split; [|done].
    exists 0, (pair_page 257). split; [done|]. split; [by left|]. done. }
  destruct (csm_attach_spec (P := pair_platform) (H := zero_machine) (L := pair_laws) (HL := pair_machine_laws)
    (csm_state [page_slave] [page_master; page_share] (replicate 512 0) (pair_page 257)) _ _ _ _ _ _ (caller 0 0 0 0)
    0 no_exit no_result (7 * 4096) 7 (pair_rd 7 (11 * 4096)) (pair_tables 7) 11 (apt_of [page_master; page_share])
    (new_slave 1 9 (7 * 4096) 4096 4096) 0
    {| m_region_ID := 9; m_ipa_start := 2 ^ 20 + 4096; m_map_size := 4096; share_count := 1;
       shares := [{| slave_ID := 2; slave_rd_pa := 0; permission := 3; in_use := true |}; master_share_zero; master_share_zero] |} 1 Hra Hapt
    (demo_peer_master [page_slave] [page_master; page_share] _ _ ltac:(by repeat constructor) eq_refl empty_len (page_len 257)
       (pair_page_made 7 257)) eq_refl eq_refl ltac:(by vm_compute) eq_refl eq_refl
    ltac:(split; [lia|split; [reflexivity|split; vm_compute; reflexivity]]))
    as (s' & Hrun & _ & _ & _ & Ht & _); [|reflexivity|by vm_compute|by vm_compute|by vm_compute|reflexivity|by vm_compute|..].
  - intros j m' (Hj & Hu & Hm & _). apply only_first in Hu as ->; [|done|done]. vm_compute in Hm. by injection Hm as <-.
  - intros j Hj. assert (j = 0%nat) as -> by lia. split; [by vm_compute|]. do 3 (split; [by vm_compute|]). split; [|by exists (4 * 4096)].
    exists 0, UnassignedEmpty, 0. split; [|split; [by apply pair_zero_made|done]].
    exists 3, 0, (replicate 512 0). split; [done|]. split; [by split|]. done.
  - exists s'. split; [exact Hrun|]. exact (Ht 0%nat _ ltac:(lia) Htr).
Defined.

(** What the slave's page entry maps. *)
Definition slave_entry (s : state) : option Z := table_of s 3 ≫= (.!! 1%nat).
Definition master_shares (s : state) : option (list master_share) :=
  match mem s !! 11 with
  | Some (PApt a) => option_map used_shares (master_memory a !! 0%nat)
  | _ => None
  end.

