(* ===== verification/AptCmd.v ===== *)
(** The RMI commands on tables of regions (runtime/rmi/apt.c): giving a realm its table, and
    taking it back with everything the realm shares. *)
From S2P Require Import Prelude Types Granule Platform GranuleFind S2tte S2tt Apt RealmTag CsmId Buffer Walk Exec Realm Rtt Rsi Csm.

Section aptcmd.
Context {P : Platform} {H : Machine} {CF : Config}.

(** * APT_CREATE *)

Definition smc_apt_create (rd_addr apt_addr : Z) : M state Z :=
  find_lock_two_granules apt_addr GRANULE_STATE_DELEGATED rd_addr GRANULE_STATE_RD ≫= λ og,
  match og with
  | None => mret RMI_ERROR_REALM
  | Some (g_apt, g_rd) =>
      map_assert g_rd SLOT_RD ≫= λ rdp,
      map_assert g_apt SLOT_APT ≫= λ aptp,
      write_page aptp (PApt (apt_reset apt_zero)) ≫= λ _,
      read_rd rdp ≫= λ r,
      (if negb (get_rd_state_locked r =? REALM_NEW) then mret RMI_ERROR_REALM
       else
         write_page rdp (PRd (set_rd_apt_pa apt_addr r)) ≫= λ _,
         zoom tags set_tags (realm_tag_assign rd_addr) ≫= λ _,
         mret RMI_SUCCESS) ≫= λ ret,
      buffer_unmap rdp ≫= λ _,
      buffer_unmap aptp ≫= λ _,
      granule_unlock g_rd ≫= λ _,
      granule_unlock_transition g_apt GRANULE_STATE_APT ≫= λ _, mret ret
  end.

(** * APT_DESTROY *)

Record saved_slave_entry := { se_master_rd_pa : Z; se_region_id : Z }.
Record saved_master_share := { ms_slave_rd_pa : Z; ms_region_id : Z }.

(** Phase 1, the regions this realm uses as slave, from [sj], [n] left: what is saved for
    phase 2. At most [MAX_MEM_REGIONS] entries are saved, so the test on [n_slave_entries]
    never fails. *)
Fixpoint destroy_slaves (n : nat) (sj aptp : Z) (r : rd) : M state (list saved_slave_entry) :=
  match n with
  | O => mret []
  | S n' =>
      read_apt aptp ≫= λ a,
      if negb (mask_bit (slave_used_mask a) sj) then destroy_slaves n' (sj + 1) aptp r
      else
        lift (aget (slave_memory a) sj) ≫= λ sm,
        lift (retire_slave a sj) ≫= λ a,
        lift (aset (slave_memory a) sj slave_mem_zero) ≫= λ l,
        write_page aptp (PApt (set_slave_memory l a)) ≫= λ _,
        for_pages (s_ipa_start sm) (s_map_size sm) (unmap_ipa_from_rd r) ≫= λ _,
        destroy_slaves n' (sj + 1) aptp r ≫= λ saved,
        mret ({| se_master_rd_pa := master_rd_pa sm; se_region_id := s_region_ID sm |} :: saved)
  end.

(** The shares of one region from [sk], [n] left: the region without them, and the realms
    they were given to. *)
Fixpoint clear_shares (n : nat) (sk : Z) (m : master_mem) : result (master_mem * list Z) :=
  match n with
  | O => Ok (m, [])
  | S n' =>
      aget (shares m) sk ≫= λ sh,
      if negb (in_use sh) then clear_shares n' (sk + 1) m
      else
        drop_share m sk ≫= λ m,
        clear_shares n' (sk + 1) m ≫= λ '(m, l), Ok (m, slave_rd_pa sh :: l)
  end.

(** Phase 1, the regions this realm owns. *)
Fixpoint destroy_masters (n : nat) (mi aptp : Z) : M state (list saved_master_share) :=
  match n with
  | O => mret []
  | S n' =>
      read_apt aptp ≫= λ a,
      if negb (mask_bit (master_used_mask a) mi) then destroy_masters n' (mi + 1) aptp
      else
        lift (aget (master_memory a) mi) ≫= λ m,
        lift (clear_shares (Z.to_nat CSM_MAX_MASTER_SHARES) 0 m) ≫= λ '(m', slaves),
        lift (set_master a mi m') ≫= λ a,
        zoom csm_ids set_csm_ids (csm_region_id_remove (m_region_ID m)) ≫= λ _,
        lift (retire_master a mi) ≫= λ a,
        write_page aptp (PApt a) ≫= λ _,
        destroy_masters n' (mi + 1) aptp ≫= λ saved,
        mret (((λ pa, {| ms_slave_rd_pa := pa; ms_region_id := m_region_ID m |}) <$> slaves) ++ saved)
  end.

(** Phase 2: in the master of a region this realm used, the share is dropped. *)
Definition notify_master (rd_addr : Z) (e : saved_slave_entry) : M state () :=
  find_lock_granule (se_master_rd_pa e) GRANULE_STATE_RD ≫= λ g_mrd,
  match g_mrd with
  | None => mret ()
  | Some g_mrd =>
      map_assert g_mrd SLOT_RD2 ≫= λ mrdp,
      read_rd mrdp ≫= λ mrd,
      find_lock_granule (apt_pa mrd) GRANULE_STATE_APT ≫= λ g_mapt,
      match g_mapt with
      | None => close_buf mrdp g_mrd
      | Some g_mapt =>
          map_assert g_mapt SLOT_APT2 ≫= λ maptp,
          read_apt maptp ≫= λ mapt,
          lift (apt_find_master_by_region_id mapt (se_region_id e)) ≫= λ midx,
          (if 0 <=? midx then
             lift (aget (master_memory mapt) midx) ≫= λ m,
             lift (first_index (Z.to_nat CSM_MAX_MASTER_SHARES) 0 (λ sk,
               aget (shares m) sk ≫= λ sh, Ok (in_use sh && (slave_rd_pa sh =? rd_addr)))) ≫= λ o,
             match o with
             | None => mret ()
             | Some sk =>
                 lift (drop_share m sk) ≫= λ m,
                 lift (set_master mapt midx m) ≫= λ mapt, write_page maptp (PApt mapt)
             end
           else mret ()) ≫= λ _,
          close_buf maptp g_mapt ≫= λ _,
          close_buf mrdp g_mrd
      end
  end.

(** Phase 2: in a realm that used a region of this one, the region and its pages go. *)
Definition notify_slave (e : saved_master_share) : M state () :=
  find_lock_granule (ms_slave_rd_pa e) GRANULE_STATE_RD ≫= λ g_srd,
  match g_srd with
  | None => mret ()
  | Some g_srd =>
      map_assert g_srd SLOT_RD2 ≫= λ srdp,
      read_rd srdp ≫= λ srd,
      find_lock_granule (apt_pa srd) GRANULE_STATE_APT ≫= λ g_sapt,
      match g_sapt with
      | None => close_buf srdp g_srd
      | Some g_sapt =>
          map_assert g_sapt SLOT_APT2 ≫= λ saptp,
          read_apt saptp ≫= λ sapt,
          lift (find_slave_region sapt (ms_region_id e)) ≫= λ found_idx,
          match found_idx with
          | None => close_buf saptp g_sapt
          | Some found_idx =>
              lift (aget (slave_memory sapt) found_idx) ≫= λ sm,
              lift (retire_slave sapt found_idx) ≫= λ sapt,
              lift (aset (slave_memory sapt) found_idx slave_mem_zero) ≫= λ l,
              write_page saptp (PApt (set_slave_memory l sapt)) ≫= λ _,
              close_buf saptp g_sapt ≫= λ _,
              for_pages (s_ipa_start sm) (s_map_size sm) (unmap_ipa_from_rd srd)
          end ≫= λ _,
          close_buf srdp g_srd
      end
  end.

Definition smc_apt_destroy (rd_addr apt_addr : Z) : M state Z :=
  find_lock_granule rd_addr GRANULE_STATE_RD ≫= λ g_rd,
  match g_rd with
  | None => mret RMI_ERROR_INPUT
  | Some g_rd =>
      map_assert g_rd SLOT_RD ≫= λ rdp,
      read_rd rdp ≫= λ r,
      if negb (apt_pa r =? apt_addr) then close_buf rdp g_rd ≫= λ _, mret RMI_ERROR_REALM
      else
        zoom tags set_tags (realm_tag_remove rd_addr) ≫= λ _,
        find_lock_granule apt_addr GRANULE_STATE_APT ≫= λ g_apt,
        massert (bool_decide (is_Some g_apt)) ≫= λ _,
        mderef g_apt ≫= λ g_apt,
        map_assert g_apt SLOT_APT ≫= λ aptp,
        destroy_slaves (Z.to_nat MAX_MEM_REGIONS) 0 aptp r ≫= λ slave_entries,
        destroy_masters (Z.to_nat MAX_MEM_REGIONS) 0 aptp ≫= λ master_shares,
        buffer_unmap aptp ≫= λ _,
        buffer_granule_memzero g_apt SLOT_APT ≫= λ _,
        granule_unlock_transition g_apt GRANULE_STATE_DELEGATED ≫= λ _,
        close_buf rdp g_rd ≫= λ _,
        mfor slave_entries (notify_master rd_addr) ≫= λ _,
        mfor master_shares notify_slave ≫= λ _,
        mret RMI_SUCCESS
  end.
End aptcmd.
