(* ===== verification/AptSpec.v ===== *)
(** What APT_CREATE and APT_DESTROY do: the realm gets a table and a tag, and gives both back
    with the identifiers of its regions. *)
From S2P Require Import Prelude Types Granule Platform GranuleFind S2tte S2tt Apt RealmTag CsmId Measurement Buffer Delegate Walk Exec Realm Rtt RttTree RttFold RttCreate Data DataCreate DataDestroy CsmPropagate Rsi Csm CsmApt CsmSpec CsmUnmap CsmDemo AptCmd.

Section aptspec.
Context {P : Platform} {H : Machine} {CF : Config} {L : PlatformLaws P} {HL : MachineLaws P H}.

Lemma realm_at_tags s rd_addr g_rd r T c :
  realm_at s rd_addr g_rd r T → realm_at (set_tags c s) rd_addr g_rd r T.
Proof using.
  clear L HL. intros Hra. eapply realm_at_frame; try done; [|apply (ra_quiet _ _ _ _ _ Hra)].
  by eapply rtt_inv_same; [apply (ra_inv _ _ _ _ _ Hra)|].
Qed.

(** What assigning the realm a tag does to the registry: a fresh tag, or nothing when the realm
    has one or no entry is free. *)
Definition tag_given (r r' : tag_registry) (rd_addr : Z) : Prop :=
  (r' = r ∧ ((∃ t, registered r rd_addr t) ∨ length (live r) = 10%nat))
  ∨ ∃ t, (∀ x, ¬ registered r x t) ∧ ∀ x u, registered r' x u ↔ registered r x u ∨ (x = rd_addr ∧ u = t).

Lemma tag_assign_run tr rd_addr :
  tag_inv tr → ∃ o c, realm_tag_assign rd_addr tr = Ok (o, c) ∧ tag_inv c ∧ tag_given tr c rd_addr.
Proof using.
  clear L HL. intros Hti. destruct (realm_tag_assign_cases _ rd_addr Hti) as [(t & c & Hrun & Hc & _ & _ & Hf & Hreg)|[Hrun Hwhy]].
  - exists (Some t), c. split; [done|]. split; [done|]. right. by exists t.
  - exists None, tr. split; [done|]. split; [done|]. by left.
Qed.

(** The end of APT_CREATE, whatever the pages and the registry are by then. *)
Lemma apt_create_close s g_rd rc tag h tagh m c ret :
  granules s !! g_rd = Some (Gr false GRANULE_STATE_RD rc tag) → gok GRANULE_STATE_RD rc → h ≠ g_rd → slots s = ∅ →
  (buffer_unmap SLOT_RD ≫= λ _, buffer_unmap SLOT_APT ≫= λ _, granule_unlock g_rd ≫= λ _,
   granule_unlock_transition h GRANULE_STATE_APT ≫= λ _, (mret ret : M state Z))
    {| granules := <[g_rd := Gr true GRANULE_STATE_RD rc tag]> (<[h := Gr true GRANULE_STATE_DELEGATED 0 tagh]> (granules s));
       mem := m; slots := <[SLOT_APT := h]> (<[SLOT_RD := g_rd]> ∅); vttbr_el2 := vttbr_el2 s; tlbi := tlbi s;
       tags := c; csm_ids := csm_ids s; vmids := vmids s |}
  = Ok (ret, set_tags c (set_mem m (put_granule h (Gr false GRANULE_STATE_APT 0 tagh) s))).
Proof using.
  clear L HL. intros Hg Hok Hne Hs. exec buffer_unmap_run. exec buffer_unmap_run. exec granule_unlock_run.
  exec granule_unlock_transition_run. unfold mret, M_ret, set_tags. st_norm. do 3 f_equal; [|by rewrite Hs; map_solve].
  apply map_eq. intros k. destruct (decide (k = h)) as [->|]; [by rewrite !lookup_insert_eq|].
  rewrite (lookup_insert_ne _ h k), (lookup_insert_ne (granules s) h k) by done.
  destruct (decide (k = g_rd)) as [->|]; [by rewrite lookup_insert_eq|]. by rewrite !lookup_insert_ne.
Qed.

(** APT_CREATE on a well-formed realm always returns. When the granule is not a delegated
    one the answer is an error and nothing changes. Otherwise the granule holds an empty
    table of regions and is in state APT, whatever the answer: for a new realm the answer is
    success, the descriptor names the table, and the realm has a tag that no other realm has
    (unless it had one or ten realms have one); for a realm that is not new any more the
    answer is an error and the granule, which no descriptor names, stays in state APT. *)
Theorem smc_apt_create_spec s rd_addr g_rd r T apt_addr :
  realm_at s rd_addr g_rd r T → is_u64 apt_addr → tag_inv (tags s) →
  ∃ ret s', smc_apt_create rd_addr apt_addr s = Ok (ret, s') ∧
    match lockable s apt_addr GRANULE_STATE_DELEGATED with
    | None => ret = RMI_ERROR_REALM ∧ s' = s
    | Some h =>
        ∃ tagh, let s0 := set_page h GRANULE_STATE_APT 0 tagh (PApt apt_zero) s in
        if rd_state r =? REALM_NEW then
          let r' := set_rd_apt_pa apt_addr r in
          ret = RMI_SUCCESS ∧
          (∃ c, s' = set_tags c (set_mem (<[g_rd := PRd r']> (mem s0)) s0) ∧ tag_inv c ∧ tag_given (tags s) c rd_addr) ∧
          realm_at s' rd_addr g_rd r' T ∧ (apt_addr ≠ 0 → realm_apt s' r' h apt_zero)
        else ret = RMI_ERROR_REALM ∧ s' = s0 ∧ realm_at s' rd_addr g_rd r T
    end.
Proof using L HL.
  intros Hra Hu Hti. unfold smc_apt_create.
  destruct (lockable s apt_addr GRANULE_STATE_DELEGATED) as [h|] eqn:Hl; cycle 1.
  { pose proof (find_lock_two_granules_spec s apt_addr GRANULE_STATE_DELEGATED rd_addr GRANULE_STATE_RD
      (ra_quiet _ _ _ _ _ Hra) Hu (ra_u64 _ _ _ _ _ Hra)) as Hf. rewrite Hl in Hf. run_step Hf. by eexists _, s. }
  destruct (realm_facts _ _ _ _ _ Hra) as (rc & tag & p & Hg & Hok & Hadr & Hm & Hp & _).
  destruct (new_table _ _ _ _ _ _ _ Hra Hu Hl) as (tagh & Hh & Hadrh & Hne & HTh & Haddr & Hna & H0).
  run_step (lock_both _ _ _ _ _ _ _ _ _ _ Hra Hu Hl Hne Hna Hh Hg Hok). unfold rd_locked. st_norm.
  rewrite (ra_slots _ _ _ _ _ Hra).
  exec map_assert_run. exec map_assert_run. exec write_page_run. erewrite bind_run; [|eapply read_rd_run; [exec_side..|exact Hp]].
  cbv beta. change (get_rd_state_locked r) with (rd_state r).
  pose proof (realm_at_set_page s rd_addr g_rd r T h GRANULE_STATE_APT tagh (PApt apt_zero) Hra HTh Hne ltac:(done) eq_refl) as Hra0.
  destruct (Z.eqb_spec (rd_state r) REALM_NEW) as [Hnew|Hnew]; cbn [negb]; cycle 1.
  - rewrite ret_bind, (apt_create_close s g_rd rc tag h tagh _ (tags s)) by (done || apply (ra_slots _ _ _ _ _ Hra)).
    eexists _, _. split; [reflexivity|]. exists tagh. done.
  - assoc. exec write_page_run. assoc.
    destruct (tag_assign_run (tags s) rd_addr Hti) as (o & c & Hrun & Hc & Hgiven).
    erewrite bind_run; [|apply zoom_run; exact Hrun]. cbv beta. rewrite ret_bind. unfold set_tags. st_norm.
    rewrite (apt_create_close s g_rd rc tag h tagh _ c) by (done || apply (ra_slots _ _ _ _ _ Hra)).
    eexists _, _. split; [reflexivity|]. exists tagh. split; [done|]. split; [by exists c|].
    split; [exact (realm_at_tags _ _ _ _ _ c (realm_at_rd _ _ _ _ _ (set_rd_apt_pa apt_addr r) Hra0 eq_refl))|].
    intros Hnz. split; [done|]. split; [done|]. split.
    + unfold lockable. cbn [apt_pa set_rd_apt_pa]. rewrite (lockable_find _ _ _ _ Hl). cbn. by rewrite lookup_insert_eq.
    + cbn. by rewrite lookup_insert_ne, lookup_insert_eq by done.
Qed.

(** * APT_DESTROY *)

(** A region that is shared with nobody stays as it is. *)
Lemma clear_shares_none m : ∀ n sk,
  used_shares m = [] → 0 <= sk → sk + Z.of_nat n = Z.of_nat (length (shares m)) → clear_shares n sk m = Ok (m, []).
Proof using.
  clear L HL. induction n as [|n IH]; intros sk Hnil Hsk Hlen; [done|]. cbn [clear_shares].
  destruct (lookup_lt_is_Some_2 (shares m) (Z.to_nat sk) ltac:(lia)) as [sh Hsh].
  rewrite (aget_lookup _ sk sh Hsk Hsh), result_bind_ok. destruct (in_use sh) eqn:Hu; cbn [negb]; [|apply IH; [done|lia..]].
  exfalso. assert (Hin : sh ∈ used_shares m) by (apply elem_of_filter_list; split; [by eapply list_elem_of_lookup_2|done]).
  rewrite Hnil in Hin. by apply not_elem_of_nil in Hin.
Qed.

Lemma read_apt_run s buf g p a :
  slots s !! buf = Some g → mem s !! g = Some p → page_apt p = Some a → read_apt buf s = Ok (a, s).
Proof using. clear L HL. intros Hb Hp Ht. unfold read_apt. run_step (read_page_run s _ _ _ Hb Hp). by rewrite Ht. Qed.

Definition unshared (a : apt) : Prop := ∀ id idx m, master_at a id idx m → used_shares m = [].

(** The regions from [mi] on: their identifiers are released, and nothing is left to tell the
    other realms. *)
Lemma destroy_masters_run g_rd rcd tagd ga taga : ∀ n mi s p a,
  apt_inv a → csm_inv (csm_ids s) → mem s !! ga = Some p → page_apt p = Some a → unshared a →
  0 <= mi → mi + Z.of_nat n = 20 →
  ∃ p' c, destroy_masters n mi SLOT_APT (csm_locked g_rd rcd tagd ga taga s)
      = Ok ([], csm_locked g_rd rcd tagd ga taga (set_csm_ids c (set_mem (<[ga := p']> (mem s)) s))) ∧ csm_inv c ∧
    ∀ y, y ∈ ids c ↔ y ∈ ids (csm_ids s) ∧ ∀ j m, mi <= j → ¬ master_at a y j m.
Proof using.
  clear L HL. induction n as [|n IH]; intros mi s p a Ha Hci Hp Hpa Hun Hmi Hn.
  { exists p, (csm_ids s). split; [|split; [done|]].
    - cbn [destroy_masters]. rewrite insert_id by done. by destruct s.
    - intros y. split; [|by intros [? _]]. intros Hy. split; [done|]. intros j m Hj ([_ Hj'] & _). lia. }
  cbn [destroy_masters]. erewrite bind_run; [|eapply (read_apt_run _ _ ga p a); [cbn; lk_solve|exact Hp|exact Hpa]]. cbv beta.
  assert (Hused : apt_master_used a mi = mask_bit (master_used_mask a) mi).
  { unfold apt_master_used, apt_idx_in_range. change MAX_MEM_REGIONS with 20. by rewrite (proj2 (Z.ltb_lt _ _)) by lia. }
  rewrite <- Hused. destruct (apt_master_used a mi) eqn:Hu; cbn [negb]; cycle 1.
  { destruct (IH (mi + 1) s p a) as (p' & c & Hrun & Hc & Hids); try done; [lia..|].
    exists p', c. split; [exact Hrun|]. split; [done|]. intros y. rewrite Hids. split; intros [Hy Hno]; (split; [done|]); intros j m Hj Hm.
    - destruct (decide (j = mi)) as [->|]; [destruct Hm as (_ & Hm & _); congruence|]. apply (Hno j m); [lia|done].
    - apply (Hno j m); [lia|done]. }
  destruct (lookup_lt_is_Some_2 (master_memory a) (Z.to_nat mi)) as [m Hm].
  { rewrite (ai_masters _ Ha). change (Z.to_nat MAX_MEM_REGIONS) with 20%nat. lia. }
  pose proof (Forall_lookup_1 _ _ _ _ (ai_master_ok _ Ha) Hm) as Hok.
  assert (Hmat : master_at a (m_region_ID m) mi m) by (by split; [lia|]).
  run_step (lift_run _ _ _ (aget_lookup _ mi m Hmi Hm)).
  assert (Hcl : clear_shares (Z.to_nat CSM_MAX_MASTER_SHARES) 0 m = Ok (m, [])).
  { apply clear_shares_none; [by eapply Hun|done|]. by rewrite (proj1 Hok). }
  run_step (lift_run _ _ _ Hcl). destruct (set_master_spec a mi m m Ha Hmi Hm Hok) as (a0 & Hset & _ & _ & Ha0).
  rewrite list_insert_id in Ha0 by done. assert (a0 = a) as -> by (rewrite Ha0; by destruct a).
  run_step (lift_run _ _ _ Hset).
  destruct (csm_region_id_remove_cases (csm_ids s) (m_region_ID m) Hci) as (b & c1 & Hrem & Hc1 & _ & Hy1).
  erewrite bind_run; [|apply zoom_run; exact Hrem]. cbv beta.
  destruct (retire_master_spec a mi Ha ltac:(lia)) as (a1 & Hret & Ha1 & _ & Hmem1 & Hue). run_step (lift_run _ _ _ Hret).
  erewrite bind_run; [|apply (write_page_run _ _ ga); cbn; lk_solve]. cbv beta.
  assert (Hat : ∀ id j x, 0 <= j → master_at a1 id j x ↔ master_at a id j x ∧ j ≠ mi).
  { intros id j x Hj. unfold master_at. destruct (Hue j Hj) as [-> _]. rewrite Hmem1.
    destruct (Z.eqb_spec j mi) as [->|Hne]; cbn [negb]; [rewrite andb_false_r; split; [by intros (_ & ? & _)|by intros [_ ?]]|].
    rewrite andb_true_r, list_lookup_insert_ne by lia. split; [done|by intros [? _]]. }
  destruct (IH (mi + 1) (set_csm_ids c1 (set_apt ga a1 s)) (PApt a1) a1) as (p' & c & Hrun & Hc & Hids);
    [done|done|apply lookup_insert_eq|done| |lia|lia|].
  { intros id j x Hx. apply Hat in Hx as [Hx _]; [by eapply Hun|apply Hx]. }
  erewrite bind_run; [|exact Hrun]. cbv beta. exists p', c. split.
  { cbn [fmap list_fmap app]. unfold mret, M_ret. do 3 f_equal.
    cbn [set_csm_ids set_apt set_mem mem granules slots vttbr_el2 tlbi tags vmids]. by rewrite insert_insert_eq. }
  split; [done|]. intros y. rewrite Hids. cbn [csm_ids set_csm_ids]. rewrite Hy1. split.
  - intros [[Hy Hyne] Hno]. split; [done|]. intros j x Hj Hx. destruct (decide (j = mi)) as [->|].
    + destruct Hx as (_ & _ & Hx & Hid). congruence.
    + apply (Hno j x); [lia|]. apply Hat; [lia|done].
  - intros [Hy Hno]. split; [split; [done|]|].
    + intros ->. by apply (Hno mi m).
    + intros j x Hj Hx. apply Hat in Hx as [Hx _]; [|lia]. apply (Hno j x); [lia|done].
Qed.

Lemma destroy_slaves_none s p a g buf r : ∀ n sj,
  slots s !! buf = Some g → mem s !! g = Some p → page_apt p = Some a → slave_used_mask a = 0 →
  destroy_slaves n sj buf r s = Ok ([], s).
Proof using.
  clear L HL. induction n as [|n IH]; intros sj Hb Hp Hpa Hz; [done|]. cbn [destroy_slaves].
  run_step (read_apt_run s buf g p a Hb Hp Hpa). rewrite Hz. apply IH; done.
Qed.

(** The end of phase 1: the table is erased and given back, the descriptor released. *)
Lemma apt_destroy_close s g_rd rcd tagd ga taga {B} (k : () → M state B) :
  keeps g_rd rcd tagd ga taga s → has_addr ga →
  (buffer_unmap SLOT_APT ≫= λ _, buffer_granule_memzero ga SLOT_APT ≫= λ _,
   granule_unlock_transition ga GRANULE_STATE_DELEGATED ≫= λ _, close_buf SLOT_RD g_rd ≫= k) (csm_locked g_rd rcd tagd ga taga s)
  = k () (set_page ga GRANULE_STATE_DELEGATED 0 taga PZero s).
Proof using L HL.
  intros (Hg & Hok & Hga & Hne & Hs) Hadr. unfold csm_locked, close_buf. st_norm.
  exec buffer_unmap_run. exec buffer_granule_memzero_run. exec granule_unlock_transition_run. assoc.
  exec buffer_unmap_run. exec granule_unlock_run. f_equal. unfold set_page. f_equal; [|by rewrite Hs; map_solve].
  apply map_eq. intros j. destruct (decide (j = g_rd)) as [->|]; [by rewrite lookup_insert_eq, lookup_insert_ne by done|].
  rewrite lookup_insert_ne by done. destruct (decide (j = ga)) as [->|]; [by rewrite !lookup_insert_eq|].
  by rewrite !lookup_insert_ne by done.
Qed.

(** APT_DESTROY once the descriptor is open. *)
Lemma apt_destroy_open s rd_addr g_rd r T apt_addr rc tag :
  realm_at s rd_addr g_rd r T → granules s !! g_rd = Some (Gr false GRANULE_STATE_RD rc tag) → gok GRANULE_STATE_RD rc →
  smc_apt_destroy rd_addr apt_addr s
  = (if negb (apt_pa r =? apt_addr) then close_buf SLOT_RD g_rd ≫= λ _, mret RMI_ERROR_REALM
     else
       zoom tags set_tags (realm_tag_remove rd_addr) ≫= λ _,
       find_lock_granule apt_addr GRANULE_STATE_APT ≫= λ g_apt,
       massert (bool_decide (is_Some g_apt)) ≫= λ _,
       mderef g_apt ≫= λ g_apt,
       map_assert g_apt SLOT_APT ≫= λ aptp,
       destroy_slaves (Z.to_nat MAX_MEM_REGIONS) 0 aptp r ≫= λ slave_entries,
       destroy_masters (Z.to_nat MAX_MEM_REGIONS) 0 aptp ≫= λ master_shares,
       buffer_unmap aptp ≫= λ _,
       buffer_granule_memzero g_apt SLOT_APT ≫= λ _,
       granule_unlock_transition g_apt GRANULE_STATE_DELEGATED ≫= λ _,
       close_buf SLOT_RD g_rd ≫= λ _,
       mfor slave_entries (notify_master rd_addr) ≫= λ _,
       mfor master_shares notify_slave ≫= λ _,
       mret RMI_SUCCESS) (set_slots {[SLOT_RD := g_rd]} (rd_locked s g_rd rc tag)).
Proof using L HL.
  intros Hra Hg' Hok'. destruct (realm_facts _ _ _ _ _ Hra) as (rc1 & tag1 & p & Hg & Hok & Hadr & Hm & Hp & Hrun & _).
  rewrite Hg in Hg'. apply (inj Some) in Hg'. apply Gr_inj in Hg' as (_ & _ & <- & <-); [|done..].
  unfold smc_apt_destroy. run_step Hrun. cbv iota.
  etransitivity; [apply (rd_open _ _ _ _ (ra_core _ _ _ _ _ Hra) _ _ _ _ Hadr Hm Hp)|done].
Qed.

(** With the descriptor open and the tag removed, a table that is not there fails the check. *)
Lemma apt_destroy_missing s rd_addr g_rd r T :
  realm_at s rd_addr g_rd r T → tag_inv (tags s) → is_u64 (apt_pa r) → apt_pa r ≠ rd_addr →
  lockable s (apt_pa r) GRANULE_STATE_APT = None → smc_apt_destroy rd_addr (apt_pa r) s = Err FAssert.
Proof using L HL.
  intros Hra Hti Hu Hne Hl. destruct (realm_facts _ _ _ _ _ Hra) as (rc & tag & p & Hg & Hok & _).
  rewrite (apt_destroy_open _ _ _ _ _ _ _ _ Hra Hg Hok), Z.eqb_refl. cbn [negb].
  destruct (realm_tag_remove_cases (tags s) rd_addr Hti) as (b & tg & Hrem & _).
  erewrite bind_run; [|apply zoom_run; exact Hrem]. cbv beta.
  set (s1 := set_tags tg _).
  assert (Hfind : find_lock_granule (apt_pa r) GRANULE_STATE_APT s1 = Ok (None, s1)).
  { assert (Hsame : ∀ k, find_granule (apt_pa r) = Ok (Some k) → granules s1 !! k = granules s !! k).
    { intros k Hk. unfold s1. cbn. rewrite lookup_insert_ne; [done|]. intros ->. apply Hne.
      eapply find_granule_inj; [exact Hu|apply (ra_u64 _ _ _ _ _ Hra)|exact Hk|]. by eapply lockable_find, (ra_lock _ _ _ _ _ Hra). }
    assert (Hl1 : lockable s1 (apt_pa r) GRANULE_STATE_APT = None).
    { unfold lockable in *. destruct (find_granule (apt_pa r)) as [[k|]|] eqn:Hf; try done. by rewrite (Hsame k). }
    rewrite find_lock_granule_spec, Hl1; [done|done|]. intros k Hk. rewrite (Hsame k Hk).
    apply (ra_quiet _ _ _ _ _ Hra). by eapply find_granule_Some. }
  by run_step Hfind.
Qed.

(** How APT_DESTROY fails. A first argument that is not a descriptor is an error of input,
    and a second one that is not the table that the descriptor names an error of realm;
    neither changes anything. When the descriptor names the second argument and there is no
    table in that granule, as for a realm that never had a table and the address 0 or for a
    realm whose table was destroyed already, the monitor stops in an assertion. *)
Theorem smc_apt_destroy_errors s rd_addr apt_addr :
  quiescent s → is_u64 rd_addr → is_u64 apt_addr → tag_inv (tags s) →
  match lockable s rd_addr GRANULE_STATE_RD with
  | None => smc_apt_destroy rd_addr apt_addr s = Ok (RMI_ERROR_INPUT, s)
  | Some g_rd => ∀ r T, realm_at s rd_addr g_rd r T →
      (apt_pa r ≠ apt_addr → smc_apt_destroy rd_addr apt_addr s = Ok (RMI_ERROR_REALM, s)) ∧
      (apt_pa r = apt_addr → apt_addr ≠ rd_addr → lockable s apt_addr GRANULE_STATE_APT = None →
       smc_apt_destroy rd_addr apt_addr s = Err FAssert)
  end.
Proof using L HL.
  intros Hq Hu Hua Hti. destruct (lockable s rd_addr GRANULE_STATE_RD) as [g_rd|] eqn:Hl; cycle 1.
  { unfold smc_apt_destroy. pose proof (find_lock_granule_spec s rd_addr GRANULE_STATE_RD Hu) as Hf. rewrite Hl in Hf.
    rewrite (bind_run _ _ _ _ _ (Hf ltac:(intros k Hk; apply Hq; by apply (find_granule_Some _ _ Hu Hk)))). done. }
  intros r T Hra. split; [|intros <-; by apply (apt_destroy_missing _ _ g_rd _ T)].
  intros Hne. destruct (realm_facts _ _ _ _ _ Hra) as (rc & tag & p & Hg & Hok & _).
  rewrite (apt_destroy_open _ _ _ _ _ _ _ _ Hra Hg Hok), (proj2 (Z.eqb_neq _ _) Hne). cbn [negb].
  pose proof (ra_slots _ _ _ _ _ Hra) as Hs. unfold close_buf, rd_locked. st_norm. assoc. exec buffer_unmap_run.
  exec granule_unlock_run. unfold mret, M_ret. do 2 f_equal. rewrite insert_insert_eq, insert_id by done.
  rewrite delete_singleton_eq, <- Hs. by destruct s.
Qed.

(** C6: APT_DESTROY of a realm that uses no region of another realm and shares none of its own
    succeeds: the granule of the table is erased and delegated again, the realm has no tag any
    more, exactly the identifiers of its regions are released, nothing else changes and the
    realm stays well-formed. The descriptor still names the granule, and a second APT_DESTROY
    stops the monitor. *)
Theorem smc_apt_destroy_spec s rd_addr g_rd r T ga a :
  realm_at s rd_addr g_rd r T → realm_apt s r ga a → apt_inv a → slave_used_mask a = 0 → unshared a →
  tag_inv (tags s) → csm_inv (csm_ids s) → apt_pa r ≠ rd_addr →
  ∃ s' taga tg c, smc_apt_destroy rd_addr (apt_pa r) s = Ok (RMI_SUCCESS, s') ∧
    s' = set_csm_ids c (set_tags tg (set_page ga GRANULE_STATE_DELEGATED 0 taga PZero s)) ∧
    tag_inv tg ∧ (∀ x t, registered tg x t ↔ registered (tags s) x t ∧ x ≠ rd_addr) ∧
    csm_inv c ∧ (∀ y, y ∈ ids c ↔ y ∈ ids (csm_ids s) ∧ no_master a y) ∧
    realm_at s' rd_addr g_rd r T ∧ smc_apt_destroy rd_addr (apt_pa r) s' = Err FAssert.
Proof using L HL.
  intros Hra Hapt Ha Hz Hun Hti Hci Hpa. destruct (keeps_exists _ _ _ _ _ _ _ Hra Hapt) as (rcd & tagd & taga & Hk).
  destruct (apt_granule _ _ _ _ _ _ _ Hra Hapt) as (_ & _ & Hadra & Hne & HTa & _).
  destruct (Hk) as (Hg & Hok & Hga & _ & Hs).
  destruct (realm_tag_remove_cases (tags s) rd_addr Hti) as (b & tg & Hrem & Htg & _ & Hreg).
  assert (Hap : ∃ p, mem s !! ga = Some p ∧ page_apt p = Some a).
  { destruct Hapt as (_ & _ & _ & Hm). by apply bind_Some in Hm. }
  destruct Hap as (p & Hp & Hpp). set (s1 := set_tags tg s).
  destruct (destroy_masters_run g_rd rcd tagd ga taga 20 0 s1 p a Ha Hci Hp Hpp Hun ltac:(lia) ltac:(lia))
    as (p' & c & Hrun & Hc & Hids).
  set (s' := set_csm_ids c (set_tags tg (set_page ga GRANULE_STATE_DELEGATED 0 taga PZero s))).
  assert (Hra' : realm_at s' rd_addr g_rd r T).
  { apply realm_at_csm_ids, realm_at_tags, realm_at_set_page; [done|done|done|done|reflexivity]. }
  exists s', taga, tg, c. split.
  - rewrite (apt_destroy_open _ _ _ _ _ _ _ _ Hra Hg Hok), Z.eqb_refl. cbn [negb].
    erewrite bind_run; [|apply zoom_run; exact Hrem]. cbv beta.
    change (set_tags tg _) with (set_slots {[SLOT_RD := g_rd]} (rd_locked s1 g_rd rcd tagd)).
    rewrite (csm_locked_rd s1 _ _ _ _ _ _ _ _ _ _ (realm_at_tags _ _ _ _ _ tg Hra) Hapt Hk).
    erewrite bind_run by (by apply massert_run). erewrite bind_run by (by apply mderef_run). cbv beta.
    run_step (map_apt_only s1 _ _ _ _ _ _ _ _ _ (realm_at_tags _ _ _ _ _ tg Hra) Hapt Hk).
    erewrite bind_run; [|apply (destroy_slaves_none _ p a ga); [cbn; lk_solve|exact Hp|done|done]]. cbv beta.
    erewrite bind_run; [|exact Hrun]. cbv beta.
    rewrite apt_destroy_close; [|by apply (keeps_same s)|done]. cbn [mfor]. unfold mret, M_ret, mbind, M_bind, s', s1, set_page.
    cbn. by rewrite insert_insert_eq.
  - split; [done|]. split; [done|]. split; [done|]. split; [done|]. split.
    { intros y. rewrite Hids. split; intros [Hy Hno]; (split; [done|]); [intros j m Hm; apply (Hno j m); [apply Hm|done]|].
      intros j m _ Hm. by apply (Hno j m). }
    split; [done|]. apply (apt_destroy_missing _ _ g_rd _ T); [done|done|apply Hapt|done|].
    destruct Hapt as (_ & _ & Hl & _). unfold lockable. rewrite (lockable_find _ _ _ _ Hl).
    cbn [s' granules set_csm_ids set_tags set_page]. by rewrite lookup_insert_eq.
Qed.
End aptspec.

(** * Examples *)

#[local] Instance apt_demo_config : Config := plain_config.

Lemma smc_apt_create_spec_witness :
  ∃ s', smc_apt_create (P := pair_platform) (H := zero_machine) 0 (5 * 4096)
          (csm_state [] [] (replicate 512 0) (pair_page 257)) = Ok (RMI_SUCCESS, s') ∧
    realm_apt (P := pair_platform) s' (pair_rd 0 (5 * 4096)) 5 apt_zero.
Proof.
  destruct (slave_empty [] []) as [Hra _].
  destruct (smc_apt_create_spec (P := pair_platform) (H := zero_machine) (L := pair_laws) (HL := pair_machine_laws)
    (csm_state [] [] (replicate 512 0) (pair_page 257)) _ _ _ _ (5 * 4096) Hra ltac:(by split) demo_tags_inv)
    as (ret & s' & Hrun & tagh & -> & _ & _ & Hapt).
  exists s'. split; [exact Hrun|]. by apply Hapt.
Defined.

Lemma smc_apt_destroy_errors_witness :
  smc_apt_destroy (P := pair_platform) (H := zero_machine) (5 * 4096) 0
    (csm_state [] [] (replicate 512 0) (pair_page 257))
  = Ok (RMI_ERROR_INPUT, csm_state [] [] (replicate 512 0) (pair_page 257)).
Proof.
  destruct (slave_empty [] []) as [Hra _].
  exact (smc_apt_destroy_errors (P := pair_platform) (H := zero_machine) (L := pair_laws) (HL := pair_machine_laws)
    (csm_state [] [] (replicate 512 0) (pair_page 257)) (5 * 4096) 0 (ra_quiet _ _ _ _ _ Hra) ltac:(by split) ltac:(by split)
    demo_tags_inv).
Defined.

Lemma smc_apt_destroy_spec_witness :
  ∃ s', smc_apt_destroy (P := pair_platform) (H := zero_machine) (7 * 4096) (11 * 4096)
          (csm_state [] [page_master] (replicate 512 0) (pair_page 257)) = Ok (RMI_SUCCESS, s') ∧
    ids (csm_ids s') = [].
Proof.
  destruct (master_page [] [page_master] _ empty_len) as [Hra Hapt].
  destruct (smc_apt_destroy_spec (P := pair_platform) (H := zero_machine) (L := pair_laws) (HL := pair_machine_laws)
    (csm_state [] [page_master] (replicate 512 0) (pair_page 257)) _ _ _ _ _ _ Hra Hapt ltac:(apt_of_ok) eq_refl)
    as (s' & taga & tg & c & Hrun & -> & _ & _ & _ & Hids & _); [|apply demo_tags_inv|apply demo_ids_inv|done|].
  - intros id idx m (Hidx & Hu & Hm & _). apply only_first in Hu as ->; [|done|done]. vm_compute in Hm. by injection Hm as <-.
  - eexists. split; [exact Hrun|]. change (ids c = []). destruct (ids c) as [|y l] eqn:Hc; [done|]. exfalso.
    destruct (proj1 (Hids y) ltac:(by left)) as [Hy Hno]. apply list_elem_of_singleton in Hy as ->.
    apply (Hno 0 (new_master 9 (2 ^ 20 + 4096) 4096)). split; [lia|]. split; [reflexivity|]. split; vm_compute; reflexivity.
Defined.
