(* ===== verification/DataCmd.v ===== *)
(** DATA_CREATE, DATA_CREATE_UNKNOWN and DATA_DESTROY as whole commands, on pages that the
    realm does not share. *)
From S2P Require Import Prelude Types Granule Platform GranuleFind S2tte S2tt Apt Measurement Buffer Delegate Walk Exec Realm Rtt RttTree RttFold RttCreate Data DataCreate DataDestroy CsmPropagate.

Section private.
Context {P : Platform} {H : Machine} {CF : Config} {CR : Crypto}.
Context {L : PlatformLaws P} {HL : MachineLaws P H} {CL : CryptoLaws CR}.

(** No table of regions appears, disappears or changes. *)
Definition apt_state (s : state) (k : Z) : Prop :=
  ∃ gr, granules s !! k = Some gr ∧ d_state (descriptor gr) = GRANULE_STATE_APT.
Definition apts_same (s s' : state) : Prop :=
  ∀ k, granules s' !! k = granules s !! k ∧ mem s' !! k = mem s !! k ∨ ¬ apt_state s k ∧ ¬ apt_state s' k.

Lemma not_apt s k lk st rc tag :
  granules s !! k = Some (Gr lk st rc tag) → gok st rc → st ≠ GRANULE_STATE_APT → ¬ apt_state s k.
Proof.
  intros Hk Hok Hst (gr & Hgr & Ha). rewrite Hk in Hgr. apply (inj Some) in Hgr as <-.
  cbn [Gr descriptor] in Ha. by rewrite desc_state in Ha.
Qed.

Lemma apts_same_lockable s s' a :
  apts_same s s' →
  lockable s' a GRANULE_STATE_APT = lockable s a GRANULE_STATE_APT ∧
  ∀ ga, lockable s a GRANULE_STATE_APT = Some ga → mem s' !! ga = mem s !! ga.
Proof.
  intros Hs. unfold lockable. destruct (find_granule a) as [[k|]|]; [|done..].
  destruct (Hs k) as [[-> Hm]|[Hn Hn']].
  - split; [done|]. intros ga. destruct (granules s !! k); [|done]. destruct (_ =? _); [|done]. by intros [= <-].
  - assert (Hno : ∀ x, ¬ apt_state x k →
      match granules x !! k with Some gr => if d_state (descriptor gr) =? GRANULE_STATE_APT then Some k else None | None => None end = None).
    { intros x Hx. destruct (granules x !! k) as [gr|] eqn:Hg; [|done].
      destruct (Z.eqb_spec (d_state (descriptor gr)) GRANULE_STATE_APT); [|done]. destruct Hx. by exists gr. }
    by rewrite !Hno.
Qed.

Lemma page_private_frame s s' rd_addr r r' map_addr :
  page_private s rd_addr r map_addr → apts_same s s' → apt_pa r' = apt_pa r → page_private s' rd_addr r' map_addr.
Proof.
  intros Hp Hs Ha. destruct (apts_same_lockable s s' (apt_pa r) Hs) as [Hl Hm]. unfold page_private. rewrite Ha, Hl.
  destruct Hp as [Hz|[Hn|(ga & a & (H1 & H2 & H3 & H4) & Hrest)]]; [by left|by right; left|].
  right; right. exists ga, a. split; [|done]. unfold realm_apt. rewrite Ha, Hl, (Hm ga H3). done.
Qed.

Lemma apts_same_created s g rc1 tag1 rc tag t h tagh :
  granules s !! g = Some (Gr false GRANULE_STATE_RTT rc1 tag1) → 0 <= rc1 <= 512 → 0 <= rc + 1 <= 512 →
  granules s !! h = Some (Gr false GRANULE_STATE_DELEGATED 0 tagh) →
  apts_same s (data_created h tagh g rc tag t s).
Proof.
  intros Hg1 Hrc1 Hrc Hh.
  intros k. unfold data_created, set_rtt. cbn [put_granule set_granules granules mem].
  destruct (decide (k = h)) as [->|Hkh].
  { right. split; [by eapply not_apt|]. eapply not_apt; [apply lookup_insert_eq|done|done]. }
  destruct (decide (k = g)) as [->|Hkg].
  { right. split; [eapply not_apt; [exact Hg1|apply gok_rtt; lia|done]|].
    eapply not_apt; [cbn; rewrite lookup_insert_ne by done; apply lookup_insert_eq|apply gok_rtt; lia|done]. }
  left. by rewrite !lookup_insert_ne.
Qed.

Lemma apts_same_written s h bytes g_rd r lk st rc tag rcd tagd :
  granules s !! h = Some (Gr lk st rc tag) → gok st rc → st ≠ GRANULE_STATE_APT →
  granules s !! g_rd = Some (Gr false GRANULE_STATE_RD rcd tagd) → gok GRANULE_STATE_RD rcd →
  apts_same s (data_written h bytes g_rd r s).
Proof.
  intros Hh Hok Hst Hg Hokd k. unfold data_written. cbn [set_mem granules mem].
  destruct (decide (k = h)) as [->|Hkh]; [right; split; by eapply not_apt|].
  destruct (decide (k = g_rd)) as [->|Hkg]; [right; split; by eapply not_apt|].
  left. by rewrite !lookup_insert_ne.
Qed.

Lemma apts_same_destroyed s g rc1 tag1 rc tag t l h tagh p rch tagh1 :
  granules s !! g = Some (Gr false GRANULE_STATE_RTT rc1 tag1) → 0 <= rc1 <= 512 → 0 <= rc <= 512 →
  granules s !! h = Some (Gr false GRANULE_STATE_DATA rch tagh1) → gok GRANULE_STATE_DATA rch →
  apts_same s (set_page h GRANULE_STATE_DELEGATED 0 tagh p (set_rtt g rc tag t l s)).
Proof.
  intros Hg1 Hrc1 Hrc Hh Hok k. unfold set_page, set_rtt. cbn [granules mem].
  destruct (decide (k = h)) as [->|Hkh].
  { right. split; [by eapply not_apt|]. eapply not_apt; [apply lookup_insert_eq|done|done]. }
  destruct (decide (k = g)) as [->|Hkg].
  { right. split; [eapply not_apt; [exact Hg1|apply gok_rtt; lia|done]|].
    eapply not_apt; [cbn; rewrite lookup_insert_ne by done; apply lookup_insert_eq|apply gok_rtt; lia|done]. }
  left. by rewrite !lookup_insert_ne.
Qed.

Lemma apts_same_trans s1 s2 s3 : apts_same s1 s2 → apts_same s2 s3 → apts_same s1 s3.
Proof.
  intros H12 H23 k. destruct (H12 k) as [[E1 E2]|[N1 N2]], (H23 k) as [[E3 E4]|[N3 N4]].
  - left. split; congruence.
  - right. split; [|done]. intros (gr & Hgr & Ha). apply N3. exists gr. by rewrite E1.
  - right. split; [done|]. intros (gr & Hgr & Ha). apply N2. exists gr. by rewrite <- E3.
  - by right.
Qed.

(** * The commands *)

(** DATA_CREATE with the address of its source and its flags, or DATA_CREATE_UNKNOWN. *)
Definition data_create_cmd (src : option (Z * Z)) (rd_addr data_addr map_addr : Z) : M state Z :=
  match src with
  | Some (src_addr, flags) => smc_data_create rd_addr data_addr map_addr src_addr flags
  | None => smc_data_create_unknown rd_addr data_addr map_addr
  end.

(** The source, when it is a granule of the host and the flags are valid. *)
Definition data_source (s : state) (src : option (Z * Z)) : option (option Z) :=
  match src with
  | None => Some None
  | Some (src_addr, flags) =>
      if (flags =? RMI_NO_MEASURE_CONTENT) || (flags =? RMI_MEASURE_CONTENT) then
        Some <$> lockable s src_addr GRANULE_STATE_NS
      else None
  end.
Definition data_flags (src : option (Z * Z)) : Z := match src with Some (_, flags) => flags | None => 0 end.

Lemma data_cmd_source s src rd_addr data_addr map_addr :
  quiescent s → (∀ a f, src = Some (a, f) → is_u64 a) →
  data_create_cmd src rd_addr data_addr map_addr s
  = match data_source s src with
    | None => Ok (RMI_ERROR_INPUT, s)
    | Some g_src =>
        (data_create rd_addr data_addr map_addr g_src (data_flags src) ≫= λ ret,
         mwhen (ret =? RMI_SUCCESS) (csm_propagate_create rd_addr data_addr map_addr) ≫= λ _, mret ret) s
    end.
Proof.
  intros Hq Hu. destruct src as [[a f]|]; [|done]. specialize (Hu a f eq_refl).
  cbn [data_create_cmd data_source data_flags]. unfold smc_data_create.
  destruct (f =? RMI_NO_MEASURE_CONTENT), (f =? RMI_MEASURE_CONTENT); cbn [negb andb orb]; [| | |done].
  all: destruct (find_granule_total a Hu) as [[k|] Hf]; run_step (lift_run _ _ _ Hf); unfold lockable; rewrite Hf; [|done].
  all: pose proof (find_granule_Some a k Hu Hf) as (_ & Hk & _);
    destruct (Hq k Hk) as (gr & Hgr & st & rc & tag & -> & Hok & Hi); rewrite Hgr; cbn [Gr descriptor];
    rewrite desc_state by done; cbn [v_state]; unfold granule_unlocked_state;
    erewrite bind_run by (by apply (STATE_run Hgr Hok)); by destruct (st =? GRANULE_STATE_NS).
Qed.

(** C15: DATA_CREATE and DATA_CREATE_UNKNOWN on a page that is not shared, on every branch:
    they always return. The source must be host memory, the destination a delegated
    granule, the realm new for DATA_CREATE and the address a protected page; RMI_ERROR_RTT
    reports the level when there is no unassigned page entry; a host that takes its memory
    away gets RMI_ERROR_INPUT and the destination wiped. Otherwise the granule becomes
    data, the entry maps it (as RAM and measured into the RIM with a source; without one
    with the RIPAS it had), and the realm is again well-formed. *)
Theorem smc_data_create_spec s rd_addr g_rd r T src data_addr map_addr :
  realm_at s rd_addr g_rd r T → is_u64 data_addr → is_u64 map_addr →
  (∀ a f, src = Some (a, f) → is_u64 a ∧ is_u64 f) →
  slot_ok (algorithm r) (rim r) → page_private s rd_addr r map_addr →
  let run := data_create_cmd src rd_addr data_addr map_addr s in
  match data_source s src, lockable s data_addr GRANULE_STATE_DELEGATED with
  | Some g_src, Some h =>
      let args := data_args (bool_decide (is_Some g_src)) r data_addr map_addr in
      if args =? RMI_SUCCESS then
        ∃ g i b rc tag p t e ty pa tagh, T !! g = Some (i, b) ∧ covers_lvl i b map_addr ∧
          rtt_view s g rc tag p t ∧ t !! Z.to_nat (s2_addr_to_idx map_addr i) = Some e ∧
          is_made (s2_ctx r) ty pa i e ∧ (i < 3 → ty ≠ Table) ∧
          granules s !! h = Some (Gr false GRANULE_STATE_DELEGATED 0 tagh) ∧
          if (i =? 3) && is_unassigned_type ty then
            match g_src with
            | None =>
                ∃ e' s', is_made (s2_ctx r) (assign_type ty) data_addr 3 e' ∧
                  s' = data_created h tagh g rc tag (<[Z.to_nat (s2_addr_to_idx map_addr i) := e']> t) s ∧
                  run = Ok (RMI_SUCCESS, s') ∧ realm_at s' rd_addr g_rd r T
            | Some gs =>
                ∃ ok bytes, host_read s gs ok bytes ∧
                  if ok then
                    ∃ m e' s', rim_step (algorithm r) (rim r) (MData bytes map_addr (data_flags src)) = Ok m ∧
                      slot_ok (algorithm r) m ∧ is_made (s2_ctx r) AssignedRam data_addr 3 e' ∧
                      s' = data_created h tagh g rc tag (<[Z.to_nat (s2_addr_to_idx map_addr i) := e']> t)
                             (data_written h bytes g_rd (set_rd_rim m r) s) ∧
                      run = Ok (RMI_SUCCESS, s') ∧ realm_at s' rd_addr g_rd (set_rd_rim m r) T
                  else run = Ok (RMI_ERROR_INPUT, set_mem (<[h := PZero]> (mem s)) s)
            end
          else run = Ok (rtt_code i, s)
      else run = Ok (args, s)
  | _, _ => run = Ok (RMI_ERROR_INPUT, s)
  end.
Proof using L HL CL.
  intros Hra Hu Hma Hsrc Hslot Hpriv run. unfold run.
  rewrite data_cmd_source; [|apply (ra_quiet _ _ _ _ _ Hra)|intros a f E; by destruct (Hsrc a f E)]. clear run.
  destruct (data_source s src) as [g_src|] eqn:Hds; [|done].
  assert (Hfl : is_u64 (data_flags src)) by (destruct src as [[a f]|]; [by apply (Hsrc a f)|done]).
  assert (Hgs : ∀ k, g_src = Some k → has_addr k).
  { intros k ->. destruct src as [[a f]|]; [|done]. cbn in Hds. destruct (_ || _); [|done].
    apply fmap_Some in Hds as (k' & Hl & [= ->]).
    destruct (Hsrc a f eq_refl) as [Hau _]. by apply (find_granule_has_addr a _ Hau), (lockable_find _ _ _ _ Hl). }
  pose proof (data_create_run s rd_addr g_rd r T data_addr map_addr g_src (data_flags src) Hra Hu Hma Hfl Hslot Hgs) as Hd.
  cbv zeta in Hd. destruct (lockable s data_addr GRANULE_STATE_DELEGATED) as [h|] eqn:Hl; [|by run_step Hd].
  cbv zeta. set (args := data_args _ r data_addr map_addr) in *. destruct (Z.eqb_spec args RMI_SUCCESS) as [Ha|Ha]; cycle 1.
  { run_step Hd. rewrite (proj2 (Z.eqb_neq _ _)) by done. done. }
  destruct Hd as (g & i & b & rc & tag & p & t & e & ty & pa & tagh & HT & Hc & Hv & He & Hm & Hnt & Hh & Hd).
  exists g, i, b, rc, tag, p, t, e, ty, pa, tagh. do 7 (split; [done|]).
  destruct ((i =? 3) && is_unassigned_type ty) eqn:Hyes; [|run_step Hd; by rewrite rtt_code_error].
  apply andb_true_iff in Hyes as [->%Z.eqb_eq Hty].
  pose proof (new_page_refs _ _ _ _ _ _ _ _ _ _ _ _ _ (ra_inv _ _ _ _ _ Hra) HT Hv He Hm Hty) as Hrc.
  pose proof Hv as [_ Hgr Hrc0 _ _ _].
  destruct g_src as [gs|].
  - destruct Hd as ([] & bytes & Hread & Hd); [|exists false, bytes; split; [done|]; by run_step Hd].
    exists true, bytes. split; [done|]. destruct Hd as (m & e' & s' & Hrim & Hsm & Hme & Hs' & Hrun & Hra').
    exists m, e', s'. do 4 (split; [done|]). split; [|done]. run_step Hrun. rewrite Z.eqb_refl. cbn [mwhen]. unfold csm_propagate_create.
    assert (Hp' : page_private s' rd_addr (set_rd_rim m r) map_addr).
    { eapply page_private_frame; [exact Hpriv| |done]. rewrite Hs'.
      destruct (realm_facts _ _ _ _ _ Hra) as (rcd & tagd & prd & Hgd & Hokd & _).
      eapply apts_same_trans; [eapply (apts_same_written s h bytes g_rd (set_rd_rim m r)); done|].
      by eapply (apts_same_created (data_written h bytes g_rd (set_rd_rim m r) s)). }
    by run_step (csm_propagate_private _ _ _ _ _ _ _ Hra' Hp').
  - destruct Hd as (e' & s' & Hme & Hs' & Hrun & Hra'). exists e', s'. do 2 (split; [done|]). split; [|done].
    run_step Hrun. rewrite Z.eqb_refl. cbn [mwhen]. unfold csm_propagate_create.
    assert (Hp' : page_private s' rd_addr r map_addr).
    { eapply page_private_frame; [exact Hpriv| |done]. rewrite Hs'. by eapply (apts_same_created s). }
    by run_step (csm_propagate_private _ _ _ _ _ _ _ Hra' Hp').
Qed.

(** DATA_DESTROY on a page that is not shared, on every branch. Invalid addresses are
    refused; without a page entry that holds data, RMI_ERROR_RTT reports the level; in both
    cases nothing changes. Otherwise, and when the entry's granule is in state DATA, the
    granule becomes a wiped delegated granule whose address is returned, the entry becomes
    DESTROYED (EMPTY if it was), the TLB is invalidated if the page was mapped, the table
    loses one reference, and the realm is again well-formed. If the entry's granule is in
    another state the assertion of the source fails (or the lock is never granted). *)
Theorem smc_data_destroy_spec s rd_addr g_rd r T map_addr res :
  realm_at s rd_addr g_rd r T → is_u64 map_addr → page_private s rd_addr r map_addr →
  let run := smc_data_destroy rd_addr map_addr res s in
  if addr_in_par r map_addr && map_addr_ok r map_addr 3 then
    ∃ g i b rc tag p t e ty pa, T !! g = Some (i, b) ∧ covers_lvl i b map_addr ∧ rtt_view s g rc tag p t ∧
      t !! Z.to_nat (s2_addr_to_idx map_addr i) = Some e ∧ is_made (s2_ctx r) ty pa i e ∧ (i < 3 → ty ≠ Table) ∧
      if (i =? 3) && is_data_type ty then
        match lockable s pa GRANULE_STATE_DATA with
        | Some h =>
            ∃ tagh t' s' top, t' = <[Z.to_nat (s2_addr_to_idx map_addr i) := removed_entry ty]> t ∧
              s' = set_page h GRANULE_STATE_DELEGATED 0 tagh PZero
                     (set_rtt g (rc - 1) tag t' (removed_tlbi (s2_ctx r) ty map_addr) s) ∧
              non_live_top i map_addr t' (Z.to_nat (s2_addr_to_idx map_addr i)) top ∧
              run = Ok (set_x2 top (set_x1 pa (set_x0 RMI_SUCCESS res)), s') ∧ realm_at s' rd_addr g_rd r T
        | None => ∃ f, run = Err f
        end
      else
        ∃ top, non_live_top i map_addr t (Z.to_nat (s2_addr_to_idx map_addr i)) top ∧
          run = Ok (set_x2 top (set_x0 (rtt_code i) res), s)
  else run = Ok (set_x2 0 (set_x0 RMI_ERROR_INPUT res), s).
Proof using L HL.
  intros Hra Hma Hpriv run. pose proof (data_destroy_run s rd_addr g_rd r T map_addr res Hra Hma) as Hd. cbv zeta in Hd.
  destruct (addr_in_par r map_addr && map_addr_ok r map_addr 3); [|done].
  destruct Hd as (g & i & b & rc & tag & p & t & e & ty & pa & HT & Hc & Hv & He & Hm & Hnt & Hd).
  exists g, i, b, rc, tag, p, t, e, ty, pa. do 6 (split; [done|]).
  destruct ((i =? 3) && is_data_type ty) eqn:Hyes; [|done].
  apply andb_true_iff in Hyes as [->%Z.eqb_eq Hty].
  destruct (lockable s pa GRANULE_STATE_DATA) as [h|] eqn:Hl; [|done].
  destruct Hd as (tagh & t' & s' & top & Ht' & Hs' & Htop & Hra' & Hrun).
  exists tagh, t', s', top. do 3 (split; [done|]). split; [|done]. unfold run. rewrite Hrun.
  pose proof (data_pa_u64 _ _ _ _ Hm Hty) as Hu. pose proof (min_starting_level_le (s2_ctx r)) as Hmin.
  destruct (lockable_quiet _ _ _ _ Hu (ra_quiet _ _ _ _ _ Hra) Hl) as (rch & tagh' & Hh & Hokh & _).
  destruct (remove_refs _ _ _ _ _ _ _ _ _ _ _ _ _ (ra_inv _ _ _ _ _ Hra) HT Hv He Hm Hty ltac:(lia)) as (_ & _ & Hrc).
  assert (Hp' : page_private s' rd_addr r map_addr).
  { eapply page_private_frame; [exact Hpriv| |done]. rewrite Hs'. destruct Hv as [_ Hg Hrc0 _ _ _].
    eapply apts_same_destroyed; [exact Hg|lia|lia|exact Hh|done]. }
  unfold csm_propagate_destroy. by run_step (csm_propagate_private _ _ _ _ _ _ _ Hra' Hp').
Qed.
End private.

(** * Examples *)

#[local] Instance data_config : Config := plain_config.
#[local] Instance data_crypto : Crypto := {| psa_hash_compute := toy_hash |}.

Lemma demo_page_end l3 rc0 g i b rc tag p t addr e ty pa :
  demo_tables !! g = Some (i, b) → rtt_view (P := demo_platform) (demo_state l3 rc0) g rc tag p t →
  s2_addr_to_idx addr 1 = 0 → s2_addr_to_idx addr 2 = 0 → t !! Z.to_nat (s2_addr_to_idx addr i) = Some e →
  is_made demo_ctx ty pa i e → (i < 3 → ty ≠ Table) → g = 3 ∧ i = 3 ∧ t = l3.
Proof.
  intros HT Hv H1 H2 He Hm Hnt. eapply demo_leaf_end; [done..|]. intros Hi. by eapply made_not_table, Hnt.
Qed.

Lemma data_laws : CryptoLaws data_crypto.
Proof. split. intros a m. simpl. unfold toy_hash. rewrite length_le_bytes. by destruct a. Qed.

(** Reads of the example machine's host memory succeed. *)
Lemma demo_host_read s src ok bytes : host_read (H := zero_machine) s src ok bytes → ok = true.
Proof. intros (s' & _ & Hread). vm_compute in Hread. by injection Hread as <- _. Qed.

Lemma smc_data_create_spec_witness :
  ∃ s' m, data_create_cmd (P := demo_platform) (H := zero_machine) (Some (6 * 4096, RMI_MEASURE_CONTENT)) 0 (5 * 4096) 4096
            (demo_state (replicate 512 0) 0) = Ok (RMI_SUCCESS, s') ∧
    realm_at (P := demo_platform) s' 0 0 (set_rd_rim m demo_rd) demo_tables.
Proof.
  pose proof (smc_data_create_spec (P := demo_platform) (H := zero_machine) (L := demo_laws)
    (HL := demo_machine_laws) (CL := data_laws) (demo_state (replicate 512 0) 0) 0 0 demo_rd demo_tables
    (Some (6 * 4096, RMI_MEASURE_CONTENT)) (5 * 4096) 4096 demo_realm_at ltac:(done) ltac:(done)
    ltac:(by intros a f [= <- <-]) ltac:(by exists []) ltac:(by left)) as
    (g & i & b & rc & tag & p & t & e & ty & pa & tagh & HT & _ & Hv & He & Hm & Hnt & _ & Hrun).
  destruct (demo_page_end _ _ _ _ _ _ _ _ _ 4096 _ _ _ HT Hv eq_refl eq_refl He Hm Hnt) as (-> & -> & ->).
  apply lookup_replicate in He as [-> _].
  assert (ty = UnassignedEmpty) as -> by (by apply (made_type _ _ _ _ _ UnassignedEmpty Hm)).
  destruct Hrun as (ok & bytes & Hread & Hrun). rewrite (demo_host_read _ _ _ _ Hread) in Hrun.
  destruct Hrun as (m & e' & s' & _ & _ & _ & _ & Hrun & Hra). exists s', m. split; [exact Hrun|exact Hra].
Defined.

Definition demo_page : list Z := <[1%nat := 4 * 4096 + S2TTE_PAGE]> (replicate 512 0).

Lemma demo_page_realm : realm_at (P := demo_platform) (demo_state demo_page 1) 0 0 demo_rd demo_tables.
Proof.
  apply demo_realm_at_gen; [done| |done].
  intros idx e [[-> [<- _]]|[_ [-> _]%lookup_replicate]]%list_lookup_insert_Some.
  - exists AssignedRam, (4 * 4096). apply demo_page_made.
  - exists UnassignedEmpty, 0. by apply demo_zero_made.
Qed.

Lemma smc_data_destroy_spec_witness :
  ∃ res s', smc_data_destroy (P := demo_platform) (H := zero_machine) 0 4096 demo_res (demo_state demo_page 1)
            = Ok (res, s') ∧ x0 res = RMI_SUCCESS ∧ x1 res = 4 * 4096 ∧
    realm_at (P := demo_platform) s' 0 0 demo_rd demo_tables.
Proof.
  pose proof (smc_data_destroy_spec (P := demo_platform) (H := zero_machine) (L := demo_laws)
    (HL := demo_machine_laws) (demo_state demo_page 1) 0 0 demo_rd demo_tables 4096 demo_res
    demo_page_realm ltac:(done) ltac:(by left)) as
    (g & i & b & rc & tag & p & t & e & ty & pa & HT & _ & Hv & He & Hm & Hnt & Hrun).
  destruct (demo_page_end _ _ _ _ _ _ _ _ _ 4096 _ _ _ HT Hv eq_refl eq_refl He Hm Hnt) as (-> & -> & ->).
  change (Some (4 * 4096 + S2TTE_PAGE) = Some e) in He. apply (inj Some) in He as <-.
  assert (ty = AssignedRam) as -> by (by apply (made_type _ _ _ _ _ AssignedRam Hm)).
  pose proof (made_pa _ _ _ _ _ Hm eq_refl) as Hpa. change (Ok (4 * 4096) = Ok pa) in Hpa. injection Hpa as <-.
  destruct Hrun as (tagh & t' & s' & top & _ & _ & _ & Hrun & Hra). eexists _, s'.
  split; [exact Hrun|]. split; [reflexivity|]. split; [reflexivity|exact Hra].
Defined.
