(* ===== verification/Ripas.v ===== *)
(** The RMI commands on the RIPAS of a realm (runtime/rmi/rtt.c): RTT_INIT_RIPAS, which
    builds the initial content of a new realm and measures it, and RTT_SET_RIPAS, which
    carries out a change that a REC asked for. *)
From S2P Require Import Prelude Types Granule Platform GranuleFind S2tte S2tt Measurement Buffer Walk Exec Realm Rtt RttTree.

(** The other error number, of the C library. *)
Definition EPERM : Z := 1.

Definition set_ripas_addr (addr : Z) (r : rec) : rec :=
  set_set_ripas {| sr_base := sr_base (set_ripas r); sr_top := sr_top (set_ripas r); sr_addr := addr;
                   sr_ripas_val := sr_ripas_val (set_ripas r);
                   sr_change_destroyed := sr_change_destroyed (set_ripas r);
                   sr_response := sr_response (set_ripas r) |} r.

Section ripas.
Context {P : Platform} {H : Machine} {CF : Config} {CR : Crypto}.

(** * RTT_INIT_RIPAS *)

(** The loop from [index], [n] entries left: the final [addr]. *)
Fixpoint init_ripas_loop (n : nat) (rdp s2tt index addr map_size top : Z) : M state Z :=
  match n with
  | O => mret addr
  | S n' =>
      let next := addr .+ map_size in
      if top <? next then mret addr
      else
        tte_read s2tt index ≫= λ s2tte,
        let measure :=
          read_rd rdp ≫= λ r,
          lift (measurement_init_ripas_measure (rim r) (algorithm r) addr next) ≫= λ m,
          write_page rdp (PRd (set_rd_rim m r)) ≫= λ _,
          init_ripas_loop n' rdp s2tt (index + 1) next map_size top in
        if s2tte_is_unassigned_empty s2tte then
          tte_write s2tt index s2tte_create_unassigned_ram ≫= λ _, measure
        else if negb (s2tte_is_unassigned_ram s2tte) then mret addr
        else measure
  end.

Definition validate_init_ripas (base top : Z) (r : rd) : result bool :=
  validate_map_addr base S2TT_PAGE_LEVEL r ≫= λ ok,
  if negb ok then Ok false
  else
    validate_map_addr top S2TT_PAGE_LEVEL r ≫= λ ok,
    if negb ok then Ok false else Ok (addr_in_par r base && addr_in_par r (top .- GRANULE_SIZE)).

Definition smc_rtt_init_ripas (rd_addr base top : Z) (res : smc_result) : M state smc_result :=
  if top <=? base then mret (set_x0 RMI_ERROR_INPUT res)
  else
    find_lock_granule rd_addr GRANULE_STATE_RD ≫= λ og,
    match og with
    | None => mret (set_x0 RMI_ERROR_INPUT res)
    | Some g_rd =>
        map_assert g_rd SLOT_RD ≫= λ rdp,
        read_rd rdp ≫= λ r,
        lift (validate_init_ripas base top r) ≫= λ ok,
        if negb ok then
          buffer_unmap rdp ≫= λ _, granule_unlock g_rd ≫= λ _, mret (set_x0 RMI_ERROR_INPUT res)
        else if negb (get_rd_state_locked r =? REALM_NEW) then
          buffer_unmap rdp ≫= λ _, granule_unlock g_rd ≫= λ _, mret (set_x0 RMI_ERROR_REALM res)
        else
          granule_lock (g_rtt (s2_ctx r)) GRANULE_STATE_RTT ≫= λ _,
          s2tt_walk_lock_unlock (s2_ctx r) base S2TT_PAGE_LEVEL ≫= λ wi,
          let level := last_level wi in
          map_assert (g_llt wi) SLOT_RTT ≫= λ s2tt,
          let map_size := s2tte_map_size level in
          let addr := base .& .~ (map_size .- 1) in
          (if negb (addr =? base) then rtt_error level ≫= λ ret, mret (set_x0 ret res)
           else
             let s2ttes_per_s2tt :=
               if level =? S2TT_MIN_STARTING_LEVEL_LPA2 then S2TTES_PER_S2TT_LM1 else S2TTES_PER_S2TT in
             init_ripas_loop (Z.to_nat (s2ttes_per_s2tt - windex wi)) rdp s2tt (windex wi) addr map_size top ≫= λ addr,
             if base <? addr then mret (set_x1 addr (set_x0 RMI_SUCCESS res))
             else rtt_error level ≫= λ ret, mret (set_x0 ret res)) ≫= λ res,
          buffer_unmap s2tt ≫= λ _,
          buffer_unmap rdp ≫= λ _,
          granule_unlock (g_llt wi) ≫= λ _,
          granule_unlock g_rd ≫= λ _, mret res
    end.

(** * RTT_SET_RIPAS *)

Definition update_ripas (s2_ctx : s2tt_context) (s2tt index level : Z) (ripas_val : ripas)
  (change_destroyed : ripas_change_destroyed) : M state Z :=
  tte_read s2tt index ≫= λ s2tte,
  let write (e ret : Z) := tte_write s2tt index e ≫= λ _, mret ret in
  let write_pa (create : s2tt_context → Z → Z → result Z) (ret : Z) :=
    lift (s2tte_pa s2_ctx s2tte level) ≫= λ pa,
    lift (create s2_ctx pa level) ≫= λ e, write e ret in
  if negb (s2tte_has_ripas s2tte level) then mret (- EPERM)
  else
    match ripas_val with
    | RIPAS_RAM =>
        if s2tte_is_unassigned_empty s2tte then write s2tte_create_unassigned_ram 0
        else if s2tte_is_unassigned_destroyed s2tte then
          match change_destroyed with
          | CHANGE_DESTROYED => write s2tte_create_unassigned_ram 0
          | NO_CHANGE_DESTROYED => mret (- EINVAL)
          end
        else if s2tte_is_assigned_empty s2tte level then write_pa s2tte_create_assigned_ram 0
        else if s2tte_is_assigned_destroyed s2tte level then
          match change_destroyed with
          | CHANGE_DESTROYED => write_pa s2tte_create_assigned_ram 0
          | NO_CHANGE_DESTROYED => mret (- EINVAL)
          end
        else mret 0
    | RIPAS_EMPTY =>
        if s2tte_is_unassigned_ram s2tte then write s2tte_create_unassigned_empty 0
        else if s2tte_is_unassigned_destroyed s2tte then
          match change_destroyed with
          | CHANGE_DESTROYED => write s2tte_create_unassigned_empty 0
          | NO_CHANGE_DESTROYED => mret (- EINVAL)
          end
        else if s2tte_is_assigned_ram s2tte level then write_pa s2tte_create_assigned_empty 1
        else if s2tte_is_assigned_destroyed s2tte level then
          match change_destroyed with
          | CHANGE_DESTROYED => write_pa s2tte_create_assigned_empty 1
          | NO_CHANGE_DESTROYED => mret (- EINVAL)
          end
        else mret 0
    | RIPAS_DESTROYED | RIPAS_DEV => write s2tte 0
    end.

(** The loop of [rtt_set_ripas_range]: the final [addr]. *)
Fixpoint set_ripas_loop (n : nat) (s2_ctx : s2tt_context) (s2tt index level addr map_size top : Z)
  (ripas_val : ripas) (change_destroyed : ripas_change_destroyed) : M state Z :=
  match n with
  | O => mret addr
  | S n' =>
      if top <? addr .+ map_size then mret addr
      else
        update_ripas s2_ctx s2tt index level ripas_val change_destroyed ≫= λ ret,
        if ret <? 0 then mret addr
        else
          mwhen (negb (ret =? 0))
            (if level =? S2TT_PAGE_LEVEL then s2tt_invalidate_page s2_ctx addr
             else s2tt_invalidate_block s2_ctx addr) ≫= λ _,
          set_ripas_loop n' s2_ctx s2tt (index + 1) level (addr .+ map_size) map_size top ripas_val change_destroyed
  end.

Definition rtt_set_ripas_range (s2_ctx : s2tt_context) (s2tt base top : Z) (wi : s2tt_walk) (ripas_val : ripas)
  (change_destroyed : ripas_change_destroyed) (res : smc_result) : M state smc_result :=
  let level := last_level wi in
  let map_size := s2tte_map_size level in
  let addr := base .& .~ (map_size .- 1) in
  if negb (addr =? base) then rtt_error level ≫= λ ret, mret (set_x0 ret res)
  else
    set_ripas_loop (Z.to_nat (S2TTES_PER_S2TT - windex wi)) s2_ctx s2tt (windex wi) level addr map_size top
      ripas_val change_destroyed ≫= λ addr,
    if base <? addr then mret (set_x1 addr (set_x0 RMI_SUCCESS res))
    else rtt_error level ≫= λ ret, mret (set_x0 ret res).

(** From the checks of the request to the end of the walk; the descriptor of the REC is
    mapped at [recp]. *)
Definition set_ripas_walk (g_rd recp : Z) (base top : Z) (res : smc_result) : M state smc_result :=
  read_rec recp ≫= λ r_rec,
  map_assert g_rd SLOT_RD ≫= λ rdp,
  read_rd rdp ≫= λ r,
  lift (validate_map_addr base S2TT_PAGE_LEVEL r) ≫= λ ok,
  massert ok ≫= λ _,
  granule_lock (g_rtt (s2_ctx r)) GRANULE_STATE_RTT ≫= λ _,
  s2tt_walk_lock_unlock (s2_ctx r) base S2TT_PAGE_LEVEL ≫= λ wi,
  lift (validate_map_addr base (last_level wi) r) ≫= λ ok,
  (if negb ok then rtt_error (last_level wi) ≫= λ ret, mret (set_x0 ret res)
   else
     map_assert (g_llt wi) SLOT_RTT ≫= λ s2tt,
     rtt_set_ripas_range (s2_ctx r) s2tt base top wi (sr_ripas_val (set_ripas r_rec))
       (sr_change_destroyed (set_ripas r_rec)) res ≫= λ res,
     mwhen (x0 res =? RMI_SUCCESS)
       (read_rec recp ≫= λ r_rec, write_page recp (PRec (set_ripas_addr (x1 res) r_rec))) ≫= λ _,
     buffer_unmap s2tt ≫= λ _, mret res) ≫= λ res,
  granule_unlock (g_llt wi) ≫= λ _,
  buffer_unmap rdp ≫= λ _, mret res.

Definition smc_rtt_set_ripas (rd_addr rec_addr base top : Z) (res : smc_result) : M state smc_result :=
  if top <=? base then mret (set_x0 RMI_ERROR_INPUT res)
  else
    find_lock_two_granules rd_addr GRANULE_STATE_RD rec_addr GRANULE_STATE_REC ≫= λ og,
    match og with
    | None => mret (set_x0 RMI_ERROR_INPUT res)
    | Some (g_rd, g_rec) =>
        granule_refcount_read_acquire g_rec ≫= λ rc,
        (if negb (rc =? 0) then mret (set_x0 RMI_ERROR_REC res)
         else
           map_assert g_rec SLOT_REC ≫= λ recp,
           read_rec recp ≫= λ r_rec,
           (if negb (g_rd =? ri_g_rd r_rec) then mret (set_x0 RMI_ERROR_REC res)
            else if negb (base =? sr_addr (set_ripas r_rec)) || (sr_top (set_ripas r_rec) <? top) then
              mret (set_x0 RMI_ERROR_INPUT res)
            else set_ripas_walk g_rd recp base top res) ≫= λ res,
           buffer_unmap recp ≫= λ _, mret res) ≫= λ res,
        granule_unlock g_rec ≫= λ _,
        granule_unlock g_rd ≫= λ _, mret res
    end.
End ripas.
