(* ===== verification/RipasSpec.v ===== *)
(** What the commands on the RIPAS do: runs of entries of one table change type. *)
From S2P Require Import Prelude Types Granule Platform GranuleFind S2tte S2tt Measurement Buffer Walk Exec Realm Rtt RttTree DataCreate Ripas.

Section specs.
Context {P : Platform} {H : Machine} {CF : Config} {CR : Crypto}.
Context {L : PlatformLaws P} {HL : MachineLaws P H} {CL : CryptoLaws CR}.

(** * Many entries of a table change *)

(** The entry keeps its meaning for the tree: it points to no table and holds as many
    references as before. *)
Definition entry_kept (s2_ctx : s2tt_context) (i e e' : Z) : Prop :=
  e' = e ∨ ∃ ty pa ty' pa', is_made s2_ctx ty pa i e ∧ is_made s2_ctx ty' pa' i e' ∧ ty ≠ Table ∧ ty' ≠ Table ∧
    type_counted ty' = type_counted ty.

Lemma set_rtt_set_rtt g rc tag t t' l l' s :
  set_rtt g rc tag t' l' (set_rtt g rc tag t l s) = set_rtt g rc tag t' (l' ++ l) s.
Proof. unfold set_rtt. cbn. by rewrite !insert_insert_eq, app_assoc. Qed.

Lemma set_rtt_view s g rc tag p t t' l :
  rtt_view s g rc tag p t → length t' = 512%nat → rtt_view (set_rtt g rc tag t' l s) g rc tag (PTable t') t'.
Proof. intros [Ha Hg Hrc _ _ _] Hl. split; try done; cbn; apply lookup_insert_eq. Qed.

Lemma realm_at_entries s rd_addr g_rd r T g i b rc tag p t t' l :
  realm_at s rd_addr g_rd r T → T !! g = Some (i, b) → rtt_view s g rc tag p t → length t' = 512%nat →
  (∀ idx e e', t !! idx = Some e → t' !! idx = Some e' → entry_kept (s2_ctx r) i e e') →
  realm_at (set_rtt g rc tag t' l s) rd_addr g_rd r T.
Proof using L.
  intros Hra HT Hv Hl Hk. pose proof (rv_len _ _ _ _ _ _ Hv) as Hlen.
  assert (Hne : g ≠ g_rd) by (by eapply realm_table_ne).
  assert (Hstep : ∀ n, (n <= 512)%nat → realm_at (set_rtt g rc tag (take n t' ++ drop n t) l s) rd_addr g_rd r T).
  { intros n. induction n as [|n IH]; intros Hn.
    { rewrite take_0, drop_0. cbn [app]. pose proof Hv as [_ Hg Hrc Hm Hp _].
      eapply realm_at_alike; [done| |apply set_rtt_quiescent; [apply (ra_quiet _ _ _ _ _ Hra)|done]|done|
        rewrite set_rtt_granule; by rewrite decide_False by done|cbn; by rewrite lookup_insert_ne].
      intros k x Hk'. rewrite set_rtt_granule, set_rtt_table. destruct (decide (k = g)) as [->|]; [|done].
      split; [done|]. unfold table_of. by rewrite Hm. }
    specialize (IH ltac:(lia)). destruct (lookup_lt_is_Some_2 t n) as [e He]; [lia|].
    destruct (lookup_lt_is_Some_2 t' n) as [e' He']; [lia|].
    assert (Hn1 : length (take n t') = n) by (rewrite length_take; lia).
    assert (Hat : (take n t' ++ drop n t) !! n = Some e).
    { rewrite lookup_app_r by lia. by rewrite Hn1, Nat.sub_diag, lookup_drop, Nat.add_0_r. }
    assert (Hnext : take (S n) t' ++ drop (S n) t = <[n := e']> (take n t' ++ drop n t)).
    { rewrite (take_S_r _ _ _ He'), (drop_S _ _ _ He), <- app_assoc, insert_app_r_alt by lia.
      by rewrite Hn1, Nat.sub_diag. }
    rewrite Hnext. destruct (Hk n e e' He He') as [->|(ty & pa & ty' & pa' & Hm & Hm' & Hnt & Hnt' & Hc)].
    { by rewrite list_insert_id. }
    assert (Hl' : length (take n t' ++ drop n t) = 512%nat) by (rewrite length_app, length_take, length_drop; lia).
    pose proof (realm_at_set _ _ _ _ _ g i b rc tag _ _ n e ty pa e' ty' pa' rc [] IH Hne HT
      (set_rtt_view _ _ _ _ _ _ _ l Hv Hl') Hat Hm Hnt Hm' Hnt') as Hset.
    rewrite set_rtt_set_rtt in Hset. apply Hset. rewrite (counted_made _ _ _ _ _ Hm), (counted_made _ _ _ _ _ Hm'), Hc. lia. }
  specialize (Hstep 512%nat ltac:(lia)). by rewrite take_ge, drop_ge, app_nil_r in Hstep by lia.
Qed.

(** * RTT_INIT_RIPAS *)

Definition init_entry (e : Z) : Z := if s2tte_is_unassigned_empty e then s2tte_create_unassigned_ram else e.
Definition init_applies (e : Z) : Prop := s2tte_is_unassigned_empty e || s2tte_is_unassigned_ram e = true.

(** The measurements of [k] entries of [size] bytes from [addr]. *)
Fixpoint init_ops (addr size : Z) (k : nat) : list rim_op :=
  match k with O => [] | S k' => MRipas addr (addr + size) :: init_ops (addr + size) size k' end.

(** [k] entries of [t] from [idx] were changed according to [R]. *)
Definition entries_changed (R : Z → Z → Prop) (idx k : nat) (t t' : list Z) : Prop :=
  length t' = length t ∧
  ∀ j e, t !! j = Some e →
    ∃ e', t' !! j = Some e' ∧ if decide (idx <= j < idx + k)%nat then R e e' else e' = e.

Lemma entries_changed_0 R idx t : entries_changed R idx 0 t t.
Proof. split; [done|]. intros j e He. exists e. by rewrite decide_False by lia. Qed.

Lemma entries_changed_S (R : Z → Z → Prop) idx k t e e' t' :
  t !! idx = Some e → R e e' → entries_changed R (S idx) k (<[idx := e']> t) t' →
  entries_changed R idx (S k) t t'.
Proof.
  intros He HR [Hl Ht]. split; [by rewrite Hl, length_insert|]. intros j x Hx. destruct (decide (j = idx)) as [->|Hne].
  - rewrite He in Hx. injection Hx as <-.
    destruct (Ht idx e') as (y & Hy & Hyr); [apply list_lookup_insert_eq; by eapply lookup_lt_Some|].
    rewrite decide_False in Hyr by lia. subst y. exists e'. by rewrite decide_True by lia.
  - destruct (Ht j x) as (y & Hy & Hyr); [by rewrite list_lookup_insert_ne|]. exists y. split; [done|].
    destruct (decide (S idx <= j < S idx + k)%nat), (decide (idx <= j < idx + S k)%nat); (done || lia).
Qed.

(** The run of entries that the loop handles: all of them are handled by [applies], end at or
    before [top], and the loop stopped where it had to. *)
Definition run_of (applies : Z → Prop) (idx n k : nat) (t : list Z) (addr size top : Z) : Prop :=
  (k <= n)%nat ∧ (∀ j e, (idx <= j < idx + k)%nat → t !! j = Some e → applies e) ∧
  (k ≠ 0%nat → addr + Z.of_nat k * size <= top) ∧
  ((k < n)%nat → top < addr + (Z.of_nat k + 1) * size ∨ ∃ e, t !! (idx + k)%nat = Some e ∧ ¬ applies e).

Lemma run_of_stop applies idx n t addr size top :
  n = 0%nat ∨ top < addr + size ∨ (∃ e, t !! idx = Some e ∧ ¬ applies e) →
  run_of applies idx n 0 t addr size top.
Proof.
  intros Hstop. split; [lia|]. split; [lia|]. split; [done|]. intros Hn.
  destruct Hstop as [?|[?|(e & He & Ha)]]; [lia|left; lia|right]. exists e. by rewrite Nat.add_0_r.
Qed.

Lemma run_of_S applies idx n k t e e' addr size top :
  t !! idx = Some e → applies e → addr + size <= top →
  run_of applies (S idx) n k (<[idx := e']> t) (addr + size) size top → run_of applies idx (S n) (S k) t addr size top.
Proof.
  intros He Ha Htop (Hk & Hall & Hle & Hst). split; [lia|]. split_and!.
  - intros j x Hj Hx. destruct (decide (j = idx)) as [->|]; [by simplify_eq|].
    apply (Hall j x); [lia|]. by rewrite list_lookup_insert_ne.
  - intros _. destruct (decide (k = 0%nat)) as [->|]; [lia|]. specialize (Hle ltac:(done)). lia.
  - intros Hlt. destruct (Hst ltac:(lia)) as [?|(x & Hx & Hxa)]; [left; lia|right]. exists x.
    rewrite list_lookup_insert_ne in Hx by lia. by rewrite <- Nat.add_succ_comm.
Qed.

Lemma set_rd_rim_id r : set_rd_rim (rim r) r = r.
Proof. by destruct r. Qed.

Lemma set_mem_two (s : state) (g h : Z) p q p' q' :
  g ≠ h → mem (set_mem (<[h := q]> (<[g := p]> (mem s))) s) = <[h := q]> (<[g := p]> (mem s)) ∧
  set_mem (<[h := q']> (<[g := p']> (<[h := q]> (<[g := p]> (mem s))))) (set_mem (<[h := q]> (<[g := p]> (mem s))) s)
  = set_mem (<[h := q']> (<[g := p']> (mem s))) s.
Proof.
  intros Hne. split; [done|]. unfold set_mem. cbn. f_equal.
  rewrite (insert_insert_ne _ g h) by done. by rewrite insert_insert_eq, insert_insert_eq.
Qed.

(** The outcome of the loop: the table and the descriptor that it leaves in [s]. *)
Definition init_outcome (s : state) (idx n : nat) (addr size top g g_rd : Z) (p : page) (t : list Z) (pr : page) (r : rd)
  (run : result (Z * state)) : Prop :=
  ∃ k p' t' m pr',
    run = Ok (addr + Z.of_nat k * size, set_mem (<[g_rd := pr']> (<[g := p']> (mem s))) s) ∧
    run_of init_applies idx n k t addr size top ∧
    page_table p' = Some t' ∧ entries_changed (λ e e', e' = init_entry e) idx k t t' ∧
    rim_run (algorithm r) (rim r) (init_ops addr size k) = Ok m ∧ slot_ok (algorithm r) m ∧
    page_rd pr' = Some (set_rd_rim m r) ∧ (k = 0%nat → p' = p ∧ pr' = pr) ∧
    (k ≠ 0%nat → pr' = PRd (set_rd_rim m r)).

Lemma init_loop_run n : ∀ s rdp s2tt idx addr size top g g_rd p t pr r,
  slots s !! s2tt = Some g → slots s !! rdp = Some g_rd → g ≠ g_rd →
  mem s !! g = Some p → page_table p = Some t → mem s !! g_rd = Some pr → page_rd pr = Some r →
  slot_ok (algorithm r) (rim r) → (idx + n <= length t)%nat → 0 <= addr → 0 < size →
  addr + Z.of_nat n * size < 2 ^ 64 → 
  init_outcome s idx n addr size top g g_rd p t pr r (init_ripas_loop n rdp s2tt (Z.of_nat idx) addr size top s).
Proof using CL.
  induction n as [|n IH]; intros s rdp s2tt idx addr size top g g_rd p t pr r Hs1 Hs2 Hne Hm Hp Hmr Hpr Hslot Hlen Ha Hsz Hb.
  { exists 0%nat, p, t, (rim r), pr. rewrite set_rd_rim_id. split_and!; try done.
    - cbn [init_ripas_loop]. unfold mret, M_ret. do 2 f_equal; [lia|].
      rewrite (insert_id (mem s) g), insert_id by done. by destruct s.
    - apply run_of_stop. by left.
    - apply entries_changed_0. }
  cbn [init_ripas_loop]. cbv zeta. rewrite (u64_small (addr + size)) by (unfold is_u64; nia).
  assert (Hstop : top < addr + size ∨ (∃ e, t !! idx = Some e ∧ ¬ init_applies e) →
    init_outcome s idx (S n) addr size top g g_rd p t pr r (Ok (addr, s))).
  { intros Hst. exists 0%nat, p, t, (rim r), pr. rewrite set_rd_rim_id. split_and!; try done.
    - do 2 f_equal; [lia|]. rewrite (insert_id (mem s) g), insert_id by done. by destruct s.
    - apply run_of_stop. by right.
    - apply entries_changed_0. }
  destruct (Z.ltb_spec top (addr + size)) as [Hlt|Hle]; [apply Hstop; auto|].
  destruct (lookup_lt_is_Some_2 t idx) as [e He]; [lia|].
  erewrite bind_run by (eapply tte_read_run; [exact Hs1|exact Hm|exact Hp|lia|rewrite Nat2Z.id; exact He]). cbv beta zeta.
  destruct Hslot as [m0 Hm0].
  assert (Hop : op_ok (MRipas addr (addr + size))) by (split; unfold is_u64; nia).
  pose proof (rim_step_run (algorithm r) m0 _ Hop) as Hstep. rewrite <- Hm0 in Hstep. cbn [rim_step] in Hstep.
  set (m1 := slot_of _ _) in Hstep.
  assert (Hgo : ∀ p1 e', page_table p1 = Some (<[idx := e']> t) → init_entry e = e' → init_applies e →
    init_outcome s idx (S n) addr size top g g_rd p t pr r
      ((read_rd rdp ≫= λ r0, lift (measurement_init_ripas_measure (rim r0) (algorithm r0) addr (addr + size)) ≫= λ m,
        write_page rdp (PRd (set_rd_rim m r0)) ≫= λ _,
        init_ripas_loop n rdp s2tt (Z.of_nat idx + 1) (addr + size) size top) (set_mem (<[g := p1]> (mem s)) s))).
  { intros p1 e' Hp1 He' Hap.
    erewrite bind_run by (eapply (read_rd_run _ _ g_rd); [exact Hs2|cbn; by rewrite lookup_insert_ne|exact Hpr]).
    cbv beta. run_step (lift_run _ _ _ Hstep). erewrite bind_run by (by apply write_page_run). cbv beta.
    set (s1 := set_mem _ (set_mem _ s)). replace (Z.of_nat idx + 1) with (Z.of_nat (S idx)) by lia.
    destruct (IH s1 rdp s2tt (S idx) (addr + size) size top g g_rd p1 (<[idx := e']> t) (PRd (set_rd_rim m1 r)) (set_rd_rim m1 r))
      as (k & p' & t' & m & pr' & Hrun & Hrof & Hp' & Hec & Hrim & Hsl & Hpr' & Hz & Hnz); try done; try lia.
    - cbn. by rewrite lookup_insert_ne, lookup_insert_eq.
    - cbn. by rewrite lookup_insert_eq.
    - by eexists.
    - rewrite length_insert. lia.
    - exists (S k), p', t', m, pr'. split_and!; try done.
      + rewrite Hrun. do 2 f_equal; [lia|]. unfold s1. cbn [set_mem mem granules slots].
        apply (set_mem_two s g g_rd p1 (PRd (set_rd_rim m1 r)) p' pr' Hne).
      + by eapply run_of_S.
      + by eapply entries_changed_S.
      + cbn [init_ops rim_run rim_step]. rewrite Hstep. exact Hrim.
      + intros _. destruct (decide (k = 0%nat)) as [Hk|Hk]; [|by rewrite (Hnz Hk)].
        destruct (Hz Hk) as [_ ->]. injection Hpr' as Heq. by rewrite Heq. }
  unfold init_applies, init_entry in *. destruct (s2tte_is_unassigned_empty e) eqn:Hem; cbn [orb] in *.
  - erewrite bind_run by (eapply tte_write_run; [exact Hs1|exact Hm|exact Hp|lia]). rewrite Nat2Z.id. cbv beta.
    by apply (Hgo _ s2tte_create_unassigned_ram).
  - destruct (s2tte_is_unassigned_ram e) eqn:Hr; cbn [negb]; cycle 1.
    { apply Hstop. right. exists e. split; [done|]. unfold init_applies. by rewrite Hem, Hr. }
    replace s with (set_mem (<[g := p]> (mem s)) s) at 2 by (rewrite insert_id by done; by destruct s).
    apply (Hgo p e); [|done|done]. by rewrite list_insert_id.
Qed.

(** The walk to an address of the realm, while other granules are locked. *)
Lemma walk_from s s1 rd_addr g_rd r T addr :
  realm_at s rd_addr g_rd r T → tables_same T s s1 → slots s1 !! SLOT_RTT = None → 0 <= addr < 2 ^ ipa_bits (s2_ctx r) →
  ∃ g i b rc tag p t e,
    (∀ (B : Type) (k : s2tt_walk → M state B),
      (granule_lock (g_rtt (s2_ctx r)) GRANULE_STATE_RTT ≫= λ _,
       s2tt_walk_lock_unlock (s2_ctx r) addr S2TT_PAGE_LEVEL ≫= k) s1
      = k {| g_llt := g; windex := s2_addr_to_idx addr i; last_level := i |}
          (put_granule g (Gr true GRANULE_STATE_RTT rc tag) s1)) ∧
    T !! g = Some (i, b) ∧ covers_lvl i b addr ∧ rtt_view s g rc tag p t ∧ g ≠ g_rd ∧
    0 <= s2_addr_to_idx addr i < 512 ∧ t !! Z.to_nat (s2_addr_to_idx addr i) = Some e ∧
    min_starting_level (s2_ctx r) <= i <= 3 ∧ (i < 3 → entry_is_table e = false) ∧
    granules s1 !! g = Some (Gr false GRANULE_STATE_RTT rc tag) ∧ mem s1 !! g = Some p.
Proof using L HL.
  intros Hra Hsame Hsl Ha. pose proof (inv_wf _ _ _ (ra_inv _ _ _ _ _ Hra)) as Hwf.
  pose proof (rtt_wf_same _ _ _ _ Hwf Hsame) as Hwf'. pose proof (wf_start _ _ _ Hwf) as Hst.
  destruct (lock_walk_run _ (s2_ctx r) T addr 3 Hwf' Hsl Ha ltac:(lia)) as
    (g & i & b & rc & tag & p & t & e & Hlock & Hwalk & HT & Hc & Hview & Hidx & He & Hi & Hleaf).
  assert (g ≠ g_rd) by (by eapply realm_table_ne). pose proof Hview as [A1 A2 A3 A4 A5 A6].
  exists g, i, b, rc, tag, p, t, e. split_and!; try done; try lia.
  - intros B k. run_step Hlock. by run_step Hwalk.
  - destruct (Hsame g _ HT) as [Hsg Hsm]. split; try done; [by rewrite <- Hsg|by rewrite <- Hsm].
Qed.

Definition ttes (i : Z) : nat := if i =? -1 then 16%nat else 512%nat.

(** The arguments of RTT_INIT_RIPAS. *)
Definition init_args_ok (r : rd) (base top : Z) : bool :=
  map_addr_ok r base 3 && map_addr_ok r top 3 && (addr_in_par r base && addr_in_par r (top .- GRANULE_SIZE)).

Lemma validate_init_ripas_run s r T base top :
  rtt_wf s (s2_ctx r) T → validate_init_ripas base top r = Ok (init_args_ok r base top).
Proof.
  intros Hwf. pose proof (wf_start _ _ _ Hwf) as Hst. unfold validate_init_ripas, init_args_ok. change S2TT_PAGE_LEVEL with 3.
  rewrite !validate_map_addr_run; [|apply (wf_bits52 _ _ _ Hwf)|lia|apply (wf_bits52 _ _ _ Hwf)|lia].
  rewrite result_bind_ok. destruct (map_addr_ok r base 3); [|done]. cbn [negb]. rewrite result_bind_ok.
  by destruct (map_addr_ok r top 3).
Qed.

(** Rounding down to the size of a level. *)
Lemma level_align i base : is_u64 base → -1 <= i <= 3 →
  base .& .~ (s2tte_map_size i .- 1) = base - base mod s2tte_map_size i.
Proof.
  intros Hb Hi. rewrite map_size_pow2 by done. apply land_not_align; [done|].
  pose proof (lvl_lsb_range i Hi). lia.
Qed.

Lemma map_size_48 i : -1 <= i <= 3 →
  0 < s2tte_map_size i <= 2 ^ 48 ∧ Z.of_nat (ttes i) * s2tte_map_size i <= 2 ^ 52.
Proof.
  intros Hi. assert (i = -1 ∨ i = 0 ∨ i = 1 ∨ i = 2 ∨ i = 3) as Hc by lia. by destruct_or! Hc; subst i.
Qed.

Lemma entries_kept s2_ctx i (R : Z → Z → Prop) idx k t t' :
  (∀ j e e', t !! j = Some e → R e e' → entry_kept s2_ctx i e e') → entries_changed R idx k t t' →
  ∀ j e e', t !! j = Some e → t' !! j = Some e' → entry_kept s2_ctx i e e'.
Proof.
  intros Hk [_ Hec] j e e' He He'. destruct (Hec j e He) as (y & Hy & HR). rewrite He' in Hy. injection Hy as <-.
  destruct (decide _); [by eapply Hk|by left].
Qed.

Lemma init_kept s2_ctx i e :
  min_starting_level s2_ctx <= i <= 3 → (∃ ty pa, is_made s2_ctx ty pa i e) → entry_kept s2_ctx i e (init_entry e).
Proof.
  intros Hi (ty & pa & Hm). unfold init_entry. destruct (s2tte_is_unassigned_empty e) eqn:He; [right|by left].
  assert (ty = UnassignedEmpty) as -> by (by apply (made_type _ _ _ _ _ UnassignedEmpty Hm)).
  exists UnassignedEmpty, pa, UnassignedRam, 0. split_and!; try done. split; [done|by exists 0].
Qed.

(** RTT_INIT_RIPAS on every branch: it always returns. The range must be non-empty,
    page-aligned and protected, and the realm new. At the last table for [base], the
    longest run of unassigned entries that starts at [base], ends at or before [top] and
    does not leave the table gets RIPAS RAM; the RIM is extended by each of these entries
    in order, and the end of the run is returned. When there is none, or [base] lies
    inside an entry, RMI_ERROR_RTT reports the level and nothing changes. The realm stays
    well-formed. *)
Theorem smc_rtt_init_ripas_spec s rd_addr g_rd r T base top res :
  realm_at s rd_addr g_rd r T → is_u64 base → is_u64 top → slot_ok (algorithm r) (rim r) →
  let run := smc_rtt_init_ripas rd_addr base top res s in
  if (base <? top) && init_args_ok r base top then
    if rd_state r =? REALM_NEW then
      ∃ g i b rc tag p t e k, T !! g = Some (i, b) ∧ covers_lvl i b base ∧ rtt_view s g rc tag p t ∧
        t !! Z.to_nat (s2_addr_to_idx base i) = Some e ∧ (i < 3 → entry_is_table e = false) ∧
        let idx := Z.to_nat (s2_addr_to_idx base i) in
        let size := s2tte_map_size i in
        (if base mod size =? 0 then run_of init_applies idx (ttes i - idx) k t base size top else k = 0%nat) ∧
        if decide (k = 0%nat) then run = Ok (set_x0 (rtt_code i) res, s)
        else
          ∃ p' t' m s', page_table p' = Some t' ∧ entries_changed (λ e e', e' = init_entry e) idx k t t' ∧
            rim_run (algorithm r) (rim r) (init_ops base size k) = Ok m ∧ slot_ok (algorithm r) m ∧
            s' = set_mem (<[g_rd := PRd (set_rd_rim m r)]> (<[g := p']> (mem s))) s ∧
            run = Ok (set_x1 (base + Z.of_nat k * size) (set_x0 RMI_SUCCESS res), s') ∧
            realm_at s' rd_addr g_rd (set_rd_rim m r) T
    else run = Ok (set_x0 RMI_ERROR_REALM res, s)
  else run = Ok (set_x0 RMI_ERROR_INPUT res, s).
Proof using L HL CL.
  intros Hra Hbu Htu Hslot run. unfold run, smc_rtt_init_ripas. clear run.
  destruct (Z.leb_spec top base), (Z.ltb_spec base top); try lia; [done|]. cbn [andb].
  destruct (realm_facts _ _ _ _ _ Hra) as (rcd & tagd & prd & Hgd & Hok & Hadrd & Hmd & Hpd & Hfind & HsN & Hbits).
  pose proof (ra_core _ _ _ _ _ Hra) as Hco. pose proof (ra_inv _ _ _ _ _ Hra) as Hinv.
  pose proof (inv_wf _ _ _ Hinv) as Hwf.
  run_step Hfind. change (put_granule g_rd _ s) with (rd_locked s g_rd rcd tagd).
  rewrite (rd_open _ _ _ _ Hco _ _ _ _ Hadrd Hmd Hpd).
  run_step (lift_run _ _ _ (validate_init_ripas_run s r T base top Hwf)).
  destruct (init_args_ok r base top) eqn:Hargs; cbn [negb]; cycle 1.
  { by rewrite (rd_close _ _ _ _ Hco), (rd_unlock _ _ _ _ _ Hgd Hok). }
  unfold get_rd_state_locked. destruct (rd_state r =? REALM_NEW); cbn [negb]; cycle 1.
  { by rewrite (rd_close _ _ _ _ Hco), (rd_unlock _ _ _ _ _ Hgd Hok). }
  assert (HTrd : T !! g_rd = None).
  { destruct (T !! g_rd) as [[i b]|] eqn:HT; [|done]. by destruct (realm_table_ne _ _ _ _ _ _ _ _ Hra HT). }
  assert (Hlt : base < 2 ^ ipa_bits (s2_ctx r)).
  { by apply andb_true_iff in Hargs as [[[?%Z.ltb_lt _]%andb_true_iff _]%andb_true_iff _]. }
  assert (H52 : 2 ^ ipa_bits (s2_ctx r) <= 2 ^ 52) by (apply Z.pow_le_mono_r; lia).
  set (s1 := set_slots {[SLOT_RD := g_rd]} (rd_locked s g_rd rcd tagd)).
  destruct (walk_from s s1 rd_addr g_rd r T base Hra) as
    (g & i & b & rc & tag & p & t & e & Hwalk & HT & Hc & Hview & Hne & Hidx & He & Hi & Hleaf & Hg1 & Hm1); [|done|unfold is_u64 in *; lia|].
  { eapply tables_same_trans; [by apply (tables_same_put T s g_rd)|apply tables_same_slots]. }
  rewrite Hwalk. clear Hwalk. cbv zeta. cbn [g_llt windex last_level].
  pose proof Hview as [Hadr Hgr Hrc Hmem Hp Hlen]. pose proof (min_starting_level_le (s2_ctx r)) as Hmin.
  pose proof (ra_slots _ _ _ _ _ Hra) as Hs. rewrite level_align by (done || lia).
  destruct (map_size_48 i ltac:(lia)) as [Hsz Hspan]. set (size := s2tte_map_size i) in *.
  pose proof (Z.mod_pos_bound base size ltac:(lia)) as Hmod.
  set (idx := Z.to_nat (s2_addr_to_idx base i)) in *.
  set (s2 := set_slots (<[SLOT_RTT := g]> (<[SLOT_RD := g_rd]> ∅))
    (put_granule g (Gr true GRANULE_STATE_RTT rc tag) (put_granule g_rd (Gr true GRANULE_STATE_RD rcd tagd) s))).
  assert (Hma : map_assert g SLOT_RTT (put_granule g (Gr true GRANULE_STATE_RTT rc tag) s1) = Ok (SLOT_RTT, s2))
    by (by apply map_assert_run).
  assert (Hend : ∀ (out : smc_result) (m : gmap Z page),
    (buffer_unmap SLOT_RTT ≫= λ _, buffer_unmap SLOT_RD ≫= λ _, granule_unlock g ≫= λ _,
     granule_unlock g_rd ≫= λ _, mret out) (set_mem m s2) = Ok (out, set_mem m s)).
  { intros out m. unfold s2. st_norm. exec buffer_unmap_run. exec buffer_unmap_run. exec granule_unlock_run.
    exec granule_unlock_run. unfold mret, M_ret. do 2 f_equal. rewrite Hs. state_solve. }
  assert (Hs2 : s2 = set_mem (mem s) s2) by done. assert (Hss : set_mem (mem s) s = s) by (by destruct s).
  destruct (Z.eqb_spec (base - base mod size) base) as [Hal|Hal]; cbn [negb]; cycle 1.
  { exists g, i, b, rc, tag, p, t, e, 0%nat. do 5 (split; [done|]). cbv zeta. fold size.
    rewrite (proj2 (Z.eqb_neq (base mod size) 0)) by lia. split; [done|]. rewrite decide_True by done.
    run_step Hma. steps. run_step (rtt_error_run i s2). steps. rewrite Hs2, Hend. by rewrite Hss. }
  assert (Hn : Z.to_nat ((if i =? S2TT_MIN_STARTING_LEVEL_LPA2 then S2TTES_PER_S2TT_LM1 else S2TTES_PER_S2TT)
                         - s2_addr_to_idx base i) = (ttes i - idx)%nat).
  { unfold ttes, idx. change S2TT_MIN_STARTING_LEVEL_LPA2 with (-1). change S2TTES_PER_S2TT with 512. change S2TTES_PER_S2TT_LM1 with 16.
    destruct (i =? -1); lia. }
  assert (Hbz : base mod size = 0) by lia. rewrite Hbz, Z.sub_0_r. rewrite Hn.
  assert (Hix : s2_addr_to_idx base i = Z.of_nat idx) by (unfold idx; lia). rewrite Hix.
  destruct (init_loop_run (ttes i - idx) s2 SLOT_RD SLOT_RTT idx base size top g g_rd p t prd r) as
    (k & p' & t' & m & pr' & Hrun & Hrof & Hp' & Hec & Hrim & Hsl & Hpr' & Hk0 & Hk1); try done; try (unfold is_u64 in *; lia); try (unfold is_u64 in *; nia).
  { unfold ttes, idx. destruct (i =? -1); lia. }
  exists g, i, b, rc, tag, p, t, e, k. do 5 (split; [done|]). cbv zeta. fold size idx. rewrite Hbz. cbn [Z.eqb]. split; [done|].
  change (mem s2) with (mem s) in Hrun.
  destruct (decide (k = 0%nat)) as [Hkz|Hkz].
  - destruct (Hk0 Hkz) as [-> ->]. rewrite Hkz in Hrun. rewrite (insert_id (mem s) g), insert_id in Hrun by done.
    run_step Hma. steps. run_step Hrun. rewrite (proj2 (Z.ltb_ge _ _)) by lia. steps. run_step (rtt_error_run i _). steps.
    rewrite Hend. by rewrite Hss.
  - exists p', t', m. eexists. do 4 (split; [done|]). split; [reflexivity|]. split.
    + run_step Hma. steps. run_step Hrun. rewrite (proj2 (Z.ltb_lt _ _)) by nia. steps. cbn [set_x1 x0 x1 set_x0].
      rewrite Hend. by rewrite (Hk1 Hkz).
    + set (s3 := set_mem (<[g := p']> (mem s)) s).
      change (set_mem _ s) with (set_mem (<[g_rd := PRd (set_rd_rim m r)]> (mem s3)) s3).
      apply (realm_at_rd s3 rd_addr g_rd r T); [|done].
      assert (Hra' : realm_at (set_rtt g rc tag t' [] s) rd_addr g_rd r T).
      { eapply realm_at_entries; [done|done|done|by destruct Hec as [-> _]|].
        eapply entries_kept; [|exact Hec]. intros j x y Hx ->. apply init_kept; [lia|].
        eapply (inv_typed _ _ _ Hinv g i b t j x HT); [unfold table_of; by rewrite Hmem|done]. }
      eapply realm_at_alike; [exact Hra'| |apply (ra_quiet _ _ _ _ _ Hra)|done| |].
      * intros h x Hx. rewrite set_rtt_granule, set_rtt_table. unfold s3, table_of. cbn.
        destruct (decide (h = g)) as [->|Hh]; [by rewrite lookup_insert_eq|by rewrite lookup_insert_ne].
      * rewrite set_rtt_granule. by rewrite decide_False.
      * cbn. by rewrite !lookup_insert_ne.
Qed.
End specs.

(** * Example *)

#[local] Instance ripas_config : Config := plain_config.
#[local] Instance ripas_crypto : Crypto := {| psa_hash_compute := toy_hash |}.

Lemma ripas_laws : CryptoLaws ripas_crypto.
Proof. split. intros a m. simpl. unfold toy_hash. rewrite length_le_bytes. by destruct a. Qed.

Lemma smc_rtt_init_ripas_spec_witness :
  ∃ res s' m, smc_rtt_init_ripas (P := demo_platform) (H := zero_machine) 0 0 8192 demo_res (demo_state (replicate 512 0) 0)
              = Ok (res, s') ∧ x0 res = RMI_SUCCESS ∧ realm_at (P := demo_platform) s' 0 0 (set_rd_rim m demo_rd) demo_tables.
Proof.
  pose proof (smc_rtt_init_ripas_spec (P := demo_platform) (H := zero_machine) (L := demo_laws)
    (HL := demo_machine_laws) (CL := ripas_laws) (demo_state (replicate 512 0) 0) 0 0 demo_rd demo_tables 0 8192 demo_res
    demo_realm_at ltac:(done) ltac:(done) ltac:(by exists [])) as
    (g & i & b & rc & tag & p & t & e & k & HT & _ & Hv & He & Hleaf & Hk & Hrun).
  destruct (demo_leaf_end _ _ _ _ _ _ _ _ _ 0 _ HT Hv eq_refl eq_refl He Hleaf) as (-> & -> & ->).
  destruct Hk as (_ & _ & _ & Hk). destruct (decide (k = 0%nat)) as [->|Hne].
  { destruct (Hk ltac:(by apply Nat.ltb_lt)) as [Hlt|(x & Hx & Hno)].
    - change (8192 < 4096) in Hlt. lia.
    - exfalso. apply Hno. by apply lookup_replicate in Hx as [-> _]. }
  destruct Hrun as (p' & t' & m & s' & _ & _ & _ & _ & _ & Hrun & Hra). eexists _, s', m.
  split; [exact Hrun|]. split; [reflexivity|exact Hra].
Defined.
