(* ===== verification/RipasSet.v ===== *)
(** RTT_SET_RIPAS: the change that a REC asked for, carried out over a run of entries. *)
From S2P Require Import Prelude Types Granule Platform GranuleFind S2tte S2tt Measurement Buffer Delegate Walk Exec Realm Rtt RttTree DataCreate DataDestroy Ripas RipasSpec.

(** What becomes of an entry, as the specification of the command has it: nothing for
    entries without a RIPAS, and a destroyed entry changes only if the realm allowed it. *)
Definition ripas_change (v : ripas) (cd : ripas_change_destroyed) (ty : s2tte_type) : option s2tte_type :=
  match ty with
  | UnassignedNs | AssignedNs | Table => None
  | UnassignedDestroyed | AssignedDestroyed =>
      match v, cd with
      | RIPAS_RAM, CHANGE_DESTROYED => Some (if type_has_pa ty then AssignedRam else UnassignedRam)
      | RIPAS_EMPTY, CHANGE_DESTROYED => Some (if type_has_pa ty then AssignedEmpty else UnassignedEmpty)
      | RIPAS_RAM, _ | RIPAS_EMPTY, _ => None
      | _, _ => Some ty
      end
  | _ =>
      match v with
      | RIPAS_RAM => Some (if type_has_pa ty then AssignedRam else UnassignedRam)
      | RIPAS_EMPTY => Some (if type_has_pa ty then AssignedEmpty else UnassignedEmpty)
      | _ => Some ty
      end
  end.

(** A goal about concrete types. *)
Ltac decide_goal := first [ done | let Hl := fresh in intros Hl; vm_compute in Hl; done ].

Section specs.
Context {P : Platform} {H : Machine} {CF : Config} {CR : Crypto}.
Context {L : PlatformLaws P} {HL : MachineLaws P H} {CL : CryptoLaws CR}.

(** The new entry has the type that [ripas_change] gives and maps the same page. *)
Definition ripas_changed (s2_ctx : s2tt_context) (v : ripas) (cd : ripas_change_destroyed) (i e e' : Z) : Prop :=
  ∃ ty ty' pa pa', is_made s2_ctx ty pa i e ∧ ripas_change v cd ty = Some ty' ∧ is_made s2_ctx ty' pa' i e' ∧
    (type_has_pa ty = true → pa' = pa).

Lemma assigned_as s2_ctx ty ty' pa i e :
  is_made s2_ctx ty pa i e → ty = AssignedEmpty ∨ ty = AssignedRam ∨ ty = AssignedDestroyed →
  ty' = AssignedEmpty ∨ ty' = AssignedRam →
  ∃ e', is_made s2_ctx ty' pa i e' ∧ s2tte_pa s2_ctx e i = Ok pa ∧
    (if bool_decide (ty' = AssignedRam) then s2tte_create_assigned_ram else s2tte_create_assigned_empty) s2_ctx pa i = Ok e'.
Proof.
  intros Hm Hty Hty'. assert (Hok : type_ok s2_ctx ty' pa i).
  { destruct Hm as [Hok _]. destruct_or! Hty; destruct_or! Hty'; subst; exact Hok. }
  pose proof (s2tte_make_ok s2_ctx ty' 0 pa i Hok) as Hr.
  assert (Hpa : s2tte_pa s2_ctx e i = Ok pa) by (eapply made_pa; [done|]; by destruct_or! Hty; subst).
  destruct_or! Hty'; subst ty'; eexists; (split; [split; [done|exists 0; exact Hr]|]); (split; [done|]); exact Hr.
Qed.

Definition loses_mapping (v : ripas) (ty : s2tte_type) : bool :=
  bool_decide (v = RIPAS_EMPTY) && bool_decide (ty = AssignedRam).

Lemma made_has_ripas s2_ctx ty pa i e :
  is_made s2_ctx ty pa i e → s2tte_has_ripas e i = match type_ripas ty with Some _ => true | None => false end.
Proof.
  intros Hm. unfold s2tte_has_ripas. change (s2tte_is_table e i) with (s2tte_is Table e i).
  rewrite (made_is _ _ _ _ _ _ Hm), (made_ns _ _ _ _ _ Hm). by destruct ty.
Qed.

Lemma update_ripas_run s s2_ctx s2tt g p t idx i e ty pa v cd :
  slots s !! s2tt = Some g → mem s !! g = Some p → page_table p = Some t → t !! idx = Some e →
  is_made s2_ctx ty pa i e → min_starting_level s2_ctx <= i <= 3 →
  match ripas_change v cd ty with
  | None => ∃ x, x < 0 ∧ update_ripas s2_ctx s2tt (Z.of_nat idx) i v cd s = Ok (x, s)
  | Some ty' =>
      ∃ e' p' ret, ripas_changed s2_ctx v cd i e e' ∧ page_table p' = Some (<[idx := e']> t) ∧ 0 <= ret ∧
        (loses_mapping v ty = true → ret ≠ 0) ∧
        update_ripas s2_ctx s2tt (Z.of_nat idx) i v cd s = Ok (ret, set_mem (<[g := p']> (mem s)) s)
  end.
Proof.
  intros Hs Hm Hp He Hmade Hi. pose proof (lookup_lt_Some _ _ _ He) as Hlt.
  assert (Hread : tte_read s2tt (Z.of_nat idx) s = Ok (e, s)).
  { eapply tte_read_run; [exact Hs|exact Hm|exact Hp|lia|by rewrite Nat2Z.id]. }
  assert (Hwr : ∀ x, tte_write s2tt (Z.of_nat idx) x s = Ok ((), set_mem (<[g := PTable (<[idx := x]> t)]> (mem s)) s)).
  { intros x. rewrite (tte_write_run _ _ g p t) by (done || lia). by rewrite Nat2Z.id. }
  assert (Hsame : ripas_change v cd ty = Some ty → ∃ e' p', ripas_changed s2_ctx v cd i e e' ∧
    page_table p' = Some (<[idx := e']> t) ∧ set_mem (<[g := p']> (mem s)) s = s).
  { intros Hc. exists e, p. split; [exists ty, ty, pa, pa; done|]. rewrite list_insert_id by done. split; [done|].
    rewrite insert_id by done. by destruct s. }
  assert (Hun : ∀ ty', ripas_change v cd ty = Some ty' → type_has_pa ty = false →
    ty' = UnassignedEmpty ∨ ty' = UnassignedRam → ripas_changed s2_ctx v cd i e
      (if bool_decide (ty' = UnassignedRam) then s2tte_create_unassigned_ram else s2tte_create_unassigned_empty)).
  { intros ty' Hc Hpa Hty'. exists ty, ty', pa, 0. split; [done|]. split; [done|]. split; [|by rewrite Hpa].
    destruct_or! Hty'; subst ty'; (split; [done|by exists 0]). }
  assert (Has : ∀ ty', ripas_change v cd ty = Some ty' → ty = AssignedEmpty ∨ ty = AssignedRam ∨ ty = AssignedDestroyed →
    ty' = AssignedEmpty ∨ ty' = AssignedRam → ∃ e', ripas_changed s2_ctx v cd i e e' ∧ s2tte_pa s2_ctx e i = Ok pa ∧
      (if bool_decide (ty' = AssignedRam) then s2tte_create_assigned_ram else s2tte_create_assigned_empty) s2_ctx pa i = Ok e').
  { intros ty' Hc Hty Hty'. destruct (assigned_as _ _ ty' _ _ _ Hmade Hty Hty') as (e' & Hm' & Hpa & Hcr).
    exists e'. split; [|done]. exists ty, ty', pa, pa. done. }
  pose proof (Hun UnassignedRam) as HunR. pose proof (Hun UnassignedEmpty) as HunE.
  pose proof (Has AssignedRam) as HasR. pose proof (Has AssignedEmpty) as HasE. clear Hun Has.
  pose proof (made_has_ripas _ _ _ _ _ Hmade) as Hr.
  pose proof (λ x, made_is _ _ _ _ _ x Hmade) as Hx.
  pose proof (Hx UnassignedEmpty) as H1. pose proof (Hx UnassignedRam) as H2. pose proof (Hx UnassignedDestroyed) as H3.
  pose proof (Hx AssignedEmpty) as H4. pose proof (Hx AssignedRam) as H5. pose proof (Hx AssignedDestroyed) as H6.
  cbn [s2tte_is] in *. clear Hx.
  unfold update_ripas. run_step Hread. cbv zeta. rewrite Hr, H1, H2, H3, H4, H5, H6. clear H1 H2 H3 H4 H5 H6 Hr.
  destruct ty, v, cd; cbn [type_ripas ripas_change type_has_pa]; which_type; cbn [negb].
  all: try (by eexists; split; [|reflexivity]; done).
  all: try (destruct (Hsame eq_refl) as (e' & p' & H1 & H2 & H3); exists e', p', 0;
            do 4 (split; [by decide_goal|]); by rewrite H3).
  all: try (exists e; eexists (PTable _), 0; split; [by eexists _, _, pa, pa|]; split; [reflexivity|]; do 2 (split; [by decide_goal|]);
            by run_step (Hwr e)).
  all: try (first [pose proof (HunR eq_refl eq_refl ltac:(auto)) as Hc|pose proof (HunE eq_refl eq_refl ltac:(auto)) as Hc];
            eexists _, (PTable _), 0; split; [exact Hc|];
            split; [reflexivity|]; do 2 (split; [by decide_goal|]); by run_step (Hwr _)).
  all: first [destruct (HasR eq_refl ltac:(auto) ltac:(auto)) as (e' & Hc & Hpa & Hcr)
             |destruct (HasE eq_refl ltac:(auto) ltac:(auto)) as (e' & Hc & Hpa & Hcr)];
    exists e'; eexists (PTable _), _; (split; [exact Hc|]); (split; [reflexivity|]).
  all: (split; [|split; [|rewrite (bind_run _ _ _ _ _ (lift_run _ _ _ Hpa)); cbv beta;
    rewrite (bind_run _ _ _ _ _ (lift_run _ _ _ Hcr)); rewrite (bind_run _ _ _ _ _ (Hwr _)); reflexivity]]); by decide_goal.
Qed.

(** Entries that the change applies to. *)
Definition ripas_applies (s2_ctx : s2tt_context) (v : ripas) (cd : ripas_change_destroyed) (i e : Z) : Prop :=
  ∃ ty pa, is_made s2_ctx ty pa i e ∧ is_Some (ripas_change v cd ty).

(** Every mapping that the run removes is invalidated in [l]. *)
Definition run_invalidated (s2_ctx : s2tt_context) (v : ripas) (i : Z) (idx k : nat) (t : list Z) (addr size : Z)
  (l : list tlb_event) : Prop :=
  ∀ j e pa, (j < k)%nat → t !! (idx + j)%nat = Some e → is_made s2_ctx AssignedRam pa i e → v = RIPAS_EMPTY →
    ∀ ev, ev ∈ page_tlbi s2_ctx (addr + Z.of_nat j * size) → ev ∈ l.

Definition set_outcome (s2_ctx : s2tt_context) (v : ripas) (cd : ripas_change_destroyed) (i : Z) (s : state) (idx n : nat)
  (addr size top g : Z) (p : page) (t : list Z) (run : result (Z * state)) : Prop :=
  ∃ k p' t' l,
    run = Ok (addr + Z.of_nat k * size, set_tlbi (l ++ tlbi s) (set_mem (<[g := p']> (mem s)) s)) ∧
    run_of (ripas_applies s2_ctx v cd i) idx n k t addr size top ∧
    page_table p' = Some t' ∧ entries_changed (ripas_changed s2_ctx v cd i) idx k t t' ∧
    run_invalidated s2_ctx v i idx k t addr size l ∧ (k = 0%nat → p' = p ∧ l = []).

Lemma set_loop_run s2_ctx v cd i s2tt n : ∀ s idx addr size top g p t,
  slots s !! s2tt = Some g → mem s !! g = Some p → page_table p = Some t →
  (∀ j e, t !! j = Some e → ∃ ty pa, is_made s2_ctx ty pa i e) →
  (idx + n <= length t)%nat → 0 <= addr → 0 < size → addr + Z.of_nat n * size < 2 ^ 64 →
  min_starting_level s2_ctx <= i <= 3 → 0 <= vmid s2_ctx < 2 ^ 16 →
  set_outcome s2_ctx v cd i s idx n addr size top g p t
    (set_ripas_loop n s2_ctx s2tt (Z.of_nat idx) i addr size top v cd s).
Proof.
  induction n as [|n IH]; intros s idx addr size top g p t Hs Hm Hp Hty Hlen Ha Hsz Hb Hi Hv.
  all: assert (Hid : set_tlbi ([] ++ tlbi s) (set_mem (<[g := p]> (mem s)) s) = s)
    by (rewrite insert_id by done; by destruct s).
  all: assert (Hstop : ∀ n, n = 0%nat ∨ top < addr + size ∨ (∃ e, t !! idx = Some e ∧ ¬ ripas_applies s2_ctx v cd i e) →
    set_outcome s2_ctx v cd i s idx n addr size top g p t (Ok (addr, s)));
    [intros n' Hst; exists 0%nat, p, t, []; rewrite Hid; split_and!; try done;
      [do 2 f_equal; lia|by apply run_of_stop|apply entries_changed_0|intros ???; lia]|].
  { apply Hstop. by left. }
  cbn [set_ripas_loop]. rewrite (u64_small (addr + size)) by (unfold is_u64; nia).
  destruct (Z.ltb_spec top (addr + size)) as [Hlt|Hle]; [apply Hstop; auto|].
  destruct (lookup_lt_is_Some_2 t idx) as [e He]; [lia|]. destruct (Hty _ _ He) as (ty & pa & Hmade).
  pose proof (update_ripas_run s s2_ctx s2tt g p t idx i e ty pa v cd Hs Hm Hp He Hmade Hi) as Hup.
  destruct (ripas_change v cd ty) as [ty'|] eqn:Hc; cycle 1.
  { destruct Hup as (x & Hx & Hup). run_step Hup. rewrite (proj2 (Z.ltb_lt _ _)) by done. apply Hstop. right; right.
    exists e. split; [done|]. intros (ty2 & pa2 & Hm2 & Hc2).
    assert (ty2 = ty) as ->.
    { apply (made_type _ _ _ _ _ ty Hm2). rewrite (made_is _ _ _ _ _ ty Hmade). by apply bool_decide_eq_true_2. }
    rewrite Hc in Hc2. by destruct Hc2. }
  destruct Hup as (e' & p' & ret & Hch & Hp' & Hret & Hlose & Hup). run_step Hup. rewrite (proj2 (Z.ltb_ge _ _)) by done.
  set (l1 := if ret =? 0 then [] else page_tlbi s2_ctx addr).
  set (s1 := set_tlbi (l1 ++ tlbi s) (set_mem (<[g := p']> (mem s)) s)).
  assert (Htl : mwhen (negb (ret =? 0)) (if i =? S2TT_PAGE_LEVEL then s2tt_invalidate_page s2_ctx addr
    else s2tt_invalidate_block s2_ctx addr) (set_mem (<[g := p']> (mem s)) s) = Ok ((), s1)).
  { unfold l1, s1. destruct (ret =? 0); cbn [negb mwhen]; [by destruct s|]. by rewrite invalidate_entry_run. }
  run_step Htl. replace (Z.of_nat idx + 1) with (Z.of_nat (S idx)) by lia.
  destruct (IH s1 (S idx) (addr + size) size top g p' (<[idx := e']> t)) as
    (k & p2 & t2 & l & Hrun & Hrof & Hp2 & Hec & Hinv & _); try done; try lia.
  - cbn. apply lookup_insert_eq.
  - intros j x [[-> [<- _]]|[_ Hx]]%list_lookup_insert_Some; [|by eapply Hty].
    destruct Hch as (_ & ty2 & _ & pa2 & _ & _ & Hm2 & _). by exists ty2, pa2.
  - rewrite length_insert. lia.
  - exists (S k), p2, t2, (l ++ l1). split_and!; try done.
    + rewrite Hrun. do 2 f_equal; [lia|]. unfold s1, set_tlbi, set_mem. cbn. by rewrite insert_insert_eq, app_assoc.
    + eapply run_of_S; [done| |done|done]. exists ty, pa. split; [done|by eexists].
    + by eapply entries_changed_S.
    + intros j x pa2 Hj Hx Hm2 -> ev Hev. apply elem_of_app. destruct j as [|j].
      * right. rewrite Nat.add_0_r, He in Hx. injection Hx as <-.
        assert (ty = AssignedRam) as ->.
        { symmetry. apply (made_type _ _ _ _ _ ty Hm2). rewrite (made_is _ _ _ _ _ ty Hmade). by apply bool_decide_eq_true_2. }
        unfold l1. rewrite (proj2 (Z.eqb_neq ret 0)) by (by apply Hlose). by replace addr with (addr + Z.of_nat 0 * size) by lia.
      * left. apply (Hinv j x pa2); [lia| |done|done|].
        { rewrite list_lookup_insert_ne by lia. by rewrite Nat.add_succ_comm. }
        by replace (addr + size + Z.of_nat j * size) with (addr + Z.of_nat (S j) * size) by lia.
Qed.

Lemma map_addr_ok_arith s r T a i :
  rtt_wf s (s2_ctx r) T → 0 <= a → min_starting_level (s2_ctx r) <= i <= 3 →
  map_addr_ok r a i = true ↔ a < 2 ^ ipa_bits (s2_ctx r) ∧ a mod s2tte_map_size i = 0.
Proof.
  intros Hwf Ha Hi. pose proof (wf_bits _ _ _ Hwf) as Hb.
  assert (Hl : 0 <= i <= 3 ∨ enable_lpa2 (s2_ctx r) = true ∧ -1 <= i <= 3).
  { unfold min_starting_level, S2TT_MIN_STARTING_LEVEL_LPA2, S2TT_MIN_STARTING_LEVEL in Hi. destruct (enable_lpa2 _); auto. }
  pose proof (lvl_aligned_arith (enable_lpa2 (s2_ctx r)) i a Hl) as Har. unfold lvl_aligned, inmask in Har.
  assert (2 ^ ipa_bits (s2_ctx r) <= 2 ^ s2tte_oa_bits (enable_lpa2 (s2_ctx r))) by (apply Z.pow_le_mono_r; lia).
  unfold map_addr_ok. rewrite andb_true_iff, Z.ltb_lt, Z.eqb_eq. split.
  - intros [Hlt Heq]. split; [done|]. by apply Har.
  - intros [Hlt Hmod]. split; [done|]. symmetry. apply Har. split; [lia|done].
Qed.

(** A pending request of a REC of the realm: its next address is a page of the realm and its
    end is inside the protected space. *)
Definition request_ok (r : rd) (q : set_ripas_info) : Prop :=
  0 <= sr_addr q ∧ map_addr_ok r (sr_addr q) 3 = true ∧ sr_top q < 2 ^ ipa_bits (s2_ctx r).

Section command.
Context (s : state) (rd_addr g_rd : Z) (r : rd) (T : gmap Z (Z * Z)) (base top : Z) (res : smc_result).
Context (h rcd tagd tagh : Z) (rc_ : rec).
Hypothesis Hra : realm_at s rd_addr g_rd r T.
Hypothesis Hgd : granules s !! g_rd = Some (Gr false GRANULE_STATE_RD rcd tagd).
Hypothesis Hokd : gok GRANULE_STATE_RD rcd.
Hypothesis Hh : granules s !! h = Some (Gr false GRANULE_STATE_REC 0 tagh).
Hypothesis Hne : h ≠ g_rd.
Hypothesis HTh : T !! h = None.
Hypothesis Hmh : mem s !! h = Some (PRec rc_).
Hypothesis Hreq : request_ok r (set_ripas rc_).
Hypothesis Hbase : base = sr_addr (set_ripas rc_).

(** Both granules are locked and the REC is mapped. *)
Definition rec_opened : state :=
  set_slots (<[SLOT_REC := h]> ∅)
    (put_granule g_rd (Gr true GRANULE_STATE_RD rcd tagd) (put_granule h (Gr true GRANULE_STATE_REC 0 tagh) s)).

(** The walk and the change, from the point where the request was accepted. *)
Lemma set_ripas_walk_run :
  let v := sr_ripas_val (set_ripas rc_) in
  let cd := sr_change_destroyed (set_ripas rc_) in
  ∃ g i b rc tag p t e k, T !! g = Some (i, b) ∧ covers_lvl i b base ∧ rtt_view s g rc tag p t ∧
    t !! Z.to_nat (s2_addr_to_idx base i) = Some e ∧ (i < 3 → entry_is_table e = false) ∧
    let idx := Z.to_nat (s2_addr_to_idx base i) in
    let size := s2tte_map_size i in
    (if base mod size =? 0 then run_of (ripas_applies (s2_ctx r) v cd i) idx (512 - idx) k t base size top else k = 0%nat) ∧
    if decide (k = 0%nat) then set_ripas_walk g_rd SLOT_REC base top res rec_opened = Ok (set_x0 (rtt_code i) res, rec_opened)
    else
      ∃ p' t' l, page_table p' = Some t' ∧ entries_changed (ripas_changed (s2_ctx r) v cd i) idx k t t' ∧
        run_invalidated (s2_ctx r) v i idx k t base size l ∧
        set_ripas_walk g_rd SLOT_REC base top res rec_opened
        = Ok (set_x1 (base + Z.of_nat k * size) (set_x0 RMI_SUCCESS res),
              set_tlbi (l ++ tlbi s) (set_mem (<[h := PRec (set_ripas_addr (base + Z.of_nat k * size) rc_)]> (<[g := p']> (mem s)))
                rec_opened)).
Proof using Hra Hgd Hokd Hh Hne HTh Hmh Hreq Hbase L HL.
  intros v cd. pose proof (ra_inv _ _ _ _ _ Hra) as Hinv. pose proof (inv_wf _ _ _ Hinv) as Hwf.
  destruct Hreq as (H0 & Hok & Htop). rewrite <- Hbase in H0, Hok.
  pose proof (min_starting_level_le (s2_ctx r)) as Hmin. pose proof (wf_bits52 _ _ _ Hwf) as Hbits.
  assert (H52 : 2 ^ ipa_bits (s2_ctx r) <= 2 ^ 52) by (apply Z.pow_le_mono_r; lia).
  destruct (proj1 (map_addr_ok_arith s r T base 3 Hwf H0 ltac:(lia)) Hok) as [Hlt _].
  destruct (realm_facts _ _ _ _ _ Hra) as (_ & _ & prd & _ & _ & Hadrd & Hmd & Hpd & _).
  assert (HTrd : T !! g_rd = None).
  { destruct (T !! g_rd) as [[i b]|] eqn:HT; [|done]. by destruct (realm_table_ne _ _ _ _ _ _ _ _ Hra HT). }
  set (s1 := set_slots (<[SLOT_RD := g_rd]> (<[SLOT_REC := h]> ∅))
    (put_granule g_rd (Gr true GRANULE_STATE_RD rcd tagd) (put_granule h (Gr true GRANULE_STATE_REC 0 tagh) s))).
  destruct (walk_from s s1 rd_addr g_rd r T base Hra) as
    (g & i & b & rc & tag & p & t & e & Hwalk & HT & Hc & Hview & Hng & Hidx & He & Hi & Hleaf & Hg1 & Hm1); [|done|lia|].
  { eapply tables_same_trans; [by apply (tables_same_put T s h)|].
    eapply tables_same_trans; [by apply (tables_same_put T _ g_rd)|apply tables_same_slots]. }
  pose proof Hview as [Hadr Hgr Hrc Hmem Hp Hlen].
  assert (Hngh : g ≠ h) by congruence.
  destruct (map_size_48 i ltac:(lia)) as [Hsz Hspan]. set (size := s2tte_map_size i) in *.
  set (idx := Z.to_nat (s2_addr_to_idx base i)) in *.
  assert (Hix : s2_addr_to_idx base i = Z.of_nat idx) by (unfold idx; lia).
  pose proof (Z.mod_pos_bound base size ltac:(lia)) as Hmod.
  set (s2 := put_granule g (Gr true GRANULE_STATE_RTT rc tag) s1).
  assert (Hval : ∀ l, min_starting_level (s2_ctx r) <= l <= 3 → validate_map_addr base l r = Ok (map_addr_ok r base l))
    by (intros; by apply validate_map_addr_run).
  assert (Hstart : set_ripas_walk g_rd SLOT_REC base top res rec_opened
    = ((if negb (map_addr_ok r base i) then rtt_error i ≫= λ ret, mret (set_x0 ret res)
        else
          map_assert g SLOT_RTT ≫= λ s2tt,
          rtt_set_ripas_range (s2_ctx r) s2tt base top
            {| g_llt := g; windex := s2_addr_to_idx base i; last_level := i |} v cd res ≫= λ res,
          mwhen (x0 res =? RMI_SUCCESS)
            (read_rec SLOT_REC ≫= λ r_rec, write_page SLOT_REC (PRec (set_ripas_addr (x1 res) r_rec))) ≫= λ _,
          buffer_unmap s2tt ≫= λ _, mret res) ≫= λ res,
       granule_unlock g ≫= λ _, buffer_unmap SLOT_RD ≫= λ _, mret res) s2).
  { unfold set_ripas_walk.
    rewrite (bind_run _ _ _ rc_ rec_opened) by (eapply read_rec_run; [apply lookup_insert_eq|exact Hmh|done]). cbv beta.
    rewrite (bind_run _ _ _ SLOT_RD s1) by (by apply map_assert_run). cbv beta.
    rewrite (bind_run _ _ _ r s1) by (eapply read_rd_run; [apply lookup_insert_eq|exact Hmd|done]). cbv beta.
    run_step (lift_run _ _ _ (Hval 3 ltac:(lia))). rewrite Hok. rewrite (bind_run _ _ _ () s1) by (by apply massert_run). cbv beta.
    rewrite Hwalk. cbn [g_llt windex last_level]. by run_step (lift_run _ _ _ (Hval i ltac:(lia))). }
  assert (Hend : ∀ (out : smc_result) m l, (granule_unlock g ≫= λ _, buffer_unmap SLOT_RD ≫= λ _, mret out)
    (set_tlbi l (set_mem m s2)) = Ok (out, set_tlbi l (set_mem m rec_opened))).
  { intros out m l. unfold s2, s1, rec_opened. st_norm. exec granule_unlock_run. exec buffer_unmap_run.
    unfold mret, M_ret. do 2 f_equal. state_solve. }
  assert (Hs2 : s2 = set_tlbi (tlbi s) (set_mem (mem s) s2)) by done.
  assert (Hrs : set_tlbi (tlbi s) (set_mem (mem s) rec_opened) = rec_opened) by done.
  rewrite Hstart. clear Hstart.
  pose proof (map_addr_ok_arith s r T base i Hwf H0 Hi) as Harith. fold size in Harith.
  destruct (map_addr_ok r base i) eqn:Hal; cbn [negb]; cycle 1.
  { exists g, i, b, rc, tag, p, t, e, 0%nat. do 5 (split; [done|]). cbv zeta. fold size.
    rewrite (proj2 (Z.eqb_neq (base mod size) 0)) by (intros Hz; by discriminate (proj2 Harith (conj Hlt Hz))).
    split; [done|]. rewrite decide_True by done. steps. run_step (rtt_error_run i _). steps.
    by rewrite Hs2, Hend. }
  destruct (proj1 Harith eq_refl) as [_ Hbz].
  set (s3 := set_slots (<[SLOT_RTT := g]> (<[SLOT_RD := g_rd]> (<[SLOT_REC := h]> ∅))) s2).
  assert (Hma : map_assert g SLOT_RTT s2 = Ok (SLOT_RTT, s3)) by (by apply map_assert_run).
  assert (Hun : ∀ m l, buffer_unmap SLOT_RTT (set_tlbi l (set_mem m s3)) = Ok ((), set_tlbi l (set_mem m s2))).
  { intros m l. by rewrite (buffer_unmap_run _ SLOT_RTT g (lookup_insert_eq _ _ _)). }
  assert (Hloop : set_outcome (s2_ctx r) v cd i s3 idx (512 - idx) base size top g p t
    (set_ripas_loop (512 - idx) (s2_ctx r) SLOT_RTT (Z.of_nat idx) i base size top v cd s3)).
  { apply set_loop_run; try done; try lia.
    - intros j x Hx. eapply (inv_typed _ _ _ Hinv g i b t j x HT); [unfold table_of; by rewrite Hmem|done].
    - apply (inv_vmid _ _ _ Hinv). }
  destruct Hloop as (k & p' & t' & l & Hrun & Hrof & Hp' & Hec & Hri & Hk0).
  assert (Hrange : rtt_set_ripas_range (s2_ctx r) SLOT_RTT base top
      {| g_llt := g; windex := s2_addr_to_idx base i; last_level := i |} v cd res s3
    = Ok (if decide (k = 0%nat) then set_x0 (rtt_code i) res else set_x1 (base + Z.of_nat k * size) (set_x0 RMI_SUCCESS res),
          set_tlbi (l ++ tlbi s) (set_mem (<[g := p']> (mem s)) s3))).
  { unfold rtt_set_ripas_range. cbv zeta. cbn [last_level windex].
    assert (Hbu : is_u64 base) by (unfold is_u64; lia).
    rewrite level_align by (done || lia). fold size. rewrite Hbz, Z.sub_0_r, Z.eqb_refl. cbn [negb].
    change S2TTES_PER_S2TT with 512. replace (Z.to_nat (512 - s2_addr_to_idx base i)) with (512 - idx)%nat by lia.
    rewrite Hix. run_step Hrun. destruct (decide (k = 0%nat)) as [->|Hk].
    - rewrite (proj2 (Z.ltb_ge _ _)) by lia. by run_step (rtt_error_run i _).
    - by rewrite (proj2 (Z.ltb_lt _ _)) by nia. }
  exists g, i, b, rc, tag, p, t, e, k. do 5 (split; [done|]). cbv zeta. fold size idx. rewrite Hbz. cbn [Z.eqb].
  split; [done|]. destruct (decide (k = 0%nat)) as [Hk|Hk].
  - destruct (Hk0 Hk) as [-> ->]. steps. run_step Hma. steps. run_step Hrange. cbn [x0 set_x0]. rewrite rtt_code_error.
    cbn [mwhen]. steps. rewrite insert_id by done. run_step (Hun _ _). steps. by rewrite Hend.
  - exists p', t', l. do 3 (split; [done|]). steps. run_step Hma. steps. run_step Hrange. cbn [x0 x1 set_x0 set_x1].
    rewrite Z.eqb_refl. cbn [mwhen].
    set (m1 := <[g := p']> (mem s)). set (l1 := l ++ tlbi s). set (s4 := set_tlbi l1 (set_mem m1 s3)).
    steps.
    rewrite (bind_run _ _ _ rc_ s4) by
      (eapply read_rec_run; [done|cbn; unfold m1; rewrite lookup_insert_ne by done; exact Hmh|done]). cbv beta.
    rewrite (bind_run _ _ _ _ _ (write_page_run s4 SLOT_REC h _ eq_refl)). cbv beta.
    change (set_mem _ s4) with (set_tlbi l1 (set_mem (<[h := PRec (set_ripas_addr (base + Z.of_nat k * size) rc_)]> m1) s3)).
    steps. run_step (Hun _ _). steps. by rewrite Hend.
Qed.
End command.

Lemma changed_kept s2_ctx v cd i e e' : ripas_changed s2_ctx v cd i e e' → entry_kept s2_ctx i e e'.
Proof.
  intros (ty & ty' & pa & pa' & Hm & Hc & Hm' & _). right. exists ty, pa, ty', pa'. split; [done|]. split; [done|].
  destruct ty, v, cd; cbn in Hc; try done; injection Hc as <-; done.
Qed.

(** The lock of the REC is taken after that of the descriptor, or before. *)
Lemma lock_rd_rec s rd_addr g_rd r T rec_addr h :
  realm_at s rd_addr g_rd r T → is_u64 rec_addr → lockable s rec_addr GRANULE_STATE_REC = Some h →
  ∃ rcd tagd rch tagh,
    granules s !! g_rd = Some (Gr false GRANULE_STATE_RD rcd tagd) ∧ gok GRANULE_STATE_RD rcd ∧
    granules s !! h = Some (Gr false GRANULE_STATE_REC rch tagh) ∧ gok GRANULE_STATE_REC rch ∧
    unlocked_invariant GRANULE_STATE_REC rch = true ∧ has_addr h ∧ h ≠ g_rd ∧ T !! h = None ∧
    find_lock_two_granules rd_addr GRANULE_STATE_RD rec_addr GRANULE_STATE_REC s
    = Ok (Some (g_rd, h), put_granule g_rd (Gr true GRANULE_STATE_RD rcd tagd)
                           (put_granule h (Gr true GRANULE_STATE_REC rch tagh) s)).
Proof using L.
  intros Hra Hu Hl. destruct (realm_facts _ _ _ _ _ Hra) as (rcd & tagd & p & Hg & Hok & _).
  destruct (lockable_quiet _ _ _ _ Hu (ra_quiet _ _ _ _ _ Hra) Hl) as (rch & tagh & Hh & Hokh & Hih & Hadrh & _).
  destruct (other_state _ _ _ _ _ _ _ _ Hra Hu Hl ltac:(done) ltac:(done)) as [HTh Hne].
  exists rcd, tagd, rch, tagh. split_and!; try done.
  rewrite find_lock_two_granules_spec; [|apply (ra_quiet _ _ _ _ _ Hra)|apply (ra_u64 _ _ _ _ _ Hra)|done].
  rewrite Hl, (ra_lock _ _ _ _ _ Hra). rewrite (proj2 (Z.eqb_neq rd_addr rec_addr)).
  - rewrite (lock_one_Gr h s _ _ _ Hh Hokh). do 2 f_equal. apply lock_one_Gr; [|done]. cbn. by rewrite lookup_insert_ne.
  - intros <-. pose proof (lockable_find _ _ _ _ Hl) as Hf. rewrite (lockable_find _ _ _ _ (ra_lock _ _ _ _ _ Hra)) in Hf. congruence.
Qed.

Lemma request_progress s r T rc_ applies idx n k t i base top :
  rtt_wf s (s2_ctx r) T → request_ok r (set_ripas rc_) → top <= sr_top (set_ripas rc_) →
  min_starting_level (s2_ctx r) <= i <= 3 → k ≠ 0%nat → 
  base = sr_addr (set_ripas rc_) ∧
  (if base mod s2tte_map_size i =? 0 then run_of applies idx n k t base (s2tte_map_size i) top else k = 0%nat) →
  request_ok r (set_ripas (set_ripas_addr (base + Z.of_nat k * s2tte_map_size i) rc_)).
Proof.
  intros Hwf (H0 & Hok & Htop) Hle Hi Hk [-> Hrun]. pose proof (min_starting_level_le (s2_ctx r)) as Hmin.
  destruct (map_size_48 i ltac:(lia)) as [Hsz _]. set (base := sr_addr (set_ripas rc_)) in *.
  destruct (base mod s2tte_map_size i =? 0); [|done]. destruct Hrun as (_ & _ & Hend & _). specialize (Hend Hk).
  assert (0 < Z.of_nat k * s2tte_map_size i) by nia. unfold request_ok. cbn [set_ripas set_ripas_addr set_set_ripas sr_addr sr_top].
  split; [lia|]. split; [|done]. apply (map_addr_ok_arith s r T _ 3 Hwf); [lia|lia|]. split; [lia|].
  apply (map_addr_ok_arith s r T base 3 Hwf H0 ltac:(lia)) in Hok as [_ Hmod].
  assert (Hm3 : s2tte_map_size i mod s2tte_map_size 3 = 0).
  { assert (i = -1 ∨ i = 0 ∨ i = 1 ∨ i = 2 ∨ i = 3) as Hc by lia. by destruct_or! Hc; subst i. }
  rewrite Zplus_mod, Hmod, Zmult_mod, Hm3, Z.mul_0_r. done.
Qed.

Lemma rec_refs rc : gok GRANULE_STATE_REC rc → unlocked_invariant GRANULE_STATE_REC rc = true → 0 <= rc <= 1.
Proof. intros [_ Hrc] Hi%Z.leb_le. lia. Qed.

(** C17: RTT_SET_RIPAS on every branch: it always returns. The REC must belong to the realm
    and not be running, and the range must be the next part of what the REC asked for. At
    the last table for [base], the longest run of entries with a RIPAS that may change
    (destroyed ones only if the REC allowed it), that starts at [base], ends at or before
    [top] and does not leave the table, gets the new RIPAS: pages stay assigned to the same
    granules, and mappings that are taken away are invalidated in the TLBs. The progress of
    the request is recorded in the REC and returned. Otherwise nothing changes. The realm
    stays well-formed and the request valid. *)
Theorem smc_rtt_set_ripas_spec s rd_addr g_rd r T rec_addr base top res :
  realm_at s rd_addr g_rd r T → is_u64 rec_addr →
  (∀ h, lockable s rec_addr GRANULE_STATE_REC = Some h →
    ∃ rc_, mem s !! h = Some (PRec rc_) ∧ (g_rd = ri_g_rd rc_ → request_ok r (set_ripas rc_))) →
  let run := smc_rtt_set_ripas rd_addr rec_addr base top res s in
  match lockable s rec_addr GRANULE_STATE_REC with
  | Some h =>
      if base <? top then
        ∃ rch tagh rc_, granules s !! h = Some (Gr false GRANULE_STATE_REC rch tagh) ∧ 0 <= rch <= 1 ∧
          mem s !! h = Some (PRec rc_) ∧
          let q := set_ripas rc_ in
          let v := sr_ripas_val q in
          let cd := sr_change_destroyed q in
          if negb (rch =? 0) || negb (g_rd =? ri_g_rd rc_) then run = Ok (set_x0 RMI_ERROR_REC res, s)
          else if negb (base =? sr_addr q) || (sr_top q <? top) then run = Ok (set_x0 RMI_ERROR_INPUT res, s)
          else
            ∃ g i b rc tag p t e k, T !! g = Some (i, b) ∧ covers_lvl i b base ∧ rtt_view s g rc tag p t ∧
              t !! Z.to_nat (s2_addr_to_idx base i) = Some e ∧ (i < 3 → entry_is_table e = false) ∧
              let idx := Z.to_nat (s2_addr_to_idx base i) in
              let size := s2tte_map_size i in
              (if base mod size =? 0 then run_of (ripas_applies (s2_ctx r) v cd i) idx (512 - idx) k t base size top
               else k = 0%nat) ∧
              if decide (k = 0%nat) then run = Ok (set_x0 (rtt_code i) res, s)
              else
                ∃ p' t' l rc' s', page_table p' = Some t' ∧ entries_changed (ripas_changed (s2_ctx r) v cd i) idx k t t' ∧
                  run_invalidated (s2_ctx r) v i idx k t base size l ∧
                  rc' = set_ripas_addr (base + Z.of_nat k * size) rc_ ∧
                  s' = set_tlbi (l ++ tlbi s) (set_mem (<[h := PRec rc']> (<[g := p']> (mem s))) s) ∧
                  run = Ok (set_x1 (base + Z.of_nat k * size) (set_x0 RMI_SUCCESS res), s') ∧
                  realm_at s' rd_addr g_rd r T ∧ request_ok r (set_ripas rc')
      else run = Ok (set_x0 RMI_ERROR_INPUT res, s)
  | None => run = Ok (set_x0 RMI_ERROR_INPUT res, s)
  end.
Proof using L HL.
  intros Hra Hu Hrec run. unfold run, smc_rtt_set_ripas. clear run.
  destruct (lockable s rec_addr GRANULE_STATE_REC) as [h|] eqn:Hl; cycle 1.
  { destruct (top <=? base); [done|].
    pose proof (find_lock_two_granules_spec s rd_addr GRANULE_STATE_RD rec_addr GRANULE_STATE_REC
      (ra_quiet _ _ _ _ _ Hra) (ra_u64 _ _ _ _ _ Hra) Hu) as Hf.
    rewrite Hl, (ra_lock _ _ _ _ _ Hra) in Hf. by run_step Hf. }
  destruct (Z.leb_spec top base), (Z.ltb_spec base top); try lia; [done|].
  destruct (Hrec h eq_refl) as (rc_ & Hmh & Hreq).
  destruct (lock_rd_rec _ _ _ _ _ _ _ Hra Hu Hl) as (rcd & tagd & rch & tagh & Hgd & Hokd & Hh & Hokh & Hih & Hadrh & Hne & HTh & Hlock).
  exists rch, tagh, rc_. split; [done|]. split; [by apply rec_refs|]. split; [done|]. cbv zeta. run_step Hlock.
  pose proof (ra_slots _ _ _ _ _ Hra) as Hs.
  set (s1 := put_granule g_rd _ _).
  assert (Hclose : ∀ (out : smc_result) m l, (granule_unlock h ≫= λ _, granule_unlock g_rd ≫= λ _, mret out)
    (set_tlbi l (set_mem m s1)) = Ok (out, set_tlbi l (set_mem m s))).
  { intros out m l. unfold s1. st_norm. exec granule_unlock_run. exec granule_unlock_run.
    unfold mret, M_ret. do 2 f_equal. state_solve. }
  assert (Hs1 : s1 = set_tlbi (tlbi s) (set_mem (mem s) s1)) by done.
  assert (Hss : set_tlbi (tlbi s) (set_mem (mem s) s) = s) by (by destruct s).
  rewrite (bind_run _ _ _ rch s1) by
    (eapply granule_refcount_read_acquire_run; [cbn; rewrite lookup_insert_ne by done; apply lookup_insert_eq|done|done]).
  destruct (Z.eqb_spec rch 0) as [->|Hz]; cbn [negb orb]; cycle 1.
  { steps. rewrite Hs1, Hclose. by rewrite Hss. }
  set (s2 := rec_opened s g_rd h rcd tagd tagh).
  assert (Hma : map_assert h SLOT_REC s1 = Ok (SLOT_REC, s2)).
  { rewrite map_assert_run by (done || (cbn; by rewrite Hs)). unfold s2, rec_opened, s1. do 2 f_equal. cbn. by rewrite Hs. }
  assert (Hend : ∀ (out : smc_result) m l,
    (buffer_unmap SLOT_REC ≫= λ _, mret out ≫= λ res, granule_unlock h ≫= λ _, granule_unlock g_rd ≫= λ _, mret res)
      (set_tlbi l (set_mem m s2))
    = Ok (out, set_tlbi l (set_mem m s))).
  { intros out m l. rewrite (bind_run _ _ _ () (set_tlbi l (set_mem m s1))); [rewrite ret_bind; apply Hclose|].
    rewrite (buffer_unmap_run _ SLOT_REC h (lookup_insert_eq _ _ _)). unfold s2, rec_opened, s1. do 2 f_equal. st_norm. by rewrite Hs. }
  assert (Hs2 : s2 = set_tlbi (tlbi s) (set_mem (mem s) s2)) by done.
  assert (Hread : read_rec SLOT_REC s2 = Ok (rc_, s2)) by (eapply read_rec_run; [apply lookup_insert_eq|exact Hmh|done]).
  destruct (Z.eqb_spec g_rd (ri_g_rd rc_)) as [Heq|Heq]; cbn [negb]; cycle 1.
  { steps. run_step Hma. steps. run_step Hread. rewrite (proj2 (Z.eqb_neq _ _)) by done. cbn [negb]. steps.
    rewrite Hs2, Hend. by rewrite Hss. }
  destruct (negb (base =? sr_addr (set_ripas rc_)) || (sr_top (set_ripas rc_) <? top)) eqn:Hq.
  { steps. run_step Hma. steps. run_step Hread. rewrite (proj2 (Z.eqb_eq _ _)) by done. cbn [negb]. rewrite Hq. steps.
    rewrite Hs2, Hend. by rewrite Hss. }
  pose proof Hq as [Hb%negb_false_iff%Z.eqb_eq Htop%Z.ltb_ge]%orb_false_iff.
  destruct (set_ripas_walk_run s rd_addr g_rd r T base top res h rcd tagd tagh rc_ Hra Hgd Hokd Hh Hne HTh Hmh (Hreq Heq) Hb)
    as (g & i & b & rc & tag & p & t & e & k & HT & Hc & Hv & He & Hleaf & Hrof & Hrun).
  exists g, i, b, rc, tag, p, t, e, k. do 6 (split; [done|]). fold s2 in Hrun. destruct (decide (k = 0%nat)) as [Hk|Hk].
  { steps. run_step Hma. steps. run_step Hread. rewrite (proj2 (Z.eqb_eq _ _)) by done. cbn [negb]. rewrite Hq. steps.
    run_step Hrun. steps. rewrite Hs2, Hend. by rewrite Hss. }
  destruct Hrun as (p' & t' & l & Hp' & Hec & Hri & Hrun). exists p', t', l. eexists _, _.
  do 3 (split; [done|]). do 2 (split; [reflexivity|]). split.
  - steps. run_step Hma. steps. run_step Hread. rewrite (proj2 (Z.eqb_eq _ _)) by done. cbn [negb]. rewrite Hq. steps.
    run_step Hrun. steps. by rewrite Hend.
  - pose proof (ra_inv _ _ _ _ _ Hra) as Hinv. pose proof (inv_wf _ _ _ Hinv) as Hwf. pose proof Hv as [Hadr Hgr Hrc Hmem Hp Hlen].
    assert (Hng : g ≠ g_rd) by (by eapply realm_table_ne). split.
    + set (s3 := set_tlbi (l ++ tlbi s) (set_mem (<[g := p']> (mem s)) s)).
      change (realm_at (set_mem (<[h := PRec (set_ripas_addr (base + Z.of_nat k * s2tte_map_size i) rc_)]> (mem s3)) s3) rd_addr g_rd r T).
      apply realm_at_write; [|done|done].
      assert (Hra' : realm_at (set_rtt g rc tag t' l s) rd_addr g_rd r T).
      { eapply realm_at_entries; [done|done|done|by destruct Hec as [-> _]|].
        eapply entries_kept; [|exact Hec]. intros j x y _ Hy. by eapply changed_kept. }
      eapply realm_at_alike; [exact Hra'| |apply (ra_quiet _ _ _ _ _ Hra)|done| |].
      * intros d x Hx. rewrite set_rtt_granule, set_rtt_table. unfold s3, table_of. cbn.
        destruct (decide (d = g)) as [->|Hd]; [by rewrite lookup_insert_eq|by rewrite lookup_insert_ne].
      * rewrite set_rtt_granule. by rewrite decide_False.
      * cbn. by rewrite !lookup_insert_ne.
    + eapply request_progress; [done|by apply Hreq|done| |done|]; [|by rewrite <- Hb].
      destruct (inv_level _ _ _ Hinv _ _ _ HT). pose proof (wf_start _ _ _ Hwf). lia.
Qed.
End specs.

(** * Example *)

#[local] Instance set_config : Config := plain_config.

(** Granule 5 holds a REC of the example realm that asks for the first two pages as RAM. *)
Definition asking_rec : rec :=
  set_set_ripas {| sr_base := 0; sr_top := 8192; sr_addr := 0; sr_ripas_val := RIPAS_RAM;
                   sr_change_destroyed := NO_CHANGE_DESTROYED; sr_response := ACCEPT |} demo_rec.
Definition asking_state : state :=
  let s := put_granule 5 (Gr false GRANULE_STATE_REC 0 0) (demo_state (replicate 512 0) 0) in
  set_mem (<[5 := PRec asking_rec]> (mem s)) s.

Lemma asking_realm : realm_at (P := demo_platform) asking_state 0 0 demo_rd demo_tables.
Proof. apply realm_at_write; [|done|done]. apply realm_at_put; [apply demo_realm_at|done|done|by split|done]. Qed.

Lemma asking_view g rc tag p t :
  g ≠ 5 → rtt_view (P := demo_platform) asking_state g rc tag p t →
  rtt_view (P := demo_platform) (demo_state (replicate 512 0) 0) g rc tag p t.
Proof.
  intros Hg [A1 A2 A3 A4 A5 A6]. split; try done.
  - change (granules asking_state) with (<[5 := Gr false GRANULE_STATE_REC 0 0]> (granules (demo_state (replicate 512 0) 0))) in A2.
    by rewrite lookup_insert_ne in A2.
  - change (mem asking_state) with (<[5 := PRec asking_rec]> (mem (demo_state (replicate 512 0) 0))) in A4.
    by rewrite lookup_insert_ne in A4.
Qed.

Lemma smc_rtt_set_ripas_spec_witness :
  ∃ res s', smc_rtt_set_ripas (P := demo_platform) (H := zero_machine) 0 (5 * 4096) 0 8192 demo_res asking_state
            = Ok (res, s') ∧ x0 res = RMI_SUCCESS ∧ realm_at (P := demo_platform) s' 0 0 demo_rd demo_tables.
Proof.
  pose proof (smc_rtt_set_ripas_spec (P := demo_platform) (H := zero_machine) (L := demo_laws)
    (HL := demo_machine_laws) asking_state 0 0 demo_rd demo_tables (5 * 4096) 0 8192 demo_res
    asking_realm ltac:(done)) as Hspec.
  destruct Hspec as (rch & tagh & rc_ & Hg & Hrch & Hm & Hrun).
  { intros h [= <-]. exists asking_rec. split; [done|]. by intros _. }
  change (Some (PRec asking_rec) = Some (PRec rc_)) in Hm. injection Hm as <-.
  change (Some (Gr false GRANULE_STATE_REC 0 0) = Some (Gr false GRANULE_STATE_REC rch tagh)) in Hg.
  assert (rch = 0) as ->.
  { apply (inj Some) in Hg. apply Gr_inj in Hg as (_ & _ & <- & _); [done|by split|]. split; [done|].
    change REFCOUNT_MAX with 1023. lia. }
  destruct Hrun as (g & i & b & rc & tag & p & t & e & k & HT & _ & Hv & He & Hleaf & Hk & Hrun).
  apply asking_view in Hv; [|by intros ->].
  destruct (demo_leaf_end _ _ _ _ _ _ _ _ _ 0 _ HT Hv eq_refl eq_refl He Hleaf) as (-> & -> & ->).
  destruct Hk as (_ & _ & _ & Hk). destruct (decide (k = 0%nat)) as [->|Hne].
  { destruct (Hk ltac:(by apply Nat.ltb_lt)) as [Hlt|(x & Hx & Hno)].
    - change (8192 < 4096) in Hlt. lia.
    - exfalso. apply Hno. apply lookup_replicate in Hx as [-> _]. exists UnassignedEmpty, 0.
      split; [exact (demo_zero_made 3 ltac:(lia))|exists UnassignedRam; reflexivity]. }
  destruct Hrun as (p' & t' & l & rc' & s' & _ & _ & _ & _ & _ & Hrun & Hra & _). eexists _, s'.
  split; [exact Hrun|]. split; [reflexivity|exact Hra].
Defined.
