(* ===== verification/RealmCmd.v ===== *)
(** The realm commands of runtime/rmi/realm.c: REALM_CREATE with the validation of the
    host's parameters and the initialisation of the root tables, REALM_ACTIVATE and
    REALM_DESTROY. *)
From S2P Require Import Prelude Types Granule Platform GranuleFind S2tte S2tt Buffer Walk Exec Realm Measurement Rtt Feature.

(** * Parameters (lib/smc/include/smc-rmi.h) *)

Definition RMI_HASH_SHA_256 : Z := 0.
Definition RMI_HASH_SHA_512 : Z := 1.
Definition RPV_SIZE : nat := 64.
Definition S2TT_MIN_IPA_BITS : Z := 32.
Definition S2TT_MAX_IPA_BITS : Z := 48.
Definition S2TT_MAX_IPA_BITS_LPA2 : Z := 52.
Definition RMI_FEATURE_MIN_IPA_SIZE : Z := 32.
Definition RMI_REALM_FLAGS_LPA2 : bitfield := {| fshift := 0; fwidth := 1 |}.
Definition RMI_REALM_FLAGS_SVE : bitfield := {| fshift := 1; fwidth := 1 |}.
Definition RMI_REALM_FLAGS_PMU : bitfield := {| fshift := 2; fwidth := 1 |}.

(** [struct rmi_realm_params]: the members that are measured, and the others. *)
Record realm_params := {
  p_measured : rmi_realm_params;
  p_rpv : list Z;
  p_vmid : Z;
  p_rtt_base : Z;
  p_rtt_level_start : Z;
  p_rtt_num_start : Z;
}.

(** A little-endian member of [n] bytes at an offset of the structure. *)
Definition le_val (l : list Z) : Z := foldr (λ b acc, b + 256 * acc) 0 l.
Definition member_at (off n : nat) (bytes : list Z) : Z := le_val (take n (drop off bytes)).

Definition realm_params_of_bytes (bytes : list Z) : realm_params :=
  {| p_measured :=
       {| rp_flags := member_at 0 8 bytes; rp_s2sz := member_at 8 4 bytes;
          rp_sve_vl := member_at 16 4 bytes; rp_num_bps := member_at 24 4 bytes;
          rp_num_wps := member_at 32 4 bytes; rp_pmu_num_ctrs := member_at 40 4 bytes;
          rp_algorithm := member_at 48 1 bytes |};
     p_rpv := take RPV_SIZE (drop 1024 bytes);
     p_vmid := member_at 2048 2 bytes;
     p_rtt_base := member_at 2056 8 bytes;
     p_rtt_level_start := s64 (member_at 2064 8 bytes);
     p_rtt_num_start := member_at 2072 4 bytes |}.

Section params.
Context {P : Platform} {H : Machine} {CF : Config} {CPU : Cpu}.

Definition get_realm_params (realm_params_addr : Z) : M state (option realm_params) :=
  lift (find_granule realm_params_addr) ≫= λ og,
  match og with
  | None => mret None
  | Some g =>
      granule_unlocked_state g ≫= λ st,
      if negb (st =? GRANULE_STATE_NS) then mret None
      else
        ns_buffer_read SLOT_NS g 0 4096 ≫= λ '(ns_access_ok, bytes),
        mret (if ns_access_ok : bool then Some (realm_params_of_bytes bytes) else None)
  end.

Definition is_lpa2_requested (p : realm_params) : bool :=
  EXTRACT_F RMI_REALM_FLAGS_LPA2 (rp_flags (p_measured p)) =? RMI_FEATURE_TRUE.

Definition s2_inconsistent_sl (ipa_bits sl : Z) (lpa2 : bool) : bool :=
  let levels := u32 (S2TT_PAGE_LEVEL - sl) in
  let sl_min_ipa_bits := u32 (levels * S2TTE_STRIDE + GRANULE_SHIFT + 1) in
  let sl_max_ipa_bits :=
    if (sl =? S2TT_MIN_STARTING_LEVEL_LPA2) && lpa2
    then u32 (sl_min_ipa_bits + (S2TTE_STRIDE_LM1 - 1))
    else u32 (sl_min_ipa_bits + (S2TTE_STRIDE - 1)) in
  let sl_max_ipa_bits :=
    if (0 <? sl) || ((sl =? 0) && lpa2) then u32 (sl_max_ipa_bits + 4) else sl_max_ipa_bits in
  (ipa_bits <? sl_min_ipa_bits) || (sl_max_ipa_bits <? ipa_bits).

Definition validate_ipa_bits_and_sl (ipa_bits sl : Z) (lpa2 : bool) : result bool :=
  let max_ipa_bits := if lpa2 then S2TT_MAX_IPA_BITS_LPA2 else S2TT_MAX_IPA_BITS in
  let min_starting_level := if lpa2 then S2TT_MIN_STARTING_LEVEL_LPA2 else S2TT_MIN_STARTING_LEVEL in
  if (ipa_bits <? S2TT_MIN_IPA_BITS) || (max_ipa_bits <? ipa_bits) then Ok false
  else if (sl <? min_starting_level) || (S2TT_PAGE_LEVEL <? sl) then Ok false
  else
    (if sl =? 0 then arch_feat_get_pa_width ≫= λ w, Ok (w <? 44) else Ok false) ≫= λ invalid,
    if invalid : bool then Ok false
    else Ok (negb (s2_inconsistent_sl ipa_bits sl lpa2)).

Definition s2_num_root_rtts (ipa_bits sl : Z) : Z :=
  let levels := u32 (S2TT_PAGE_LEVEL - sl) in
  let sl_ipa_bits := u32 (levels * S2TTE_STRIDE + GRANULE_SHIFT + S2TTE_STRIDE) in
  if ipa_bits <=? sl_ipa_bits then 1
  else u32 (Z.shiftl 1 (ipa_bits - sl_ipa_bits)).

(** [validate_realm_params] up to the reservation of the VMID. *)
Definition check_realm_params (p : realm_params) : result bool :=
  get_feature_register_0 ≫= λ feat_reg0,
  let m := p_measured p in
  if is_lpa2_requested p && (EXTRACT_F RMI_FEATURE_REGISTER_0_LPA2 feat_reg0 =? RMI_FEATURE_FALSE)
  then Ok false
  else if (rp_s2sz m <? RMI_FEATURE_MIN_IPA_SIZE) ||
          (EXTRACT_F RMI_FEATURE_REGISTER_0_S2SZ feat_reg0 <? rp_s2sz m)
  then Ok false
  else if (rp_num_bps m =? 0) || (EXTRACT_F RMI_FEATURE_REGISTER_0_NUM_BPS feat_reg0 <? rp_num_bps m) ||
          (rp_num_wps m =? 0) || (EXTRACT_F RMI_FEATURE_REGISTER_0_NUM_WPS feat_reg0 <? rp_num_wps m)
  then Ok false
  else if (EXTRACT_F RMI_REALM_FLAGS_SVE (rp_flags m) =? RMI_FEATURE_TRUE) &&
          (EXTRACT_F RMI_FEATURE_REGISTER_0_SVE_EN feat_reg0 =? RMI_FEATURE_FALSE)
  then Ok false
  else if (EXTRACT_F RMI_REALM_FLAGS_SVE (rp_flags m) =? RMI_FEATURE_TRUE) &&
          (EXTRACT_F RMI_FEATURE_REGISTER_0_SVE_VL feat_reg0 <? rp_sve_vl m)
  then Ok false
  else if (EXTRACT_F RMI_REALM_FLAGS_PMU (rp_flags m) =? RMI_FEATURE_TRUE) &&
          (EXTRACT_F RMI_FEATURE_REGISTER_0_PMU_NUM_CTRS feat_reg0 <? rp_pmu_num_ctrs m)
  then Ok false
  else if (EXTRACT_F RMI_REALM_FLAGS_PMU (rp_flags m) =? RMI_FEATURE_TRUE) &&
          ((rp_pmu_num_ctrs m =? 0) && negb is_feat_hpmn0_present)
  then Ok false
  else
    validate_ipa_bits_and_sl (rp_s2sz m) (p_rtt_level_start p) (is_lpa2_requested p) ≫= λ ok,
    if negb ok then Ok false
    else if negb (s2_num_root_rtts (rp_s2sz m) (p_rtt_level_start p) =? p_rtt_num_start p) then Ok false
    else Ok ((rp_algorithm m =? RMI_HASH_SHA_256) || (rp_algorithm m =? RMI_HASH_SHA_512)).

Definition validate_realm_params (p : realm_params) : M state bool :=
  lift (check_realm_params p) ≫= λ ok,
  if ok : bool then vmid_reserve (p_vmid p) else mret false.

(** * Root tables *)

(** The inner loop of [init_s2_starting_level]: [n] entries of the mapped table from
    [rtte]; [true] when the whole address space is covered. *)
Fixpoint init_sl_entries (n : nat) (rtte : Z) (s2tt : Z) (r : rd) (map_size current_ipa : Z)
  : M state (bool * Z) :=
  match n with
  | O => mret (false, current_ipa)
  | S n' =>
      tte_write s2tt rtte (if addr_in_par r current_ipa then s2tte_create_unassigned_empty
                           else s2tte_create_unassigned_ns) ≫= λ _,
      let current_ipa := current_ipa .+ map_size in
      if current_ipa =? realm_ipa_size r then mret (true, current_ipa)
      else init_sl_entries n' (rtte + 1) s2tt r map_size current_ipa
  end.

Fixpoint init_sl_tables (n : nat) (g_rtt : Z) (r : rd) (per_table : nat) (map_size current_ipa : Z)
  : M state () :=
  match n with
  | O => massert false
  | S n' =>
      map_assert g_rtt SLOT_RTT ≫= λ s2tt,
      init_sl_entries per_table 0 s2tt r map_size current_ipa ≫= λ '(fin, current_ipa),
      buffer_unmap s2tt ≫= λ _,
      if fin : bool then mret ()
      else init_sl_tables n' (g_rtt + 1) r per_table map_size current_ipa
  end.

Definition init_s2_starting_level (r : rd) : M state () :=
  let sl := s2_starting_level (s2_ctx r) in
  let s2ttes_per_s2tt :=
    if sl =? S2TT_MIN_STARTING_LEVEL_LPA2 then S2TTES_PER_S2TT_LM1 else S2TTES_PER_S2TT in
  let levels := u32 (S2TT_PAGE_LEVEL - sl) in
  let sl_entry_map_size := 1 .<< (u32 (levels * S2TTE_STRIDE) + GRANULE_SHIFT) in
  init_sl_tables (Z.to_nat (num_root_rtts (s2_ctx r))) (g_rtt (s2_ctx r)) r
    (Z.to_nat s2ttes_per_s2tt) sl_entry_map_size 0.

Definition free_sl_rtts (g_rtt : Z) (num_rtts : Z) : M state () :=
  mfor (Z.of_nat <$> seq 0 (Z.to_nat num_rtts)) (λ i,
    granule_lock (g_rtt + i) GRANULE_STATE_RTT ≫= λ _,
    buffer_granule_memzero (g_rtt + i) SLOT_RTT ≫= λ _,
    granule_unlock_transition (g_rtt + i) GRANULE_STATE_DELEGATED).

(** * Locking the granules of a new realm *)

(** The loop over the root tables: whether all were locked, the final [i] and
    [g_rtt_base]. *)
Fixpoint lock_sl_rtts (n : nat) (i rtt_base_addr : Z) (g_rtt_base : option Z)
  : M state (bool * Z * option Z) :=
  match n with
  | O => mret (true, i, g_rtt_base)
  | S n' =>
      let rtt_addr := rtt_base_addr .+ (i .* GRANULE_SIZE) in
      find_lock_granule rtt_addr GRANULE_STATE_DELEGATED ≫= λ og,
      match og with
      | None => mret (false, i, g_rtt_base)
      | Some g_rtt => lock_sl_rtts n' (i + 1) rtt_base_addr (if i =? 0 then Some g_rtt else g_rtt_base)
      end
  end.

(** The label [out_err]: unlocks the tables from the last to the first, then the
    descriptor. *)
Fixpoint unlock_sl_rtts (i : nat) (g_rtt_base : option Z) : M state () :=
  match i with
  | O => mret ()
  | S i' => mderef g_rtt_base ≫= λ g, granule_unlock (g + Z.of_nat i') ≫= λ _, unlock_sl_rtts i' g_rtt_base
  end.

Definition rd_granules_err (i : Z) (g_rtt_base g_rd : option Z) : M state (option (Z * Z)) :=
  unlock_sl_rtts (Z.to_nat i) g_rtt_base ≫= λ _,
  match g_rd with Some g => granule_unlock g | None => mret () end ≫= λ _, mret None.

(** [Some (g_rd, g_rtt_base)] is [true] and the two output arguments. *)
Definition find_lock_rd_granules (rd_addr rtt_base_addr num_rtts : Z) : M state (option (Z * Z)) :=
  (if rd_addr <? rtt_base_addr
   then find_lock_granule rd_addr GRANULE_STATE_DELEGATED ≫= λ og, mret (og, bool_decide (og = None))
   else mret (None, false)) ≫= λ '(g_rd, failed),
  if failed : bool then rd_granules_err 0 None g_rd
  else
    lock_sl_rtts (Z.to_nat num_rtts) 0 rtt_base_addr None ≫= λ '(all, i, g_rtt_base),
    if negb all then rd_granules_err i g_rtt_base g_rd
    else
      match g_rd with
      | Some g_rd => mderef g_rtt_base ≫= λ b, mret (Some (g_rd, b))
      | None =>
          find_lock_granule rd_addr GRANULE_STATE_DELEGATED ≫= λ og,
          match og with
          | None => rd_granules_err i g_rtt_base None
          | Some g_rd => mderef g_rtt_base ≫= λ b, mret (Some (g_rd, b))
          end
      end.

(** * Commands *)

Definition smc_realm_activate (rd_addr : Z) : M state Z :=
  find_lock_granule rd_addr GRANULE_STATE_RD ≫= λ og,
  match og with
  | None => mret RMI_ERROR_INPUT
  | Some g_rd =>
      map_assert g_rd SLOT_RD ≫= λ rdp,
      read_rd rdp ≫= λ r,
      (if get_rd_state_locked r =? REALM_NEW
       then write_page rdp (PRd (set_rd_state REALM_ACTIVE r)) ≫= λ _, mret RMI_SUCCESS
       else mret RMI_ERROR_REALM) ≫= λ ret,
      buffer_unmap rdp ≫= λ _,
      granule_unlock g_rd ≫= λ _, mret ret
  end.

Context {C : Crypto}.

(** The members of the descriptor that REALM_CREATE writes before it initialises the root
    tables; the others keep the values of the granule's memory. *)
Definition init_rd (p : realm_params) (g_rtt : Z) (r : rd) : rd :=
  let m := p_measured p in
  let sve := negb (EXTRACT_F RMI_REALM_FLAGS_SVE (rp_flags m) =? 0) in
  {| rd_state := REALM_NEW; rec_count := 0; rim := rim r; rems := rems r;
     s2_ctx := {| ipa_bits := rp_s2sz m; s2_starting_level := p_rtt_level_start p;
                  num_root_rtts := p_rtt_num_start p; g_rtt := g_rtt; vmid := p_vmid p;
                  enable_lpa2 := is_lpa2_requested p |};
     num_rec_aux := MAX_REC_AUX_GRANULES;
     algorithm := if rp_algorithm m =? RMI_HASH_SHA_256 then HASH_SHA_256 else HASH_SHA_512;
     pmu_enabled := negb (EXTRACT_F RMI_REALM_FLAGS_PMU (rp_flags m) =? 0);
     pmu_num_ctrs := rp_pmu_num_ctrs m;
     simd_cfg := {| sve_en := sve; sve_vq := if sve then rp_sve_vl m else sve_vq (simd_cfg r);
                    sme_en := sme_en (simd_cfg r) |};
     rpv := p_rpv p; apt_pa := apt_pa r |}.

(** REALM_CREATE once the granules are locked. *)
Definition create_locked (p : realm_params) (g_rd g_rtt_base : Z) : M state Z :=
  map_assert g_rd SLOT_RD ≫= λ rdp,
  read_rd rdp ≫= λ r,
  lift (find_granule (p_rtt_base p)) ≫= λ og,
  mderef og ≫= λ g_rtt,
  let r := init_rd p g_rtt r in
  write_page rdp (PRd r) ≫= λ _,
  init_s2_starting_level r ≫= λ _,
  lift (measurement_realm_params_measure (rim r) (algorithm r) (p_measured p)) ≫= λ m,
  write_page rdp (PRd (set_rd_rim m r)) ≫= λ _,
  buffer_unmap rdp ≫= λ _,
  granule_unlock_transition g_rd GRANULE_STATE_RD ≫= λ _,
  mfor (Z.of_nat <$> seq 0 (Z.to_nat (p_rtt_num_start p)))
    (λ i, granule_unlock_transition (g_rtt_base + i) GRANULE_STATE_RTT) ≫= λ _,
  mret RMI_SUCCESS.

Definition smc_realm_create (rd_addr realm_params_addr : Z) : M state Z :=
  get_realm_params realm_params_addr ≫= λ op,
  match op with
  | None => mret RMI_ERROR_INPUT
  | Some p =>
      validate_realm_params p ≫= λ valid,
      if negb valid then mret RMI_ERROR_INPUT
      else if addr_is_contained (p_rtt_base p) (p_rtt_base p .+ (p_rtt_num_start p .* GRANULE_SIZE)) rd_addr
      then vmid_free (p_vmid p) ≫= λ _, mret RMI_ERROR_INPUT
      else
        find_lock_rd_granules rd_addr (p_rtt_base p) (p_rtt_num_start p) ≫= λ ogs,
        match ogs with
        | None => vmid_free (p_vmid p) ≫= λ _, mret RMI_ERROR_INPUT
        | Some (g_rd, g_rtt_base) =>
            create_locked p g_rd g_rtt_base
        end
  end.

Fixpoint root_refcount_loop (n : nat) (i g_rtt refcount : Z) : M state Z :=
  match n with
  | O => mret refcount
  | S n' =>
      granule_lock (g_rtt + i) GRANULE_STATE_RTT ≫= λ _,
      granule_refcount_read (g_rtt + i) ≫= λ rc,
      granule_unlock (g_rtt + i) ≫= λ _,
      root_refcount_loop n' (i + 1) g_rtt (refcount .+ rc)
  end.

Definition total_root_rtt_refcount (g_rtt num_rtts : Z) : M state Z :=
  root_refcount_loop (Z.to_nat num_rtts) 0 g_rtt 0.

Definition smc_realm_destroy (rd_addr : Z) : M state Z :=
  find_lock_unused_granule rd_addr GRANULE_STATE_RD ≫= λ '(res, og),
  if negb (res =? 0) then
    if res =? - EINVAL then mret RMI_ERROR_INPUT
    else massert (res =? - EBUSY) ≫= λ _, mret RMI_ERROR_REALM
  else
    mderef og ≫= λ g_rd,
    map_assert g_rd SLOT_RD ≫= λ rdp,
    read_rd rdp ≫= λ r,
    let g_rtt := g_rtt (s2_ctx r) in
    let num_rtts := num_root_rtts (s2_ctx r) in
    total_root_rtt_refcount g_rtt num_rtts ≫= λ refcount,
    if negb (refcount =? 0) then
      buffer_unmap rdp ≫= λ _, granule_unlock g_rd ≫= λ _, mret RMI_ERROR_REALM
    else
      vmid_free (vmid (s2_ctx r)) ≫= λ _,
      buffer_unmap rdp ≫= λ _,
      free_sl_rtts g_rtt num_rtts ≫= λ _,
      buffer_granule_memzero g_rd SLOT_RD ≫= λ _,
      granule_unlock_transition g_rd GRANULE_STATE_DELEGATED ≫= λ _,
      mret RMI_SUCCESS.
End params.
