(* ===== verification/RealmInit.v ===== *)
(** What REALM_CREATE validates and initialises: the accepted parameters describe root
    tables that cover the address space, and the root tables come out with the protected
    half of the space unassigned and empty and the other half open to the host. *)
From S2P Require Import Prelude Types Granule Platform GranuleFind S2tte S2tt Buffer Walk Exec Realm Measurement Rtt Feature RealmCmd.

(** * Parameters *)

(** The entries of a root table that are used at a starting level. *)
Definition per_table (sl : Z) : Z := if sl =? -1 then 16 else 512.

(** [num] root tables at level [sl] cover [2 ^ bits] bytes exactly: the last entry of the
    space is in the last table. *)
Record sl_fits (bits sl num : Z) (lpa2 : bool) : Prop := {
  sf_sl : (if lpa2 then -1 else 0) <= sl <= 3;
  sf_bits : 32 <= bits <= (if lpa2 then 52 else 48);
  sf_num : 1 <= num <= 16;
  sf_div : 2 ^ bits = 2 ^ bits / s2tte_map_size sl * s2tte_map_size sl;
  sf_two : 2 <= 2 ^ bits / s2tte_map_size sl;
  sf_cover : 2 ^ bits / s2tte_map_size sl <= num * per_table sl;
  sf_last : (num - 1) * per_table sl < 2 ^ bits / s2tte_map_size sl;
  sf_lm1 : sl = -1 → num = 1;
}.

Definition sl_fitsb (bits sl num : Z) (lpa2 : bool) : bool :=
  let n := 2 ^ bits / s2tte_map_size sl in
  ((if lpa2 then -1 else 0) <=? sl) && (sl <=? 3) && (32 <=? bits) && (bits <=? (if lpa2 then 52 else 48)) &&
  (1 <=? num) && (num <=? 16) && (2 ^ bits =? n * s2tte_map_size sl) && (2 <=? n) &&
  (n <=? num * per_table sl) && ((num - 1) * per_table sl <? n) && (negb (sl =? -1) || (num =? 1)).

Lemma sl_fitsb_ok bits sl num lpa2 : sl_fitsb bits sl num lpa2 = true → sl_fits bits sl num lpa2.
Proof.
  unfold sl_fitsb. cbv zeta. rewrite !andb_true_iff. intros H. destruct_and? H.
  repeat match goal with
  | h : (_ <=? _) = true |- _ => apply Z.leb_le in h
  | h : (_ <? _) = true |- _ => apply Z.ltb_lt in h
  | h : (_ =? _) = true |- _ => apply Z.eqb_eq in h
  end. split; lia.
Qed.

Definition zrange (a n : nat) (off : Z) : list Z := (λ k, Z.of_nat k + off) <$> seq a n.

Lemma zrange_in a n off x : Z.of_nat a + off <= x < Z.of_nat a + Z.of_nat n + off → x ∈ zrange a n off.
Proof.
  intros Hx. unfold zrange. apply list_elem_of_fmap. exists (Z.to_nat (x - off)). split; [lia|].
  apply elem_of_seq. lia.
Qed.

(** The architecture's consistency condition on the starting level is the arithmetic one;
    the finitely many configurations are enumerated. *)
Lemma sl_consistent_fits bits sl (lpa2 : bool) :
  (if lpa2 then -1 else 0) <= sl <= 3 → 32 <= bits <= (if lpa2 then 52 else 48) →
  s2_inconsistent_sl bits sl lpa2 = false → sl_fits bits sl (s2_num_root_rtts bits sl) lpa2.
Proof.
  intros Hsl Hb Hc. apply sl_fitsb_ok.
  assert (Hall : forallb (λ lpa2 : bool, forallb (λ bits, forallb (λ sl,
    negb (((if lpa2 then -1 else 0) <=? sl) && (bits <=? (if lpa2 then 52 else 48)) &&
      negb (s2_inconsistent_sl bits sl lpa2)) ||
    sl_fitsb bits sl (s2_num_root_rtts bits sl) lpa2) (zrange 0 5 (-1))) (zrange 32 21 0)) [true; false] = true)
    by (vm_compute; reflexivity).
  rewrite forallb_forall in Hall. specialize (Hall lpa2 ltac:(destruct lpa2; simpl; auto)).
  rewrite forallb_forall in Hall.
  specialize (Hall bits ltac:(apply list_elem_of_In, zrange_in; destruct lpa2; lia)).
  rewrite forallb_forall in Hall.
  specialize (Hall sl ltac:(apply list_elem_of_In, zrange_in; destruct lpa2; lia)). rewrite Hc in Hall.
  by rewrite (proj2 (Z.leb_le _ sl)), (proj2 (Z.leb_le bits _)) in Hall by lia.
Qed.

Section check.
Context {CF : Config} {CPU : Cpu} {CL : CpuLaws CPU}.

Lemma validate_ipa_total bits sl lpa2 :
  ∃ b, validate_ipa_bits_and_sl bits sl lpa2 = Ok b ∧
    (b = true → sl_fits bits sl (s2_num_root_rtts bits sl) lpa2).
Proof using CL.
  destruct pa_width_run as (w & Hw & _). unfold validate_ipa_bits_and_sl. rewrite Hw.
  unfold S2TT_MIN_IPA_BITS, S2TT_MAX_IPA_BITS_LPA2, S2TT_MAX_IPA_BITS, S2TT_PAGE_LEVEL,
    S2TT_MIN_STARTING_LEVEL_LPA2, S2TT_MIN_STARTING_LEVEL. cbv zeta. rewrite result_bind_ok.
  destruct ((bits <? 32) || _) eqn:Hb; [by exists false|]. destruct ((sl <? _) || _) eqn:Hs; [by exists false|].
  apply orb_false_iff in Hb as [Hb1%Z.ltb_ge Hb2%Z.ltb_ge]. apply orb_false_iff in Hs as [Hs1%Z.ltb_ge Hs2%Z.ltb_ge].
  destruct (if sl =? 0 then _ else _) as [[|]|] eqn:Hi; [|..|by destruct (sl =? 0)]; rewrite result_bind_ok; [by exists false|].
  eexists. split; [done|]. intros Hc%negb_true_iff. apply sl_consistent_fits; [lia|lia|done].
Qed.

(** The validation always answers, and what it accepts fits. *)
Lemma check_realm_params_total p :
  ∃ b, check_realm_params p = Ok b ∧
    (b = true → sl_fits (rp_s2sz (p_measured p)) (p_rtt_level_start p) (p_rtt_num_start p) (is_lpa2_requested p)).
Proof using CL.
  destruct (get_feature_register_0) as [f|] eqn:Hf; cycle 1.
  { destruct pa_width_run as (w & Hw & _). unfold get_feature_register_0 in Hf. rewrite Hw, result_bind_ok in Hf.
    pose proof cpu_pmu as Hp. cbv zeta in Hf. rewrite rassert_bind in Hf; [done|].
    destruct ENABLE_OPENCCA; [done|]. apply Z.leb_le. by apply Hp. }
  unfold check_realm_params. rewrite Hf, result_bind_ok. cbv zeta.
  repeat match goal with |- context [if ?b then Ok false else _] => destruct b; [by exists false|] end.
  destruct (validate_ipa_total (rp_s2sz (p_measured p)) (p_rtt_level_start p) (is_lpa2_requested p)) as (b & -> & Hb).
  rewrite result_bind_ok. destruct b; cbn [negb]; [|by exists false].
  destruct (Z.eqb_spec (s2_num_root_rtts (rp_s2sz (p_measured p)) (p_rtt_level_start p)) (p_rtt_num_start p)) as [<-|];
    cbn [negb]; [|by exists false].
  eexists. split; [done|]. intros _. by apply Hb.
Qed.
End check.

(** * Root tables *)

(** Entry [k] of the concatenated root tables: its range is in the protected half, in the
    other half, or beyond the space, where the zeros of the wiped granule stay. *)
Definition root_entry (r : rd) (map_size k : Z) : Z :=
  if addr_in_par r (k * map_size) then s2tte_create_unassigned_empty
  else if k * map_size <? realm_ipa_size r then s2tte_create_unassigned_ns else 0.

Definition root_entries (r : rd) (map_size k : Z) (n : nat) : list Z :=
  (λ j, root_entry r map_size (k + Z.of_nat j)) <$> seq 0 n.

Definition root_table (r : rd) (map_size k : Z) : list Z := root_entries r map_size k 512.

Lemma root_entries_S r msz k n :
  root_entries r msz k (S n) = root_entry r msz k :: root_entries r msz (k + 1) n.
Proof.
  unfold root_entries. cbn [seq fmap list_fmap]. rewrite Z.add_0_r. f_equal.
  rewrite <- fmap_S_seq, <- list_fmap_compose. apply list_fmap_ext. intros i x _. unfold compose. f_equal. lia.
Qed.

Lemma root_entries_add r msz k n m :
  root_entries r msz k (n + m) = root_entries r msz k n ++ root_entries r msz (k + Z.of_nat n) m.
Proof.
  revert k. induction n as [|n IH]; intros k; [by rewrite Z.add_0_r|].
  cbn [Nat.add]. rewrite !root_entries_S, IH. cbn [app]. do 3 f_equal. lia.
Qed.

(** The mapped root table holds [t]. *)
Definition table_at (s : state) (g : Z) (t : list Z) : Prop :=
  ∃ p, mem s !! g = Some p ∧ page_table p = Some t.

Section init.
Context (r : rd) (map_size N : Z).
Hypothesis Hms : 0 < map_size.
Hypothesis HN : realm_ipa_size r = N * map_size.
Hypothesis HN52 : N * map_size <= 2 ^ 52.

Lemma par_le : realm_par_size r <= realm_ipa_size r.
Proof using Hms HN HN52.
  unfold realm_par_size. rewrite Z.shiftr_div_pow2 by lia. change (2 ^ 1) with 2.
  assert (0 <= realm_ipa_size r) by apply u64_range. apply Z.div_le_upper_bound; lia.
Qed.

Lemma root_entry_beyond k : N <= k → root_entry r map_size k = 0.
Proof using Hms HN HN52.
  intros Hk. unfold root_entry, addr_in_par. pose proof par_le.
  destruct (Z.ltb_spec (k * map_size) (realm_par_size r)); [nia|].
  destruct (Z.ltb_spec (k * map_size) (realm_ipa_size r)); [nia|done].
Qed.

Lemma root_entries_beyond k n : N <= k → root_entries r map_size k n = replicate n 0.
Proof using Hms HN HN52.
  revert k. induction n as [|n IH]; intros k Hk; [done|].
  rewrite root_entries_S, root_entry_beyond, IH by lia. done.
Qed.

Lemma root_entry_in k : k < N →
  root_entry r map_size k
  = if addr_in_par r (k * map_size) then s2tte_create_unassigned_empty else s2tte_create_unassigned_ns.
Proof using Hms HN HN52.
  intros Hk. unfold root_entry. destruct (addr_in_par _ _); [done|].
  destruct (Z.ltb_spec (k * map_size) (realm_ipa_size r)); [done|nia].
Qed.

Lemma init_sl_entries_S n rtte slot cur :
  init_sl_entries (S n) rtte slot r map_size cur
  = (tte_write slot rtte (if addr_in_par r cur then s2tte_create_unassigned_empty
                          else s2tte_create_unassigned_ns) ≫= λ _,
     if cur .+ map_size =? realm_ipa_size r then mret (true, cur .+ map_size)
     else init_sl_entries n (rtte + 1) slot r map_size (cur .+ map_size)).
Proof using. done. Qed.

Lemma init_sl_entries_run n : ∀ s slot g k pre m,
  slots s !! slot = Some g → table_at s g (pre ++ replicate m 0) → (S n <= m)%nat → 0 <= k < N →
  init_sl_entries (S n) (Z.of_nat (length pre)) slot r map_size (k * map_size) s
  = Ok ((N <=? k + Z.of_nat (S n), Z.min N (k + Z.of_nat (S n)) * map_size),
        set_mem (<[g := PTable (pre ++ root_entries r map_size k (S n) ++ replicate (m - S n) 0)]> (mem s)) s).
Proof using Hms HN HN52.
  induction n as [|n IH]; intros s slot g k pre m Hsl (p & Hp & Ht) Hm Hk.
  all: destruct m as [|m]; [lia|]; rewrite init_sl_entries_S, <- (root_entry_in k) by lia.
  all: erewrite bind_run by
    (eapply tte_write_run; [done|done|done|rewrite length_app, length_replicate; lia]).
  all: rewrite Nat2Z.id, insert_app_r_alt, Nat.sub_diag by lia; cbn [replicate insert list_insert].
  all: rewrite u64_small by (unfold is_u64; nia).
  all: replace (k * map_size + map_size) with ((k + 1) * map_size) by lia; rewrite HN.
  all: destruct (Z.eqb_spec ((k + 1) * map_size) (N * map_size)) as [He|He].
  - assert (N = k + 1) as HNk by nia. rewrite (proj2 (Z.leb_le _ _)), Z.min_l by lia. rewrite HNk.
    rewrite root_entries_S. cbn [root_entries seq fmap list_fmap app Nat.sub]. by rewrite Nat.sub_0_r.
  - assert (N ≠ k + 1) by (intros ->; lia). rewrite (proj2 (Z.leb_gt _ _)), Z.min_r by lia.
    rewrite root_entries_S. cbn [root_entries seq fmap list_fmap app Nat.sub]. by rewrite Nat.sub_0_r.
  - assert (N = k + 1) as HNk by nia. rewrite (proj2 (Z.leb_le _ _)), Z.min_l by lia.
    rewrite root_entries_S, root_entries_beyond by lia. cbn [app]. rewrite <- replicate_add, HNk.
    by replace (S n + (S m - S (S n)))%nat with m by lia.
  - assert (N ≠ k + 1) by (intros ->; lia).
    replace (Z.of_nat (length pre) + 1) with (Z.of_nat (length (pre ++ [root_entry r map_size k])))
      by (rewrite length_app; simpl; lia).
    erewrite (IH _ _ _ _ _ m); [|done| |lia|lia].
    + unfold set_mem; cbn [granules mem slots vttbr_el2 tlbi tags csm_ids vmids].
      rewrite insert_insert_eq, (root_entries_S r map_size k), <- app_assoc. cbn [app].
      replace (k + 1 + Z.of_nat (S n)) with (k + Z.of_nat (S (S n))) by lia.
      by replace (S m - S (S n))%nat with (m - S n)%nat by lia.
    + eexists. split; [apply lookup_insert_eq|]. cbn [page_table]. by rewrite <- app_assoc.
Qed.

(** ** All tables *)

Fixpoint fill_roots (n : nat) (g k : Z) (m : gmap Z page) : gmap Z page :=
  match n with
  | O => m
  | S n' => fill_roots n' (g + 1) (k + 512) (<[g := PTable (root_table r map_size k)]> m)
  end.

Lemma fill_roots_lookup n : ∀ g k m h,
  fill_roots n g k m !! h
  = if (g <=? h) && (h <? g + Z.of_nat n) then Some (PTable (root_table r map_size (k + 512 * (h - g)))) else m !! h.
Proof using.
  induction n as [|n IH]; intros g k m h; cbn [fill_roots].
  { by destruct (Z.leb_spec g h), (Z.ltb_spec h (g + Z.of_nat 0)); [lia|..]. }
  rewrite IH. destruct (Z.leb_spec (g + 1) h), (Z.ltb_spec h (g + 1 + Z.of_nat n)), (Z.leb_spec g h),
    (Z.ltb_spec h (g + Z.of_nat (S n))); cbn [andb]; try lia.
  - do 3 f_equal. lia.
  - by rewrite lookup_insert_ne by lia.
  - assert (h = g) as -> by lia. rewrite lookup_insert_eq. do 3 f_equal. lia.
  - by rewrite lookup_insert_ne by lia.
Qed.

Context {P : Platform} {H : Machine} {L : PlatformLaws P} {HL : MachineLaws P H} (pt : Z).
Hypothesis Hpt : pt = 512 ∨ (pt = 16 ∧ N <= 16).

Lemma root_table_pt k :
  0 <= k → pt = 512 ∨ N <= k + pt →
  root_entries r map_size k (Z.to_nat pt) ++ replicate (512 - Z.to_nat pt) 0 = root_table r map_size k.
Proof using Hms HN HN52 Hpt.
  intros Hk Hc. unfold root_table.
  replace 512%nat with (Z.to_nat pt + (512 - Z.to_nat pt))%nat at 2 by lia.
  rewrite root_entries_add. f_equal. destruct (decide (pt = 512)) as [->|Hne]; [done|].
  rewrite root_entries_beyond by lia. done.
Qed.

Lemma init_sl_tables_S n g cur :
  init_sl_tables (S n) g r (Z.to_nat pt) map_size cur
  = (map_assert g SLOT_RTT ≫= λ s2tt,
     init_sl_entries (Z.to_nat pt) 0 s2tt r map_size cur ≫= λ '(fin, cur),
     buffer_unmap s2tt ≫= λ _,
     if fin : bool then mret () else init_sl_tables n (g + 1) r (Z.to_nat pt) map_size cur).
Proof using. done. Qed.

Lemma init_sl_tables_run n : ∀ s g k,
  slots s !! SLOT_RTT = None →
  (∀ j, 0 <= j < Z.of_nat (S n) → has_addr (g + j) ∧ table_at s (g + j) (replicate 512 0)) →
  0 <= k → k + Z.of_nat n * pt < N <= k + Z.of_nat (S n) * pt →
  init_sl_tables (S n) g r (Z.to_nat pt) map_size (k * map_size) s
  = Ok ((), set_mem (fill_roots (S n) g k (mem s)) s).
Proof using Hms HN HN52 Hpt L HL.
  induction n as [|n IH]; intros s g k Hs Htab Hk HNk.
  all: destruct (Htab 0 ltac:(lia)) as [Ha (p & Hp & Ht)]; rewrite Z.add_0_r in Ha, Hp.
  all: assert (Hptn : Z.to_nat pt = S (Z.to_nat pt - 1)) by lia.
  all: rewrite init_sl_tables_S; run_step (map_assert_run s g SLOT_RTT Ha eq_refl Hs).
  all: rewrite Hptn; erewrite bind_run by
    (eapply (init_sl_entries_run _ _ SLOT_RTT g k [] 512);
      [apply lookup_insert_eq|by exists p|lia|nia]).
  all: rewrite <- Hptn; cbn [app mem set_slots set_mem slots];
    erewrite bind_run by (eapply buffer_unmap_run; apply lookup_insert_eq).
  all: cbn [slots set_slots set_mem mem]; rewrite delete_insert_id by done.
  - rewrite (proj2 (Z.leb_le _ _)) by lia. rewrite root_table_pt by lia. cbn [fill_roots].
    unfold mret, M_ret, set_mem, set_slots; simpl. done.
  - assert (pt = 512) as Hpt5 by nia.
    rewrite (proj2 (Z.leb_gt _ _)), Z.min_r by lia. rewrite root_table_pt by lia.
    replace (k + Z.of_nat (Z.to_nat pt)) with (k + 512) by lia.
    rewrite IH; [by unfold set_mem, set_slots; simpl|done| |lia|lia].
    intros j Hj. destruct (Htab (j + 1) ltac:(lia)) as [Hja (q & Hq & Hqt)].
    replace (g + 1 + j) with (g + (j + 1)) by lia. split; [done|]. exists q. split; [|done].
    cbn [mem set_mem set_slots]. by rewrite lookup_insert_ne by lia.
Qed.
End init.

(** * The tree of a new realm *)

Definition sl_of (r : rd) : Z := s2_starting_level (s2_ctx r).

(** The descriptor's stage 2 configuration passed the validation. *)
Definition ctx_fits (s2_ctx : s2tt_context) : Prop :=
  sl_fits (ipa_bits s2_ctx) (s2_starting_level s2_ctx) (num_root_rtts s2_ctx) (enable_lpa2 s2_ctx).

(** The memory with the root tables of [r] initialised. *)
Definition roots_mem (r : rd) (m : gmap Z page) : gmap Z page :=
  fill_roots r (s2tte_map_size (sl_of r)) (Z.to_nat (num_root_rtts (s2_ctx r))) (g_rtt (s2_ctx r)) 0 m.

Lemma map_size_sl sl : -1 <= sl <= 3 →
  1 .<< (u32 (u32 (S2TT_PAGE_LEVEL - sl) * S2TTE_STRIDE) + GRANULE_SHIFT) = s2tte_map_size sl.
Proof.
  intros Hsl. assert (sl = -1 ∨ sl = 0 ∨ sl = 1 ∨ sl = 2 ∨ sl = 3) as [->|[->|[->|[->| ->]]]] by lia; reflexivity.
Qed.

Lemma ctx_fits_size r : ctx_fits (s2_ctx r) →
  realm_ipa_size r = 2 ^ ipa_bits (s2_ctx r) / s2tte_map_size (sl_of r) * s2tte_map_size (sl_of r) ∧
  0 < s2tte_map_size (sl_of r) ∧ -1 <= sl_of r <= 3 ∧ realm_ipa_size r <= 2 ^ 52.
Proof.
  intros Hf. pose proof (sf_sl _ _ _ _ Hf) as Hsl. pose proof (sf_bits _ _ _ _ Hf) as Hb. fold (sl_of r) in *.
  assert (-1 <= sl_of r <= 3) by (destruct (enable_lpa2 _); lia).
  assert (32 <= ipa_bits (s2_ctx r) <= 52) by (destruct (enable_lpa2 _); lia).
  rewrite ipa_size_pow2 by lia. split; [apply (sf_div _ _ _ _ Hf)|]. split; [by apply map_size_pos|].
  split; [done|]. apply Z.pow_le_mono_r; lia.
Qed.

Section tree.
Context {P : Platform} {H : Machine} {CF : Config} {L : PlatformLaws P} {HL : MachineLaws P H}.

Lemma init_s2_starting_level_run r s :
  ctx_fits (s2_ctx r) → slots s !! SLOT_RTT = None →
  (∀ j, 0 <= j < num_root_rtts (s2_ctx r) →
     has_addr (g_rtt (s2_ctx r) + j) ∧ table_at s (g_rtt (s2_ctx r) + j) (replicate 512 0)) →
  init_s2_starting_level r s = Ok ((), set_mem (roots_mem r (mem s)) s).
Proof using L HL.
  intros Hf Hs Htab. destruct (ctx_fits_size r Hf) as (Hsz & Hms & Hsl & H52).
  unfold init_s2_starting_level, roots_mem. cbv zeta. rewrite map_size_sl by done. fold (sl_of r).
  pose proof (sf_num _ _ _ _ Hf) as Hn. pose proof (sf_cover _ _ _ _ Hf) as Hc. pose proof (sf_last _ _ _ _ Hf) as Hl.
  fold (sl_of r) in Hc, Hl.
  assert (Hpt : (if sl_of r =? S2TT_MIN_STARTING_LEVEL_LPA2 then S2TTES_PER_S2TT_LM1 else S2TTES_PER_S2TT)
                = per_table (sl_of r)) by reflexivity.
  rewrite Hpt. replace (Z.to_nat (num_root_rtts (s2_ctx r))) with (S (Z.to_nat (num_root_rtts (s2_ctx r)) - 1)) by lia.
  rewrite <- (Z.mul_0_l (s2tte_map_size (sl_of r))).
  eapply (init_sl_tables_run r _ (2 ^ ipa_bits (s2_ctx r) / s2tte_map_size (sl_of r))); try done; try lia.
  - destruct (decide (sl_of r = -1)) as [He|Hne]; cycle 1.
    { left. unfold per_table. by destruct (Z.eqb_spec (sl_of r) (-1)). }
    assert (per_table (sl_of r) = 16) as Hp by (by rewrite He).
    right. split; [done|]. pose proof (sf_lm1 _ _ _ _ Hf He). rewrite Hp in Hc. lia.
  - intros j Hj. apply Htab. lia.
  - rewrite Z.mul_0_l. replace (Z.of_nat (Z.to_nat (num_root_rtts (s2_ctx r)) - 1)) with (num_root_rtts (s2_ctx r) - 1) by lia.
    replace (Z.of_nat (S (Z.to_nat (num_root_rtts (s2_ctx r)) - 1))) with (num_root_rtts (s2_ctx r)) by lia. lia.
Qed.

(** Every entry of a root table is unassigned. *)
Lemma root_entry_cases r k :
  root_entry r (s2tte_map_size (sl_of r)) k = s2tte_create_unassigned_empty ∨
  root_entry r (s2tte_map_size (sl_of r)) k = s2tte_create_unassigned_ns.
Proof using.
  clear L HL. unfold root_entry. destruct (addr_in_par _ _); [by left|]. destruct (_ <? _); [by right|by left].
Qed.

Lemma unassigned_made s2_ctx (e i : Z) :
  e = s2tte_create_unassigned_empty ∨ e = s2tte_create_unassigned_ns → min_starting_level s2_ctx <= i <= 3 →
  entry_is_table e = false ∧ counted i e = false ∧ ∃ ty, is_made s2_ctx ty 0 i e.
Proof using.
  clear L HL. intros He Hi.
  assert (-1 <= i).
  { unfold min_starting_level, S2TT_MIN_STARTING_LEVEL_LPA2, S2TT_MIN_STARTING_LEVEL in Hi. destruct (enable_lpa2 _); lia. }
  assert (i = -1 ∨ i = 0 ∨ i = 1 ∨ i = 2 ∨ i = 3) as Hc by lia.
  split; [by destruct He as [-> | ->]|].
  split; [by destruct He as [-> | ->]; destruct Hc as [->|[->|[->|[->| ->]]]]|].
  destruct He as [-> | ->]; [exists UnassignedEmpty|exists UnassignedNs]; (split; [exact Hi|by exists 0]).
Qed.

(** The level and first address of every root table. *)
Fixpoint roots_from (n : nat) (s2_ctx : s2tt_context) : gmap Z (Z * Z) :=
  match n with
  | O => ∅
  | S k => <[g_rtt s2_ctx + Z.of_nat k :=
               (s2_starting_level s2_ctx, Z.of_nat k * (512 * s2tte_map_size (s2_starting_level s2_ctx)))]>
           (roots_from k s2_ctx)
  end.
Definition root_tables (s2_ctx : s2tt_context) : gmap Z (Z * Z) :=
  roots_from (Z.to_nat (num_root_rtts s2_ctx)) s2_ctx.

Lemma roots_from_lookup n s2_ctx h :
  roots_from n s2_ctx !! h
  = if (g_rtt s2_ctx <=? h) && (h <? g_rtt s2_ctx + Z.of_nat n)
    then Some (s2_starting_level s2_ctx, (h - g_rtt s2_ctx) * (512 * s2tte_map_size (s2_starting_level s2_ctx)))
    else None.
Proof using.
  clear L HL. induction n as [|n IH]; cbn [roots_from].
  { rewrite lookup_empty. by destruct (Z.leb_spec (g_rtt s2_ctx) h), (Z.ltb_spec h (g_rtt s2_ctx + Z.of_nat 0)); [lia|..]. }
  destruct (decide (h = g_rtt s2_ctx + Z.of_nat n)) as [->|Hne].
  - rewrite lookup_insert_eq, (proj2 (Z.leb_le _ _)), (proj2 (Z.ltb_lt _ _)) by lia. cbn [andb].
    do 2 f_equal. lia.
  - rewrite lookup_insert_ne, IH by done. replace (h <? g_rtt s2_ctx + Z.of_nat n)
      with (h <? g_rtt s2_ctx + Z.of_nat (S n)); [done|].
    destruct (Z.ltb_spec h (g_rtt s2_ctx + Z.of_nat (S n))), (Z.ltb_spec h (g_rtt s2_ctx + Z.of_nat n)); lia.
Qed.

Lemma root_tables_Some s2_ctx h i b :
  root_tables s2_ctx !! h = Some (i, b) ↔
  ∃ k, 0 <= k < num_root_rtts s2_ctx ∧ h = g_rtt s2_ctx + k ∧ i = s2_starting_level s2_ctx ∧
       b = k * (512 * s2tte_map_size (s2_starting_level s2_ctx)).
Proof using.
  clear L HL. unfold root_tables. rewrite roots_from_lookup. split.
  - destruct (Z.leb_spec (g_rtt s2_ctx) h), (Z.ltb_spec h (g_rtt s2_ctx + Z.of_nat (Z.to_nat (num_root_rtts s2_ctx))));
      cbn [andb]; try done. intros [= <- <-]. exists (h - g_rtt s2_ctx). split_and!; lia || done.
  - intros (k & Hk & -> & -> & ->). rewrite (proj2 (Z.leb_le _ _)), (proj2 (Z.ltb_lt _ _)) by lia. cbn [andb].
    do 2 f_equal. f_equal. lia.
Qed.

Lemma root_table_entry r k j e :
  root_table r (s2tte_map_size (sl_of r)) k !! j = Some e →
  e = s2tte_create_unassigned_empty ∨ e = s2tte_create_unassigned_ns.
Proof using.
  clear L HL. unfold root_table, root_entries. rewrite list_lookup_fmap_Some.
  intros (x & -> & _). apply root_entry_cases.
Qed.

(** Freshly initialised root tables are a tree with the invariant. *)
Lemma new_realm_inv s r :
  ctx_fits (s2_ctx r) → 0 <= vmid (s2_ctx r) < 2 ^ 16 →
  (∀ k, 0 <= k < num_root_rtts (s2_ctx r) →
     has_addr (g_rtt (s2_ctx r) + k) ∧
     (∃ tag, granules s !! (g_rtt (s2_ctx r) + k) = Some (Gr false GRANULE_STATE_RTT 0 tag)) ∧
     table_of s (g_rtt (s2_ctx r) + k) = Some (root_table r (s2tte_map_size (sl_of r)) (512 * k))) →
  rtt_inv s (s2_ctx r) (root_tables (s2_ctx r)).
Proof using L HL.
  intros Hf Hv Htab. destruct (ctx_fits_size r Hf) as (Hsz & Hms & Hsl & H52).
  pose proof (sf_num _ _ _ _ Hf) as Hn. pose proof (sf_sl _ _ _ _ Hf) as Hsl'. pose proof (sf_bits _ _ _ _ Hf) as Hb.
  fold (sl_of r) in *.
  assert (Hmin : min_starting_level (s2_ctx r) <= sl_of r <= 3).
  { unfold min_starting_level, S2TT_MIN_STARTING_LEVEL_LPA2, S2TT_MIN_STARTING_LEVEL. destruct (enable_lpa2 _); lia. }
  assert (Hent : ∀ g i b t idx e, root_tables (s2_ctx r) !! g = Some (i, b) → table_of s g = Some t → t !! idx = Some e →
    entry_is_table e = false ∧ counted i e = false ∧ ∃ ty, is_made (s2_ctx r) ty 0 i e).
  { intros g i b t idx e (k & Hk & -> & -> & ->)%root_tables_Some Ht He.
    destruct (Htab k Hk) as (_ & _ & Ht'). rewrite Ht in Ht'. apply (inj Some) in Ht' as ->.
    apply unassigned_made; [by eapply root_table_entry|done]. }
  split.
  - split.
    + done.
    + unfold s2tte_oa_bits, S2TTE_OA_BITS_LPA2, S2TTE_OA_BITS. destruct (enable_lpa2 _); lia.
    + pose proof (sf_cover _ _ _ _ Hf) as Hc. pose proof (sf_div _ _ _ _ Hf) as Hd. fold (sl_of r) in *.
      assert (per_table (sl_of r) <= 512) by (unfold per_table; destruct (_ =? _); lia). nia.
    + lia.
    + intros k Hk. apply root_tables_Some. by exists k.
    + intros g i b (k & Hk & -> & -> & ->)%root_tables_Some. split; [fold (sl_of r); lia|].
      destruct (Htab k Hk) as (Ha & (tag & Hg) & Ht). split; [done|]. split; [by exists 0, tag|].
      eexists. split; [exact Ht|]. unfold root_table, root_entries. by rewrite length_fmap, length_seq.
    + intros g i b t idx e HT _ Ht He Htbl. destruct (Hent _ _ _ _ _ _ HT Ht He) as (Hf' & _). congruence.
  - done.
  - intros g i b t idx e HT Ht He. destruct (Hent _ _ _ _ _ _ HT Ht He) as (_ & _ & ty & Hty). by exists ty, 0.
  - intros g i b rc tag t HT Ht Hg Hrc. pose proof HT as (k & Hk & -> & -> & ->)%root_tables_Some.
    destruct (Htab k Hk) as (_ & (tag' & Hg') & _). rewrite Hg' in Hg. apply (inj Some) in Hg.
    apply Gr_inj in Hg as (_ & _ & <- & _); [|done|by apply gok_rtt; lia].
    unfold count. destruct (List.filter (counted (sl_of r)) t) as [|e l] eqn:Hl; [by unfold sl_of in Hl; rewrite Hl|].
    assert (e ∈ List.filter (counted (sl_of r)) t) as He by (rewrite Hl; by left).
    apply elem_of_filter_list in He as [[idx He]%list_elem_of_lookup Hc].
    destruct (Hent _ _ _ _ _ _ HT Ht He) as (_ & Hc' & _). unfold sl_of in Hc. congruence.
  - intros g i b (k & Hk & -> & -> & ->)%root_tables_Some. fold (sl_of r). split; [nia|].
    apply Z.mod_mul. lia.
  - intros g h [i b] (k & Hk & -> & -> & ->)%root_tables_Some (k' & Hk' & -> & _ & Heq)%root_tables_Some.
    fold (sl_of r) in Heq. assert (k = k') by nia. lia.
  - intros h j c (k & Hk & -> & -> & ->)%root_tables_Some Hlt. fold (sl_of r) in Hlt. lia.
  - intros h c (k & Hk & -> & _)%root_tables_Some. by exists k.
Qed.
End tree.
