(* ===== verification/RealmCreate.v ===== *)
(** REALM_CREATE: the granules of a new realm are locked all together or not at all, and
    the command either refuses and changes nothing or makes a realm whose tables satisfy the
    invariant of the translation table commands. *)
From S2P Require Import Prelude Types Granule Platform GranuleFind S2tte S2tt Buffer Delegate Walk Exec Realm Measurement Rtt Feature RealmCmd RealmInit.

(** * Sets of locked granules *)

Lemma lock_one_frame g s : lock_one g s = set_granules (granules (lock_one g s)) s.
Proof. unfold lock_one. destruct (granules s !! g); [done|by destruct s]. Qed.

Lemma lock_all_frame gl s : lock_all gl s = set_granules (granules (lock_all gl s)) s.
Proof.
  revert s. induction gl as [|g gl IH]; intros s; cbn [lock_all foldl]; [by destruct s|].
  fold (lock_all gl (lock_one g s)). rewrite IH at 1. rewrite (lock_one_frame g s) at 2. done.
Qed.

Lemma lock_all_in gl s g st rc tag :
  g ∈ gl → NoDup gl → granules s !! g = Some (Gr false st rc tag) → gok st rc →
  granules (lock_all gl s) !! g = Some (Gr true st rc tag).
Proof.
  intros Hin Hn Hg Hok. revert s Hg. induction gl as [|h gl IH]; intros s Hg; [by apply not_elem_of_nil in Hin|].
  apply NoDup_cons in Hn as [Hh Hn]. cbn [lock_all foldl]. fold (lock_all gl (lock_one h s)).
  destruct (decide (g = h)) as [->|Hne].
  - rewrite lock_all_ne, (lock_one_Gr _ _ _ _ _ Hg Hok) by done. apply put_granule_lookup.
  - apply IH; [by apply elem_of_cons in Hin as [?|?]|done|]. by rewrite lock_one_ne.
Qed.

Lemma lock_all_cons_snoc g gl s : g ∉ gl → lock_all (gl ++ [g]) s = lock_all (g :: gl) s.
Proof.
  rewrite lock_all_snoc. revert s. induction gl as [|h gl IH]; intros s Hg; [done|].
  apply not_elem_of_cons in Hg as [Hne Hg]. cbn [lock_all foldl]. fold (lock_all gl (lock_one h s)).
  rewrite IH by done. cbn [lock_all foldl]. by rewrite lock_one_comm.
Qed.

(** The granules [b], [b + 1], ... *)
Definition granules_from (b : Z) (n : nat) : list Z := (λ k, b + Z.of_nat k) <$> seq 0 n.

Lemma granules_from_snoc b n : granules_from b (S n) = granules_from b n ++ [b + Z.of_nat n].
Proof. unfold granules_from. by rewrite seq_S, fmap_app. Qed.

Lemma elem_of_granules_from b n h : h ∈ granules_from b n ↔ b <= h < b + Z.of_nat n.
Proof.
  unfold granules_from. rewrite list_elem_of_fmap. split.
  - intros (k & -> & Hk%elem_of_seq). lia.
  - intros Hh. exists (Z.to_nat (h - b)). rewrite elem_of_seq. lia.
Qed.

Lemma NoDup_granules_from b n : NoDup (granules_from b n).
Proof. apply NoDup_fmap_2; [intros x y ?; lia|apply NoDup_seq]. Qed.

Section lock.
Context {P : Platform} {L : PlatformLaws P}.

(** Locking one more granule while [gl] are held. *)
Lemma find_lock_fresh s gl a st :
  quiescent s → is_u64 a → (∀ g, find_granule a = Ok (Some g) → g ∉ gl) →
  find_lock_granule a st (lock_all gl s)
  = Ok (lockable s a st,
        match lockable s a st with Some g => lock_all (gl ++ [g]) s | None => lock_all gl s end).
Proof using L.
  intros Hq Ha Hf.
  assert (Hl : lockable (lock_all gl s) a st = lockable s a st).
  { destruct (find_granule_total a Ha) as [[g|] Hg].
    - eapply lockable_lock_all; [done|]. by apply Hf.
    - unfold lockable. by rewrite Hg. }
  rewrite find_lock_granule_spec, Hl; [|done|].
  - destruct (lockable s a st); [|done]. by rewrite lock_all_snoc.
  - intros g Hg. rewrite lock_all_ne by (by apply Hf). apply Hq. by apply find_granule_Some in Hg as (_ & ? & _).
Qed.

Lemma unlock_last s gl g :
  quiescent s → 0 <= g < RMM_MAX_GRANULES → g ∉ gl → granule_unlock g (lock_all (gl ++ [g]) s) = Ok ((), lock_all gl s).
Proof using.
  clear L. intros Hq Hg Hn. rewrite lock_all_snoc. apply unlock_locked. rewrite lock_all_ne by done. by apply Hq.
Qed.

(** A granule can be locked at an address: where, and in which state it is. *)
Lemma lockable_Some s a st g :
  quiescent s → is_u64 a → lockable s a st = Some g →
  find_granule a = Ok (Some g) ∧ 0 <= g < RMM_MAX_GRANULES ∧ has_addr g ∧ GRANULE_ALIGNED a = true ∧ a < 2 ^ 52 ∧
  ∃ rc tag, granules s !! g = Some (Gr false st rc tag) ∧ gok st rc ∧ unlocked_invariant st rc = true.
Proof using L.
  intros Hq Ha Hl. destruct (lockable_quiet _ _ _ _ Ha Hq Hl) as (rc & tag & Hgr & Hok & Hi & Hadr & Hr).
  pose proof (lockable_find _ _ _ _ Hl) as Hf. destruct (find_granule_Some _ _ Ha Hf) as (Hal & _ & Hga).
  destruct (plat_idx_addr g a ltac:(lia) Hga) as (_ & _ & H52 & _). split_and!; try done; try lia. by exists rc, tag.
Qed.

(** Two locked granules at adjacent addresses are neighbours in the array. *)
Lemma lockable_next s a st g h :
  quiescent s → 0 <= a → is_u64 (a + 4096) → lockable s a st = Some g → lockable s (a + 4096) st = Some h → h = g + 1.
Proof using L.
  intros Hq Ha Hu Hg Hh. assert (is_u64 a) by (unfold is_u64 in *; lia).
  destruct (lockable_Some _ _ _ _ Hq ltac:(done) Hg) as (_ & Hgr & [_ (a' & Ha')] & Hal & _).
  destruct (lockable_Some _ _ _ _ Hq Hu Hh) as (Hfh & Hhr & _ & Hal' & _).
  destruct (find_granule_Some _ _ Hu Hfh) as (_ & _ & Hah).
  destruct (find_granule_Some _ _ ltac:(done) (lockable_find _ _ _ _ Hg)) as (_ & _ & Hag).
  destruct (plat_idx_addr g a ltac:(lia) Hag) as (_ & _ & _ & _ & Hig).
  destruct (plat_idx_addr h (a + 4096) ltac:(lia) Hah) as (_ & _ & _ & _ & Hih).
  apply (plat_addr_next a g h); done || lia.
Qed.

(** ** The root tables *)

(** The first [n] root granules can be locked, in the order of the array from [b]. *)
Definition sl_lockable (s : state) (base b : Z) (n : nat) : Prop :=
  ∀ j, 0 <= j < Z.of_nat n → lockable s (base + j * 4096) GRANULE_STATE_DELEGATED = Some (b + j).

Lemma lock_sl_rtts_run s pre base b n : ∀ i,
  quiescent s → 0 <= base < 2 ^ 52 → (0 < i)%nat → (i + n <= 16)%nat →
  (∀ j g, 0 <= j < Z.of_nat (i + n) → find_granule (base + j * 4096) = Ok (Some g) → g ∉ pre) →
  sl_lockable s base b i →
  ∃ all i', lock_sl_rtts n (Z.of_nat i) base (Some b) (lock_all (pre ++ granules_from b i) s)
    = Ok ((all, Z.of_nat i', Some b), lock_all (pre ++ granules_from b i') s) ∧
    (i <= i' <= i + n)%nat ∧ sl_lockable s base b i' ∧
    if all : bool then i' = (i + n)%nat
    else (i' < i + n)%nat ∧ lockable s (base + Z.of_nat i' * 4096) GRANULE_STATE_DELEGATED = None.
Proof using L.
  induction n as [|n IH]; intros i Hq Hbase Hi Hin Hfresh Hok.
  { exists true, i. split; [done|]. split; [lia|]. split; [done|lia]. }
  cbn [lock_sl_rtts]. change GRANULE_SIZE with 4096.
  rewrite (u64_small (Z.of_nat i * 4096)) by (unfold is_u64; lia).
  rewrite u64_small by (unfold is_u64; lia).
  assert (Hlast : lockable s (base + Z.of_nat (i - 1) * 4096) GRANULE_STATE_DELEGATED = Some (b + Z.of_nat (i - 1))) by (apply Hok; lia).
  assert (Hnext : ∀ g, lockable s (base + Z.of_nat i * 4096) GRANULE_STATE_DELEGATED = Some g → g = b + Z.of_nat i).
  { intros g Hg. replace (base + Z.of_nat i * 4096) with (base + Z.of_nat (i - 1) * 4096 + 4096) in Hg by lia.
    rewrite (lockable_next s (base + Z.of_nat (i - 1) * 4096) GRANULE_STATE_DELEGATED (b + Z.of_nat (i - 1)) g Hq); [lia|lia| |done|done].
    unfold is_u64; lia. }
  erewrite bind_run; [|apply find_lock_fresh; [done|unfold is_u64; lia|]]; cycle 1.
  { intros g Hg. apply not_elem_of_app. split; [apply (Hfresh (Z.of_nat i)); [lia|done]|].
    intros Hin'%elem_of_granules_from.
    assert (Heq : base + Z.of_nat i * 4096 = base + (g - b) * 4096); [|lia].
    apply (find_granule_inj _ _ g); [unfold is_u64; lia|unfold is_u64; lia|done|].
    eapply lockable_find. rewrite (Hok (g - b)) by lia. f_equal. lia. }
  destruct (lockable s (base + Z.of_nat i * 4096) GRANULE_STATE_DELEGATED) as [g|] eqn:Hg.
  - rewrite (Hnext g eq_refl) in *. destruct (Z.eqb_spec (Z.of_nat i) 0); [lia|].
    rewrite <- app_assoc, <- granules_from_snoc. replace (Z.of_nat i + 1) with (Z.of_nat (S i)) by lia.
    destruct (IH (S i)) as (all & i' & Hrun & Hi' & Hok' & Hall); [done|done|lia|lia| | |].
    { intros j h Hj. apply Hfresh. lia. }
    { intros j Hj. destruct (decide (j = Z.of_nat i)) as [->|]; [done|]. apply Hok. lia. }
    exists all, i'. split; [done|]. split; [lia|]. split; [done|]. destruct all; [lia|destruct Hall; split; [lia|done]].
  - exists false, i. split; [done|]. split; [lia|]. split; [done|]. split; [lia|done].
Qed.

Lemma unlock_sl_rtts_run s pre base b i :
  quiescent s → 0 <= base < 2 ^ 52 → (i <= 16)%nat → sl_lockable s base b i →
  (∀ j, 0 <= j < Z.of_nat i → b + j ∉ pre) →
  unlock_sl_rtts i (Some b) (lock_all (pre ++ granules_from b i) s) = Ok ((), lock_all pre s).
Proof using L.
  intros Hq Hbase. induction i as [|i IH]; intros Hi Hok Hpre.
  { cbn [unlock_sl_rtts]. change (granules_from b 0) with (@nil Z). by rewrite app_nil_r. }
  cbn [unlock_sl_rtts]. run_step (mderef_run _ b _ eq_refl). rewrite granules_from_snoc, app_assoc.
  destruct (lockable_Some s (base + Z.of_nat i * 4096) GRANULE_STATE_DELEGATED (b + Z.of_nat i) Hq) as (_ & Hr & _).
  { unfold is_u64; lia. } { apply Hok. lia. }
  erewrite bind_run; [|apply unlock_last; [done|done|]].
  - apply IH; [lia| |]; intros j Hj; [apply Hok|apply Hpre]; lia.
  - apply not_elem_of_app. split; [apply Hpre; lia|]. rewrite elem_of_granules_from. lia.
Qed.

Lemma lock_roots_run s pre base n :
  quiescent s → is_u64 base → (S n <= 16)%nat →
  (∀ j g, 0 <= j < Z.of_nat (S n) → base < 2 ^ 52 → find_granule (base + j * 4096) = Ok (Some g) → g ∉ pre) →
  ∃ all i b ob, lock_sl_rtts (S n) 0 base None (lock_all pre s)
    = Ok ((all, Z.of_nat i, ob), lock_all (pre ++ granules_from b i) s) ∧
    (i <= S n)%nat ∧ sl_lockable s base b i ∧ (i = 0%nat ∨ (ob = Some b ∧ base < 2 ^ 52)) ∧
    if all : bool then i = S n
    else ∃ j, 0 <= j < Z.of_nat (S n) ∧ lockable s (base + j * 4096) GRANULE_STATE_DELEGATED = None.
Proof using L.
  intros Hq Hb Hn Hfresh. cbn [lock_sl_rtts]. change (0 .* GRANULE_SIZE) with 0. rewrite Z.add_0_r, u64_small by done.
  erewrite bind_run; [|apply find_lock_fresh; [done|done|]]; cycle 1.
  { intros g Hg. apply (Hfresh 0); [lia| |by rewrite Z.add_0_r].
    destruct (find_granule_Some _ _ Hb Hg) as (_ & Hr & Ha).
    by destruct (plat_idx_addr g base ltac:(lia) Ha) as (_ & _ & ? & _). }
  destruct (lockable s base GRANULE_STATE_DELEGATED) as [b|] eqn:Hl; cycle 1.
  { exists false, 0%nat, 0, None. change (granules_from 0 0) with (@nil Z). rewrite app_nil_r.
    split; [done|]. split; [lia|]. split; [intros j Hj; lia|]. split; [by left|].
    exists 0. rewrite Z.mul_0_l, Z.add_0_r. split; [lia|done]. }
  destruct (lockable_Some _ _ _ _ Hq Hb Hl) as (_ & _ & _ & _ & H52 & _).
  replace [b] with (granules_from b 1) by (unfold granules_from; cbn; f_equal; lia).
  change (0 + 1) with (Z.of_nat 1). change (0 =? 0) with true.
  destruct (lock_sl_rtts_run s pre base b n 1) as (all & i & Hrun & Hi & Hok & Hall);
    [done|unfold is_u64 in Hb; lia|lia|lia| | |].
  { intros j g Hj. apply Hfresh; [lia|done]. }
  { intros j Hj. replace j with 0 by lia. rewrite Z.mul_0_l, !Z.add_0_r. done. }
  exists all, i, b, (Some b). cbv iota. split; [exact Hrun|]. split; [lia|]. split; [done|]. split; [by right|].
  destruct all; [lia|]. exists (Z.of_nat i). destruct Hall. split; [lia|done].
Qed.

(** The descriptor's granule and the first root granule, when all can be locked. *)
Definition rd_granules (s : state) (rd_addr base num : Z) : option (Z * Z) :=
  match lockable s rd_addr GRANULE_STATE_DELEGATED, lockable s base GRANULE_STATE_DELEGATED with
  | Some g_rd, Some b =>
      if forallb (λ j, bool_decide (is_Some (lockable s (base + Z.of_nat j * 4096) GRANULE_STATE_DELEGATED)))
           (seq 0 (Z.to_nat num))
      then Some (g_rd, b) else None
  | _, _ => None
  end.

Lemma rd_granules_all s rd_addr base num g_rd b :
  quiescent s → is_u64 base → rd_granules s rd_addr base num = Some (g_rd, b) → 0 <= num <= 16 →
  lockable s rd_addr GRANULE_STATE_DELEGATED = Some g_rd ∧ base < 2 ^ 52 ∧ sl_lockable s base b (Z.to_nat num).
Proof using L.
  intros Hq Hb Hr Hn. unfold rd_granules in Hr. destruct (lockable s rd_addr _) as [g|]; [|done].
  destruct (lockable s base _) as [b'|] eqn:Hl; [|done]. destruct (forallb _ _) eqn:Hf; [|done]. simplify_eq.
  split; [done|]. destruct (lockable_Some _ _ _ _ Hq Hb Hl) as (_ & _ & _ & _ & H52 & _). split; [done|].
  assert (Hall : ∀ k : nat, (k < Z.to_nat num)%nat →
    lockable s (base + Z.of_nat k * 4096) GRANULE_STATE_DELEGATED = Some (b + Z.of_nat k)).
  { induction k as [|k IH]; intros Hk; [by rewrite Z.mul_0_l, !Z.add_0_r|].
    rewrite forallb_forall in Hf. specialize (Hf (S k) ltac:(apply in_seq; lia)).
    apply bool_decide_eq_true in Hf as [h Hh]. rewrite Hh. f_equal. unfold is_u64 in Hb.
    replace (base + Z.of_nat (S k) * 4096) with (base + Z.of_nat k * 4096 + 4096) in Hh by lia.
    rewrite (lockable_next s (base + Z.of_nat k * 4096) GRANULE_STATE_DELEGATED (b + Z.of_nat k) h Hq);
      [lia|lia|unfold is_u64; lia|apply IH; lia|done]. }
  intros j Hj. replace j with (Z.of_nat (Z.to_nat j)) by lia. apply Hall. lia.
Qed.

Lemma rd_granules_ok s rd_addr base num g_rd b :
  lockable s rd_addr GRANULE_STATE_DELEGATED = Some g_rd → 1 <= num → sl_lockable s base b (Z.to_nat num) →
  rd_granules s rd_addr base num = Some (g_rd, b).
Proof using.
  clear L. intros Hg Hn Hok. unfold rd_granules. rewrite Hg.
  assert (Hb : lockable s base GRANULE_STATE_DELEGATED = Some b).
  { rewrite <- (Z.add_0_r base), <- (Z.add_0_r b). change (base + 0) with (base + 0 * 4096). apply Hok. lia. }
  rewrite Hb. destruct (forallb _ _) eqn:Hf; [done|]. exfalso. apply not_true_iff_false in Hf. apply Hf.
  apply forallb_forall. intros j Hj%in_seq. apply bool_decide_eq_true. rewrite Hok by lia. done.
Qed.

Lemma rd_granules_none s rd_addr base num j :
  0 <= j < num → lockable s (base + j * 4096) GRANULE_STATE_DELEGATED = None → rd_granules s rd_addr base num = None.
Proof using.
  clear L. intros Hj Hl. unfold rd_granules. destruct (lockable s rd_addr _); [|done]. destruct (lockable s base _); [|done].
  destruct (forallb _ _) eqn:Hf; [|done]. rewrite forallb_forall in Hf.
  specialize (Hf (Z.to_nat j) ltac:(apply in_seq; lia)). rewrite Z2Nat.id, Hl in Hf by lia.
  by apply bool_decide_eq_true in Hf as [? ?].
Qed.

(** The descriptor's address is not one of the root tables'. *)
Definition apart (rd_addr base num : Z) : Prop :=
  ∀ j, 0 <= j < num → base < 2 ^ 52 → rd_addr ≠ base + j * 4096.

Lemma apart_fresh rd_addr base num j g h :
  apart rd_addr base num → is_u64 rd_addr → is_u64 base → 0 <= num <= 16 → 0 <= j < num → base < 2 ^ 52 →
  find_granule (base + j * 4096) = Ok (Some g) → find_granule rd_addr = Ok (Some h) → g ≠ h.
Proof using L.
  intros Hne Hr Hb Hn Hj H52 Hg Hh ->. apply (Hne j Hj H52). unfold is_u64 in Hb.
  by apply (find_granule_inj _ _ h); [|unfold is_u64; lia|..].
Qed.

(** Locking all roots while at most the descriptor's granule is held, and undoing it. *)
Lemma lock_roots_total s pre rd_addr base num :
  quiescent s → is_u64 rd_addr → is_u64 base → 1 <= num <= 16 → apart rd_addr base num →
  (∀ h, h ∈ pre → find_granule rd_addr = Ok (Some h)) →
  ∃ all i b ob,
    lock_sl_rtts (Z.to_nat num) 0 base None (lock_all pre s)
    = Ok ((all, Z.of_nat i, ob), lock_all (pre ++ granules_from b i) s) ∧
    (unlock_sl_rtts i ob (lock_all (pre ++ granules_from b i) s) = Ok ((), lock_all pre s)) ∧
    if all : bool then i = Z.to_nat num ∧ ob = Some b ∧ sl_lockable s base b (Z.to_nat num) ∧ base < 2 ^ 52
    else rd_granules s rd_addr base num = None.
Proof using L.
  intros Hq Hr Hb Hn Hne Hpre. assert (Hnum : Z.to_nat num = S (Z.to_nat num - 1)) by lia.
  destruct (lock_roots_run s pre base (Z.to_nat num - 1)) as (all & i & b & ob & Hrun & Hi & Hok & Hob & Hall);
    [done|done|lia| |].
  { intros j g Hj H52 Hg Hin.
    exact (apart_fresh _ _ _ j g g Hne Hr Hb ltac:(lia) ltac:(lia) H52 Hg (Hpre g Hin) eq_refl). }
  rewrite <- Hnum in *. exists all, i, b, ob. split; [done|]. split.
  - destruct Hob as [->|[-> H52]].
    { cbn [unlock_sl_rtts]. change (granules_from b 0) with (@nil Z). by rewrite app_nil_r. }
    apply (unlock_sl_rtts_run _ _ base); [done|unfold is_u64 in Hb; lia|lia|done|]. intros j Hj Hin.
    refine (apart_fresh _ _ _ j (b + j) (b + j) Hne Hr Hb ltac:(lia) ltac:(lia) H52 _ (Hpre _ Hin) eq_refl).
    eapply lockable_find. apply Hok. lia.
  - destruct all.
    + subst i. destruct Hob as [?|[-> H52]]; [lia|]. done.
    + destruct Hall as (j & Hj & Hl). eapply (rd_granules_none _ _ _ _ j); [lia|done].
Qed.

Lemma root_not_rd s rd_addr base num b g :
  is_u64 rd_addr → is_u64 base → 1 <= num <= 16 → apart rd_addr base num → base < 2 ^ 52 →
  sl_lockable s base b (Z.to_nat num) → find_granule rd_addr = Ok (Some g) → g ∉ granules_from b (Z.to_nat num).
Proof using L.
  intros Hr Hb Hn Hne H52 Hok Hg Hin%elem_of_granules_from.
  refine (apart_fresh _ _ _ (g - b) g g Hne Hr Hb ltac:(lia) ltac:(lia) H52 _ Hg eq_refl).
  eapply lockable_find. rewrite (Hok (g - b)) by lia. f_equal. lia.
Qed.

Lemma find_lock_rd_granules_run s rd_addr base num :
  quiescent s → is_u64 rd_addr → is_u64 base → 1 <= num <= 16 →
  apart rd_addr base num →
  find_lock_rd_granules rd_addr base num s
  = match rd_granules s rd_addr base num with
    | Some (g_rd, b) => Ok (Some (g_rd, b), lock_all (g_rd :: granules_from b (Z.to_nat num)) s)
    | None => Ok (None, s)
    end.
Proof using L.
  intros Hq Hr Hb Hn Hne. unfold find_lock_rd_granules.
  assert (Hrdr : ∀ g, lockable s rd_addr GRANULE_STATE_DELEGATED = Some g → 0 <= g < RMM_MAX_GRANULES).
  { intros g Hg. by destruct (lockable_Some _ _ _ _ Hq Hr Hg) as (_ & ? & _). }
  destruct (Z.ltb_spec rd_addr base) as [Hlt|Hge].
  - rewrite bind_assoc. erewrite bind_run; [|apply (find_lock_fresh s []); [done|done|intros g _; apply not_elem_of_nil]].
    destruct (lockable s rd_addr GRANULE_STATE_DELEGATED) as [g_rd|] eqn:Hl; cycle 1.
    { rewrite ret_bind. cbn [bool_decide]. unfold rd_granules. by rewrite Hl. }
    rewrite ret_bind. rewrite bool_decide_eq_false_2 by done. cbn [app].
    destruct (lock_roots_total s [g_rd] rd_addr base num) as (all & i & b & ob & Hrun & Hun & Hall); try done.
    { intros h ->%list_elem_of_singleton. by eapply lockable_find. }
    run_step Hrun. destruct all; cbn [negb].
    + destruct Hall as (-> & -> & Hok & H52). rewrite (rd_granules_ok s rd_addr base num g_rd b Hl ltac:(lia) Hok). done.
    + rewrite Hall. unfold rd_granules_err. rewrite Nat2Z.id. run_step Hun.
      erewrite bind_run; [|apply (unlock_last s [] g_rd Hq); [by apply Hrdr|apply not_elem_of_nil]]. done.
  - rewrite ret_bind. destruct (lock_roots_total s [] rd_addr base num) as (all & i & b & ob & Hrun & Hun & Hall); try done.
    { intros h Hin. by apply not_elem_of_nil in Hin. }
    change (lock_all [] s) with s in *. run_step Hrun. destruct all; cbn [negb].
    + destruct Hall as (-> & -> & Hok & H52).
      erewrite bind_run; [|apply find_lock_fresh; [done|done|]]; cycle 1.
      { intros g Hg. by eapply (root_not_rd s rd_addr base). }
      destruct (lockable s rd_addr GRANULE_STATE_DELEGATED) as [g_rd|] eqn:Hl.
      * rewrite (rd_granules_ok s rd_addr base num g_rd b Hl ltac:(lia) Hok). cbn [app]. rewrite lock_all_cons_snoc; [done|].
        eapply (root_not_rd s rd_addr base); try done. by eapply lockable_find.
      * unfold rd_granules. rewrite Hl. unfold rd_granules_err. rewrite Nat2Z.id. run_step Hun. done.
    + rewrite Hall. unfold rd_granules_err. rewrite Nat2Z.id. run_step Hun. done.
Qed.
End lock.

(** * Releasing the root granules *)

Definition release (st : Z) (gr : granule) : granule := Gr false st 0 (owner_tag gr).

Lemma mfor_unlock_run b st st' n : ∀ a s,
  gok st 0 → 0 <= st' < 32 → unlocked_invariant st' 0 = true →
  (∀ k, Z.of_nat a <= k < Z.of_nat (a + n) → ∃ tag, granules s !! (b + k) = Some (Gr true st 0 tag)) →
  ∃ m, mfor (Z.of_nat <$> seq a n) (λ i, granule_unlock_transition (b + i) st') s = Ok ((), set_granules m s) ∧
    ∀ h, m !! h = if (b + Z.of_nat a <=? h) && (h <? b + Z.of_nat (a + n))
                  then release st' <$> granules s !! h else granules s !! h.
Proof.
  induction n as [|n IH]; intros a s Hok Hst Hinv Hg.
  { exists (granules s). split; [by destruct s|]. intros h.
    by destruct (Z.leb_spec (b + Z.of_nat a) h), (Z.ltb_spec h (b + Z.of_nat (a + 0))); [lia|..]. }
  cbn [seq fmap list_fmap mfor]. destruct (Hg (Z.of_nat a) ltac:(lia)) as (tag & Hga).
  erewrite bind_run by (by eapply granule_unlock_transition_run).
  destruct (IH (S a) (put_granule (b + Z.of_nat a) (Gr false st' 0 tag) s)) as (m & Hrun & Hm); [done..| |].
  { intros k Hk. rewrite put_granule_lookup_ne by lia. apply Hg. lia. }
  exists m. split; [exact Hrun|]. intros h. rewrite Hm.
  destruct (decide (h = b + Z.of_nat a)) as [->|Hne].
  - rewrite put_granule_lookup, Hga. cbn [fmap option_fmap option_map].
    rewrite (proj2 (Z.leb_gt (b + Z.of_nat (S a)) _)), (proj2 (Z.leb_le _ _)), (proj2 (Z.ltb_lt _ (b + Z.of_nat (a + S n)))) by lia.
    done.
  - rewrite put_granule_lookup_ne by done. replace (S a + n)%nat with (a + S n)%nat by lia.
    by destruct (Z.leb_spec (b + Z.of_nat (S a)) h), (Z.leb_spec (b + Z.of_nat a) h); [|lia|lia|].
Qed.

(** * The request *)

Section request.
Context {P : Platform} {H : Machine} {CF : Config} {CPU : Cpu}.

(** Memory of delegated granules is wiped. *)
Definition delegated_wiped (s : state) : Prop :=
  ∀ g rc tag, granules s !! g = Some (Gr false GRANULE_STATE_DELEGATED rc tag) → gok GRANULE_STATE_DELEGATED rc →
    mem s !! g = Some PZero.

(** The parameters that the host passes, when they can be read. *)
Definition host_params (s : state) (addr : Z) : option realm_params :=
  match find_granule addr with
  | Ok (Some g) =>
      match granules s !! g with
      | Some gr =>
          if d_state (descriptor gr) =? GRANULE_STATE_NS then
            let '(ok, bytes) := memcpy_ns_read 512 (set_slots (<[SLOT_NS := g]> (slots s)) s) g 0 in
            if ok then Some (realm_params_of_bytes bytes) else None
          else None
      | None => None
      end
  | _ => None
  end.

Definition params_acceptable (s : state) (rd_addr : Z) (p : realm_params) : bool :=
  match check_realm_params p with Ok b => b | Err _ => false end && (p_vmid p <? vmid_count) && negb (vmid_used (vmids s) (p_vmid p)) &&
  negb (addr_is_contained (p_rtt_base p) (p_rtt_base p .+ (p_rtt_num_start p .* GRANULE_SIZE)) rd_addr).

(** The parameters, the descriptor's granule and the first root of a request that is
    granted. *)
Definition create_request (s : state) (rd_addr params_addr : Z) : option (realm_params * Z * Z) :=
  p ← host_params s params_addr;
  if params_acceptable s rd_addr p
  then '(g_rd, b) ← rd_granules s rd_addr (p_rtt_base p) (p_rtt_num_start p); Some (p, g_rd, b)
  else None.

Context {C : Crypto}.

(** The descriptor of the new realm. *)
Definition new_rd (p : realm_params) (b : Z) : rd :=
  let r := init_rd p b rd_zero in
  set_rd_rim (slot_of (algorithm r) (rmi_realm_params_bytes (p_measured p))) r.
End request.

Section params.
Context {P : Platform} {H : Machine} {CF : Config} {CPU : Cpu} {C : Crypto}.
Context {L : PlatformLaws P} {HL : MachineLaws P H} {CL : CpuLaws CPU} {CRL : CryptoLaws C}.

Lemma get_realm_params_run s addr :
  quiescent s → slots s !! SLOT_NS = None → is_u64 addr → get_realm_params addr s = Ok (host_params s addr, s).
Proof using L HL.
  intros Hq Hs Ha. unfold get_realm_params, host_params. destruct (find_granule_total addr Ha) as [[g|] Hf]; rewrite Hf.
  - run_step (lift_run _ _ s eq_refl). pose proof (find_granule_Some _ _ Ha Hf) as (_ & Hr & _).
    destruct (Hq g Hr) as (gr & Hg & st & rc & tag & -> & Hok & _). unfold granule_unlocked_state.
    erewrite bind_run by (by eapply STATE_run). rewrite Hg. cbn [Gr descriptor]. rewrite desc_state by done. cbn [v_state].
    destruct (st =? GRANULE_STATE_NS); cbn [negb]; [|done].
    erewrite bind_run by (apply ns_buffer_read_run; [by eapply find_granule_has_addr|done|lia|done|done|done]).
    change (Z.to_nat (4096 / 8)) with 512%nat. change (0 mod 4096) with 0.
    by destruct (memcpy_ns_read 512 _ g 0) as [[|] bytes].
  - by run_step (lift_run _ _ s eq_refl).
Qed.

Lemma le_val_range l : Forall (λ b, 0 <= b < 256) l → 0 <= le_val l < 256 ^ Z.of_nat (length l).
Proof using.
  clear. induction 1 as [|b l Hb Hl IH]; [done|]. cbn [le_val foldr length]. fold (le_val l).
  replace (Z.of_nat (S (length l))) with (Z.of_nat (length l) + 1) by lia. rewrite Z.pow_add_r by lia. lia.
Qed.

Lemma member_at_range off n bytes :
  Forall (λ b, 0 <= b < 256) bytes → 0 <= member_at off n bytes < 256 ^ Z.of_nat n.
Proof using.
  clear. intros Hb. unfold member_at. pose proof (le_val_range (take n (drop off bytes)) ltac:(by apply Forall_take, Forall_drop)) as Hr.
  rewrite length_take in Hr.
  assert (256 ^ Z.of_nat (n `min` length (drop off bytes)) <= 256 ^ Z.of_nat n) by (apply Z.pow_le_mono_r; lia). lia.
Qed.

Lemma host_params_range s addr p :
  host_params s addr = Some p → 0 <= p_vmid p < 2 ^ 16 ∧ is_u64 (p_rtt_base p).
Proof using HL.
  unfold host_params. destruct (find_granule addr) as [[g|]|]; [|done..]. destruct (granules s !! g); [|done].
  destruct (_ =? _); [|done]. pose proof (memcpy_ns_read_byte 512 (set_slots (<[SLOT_NS := g]> (slots s)) s) g 0) as Hb.
  destruct (memcpy_ns_read 512 _ g 0) as [[|] bytes]; [|done]. intros [= <-]. cbn [snd] in Hb.
  split; [exact (member_at_range 2048 2 bytes Hb)|exact (member_at_range 2056 8 bytes Hb)].
Qed.

(** An address range that does not contain the descriptor keeps it apart from the root
    tables. *)
Lemma not_contained_apart rd_addr base num :
  is_u64 base → 1 <= num <= 16 →
  addr_is_contained base (base .+ (num .* GRANULE_SIZE)) rd_addr = false → apart rd_addr base num.
Proof using.
  clear. intros Hb Hn Hc j Hj H52 ->. change GRANULE_SIZE with 4096 in Hc. unfold is_u64 in Hb.
  rewrite (u64_small (num * 4096)), (u64_small (base + num * 4096)) in Hc by (unfold is_u64; lia).
  unfold addr_is_contained in Hc. rewrite u64_small in Hc by (unfold is_u64; lia).
  destruct (Z.ltb_spec (base + num * 4096 - 1) base); [lia|].
  rewrite (proj2 (Z.leb_le base _)), (proj2 (Z.leb_le _ (base + num * 4096 - 1))) in Hc by lia. done.
Qed.

(** ** Success *)

(** What the granules hold while and after a realm is made in them. *)
Record create_ready (s : state) (p : realm_params) (rd_addr g_rd b : Z) : Prop := {
  cr_quiet : quiescent s;
  cr_slots : slots s = ∅;
  cr_wiped : delegated_wiped s;
  cr_fits : sl_fits (rp_s2sz (p_measured p)) (p_rtt_level_start p) (p_rtt_num_start p) (is_lpa2_requested p);
  cr_u64 : is_u64 rd_addr;
  cr_base : 0 <= p_rtt_base p < 2 ^ 52;
  cr_rd : lockable s rd_addr GRANULE_STATE_DELEGATED = Some g_rd;
  cr_roots : sl_lockable s (p_rtt_base p) b (Z.to_nat (p_rtt_num_start p));
  cr_apart : g_rd ∉ granules_from b (Z.to_nat (p_rtt_num_start p));
}.

(** A delegated granule that can be locked is unreferenced and wiped. *)
Lemma delegated_granule s a g :
  quiescent s → delegated_wiped s → is_u64 a → lockable s a GRANULE_STATE_DELEGATED = Some g →
  has_addr g ∧ 0 <= g < RMM_MAX_GRANULES ∧ mem s !! g = Some PZero ∧
  ∃ tag, granules s !! g = Some (Gr false GRANULE_STATE_DELEGATED 0 tag).
Proof using L.
  intros Hq Hw Ha Hl. destruct (lockable_Some _ _ _ _ Hq Ha Hl) as (_ & Hr & Hadr & _ & _ & rc & tag & Hg & Hok & Hi).
  split; [done|]. split; [done|]. split; [by eapply Hw|]. exists tag. rewrite Hg. do 2 f_equal. by apply Z.eqb_eq in Hi.
Qed.

Section ready.
Context (s : state) (p : realm_params) (rd_addr g_rd b : Z).
Hypothesis Hcr : create_ready s p rd_addr g_rd b.

Lemma cr_root k : 0 <= k < p_rtt_num_start p →
  has_addr (b + k) ∧ 0 <= b + k < RMM_MAX_GRANULES ∧ mem s !! (b + k) = Some PZero ∧ b + k ≠ g_rd ∧
  ∃ tag, granules s !! (b + k) = Some (Gr false GRANULE_STATE_DELEGATED 0 tag).
Proof using L Hcr.
  destruct Hcr as [Hq _ Hw Hf _ Hb _ Hr Hap]. intros Hk. pose proof (sf_num _ _ _ _ Hf).
  destruct (delegated_granule s (p_rtt_base p + k * 4096) (b + k) Hq Hw) as (Ha & Hrg & Hm & Hg).
  { unfold is_u64. lia. } { apply Hr. lia. }
  do 3 (split; [done|]). split; [|done]. intros Heq. apply Hap. apply elem_of_granules_from. lia.
Qed.

Lemma cr_rd_granule :
  has_addr g_rd ∧ 0 <= g_rd < RMM_MAX_GRANULES ∧ mem s !! g_rd = Some PZero ∧
  ∃ tag, granules s !! g_rd = Some (Gr false GRANULE_STATE_DELEGATED 0 tag).
Proof using L Hcr. destruct Hcr. by eapply delegated_granule. Qed.

Lemma cr_ctx_fits : ctx_fits (s2_ctx (init_rd p b rd_zero)).
Proof using Hcr. apply (cr_fits _ _ _ _ _ Hcr). Qed.

(** Everything the new realm's granules contain; nothing else changes. *)
Definition created (m : gmap Z granule) (s' : state) : Prop :=
  s' = set_granules m (set_mem (mem s') s) ∧
  (∀ h, m !! h = if h =? g_rd then release GRANULE_STATE_RD <$> granules s !! h
                 else if (b <=? h) && (h <? b + p_rtt_num_start p) then release GRANULE_STATE_RTT <$> granules s !! h
                 else granules s !! h) ∧
  (∀ h, mem s' !! h = if h =? g_rd then Some (PRd (new_rd p b))
                      else if (b <=? h) && (h <? b + p_rtt_num_start p)
                      then Some (PTable (root_table (new_rd p b) (s2tte_map_size (p_rtt_level_start p)) (512 * (h - b))))
                      else mem s !! h).

Lemma create_locked_run :
  ∃ m s', create_locked p g_rd b (lock_all (g_rd :: granules_from b (Z.to_nat (p_rtt_num_start p))) s)
          = Ok (RMI_SUCCESS, s') ∧ created m s'.
Proof using L HL CRL Hcr.
  set (gl := g_rd :: granules_from b (Z.to_nat (p_rtt_num_start p))).
  pose proof (sf_num _ _ _ _ (cr_fits _ _ _ _ _ Hcr)) as Hnum.
  destruct cr_rd_granule as (Hrda & _ & Hrdm & tag & Hrdg).
  assert (HND : NoDup gl) by (apply NoDup_cons; split; [apply (cr_apart _ _ _ _ _ Hcr)|apply NoDup_granules_from]).
  assert (Hlk : ∀ h t, h ∈ gl → granules s !! h = Some (Gr false GRANULE_STATE_DELEGATED 0 t) →
    granules (lock_all gl s) !! h = Some (Gr true GRANULE_STATE_DELEGATED 0 t)) by (intros; by apply lock_all_in).
  assert (Hnl : ∀ h, h ∉ gl → granules (lock_all gl s) !! h = granules s !! h) by (intros; by apply lock_all_ne).
  rewrite lock_all_frame. generalize dependent (granules (lock_all gl s)). intros gm Hlk Hnl.
  unfold create_locked. pose proof (cr_slots _ _ _ _ _ Hcr) as Hsl. st_norm. rewrite Hsl.
  exec map_assert_run. exec read_rd_run.
  assert (Hfb : find_granule (p_rtt_base p) = Ok (Some b)).
  { rewrite <- (Z.add_0_r (p_rtt_base p)), <- (Z.add_0_r b). eapply lockable_find.
    apply (cr_roots _ _ _ _ _ Hcr 0). lia. }
  exec (lift_run _ _ _ Hfb). exec mderef_run. cbv zeta. exec write_page_run.
  erewrite bind_run; [|eapply init_s2_starting_level_run]; cycle 1.
  { apply cr_ctx_fits. } { done. }
  { cbn [s2_ctx init_rd num_root_rtts g_rtt]. intros j Hj. destruct (cr_root j Hj) as (Ha & _ & Hm & Hne & _).
    split; [done|]. exists PZero. cbn [mem]. by rewrite lookup_insert_ne. }
  st_norm. erewrite bind_run; [|apply lift_run].
  2: { cbn [rim algorithm init_rd rd_zero]. apply hash_compute_run; [by rewrite length_realm_params|by destruct (_ =? _)]. }
  exec write_page_run. exec buffer_unmap_run.
  erewrite bind_run; [|eapply granule_unlock_transition_run; [apply (Hlk g_rd tag); [by left|done]|done|done|done]].
  st_norm. rewrite delete_insert_id by done.
  edestruct (mfor_unlock_run b GRANULE_STATE_DELEGATED GRANULE_STATE_RTT (Z.to_nat (p_rtt_num_start p)) 0)
    as (m & Hrun & Hm); [done|done|done| |run_step Hrun].
  { cbn [granules]. intros k Hk. destruct (cr_root k ltac:(lia)) as (_ & _ & _ & Hne & t & Hg). exists t.
    rewrite lookup_insert_ne by done. apply Hlk; [|done]. right. apply elem_of_granules_from. lia. }
  eexists m, _. split; [done|]. cbn [granules] in Hm. split; [|split].
  - unfold set_granules, set_mem; cbn. by rewrite Hsl.
  - intros h. rewrite Hm. rewrite Nat.add_0_l, Z.add_0_r, Z2Nat.id by lia.
    destruct (Z.eqb_spec h g_rd) as [->|Hne].
    + rewrite lookup_insert_eq, Hrdg. cbn [fmap option_fmap option_map].
      destruct ((b <=? g_rd) && (g_rd <? b + p_rtt_num_start p)) eqn:Hin; [|done].
      exfalso. apply (cr_apart _ _ _ _ _ Hcr), elem_of_granules_from. lia.
    + rewrite lookup_insert_ne by done. destruct ((b <=? h) && (h <? b + p_rtt_num_start p)) eqn:Hin.
      * destruct (cr_root (h - b) ltac:(lia)) as (_ & _ & _ & _ & t & Hg). replace (b + (h - b)) with h in Hg by lia.
        rewrite Hg, (Hlk h t); [done| |done]. right. apply elem_of_granules_from. lia.
      * apply Hnl. intros [->|Hi%elem_of_granules_from]%elem_of_cons; [done|lia].
  - intros h. cbn [mem set_granules]. destruct (Z.eqb_spec h g_rd) as [->|Hne]; [apply lookup_insert_eq|].
    rewrite lookup_insert_ne by done. unfold roots_mem. rewrite fill_roots_lookup.
    cbn [s2_ctx init_rd g_rtt num_root_rtts]. rewrite Z2Nat.id by lia.
    destruct ((b <=? h) && (h <? b + p_rtt_num_start p)); [done|]. by rewrite lookup_insert_ne.
Qed.

Lemma created_realm m s' :
  0 <= p_vmid p < 2 ^ 16 → created m s' →
  realm_at s' rd_addr g_rd (new_rd p b) (root_tables (s2_ctx (new_rd p b))).
Proof using L HL Hcr.
  intros Hv (Hs' & Hm & Hmem). pose proof (sf_num _ _ _ _ (cr_fits _ _ _ _ _ Hcr)) as Hnum.
  destruct cr_rd_granule as (Hrda & Hrdr & _ & tag & Hrdg).
  assert (Hgr : granules s' = m) by (rewrite Hs'; done).
  assert (Hroot : ∀ k, 0 <= k < p_rtt_num_start p → ∃ t,
    granules s' !! (b + k) = Some (Gr false GRANULE_STATE_RTT 0 t)).
  { intros k Hk. destruct (cr_root k Hk) as (_ & _ & _ & Hne & t & Hg). exists t. rewrite Hgr, Hm, Hg.
    rewrite (proj2 (Z.eqb_neq _ _)), (proj2 (Z.leb_le _ _)), (proj2 (Z.ltb_lt _ _)) by (done || lia). done. }
  split.
  - intros g Hg. rewrite Hgr, Hm. destruct (cr_quiet _ _ _ _ _ Hcr g Hg) as (gr & Hgrs & Hq). rewrite Hgrs.
    destruct (g =? g_rd); [|destruct (_ && _); [|by eexists]]; (eexists; split; [reflexivity|]).
    + by exists GRANULE_STATE_RD, 0, (owner_tag gr).
    + by exists GRANULE_STATE_RTT, 0, (owner_tag gr).
  - rewrite Hs'. apply (cr_slots _ _ _ _ _ Hcr).
  - apply (cr_u64 _ _ _ _ _ Hcr).
  - unfold lockable. rewrite (lockable_find _ _ _ _ (cr_rd _ _ _ _ _ Hcr)), Hgr, Hm, Z.eqb_refl, Hrdg. done.
  - by rewrite Hmem, Z.eqb_refl.
  - apply new_realm_inv; [apply cr_ctx_fits|done|]. cbn [s2_ctx new_rd set_rd_rim init_rd g_rtt num_root_rtts].
    intros k Hk. destruct (cr_root k Hk) as (Ha & _ & _ & Hne & _). split; [done|]. split; [by apply Hroot|].
    unfold table_of. rewrite Hmem, (proj2 (Z.eqb_neq _ _)), (proj2 (Z.leb_le _ _)), (proj2 (Z.ltb_lt _ _)) by (done || lia).
    cbn [andb page_table mbind option_bind]. do 2 f_equal. lia.
Qed.
End ready.

(** * REALM_CREATE *)

Lemma create_ready_request s rd_addr params_addr p g_rd b :
  quiescent s → slots s = ∅ → delegated_wiped s → is_u64 rd_addr →
  create_request s rd_addr params_addr = Some (p, g_rd, b) →
  create_ready (set_vmids (vmid_mark true (p_vmid p) (vmids s)) s) p rd_addr g_rd b ∧ 0 <= p_vmid p < 2 ^ 16 ∧
  p_vmid p < vmid_count ∧ vmid_used (vmids s) (p_vmid p) = false.
Proof using L HL CL.
  intros Hq Hs Hw Hr Hreq. unfold create_request in Hreq.
  apply bind_Some in Hreq as (p' & Hp & Hreq). destruct (params_acceptable s rd_addr p') eqn:Hacc; [|done].
  apply bind_Some in Hreq as ([g b'] & Hrd & Hreq). simplify_eq.
  destruct (host_params_range _ _ _ Hp) as [Hv Hb]. unfold params_acceptable in Hacc.
  rewrite !andb_true_iff, !negb_true_iff, Z.ltb_lt in Hacc. destruct Hacc as [[[Hck Hvc] Hvu] Hct].
  destruct (check_realm_params_total p) as (ok & Hok & Hfit). rewrite Hok in Hck. subst ok. specialize (Hfit eq_refl).
  pose proof (sf_num _ _ _ _ Hfit) as Hnum.
  destruct (rd_granules_all s rd_addr _ _ _ _ Hq Hb Hrd) as (Hl & H52 & Hroots); [lia|].
  split; [|done]. split; try done.
  - unfold is_u64 in Hb. lia.
  - eapply (root_not_rd s rd_addr (p_rtt_base p)); [done|done|done|by apply not_contained_apart|done|done|by eapply lockable_find].
Qed.
End params.

Section create.
Context {P : Platform} {H : Machine} {CF : Config} {CPU : Cpu} {C : Crypto}.
Context {L : PlatformLaws P} {HL : MachineLaws P H} {CL : CpuLaws CPU} {CRL : CryptoLaws C}.

(** A refusal leaves the state, and the VMIDs, as they were. *)
Lemma smc_realm_create_request s rd_addr params_addr :
  quiescent s → slots s = ∅ → vmids_ok (vmids s) → is_u64 rd_addr → is_u64 params_addr →
  smc_realm_create rd_addr params_addr s
  = match create_request s rd_addr params_addr with
    | None => Ok (RMI_ERROR_INPUT, s)
    | Some (p, g_rd, b) =>
        create_locked p g_rd b (lock_all (g_rd :: granules_from b (Z.to_nat (p_rtt_num_start p)))
          (set_vmids (vmid_mark true (p_vmid p) (vmids s)) s))
    end.
Proof using L HL CL.
  intros Hq Hs Hvm Hr Hp. unfold smc_realm_create, create_request.
  run_step (get_realm_params_run s params_addr Hq ltac:(by rewrite Hs) Hp).
  destruct (host_params s params_addr) as [p|] eqn:Hhp; [|done]. cbn [mbind option_bind].
  destruct (host_params_range _ _ _ Hhp) as [Hv Hb]. unfold validate_realm_params, params_acceptable. steps.
  destruct (check_realm_params_total p) as (ok & Hok & Hfit). rewrite Hok. run_step (lift_run _ _ s eq_refl).
  destruct ok; [|by rewrite ret_bind]. specialize (Hfit eq_refl). pose proof (sf_num _ _ _ _ Hfit) as Hnum.
  pose proof (vmid_reserve_run s (p_vmid p) Hvm Hv) as Hres.
  destruct (Z.ltb_spec (p_vmid p) vmid_count) as [Hvc|Hvc]; [|by run_step Hres].
  destruct (vmid_used (vmids s) (p_vmid p)) eqn:Hvu; [by run_step Hres|]. cbn [andb negb] in *. run_step Hres. cbn [negb].
  set (sv := set_vmids (vmid_mark true (p_vmid p) (vmids s)) s).
  assert (Hfree : vmid_free (p_vmid p) sv = Ok ((), s)) by (by apply vmid_reserve_free).
  destruct (addr_is_contained _ _ rd_addr) eqn:Hct; cbn [negb]; [by run_step Hfree|].
  assert (Hlock := find_lock_rd_granules_run sv rd_addr (p_rtt_base p) (p_rtt_num_start p) Hq Hr Hb Hnum
    (not_contained_apart _ _ _ Hb Hnum Hct)).
  change (rd_granules sv rd_addr) with (rd_granules s rd_addr) in Hlock.
  destruct (rd_granules s rd_addr (p_rtt_base p) (p_rtt_num_start p)) as [[g_rd b]|]; run_step Hlock; [done|].
  by run_step Hfree.
Qed.

End create.

(** * An example: four concatenated root tables at level 2 *)

Definition request_params : rmi_realm_params :=
  {| rp_flags := 0; rp_s2sz := 32; rp_sve_vl := 0; rp_num_bps := 2; rp_num_wps := 2;
     rp_pmu_num_ctrs := 0; rp_algorithm := 0 |}.

Definition request_bytes : list Z :=
  take 2048 (rmi_realm_params_bytes request_params) ++
  member 8 (le_bytes 2 77) ++ le_bytes 8 4096 ++ le_bytes 8 2 ++ member 2024 (le_bytes 4 4).

(** Host memory that reads as [bytes] in every granule. *)
Definition bytes_machine (bytes : list Z) : Machine := {|
  xlat_arch_get_max_supported_pa := 2 ^ 52 - 1;
  ns_ldr _ _ o := Some (member 8 (take 8 (drop (Z.to_nat o) bytes)));
  ns_str _ _ _ _ := true;
|}.

Lemma bytes_machine_laws n b bytes :
  0 < n < 2 ^ 32 → 0 <= b < 2 ^ 48 → b mod 4096 = 0 → Forall (λ x, 0 <= x < 256) bytes →
  MachineLaws (flat_platform n b) (bytes_machine bytes).
Proof.
  intros Hn Hb Hal Hby. split.
  - apply (max_pa_granules (MachineLaws := zero_machine_laws n b Hn Hb Hal)).
  - intros s g o l [= <-]. apply length_member. rewrite length_take. lia.
  - intros s g o l [= <-]. unfold member. apply Forall_app. split; [by apply Forall_take, Forall_drop|].
    by apply Forall_replicate.
Qed.

(** Granules 0 to 4 are delegated, granule 5 holds the host's parameters. *)
Definition create_platform : Platform := flat_platform 6 0.
Definition create_state : state :=
  set_granules (<[0 := Gr false GRANULE_STATE_DELEGATED 0 0]>
               (<[1 := Gr false GRANULE_STATE_DELEGATED 0 0]>
               (<[2 := Gr false GRANULE_STATE_DELEGATED 0 0]>
               (<[3 := Gr false GRANULE_STATE_DELEGATED 0 0]>
               (<[4 := Gr false GRANULE_STATE_DELEGATED 0 0]>
               (<[5 := Gr false GRANULE_STATE_NS 0 0]> ∅))))))
  (set_mem (<[0 := PZero]> (<[1 := PZero]> (<[2 := PZero]> (<[3 := PZero]> (<[4 := PZero]> ∅))))) state_init).

Lemma create_quiescent : quiescent (P := create_platform) create_state.
Proof.
  intros g Hg. change RMM_MAX_GRANULES with 6 in Hg.
  assert (g = 0 ∨ g = 1 ∨ g = 2 ∨ g = 3 ∨ g = 4 ∨ g = 5) as [->|[->|[->|[->|[->| ->]]]]] by lia;
    (eexists; split; [reflexivity|]; by eexists _, _, _).
Qed.

Lemma create_wiped : delegated_wiped create_state.
Proof.
  intros g rc tag Hg Hok. cbn [granules create_state set_granules] in Hg.
  assert (Hst : d_state (descriptor (Gr false GRANULE_STATE_DELEGATED rc tag)) = GRANULE_STATE_DELEGATED)
    by (cbn [Gr descriptor]; by rewrite desc_state).
  rewrite !lookup_insert_Some in Hg.
  destruct Hg as [[<- _]|[_ [[<- _]|[_ [[<- _]|[_ [[<- _]|[_ [[<- _]|[_ [[<- He]|[_ He]]]]]]]]]]]]; try reflexivity.
  - rewrite <- He in Hst. by vm_compute in Hst.
  - by rewrite lookup_empty in He.
Qed.

Definition create_laws : PlatformLaws create_platform := flat_laws 6 0 ltac:(lia) ltac:(lia) eq_refl.

Lemma request_byte : Forall (λ x, 0 <= x < 256) request_bytes.
Proof.
  assert (Hb : forallb (λ x, (0 <=? x) && (x <? 256)) request_bytes = true) by (vm_compute; reflexivity).
  apply Forall_forall. intros x Hx%list_elem_of_In. rewrite forallb_forall in Hb. specialize (Hb x Hx). lia.
Qed.

Definition create_machine_laws : MachineLaws create_platform (bytes_machine request_bytes) :=
  bytes_machine_laws 6 0 request_bytes ltac:(lia) ltac:(lia) eq_refl request_byte.

Definition granted_params : realm_params :=
  {| p_measured := request_params; p_rpv := replicate 64 0; p_vmid := 77; p_rtt_base := 4096;
     p_rtt_level_start := 2; p_rtt_num_start := 4 |}.

Lemma request_granted :
  create_request (P := create_platform) (H := bytes_machine request_bytes) (CF := arm_config) (CPU := demo_cpu)
    create_state 0 (5 * 4096) = Some (granted_params, 0, 1).
Proof. vm_compute. reflexivity. Qed.

