(* ===== verification/RealmDestroy.v ===== *)
(** REALM_ACTIVATE and REALM_DESTROY: a realm is destroyed only when nothing refers to its
    descriptor and its root tables are empty, and then no table is left behind. *)
From S2P Require Import Prelude Types Granule Platform GranuleFind S2tte S2tt Buffer Delegate Walk Exec Realm Measurement Rtt RttTree Data DataCreate Feature RealmCmd RealmInit RealmCreate.

Section roots.
Context {P : Platform} {H : Machine} {CF : Config} {CPU : Cpu} {L : PlatformLaws P} {HL : MachineLaws P H}.

(** ** Counting references *)

Definition root_free (s : state) (g : Z) (k : Z) : Prop :=
  ∃ rc tag, granules s !! (g + k) = Some (Gr false GRANULE_STATE_RTT rc tag) ∧ 0 <= rc <= 512.

Lemma root_refcount_run g n : ∀ s i acc,
  (∀ k, i <= k < i + Z.of_nat n → root_free s g k) → 0 <= acc → acc + 512 * Z.of_nat n < 2 ^ 64 →
  ∃ total, root_refcount_loop n i g acc s = Ok (total, s) ∧ acc <= total ∧
    (total = acc ↔ ∀ k, i <= k < i + Z.of_nat n → ∃ tag, granules s !! (g + k) = Some (Gr false GRANULE_STATE_RTT 0 tag)).
Proof using.
  clear L HL. induction n as [|n IH]; intros s i acc Hroots Hacc Hlt.
  { exists acc. split; [done|]. split; [lia|]. split; [intros _ k Hk; lia|done]. }
  destruct (Hroots i ltac:(lia)) as (rc & tag & Hg & Hrc). cbn [root_refcount_loop].
  exec granule_lock_run. exec REFCOUNT_run. exec granule_unlock_run.
  rewrite insert_insert_eq, insert_id by done. rewrite u64_small by (unfold is_u64; lia).
  replace {| granules := granules s; mem := mem s; slots := slots s; vttbr_el2 := vttbr_el2 s;
     tlbi := tlbi s; tags := tags s; csm_ids := csm_ids s; vmids := vmids s |} with s by (by destruct s).
  destruct (IH s (i + 1) (acc + rc)) as (total & Hrun & Hle & Hiff); [|lia|lia|].
  { intros k Hk. apply Hroots. lia. }
  exists total. split; [done|]. split; [lia|]. split.
  - intros Ht. assert (rc = 0) as -> by lia. intros k Hk.
    destruct (decide (k = i)) as [->|]; [by exists tag|]. apply Hiff; lia.
  - intros Hz. destruct (Hz i ltac:(lia)) as (tag' & Hg'). rewrite Hg in Hg'. apply (inj Some) in Hg'.
    apply Gr_inj in Hg' as (_ & _ & -> & _); [|by apply gok_rtt; lia|done].
    rewrite (proj2 Hiff); [lia|]. intros k Hk. apply Hz. lia.
Qed.

(** ** Freeing the roots *)

Lemma free_roots_run g n : ∀ a s,
  slots s !! SLOT_RTT = None →
  (∀ k, Z.of_nat a <= k < Z.of_nat (a + n) →
     has_addr (g + k) ∧ ∃ tag, granules s !! (g + k) = Some (Gr false GRANULE_STATE_RTT 0 tag)) →
  ∃ m mm, mfor (Z.of_nat <$> seq a n) (λ i,
      granule_lock (g + i) GRANULE_STATE_RTT ≫= λ _,
      buffer_granule_memzero (g + i) SLOT_RTT ≫= λ _,
      granule_unlock_transition (g + i) GRANULE_STATE_DELEGATED) s = Ok ((), set_granules m (set_mem mm s)) ∧
    (∀ h, m !! h = if (g + Z.of_nat a <=? h) && (h <? g + Z.of_nat (a + n))
                   then release GRANULE_STATE_DELEGATED <$> granules s !! h else granules s !! h) ∧
    (∀ h, mm !! h = if (g + Z.of_nat a <=? h) && (h <? g + Z.of_nat (a + n)) then Some PZero else mem s !! h).
Proof using L HL.
  induction n as [|n IH]; intros a s Hs Hroots.
  { exists (granules s), (mem s). split; [by destruct s|].
    split; intros h; by destruct (Z.leb_spec (g + Z.of_nat a) h), (Z.ltb_spec h (g + Z.of_nat (a + 0))); [lia|..]. }
  cbn [seq fmap list_fmap mfor]. destruct (Hroots (Z.of_nat a) ltac:(lia)) as (Ha & tag & Hga). assoc.
  exec granule_lock_run. assoc. exec buffer_granule_memzero_run.
  erewrite bind_run; [|eapply granule_unlock_transition_run; [apply lookup_insert_eq|done|done|done]]. st_norm.
  rewrite insert_insert_eq.
  edestruct (IH (S a)) as (m & mm & Hrun & Hm & Hmm); [| |eexists m, mm; split; [exact Hrun|]]; cbn [granules mem slots] in *.
  { done. }
  { intros k Hk. rewrite lookup_insert_ne by lia. apply Hroots. lia. }
  split; intros h; [rewrite Hm|rewrite Hmm]; replace (S a + n)%nat with (a + S n)%nat by lia;
    destruct (decide (h = g + Z.of_nat a)) as [->|Hne].
  - rewrite (proj2 (Z.leb_gt (g + Z.of_nat (S a)) _)), (proj2 (Z.leb_le _ _)), (proj2 (Z.ltb_lt _ (g + Z.of_nat (a + S n)))) by lia.
    by rewrite lookup_insert_eq, Hga.
  - rewrite lookup_insert_ne by done.
    by destruct (Z.leb_spec (g + Z.of_nat (S a)) h), (Z.leb_spec (g + Z.of_nat a) h); [|lia|lia|].
  - rewrite (proj2 (Z.leb_gt (g + Z.of_nat (S a)) _)), (proj2 (Z.leb_le _ _)), (proj2 (Z.ltb_lt _ (g + Z.of_nat (a + S n)))) by lia.
    by rewrite lookup_insert_eq.
  - rewrite lookup_insert_ne by done.
    by destruct (Z.leb_spec (g + Z.of_nat (S a)) h), (Z.leb_spec (g + Z.of_nat a) h); [|lia|lia|].
Qed.

(** ** No table is left *)

(** When the roots are unreferenced, the realm has no other table. *)
Lemma roots_only s s2_ctx T :
  rtt_inv s s2_ctx T →
  (∀ k, 0 <= k < num_root_rtts s2_ctx → ∃ tag, granules s !! (g_rtt s2_ctx + k) = Some (Gr false GRANULE_STATE_RTT 0 tag)) →
  T = root_tables s2_ctx.
Proof using L.
  intros Hinv Hz.
  assert (Hlev : ∀ n : nat, ∀ h c, T !! h = Some (s2_starting_level s2_ctx + Z.of_nat n, c) → n = 0%nat).
  { induction n as [|n IH]; intros h c HT; [done|].
    destruct (inv_parent _ _ _ Hinv h _ c HT ltac:(lia)) as (g & b & t & idx & e & pa & HTg & Ht & He & Htab & _).
    replace (s2_starting_level s2_ctx + Z.of_nat (S n) - 1) with (s2_starting_level s2_ctx + Z.of_nat n) in HTg by lia.
    specialize (IH g b HTg). subst n. rewrite Z.add_0_r in HTg.
    destruct (inv_top _ _ _ Hinv g b HTg) as (k & Hk & ->). destruct (Hz k Hk) as (tag & Hg).
    pose proof (inv_count _ _ _ Hinv _ _ _ _ _ _ HTg Ht Hg ltac:(lia)) as Hc.
    destruct (inv_level _ _ _ Hinv h _ c HT).
    pose proof (table_entry_counted (s2_starting_level s2_ctx) e ltac:(lia) Htab) as Hce.
    assert (e ∈ List.filter (counted (s2_starting_level s2_ctx)) t) as Hin
      by (apply elem_of_filter_list; split; [by eapply list_elem_of_lookup_2|done]).
    unfold count in Hc. destruct (List.filter _ t); [by apply not_elem_of_nil in Hin|]. simpl in Hc. lia. }
  apply map_eq. intros h. destruct (T !! h) as [[j c]|] eqn:HT; cycle 1.
  - destruct (root_tables s2_ctx !! h) as [[j c]|] eqn:Hr; [|done].
    apply root_tables_Some in Hr as (k & Hk & -> & -> & ->). by rewrite (wf_root _ _ _ (inv_wf _ _ _ Hinv) k Hk) in HT.
  - destruct (inv_level _ _ _ Hinv h j c HT) as [Hj _].
    assert (Hj0 := Hlev (Z.to_nat (j - s2_starting_level s2_ctx)) h c).
    replace (s2_starting_level s2_ctx + Z.of_nat (Z.to_nat (j - s2_starting_level s2_ctx))) with j in Hj0 by lia.
    specialize (Hj0 HT). assert (j = s2_starting_level s2_ctx) as -> by lia.
    destruct (inv_top _ _ _ Hinv h c HT) as (k & Hk & ->). symmetry. apply root_tables_Some. exists k.
    rewrite (wf_root _ _ _ (inv_wf _ _ _ Hinv) k Hk) in HT. by simplify_eq.
Qed.
End roots.

Section destroy.
Context {P : Platform} {H : Machine} {CF : Config} {CPU : Cpu} {L : PlatformLaws P} {HL : MachineLaws P H}.

(** The root tables of a realm, seen from the descriptor. *)
Lemma realm_roots s rd_addr g_rd r T :
  realm_at s rd_addr g_rd r T → ∀ k, 0 <= k < num_root_rtts (s2_ctx r) →
  root_free s (g_rtt (s2_ctx r)) k ∧ has_addr (g_rtt (s2_ctx r) + k) ∧ g_rtt (s2_ctx r) + k ≠ g_rd.
Proof using L.
  intros Hra k Hk. pose proof (wf_root _ _ _ (inv_wf _ _ _ (ra_inv _ _ _ _ _ Hra)) k Hk) as HT.
  destruct (wf_table _ _ _ (inv_wf _ _ _ (ra_inv _ _ _ _ _ Hra)) _ _ _ HT) as (_ & Ha & (rc & tag & Hg & Hrc) & _).
  split; [by exists rc, tag|]. split; [done|]. by eapply realm_table_ne.
Qed.

(** No root table holds a reference. *)
Definition roots_unused (s : state) (s2_ctx : s2tt_context) : Prop :=
  ∀ k, 0 <= k < num_root_rtts s2_ctx →
    ∃ tag, granules s !! (g_rtt s2_ctx + k) = Some (Gr false GRANULE_STATE_RTT 0 tag).

Definition is_root (s2_ctx : s2tt_context) (h : Z) : bool :=
  (g_rtt s2_ctx <=? h) && (h <? g_rtt s2_ctx + num_root_rtts s2_ctx).

(** The state in which the realm's granules are delegated and wiped and its VMID is free;
    nothing else changes. *)
Definition destroyed (s : state) (g_rd : Z) (s2_ctx : s2tt_context) (s' : state) : Prop :=
  s' = set_granules (granules s') (set_mem (mem s') (set_vmids (vmid_mark false (vmid s2_ctx) (vmids s)) s)) ∧
  (∀ h, granules s' !! h = if (h =? g_rd) || is_root s2_ctx h
                           then release GRANULE_STATE_DELEGATED <$> granules s !! h else granules s !! h) ∧
  (∀ h, mem s' !! h = if (h =? g_rd) || is_root s2_ctx h then Some PZero else mem s !! h).

Lemma find_lock_unused_realm s rd_addr g_rd r T rc tag :
  realm_at s rd_addr g_rd r T → granules s !! g_rd = Some (Gr false GRANULE_STATE_RD rc tag) → gok GRANULE_STATE_RD rc →
  find_lock_unused_granule rd_addr GRANULE_STATE_RD s
  = if rc =? 0 then Ok ((0, Some g_rd), put_granule g_rd (Gr true GRANULE_STATE_RD 0 tag) s)
    else Ok ((- EBUSY, None), s).
Proof using L.
  intros Hra Hg Hok. unfold find_lock_unused_granule. run_step (find_lock_rd _ _ _ _ _ Hra).
  rewrite (lock_one_Gr _ _ _ _ _ Hg Hok).
  erewrite bind_run by (eapply granule_refcount_read_acquire_run; [apply put_granule_lookup|done|done]).
  destruct (Z.eqb_spec rc 0) as [->|]; cbn [negb]; [done|].
  erewrite bind_run by (eapply granule_unlock_run; [apply put_granule_lookup|done|done|done]).
  by rewrite put_granule_put, put_granule_id.
Qed.

(** Counting the references of the roots while only the descriptor's granule differs. *)
Lemma total_root_run s rd_addr g_rd r T s1 :
  realm_at s rd_addr g_rd r T → (∀ h, h ≠ g_rd → granules s1 !! h = granules s !! h) →
  ∃ total, total_root_rtt_refcount (g_rtt (s2_ctx r)) (num_root_rtts (s2_ctx r)) s1 = Ok (total, s1) ∧
    (total = 0 ↔ roots_unused s (s2_ctx r)).
Proof using L.
  intros Hra Hs1. pose proof (realm_roots _ _ _ _ _ Hra) as Hroots.
  pose proof (wf_num _ _ _ (inv_wf _ _ _ (ra_inv _ _ _ _ _ Hra))) as Hnum.
  destruct (root_refcount_run (g_rtt (s2_ctx r)) (Z.to_nat (num_root_rtts (s2_ctx r))) s1 0 0)
    as (total & Hrun & _ & Hiff); [|lia|lia|].
  { intros k Hk. destruct (Hroots k ltac:(lia)) as ((rck & tagk & Hgk & Hrck) & _ & Hne). exists rck, tagk.
    by rewrite Hs1. }
  exists total. split; [exact Hrun|]. rewrite Hiff.
  split; intros Hz k Hk; destruct (Hroots k ltac:(lia)) as (_ & _ & Hne); destruct (Hz k ltac:(lia)) as (t & Ht);
    exists t; by rewrite Hs1 in *.
Qed.

Lemma is_root_range s2_ctx h :
  (g_rtt s2_ctx + Z.of_nat 0 <=? h) && (h <? g_rtt s2_ctx + Z.of_nat (0 + Z.to_nat (num_root_rtts s2_ctx)))
  = is_root s2_ctx h.
Proof using.
  clear L HL. unfold is_root. rewrite Nat.add_0_l, Z.add_0_r. destruct (Z.leb_spec (g_rtt s2_ctx) h); [|done].
  cbn [andb]. destruct (Z.ltb_spec h (g_rtt s2_ctx + Z.of_nat (Z.to_nat (num_root_rtts s2_ctx)))),
    (Z.ltb_spec h (g_rtt s2_ctx + num_root_rtts s2_ctx)); lia.
Qed.

Lemma is_root_rd s rd_addr g_rd r T : realm_at s rd_addr g_rd r T → is_root (s2_ctx r) g_rd = false.
Proof using L.
  intros Hra. destruct (is_root (s2_ctx r) g_rd) eqn:Hi; [|done]. unfold is_root in Hi.
  destruct (realm_roots _ _ _ _ _ Hra (g_rd - g_rtt (s2_ctx r)) ltac:(lia)) as (_ & _ & Hne). lia.
Qed.

Lemma realm_destroy_run s rd_addr g_rd r T rc tag :
  realm_at s rd_addr g_rd r T → granules s !! g_rd = Some (Gr false GRANULE_STATE_RD rc tag) → gok GRANULE_STATE_RD rc →
  vmids_ok (vmids s) → vmid (s2_ctx r) < vmid_count →
  (rc ≠ 0 ∨ ¬ roots_unused s (s2_ctx r)) ∧ smc_realm_destroy rd_addr s = Ok (RMI_ERROR_REALM, s) ∨
  rc = 0 ∧ roots_unused s (s2_ctx r) ∧ T = root_tables (s2_ctx r) ∧
    ∃ s', smc_realm_destroy rd_addr s = Ok (RMI_SUCCESS, s') ∧ destroyed s g_rd (s2_ctx r) s'.
Proof using L HL.
  intros Hra Hg Hok Hvm Hvc. unfold smc_realm_destroy.
  pose proof (find_lock_unused_realm _ _ _ _ _ _ _ Hra Hg Hok) as Hfind.
  destruct (Z.eqb_spec rc 0) as [->|Hrc]; run_step Hfind; cycle 1.
  { left. split; [by left|]. done. }
  destruct (realm_facts _ _ _ _ _ Hra) as (_ & _ & p & _ & _ & Hadr & Hm & Hp & _ & Hs & _).
  pose proof (realm_roots _ _ _ _ _ Hra) as Hroots. pose proof (ra_inv _ _ _ _ _ Hra) as Hinv.
  pose proof (wf_num _ _ _ (inv_wf _ _ _ Hinv)) as Hnum. pose proof (inv_vmid _ _ _ Hinv) as Hv.
  change (negb (0 =? 0)) with false. cbv iota. rewrite (bind_run _ _ _ _ _ (mderef_run (Some g_rd) g_rd _ eq_refl)).
  pose proof (ra_slots _ _ _ _ _ Hra) as Hsl. st_norm. rewrite Hsl.
  exec map_assert_run. exec read_rd_run. cbv zeta.
  match goal with |- context [(total_root_rtt_refcount _ _ ≫= _) ?st] =>
    destruct (total_root_run s rd_addr g_rd r T st Hra) as (total & Hrun & Hun) end.
  { intros h Hne. cbn [granules]. by rewrite lookup_insert_ne. }
  rewrite (bind_run _ _ _ _ _ Hrun).
  destruct (Z.eqb_spec total 0) as [->|Hne]; cbn [negb]; cycle 1.
  { left. split; [right; by rewrite <- Hun|]. exec buffer_unmap_run. exec granule_unlock_run.
    rewrite insert_insert_eq, insert_id, delete_insert_id by done. rewrite <- Hsl. by destruct s. }
  right. split; [done|]. pose proof (proj1 Hun eq_refl) as Hz. split; [done|]. split; [by eapply roots_only|].
  exec vmid_free_run. exec buffer_unmap_run. rewrite delete_insert_id by done. unfold free_sl_rtts.
  edestruct (free_roots_run (g_rtt (s2_ctx r)) (Z.to_nat (num_root_rtts (s2_ctx r))) 0) as (m & mm & Hfree & Hm' & Hmm);
    [| |rewrite (bind_run _ _ _ _ _ Hfree)].
  { done. }
  { intros k Hk. destruct (Hroots k ltac:(lia)) as (_ & Ha & Hne). destruct (Hz k ltac:(lia)) as (t & Ht).
    split; [done|]. exists t. cbn [granules]. by rewrite lookup_insert_ne. }
  cbn [granules mem] in Hm', Hmm. st_norm. exec buffer_granule_memzero_run.
  setoid_rewrite is_root_range in Hm'. setoid_rewrite is_root_range in Hmm.
  erewrite bind_run; [|eapply granule_unlock_transition_run; [|done|done|done]]; cycle 1.
  { cbn [granules]. by rewrite Hm', (is_root_rd _ _ _ _ _ Hra), lookup_insert_eq. }
  eexists. split; [done|]. split; [|split]; st_norm.
  - by rewrite Hsl.
  - intros h. destruct (Z.eqb_spec h g_rd) as [->|Hne]; cbn [orb].
    + by rewrite lookup_insert_eq, Hg.
    + rewrite lookup_insert_ne, Hm' by done. by rewrite lookup_insert_ne.
  - intros h. destruct (Z.eqb_spec h g_rd) as [->|Hne]; cbn [orb]; [by rewrite lookup_insert_eq|].
    rewrite lookup_insert_ne by done. apply Hmm.
Qed.
(** C8: REALM_DESTROY of a realm always returns. While the descriptor or one of the root
    tables is referenced it answers RMI_ERROR_REALM and changes nothing; otherwise the root
    tables are all the tables the realm has, they and the descriptor become wiped delegated
    granules, the VMID is free again, and nothing else changes. *)
Theorem smc_realm_destroy_spec s rd_addr g_rd r T rc tag :
  realm_at s rd_addr g_rd r T → granules s !! g_rd = Some (Gr false GRANULE_STATE_RD rc tag) → gok GRANULE_STATE_RD rc →
  vmids_ok (vmids s) → vmid (s2_ctx r) < vmid_count →
  (rc ≠ 0 ∨ ¬ roots_unused s (s2_ctx r)) ∧ smc_realm_destroy rd_addr s = Ok (RMI_ERROR_REALM, s) ∨
  rc = 0 ∧ roots_unused s (s2_ctx r) ∧ T = root_tables (s2_ctx r) ∧
    ∃ s', smc_realm_destroy rd_addr s = Ok (RMI_SUCCESS, s') ∧ destroyed s g_rd (s2_ctx r) s'.
Proof using L HL. apply realm_destroy_run. Qed.

(** * REALM_ACTIVATE *)

(** REALM_ACTIVATE of a realm moves it from NEW to ACTIVE and keeps its tables; in any
    other state it answers RMI_ERROR_REALM and changes nothing. Activation happens once: a
    second call is refused. *)
Theorem smc_realm_activate_spec s rd_addr g_rd r T :
  realm_at s rd_addr g_rd r T →
  let r' := set_rd_state REALM_ACTIVE r in
  let s' := set_mem (<[g_rd := PRd r']> (mem s)) s in
  smc_realm_activate rd_addr s
  = (if rd_state r =? REALM_NEW then Ok (RMI_SUCCESS, s') else Ok (RMI_ERROR_REALM, s)) ∧
  realm_at s' rd_addr g_rd r' T ∧ smc_realm_activate rd_addr s' = Ok (RMI_ERROR_REALM, s').
Proof using L HL.
  intros Hra. cbv zeta.
  assert (Hall : ∀ s r, realm_at s rd_addr g_rd r T → smc_realm_activate rd_addr s
    = if rd_state r =? REALM_NEW
      then Ok (RMI_SUCCESS, set_mem (<[g_rd := PRd (set_rd_state REALM_ACTIVE r)]> (mem s)) s)
      else Ok (RMI_ERROR_REALM, s)).
  { clear s r Hra. intros s r Hra. unfold smc_realm_activate.
    destruct (realm_facts _ _ _ _ _ Hra) as (rc & tag & p & Hg & Hok & Hadr & Hm & Hp & Hfind & _).
    run_step Hfind. pose proof (ra_slots _ _ _ _ _ Hra) as Hsl. st_norm. rewrite Hsl.
    exec map_assert_run. exec read_rd_run. unfold get_rd_state_locked. destruct (rd_state r =? REALM_NEW); steps.
    - exec write_page_run. rewrite ret_bind. exec buffer_unmap_run. exec granule_unlock_run.
      rewrite insert_insert_eq, insert_id, delete_insert_id by done. done.
    - exec buffer_unmap_run. exec granule_unlock_run.
      rewrite insert_insert_eq, insert_id, delete_insert_id by done. rewrite <- Hsl. by destruct s. }
  split; [by apply Hall|]. pose proof (realm_at_rd _ _ _ _ _ (set_rd_state REALM_ACTIVE r) Hra eq_refl) as Hra'.
  split; [done|]. by rewrite (Hall _ _ Hra').
Qed.
End destroy.

(** * Create and destroy *)

Section roundtrip.
Context {P : Platform} {H : Machine} {CF : Config} {CPU : Cpu} {C : Crypto}.
Context {L : PlatformLaws P} {HL : MachineLaws P H} {CL : CpuLaws CPU} {CRL : CryptoLaws C}.

(** Wiping a new realm's granules again gives back what they were made from. *)
Lemma destroyed_created s p rd_addr g_rd b m s' s'' :
  create_ready (set_vmids (vmid_mark true (p_vmid p) (vmids s)) s) p rd_addr g_rd b →
  vmids_ok (vmids s) → 0 <= p_vmid p < 2 ^ 16 → vmid_used (vmids s) (p_vmid p) = false →
  created (set_vmids (vmid_mark true (p_vmid p) (vmids s)) s) p g_rd b m s' →
  destroyed s' g_rd (s2_ctx (new_rd p b)) s'' → s'' = s.
Proof using L HL.
  intros Hcr Hvm Hv Hvu (Hs' & Hm & Hmem) (Hs'' & Hg'' & Hm'').
  assert (Hgr : granules s' = m) by (by rewrite Hs').
  destruct (cr_rd_granule _ _ _ _ _ Hcr) as (_ & _ & Hrdm & tag & Hrdg).
  assert (Hroot : ∀ h, is_root (s2_ctx (new_rd p b)) h = true → mem s !! h = Some PZero ∧
    ∃ t, granules s !! h = Some (Gr false GRANULE_STATE_DELEGATED 0 t)).
  { intros h Hh. unfold is_root in Hh. cbn [s2_ctx new_rd set_rd_rim init_rd g_rtt num_root_rtts] in Hh.
    destruct (cr_root _ _ _ _ _ Hcr (h - b) ltac:(lia)) as (_ & _ & Hz & _ & t & Ht).
    replace (b + (h - b)) with h in * by lia. split; [done|by exists t]. }
  assert (Hgs : granules s'' = granules s).
  { apply map_eq. intros h. rewrite Hg'', Hgr, Hm.
    destruct (Z.eqb_spec h g_rd) as [->|Hne]; cbn [orb]; [by rewrite Hrdg|].
    change ((b <=? h) && (h <? b + p_rtt_num_start p)) with (is_root (s2_ctx (new_rd p b)) h).
    destruct (is_root _ h) eqn:Hr; [|done]. destruct (Hroot h Hr) as (_ & t & Ht). cbn [set_vmids granules]. by rewrite Ht. }
  assert (Hms : mem s'' = mem s).
  { apply map_eq. intros h. rewrite Hm'', Hmem.
    destruct (Z.eqb_spec h g_rd) as [->|Hne]; cbn [orb]; [by rewrite <- Hrdm|].
    change ((b <=? h) && (h <? b + p_rtt_num_start p)) with (is_root (s2_ctx (new_rd p b)) h).
    destruct (is_root _ h) eqn:Hr; [|done]. by destruct (Hroot h Hr) as (-> & _). }
  rewrite Hs'', Hgs, Hms, Hs'. cbn [s2_ctx new_rd set_rd_rim init_rd vmid].
  unfold set_granules, set_mem, set_vmids; cbn. rewrite vmid_mark_undo by done. by destruct s.
Qed.

(** C9: creating a realm and destroying it again gives back the state before, granules,
    memory and VMIDs included. *)
Theorem realm_create_destroy s rd_addr params_addr :
  quiescent s → slots s = ∅ → vmids_ok (vmids s) → delegated_wiped s → is_u64 rd_addr → is_u64 params_addr →
  is_Some (create_request s rd_addr params_addr) →
  ∃ s', smc_realm_create rd_addr params_addr s = Ok (RMI_SUCCESS, s') ∧
        smc_realm_destroy rd_addr s' = Ok (RMI_SUCCESS, s).
Proof using L HL CL CRL.
  intros Hq Hs Hvm Hw Hr Hp [[[p g_rd] b] Hreq].
  destruct (create_ready_request _ _ _ _ _ _ Hq Hs Hw Hr Hreq) as (Hcr & Hv & Hvc & Hvu).
  destruct (create_locked_run _ _ _ _ _ Hcr) as (m & s' & Hrun & Hcreated).
  exists s'. rewrite (smc_realm_create_request s rd_addr params_addr Hq Hs Hvm Hr Hp), Hreq. split; [done|].
  pose proof (created_realm _ _ _ _ _ Hcr m s' Hv Hcreated) as Hra. pose proof Hcreated as (Hs' & Hm & _).
  assert (Hgr : granules s' = m) by (by rewrite Hs').
  destruct (cr_rd_granule _ _ _ _ _ Hcr) as (_ & _ & _ & tag & Hrdg).
  destruct (realm_destroy_run s' rd_addr g_rd (new_rd p b) _ 0 tag Hra) as [[[?|Hne] _]|(_ & _ & _ & s'' & Hd & Hds)].
  - by rewrite Hgr, Hm, Z.eqb_refl, Hrdg.
  - done.
  - rewrite Hs'. by apply vmid_mark_ok.
  - done.
  - done.
  - destruct Hne. intros k Hk. cbn [s2_ctx new_rd set_rd_rim init_rd g_rtt num_root_rtts] in *.
    destruct (cr_root _ _ _ _ _ Hcr k Hk) as (_ & _ & _ & Hne & t & Ht). exists t.
    rewrite Hgr, Hm, (proj2 (Z.eqb_neq _ _)), (proj2 (Z.leb_le _ _)), (proj2 (Z.ltb_lt _ _)), Ht by (done || lia). done.
  - by rewrite Hd, (destroyed_created s p rd_addr g_rd b m s' s'' Hcr Hvm Hv Hvu Hcreated Hds).
Qed.
End roundtrip.

Lemma create_vmids : vmids_ok (vmids create_state).
Proof. split; [done|by apply Forall_replicate]. Qed.

Lemma realm_create_destroy_witness :
  ∃ s', smc_realm_create (P := create_platform) (H := bytes_machine request_bytes) (CF := arm_config)
    (CPU := demo_cpu) (C := toy_crypto) 0 (5 * 4096) create_state = Ok (RMI_SUCCESS, s') ∧
    smc_realm_destroy (P := create_platform) (H := bytes_machine request_bytes) (CF := arm_config)
    (CPU := demo_cpu) 0 s' = Ok (RMI_SUCCESS, create_state).
Proof.
  apply (realm_create_destroy (P := create_platform) (H := bytes_machine request_bytes) (CF := arm_config)
    (CPU := demo_cpu) (C := toy_crypto) (L := create_laws) (HL := create_machine_laws) (CL := demo_cpu_laws)
    (CRL := toy_laws) create_state 0 (5 * 4096) create_quiescent eq_refl create_vmids create_wiped).
  - done.
  - done.
  - rewrite request_granted. by eexists.
Defined.

(** A realm whose tables are in use is not destroyed. *)
Lemma smc_realm_destroy_spec_witness :
  smc_realm_destroy (P := demo_platform) (H := zero_machine) (CF := arm_config) (CPU := demo_cpu) 0
    (demo_state (replicate 512 0) 0) = Ok (RMI_ERROR_REALM, demo_state (replicate 512 0) 0).
Proof.
  destruct (smc_realm_destroy_spec (P := demo_platform) (H := zero_machine) (CF := arm_config) (CPU := demo_cpu)
    (L := demo_laws) (HL := demo_machine_laws) (demo_state (replicate 512 0) 0) 0 0 demo_rd demo_tables 0 17)
    as [[_ Hd]|(_ & Hun & _)].
  - exact demo_realm_at.
  - reflexivity.
  - done.
  - split; [done|by apply Forall_replicate].
  - vm_compute. reflexivity.
  - exact Hd.
  - destruct (Hun 0 ltac:(done)) as (tag & Hg).
    change (Some (Gr false GRANULE_STATE_RTT 1 0) = Some (Gr false GRANULE_STATE_RTT 0 tag)) in Hg.
    apply (inj Some) in Hg. by apply Gr_inj in Hg as (_ & _ & ? & _).
Defined.

Lemma smc_realm_activate_spec_witness :
  smc_realm_activate (P := demo_platform) (H := zero_machine) 0 (demo_state (replicate 512 0) 0)
  = Ok (RMI_SUCCESS, set_mem (<[0 := PRd (set_rd_state REALM_ACTIVE demo_rd)]> (mem (demo_state (replicate 512 0) 0)))
                       (demo_state (replicate 512 0) 0)).
Proof.
  exact (proj1 (smc_realm_activate_spec (P := demo_platform) (H := zero_machine) (CF := arm_config)
    (L := demo_laws) (HL := demo_machine_laws) (demo_state (replicate 512 0) 0) 0 0 demo_rd demo_tables demo_realm_at)).
Defined.
