(* ===== verification/Rec.v ===== *)
(** The REC commands of runtime/rmi/rec.c: REC_CREATE with the initialisation of the REC and of
    its auxiliary granules, REC_DESTROY and REC_AUX_COUNT. PSCI_COMPLETE is in Psci. *)
From S2P Require Import Prelude Types Granule Platform GranuleFind S2tte S2tt Measurement Buffer Walk Exec Realm Rtt Feature Rsi Gic Mpidr Psci RealmCmd.

(** * Parameters (lib/smc/include/smc-rmi.h) *)

(** [struct rmi_rec_params]: the members that are measured, and the others. *)
Record rec_params := {
  c_measured : rmi_rec_params;
  c_mpidr : Z;
  c_num_aux : Z;
  c_aux : list Z;
}.

(** [n] 8-byte members from offset [off]. *)
Definition array_at (off n : nat) (bytes : list Z) : list Z := (λ i, member_at (off + 8 * i) 8 bytes) <$> seq 0 n.

Definition rec_params_of_bytes (bytes : list Z) : rec_params :=
  {| c_measured := {| cp_flags := member_at 0 8 bytes; cp_pc := member_at 512 8 bytes;
                      cp_gprs := array_at 768 8 bytes |};
     c_mpidr := member_at 256 8 bytes;
     c_num_aux := member_at 2048 8 bytes;
     c_aux := array_at 2056 (Z.to_nat MAX_REC_AUX_GRANULES) bytes |}.

Definition REC_PARAMS_FLAG_RUNNABLE : Z := 1 .<< 0.

(** * Register values (lib/arch/include/arch.h) *)

(** The value of MDCR_EL2, and the options of the build. *)
Class RecEnv := { read_mdcr_el2 : Z; ENABLE_OPENCCA_PERF : bool; RMM_CCA_TOKEN_BUFFER : Z }.

Definition PMCR_EL0_LC_BIT : Z := 1 .<< 6.
Definition PMCR_EL0_DP_BIT : Z := 1 .<< 5.
Definition PMCR_EL0_C_BIT : Z := 1 .<< 2.
Definition PMCR_EL0_P_BIT : Z := 1 .<< 1.
Definition PMCR_EL0_INIT : Z := PMCR_EL0_LC_BIT .| PMCR_EL0_DP_BIT.
Definition PMCR_EL0_INIT_RESET : Z := PMCR_EL0_INIT .| PMCR_EL0_C_BIT .| PMCR_EL0_P_BIT.
Definition MDSCR_EL1_TDCC_BIT : Z := 1 .<< 12.
Definition CNTHCTL_EL2_EL1PCTEN : Z := 1 .<< 10.
Definition CNTHCTL_EL2_EL1PTEN : Z := 1 .<< 11.
Definition CNTHCTL_EL2_NO_TRAPS : Z := CNTHCTL_EL2_EL1PCTEN .| CNTHCTL_EL2_EL1PTEN.

Definition CPTR_EL2_VHE_TTA : Z := 1 .<< 28.
Definition CPTR_EL2_VHE_TAM {CF : Config} : Z := if ENABLE_OPENCCA then 0 else 1 .<< 30.
Definition CPTR_EL2_VHE_FPEN : bitfield := {| fshift := 20; fwidth := 2 |}.
Definition CPTR_EL2_VHE_ZEN : bitfield := {| fshift := 16; fwidth := 2 |}.
Definition CPTR_EL2_VHE_SMEN : bitfield := {| fshift := 24; fwidth := 2 |}.
Definition CPTR_EL2_VHE_SIMD_MASK : Z := MASK_F CPTR_EL2_VHE_FPEN .| MASK_F CPTR_EL2_VHE_ZEN .| MASK_F CPTR_EL2_VHE_SMEN.
Definition CPTR_EL2_VHE_INIT {CF : Config} : Z :=
  if ENABLE_OPENCCA then INPLACE_F CPTR_EL2_VHE_FPEN 0
  else INPLACE_F CPTR_EL2_VHE_ZEN 0 .| INPLACE_F CPTR_EL2_VHE_SMEN 0 .| INPLACE_F CPTR_EL2_VHE_FPEN 0 .|
       CPTR_EL2_VHE_TTA .| CPTR_EL2_VHE_TAM.

Definition VTCR_T0SZ : bitfield := {| fshift := 0; fwidth := 6 |}.
Definition VTCR_SL0 : bitfield := {| fshift := 6; fwidth := 2 |}.
Definition VTCR_SL0_4K_L2 : Z := INPLACE_F VTCR_SL0 0.
Definition VTCR_SL0_4K_L1 : Z := INPLACE_F VTCR_SL0 1.
Definition VTCR_SL0_4K_L0 : Z := INPLACE_F VTCR_SL0 2.
Definition VTCR_SL0_4K_L3 : Z := INPLACE_F VTCR_SL0 3.
Definition VTCR_SL0_4K_LM1 : Z := VTCR_SL0_4K_L2.
Definition VTCR_SL2 : bitfield := {| fshift := 33; fwidth := 1 |}.
Definition VCTR_SL2_4K_LM1 : Z := INPLACE_F VTCR_SL2 1.
Definition VTCR_DS : bitfield := {| fshift := 32; fwidth := 1 |}.
Definition VTCR_DS_52BIT : Z := INPLACE_F VTCR_DS 1.
Definition VTCR_IRGN0 : bitfield := {| fshift := 8; fwidth := 2 |}.
Definition VTCR_IRGN0_WBRAWA : Z := INPLACE_F VTCR_IRGN0 1.
Definition VTCR_ORGN0 : bitfield := {| fshift := 10; fwidth := 2 |}.
Definition VTCR_ORGN0_WBRAWA : Z := INPLACE_F VTCR_ORGN0 1.
Definition VTCR_SH0 : bitfield := {| fshift := 12; fwidth := 2 |}.
Definition VTCR_SH0_IS : Z := INPLACE_F VTCR_SH0 3.
Definition VTCR_TG0 : bitfield := {| fshift := 14; fwidth := 2 |}.
Definition VTCR_TG0_4K : Z := INPLACE_F VTCR_TG0 0.
Definition VTCR_PS : bitfield := {| fshift := 16; fwidth := 3 |}.
Definition VTCR_VS : Z := 1 .<< 19.
Definition VTCR_NSA : Z := 1 .<< 30.
Definition VTCR_RES1 : Z := 1 .<< 31.
Definition VTCR_FLAGS : Z :=
  VTCR_IRGN0_WBRAWA .| VTCR_ORGN0_WBRAWA .| VTCR_SH0_IS .| VTCR_TG0_4K .| VTCR_NSA .| VTCR_RES1.

Definition HCR_BSU : bitfield := {| fshift := 10; fwidth := 2 |}.
Definition HCR_BSU_IS : Z := INPLACE_F HCR_BSU 1.
Definition HCR_FWB {CF : Config} : Z := if ENABLE_OPENCCA then 0 else 1 .<< 46.
Definition HCR_TEA {CF : Config} : Z := if ENABLE_OPENCCA then 0 else 1 .<< 37.
Definition HCR_API {CF : Config} : Z := if ENABLE_OPENCCA then 0 else 1 .<< 41.
Definition HCR_APK {CF : Config} : Z := if ENABLE_OPENCCA then 0 else 1 .<< 40.
Definition HCR_E2H : Z := 1 .<< 34.
Definition HCR_RW : Z := 1 .<< 31.
Definition HCR_TVM : Z := 1 .<< 26.
Definition HCR_TSC : Z := 1 .<< 19.
Definition HCR_TID3 : Z := 1 .<< 18.
Definition HCR_AMO : Z := 1 .<< 5.
Definition HCR_IMO : Z := 1 .<< 4.
Definition HCR_FMO : Z := 1 .<< 3.
Definition HCR_PTW : Z := 1 .<< 2.
Definition HCR_SWIO : Z := 1 .<< 1.
Definition HCR_VM : Z := 1 .<< 0.
Definition HCR_REALM_OPENCCA_FLAGS {CF : Config} : Z := if ENABLE_OPENCCA then HCR_TVM else 0.
Definition HCR_REALM_FLAGS {CF : Config} : Z :=
  HCR_FWB .| HCR_E2H .| HCR_RW .| HCR_TSC .| HCR_AMO .| HCR_BSU_IS .| HCR_IMO .| HCR_FMO .| HCR_PTW .| HCR_SWIO .|
  HCR_VM .| HCR_TID3 .| HCR_REALM_OPENCCA_FLAGS .| HCR_TEA .| HCR_API .| HCR_APK.

Definition TTBRx_EL2_BADDR : bitfield := {| fshift := 1; fwidth := 47 |}.
Definition TTBRx_EL2_BADDR_MSB_LPA2 : bitfield := {| fshift := 2; fwidth := 4 |}.
Definition EL2_BADDR_MSB_LPA2 : bitfield := {| fshift := 48; fwidth := 4 |}.
Definition VTTBR_EL2_VMID : bitfield := {| fshift := 48; fwidth := 16 |}.
Definition MDCR_EL2_TPM_BIT : Z := 1 .<< 6.
Definition MDCR_EL2_TPMCR_BIT : Z := 1 .<< 5.
Definition MDCR_EL2_HPMN : bitfield := {| fshift := 0; fwidth := 5 |}.
Definition ZCR_EL2_LEN : bitfield := {| fshift := 0; fwidth := 4 |}.

(** * SIMD contexts (lib/arch/include/simd.h, lib/arch/src/simd.c) *)

Definition SIMD_TFLAG_SVE : Z := 1.
Definition SIMD_TFLAG_SME : Z := 2.
Definition SIMD_SFLAG_INIT_DONE : Z := 1.
Definition SIMD_SFLAG_SAVED : Z := 2.
Definition SIMD_OWNER_NWD : Z := 1.
Definition SIMD_OWNER_REL1 : Z := 2.

Definition page_simd (p : page) : option simd_context :=
  match p with PZero => Some simd_context_zero | PSimd c => Some c | _ => None end.

Definition SIMD_ENABLE_CPTR_FLAGS (cfg : simd_config) (cptr_val : Z) : Z :=
  let v := cptr_val .& .~ CPTR_EL2_VHE_SIMD_MASK in
  let v := v .| INPLACE_F CPTR_EL2_VHE_FPEN 3 in
  let v := if sve_en cfg then v .| INPLACE_F CPTR_EL2_VHE_ZEN 3 else v in
  if sme_en cfg then v .| INPLACE_F CPTR_EL2_VHE_SMEN 3 else v.

Section simd.
Context {CF : Config} {CPU : Cpu}.

Definition is_ctx_init_done (ctx : simd_context) : bool := negb ((sc_sflags ctx .& SIMD_SFLAG_INIT_DONE) =? 0).

(** [true] for the answer 0. *)
Definition validate_simd_config (cfg : simd_config) : bool :=
  if sve_en cfg && (negb (sve_en g_simd_cfg) || (sve_vq g_simd_cfg <? sve_vq cfg)) then false
  else if sme_en cfg && negb (sme_en g_simd_cfg) then false
  else true.

(** The context after a call that answers 0; [None] for the answer -1. *)
Definition simd_context_init (owner : Z) (ctx : simd_context) (cfg : simd_config) : option simd_context :=
  if negb g_simd_init_done || is_ctx_init_done ctx then None
  else if negb (owner =? SIMD_OWNER_REL1) && negb (owner =? SIMD_OWNER_NWD) then None
  else if negb (validate_simd_config cfg) then None
  else
    let sflags := if owner =? SIMD_OWNER_REL1 then sc_sflags ctx .| SIMD_SFLAG_SAVED
                  else sc_sflags ctx .& u32 (.~ SIMD_SFLAG_SAVED) in
    let cptr := SIMD_ENABLE_CPTR_FLAGS cfg CPTR_EL2_VHE_INIT in
    let tflags := if sve_en cfg then sc_tflags ctx .| SIMD_TFLAG_SVE else sc_tflags ctx in
    let zcr := if sve_en cfg then 0 .| INPLACE_F ZCR_EL2_LEN (sve_vq cfg) else sc_zcr_el2 ctx in
    let tflags := if sme_en cfg then tflags .| SIMD_TFLAG_SME else tflags in
    let svcr := if sme_en cfg then 0 else sc_svcr ctx in
    Some {| sc_owner := owner; sc_tflags := tflags; sc_sflags := sflags .| SIMD_SFLAG_INIT_DONE;
            sc_cptr_el2 := cptr; sc_svcr := svcr; sc_zcr_el2 := zcr |}.
End simd.

(** * Initial state of a REC *)

Section reccmd.
Context {P : Platform} {H : Machine} {CF : Config} {CPU : Cpu} {RE : RecEnv} {C : Crypto}.

Definition init_rec_sysregs (r : rec) (rec_mpidr : Z) : rec :=
  let y := sysregs r in
  set_sysregs
    {| elr_el1 := elr_el1 y; spsr_el1 := spsr_el1 y;
       pmcr_el0 := if ENABLE_OPENCCA_PERF then pmcr_el0 y
                   else if inf_pmu_enabled (realm_info r) then PMCR_EL0_INIT_RESET else PMCR_EL0_INIT;
       sctlr_el1 := SCTLR_EL1_FLAGS; esr_el1 := esr_el1 y; far_el1 := far_el1 y; vbar_el1 := vbar_el1 y;
       mdscr_el1 := MDSCR_EL1_TDCC_BIT; cnthctl_el2 := CNTHCTL_EL2_NO_TRAPS; gicstate := gicstate y;
       vmpidr_el2 := rec_mpidr_to_mpidr rec_mpidr .| VMPIDR_EL2_RES1; hcr_el2 := hcr_el2 y;
       cptr_el2 := CPTR_EL2_VHE_INIT |} r.

Definition sl0_val : list Z := [VTCR_SL0_4K_LM1; VTCR_SL0_4K_L0; VTCR_SL0_4K_L1; VTCR_SL0_4K_L2; VTCR_SL0_4K_L3].

Definition realm_vtcr_ps (parange : Z) : Z :=
  if parange =? 36 then INPLACE_F VTCR_PS 1
  else if parange =? 40 then INPLACE_F VTCR_PS 2
  else if parange =? 42 then INPLACE_F VTCR_PS 3
  else if parange =? 44 then INPLACE_F VTCR_PS 4
  else if parange =? 48 then INPLACE_F VTCR_PS 5
  else if parange =? 52 then INPLACE_F VTCR_PS 6
  else INPLACE_F VTCR_PS 0.

Definition realm_vtcr (d : rd) : result Z :=
  let vtcr := if is_feat_vmid16_present then VTCR_FLAGS .| VTCR_VS else VTCR_FLAGS in
  arch_feat_get_pa_width ≫= λ parange,
  let sl := realm_rtt_starting_level d in
  let lpa2 := enable_lpa2 (s2_ctx d) in
  rassert (negb lpa2 && (S2TT_MIN_STARTING_LEVEL <=? sl) || lpa2 && (S2TT_MIN_STARTING_LEVEL_LPA2 <=? sl)) ≫= λ _,
  rassert (sl <=? S2TT_PAGE_LEVEL) ≫= λ _,
  aget sl0_val (sl + 1) ≫= λ sl0,
  let t0sz := (64 .- realm_ipa_bits d) .& MASK_F VTCR_T0SZ in
  let vtcr := vtcr .| t0sz .| sl0 .| realm_vtcr_ps parange in
  Ok (if lpa2 then (if sl =? -1 then vtcr .| VCTR_SL2_4K_LM1 else vtcr) .| VTCR_DS_52BIT else vtcr).

(** [mdcr_el2_val] for a realm with or without a PMU. *)
Definition realm_mdcr (d : rd) : Z :=
  if pmu_enabled d then
    let v := read_mdcr_el2 .& .~ (MDCR_EL2_TPM_BIT .| MDCR_EL2_TPMCR_BIT) in
    (v .& .~ (MASK_F MDCR_EL2_HPMN)) .| INPLACE_F MDCR_EL2_HPMN (pmu_num_ctrs d)
  else read_mdcr_el2 .| (MDCR_EL2_TPM_BIT .| MDCR_EL2_TPMCR_BIT).

Definition init_common_sysregs (r : rec) (d : rd) : result rec :=
  realm_vtcr d ≫= λ vtcr,
  granule_addr (g_rtt (s2_ctx d)) ≫= λ rtt_addr,
  let vttbr := rtt_addr .& MASK_F TTBRx_EL2_BADDR in
  let vttbr := if enable_lpa2 (s2_ctx d)
               then (vttbr .& .~ (MASK_F TTBRx_EL2_BADDR_MSB_LPA2)) .|
                    INPLACE_F TTBRx_EL2_BADDR_MSB_LPA2 (EXTRACT_F EL2_BADDR_MSB_LPA2 rtt_addr)
               else vttbr in
  Ok (set_common_sysregs
        {| c_vttbr_el2 := vttbr .| INPLACE_F VTTBR_EL2_VMID (vmid (s2_ctx d)); c_vtcr_el2 := vtcr;
           c_hcr_el2 := HCR_REALM_FLAGS; c_mdcr_el2 := realm_mdcr d |} r).

Definition init_rec_regs (r : rec) (p : rec_params) (d : rd) : result rec :=
  fill_regs REC_CREATE_NR_GPRS 0 (aget (cp_gprs (c_measured p))) (regs r) ≫= λ l,
  let r := set_pstate PSTATE_RESET (set_pc (cp_pc (c_measured p)) (set_regs l r)) in
  init_common_sysregs (init_rec_sysregs r (c_mpidr p)) d.

(** * Auxiliary granules *)

Definition REC_HEAP_PAGES : Z := 2.
Definition REC_PMU_PAGES : Z := 1.
Definition REC_SIMD_PAGES : Z := 3.
Definition REC_ATTEST_PAGES : Z := 1.
Definition REC_NUM_PAGES : Z := REC_HEAP_PAGES + REC_PMU_PAGES + REC_SIMD_PAGES + REC_ATTEST_PAGES + RMM_CCA_TOKEN_BUFFER.

Fixpoint free_aux_loop (l : list Z) (i : Z) (scrub : bool) : M state () :=
  match l with
  | [] => mret ()
  | g_rec_aux :: l' =>
      granule_lock g_rec_aux GRANULE_STATE_REC_AUX ≫= λ _,
      mwhen scrub (buffer_granule_memzero g_rec_aux (SLOT_REC_AUX0 + i)) ≫= λ _,
      granule_unlock_transition g_rec_aux GRANULE_STATE_DELEGATED ≫= λ _,
      free_aux_loop l' (i + 1) scrub
  end.

Definition free_rec_aux_granules (rec_aux : list Z) (cnt : Z) (scrub : bool) : M state () :=
  free_aux_loop (take (Z.to_nat cnt) rec_aux) 0 scrub.

(** [simd_ctx] is the buffer at [r->aux_data.simd_ctx]. *)
Definition rec_simd_state_init (r : rec) (simd_ctx : Z) : M state () :=
  read_page simd_ctx ≫= λ p, mderef (page_simd p) ≫= λ ctx,
  match simd_context_init SIMD_OWNER_REL1 ctx (inf_simd_cfg (realm_info r)) with
  | None => massert false
  | Some ctx => write_page simd_ctx (PSimd ctx)
  end.

(** The buffers of the auxiliary granules follow each other, so that the offsets in pages of
    [aux_data] are slots: heap, PMU state, SIMD context. *)
Definition rec_aux_granules_init (r : rec) : M state () :=
  buffer_aux_granules_map (g_aux r) (rec_num_aux r) ≫= λ orec_aux,
  massert (bool_decide (is_Some orec_aux)) ≫= λ _,
  mderef orec_aux ≫= λ rec_aux,
  massert (REC_NUM_PAGES <=? rec_num_aux r) ≫= λ _,
  let pmu := rec_aux + REC_HEAP_PAGES in
  let simd_ctx := pmu + REC_PMU_PAGES in
  rec_simd_state_init r simd_ctx ≫= λ _,
  buffer_aux_unmap rec_aux (rec_num_aux r).

(** The loop that takes the auxiliary granules, [n] left, [gs] taken; [None]: it failed. *)
Fixpoint take_aux_loop (n : nat) (i : Z) (aux gs : list Z) : M state (option (list Z)) :=
  match n with
  | O => mret (Some gs)
  | S n' =>
      lift (aget aux i) ≫= λ addr,
      find_lock_granule addr GRANULE_STATE_DELEGATED ≫= λ g_rec_aux,
      match g_rec_aux with
      | None =>
          mfor gs granule_unlock ≫= λ _,
          free_rec_aux_granules gs i false ≫= λ _, mret None
      | Some g_rec_aux =>
          granule_unlock_transition g_rec_aux GRANULE_STATE_REC_AUX ≫= λ _,
          take_aux_loop n' (i + 1) aux (gs ++ [g_rec_aux])
      end
  end.

(** * REC_CREATE *)

(** The copy of the granules to [rec->g_aux], and [rec->num_rec_aux]. *)
Definition set_g_aux (v : list Z) (n : Z) (r : rec) : rec :=
  {| g_rec := g_rec r; rec_idx := rec_idx r; runnable := runnable r; regs := regs r; pc := pc r; pstate := pstate r;
     sysregs := sysregs r; common_sysregs := common_sysregs r; set_ripas := set_ripas r; realm_info := realm_info r;
     last_run := last_run r; psci_pending := psci_pending r; rec_num_aux := n;
     g_aux := v ++ drop (length v) (g_aux r); serror := serror r; host_call := host_call r |}.
Definition set_rec_id (g idx : Z) (r : rec) : rec :=
  {| g_rec := g; rec_idx := idx; runnable := runnable r; regs := regs r; pc := pc r; pstate := pstate r;
     sysregs := sysregs r; common_sysregs := common_sysregs r; set_ripas := set_ripas r; realm_info := realm_info r;
     last_run := last_run r; psci_pending := psci_pending r; rec_num_aux := rec_num_aux r; g_aux := g_aux r;
     serror := serror r; host_call := host_call r |}.

(** The REC from [rec->g_rec = g_rec] to [rec->runnable = ...]. *)
Definition init_rec (g_rec rec_idx g_rd : Z) (p : rec_params) (aux : list Z) (num_aux : Z) (d : rd) (r : rec) : result rec :=
  let r := set_rec_id g_rec rec_idx r in
  init_rec_regs r p d ≫= λ r,
  let r := set_sysregs (set_gicstate (gic_cpu_state_init (gicstate (sysregs r))) (sysregs r)) r in
  let r := set_g_aux aux num_aux r in
  let r := set_realm_info {| inf_g_rd := g_rd; inf_pmu_enabled := pmu_enabled d; inf_pmu_num_ctrs := pmu_num_ctrs d;
                             inf_algorithm := algorithm d; inf_simd_cfg := simd_cfg d; inf_s2_ctx := s2_ctx d |} r in
  Ok (set_runnable (negb ((cp_flags (c_measured p) .& REC_PARAMS_FLAG_RUNNABLE) =? 0)) r).

(** Between the mapping of the two granules and their unmapping: the answer. *)
Definition create_rec (p : rec_params) (g_rec g_rd recp rdp : Z) (aux : list Z) (num_aux : Z) : M state Z :=
  read_rd rdp ≫= λ d,
  if negb (get_rd_state_locked d =? REALM_NEW) then mret RMI_ERROR_REALM
  else
    let rec_idx := get_rd_rec_count_locked d in
    if negb (rec_mpidr_is_valid (c_mpidr p)) || negb (rec_idx =? rec_mpidr_to_idx (c_mpidr p)) then mret RMI_ERROR_INPUT
    else if negb (num_aux =? num_rec_aux d) then mret RMI_ERROR_INPUT
    else
      read_rec recp ≫= λ r,
      lift (init_rec g_rec rec_idx g_rd p aux num_aux d r) ≫= λ r,
      write_page recp (PRec r) ≫= λ _,
      (if runnable r then
         lift (measurement_rec_params_measure (rim d) (algorithm d) (c_measured p)) ≫= λ m,
         write_page rdp (PRd (set_rd_rim m d))
       else mret ()) ≫= λ _,
      atomic_granule_get g_rd ≫= λ _,
      rec_aux_granules_init r ≫= λ _,
      read_rd rdp ≫= λ d,
      write_page rdp (PRd (set_rd_rec_count (rec_idx .+ 1) d)) ≫= λ _,
      mret RMI_SUCCESS.

(** With the two granules locked: the answer, before the auxiliary granules are given back. *)
Definition rec_create_locked (p : rec_params) (g_rec g_rd : Z) (aux : list Z) (num_aux : Z) : M state Z :=
  granule_refcount_read g_rd ≫= λ refcount,
  (if refcount =? REFCOUNT_MAX then mret RMI_ERROR_REALM
   else
     map_assert g_rec SLOT_REC ≫= λ recp,
     map_assert g_rd SLOT_RD ≫= λ rdp,
     create_rec p g_rec g_rd recp rdp aux num_aux ≫= λ ret,
     buffer_unmap rdp ≫= λ _,
     buffer_unmap recp ≫= λ _, mret ret) ≫= λ ret,
  granule_unlock g_rd ≫= λ _,
  granule_unlock_transition g_rec (if ret =? RMI_SUCCESS then GRANULE_STATE_REC else GRANULE_STATE_DELEGATED) ≫= λ _,
  mret ret.

Definition smc_rec_create (rd_addr rec_addr rec_params_addr : Z) : M state Z :=
  lift (find_granule rec_params_addr) ≫= λ og_params,
  match og_params with
  | None => mret RMI_ERROR_INPUT
  | Some g_rec_params =>
      granule_unlocked_state g_rec_params ≫= λ st,
      if negb (st =? GRANULE_STATE_NS) then mret RMI_ERROR_INPUT
      else
        ns_buffer_read SLOT_NS g_rec_params 0 4096 ≫= λ '(ns_access_ok, bytes),
        if negb ns_access_ok then mret RMI_ERROR_INPUT
        else
          let p := rec_params_of_bytes bytes in
          let num_rec_aux := u32 (c_num_aux p) in
          if MAX_REC_AUX_GRANULES <? num_rec_aux then mret RMI_ERROR_INPUT
          else
            take_aux_loop (Z.to_nat num_rec_aux) 0 (c_aux p) [] ≫= λ oaux,
            match oaux with
            | None => mret RMI_ERROR_INPUT
            | Some aux =>
                find_lock_two_granules rec_addr GRANULE_STATE_DELEGATED rd_addr GRANULE_STATE_RD ≫= λ og,
                match og with
                | None => mret RMI_ERROR_INPUT
                | Some (g_rec, g_rd) => rec_create_locked p g_rec g_rd aux num_rec_aux
                end ≫= λ ret,
                mwhen (negb (ret =? RMI_SUCCESS)) (free_rec_aux_granules aux num_rec_aux false) ≫= λ _,
                mret ret
            end
  end.

(** * REC_DESTROY and REC_AUX_COUNT *)

Definition smc_rec_destroy (rec_addr : Z) : M state Z :=
  find_lock_unused_granule rec_addr GRANULE_STATE_REC ≫= λ '(res, og),
  if negb (res =? 0) then
    if res =? - EINVAL then mret RMI_ERROR_INPUT
    else massert (res =? - EBUSY) ≫= λ _, mret RMI_ERROR_REC
  else
    mderef og ≫= λ g_rec,
    map_assert g_rec SLOT_REC ≫= λ recp,
    read_rec recp ≫= λ r,
    let g_rd := ri_g_rd r in
    free_rec_aux_granules (g_aux r) (rec_num_aux r) true ≫= λ _,
    granule_memzero_mapped recp ≫= λ _,
    buffer_unmap recp ≫= λ _,
    granule_unlock_transition g_rec GRANULE_STATE_DELEGATED ≫= λ _,
    atomic_granule_put_release g_rd ≫= λ _,
    mret RMI_SUCCESS.

Definition smc_rec_aux_count (rd_addr : Z) (res : smc_result) : M state smc_result :=
  find_lock_granule rd_addr GRANULE_STATE_RD ≫= λ og,
  match og with
  | None => mret (set_x0 RMI_ERROR_INPUT res)
  | Some g_rd =>
      map_assert g_rd SLOT_RD ≫= λ rdp,
      read_rd rdp ≫= λ d,
      buffer_unmap rdp ≫= λ _,
      granule_unlock g_rd ≫= λ _,
      mret (set_x1 (num_rec_aux d) (set_x0 RMI_SUCCESS res))
  end.
End reccmd.
