(* ===== verification/RecAux.v ===== *)
(** The auxiliary granules of a REC: taking them, mapping them and giving them back, whatever
    their number. *)
From S2P Require Import Prelude Types Granule Platform GranuleFind S2tte S2tt Measurement Buffer Walk Exec Realm Rtt Feature Rsi Gic Mpidr Psci PsciSpec RealmCmd Rec.

(** The granules of [l] in state [st], without references and unlocked. *)
Definition restate (st : Z) (l : list Z) (G : gmap Z granule) : gmap Z granule :=
  map_imap (λ h gr, Some (if decide (h ∈ l) then Gr false st 0 (owner_tag gr) else gr)) G.

(** The granules of [l] zeroed. *)
Definition zeroed (l : list Z) (M : gmap Z page) : gmap Z page := foldr (λ g, insert g PZero) M l.

Lemma restate_lookup st l G h :
  restate st l G !! h = (λ gr, if decide (h ∈ l) then Gr false st 0 (owner_tag gr) else gr) <$> G !! h.
Proof. unfold restate. rewrite map_lookup_imap. by destruct (G !! h). Qed.

Lemma restate_in st l G h lk st0 rc tag :
  h ∈ l → G !! h = Some (Gr lk st0 rc tag) → restate st l G !! h = Some (Gr false st 0 tag).
Proof. intros Hin Hg. rewrite restate_lookup, Hg. cbn. by rewrite decide_True. Qed.

Lemma restate_out st l G h : h ∉ l → restate st l G !! h = G !! h.
Proof. intros Hout. rewrite restate_lookup. destruct (G !! h); [|done]. cbn. by rewrite decide_False. Qed.

Lemma restate_nil st G : restate st [] G = G.
Proof. apply map_eq. intros h. apply restate_out. apply not_elem_of_nil. Qed.

Lemma restate_cons st g l G lk st0 rc tag :
  G !! g = Some (Gr lk st0 rc tag) → restate st (g :: l) G = restate st l (<[g := Gr false st 0 tag]> G).
Proof.
  intros Hg. apply map_eq. intros h. rewrite !restate_lookup. destruct (decide (h = g)) as [->|Hne].
  - rewrite Hg, lookup_insert_eq. cbn. rewrite decide_True by set_solver. by destruct (decide (g ∈ l)).
  - rewrite lookup_insert_ne by done. destruct (G !! h); [|done]. cbn. f_equal.
    destruct (decide (h ∈ l)); [by rewrite decide_True by set_solver|]. by rewrite decide_False by set_solver.
Qed.

Lemma restate_restate st st' l G : restate st l (restate st' l G) = restate st l G.
Proof.
  apply map_eq. intros h. rewrite !restate_lookup. destruct (G !! h); [|done]. cbn. f_equal.
  by destruct (decide (h ∈ l)).
Qed.

Lemma restate_id st l G :
  (∀ g, g ∈ l → ∃ tag, G !! g = Some (Gr false st 0 tag)) → restate st l G = G.
Proof.
  intros Hl. apply map_eq. intros h. destruct (decide (h ∈ l)) as [Hin|]; [|by apply restate_out].
  destruct (Hl h Hin) as [tag Hg]. by rewrite (restate_in _ _ _ _ _ _ _ _ Hin Hg).
Qed.

Lemma restate_insert_out st l G g gr : g ∉ l → restate st l (<[g := gr]> G) = <[g := gr]> (restate st l G).
Proof.
  intros Hg. apply map_eq. intros h. destruct (decide (h = g)) as [->|].
  - by rewrite restate_out, !lookup_insert_eq by done.
  - rewrite lookup_insert_ne by done. by rewrite !restate_lookup, lookup_insert_ne by done.
Qed.

Lemma zeroed_lookup l M h : zeroed l M !! h = if decide (h ∈ l) then Some PZero else M !! h.
Proof.
  induction l as [|g l IH]; cbn [zeroed foldr]; [by rewrite decide_False by apply not_elem_of_nil|].
  destruct (decide (h = g)) as [->|Hne].
  - rewrite lookup_insert_eq. by rewrite decide_True by set_solver.
  - rewrite lookup_insert_ne by done. change (foldr (λ g0, insert g0 PZero) M l) with (zeroed l M). rewrite IH.
    destruct (decide (h ∈ l)); [by rewrite decide_True by set_solver|]. by rewrite decide_False by set_solver.
Qed.

Lemma zeroed_cons g l M : zeroed (g :: l) M = zeroed l (<[g := PZero]> M).
Proof.
  apply map_eq. intros h. rewrite !zeroed_lookup. destruct (decide (h ∈ l)); [by rewrite decide_True by set_solver|].
  destruct (decide (h = g)) as [->|]; [by rewrite decide_True, lookup_insert_eq by set_solver|].
  by rewrite decide_False, lookup_insert_ne by set_solver.
Qed.

Definition in_state (s : state) (st g : Z) : Prop := ∃ tag, granules s !! g = Some (Gr false st 0 tag).

Section aux.
Context {P : Platform} {H : Machine} {CF : Config} {CPU : Cpu} {RE : RecEnv} {C : Crypto}.
Context {L : PlatformLaws P} {HL : MachineLaws P H}.

(** ** Giving back *)

Lemma free_aux_loop_run scrub : ∀ l i s,
  NoDup l → (∀ g, g ∈ l → in_state s GRANULE_STATE_REC_AUX g ∧ has_addr g) →
  0 <= i → i + Z.of_nat (length l) <= 16 →
  (∀ k, 0 <= k < 16 → slots s !! (SLOT_REC_AUX0 + k) = None) →
  free_aux_loop l i scrub s
  = Ok ((), set_granules (restate GRANULE_STATE_DELEGATED l (granules s))
              (set_mem (if scrub then zeroed l (mem s) else mem s) s)).
Proof using L HL.
  induction l as [|g l IH]; intros i s Hnd Hl Hi Hlen Hsl.
  { cbn [free_aux_loop zeroed foldr]. rewrite restate_nil. unfold mret, M_ret. destruct scrub; by destruct s. }
  cbn [free_aux_loop length] in *. apply NoDup_cons in Hnd as [Hg Hnd].
  destruct (Hl g ltac:(set_solver)) as [[tag Hgr] Ha].
  assert (Hok : gok GRANULE_STATE_REC_AUX 0) by done.
  erewrite bind_run; [|by eapply (granule_lock_run s)]. cbv beta. st_norm.
  assert (Hstep : ∀ m, (granule_unlock_transition g GRANULE_STATE_DELEGATED ≫= λ _, free_aux_loop l (i + 1) scrub)
    {| granules := <[g := Gr true GRANULE_STATE_REC_AUX 0 tag]> (granules s); mem := m; slots := slots s; vttbr_el2 := vttbr_el2 s;
       tlbi := tlbi s; tags := tags s; csm_ids := csm_ids s; vmids := vmids s |}
    = Ok ((), set_granules (restate GRANULE_STATE_DELEGATED (g :: l) (granules s))
              (set_mem (if scrub then zeroed l m else m) s))).
  { intros m. exec granule_unlock_transition_run. rewrite insert_insert_eq. rewrite IH; [|done| |lia|lia|exact Hsl].
    - cbn [granules mem]. rewrite (restate_cons _ _ _ _ _ _ _ _ Hgr). done.
    - intros h Hh. destruct (Hl h ltac:(set_solver)) as [[th Hth] Hah]. split; [|done]. exists th. cbn.
      rewrite lookup_insert_ne by set_solver. done. }
  destruct scrub; cbn [mwhen].
  - erewrite bind_run; [|apply buffer_granule_memzero_run; [done| |]]; cycle 1.
    { unfold is_realm_slot. apply andb_true_iff. unfold SLOT_REC_AUX0, NR_CPU_SLOTS, SLOT_EL3_TOKEN_SIGN_AUX0, SLOT_EL3_TOKEN_SIGN_REC,
        SLOT_RSI_CALL, SLOT_RTT2, SLOT_RTT, SLOT_REC_AUX0, MAX_REC_AUX_GRANULES, SLOT_NS. rewrite negb_true_iff, Z.eqb_neq, Z.ltb_lt. lia. }
    { cbn. apply Hsl. lia. }
    cbv beta. st_norm. rewrite Hstep. by rewrite zeroed_cons.
  - rewrite ret_bind. by rewrite Hstep.
Qed.

(** * REC_DESTROY *)

Definition aux_of (r : rec) : list Z := take (Z.to_nat (rec_num_aux r)) (g_aux r).

(** REC [r] of granule [g], with the granules that belong to it and the realm it counts for. *)
Record rec_owned (s : state) (g : Z) (r : rec) (rcd tagd : Z) : Prop := {
  ro_page : mem s !! g = Some (PRec r);
  ro_num : 0 <= rec_num_aux r <= 16;
  ro_nodup : NoDup (aux_of r);
  ro_aux h : h ∈ aux_of r → in_state s GRANULE_STATE_REC_AUX h ∧ has_addr h;
  ro_rd : granules s !! ri_g_rd r = Some (Gr false GRANULE_STATE_RD rcd tagd);
  ro_ref : 1 <= rcd <= REFCOUNT_MAX;
}.

(** The state without the REC: its granules delegated and zero, one reference less on the
    realm. *)
Definition rec_gone (g : Z) (r : rec) (rcd tagd : Z) (s : state) : state :=
  set_granules (<[ri_g_rd r := Gr false GRANULE_STATE_RD (rcd - 1) tagd]>
                  (restate GRANULE_STATE_DELEGATED (g :: aux_of r) (granules s)))
    (set_mem (zeroed (g :: aux_of r) (mem s)) s).

Lemma length_aux_of r : 0 <= rec_num_aux r <= 16 → (length (aux_of r) <= 16)%nat.
Proof using. clear L HL. intros Hn. unfold aux_of. rewrite length_take. lia. Qed.

Lemma Gr_state_ne st rc tag st' rc' tag' : gok st rc → gok st' rc' → st ≠ st' → Gr false st rc tag ≠ Gr false st' rc' tag'.
Proof using. clear L HL. intros H1 H2 Hne Heq. by destruct (Gr_inj _ _ _ _ _ _ _ _ H1 H2 Heq) as (_ & ? & _). Qed.

(** C22: REC_DESTROY gives everything back: an address that is not that of a REC is refused, a
    REC that is running is refused, and both change nothing; otherwise the REC and all its
    auxiliary granules are delegated again and hold only zeros, the realm has one reference
    less, and nothing else changes. *)
Theorem smc_rec_destroy_spec s addr :
  quiescent s → slots s = ∅ → is_u64 addr →
  match lockable s addr GRANULE_STATE_REC with
  | None => smc_rec_destroy addr s = Ok (RMI_ERROR_INPUT, s)
  | Some g => ∀ r rcd tagd, rec_owned s g r rcd tagd →
      smc_rec_destroy addr s
      = if refs_of s g =? 0 then Ok (RMI_SUCCESS, rec_gone g r rcd tagd s) else Ok (RMI_ERROR_REC, s)
  end.
Proof using L HL.
  intros Hq Hs Hu. assert (Hfind : ∀ g, find_granule addr = Ok (Some g) → ∃ gr, granules s !! g = Some gr ∧ granule_quiet gr).
  { intros g Hf. apply Hq. by destruct (find_granule_Some _ _ Hu Hf) as (_ & ? & _). }
  pose proof (find_lock_granule_spec s addr GRANULE_STATE_REC Hu Hfind) as Hfl.
  unfold smc_rec_destroy, find_lock_unused_granule.
  destruct (lockable s addr GRANULE_STATE_REC) as [g|] eqn:Hlk; cycle 1.
  { rewrite bind_assoc. by run_step Hfl. }
  intros r rcd tagd [Hpg Hn Hnd Haux Hrd Href]. pose proof (lockable_find _ _ _ _ Hlk) as Hf.
  destruct (Hfind g Hf) as (gr & Hg & st & rc & tag & -> & Hok & Hi).
  unfold lockable in Hlk. rewrite Hf, Hg in Hlk. cbn [Gr descriptor] in Hlk. rewrite desc_state in Hlk by done.
  cbn [v_state] in Hlk. destruct (Z.eqb_spec st GRANULE_STATE_REC) as [->|]; [|done]. clear Hlk.
  assert (Hrefs : refs_of s g = rc) by (unfold refs_of; rewrite Hg; by apply desc_refcount). rewrite Hrefs.
  rewrite (lock_one_Gr _ _ _ _ _ Hg Hok) in Hfl. rewrite bind_assoc. run_step Hfl. cbv iota. st_norm. rewrite bind_assoc.
  exec granule_refcount_read_acquire_run.
  destruct (Z.eqb_spec rc 0) as [->|Hrc]; cbn [negb]; cycle 1.
  { rewrite bind_assoc. exec granule_unlock_run. rewrite ret_bind. cbv iota. cbn. rewrite insert_insert_eq, insert_id by done. by destruct s. }
  assert (Hgl : g ∉ aux_of r).
  { intros Hin. destruct (Haux g Hin) as [[tg Htg] _]. rewrite Hg in Htg. injection Htg as Htg. revert Htg. by vm_compute. }
  assert (Hadr : has_addr g) by (by eapply find_granule_has_addr).
  assert (Hgrd : ri_g_rd r ≠ g).
  { intros Heq. rewrite Heq, Hg in Hrd. injection Hrd as Hrd _. apply (f_equal d_state) in Hrd. rewrite !desc_state in Hrd; [done|split; [done|cbn; lia]|done]. }
  rewrite ret_bind. cbv iota. cbn [Z.eqb negb]. run_step (mderef_run (Some g) g _ eq_refl). rewrite Hs.
  exec map_assert_run. erewrite bind_run; [|eapply read_rec_run; [exec_side..|reflexivity]]. cbv beta zeta.
  unfold free_rec_aux_granules. pose proof (length_aux_of r Hn) as Hlen.
  erewrite bind_run; [|apply (free_aux_loop_run true (aux_of r) 0); [done| |lia|lia|]]; cycle 1.
  { intros h Hh. destruct (Haux h Hh) as [[th Hth] Hah]. split; [|done]. exists th. cbn. rewrite lookup_insert_ne by set_solver. done. }
  { intros k Hk. cbn. rewrite lookup_insert_ne; [apply lookup_empty|]. unfold SLOT_REC, SLOT_REC_AUX0. lia. }
  cbv beta. st_norm. rewrite restate_insert_out by done. unfold granule_memzero_mapped.
  exec write_page_run. exec buffer_unmap_run. exec granule_unlock_transition_run.
  erewrite bind_run; [|eapply (atomic_granule_put_release_run (rc := rcd) (tag := tagd) (st := GRANULE_STATE_RD) (lk := false))]; cycle 1.
  { cbn. rewrite !lookup_insert_ne by done. rewrite restate_out; [exact Hrd|].
    intros Hin. destruct (Haux _ Hin) as [[tg Htg] _]. rewrite Hrd in Htg. injection Htg as Htg _. apply (f_equal d_state) in Htg.
    rewrite !desc_state in Htg; [done|done|split; [done|cbn; lia]]. }
  { split; [done|lia]. }
  { lia. }
  cbv beta. st_norm. unfold mret, M_ret, rec_gone. st_norm. rewrite delete_insert_id, insert_insert_eq by done.
  rewrite (restate_cons _ _ _ _ _ _ _ _ Hg), restate_insert_out by done. rewrite Hs. do 4 f_equal.
Qed.
End aux.
