(* ===== verification/RecInit.v ===== *)
(** What REC_CREATE needs of its parts: reading the host's parameters, taking the auxiliary
    granules, the initial values of a REC, and the set-up of the auxiliary granules. *)
From S2P Require Import Prelude Types Granule Platform GranuleFind S2tte S2tt Measurement Buffer Walk Exec Realm Rtt RttTree RttFold RttCreate Data DataCreate Feature Rsi Gic Mpidr Psci PsciSpec RealmCmd RealmInit RealmCreate Rec RecAux.

(** * Mapping granules to consecutive slots *)

Fixpoint mapped (b : Z) (l : list Z) (S : gmap Z Z) : gmap Z Z :=
  match l with [] => S | g :: l' => mapped (b + 1) l' (<[b := g]> S) end.

Lemma mapped_lookup : ∀ l b S h,
  mapped b l S !! h = if decide (b <= h < b + Z.of_nat (length l)) then l !! Z.to_nat (h - b) else S !! h.
Proof.
  induction l as [|g l IH]; intros b S h; cbn [mapped length].
  - by rewrite decide_False by lia.
  - rewrite IH. destruct (decide (b + 1 <= h < b + 1 + Z.of_nat (length l))).
    + rewrite decide_True by lia. replace (Z.to_nat (h - b)) with (Datatypes.S (Z.to_nat (h - (b + 1)))) by lia. done.
    + destruct (decide (h = b)) as [->|].
      * rewrite lookup_insert_eq, decide_True by lia. by rewrite Z.sub_diag.
      * rewrite lookup_insert_ne, decide_False by lia. done.
Qed.

Lemma mapped_delete b g l S : S !! b = None → delete b (mapped b (g :: l) S) = mapped (b + 1) l S.
Proof.
  intros Hb. apply map_eq. intros h. destruct (decide (h = b)) as [->|Hne].
  - rewrite lookup_delete_eq, mapped_lookup, decide_False by lia. done.
  - rewrite lookup_delete_ne by done. cbn [mapped]. rewrite !mapped_lookup.
    destruct (decide _); [done|]. by rewrite lookup_insert_ne.
Qed.

Section init.
Context {P : Platform} {H : Machine} {CF : Config} {CPU : Cpu} {RE : RecEnv} {C : Crypto}.
Context {L : PlatformLaws P} {HL : MachineLaws P H}.

Lemma is_realm_slot_aux i : 0 <= i < 16 → is_realm_slot (SLOT_REC_AUX0 + i) = true.
Proof using.
  clear L HL. intros Hi. unfold is_realm_slot. apply andb_true_iff. rewrite negb_true_iff, Z.eqb_neq, Z.ltb_lt.
  change NR_CPU_SLOTS with 43. change SLOT_REC_AUX0 with 7. change SLOT_NS with 0. lia.
Qed.

Lemma aux_map_loop_run : ∀ l i o s,
  0 <= i → i + Z.of_nat (length l) <= 16 → Forall has_addr l →
  (∀ k, i <= k < 16 → slots s !! (SLOT_REC_AUX0 + k) = None) →
  aux_map_loop l SLOT_REC_AUX0 i o s
  = Ok (if (i =? 0) && negb (bool_decide (l = [])) then Some SLOT_REC_AUX0 else o,
        set_slots (mapped (SLOT_REC_AUX0 + i) l (slots s)) s).
Proof using L HL.
  induction l as [|g l IH]; intros i o s Hi Hlen Ha Hsl.
  { cbn [aux_map_loop mapped]. rewrite bool_decide_eq_true_2 by done. rewrite andb_false_r. unfold mret, M_ret. by destruct s. }
  cbn [aux_map_loop length mapped] in *. apply Forall_cons in Ha as [Hg Ha].
  erewrite bind_run; [|apply buffer_granule_map_run; [done|apply is_realm_slot_aux; lia|apply Hsl; lia]]. cbv beta.
  rewrite (bool_decide_eq_true_2 (is_Some (Some _))) by done. run_step (massert_run true _ eq_refl).
  rewrite IH; [|lia|lia|done|].
  - cbn [slots set_slots]. replace (SLOT_REC_AUX0 + i + 1) with (SLOT_REC_AUX0 + (i + 1)) by lia.
    rewrite (proj2 (Z.eqb_neq (i + 1) 0)) by lia. cbn [andb]. rewrite bool_decide_eq_false_2 by done.
    destruct (Z.eqb_spec i 0) as [->|]; [|done]. done.
  - intros k Hk. cbn [slots set_slots]. rewrite lookup_insert_ne by lia. apply Hsl. lia.
Qed.

Lemma aux_unmap_run : ∀ l j s sl,
  slots s = mapped (SLOT_REC_AUX0 + Z.of_nat j) l sl →
  (∀ k, (j <= k < j + length l)%nat → sl !! (SLOT_REC_AUX0 + Z.of_nat k) = None) →
  mfor (Z.of_nat <$> seq j (length l)) (λ i, buffer_unmap (SLOT_REC_AUX0 + i)) s = Ok ((), set_slots sl s).
Proof using.
  clear L HL. induction l as [|g l IH]; intros j s sl Hs Hno.
  { cbn [mapped length seq fmap list_fmap mfor] in *. rewrite <- Hs. by destruct s. }
  cbn [length seq fmap list_fmap mfor].
  erewrite bind_run; [|apply (buffer_unmap_run s _ g)]; cycle 1.
  { rewrite Hs, mapped_lookup, decide_True by (cbn [length]; lia). by rewrite Z.sub_diag. }
  cbv beta. rewrite Hs, mapped_delete by (apply Hno; cbn [length]; lia).
  change (list_fmap nat Z Z.of_nat (seq (S j) (length l))) with (Z.of_nat <$> seq (S j) (length l)).
  rewrite (IH (S j) _ sl).
  - by destruct s.
  - cbn [slots set_slots]. f_equal. lia.
  - intros k Hk. apply Hno. cbn [length]. lia.
Qed.

(** ** The auxiliary granules of a new REC *)

Lemma rec_aux_granules_init_run s r g3 ctx :
  let l := aux_of r in
  length l = Z.to_nat (rec_num_aux r) → 7 <= rec_num_aux r <= 16 → REC_NUM_PAGES <= rec_num_aux r →
  Forall has_addr l → (∀ k, 0 <= k < 16 → slots s !! (SLOT_REC_AUX0 + k) = None) →
  l !! 3%nat = Some g3 → mem s !! g3 = Some PZero →
  simd_context_init SIMD_OWNER_REL1 simd_context_zero (inf_simd_cfg (realm_info r)) = Some ctx →
  rec_aux_granules_init r s = Ok ((), set_mem (<[g3 := PSimd ctx]> (mem s)) s).
Proof using L HL.
  intros l Hlen Hn Hpages Ha Hsl Hg3 Hm Hctx. unfold rec_aux_granules_init, buffer_aux_granules_map, buffer_aux_granules_map_internal.
  rewrite bind_assoc. run_step (massert_run (rec_num_aux r <=? MAX_REC_AUX_GRANULES) s ltac:(apply Z.leb_le; change MAX_REC_AUX_GRANULES with 16; lia)).
  change (take (Z.to_nat (rec_num_aux r)) (g_aux r)) with l.
  erewrite bind_run; [|apply aux_map_loop_run; [lia|lia|done|intros k Hk; apply Hsl; lia]]. cbv beta.
  rewrite bool_decide_eq_false_2 by (intros Hnil; rewrite Hnil in Hg3; done). cbn [negb andb Z.eqb].
  rewrite (bool_decide_eq_true_2 (is_Some (Some _))) by done. run_step (massert_run true _ eq_refl).
  run_step (mderef_run (Some SLOT_REC_AUX0) _ _ eq_refl). rewrite (bind_run _ _ _ _ _ (massert_run _ _ (proj2 (Z.leb_le _ _) Hpages))).
  cbv beta zeta. change (SLOT_REC_AUX0 + REC_HEAP_PAGES + REC_PMU_PAGES) with (SLOT_REC_AUX0 + 3).
  unfold rec_simd_state_init. rewrite Z.add_0_r.
  assert (Hs3 : mapped SLOT_REC_AUX0 l (slots s) !! (SLOT_REC_AUX0 + 3) = Some g3).
  { rewrite mapped_lookup, decide_True by lia. replace (Z.to_nat (SLOT_REC_AUX0 + 3 - SLOT_REC_AUX0)) with 3%nat by lia. done. }
  rewrite bind_assoc. erewrite bind_run; [|eapply read_page_run; [exact Hs3|exact Hm]]. cbv beta. rewrite bind_assoc.
  run_step (mderef_run (page_simd PZero) simd_context_zero _ eq_refl). rewrite Hctx.
  erewrite bind_run; [|eapply write_page_run; exact Hs3]. cbv beta. unfold buffer_aux_unmap.
  run_step (massert_run (rec_num_aux r <=? MAX_REC_AUX_GRANULES) _ ltac:(apply Z.leb_le; change MAX_REC_AUX_GRANULES with 16; lia)).
  rewrite <- Hlen. rewrite (aux_unmap_run l 0 _ (slots s)).
  - by destruct s.
  - cbn [slots set_mem set_slots]. by rewrite Z.add_0_r.
  - intros k Hk. apply Hsl. lia.
Qed.

(** * Taking the auxiliary granules *)

(** The granules that the loop takes at the addresses [l] after [gs]: all of them, or those
    before the first address at which there is none to take. *)
Fixpoint pick_aux (s : state) (l gs : list Z) : bool * list Z :=
  match l with
  | [] => (true, gs)
  | a :: l' =>
      match lockable s a GRANULE_STATE_DELEGATED with
      | Some g => if decide (g ∈ gs) then (false, gs) else pick_aux s l' (gs ++ [g])
      | None => (false, gs)
      end
  end.

Definition with_aux (gs : list Z) (s : state) : state := set_granules (restate GRANULE_STATE_REC_AUX gs (granules s)) s.

Lemma restate_app st l l' G : restate st (l ++ l') G = restate st l' (restate st l G).
Proof using.
  clear. apply map_eq. intros h. rewrite !restate_lookup. destruct (G !! h); [|done]. cbn. f_equal.
  destruct (decide (h ∈ l)), (decide (h ∈ l')); rewrite ?decide_True, ?decide_False by set_solver; try done.
  all: by rewrite decide_True by set_solver || rewrite decide_False by set_solver.
Qed.

Lemma with_aux_quiet gs s : quiescent s → quiescent (with_aux gs s).
Proof using.
  clear L HL. intros Hq g Hg. destruct (Hq g Hg) as (gr & Hgr & Hquiet). cbn. rewrite restate_lookup, Hgr. cbn.
  eexists. split; [done|]. destruct (decide (g ∈ gs)); [|done]. by eexists _, _, _.
Qed.

Lemma with_aux_lockable gs s a st :
  st ≠ GRANULE_STATE_REC_AUX →
  lockable (with_aux gs s) a st = (g ← lockable s a st; if decide (g ∈ gs) then None else Some g).
Proof using.
  clear L HL. intros Hst. unfold lockable. destruct (find_granule a) as [[g|]|]; [|done|done]. cbn. rewrite restate_lookup.
  destruct (granules s !! g) as [gr|]; [|done]. cbn. destruct (decide (g ∈ gs)) as [Hin|Hout].
  - cbn [Gr descriptor]. rewrite desc_state by done. cbn [v_state]. rewrite (proj2 (Z.eqb_neq GRANULE_STATE_REC_AUX st)) by done. destruct (d_state (descriptor gr) =? st); [|done].
    cbn. by rewrite decide_True.
  - destruct (d_state (descriptor gr) =? st); [|done]. cbn. by rewrite decide_False.
Qed.

Lemma pick_aux_nodup s : ∀ l gs, NoDup gs → NoDup (pick_aux s l gs).2.
Proof using.
  clear L HL. induction l as [|a l IH]; intros gs Hnd; [done|]. cbn [pick_aux].
  destruct (lockable s a GRANULE_STATE_DELEGATED) as [g|]; [|done]. destruct (decide (g ∈ gs)); [done|].
  apply IH. apply NoDup_app. split; [done|]. split; [|apply NoDup_singleton]. set_solver.
Qed.

Lemma take_aux_loop_run s aux : ∀ l gs,
  quiescent s → Forall is_u64 l → take (length l) (drop (length gs) aux) = l → NoDup gs → (∀ g, g ∈ gs → in_state s GRANULE_STATE_DELEGATED g) →
  (length gs + length l <= 16)%nat →
  take_aux_loop (length l) (Z.of_nat (length gs)) aux gs (with_aux gs s)
  = match pick_aux s l gs with
    | (true, gs') => Ok (Some gs', with_aux gs' s)
    | (false, []) => Ok (None, s)
    | (false, _) => Err FAssert
    end.
Proof using L HL.
  induction l as [|a l IH]; intros gs Hq Hu Hdrop Hnd Hgs Hlen; [done|]. cbn [take_aux_loop pick_aux length].
  apply Forall_cons in Hu as [Ha Hu].
  assert (Hget : aget aux (Z.of_nat (length gs)) = Ok a).
  { apply aget_lookup; [lia|]. rewrite Nat2Z.id. rewrite <- (Nat.add_0_r (length gs)), <- lookup_drop.
    rewrite <- (lookup_take_lt _ (length (a :: l))), Hdrop by (cbn [length]; lia). done. }
  run_step (lift_run _ _ (with_aux gs s) Hget). pose proof (with_aux_quiet gs s Hq) as Hq'.
  erewrite bind_run; [|apply find_lock_granule_spec; [done|]]; cycle 1.
  { intros g Hf. apply Hq'. by destruct (find_granule_Some _ _ Ha Hf) as (_ & ? & _). }
  cbv beta. rewrite with_aux_lockable by done.
  assert (Hfail : (mfor gs granule_unlock ≫= λ _, free_rec_aux_granules gs (Z.of_nat (length gs)) false ≫= λ _, mret None) (with_aux gs s)
    = match gs with [] => Ok (None : option (list Z), s) | _ => Err FAssert end).
  { destruct gs as [|g gs']; [cbn; unfold mret, M_ret, with_aux; rewrite restate_nil; by destruct s|].
    apply bind_run_err. cbn [mfor]. apply bind_run_err. destruct (Hgs g ltac:(set_solver)) as [tag Hg].
    assert (Hr : granules (with_aux (g :: gs') s) !! g = Some (Gr false GRANULE_STATE_REC_AUX 0 tag))
      by (eapply restate_in; [set_solver|exact Hg]).
    by apply (granule_unlock_err Hr). }
  destruct (lockable s a GRANULE_STATE_DELEGATED) as [g|] eqn:Hl; cbn [mbind option_bind]; [|by rewrite Hfail; destruct gs].
  destruct (decide (g ∈ gs)) as [Hin|Hout]; [by rewrite Hfail; destruct gs|].
  assert (Hg : in_state s GRANULE_STATE_DELEGATED g).
  { destruct (lockable_Some _ _ _ _ Hq Ha Hl) as (_ & _ & _ & _ & _ & rc & tag & Hg & _ & Hi). exists tag. rewrite Hg. do 2 f_equal. by apply Z.eqb_eq in Hi. }
  destruct Hg as [tag Hg].
  assert (Hg' : granules (with_aux gs s) !! g = Some (Gr false GRANULE_STATE_DELEGATED 0 tag)) by (cbn; by rewrite restate_out).
  rewrite (lock_one_Gr _ _ _ _ _ Hg') by done. exec granule_unlock_transition_run.
  replace (Z.of_nat (length gs) + 1) with (Z.of_nat (length (gs ++ [g]))) by (rewrite length_app; cbn [length]; lia).
  rewrite insert_insert_eq.
  assert (Heq : {| granules := <[g := Gr false GRANULE_STATE_REC_AUX 0 tag]> (restate GRANULE_STATE_REC_AUX gs (granules s)); mem := mem s;
      slots := slots s; vttbr_el2 := vttbr_el2 s; tlbi := tlbi s; tags := tags s; csm_ids := csm_ids s; vmids := vmids s |}
    = with_aux (gs ++ [g]) s).
  { unfold with_aux, set_granules. f_equal. rewrite restate_app. rewrite (restate_cons _ g [] _ _ _ _ _ Hg'), restate_nil. done. }
  etrans; [|apply (IH (gs ++ [g])); [done|done| | | |rewrite length_app; cbn [length] in *; lia]].
  - f_equal. exact Heq.
  - rewrite length_app. cbn [length]. rewrite <- drop_drop. destruct (drop (length gs) aux); [done|]. by injection Hdrop.
  - apply NoDup_app. split; [done|]. split; [set_solver|apply NoDup_singleton].
  - intros h Hh. apply elem_of_app in Hh as [?|Hh]; [by apply Hgs|]. apply list_elem_of_singleton in Hh as ->. by exists tag.
Qed.
End init.
