(* ===== verification/RecCreate.v ===== *)
(** REC_CREATE: the REC that a granted request makes, the translation regime its registers
    describe, and the command as a whole. *)
From S2P Require Import Prelude Types Granule Platform GranuleFind S2tte S2tt Measurement Buffer Walk Exec Realm Rtt RttTree RttFold RttCreate Data DataCreate Feature Rsi Gic Mpidr Psci PsciSpec RealmCmd RealmInit RealmCreate Rec RecAux RecInit.

Section fresh.
Context {P : Platform} {CF : Config} {CPU : Cpu} {RE : RecEnv}.

(** What REC_CREATE relies on in the descriptor of a realm. *)
Record rd_rec_ok (d : rd) : Prop := {
  rr_aux : 7 <= num_rec_aux d <= 16;
  rr_pages : REC_NUM_PAGES <= num_rec_aux d;
  rr_simd : g_simd_init_done = true;
  rr_cfg : validate_simd_config (simd_cfg d) = true;
  rr_level : (if enable_lpa2 (s2_ctx d) then -1 else 0) <= s2_starting_level (s2_ctx d) <= 3;
  rr_bits : 0 < ipa_bits (s2_ctx d) <= 64;
  rr_rtt : has_addr (g_rtt (s2_ctx d));
}.

(** The members of a new REC that say who it is and what it may do. *)
Record rec_fresh (r : rec) (g idx g_rd : Z) (p : rec_params) (aux : list Z) (d : rd) : Prop := {
  rf_self : g_rec r = g;
  rf_idx : rec_idx r = idx;
  rf_runnable : runnable r = Z.testbit (cp_flags (c_measured p)) 0;
  rf_regs : regs r = cp_gprs (c_measured p) ++ replicate 23 0;
  rf_pc : pc r = cp_pc (c_measured p);
  rf_pstate : pstate r = 0x3c5;
  rf_mpidr : vmpidr_el2 (sysregs r) = rec_mpidr_to_mpidr (c_mpidr p) .| VMPIDR_EL2_RES1;
  rf_sctlr : sctlr_el1 (sysregs r) = SCTLR_EL1_FLAGS;
  rf_gic : gicstate (sysregs r) = gic_cpu_state_init gic_cpu_state_zero;
  rf_realm : realm_info r = {| inf_g_rd := g_rd; inf_pmu_enabled := pmu_enabled d; inf_pmu_num_ctrs := pmu_num_ctrs d;
                               inf_algorithm := algorithm d; inf_simd_cfg := simd_cfg d; inf_s2_ctx := s2_ctx d |};
  rf_pending : psci_pending r = false ∧ host_call r = false ∧ set_ripas r = set_ripas_zero ∧ last_esr (last_run r) = 0;
  rf_num : rec_num_aux r = Z.of_nat (length aux);
  rf_aux : aux_of r = aux;
}.

Definition sl_code (level : Z) : Z * Z :=
  if level =? -1 then (1, 0) else if level =? 0 then (0, 2) else if level =? 1 then (0, 1)
  else if level =? 2 then (0, 0) else (0, 3).

(** The translation regime in the registers of a REC: the tables of the realm, its VMID, the
    size of its address space and the level at which its tables start. *)
Record rec_regime (r : rec) (d : rd) (rtt_addr : Z) : Prop := {
  rg_vmid : 0 <= vmid (s2_ctx d) < 2 ^ 16 → EXTRACT_F VTTBR_EL2_VMID (c_vttbr_el2 (common_sysregs r)) = vmid (s2_ctx d);
  rg_table : enable_lpa2 (s2_ctx d) = false → rtt_addr < 2 ^ 48 → c_vttbr_el2 (common_sysregs r) mod 2 ^ 48 = rtt_addr;
  rg_table_lpa2 : enable_lpa2 (s2_ctx d) = true →
    EXTRACT_F TTBRx_EL2_BADDR_MSB_LPA2 (c_vttbr_el2 (common_sysregs r)) = EXTRACT_F EL2_BADDR_MSB_LPA2 rtt_addr;
  rg_t0sz : 0 < ipa_bits (s2_ctx d) <= 64 → EXTRACT_F VTCR_T0SZ (c_vtcr_el2 (common_sysregs r)) = 64 - ipa_bits (s2_ctx d);
  rg_level : (EXTRACT_F VTCR_SL2 (c_vtcr_el2 (common_sysregs r)), EXTRACT_F VTCR_SL0 (c_vtcr_el2 (common_sysregs r)))
             = sl_code (s2_starting_level (s2_ctx d));
  rg_lpa2 : EXTRACT_F VTCR_DS (c_vtcr_el2 (common_sysregs r)) = (if enable_lpa2 (s2_ctx d) then 1 else 0);
  rg_vm : Z.testbit (c_hcr_el2 (common_sysregs r)) 0 = true;
}.

Context {L : PlatformLaws P} {CL : CpuLaws CPU}.

Lemma EXTRACT_land_low v : EXTRACT 0 6 (v .& MASK_F VTCR_T0SZ) = v mod 64.
Proof using.
  clear. apply Z.bits_inj'. intros i Hi. rewrite testbit_EXTRACT by lia. rewrite Z.add_0_r, Z.land_spec, testbit_MASK_F by fld.
  cbn [fshift fwidth VTCR_T0SZ]. change 64 with (2 ^ 6). destruct (Z.ltb_spec i 6).
  - rewrite Z.mod_pow2_bits_low by lia. rewrite (proj2 (Z.leb_le 0 i)), (proj2 (Z.ltb_lt i (0 + 6))) by lia. by rewrite !andb_true_r.
  - by rewrite Z.mod_pow2_bits_high, andb_false_l || rewrite Z.mod_pow2_bits_high by lia.
Qed.

(** The registers for the tables of a realm. *)
Lemma EXTRACT_land_other s w a m : 0 <= s → 0 < w → s + w <= 64 → 0 <= m → (∀ i, s <= i < s + w → Z.testbit m i = false) →
  EXTRACT s w (a .& m) = 0.
Proof using.
  clear. intros Hs Hw Hsw _ Hm. apply Z.bits_inj'. intros i Hi. rewrite testbit_EXTRACT, Z.land_spec, Z.testbit_0_l by lia.
  destruct (Z.ltb_spec i w); [|done]. rewrite Hm by lia. by rewrite andb_false_r.
Qed.

Lemma testbit_vmid_low v i : 0 <= i < 48 → Z.testbit (INPLACE 48 v) i = false.
Proof using. clear. intros Hi. unfold INPLACE. rewrite testbit_shl64, (testbit_neg _ (i - 48)) by lia. by rewrite andb_false_r. Qed.

Lemma EXTRACT_vmid_low v : EXTRACT 2 4 (INPLACE 48 v) = 0.
Proof using.
  clear. apply Z.bits_inj'. intros i Hi. rewrite testbit_EXTRACT, Z.testbit_0_l by lia. destruct (Z.ltb_spec i 4); [|done].
  by rewrite testbit_vmid_low by lia.
Qed.

Lemma lor_vmid_mod a v : Z.lor a (INPLACE 48 v) mod 2 ^ 48 = a mod 2 ^ 48.
Proof using.
  clear. apply Z.bits_inj'. intros i Hi. destruct (Z.ltb_spec i 48).
  - rewrite !Z.mod_pow2_bits_low, Z.lor_spec, testbit_vmid_low by lia. by rewrite orb_false_r.
  - by rewrite !Z.mod_pow2_bits_high by lia.
Qed.

Lemma baddr_mod a : GRANULE_ALIGNED a = true → 0 <= a < 2 ^ 48 → (a .& MASK_F TTBRx_EL2_BADDR) mod 2 ^ 48 = a.
Proof using.
  clear. intros Hal Ha. apply granule_aligned_mod in Hal. apply Z.bits_inj'. intros i Hi. destruct (Z.ltb_spec i 48).
  - rewrite Z.mod_pow2_bits_low, Z.land_spec, testbit_MASK_F by fld. cbn [fshift fwidth TTBRx_EL2_BADDR].
    destruct (Z.leb_spec 1 i); cbn [andb]; [by rewrite (proj2 (Z.ltb_lt i (1 + 47))), andb_true_r by lia|].
    replace i with 0 by lia. rewrite andb_false_r. symmetry. change 4096 with (2 ^ 12) in Hal.
    rewrite <- (Z.mod_pow2_bits_low a 12 0) by lia. by rewrite Hal, Z.bits_0.
  - rewrite Z.mod_pow2_bits_high by lia. symmetry. by apply (testbit_high a 48).
Qed.

Lemma realm_vtcr_run d :
  rd_rec_ok d →
  ∃ v, realm_vtcr d = Ok v ∧
    EXTRACT_F VTCR_T0SZ v = (64 - ipa_bits (s2_ctx d)) mod 64 ∧
    (EXTRACT_F VTCR_SL2 v, EXTRACT_F VTCR_SL0 v) = sl_code (s2_starting_level (s2_ctx d)) ∧
    EXTRACT_F VTCR_DS v = (if enable_lpa2 (s2_ctx d) then 1 else 0).
Proof using CL.
  clear L. intros [_ _ _ _ Hl Hb _]. unfold realm_vtcr. destruct pa_width_run as (w & Hw & Hin). rewrite Hw, result_bind_ok.
  unfold realm_rtt_starting_level, realm_ipa_bits. set (sl := s2_starting_level (s2_ctx d)) in *.
  set (v := (64 .- ipa_bits (s2_ctx d))).
  assert (Hv : v mod 64 = (64 - ipa_bits (s2_ctx d)) mod 64) by (unfold v; rewrite u64_small by (unfold is_u64; lia); done).
  assert (Hps : ∃ c, realm_vtcr_ps w = INPLACE_F VTCR_PS c ∧ 0 <= c < 8).
  { unfold realm_vtcr_ps. repeat case_match; (eexists; split; [reflexivity|lia]). }
  destruct Hps as (c & -> & Hc).
  rewrite rassert_bind; cycle 1.
  { unfold S2TT_MIN_STARTING_LEVEL, S2TT_MIN_STARTING_LEVEL_LPA2. destruct (enable_lpa2 (s2_ctx d)); cbn [negb andb orb].
    - apply Z.leb_le. lia.
    - rewrite orb_false_r. apply Z.leb_le. lia. }
  rewrite rassert_bind by (apply Z.leb_le; change S2TT_PAGE_LEVEL with 3; destruct (enable_lpa2 (s2_ctx d)); lia).
  set (f := if is_feat_vmid16_present then VTCR_FLAGS .| VTCR_VS else VTCR_FLAGS).
  assert (Hf : EXTRACT 0 6 f = 0 ∧ EXTRACT 33 1 f = 0 ∧ EXTRACT 6 2 f = 0 ∧ EXTRACT 32 1 f = 0)
    by (unfold f; destruct is_feat_vmid16_present; done).
  destruct Hf as (Hf1 & Hf2 & Hf3 & Hf4).
  assert (Ho : ∀ s n, 6 <= s → 0 < n → s + n <= 64 → EXTRACT s n (v .& MASK_F VTCR_T0SZ) = 0).
  { intros s n H1 H2 H3. apply EXTRACT_land_other; [lia|lia|lia|by vm_compute|]. intros i Hi. rewrite testbit_MASK_F by fld.
    cbn [fshift fwidth VTCR_T0SZ]. destruct (Z.leb_spec 0 i), (Z.ltb_spec i (0 + 6)); cbn [andb]; lia. }
  assert (Hpso : ∀ s n, (s + n <= 16 ∨ 19 <= s) → 0 <= s → 0 < n → s + n <= 64 → EXTRACT s n (INPLACE_F VTCR_PS c) = 0).
  { intros s n H1 H2 H3 H4. apply (EXTRACT_INPLACE_other s n 16 3); lia. }
  assert (Hsl : sl = -1 ∨ sl = 0 ∨ sl = 1 ∨ sl = 2 ∨ sl = 3) by (destruct (enable_lpa2 (s2_ctx d)); lia).
  unfold EXTRACT_F. cbn [fshift fwidth VTCR_T0SZ VTCR_SL2 VTCR_SL0 VTCR_DS].
  destruct (enable_lpa2 (s2_ctx d)); destruct Hsl as [->|[->|[->|[->| ->]]]]; try (exfalso; lia);
    (eexists; split; [reflexivity|]); cbn [Z.eqb Pos.eqb]; rewrite !EXTRACT_lor, EXTRACT_land_low, Hf1, Hf2, Hf3, Hf4;
    rewrite ?Ho, ?Hpso by lia; rewrite Hv; rewrite ?Z.lor_0_l, ?Z.lor_0_r; (split; [done|split; reflexivity]).
Qed.

Lemma init_rec_run g idx g_rd p aux d :
  rd_rec_ok d → length (cp_gprs (c_measured p)) = 8%nat → (length aux <= 16)%nat →
  ∃ r rtt_addr, init_rec g idx g_rd p aux (Z.of_nat (length aux)) d rec_zero = Ok r ∧
    granule_addr (g_rtt (s2_ctx d)) = Ok rtt_addr ∧ rec_fresh r g idx g_rd p aux d ∧ rec_regime r d rtt_addr ∧
    pmcr_el0 (sysregs r) = (if ENABLE_OPENCCA_PERF then 0 else PMCR_EL0_INIT).
Proof using L CL.
  intros Hd Hgp Haux. destruct (realm_vtcr_run d Hd) as (vtcr & Hvtcr & Ht0 & Hsl & Hds).
  destruct Hd as [_ _ _ _ Hlv Hbits [Hg0 [a Ha]]]. destruct (plat_idx_addr _ _ Hg0 Ha) as (Hu & Hal & H52 & _).
  unfold init_rec, init_rec_regs.
  pose proof (fill_regs_run (aget (cp_gprs (c_measured p))) (cp_gprs (c_measured p)) 0 (replicate 31 0)) as Hfill.
  rewrite Hgp in Hfill. cbv zeta. change (regs (set_rec_id g idx rec_zero)) with (replicate 31 0).
  change REC_CREATE_NR_GPRS with 8%nat. rewrite Hfill; [|lia|rewrite length_replicate; lia|]; cycle 1.
  { intros k v Hk. rewrite Z.add_0_l. apply aget_lookup; [lia|]. by rewrite Nat2Z.id. }
  rewrite result_bind_ok. unfold init_common_sysregs. rewrite Hvtcr, result_bind_ok, Ha, !result_bind_ok.
  eexists _, a. split; [reflexivity|]. split; [done|]. split; [|split].
  - split; try reflexivity.
    + cbn [runnable set_runnable]. change REC_PARAMS_FLAG_RUNNABLE with (2 ^ 0). by rewrite land_pow2_testbit by lia.
    + by repeat split.
    + unfold aux_of. cbn [rec_num_aux g_aux set_runnable set_realm_info set_g_aux]. rewrite Nat2Z.id. by apply take_app_length'.
  - split; cbn [common_sysregs set_runnable set_realm_info set_g_aux set_sysregs set_common_sysregs c_vttbr_el2 c_vtcr_el2 c_hcr_el2].
    + intros Hv. unfold EXTRACT_F, INPLACE_F. cbn [fshift fwidth VTTBR_EL2_VMID TTBRx_EL2_BADDR_MSB_LPA2 EL2_BADDR_MSB_LPA2].
      rewrite EXTRACT_lor, EXTRACT_INPLACE_same by lia.
      assert (Hz : EXTRACT 48 16 (a .& MASK_F TTBRx_EL2_BADDR) = 0).
      { apply EXTRACT_land_other; [lia|lia|lia|by vm_compute|]. intros i Hi. rewrite testbit_MASK_F by fld.
        cbn [fshift fwidth TTBRx_EL2_BADDR]. destruct (Z.leb_spec 1 i), (Z.ltb_spec i (1 + 47)); cbn [andb]; lia. }
      destruct (enable_lpa2 (s2_ctx d)); [|by rewrite Hz].
      rewrite EXTRACT_lor. rewrite (EXTRACT_INPLACE_other 48 16 2 4) by (first [ apply (EXTRACT_range 48 4); lia | lia ]).
      assert (Hz' : EXTRACT 48 16 (a .& MASK_F TTBRx_EL2_BADDR .& .~ (MASK_F TTBRx_EL2_BADDR_MSB_LPA2)) = 0).
      { rewrite land_land_r. apply EXTRACT_land_other; [lia|lia|lia|by vm_compute|]. intros i Hi. rewrite Z.land_spec, testbit_MASK_F by fld.
        cbn [fshift fwidth TTBRx_EL2_BADDR]. destruct (Z.leb_spec 1 i), (Z.ltb_spec i (1 + 47)); cbn [andb]; lia. }
      by rewrite Hz'.
    + intros Hlp Hlt. rewrite Hlp. unfold INPLACE_F. cbn [fshift VTTBR_EL2_VMID]. rewrite lor_vmid_mod.
      apply baddr_mod; [done|]. unfold is_u64 in Hu. lia.
    + intros Hlp. rewrite Hlp. unfold EXTRACT_F, INPLACE_F. cbn [fshift fwidth VTTBR_EL2_VMID TTBRx_EL2_BADDR_MSB_LPA2 EL2_BADDR_MSB_LPA2].
      rewrite !EXTRACT_lor, EXTRACT_INPLACE_same by (first [ apply (EXTRACT_range 48 4); lia | lia ]). rewrite EXTRACT_vmid_low.
      assert (Hz : EXTRACT 2 4 (a .& MASK_F TTBRx_EL2_BADDR .& .~ (MASK_F TTBRx_EL2_BADDR_MSB_LPA2)) = 0).
      { rewrite land_land_r. apply EXTRACT_land_other; [lia|lia|lia|by vm_compute|]. intros i Hi. rewrite Z.land_spec, testbit_not64, (testbit_MASK_F TTBRx_EL2_BADDR_MSB_LPA2) by fld.
        cbn [fshift fwidth TTBRx_EL2_BADDR_MSB_LPA2]. destruct (Z.leb_spec 2 i), (Z.ltb_spec i (2 + 4)); lia. }
      rewrite Hz. by rewrite Z.lor_0_r.
    + intros _. rewrite Ht0. apply Z.mod_small. lia.
    + done.
    + done.
    + unfold HCR_REALM_FLAGS, HCR_FWB, HCR_TEA, HCR_API, HCR_APK, HCR_REALM_OPENCCA_FLAGS. by destruct ENABLE_OPENCCA.
  - reflexivity.
Qed.

(** A new REC is what the parameters and the realm say: its identity, entry point, first
    registers and MPIDR, a reset GIC interface, nothing pending, its auxiliary granules; and
    the registers of its translation regime name the realm's root tables, VMID, address size
    and starting level, with stage 2 translation on. [PMCR_EL0] never gets the value for a
    realm with a PMU, because it is chosen before the REC knows its realm. *)
Theorem init_rec_spec g idx g_rd p aux d :
  rd_rec_ok d → length (cp_gprs (c_measured p)) = 8%nat → (length aux <= 16)%nat →
  ∃ r rtt_addr, init_rec g idx g_rd p aux (Z.of_nat (length aux)) d rec_zero = Ok r ∧
    granule_addr (g_rtt (s2_ctx d)) = Ok rtt_addr ∧ rec_fresh r g idx g_rd p aux d ∧ rec_regime r d rtt_addr ∧
    pmcr_el0 (sysregs r) = (if ENABLE_OPENCCA_PERF then 0 else PMCR_EL0_INIT).
Proof using L CL. apply init_rec_run. Qed.
End fresh.

(** * The request *)

Section request.
Context {P : Platform} {H : Machine} {CF : Config} {CPU : Cpu} {RE : RecEnv} {C : Crypto}.

(** The parameters that the host passes, when they can be read. *)
Definition host_rec_params (s : state) (addr : Z) : option rec_params :=
  match find_granule addr with
  | Ok (Some g) =>
      match granules s !! g with
      | Some gr =>
          if d_state (descriptor gr) =? GRANULE_STATE_NS then
            let '(ok, bytes) := memcpy_ns_read 512 (set_slots (<[SLOT_NS := g]> (slots s)) s) g 0 in
            if ok then Some (rec_params_of_bytes bytes) else None
          else None
      | None => None
      end
  | _ => None
  end.

(** Why a request that names the right granules is refused, if it is. *)
Definition rec_refused (rc : Z) (d : rd) (p : rec_params) (n : Z) : option Z :=
  if rc =? REFCOUNT_MAX then Some RMI_ERROR_REALM
  else if negb (rd_state d =? REALM_NEW) then Some RMI_ERROR_REALM
  else if negb (rec_mpidr_is_valid (c_mpidr p)) || negb (rec_count d =? rec_mpidr_to_idx (c_mpidr p)) then Some RMI_ERROR_INPUT
  else if negb (n =? num_rec_aux d) then Some RMI_ERROR_INPUT
  else None.

(** The descriptor with one REC more; a REC that can run is measured. *)
Definition rd_with_rec (p : rec_params) (r : rec) (d : rd) : rd :=
  set_rd_rec_count (rec_count d + 1)
    (if runnable r then set_rd_rim (slot_of (algorithm d) (desc_msg (algorithm d) (rim d) (MRec (c_measured p)))) d else d).

Definition rec_made (g_rec g_rd rc tagr tagd g3 : Z) (r : rec) (ctx : simd_context) (d' : rd) (s : state) : state :=
  set_granules (<[g_rd := Gr false GRANULE_STATE_RD (rc + 1) tagd]> (<[g_rec := Gr false GRANULE_STATE_REC 0 tagr]> (granules s)))
    (set_mem (<[g_rd := PRd d']> (<[g3 := PSimd ctx]> (<[g_rec := PRec r]> (mem s)))) s).
End request.

Section create.
Context {P : Platform} {H : Machine} {CF : Config} {CPU : Cpu} {RE : RecEnv} {C : Crypto}.
Context {L : PlatformLaws P} {HL : MachineLaws P H} {CL : CpuLaws CPU} {CRL : CryptoLaws C}.

Lemma simd_init_run d : rd_rec_ok d →
  ∃ ctx, simd_context_init SIMD_OWNER_REL1 simd_context_zero (simd_cfg d) = Some ctx.
Proof using. clear. intros [_ _ Hi Hv _ _ _]. unfold simd_context_init. rewrite Hi, Hv. cbn. by eexists. Qed.

(** A realm to which a REC can be added, and the granules for it. *)
Record rec_ready (s : state) (g_rec g_rd rc tagr tagd g3 : Z) (d : rd) (p : rec_params) (aux : list Z) : Prop := {
  rd_slots : slots s = ∅;
  rd_ne : g_rec ≠ g_rd;
  rd_grec : granules s !! g_rec = Some (Gr false GRANULE_STATE_DELEGATED 0 tagr);
  rd_grd : granules s !! g_rd = Some (Gr false GRANULE_STATE_RD rc tagd);
  rd_gok : gok GRANULE_STATE_RD rc;
  rd_arec : has_addr g_rec;
  rd_ard : has_addr g_rd;
  rd_mrec : mem s !! g_rec = Some PZero;
  rd_mrd : mem s !! g_rd = Some (PRd d);
  rd_ok : rd_rec_ok d;
  rd_rim : ∃ m, rim d = slot_of (algorithm d) m;
  rd_par : op_ok (MRec (c_measured p));
  rd_len : (length aux <= 16)%nat;
  rd_aux : Forall has_addr aux;
  rd_g3 : num_rec_aux d = Z.of_nat (length aux) → aux !! 3%nat = Some g3;
  rd_m3 : num_rec_aux d = Z.of_nat (length aux) → mem s !! g3 = Some PZero ∧ g3 ≠ g_rec ∧ g3 ≠ g_rd;
}.

Lemma rec_create_locked_run s g_rec g_rd rc tagr tagd g3 d p aux :
  rec_ready s g_rec g_rd rc tagr tagd g3 d p aux →
  match rec_refused rc d p (Z.of_nat (length aux)) with
  | Some e => rec_create_locked p g_rec g_rd aux (Z.of_nat (length aux)) (lock_one g_rec (lock_one g_rd s)) = Ok (e, s)
  | None => ∃ r ctx rtt_addr,
      rec_create_locked p g_rec g_rd aux (Z.of_nat (length aux)) (lock_one g_rec (lock_one g_rd s))
      = Ok (RMI_SUCCESS, rec_made g_rec g_rd rc tagr tagd g3 r ctx (rd_with_rec p r d) s) ∧
      rec_fresh r g_rec (rec_count d) g_rd p aux d ∧ rec_regime r d rtt_addr ∧ granule_addr (g_rtt (s2_ctx d)) = Ok rtt_addr ∧
      simd_context_init SIMD_OWNER_REL1 simd_context_zero (simd_cfg d) = Some ctx
  end.
Proof using L HL CL CRL.
  intros [Hs Hne Hgr Hgd Hok Har Had Hmr Hmd Hd [m0 Hrim] Hop Hlen Haux H3 Hm3].
  rewrite (lock_one_Gr g_rd s _ _ _ Hgd Hok), (lock_one_Gr g_rec (put_granule g_rd _ s) GRANULE_STATE_DELEGATED 0 tagr);
    [|by rewrite put_granule_lookup_ne by done|done].
  unfold rec_create_locked. st_norm. rewrite Hs.
  assert (Hend : ∀ (e rc' : Z) m, gok GRANULE_STATE_RD rc' →
    (granule_unlock g_rd ≫= λ _, granule_unlock_transition g_rec (if e =? RMI_SUCCESS then GRANULE_STATE_REC else GRANULE_STATE_DELEGATED) ≫= λ _, mret e)
    {| granules := <[g_rec := Gr true GRANULE_STATE_DELEGATED 0 tagr]> (<[g_rd := Gr true GRANULE_STATE_RD rc' tagd]> (granules s));
       mem := m; slots := ∅; vttbr_el2 := vttbr_el2 s; tlbi := tlbi s; tags := tags s; csm_ids := csm_ids s; vmids := vmids s |}
    = Ok (e, set_granules (<[g_rd := Gr false GRANULE_STATE_RD rc' tagd]>
        (<[g_rec := Gr false (if e =? RMI_SUCCESS then GRANULE_STATE_REC else GRANULE_STATE_DELEGATED) 0 tagr]> (granules s))) (set_mem m s))).
  { intros e rc' m Hok'. exec granule_unlock_run. destruct (e =? RMI_SUCCESS); exec granule_unlock_transition_run; unfold mret, M_ret;
      unfold set_granules, set_mem; cbn [granules mem slots vttbr_el2 tlbi tags csm_ids vmids]; rewrite Hs; do 3 f_equal.
    all: apply map_eq; intros k; destruct (decide (k = g_rec)) as [->|]; [by rewrite ?lookup_insert_eq, ?(lookup_insert_ne _ g_rd g_rec), ?lookup_insert_eq by done|].
    all: destruct (decide (k = g_rd)) as [->|]; [by rewrite !(lookup_insert_ne _ g_rec g_rd), ?lookup_insert_eq by done|]; by rewrite !lookup_insert_ne. }
  assert (Hsame : ∀ e, (e =? RMI_SUCCESS) = false → set_granules (<[g_rd := Gr false GRANULE_STATE_RD rc tagd]>
        (<[g_rec := Gr false (if e =? RMI_SUCCESS then GRANULE_STATE_REC else GRANULE_STATE_DELEGATED) 0 tagr]> (granules s))) (set_mem (mem s) s) = s).
  { intros e ->. unfold set_granules, set_mem. cbn. rewrite (insert_id (granules s) g_rec) by done. rewrite insert_id by done. by destruct s. }
  unfold granule_refcount_read. exec REFCOUNT_run. unfold rec_refused.
  destruct (Z.eqb_spec rc REFCOUNT_MAX) as [Hmax|Hmax]; [by rewrite ret_bind, Hend, Hsame|].
  assoc. exec map_assert_run. assoc. exec map_assert_run. assoc. unfold create_rec. assoc.
  erewrite bind_run; [|eapply read_rd_run; [exec_side..|reflexivity]]. cbv beta. unfold get_rd_state_locked, get_rd_rec_count_locked.
  assert (Hclose : ∀ (e rc' : Z) m, gok GRANULE_STATE_RD rc' →
    (buffer_unmap SLOT_RD ≫= λ _, (buffer_unmap SLOT_REC ≫= λ _, mret e) ≫= λ ret, granule_unlock g_rd ≫= λ _, granule_unlock_transition g_rec (if ret =? RMI_SUCCESS then GRANULE_STATE_REC else GRANULE_STATE_DELEGATED) ≫= λ _, mret ret)
    {| granules := <[g_rec := Gr true GRANULE_STATE_DELEGATED 0 tagr]> (<[g_rd := Gr true GRANULE_STATE_RD rc' tagd]> (granules s));
       mem := m; slots := <[SLOT_RD := g_rd]> (<[SLOT_REC := g_rec]> ∅); vttbr_el2 := vttbr_el2 s; tlbi := tlbi s; tags := tags s; csm_ids := csm_ids s; vmids := vmids s |}
    = Ok (e, set_granules (<[g_rd := Gr false GRANULE_STATE_RD rc' tagd]>
        (<[g_rec := Gr false (if e =? RMI_SUCCESS then GRANULE_STATE_REC else GRANULE_STATE_DELEGATED) 0 tagr]> (granules s))) (set_mem m s))).
  { intros e rc' m Hok'. exec buffer_unmap_run. assoc. exec buffer_unmap_run. rewrite ret_bind.
    rewrite (delete_insert_id _ SLOT_RD), delete_insert_id by done. by apply Hend. }
  destruct (rd_state d =? REALM_NEW); cbn [negb]; [|rewrite ret_bind, bind_assoc, Hclose by done; by rewrite Hsame].
  cbv zeta. destruct (negb (rec_mpidr_is_valid (c_mpidr p)) || negb (rec_count d =? rec_mpidr_to_idx (c_mpidr p))) eqn:Hmp;
    [rewrite ret_bind, bind_assoc, Hclose by done; by rewrite Hsame|].
  destruct (Z.eqb_spec (Z.of_nat (length aux)) (num_rec_aux d)) as [Hn|Hn]; cbn [negb];
    [|rewrite ret_bind, bind_assoc, Hclose by done; by rewrite Hsame].
  destruct (Hm3 (eq_sym Hn)) as (Hm3' & H3r & H3d). clear Hm3. rename Hm3' into Hm3.
  pose proof Hop as (_ & _ & Hgp & _). change REC_CREATE_NR_GPRS with 8%nat in Hgp.
  destruct (init_rec_run g_rec (rec_count d) g_rd p aux d Hd Hgp Hlen) as (r & a & Hinit & Ha & Hfresh & Hreg & _).
  destruct (simd_init_run d Hd) as [ctx Hctx]. exists r, ctx, a. split; [|done].
  apply orb_false_iff in Hmp as [_ Hidx%negb_false_iff%Z.eqb_eq]. pose proof (rec_idx_range (c_mpidr p)) as Hir. rewrite <- Hidx in Hir.
  assert (Hmeas : measurement_rec_params_measure (rim d) (algorithm d) (c_measured p)
    = Ok (slot_of (algorithm d) (desc_msg (algorithm d) (rim d) (MRec (c_measured p))))).
  { rewrite Hrim. exact (rim_step_run (algorithm d) m0 (MRec (c_measured p)) Hop). }
  pose proof (rr_aux d Hd) as Hra. pose proof (rr_pages d Hd) as Hpg.
  pose proof (rf_num _ _ _ _ _ _ _ Hfresh) as Hnr. pose proof (rf_aux _ _ _ _ _ _ _ Hfresh) as Har'.
  set (d1 := if runnable r then set_rd_rim (slot_of (algorithm d) (desc_msg (algorithm d) (rim d) (MRec (c_measured p)))) d else d).
  assoc. erewrite bind_run; [|eapply read_rec_run; [exec_side..|reflexivity]]. cbv beta. assoc.
  run_step (lift_run _ _ _ Hinit). assoc. exec write_page_run. assoc.
  set (s1 := {| granules := _; mem := _; slots := _; vttbr_el2 := _; tlbi := _; tags := _; csm_ids := _; vmids := _ |}).
  assert (Hmid : (if runnable r then lift (measurement_rec_params_measure (rim d) (algorithm d) (c_measured p)) ≫= λ m, write_page SLOT_RD (PRd (set_rd_rim m d))
    else mret ()) s1 = Ok ((), set_mem (<[g_rd := PRd d1]> (mem s1)) s1)).
  { unfold d1. destruct (runnable r).
    - run_step (lift_run _ _ s1 Hmeas). apply write_page_run. unfold s1. lk_solve.
    - unfold mret, M_ret. rewrite (insert_id (mem s1)); [done|]. unfold s1. cbn. by rewrite lookup_insert_ne. }
  run_step Hmid. unfold s1. st_norm. assoc. unfold atomic_granule_get. destruct Hok as [_ Hrc].
  erewrite bind_run; [|eapply (granule_refcount_inc_run (rc := rc) (tag := tagd)); [lk_solve|by split|done|lia|lia]]. cbv beta. st_norm.
  assoc. erewrite bind_run; [|eapply (rec_aux_granules_init_run _ r g3 ctx)]; cycle 1.
  { rewrite Har', Hnr. lia. }
  { lia. }
  { lia. }
  { by rewrite Har'. }
  { intros k Hk. cbn. rewrite !lookup_insert_ne by (unfold SLOT_RD, SLOT_REC, SLOT_REC_AUX0; lia). done. }
  { rewrite Har'. by apply H3. }
  { cbn. by rewrite !lookup_insert_ne by done. }
  { by rewrite (rf_realm _ _ _ _ _ _ _ Hfresh). }
  cbv beta. st_norm. assoc.
  erewrite bind_run; [|eapply (read_rd_run _ _ g_rd (PRd d1) d1); [lk_solve| |reflexivity]]; cycle 1.
  { cbn. by rewrite lookup_insert_ne, lookup_insert_eq by done. }
  cbv beta. assoc. exec write_page_run. rewrite ret_bind.
  rewrite (insert_insert_ne _ g_rd g_rec) by done. rewrite (insert_insert_eq (granules s) g_rd). rewrite bind_assoc. rewrite Hclose by (split; [done|lia]).
  unfold rec_made. cbn [Z.eqb RMI_SUCCESS]. do 3 f_equal. rewrite u64_small by (unfold is_u64; lia). unfold rd_with_rec.
  fold d1. f_equal. apply map_eq. intros k. destruct (decide (k = g_rd)) as [->|]; [by rewrite !lookup_insert_eq|].
  rewrite !(lookup_insert_ne _ g_rd k) by done. destruct (decide (k = g3)) as [->|]; [by rewrite !lookup_insert_eq|].
  rewrite !(lookup_insert_ne _ g3 k) by done. by rewrite (lookup_insert_ne _ g_rd k) by done.
Qed.

(** * The command *)

Lemma array_at_range off n bytes : Forall (λ b, 0 <= b < 256) bytes → Forall is_u64 (array_at off n bytes).
Proof using.
  clear. intros Hb. unfold array_at. apply Forall_fmap, Forall_forall. intros i _. exact (member_at_range (off + 8 * i) 8 bytes Hb).
Qed.

Lemma host_rec_params_ok s addr p :
  host_rec_params s addr = Some p →
  op_ok (MRec (c_measured p)) ∧ Forall is_u64 (c_aux p) ∧ length (c_aux p) = 16%nat.
Proof using HL.
  unfold host_rec_params. destruct (find_granule addr) as [[g|]|]; [|done..]. destruct (granules s !! g); [|done].
  destruct (_ =? _); [|done]. pose proof (memcpy_ns_read_byte 512 (set_slots (<[SLOT_NS := g]> (slots s)) s) g 0) as Hb.
  destruct (memcpy_ns_read 512 _ g 0) as [[|] bytes]; [|done]. intros [= <-]. cbn [snd] in Hb.
  split; [|split].
  - cbn [op_ok c_measured rec_params_of_bytes cp_flags cp_pc cp_gprs]. split; [exact (member_at_range 0 8 bytes Hb)|].
    split; [exact (member_at_range 512 8 bytes Hb)|]. split; [reflexivity|by apply array_at_range].
  - by apply array_at_range.
  - reflexivity.
Qed.

Lemma pick_aux_spec s : ∀ l gs,
  Forall is_u64 l →
  let '(ok, gs') := pick_aux s l gs in
  (∀ g, g ∈ gs' → g ∈ gs ∨ ∃ a, is_u64 a ∧ lockable s a GRANULE_STATE_DELEGATED = Some g) ∧
  (ok = true → length gs' = (length gs + length l)%nat).
Proof using.
  clear. induction l as [|a l IH]; intros gs Hu; cbn [pick_aux].
  { split; [by left|]. intros _. cbn [length]. lia. }
  apply Forall_cons in Hu as [Ha Hu].
  destruct (lockable s a GRANULE_STATE_DELEGATED) as [g|] eqn:Hl; [|split; [by left|done]].
  destruct (decide (g ∈ gs)); [split; [by left|done]|]. specialize (IH (gs ++ [g]) Hu).
  destruct (pick_aux s l (gs ++ [g])) as [ok gs']. destruct IH as [IH1 IH2]. split.
  - intros h Hh. destruct (IH1 h Hh) as [Hin|Hex]; [|by right]. apply elem_of_app in Hin as [?|Hin]; [by left|].
    apply list_elem_of_singleton in Hin as ->. right. by exists a.
  - intros Hok. rewrite (IH2 Hok), length_app. cbn [length]. lia.
Qed.

(** Giving back what was taken leaves the state as it was. *)
Lemma free_taken s aux :
  slots s = ∅ → NoDup aux → (length aux <= 16)%nat →
  (∀ g, g ∈ aux → in_state s GRANULE_STATE_DELEGATED g ∧ has_addr g) →
  free_rec_aux_granules aux (Z.of_nat (length aux)) false (with_aux aux s) = Ok ((), s).
Proof using L HL.
  clear CL CRL. intros Hs Hnd Hlen Haux. unfold free_rec_aux_granules. rewrite Nat2Z.id, take_ge by lia.
  rewrite free_aux_loop_run; [|done| |lia|lia|].
  - cbn [granules with_aux set_granules]. rewrite restate_restate, restate_id by (intros g Hg; by apply Haux). by destruct s.
  - intros g Hg. destruct (Haux g Hg) as [[tag Ht] Ha]. split; [|done]. exists tag. cbn. by eapply restate_in.
  - intros k Hk. cbn. by rewrite Hs.
Qed.

(** What a granted or refused request for a REC in [g_rec] comes to, the auxiliary granules
    being [aux]. *)
Definition rec_outcome (s : state) (p : rec_params) (g_rec g_rd : Z) (aux : list Z) (out : result (Z * state)) : Prop :=
  ∃ d rc tagr tagd,
    mem s !! g_rd = Some (PRd d) ∧ granules s !! g_rd = Some (Gr false GRANULE_STATE_RD rc tagd) ∧ gok GRANULE_STATE_RD rc ∧
    granules s !! g_rec = Some (Gr false GRANULE_STATE_DELEGATED 0 tagr) ∧
    match rec_refused rc d p (Z.of_nat (length aux)) with
    | Some e => out = Ok (e, s)
    | None => ∃ g3 r ctx rtt_addr,
        out = Ok (RMI_SUCCESS, rec_made g_rec g_rd rc tagr tagd g3 r ctx (rd_with_rec p r d) (with_aux aux s)) ∧
        aux !! 3%nat = Some g3 ∧ rec_fresh r g_rec (rec_count d) g_rd p aux d ∧
        granule_addr (g_rtt (s2_ctx d)) = Ok rtt_addr ∧ rec_regime r d rtt_addr
    end.

Lemma rec_refused_error rc d p n e : rec_refused rc d p n = Some e → (e =? RMI_SUCCESS) = false.
Proof using. clear. unfold rec_refused. by repeat case_match; intros [= <-]. Qed.

Lemma rec_create_taken s p rec_addr rd_addr aux :
  quiescent s → slots s = ∅ → delegated_wiped s → is_u64 rec_addr → is_u64 rd_addr → op_ok (MRec (c_measured p)) →
  (∀ g_rd, lockable s rd_addr GRANULE_STATE_RD = Some g_rd →
     ∃ d m, mem s !! g_rd = Some (PRd d) ∧ rd_rec_ok d ∧ rim d = slot_of (algorithm d) m) →
  NoDup aux → (length aux <= 16)%nat →
  (∀ g, g ∈ aux → ∃ a, is_u64 a ∧ lockable s a GRANULE_STATE_DELEGATED = Some g) →
  let out := (find_lock_two_granules rec_addr GRANULE_STATE_DELEGATED rd_addr GRANULE_STATE_RD ≫= λ og,
     match og with
     | None => mret RMI_ERROR_INPUT
     | Some (g_rec, g_rd) => rec_create_locked p g_rec g_rd aux (Z.of_nat (length aux))
     end ≫= λ ret,
     mwhen (negb (ret =? RMI_SUCCESS)) (free_rec_aux_granules aux (Z.of_nat (length aux)) false) ≫= λ _, mret ret) (with_aux aux s) in
  match lockable s rec_addr GRANULE_STATE_DELEGATED, lockable s rd_addr GRANULE_STATE_RD with
  | Some g_rec, Some g_rd =>
      if decide (g_rec ∈ aux) then out = Ok (RMI_ERROR_INPUT, s) else rec_outcome s p g_rec g_rd aux out
  | _, _ => out = Ok (RMI_ERROR_INPUT, s)
  end.
Proof using L HL CL CRL.
  intros Hq Hs Hw Hur Hud Hop Hrd Hnd Hlen Haux out.
  assert (Hg : ∀ g, g ∈ aux → in_state s GRANULE_STATE_DELEGATED g ∧ has_addr g ∧ mem s !! g = Some PZero).
  { intros g Hin. destruct (Haux g Hin) as (a & Ha & Hl). destruct (delegated_granule _ _ _ Hq Hw Ha Hl) as (Had & _ & Hm & tag & Ht).
    split; [by exists tag|]. done. }
  pose proof (free_taken s aux Hs Hnd Hlen ltac:(intros g Hin; by destruct (Hg g Hin) as (? & ? & _))) as Hfree.
  pose proof (find_lock_two_granules_spec (with_aux aux s) rec_addr GRANULE_STATE_DELEGATED rd_addr GRANULE_STATE_RD
    (with_aux_quiet aux s Hq) Hur Hud) as Hf. rewrite !with_aux_lockable in Hf by done.
  assert (Hfail : find_lock_two_granules rec_addr GRANULE_STATE_DELEGATED rd_addr GRANULE_STATE_RD (with_aux aux s) = Ok (None, with_aux aux s) →
    out = Ok (RMI_ERROR_INPUT, s)).
  { intros Hnone. unfold out. run_step Hnone. rewrite ret_bind. cbn [negb mwhen Z.eqb RMI_ERROR_INPUT RMI_SUCCESS]. by run_step Hfree. }
  destruct (lockable s rec_addr GRANULE_STATE_DELEGATED) as [g_rec|] eqn:Hlr; [|by apply Hfail].
  destruct (lockable s rd_addr GRANULE_STATE_RD) as [g_rd|] eqn:Hld; cycle 1.
  { apply Hfail. rewrite Hf. cbn [mbind option_bind]. by destruct (decide (g_rec ∈ aux)). }
  cbn [mbind option_bind] in Hf. destruct (decide (g_rec ∈ aux)) as [|Hout]; [by apply Hfail|].
  destruct (lockable_Some _ _ _ _ Hq Hud Hld) as (Hfd & _ & Had & _ & _ & rc & tagd & Hgd & Hok & _).
  destruct (delegated_granule _ _ _ Hq Hw Hur Hlr) as (Har & _ & Hmr & tagr & Hgr).
  assert (Hne : g_rec ≠ g_rd).
  { intros ->. rewrite Hgr in Hgd. injection Hgd as Hgd _. apply (f_equal d_state) in Hgd. rewrite !desc_state in Hgd; done. }
  assert (Hrda : g_rd ∉ aux).
  { intros Hin. destruct (Hg g_rd Hin) as ([tag Ht] & _). rewrite Hgd in Ht. injection Ht as Ht _. apply (f_equal d_state) in Ht. rewrite !desc_state in Ht; done. }
  rewrite decide_False in Hf by done.
  destruct (Z.eqb_spec rec_addr rd_addr) as [->|Hna].
  { exfalso. apply Hne. apply lockable_find in Hlr. congruence. }
  destruct (Hrd g_rd eq_refl) as (d & m & Hmd & Hd & Hrim). exists d, rc, tagr, tagd. do 4 (split; [done|]).
  assert (Hready : ∀ g3, (num_rec_aux d = Z.of_nat (length aux) → aux !! 3%nat = Some g3) →
    rec_ready (with_aux aux s) g_rec g_rd rc tagr tagd g3 d p aux).
  { intros g3 H3. split; try done.
    - cbn. by rewrite restate_out.
    - cbn. by rewrite restate_out.
    - by exists m.
    - apply Forall_forall. intros g Hin. by destruct (Hg g Hin) as (_ & ? & _).
    - intros Hn. apply H3, list_elem_of_lookup_2 in Hn. destruct (Hg g3 Hn) as (_ & _ & ?). split; [done|]. split; congruence. }
  assert (H3 : ∃ g3, num_rec_aux d = Z.of_nat (length aux) → aux !! 3%nat = Some g3).
  { destruct (aux !! 3%nat) as [g3|] eqn:H3; [by exists g3|]. exists 0. intros Hn. apply lookup_ge_None in H3.
    pose proof (rr_aux d Hd). lia. }
  destruct H3 as [g3 H3]. pose proof (rec_create_locked_run _ _ _ _ _ _ _ _ _ _ (Hready g3 H3)) as Hrun.
  unfold out. run_step Hf. cbv iota.
  destruct (rec_refused rc d p (Z.of_nat (length aux))) as [e|] eqn:Href.
  - run_step Hrun. rewrite (rec_refused_error _ _ _ _ _ Href). cbn [negb mwhen]. by run_step Hfree.
  - destruct Hrun as (r & ctx & a & Hrun & Hfresh & Hreg & Ha & _). exists g3, r, ctx, a. split; [|split; [|done]].
    + by run_step Hrun.
    + apply H3. unfold rec_refused in Href. repeat case_match; try done.
      match goal with Hx : negb (_ =? num_rec_aux d) = false |- _ => apply negb_false_iff, Z.eqb_eq in Hx end. lia.
Qed.
(** The command up to the auxiliary granules. *)
Lemma smc_rec_create_request s rd_addr rec_addr params_addr :
  quiescent s → slots s = ∅ → is_u64 params_addr →
  smc_rec_create rd_addr rec_addr params_addr s
  = match host_rec_params s params_addr with
    | None => Ok (RMI_ERROR_INPUT, s)
    | Some p =>
        let n := u32 (c_num_aux p) in
        if MAX_REC_AUX_GRANULES <? n then Ok (RMI_ERROR_INPUT, s)
        else match pick_aux s (take (Z.to_nat n) (c_aux p)) [] with
          | (true, aux) => (find_lock_two_granules rec_addr GRANULE_STATE_DELEGATED rd_addr GRANULE_STATE_RD ≫= λ og,
              match og with
              | None => mret RMI_ERROR_INPUT
              | Some (g_rec, g_rd) => rec_create_locked p g_rec g_rd aux (Z.of_nat (length aux))
              end ≫= λ ret,
              mwhen (negb (ret =? RMI_SUCCESS)) (free_rec_aux_granules aux (Z.of_nat (length aux)) false) ≫= λ _, mret ret) (with_aux aux s)
          | (false, []) => Ok (RMI_ERROR_INPUT, s)
          | (false, _) => Err FAssert
          end
    end.
Proof using L HL.
  clear CL CRL. intros Hq Hs Ha. unfold smc_rec_create. pose proof (host_rec_params_ok s params_addr) as Hok. revert Hok. unfold host_rec_params.
  destruct (find_granule_total params_addr Ha) as [[g|] Hf]; rewrite Hf; run_step (lift_run _ _ s eq_refl); [|done].
  pose proof (find_granule_Some _ _ Ha Hf) as (_ & Hr & _). destruct (Hq g Hr) as (gr & Hg & st & rc & tag & -> & Hgk & _).
  unfold granule_unlocked_state. erewrite bind_run by (by eapply STATE_run). rewrite Hg. cbn [Gr descriptor]. rewrite desc_state by done.
  cbn [v_state]. destruct (st =? GRANULE_STATE_NS); cbn [negb]; [|done].
  erewrite bind_run by (apply ns_buffer_read_run; [by eapply find_granule_has_addr|by rewrite Hs|lia|done|done|done]).
  change (Z.to_nat (4096 / 8)) with 512%nat. change (0 mod 4096) with 0.
  destruct (memcpy_ns_read 512 _ g 0) as [[|] bytes]; cbn [negb]; [|done]. intros Hok.
  set (p := rec_params_of_bytes bytes) in *. destruct (Hok p eq_refl) as (_ & Hu & Hlen). cbv zeta.
  destruct (Z.ltb_spec MAX_REC_AUX_GRANULES (u32 (c_num_aux p))) as [|Hn]; [done|].
  set (n := u32 (c_num_aux p)) in *. assert (Hn0 : 0 <= n <= 16) by (change MAX_REC_AUX_GRANULES with 16 in Hn; unfold n, u32 in *; pose proof (Z.mod_pos_bound (c_num_aux p) (2 ^ 32) ltac:(lia)); lia).
  set (l := take (Z.to_nat n) (c_aux p)). assert (Hl : length l = Z.to_nat n) by (unfold l; rewrite length_take; lia).
  pose proof (take_aux_loop_run s (c_aux p) l [] Hq (Forall_take _ _ _ Hu)) as Hloop. unfold with_aux in Hloop at 1.
  rewrite restate_nil, Hl in Hloop. cbn [length drop] in Hloop. change (Z.of_nat 0) with 0 in Hloop.
  replace (set_granules (granules s) s) with s in Hloop by (by destruct s).
  specialize (Hloop eq_refl NoDup_nil_2 ltac:(intros h Hh; by apply not_elem_of_nil in Hh) ltac:(lia)). pose proof (pick_aux_spec s l [] (Forall_take _ _ _ Hu)) as Hpick.
  destruct (pick_aux s l []) as [[|] [|g1 aux]]; [run_step Hloop|run_step Hloop|by run_step Hloop|by apply bind_run_err].
  all: destruct Hpick as [_ Hpl]; specialize (Hpl eq_refl); rewrite Hl in Hpl; cbn [length Nat.add] in Hpl.
  all: replace n with (Z.of_nat (Z.to_nat n)) by lia; rewrite <- Hpl; done.
Qed.

End create.
