(* ===== verification/RecDemo.v ===== *)
(** Concrete RECs: a realm that gets its first REC and loses it again. *)
From S2P Require Import Prelude Types Granule Platform GranuleFind S2tte S2tt Measurement Buffer Walk Exec Realm Rtt RttTree RttFold RttCreate Data DataCreate Feature Rsi Gic Mpidr Psci PsciSpec RealmCmd RealmInit RealmCreate Rec RecAux RecInit RecCreate.

(** * An example: a realm with no REC yet gets its first *)

Definition rec_bytes : list Z :=
  member 256 (le_bytes 8 1) ++ member 256 (le_bytes 8 0) ++ member 256 (le_bytes 8 0x80000) ++
  member 1280 (concat (le_bytes 8 <$> [11; 12; 13; 14; 15; 16; 17; 18])) ++
  member 2048 (le_bytes 8 8 ++ concat ((λ i, le_bytes 8 (4096 * i)) <$> [2; 3; 4; 5; 6; 7; 8; 9])).

Definition new_realm : rd :=
  {| rd_state := REALM_NEW; rec_count := 0; rim := slot_of (C := toy_crypto) HASH_SHA_256 []; rems := replicate 4 (replicate 64 0);
     s2_ctx := {| ipa_bits := 40; s2_starting_level := 1; num_root_rtts := 1; g_rtt := 11; vmid := 5; enable_lpa2 := false |};
     num_rec_aux := 8; algorithm := HASH_SHA_256; pmu_enabled := true; pmu_num_ctrs := 2; simd_cfg := simd_config_zero;
     rpv := replicate 64 0; apt_pa := 0 |}.

(** Granule 0 holds the descriptor, 1 is for the REC, 2 to 9 are for its auxiliary data, 10
    holds the host's parameters and 11 the root table. *)
Definition rec_platform : Platform := flat_platform 12 0.
Definition rec_state : state :=
  set_granules (list_to_map ((0, Gr false GRANULE_STATE_RD 0 0) :: (10, Gr false GRANULE_STATE_NS 0 0) :: (11, Gr false GRANULE_STATE_RTT 0 0) ::
    ((λ g, (g, Gr false GRANULE_STATE_DELEGATED 0 0)) <$> [1; 2; 3; 4; 5; 6; 7; 8; 9])))
  (set_mem (list_to_map ((0, PRd new_realm) :: ((λ g, (g, PZero)) <$> [1; 2; 3; 4; 5; 6; 7; 8; 9]))) state_init).

#[local] Instance rec_env : RecEnv := {| read_mdcr_el2 := 0; ENABLE_OPENCCA_PERF := false; RMM_CCA_TOKEN_BUFFER := 1 |}.
Definition rec_laws : PlatformLaws rec_platform := flat_laws 12 0 ltac:(lia) ltac:(lia) eq_refl.

Lemma rec_bytes_byte : Forall (λ x, 0 <= x < 256) rec_bytes.
Proof.
  assert (Hb : forallb (λ x, (0 <=? x) && (x <? 256)) rec_bytes = true) by (vm_compute; reflexivity).
  apply Forall_forall. intros x Hx%list_elem_of_In. rewrite forallb_forall in Hb. specialize (Hb x Hx). lia.
Qed.

Definition rec_machine_laws : MachineLaws rec_platform (bytes_machine rec_bytes) :=
  bytes_machine_laws 12 0 rec_bytes ltac:(lia) ltac:(lia) eq_refl rec_bytes_byte.

Lemma rec_quiescent : quiescent (P := rec_platform) rec_state.
Proof.
  intros g Hg. change RMM_MAX_GRANULES with 12 in Hg.
  assert (g ∈ seqZ 0 12) as Hin by (by apply elem_of_seqZ). clear Hg. revert g Hin. apply Forall_forall.
  change (seqZ 0 12) with [0; 1; 2; 3; 4; 5; 6; 7; 8; 9; 10; 11].
  repeat (apply Forall_cons; split; [eexists; split; [reflexivity|]; by eexists _, _, _|]). by apply Forall_nil.
Qed.

Lemma rec_wiped : delegated_wiped rec_state.
Proof.
  intros g rc tag Hg Hok.
  assert (Hst : d_state (descriptor (Gr false GRANULE_STATE_DELEGATED rc tag)) = GRANULE_STATE_DELEGATED)
    by (cbn [Gr descriptor]; by rewrite desc_state).
  apply elem_of_list_to_map_2 in Hg. cbn [fmap list_fmap] in Hg. rewrite !elem_of_cons in Hg.
  repeat (destruct Hg as [He|Hg];
    [pose proof (f_equal snd He) as Hs; apply (f_equal fst) in He; cbn [fst snd] in He, Hs; rewrite Hs in Hst; subst g; first [reflexivity|by vm_compute in Hst]|]).
  by apply not_elem_of_nil in Hg.
Qed.

Lemma new_realm_ok : rd_rec_ok (P := rec_platform) (CPU := demo_cpu) new_realm.
Proof. split; try reflexivity; try (by vm_compute). split; [done|]. by eexists. Qed.

Definition rec_request : rec_params :=
  {| c_measured := {| cp_flags := 1; cp_pc := 0x80000; cp_gprs := [11; 12; 13; 14; 15; 16; 17; 18] |};
     c_mpidr := 0; c_num_aux := 8; c_aux := ((λ i, 4096 * i) <$> [2; 3; 4; 5; 6; 7; 8; 9]) ++ replicate 8 0 |}.

Lemma init_rec_spec_witness :
  ∃ r, init_rec (P := rec_platform) (CF := arm_config) (CPU := demo_cpu) 1 0 0 rec_request [2; 3; 4; 5; 6; 7; 8; 9] 8 new_realm rec_zero = Ok r ∧
    pc r = 0x80000 ∧ inf_pmu_enabled (realm_info r) = true ∧ pmcr_el0 (sysregs r) = PMCR_EL0_INIT.
Proof.
  destruct (init_rec_spec (P := rec_platform) (CF := arm_config) (CPU := demo_cpu) (L := rec_laws) (CL := demo_cpu_laws)
    1 0 0 rec_request [2; 3; 4; 5; 6; 7; 8; 9] new_realm new_realm_ok eq_refl ltac:(cbn; lia)) as (r & a & Hr & _ & Hf & _ & Hp).
  exists r. split; [exact Hr|]. split; [exact (rf_pc _ _ _ _ _ _ _ Hf)|]. split; [|exact Hp]. by rewrite (rf_realm _ _ _ _ _ _ _ Hf).
Defined.


(** Granule 1 holds a REC of the realm in granule 0, with auxiliary granules 2 and 3. *)
Definition old_rec : rec := set_g_aux [2; 3] 2 (set_rec_id 1 0 rec_zero).
Definition old_state : state :=
  set_granules (list_to_map ((0, Gr false GRANULE_STATE_RD 1 0) :: (1, Gr false GRANULE_STATE_REC 0 0) ::
    ((λ g, (g, Gr false GRANULE_STATE_REC_AUX 0 0)) <$> [2; 3]) ++ ((λ g, (g, Gr false GRANULE_STATE_NS 0 0)) <$> [4; 5; 6; 7; 8; 9; 10; 11])))
  (set_mem (list_to_map [(0, PRd new_realm); (1, PRec old_rec); (2, PZero); (3, PZero)]) state_init).

Lemma old_quiescent : quiescent (P := rec_platform) old_state.
Proof.
  intros g Hg. change RMM_MAX_GRANULES with 12 in Hg.
  assert (g ∈ seqZ 0 12) as Hin by (by apply elem_of_seqZ). clear Hg. revert g Hin. apply Forall_forall.
  change (seqZ 0 12) with [0; 1; 2; 3; 4; 5; 6; 7; 8; 9; 10; 11].
  repeat (apply Forall_cons; split; [eexists; split; [reflexivity|]; by eexists _, _, _|]). by apply Forall_nil.
Qed.

Lemma old_owned : rec_owned (P := rec_platform) old_state 1 old_rec 1 0.
Proof.
  split; try reflexivity.
  - by vm_compute.
  - apply (bool_decide_eq_true_1 _). by vm_compute.
  - intros h Hh. change (aux_of old_rec) with [2; 3] in Hh. rewrite !elem_of_cons, elem_of_nil in Hh.
    destruct Hh as [->|[->|[]]]; (split; [by exists 0|split; [done|by eexists]]).
  - by vm_compute.
Qed.

Lemma smc_rec_destroy_spec_witness :
  ∃ s', smc_rec_destroy (P := rec_platform) (H := zero_machine) 4096 old_state = Ok (RMI_SUCCESS, s') ∧
    mem s' !! 2 = Some PZero ∧ granules s' !! 3 = Some (Gr false GRANULE_STATE_DELEGATED 0 0) ∧
    granules s' !! 0 = Some (Gr false GRANULE_STATE_RD 0 0).
Proof.
  pose proof (smc_rec_destroy_spec (P := rec_platform) (H := zero_machine) (L := rec_laws)
    (HL := zero_machine_laws 12 0 ltac:(lia) ltac:(lia) eq_refl) old_state 4096 old_quiescent eq_refl ltac:(done)) as Hd.
  assert (Hl : lockable (P := rec_platform) old_state 4096 GRANULE_STATE_REC = Some 1) by (vm_compute; reflexivity).
  rewrite Hl in Hd. specialize (Hd old_rec 1 0 old_owned).
  assert (Hr : (refs_of old_state 1 =? 0) = true) by (vm_compute; reflexivity). rewrite Hr in Hd.
  exists (rec_gone 1 old_rec 1 0 old_state). split; [exact Hd|]. split; [|split]; vm_compute; reflexivity.
Defined.
