(* ===== verification/Esr.v ===== *)
(** Exception syndromes and the injection of exceptions into realms (lib/arch/include/arch.h,
    lib/arch/include/esr.h, runtime/core/inject_exp.c, inject_serror of runtime/core/run.c). *)
From S2P Require Import Prelude Types Granule Platform GranuleFind S2tte S2tt Buffer Walk Exec Realm Rtt Feature Rsi Gic Mpidr Psci.

(** * Registers *)

Definition ESR_EL2_EC : bitfield := {| fshift := 26; fwidth := 6 |}.
Definition ESR_EL2_IL : bitfield := {| fshift := 25; fwidth := 1 |}.
Definition ESR_EL2_EC_UNKNOWN : Z := INPLACE_F ESR_EL2_EC 0.
Definition ESR_EL2_EC_WFX : Z := INPLACE_F ESR_EL2_EC 1.
Definition ESR_EL2_EC_FPU : Z := INPLACE_F ESR_EL2_EC 7.
Definition ESR_EL2_EC_HVC : Z := INPLACE_F ESR_EL2_EC 22.
Definition ESR_EL2_EC_SMC : Z := INPLACE_F ESR_EL2_EC 23.
Definition ESR_EL2_EC_SYSREG : Z := INPLACE_F ESR_EL2_EC 24.
Definition ESR_EL2_EC_SVE : Z := INPLACE_F ESR_EL2_EC 25.
Definition ESR_EL2_EC_SME : Z := INPLACE_F ESR_EL2_EC 29.
Definition ESR_EL2_EC_INST_ABORT : Z := INPLACE_F ESR_EL2_EC 32.
Definition ESR_EL2_EC_DATA_ABORT : Z := INPLACE_F ESR_EL2_EC 36.
Definition ESR_EL2_ABORT_ISV_BIT : Z := 1 .<< 24.
Definition ESR_EL2_ABORT_SAS : bitfield := {| fshift := 22; fwidth := 2 |}.
Definition ESR_EL2_ABORT_SAS_BYTE_VAL : Z := 0.
Definition ESR_EL2_ABORT_SAS_HWORD_VAL : Z := 1.
Definition ESR_EL2_ABORT_SAS_WORD_VAL : Z := 2.
Definition ESR_EL2_ABORT_SAS_DWORD_VAL : Z := 3.
Definition ESR_EL2_ABORT_SSE_BIT : Z := 1 .<< 21.
Definition ESR_EL2_ABORT_SRT : bitfield := {| fshift := 16; fwidth := 5 |}.
Definition ESR_EL2_ABORT_SET : bitfield := {| fshift := 11; fwidth := 2 |}.
Definition ESR_EL2_ABORT_SET_UER : Z := INPLACE_F ESR_EL2_ABORT_SET 0.
Definition ESR_EL2_ABORT_SET_UC : Z := INPLACE_F ESR_EL2_ABORT_SET 2.
Definition ESR_EL2_ABORT_SET_UEO : Z := INPLACE_F ESR_EL2_ABORT_SET 3.
Definition ESR_EL2_ABORT_SF_BIT : Z := 1 .<< 15.
Definition ESR_EL2_ABORT_FNV_BIT : Z := 1 .<< 10.
Definition ESR_EL2_ABORT_EA_BIT : Z := 1 .<< 9.
Definition ESR_EL2_ABORT_S1PTW_BIT : Z := 1 .<< 7.
Definition ESR_EL2_ABORT_WNR_BIT : Z := 1 .<< 6.
Definition ESR_EL2_ABORT_FSC : bitfield := {| fshift := 0; fwidth := 6 |}.
Definition ESR_EL2_ABORT_FSC_TRANSLATION_FAULT : Z := 0x04.
Definition ESR_EL2_ABORT_FSC_TRANSLATION_FAULT_L0 : Z := 0x04.
Definition ESR_EL2_ABORT_FSC_SEA : Z := 0x10.
Definition ESR_EL2_ABORT_FSC_SEA_TTW_START : Z := 0x13.
Definition ESR_EL2_ABORT_FSC_SEA_TTW_END : Z := 0x17.
Definition ESR_EL2_ABORT_FSC_LEVEL : bitfield := {| fshift := 0; fwidth := 2 |}.

Definition ESR_NONEMULATED_ABORT_MASK : Z :=
  MASK_F ESR_EL2_EC .| MASK_F ESR_EL2_ABORT_SET .| ESR_EL2_ABORT_FNV_BIT .| ESR_EL2_ABORT_EA_BIT .| MASK_F ESR_EL2_ABORT_FSC.
Definition ESR_EMULATED_ABORT_MASK : Z :=
  ESR_NONEMULATED_ABORT_MASK .| ESR_EL2_ABORT_ISV_BIT .| MASK_F ESR_EL2_ABORT_SAS .| ESR_EL2_ABORT_SF_BIT .| ESR_EL2_ABORT_WNR_BIT.

Definition ESR_EL2_SERROR_DFSC : bitfield := {| fshift := 0; fwidth := 6 |}.
Definition ESR_EL2_SERROR_DFSC_ASYNC : Z := INPLACE_F ESR_EL2_SERROR_DFSC 1.
Definition ESR_EL2_SERROR_EA_BIT : Z := 1 .<< 9.
Definition ESR_EL2_SERROR_AET : bitfield := {| fshift := 10; fwidth := 3 |}.
Definition ESR_EL2_SERROR_AET_UC : Z := INPLACE_F ESR_EL2_SERROR_AET 0.
Definition ESR_EL2_SERROR_AET_UEU : Z := INPLACE_F ESR_EL2_SERROR_AET 1.
Definition ESR_EL2_SERROR_AET_UEO : Z := INPLACE_F ESR_EL2_SERROR_AET 2.
Definition ESR_EL2_SERROR_AET_UER : Z := INPLACE_F ESR_EL2_SERROR_AET 3.
Definition ESR_EL2_SERROR_AET_CE : Z := INPLACE_F ESR_EL2_SERROR_AET 6.
Definition ESR_EL2_SERROR_IDS_BIT : Z := 1 .<< 24.
Definition ESR_SERROR_MASK : Z :=
  ESR_EL2_SERROR_IDS_BIT .| MASK_F ESR_EL2_SERROR_AET .| ESR_EL2_SERROR_EA_BIT .| MASK_F ESR_EL2_SERROR_DFSC.

Definition ESR_EL2_SYSREG_TRAP_OP0 : bitfield := {| fshift := 20; fwidth := 2 |}.
Definition ESR_EL2_SYSREG_TRAP_OP2 : bitfield := {| fshift := 17; fwidth := 3 |}.
Definition ESR_EL2_SYSREG_TRAP_OP1 : bitfield := {| fshift := 14; fwidth := 3 |}.
Definition ESR_EL2_SYSREG_TRAP_CRN : bitfield := {| fshift := 10; fwidth := 4 |}.
Definition ESR_EL2_SYSREG_TRAP_RT : bitfield := {| fshift := 5; fwidth := 5 |}.
Definition ESR_EL2_SYSREG_TRAP_CRM : bitfield := {| fshift := 1; fwidth := 4 |}.
Definition ESR_EL2_WFx_TI_BIT : Z := 1 .<< 0.
Definition ESR_EL2_SYSREG_DIRECTION : Z := 1 .<< 0.
Definition ESR_EL2_SYSREG_IS_WRITE (esr : Z) : bool := (esr .& ESR_EL2_SYSREG_DIRECTION) =? 0.
Definition ESR_IL (esr : Z) : Z := esr .& MASK_F ESR_EL2_IL.
Definition ESR_EL2_SYSREG_ISS_RT (esr : Z) : Z := EXTRACT_F ESR_EL2_SYSREG_TRAP_RT esr.

Definition HPFAR_EL2_FIPA : bitfield := {| fshift := 4; fwidth := 40 |}.
Definition HPFAR_EL2_FIPA_OFFSET : Z := 8.
(** [(hpfar & MASK(HPFAR_EL2_FIPA)) << HPFAR_EL2_FIPA_OFFSET] *)
Definition hpfar_fipa (hpfar : Z) : Z := (hpfar .& MASK_F HPFAR_EL2_FIPA) .<< HPFAR_EL2_FIPA_OFFSET.

Definition SPSR_EL2_MODE_EL0t : Z := INPLACE_F SPSR_EL2_MODE 0.
Definition SPSR_EL2_MODE_EL1t : Z := INPLACE_F SPSR_EL2_MODE 4.
Definition SPSR_EL2_nRW_AARCH32 : Z := INPLACE_F SPSR_EL2_nRW 1.
Definition VBAR_CEL_SP_EL0_OFFSET : Z := 0x0.
Definition VBAR_CEL_SP_ELx_OFFSET : Z := 0x200.
Definition VBAR_LEL_AA64_OFFSET : Z := 0x400.
Definition VBAR_LEL_AA32_OFFSET : Z := 0x600.

(** * Syndromes of aborts *)

Definition esr_srt (esr : Z) : Z := u32 (EXTRACT_F ESR_EL2_ABORT_SRT esr).
Definition esr_is_write (esr : Z) : bool := negb ((esr .& ESR_EL2_ABORT_WNR_BIT) =? 0).
Definition esr_sign_extend (esr : Z) : bool := negb ((esr .& ESR_EL2_ABORT_SSE_BIT) =? 0).
Definition esr_sixty_four (esr : Z) : bool := negb ((esr .& ESR_EL2_ABORT_SF_BIT) =? 0).
Definition esr_sas (esr : Z) : Z := u32 (EXTRACT_F ESR_EL2_ABORT_SAS esr).

Definition access_len (esr : Z) : result Z :=
  if esr_sas esr =? ESR_EL2_ABORT_SAS_BYTE_VAL then Ok 1
  else if esr_sas esr =? ESR_EL2_ABORT_SAS_HWORD_VAL then Ok 2
  else if esr_sas esr =? ESR_EL2_ABORT_SAS_WORD_VAL then Ok 4
  else rassert (esr_sas esr =? ESR_EL2_ABORT_SAS_DWORD_VAL) ≫= λ _, Ok 8.

Definition access_mask (esr : Z) : result Z :=
  if esr_sas esr =? ESR_EL2_ABORT_SAS_BYTE_VAL then Ok 0xff
  else if esr_sas esr =? ESR_EL2_ABORT_SAS_HWORD_VAL then Ok 0xffff
  else if esr_sas esr =? ESR_EL2_ABORT_SAS_WORD_VAL then Ok 0xffffffff
  else rassert (esr_sas esr =? ESR_EL2_ABORT_SAS_DWORD_VAL) ≫= λ _, Ok (.~ 0).

(** * Injection *)

Definition calc_vector_entry (vbar spsr : Z) : result Z :=
  (if (spsr .& MASK_F SPSR_EL2_MODE) =? SPSR_EL2_MODE_EL1h then Ok VBAR_CEL_SP_ELx_OFFSET
   else if (spsr .& MASK_F SPSR_EL2_MODE) =? SPSR_EL2_MODE_EL1t then Ok VBAR_CEL_SP_EL0_OFFSET
   else if (spsr .& MASK_F SPSR_EL2_MODE) =? SPSR_EL2_MODE_EL0t then
     if (spsr .& MASK_F SPSR_EL2_nRW) =? SPSR_EL2_nRW_AARCH64 then Ok VBAR_LEL_AA64_OFFSET else Ok VBAR_LEL_AA32_OFFSET
   else rassert false ≫= λ _, Ok 0) ≫= λ offset,
  Ok (vbar .+ offset).

Definition calc_pstate : Z :=
  SPSR_EL2_MODE_EL1h .| SPSR_EL2_nRW_AARCH64 .| SPSR_EL2_F_BIT .| SPSR_EL2_I_BIT .| SPSR_EL2_A_BIT .| SPSR_EL2_D_BIT.

Definition calc_esr_idabort (esr_el2 spsr_el2 fsc : Z) : result Z :=
  let esr_el1 := esr_el2 .& .~ (MASK_F ESR_EL2_EC .| MASK_F ESR_EL2_ABORT_FSC .| ESR_EL2_ABORT_FNV_BIT .| ESR_EL2_ABORT_S1PTW_BIT) in
  let ec := esr_el2 .& MASK_F ESR_EL2_EC in
  rassert ((ec =? ESR_EL2_EC_INST_ABORT) || (ec =? ESR_EL2_EC_DATA_ABORT)) ≫= λ _,
  let ec := if negb ((spsr_el2 .& MASK_F SPSR_EL2_MODE) =? SPSR_EL2_MODE_EL0t) then ec .+ (1 .<< fshift ESR_EL2_EC) else ec in
  let esr_el1 := esr_el1 .| ec in
  rassert ((fsc .& .~ (MASK_F ESR_EL2_ABORT_FSC)) =? 0) ≫= λ _,
  let esr_el1 := esr_el1 .| fsc in
  Ok (esr_el1 .| ESR_EL2_ABORT_EA_BIT).

(** The registers of the processor that hold the exception taken from the realm, and those of
    the realm that an injected exception sets. *)
Record el2_regs := {
  hw_esr_el2 : Z; hw_far_el2 : Z; hw_hpfar_el2 : Z; hw_elr_el2 : Z; hw_spsr_el2 : Z;
  hw_vbar_el12 : Z; hw_far_el12 : Z; hw_elr_el12 : Z; hw_spsr_el12 : Z; hw_esr_el12 : Z;
}.
Definition write_elr_el2 (v : Z) (hw : el2_regs) : el2_regs :=
  {| hw_esr_el2 := hw_esr_el2 hw; hw_far_el2 := hw_far_el2 hw; hw_hpfar_el2 := hw_hpfar_el2 hw; hw_elr_el2 := v;
     hw_spsr_el2 := hw_spsr_el2 hw; hw_vbar_el12 := hw_vbar_el12 hw; hw_far_el12 := hw_far_el12 hw;
     hw_elr_el12 := hw_elr_el12 hw; hw_spsr_el12 := hw_spsr_el12 hw; hw_esr_el12 := hw_esr_el12 hw |}.

Definition inject_sync_idabort (fsc : Z) (hw : el2_regs) : result el2_regs :=
  calc_esr_idabort (hw_esr_el2 hw) (hw_spsr_el2 hw) fsc ≫= λ esr_el1,
  calc_vector_entry (hw_vbar_el12 hw) (hw_spsr_el2 hw) ≫= λ pc,
  Ok {| hw_esr_el2 := hw_esr_el2 hw; hw_far_el2 := hw_far_el2 hw; hw_hpfar_el2 := hw_hpfar_el2 hw; hw_elr_el2 := pc;
        hw_spsr_el2 := calc_pstate; hw_vbar_el12 := hw_vbar_el12 hw; hw_far_el12 := hw_far_el2 hw;
        hw_elr_el12 := hw_elr_el2 hw; hw_spsr_el12 := hw_spsr_el2 hw; hw_esr_el12 := esr_el1 |}.

Definition set_exception (elr spsr esr far : Z) (y : sysreg_state) : sysreg_state :=
  {| elr_el1 := elr; spsr_el1 := spsr; pmcr_el0 := pmcr_el0 y; sctlr_el1 := sctlr_el1 y; esr_el1 := esr; far_el1 := far;
     vbar_el1 := vbar_el1 y; mdscr_el1 := mdscr_el1 y; cnthctl_el2 := cnthctl_el2 y; gicstate := gicstate y;
     vmpidr_el2 := vmpidr_el2 y; hcr_el2 := hcr_el2 y; cptr_el2 := cptr_el2 y |}.

Definition inject_sync_idabort_rec (r : rec) (fsc : Z) : result rec :=
  calc_esr_idabort (last_esr (last_run r)) (pstate r) fsc ≫= λ esr,
  let r := set_sysregs (set_exception (pc r) (pstate r) esr (last_far (last_run r)) (sysregs r)) r in
  calc_vector_entry (vbar_el1 (sysregs r)) (pstate r) ≫= λ entry,
  Ok (set_pstate calc_pstate (set_pc entry r)).

Definition realm_inject_undef_abort (hw : el2_regs) : result el2_regs :=
  let esr := MASK_F ESR_EL2_IL .| ESR_EL2_EC_UNKNOWN in
  calc_vector_entry (hw_vbar_el12 hw) (hw_spsr_el2 hw) ≫= λ pc,
  Ok {| hw_esr_el2 := hw_esr_el2 hw; hw_far_el2 := hw_far_el2 hw; hw_hpfar_el2 := hw_hpfar_el2 hw; hw_elr_el2 := pc;
        hw_spsr_el2 := calc_pstate; hw_vbar_el12 := hw_vbar_el12 hw; hw_far_el12 := hw_far_el12 hw;
        hw_elr_el12 := hw_elr_el2 hw; hw_spsr_el12 := hw_spsr_el2 hw; hw_esr_el12 := esr |}.

Definition inject_serror (r : rec) (vsesr : Z) : rec :=
  set_serror {| serror_vsesr_el2 := vsesr; serror_inject := true |} r.
