(* ===== verification/RsiCall.v ===== *)
(** Calls of realms that read or change only their own state (runtime/rsi/memory.c, config.c,
    host_call.c, system.c, feature.c). *)
From S2P Require Import Prelude Types Granule Platform GranuleFind S2tte S2tt Measurement Buffer Walk Exec Realm Rtt Feature Rsi Gic Mpidr Psci RealmCmd.

Definition RSI_ABI_VERSION_MAJOR : Z := 1.
Definition RSI_ABI_VERSION_MINOR : Z := 0.
Definition RSI_ABI_VERSION : Z := (RSI_ABI_VERSION_MAJOR .<< 16) .| RSI_ABI_VERSION_MINOR.
Definition RSI_HASH_SHA_256 : Z := 0.
Definition RSI_HASH_SHA_512 : Z := 1.
Definition RSI_ACCEPT : Z := 0.
Definition RSI_REJECT : Z := 1.
Definition RSI_HOST_CALL_NR_GPRS : nat := 31.
Definition RMI_EXIT_RIPAS_CHANGE : Z := 4.
Definition RMI_EXIT_HOST_CALL : Z := 5.

#[export] Instance hash_algo_eq_dec : EqDecision hash_algo.
Proof. solve_decision. Defined.

(** * Version and features *)

Section calls.
Context {P : Platform} {H : Machine} {CF : Config}.

Definition handle_rsi_version (r : rec) (res : rsi_result) : M state rsi_result :=
  let res := set_action UPDATE_REC_RETURN_TO_REALM res in
  lift (aget (regs r) 1) ≫= λ requested,
  let res := set_res (set_x0 (if negb (requested =? RSI_ABI_VERSION) then RSI_ERROR_INPUT else RSI_SUCCESS)) res in
  mret (set_res (λ x, set_x2 RSI_ABI_VERSION (set_x1 RSI_ABI_VERSION x)) res).

Definition handle_rsi_features (r : rec) (res : rsi_result) : M state rsi_result :=
  mret (set_res (λ x, set_x1 0 (set_x0 RSI_SUCCESS x)) (set_action UPDATE_REC_RETURN_TO_REALM res)).

(** * RIPAS *)

(** [(enum ripas)v] when it is at most [RIPAS_RAM]. *)
Definition ripas_of_reg (v : Z) : option ripas :=
  if u32 v =? RMI_EMPTY then Some RIPAS_EMPTY else if u32 v =? RMI_RAM then Some RIPAS_RAM else None.
(** [(enum ripas_change_destroyed)v]; the value is only ever compared with [CHANGE_DESTROYED]. *)
Definition change_of_reg (v : Z) : ripas_change_destroyed :=
  if u32 v =? 1 then CHANGE_DESTROYED else NO_CHANGE_DESTROYED.

Definition set_exit_ripas_value (v : Z) (e : rmi_rec_exit) : rmi_rec_exit :=
  {| exit_reason := exit_reason e; ex_esr := ex_esr e; ex_far := ex_far e; ex_hpfar := ex_hpfar e; ex_gprs := ex_gprs e;
     ex_gicv3_hcr := ex_gicv3_hcr e; ex_gicv3_lrs := ex_gicv3_lrs e; ex_gicv3_misr := ex_gicv3_misr e;
     ex_gicv3_vmcr := ex_gicv3_vmcr e; ex_cntp_ctl := ex_cntp_ctl e; ex_cntp_cval := ex_cntp_cval e;
     ex_cntv_ctl := ex_cntv_ctl e; ex_cntv_cval := ex_cntv_cval e; ripas_base := ripas_base e;
     ripas_top := ripas_top e; ripas_value := v; ex_imm := ex_imm e; pmu_ovf_status := pmu_ovf_status e |}.

Definition handle_rsi_ipa_state_set (r : rec) (rec_exit : rmi_rec_exit) (res : rsi_result) : M state psci_out :=
  lift (aget (regs r) 1) ≫= λ base,
  lift (aget (regs r) 2) ≫= λ top,
  lift (aget (regs r) 3) ≫= λ reg3,
  lift (aget (regs r) 4) ≫= λ reg4,
  match ripas_of_reg reg3 with
  | Some ripas_val =>
      if negb (GRANULE_ALIGNED base) || negb (GRANULE_ALIGNED top) || (top <=? base) || negb (region_in_rec_par r base top)
      then mret (r, rec_exit, set_res (set_x0 RSI_ERROR_INPUT) (set_action UPDATE_REC_RETURN_TO_REALM res))
      else
        let r := set_set_ripas {| sr_base := base; sr_top := top; sr_addr := base; sr_ripas_val := ripas_val;
                                  sr_change_destroyed := change_of_reg reg4; sr_response := sr_response (set_ripas r) |} r in
        let rec_exit := set_exit_ripas_value (ripas_to_Z ripas_val) (set_exit_ripas base top (set_exit_reason RMI_EXIT_RIPAS_CHANGE rec_exit)) in
        mret (r, rec_exit, set_res (λ x, set_x1 top (set_x0 RSI_SUCCESS x)) (set_action UPDATE_REC_EXIT_TO_HOST res))
  | None => mret (r, rec_exit, set_res (set_x0 RSI_ERROR_INPUT) (set_action UPDATE_REC_RETURN_TO_REALM res))
  end.

Definition handle_rsi_ipa_state_get (r : rec) (res : rsi_result) : M state rsi_result :=
  lift (aget (regs r) 1) ≫= λ start,
  lift (aget (regs r) 2) ≫= λ end_,
  let res := set_action UPDATE_REC_RETURN_TO_REALM res in
  if negb (GRANULE_ALIGNED start) || negb (addr_in_rec_par r start) || negb (GRANULE_ALIGNED end_) ||
     negb (addr_in_rec_par r (end_ .- 1)) || (end_ <=? start)
  then mret (set_res (set_x0 RSI_ERROR_INPUT) res)
  else
    realm_ipa_get_ripas r start end_ ≫= λ ws,
    mret (match ws with
          | Some (ripas_val, top) =>
              set_res (λ x, set_x2 (ripas_to_Z ripas_val) (set_x1 (if end_ <? top then end_ else top) (set_x0 RSI_SUCCESS x))) res
          | None => set_res (set_x0 RSI_ERROR_INPUT) res
          end).

(** * Realm memory *)

(** The bytes of a granule of realm data. *)
Definition page_bytes (p : page) : option (list Z) :=
  match p with PZero => Some (replicate 4096 0) | PData bytes => Some bytes | _ => None end.
Definition read_bytes (buf : Z) : M state (list Z) := read_page buf ≫= λ p, mderef (page_bytes p).

(** [bytes] with [l] at offset [off]. *)
Definition splice (off : nat) (l bytes : list Z) : list Z := take off bytes ++ l ++ drop (off + length l) bytes.
Definition write_bytes (buf : Z) (off : nat) (l : list Z) : M state () :=
  read_bytes buf ≫= λ bytes, write_page buf (PData (splice off l bytes)).

(** A local [struct s2_walk_result] before the walk has filled it. *)
Definition walk_result_init : s2_walk_result :=
  {| sw_pa := 0; sw_rtt_level := 0; sw_ripas_val := RIPAS_EMPTY; sw_llt := None |}.

(** [gr = find_granule(pa); buffer_granule_map(gr, SLOT_RSI_CALL); assert] *)
Definition map_rsi_page (pa : Z) : M state Z :=
  lift (find_granule pa) ≫= λ og, mderef og ≫= λ gr, map_assert gr SLOT_RSI_CALL.

Definition set_rtt_level (v : Z) (res : rsi_result) : rsi_result :=
  {| action := action res; rtt_level := v; smc_res := smc_res res |}.

(** * Configuration *)

Definition handle_rsi_realm_config (r : rec) (res : rsi_result) : M state rsi_result :=
  lift (aget (regs r) 1) ≫= λ ipa,
  let res := set_action UPDATE_REC_RETURN_TO_REALM res in
  if negb (GRANULE_ALIGNED ipa) || negb (addr_in_rec_par r ipa) then mret (set_res (set_x0 RSI_ERROR_INPUT) res)
  else
    realm_ipa_to_pa r ipa walk_result_init ≫= λ '(walk_status, walk_res),
    match walk_status with
    | WALK_FAIL =>
        mret (if bool_decide (sw_ripas_val walk_res = RIPAS_EMPTY) then set_res (set_x0 RSI_ERROR_INPUT) res
              else set_rtt_level (sw_rtt_level walk_res) (set_action STAGE_2_TRANSLATION_FAULT res))
    | WALK_INVALID_PARAMS => mret (set_res (set_x0 RSI_ERROR_INPUT) res)
    | WALK_SUCCESS =>
        map_rsi_page (sw_pa walk_res) ≫= λ config,
        write_bytes config 0 (le_bytes 8 (ipa_bits (ri_s2_ctx r))) ≫= λ _,
        write_bytes config 8 (le_bytes 1 (if bool_decide (inf_algorithm (realm_info r) = HASH_SHA_256) then RSI_HASH_SHA_256 else RSI_HASH_SHA_512)) ≫= λ _,
        map_assert (ri_g_rd r) SLOT_RD ≫= λ rdp,
        read_rd rdp ≫= λ d,
        write_bytes config 0x200 (rpv d) ≫= λ _,
        buffer_unmap rdp ≫= λ _,
        buffer_unmap config ≫= λ _,
        mderef (sw_llt walk_res) ≫= λ llt,
        granule_unlock llt ≫= λ _,
        mret (set_res (set_x0 RSI_SUCCESS) res)
    end.

(** * Calls to the host *)

Definition set_exit_imm (v : Z) (e : rmi_rec_exit) : rmi_rec_exit :=
  {| exit_reason := exit_reason e; ex_esr := ex_esr e; ex_far := ex_far e; ex_hpfar := ex_hpfar e; ex_gprs := ex_gprs e;
     ex_gicv3_hcr := ex_gicv3_hcr e; ex_gicv3_lrs := ex_gicv3_lrs e; ex_gicv3_misr := ex_gicv3_misr e;
     ex_gicv3_vmcr := ex_gicv3_vmcr e; ex_cntp_ctl := ex_cntp_ctl e; ex_cntp_cval := ex_cntp_cval e;
     ex_cntv_ctl := ex_cntv_ctl e; ex_cntv_cval := ex_cntv_cval e; ripas_base := ripas_base e;
     ripas_top := ripas_top e; ripas_value := ripas_value e; ex_imm := v; pmu_ovf_status := pmu_ovf_status e |}.

(** [host_call->gprs[i]] of the structure at [off]: an [unsigned int] and its padding come
    first. *)
Definition host_call_gpr (off : nat) (bytes : list Z) (i : Z) : result Z :=
  Ok (member_at (off + 8 + 8 * Z.to_nat i) 8 bytes).

(** The loop that stores the registers, [n] left. *)
Fixpoint store_gprs (n : nat) (i : Z) (data : Z) (off : nat) (gprs : list Z) : M state () :=
  match n with
  | O => mret ()
  | S n' =>
      lift (aget gprs i) ≫= λ v,
      write_bytes data (off + 8 + 8 * Z.to_nat i) (le_bytes 8 v) ≫= λ _,
      store_gprs n' (i + 1) data off gprs
  end.

(** [rec_exit] or [rec_enter] is [NULL]. *)
Definition do_host_call (r : rec) (rec_exit : option rmi_rec_exit) (rec_enter : option rmi_rec_enter) (res : rsi_result)
  : M state (rec * option rmi_rec_exit * rsi_result) :=
  lift (aget (regs r) 1) ≫= λ ipa,
  massert (addr_in_rec_par r ipa) ≫= λ _,
  massert (xorb (bool_decide (is_Some rec_enter)) (bool_decide (is_Some rec_exit))) ≫= λ _,
  let page_ipa := ipa .& GRANULE_MASK in
  realm_ipa_to_pa r page_ipa walk_result_init ≫= λ '(walk_status, walk_result),
  match walk_status with
  | WALK_FAIL =>
      mret (r, rec_exit,
        if bool_decide (sw_ripas_val walk_result = RIPAS_EMPTY) then set_res (set_x0 RSI_ERROR_INPUT) res
        else set_rtt_level (sw_rtt_level walk_result) (set_action STAGE_2_TRANSLATION_FAULT res))
  | WALK_INVALID_PARAMS => massert false ≫= λ _, mret (r, rec_exit, res)
  | WALK_SUCCESS =>
      map_rsi_page (sw_pa walk_result) ≫= λ data,
      let off := Z.to_nat (ipa .- page_ipa) in
      match rec_exit with
      | Some e =>
          read_bytes data ≫= λ bytes,
          let e := set_exit_imm (member_at off 4 bytes) e in
          lift (fill_regs RSI_HOST_CALL_NR_GPRS 0 (host_call_gpr off bytes) (ex_gprs e)) ≫= λ l,
          mret (set_host_call true r, Some (set_exit_reason RMI_EXIT_HOST_CALL (set_exit_gprs l e)), set_action EXIT_TO_HOST res)
      | None =>
          mderef rec_enter ≫= λ en,
          store_gprs RSI_HOST_CALL_NR_GPRS 0 data off (en_gprs en) ≫= λ _,
          lift (aset (regs r) 0 RSI_SUCCESS) ≫= λ l,
          mret (set_regs l r, None, res)
      end ≫= λ out,
      buffer_unmap data ≫= λ _,
      mderef (sw_llt walk_result) ≫= λ llt,
      granule_unlock llt ≫= λ _, mret out
  end.

Definition sizeof_rsi_host_call : Z := 0x100.

Definition handle_rsi_host_call (r : rec) (rec_exit : rmi_rec_exit) (res : rsi_result) : M state psci_out :=
  lift (aget (regs r) 1) ≫= λ ipa,
  let res := set_action UPDATE_REC_RETURN_TO_REALM res in
  if negb (ipa mod sizeof_rsi_host_call =? 0) then mret (r, rec_exit, set_res (set_x0 RSI_ERROR_INPUT) res)
  else if negb (ipa / GRANULE_SIZE =? ((ipa .+ sizeof_rsi_host_call) .- 1) / GRANULE_SIZE)
  then mret (r, rec_exit, set_res (set_x0 RSI_ERROR_INPUT) res)
  else if negb (addr_in_rec_par r ipa) then mret (r, rec_exit, set_res (set_x0 RSI_ERROR_INPUT) res)
  else
    do_host_call r (Some rec_exit) None res ≫= λ '(r, e, res),
    mderef e ≫= λ e, mret (r, e, res).

(** [struct rsi_walk_result] *)
Record rsi_walk_result := { abort : bool; wr_rtt_level : Z }.

Definition complete_rsi_host_call (r : rec) (rec_enter : rmi_rec_enter) : M state (rec * rsi_walk_result) :=
  do_host_call r None (Some rec_enter)
    {| action := 0; rtt_level := 0; smc_res := {| x0 := 0; x1 := 0; x2 := 0; x3 := 0; x4 := 0 |} |} ≫= λ '(r, _, res),
  mret (r, if action res =? STAGE_2_TRANSLATION_FAULT then {| abort := true; wr_rtt_level := rtt_level res |}
           else {| abort := false; wr_rtt_level := 0 |}).
End calls.
