(* ===== verification/Exit.v ===== *)
(** Exits from realms (runtime/core/exit.c): aborts, system errors and interrupts, what the host
    is told of them, and what the next entry remembers. *)
From S2P Require Import Prelude Types Granule Platform GranuleFind S2tte S2tt Measurement Buffer Walk Exec Realm Rtt Feature Rsi Gic Mpidr Psci Esr RealmCmd RsiCall.

Definition RMI_EXIT_SYNC : Z := 0.
Definition RMI_EXIT_IRQ : Z := 1.
Definition RMI_EXIT_FIQ : Z := 2.
Definition RMI_EXIT_SERROR : Z := 6.

(** [rec_exit->esr], [rec_exit->far] and [rec_exit->hpfar] *)
Definition set_exit_fault (esr far hpfar : Z) (e : rmi_rec_exit) : rmi_rec_exit :=
  {| exit_reason := exit_reason e; ex_esr := esr; ex_far := far; ex_hpfar := hpfar; ex_gprs := ex_gprs e;
     ex_gicv3_hcr := ex_gicv3_hcr e; ex_gicv3_lrs := ex_gicv3_lrs e; ex_gicv3_misr := ex_gicv3_misr e;
     ex_gicv3_vmcr := ex_gicv3_vmcr e; ex_cntp_ctl := ex_cntp_ctl e; ex_cntp_cval := ex_cntp_cval e;
     ex_cntv_ctl := ex_cntv_ctl e; ex_cntv_cval := ex_cntv_cval e; ripas_base := ripas_base e;
     ripas_top := ripas_top e; ripas_value := ripas_value e; ex_imm := ex_imm e; pmu_ovf_status := pmu_ovf_status e |}.
Definition set_exit_esr (esr : Z) (e : rmi_rec_exit) : rmi_rec_exit := set_exit_fault esr (ex_far e) (ex_hpfar e) e.

Definition system_abort : result () := rassert false.

Section exits.
Context {P : Platform} {H : Machine} {CF : Config}.

(** The answer, and [*esr]. *)
Definition fixup_aarch32_data_abort (esr : Z) (hw : el2_regs) : bool * Z :=
  if negb ((hw_spsr_el2 hw .& SPSR_EL2_nRW_AARCH32) =? 0) then (true, esr .& .~ ESR_EL2_ABORT_ISV_BIT) else (false, esr).

Definition get_dabt_write_value (r : rec) (esr : Z) : result Z :=
  let rt := esr_srt esr in
  if rt =? 31 then Ok 0
  else aget (regs r) rt ≫= λ v, access_mask esr ≫= λ m, Ok (v .& m).

Definition access_in_rec_par (r : rec) (addr : Z) : bool := addr_in_rec_par r addr.

Definition ipa_is_empty (ipa : Z) (r : rec) : M state bool :=
  massert (GRANULE_ALIGNED ipa) ≫= λ _,
  realm_ipa_to_pa r ipa walk_result_init ≫= λ '(walk_status, s2_walk),
  match walk_status with
  | WALK_SUCCESS => mderef (sw_llt s2_walk) ≫= λ llt, granule_unlock llt
  | _ => mret ()
  end ≫= λ _,
  mret (match walk_status with
        | WALK_INVALID_PARAMS => false
        | _ => bool_decide (sw_ripas_val s2_walk = RIPAS_EMPTY)
        end).

Definition fsc_is_external_abort (fsc : Z) : bool :=
  if fsc =? ESR_EL2_ABORT_FSC_SEA then true
  else (ESR_EL2_ABORT_FSC_SEA_TTW_START <=? fsc) && (fsc <=? ESR_EL2_ABORT_FSC_SEA_TTW_END).

Definition handle_sync_external_abort (rec_exit : rmi_rec_exit) (esr : Z) (hw : el2_regs)
  : result (bool * rmi_rec_exit * el2_regs) :=
  let fsc := esr .& MASK_F ESR_EL2_ABORT_FSC in
  let set := esr .& MASK_F ESR_EL2_ABORT_SET in
  if negb (fsc_is_external_abort fsc) then Ok (false, rec_exit, hw)
  else if set =? ESR_EL2_ABORT_SET_UER then
    inject_sync_idabort ESR_EL2_ABORT_FSC_SEA hw ≫= λ hw,
    Ok (true, set_exit_esr (esr .& ESR_NONEMULATED_ABORT_MASK) rec_exit, hw)
  else if set =? ESR_EL2_ABORT_SET_UEO then Ok (true, set_exit_esr (esr .& ESR_NONEMULATED_ABORT_MASK) rec_exit, hw)
  else if set =? ESR_EL2_ABORT_SET_UC then system_abort ≫= λ _, Ok (true, rec_exit, hw)
  else rassert false ≫= λ _, Ok (true, rec_exit, hw).

Definition emulate_stage2_data_abort (r : rec) (rec_exit : rmi_rec_exit) (rtt_level : Z) : result rmi_rec_exit :=
  aget (regs r) 1 ≫= λ fipa,
  rassert (rtt_level <=? S2TT_PAGE_LEVEL) ≫= λ _,
  Ok (set_exit_reason RMI_EXIT_SYNC
        (set_exit_fault (ESR_EL2_EC_DATA_ABORT .| (ESR_EL2_ABORT_FSC_TRANSLATION_FAULT_L0 .+ rtt_level)) 0
           (fipa .>> HPFAR_EL2_FIPA_OFFSET) rec_exit)).

(** The end of [handle_data_abort]. *)
Definition report_data_abort (rec_exit : rmi_rec_exit) (esr far hpfar write_val : Z) : result rmi_rec_exit :=
  let rec_exit := set_exit_fault esr far hpfar rec_exit in
  aset (ex_gprs rec_exit) 0 write_val ≫= λ l, Ok (set_exit_gprs l rec_exit).

(** [true]: the realm goes on. *)
Definition handle_data_abort (r : rec) (rec_exit : rmi_rec_exit) (esr : Z) (hw : el2_regs)
  : M state (bool * rmi_rec_exit * el2_regs) :=
  let hpfar := hw_hpfar_el2 hw in
  let fipa := hpfar_fipa hpfar in
  lift (handle_sync_external_abort rec_exit esr hw) ≫= λ o : bool * rmi_rec_exit * el2_regs,
  let '(ext, rec_exit, hw) := o in
  if ext then mret (false, rec_exit, hw)
  else
    (if rec_ipa_size r <=? fipa then mret true else ipa_is_empty fipa r) ≫= λ sea : bool,
    if sea then lift (inject_sync_idabort ESR_EL2_ABORT_FSC_SEA hw) ≫= λ hw, mret (true, rec_exit, hw)
    else
      let '(aarch32, esr) := fixup_aarch32_data_abort esr hw in
      if aarch32 || access_in_rec_par r fipa then
        lift (report_data_abort rec_exit (esr .& ESR_NONEMULATED_ABORT_MASK) 0 hpfar 0) ≫= λ rec_exit,
        mret (false, rec_exit, hw)
      else
        lift (if esr_is_write esr then get_dabt_write_value r esr else Ok 0) ≫= λ write_val,
        let far := hw_far_el2 hw .& .~ GRANULE_MASK in
        lift (report_data_abort rec_exit (esr .& ESR_EMULATED_ABORT_MASK) far hpfar write_val) ≫= λ rec_exit,
        mret (false, rec_exit, hw).

Definition handle_instruction_abort (r : rec) (rec_exit : rmi_rec_exit) (esr : Z) (hw : el2_regs)
  : M state (bool * rmi_rec_exit * el2_regs) :=
  let fsc := esr .& MASK_F ESR_EL2_ABORT_FSC in
  let fsc_type := fsc .& .~ (MASK_F ESR_EL2_ABORT_FSC_LEVEL) in
  let hpfar := hw_hpfar_el2 hw in
  let fipa := hpfar_fipa hpfar in
  lift (handle_sync_external_abort rec_exit esr hw) ≫= λ o : bool * rmi_rec_exit * el2_regs,
  let '(ext, rec_exit, hw) := o in
  if ext then mret (false, rec_exit, hw)
  else
    (if (rec_ipa_size r <=? fipa) || negb (access_in_rec_par r fipa) then mret true else ipa_is_empty fipa r) ≫= λ sea : bool,
    if sea then lift (inject_sync_idabort ESR_EL2_ABORT_FSC_SEA hw) ≫= λ hw, mret (true, rec_exit, hw)
    else if negb (fsc_type =? ESR_EL2_ABORT_FSC_TRANSLATION_FAULT) then mret (false, rec_exit, hw)
    else mret (false, set_exit_fault (esr .& ESR_NONEMULATED_ABORT_MASK) (ex_far rec_exit) hpfar rec_exit, hw).

Definition advance_pc (hw : el2_regs) : el2_regs := write_elr_el2 (hw_elr_el2 hw .+ 4) hw.

(** Always returns to the host. *)
Definition handle_exception_serror_lel (r : rec) (rec_exit : rmi_rec_exit) (hw : el2_regs) : result (rec * rmi_rec_exit) :=
  let esr := hw_esr_el2 hw in
  (if negb ((esr .& ESR_EL2_SERROR_IDS_BIT) =? 0) then system_abort else Ok ()) ≫= λ _,
  (if negb ((esr .& MASK_F ESR_EL2_SERROR_DFSC) =? ESR_EL2_SERROR_DFSC_ASYNC) then system_abort else Ok ()) ≫= λ _,
  let aet := esr .& MASK_F ESR_EL2_SERROR_AET in
  if (aet =? ESR_EL2_SERROR_AET_UEU) || (aet =? ESR_EL2_SERROR_AET_UER)
  then Ok (inject_serror r esr, set_exit_esr (esr .& ESR_SERROR_MASK) rec_exit)
  else if (aet =? ESR_EL2_SERROR_AET_CE) || (aet =? ESR_EL2_SERROR_AET_UEO)
  then Ok (r, set_exit_esr (esr .& ESR_SERROR_MASK) rec_exit)
  else if aet =? ESR_EL2_SERROR_AET_UC then system_abort ≫= λ _, Ok (r, rec_exit)
  else rassert false ≫= λ _, Ok (r, rec_exit).

Definition handle_exception_irq_lel (rec_exit : rmi_rec_exit) : rmi_rec_exit := set_exit_reason RMI_EXIT_IRQ rec_exit.

(** What [handle_realm_exit] keeps of a synchronous exception that goes to the host. *)
Definition record_sync_exit (r : rec) (rec_exit : rmi_rec_exit) (hw : el2_regs) : rec :=
  let esr := hw_esr_el2 hw in
  let esr := if (ex_esr rec_exit .& ESR_EL2_ABORT_ISV_BIT) =? 0 then esr .& .~ ESR_EL2_ABORT_ISV_BIT else esr in
  set_last_run {| last_esr := esr; last_hpfar := hw_hpfar_el2 hw; last_far := hw_far_el2 hw |} r.

(** [handle_realm_exit] for a data abort: the REC and the record for the host when it does not
    go on. *)
Definition data_abort_exit (r : rec) (rec_exit : rmi_rec_exit) (hw : el2_regs) : M state (bool * rec * rmi_rec_exit * el2_regs) :=
  let rec_exit := set_exit_reason RMI_EXIT_SYNC rec_exit in
  handle_data_abort r rec_exit (hw_esr_el2 hw) hw ≫= λ o : bool * rmi_rec_exit * el2_regs,
  let '(ret, rec_exit, hw) := o in
  mret (ret, if ret then r else record_sync_exit r rec_exit hw, rec_exit, hw).
End exits.
