(* ===== verification/RecEnter.v ===== *)
(** Entering a REC (runtime/rmi/run.c): the host's answer to the last exit is checked and brought
    into the REC before it runs again. *)
From S2P Require Import Prelude Types Granule Platform GranuleFind S2tte S2tt Measurement Buffer Walk Exec Realm Rtt Feature Rsi Gic Mpidr Psci Esr RealmCmd RsiCall Exit Rec.

Definition REC_ENTRY_FLAG_EMUL_MMIO : Z := 1 .<< 0.
Definition REC_ENTRY_FLAG_INJECT_SEA : Z := 1 .<< 1.
Definition REC_ENTRY_FLAG_TRAP_WFI : Z := 1 .<< 2.
Definition REC_ENTRY_FLAG_TRAP_WFE : Z := 1 .<< 3.
Definition REC_ENTRY_FLAG_RIPAS_RESPONSE : Z := 1 .<< 4.
Definition HCR_TWE : Z := 1 .<< 14.
Definition HCR_TWI : Z := 1 .<< 13.

(** * Layout of [struct rmi_rec_run] *)

Definition rec_enter_of_bytes (bytes : list Z) : rmi_rec_enter :=
  {| en_flags := member_at 0 8 bytes; en_gprs := array_at 0x200 (Z.to_nat REC_EXIT_NR_GPRS) bytes;
     en_gicv3_hcr := member_at 0x300 8 bytes; en_gicv3_lrs := array_at 0x308 (Z.to_nat REC_GIC_NUM_LRS) bytes |}.

Definition longs (l : list Z) : list Z := concat (le_bytes 8 <$> l).

Definition rec_exit_bytes (e : rmi_rec_exit) : list Z :=
  member 0x100 (longs [exit_reason e]) ++
  member 0x100 (longs [ex_esr e; ex_far e; ex_hpfar e]) ++
  member 0x100 (longs (ex_gprs e)) ++
  member 0x100 (longs (ex_gicv3_hcr e :: ex_gicv3_lrs e ++ [ex_gicv3_misr e; ex_gicv3_vmcr e])) ++
  member 0x100 (longs [ex_cntp_ctl e; ex_cntp_cval e; ex_cntv_ctl e; ex_cntv_cval e]) ++
  member 0x100 (longs [ripas_base e; ripas_top e] ++ le_bytes 1 (ripas_value e)) ++
  member 0x100 (le_bytes 4 (ex_imm e)) ++
  member 0x100 (longs [pmu_ovf_status e]).

(** * Completion of the last exit *)

Definition reset_last_run_info (r : rec) : rec :=
  set_last_run {| last_esr := 0; last_hpfar := last_hpfar (last_run r); last_far := last_far (last_run r) |} r.

(** The value that an emulated read gives to its register. *)
Definition mmio_read_value (esr gpr : Z) : result Z :=
  access_mask esr ≫= λ m,
  let val := gpr .& m in
  if esr_sign_extend esr then
    access_len esr ≫= λ len,
    let bit_count := u32 (len * 8) in
    let mask := 1 .<< (bit_count - 1) in
    let val := (val .^ mask) .- mask in
    Ok (if negb (esr_sixty_four esr) then val .& ((1 .<< 32) .- 1) else val)
  else Ok val.

Definition complete_mmio_emulation (r : rec) (rec_enter : rmi_rec_enter) : result (bool * rec) :=
  let esr := last_esr (last_run r) in
  let rt := esr_srt esr in
  if (en_flags rec_enter .& REC_ENTRY_FLAG_EMUL_MMIO) =? 0 then Ok (true, r)
  else if negb ((en_flags rec_enter .& REC_ENTRY_FLAG_INJECT_SEA) =? 0) then Ok (true, r)
  else if negb ((esr .& MASK_F ESR_EL2_EC) =? ESR_EL2_EC_DATA_ABORT) || ((esr .& ESR_EL2_ABORT_ISV_BIT) =? 0) then Ok (false, r)
  else
    (if negb (esr_is_write esr) && negb (rt =? 31) then
       aget (en_gprs rec_enter) 0 ≫= λ gpr,
       mmio_read_value esr gpr ≫= λ val,
       aset (regs r) rt val ≫= λ l, Ok (set_regs l r)
     else Ok r) ≫= λ r,
    Ok (true, set_pc (pc r .+ 4) r).

Definition complete_set_ripas (r : rec) : result rec :=
  let i := set_ripas r in
  if sr_base i =? sr_top i then Ok r
  else
    aset (regs r) 0 RSI_SUCCESS ≫= λ l,
    aset l 1 (sr_addr i) ≫= λ l,
    aset l 2 (if bool_decide (sr_ripas_val i = RIPAS_RAM) && negb (sr_addr i =? sr_top i) &&
                 match sr_response i with REJECT => true | ACCEPT => false end
              then RSI_REJECT else RSI_ACCEPT) ≫= λ l,
    Ok (set_set_ripas {| sr_base := 0; sr_top := 0; sr_addr := sr_addr i; sr_ripas_val := sr_ripas_val i;
                         sr_change_destroyed := sr_change_destroyed i; sr_response := sr_response i |} (set_regs l r)).

Definition complete_sea_insertion (r : rec) (rec_enter : rmi_rec_enter) : result (bool * rec) :=
  let esr := last_esr (last_run r) in
  let hpfar := last_hpfar (last_run r) in
  if (en_flags rec_enter .& REC_ENTRY_FLAG_INJECT_SEA) =? 0 then Ok (true, r)
  else if negb ((esr .& MASK_F ESR_EL2_EC) =? ESR_EL2_EC_DATA_ABORT) then Ok (false, r)
  else
    let fipa := hpfar_fipa hpfar in
    if addr_in_rec_par r fipa then Ok (false, r)
    else inject_sync_idabort_rec r ESR_EL2_ABORT_FSC_SEA ≫= λ r, Ok (true, r).

Definition complete_sysreg_emulation (r : rec) (rec_enter : rmi_rec_enter) : result rec :=
  let esr := last_esr (last_run r) in
  let rt := u32 (ESR_EL2_SYSREG_ISS_RT esr) in
  if negb ((esr .& MASK_F ESR_EL2_EC) =? ESR_EL2_EC_SYSREG) then Ok r
  else if ESR_EL2_SYSREG_IS_WRITE esr then Ok r
  else if negb (rt =? 31) then aget (en_gprs rec_enter) 0 ≫= λ v, aset (regs r) rt v ≫= λ l, Ok (set_regs l r)
  else Ok r.

Section enter.
Context {P : Platform} {H : Machine} {CF : Config} (gic_virt_feature : gic_virt_feature_s).

Definition complete_host_call (r : rec) (rec_enter : rmi_rec_enter) (rec_exit : rmi_rec_exit)
  : M state (bool * rec * rmi_rec_exit) :=
  if negb (host_call r) then mret (true, r, rec_exit)
  else
    complete_rsi_host_call r rec_enter ≫= λ '(r, walk_result),
    if abort walk_result
    then lift (emulate_stage2_data_abort r rec_exit (wr_rtt_level walk_result)) ≫= λ rec_exit, mret (false, r, rec_exit)
    else mret (true, set_host_call false r, rec_exit).

(** [rec->sysregs.hcr_el2] for the entry. *)
Definition entry_hcr (r : rec) (flags : Z) : Z :=
  let v := c_hcr_el2 (common_sysregs r) in
  let v := if negb ((flags .& REC_ENTRY_FLAG_TRAP_WFI) =? 0) then v .| HCR_TWI else v in
  if negb ((flags .& REC_ENTRY_FLAG_TRAP_WFE) =? 0) then v .| HCR_TWE else v.

(** * REC_ENTER *)

(** Outcome of what comes before [rec_run_loop]: the REC is refused, or leaves again at once, or
    runs. *)
Inductive entry := Refused (ret : Z) | Left (rec_exit : rmi_rec_exit) | Runs.

(** From the check of [rec->runnable] to [rec_run_loop]: the REC as it is then. *)
Definition prepare_rec (r : rec) (en : rmi_rec_enter) (rec_exit : rmi_rec_exit) : M state (entry * rec) :=
  if negb (runnable r) then mret (Refused RMI_ERROR_REC, r)
  else if psci_pending r then mret (Refused RMI_ERROR_REC, r)
  else
    lift (gic_validate_state gic_virt_feature en) ≫= λ valid : bool,
    if negb valid then mret (Refused RMI_ERROR_REC, r)
    else
      lift (gic_copy_state_from_rec_entry gic_virt_feature (gicstate (sysregs r)) en) ≫= λ g,
      let r := set_sysregs (set_gicstate g (sysregs r)) r in
      lift (complete_sea_insertion r en) ≫= λ o1 : bool * rec,
      let '(ok, r) := o1 in
      if negb ok then mret (Refused RMI_ERROR_REC, r)
      else
        lift (complete_mmio_emulation r en) ≫= λ o2 : bool * rec,
        let '(ok, r) := o2 in
        if negb ok then mret (Refused RMI_ERROR_REC, r)
        else
          let i := set_ripas r in
          let r := set_set_ripas
            {| sr_base := sr_base i; sr_top := sr_top i; sr_addr := sr_addr i; sr_ripas_val := sr_ripas_val i;
               sr_change_destroyed := sr_change_destroyed i;
               sr_response := if (en_flags en .& REC_ENTRY_FLAG_RIPAS_RESPONSE) =? 0 then ACCEPT else REJECT |} r in
          lift (complete_set_ripas r) ≫= λ r,
          lift (complete_sysreg_emulation r en) ≫= λ r,
          complete_host_call r en rec_exit ≫= λ o3 : bool * rec * rmi_rec_exit,
          let '(ok, r, rec_exit) := o3 in
          if negb ok then mret (Left rec_exit, r)
          else
            let r := reset_last_run_info r in
            mret (Runs, set_sysregs (set_hcr_el2 (entry_hcr r (en_flags en)) (sysregs r)) r).

(** [run] is [rec_run_loop]: what the realm and the handlers of its exits make of the REC and
    of the record for the host. *)
Definition enter_rec (run : rec → rmi_rec_exit → M state (rec * rmi_rec_exit)) (r : rec) (en : rmi_rec_enter)
  : M state (Z * rec * rmi_rec_exit) :=
  prepare_rec r en rmi_rec_exit_zero ≫= λ o : entry * rec,
  let '(e, r) := o in
  match e with
  | Refused ret => mret (ret, r, rmi_rec_exit_zero)
  | Left rec_exit => mret (RMI_SUCCESS, r, rec_exit)
  | Runs =>
      write_page SLOT_REC (PRec r) ≫= λ _,
      run r rmi_rec_exit_zero ≫= λ o : rec * rmi_rec_exit,
      let '(r, rec_exit) := o in
      lift (gic_copy_state_to_rec_exit gic_virt_feature (gicstate (sysregs r)) rec_exit) ≫= λ rec_exit,
      mret (RMI_SUCCESS, r, rec_exit)
  end.

(** The [switch] on the state of the realm; [None]: the REC may run. *)
Definition realm_state_refuses (realm_state : Z) : result (option Z) :=
  if realm_state =? REALM_NEW then pack_return_code RMI_ERROR_REALM 0 ≫= λ v, Ok (Some v)
  else if realm_state =? REALM_ACTIVE then Ok None
  else if realm_state =? REALM_SYSTEM_OFF then pack_return_code RMI_ERROR_REALM 1 ≫= λ v, Ok (Some v)
  else rassert false ≫= λ _, Ok None.

(** From the copy of the host's arguments on, with a reference on [g_rec] and no lock. *)
Definition enter_referenced (run : rec → rmi_rec_exit → M state (rec * rmi_rec_exit)) (g_run g_rec : Z) : M state Z :=
  ns_buffer_read SLOT_NS g_run 0 0x800 ≫= λ '(success, bytes),
  if negb success then atomic_granule_put_release g_rec ≫= λ _, mret RMI_ERROR_INPUT
  else
    let en := rec_enter_of_bytes bytes in
    map_assert g_rec SLOT_REC ≫= λ recp,
    read_rec recp ≫= λ r,
    map_assert (ri_g_rd r) SLOT_RD ≫= λ rdp,
    read_rd rdp ≫= λ d,
    let realm_state := get_rd_state_unlocked d in
    buffer_unmap rdp ≫= λ _,
    lift (realm_state_refuses realm_state) ≫= λ refused,
    match refused with
    | Some ret => mret (ret, rmi_rec_exit_zero)
    | None =>
        enter_rec run r en ≫= λ o : Z * rec * rmi_rec_exit,
        let '(ret, r, rec_exit) := o in
        write_page recp (PRec r) ≫= λ _, mret (ret, rec_exit)
    end ≫= λ o : Z * rmi_rec_exit,
    let '(ret, rec_exit) := o in
    buffer_unmap recp ≫= λ _,
    (if ret =? RMI_SUCCESS then
       ns_buffer_write SLOT_NS g_run 0x800 0x800 (rec_exit_bytes rec_exit) ≫= λ ok : bool,
       mret (if ok then ret else RMI_ERROR_INPUT)
     else mret ret) ≫= λ ret,
    atomic_granule_put_release g_rec ≫= λ _,
    mret ret.

Definition smc_rec_enter (run : rec → rmi_rec_exit → M state (rec * rmi_rec_exit)) (rec_addr rec_run_addr : Z) : M state Z :=
  lift (find_granule rec_run_addr) ≫= λ og_run,
  match og_run with
  | None => mret RMI_ERROR_INPUT
  | Some g_run =>
      granule_unlocked_state g_run ≫= λ st,
      if negb (st =? GRANULE_STATE_NS) then mret RMI_ERROR_INPUT
      else
        find_lock_unused_granule rec_addr GRANULE_STATE_REC ≫= λ '(res, og),
        if negb (res =? 0) then
          if res =? - EINVAL then mret RMI_ERROR_INPUT
          else massert (res =? - EBUSY) ≫= λ _, mret RMI_ERROR_REC
        else
          mderef og ≫= λ g_rec,
          atomic_granule_get g_rec ≫= λ _,
          granule_unlock g_rec ≫= λ _,
          enter_referenced run g_run g_rec
  end.
End enter.
