(* ===== verification/ExitSpec.v ===== *)
(** What exits tell the host and what the host can do to a realm in return. *)
From S2P Require Import Prelude Types Granule Platform GranuleFind S2tte S2tt Measurement Buffer Walk Exec Realm Rtt Feature Rsi Gic Mpidr Psci Esr RealmCmd RsiCall Exit Rec RecEnter.

(** * Emulated reads *)

Lemma lxor_sub_sign n v : 0 < n → 0 <= v < 2 ^ n →
  Z.lxor v (2 ^ (n - 1)) - 2 ^ (n - 1) = if v <? 2 ^ (n - 1) then v else v - 2 ^ n.
Proof.
  intros Hn Hv. assert (Hp : 2 ^ n = 2 * 2 ^ (n - 1)) by (rewrite <- Z.pow_succ_r by lia; f_equal; lia).
  destruct (Z.ltb_spec v (2 ^ (n - 1))) as [Hlt|Hge].
  - assert (Hx : Z.lxor v (2 ^ (n - 1)) = v + 2 ^ (n - 1)); [|lia].
    rewrite <- Z.add_nocarry_lxor; [done|]. apply Z.bits_inj'. intros i Hi. rewrite Z.land_spec, Z.bits_0, Z.pow2_bits_eqb by lia.
    destruct (Z.eqb_spec (n - 1) i) as [<-|]; [|by rewrite andb_false_r]. by rewrite (testbit_high v (n - 1)) by lia.
  - assert (Hx : Z.lxor v (2 ^ (n - 1)) = v - 2 ^ (n - 1)); [|lia].
    set (w := v - 2 ^ (n - 1)). assert (Hw : v = Z.lxor w (2 ^ (n - 1))).
    { rewrite <- Z.add_nocarry_lxor; [unfold w; lia|]. apply Z.bits_inj'. intros i Hi. rewrite Z.land_spec, Z.bits_0, Z.pow2_bits_eqb by lia.
      destruct (Z.eqb_spec (n - 1) i) as [<-|]; [|by rewrite andb_false_r]. rewrite (testbit_high w (n - 1)); [done|unfold w; lia|lia]. }
    rewrite Hw at 1. by rewrite Z.lxor_assoc, Z.lxor_nilpotent, Z.lxor_0_r.
Qed.

(** The size in bits of the access that a syndrome describes. *)
Definition access_bits (esr : Z) : Z := 8 * 2 ^ EXTRACT_F ESR_EL2_ABORT_SAS esr.

(** The value of a load of [access_bits esr] bits, [g], in a register: extended with its sign,
    or with zeros, to the width of the register. *)
Definition load_value (esr g : Z) : Z :=
  let n := access_bits esr in
  let v := g mod 2 ^ n in
  if Z.testbit esr 21
  then (if v <? 2 ^ (n - 1) then v else v - 2 ^ n) mod 2 ^ (if Z.testbit esr 15 then 64 else 32)
  else v.

Lemma esr_sas_cases esr : esr_sas esr = EXTRACT_F ESR_EL2_ABORT_SAS esr ∧
  (esr_sas esr = 0 ∨ esr_sas esr = 1 ∨ esr_sas esr = 2 ∨ esr_sas esr = 3).
Proof.
  unfold esr_sas. pose proof (EXTRACT_range 22 2 esr) as Hr. change (EXTRACT 22 2 esr) with (EXTRACT_F ESR_EL2_ABORT_SAS esr) in Hr.
  assert (Hs : u32 (EXTRACT_F ESR_EL2_ABORT_SAS esr) = EXTRACT_F ESR_EL2_ABORT_SAS esr) by (unfold u32; apply Z.mod_small; lia).
  rewrite Hs. split; [done|]. lia.
Qed.

Lemma mmio_read_value_run esr g : is_u64 g → mmio_read_value esr g = Ok (load_value esr g).
Proof.
  intros Hg. unfold mmio_read_value, load_value, access_bits, access_mask, access_len.
  destruct (esr_sas_cases esr) as [Heq Hc]. rewrite <- Heq.
  assert (Hs : esr_sign_extend esr = Z.testbit esr 21) by (unfold esr_sign_extend; change ESR_EL2_ABORT_SSE_BIT with (2 ^ 21); by apply land_pow2_testbit).
  assert (Hf : esr_sixty_four esr = Z.testbit esr 15) by (unfold esr_sixty_four; change ESR_EL2_ABORT_SF_BIT with (2 ^ 15); by apply land_pow2_testbit).
  rewrite Hs, Hf.
  assert (Hmask : ∀ n, 0 <= n → g .& (2 ^ n - 1) = g mod 2 ^ n) by (intros n Hn; by apply land_ones_mod).
  assert (Hgo : ∀ n (m len : Z), 0 < n <= 64 → m = 2 ^ n - 1 → len * 8 = n →
    (if Z.testbit esr 21 then
       Ok (if negb (Z.testbit esr 15) then (((g .& m) .^ (1 .<< (u32 (len * 8) - 1))) .- (1 .<< (u32 (len * 8) - 1))) .& ((1 .<< 32) .- 1)
           else ((g .& m) .^ (1 .<< (u32 (len * 8) - 1))) .- (1 .<< (u32 (len * 8) - 1)))
     else Ok (g .& m))
    = Ok (if Z.testbit esr 21
          then (if g mod 2 ^ n <? 2 ^ (n - 1) then g mod 2 ^ n else g mod 2 ^ n - 2 ^ n) mod 2 ^ (if Z.testbit esr 15 then 64 else 32)
          else g mod 2 ^ n)).
  { intros n m len Hn -> Hlen. rewrite Hlen, Hmask by lia. replace (u32 n) with n by (unfold u32; rewrite Z.mod_small; lia).
    assert (Hone : 1 .<< (n - 1) = 2 ^ (n - 1)).
    { unfold shl64. rewrite Z.shiftl_1_l, u64_small; [done|]. split; [lia|]. apply Z.pow_lt_mono_r; lia. }
    rewrite Hone. destruct (Z.testbit esr 21); [|done]. f_equal.
    rewrite lxor_sub_sign by (first [lia|apply Z.mod_pos_bound; lia]). set (w := if _ <? _ then _ else _).
    destruct (Z.testbit esr 15); cbn [negb]; [done|]. change ((1 .<< 32) .- 1) with (2 ^ 32 - 1). rewrite land_ones_mod by lia.
    unfold u64. rewrite Z.mod_mod_divide; [done|]. by exists (2 ^ 32). }
  destruct Hc as [Hc|[Hc|[Hc|Hc]]]; rewrite Hc; cbn [Z.eqb Pos.eqb ESR_EL2_ABORT_SAS_BYTE_VAL ESR_EL2_ABORT_SAS_HWORD_VAL ESR_EL2_ABORT_SAS_WORD_VAL ESR_EL2_ABORT_SAS_DWORD_VAL].
  - by apply (Hgo 8).
  - by apply (Hgo 16).
  - by apply (Hgo 32).
  - by apply (Hgo 64).
Qed.

(** * Syndromes *)

Lemma mask_eq_EXTRACT f a v :
  0 <= fshift f → 0 < fwidth f → fshift f + fwidth f <= 64 → 0 <= v < 2 ^ fwidth f →
  (a .& MASK_F f =? INPLACE_F f v) = (EXTRACT_F f a =? v).
Proof.
  intros H1 H2 H3 Hv. unfold EXTRACT_F, EXTRACT, INPLACE_F, INPLACE. set (s := fshift f) in *. set (w := fwidth f) in *.
  assert (Hsh : v .<< s = Z.shiftl v s).
  { unfold shl64. apply u64_small. rewrite Z.shiftl_mul_pow2 by lia. split; [lia|].
    assert (0 < 2 ^ s) by (apply Z.pow_pos_nonneg; lia).
    assert (v * 2 ^ s < 2 ^ w * 2 ^ s) by nia.
    assert (2 ^ w * 2 ^ s <= 2 ^ 64) by (rewrite <- Z.pow_add_r by lia; apply Z.pow_le_mono_r; lia). lia. }
  rewrite Hsh. change (MASK_F f) with (MASK s w). apply eq_true_iff_eq. rewrite !Z.eqb_eq. split.
  - intros Heq. rewrite Heq, Z.shiftr_shiftl_l, Z.sub_diag by lia. by rewrite Z.shiftl_0_r.
  - intros Heq. rewrite <- Heq. apply Z.bits_inj'. intros i Hi. rewrite Z.land_spec, testbit_MASK by lia.
    destruct (Z.leb_spec s i); cbn [andb].
    + rewrite Z.shiftl_spec, Z.shiftr_spec, Z.land_spec, testbit_MASK by lia. replace (i - s + s) with i by lia.
      by rewrite (proj2 (Z.leb_le s i)) by lia.
    + rewrite Z.shiftl_spec, (testbit_neg _ (i - s)), (andb_false_r (i <? 64)) by lia. apply andb_false_r.
Qed.

(** ** What the host is told *)

Lemma testbit_nonemulated i : 0 <= i → Z.testbit ESR_NONEMULATED_ABORT_MASK i
  = (26 <=? i) && (i <? 32) || (11 <=? i) && (i <? 13) || (i =? 10) || (i =? 9) || (i <? 6).
Proof.
  intros Hi. unfold ESR_NONEMULATED_ABORT_MASK. rewrite !Z.lor_spec, !testbit_MASK_F by fld.
  change ESR_EL2_ABORT_FNV_BIT with (2 ^ 10). change ESR_EL2_ABORT_EA_BIT with (2 ^ 9). rewrite !Z.pow2_bits_eqb by lia.
  cbn [fshift fwidth ESR_EL2_EC ESR_EL2_ABORT_SET ESR_EL2_ABORT_FSC]. zcases.
Qed.

Lemma nonemulated_isv esr : (esr .& ESR_NONEMULATED_ABORT_MASK) .& ESR_EL2_ABORT_ISV_BIT = 0.
Proof. rewrite land_land_r. change (ESR_NONEMULATED_ABORT_MASK .& ESR_EL2_ABORT_ISV_BIT) with 0. apply Z.land_0_r. Qed.

Lemma emulated_isv esr : (esr .& ESR_EMULATED_ABORT_MASK) .& ESR_EL2_ABORT_ISV_BIT = esr .& ESR_EL2_ABORT_ISV_BIT.
Proof. by rewrite land_land_r. Qed.

(** * Injection *)

Definition mode_of (spsr : Z) : Z := EXTRACT_F SPSR_EL2_MODE spsr.
(** A realm runs at EL0 or at EL1 with either stack pointer. *)
Definition mode_ok (spsr : Z) : Prop := mode_of spsr = 0 ∨ mode_of spsr = 4 ∨ mode_of spsr = 5.

(** The entry of the vector table, by where the exception comes from. *)
Definition vector_offset (spsr : Z) : Z :=
  if mode_of spsr =? 5 then 0x200 else if mode_of spsr =? 4 then 0 else if Z.testbit spsr 4 then 0x600 else 0x400.

Lemma calc_vector_entry_run vbar spsr : mode_ok spsr → calc_vector_entry vbar spsr = Ok (vbar .+ vector_offset spsr).
Proof.
  intros Hm. unfold calc_vector_entry, vector_offset, SPSR_EL2_MODE_EL1h, SPSR_EL2_MODE_EL1t, SPSR_EL2_MODE_EL0t, SPSR_EL2_nRW_AARCH64.
  rewrite !mask_eq_EXTRACT by (first [done|cbn; lia]). fold (mode_of spsr).
  assert (Hw : (EXTRACT_F SPSR_EL2_nRW spsr =? 0) = negb (Z.testbit spsr 4)).
  { unfold EXTRACT_F. cbn [fshift fwidth SPSR_EL2_nRW]. apply eq_true_iff_eq. rewrite Z.eqb_eq, negb_true_iff. split.
    - intros Hz. pose proof (testbit_EXTRACT 4 1 spsr 0) as Hb. rewrite Hz, Z.bits_0 in Hb by lia. symmetry. apply Hb; lia.
    - intros Hb. apply Z.bits_inj'. intros i Hi. rewrite testbit_EXTRACT, Z.bits_0 by lia. destruct (Z.ltb_spec i 1); [|done].
      replace (i + 4) with 4 by lia. by rewrite Hb. }
  rewrite Hw. destruct Hm as [-> | [-> | ->]]; cbn [Z.eqb Pos.eqb]; [|done..]. by destruct (Z.testbit spsr 4).
Qed.

(** [e] is the syndrome [esr] of an abort as the realm sees it: of an exception from the same
    level unless it comes from EL0, an external abort with status [fsc], with a valid fault
    address and not from a table walk, and otherwise the same. *)
Record abort_syndrome (esr spsr fsc e : Z) : Prop := {
  as_ec : EXTRACT_F ESR_EL2_EC e = EXTRACT_F ESR_EL2_EC esr + (if mode_of spsr =? 0 then 0 else 1);
  as_fsc : EXTRACT_F ESR_EL2_ABORT_FSC e = fsc;
  as_ea : Z.testbit e 9 = true;
  as_fnv : Z.testbit e 10 = false;
  as_ptw : Z.testbit e 7 = false;
  as_rest i : 6 <= i < 26 → i ≠ 7 → i ≠ 9 → i ≠ 10 → Z.testbit e i = Z.testbit esr i;
}.

Lemma calc_esr_idabort_run esr spsr fsc :
  is_u64 esr → EXTRACT_F ESR_EL2_EC esr = 32 ∨ EXTRACT_F ESR_EL2_EC esr = 36 → 0 <= fsc < 64 →
  ∃ e, calc_esr_idabort esr spsr fsc = Ok e ∧ abort_syndrome esr spsr fsc e.
Proof.
  intros Hu Hec Hf. unfold calc_esr_idabort, ESR_EL2_EC_INST_ABORT, ESR_EL2_EC_DATA_ABORT, SPSR_EL2_MODE_EL0t.
  rewrite !mask_eq_EXTRACT by (first [done|cbn; lia]). fold (mode_of spsr).
  assert (Hkeep : esr .& MASK_F ESR_EL2_EC = INPLACE_F ESR_EL2_EC (EXTRACT_F ESR_EL2_EC esr)).
  { apply Z.eqb_eq. rewrite mask_eq_EXTRACT; [apply Z.eqb_refl|done|done|done|]. apply (EXTRACT_range 26 6); lia. }
  rewrite Hkeep. rewrite rassert_bind by (destruct Hec as [-> | ->]; done).
  assert (Hfz : (fsc .& .~ (MASK_F ESR_EL2_ABORT_FSC) =? 0) = true).
  { apply Z.eqb_eq, Z.bits_inj'. intros i Hi. rewrite Z.land_spec, testbit_not64, testbit_MASK_F, Z.bits_0 by fld.
    cbn [fshift fwidth ESR_EL2_ABORT_FSC]. destruct (Z.ltb_spec i 6); [zcases|by rewrite (testbit_high fsc 6) by lia]. }
  rewrite rassert_bind by done. set (ec' := if negb (mode_of spsr =? 0) then _ else _).
  assert (Hec' : ec' = INPLACE_F ESR_EL2_EC (EXTRACT_F ESR_EL2_EC esr + (if mode_of spsr =? 0 then 0 else 1))).
  { unfold ec'. destruct (mode_of spsr =? 0), Hec as [-> | ->]; done. }
  rewrite Hec'. set (c := EXTRACT_F ESR_EL2_EC esr + _).
  assert (Hc : 0 <= c < 64) by (unfold c; destruct (mode_of spsr =? 0), Hec as [-> | ->]; lia).
  eexists. split; [reflexivity|].
  assert (Hbits : ∀ i, 0 <= i < 64 →
    Z.testbit (((esr .& .~ (MASK_F ESR_EL2_EC .| MASK_F ESR_EL2_ABORT_FSC .| ESR_EL2_ABORT_FNV_BIT .| ESR_EL2_ABORT_S1PTW_BIT))
       .| INPLACE_F ESR_EL2_EC c) .| fsc .| ESR_EL2_ABORT_EA_BIT) i
    = if i <? 6 then Z.testbit fsc i else if i =? 9 then true else if (i =? 7) || (i =? 10) then false
      else if (26 <=? i) && (i <? 32) then Z.testbit c (i - 26) else Z.testbit esr i).
  { intros i Hi. rewrite !Z.lor_spec, Z.land_spec, testbit_not64, !Z.lor_spec, !testbit_MASK_F by fld.
    change ESR_EL2_ABORT_FNV_BIT with (2 ^ 10). change ESR_EL2_ABORT_S1PTW_BIT with (2 ^ 7). change ESR_EL2_ABORT_EA_BIT with (2 ^ 9).
    rewrite !Z.pow2_bits_eqb by lia. unfold INPLACE_F, INPLACE. cbn [fshift fwidth ESR_EL2_EC ESR_EL2_ABORT_FSC].
    rewrite testbit_shl64 by lia. rewrite (proj2 (Z.ltb_lt i 64)) by lia. cbn [andb].
    destruct (Z.ltb_spec i 6).
    - rewrite (testbit_neg c (i - 26)) by lia. zcases; by rewrite ?andb_false_r.
    - rewrite (testbit_high fsc 6) by lia. destruct (Z.leb_spec 26 i).
      + destruct (Z.ltb_spec i 32); [zcases; by rewrite ?andb_false_r|]. rewrite (testbit_high c 6 (i - 26)) by lia. zcases.
      + rewrite (testbit_neg c (i - 26)) by lia. zcases; by rewrite ?andb_false_r. }
  split.
  - unfold EXTRACT_F at 1. cbn [fshift fwidth ESR_EL2_EC]. apply Z.bits_inj'. intros i Hi. rewrite testbit_EXTRACT by lia.
    destruct (Z.ltb_spec i 6); [|by rewrite (testbit_high c 6) by lia]. rewrite Hbits by lia. replace (i + 26 - 26) with i by lia. zcases.
  - unfold EXTRACT_F. cbn [fshift fwidth ESR_EL2_ABORT_FSC]. apply Z.bits_inj'. intros i Hi. rewrite testbit_EXTRACT, Z.add_0_r by lia.
    destruct (Z.ltb_spec i 6); [|by rewrite (testbit_high fsc 6) by lia]. rewrite Hbits by lia. zcases.
  - by rewrite Hbits by lia.
  - by rewrite Hbits by lia.
  - by rewrite Hbits by lia.
  - intros i Hi H7 H9 H10. rewrite Hbits by lia. zcases.
Qed.

(** The registers of the processor hold the REC [r], which took an abort. *)
Record holds_rec (hw : el2_regs) (r : rec) : Prop := {
  hr_esr : hw_esr_el2 hw = last_esr (last_run r);
  hr_far : hw_far_el2 hw = last_far (last_run r);
  hr_pc : hw_elr_el2 hw = pc r;
  hr_pstate : hw_spsr_el2 hw = pstate r;
  hr_vbar : hw_vbar_el12 hw = vbar_el1 (sysregs r);
}.

Lemma inject_sync_idabort_run fsc hw :
  is_u64 (hw_esr_el2 hw) → EXTRACT_F ESR_EL2_EC (hw_esr_el2 hw) = 32 ∨ EXTRACT_F ESR_EL2_EC (hw_esr_el2 hw) = 36 →
  mode_ok (hw_spsr_el2 hw) → 0 <= fsc < 64 →
  ∃ e, abort_syndrome (hw_esr_el2 hw) (hw_spsr_el2 hw) fsc e ∧
    inject_sync_idabort fsc hw
    = Ok {| hw_esr_el2 := hw_esr_el2 hw; hw_far_el2 := hw_far_el2 hw; hw_hpfar_el2 := hw_hpfar_el2 hw;
            hw_elr_el2 := hw_vbar_el12 hw .+ vector_offset (hw_spsr_el2 hw); hw_spsr_el2 := 0x3c5;
            hw_vbar_el12 := hw_vbar_el12 hw; hw_far_el12 := hw_far_el2 hw; hw_elr_el12 := hw_elr_el2 hw;
            hw_spsr_el12 := hw_spsr_el2 hw; hw_esr_el12 := e |}.
Proof.
  intros Hu Hec Hm Hf. destruct (calc_esr_idabort_run _ (hw_spsr_el2 hw) fsc Hu Hec Hf) as (e & He & Hs).
  exists e. split; [done|]. unfold inject_sync_idabort. rewrite He, result_bind_ok, calc_vector_entry_run by done. done.
Qed.

(** C35: An injected abort is the exception that the realm would have taken itself: its
    syndrome says so, the interrupted address and state are where a handler looks for them,
    the handler's address is the right entry of the realm's vector table, and the realm goes
    on at EL1 with exceptions masked. The two ways to inject it, into the registers of the
    processor and into a REC that does not run, agree. *)
Theorem injection_spec r hw fsc :
  holds_rec hw r → is_u64 (hw_esr_el2 hw) →
  EXTRACT_F ESR_EL2_EC (hw_esr_el2 hw) = 32 ∨ EXTRACT_F ESR_EL2_EC (hw_esr_el2 hw) = 36 →
  mode_ok (pstate r) → 0 <= fsc < 64 →
  ∃ hw' r', inject_sync_idabort fsc hw = Ok hw' ∧ inject_sync_idabort_rec r fsc = Ok r' ∧
    abort_syndrome (last_esr (last_run r)) (pstate r) fsc (esr_el1 (sysregs r')) ∧
    elr_el1 (sysregs r') = pc r ∧ spsr_el1 (sysregs r') = pstate r ∧ far_el1 (sysregs r') = last_far (last_run r) ∧
    pc r' = vbar_el1 (sysregs r) .+ vector_offset (pstate r) ∧ pstate r' = 0x3c5 ∧ regs r' = regs r ∧
    hw_esr_el12 hw' = esr_el1 (sysregs r') ∧ hw_elr_el12 hw' = elr_el1 (sysregs r') ∧
    hw_spsr_el12 hw' = spsr_el1 (sysregs r') ∧ hw_far_el12 hw' = far_el1 (sysregs r') ∧
    hw_elr_el2 hw' = pc r' ∧ hw_spsr_el2 hw' = pstate r'.
Proof.
  intros [He Hfar Hpc Hps Hvb] Hu Hec Hm Hf.
  destruct (inject_sync_idabort_run fsc hw Hu Hec ltac:(by rewrite Hps) Hf) as (e & Hs & Hi).
  destruct (calc_esr_idabort_run _ (pstate r) fsc Hu Hec Hf) as (e' & He' & _).
  assert (e' = e) as ->.
  { unfold inject_sync_idabort in Hi. rewrite Hps, He', result_bind_ok, calc_vector_entry_run in Hi by done. by injection Hi. }
  rewrite He in Hs, He'. rewrite Hps in Hs. eexists _, _. split; [exact Hi|]. unfold inject_sync_idabort_rec. rewrite He', result_bind_ok. cbn [sysregs set_sysregs set_exception vbar_el1 pstate].
  rewrite calc_vector_entry_run by done. split; [reflexivity|]. cbn. rewrite Hfar, Hpc, Hps, Hvb. done.
Qed.
