(* ===== verification/DataAbort.v ===== *)
(** Data aborts of realms from the exit to the next entry: what the host learns of them and what
    its answer can change. *)
From S2P Require Import Prelude Types Granule Platform GranuleFind S2tte S2tt Measurement Buffer Walk Exec Realm Rtt Feature Rsi Gic Mpidr Psci Esr RealmCmd RsiCall Exit Rec RecEnter ExitSpec.

(** * Fields *)

Lemma hpfar_fipa_eq hpfar : hpfar_fipa hpfar = EXTRACT_F HPFAR_EL2_FIPA hpfar * 4096.
Proof.
  unfold hpfar_fipa. apply Z.bits_inj'. intros i Hi. change 4096 with (2 ^ 12). rewrite <- Z.shiftl_mul_pow2 by lia.
  unfold shl64, u64.
  destruct (Z.ltb_spec i 64).
  - rewrite Z.mod_pow2_bits_low, !Z.shiftl_spec, Z.land_spec by lia. unfold HPFAR_EL2_FIPA_OFFSET.
    destruct (Z.ltb_spec i 12).
    + rewrite (testbit_neg _ (i - 12)) by lia. destruct (Z.ltb_spec i 8); [by rewrite (testbit_neg hpfar) by lia|].
      rewrite testbit_MASK_F by fld. cbn [fshift fwidth HPFAR_EL2_FIPA]. zcases; apply andb_false_r.
    + unfold EXTRACT_F. cbn [fshift fwidth HPFAR_EL2_FIPA]. rewrite testbit_EXTRACT, testbit_MASK_F by fld. cbn [fshift fwidth HPFAR_EL2_FIPA].
      replace (i - 12 + 4) with (i - 8) by lia. zcases; by rewrite ?andb_false_r, ?andb_true_r.
  - rewrite Z.mod_pow2_bits_high, Z.shiftl_spec by lia. unfold EXTRACT_F. cbn [fshift fwidth HPFAR_EL2_FIPA].
    pose proof (EXTRACT_range 4 40 hpfar ltac:(lia) ltac:(lia) ltac:(lia)). by rewrite (testbit_high _ 40) by lia.
Qed.

Lemma hpfar_fipa_aligned hpfar : GRANULE_ALIGNED (hpfar_fipa hpfar) = true ∧ 0 <= hpfar_fipa hpfar.
Proof.
  rewrite hpfar_fipa_eq. pose proof (EXTRACT_range 4 40 hpfar ltac:(lia) ltac:(lia) ltac:(lia)) as Hr.
  change (EXTRACT 4 40 hpfar) with (EXTRACT_F HPFAR_EL2_FIPA hpfar) in Hr. split; [|lia]. apply granule_aligned_mod. by apply Z.mod_mul.
Qed.

Lemma access_mask_run esr : access_mask esr = Ok (2 ^ access_bits esr - 1).
Proof. unfold access_mask, access_bits. destruct (esr_sas_cases esr) as [<- [-> | [-> | [-> | ->]]]]; done. Qed.

Lemma esr_srt_range esr : 0 <= esr_srt esr < 32.
Proof.
  unfold esr_srt. pose proof (EXTRACT_range 16 5 esr ltac:(lia) ltac:(lia) ltac:(lia)) as Hr. change (EXTRACT 16 5 esr) with (EXTRACT_F ESR_EL2_ABORT_SRT esr) in Hr.
  unfold u32. rewrite Z.mod_small; lia.
Qed.

(** * Aborts *)

Section aborts.
Context {P : Platform} {H : Machine} {CF : Config} {L : PlatformLaws P} {HL : MachineLaws P H}.

(** [e], at level [i], is the entry that a walk for [ipa] ends at. *)
Definition leaf_entry (s : state) (T : gmap Z (Z * Z)) (ipa i e : Z) : Prop :=
  ∃ g b rc tag p t, T !! g = Some (i, b) ∧ covers_lvl i b ipa ∧ rtt_view s g rc tag p t ∧
    t !! Z.to_nat (s2_addr_to_idx ipa i) = Some e ∧ (i < 3 → entry_is_table e = false).

(** Whether a realm may not access the address at all. *)
Definition leaf_empty (e i : Z) : bool := negb (s2tte_is_assigned_ram e i) && bool_decide (fail_ripas e i = RIPAS_EMPTY).

(** [b]: the address is protected and its RIPAS is EMPTY. *)
Definition address_empty (s : state) (T : gmap Z (Z * Z)) (r : rec) (ipa : Z) (b : bool) : Prop :=
  if addr_in_rec_par r ipa then ∃ i e, leaf_entry s T ipa i e ∧ b = leaf_empty e i else b = false.

Lemma rtt_view_quiet s g rc tag p t : rtt_view s g rc tag p t → ∃ gr, granules s !! g = Some gr ∧ granule_quiet gr.
Proof using.
  clear. intros [Ha Hg Hrc Hm Hp Hl]. apply rtt_granule_quiet. split; [done|]. split; [by exists rc, tag|].
  exists t. split; [|done]. unfold table_of. by rewrite Hm.
Qed.

Lemma ipa_is_empty_run s r T ipa :
  rtt_wf s (ri_s2_ctx r) T → slots s !! SLOT_RTT = None → 0 <= ipa → GRANULE_ALIGNED ipa = true →
  ∃ b, address_empty s T r ipa b ∧ ipa_is_empty ipa r s = Ok (b, s).
Proof using L HL.
  intros Hwf Hs Hi Hal. pose proof (realm_ipa_to_pa_spec s r T ipa walk_result_init Hwf Hs Hi) as Hsp.
  unfold ipa_is_empty, address_empty. run_step (massert_run _ s Hal). rewrite Hal in Hsp. cbn [andb] in Hsp.
  destruct (addr_in_rec_par r ipa).
  - destruct Hsp as (g & i & b & rc & tag & p & t & e & HT & Hc & Hv & He & Hl & Hrun).
    exists (leaf_empty e i). split; [by exists i, e; split; [exists g, b, rc, tag, p, t|]|].
    unfold leaf_empty. destruct (s2tte_is_assigned_ram e i).
    + destruct Hrun as (pa & _ & Hrun). run_step Hrun. cbn [sw_llt sw_ripas_val]. rewrite bind_assoc. run_step (mderef_run _ _ _ eq_refl).
      run_step (unlock_locked s g (rtt_view_quiet _ _ _ _ _ _ Hv)). done.
    + run_step Hrun. by rewrite ret_bind.
  - exists false. split; [done|]. run_step Hsp. by rewrite ret_bind.
Qed.

(** A realm took a data abort that is not an external abort. *)
Record took_data_abort (r : rec) (e : rmi_rec_exit) (hw : el2_regs) : Prop := {
  ta_esr : is_u64 (hw_esr_el2 hw);
  ta_ec : EXTRACT_F ESR_EL2_EC (hw_esr_el2 hw) = 36;
  ta_ext : fsc_is_external_abort (hw_esr_el2 hw .& MASK_F ESR_EL2_ABORT_FSC) = false;
  ta_mode : mode_ok (hw_spsr_el2 hw);
  ta_regs : length (regs r) = 31%nat;
  ta_gprs : length (ex_gprs e) = 31%nat;
}.

(** Whether the realm executes in AArch32 state. *)
Definition in_aarch32 (hw : el2_regs) : bool := Z.testbit (hw_spsr_el2 hw) 4.

(** The value that a store writes: register 31 reads as zero. *)
Definition stored_value (r : rec) (esr : Z) : Z :=
  if Z.testbit esr 6 then (regs r ++ [0]) !!! Z.to_nat (esr_srt esr) mod 2 ^ access_bits esr else 0.

(** What the host is told of an abort at an address that it may not emulate. *)
Definition private_exit (hw : el2_regs) (e : rmi_rec_exit) : rmi_rec_exit :=
  let e := set_exit_fault (hw_esr_el2 hw .& ESR_NONEMULATED_ABORT_MASK) 0 (hw_hpfar_el2 hw) (set_exit_reason RMI_EXIT_SYNC e) in
  set_exit_gprs (<[0%nat := 0]> (ex_gprs e)) e.
(** And at one that it may. *)
Definition emulated_exit (r : rec) (hw : el2_regs) (e : rmi_rec_exit) : rmi_rec_exit :=
  let e := set_exit_fault (hw_esr_el2 hw .& ESR_EMULATED_ABORT_MASK) (hw_far_el2 hw mod 4096) (hw_hpfar_el2 hw)
             (set_exit_reason RMI_EXIT_SYNC e) in
  set_exit_gprs (<[0%nat := stored_value r (hw_esr_el2 hw)]> (ex_gprs e)) e.

(** What the REC keeps of the abort: whether the syndrome is valid for emulation. *)
Definition kept_run (hw : el2_regs) (isv : bool) : last_run_info :=
  {| last_esr := if isv then hw_esr_el2 hw else hw_esr_el2 hw .& .~ ESR_EL2_ABORT_ISV_BIT;
     last_hpfar := hw_hpfar_el2 hw; last_far := hw_far_el2 hw |}.

Lemma stored_value_run r esr : length (regs r) = 31%nat →
  (if esr_is_write esr then get_dabt_write_value r esr else Ok 0) = Ok (stored_value r esr).
Proof using.
  clear. intros Hl. unfold stored_value, get_dabt_write_value.
  assert (esr_is_write esr = Z.testbit esr 6) as -> by (unfold esr_is_write; change ESR_EL2_ABORT_WNR_BIT with (2 ^ 6); by apply land_pow2_testbit).
  destruct (Z.testbit esr 6); [|done]. pose proof (esr_srt_range esr) as Hr. destruct (Z.eqb_spec (esr_srt esr) 31) as [->|Hne].
  - rewrite list_lookup_total_alt, lookup_app_r by (rewrite Hl; lia). by rewrite Hl.
  - destruct (aget_in_range (regs r) (esr_srt esr)) as (v & -> & Hv); [lia|]. rewrite result_bind_ok, access_mask_run, result_bind_ok.
    rewrite land_ones_mod by (unfold access_bits; pose proof (esr_sas_cases esr); lia).
    rewrite list_lookup_total_alt, lookup_app_l, Hv by lia. done.
Qed.

Lemma fixup_run esr hw : fixup_aarch32_data_abort esr hw
  = (in_aarch32 hw, if in_aarch32 hw then esr .& .~ ESR_EL2_ABORT_ISV_BIT else esr).
Proof using.
  unfold fixup_aarch32_data_abort, in_aarch32. change SPSR_EL2_nRW_AARCH32 with (2 ^ 4).
  rewrite land_pow2_testbit by lia. by destruct (Z.testbit _ 4).
Qed.

Lemma nonemulated_clear esr : (esr .& .~ ESR_EL2_ABORT_ISV_BIT) .& ESR_NONEMULATED_ABORT_MASK = esr .& ESR_NONEMULATED_ABORT_MASK.
Proof using.
  rewrite <- Z.land_assoc. f_equal.
Qed.

Lemma kept_private r e hw : record_sync_exit r (private_exit hw e) hw = set_last_run (kept_run hw false) r.
Proof using. clear. unfold record_sync_exit. cbn [private_exit ex_esr set_exit_gprs set_exit_fault]. by rewrite nonemulated_isv. Qed.

Lemma kept_emulated r e hw : is_u64 (hw_esr_el2 hw) → record_sync_exit r (emulated_exit r hw e) hw = set_last_run (kept_run hw true) r.
Proof using.
  clear. intros Hu. unfold record_sync_exit. cbn [emulated_exit ex_esr set_exit_gprs set_exit_fault]. rewrite emulated_isv.
  destruct (Z.eqb_spec (hw_esr_el2 hw .& ESR_EL2_ABORT_ISV_BIT) 0) as [Hz|]; [|done].
  unfold kept_run. do 2 f_equal. apply Z.bits_inj'. intros i Hi. rewrite Z.land_spec, testbit_not64 by lia.
  destruct (Z.ltb_spec i 64); [|by rewrite (testbit_high _ 64) by (lia || done)]. cbn [andb].
  apply (f_equal (λ z, Z.testbit z i)) in Hz. rewrite Z.land_spec, Z.bits_0 in Hz.
  destruct (Z.testbit ESR_EL2_ABORT_ISV_BIT i), (Z.testbit (hw_esr_el2 hw) i); done.
Qed.

(** Whether the abort goes back to the realm as an external abort: the address is not one of
    the realm's, or [empty]. *)
Definition refused_address (r : rec) (hw : el2_regs) (empty : bool) : bool :=
  (rec_ipa_size r <=? hpfar_fipa (hw_hpfar_el2 hw)) || empty.

(** Whether the host may not emulate the access. *)
Definition private_access (r : rec) (hw : el2_regs) : bool :=
  in_aarch32 hw || addr_in_rec_par r (hpfar_fipa (hw_hpfar_el2 hw)).

Lemma data_abort_exit_run s r T e hw :
  rtt_wf s (ri_s2_ctx r) T → slots s !! SLOT_RTT = None → took_data_abort r e hw →
  ∃ empty, address_empty s T r (hpfar_fipa (hw_hpfar_el2 hw)) empty ∧
    if refused_address r hw empty then
      ∃ hw', inject_sync_idabort ESR_EL2_ABORT_FSC_SEA hw = Ok hw' ∧
        data_abort_exit r e hw s = Ok ((true, r, set_exit_reason RMI_EXIT_SYNC e, hw'), s)
    else if private_access r hw then
      data_abort_exit r e hw s = Ok ((false, set_last_run (kept_run hw false) r, private_exit hw e, hw), s)
    else
      data_abort_exit r e hw s = Ok ((false, set_last_run (kept_run hw true) r, emulated_exit r hw e, hw), s).
Proof using L HL.
  intros Hwf Hs [Hu Hec Hext Hm Hr Hg]. destruct (hpfar_fipa_aligned (hw_hpfar_el2 hw)) as [Hal Hp].
  destruct (ipa_is_empty_run s r T _ Hwf Hs Hp Hal) as (b & Hb & Hrun). exists b. split; [done|].
  destruct (inject_sync_idabort_run ESR_EL2_ABORT_FSC_SEA hw Hu ltac:(by right) Hm ltac:(done)) as (e12 & _ & Hinj).
  unfold data_abort_exit, handle_data_abort, refused_address, private_access, access_in_rec_par.
  unfold handle_sync_external_abort. rewrite Hext. cbn [negb]. rewrite bind_assoc. run_step (lift_run _ _ s eq_refl).
  assert (Hsea : (if rec_ipa_size r <=? hpfar_fipa (hw_hpfar_el2 hw) then mret true else ipa_is_empty (hpfar_fipa (hw_hpfar_el2 hw)) r) s
    = Ok ((rec_ipa_size r <=? hpfar_fipa (hw_hpfar_el2 hw)) || b, s)) by (by destruct (_ <=? _)).
  rewrite bind_assoc. run_step Hsea. destruct ((rec_ipa_size r <=? _) || b).
  { eexists. split; [exact Hinj|]. rewrite bind_assoc. by run_step (lift_run _ _ s Hinj). }
  rewrite fixup_run. destruct (in_aarch32 hw || addr_in_rec_par r (hpfar_fipa (hw_hpfar_el2 hw))) eqn:Hpriv.
  - unfold report_data_abort. rewrite aset_ok by (cbn [ex_gprs set_exit_fault set_exit_reason]; lia). rewrite result_bind_ok.
    rewrite bind_assoc. run_step (lift_run _ _ s eq_refl). rewrite ret_bind. rewrite <- (kept_private r e hw).
    unfold private_exit. destruct (in_aarch32 hw); by rewrite ?nonemulated_clear.
  - apply orb_false_iff in Hpriv as [-> _]. rewrite stored_value_run by done.
    rewrite bind_assoc. run_step (lift_run _ _ s eq_refl). unfold report_data_abort.
    rewrite aset_ok by (cbn [ex_gprs set_exit_fault set_exit_reason]; lia). rewrite result_bind_ok.
    rewrite bind_assoc. run_step (lift_run _ _ s eq_refl). rewrite ret_bind. rewrite <- (kept_emulated r e hw) by done.
    unfold emulated_exit. change (.~ GRANULE_MASK) with (2 ^ 12 - 1). by rewrite land_ones_mod by lia.
Qed.

(** C27: A data abort that is no external abort always has one of three outcomes, and never changes
    the state of the system. At an address outside the realm's space, or at a protected one
    whose RIPAS is EMPTY, the realm takes an external abort and goes on. At any other protected
    address, and for AArch32 code, the host is given no register of the realm, no fault address
    but the page, and no syndrome beyond the class and the cause of the abort; at an unprotected
    one it is also given the stored value, cut to the size of the access, the offset in the page
    and the size and direction of the access. The REC keeps the syndrome, marked as not to be
    emulated exactly in the second case. *)
Theorem data_abort_exit_spec s r T e hw :
  rtt_wf s (ri_s2_ctx r) T → slots s !! SLOT_RTT = None → took_data_abort r e hw →
  ∃ empty, address_empty s T r (hpfar_fipa (hw_hpfar_el2 hw)) empty ∧
    if refused_address r hw empty then
      ∃ hw', inject_sync_idabort ESR_EL2_ABORT_FSC_SEA hw = Ok hw' ∧
        data_abort_exit r e hw s = Ok ((true, r, set_exit_reason RMI_EXIT_SYNC e, hw'), s)
    else if private_access r hw then
      data_abort_exit r e hw s = Ok ((false, set_last_run (kept_run hw false) r, private_exit hw e, hw), s)
    else
      data_abort_exit r e hw s = Ok ((false, set_last_run (kept_run hw true) r, emulated_exit r hw e, hw), s).
Proof using L HL. apply data_abort_exit_run. Qed.

(** ** The answer of the host *)

Lemma kept_ec hw isv : is_u64 (hw_esr_el2 hw) → EXTRACT_F ESR_EL2_EC (last_esr (kept_run hw isv)) = EXTRACT_F ESR_EL2_EC (hw_esr_el2 hw).
Proof using.
  clear. intros Hu. destruct isv; [done|]. cbn [kept_run last_esr]. unfold EXTRACT_F, EXTRACT. f_equal. rewrite <- Z.land_assoc. f_equal.
Qed.

Lemma kept_isv hw isv : (last_esr (kept_run hw isv) .& ESR_EL2_ABORT_ISV_BIT =? 0) = negb (isv && Z.testbit (hw_esr_el2 hw) 24).
Proof using.
  clear. destruct isv; cbn [kept_run last_esr andb negb].
  - change ESR_EL2_ABORT_ISV_BIT with (2 ^ 24). rewrite <- land_pow2_testbit by lia. by rewrite negb_involutive.
  - rewrite land_land_r. change (.~ ESR_EL2_ABORT_ISV_BIT .& ESR_EL2_ABORT_ISV_BIT) with 0. by rewrite Z.land_0_r.
Qed.

(** The REC after the host emulated the access with the value [g]. *)
Definition emulated_rec (r : rec) (esr g : Z) : rec :=
  set_pc (pc r .+ 4) (if Z.testbit esr 6 || (esr_srt esr =? 31) then r
                      else set_regs (<[Z.to_nat (esr_srt esr) := load_value esr g]> (regs r)) r).

Lemma mmio_answer_run r hw isv en g :
  is_u64 (hw_esr_el2 hw) → EXTRACT_F ESR_EL2_EC (hw_esr_el2 hw) = 36 → length (regs r) = 31%nat →
  en_gprs en !! 0%nat = Some g → is_u64 g →
  negb (en_flags en .& REC_ENTRY_FLAG_EMUL_MMIO =? 0) = true → (en_flags en .& REC_ENTRY_FLAG_INJECT_SEA =? 0) = true →
  complete_mmio_emulation (set_last_run (kept_run hw isv) r) en
  = Ok (if isv && Z.testbit (hw_esr_el2 hw) 24 then (true, emulated_rec (set_last_run (kept_run hw isv) r) (hw_esr_el2 hw) g)
        else (false, set_last_run (kept_run hw isv) r)).
Proof using.
  clear. intros Hu Hec Hl Hg Hgu Hf1%negb_true_iff Hf2. unfold complete_mmio_emulation. rewrite Hf1, Hf2.
  cbn [negb last_run set_last_run]. rewrite kept_isv. unfold ESR_EL2_EC_DATA_ABORT. rewrite mask_eq_EXTRACT by (first [done|cbn; lia]).
  rewrite kept_ec, Hec by done. cbn [Z.eqb Pos.eqb negb orb]. destruct isv; [|done]. cbn [andb].
  destruct (Z.testbit (hw_esr_el2 hw) 24); [|done]. cbn [negb kept_run last_esr].
  assert (esr_is_write (hw_esr_el2 hw) = Z.testbit (hw_esr_el2 hw) 6) as -> by (unfold esr_is_write; change ESR_EL2_ABORT_WNR_BIT with (2 ^ 6); by apply land_pow2_testbit).
  unfold emulated_rec. pose proof (esr_srt_range (hw_esr_el2 hw)) as Hr.
  destruct (Z.testbit (hw_esr_el2 hw) 6); [done|]. destruct (Z.eqb_spec (esr_srt (hw_esr_el2 hw)) 31) as [|Hne]; [done|].
  cbn [negb andb orb]. rewrite (aget_lookup _ 0 g) by done. rewrite result_bind_ok, mmio_read_value_run, result_bind_ok by done.
  rewrite aset_ok by (cbn [regs set_last_run]; lia). done.
Qed.

Lemma sea_answer_run r hw isv en :
  is_u64 (hw_esr_el2 hw) → EXTRACT_F ESR_EL2_EC (hw_esr_el2 hw) = 36 →
  negb (en_flags en .& REC_ENTRY_FLAG_INJECT_SEA =? 0) = true →
  complete_sea_insertion (set_last_run (kept_run hw isv) r) en
  = if addr_in_rec_par r (hpfar_fipa (hw_hpfar_el2 hw)) then Ok (false, set_last_run (kept_run hw isv) r)
    else inject_sync_idabort_rec (set_last_run (kept_run hw isv) r) ESR_EL2_ABORT_FSC_SEA ≫= λ r', Ok (true, r').
Proof using.
  clear. intros Hu Hec Hf%negb_true_iff. unfold complete_sea_insertion. rewrite Hf. cbn [last_run set_last_run].
  unfold ESR_EL2_EC_DATA_ABORT. rewrite mask_eq_EXTRACT by (first [done|cbn; lia]). rewrite kept_ec, Hec by done. done.
Qed.

End aborts.

(** * Examples *)

#[local] Instance abort_config : Config := plain_config.

(** A load of a word into register 3, from the first unprotected page or from page [n]. *)
Definition demo_esr : Z := 0x9383_0007.
Definition demo_hw (fipa : Z) : el2_regs :=
  {| hw_esr_el2 := demo_esr; hw_far_el2 := 0xffff_0010; hw_hpfar_el2 := Z.shiftr fipa 8; hw_elr_el2 := 0x8000; hw_spsr_el2 := 0x5;
     hw_vbar_el12 := 0; hw_far_el12 := 0; hw_elr_el12 := 0; hw_spsr_el12 := 0; hw_esr_el12 := 0 |}.
Definition abort_rec : rec :=
  set_last_run {| last_esr := demo_esr; last_hpfar := 0; last_far := 0xffff_0010 |} (set_pc 0x8000 (set_pstate 0x5 demo_rec)).
Definition demo_enter (flags : Z) : rmi_rec_enter :=
  {| en_flags := flags; en_gprs := replicate 31 0x8765_4321_8000_0001; en_gicv3_hcr := 0; en_gicv3_lrs := replicate 16 0 |}.

Lemma demo_took fipa : took_data_abort abort_rec rmi_rec_exit_zero (demo_hw fipa).
Proof. split; try done. by right; right. Qed.

Lemma injection_spec_witness :
  ∃ hw' r', inject_sync_idabort 0x10 (demo_hw 0) = Ok hw' ∧ inject_sync_idabort_rec abort_rec 0x10 = Ok r' ∧
    pc r' = 0x200 ∧ elr_el1 (sysregs r') = 0x8000 ∧ EXTRACT_F ESR_EL2_EC (esr_el1 (sysregs r')) = 37.
Proof.
  destruct (injection_spec abort_rec (demo_hw 0) 0x10) as (hw' & r' & H1 & H2 & Hs & H3 & _ & _ & H4 & _);
    [by split|done|by right|by right; right|done|].
  exists hw', r'. split; [done|]. split; [done|]. split; [done|]. split; [done|]. by rewrite (as_ec _ _ _ _ Hs).
Defined.

Definition abort_state : state := demo_state (replicate 512 0) 0.

(** At the first unprotected page the load is reported in full. *)
Lemma data_abort_exit_spec_witness :
  data_abort_exit (P := demo_platform) (H := zero_machine) abort_rec rmi_rec_exit_zero (demo_hw (2 ^ 31)) abort_state
  = Ok ((false, set_last_run (kept_run (demo_hw (2 ^ 31)) true) abort_rec,
         emulated_exit abort_rec (demo_hw (2 ^ 31)) rmi_rec_exit_zero, demo_hw (2 ^ 31)), abort_state).
Proof.
  destruct (data_abort_exit_spec (P := demo_platform) (H := zero_machine) (L := demo_laws) (HL := demo_machine_laws)
    abort_state abort_rec demo_tables rmi_rec_exit_zero (demo_hw (2 ^ 31))) as (b & Hb & Hrun);
    [by apply demo_wf|done|apply demo_took|].
  assert (b = false) as -> by exact Hb. exact Hrun.
Defined.


Example demo_load : regs (emulated_rec abort_rec demo_esr 0x8765_4321_8000_0001) !! 3%nat = Some 0x8000_0001.
Proof. reflexivity. Qed.
