(* ===== verification/HostCall.v ===== *)
(** Calls of a realm to the host (runtime/rsi/host_call.c and its completion in runtime/rmi/run.c):
    the arguments go out of the realm's memory and the results back into it. *)
From S2P Require Import Prelude PsciSpec Types Granule Platform GranuleFind S2tte S2tt Measurement Buffer Walk Exec Realm Rtt RttTree Data DataCreate DataCmd Feature Rsi Gic Mpidr Psci Esr RealmCmd RsiCall Exit Rec RecEnter ExitSpec DataAbort.

(** * Bytes *)

Lemma splice_nil off bytes : splice off [] bytes = bytes.
Proof. unfold splice. cbn [length app]. rewrite Nat.add_0_r. apply take_drop. Qed.

Lemma length_splice off l bytes : (off + length l <= length bytes)%nat → length (splice off l bytes) = length bytes.
Proof. intros Hl. unfold splice. rewrite !length_app, length_take, length_drop. lia. Qed.

Lemma splice_app off a b bytes : (off + length a + length b <= length bytes)%nat →
  splice (off + length a) b (splice off a bytes) = splice off (a ++ b) bytes.
Proof.
  intros Hl. unfold splice. assert (Ht : length (take off bytes) = off) by (rewrite length_take; lia).
  rewrite (app_assoc (take off bytes) a), take_app_length' by (rewrite length_app; lia).
  rewrite drop_app_ge by (rewrite length_app; lia). rewrite length_app, Ht, drop_drop, length_app, <- !app_assoc.
  do 3 f_equal. f_equal. lia.
Qed.

Lemma longs_cons x l : longs (x :: l) = le_bytes 8 x ++ longs l.
Proof. done. Qed.

Lemma length_longs l : length (longs l) = (8 * length l)%nat.
Proof. induction l as [|x l IH]; [done|]. rewrite longs_cons, length_app, length_le_bytes, IH. cbn [length]. lia. Qed.

Lemma page_mask_aligned ipa : GRANULE_ALIGNED (ipa .& GRANULE_MASK) = true.
Proof.
  apply granule_aligned_land. rewrite land_land_r. change (GRANULE_MASK .& 4095) with 0. apply Z.land_0_r.
Qed.

Lemma page_mask_split ipa : is_u64 ipa → ipa .& GRANULE_MASK = ipa - ipa mod 4096.
Proof.
  intros Hu. assert (Hm : ipa mod 4096 = ipa .& 4095) by (symmetry; apply (land_ones_mod ipa 12); lia). rewrite Hm.
  assert (Hs : ipa = Z.lor (ipa .& GRANULE_MASK) (ipa .& 4095)).
  { rewrite <- Z.land_lor_distr_r. change (Z.lor GRANULE_MASK 4095) with (2 ^ 64 - 1). rewrite land_ones_mod by lia.
    symmetry. by apply Z.mod_small. }
  rewrite Hs at 2. rewrite <- Z.add_nocarry_lor; [lia|].
  rewrite <- Z.land_assoc, (Z.land_comm GRANULE_MASK), <- (Z.land_assoc ipa 4095). change (4095 .& GRANULE_MASK) with 0. by rewrite !Z.land_0_r.
Qed.

Section stores.
Context {P : Platform} {H : Machine}.

Lemma write_bytes_run s buf gd p bytes off l :
  slots s !! buf = Some gd → mem s !! gd = Some p → page_bytes p = Some bytes →
  write_bytes buf off l s = Ok ((), set_mem (<[gd := PData (splice off l bytes)]> (mem s)) s).
Proof.
  intros Hb Hm Hp. unfold write_bytes, read_bytes. rewrite bind_assoc. run_step (read_page_run s _ _ _ Hb Hm).
  rewrite Hp. run_step (mderef_run _ _ _ eq_refl). by apply write_page_run.
Qed.

Lemma store_gprs_data n i s buf gd bytes off gprs :
  slots s !! buf = Some gd → mem s !! gd = Some (PData bytes) → (i + n <= length gprs)%nat →
  (off + 8 + 8 * (i + n) <= length bytes)%nat →
  store_gprs n (Z.of_nat i) buf off gprs s
  = Ok ((), set_mem (<[gd := PData (splice (off + 8 + 8 * i) (longs (take n (drop i gprs))) bytes)]> (mem s)) s).
Proof.
  revert i s bytes. induction n as [|n IH]; intros i s bytes Hb Hm Hi Hl.
  { cbn [store_gprs take longs fmap list_fmap concat]. rewrite splice_nil, insert_id by done. by destruct s. }
  cbn [store_gprs]. destruct (lookup_lt_is_Some_2 gprs i) as [v Hv]; [lia|].
  run_step (lift_run _ _ s (aget_lookup _ _ _ (Nat2Z.is_nonneg i) ltac:(by rewrite Nat2Z.id))). rewrite Nat2Z.id.
  run_step (write_bytes_run s buf gd _ bytes (off + 8 + 8 * i) (le_bytes 8 v) Hb Hm eq_refl).
  replace (Z.of_nat i + 1) with (Z.of_nat (S i)) by lia.
  assert (Hsl : length (splice (off + 8 + 8 * i) (le_bytes 8 v) bytes) = length bytes) by (apply length_splice; rewrite length_le_bytes; lia).
  rewrite (IH (S i) _ (splice (off + 8 + 8 * i) (le_bytes 8 v) bytes)); [|done|apply lookup_insert_eq|lia|lia].
  rewrite (drop_S gprs v i Hv). cbn [firstn]. rewrite longs_cons.
  rewrite <- (splice_app _ (le_bytes 8 v)) by (rewrite length_le_bytes, length_longs, length_take, length_drop; lia).
  rewrite length_le_bytes. replace (off + 8 + 8 * S i)%nat with (off + 8 + 8 * i + 8)%nat by lia.
  st_norm. by rewrite insert_insert_eq.
Qed.

Lemma store_gprs_run n s buf gd p bytes off gprs :
  slots s !! buf = Some gd → mem s !! gd = Some p → page_bytes p = Some bytes → (S n <= length gprs)%nat →
  (off + 8 + 8 * S n <= length bytes)%nat →
  store_gprs (S n) 0 buf off gprs s
  = Ok ((), set_mem (<[gd := PData (splice (off + 8) (longs (take (S n) gprs)) bytes)]> (mem s)) s).
Proof.
  intros Hb Hm Hp Hi Hl. assert (Hs : store_gprs (S n) 0 buf off gprs s = store_gprs (S n) 0 buf off gprs (set_mem (<[gd := PData bytes]> (mem s)) s)).
  { cbn [store_gprs]. destruct gprs as [|v gprs]; [cbn in Hi; lia|]. 
    assert (Ha : aget (v :: gprs) 0 = Ok v) by done.
    run_step (lift_run _ _ s Ha). run_step (lift_run _ _ (set_mem (<[gd := PData bytes]> (mem s)) s) Ha).
    run_step (write_bytes_run s buf gd _ bytes (off + 8 + 8 * 0) (le_bytes 8 v) Hb Hm Hp).
    rewrite (bind_run _ _ _ _ _ (write_bytes_run (set_mem (<[gd := PData bytes]> (mem s)) s) buf gd (PData bytes) bytes (off + 8 + 8 * 0) (le_bytes 8 v) Hb
      (lookup_insert_eq _ _ _) eq_refl)). cbv beta. st_norm. by rewrite insert_insert_eq. }
  rewrite Hs. rewrite (store_gprs_data (S n) 0 _ buf gd bytes off gprs); [|done|apply lookup_insert_eq|lia|lia].
  rewrite drop_0, Nat.mul_0_r, Nat.add_0_r. st_norm. by rewrite insert_insert_eq.
Qed.
End stores.

(** * The call *)

Section calls.
Context {P : Platform} {H : Machine} {CF : Config} {L : PlatformLaws P} {HL : MachineLaws P H}.

(** Entry [e] of level [i] maps [ipa] to the granule [gd], which holds [bytes]. *)
Definition data_at (s : state) (s2_ctx : s2tt_context) (ipa i e gd : Z) (bytes : list Z) : Prop :=
  ∃ pa p, s2tte_pa s2_ctx e i = Ok pa ∧ find_granule (pa .+ (ipa .& (s2tte_map_size i .- 1))) = Ok (Some gd) ∧ has_addr gd ∧
    mem s !! gd = Some p ∧ page_bytes p = Some bytes ∧ length bytes = 4096%nat.

(** A realm with a well-formed tree whose mappings lead to its data. *)
Record calls_ok (s : state) (r : rec) (T : gmap Z (Z * Z)) (ipa : Z) : Prop := {
  co_wf : rtt_wf s (ri_s2_ctx r) T;
  co_rtt : slots s !! SLOT_RTT = None;
  co_rsi : slots s !! SLOT_RSI_CALL = None;
  co_data i e : leaf_entry s T (ipa .& GRANULE_MASK) i e → s2tte_is_assigned_ram e i = true →
    ∃ gd bytes, data_at s (ri_s2_ctx r) (ipa .& GRANULE_MASK) i e gd bytes;
}.

(** The structure at [off] of a page is within it. *)
Definition in_page (off : nat) : Prop := (off + 256 <= 4096)%nat.

(** The record for the host, from the structure at [off]. *)
Definition host_call_exit (off : nat) (bytes : list Z) (e : rmi_rec_exit) : rmi_rec_exit :=
  set_exit_reason RMI_EXIT_HOST_CALL
    (set_exit_gprs ((λ i, member_at (off + 8 + 8 * i) 8 bytes) <$> seq 0 31) (set_exit_imm (member_at off 4 bytes) e)).

Lemma host_call_args off bytes e : length (ex_gprs e) = 31%nat →
  fill_regs RSI_HOST_CALL_NR_GPRS 0 (host_call_gpr off bytes) (ex_gprs e)
  = Ok ((λ i, member_at (off + 8 + 8 * i) 8 bytes) <$> seq 0 31).
Proof using.
  clear. intros Hl. set (vs := _ <$> seq 0 31). assert (Hvs : length vs = 31%nat) by (unfold vs; by rewrite length_fmap, length_seq).
  change RSI_HOST_CALL_NR_GPRS with 31%nat. rewrite <- Hvs at 1. rewrite fill_regs_run; [|lia|lia|].
  - rewrite Hvs, drop_ge, app_nil_r by (cbn; lia). done.
  - intros k v Hk. unfold vs in Hk. rewrite list_lookup_fmap in Hk. apply fmap_Some in Hk as (j & Hj & ->). apply lookup_seq in Hj as [-> _].
    unfold host_call_gpr. by rewrite Z.add_0_l, !Nat2Z.id.
Qed.

(** The walk that both directions of a call begin with. *)
Lemma host_call_walk s r T ipa :
  calls_ok s r T ipa → 0 <= ipa → addr_in_rec_par r (ipa .& GRANULE_MASK) = true →
  ∃ i e, leaf_entry s T (ipa .& GRANULE_MASK) i e ∧
    if s2tte_is_assigned_ram e i then
      ∃ g rc tag w gd bytes, data_at s (ri_s2_ctx r) (ipa .& GRANULE_MASK) i e gd bytes ∧ granules s !! g = Some (Gr false GRANULE_STATE_RTT rc tag) ∧
        0 <= rc <= 512 ∧ sw_llt w = Some g ∧ find_granule (sw_pa w) = Ok (Some gd) ∧
        realm_ipa_to_pa r (ipa .& GRANULE_MASK) walk_result_init s = Ok ((WALK_SUCCESS, w), put_granule g (Gr true GRANULE_STATE_RTT rc tag) s)
    else
      ∃ w, sw_ripas_val w = fail_ripas e i ∧ sw_rtt_level w = u64 i ∧
        realm_ipa_to_pa r (ipa .& GRANULE_MASK) walk_result_init s = Ok ((WALK_FAIL, w), s).
Proof using L HL.
  intros [Hwf Hs _ Hd] Hi Hp. pose proof (realm_ipa_to_pa_spec s r T (ipa .& GRANULE_MASK) walk_result_init Hwf Hs) as Hsp.
  rewrite Hp, page_mask_aligned in Hsp. cbn [andb] in Hsp.
  destruct Hsp as (g & i & b & rc & tag & p & t & e & HT & Hc & Hv & He & Hl & Hrun); [apply Z.land_nonneg; by left|].
  assert (Hleaf : leaf_entry s T (ipa .& GRANULE_MASK) i e) by (by exists g, b, rc, tag, p, t).
  exists i, e. split; [done|]. destruct (s2tte_is_assigned_ram e i) eqn:Hram; [|by eexists; split; [|split; [|exact Hrun]]].
  destruct (Hd i e Hleaf Hram) as (gd & bytes & Hda). destruct Hrun as (pa & Hpa & Hrun).
  destruct Hda as (pa' & q & Hpa' & Hf & Hrest). rewrite Hpa in Hpa'. injection Hpa' as <-.
  rewrite (rtt_view_lock _ _ _ _ _ _ Hv) in Hrun. destruct Hv as [Ha Hg Hrc _ _ _].
  eexists g, rc, tag, _, gd, bytes. split; [by exists pa, q|]. split; [done|]. split; [done|]. by split; [|split; [|exact Hrun]].
Qed.

(** The address of the structure of a call. *)
Record call_addr (r : rec) (ipa : Z) : Prop := {
  ca_reg : regs r !! 1%nat = Some ipa;
  ca_u64 : is_u64 ipa;
  ca_regs : length (regs r) = 31%nat;
}.
Definition call_addr_ok (r : rec) (ipa : Z) : bool := (ipa mod 256 =? 0) && addr_in_rec_par r ipa.

Lemma call_offset ipa : is_u64 ipa → ipa mod 256 = 0 →
  ipa .- (ipa .& GRANULE_MASK) = ipa mod 4096 ∧ ipa mod 4096 + 256 <= 4096 ∧ 0 <= ipa mod 4096.
Proof using.
  clear. intros Hu Ha. rewrite page_mask_split by done. pose proof (Z.mod_pos_bound ipa 4096 ltac:(lia)) as Hb. split.
  - replace (ipa - (ipa - ipa mod 4096)) with (ipa mod 4096) by lia. apply u64_small. unfold is_u64. lia.
  - split; [|lia]. assert ((ipa mod 4096) mod 256 = 0) by (rewrite Z.mod_mod_divide; [done|by exists 16]).
    pose proof (Z.div_mod (ipa mod 4096) 256 ltac:(lia)). lia.
Qed.

Lemma call_page_par r ipa : is_u64 ipa → addr_in_rec_par r ipa = true → addr_in_rec_par r (ipa .& GRANULE_MASK) = true.
Proof using.
  clear. intros Hu Hp. rewrite page_mask_split by done. apply Z.ltb_lt in Hp. apply Z.ltb_lt. pose proof (Z.mod_pos_bound ipa 4096 ltac:(lia)). lia.
Qed.

Lemma call_same_page ipa : is_u64 ipa → ipa mod 256 = 0 → (ipa / GRANULE_SIZE =? ((ipa .+ 256) .- 1) / GRANULE_SIZE) = true.
Proof using.
  clear. intros Hu Ha. destruct (call_offset ipa Hu Ha) as (_ & Hb & Hb0). apply Z.eqb_eq. change GRANULE_SIZE with 4096.
  assert (Hs : (ipa .+ 256) .- 1 = ipa + 255).
  { unfold u64. rewrite Zminus_mod_idemp_l. replace (ipa + 256 - 1) with (ipa + 255) by lia. apply Z.mod_small.
    pose proof (Z.div_mod ipa 256 ltac:(lia)). destruct Hu as [? Hu]. change (2 ^ 64) with (72057594037927936 * 256) in *. lia. }
  rewrite Hs. pose proof (Z.div_mod ipa 4096 ltac:(lia)) as Hd. apply (Z.div_unique_pos _ _ _ (ipa mod 4096 + 255)); lia.
Qed.

(** The structure of the call within its page. *)
Definition call_off (ipa : Z) : nat := Z.to_nat (ipa mod 4096).

(** A host call at an address that is not aligned to the structure or not protected is an
    input error. Otherwise it goes by the entry that maps the structure's page: with a mapping,
    the host is given the immediate value and the 31 registers that the realm's memory holds
    there, and the REC remembers the call; without one, the realm is told of an input error when
    the RIPAS is EMPTY, and the host of a translation fault at the entry's level when it is not.
    The memory and all locks and mappings are as before in every case. *)
Theorem handle_rsi_host_call_spec s r T ipa e res :
  calls_ok s r T ipa → call_addr r ipa → length (ex_gprs e) = 31%nat →
  let res1 := set_action UPDATE_REC_RETURN_TO_REALM res in
  if call_addr_ok r ipa then
    ∃ i en, leaf_entry s T (ipa .& GRANULE_MASK) i en ∧
      if s2tte_is_assigned_ram en i then
        ∃ gd bytes, data_at s (ri_s2_ctx r) (ipa .& GRANULE_MASK) i en gd bytes ∧
          handle_rsi_host_call r e res s
          = Ok ((set_host_call true r, host_call_exit (call_off ipa) bytes e, set_action EXIT_TO_HOST res), s)
      else
        handle_rsi_host_call r e res s
        = Ok ((r, e, if bool_decide (fail_ripas en i = RIPAS_EMPTY) then set_res (set_x0 RSI_ERROR_INPUT) res1
                     else set_rtt_level (u64 i) (set_action STAGE_2_TRANSLATION_FAULT res)), s)
  else handle_rsi_host_call r e res s = Ok ((r, e, set_res (set_x0 RSI_ERROR_INPUT) res1), s).
Proof using L HL.
  intros Hok [Hr Hu Hrl] Hl res1. unfold handle_rsi_host_call, call_addr_ok, call_off.
  run_step (lift_run _ _ s (aget_lookup (regs r) 1 ipa ltac:(lia) Hr)). change sizeof_rsi_host_call with 256.
  destruct (Z.eqb_spec (ipa mod 256) 0) as [Ha|]; [|done]. cbn [negb andb]. rewrite call_same_page by done. cbn [negb].
  destruct (addr_in_rec_par r ipa) eqn:Hp; [|done]. cbn [negb].
  destruct (host_call_walk s r T ipa Hok (proj1 Hu) (call_page_par r ipa Hu Hp)) as (i & en & Hleaf & Hw).
  exists i, en. split; [done|]. unfold do_host_call. assoc. run_step (lift_run _ _ s (aget_lookup (regs r) 1 ipa ltac:(lia) Hr)).
  assoc. run_step (massert_run _ s Hp). assoc. run_step (massert_run _ s eq_refl). assoc.
  destruct (s2tte_is_assigned_ram en i).
  - destruct Hw as (g & rc & tag & w & gd & bytes & Hd & Hg & Hrc & Hllt & Hf & Hrun). exists gd, bytes. split; [done|].
    destruct Hd as (pa & q & _ & _ & Had & Hm & Hb & _). run_step Hrun. unfold map_rsi_page. steps. st_norm.
    run_step (lift_run _ _ _ Hf). assoc. run_step (mderef_run _ _ _ eq_refl). pose proof (co_rsi _ _ _ _ Hok).
    assoc. exec map_assert_run. unfold read_bytes. steps. exec read_page_run. rewrite Hb. steps. run_step (mderef_run _ _ _ eq_refl).
    steps. rewrite (bind_run _ _ _ _ _ (lift_run _ _ _ (host_call_args _ _ (set_exit_imm _ e) Hl))). steps.
    exec buffer_unmap_run. rewrite Hllt. steps. run_step (mderef_run _ _ _ eq_refl). steps. exec granule_unlock_run. steps.
    run_step (mderef_run _ _ _ eq_refl). unfold mret, M_ret, host_call_exit. destruct (call_offset ipa Hu Ha) as (-> & _ & _).
    do 2 f_equal. rewrite insert_insert_eq, insert_id, delete_insert_id by done. by destruct s.
  - destruct Hw as (w & Hw1 & Hw2 & Hrun). run_step Hrun. steps. run_step (mderef_run _ _ _ eq_refl). rewrite Hw1, Hw2. done.
Qed.

Lemma fault_level i : -1 <= i <= 3 → (u64 i <=? S2TT_PAGE_LEVEL) = (0 <=? i) && (i <=? 3).
Proof using.
  clear. intros Hi. destruct (Z.leb_spec 0 i); [by rewrite u64_small by (unfold is_u64; lia)|].
  assert (i = -1) as -> by lia. done.
Qed.

Lemma leaf_level s s2_ctx T ipa i e : rtt_wf s s2_ctx T → leaf_entry s T ipa i e → -1 <= i <= 3.
Proof using.
  clear. intros Hwf (g & b & rc & tag & p & t & HT & _). destruct (wf_table _ _ _ Hwf g i b HT) as [Hl _].
  pose proof (wf_start _ _ _ Hwf) as Hw. unfold min_starting_level, S2TT_MIN_STARTING_LEVEL_LPA2, S2TT_MIN_STARTING_LEVEL in Hw.
  destruct (enable_lpa2 s2_ctx); lia.
Qed.

(** What the host is told when the structure of a pending call is not mapped, at level [i]. *)
Definition host_call_fault (ipa i : Z) (e : rmi_rec_exit) : rmi_rec_exit :=
  set_exit_reason RMI_EXIT_SYNC
    (set_exit_fault (ESR_EL2_EC_DATA_ABORT .| (ESR_EL2_ABORT_FSC_TRANSLATION_FAULT_L0 .+ i)) 0 (ipa .>> HPFAR_EL2_FIPA_OFFSET) e).

(** The next entry completes a pending host call by the entry that maps the structure now.
    With a mapping, the host's 31 registers, and nothing else, are stored behind the immediate value
    in the realm's memory, and the realm's x0 is RSI_SUCCESS. Without one the REC leaves again
    at once with a translation fault and the call still pending, unless the RIPAS is EMPTY: then the
    realm goes on without any result and with x0 as it was at the call. An entry of level -1,
    which the tables of an LPA2 realm can have, fails the assertion on the level. *)
Theorem complete_host_call_spec s r T ipa en ex :
  calls_ok s r T ipa → call_addr r ipa → call_addr_ok r ipa = true → host_call r = true → length (en_gprs en) = 31%nat →
  ∃ i e, leaf_entry s T (ipa .& GRANULE_MASK) i e ∧
    if s2tte_is_assigned_ram e i then
      ∃ gd bytes, data_at s (ri_s2_ctx r) (ipa .& GRANULE_MASK) i e gd bytes ∧
        complete_host_call r en ex s
        = Ok ((true, set_host_call false (set_regs (<[0%nat := RSI_SUCCESS]> (regs r)) r), ex),
              set_mem (<[gd := PData (splice (call_off ipa + 8) (longs (en_gprs en)) bytes)]> (mem s)) s)
    else
      complete_host_call r en ex s
      = if bool_decide (fail_ripas e i = RIPAS_EMPTY) then Ok ((true, set_host_call false r, ex), s)
        else if (0 <=? i) && (i <=? 3) then Ok ((false, r, host_call_fault ipa i ex), s) else Err FAssert.
Proof using L HL.
  intros Hok [Hr Hu Hrl] [Ha%Z.eqb_eq Hp]%andb_true_iff Hh Hl.
  destruct (call_offset ipa Hu Ha) as (Hoff & Hof & Hof0).
  destruct (host_call_walk s r T ipa Hok (proj1 Hu) (call_page_par r ipa Hu Hp)) as (i & e & Hleaf & Hw).
  exists i, e. split; [done|]. unfold complete_host_call, complete_rsi_host_call, do_host_call. rewrite Hh. cbn [negb].
  assoc. run_step (lift_run _ _ s (aget_lookup (regs r) 1 ipa ltac:(lia) Hr)).
  assoc. run_step (massert_run _ s Hp). assoc. run_step (massert_run _ s eq_refl). assoc.
  destruct (s2tte_is_assigned_ram e i).
  - destruct Hw as (g & rc & tag & w & gd & bytes & Hd & Hg & Hrc & Hllt & Hf & Hrun). exists gd, bytes. split; [done|].
    destruct Hd as (pa & q & _ & _ & Had & Hm & Hb & Hbl). run_step Hrun. unfold map_rsi_page. steps. st_norm.
    run_step (lift_run _ _ _ Hf). assoc. run_step (mderef_run _ _ _ eq_refl). pose proof (co_rsi _ _ _ _ Hok).
    assoc. exec map_assert_run. steps. run_step (mderef_run _ _ _ eq_refl). steps. rewrite Hoff. fold (call_off ipa).
    change RSI_HOST_CALL_NR_GPRS with 31%nat.
    erewrite bind_run; [|apply (store_gprs_run 30 _ SLOT_RSI_CALL gd q bytes (call_off ipa) (en_gprs en)); [apply lookup_insert_eq|exact Hm|done|lia|unfold call_off; lia]].
    cbv beta. steps. st_norm. rewrite (take_ge (en_gprs en)) by lia.
    run_step (lift_run _ _ _ (aset_ok (regs r) 0 RSI_SUCCESS ltac:(lia))). steps.
    exec buffer_unmap_run. rewrite Hllt. steps. run_step (mderef_run _ _ _ eq_refl). steps. exec granule_unlock_run. steps.
    cbn [action Z.eqb abort]. unfold mret, M_ret. do 2 f_equal.
    rewrite (insert_insert_eq (granules s)), (insert_id (granules s)), delete_insert_id by done. done.
  - destruct Hw as (w & Hw1 & Hw2 & Hrun). run_step Hrun. steps. rewrite Hw1, Hw2.
    case_bool_decide; [done|]. cbn [action set_rtt_level set_action rtt_level abort wr_rtt_level].
    rewrite Z.eqb_refl. cbn [abort wr_rtt_level]. unfold emulate_stage2_data_abort.
    rewrite (aget_lookup (regs r) 1 ipa), result_bind_ok by (done || lia). rewrite fault_level by (eapply leaf_level; [apply Hok|done]).
    destruct ((0 <=? i) && (i <=? 3)) eqn:Hlv; [|done]. cbn [rassert]. rewrite result_bind_ok.
    apply andb_true_iff in Hlv as [Hl1%Z.leb_le Hl2%Z.leb_le]. unfold host_call_fault. by rewrite (u64_small i) by (unfold is_u64; lia).
Qed.
End calls.

(** * Examples *)

#[local] Instance call_config : Config := plain_config.

(** The page at 4096 is mapped to granule 4, which holds zeros. *)
Definition call_state : state :=
  let s := demo_state demo_page 1 in set_mem (<[4 := PZero]> (mem s)) s.
Definition call_rec (pending : bool) : rec := set_host_call pending (set_regs (<[1%nat := 4096 + 256]> (replicate 31 0)) demo_rec).

Lemma demo_tables_not4 g v : demo_tables !! g = Some v → g ≠ 4.
Proof.
  unfold demo_tables. rewrite !lookup_insert_Some, lookup_singleton_Some. naive_solver lia.
Qed.

Lemma call_same : tables_same demo_tables (demo_state demo_page 1) call_state.
Proof. intros g v Hg. split; [done|]. unfold call_state, set_mem. cbn [mem]. apply lookup_insert_ne. intros Heq. by apply (demo_tables_not4 g v Hg). Qed.

Lemma call_leaf i e : leaf_entry (P := demo_platform) call_state demo_tables 4096 i e → i = 3 ∧ e = 4 * 4096 + S2TTE_PAGE.
Proof.
  intros (g & b & rc & tag & p & t & HT & _ & Hv & He & Hl).
  assert (Hv' : rtt_view (P := demo_platform) (demo_state demo_page 1) g rc tag p t).
  { destruct Hv as [H1 H2 H3 H4 H5 H6]. destruct (call_same _ _ HT) as [_ Hm]. split; try done. by rewrite Hm in H4. }
  destruct (demo_leaf_end _ _ _ _ _ _ _ _ _ 4096 _ HT Hv' eq_refl eq_refl He Hl) as (-> & -> & ->). split; [done|].
  change (Some (4 * 4096 + S2TTE_PAGE) = Some e) in He. by apply (inj Some) in He.
Qed.

Lemma call_ok b : calls_ok (P := demo_platform) call_state (call_rec b) demo_tables (4096 + 256).
Proof.
  split; [|done|done|].
  - apply (rtt_wf_same (demo_state demo_page 1)); [by apply demo_wf|apply call_same].
  - change ((4096 + 256) .& GRANULE_MASK) with 4096. intros i e [-> ->]%call_leaf _.
    exists 4, (replicate 4096 0), (4 * 4096), PZero. split; [done|]. split; [done|]. split; [split; [lia|by eexists]|]. split; [done|]. by split.
Qed.

Lemma call_demo_addr b : call_addr (call_rec b) (4096 + 256).
Proof. by split. Qed.

Lemma handle_rsi_host_call_spec_witness :
  ∃ ex res, handle_rsi_host_call (P := demo_platform) (H := zero_machine) (call_rec false) rmi_rec_exit_zero demo_rsi_result call_state
            = Ok ((set_host_call true (call_rec false), ex, res), call_state) ∧ exit_reason ex = RMI_EXIT_HOST_CALL ∧ action res = EXIT_TO_HOST.
Proof.
  pose proof (handle_rsi_host_call_spec (P := demo_platform) (H := zero_machine) (L := demo_laws) (HL := demo_machine_laws)
    call_state (call_rec false) demo_tables (4096 + 256) rmi_rec_exit_zero demo_rsi_result (call_ok false) (call_demo_addr false) eq_refl) as Hc.
  change (call_addr_ok (call_rec false) (4096 + 256)) with true in Hc. cbv iota zeta in Hc. change ((4096 + 256) .& GRANULE_MASK) with 4096 in Hc.
  destruct Hc as (i & e & Hleaf & Hrun). destruct (call_leaf i e Hleaf) as [-> ->].
  destruct Hrun as (gd & bytes & _ & Hrun). eexists _, _. split; [exact Hrun|]. split; reflexivity.
Defined.

Lemma complete_host_call_spec_witness :
  ∃ bytes, complete_host_call (P := demo_platform) (H := zero_machine) (call_rec true) (demo_enter 0) rmi_rec_exit_zero call_state
    = Ok ((true, set_host_call false (set_regs (<[0%nat := RSI_SUCCESS]> (regs (call_rec true))) (call_rec true)), rmi_rec_exit_zero),
          set_mem (<[4 := PData (splice 264 (longs (replicate 31 0x8765_4321_8000_0001)) bytes)]> (mem call_state)) call_state).
Proof.
  destruct (complete_host_call_spec (P := demo_platform) (H := zero_machine) (L := demo_laws) (HL := demo_machine_laws)
    call_state (call_rec true) demo_tables (4096 + 256) (demo_enter 0) rmi_rec_exit_zero (call_ok true) (call_demo_addr true)
    eq_refl eq_refl eq_refl) as (i & e & Hleaf & Hrun).
  change ((4096 + 256) .& GRANULE_MASK) with 4096 in Hleaf, Hrun. destruct (call_leaf i e Hleaf) as [-> ->].
  destruct Hrun as (gd & bytes & (pa & q & Hpa & Hf & _) & Hrun). exists bytes.
  change (Ok (4 * 4096) = Ok pa) in Hpa. injection Hpa as <-. change (Ok (Some 4) = Ok (Some gd)) in Hf. injection Hf as <-.
  exact Hrun.
Defined.
