(* ===== verification/RipasRequest.v ===== *)
(** Requests of a realm to change the RIPAS of its memory (runtime/rsi/memory.c and
    [complete_set_ripas] of runtime/rmi/run.c): from the call over the host's RTT_SET_RIPAS commands
    to the answer at the next entry. *)
From S2P Require Import Prelude PsciSpec Types Granule Platform GranuleFind S2tte S2tt Measurement Buffer Walk Exec Realm Rtt RttTree Data DataCreate Feature Rsi Gic Mpidr Psci Esr RealmCmd RsiCall Exit Rec RecEnter Ripas RipasSpec RipasSet ExitSpec DataAbort HostCall.

#[export] Instance ripas_response_eq_dec : EqDecision ripas_response.
Proof. solve_decision. Defined.

Section requests.
Context {P : Platform} {H : Machine} {CF : Config} {L : PlatformLaws P} {HL : MachineLaws P H}.

(** The arguments of the call, in registers 1 to 4. *)
Record request_args (r : rec) (base top v cd : Z) : Prop := {
  rq_regs : ∃ a rest, regs r = a :: base :: top :: v :: cd :: rest;
  rq_len : length (regs r) = 31%nat;
  rq_base : is_u64 base;
  rq_top : is_u64 top;
}.

(** A range of whole granules in the protected half of the address space, and a RIPAS that a
    realm may ask for. *)
Definition request_valid (r : rec) (base top v : Z) : bool :=
  bool_decide (is_Some (ripas_of_reg v)) && (base mod 4096 =? 0) && (top mod 4096 =? 0) && (base <? top) &&
  (top <=? 2 ^ (ipa_bits (ri_s2_ctx r) - 1)).

Lemma par_size_pow r : 1 <= ipa_bits (ri_s2_ctx r) <= 52 → rec_par_size r = 2 ^ (ipa_bits (ri_s2_ctx r) - 1).
Proof using.
  clear. intros Hb. unfold rec_par_size, rec_ipa_size, shl64. rewrite Z.shiftl_1_l, u64_small.
  - rewrite Z.shiftr_div_pow2 by lia. replace (ipa_bits (ri_s2_ctx r)) with (Z.succ (ipa_bits (ri_s2_ctx r) - 1)) at 1 by lia.
    rewrite Z.pow_succ_r, Z.mul_comm by lia. by apply Z.div_mul.
  - split; [lia|]. apply Z.pow_lt_mono_r; lia.
Qed.

Lemma region_in_par r base top : 1 <= ipa_bits (ri_s2_ctx r) <= 52 → is_u64 base → is_u64 top → base < top →
  region_in_rec_par r base top = (top <=? 2 ^ (ipa_bits (ri_s2_ctx r) - 1)).
Proof using.
  clear. intros Hb [Hb0 Hb1] [Ht0 Ht1] Hlt. unfold region_in_rec_par, region_is_contained, addr_is_contained.
  rewrite par_size_pow, (u64_small (top - 1)) by (unfold is_u64; lia || done).
  rewrite (proj2 (Z.ltb_ge (top - 1) base)) by lia.
  set (par := 2 ^ _). assert (0 < par) by (apply Z.pow_pos_nonneg; lia).
  assert (is_u64 (par - 1)).
  { unfold is_u64, par in *. assert (2 ^ (ipa_bits (ri_s2_ctx r) - 1) < 2 ^ 64) by (apply Z.pow_lt_mono_r; lia). lia. }
  rewrite (u64_small (par - 1)), (proj2 (Z.ltb_ge (par - 1) 0)) by (done || lia). zcases.
Qed.

(** The request as the REC keeps it, [a] reached so far. *)
Definition request_at (r : rec) (base top a v cd : Z) : set_ripas_info :=
  {| sr_base := base; sr_top := top; sr_addr := a; sr_ripas_val := default RIPAS_EMPTY (ripas_of_reg v);
     sr_change_destroyed := change_of_reg cd; sr_response := sr_response (set_ripas r) |}.

Definition with_response (b : ripas_response) (q : set_ripas_info) : set_ripas_info :=
  {| sr_base := sr_base q; sr_top := sr_top q; sr_addr := sr_addr q; sr_ripas_val := sr_ripas_val q;
     sr_change_destroyed := sr_change_destroyed q; sr_response := b |}.

Lemma state_set_run s r base top v cd e res :
  request_args r base top v cd → 1 <= ipa_bits (ri_s2_ctx r) <= 52 →
  handle_rsi_ipa_state_set r e res s
  = Ok (if request_valid r base top v then
          (set_set_ripas (request_at r base top base v cd) r,
           set_exit_ripas_value (ripas_to_Z (default RIPAS_EMPTY (ripas_of_reg v)))
             (set_exit_ripas base top (set_exit_reason RMI_EXIT_RIPAS_CHANGE e)),
           set_res (λ x, set_x1 top (set_x0 RSI_SUCCESS x)) (set_action UPDATE_REC_EXIT_TO_HOST res))
        else (r, e, set_res (set_x0 RSI_ERROR_INPUT) (set_action UPDATE_REC_RETURN_TO_REALM res)), s).
Proof using.
  clear. intros [(a & rest & Hr) _ Hub Hut] Hb. unfold handle_rsi_ipa_state_set.
  run_step (lift_run _ _ s (aget_lookup (regs r) 1 base ltac:(lia) ltac:(by rewrite Hr))).
  run_step (lift_run _ _ s (aget_lookup (regs r) 2 top ltac:(lia) ltac:(by rewrite Hr))).
  run_step (lift_run _ _ s (aget_lookup (regs r) 3 v ltac:(lia) ltac:(by rewrite Hr))).
  run_step (lift_run _ _ s (aget_lookup (regs r) 4 cd ltac:(lia) ltac:(by rewrite Hr))). unfold request_valid, request_at.
  destruct (ripas_of_reg v) as [w|]; [|by rewrite bool_decide_eq_false_2 by (by intros [? [=]])].
  rewrite bool_decide_eq_true_2 by done. cbn [andb default].
  assert (Hal : ∀ x, GRANULE_ALIGNED x = (x mod 4096 =? 0)).
  { intros x. apply eq_true_iff_eq. by rewrite granule_aligned_mod, Z.eqb_eq. }
  rewrite !Hal. destruct (base mod 4096 =? 0); [|done]. destruct (top mod 4096 =? 0); [|done]. cbn [negb orb andb].
  destruct (Z.leb_spec top base), (Z.ltb_spec base top); try lia; [done|]. cbn [orb andb]. rewrite region_in_par by done.
  by destruct (top <=? _).
Qed.

(** The life of a request to change the RIPAS of a range. It is accepted exactly when the range is
    made of whole granules of the protected half and the RIPAS is EMPTY or RAM; the host is then told
    of exactly this range, and the request is one that RTT_SET_RIPAS accepts. Whatever part
    the host has done by the next entry, up to the address [a], the realm is told [a], and told of
    a rejection exactly when it asked for RAM, some part is left and the host rejected it; nothing
    else of the REC changes, and no request is left. *)
Theorem ripas_request_spec s r d T base top v cd e res a resp :
  rtt_wf s (s2_ctx d) T → ri_s2_ctx r = s2_ctx d → 1 <= ipa_bits (s2_ctx d) → request_args r base top v cd →
  base <= a <= top → a mod 4096 = 0 →
  if request_valid r base top v then
    ∃ r' e' res', handle_rsi_ipa_state_set r e res s = Ok ((r', e', res'), s) ∧
      set_ripas r' = request_at r base top base v cd ∧
      exit_reason e' = RMI_EXIT_RIPAS_CHANGE ∧ ripas_base e' = base ∧ ripas_top e' = top ∧
      action res' = UPDATE_REC_EXIT_TO_HOST ∧
      request_ok d (set_ripas r') ∧ request_ok d (request_at r base top a v cd) ∧
      complete_set_ripas (set_set_ripas (with_response resp (request_at r base top a v cd)) r')
      = Ok (set_set_ripas (with_response resp (request_at r 0 0 a v cd))
             (set_regs (<[2%nat := if bool_decide (ripas_of_reg v = Some RIPAS_RAM) && (a <? top) && bool_decide (resp = REJECT)
                                   then RSI_REJECT else RSI_ACCEPT]>
                         (<[1%nat := a]> (<[0%nat := RSI_SUCCESS]> (regs r)))) r))
  else
    handle_rsi_ipa_state_set r e res s
    = Ok ((r, e, set_res (set_x0 RSI_ERROR_INPUT) (set_action UPDATE_REC_RETURN_TO_REALM res)), s).
Proof using.
  intros Hwf Hctx Hbits Hargs Ha Ham. pose proof (wf_bits _ _ _ Hwf) as Hb.
  assert (Hb52 : 1 <= ipa_bits (ri_s2_ctx r) <= 52).
  { rewrite Hctx. unfold s2tte_oa_bits, S2TTE_OA_BITS, S2TTE_OA_BITS_LPA2 in Hb. destruct (enable_lpa2 _); lia. }
  rewrite (state_set_run s r base top v cd e res Hargs Hb52). destruct (request_valid r base top v) eqn:Hv; [|done].
  unfold request_valid in Hv. rewrite !andb_true_iff, !Z.eqb_eq, Z.leb_le, Z.ltb_lt, bool_decide_eq_true in Hv.
  destruct Hv as ((((Hv & Hbm) & Htm) & Hlt) & Hle).
  eexists _, _, _. split; [reflexivity|]. do 5 (split; [done|]).
  assert (Hpow : 2 ^ (ipa_bits (s2_ctx d) - 1) < 2 ^ ipa_bits (s2_ctx d)) by (apply Z.pow_lt_mono_r; lia).
  rewrite Hctx in Hle. assert (Hok : ∀ x, base <= x <= top → x mod 4096 = 0 → request_ok d (request_at r base top x v cd)).
  { intros x Hx Hxm. pose proof (rq_base _ _ _ _ _ Hargs) as [Hb0 _].
    unfold request_ok. cbn [request_at sr_addr sr_top]. split; [lia|]. split; [|lia].
    apply (map_addr_ok_arith s d T x 3 Hwf); [lia| |]; [|by split; [lia|]].
    pose proof (min_starting_level_le (s2_ctx d)). lia. }
  split; [apply Hok; [lia|done]|]. split; [by apply Hok|]. pose proof (rq_len _ _ _ _ _ Hargs) as Hl. destruct Hv as [w Hw].
  unfold complete_set_ripas. cbn [set_ripas set_set_ripas with_response request_at sr_base sr_top sr_addr sr_ripas_val sr_response regs].
  rewrite (proj2 (Z.eqb_neq base top)), Hw by lia. cbn [default].
  rewrite aset_ok, result_bind_ok, aset_ok, result_bind_ok, aset_ok, result_bind_ok by (rewrite ?length_insert; lia).
  assert (Hbool : bool_decide (id w = RIPAS_RAM) && negb (a =? top) && match resp with ACCEPT => false | REJECT => true end
                  = bool_decide (Some w = Some RIPAS_RAM) && (a <? top) && bool_decide (resp = REJECT)).
  { rewrite (bool_decide_ext (id w = RIPAS_RAM) (Some w = Some RIPAS_RAM)) by (unfold id; naive_solver).
    destruct resp; [by rewrite (bool_decide_eq_false_2 (ACCEPT = REJECT)), !andb_false_r by done|].
    rewrite (bool_decide_eq_true_2 (REJECT = REJECT)), !andb_true_r by done. f_equal. zcases. }
  rewrite Hbool. unfold request_at, with_response. cbn [sr_base sr_top sr_addr sr_ripas_val sr_change_destroyed sr_response]. by rewrite Hw.
Qed.
End requests.

(** * Example *)

#[local] Instance request_config : Config := plain_config.

(** A request for RAM of which the host did one of two pages. *)
Definition request_rec : rec := set_regs ([0; 4096; 12288; 1; 0] ++ replicate 26 0) demo_rec.

Lemma ripas_request_spec_witness :
  ∃ r' e' res', handle_rsi_ipa_state_set request_rec rmi_rec_exit_zero demo_rsi_result call_state
                = Ok ((r', e', res'), call_state) ∧
    ∃ r'', complete_set_ripas (set_set_ripas (with_response REJECT (request_at request_rec 4096 12288 8192 1 0)) r') = Ok r'' ∧
      take 3 (regs r'') = [RSI_SUCCESS; 8192; RSI_REJECT].
Proof.
  pose proof (ripas_request_spec (P := demo_platform) call_state request_rec demo_rd demo_tables 4096 12288 1 0
    rmi_rec_exit_zero demo_rsi_result 8192 REJECT (co_wf _ _ _ _ (call_ok false)) eq_refl ltac:(done)
    ltac:(by split; [eexists _, _; reflexivity|..]) ltac:(lia) eq_refl) as Hreq.
  change (request_valid request_rec 4096 12288 1) with true in Hreq. cbv iota in Hreq.
  destruct Hreq as (r' & e' & res' & Hrun & _ & _ & _ & _ & _ & _ & _ & Hcomp).
  exists r', e', res'. split; [exact Hrun|]. eexists. split; [exact Hcomp|]. reflexivity.
Defined.
