(* ===== verification/RecEnterSpec.v ===== *)
(** REC_ENTER (runtime/rmi/run.c) on every branch, and what holds when a REC runs. *)
From S2P Require Import Prelude PsciSpec Types Granule Platform GranuleFind S2tte S2tt Measurement Buffer Walk Exec Realm Rtt RttTree Data DataCreate Feature Rsi Gic Mpidr Psci Esr RealmCmd RsiCall Exit Rec RecAux RecEnter ExitSpec DataAbort HostCall.

Section enter_spec.
Context {P : Platform} {H : Machine} {CF : Config} {L : PlatformLaws P} {HL : MachineLaws P H}.
Context (gic_virt_feature : gic_virt_feature_s).

(** The granule that the host names for the exchange, when it is its own. *)
Definition host_page (s : state) (addr : Z) : option Z :=
  match find_granule addr with
  | Ok (Some g) =>
      match granules s !! g with
      | Some gr => if d_state (descriptor gr) =? GRANULE_STATE_NS then Some g else None
      | None => None
      end
  | _ => None
  end.

(** What reading the host's half of the page gives, and whether writing the other half works. *)
Definition run_read (s : state) (g : Z) (ok : bool) (bytes : list Z) : Prop :=
  ∃ s', mem s' = mem s ∧ memcpy_ns_read 256 s' g 0 = (ok, bytes).
Definition run_written (s : state) (g : Z) (e : rmi_rec_exit) (ok : bool) : Prop :=
  ∃ s', mem s' = mem s ∧ memcpy_ns_write 256 s' g 0x800 (rec_exit_bytes e) = ok.

(** The REC in granule [g] is referenced and mapped; no lock is held. *)
Definition entering (g tag : Z) (s : state) : state :=
  set_slots (<[SLOT_REC := g]> (slots s)) (put_granule g (Gr false GRANULE_STATE_REC 1 tag) s).
(** And it is left with the contents [r]. *)
Definition left_rec (g tag : Z) (r : rec) (s : state) : state :=
  set_slots ∅ (put_granule g (Gr false GRANULE_STATE_REC 0 tag) (put_rec g r s)).

(** Granule [g] holds the REC [r] of the realm [d]. *)
Record rec_of_realm (s : state) (g : Z) (r : rec) (d : rd) : Prop := {
  ro_rec : mem s !! g = Some (PRec r);
  ro_addr : has_addr (ri_g_rd r);
  ro_rd : mem s !! ri_g_rd r = Some (PRd d);
}.

Lemma ns_buffer_write_run s g offset sz src :
  has_addr g → slots s !! SLOT_NS = None → 0 <= sz → ALIGNED sz 8 = true → ALIGNED offset 8 = true →
  offset mod 4096 + sz <= 4096 →
  ns_buffer_write SLOT_NS g offset sz src s
  = Ok (memcpy_ns_write (Z.to_nat (sz / 8)) (set_slots (<[SLOT_NS := g]> (slots s)) s) g (offset mod 4096) src, s).
Proof using L HL.
  intros [Hg [a Ha]] Hn Hsz Has Hao Hfit. unfold ns_buffer_write. run_step (massert_run _ s eq_refl).
  run_step (massert_run _ s Has). run_step (massert_run _ s Hao). cbv zeta.
  change (u32 (.~ GRANULE_MASK)) with (2 ^ 12 - 1). rewrite land_ones_mod by lia.
  change (2 ^ 12) with 4096. pose proof (Z.mod_pos_bound offset 4096 ltac:(lia)).
  rewrite (bind_run _ _ _ _ _ (massert_run _ s (proj2 (Z.leb_le (offset mod 4096 .+ sz) GRANULE_SIZE)
    ltac:(rewrite u64_small by (unfold is_u64; lia); exact Hfit)))).
  unfold ns_buffer_granule_map. rewrite bind_assoc. run_step (lift_run _ _ _ Ha).
  rewrite bind_assoc. run_step (massert_run _ s eq_refl).
  run_step (buffer_map_internal_run s SLOT_NS g a eq_refl Hg Ha Hn).
  run_step (mderef_run _ _ _ eq_refl). rewrite gets_bind.
  change buffer_unmap_internal with buffer_unmap.
  erewrite bind_run by (eapply buffer_unmap_run; apply lookup_insert_eq).
  unfold set_slots at 1; simpl. rewrite delete_insert_id by done. by destruct s.
Qed.

(** The answer when the state of the realm does not let its RECs run. *)
Definition realm_refusal (st : Z) : Z := if st =? REALM_NEW then RMI_ERROR_REALM else RMI_ERROR_REALM + 256.

Lemma realm_state_refuses_run st : st = REALM_NEW ∨ st = REALM_ACTIVE ∨ st = REALM_SYSTEM_OFF →
  realm_state_refuses st = Ok (if st =? REALM_ACTIVE then None else Some (realm_refusal st)).
Proof using. by intros [-> | [-> | ->]]. Qed.

(** What [enter_referenced] does for granule [g], in terms of [enter_rec]. *)
Definition enter_outcome (run : rec → rmi_rec_exit → M state (rec * rmi_rec_exit)) (s : state) (gh g tag : Z) (out : result (Z * state)) : Prop :=
  ∃ ok bytes, run_read s gh ok bytes ∧
    if ok then ∀ r d, rec_of_realm s g r d →
      rd_state d = REALM_NEW ∨ rd_state d = REALM_ACTIVE ∨ rd_state d = REALM_SYSTEM_OFF →
      if rd_state d =? REALM_ACTIVE then
        match enter_rec gic_virt_feature run r (rec_enter_of_bytes bytes) (entering g tag s) with
        | Ok ((ret, r', e), s2) =>
            slots s2 = slots (entering g tag s) → granules s2 !! g = granules (entering g tag s) !! g →
            if ret =? RMI_SUCCESS then
              ∃ written, run_written (left_rec g tag r' s2) gh e written ∧
                out = Ok (if written then RMI_SUCCESS else RMI_ERROR_INPUT, left_rec g tag r' s2)
            else out = Ok (ret, left_rec g tag r' s2)
        | Err f => out = Err f
        end
      else out = Ok (realm_refusal (rd_state d), s)
    else out = Ok (RMI_ERROR_INPUT, s).

Lemma enter_referenced_run s run gh g tag :
  slots s = ∅ → has_addr gh → has_addr g → granules s !! g = Some (Gr false GRANULE_STATE_REC 0 tag) →
  enter_outcome run s gh g tag
    (enter_referenced gic_virt_feature run gh g (put_granule g (Gr false GRANULE_STATE_REC 1 tag) s)).
Proof using L HL.
  intros Hs Hgh Hga Hg. unfold enter_referenced, enter_outcome.
  assert (Hrc1 : gok GRANULE_STATE_REC 1) by (by vm_compute).
  erewrite bind_run by (apply ns_buffer_read_run; [done|change (slots s !! SLOT_NS = None); by rewrite Hs|lia|done|done|done]).
  change (Z.to_nat (2048 / 8)) with 256%nat. change (0 mod 4096) with 0.
  destruct (memcpy_ns_read 256 _ gh 0) as [ok bytes] eqn:Hread. exists ok, bytes. split; [by eexists; split; [|exact Hread]|].
  assert (Hput : ∀ (ret : Z) x, granules x !! g = Some (Gr false GRANULE_STATE_REC 1 tag) →
    (atomic_granule_put_release g ≫= λ _, mret ret) x = Ok (ret, put_granule g (Gr false GRANULE_STATE_REC 0 tag) x)).
  { intros ret x Hx. erewrite bind_run by (eapply atomic_granule_put_release_run; [exact Hx|done|lia]). done. }
  assert (Hback : put_granule g (Gr false GRANULE_STATE_REC 0 tag) (put_granule g (Gr false GRANULE_STATE_REC 1 tag) s) = s)
    by (by rewrite put_granule_put, put_granule_id).
  destruct ok; cbn [negb]; cycle 1.
  { rewrite Hput by apply put_granule_lookup. by rewrite Hback. }
  intros r d [Hr Hrd Hd] Hst. st_norm. rewrite Hs. exec map_assert_run. erewrite bind_run; [|eapply read_rec_run; [exec_side..|reflexivity]]. cbv beta.
  exec map_assert_run. erewrite bind_run; [|eapply read_rd_run; [exec_side..|reflexivity]]. cbv beta. exec buffer_unmap_run.
  rewrite (bind_run _ _ _ _ _ (lift_run _ _ _ (realm_state_refuses_run _ Hst))). cbv beta.
  rewrite (delete_insert_id _ SLOT_RD) by done. set (s1 := {| granules := _ |}).
  assert (Hs1 : entering g tag s = s1) by (unfold entering, s1; st_norm; by rewrite Hs). rewrite Hs1.
  assert (Hend : ∀ ret e x, slots x = <[SLOT_REC := g]> ∅ → granules x !! g = Some (Gr false GRANULE_STATE_REC 1 tag) →
    ∃ written, run_written x gh e written ∧
    (buffer_unmap SLOT_REC ≫= λ _, (if ret =? RMI_SUCCESS then
         ns_buffer_write SLOT_NS gh 0x800 0x800 (rec_exit_bytes e) ≫= λ ok : bool, mret (if ok then ret else RMI_ERROR_INPUT)
       else mret ret) ≫= λ ret, atomic_granule_put_release g ≫= λ _, mret ret) x
    = Ok (if ret =? RMI_SUCCESS then if written then ret else RMI_ERROR_INPUT else ret,
          set_slots ∅ (put_granule g (Gr false GRANULE_STATE_REC 0 tag) x))).
  { intros ret e x Hsx Hgx. eexists. split; [by exists (set_slots (<[SLOT_NS := gh]> ∅) x)|].
    erewrite bind_run by (eapply buffer_unmap_run; rewrite Hsx; apply lookup_insert_eq). cbv beta. rewrite Hsx, delete_insert_id by done.
    destruct (ret =? RMI_SUCCESS).
    - rewrite bind_assoc. erewrite bind_run by (apply ns_buffer_write_run; done). cbv beta. rewrite ret_bind, Hput by done. done.
    - rewrite ret_bind, Hput by done. done. }
  destruct (rd_state d =? REALM_ACTIVE); cycle 1.
  { rewrite ret_bind. destruct (Hend (realm_refusal (rd_state d)) rmi_rec_exit_zero s1) as (w & _ & Hrun); [done|apply lookup_insert_eq|].
    rewrite Hrun. assert ((realm_refusal (rd_state d) =? RMI_SUCCESS) = false) as -> by (by destruct Hst as [-> | [-> | ->]]).
    do 2 f_equal. unfold s1. st_norm. rewrite insert_insert_eq, insert_id, <- Hs by done. by destruct s. }
  destruct (enter_rec _ run r _ s1) as [[[[ret r'] e] s2]|f] eqn:Hin; [|rewrite bind_assoc; by apply bind_run_err].
  intros Hs2 Hg2. rewrite bind_assoc. run_step Hin. rewrite bind_assoc.
  assert (Hslots : slots s2 = <[SLOT_REC := g]> ∅) by exact Hs2.
  erewrite bind_run by (eapply write_page_run; rewrite Hslots; apply lookup_insert_eq). cbv beta. rewrite ret_bind.
  destruct (Hend ret e (put_rec g r' s2)) as (w & (x & Hx & Hw) & Hrun); [done|by rewrite <- (lookup_insert_eq (granules s) g)|].
  unfold put_rec in Hrun. rewrite Hrun. destruct (Z.eqb_spec ret RMI_SUCCESS) as [->|]; [|done]. exists w. split; [by exists x|done].
Qed.

(** ** Answers count once *)

(** What no completion changes. *)
Record rec_frame (r r' : rec) : Prop := {
  fr_runnable : runnable r' = runnable r;
  fr_pending : psci_pending r' = psci_pending r;
  fr_realm : realm_info r' = realm_info r;
  fr_common : common_sysregs r' = common_sysregs r;
}.

Lemma rec_frame_refl r : rec_frame r r.
Proof using. done. Qed.
Lemma rec_frame_trans r1 r2 r3 : rec_frame r1 r2 → rec_frame r2 r3 → rec_frame r1 r3.
Proof using. clear. intros [H1 H2 H3 H4] [G1 G2 G3 G4]. split; congruence. Qed.

Lemma sea_frame r en ok r' : complete_sea_insertion r en = Ok (ok, r') → rec_frame r r'.
Proof using.
  clear. unfold complete_sea_insertion. destruct (_ =? 0); [by intros [= _ <-]|]. destruct (negb _); [by intros [= _ <-]|].
  destruct (addr_in_rec_par _ _); [by intros [= _ <-]|]. intros (x & Hx & [= _ <-])%result_bind_inv.
  unfold inject_sync_idabort_rec in Hx. apply result_bind_inv in Hx as (esr & _ & Hx). apply result_bind_inv in Hx as (v & _ & [= <-]). done.
Qed.

Lemma mmio_frame r en ok r' : complete_mmio_emulation r en = Ok (ok, r') → rec_frame r r'.
Proof using.
  clear. unfold complete_mmio_emulation. destruct (_ =? 0); [by intros [= _ <-]|]. destruct (negb _); [by intros [= _ <-]|].
  destruct (_ || _); [by intros [= _ <-]|]. intros (x & Hx & [= _ <-])%result_bind_inv. destruct (_ && _); [|by injection Hx as <-].
  apply result_bind_inv in Hx as (g & _ & Hx). apply result_bind_inv in Hx as (v & _ & Hx). by apply result_bind_inv in Hx as (l & _ & [= <-]).
Qed.

Lemma set_ripas_frame r r' : complete_set_ripas r = Ok r' → rec_frame r r' ∧ sr_base (set_ripas r') = sr_top (set_ripas r').
Proof using.
  clear. unfold complete_set_ripas. destruct (Z.eqb_spec (sr_base (set_ripas r)) (sr_top (set_ripas r))) as [Heq|]; [by intros [= <-]|].
  intros Hx. apply result_bind_inv in Hx as (l1 & _ & Hx). apply result_bind_inv in Hx as (l2 & _ & Hx). by apply result_bind_inv in Hx as (l3 & _ & [= <-]).
Qed.

Lemma sysreg_frame r en r' : complete_sysreg_emulation r en = Ok r' → rec_frame r r' ∧ set_ripas r' = set_ripas r.
Proof using.
  clear. unfold complete_sysreg_emulation. destruct (negb _); [by intros [= <-]|]. destruct (ESR_EL2_SYSREG_IS_WRITE _); [by intros [= <-]|].
  destruct (negb _); [|by intros [= <-]]. intros Hx. apply result_bind_inv in Hx as (v & _ & Hx). by apply result_bind_inv in Hx as (l & _ & [= <-]).
Qed.

Lemma lift_inv {A} (m : result A) a (s s' : state) : lift m s = Ok (a, s') → m = Ok a ∧ s' = s.
Proof using. clear. unfold lift. destruct m; [|done]. by intros [= -> ->]. Qed.

Ltac step_inv H := apply bind_inv in H as (? & ? & _ & H).

Lemma do_host_call_frame r ex en res s o s' :
  do_host_call r ex en res s = Ok (o, s') → rec_frame r (fst (fst o)) ∧ set_ripas (fst (fst o)) = set_ripas r.
Proof using.
  clear. unfold do_host_call. intros Hx. do 3 step_inv Hx. apply bind_inv in Hx as ([st w] & s1 & _ & Hx).
  destruct st; [|step_inv Hx; by injection Hx as <- _|by injection Hx as <- _].
  step_inv Hx. apply bind_inv in Hx as (o' & s2 & Ho & Hx). do 3 step_inv Hx. injection Hx as <- _.
  destruct ex as [e|].
  - step_inv Ho. step_inv Ho. by injection Ho as <- _.
  - step_inv Ho. step_inv Ho. step_inv Ho. by injection Ho as <- _.
Qed.

Lemma complete_host_call_frame r en ex ok r' ex' s s' :
  complete_host_call r en ex s = Ok ((ok, r', ex'), s') →
  rec_frame r r' ∧ set_ripas r' = set_ripas r ∧ (ok = true → host_call r' = false).
Proof using.
  clear. unfold complete_host_call. destruct (host_call r) eqn:Hh; cbn [negb]; [|by intros [= <- <- <- <-]].
  unfold complete_rsi_host_call. rewrite bind_assoc. intros Hx. apply bind_inv in Hx as ([[r1 e1] res1] & s1 & Hd & Hx).
  apply do_host_call_frame in Hd as [Hf Hr]. cbn [fst] in Hf, Hr. rewrite ret_bind in Hx.
  destruct (abort _).
  - apply bind_inv in Hx as (e2 & s2 & _ & Hx). injection Hx as <- <- <- <-. done.
  - injection Hx as <- <- <- <-. split; [by destruct Hf|]. done.
Qed.

End enter_spec.

(** * Examples *)

#[local] Instance enter_config : Config := plain_config.

Definition enter_rd : rd := set_rd_state REALM_ACTIVE demo_rd.
(** Granule 1 holds a runnable REC of the realm in granule 0; granule 2 is the host's. *)
Definition enter_state : state :=
  set_granules (<[0 := Gr false GRANULE_STATE_RD 1 0]> (<[1 := Gr false GRANULE_STATE_REC 0 0]> (<[2 := Gr false GRANULE_STATE_NS 0 0]>
    (gset_to_gmap (Gr false GRANULE_STATE_NS 0 0) {[3; 4; 5; 6]}))))
  (set_mem (<[0 := PRd enter_rd]> {[ 1 := PRec demo_rec ]}) state_init).
(** The realm is interrupted at once. *)
Definition interrupted (r : rec) (e : rmi_rec_exit) : M state (rec * rmi_rec_exit) := mret (r, handle_exception_irq_lel e).

Lemma enter_quiescent : quiescent (P := demo_platform) enter_state.
Proof.
  intros g Hg. change RMM_MAX_GRANULES with 7 in Hg.
  assert (g = 0 ∨ g = 1 ∨ g = 2 ∨ g = 3 ∨ g = 4 ∨ g = 5 ∨ g = 6)
    as [-> | [-> | [-> | [-> | [-> | [-> | ->]]]]]] by lia;
    (eexists; split; [reflexivity|]; eexists _, _, _; split; [reflexivity|]); done.
Qed.

(** What the run of the example gives, on arguments of the host that are all zero. *)
Definition entered : result (Z * rec * rmi_rec_exit * state) :=
  enter_rec (P := demo_platform) (H := zero_machine) demo_gic interrupted demo_rec (rec_enter_of_bytes (replicate 2048 0)) (entering 1 0 enter_state).

Lemma entered_ok : match entered with
  | Ok ((ret, r', e), s2) => ret = RMI_SUCCESS ∧ exit_reason e = RMI_EXIT_IRQ ∧ slots s2 = <[SLOT_REC := 1]> ∅ ∧
      granules s2 !! 1 = Some (Gr false GRANULE_STATE_REC 1 0)
  | Err _ => False
  end.
Proof. vm_compute. done. Qed.


Definition prepared : result (entry * rec * state) :=
  prepare_rec (P := demo_platform) (H := zero_machine) demo_gic demo_rec (rec_enter_of_bytes (replicate 2048 0)) rmi_rec_exit_zero enter_state.

Lemma prepared_ok : match prepared with Ok ((Runs, _), _) => True | _ => False end.
Proof. vm_compute. done. Qed.

