(* ===== verification/AllocList.v ===== *)
(** Neighbours in a list of addresses without repetition: what a doubly linked list stores. *)
From S2P Require Import Prelude.

(** The first and the last element, 0 for an empty list. *)
Definition hd0 (l : list Z) : Z := match l with [] => 0 | x :: _ => x end.
Definition last0 (l : list Z) : Z := hd0 (reverse l).

(** The element behind [a], 0 if there is none; and the one before it. *)
Fixpoint next_of (l : list Z) (a : Z) : Z :=
  match l with [] => 0 | x :: l' => if x =? a then hd0 l' else next_of l' a end.
Definition prev_of (l : list Z) (a : Z) : Z := next_of (reverse l) a.

Lemma last0_app l x : last0 (l ++ [x]) = x.
Proof. unfold last0. by rewrite reverse_app. Qed.

Lemma last0_cons x l : last0 (x :: l) = if decide (l = []) then x else last0 l.
Proof.
  destruct (decide (l = [])) as [->|Hl]; [done|]. destruct l as [|y l _] using rev_ind; [done|].
  by rewrite app_comm_cons, !last0_app.
Qed.

Lemma hd0_app l1 l2 : hd0 (l1 ++ l2) = if decide (l1 = []) then hd0 l2 else hd0 l1.
Proof. by destruct l1. Qed.

Lemma hd0_in l : l ≠ [] → hd0 l ∈ l.
Proof. destruct l; [done|]. intros _. apply list_elem_of_here. Qed.

Lemma last0_in l : l ≠ [] → last0 l ∈ l.
Proof. intros Hl. unfold last0. apply elem_of_reverse, hd0_in. intros Hr. apply Hl. by rewrite <- (reverse_involutive l), Hr. Qed.

Lemma next_of_notin l a : a ∉ l → next_of l a = 0.
Proof.
  induction l as [|x l IH]; [done|]. rewrite not_elem_of_cons. intros [Hne Hl]. cbn [next_of].
  rewrite (proj2 (Z.eqb_neq x a)) by done. by apply IH.
Qed.

Lemma prev_of_notin l a : a ∉ l → prev_of l a = 0.
Proof. intros Ha. apply next_of_notin. by rewrite elem_of_reverse. Qed.

Lemma next_of_mid l1 a l2 : a ∉ l1 → next_of (l1 ++ a :: l2) a = hd0 l2.
Proof.
  induction l1 as [|x l1 IH]; cbn [app next_of]; [by rewrite Z.eqb_refl|]. rewrite not_elem_of_cons. intros [Hne Hl].
  rewrite (proj2 (Z.eqb_neq x a)) by done. by apply IH.
Qed.

Lemma prev_of_mid l1 a l2 : a ∉ l2 → prev_of (l1 ++ a :: l2) a = last0 l1.
Proof.
  intros Ha. unfold prev_of. rewrite reverse_app, reverse_cons, <- app_assoc. cbn [app].
  apply next_of_mid. by rewrite elem_of_reverse.
Qed.

Lemma next_of_insert l1 y l2 a : a ≠ y → a ≠ 0 → NoDup (l1 ++ l2) →
  next_of (l1 ++ y :: l2) a = if a =? last0 l1 then y else next_of (l1 ++ l2) a.
Proof.
  intros Hy H0. induction l1 as [|x l1 IH]; intros Hnd.
  { cbn. rewrite (proj2 (Z.eqb_neq y a)), (proj2 (Z.eqb_neq a 0)) by done. done. }
  cbn [app] in Hnd. apply NoDup_cons in Hnd as [Hx Hnd]. cbn [app next_of]. rewrite last0_cons, !hd0_app.
  destruct (Z.eqb_spec x a) as [->|Hne].
  - destruct (decide (l1 = [])) as [->|Hl]; [by rewrite Z.eqb_refl|].
    rewrite (proj2 (Z.eqb_neq a (last0 l1))); [done|]. intros ->. apply Hx, elem_of_app. left. by apply last0_in.
  - rewrite IH by done. destruct (decide (l1 = [])) as [->|Hl]; [|done]. change (last0 []) with 0. by rewrite (proj2 (Z.eqb_neq a 0)), (proj2 (Z.eqb_neq a x)).
Qed.

Lemma NoDup_reverse' (l : list Z) : NoDup (reverse l) ↔ NoDup l.
Proof. by rewrite (reverse_Permutation l). Qed.

Lemma last0_reverse l : last0 (reverse l) = hd0 l.
Proof. unfold last0. by rewrite reverse_involutive. Qed.

Lemma prev_of_insert l1 y l2 a : a ≠ y → a ≠ 0 → NoDup (l1 ++ l2) →
  prev_of (l1 ++ y :: l2) a = if a =? hd0 l2 then y else prev_of (l1 ++ l2) a.
Proof.
  intros Hy H0 Hnd. unfold prev_of. rewrite reverse_app, reverse_cons, <- app_assoc. cbn [app].
  rewrite next_of_insert; [|done|done|by rewrite <- reverse_app, NoDup_reverse']. by rewrite last0_reverse, reverse_app.
Qed.

(** The neighbour of a gap. *)
Lemma next_of_gap l1 l2 : l1 ≠ [] → NoDup (l1 ++ l2) → next_of (l1 ++ l2) (last0 l1) = hd0 l2.
Proof.
  destruct l1 as [|x l1 _] using rev_ind; [done|]. intros _ Hnd. rewrite last0_app, <- app_assoc. cbn [app]. apply next_of_mid.
  rewrite <- app_assoc in Hnd. apply NoDup_app in Hnd as (_ & Hnd & _). intros Hin. apply (Hnd x Hin). apply list_elem_of_here.
Qed.

Lemma prev_of_gap l1 l2 : l2 ≠ [] → NoDup (l1 ++ l2) → prev_of (l1 ++ l2) (hd0 l2) = last0 l1.
Proof.
  intros Hl Hnd. unfold prev_of. rewrite <- last0_reverse, reverse_app. apply next_of_gap.
  - intros Hr. apply Hl. by rewrite <- (reverse_involutive l2), Hr.
  - by rewrite <- reverse_app, NoDup_reverse'.
Qed.

(** Two different neighbours, unless there are none. *)
Lemma neighbours_differ l a : NoDup l → a ∈ l → Forall (λ x, x ≠ 0) l → prev_of l a ≠ 0 → prev_of l a ≠ next_of l a.
Proof.
  intros Hnd (l1 & l2 & ->)%list_elem_of_split Hf. rewrite NoDup_app, NoDup_cons in Hnd. destruct Hnd as (_ & Hd & Ha & _).
  rewrite next_of_mid by (intros Hin; apply (Hd a Hin); apply list_elem_of_here). rewrite prev_of_mid by done. intros H0 Heq.
  assert (H1 : l1 ≠ []) by (by intros ->). assert (H2 : l2 ≠ []) by (intros ->; by rewrite Heq in H0).
  apply (Hd (last0 l1)); [by apply last0_in|]. rewrite Heq. apply list_elem_of_further. by apply hd0_in.
Qed.

(** Taking [y] out of the list, as seen at another element. *)
Lemma remove_links l1 y l2 a : NoDup (l1 ++ y :: l2) → a ≠ y → a ≠ 0 →
  next_of (l1 ++ l2) a = (if a =? last0 l1 then hd0 l2 else next_of (l1 ++ y :: l2) a) ∧
  prev_of (l1 ++ l2) a = (if a =? hd0 l2 then last0 l1 else prev_of (l1 ++ y :: l2) a).
Proof.
  intros Hnd Hy H0. assert (Hnd' : NoDup (l1 ++ l2)) by (rewrite <- Permutation_middle in Hnd; by apply NoDup_cons in Hnd as [_ ?]).
  rewrite next_of_insert, prev_of_insert by done. split.
  - destruct (Z.eqb_spec a (last0 l1)) as [E|]; [|done]. rewrite E. apply next_of_gap; [|done]. intros E2. apply H0. by rewrite E, E2.
  - destruct (Z.eqb_spec a (hd0 l2)) as [E|]; [|done]. rewrite E. apply prev_of_gap; [|done]. intros E2. apply H0. by rewrite E, E2.
Qed.
