(* ===== verification/Alloc.v ===== *)
(** The heap of the crypto library (lib/allocator/src/memory_alloc.c): blocks with headers in two
    doubly linked lists, one of all blocks by address and one of the free blocks. *)
From S2P Require Import Prelude Types Granule Platform GranuleFind.

Definition MAGIC1 : Z := 0xFF00AA55.
Definition MAGIC2 : Z := 0xEE119966.
Definition MBEDTLS_MEMORY_ALIGN_MULTIPLE : Z := 8.

(** Pointers are addresses, 0 is [NULL]. *)
Record memory_header_s := {
  magic1 : Z; size : Z; alloc : Z; prev : Z; next : Z; prev_free : Z; next_free : Z; magic2 : Z;
}.
Definition sizeof_memory_header_s : Z := 64.

Record buffer_alloc_ctx := { buf : Z; len : Z; first : Z; first_free : Z; verify : Z }.
Definition buffer_alloc_ctx_zero : buffer_alloc_ctx := {| buf := 0; len := 0; first := 0; first_free := 0; verify := 0 |}.

Definition set_size (v : Z) (h : memory_header_s) : memory_header_s :=
  {| magic1 := magic1 h; size := v; alloc := alloc h; prev := prev h; next := next h; prev_free := prev_free h;
     next_free := next_free h; magic2 := magic2 h |}.
Definition set_alloc (v : Z) (h : memory_header_s) : memory_header_s :=
  {| magic1 := magic1 h; size := size h; alloc := v; prev := prev h; next := next h; prev_free := prev_free h;
     next_free := next_free h; magic2 := magic2 h |}.
Definition set_prev (v : Z) (h : memory_header_s) : memory_header_s :=
  {| magic1 := magic1 h; size := size h; alloc := alloc h; prev := v; next := next h; prev_free := prev_free h;
     next_free := next_free h; magic2 := magic2 h |}.
Definition set_next (v : Z) (h : memory_header_s) : memory_header_s :=
  {| magic1 := magic1 h; size := size h; alloc := alloc h; prev := prev h; next := v; prev_free := prev_free h;
     next_free := next_free h; magic2 := magic2 h |}.
Definition set_prev_free (v : Z) (h : memory_header_s) : memory_header_s :=
  {| magic1 := magic1 h; size := size h; alloc := alloc h; prev := prev h; next := next h; prev_free := v;
     next_free := next_free h; magic2 := magic2 h |}.
Definition set_next_free (v : Z) (h : memory_header_s) : memory_header_s :=
  {| magic1 := magic1 h; size := size h; alloc := alloc h; prev := prev h; next := next h; prev_free := prev_free h;
     next_free := v; magic2 := magic2 h |}.
Definition set_first_free (v : Z) (c : buffer_alloc_ctx) : buffer_alloc_ctx :=
  {| buf := buf c; len := len c; first := first c; first_free := v; verify := verify c |}.
Definition set_verify (v : Z) (c : buffer_alloc_ctx) : buffer_alloc_ctx :=
  {| buf := buf c; len := len c; first := first c; first_free := first_free c; verify := v |}.

(** The contexts by address, the headers by address, and all bytes that belong to no header. *)
Record astate := {
  ctx_per_cpu : list Z;
  ctxs : gmap Z buffer_alloc_ctx;
  hdrs : gmap Z memory_header_s;
  data : Z → Z;
}.
Definition set_ctx_per_cpu (l : list Z) (s : astate) : astate :=
  {| ctx_per_cpu := l; ctxs := ctxs s; hdrs := hdrs s; data := data s |}.
Definition set_ctxs (m : gmap Z buffer_alloc_ctx) (s : astate) : astate :=
  {| ctx_per_cpu := ctx_per_cpu s; ctxs := m; hdrs := hdrs s; data := data s |}.
Definition set_hdrs (m : gmap Z memory_header_s) (s : astate) : astate :=
  {| ctx_per_cpu := ctx_per_cpu s; ctxs := ctxs s; hdrs := m; data := data s |}.
Definition set_data (f : Z → Z) (s : astate) : astate :=
  {| ctx_per_cpu := ctx_per_cpu s; ctxs := ctxs s; hdrs := hdrs s; data := f |}.

(** The flags of mbed TLS for [verify]. *)
Class Mbedtls := { MBEDTLS_MEMORY_VERIFY_ALLOC : Z; MBEDTLS_MEMORY_VERIFY_FREE : Z }.

Section alloc.
Context {MB : Mbedtls}.

Definition cread (p : Z) : M astate buffer_alloc_ctx := gets (λ s, ctxs s !! p) ≫= λ o, mderef o.
Definition cwrite (p : Z) (c : buffer_alloc_ctx) : M astate () := mmodify (λ s, set_ctxs (<[p := c]> (ctxs s)) s).
Definition cmod (p : Z) (f : buffer_alloc_ctx → buffer_alloc_ctx) : M astate () := cread p ≫= λ c, cwrite p (f c).

(** Reading where there is no header is a fault of the model: the bytes of the code are not a
    header then. *)
Definition hread (p : Z) : M astate memory_header_s := gets (λ s, hdrs s !! p) ≫= λ o, mderef o.
Definition hwrite (p : Z) (h : memory_header_s) : M astate () := mmodify (λ s, set_hdrs (<[p := h]> (hdrs s)) s).
Definition hmod (p : Z) (f : memory_header_s → memory_header_s) : M astate () := hread p ≫= λ h, hwrite p (f h).

(** [memset(p, 0, n)] on data, and on a header, whose bytes are data from then on. *)
Definition zero_bytes (p n : Z) (f : Z → Z) : Z → Z := λ a, if (p <=? a) && (a <? p + n) then 0 else f a.
Definition memset_data (p n : Z) : M astate () := mmodify (λ s, set_data (zero_bytes p n (data s)) s).
Definition memset_header (p : Z) : M astate () :=
  mmodify (λ s, set_data (zero_bytes p sizeof_memory_header_s (data s)) (set_hdrs (delete p (hdrs s)) s)).

(** * Contexts of processors *)

Definition get_heap_ctx (cpuid : Z) : M astate Z :=
  gets ctx_per_cpu ≫= λ l,
  massert (cpuid <? Z.of_nat (length l)) ≫= λ _,
  lift (aget l cpuid) ≫= λ ctx,
  if ctx =? 0 then lift (Err FPanic) else mret ctx.

Definition buffer_alloc_ctx_assign (cpuid ctx : Z) : M astate Z :=
  gets ctx_per_cpu ≫= λ l,
  massert (cpuid <? Z.of_nat (length l)) ≫= λ _,
  if ctx =? 0 then mret (- EINVAL)
  else
    lift (aget l cpuid) ≫= λ old,
    if negb (old =? 0) then mret (- EINVAL)
    else lift (aset l cpuid ctx) ≫= λ l, mmodify (set_ctx_per_cpu l) ≫= λ _, mret 0.

Definition buffer_alloc_ctx_unassign (cpuid : Z) : M astate () :=
  gets ctx_per_cpu ≫= λ l,
  massert (cpuid <? Z.of_nat (length l)) ≫= λ _,
  lift (aget l cpuid) ≫= λ old,
  massert (negb (old =? 0)) ≫= λ _,
  lift (aset l cpuid 0) ≫= λ l, mmodify (set_ctx_per_cpu l).

(** * Verification *)

Definition verify_header (hdr : memory_header_s) : Z :=
  if negb (magic1 hdr =? MAGIC1) then 1
  else if negb (magic2 hdr =? MAGIC2) then 1
  else if 1 <? alloc hdr then 1
  else if negb (prev hdr =? 0) && (prev hdr =? next hdr) then 1
  else if negb (prev_free hdr =? 0) && (prev_free hdr =? next_free hdr) then 1
  else 0.

(** The loop of [verify_chain]. A chain longer than there are headers is a cycle. *)
Fixpoint verify_loop (fuel : nat) (prv cur : Z) : M astate Z :=
  if cur =? 0 then mret 0
  else match fuel with
    | O => lift (Err FHang)
    | S fuel =>
        hread cur ≫= λ c,
        if negb (verify_header c =? 0) then mret 1
        else if negb (prev c =? prv) then mret 1
        else verify_loop fuel cur (next c)
    end.

Definition verify_chain (heap : Z) : M astate Z :=
  cread heap ≫= λ c,
  let prv := first c in
  if prv =? 0 then mret 1
  else
    hread prv ≫= λ h,
    if negb (verify_header h =? 0) then mret 1
    else if negb (prev h =? 0) then mret 1
    else gets hdrs ≫= λ m, verify_loop (length (map_to_list m)) prv (next h).

(** * Allocation *)

(** [while (cur != NULL) { if (cur->size >= len) break; cur = cur->next_free; }] *)
Fixpoint find_fit (fuel : nat) (cur len : Z) : M astate Z :=
  if cur =? 0 then mret 0
  else match fuel with
    | O => lift (Err FHang)
    | S fuel => hread cur ≫= λ c, if len <=? size c then mret cur else find_fit fuel (next_free c) len
    end.

(** Takes [cur] out of the list of free blocks. *)
Definition unlink_free (heap cur : Z) : M astate () :=
  hread cur ≫= λ c,
  (if negb (prev_free c =? 0) then hmod (prev_free c) (set_next_free (next_free c))
   else cmod heap (set_first_free (next_free c))) ≫= λ _,
  hread cur ≫= λ c,
  (if negb (next_free c =? 0) then hmod (next_free c) (set_prev_free (prev_free c)) else mret ()).

(** Makes the neighbours of [x] in the list of free blocks point to it. *)
Definition relink_free (heap x : Z) : M astate () :=
  hread x ≫= λ h,
  (if negb (prev_free h =? 0) then hmod (prev_free h) (set_next_free x) else cmod heap (set_first_free x)) ≫= λ _,
  hread x ≫= λ h,
  (if negb (next_free h =? 0) then hmod (next_free h) (set_prev_free x) else mret ()).

(** The check behind an allocation, and the answer. *)
Definition calloc_end (heap cur original_len : Z) : M astate Z :=
  cread heap ≫= λ c,
  (if negb ((verify c .& MBEDTLS_MEMORY_VERIFY_ALLOC) =? 0)
   then verify_chain heap ≫= λ v, massert (v =? 0) else mret ()) ≫= λ _,
  let ret := cur .+ sizeof_memory_header_s in
  memset_data ret original_len ≫= λ _,
  mret ret.

(** The block fits without a rest that could hold another block. *)
Definition calloc_whole (heap cur original_len : Z) : M astate Z :=
  hmod cur (set_alloc 1) ≫= λ _,
  unlink_free heap cur ≫= λ _,
  hmod cur (set_prev_free 0) ≫= λ _,
  hmod cur (set_next_free 0) ≫= λ _,
  calloc_end heap cur original_len.

(** The block is split, and the rest takes its place in the list of free blocks. *)
Definition calloc_split (heap cur len original_len : Z) : M astate Z :=
  hread cur ≫= λ c,
  let new := (cur .+ sizeof_memory_header_s) .+ len in
  hwrite new {| magic1 := MAGIC1; size := (size c .- len) .- sizeof_memory_header_s; alloc := 0; prev := cur; next := next c;
                prev_free := prev_free c; next_free := next_free c; magic2 := MAGIC2 |} ≫= λ _,
  (if negb (next c =? 0) then hmod (next c) (set_prev new) else mret ()) ≫= λ _,
  relink_free heap new ≫= λ _,
  hmod cur (set_alloc 1) ≫= λ _,
  hmod cur (set_size len) ≫= λ _,
  hmod cur (set_next new) ≫= λ _,
  hmod cur (set_prev_free 0) ≫= λ _,
  hmod cur (set_next_free 0) ≫= λ _,
  calloc_end heap cur original_len.

(** [len] up to a multiple of the alignment. *)
Definition calloc_len (len : Z) : Z :=
  if negb (len mod MBEDTLS_MEMORY_ALIGN_MULTIPLE =? 0)
  then (len .- (len mod MBEDTLS_MEMORY_ALIGN_MULTIPLE)) .+ MBEDTLS_MEMORY_ALIGN_MULTIPLE else len.

Definition buffer_alloc_calloc_with_heap (heap n sz : Z) : M astate Z :=
  cread heap ≫= λ h,
  let cur := first_free h in
  if (buf h =? 0) || (first h =? 0) then mret 0
  else
    let original_len := n .* sz in
    let len := original_len in
    if (n =? 0) || (sz =? 0) || negb (len / n =? sz) then mret 0
    else if u64 (- MBEDTLS_MEMORY_ALIGN_MULTIPLE) <? len then mret 0
    else
      let len := calloc_len len in
      gets hdrs ≫= λ m,
      find_fit (length (map_to_list m)) cur len ≫= λ cur,
      if cur =? 0 then mret 0
      else
        hread cur ≫= λ c,
        (if negb (alloc c =? 0) then massert false else mret ()) ≫= λ _,
        if (size c .- len) <? (sizeof_memory_header_s .+ MBEDTLS_MEMORY_ALIGN_MULTIPLE)
        then calloc_whole heap cur original_len
        else calloc_split heap cur len original_len.

Definition buffer_alloc_calloc (cpuid n sz : Z) : M astate Z :=
  get_heap_ctx cpuid ≫= λ heap, buffer_alloc_calloc_with_heap heap n sz.

(** * Release *)

(** Regroup with the block before: the block that remains, and whether there was one. *)
Definition merge_before (hdr : Z) : M astate (Z * bool) :=
  hread hdr ≫= λ h,
  if prev h =? 0 then mret (hdr, false)
  else
    hread (prev h) ≫= λ b,
    if negb (alloc b =? 0) then mret (hdr, false)
    else
      hmod (prev h) (set_size (size b .+ (sizeof_memory_header_s .+ size h))) ≫= λ _,
      hmod (prev h) (set_next (next h)) ≫= λ _,
      let old := hdr in
      let hdr := prev h in
      hread hdr ≫= λ h,
      (if negb (next h =? 0) then hmod (next h) (set_prev hdr) else mret ()) ≫= λ _,
      memset_header old ≫= λ _,
      mret (hdr, true).

(** Regroup with the block after. *)
Definition merge_after (heap hdr : Z) : M astate bool :=
  hread hdr ≫= λ h,
  if next h =? 0 then mret false
  else
    hread (next h) ≫= λ a,
    if negb (alloc a =? 0) then mret false
    else
      hmod hdr (set_size (size h .+ (sizeof_memory_header_s .+ size a))) ≫= λ _,
      let old := next h in
      hmod hdr (set_next (next a)) ≫= λ _,
      hread hdr ≫= λ h,
      (if negb (prev_free h =? 0) || negb (next_free h =? 0) then unlink_free heap hdr else mret ()) ≫= λ _,
      hread old ≫= λ o,
      hmod hdr (set_prev_free (prev_free o)) ≫= λ _,
      hmod hdr (set_next_free (next_free o)) ≫= λ _,
      relink_free heap hdr ≫= λ _,
      hread hdr ≫= λ h,
      (if negb (next h =? 0) then hmod (next h) (set_prev hdr) else mret ()) ≫= λ _,
      memset_header old ≫= λ _,
      mret true.

(** Prepend to the list of free blocks. *)
Definition prepend_free (heap hdr : Z) : M astate () :=
  cread heap ≫= λ c,
  hmod hdr (set_next_free (first_free c)) ≫= λ _,
  (if negb (first_free c =? 0) then hmod (first_free c) (set_prev_free hdr) else mret ()) ≫= λ _,
  cmod heap (set_first_free hdr).

Definition buffer_alloc_free_with_heap (heap ptr : Z) : M astate () :=
  if ptr =? 0 then mret ()
  else
    cread heap ≫= λ c,
    if (buf c =? 0) || (first c =? 0) then mret ()
    else
      (if (ptr <? buf c) || (buf c .+ len c <=? ptr) then massert false else mret ()) ≫= λ _,
      let hdr := ptr .- sizeof_memory_header_s in
      hread hdr ≫= λ h,
      massert (verify_header h =? 0) ≫= λ _,
      (if negb (alloc h =? 1) then massert false else mret ()) ≫= λ _,
      hmod hdr (set_alloc 0) ≫= λ _,
      merge_before hdr ≫= λ o : Z * bool,
      let '(hdr, before) := o in
      merge_after heap hdr ≫= λ after,
      (if negb (before || after) then prepend_free heap hdr else mret ()) ≫= λ _,
      cread heap ≫= λ c,
      (if negb ((verify c .& MBEDTLS_MEMORY_VERIFY_FREE) =? 0)
       then verify_chain heap ≫= λ v, massert (negb (v =? 0)) else mret ()).

Definition buffer_alloc_free (cpuid ptr : Z) : M astate () :=
  get_heap_ctx cpuid ≫= λ heap, buffer_alloc_free_with_heap heap ptr.

(** * Set-up *)

Definition mbedtls_memory_buffer_set_verify (cpuid v : Z) : M astate () :=
  get_heap_ctx cpuid ≫= λ heap, cmod heap (set_verify (u32 v)).

Definition mbedtls_memory_buffer_alloc_verify (cpuid : Z) : M astate Z :=
  get_heap_ctx cpuid ≫= λ heap, verify_chain heap.

(** The buffer becomes data, so that no header in it is one any more. *)
Definition clear_headers (p n : Z) (m : gmap Z memory_header_s) : gmap Z memory_header_s :=
  filter (λ kv, ¬ (p <= kv.1 < p + n)) m.

Definition mbedtls_memory_buffer_alloc_init (cpuid b n : Z) : M astate () :=
  get_heap_ctx cpuid ≫= λ heap,
  cwrite heap buffer_alloc_ctx_zero ≫= λ _,
  if n <? sizeof_memory_header_s .+ MBEDTLS_MEMORY_ALIGN_MULTIPLE then mret ()
  else
    let rest := b mod MBEDTLS_MEMORY_ALIGN_MULTIPLE in
    let '(b, n) := if negb (rest =? 0)
                   then (b .+ (MBEDTLS_MEMORY_ALIGN_MULTIPLE - rest), n .- (MBEDTLS_MEMORY_ALIGN_MULTIPLE - rest)) else (b, n) in
    mmodify (λ s, set_data (zero_bytes b n (data s)) (set_hdrs (clear_headers b n (hdrs s)) s)) ≫= λ _,
    cwrite heap {| buf := b; len := n; first := b; first_free := b; verify := 0 |} ≫= λ _,
    hwrite b {| magic1 := MAGIC1; size := n .- sizeof_memory_header_s; alloc := 0; prev := 0; next := 0; prev_free := 0;
                next_free := 0; magic2 := MAGIC2 |}.

Definition mbedtls_memory_buffer_alloc_free (cpuid : Z) : M astate () :=
  get_heap_ctx cpuid ≫= λ heap, cwrite heap buffer_alloc_ctx_zero.
End alloc.
