(* ===== verification/AllocHeap.v ===== *)
(** The heap as a list of adjacent blocks: the invariant that ties the headers to it, and what
    the lists of free blocks do to the headers. *)
From S2P Require Import Prelude Types Granule Platform GranuleFind AllocList Alloc.

(** * Blocks *)

Record blk := Blk { b_addr : Z; b_size : Z; b_used : bool }.
#[export] Instance blk_eq_dec : EqDecision blk.
Proof. solve_decision. Defined.
Definition addrs (bl : list blk) : list Z := b_addr <$> bl.
Definition free_addrs (bl : list blk) : list Z := addrs (filter (λ k, b_used k = false) bl).
Definition b_end (k : blk) : Z := b_addr k + sizeof_memory_header_s + b_size k.

(** The blocks, none of them empty, lie one behind the other from [a] to [e]. *)
Fixpoint tiled (a : Z) (bl : list blk) (e : Z) : Prop :=
  match bl with
  | [] => a = e
  | k :: bl' => b_addr k = a ∧ 0 < b_size k ∧ tiled (b_end k) bl' e
  end.

(** No two free blocks are neighbours. *)
Fixpoint coalesced (bl : list blk) : Prop :=
  match bl with
  | k1 :: (k2 :: _) as bl' => b_used k1 || b_used k2 = true ∧ coalesced bl'
  | _ => True
  end.

Lemma tiled_app a l1 l2 e : tiled a (l1 ++ l2) e ↔ ∃ m, tiled a l1 m ∧ tiled m l2 e.
Proof.
  revert a. induction l1 as [|k l1 IH]; intros a; cbn [app tiled].
  - naive_solver.
  - rewrite IH. naive_solver.
Qed.

Lemma tiled_le a bl e : tiled a bl e → a <= e.
Proof.
  revert a. induction bl as [|k bl IH]; intros a; cbn [tiled]; [lia|]. intros (Ha & Hs & Ht%IH). unfold b_end, sizeof_memory_header_s in Ht. lia.
Qed.

Lemma tiled_in a bl e k : tiled a bl e → k ∈ bl → a <= b_addr k ∧ b_end k <= e ∧ 0 < b_size k.
Proof.
  intros Ht (l1 & l2 & ->)%list_elem_of_split. apply tiled_app in Ht as (m & H1%tiled_le & Hm & Hs & H2%tiled_le). lia.
Qed.

Lemma tiled_NoDup a bl e : tiled a bl e → NoDup (addrs bl).
Proof.
  revert a. induction bl as [|k bl IH]; intros a; cbn [tiled]; [intros; apply NoDup_nil_2|]. intros (Ha & Hs & Ht).
  apply NoDup_cons. split; [|by eapply IH]. intros (k' & Hk & Hin)%list_elem_of_fmap.
  apply (tiled_in _ _ _ _ Ht) in Hin. unfold b_end, sizeof_memory_header_s in *. lia.
Qed.

(** Different blocks do not overlap. *)
Lemma tiled_disjoint a bl e k1 k2 : tiled a bl e → k1 ∈ bl → k2 ∈ bl → k1 ≠ k2 → b_end k1 <= b_addr k2 ∨ b_end k2 <= b_addr k1.
Proof.
  intros Ht (l1 & l2 & ->)%list_elem_of_split Hin Hne. apply tiled_app in Ht as (m & H1 & Hm & Hs & H2).
  rewrite elem_of_app, elem_of_cons in Hin. destruct Hin as [Hin|[->|Hin]]; [|done|].
  - apply (tiled_in _ _ _ _ H1) in Hin. lia.
  - apply (tiled_in _ _ _ _ H2) in Hin. lia.
Qed.

(** An address names one block. *)
Lemma tiled_inj a bl e k k' : tiled a bl e → k ∈ bl → k' ∈ bl → b_addr k = b_addr k' → k = k'.
Proof.
  intros Ht Hk Hk' Ha. destruct (decide (k = k')) as [|Hne]; [done|].
  destruct (tiled_disjoint _ _ _ _ _ Ht Hk Hk' Hne) as [Hd|Hd]; pose proof (tiled_in _ _ _ _ Ht Hk); pose proof (tiled_in _ _ _ _ Ht Hk');
    unfold b_end, sizeof_memory_header_s in *; lia.
Qed.

Lemma coalesced_app l1 l2 : coalesced (l1 ++ l2) → coalesced l1 ∧ coalesced l2.
Proof.
  induction l1 as [|k l1 IH]; [done|]. destruct l1 as [|k' l1].
  - cbn. destruct l2; [done|]. naive_solver.
  - cbn [app coalesced] in *. naive_solver.
Qed.

Lemma coalesced_join l1 l2 : coalesced l1 → coalesced l2 →
  match last l1, head l2 with Some k1, Some k2 => b_used k1 || b_used k2 = true | _, _ => True end → coalesced (l1 ++ l2).
Proof.
  induction l1 as [|k l1 IH]; [done|]. destruct l1 as [|k' l1]; intros H1 H2 Hb.
  - cbn in Hb. cbn [app]. destruct l2; [done|]. done.
  - cbn [app coalesced] in *. destruct H1 as [Hu H1]. split; [done|]. apply IH; [done|done|]. exact Hb.
Qed.

(** * The invariant *)

(** The header of block [k], with the blocks at [al] and the free ones, in the order of their
    list, at [fl]. *)
Definition hdr_of (al fl : list Z) (k : blk) : memory_header_s :=
  {| magic1 := MAGIC1; size := b_size k; alloc := if b_used k then 1 else 0;
     prev := prev_of al (b_addr k); next := next_of al (b_addr k);
     prev_free := prev_of fl (b_addr k); next_free := next_of fl (b_addr k); magic2 := MAGIC2 |}.

Record heap_inv (c : buffer_alloc_ctx) (m : gmap Z memory_header_s) (bl : list blk) (fl : list Z) : Prop := {
  hi_buf : 0 < buf c;
  hi_end : buf c + len c < 2 ^ 64;
  hi_ne : bl ≠ [];
  hi_tiled : tiled (buf c) bl (buf c + len c);
  hi_first : first c = buf c;
  hi_ff : first_free c = hd0 fl;
  hi_fl : fl ≡ₚ free_addrs bl;
  hi_hdr k : k ∈ bl → m !! b_addr k = Some (hdr_of (addrs bl) fl k);
  hi_coal : coalesced bl;
  hi_align : Forall (λ k, b_addr k mod 8 = 0) bl;
}.

Lemma free_addrs_sub bl a : a ∈ free_addrs bl → a ∈ addrs bl.
Proof.
  intros (k & -> & [_ Hk]%list_elem_of_filter)%list_elem_of_fmap. apply list_elem_of_fmap. by exists k.
Qed.

Lemma free_addrs_app l1 l2 : free_addrs (l1 ++ l2) = free_addrs l1 ++ free_addrs l2.
Proof. unfold free_addrs, addrs. by rewrite filter_app, fmap_app. Qed.

Lemma free_addrs_cons k l : free_addrs (k :: l) = if b_used k then free_addrs l else b_addr k :: free_addrs l.
Proof. unfold free_addrs. rewrite filter_cons. by destruct (b_used k). Qed.

Lemma addrs_app l1 l2 : addrs (l1 ++ l2) = addrs l1 ++ addrs l2.
Proof. apply fmap_app. Qed.

Section facts.
Context {c : buffer_alloc_ctx} {m : gmap Z memory_header_s} {bl : list blk} {fl : list Z} (Hi : heap_inv c m bl fl).

Lemma hi_nodup : NoDup (addrs bl).
Proof using Hi. eapply tiled_NoDup, hi_tiled, Hi. Qed.

Lemma hi_fl_nodup : NoDup fl.
Proof using Hi.
  rewrite (hi_fl _ _ _ _ Hi). unfold free_addrs. apply (sublist_NoDup _ (addrs bl)); [apply hi_nodup|].
  apply fmap_sublist, sublist_filter.
Qed.

Lemma hi_range k : k ∈ bl → buf c <= b_addr k ∧ b_end k <= buf c + len c ∧ 0 < b_size k.
Proof using Hi. apply tiled_in. apply Hi. Qed.

Lemma hi_pos a : a ∈ addrs bl → 0 < a < 2 ^ 64.
Proof using Hi.
  intros (k & -> & Hk)%list_elem_of_fmap. pose proof (hi_range k Hk). pose proof (hi_buf _ _ _ _ Hi). pose proof (hi_end _ _ _ _ Hi).
  unfold b_end, sizeof_memory_header_s in *. lia.
Qed.

Lemma hi_fl_in a : a ∈ fl → ∃ k, k ∈ bl ∧ b_addr k = a ∧ b_used k = false.
Proof using Hi.
  rewrite (hi_fl _ _ _ _ Hi). intros (k & -> & [Hu Hk]%list_elem_of_filter)%list_elem_of_fmap. by exists k.
Qed.

Lemma hi_in_fl k : k ∈ bl → b_used k = false → b_addr k ∈ fl.
Proof using Hi.
  intros Hk Hu. rewrite (hi_fl _ _ _ _ Hi). apply list_elem_of_fmap. exists k. split; [done|]. by apply list_elem_of_filter.
Qed.

Lemma hi_addr_inj k k' : k ∈ bl → k' ∈ bl → b_addr k = b_addr k' → k = k'.
Proof using Hi. eapply tiled_inj, hi_tiled, Hi. Qed.

Lemma hi_used_out k : k ∈ bl → b_used k = true → b_addr k ∉ fl.
Proof using Hi.
  intros Hk Hu Hin. destruct (hi_fl_in _ Hin) as (k' & Hk' & Ha & Hu'). rewrite (hi_addr_inj k' k) in Hu' by done. congruence.
Qed.

Lemma hi_nonzero_al : Forall (λ x, x ≠ 0) (addrs bl).
Proof using Hi. apply Forall_forall. intros a Ha%hi_pos. lia. Qed.

Lemma hi_nonzero_fl : Forall (λ x, x ≠ 0) fl.
Proof using Hi. apply Forall_forall. intros a Ha. rewrite (hi_fl _ _ _ _ Hi) in Ha. apply free_addrs_sub, hi_pos in Ha. lia. Qed.

(** A list of addresses of headers is not longer than the map. *)
Lemma hi_fuel l : NoDup l → (∀ a, a ∈ l → a ∈ addrs bl) → (length l <= length (map_to_list m))%nat.
Proof using Hi.
  intros Hnd Hl. rewrite <- (length_fmap fst (map_to_list m)). apply submseteq_length, NoDup_submseteq; [done|].
  intros a (k & -> & Hk)%Hl%list_elem_of_fmap. apply list_elem_of_fmap. eexists (_, _). split; [reflexivity|].
  apply elem_of_map_to_list. by apply (hi_hdr _ _ _ _ Hi).
Qed.
End facts.

(** * Reading a heap *)

(** The heap at [hp] is the blocks [bl], with the free ones in the order [fl]. *)
Definition heap_at (s : astate) (hp : Z) (bl : list blk) (fl : list Z) : Prop :=
  ∃ c, ctxs s !! hp = Some c ∧ heap_inv c (hdrs s) bl fl.

Lemma hread_run s p h : hdrs s !! p = Some h → hread p s = Ok (h, s).
Proof. intros Hp. unfold hread. rewrite gets_bind, Hp. by apply mderef_run. Qed.

Lemma cread_run s p c : ctxs s !! p = Some c → cread p s = Ok (c, s).
Proof. intros Hp. unfold cread. rewrite gets_bind, Hp. by apply mderef_run. Qed.

Lemma hmod_run s p f h : hdrs s !! p = Some h → hmod p f s = Ok ((), set_hdrs (<[p := f h]> (hdrs s)) s).
Proof. intros Hp. unfold hmod. by run_step (hread_run s p h Hp). Qed.

Lemma cmod_run s p f c : ctxs s !! p = Some c → cmod p f s = Ok ((), set_ctxs (<[p := f c]> (ctxs s)) s).
Proof. intros Hp. unfold cmod. by run_step (cread_run s p c Hp). Qed.

Section read.
Context {MB : Mbedtls} {s : astate} {hp : Z} {c : buffer_alloc_ctx} {bl : list blk} {fl : list Z}.
Context (Hc : ctxs s !! hp = Some c) (Hi : heap_inv c (hdrs s) bl fl).

Lemma verify_header_ok k : k ∈ bl → verify_header (hdr_of (addrs bl) fl k) = 0.
Proof using Hi.
  clear Hc.
  intros Hk. unfold verify_header. cbn [magic1 magic2 alloc prev next prev_free next_free hdr_of]. rewrite !Z.eqb_refl. cbn [negb].
  assert ((1 <? (if b_used k then 1 else 0)) = false) as -> by (by destruct (b_used k)).
  assert (Hin : b_addr k ∈ addrs bl) by (apply list_elem_of_fmap; by exists k).
  assert (Hd : ∀ l, NoDup l → Forall (λ x, x ≠ 0) l →
    negb (prev_of l (b_addr k) =? 0) && (prev_of l (b_addr k) =? next_of l (b_addr k)) = false).
  { intros l Hnd Hf. destruct (decide (b_addr k ∈ l)) as [Hl|Hl]; [|by rewrite prev_of_notin].
    destruct (Z.eqb_spec (prev_of l (b_addr k)) 0) as [|Hne]; [done|]. cbn [negb andb]. apply Z.eqb_neq. by apply neighbours_differ. }
  rewrite !Hd; [done|apply (hi_fl_nodup Hi)|apply (hi_nonzero_fl Hi)|apply (hi_nodup Hi)|apply (hi_nonzero_al Hi)].
Qed.

Lemma verify_loop_ok l2 : ∀ l1 fuel, bl = l1 ++ l2 → l1 ≠ [] → (length l2 <= fuel)%nat →
  verify_loop fuel (last0 (addrs l1)) (hd0 (addrs l2)) s = Ok (0, s).
Proof using Hi.
  clear Hc.
  induction l2 as [|k l2 IH]; intros l1 fuel Hbl Hl Hf; [by destruct fuel|]. destruct fuel as [|fuel]; [cbn in Hf; lia|].
  assert (Hk : k ∈ bl) by (rewrite Hbl; set_solver). cbn [verify_loop addrs fmap list_fmap hd0].
  assert (b_addr k ≠ 0) as Hk0 by (assert (b_addr k ∈ addrs bl) as Hin%(hi_pos Hi) by (apply list_elem_of_fmap; by exists k); lia).
  rewrite (proj2 (Z.eqb_neq _ 0)) by done. run_step (hread_run s _ _ (hi_hdr _ _ _ _ Hi k Hk)).
  rewrite verify_header_ok by done. cbn [Z.eqb negb prev next hdr_of].
  pose proof (hi_nodup Hi) as Hnd. rewrite Hbl, addrs_app in Hnd. cbn [addrs fmap list_fmap] in Hnd.
  apply NoDup_app in Hnd as (_ & Hd & [Hk2 _]%NoDup_cons).
  assert (Hprev : prev_of (addrs bl) (b_addr k) = last0 (addrs l1)) by (rewrite Hbl, addrs_app; by apply prev_of_mid).
  assert (Hnext : next_of (addrs bl) (b_addr k) = hd0 (addrs l2)).
  { rewrite Hbl, addrs_app. apply next_of_mid. intros Hin. apply (Hd _ Hin), list_elem_of_here. }
  rewrite Hprev, Z.eqb_refl, Hnext. cbn [negb].
  rewrite <- (last0_app (addrs l1) (b_addr k)). change [b_addr k] with (addrs [k]). rewrite <- addrs_app.
  apply IH; [by rewrite Hbl, <- app_assoc|by destruct l1|cbn in Hf; lia].
Qed.

Lemma verify_chain_ok : verify_chain hp s = Ok (0, s).
Proof using Hc Hi.
  unfold verify_chain. run_step (cread_run s hp c Hc). rewrite (hi_first _ _ _ _ Hi).
  pose proof (hi_buf _ _ _ _ Hi) as Hb. rewrite (proj2 (Z.eqb_neq (buf c) 0)) by lia.
  pose proof (hi_ne _ _ _ _ Hi) as Hne.
  assert (∃ k l2, bl = k :: l2) as (k & l2 & Hbl) by (clear - Hne; destruct bl; [done|by eexists _, _]).
  assert (Hk : k ∈ bl) by (rewrite Hbl; apply list_elem_of_here).
  assert (Hka : b_addr k = buf c) by (pose proof (hi_tiled _ _ _ _ Hi) as Ht; rewrite Hbl in Ht; apply Ht).
  rewrite <- Hka. run_step (hread_run s _ _ (hi_hdr _ _ _ _ Hi k Hk)). rewrite verify_header_ok by done. cbn [Z.eqb negb prev next hdr_of].
  pose proof (hi_nodup Hi) as Hnd. rewrite Hbl in Hnd. cbn [addrs fmap list_fmap] in Hnd. apply NoDup_cons in Hnd as [Hk2 _].
  assert (Hprev : prev_of (addrs bl) (b_addr k) = 0) by (rewrite Hbl; by apply (prev_of_mid [])).
  assert (Hnext : next_of (addrs bl) (b_addr k) = hd0 (addrs l2)) by (rewrite Hbl; apply (next_of_mid []), not_elem_of_nil).
  rewrite Hprev, Hnext. cbn [Z.eqb negb]. rewrite gets_bind. apply (verify_loop_ok l2 [k]); [done|done|].
  pose proof (hi_fuel Hi (addrs bl) (hi_nodup Hi) ltac:(done)) as Hf. unfold addrs in Hf. rewrite length_fmap, Hbl in Hf. cbn in Hf. lia.
Qed.

(** The size of the block at [a]. *)
Definition size_at (l : list blk) (a : Z) : Z := from_option b_size 0 (List.find (λ k, b_addr k =? a) l).

Lemma size_at_in k : k ∈ bl → size_at bl (b_addr k) = b_size k.
Proof using Hi.
  clear Hc.
  intros Hk. unfold size_at. destruct (List.find _ bl) as [k'|] eqn:Hf.
  - apply List.find_some in Hf as [Hk' Ha%Z.eqb_eq]. apply list_elem_of_In in Hk'. cbn. by rewrite (hi_addr_inj Hi k' k).
  - apply list_elem_of_In in Hk. apply (List.find_none _ _ Hf), Z.eqb_neq in Hk. done.
Qed.

Lemma find_fit_ok L f2 : ∀ f1 fuel, fl = f1 ++ f2 → (length f2 <= fuel)%nat →
  find_fit fuel (hd0 f2) L s = Ok (hd0 (filter (λ a, L <= size_at bl a) f2), s).
Proof using Hi.
  clear Hc.
  induction f2 as [|a f2 IH]; intros f1 fuel Hfl Hf; [by destruct fuel|]. destruct fuel as [|fuel]; [cbn in Hf; lia|].
  assert (Hin : a ∈ fl) by (rewrite Hfl; set_solver). destruct (hi_fl_in Hi a Hin) as (k & Hk & Hka & Hu).
  assert (a ≠ 0) as Hk0 by (pose proof (hi_nonzero_fl Hi) as Hz; rewrite Forall_forall in Hz; by apply Hz).
  cbn [find_fit hd0]. rewrite (proj2 (Z.eqb_neq _ 0)) by done.
  rewrite <- Hka at 1. run_step (hread_run s _ _ (hi_hdr _ _ _ _ Hi k Hk)). cbn [size next_free hdr_of].
  assert (Hsz : size_at bl a = b_size k) by (rewrite <- Hka; by apply size_at_in).
  destruct (Z.leb_spec L (b_size k)).
  - rewrite filter_cons_True by (by rewrite Hsz). done.
  - rewrite filter_cons_False by (rewrite Hsz; lia). rewrite Hka.
    pose proof (hi_fl_nodup Hi) as Hnd. rewrite Hfl in Hnd. apply NoDup_app in Hnd as (_ & Hd & _).
    assert (next_of fl a = hd0 f2) as ->.
    { rewrite Hfl. apply next_of_mid. intros Hx. apply (Hd _ Hx), list_elem_of_here. }
    apply (IH (f1 ++ [a])); [by rewrite Hfl, <- app_assoc|cbn in Hf; lia].
Qed.
End read.
