(* ===== verification/AllocLinks.v ===== *)
(** What the heap's operations on the list of free blocks do to the headers. *)
From S2P Require Import Prelude Types Granule Platform GranuleFind AllocList Alloc AllocHeap.

(** A header at [p], if [p] is not [NULL], is changed. *)
Definition upd (p : Z) (f : memory_header_s → memory_header_s) (m : gmap Z memory_header_s) : gmap Z memory_header_s :=
  if p =? 0 then m else alter f p m.

Lemma upd_lookup p f m a : a ≠ 0 → upd p f m !! a = (if a =? p then f else id) <$> m !! a.
Proof.
  intros Ha. unfold upd. destruct (Z.eqb_spec p 0) as [->|Hp].
  - rewrite (proj2 (Z.eqb_neq a 0)) by done. by destruct (m !! a).
  - destruct (Z.eqb_spec a p) as [->|Hne]; [apply lookup_alter_eq|]. rewrite lookup_alter_ne by done. by destruct (m !! a).
Qed.

Lemma upd_insert p f m h : p ≠ 0 → m !! p = Some h → upd p f m = <[p := f h]> m.
Proof. intros Hp Hh. unfold upd. rewrite (proj2 (Z.eqb_neq p 0)) by done. apply map_eq. intros a. destruct (decide (a = p)) as [->|Hne];
  [by rewrite lookup_alter_eq, Hh, lookup_insert_eq|by rewrite lookup_alter_ne, lookup_insert_ne]. Qed.

Lemma upd_last_frame l f m b : b ∉ l → upd (last0 l) f m !! b = m !! b.
Proof.
  intros Hb. destruct (decide (l = [])) as [->|Hl]; [done|]. unfold upd. destruct (_ =? 0); [done|].
  apply lookup_alter_ne. intros Heq. apply Hb. rewrite <- Heq. by apply last0_in.
Qed.

Lemma upd_hd_frame l f m b : b ∉ l → upd (hd0 l) f m !! b = m !! b.
Proof.
  intros Hb. destruct (decide (l = [])) as [->|Hl]; [done|]. unfold upd. destruct (_ =? 0); [done|].
  apply lookup_alter_ne. intros Heq. apply Hb. rewrite <- Heq. by apply hd0_in.
Qed.

(** [if (p != NULL) p->... = ...;] *)
Lemma when_hmod_run s p f : (p ≠ 0 → is_Some (hdrs s !! p)) →
  (if negb (p =? 0) then hmod p f else mret ()) s = Ok ((), set_hdrs (upd p f (hdrs s)) s).
Proof.
  intros Hp. destruct (Z.eqb_spec p 0) as [->|Hne]; cbn [negb].
  - unfold upd. cbn. by destruct s.
  - destruct (Hp Hne) as [h Hh]. rewrite (hmod_run s p f h Hh). by rewrite (upd_insert p f _ h).
Qed.

(** The same with the first element of the list of free blocks as the alternative. *)
Lemma set_first_free_id c : set_first_free (first_free c) c = c.
Proof. by destruct c. Qed.

Lemma else_first_run s hp c p f v : ctxs s !! hp = Some c → (p ≠ 0 → is_Some (hdrs s !! p)) →
  (if negb (p =? 0) then hmod p f else cmod hp (set_first_free v)) s
  = Ok ((), set_hdrs (upd p f (hdrs s)) (set_ctxs (<[hp := set_first_free (if p =? 0 then v else first_free c) c]> (ctxs s)) s)).
Proof.
  intros Hc Hp. destruct (Z.eqb_spec p 0) as [->|Hne]; cbn [negb].
  - rewrite (cmod_run s hp _ c Hc). unfold upd. cbn. done.
  - destruct (Hp Hne) as [h Hh]. rewrite (hmod_run s p f h Hh), (upd_insert p f _ h) by done.
    rewrite set_first_free_id, (insert_id (ctxs s)) by done. by destruct s.
Qed.

Lemma last0_zero l : Forall (λ x, x ≠ 0) l → last0 l = 0 ↔ l = [].
Proof.
  intros Hf. split; [|by intros ->]. intros Hl. destruct (decide (l = [])) as [|Hne]; [done|].
  rewrite Forall_forall in Hf. by destruct (Hf _ (last0_in l Hne)).
Qed.

Section links.
Context (s : astate) (hp : Z) (c : buffer_alloc_ctx) (f1 f2 : list Z) (x : Z) (hx : memory_header_s).
Hypothesis Hc : ctxs s !! hp = Some c.
Hypothesis Hnd : NoDup (f1 ++ x :: f2).
Hypothesis Hnz : Forall (λ a, a ≠ 0) (f1 ++ x :: f2).
Hypothesis Hin : ∀ a, a ∈ f1 ++ f2 → is_Some (hdrs s !! a).
Hypothesis Hx : hdrs s !! x = Some hx.
Hypothesis Hp : prev_free hx = last0 f1.
Hypothesis Hn : next_free hx = hd0 f2.

Lemma nd_parts : (x ∉ f1) ∧ (x ∉ f2) ∧ NoDup (f1 ++ f2) ∧ Forall (λ a, a ≠ 0) f1 ∧ x ≠ 0.
Proof using Hnd Hnz.
  assert (Hp' : f1 ++ x :: f2 ≡ₚ x :: f1 ++ f2) by (by rewrite Permutation_middle). pose proof Hnd as Hnd'. rewrite Hp', NoDup_cons, not_elem_of_app in Hnd'.
  apply Forall_app in Hnz as [Hz1 Hz2]. apply Forall_cons in Hz2 as [Hz _]. naive_solver.
Qed.

Lemma last_some : last0 f1 ≠ 0 → is_Some (hdrs s !! last0 f1).
Proof using Hin. intros Hl. apply Hin, elem_of_app. left. apply last0_in. intros Heq. apply Hl. by rewrite Heq. Qed.
Lemma first_some : hd0 f2 ≠ 0 → is_Some (hdrs s !! hd0 f2).
Proof using Hin. intros Hl. apply Hin, elem_of_app. right. apply hd0_in. intros Heq. apply Hl. by rewrite Heq. Qed.
Lemma last_ne : last0 f1 ≠ x.
Proof using Hnd Hnz.
  destruct nd_parts as (H1 & _ & _ & _ & H0). intros Heq. destruct (decide (f1 = [])) as [Hf|Hne]; [rewrite Hf in Heq; by rewrite <- Heq in H0|].
  apply H1. rewrite <- Heq. by apply last0_in.
Qed.

Lemma hx_kept f : (upd (last0 f1) f (hdrs s)) !! x = Some hx.
Proof using Hnd Hnz Hx.
  destruct nd_parts as (_ & _ & _ & _ & H0). rewrite upd_lookup by done. pose proof last_ne as Hl.
  rewrite (proj2 (Z.eqb_neq x (last0 f1))) by congruence. by rewrite Hx.
Qed.

(** Both shapes: write [v1] behind the element before, and [v2] before the element behind. *)
Lemma around_run v1 v2 v0 :
  (hread x ≫= λ h, (if negb (prev_free h =? 0) then hmod (prev_free h) (set_next_free (v1 h)) else cmod hp (set_first_free (v0 h))) ≫= λ _,
   hread x ≫= λ h, (if negb (next_free h =? 0) then hmod (next_free h) (set_prev_free (v2 h)) else mret ())) s
  = Ok ((), set_hdrs (upd (hd0 f2) (set_prev_free (v2 hx)) (upd (last0 f1) (set_next_free (v1 hx)) (hdrs s)))
              (set_ctxs (<[hp := set_first_free (if last0 f1 =? 0 then v0 hx else first_free c) c]> (ctxs s)) s)).
Proof using Hc Hnd Hnz Hin Hx Hp Hn.
  run_step (hread_run s x hx Hx). rewrite Hp.
  run_step (else_first_run s hp c (last0 f1) (set_next_free (v1 hx)) (v0 hx) Hc last_some).
  erewrite bind_run by (apply hread_run; apply hx_kept). cbv beta. rewrite Hn, when_hmod_run; [done|].
  intros Hz. cbn. rewrite upd_lookup by done. destruct (first_some Hz) as [h ->]. by eexists.
Qed.

Lemma unlink_free_run : first_free c = hd0 (f1 ++ x :: f2) →
  unlink_free hp x s
  = Ok ((), set_hdrs (upd (hd0 f2) (set_prev_free (last0 f1)) (upd (last0 f1) (set_next_free (hd0 f2)) (hdrs s)))
              (set_ctxs (<[hp := set_first_free (hd0 (f1 ++ f2)) c]> (ctxs s)) s)).
Proof using Hc Hnd Hnz Hin Hx Hp Hn.
  intros Hff. unfold unlink_free. rewrite (around_run next_free prev_free next_free), Hp, Hn. do 5 f_equal.
  destruct nd_parts as (_ & _ & _ & Hz & _). destruct (Z.eqb_spec (last0 f1) 0) as [->%last0_zero|Hl]; [done|done|].
  rewrite Hff, !hd0_app. by rewrite !decide_False by (by intros ->).
Qed.

Lemma relink_free_run : (f1 ≠ [] → first_free c = hd0 f1) →
  relink_free hp x s
  = Ok ((), set_hdrs (upd (hd0 f2) (set_prev_free x) (upd (last0 f1) (set_next_free x) (hdrs s)))
              (set_ctxs (<[hp := set_first_free (hd0 (f1 ++ x :: f2)) c]> (ctxs s)) s)).
Proof using Hc Hnd Hnz Hin Hx Hp Hn.
  intros Hff. unfold relink_free. rewrite (around_run (λ _, x) (λ _, x) (λ _, x)). do 5 f_equal.
  destruct nd_parts as (_ & _ & _ & Hz & _). destruct (Z.eqb_spec (last0 f1) 0) as [->%last0_zero|Hl]; [done|done|].
  assert (f1 ≠ []) by (by intros ->). rewrite Hff by done. rewrite hd0_app. by rewrite decide_False.
Qed.
End links.

(** The links of the header at [a] in the list [fl]. *)
Definition lnk (fl : list Z) (a : Z) (h : memory_header_s) : memory_header_s :=
  set_prev_free (prev_of fl a) (set_next_free (next_of fl a) h).

Lemma lnk_hdr al fl fl' k : lnk fl' (b_addr k) (hdr_of al fl k) = hdr_of al fl' k.
Proof. done. Qed.

(** Taking [x] out, and putting it in, as seen at another header. *)
Lemma unlink_lookup m f1 f2 x fl a : fl = f1 ++ x :: f2 → NoDup fl → Forall (λ a, a ≠ 0) fl → a ≠ x → a ≠ 0 →
  (∀ h, m !! a = Some h → lnk fl a h = h) →
  upd (hd0 f2) (set_prev_free (last0 f1)) (upd (last0 f1) (set_next_free (hd0 f2)) m) !! a = lnk (f1 ++ f2) a <$> m !! a.
Proof.
  intros -> Hnd Hnz Hax Ha Hl. destruct (nd_parts f1 f2 x Hnd Hnz) as (_ & _ & Hnd' & _ & _). rewrite !upd_lookup by done.
  destruct (m !! a) as [h|] eqn:Hm; [|done]. cbn. f_equal. specialize (Hl h eq_refl). rewrite <- Hl at 1. unfold lnk.
  rewrite (next_of_insert f1 x f2 a), (prev_of_insert f1 x f2 a) by done.
  assert (G1 : a = last0 f1 → next_of (f1 ++ f2) a = hd0 f2).
  { intros Ea. rewrite Ea. apply next_of_gap; [|done]. intros E. apply Ha. by rewrite Ea, E. }
  assert (G2 : a = hd0 f2 → prev_of (f1 ++ f2) a = last0 f1).
  { intros Ea. rewrite Ea. apply prev_of_gap; [|done]. intros E. apply Ha. by rewrite Ea, E. }
  destruct (Z.eqb_spec a (last0 f1)) as [E1|], (Z.eqb_spec a (hd0 f2)) as [E2|]; cbn [id]; rewrite ?G1, ?G2 by done; done.
Qed.

Lemma relink_lookup m f1 f2 x fl a : fl = f1 ++ x :: f2 → a ≠ x → a ≠ 0 →
  (∀ h, m !! a = Some h → (a ≠ last0 f1 → next_free h = next_of fl a) ∧ (a ≠ hd0 f2 → prev_free h = prev_of fl a)) →
  NoDup fl → Forall (λ a, a ≠ 0) fl →
  upd (hd0 f2) (set_prev_free x) (upd (last0 f1) (set_next_free x) m) !! a = lnk fl a <$> m !! a.
Proof.
  intros -> Hax Ha Hl Hnd Hnz. destruct (nd_parts f1 f2 x Hnd Hnz) as (_ & _ & Hnd' & _ & _). rewrite !upd_lookup by done.
  destruct (m !! a) as [h|] eqn:Hm; [|done]. cbn. f_equal. destruct (Hl h eq_refl) as [H1 H2]. unfold lnk.
  assert (G1 : a = last0 f1 → next_of (f1 ++ x :: f2) a = x) by (intros Ea; rewrite next_of_insert by done; by rewrite (proj2 (Z.eqb_eq _ _) Ea)).
  assert (G2 : a = hd0 f2 → prev_of (f1 ++ x :: f2) a = x) by (intros Ea; rewrite prev_of_insert by done; by rewrite (proj2 (Z.eqb_eq _ _) Ea)).
  destruct h as [q1 q2 q3 q4 q5 q6 q7 q8]; cbn [next_free prev_free] in *.
  destruct (Z.eqb_spec a (last0 f1)) as [E1|E1], (Z.eqb_spec a (hd0 f2)) as [E2|E2]; unfold set_prev_free, set_next_free; cbn [id magic1 size alloc prev next prev_free next_free magic2].
  - by rewrite G1, G2.
  - by rewrite G1, (H2 E2).
  - by rewrite G2, (H1 E1).
  - by rewrite (H1 E1), (H2 E2).
Qed.
