(* ===== verification/AllocCalloc.v ===== *)
(** Allocation: every branch of [buffer_alloc_calloc_with_heap] on a heap that satisfies the
    invariant. *)
From S2P Require Import Prelude Types Granule Platform GranuleFind AllocList Alloc AllocHeap AllocLinks.

Ltac a_norm := unfold set_hdrs, set_ctxs, set_data; cbn [ctx_per_cpu ctxs hdrs data].

(** * Blocks that change in place *)

Lemma tiled_swap a l1 k k' l2 e : tiled a (l1 ++ k :: l2) e → b_addr k' = b_addr k → b_size k' = b_size k → tiled a (l1 ++ k' :: l2) e.
Proof.
  rewrite !tiled_app. intros (m & H1 & Ha & Hs & H2) E1 E2. exists m. split; [done|]. cbn [tiled]. unfold b_end in *. rewrite E1, E2. done.
Qed.

Lemma coalesced_used l1 k k' l2 : coalesced (l1 ++ k :: l2) → b_used k' = true → coalesced (l1 ++ k' :: l2).
Proof.
  intros Hc Hu. pose proof (coalesced_app _ _ Hc) as [H1 H2]. apply (coalesced_app [k] l2) in H2 as [_ H2].
  apply coalesced_join; [done| |].
  - apply (coalesced_join [k'] l2); [done|done|]. cbn. destruct (head l2); [|done]. by rewrite Hu.
  - cbn. destruct (last l1); [|done]. by rewrite Hu, orb_true_r.
Qed.

Lemma coalesced_before l1 k l2 : coalesced (l1 ++ k :: l2) → b_used k = false → match last l1 with Some k1 => b_used k1 = true | None => True end.
Proof.
  intros Hc Hu. destruct l1 as [|k1 l1 _] using rev_ind; [done|]. rewrite last_snoc.
  rewrite <- app_assoc in Hc. apply coalesced_app in Hc as [_ Hc]. cbn in Hc. destruct Hc as [Hc _]. by rewrite Hu, orb_false_r in Hc.
Qed.

Lemma coalesced_after l1 k l2 : coalesced (l1 ++ k :: l2) → b_used k = false → match head l2 with Some k1 => b_used k1 = true | None => True end.
Proof.
  intros [_ Hc]%coalesced_app Hu. destruct l2 as [|k2 l2]; [done|]. cbn in *. destruct Hc as [Hc _]. by rewrite Hu in Hc.
Qed.

Definition use (k : blk) : blk := {| b_addr := b_addr k; b_size := b_size k; b_used := true |}.

Lemma hdr_of_use al fl fl' k : b_addr k ∉ fl' → hdr_of al fl' (use k) = set_next_free 0 (set_prev_free 0 (set_alloc 1 (hdr_of al fl k))).
Proof. intros Hk. unfold hdr_of. by rewrite (prev_of_notin fl'), (next_of_notin fl'). Qed.

(** What every operation on the heap at [hp] keeps, and what it makes of it. *)
Record heap_step (s s' : astate) (hp : Z) (c : buffer_alloc_ctx) (bl bl' : list blk) (fl' : list Z) : Prop := {
  hs_cpus : ctx_per_cpu s' = ctx_per_cpu s;
  hs_ctxs : ctxs s' = <[hp := set_first_free (hd0 fl') c]> (ctxs s);
  hs_frame a : a ∉ addrs bl → a ∉ addrs bl' → hdrs s' !! a = hdrs s !! a;
  hs_inv : heap_inv (set_first_free (hd0 fl') c) (hdrs s') bl' fl';
}.

(** * The list of free blocks *)

Section free_list.
Context {c : buffer_alloc_ctx} {m : gmap Z memory_header_s} {bl : list blk} {fl : list Z} (Hi : heap_inv c m bl fl).

Lemma fl_split k : k ∈ bl → b_used k = false → ∃ f1 f2, fl = f1 ++ b_addr k :: f2.
Proof using Hi. intros Hk Hu. apply list_elem_of_split. by apply (hi_in_fl Hi). Qed.

(** The neighbours that the header of a free block names. *)
Lemma fl_links f1 f2 a : fl = f1 ++ a :: f2 → prev_of fl a = last0 f1 ∧ next_of fl a = hd0 f2 ∧ (a ∉ f1 ++ f2).
Proof using Hi.
  intros Hfl. pose proof (hi_fl_nodup Hi) as Hnd. rewrite Hfl in Hnd. pose proof (hi_nonzero_fl Hi) as Hz. rewrite Hfl in Hz.
  destruct (nd_parts _ _ _ Hnd Hz) as (H1 & H2 & _). rewrite Hfl. split; [by apply prev_of_mid|]. split; [by apply next_of_mid|].
  rewrite not_elem_of_app. done.
Qed.

Lemma fl_some a : a ∈ fl → is_Some (m !! a).
Proof using Hi. intros (k & Hk & <- & _)%(hi_fl_in Hi). rewrite (hi_hdr _ _ _ _ Hi k Hk). by eexists. Qed.

Lemma fl_addrs a : a ∈ fl → a ∈ addrs bl.
Proof using Hi. rewrite (hi_fl _ _ _ _ Hi). apply free_addrs_sub. Qed.

Lemma addr_in k : k ∈ bl → b_addr k ∈ addrs bl.
Proof using. intros Hk. apply list_elem_of_fmap. by exists k. Qed.
End free_list.

Section calloc.
Context {MB : Mbedtls} {s : astate} {hp : Z} {c : buffer_alloc_ctx} {bl : list blk} {fl : list Z}.
Context (Hc : ctxs s !! hp = Some c) (Hi : heap_inv c (hdrs s) bl fl).

(** The last part: the check passes, and the bytes of the answer are zero. *)
Lemma calloc_end_run x c' bl' fl' ol k : ctxs x !! hp = Some c' → heap_inv c' (hdrs x) bl' fl' → k ∈ bl' →
  calloc_end hp (b_addr k) ol x
  = Ok (b_addr k + sizeof_memory_header_s, set_data (zero_bytes (b_addr k + sizeof_memory_header_s) ol (data x)) x).
Proof using MB.
  clear Hc Hi. intros Hc' Hi' Hk. unfold calloc_end. run_step (cread_run x hp c' Hc').
  assert (Hv : (if negb ((verify c' .& MBEDTLS_MEMORY_VERIFY_ALLOC) =? 0) then verify_chain hp ≫= λ v, massert (v =? 0) else mret ()) x = Ok ((), x)).
  { destruct (negb _); [|done]. by run_step (verify_chain_ok Hc' Hi'). }
  run_step Hv. assert (Hu : b_addr k .+ sizeof_memory_header_s = b_addr k + sizeof_memory_header_s).
  { apply u64_small. pose proof (hi_range Hi' k Hk). pose proof (hi_buf _ _ _ _ Hi'). pose proof (hi_end _ _ _ _ Hi').
    unfold is_u64, b_end, sizeof_memory_header_s in *. lia. }
  rewrite Hu. done.
Qed.

Lemma calloc_whole_run l1 k l2 f1 f2 ol : bl = l1 ++ k :: l2 → b_used k = false → fl = f1 ++ b_addr k :: f2 →
  ∃ s', calloc_whole hp (b_addr k) ol s
        = Ok (b_addr k + sizeof_memory_header_s, set_data (zero_bytes (b_addr k + sizeof_memory_header_s) ol (data s)) s') ∧
    data s' = data s ∧ heap_step s s' hp c bl (l1 ++ use k :: l2) (f1 ++ f2).
Proof using Hc Hi MB.
  intros Hbl Hu Hfl. set (a := b_addr k) in *. assert (Hk : k ∈ bl) by (rewrite Hbl; set_solver).
  pose proof (hi_hdr _ _ _ _ Hi k Hk) as Hh. fold a in Hh. destruct (fl_links Hi f1 f2 a Hfl) as (Hp & Hn & Hout).
  pose proof (hi_fl_nodup Hi) as Hnd. pose proof (hi_nonzero_fl Hi) as Hz. pose proof (addr_in k Hk) as Hain.
  assert (Ha0 : a ≠ 0) by (pose proof (hi_pos Hi a Hain); lia).
  unfold calloc_whole. run_step (hmod_run s a (set_alloc 1) _ Hh).
  set (m1 := <[a := _]> (hdrs s)). set (s1 := set_hdrs m1 s).
  assert (Hun : unlink_free hp a s1 = Ok ((), set_hdrs (upd (hd0 f2) (set_prev_free (last0 f1)) (upd (last0 f1) (set_next_free (hd0 f2)) m1))
              (set_ctxs (<[hp := set_first_free (hd0 (f1 ++ f2)) c]> (ctxs s1)) s1))).
  { eapply (unlink_free_run s1 hp c f1 f2 a); [exact Hc|by rewrite <- Hfl|by rewrite <- Hfl| |apply lookup_insert_eq|exact Hp|exact Hn|].
    - intros b Hb. cbn. unfold m1. rewrite lookup_insert_ne by (intros <-; done). apply (fl_some Hi). rewrite Hfl. set_solver.
    - rewrite <- Hfl. apply Hi. }
  run_step Hun. set (m2 := upd (hd0 f2) _ _).
  assert (Hm2a : m2 !! a = Some (set_alloc 1 (hdr_of (addrs bl) fl k))).
  { unfold m2. rewrite !upd_lookup by done. unfold m1. rewrite lookup_insert_eq. cbn.
    rewrite (proj2 (Z.eqb_neq a (last0 f1))), (proj2 (Z.eqb_neq a (hd0 f2))); [done| |].
    - intros E. apply Hout, elem_of_app. right. rewrite E. apply hd0_in. intros E2. by rewrite E, E2 in Ha0.
    - intros E. apply Hout, elem_of_app. left. rewrite E. apply last0_in. intros E2. by rewrite E, E2 in Ha0. }
  erewrite bind_run by (apply hmod_run; exact Hm2a). cbv beta. a_norm.
  erewrite bind_run by (apply hmod_run; apply lookup_insert_eq). cbv beta. a_norm. rewrite insert_insert_eq.
  set (s' := {| ctx_per_cpu := _; ctxs := _; hdrs := _; data := _ |}).
  assert (Hstep : heap_step s s' hp c bl (l1 ++ use k :: l2) (f1 ++ f2)).
  { assert (Hal : addrs (l1 ++ use k :: l2) = addrs bl) by (rewrite Hbl; unfold addrs; by rewrite !fmap_app).
    split; [done|done| |].
    - intros b Hb _. cbn. assert (b ≠ a) by (by intros ->). rewrite lookup_insert_ne by done. unfold m2.
      assert (b ∉ f1 ++ f2) as [Hb1 Hb2]%not_elem_of_app by (intros Hin; apply Hb, (fl_addrs Hi); rewrite Hfl; set_solver).
      rewrite upd_hd_frame, upd_last_frame by done. by apply lookup_insert_ne.
    - pose proof Hi as [I1 I2 I3 I4 I5 I6 I7 I8 I9 I10]. split; cbn [buf len first first_free set_first_free]; try done.
      + by destruct l1.
      + rewrite Hbl in I4. by eapply tiled_swap.
      + rewrite Hfl, Hbl, !free_addrs_app in I7. rewrite !free_addrs_app. rewrite free_addrs_cons in I7 |- *. rewrite Hu in I7. cbn [b_used use]. fold a in I7.
        rewrite <- !Permutation_middle in I7. by apply Permutation_cons_inv in I7.
      + intros k' Hk'. rewrite Hal. cbn. destruct (decide (b_addr k' = a)) as [E|E].
        * rewrite E, lookup_insert_eq. assert (k' = use k) as ->.
          { rewrite Hbl in I4. eapply tiled_inj; [by eapply (tiled_swap _ l1 k (use k))|done|set_solver|done]. }
          by rewrite (hdr_of_use _ fl).
        * rewrite lookup_insert_ne by done. assert (Hk2 : k' ∈ bl).
          { rewrite Hbl. rewrite elem_of_app, elem_of_cons in Hk' |- *. destruct Hk' as [?|[->|?]]; [auto|done|auto]. }
          assert (Hl : m1 !! b_addr k' = Some (hdr_of (addrs bl) fl k')) by (unfold m1; rewrite lookup_insert_ne by done; by apply I8).
          unfold m2. rewrite (unlink_lookup m1 f1 f2 a fl); [by rewrite Hl|done|done|done|done| |].
          -- pose proof (hi_pos Hi _ (addr_in k' Hk2)). lia.
          -- intros h. rewrite Hl. by intros [= <-].
      + rewrite Hbl in I9. by eapply coalesced_used.
      + rewrite Hbl in I10. rewrite !Forall_app, !Forall_cons in I10 |- *. done. }
  exists s'. split; [|done]. change a with (b_addr (use k)).
  eapply calloc_end_run; [apply lookup_insert_eq|apply Hstep|set_solver].
Qed.
End calloc.

(** * A split *)

Section split.
Context {MB : Mbedtls} {s : astate} {hp : Z} {c : buffer_alloc_ctx} {bl : list blk} {fl : list Z}.
Context (Hc : ctxs s !! hp = Some c) (Hi : heap_inv c (hdrs s) bl fl).
Context (l1 l2 : list blk) (k : blk) (f1 f2 : list Z) (L : Z).
Context (Hbl : bl = l1 ++ k :: l2) (Hu : b_used k = false) (Hfl : fl = f1 ++ b_addr k :: f2).
Context (HL : 0 < L) (HL8 : L mod 8 = 0) (Hrest : L + sizeof_memory_header_s < b_size k).

Definition taken : blk := {| b_addr := b_addr k; b_size := L; b_used := true |}.
Definition rest : blk := {| b_addr := b_end taken; b_size := b_size k - L - sizeof_memory_header_s; b_used := false |}.
Definition bl_split : list blk := l1 ++ taken :: rest :: l2.
Definition fl_new : list Z := f1 ++ b_addr rest :: f2.

Lemma split_tiled : tiled (buf c) bl_split (buf c + len c).
Proof.
  pose proof (hi_tiled _ _ _ _ Hi) as Ht. rewrite Hbl in Ht. unfold bl_split. rewrite tiled_app in *.
  destruct Ht as (e & H1 & Ha & Hs & H2). exists e. split; [done|]. cbn [tiled b_addr b_size taken rest]. repeat split; [done|lia|lia|].
  replace (b_end rest) with (b_end k); [done|]. unfold b_end. cbn [b_addr b_size taken rest]. unfold b_end. cbn [b_addr b_size taken]. lia.
Qed.

Lemma split_addrs : addrs bl_split = addrs (l1 ++ [k]) ++ b_addr rest :: addrs l2 ∧ addrs bl = addrs (l1 ++ [k]) ++ addrs l2.
Proof. unfold bl_split. rewrite Hbl. unfold addrs. rewrite !fmap_app, <- !app_assoc. done. Qed.

Lemma split_fresh : b_addr rest ∉ addrs bl.
Proof.
  pose proof (tiled_NoDup _ _ _ split_tiled) as Hnd. destruct split_addrs as [E1 E2]. rewrite E1 in Hnd. rewrite E2.
  apply NoDup_app in Hnd as (_ & Hd & [Hn _]%NoDup_cons). rewrite not_elem_of_app. split; [|done]. intros Hin. apply (Hd _ Hin), list_elem_of_here.
Qed.

Lemma split_pos : 0 < b_addr rest.
Proof.
  assert (Hin : rest ∈ bl_split) by (unfold bl_split; set_solver). apply (tiled_in _ _ _ _ split_tiled) in Hin.
  pose proof (hi_buf _ _ _ _ Hi). lia.
Qed.

(** Another block stays, with its neighbours changed where it stood next to the split block. *)
Lemma split_next a : a ∈ addrs bl → a ≠ b_addr k → next_of (addrs bl_split) a = next_of (addrs bl) a.
Proof.
  intros Ha Hne. destruct split_addrs as [E1 E2]. pose proof (hi_pos Hi a Ha). rewrite E1, next_of_insert; [|by intros ->; apply split_fresh|lia|rewrite <- E2; apply (hi_nodup Hi)].
  rewrite addrs_app. cbn. rewrite last0_app. rewrite (proj2 (Z.eqb_neq _ _)) by done. by rewrite E2, addrs_app.
Qed.

Lemma split_prev a : a ∈ addrs bl → prev_of (addrs bl_split) a = if a =? hd0 (addrs l2) then b_addr rest else prev_of (addrs bl) a.
Proof.
  intros Ha. destruct split_addrs as [E1 E2]. pose proof (hi_pos Hi a Ha). rewrite E1, prev_of_insert; [|by intros ->; apply split_fresh|lia|rewrite <- E2; apply (hi_nodup Hi)].
  by rewrite E2.
Qed.

(** The headers behind a split. *)
Definition rest_hdr : memory_header_s :=
  {| magic1 := MAGIC1; size := b_size rest; alloc := 0; prev := b_addr k; next := next_of (addrs bl) (b_addr k);
     prev_free := prev_of fl (b_addr k); next_free := next_of fl (b_addr k); magic2 := MAGIC2 |}.
Definition split_mid : gmap Z memory_header_s :=
  upd (next_of (addrs bl) (b_addr k)) (set_prev (b_addr rest)) (<[b_addr rest := rest_hdr]> (hdrs s)).
Definition split_map : gmap Z memory_header_s :=
  <[b_addr k := set_next_free 0 (set_prev_free 0 (set_next (b_addr rest) (set_size L (set_alloc 1 (hdr_of (addrs bl) fl k)))))]>
    (upd (hd0 f2) (set_prev_free (b_addr rest)) (upd (last0 f1) (set_next_free (b_addr rest)) split_mid)).

Lemma split_free : fl_new ≡ₚ free_addrs bl_split.
Proof.
  pose proof (hi_fl _ _ _ _ Hi) as Hp. unfold fl_new, bl_split. rewrite Hfl, Hbl, !free_addrs_app, free_addrs_cons, Hu in Hp.
  rewrite free_addrs_app, !free_addrs_cons. cbn [b_used taken rest]. rewrite <- !Permutation_middle in *.
  apply Permutation_cons_inv in Hp. by rewrite Hp.
Qed.

Lemma fl_new_nodup : NoDup fl_new.
Proof.
  rewrite split_free. unfold free_addrs. apply (sublist_NoDup _ (addrs bl_split)); [apply (tiled_NoDup _ _ _ split_tiled)|].
  apply fmap_sublist, sublist_filter.
Qed.

Lemma fl_new_in a : a ∈ fl_new → a = b_addr rest ∨ a ∈ addrs bl.
Proof.
  unfold fl_new. rewrite elem_of_app, elem_of_cons. intros Ha. destruct (decide (a = b_addr rest)) as [|Hne]; [by left|right].
  apply free_addrs_sub. rewrite <- (hi_fl _ _ _ _ Hi), Hfl. set_solver.
Qed.

Lemma fl_new_nz : Forall (λ a, a ≠ 0) fl_new.
Proof. apply Forall_forall. intros a [->|Ha%(hi_pos Hi)]%fl_new_in; [pose proof split_pos|]; lia. Qed.

Lemma k_out : b_addr k ∉ fl_new.
Proof.
  assert (Hk : b_addr k ∈ addrs bl) by (apply list_elem_of_fmap; exists k; rewrite Hbl; set_solver).
  pose proof (hi_fl_nodup Hi) as Hnd. rewrite Hfl, <- Permutation_middle in Hnd. apply NoDup_cons in Hnd as [Hn _].
  unfold fl_new. rewrite <- Permutation_middle, not_elem_of_cons. split; [|done]. intros E. apply split_fresh. by rewrite <- E.
Qed.

(** Away from the neighbours in the list, the links are the old ones. *)
Lemma fl_new_links a : a ∈ addrs bl → a ≠ b_addr k →
  (a ≠ last0 f1 → next_of fl a = next_of fl_new a) ∧ (a ≠ hd0 f2 → prev_of fl a = prev_of fl_new a).
Proof.
  intros Ha Hne. pose proof (hi_pos Hi a Ha) as Hpos. assert (a ≠ b_addr rest) by (by intros ->; apply split_fresh).
  pose proof (nd_parts _ _ _ fl_new_nodup fl_new_nz) as (_ & _ & Hnd & _). rewrite Hfl. unfold fl_new.
  rewrite !next_of_insert, !prev_of_insert by (done || lia).
  split; intros Hx; by rewrite (proj2 (Z.eqb_neq _ _) Hx).
Qed.

Lemma split_mid_lookup a h : a ∈ addrs bl → hdrs s !! a = Some h →
  split_mid !! a = Some (if a =? next_of (addrs bl) (b_addr k) then set_prev (b_addr rest) h else h).
Proof.
  intros Ha Hh. pose proof (hi_pos Hi a Ha). unfold split_mid. rewrite upd_lookup by lia.
  rewrite lookup_insert_ne by (intros <-; by apply split_fresh). rewrite Hh. by destruct (_ =? _).
Qed.

Lemma k_in : k ∈ bl.
Proof. rewrite Hbl. set_solver. Qed.

Lemma k_next : next_of (addrs bl) (b_addr k) = hd0 (addrs l2) ∧ next_of (addrs bl_split) (b_addr k) = b_addr rest ∧
  prev_of (addrs bl_split) (b_addr k) = prev_of (addrs bl) (b_addr k).
Proof.
  pose proof (hi_nodup Hi) as Hnd. pose proof (tiled_NoDup _ _ _ split_tiled) as Hnd'. pose proof (addr_in k k_in) as Hin.
  destruct split_addrs as [E1 E2]. pose proof (hi_pos Hi _ Hin) as Hpos. split; [|split].
  - rewrite Hbl, addrs_app. apply next_of_mid. rewrite Hbl, addrs_app in Hnd. apply NoDup_app in Hnd as (_ & Hd & _).
    intros Hx. apply (Hd _ Hx), list_elem_of_here.
  - rewrite E1, next_of_insert; [|intros E; apply split_fresh; by rewrite <- E|lia|rewrite <- E2; done].
    rewrite addrs_app. cbn. by rewrite last0_app, Z.eqb_refl.
  - rewrite split_prev by done. rewrite (proj2 (Z.eqb_neq _ _)); [done|]. intros E. rewrite Hbl, addrs_app in Hnd.
    apply NoDup_app in Hnd as (_ & _ & [Hx _]%NoDup_cons). apply Hx. rewrite E. apply (hd0_in (addrs l2)). intros E0. rewrite E0 in E. cbn in E. lia.
Qed.

Lemma rest_hdr_eq : rest_hdr = hdr_of (addrs bl_split) fl_new rest.
Proof.
  pose proof (tiled_NoDup _ _ _ split_tiled) as Hnd'. destruct split_addrs as [E1 E2]. rewrite E1 in Hnd'.
  destruct (fl_links Hi f1 f2 _ Hfl) as (Hp & Hn & _). pose proof fl_new_nodup as Hf. unfold rest_hdr, hdr_of.
  rewrite (proj1 k_next), Hp, Hn. destruct (nd_parts _ _ _ fl_new_nodup fl_new_nz) as (N1 & N2 & _).
  apply NoDup_app in Hnd' as (_ & Hd & [Hx _]%NoDup_cons). rewrite E1. unfold fl_new. rewrite !prev_of_mid, !next_of_mid;
    [|done|intros Hy; apply (Hd _ Hy), list_elem_of_here|done|done]. rewrite addrs_app. cbn. by rewrite last0_app.
Qed.

Lemma split_hdr k' : k' ∈ bl_split → split_map !! b_addr k' = Some (hdr_of (addrs bl_split) fl_new k').
Proof.
  intros Hk'. pose proof (addr_in k k_in) as Hin. unfold split_map. destruct (decide (b_addr k' = b_addr k)) as [E|E].
  { assert (k' = taken) as -> by (eapply tiled_inj; [apply split_tiled|done|unfold bl_split; set_solver|done]).
    rewrite E, lookup_insert_eq. unfold hdr_of. cbn [b_addr taken b_size b_used]. destruct k_next as (_ & -> & ->).
    by rewrite (prev_of_notin fl_new), (next_of_notin fl_new) by apply k_out. }
  rewrite lookup_insert_ne by done. destruct (decide (b_addr k' = b_addr rest)) as [E2|E2].
  { assert (k' = rest) as -> by (eapply tiled_inj; [apply split_tiled|done|unfold bl_split; set_solver|done]).
    destruct (nd_parts _ _ _ fl_new_nodup fl_new_nz) as (N1 & N2 & _). rewrite upd_hd_frame, upd_last_frame by done.
    unfold split_mid. rewrite upd_lookup by (pose proof split_pos; lia). rewrite lookup_insert_eq.
    rewrite (proj1 k_next), (proj2 (Z.eqb_neq _ _)); [cbn; by rewrite rest_hdr_eq|].
    intros E0. pose proof (tiled_NoDup _ _ _ split_tiled) as Hnd. rewrite (proj1 split_addrs) in Hnd.
    apply NoDup_app in Hnd as (_ & _ & [Hx _]%NoDup_cons). apply Hx. rewrite E0. apply (hd0_in (addrs l2)). intros E1. rewrite E1 in E0.
    pose proof split_pos. change (hd0 []) with 0 in E0. lia. }
  assert (Hb : k' ∈ bl).
  { assert (k' ≠ taken) by (by intros ->). assert (k' ≠ rest) by (by intros ->). rewrite Hbl. unfold bl_split in Hk'. set_solver. }
  pose proof (addr_in k' Hb) as Ha. pose proof (hi_pos Hi _ Ha) as Hpos. pose proof (hi_hdr _ _ _ _ Hi k' Hb) as Hh.
  destruct (fl_new_links _ Ha E) as [F1 F2]. pose proof (split_mid_lookup _ _ Ha Hh) as Hm.
  rewrite (relink_lookup _ f1 f2 (b_addr rest) fl_new); [|done|done|lia| |apply fl_new_nodup|apply fl_new_nz].
  - rewrite Hm. cbn [fmap option_fmap option_map]. f_equal. unfold hdr_of. rewrite split_next, split_prev by done. rewrite (proj1 k_next).
    destruct (b_addr k' =? hd0 (addrs l2)); reflexivity.
  - intros h. rewrite Hm. intros [= <-]. destruct (_ =? _); cbn [next_free prev_free set_prev hdr_of]; done.
Qed.

Lemma split_inv : heap_inv (set_first_free (hd0 fl_new) c) split_map bl_split fl_new.
Proof.
  pose proof Hi as [I1 I2 I3 I4 I5 I6 I7 I8 I9 I10]. split; cbn [buf len first first_free set_first_free]; try done.
  - unfold bl_split. by destruct l1.
  - apply split_tiled.
  - apply split_free.
  - apply split_hdr.
  - rewrite Hbl in I9. pose proof (coalesced_used l1 k taken l2 I9 eq_refl) as Hu'. pose proof (coalesced_after _ _ _ I9 Hu) as Ha.
    apply coalesced_app in Hu' as [H1 H2]. apply (coalesced_app [taken] l2) in H2 as [_ H2]. unfold bl_split.
    apply coalesced_join; [done| |by destruct (last l1); cbn; rewrite ?orb_true_r].
    apply (coalesced_join [taken; rest]); [done|done|]. cbn. by destruct (head l2).
  - rewrite Hbl in I10. unfold bl_split. rewrite Forall_app, Forall_cons in I10. destruct I10 as (J1 & J2 & J3).
    rewrite Forall_app, !Forall_cons.
    split; [done|]. split; [done|]. split; [|done]. cbn [b_addr rest]. unfold b_end, sizeof_memory_header_s. cbn [b_addr b_size taken].
    clear - J2 HL8. Z.div_mod_to_equations. lia.
Qed.

Lemma split_frame a : a ∉ addrs bl → a ∉ addrs bl_split → split_map !! a = hdrs s !! a.
Proof.
  intros Ha Ha'. assert (a ≠ b_addr k) by (intros ->; apply Ha, addr_in, k_in).
  assert (a ≠ b_addr rest) by (intros ->; apply Ha', addr_in; unfold bl_split; set_solver).
  assert (a ∉ f1 ++ f2) as [Hb1 Hb2]%not_elem_of_app by (intros Hin; apply Ha, (fl_addrs Hi); rewrite Hfl; set_solver).
  unfold split_map, split_mid. rewrite lookup_insert_ne, upd_hd_frame, upd_last_frame, (proj1 k_next) by done.
  rewrite upd_hd_frame; [by rewrite lookup_insert_ne|]. intros Hin. apply Ha. rewrite (proj2 split_addrs). set_solver.
Qed.

Lemma split_mid_some a : a ∈ addrs bl → is_Some (split_mid !! a).
Proof.
  intros Ha. pose proof Ha as (k' & -> & Hk')%list_elem_of_fmap.
  rewrite (split_mid_lookup _ _ Ha (hi_hdr _ _ _ _ Hi k' Hk')). by eexists.
Qed.

Lemma split_mid_rest : split_mid !! b_addr rest = Some rest_hdr.
Proof.
  unfold split_mid. rewrite upd_lookup by (pose proof split_pos; lia). rewrite lookup_insert_eq, (proj2 (Z.eqb_neq _ _)); [done|].
  intros E. destruct (decide (addrs l2 = [])) as [E0|Hne].
  - rewrite (proj1 k_next), E0 in E. change (hd0 []) with 0 in E. pose proof split_pos. lia.
  - apply split_fresh. rewrite E, (proj1 k_next), (proj2 split_addrs). apply elem_of_app. right. by apply hd0_in.
Qed.
Lemma k_next_in : next_of (addrs bl) (b_addr k) ≠ 0 → next_of (addrs bl) (b_addr k) ∈ addrs bl.
Proof.
  rewrite (proj1 k_next). intros H0. rewrite (proj2 split_addrs). apply elem_of_app. right. apply hd0_in. by intros E; rewrite E in H0.
Qed.

(** The new header, linked into the list of all blocks. *)
Lemma split_new_run :
  (hwrite (b_addr rest) rest_hdr ≫= λ _,
   if negb (next_of (addrs bl) (b_addr k) =? 0) then hmod (next_of (addrs bl) (b_addr k)) (set_prev (b_addr rest)) else mret ()) s
  = Ok ((), set_hdrs split_mid s).
Proof.
  unfold hwrite. rewrite mmodify_bind. etransitivity; [apply when_hmod_run|done]. a_norm. intros (k' & -> & Hk')%k_next_in%list_elem_of_fmap.
  destruct (decide (b_addr k' = b_addr rest)) as [->|Hne]; [rewrite lookup_insert_eq; by eexists|].
  rewrite lookup_insert_ne by done. rewrite (hi_hdr _ _ _ _ Hi k' Hk'). by eexists.
Qed.

Lemma split_relink_run :
  relink_free hp (b_addr rest) (set_hdrs split_mid s)
  = Ok ((), set_hdrs (upd (hd0 f2) (set_prev_free (b_addr rest)) (upd (last0 f1) (set_next_free (b_addr rest)) split_mid))
              (set_ctxs (<[hp := set_first_free (hd0 fl_new) c]> (ctxs s)) s)).
Proof.
  destruct (fl_links Hi f1 f2 _ Hfl) as (Hp & Hn & _).
  eapply (relink_free_run (set_hdrs split_mid s) hp c f1 f2); [done|apply fl_new_nodup|apply fl_new_nz| |apply split_mid_rest|done|done|].
  - intros a Ha. apply split_mid_some, (fl_addrs Hi). rewrite Hfl. set_solver.
  - intros Hf. rewrite (hi_ff _ _ _ _ Hi), Hfl, hd0_app. by rewrite decide_False.
Qed.

Lemma split_sizes : is_u64 (b_addr k + sizeof_memory_header_s) ∧ is_u64 (b_addr k + sizeof_memory_header_s + L) ∧ is_u64 (b_size k - L) ∧
  is_u64 (b_size k - L - sizeof_memory_header_s).
Proof.
  pose proof (hi_pos Hi _ (addr_in k k_in)) as Hpos. pose proof (hi_range Hi k k_in) as Hrg. pose proof (hi_end _ _ _ _ Hi) as Hend.
  unfold is_u64, b_end, sizeof_memory_header_s in *. lia.
Qed.

Lemma split_k : (upd (hd0 f2) (set_prev_free (b_addr rest)) (upd (last0 f1) (set_next_free (b_addr rest)) split_mid)) !! b_addr k
  = Some (hdr_of (addrs bl) fl k).
Proof.
  pose proof k_out as Ho. unfold fl_new in Ho. rewrite not_elem_of_app, not_elem_of_cons in Ho. destruct Ho as (O1 & _ & O2).
  rewrite upd_hd_frame, upd_last_frame by done. pose proof (addr_in k k_in) as Hin. pose proof (hi_pos Hi _ Hin).
  rewrite (split_mid_lookup _ _ Hin (hi_hdr _ _ _ _ Hi k k_in)). rewrite (proj2 (Z.eqb_neq _ _)); [done|].
  intros E. pose proof (hi_nodup Hi) as Hnd. rewrite Hbl, addrs_app in Hnd. apply NoDup_app in Hnd as (_ & _ & [Hx _]%NoDup_cons).
  apply Hx. rewrite E, (proj1 k_next). apply (hd0_in (addrs l2)). intros E0. rewrite (proj1 k_next), E0 in E. change (hd0 []) with 0 in E. lia.
Qed.

Lemma calloc_split_run ol :
  ∃ s', calloc_split hp (b_addr k) L ol s
        = Ok (b_addr k + sizeof_memory_header_s, set_data (zero_bytes (b_addr k + sizeof_memory_header_s) ol (data s)) s') ∧
    data s' = data s ∧ heap_step s s' hp c bl bl_split fl_new.
Proof.
  destruct split_sizes as (S1 & S2 & S3 & S4). unfold calloc_split. run_step (hread_run s _ _ (hi_hdr _ _ _ _ Hi k k_in)).
  cbn [size next prev_free next_free hdr_of]. rewrite (u64_small _ S1), (u64_small _ S2), (u64_small _ S3), (u64_small _ S4).
  change (b_addr k + sizeof_memory_header_s + L) with (b_addr rest). change (b_size k - L - sizeof_memory_header_s) with (b_size rest).
  fold rest_hdr. rewrite <- bind_assoc. run_step split_new_run. run_step split_relink_run.
  erewrite bind_run by (apply hmod_run; apply split_k). cbv beta. a_norm.
  do 4 (erewrite bind_run by (apply hmod_run; apply lookup_insert_eq); cbv beta; a_norm; rewrite insert_insert_eq). fold split_map.
  set (s' := {| ctx_per_cpu := _; ctxs := _; hdrs := _; data := _ |}). exists s'.
  assert (Hstep : heap_step s s' hp c bl bl_split fl_new) by (split; [done|done|apply split_frame|apply split_inv]).
  split; [|done]. change (b_addr k) with (b_addr taken).
  eapply calloc_end_run; [apply lookup_insert_eq|apply Hstep|unfold bl_split; set_solver].
Qed.
End split.

(** * The operation *)

Definition up8 (x : Z) : Z := (x + 7) / 8 * 8.

Lemma calloc_len_up8 x : 0 <= x <= 2 ^ 64 - 8 → calloc_len x = up8 x ∧ up8 x mod 8 = 0 ∧ x <= up8 x < x + 8.
Proof.
  intros Hx. assert (Hm : 0 <= x mod 8 < 8) by (by apply Z.mod_pos_bound).
  assert (Hu : up8 x = if x mod 8 =? 0 then x else x - x mod 8 + 8).
  { unfold up8. destruct (Z.eqb_spec (x mod 8) 0); Z.div_mod_to_equations; lia. }
  split; [|unfold up8; split; [by apply Z.mod_mul|Z.div_mod_to_equations; lia]].
  unfold calloc_len. change MBEDTLS_MEMORY_ALIGN_MULTIPLE with 8. rewrite Hu. destruct (Z.eqb_spec (x mod 8) 0) as [E|E]; [done|]. cbn [negb].
  assert (x mod 8 <= x) by (apply Z.mod_le; lia). rewrite (u64_small (x - x mod 8)) by (unfold is_u64; lia). apply u64_small. unfold is_u64. lia.
Qed.

(** What the code's test for an overflow of the product means. *)
Lemma calloc_overflow n sz : is_u64 n → is_u64 sz → (n =? 0) || (sz =? 0) || negb (u64 (n * sz) / n =? sz) = false ↔ 0 < n * sz < 2 ^ 64.
Proof.
  unfold is_u64. intros Hn Hs. rewrite !orb_false_iff, !Z.eqb_neq, negb_false_iff, Z.eqb_eq. split.
  - intros [[H1 H2] H3]. split; [nia|]. assert (Hb : 0 <= u64 (n * sz) < 2 ^ 64) by (by apply Z.mod_pos_bound).
    pose proof (Z.mul_div_le (u64 (n * sz)) n ltac:(lia)) as Hd. rewrite H3 in Hd. lia.
  - intros H. rewrite u64_small by (unfold is_u64; lia). split; [nia|]. rewrite Z.mul_comm. apply Z.div_mul. nia.
Qed.

Lemma filter_none_all bl L f1 : Forall (λ a, size_at bl a < L) f1 → filter (λ a, L <= size_at bl a) f1 = [].
Proof.
  induction f1 as [|a f1 IH]; [done|]. intros [Ha Hf]%Forall_cons. rewrite filter_cons_False by lia. by apply IH.
Qed.

(** The first free block, in the order of the list, that is large enough. *)
Lemma first_fit bl fl L : Forall (λ x, x ≠ 0) fl →
  (hd0 (filter (λ a, L <= size_at bl a) fl) = 0 ∧ Forall (λ a, size_at bl a < L) fl) ∨
  ∃ f1 a f2, fl = f1 ++ a :: f2 ∧ a ≠ 0 ∧ hd0 (filter (λ a, L <= size_at bl a) fl) = a ∧ L <= size_at bl a ∧ Forall (λ a, size_at bl a < L) f1.
Proof.
  induction fl as [|a fl IH]; intros Hz; [by left|]. apply Forall_cons in Hz as [Ha Hz].
  destruct (decide (L <= size_at bl a)) as [Hl|Hl].
  - right. exists [], a, fl. rewrite filter_cons_True by done. done.
  - rewrite filter_cons_False by done. destruct (IH Hz) as [[E F]|(f1 & b & f2 & -> & Hb & E & H1 & H2)].
    + left. split; [done|]. constructor; [lia|done].
    + right. exists (a :: f1), b, f2. split; [done|]. split; [done|]. split; [done|]. split; [done|]. constructor; [lia|done].
Qed.

(** The blocks and the free list after [k], the block taken, has served a request of [L] bytes. *)
Definition take_blocks (l1 : list blk) (k : blk) (l2 : list blk) (L : Z) : list blk :=
  if b_size k - L <? sizeof_memory_header_s + 8 then l1 ++ use k :: l2 else bl_split l1 l2 k L.
Definition take_free (f1 : list Z) (k : blk) (f2 : list Z) (L : Z) : list Z :=
  if b_size k - L <? sizeof_memory_header_s + 8 then f1 ++ f2 else fl_new k f1 f2 L.

Section calloc_run.
Context {MB : Mbedtls} {s : astate} {hp : Z} {c : buffer_alloc_ctx} {bl : list blk} {fl : list Z}.
Context (Hc : ctxs s !! hp = Some c) (Hi : heap_inv c (hdrs s) bl fl) (n sz : Z) (Hn : is_u64 n) (Hs : is_u64 sz).

(** The guards and the search. *)
Lemma calloc_search :
  buffer_alloc_calloc_with_heap hp n sz s
  = if decide (0 < n * sz <= 2 ^ 64 - 8) then
      (let cur := hd0 (filter (λ a, up8 (n * sz) <= size_at bl a) fl) in
       if cur =? 0 then mret 0 else
       hread cur ≫= λ c, (if negb (alloc c =? 0) then massert false else mret ()) ≫= λ _,
       if (size c .- up8 (n * sz)) <? (sizeof_memory_header_s .+ MBEDTLS_MEMORY_ALIGN_MULTIPLE)
       then calloc_whole hp cur (n * sz) else calloc_split hp cur (up8 (n * sz)) (n * sz)) s
    else Ok (0, s).
Proof.
  pose proof (hi_buf _ _ _ _ Hi) as Hb. unfold buffer_alloc_calloc_with_heap. run_step (cread_run s hp c Hc).
  rewrite (hi_first _ _ _ _ Hi), (proj2 (Z.eqb_neq (buf c) 0)) by lia. cbn [orb].
  pose proof (calloc_overflow n sz Hn Hs) as Ho. destruct ((n =? 0) || _ || _).
  { destruct (decide _) as [H0|H0]; [|done]. assert (true = false) by (apply Ho; lia). done. }
  destruct Ho as [Ho _]. specialize (Ho eq_refl). rewrite (u64_small (n * sz)) by (unfold is_u64; lia).
  change (u64 (- MBEDTLS_MEMORY_ALIGN_MULTIPLE)) with (2 ^ 64 - 8). destruct (Z.ltb_spec (2 ^ 64 - 8) (n * sz)); [by rewrite decide_False by lia|].
  rewrite decide_True by lia. rewrite gets_bind. rewrite (proj1 (calloc_len_up8 (n * sz) ltac:(lia))), (hi_ff _ _ _ _ Hi).
  erewrite bind_run; [done|]. apply (find_fit_ok Hi _ fl []); [done|]. apply (hi_fuel Hi); [apply (hi_fl_nodup Hi)|apply (fl_addrs Hi)].
Qed.

Lemma calloc_none : ¬ (0 < n * sz <= 2 ^ 64 - 8) ∨ Forall (λ a, size_at bl a < up8 (n * sz)) fl →
  buffer_alloc_calloc_with_heap hp n sz s = Ok (0, s).
Proof.
  rewrite calloc_search. intros [H0|Hf]; [by rewrite decide_False|]. destruct (decide _); [|done].
  destruct (first_fit bl fl (up8 (n * sz)) (hi_nonzero_fl Hi)) as [[-> _]|(f1 & b & f2 & E & _ & _ & Hl & _)]; [done|].
  rewrite E, Forall_app, Forall_cons in Hf. lia.
Qed.

Lemma calloc_found l1 k l2 f1 f2 : 0 < n * sz <= 2 ^ 64 - 8 → bl = l1 ++ k :: l2 → fl = f1 ++ b_addr k :: f2 →
  Forall (λ a, size_at bl a < up8 (n * sz)) f1 → up8 (n * sz) <= b_size k →
  ∃ s', buffer_alloc_calloc_with_heap hp n sz s
        = Ok (b_addr k + sizeof_memory_header_s, set_data (zero_bytes (b_addr k + sizeof_memory_header_s) (n * sz) (data s)) s') ∧
    data s' = data s ∧ heap_step s s' hp c bl (take_blocks l1 k l2 (up8 (n * sz))) (take_free f1 k f2 (up8 (n * sz))).
Proof.
  intros H0 Hbl Hfl Hf Hl. rewrite calloc_search, decide_True by done. assert (Hk : k ∈ bl) by (rewrite Hbl; set_solver).
  destruct (calloc_len_up8 (n * sz) ltac:(lia)) as (_ & Hm & Hle). cbv zeta.
  assert (hd0 (filter (λ a, up8 (n * sz) <= size_at bl a) fl) = b_addr k) as ->.
  { rewrite Hfl, filter_app, filter_cons_True by (by rewrite (size_at_in Hi)). rewrite (filter_none_all bl _ f1); [done|exact Hf]. }
  pose proof (hi_pos Hi _ (addr_in k Hk)) as Hpos. rewrite (proj2 (Z.eqb_neq (b_addr k) 0)) by lia.
  run_step (hread_run s _ _ (hi_hdr _ _ _ _ Hi k Hk)). assert (Hu : b_used k = false).
  { destruct (b_used k) eqn:E; [|done]. destruct (hi_used_out Hi k Hk E). rewrite Hfl. set_solver. }
  cbn [alloc size hdr_of]. rewrite Hu. cbn [Z.eqb negb]. rewrite ret_bind. pose proof (hi_range Hi k Hk) as Hrg. pose proof (hi_end _ _ _ _ Hi).
  pose proof (hi_buf _ _ _ _ Hi).
  rewrite (u64_small (b_size k - _)) by (unfold is_u64, b_end, sizeof_memory_header_s in *; lia).
  change (sizeof_memory_header_s .+ MBEDTLS_MEMORY_ALIGN_MULTIPLE) with (sizeof_memory_header_s + 8). unfold take_blocks, take_free.
  destruct (Z.ltb_spec (b_size k - up8 (n * sz)) (sizeof_memory_header_s + 8)).
  - by apply (calloc_whole_run Hc Hi).
  - apply (calloc_split_run Hc Hi); try done; lia.
Qed.
End calloc_run.
