(* ===== verification/AllocFree.v ===== *)
(** Release: every branch of [buffer_alloc_free_with_heap] on a heap that satisfies the
    invariant. *)
From S2P Require Import Prelude Types Granule Platform GranuleFind AllocList Alloc AllocHeap AllocLinks AllocCalloc.

(** * Between the steps *)

(** What holds of the headers while a block is released: the lists are linked, whatever the
    blocks' states are. *)
Record lay (c : buffer_alloc_ctx) (m : gmap Z memory_header_s) (bl : list blk) (fl : list Z) : Prop := {
  ly_buf : 0 < buf c;
  ly_end : buf c + len c < 2 ^ 64;
  ly_tiled : tiled (buf c) bl (buf c + len c);
  ly_ff : first_free c = hd0 fl;
  ly_nodup : NoDup fl;
  ly_sub a : a ∈ fl → a ∈ addrs bl;
  ly_hdr k : k ∈ bl → m !! b_addr k = Some (hdr_of (addrs bl) fl k);
}.

Lemma heap_inv_lay c m bl fl : heap_inv c m bl fl → lay c m bl fl.
Proof.
  intros Hi. split; try apply Hi; [apply (hi_fl_nodup Hi)|apply (fl_addrs Hi)].
Qed.

(** The bytes of no header. *)
Definition outside (bl : list blk) (a : Z) : Prop := ∀ k, k ∈ bl → ¬ (b_addr k <= a < b_addr k + sizeof_memory_header_s).

Record lay_step (s s' : astate) (hp : Z) (c : buffer_alloc_ctx) (bl bl' : list blk) (fl' : list Z) : Prop := {
  ls_cpus : ctx_per_cpu s' = ctx_per_cpu s;
  ls_ctxs : ctxs s' = <[hp := set_first_free (hd0 fl') c]> (ctxs s);
  ls_sub a : a ∈ addrs bl' → a ∈ addrs bl;
  ls_frame a : a ∉ addrs bl → hdrs s' !! a = hdrs s !! a;
  ls_data a : outside bl a → data s' a = data s a;
  ls_lay : lay (set_first_free (hd0 fl') c) (hdrs s') bl' fl';
}.

Lemma lay_step_trans s1 s2 s3 hp c bl1 bl2 bl3 fl2 fl3 :
  lay_step s1 s2 hp c bl1 bl2 fl2 → lay_step s2 s3 hp (set_first_free (hd0 fl2) c) bl2 bl3 fl3 → lay_step s1 s3 hp c bl1 bl3 fl3.
Proof.
  intros [A1 A2 A3 A4 A5 A6] [B1 B2 B3 B4 B5 B6]. split.
  - congruence.
  - by rewrite B2, A2, insert_insert_eq.
  - auto.
  - intros a Ha. rewrite B4; [by apply A4|]. auto.
  - intros a Ha. rewrite B5; [by apply A5|]. intros k Hk Hr.
    assert (b_addr k ∈ addrs bl1) as (k' & E & Hk')%list_elem_of_fmap by (apply A3, addr_in, Hk). apply (Ha k' Hk'). by rewrite <- E.
  - exact B6.
Qed.

Lemma lay_same s hp c fl : ctxs s !! hp = Some c → first_free c = hd0 fl → <[hp := set_first_free (hd0 fl) c]> (ctxs s) = ctxs s.
Proof. intros Hc Hf. rewrite <- Hf, set_first_free_id. by apply insert_id. Qed.

Section lay.
Context {c : buffer_alloc_ctx} {m : gmap Z memory_header_s} {bl : list blk} {fl : list Z} (Hl : lay c m bl fl).

Lemma ly_al_nodup : NoDup (addrs bl).
Proof using Hl. eapply tiled_NoDup, Hl. Qed.

Lemma ly_pos a : a ∈ addrs bl → 0 < a < 2 ^ 64.
Proof using Hl.
  intros (k & -> & Hk)%list_elem_of_fmap. pose proof (tiled_in _ _ _ _ (ly_tiled _ _ _ _ Hl) Hk). pose proof (ly_buf _ _ _ _ Hl).
  pose proof (ly_end _ _ _ _ Hl). unfold b_end, sizeof_memory_header_s in *. lia.
Qed.

Lemma ly_fl_nz : Forall (λ a, a ≠ 0) fl.
Proof using Hl. apply Forall_forall. intros a Ha%(ly_sub _ _ _ _ Hl)%ly_pos. lia. Qed.

Lemma ly_some a : a ∈ addrs bl → is_Some (m !! a).
Proof using Hl. intros (k & -> & Hk)%list_elem_of_fmap. rewrite (ly_hdr _ _ _ _ Hl k Hk). by eexists. Qed.
End lay.

(** * The steps *)

Definition freed (k : blk) : blk := {| b_addr := b_addr k; b_size := b_size k; b_used := false |}.
Definition join (k1 k2 : blk) : blk := {| b_addr := b_addr k1; b_size := b_size k1 + sizeof_memory_header_s + b_size k2; b_used := b_used k1 |}.

(** [hdr->alloc = 0] *)
Lemma alloc0_run s hp c l1 k l2 fl : ctxs s !! hp = Some c → lay c (hdrs s) (l1 ++ k :: l2) fl →
  ∃ s', hmod (b_addr k) (set_alloc 0) s = Ok ((), s') ∧ data s' = data s ∧ lay_step s s' hp c (l1 ++ k :: l2) (l1 ++ freed k :: l2) fl.
Proof.
  intros Hc Hl. assert (Hk : k ∈ l1 ++ k :: l2) by set_solver. eexists. split; [apply hmod_run, (ly_hdr _ _ _ _ Hl k Hk)|]. split; [done|].
  assert (Hal : addrs (l1 ++ freed k :: l2) = addrs (l1 ++ k :: l2)) by (unfold addrs; by rewrite !fmap_app).
  pose proof Hl as [I1 I2 I3 I4 I5 I6 I7]. a_norm. split; a_norm; [done|by rewrite lay_same|by rewrite Hal| |done|].
  - intros a Ha. apply lookup_insert_ne. intros <-. apply Ha, addr_in, Hk.
  - rewrite <- I4, set_first_free_id. split; try done; [by eapply tiled_swap|by rewrite Hal|].
    intros k' Hk'. rewrite Hal. destruct (decide (b_addr k' = b_addr k)) as [E|E].
    + assert (k' = freed k) as -> by (eapply tiled_inj; [by eapply (tiled_swap _ l1 k (freed k))|done|set_solver|done]).
      cbn [b_addr freed]. by rewrite lookup_insert_eq.
    + rewrite lookup_insert_ne by done. apply I7. assert (k' ≠ freed k) by (by intros ->). set_solver.
Qed.

(** The block [x] behind [b] disappears into it: the lists of blocks. *)
Section joined.
Context {c : buffer_alloc_ctx} {m : gmap Z memory_header_s} {l1 l2 : list blk} {b x : blk} {fl : list Z}.
Context (Hl : lay c m (l1 ++ b :: x :: l2) fl).

Lemma join_addrs : addrs (l1 ++ b :: x :: l2) = addrs (l1 ++ [b]) ++ b_addr x :: addrs l2 ∧ addrs (l1 ++ join b x :: l2) = addrs (l1 ++ [b]) ++ addrs l2.
Proof using. unfold addrs. rewrite !fmap_app, <- !app_assoc. done. Qed.

Lemma join_last : last0 (addrs (l1 ++ [b])) = b_addr b.
Proof using. rewrite addrs_app. apply last0_app. Qed.

Lemma join_tiled : tiled (buf c) (l1 ++ join b x :: l2) (buf c + len c).
Proof using Hl.
  pose proof (ly_tiled _ _ _ _ Hl) as Ht. rewrite tiled_app in *. destruct Ht as (e & H1 & Hb & Hs & Hx & Hsx & H2).
  exists e. split; [done|]. cbn [tiled b_addr b_size join]. split; [done|]. split; [unfold sizeof_memory_header_s; lia|].
  replace (b_end (join b x)) with (b_end x); [done|]. unfold b_end in *. cbn [b_addr b_size join]. lia.
Qed.

Lemma join_in k : k ∈ l1 ++ join b x :: l2 → k = join b x ∨ k ∈ l1 ++ b :: x :: l2 ∧ b_addr k ≠ b_addr b ∧ b_addr k ≠ b_addr x.
Proof using Hl.
  intros Hk. destruct (decide (b_addr k = b_addr b)) as [E|E].
  { left. eapply tiled_inj; [apply join_tiled|done|set_solver|done]. }
  assert (k ≠ join b x) by (by intros ->). right. assert (Hin : k ∈ l1 ++ b :: x :: l2) by set_solver. split; [done|]. split; [done|].
  intros E2. pose proof (ly_al_nodup Hl) as Hnd. rewrite (proj1 join_addrs) in Hnd.
  assert (Hk2 : b_addr k ∈ addrs (l1 ++ [b]) ++ addrs l2) by (rewrite <- (proj2 join_addrs); by apply addr_in).
  rewrite <- Permutation_middle in Hnd. apply NoDup_cons in Hnd as [Hn _]. apply Hn. by rewrite <- E2.
Qed.

Lemma join_ne : b_addr b ≠ b_addr x ∧ b_addr b ≠ hd0 (addrs l2) ∧ b_addr x ≠ hd0 (addrs l2).
Proof using Hl.
  pose proof (ly_al_nodup Hl) as Hnd. rewrite addrs_app in Hnd. cbn [addrs fmap list_fmap] in Hnd. apply NoDup_app in Hnd as (_ & _ & Hnd).
  apply NoDup_cons in Hnd as [H1 [H2 _]%NoDup_cons]. apply not_elem_of_cons in H1 as [H1 H3].
  assert (0 < b_addr b ∧ 0 < b_addr x) by (split; apply (ly_pos Hl), addr_in; set_solver).
  split; [done|]. split; intros E; destruct (decide (addrs l2 = [])) as [E0|E0]; try (rewrite E, E0 in *; cbn in *; lia);
    [apply H3|apply H2]; rewrite E; by apply (hd0_in (addrs l2)).
Qed.

Lemma join_links a : a ∈ addrs (l1 ++ b :: x :: l2) → a ≠ b_addr x →
  next_of (addrs (l1 ++ join b x :: l2)) a = (if a =? b_addr b then hd0 (addrs l2) else next_of (addrs (l1 ++ b :: x :: l2)) a) ∧
  prev_of (addrs (l1 ++ join b x :: l2)) a = (if a =? hd0 (addrs l2) then b_addr b else prev_of (addrs (l1 ++ b :: x :: l2)) a).
Proof using Hl.
  intros Ha Hx. pose proof (ly_pos Hl a Ha). pose proof (ly_al_nodup Hl) as Hnd. destruct join_addrs as [E1 E2]. rewrite E1 in Hnd.
  pose proof (remove_links (addrs (l1 ++ [b])) (b_addr x) (addrs l2) a Hnd Hx ltac:(lia)) as Hr. rewrite join_last in Hr. by rewrite E1, E2.
Qed.
Lemma join_size : size (hdr_of (addrs (l1 ++ b :: x :: l2)) fl b) .+ (sizeof_memory_header_s .+ b_size x) = b_size (join b x).
Proof using Hl.
  assert (Hj : join b x ∈ l1 ++ join b x :: l2) by set_solver. apply (tiled_in _ _ _ _ join_tiled) in Hj.
  assert (Hx : x ∈ l1 ++ b :: x :: l2) by set_solver. apply (tiled_in _ _ _ _ (ly_tiled _ _ _ _ Hl)) in Hx.
  assert (Hb : b ∈ l1 ++ b :: x :: l2) by set_solver. apply (tiled_in _ _ _ _ (ly_tiled _ _ _ _ Hl)) in Hb.
  pose proof (ly_buf _ _ _ _ Hl). pose proof (ly_end _ _ _ _ Hl). unfold b_end in *. cbn [b_addr b_size join size hdr_of] in *.
  unfold sizeof_memory_header_s in *. rewrite (u64_small (64 + b_size x)) by (unfold is_u64; lia).
  rewrite u64_small by (unfold is_u64; lia). lia.
Qed.

(** The headers of the blocks that stay, but for the links of the list of free blocks. *)
Lemma join_hdr k' h h' fl' : k' ∈ l1 ++ join b x :: l2 → m !! b_addr k' = Some h →
  h' = (if b_addr k' =? hd0 (addrs l2) then set_prev (b_addr b) else id)
         (if b_addr k' =? b_addr b then set_next (hd0 (addrs l2)) (set_size (b_size (join b x)) h) else h) →
  lnk fl' (b_addr k') h' = hdr_of (addrs (l1 ++ join b x :: l2)) fl' k'.
Proof using Hl.
  intros Hk Hh ->. destruct join_ne as (N1 & N2 & N3). destruct (join_in k' Hk) as [->|(Hin & Hb & Hx)].
  - assert (Hb : b ∈ l1 ++ b :: x :: l2) by set_solver. cbn [b_addr join] in *. rewrite (ly_hdr _ _ _ _ Hl b Hb) in Hh. injection Hh as <-.
    destruct (join_links (b_addr b) (addr_in b Hb) N1) as [J1 J2]. rewrite Z.eqb_refl in *. rewrite (proj2 (Z.eqb_neq _ _) N2) in *.
    unfold hdr_of at 2. cbn [b_addr b_size b_used join]. rewrite J1, J2. done.
  - rewrite (ly_hdr _ _ _ _ Hl k' Hin) in Hh. injection Hh as <-. destruct (join_links _ (addr_in k' Hin) Hx) as [J1 J2].
    rewrite (proj2 (Z.eqb_neq _ _) Hb) in *. unfold hdr_of at 2. rewrite J1, J2. by destruct (b_addr k' =? hd0 (addrs l2)).
Qed.

Lemma join_old_next : next_of (addrs (l1 ++ b :: x :: l2)) (b_addr b) = b_addr x ∧ next_of (addrs (l1 ++ b :: x :: l2)) (b_addr x) = hd0 (addrs l2) ∧
  prev_of (addrs (l1 ++ b :: x :: l2)) (b_addr x) = b_addr b.
Proof using Hl.
  pose proof (ly_al_nodup Hl) as Hnd. split; [|split].
  - rewrite addrs_app in Hnd |- *. apply NoDup_app in Hnd as (_ & Hd & _). apply (next_of_mid _ _ (b_addr x :: addrs l2)).
    intros Hin. apply (Hd _ Hin), list_elem_of_here.
  - rewrite (proj1 join_addrs) in Hnd |- *. apply NoDup_app in Hnd as (_ & Hd & _). apply next_of_mid.
    intros Hin. apply (Hd _ Hin), list_elem_of_here.
  - rewrite (proj1 join_addrs) in Hnd |- *. rewrite prev_of_mid; [apply join_last|]. by apply NoDup_app in Hnd as (_ & _ & [? _]%NoDup_cons).
Qed.
End joined.

Lemma lay_intro c m bl bl' fl fl' m' : lay c m bl fl → tiled (buf c) bl' (buf c + len c) → NoDup fl' → (∀ a, a ∈ fl' → a ∈ addrs bl') →
  (∀ k, k ∈ bl' → m' !! b_addr k = Some (hdr_of (addrs bl') fl' k)) → lay (set_first_free (hd0 fl') c) m' bl' fl'.
Proof. intros [I1 I2 I3 I4 I5 I6 I7] H1 H2 H3 H4. by split. Qed.

Lemma memset_header_run p s : memset_header p s = Ok ((), set_data (zero_bytes p sizeof_memory_header_s (data s)) (set_hdrs (delete p (hdrs s)) s)).
Proof. done. Qed.

(** The header of a block that is no more is data, and zero. *)
Lemma zero_header_outside bl k f a : k ∈ bl → outside bl a → zero_bytes (b_addr k) sizeof_memory_header_s f a = f a.
Proof.
  intros Hk Ho. specialize (Ho k Hk). unfold zero_bytes. destruct (Z.leb_spec (b_addr k) a), (Z.ltb_spec a (b_addr k + sizeof_memory_header_s)); cbn; try done. lia.
Qed.

(** Regrouping with the block before. *)
Lemma merge_before_run s hp c l1 b k l2 fl : ctxs s !! hp = Some c → lay c (hdrs s) (l1 ++ b :: k :: l2) fl → b_used b = false → b_addr k ∉ fl →
  ∃ s', merge_before (b_addr k) s = Ok ((b_addr b, true), s') ∧ lay_step s s' hp c (l1 ++ b :: k :: l2) (l1 ++ join b k :: l2) fl.
Proof.
  intros Hc Hl Hu Hout. set (bl := l1 ++ b :: k :: l2) in *. assert (Hb : b ∈ bl) by (unfold bl; set_solver). assert (Hk : k ∈ bl) by (unfold bl; set_solver).
  destruct (join_ne Hl) as (N1 & N2 & N3). destruct (join_old_next Hl) as (_ & O2 & O3).
  pose proof (ly_pos Hl _ (addr_in b Hb)) as Pb. pose proof (ly_pos Hl _ (addr_in k Hk)) as Pk. unfold merge_before.
  run_step (hread_run s _ _ (ly_hdr _ _ _ _ Hl k Hk)). cbn [prev hdr_of]. fold bl in O2, O3. rewrite O3, (proj2 (Z.eqb_neq (b_addr b) 0)) by lia.
  run_step (hread_run s _ _ (ly_hdr _ _ _ _ Hl b Hb)). cbn [alloc hdr_of]. rewrite Hu. cbn [Z.eqb negb].
  pose proof (join_size Hl) as Es. fold bl in Es. change (size (hdr_of (addrs bl) fl k)) with (b_size k). rewrite Es.
  run_step (hmod_run s _ (set_size (b_size (join b k))) _ (ly_hdr _ _ _ _ Hl b Hb)). a_norm.
  erewrite bind_run by (apply hmod_run; apply lookup_insert_eq). cbv beta. a_norm. rewrite insert_insert_eq. cbn [next hdr_of]. rewrite O2.
  erewrite bind_run by (apply hread_run; apply lookup_insert_eq). cbv beta. cbn [next set_next].
  erewrite bind_run; [|apply when_hmod_run]. 2: { intros H0. a_norm. rewrite lookup_insert_ne by done. apply (ly_some Hl).
    unfold bl. rewrite (proj1 join_addrs). apply elem_of_app. right. right. apply (hd0_in (addrs l2)). intros E. by rewrite E in H0. }
  cbv beta. a_norm. run_step (memset_header_run (b_addr k) _). a_norm. eexists. split; [done|].
  split; a_norm; [done|rewrite lay_same; [done|done|apply Hl]| | |intros a; by apply zero_header_outside|].
  - intros a. unfold bl. rewrite (proj1 join_addrs), (proj2 join_addrs). set_solver.
  - intros a Ha. assert (a ≠ b_addr k) by (intros ->; by apply Ha, addr_in). assert (a ≠ b_addr b) by (intros ->; by apply Ha, addr_in).
    rewrite lookup_delete_ne by done. rewrite upd_hd_frame; [by rewrite lookup_insert_ne|]. intros Hin. apply Ha. unfold bl. rewrite (proj1 join_addrs). set_solver.
  - eapply lay_intro; [exact Hl|apply (join_tiled Hl)|apply Hl| |].
    + intros a Ha. rewrite (proj2 join_addrs). pose proof (ly_sub _ _ _ _ Hl a Ha) as Hin. unfold bl in Hin. rewrite (proj1 join_addrs) in Hin.
      assert (a ≠ b_addr k) by (by intros ->). set_solver.
    + intros k' Hk'. assert (b_addr k' ≠ b_addr k) as Hne by (destruct (join_in Hl k' Hk') as [->|(_ & _ & ?)]; done).
      rewrite lookup_delete_ne by done. assert (Hin : b_addr k' ∈ addrs bl) by (unfold bl; rewrite (proj1 join_addrs); apply addr_in in Hk';
        rewrite (proj2 join_addrs) in Hk'; set_solver). pose proof (ly_pos Hl _ Hin). apply list_elem_of_fmap in Hin as (k0 & E & Hk0).
      pose proof (ly_hdr _ _ _ _ Hl k0 Hk0) as Hh. rewrite <- E in Hh.
      rewrite <- (join_hdr Hl k' _ _ fl Hk' Hh eq_refl). rewrite upd_lookup by lia. destruct (Z.eqb_spec (b_addr k') (b_addr b)) as [E2|E2].
      * assert (k0 = b) as -> by (eapply tiled_inj; [apply Hl|done|done|congruence]). rewrite E2, lookup_insert_eq, (proj2 (Z.eqb_neq _ _) N2). done.
      * rewrite lookup_insert_ne by done. rewrite Hh. rewrite E. by destruct (b_addr k0 =? hd0 (addrs l2)).
Qed.

(** * The list of free blocks, when the block after is taken over *)

Definition without (a : Z) (fl : list Z) : list Z := filter (λ b, b ≠ a) fl.

Lemma without_notin a fl : a ∉ fl → without a fl = fl.
Proof.
  induction fl as [|b fl IH]; [done|]. rewrite not_elem_of_cons. intros [Hb Hf]. unfold without. rewrite filter_cons_True by done. f_equal. by apply IH.
Qed.

Lemma without_mid a g1 g2 : NoDup (g1 ++ a :: g2) → without a (g1 ++ a :: g2) = g1 ++ g2.
Proof.
  intros Hnd. rewrite <- Permutation_middle in Hnd. apply NoDup_cons in Hnd as [Ha _]. unfold without.
  rewrite filter_app, filter_cons_False by (intros H; by apply H). rewrite <- filter_app. by apply without_notin.
Qed.

Lemma unlink_maybe_run s hp c fl a h y : ctxs s !! hp = Some c → first_free c = hd0 fl → NoDup fl → Forall (λ b, b ≠ 0) fl →
  (∀ b, b ∈ fl → is_Some (hdrs s !! b)) → y ∈ fl → y ≠ a → a ≠ 0 → hdrs s !! a = Some h → lnk fl a h = h →
  ∃ m', (if negb (prev_free h =? 0) || negb (next_free h =? 0) then unlink_free hp a else mret ()) s
        = Ok ((), set_hdrs m' (set_ctxs (<[hp := set_first_free (hd0 (without a fl)) c]> (ctxs s)) s)) ∧
    m' !! a = Some h ∧ (∀ b, b ∉ fl → m' !! b = hdrs s !! b) ∧
    ∀ b h', b ≠ a → b ≠ 0 → hdrs s !! b = Some h' → lnk fl b h' = h' → m' !! b = Some (lnk (without a fl) b h').
Proof.
  intros Hc Hff Hnd Hz Hs Hy Hya Ha Hh Hlk.
  assert (Ep : prev_free h = prev_of fl a) by (by rewrite <- Hlk). assert (En : next_free h = next_of fl a) by (by rewrite <- Hlk).
  destruct (decide (a ∈ fl)) as [(g1 & g2 & Hfl)%list_elem_of_split|Hout].
  - rewrite Hfl in *. pose proof (nd_parts _ _ _ Hnd Hz) as (H1 & H2 & Hnd' & Z1 & _). rewrite without_mid by done.
    rewrite prev_of_mid in Ep by done. rewrite next_of_mid in En by done.
    assert (negb (prev_free h =? 0) || negb (next_free h =? 0) = true) as ->.
    { rewrite Ep, En. destruct (Z.eqb_spec (last0 g1) 0) as [E1%last0_zero|]; [|done|done]. subst g1. cbn [app negb orb] in *.
      destruct g2 as [|z g2]; [set_solver|]. apply Forall_cons in Hz as [_ [Hz _]%Forall_cons]. cbn. by rewrite (proj2 (Z.eqb_neq z 0)). }
    exists (upd (hd0 g2) (set_prev_free (last0 g1)) (upd (last0 g1) (set_next_free (hd0 g2)) (hdrs s))). split; [|split; [|split]].
    + eapply unlink_free_run; try done. intros b Hb. apply Hs. set_solver.
    + by rewrite upd_hd_frame, upd_last_frame.
    + intros b Hb. rewrite upd_hd_frame, upd_last_frame by set_solver. done.
    + intros b h' Hb Hb0 Hh' Hlk'. rewrite (unlink_lookup _ g1 g2 a (g1 ++ a :: g2)) by (try done; rewrite Hh'; by intros ? [= <-]). by rewrite Hh'.
  - rewrite without_notin by done. rewrite Ep, En, prev_of_notin, next_of_notin by done. exists (hdrs s). split; [|split; [done|split; [done|]]].
    + cbn [Z.eqb negb orb]. rewrite <- Hff, set_first_free_id, insert_id by done. by destruct s.
    + intros b h' _ _ -> Hlk'. by rewrite Hlk'.
Qed.

Lemma hd0_next_some (l : list Z) (P : Z → Prop) : hd0 l ≠ 0 → (∀ b, b ∈ l → b ≠ 0 → P b) → P (hd0 l).
Proof. intros H0 HP. apply HP; [|done]. apply hd0_in. by intros ->. Qed.

Section after.
Context {s : astate} {hp : Z} {c : buffer_alloc_ctx} {l1 l2 : list blk} {k x : blk} {fl f1 f2 : list Z}.
Context (Hc : ctxs s !! hp = Some c) (Hl : lay c (hdrs s) (l1 ++ k :: x :: l2) fl) (Hu : b_used x = false).
Context (Hw : without (b_addr k) fl = f1 ++ b_addr x :: f2).
Abbreviation bl := (l1 ++ k :: x :: l2) (only parsing).
Abbreviation fl1 := (f1 ++ b_addr x :: f2) (only parsing).
Abbreviation fl' := (f1 ++ b_addr k :: f2) (only parsing).

Lemma after_in : k ∈ bl ∧ x ∈ bl.
Proof. set_solver. Qed.

Lemma after_fl : NoDup fl1 ∧ (b_addr k ∉ fl1) ∧ NoDup fl' ∧ Forall (λ a, a ≠ 0) fl' ∧ b_addr x ∈ fl ∧ (∀ a, a ∈ f1 ++ f2 → a ∈ fl ∧ a ≠ b_addr x).
Proof.
  assert (Hnd : NoDup fl1) by (rewrite <- Hw; apply NoDup_filter, Hl).
  assert (Hk : b_addr k ∉ fl1) by (rewrite <- Hw; unfold without; rewrite list_elem_of_filter; naive_solver).
  assert (Hin : ∀ a, a ∈ fl1 → a ∈ fl) by (intros a; rewrite <- Hw; unfold without; rewrite list_elem_of_filter; naive_solver).
  pose proof Hnd as Hnd'. rewrite <- Permutation_middle in Hnd'. apply NoDup_cons in Hnd' as [Hx Hnd'].
  split; [done|]. split; [done|]. split; [rewrite <- Permutation_middle; apply NoDup_cons; split; [set_solver|done]|]. split; [|split].
  - apply Forall_forall. intros a Ha. assert (a = b_addr k ∨ a ∈ fl) as [->|Ha'] by (destruct (decide (a = b_addr k)); [by left|right; apply Hin; set_solver]).
    + pose proof (ly_pos Hl _ (addr_in k (proj1 after_in))). lia.
    + pose proof (ly_pos Hl _ (ly_sub _ _ _ _ Hl a Ha')). lia.
  - apply Hin. set_solver.
  - intros a Ha. split; [apply Hin; set_solver|by intros ->].
Qed.

Lemma after_links b : b ≠ b_addr k → b ≠ b_addr x → b ≠ 0 →
  (b ≠ last0 f1 → next_of fl1 b = next_of fl' b) ∧ (b ≠ hd0 f2 → prev_of fl1 b = prev_of fl' b).
Proof.
  intros Hk Hx H0. destruct after_fl as (Hnd & _). rewrite <- Permutation_middle in Hnd. apply NoDup_cons in Hnd as [_ Hnd].
  rewrite !next_of_insert, !prev_of_insert by done. split; intros Hb; by rewrite (proj2 (Z.eqb_neq _ _) Hb).
Qed.

(** The steps up to the point where the list of free blocks is rebuilt. *)
Definition after_h : memory_header_s := set_next (hd0 (addrs l2)) (set_size (b_size (join k x)) (hdr_of (addrs bl) fl k)).

Lemma after_unlink : ∃ m',
  (if negb (prev_free after_h =? 0) || negb (next_free after_h =? 0) then unlink_free hp (b_addr k) else mret ())
    (set_hdrs (<[b_addr k := after_h]> (hdrs s)) s)
  = Ok ((), set_hdrs m' (set_ctxs (<[hp := set_first_free (hd0 fl1) c]> (ctxs s)) s)) ∧
  m' !! b_addr k = Some after_h ∧ (∀ b, b ∉ addrs bl → m' !! b = hdrs s !! b) ∧
  ∀ k0, k0 ∈ bl → b_addr k0 ≠ b_addr k → m' !! b_addr k0 = Some (hdr_of (addrs bl) fl1 k0).
Proof.
  destruct after_fl as (_ & _ & _ & _ & Hx & _). destruct after_in as [Ik Ix]. destruct (join_ne Hl) as (N1 & _).
  pose proof (ly_pos Hl _ (addr_in k Ik)) as Pk. set (s1 := set_hdrs _ s).
  destruct (unlink_maybe_run s1 hp c fl (b_addr k) after_h (b_addr x)) as (m' & E & M1 & M2 & M3); try done; try apply Hl; try lia.
  - apply (ly_fl_nz Hl).
  - intros b Hb. cbn. destruct (decide (b = b_addr k)) as [->|Hne]; [rewrite lookup_insert_eq; by eexists|].
    rewrite lookup_insert_ne by done. by apply (ly_some Hl), Hl.
  - apply lookup_insert_eq.
  - rewrite Hw in *. exists m'. split; [exact E|]. split; [done|]. split.
    + intros b Hb. rewrite M2 by (intros Hf; by apply Hb, Hl). apply lookup_insert_ne. intros <-. by apply Hb, addr_in.
    + intros k0 Hk0 Hne. pose proof (ly_pos Hl _ (addr_in k0 Hk0)). rewrite <- (lnk_hdr _ fl). apply M3; [done|lia| |done]. cbn. rewrite lookup_insert_ne by done.
      by apply Hl.
Qed.
Definition after_k : memory_header_s := set_next_free (hd0 f2) (set_prev_free (last0 f1) after_h).

(** The headers at the end. *)
Definition after_map (m' : gmap Z memory_header_s) : gmap Z memory_header_s :=
  delete (b_addr x) (upd (hd0 (addrs l2)) (set_prev (b_addr k))
    (upd (hd0 f2) (set_prev_free (b_addr k)) (upd (last0 f1) (set_next_free (b_addr k)) (<[b_addr k := after_k]> m')))).

Section after_map.
Context (m' : gmap Z memory_header_s) (M1 : m' !! b_addr k = Some after_h) (M2 : ∀ b, b ∉ addrs bl → m' !! b = hdrs s !! b).
Context (M3 : ∀ k0, k0 ∈ bl → b_addr k0 ≠ b_addr k → m' !! b_addr k0 = Some (hdr_of (addrs bl) fl1 k0)).

Lemma after_hdr k' : k' ∈ l1 ++ join k x :: l2 → after_map m' !! b_addr k' = Some (hdr_of (addrs (l1 ++ join k x :: l2)) fl' k').
Proof.
  intros Hk'. destruct (join_ne Hl) as (N1 & N2 & N3). destruct after_in as [Ik Ix]. destruct after_fl as (_ & Hk & Hnd & Hnz & _).
  pose proof (ly_pos Hl _ (addr_in k Ik)) as Pk. assert ((b_addr k ∉ f1) ∧ (b_addr k ∉ f2)) as [O1 O2] by set_solver.
  unfold after_map. destruct (join_in Hl k' Hk') as [->|(Hin & Hb & Hx)].
  - cbn [b_addr join]. rewrite lookup_delete_ne, upd_lookup, upd_hd_frame, upd_last_frame, lookup_insert_eq by (done || lia).
    rewrite <- (join_hdr Hl (join k x) _ _ fl' Hk' (ly_hdr _ _ _ _ Hl k Ik) eq_refl). cbn [b_addr join]. rewrite Z.eqb_refl, (proj2 (Z.eqb_neq _ _) N2).
    unfold lnk. rewrite prev_of_mid, next_of_mid by done. done.
  - pose proof (ly_pos Hl _ (addr_in k' Hin)) as Pk'. rewrite lookup_delete_ne, upd_lookup by (done || lia).
    pose proof (M3 k' Hin Hb) as Hm. destruct (after_links (b_addr k')) as [L1 L2]; try done; try lia.
    rewrite (relink_lookup _ f1 f2 (b_addr k) fl'); [|done|done|lia| |done|done].
    + rewrite lookup_insert_ne, Hm by done. cbn [fmap option_fmap option_map]. f_equal.
      rewrite <- (join_hdr Hl k' _ _ fl' Hk' (ly_hdr _ _ _ _ Hl k' Hin) eq_refl). rewrite (proj2 (Z.eqb_neq _ _) Hb).
      destruct (b_addr k' =? hd0 (addrs l2)); reflexivity.
    + intros h. rewrite lookup_insert_ne, Hm by done. intros [= <-]. done.
Qed.

Lemma after_frame b : b ∉ addrs bl → after_map m' !! b = hdrs s !! b.
Proof.
  intros Hb. destruct after_in as [Ik Ix]. destruct after_fl as (_ & _ & _ & _ & _ & Hf). unfold after_map.
  assert (b ≠ b_addr k) by (intros ->; by apply Hb, addr_in). assert (b ≠ b_addr x) by (intros ->; by apply Hb, addr_in).
  assert (b ∉ f1 ++ f2) as [F1 F2]%not_elem_of_app by (intros Hin; by apply Hb, (ly_sub _ _ _ _ Hl), Hf).
  rewrite lookup_delete_ne, upd_hd_frame, upd_hd_frame, upd_last_frame, lookup_insert_ne by (try done;
    intros Hin; apply Hb; rewrite (proj1 join_addrs); set_solver). by apply M2.
Qed.
Lemma after_some b : b ∈ addrs bl → is_Some ((<[b_addr k := after_k]> m') !! b).
Proof.
  intros (k0 & -> & Hk0)%list_elem_of_fmap. destruct (decide (b_addr k0 = b_addr k)) as [->|Hne]; [rewrite lookup_insert_eq; by eexists|].
  rewrite lookup_insert_ne, (M3 k0 Hk0) by done. by eexists.
Qed.

Lemma after_relink :
  let s2 := {| ctx_per_cpu := ctx_per_cpu s; ctxs := <[hp := set_first_free (hd0 fl1) c]> (ctxs s); hdrs := <[b_addr k := after_k]> m'; data := data s |} in
  relink_free hp (b_addr k) s2
  = Ok ((), {| ctx_per_cpu := ctx_per_cpu s; ctxs := <[hp := set_first_free (hd0 fl') c]> (ctxs s);
               hdrs := upd (hd0 f2) (set_prev_free (b_addr k)) (upd (last0 f1) (set_next_free (b_addr k)) (<[b_addr k := after_k]> m')); data := data s |}).
Proof.
  destruct after_fl as (_ & Hk & Hnd & Hnz & _ & Hf). intros s2.
  rewrite (relink_free_run s2 hp (set_first_free (hd0 fl1) c) f1 f2 (b_addr k) after_k); try done; try apply lookup_insert_eq.
  - unfold s2. a_norm. by rewrite insert_insert_eq.
  - intros a Ha. cbn. rewrite lookup_insert_ne by set_solver. destruct (Hf a Ha) as [Hin Hne]. apply (ly_sub _ _ _ _ Hl) in Hin.
    apply list_elem_of_fmap in Hin as (k0 & -> & Hk0). rewrite (M3 k0 Hk0); [by eexists|]. intros E. apply Hk. rewrite <- E. set_solver.
  - intros Hf1. cbn. rewrite hd0_app. by rewrite decide_False.
Qed.
End after_map.

(** Regrouping with the block after. *)
Lemma merge_after_run : ∃ s', merge_after hp (b_addr k) s = Ok (true, s') ∧ lay_step s s' hp c bl (l1 ++ join k x :: l2) fl'.
Proof.
  destruct after_in as [Ik Ix]. destruct (join_ne Hl) as (N1 & N2 & N3). destruct (join_old_next Hl) as (O1 & O2 & _).
  destruct after_fl as (Hnd1 & Hk & Hnd & Hnz & _ & Hf). destruct after_unlink as (m' & U & M1 & M2 & M3).
  pose proof (ly_pos Hl _ (addr_in x Ix)) as Px. assert ((b_addr k ∉ f1) ∧ (b_addr k ∉ f2)) as [F1 F2] by set_solver.
  unfold merge_after. run_step (hread_run s _ _ (ly_hdr _ _ _ _ Hl k Ik)). cbn [next hdr_of]. rewrite O1, (proj2 (Z.eqb_neq (b_addr x) 0)) by lia.
  run_step (hread_run s _ _ (ly_hdr _ _ _ _ Hl x Ix)). cbn [alloc hdr_of]. rewrite Hu. cbn [Z.eqb negb].
  change (size (hdr_of _ fl x)) with (b_size x). rewrite (join_size Hl).
  run_step (hmod_run s _ (set_size (b_size (join k x))) _ (ly_hdr _ _ _ _ Hl k Ik)). a_norm.
  erewrite bind_run by (apply hmod_run; apply lookup_insert_eq). cbv beta. a_norm. rewrite insert_insert_eq. cbn [next hdr_of]. rewrite O2. fold after_h.
  erewrite bind_run by (apply hread_run; apply lookup_insert_eq). cbv beta. run_step U.
  erewrite bind_run by (apply hread_run; cbn; apply (M3 x Ix); congruence). cbv beta. cbn [prev_free next_free hdr_of].
  rewrite (prev_of_mid f1 (b_addr x) f2), (next_of_mid f1 (b_addr x) f2)
    by (rewrite <- Permutation_middle in Hnd1; apply NoDup_cons in Hnd1 as [? _]; set_solver).
  erewrite bind_run by (apply hmod_run; exact M1). cbv beta. a_norm.
  erewrite bind_run by (apply hmod_run; apply lookup_insert_eq). cbv beta. a_norm. rewrite insert_insert_eq. fold after_k.
  run_step (after_relink m' M1 M2 M3). erewrite bind_run by (apply hread_run; cbn; rewrite upd_hd_frame, upd_last_frame by done; apply lookup_insert_eq). cbv beta.
  cbn [next after_k after_h set_next_free set_prev_free set_next].
  erewrite bind_run; [|apply when_hmod_run]. 2: { intros H0. apply hd0_next_some; [done|]. intros b Hb Hne. cbn. rewrite upd_lookup, upd_lookup by done.
    destruct (after_some m' M3 b) as [h ->]; [|by eexists]. rewrite (proj1 join_addrs). set_solver. }
  cbv beta. a_norm. run_step (memset_header_run (b_addr x) _). a_norm. eexists. split; [done|].
  split; a_norm; [done|done| |by apply (after_frame m' M1 M2 M3)|intros a; by apply zero_header_outside|].
  - intros a. rewrite (proj1 join_addrs), (proj2 join_addrs). set_solver.
  - eapply lay_intro; [exact Hl|apply (join_tiled Hl)|done| |by apply (after_hdr m' M1 M2 M3)].
    intros a Ha. rewrite (proj2 join_addrs). destruct (decide (a = b_addr k)) as [->|Hne]; [rewrite addrs_app; set_solver|].
    destruct (Hf a) as [Hin Hx]; [set_solver|]. apply (ly_sub _ _ _ _ Hl) in Hin. rewrite (proj1 join_addrs) in Hin. set_solver.
Qed.
End after.
