(* ===== verification/AllocRelease.v ===== *)
(** The release of a block as a whole: [buffer_alloc_free_with_heap] keeps the invariant. *)
From S2P Require Import Prelude Types Granule Platform GranuleFind AllocList Alloc AllocHeap AllocLinks AllocCalloc AllocFree.

(** * No neighbour to regroup with, and the head of the list *)

Section alone.
Context {s : astate} {hp : Z} {c : buffer_alloc_ctx} {l1 l2 : list blk} {k : blk} {fl : list Z}.
Context (Hc : ctxs s !! hp = Some c) (Hl : lay c (hdrs s) (l1 ++ k :: l2) fl).

Lemma alone_links : prev_of (addrs (l1 ++ k :: l2)) (b_addr k) = last0 (addrs l1) ∧ next_of (addrs (l1 ++ k :: l2)) (b_addr k) = hd0 (addrs l2).
Proof.
  pose proof (ly_al_nodup Hl) as Hnd. rewrite addrs_app in Hnd |- *. apply NoDup_app in Hnd as (_ & Hd & [Hn _]%NoDup_cons). split.
  - by apply prev_of_mid.
  - apply next_of_mid. intros Hin. apply (Hd _ Hin), list_elem_of_here.
Qed.

Lemma merge_before_none : match last l1 with Some b => b_used b = true | None => True end → merge_before (b_addr k) s = Ok ((b_addr k, false), s).
Proof.
  intros Hu. assert (Hk : k ∈ l1 ++ k :: l2) by set_solver. unfold merge_before. run_step (hread_run s _ _ (ly_hdr _ _ _ _ Hl k Hk)).
  cbn [prev hdr_of]. rewrite (proj1 alone_links). destruct (Z.eqb_spec (last0 (addrs l1)) 0) as [E|E]; [done|].
  destruct l1 as [|b l0 _] using rev_ind; [done|]. rewrite last_snoc in Hu. rewrite addrs_app. change (addrs [b]) with [b_addr b]. rewrite last0_app.
  assert (Hb : b ∈ (l0 ++ [b]) ++ k :: l2) by set_solver. run_step (hread_run s _ _ (ly_hdr _ _ _ _ Hl b Hb)). cbn [alloc hdr_of]. by rewrite Hu.
Qed.

Lemma merge_after_none : match head l2 with Some x => b_used x = true | None => True end → merge_after hp (b_addr k) s = Ok (false, s).
Proof.
  intros Hu. assert (Hk : k ∈ l1 ++ k :: l2) by set_solver. unfold merge_after. run_step (hread_run s _ _ (ly_hdr _ _ _ _ Hl k Hk)).
  cbn [next hdr_of]. rewrite (proj2 alone_links). destruct (Z.eqb_spec (hd0 (addrs l2)) 0) as [E|E]; [done|].
  destruct l2 as [|x l3]; [done|]. cbn [head] in Hu. change (hd0 (addrs (x :: l3))) with (b_addr x).
  assert (Hx : x ∈ l1 ++ k :: x :: l3) by set_solver. run_step (hread_run s _ _ (ly_hdr _ _ _ _ Hl x Hx)). cbn [alloc hdr_of]. by rewrite Hu.
Qed.

Lemma prepend_run : b_addr k ∉ fl → ∃ s', prepend_free hp (b_addr k) s = Ok ((), s') ∧ data s' = data s ∧
  lay_step s s' hp c (l1 ++ k :: l2) (l1 ++ k :: l2) (b_addr k :: fl).
Proof.
  intros Hout. set (bl := l1 ++ k :: l2) in *. assert (Hk : k ∈ bl) by (unfold bl; set_solver). pose proof (ly_pos Hl _ (addr_in k Hk)) as Pk.
  pose proof (ly_hdr _ _ _ _ Hl k Hk) as Hh. pose proof (ly_fl_nz Hl) as Hz.
  unfold prepend_free. run_step (cread_run s hp c Hc). run_step (hmod_run s _ (set_next_free (first_free c)) _ Hh). a_norm. rewrite (ly_ff _ _ _ _ Hl).
  erewrite bind_run; [|apply when_hmod_run]. 2: { intros H0. apply hd0_next_some; [done|]. intros b Hb _. cbn. rewrite lookup_insert_ne by (by intros <-).
    by apply (ly_some Hl), Hl. }
  cbv beta. a_norm. eexists. split; [by apply cmod_run|]. split; [done|]. a_norm. split; a_norm; try done.
  - intros a Ha. rewrite upd_hd_frame by (intros Hin; by apply Ha, Hl). apply lookup_insert_ne. intros <-. by apply Ha, addr_in.
  - eapply lay_intro; [exact Hl|apply Hl|apply NoDup_cons; split; [done|apply Hl]| |].
    + intros a [->|Ha]%elem_of_cons; [by apply addr_in|by apply Hl].
    + intros k' Hk'. pose proof (ly_pos Hl _ (addr_in k' Hk')) as Pk'. destruct (decide (b_addr k' = b_addr k)) as [E|E].
      * assert (k' = k) as -> by (eapply tiled_inj; [apply Hl|done|done|done]). rewrite upd_hd_frame by done. rewrite lookup_insert_eq.
        assert (P1 : prev_of (b_addr k :: fl) (b_addr k) = 0) by (by apply (prev_of_mid [])).
        assert (P2 : next_of (b_addr k :: fl) (b_addr k) = hd0 fl) by (apply (next_of_mid []), not_elem_of_nil).
        unfold hdr_of. by rewrite P1, P2, (prev_of_notin fl).
      * pose proof (relink_lookup (<[b_addr k := set_next_free (hd0 fl) (hdr_of (addrs bl) fl k)]> (hdrs s)) [] fl (b_addr k) (b_addr k :: fl) (b_addr k')) as Hr.
        rewrite lookup_insert_ne, (ly_hdr _ _ _ _ Hl k' Hk') in Hr by done. apply Hr; try done; try lia.
        -- intros h [= <-]. pose proof (next_of_insert [] (b_addr k) fl (b_addr k') E ltac:(lia) (ly_nodup _ _ _ _ Hl)) as Q1.
           pose proof (prev_of_insert [] (b_addr k) fl (b_addr k') E ltac:(lia) (ly_nodup _ _ _ _ Hl)) as Q2.
           split; intros Hb; rewrite (proj2 (Z.eqb_neq _ _) Hb) in *; done.
        -- apply NoDup_cons. split; [done|apply Hl].
        -- constructor; [lia|done].
Qed.
End alone.

(** * The operation *)

(** The blocks and the free list after the release of [k]. *)
Definition with_before (l1 : list blk) (k : blk) : list blk * blk :=
  match reverse l1 with
  | b :: l => if b_used b then (l1, freed k) else (reverse l, join b (freed k))
  | [] => (l1, freed k)
  end.
Definition with_after (k : blk) (l2 : list blk) : blk * list blk :=
  match l2 with
  | x :: l => if b_used x then (k, l2) else (join k x, l)
  | [] => (k, l2)
  end.
Definition give_blocks (l1 : list blk) (k : blk) (l2 : list blk) : list blk :=
  let '(l1, k) := with_before l1 k in let '(k, l2) := with_after k l2 in l1 ++ k :: l2.

Definition is_free (o : option blk) : bool := if o is Some b then negb (b_used b) else false.
Definition give_free (l1 : list blk) (k : blk) (l2 : list blk) (fl : list Z) : list Z :=
  let a := b_addr (with_before l1 k).2 in
  match l2 with
  | x :: _ => if negb (b_used x) then (λ b, if b =? b_addr x then a else b) <$> without a fl
              else if is_free (last l1) then fl else a :: fl
  | [] => if is_free (last l1) then fl else a :: fl
  end.

Lemma with_before_snoc l0 b k : with_before (l0 ++ [b]) k = if b_used b then (l0 ++ [b], freed k) else (l0, join b (freed k)).
Proof. unfold with_before. by rewrite reverse_snoc, reverse_involutive. Qed.

Lemma fmap_replace f1 y a f2 : y ∉ f1 → y ∉ f2 → (λ b, if b =? y then a else b) <$> (f1 ++ y :: f2) = f1 ++ a :: f2.
Proof.
  intros H1 H2. assert (Hid : ∀ l : list Z, y ∉ l → (λ b, if b =? y then a else b) <$> l = l).
  { intros l. induction l as [|b l IH]; [done|]. rewrite not_elem_of_cons. intros [Hb Hl]. cbn. rewrite (proj2 (Z.eqb_neq b y)) by done. f_equal. by apply IH. }
  rewrite fmap_app, Hid by done. cbn. rewrite Z.eqb_refl. f_equal. f_equal. by apply Hid.
Qed.

Lemma without_perm a fl : NoDup fl → a ∈ fl → fl ≡ₚ a :: without a fl.
Proof. intros Hnd (g1 & g2 & ->)%list_elem_of_split. rewrite without_mid by done. by rewrite Permutation_middle. Qed.

Lemma without_split a y fl : NoDup fl → y ∈ fl → y ≠ a → ∃ f1 f2, without a fl = f1 ++ y :: f2 ∧ (y ∉ f1) ∧ (y ∉ f2).
Proof.
  intros Hnd Hy Hne. assert (Hin : y ∈ without a fl) by (by apply list_elem_of_filter).
  apply list_elem_of_split in Hin as (f1 & f2 & E). exists f1, f2. split; [done|].
  assert (Hn : NoDup (without a fl)) by (by apply NoDup_filter). rewrite E, <- Permutation_middle in Hn. apply NoDup_cons in Hn as [Hn _]. by apply not_elem_of_app.
Qed.

Lemma coalesced_put l1 k l2 : coalesced l1 → coalesced l2 → is_free (last l1) = false → is_free (head l2) = false → coalesced (l1 ++ k :: l2).
Proof.
  intros H1 H2 F1 F2. apply coalesced_join; [done| |].
  - apply (coalesced_join [k]); [done|done|]. cbn. destruct (head l2) as [b|]; [|done]. cbn in F2. apply negb_false_iff in F2. by rewrite F2, orb_true_r.
  - cbn. destruct (last l1) as [b|]; [|done]. cbn in F1. apply negb_false_iff in F1. by rewrite F1.
Qed.

Lemma lay_heap c m bl fl bl' fl' m' : heap_inv c m bl fl → lay (set_first_free (hd0 fl') c) m' bl' fl' → bl' ≠ [] → fl' ≡ₚ free_addrs bl' →
  coalesced bl' → Forall (λ k, b_addr k mod 8 = 0) bl' → heap_inv (set_first_free (hd0 fl') c) m' bl' fl'.
Proof. intros Hi [I1 I2 I3 I4 I5 I6 I7] H1 H2 H3 H4. by split; try done; apply Hi. Qed.

Section release.
Context {s : astate} {hp : Z} {c : buffer_alloc_ctx} {l1 l2 : list blk} {k : blk} {fl : list Z}.
Context (Hc : ctxs s !! hp = Some c) (Hl : lay c (hdrs s) (l1 ++ freed k :: l2) fl) (Hout : b_addr k ∉ fl).

Lemma before_run : ∃ s', merge_before (b_addr k) s = Ok ((b_addr (with_before l1 k).2, is_free (last l1)), s') ∧
  lay_step s s' hp c (l1 ++ freed k :: l2) ((with_before l1 k).1 ++ (with_before l1 k).2 :: l2) fl.
Proof.
  destruct l1 as [|b l0 _] using rev_ind.
  - exists s. split; [by apply (merge_before_none Hc Hl)|]. split; try done; [by rewrite lay_same by (done || apply Hl)|].
    rewrite <- (ly_ff _ _ _ _ Hl), set_first_free_id. exact Hl.
  - rewrite with_before_snoc, last_snoc. cbn [is_free]. destruct (b_used b) eqn:Hu; cbn [fst snd negb].
    + exists s. split; [apply (merge_before_none Hc Hl); by rewrite last_snoc|]. split; try done; [by rewrite lay_same by (done || apply Hl)|].
      rewrite <- (ly_ff _ _ _ _ Hl), set_first_free_id. exact Hl.
    + rewrite <- app_assoc in Hl |- *. cbn [app] in Hl |- *. by apply (merge_before_run s hp c l0 b (freed k) l2 fl).
Qed.
End release.

(** The list of free blocks behind the second step. *)
Definition after_free (a : Z) (before : bool) (l2 : list blk) (fl : list Z) : list Z :=
  match l2 with
  | x :: _ => if negb (b_used x) then (λ b, if b =? b_addr x then a else b) <$> without a fl else if before then fl else a :: fl
  | [] => if before then fl else a :: fl
  end.

Section release_after.
Context {s : astate} {hp : Z} {c : buffer_alloc_ctx} {l1 l2 : list blk} {k : blk} {fl : list Z} {before : bool}.
Context (Hc : ctxs s !! hp = Some c) (Hl : lay c (hdrs s) (l1 ++ k :: l2) fl) (Hb : before = false → b_addr k ∉ fl).
Context (Hx : ∀ x l, l2 = x :: l → b_used x = false → b_addr x ∈ fl).

Lemma keep_run : ∃ s', (if negb (before || false) then prepend_free hp (b_addr k) else mret ()) s = Ok ((), s') ∧
  lay_step s s' hp c (l1 ++ k :: l2) (l1 ++ k :: l2) (if before then fl else b_addr k :: fl).
Proof.
  rewrite orb_false_r. destruct before; cbn [negb].
  - exists s. split; [done|]. split; try done; [by rewrite lay_same by (done || apply Hl)|].
    rewrite <- (ly_ff _ _ _ _ Hl), set_first_free_id. exact Hl.
  - destruct (prepend_run Hc Hl (Hb eq_refl)) as (s' & E & _ & Hs). by exists s'.
Qed.

Lemma after_run : ∃ s',
  (merge_after hp (b_addr k) ≫= λ after, if negb (before || after) then prepend_free hp (b_addr k) else mret ()) s = Ok ((), s') ∧
  lay_step s s' hp c (l1 ++ k :: l2) (l1 ++ (with_after k l2).1 :: (with_after k l2).2) (after_free (b_addr k) before l2 fl).
Proof.
  pose proof keep_run as Hkeep. unfold with_after, after_free. destruct l2 as [|x l].
  - run_step (merge_after_none Hc Hl I). exact Hkeep.
  - destruct (b_used x) eqn:Hu; cbn [negb fst snd].
    + erewrite bind_run by (by apply (merge_after_none Hc Hl)). exact Hkeep.
    + destruct (without_split (b_addr k) (b_addr x) fl) as (f1 & f2 & Hw & N1 & N2); [apply Hl|by eapply Hx|symmetry; apply (join_ne Hl)|].
      rewrite Hw, fmap_replace by done. destruct (merge_after_run Hc Hl Hu Hw) as (s' & E & Hs). exists s'. run_step E. by rewrite orb_true_r.
Qed.
End release_after.

Lemma give_free_eq l1 k l2 fl : give_free l1 k l2 fl = after_free (b_addr (with_before l1 k).2) (is_free (last l1)) l2 fl.
Proof. by destruct l2. Qed.

Lemma give_blocks_eq l1 k l2 : give_blocks l1 k l2 = (with_before l1 k).1 ++ (with_after (with_before l1 k).2 l2).1 :: (with_after (with_before l1 k).2 l2).2.
Proof. unfold give_blocks. destruct (with_before l1 k) as [l k']. cbn [fst snd]. by destruct (with_after k' l2). Qed.

(** * The invariant behind a release *)

Section released.
Context {c : buffer_alloc_ctx} {m : gmap Z memory_header_s} {l1 l2 : list blk} {k : blk} {fl : list Z}.
Context (Hi : heap_inv c m (l1 ++ k :: l2) fl) (Hu : b_used k = true).

Lemma give_coalesced : coalesced (give_blocks l1 k l2).
Proof.
  pose proof (hi_coal _ _ _ _ Hi) as Hcl. pose proof (coalesced_app _ _ Hcl) as [C1 C2]. apply (coalesced_app [k] l2) in C2 as [_ C2].
  rewrite give_blocks_eq. apply coalesced_put.
  - destruct l1 as [|b l0 _] using rev_ind; [done|]. rewrite with_before_snoc. destruct (b_used b); [done|]. by apply coalesced_app in C1 as [? _].
  - destruct l2 as [|x l]; [done|]. cbn [with_after]. destruct (b_used x); [done|]. by apply (coalesced_app [x] l) in C2 as [_ ?].
  - destruct l1 as [|b l0 _] using rev_ind; [done|]. rewrite with_before_snoc. destruct (b_used b) eqn:Hb; cbn [fst]; [by rewrite last_snoc; cbn; rewrite Hb|].
    rewrite <- app_assoc in Hcl. pose proof (coalesced_before _ _ _ Hcl Hb) as H. destruct (last l0) as [b'|]; [|done]. cbn. by rewrite H.
  - destruct l2 as [|x l]; [done|]. cbn [with_after]. destruct (b_used x) eqn:Hx; cbn [snd]; [by cbn; rewrite Hx|].
    pose proof (coalesced_after [] x l C2 Hx) as H. destruct (head l) as [b'|]; [|done]. cbn. by rewrite H.
Qed.

Lemma give_align : Forall (λ k, b_addr k mod 8 = 0) (give_blocks l1 k l2).
Proof.
  pose proof (hi_align _ _ _ _ Hi) as Ha. rewrite Forall_app, Forall_cons in Ha. destruct Ha as (A1 & Ak & A2).
  rewrite give_blocks_eq, Forall_app, Forall_cons.
  assert (Hb : Forall (λ k, b_addr k mod 8 = 0) (with_before l1 k).1 ∧ b_addr (with_before l1 k).2 mod 8 = 0).
  { destruct l1 as [|b l0 _] using rev_ind; [done|]. rewrite with_before_snoc. rewrite Forall_app, Forall_cons in A1. destruct (b_used b); cbn; [|naive_solver].
    rewrite Forall_app, Forall_cons. naive_solver. }
  destruct Hb as [B1 B2]. split; [done|]. destruct l2 as [|x l]; [done|]. cbn [with_after]. apply Forall_cons in A2 as [Ax A2].
  destruct (b_used x); cbn [fst snd]; [|done]. split; [done|]. by constructor.
Qed.
(** What the first step makes of the block before and the free list. *)
Lemma before_free : b_used (with_before l1 k).2 = false ∧
  free_addrs l1 ≡ₚ (if is_free (last l1) then [b_addr (with_before l1 k).2] else []) ++ free_addrs (with_before l1 k).1.
Proof.
  destruct l1 as [|b l0 _] using rev_ind; [done|]. rewrite with_before_snoc, last_snoc, free_addrs_app, free_addrs_cons. cbn [is_free].
  destruct (b_used b) eqn:Hb; cbn [negb fst snd]; [by rewrite free_addrs_app, free_addrs_cons, Hb|]. split; [done|].
  change (free_addrs []) with (@nil Z). by rewrite Permutation_app_comm.
Qed.

Lemma before_notin : is_free (last l1) = false → b_addr (with_before l1 k).2 ∉ fl.
Proof.
  intros Hf. assert (b_addr (with_before l1 k).2 = b_addr k) as ->.
  { destruct l1 as [|b l0 _] using rev_ind; [done|]. rewrite last_snoc in Hf. apply negb_false_iff in Hf. by rewrite with_before_snoc, Hf. }
  apply (hi_used_out Hi); [set_solver|done].
Qed.

Lemma give_perm : give_free l1 k l2 fl ≡ₚ free_addrs (give_blocks l1 k l2).
Proof.
  pose proof (hi_fl _ _ _ _ Hi) as Hp. rewrite free_addrs_app, free_addrs_cons, Hu in Hp. destruct before_free as [Hku HF].
  pose proof before_notin as Hn. rewrite HF in Hp. rewrite give_free_eq, give_blocks_eq, free_addrs_app, free_addrs_cons.
  pose proof (hi_fl_nodup Hi) as Hnd. set (a := b_addr (with_before l1 k).2) in *. set (G := free_addrs (with_before l1 k).1) in *.
  assert (Hkeep : (if is_free (last l1) then fl else a :: fl) ≡ₚ G ++ a :: free_addrs l2).
  { rewrite <- Permutation_middle. destruct (is_free (last l1)); [exact Hp|]. by rewrite Hp. }
  unfold after_free, with_after. destruct l2 as [|x l]; cbn [fst snd]; [by rewrite Hku|].
  destruct (b_used x) eqn:Hx; cbn [negb fst snd]; [by rewrite Hku|]. cbn [b_used b_addr join]. rewrite Hku. rewrite free_addrs_cons, Hx in Hp.
  assert (Hy : b_addr x ∈ fl) by (rewrite Hp; set_solver). assert (Hya : b_addr x ≠ a).
  { intros E. rewrite Hp, E in Hnd. destruct (is_free (last l1)) eqn:Ef; [|apply (Hn eq_refl); by rewrite <- E].
    apply NoDup_cons in Hnd as [Hnd _]. set_solver. }
  destruct (without_split a (b_addr x) fl Hnd Hy Hya) as (f1 & f2 & Hw & N1 & N2). rewrite Hw, fmap_replace by done.
  assert (He : f1 ++ b_addr x :: f2 ≡ₚ G ++ b_addr x :: free_addrs l).
  { destruct (is_free (last l1)) eqn:Ef.
    - assert (Ha : a ∈ fl) by (rewrite Hp; set_solver). pose proof (without_perm a fl Hnd Ha) as Hq. rewrite Hw, Hp in Hq. by apply Permutation_cons_inv in Hq.
    - rewrite without_notin in Hw by (by apply Hn). by rewrite <- Hw. }
  rewrite <- !Permutation_middle in He |- *. apply Permutation_cons_inv in He. by rewrite He.
Qed.
End released.

(** * The whole operation *)

Section free_run.
Context {MB : Mbedtls} {s : astate} {hp : Z} {c : buffer_alloc_ctx} {l1 l2 : list blk} {k : blk} {fl : list Z}.
Context (Hc : ctxs s !! hp = Some c) (Hi : heap_inv c (hdrs s) (l1 ++ k :: l2) fl) (Hu : b_used k = true).

(** The check behind a release fails on every heap that is as it should be. *)
Lemma free_check s' c' bl' fl' : ctxs s' !! hp = Some c' → heap_inv c' (hdrs s') bl' fl' → verify c' = verify c →
  (cread hp ≫= λ c, if negb ((verify c .& MBEDTLS_MEMORY_VERIFY_FREE) =? 0)
                    then verify_chain hp ≫= λ v, massert (negb (v =? 0)) else mret ()) s'
  = if negb ((verify c .& MBEDTLS_MEMORY_VERIFY_FREE) =? 0) then Err FAssert else Ok ((), s').
Proof.
  intros Hc' Hi' Hv. run_step (cread_run s' hp c' Hc'). rewrite Hv. destruct (negb _); [|done]. by run_step (verify_chain_ok Hc' Hi').
Qed.

Lemma free_run : ∃ s',
  buffer_alloc_free_with_heap hp (b_addr k + sizeof_memory_header_s) s
  = (if negb ((verify c .& MBEDTLS_MEMORY_VERIFY_FREE) =? 0) then Err FAssert else Ok ((), s')) ∧
  lay_step s s' hp c (l1 ++ k :: l2) (give_blocks l1 k l2) (give_free l1 k l2 fl) ∧
  heap_inv (set_first_free (hd0 (give_free l1 k l2 fl)) c) (hdrs s') (give_blocks l1 k l2) (give_free l1 k l2 fl).
Proof.
  pose proof (heap_inv_lay _ _ _ _ Hi) as Hl. assert (Hk : k ∈ l1 ++ k :: l2) by set_solver. pose proof (hi_range Hi k Hk) as Hr.
  pose proof (hi_buf _ _ _ _ Hi) as Hb. pose proof (hi_end _ _ _ _ Hi) as He. pose proof (hi_used_out Hi k Hk Hu) as Hout.
  destruct (alloc0_run s hp c l1 k l2 fl Hc Hl) as (s1 & E1 & _ & S1).
  assert (Hc1 : ctxs s1 !! hp = Some (set_first_free (hd0 fl) c)) by (rewrite (ls_ctxs _ _ _ _ _ _ _ S1); apply lookup_insert_eq).
  destruct (before_run Hc1 (ls_lay _ _ _ _ _ _ _ S1) Hout) as (s2 & E2 & S2).
  assert (Hc2 : ctxs s2 !! hp = Some (set_first_free (hd0 fl) (set_first_free (hd0 fl) c))) by (rewrite (ls_ctxs _ _ _ _ _ _ _ S2); apply lookup_insert_eq).
  assert (Hx : ∀ x l, l2 = x :: l → b_used x = false → b_addr x ∈ fl) by (intros x l El Ex; apply (hi_in_fl Hi); [rewrite El; set_solver|done]).
  destruct (after_run Hc2 (ls_lay _ _ _ _ _ _ _ S2) (before_notin Hi Hu) Hx) as (s3 & E3 & S3).
  pose proof (lay_step_trans _ _ _ _ _ _ _ _ _ _ S1 (lay_step_trans _ _ _ _ _ _ _ _ _ _ S2 S3)) as S. rewrite <- give_free_eq, <- give_blocks_eq in S.
  assert (Hi' : heap_inv (set_first_free (hd0 (give_free l1 k l2 fl)) c) (hdrs s3) (give_blocks l1 k l2) (give_free l1 k l2 fl)).
  { eapply lay_heap; [exact Hi|apply S| |apply (give_perm Hi Hu)|apply (give_coalesced Hi)|apply (give_align Hi)].
    rewrite give_blocks_eq. by destruct (with_before l1 k).1. }
  exists s3. split; [|done]. clear S2 S3. unfold buffer_alloc_free_with_heap. unfold b_end, sizeof_memory_header_s in *.
  rewrite (proj2 (Z.eqb_neq _ 0)) by lia. run_step (cread_run s hp c Hc). rewrite (hi_first _ _ _ _ Hi), (proj2 (Z.eqb_neq (buf c) 0)) by lia. cbn [orb].
  rewrite (u64_small (buf c + len c)) by (unfold is_u64; lia). rewrite (proj2 (Z.ltb_ge _ _)), (proj2 (Z.leb_gt _ _)) by lia. cbn [orb]. rewrite ret_bind.
  assert ((b_addr k + 64) .- 64 = b_addr k) as -> by (rewrite u64_small; unfold is_u64; lia).
  run_step (hread_run s _ _ (hi_hdr _ _ _ _ Hi k Hk)). rewrite (verify_header_ok Hi k Hk). run_step (massert_run true s eq_refl).
  cbn [alloc hdr_of]. rewrite Hu. cbn [Z.eqb Pos.eqb negb]. rewrite ret_bind. run_step E1. run_step E2. cbv beta iota. rewrite <- bind_assoc. run_step E3.
  eapply free_check; [rewrite (ls_ctxs _ _ _ _ _ _ _ S); apply lookup_insert_eq|exact Hi'|done].
Qed.
End free_run.
