(* ===== verification/AllocSpec.v ===== *)
(** What the crypto heap promises: every branch of the allocation and the release, the state of
    the heap after any sequence of both, and the round trip. *)
From S2P Require Import Prelude Types Granule Platform GranuleFind AllocList Alloc AllocHeap AllocLinks AllocCalloc AllocFree AllocRelease.

(** * The blocks in use *)

Definition used_blocks (bl : list blk) : list blk := filter (λ k, b_used k = true) bl.

Lemma used_app l1 l2 : used_blocks (l1 ++ l2) = used_blocks l1 ++ used_blocks l2.
Proof. apply filter_app. Qed.

Lemma used_cons k l : used_blocks (k :: l) = if b_used k then k :: used_blocks l else used_blocks l.
Proof. unfold used_blocks. rewrite filter_cons. by destruct (b_used k). Qed.

(** The block that serves a request of [L] bytes from [k]. *)
Definition served (k : blk) (L : Z) : blk :=
  {| b_addr := b_addr k; b_size := if b_size k - L <? sizeof_memory_header_s + 8 then b_size k else L; b_used := true |}.

Lemma take_used l1 k l2 L : b_used k = false → used_blocks (take_blocks l1 k l2 L) ≡ₚ served k L :: used_blocks (l1 ++ k :: l2).
Proof.
  intros Hu. unfold take_blocks, served, bl_split, use, taken. rewrite used_app, used_cons, Hu.
  destruct (_ <? _); rewrite used_app, !used_cons; cbn [b_used rest]; by rewrite Permutation_middle.
Qed.

Lemma give_used l1 k l2 : b_used k = true → used_blocks (l1 ++ k :: l2) ≡ₚ k :: used_blocks (give_blocks l1 k l2).
Proof.
  intros Hu. rewrite used_app, used_cons, Hu, <- Permutation_middle. constructor. rewrite give_blocks_eq, used_app, used_cons.
  assert (Hb : used_blocks (with_before l1 k).1 = used_blocks l1 ∧ b_used (with_before l1 k).2 = false).
  { destruct l1 as [|b l0 _] using rev_ind; [done|]. rewrite with_before_snoc. destruct (b_used b) eqn:Hb; cbn [fst snd b_used join freed]; [done|].
    by rewrite used_app, used_cons, Hb, app_nil_r. }
  destruct Hb as [-> Hk]. destruct l2 as [|x l]; cbn [with_after fst snd]; [by rewrite Hk|].
  destruct (b_used x) eqn:Hx; cbn [fst snd b_used join]; rewrite Hk; [done|]. by rewrite used_cons, Hx.
Qed.

(** * Allocation *)

Section calloc_spec.
Context {MB : Mbedtls} {s : astate} {hp : Z} {c : buffer_alloc_ctx} {bl : list blk} {fl : list Z}.
Context (Hc : ctxs s !! hp = Some c) (Hi : heap_inv c (hdrs s) bl fl) (n sz : Z) (Hn : is_u64 n) (Hs : is_u64 sz).

Lemma calloc_cases :
  ((¬ (0 < n * sz <= 2 ^ 64 - 8) ∨ Forall (λ a, size_at bl a < up8 (n * sz)) fl) ∧ buffer_alloc_calloc_with_heap hp n sz s = Ok (0, s)) ∨
  ∃ l1 k l2 f1 f2 s', 0 < n * sz <= 2 ^ 64 - 8 ∧ bl = l1 ++ k :: l2 ∧ fl = f1 ++ b_addr k :: f2 ∧ b_used k = false ∧
    up8 (n * sz) <= b_size k ∧ Forall (λ a, size_at bl a < up8 (n * sz)) f1 ∧
    buffer_alloc_calloc_with_heap hp n sz s = Ok (b_addr k + sizeof_memory_header_s, s') ∧
    data s' = zero_bytes (b_addr k + sizeof_memory_header_s) (n * sz) (data s) ∧
    heap_step s s' hp c bl (take_blocks l1 k l2 (up8 (n * sz))) (take_free f1 k f2 (up8 (n * sz))).
Proof.
  destruct (decide (0 < n * sz <= 2 ^ 64 - 8)) as [H0|H0]; [|left; split; [by left|apply (calloc_none Hc Hi n sz Hn Hs); by left]].
  destruct (first_fit bl fl (up8 (n * sz)) (hi_nonzero_fl Hi)) as [[_ Hf]|(f1 & a & f2 & Hfl & Ha & _ & Hl & Hf)].
  { left. split; [by right|apply (calloc_none Hc Hi n sz Hn Hs); by right]. }
  right. assert (a ∈ fl) as (k & Hk & <- & Hu)%(hi_fl_in Hi) by (rewrite Hfl; set_solver). rewrite (size_at_in Hi) in Hl by done.
  apply list_elem_of_split in Hk as (l1 & l2 & Hbl).
  destruct (calloc_found Hc Hi n sz Hn Hs l1 k l2 f1 f2) as (s' & E & Hd & Hst); try done.
  exists l1, k, l2, f1, f2, (set_data (zero_bytes (b_addr k + sizeof_memory_header_s) (n * sz) (data s)) s').
  do 8 (split; [done|]). by destruct Hst.
Qed.
End calloc_spec.

(** * Set-up *)

Lemma zero_bytes_in p n f a : p <= a < p + n → zero_bytes p n f a = 0.
Proof. intros Ha. unfold zero_bytes. destruct (Z.leb_spec p a), (Z.ltb_spec a (p + n)); try lia. done. Qed.
Lemma zero_bytes_out p n f a : ¬ (p <= a < p + n) → zero_bytes p n f a = f a.
Proof. intros Ha. unfold zero_bytes. destruct (Z.leb_spec p a), (Z.ltb_spec a (p + n)); try lia; done. Qed.

Lemma get_heap_ctx_run `{Mbedtls} s cpuid hp : 0 <= cpuid < Z.of_nat (length (ctx_per_cpu s)) → ctx_per_cpu s !! Z.to_nat cpuid = Some hp → hp ≠ 0 →
  get_heap_ctx cpuid s = Ok (hp, s).
Proof.
  intros Hr Hl H0. unfold get_heap_ctx. rewrite gets_bind. run_step (massert_run _ s (proj2 (Z.ltb_lt _ _) (proj2 Hr))).
  run_step (lift_run _ _ s (aget_lookup _ _ _ (proj1 Hr) Hl)). by rewrite (proj2 (Z.eqb_neq hp 0)).
Qed.

(** The context behind [mbedtls_memory_buffer_alloc_init]. *)
Definition pad8 (b : Z) : Z := (- b) mod 8.
Definition init_ctx (b n : Z) : buffer_alloc_ctx := {| buf := b + pad8 b; len := n - pad8 b; first := b + pad8 b; first_free := b + pad8 b; verify := 0 |}.

Lemma pad8_spec b : 0 <= pad8 b < 8 ∧ (b + pad8 b) mod 8 = 0 ∧ pad8 b = if b mod 8 =? 0 then 0 else 8 - b mod 8.
Proof.
  unfold pad8. pose proof (Z.mod_pos_bound (- b) 8 ltac:(lia)). pose proof (Z.mod_pos_bound b 8 ltac:(lia)). split; [done|].
  destruct (Z.eqb_spec (b mod 8) 0); Z.div_mod_to_equations; lia.
Qed.

(** [mbedtls_memory_buffer_alloc_init] on a buffer with room for a header and a word, at any
    address, moves its start to a multiple of 8 and makes it one free block that satisfies the
    invariant; a smaller buffer leaves a heap from which nothing can be allocated. *)
Lemma alloc_init_run `{Mbedtls} s cpuid hp b n : 0 <= cpuid < Z.of_nat (length (ctx_per_cpu s)) → ctx_per_cpu s !! Z.to_nat cpuid = Some hp → hp ≠ 0 →
  0 < b → 0 <= n → b + n < 2 ^ 64 →
  ∃ s', mbedtls_memory_buffer_alloc_init cpuid b n s = Ok ((), s') ∧ ctx_per_cpu s' = ctx_per_cpu s ∧
    if decide (72 <= n) then
      ctxs s' = <[hp := init_ctx b n]> (ctxs s) ∧
      heap_inv (init_ctx b n) (hdrs s') [{| b_addr := b + pad8 b; b_size := n - pad8 b - sizeof_memory_header_s; b_used := false |}] [b + pad8 b] ∧
      (∀ a, data s' a = if decide (b + pad8 b <= a < b + n) then 0 else data s a)
    else
      ctxs s' !! hp = Some buffer_alloc_ctx_zero ∧ hdrs s' = hdrs s ∧ data s' = data s ∧
      ∀ m sz, buffer_alloc_calloc cpuid m sz s' = Ok (0, s').
Proof.
  intros Hr Hl H0 Hb Hn He. destruct (pad8_spec b) as (Hp & H8 & Epad). unfold mbedtls_memory_buffer_alloc_init.
  run_step (get_heap_ctx_run s cpuid hp Hr Hl H0). unfold cwrite, hwrite. rewrite mmodify_bind.
  change (sizeof_memory_header_s .+ MBEDTLS_MEMORY_ALIGN_MULTIPLE) with 72. change MBEDTLS_MEMORY_ALIGN_MULTIPLE with 8.
  destruct (Z.ltb_spec n 72) as [Hlt|Hge].
  { eexists. split; [done|]. split; [done|]. rewrite decide_False by lia. a_norm. split; [apply lookup_insert_eq|]. split; [done|]. split; [done|].
    intros m sz. unfold buffer_alloc_calloc. erewrite bind_run by (by apply (get_heap_ctx_run _ cpuid hp)). cbv beta.
    unfold buffer_alloc_calloc_with_heap. by erewrite bind_run by (apply cread_run, lookup_insert_eq). }
  assert (E : (if negb (b mod 8 =? 0) then (b .+ (8 - b mod 8), n .- (8 - b mod 8)) else (b, n)) = (b + pad8 b, n - pad8 b)).
  { rewrite Epad in *. destruct (b mod 8 =? 0); cbn [negb]; [by rewrite Z.add_0_r, Z.sub_0_r|].
    by rewrite !u64_small by (unfold is_u64; lia). }
  rewrite E. cbv beta iota. rewrite !mmodify_bind. a_norm.
  rewrite (u64_small (n - pad8 b - sizeof_memory_header_s)) by (unfold is_u64, sizeof_memory_header_s; lia).
  eexists. split; [done|]. split; [done|]. rewrite decide_True by lia. cbn [ctxs hdrs data]. rewrite insert_insert_eq. split; [done|].
  assert (Hinv : heap_inv (init_ctx b n) (<[b + pad8 b := {| magic1 := MAGIC1; size := n - pad8 b - sizeof_memory_header_s; alloc := 0; prev := 0; next := 0;
     prev_free := 0; next_free := 0; magic2 := MAGIC2 |}]> (clear_headers (b + pad8 b) (n - pad8 b) (hdrs s)))
     [{| b_addr := b + pad8 b; b_size := n - pad8 b - sizeof_memory_header_s; b_used := false |}] [b + pad8 b]).
  { split; cbn [buf len first first_free init_ctx]; try done; try lia.
    - cbn [tiled b_addr b_size]. unfold b_end, sizeof_memory_header_s. cbn [b_addr b_size]. split; [done|]. lia.
    - intros k ->%list_elem_of_singleton. cbn [b_addr]. rewrite lookup_insert_eq. unfold hdr_of, prev_of. cbn. by rewrite Z.eqb_refl.
    - by repeat constructor. }
  split; [exact Hinv|]. intros a. replace (b + n) with (b + pad8 b + (n - pad8 b)) by lia.
  destruct (decide _); [by apply zero_bytes_in|by apply zero_bytes_out].
Qed.

(** * Any sequence of operations *)

Section reach.
Context {MB : Mbedtls} (hp : Z).

(** The heap, with the pointers it has handed out and not got back, and the sizes asked for. *)
Inductive reach : astate → list (Z * Z) → Prop :=
  | reach_init s s' cpuid b n : 0 <= cpuid < Z.of_nat (length (ctx_per_cpu s)) → ctx_per_cpu s !! Z.to_nat cpuid = Some hp → hp ≠ 0 →
      0 < b → 72 <= n → b + n < 2 ^ 64 → mbedtls_memory_buffer_alloc_init cpuid b n s = Ok ((), s') → reach s' []
  | reach_calloc s s' live n sz p : reach s live → is_u64 n → is_u64 sz → buffer_alloc_calloc_with_heap hp n sz s = Ok (p, s') →
      reach s' (if p =? 0 then live else (p, n * sz) :: live)
  | reach_free s s' live1 p n live2 : reach s (live1 ++ (p, n) :: live2) → buffer_alloc_free_with_heap hp p s = Ok ((), s') →
      reach s' (live1 ++ live2).

(** A pointer handed out is the data of a block in use. *)
Definition holds (pn : Z * Z) (k : blk) : Prop := pn.1 = b_addr k + sizeof_memory_header_s ∧ 0 < pn.2 <= b_size k.

Lemma served_holds k n sz : 0 < n * sz <= 2 ^ 64 - 8 → up8 (n * sz) <= b_size k →
  holds (b_addr k + sizeof_memory_header_s, n * sz) (served k (up8 (n * sz))).
Proof.
  intros H0 Hl. destruct (calloc_len_up8 (n * sz)) as (_ & _ & Hu); [lia|]. split; [done|]. cbn [snd b_size served]. destruct (_ <? _); lia.
Qed.

Lemma reach_inv s live : reach s live →
  ∃ c bl fl ks, ctxs s !! hp = Some c ∧ heap_inv c (hdrs s) bl fl ∧ ks ≡ₚ used_blocks bl ∧ Forall2 holds live ks.
Proof.
  induction 1 as [s s' cpuid b n Hr Hl H0 Hb Hn He E|s s' live n sz p _ (c & bl & fl & ks & Hc & Hi & Hk & Hf) Hn Hs E
                 |s s' live1 p n live2 _ (c & bl & fl & ks & Hc & Hi & Hk & Hf) E].
  - destruct (alloc_init_run s cpuid hp b n Hr Hl H0 Hb ltac:(lia) He) as (s2 & E2 & _ & H). rewrite E in E2. injection E2 as <-.
    rewrite decide_True in H by done. destruct H as (H1 & H2 & _). eexists _, _, _, []. split; [rewrite H1; apply lookup_insert_eq|]. by split; [exact H2|].
  - destruct (calloc_cases Hc Hi n sz Hn Hs) as [[_ E']|(l1 & k & l2 & f1 & f2 & s2 & H0 & -> & -> & Hu & Hl & _ & E' & _ & Hst)];
      rewrite E' in E; injection E as <- <-; [by exists c, bl, fl, ks|].
    assert (Hin : k ∈ l1 ++ k :: l2) by set_solver. pose proof (hi_pos Hi _ (addr_in k Hin)).
    rewrite (proj2 (Z.eqb_neq _ 0)) by (unfold sizeof_memory_header_s; lia).
    eexists _, _, _, (served k (up8 (n * sz)) :: ks). split; [rewrite (hs_ctxs _ _ _ _ _ _ _ Hst); apply lookup_insert_eq|]. split; [apply Hst|].
    split; [by rewrite take_used, Hk|]. constructor; [by apply served_holds|done].
  - apply Forall2_app_inv_l in Hf as (ks1 & ks2' & Hf1 & Hf2 & ->). apply Forall2_cons_inv_l in Hf2 as (k & ks2 & [Hp Hr] & Hf2 & ->).
    cbn [fst snd] in *. assert (k ∈ used_blocks bl) as [Hu Hin]%list_elem_of_filter by (rewrite <- Hk; set_solver).
    apply list_elem_of_split in Hin as (l1 & l2 & ->). destruct (free_run Hc Hi Hu) as (s2 & E2 & Hst & Hi2). rewrite <- Hp, E in E2.
    destruct (negb _); [done|]. injection E2 as <-. eexists _, _, _, (ks1 ++ ks2). split; [rewrite (ls_ctxs _ _ _ _ _ _ _ Hst); apply lookup_insert_eq|].
    split; [exact Hi2|]. split; [|by apply Forall2_app]. rewrite (give_used _ _ _ Hu), <- Permutation_middle in Hk. by apply Permutation_cons_inv in Hk.
Qed.
End reach.

(** * Theorems *)

(** C32: [buffer_alloc_calloc_with_heap] on a heap that satisfies the invariant answers [NULL] and
    changes nothing exactly when the product [n * size] is 0, overflows or leaves no room for the
    rounding, or when no free block is large enough for it; otherwise it answers the data of a
    free block, aligned, inside the buffer and apart from every block in use, with the bytes
    asked for set to zero and every other byte kept, the block in use from then on, the
    invariant kept, and the blocks in use before untouched. *)
Theorem calloc_spec `{Mbedtls} s hp c bl fl n sz : ctxs s !! hp = Some c → heap_inv c (hdrs s) bl fl → is_u64 n → is_u64 sz →
  ((¬ (0 < n * sz <= 2 ^ 64 - 8) ∨ ∀ k, k ∈ bl → b_used k = false → b_size k < up8 (n * sz)) ∧
   buffer_alloc_calloc_with_heap hp n sz s = Ok (0, s)) ∨
  ∃ k s' bl' fl', k ∈ bl ∧ b_used k = false ∧ 0 < n * sz <= 2 ^ 64 - 8 ∧ up8 (n * sz) <= b_size k ∧
    let p := b_addr k + sizeof_memory_header_s in
    buffer_alloc_calloc_with_heap hp n sz s = Ok (p, s') ∧
    (p mod 8 = 0 ∧ buf c < p ∧ p + n * sz <= buf c + len c) ∧
    (∀ k', k' ∈ used_blocks bl → b_end k' <= b_addr k ∨ p + n * sz <= b_addr k') ∧
    (∀ a, data s' a = if decide (p <= a < p + n * sz) then 0 else data s a) ∧
    heap_step s s' hp c bl bl' fl' ∧ used_blocks bl' ≡ₚ served k (up8 (n * sz)) :: used_blocks bl.
Proof.
  intros Hc Hi Hn Hs. destruct (calloc_cases Hc Hi n sz Hn Hs) as [[Hno E]|(l1 & k & l2 & f1 & f2 & s' & H0 & Hbl & Hfl & Hu & Hl & _ & E & Hd & Hst)].
  { left. split; [|done]. destruct Hno as [?|Hf]; [by left|right]. intros k Hk Hu. rewrite Forall_forall in Hf.
    rewrite <- (size_at_in Hi k Hk). apply Hf, (hi_in_fl Hi); done. }
  right. assert (Hk : k ∈ bl) by (rewrite Hbl; set_solver). pose proof (hi_range Hi k Hk) as Hr. pose proof (hi_align _ _ _ _ Hi) as Ha.
  rewrite Forall_forall in Ha. specialize (Ha k Hk). destruct (calloc_len_up8 (n * sz) ltac:(lia)) as (_ & _ & H8). unfold b_end, sizeof_memory_header_s in *.
  exists k, s', (take_blocks l1 k l2 (up8 (n * sz))), (take_free f1 k f2 (up8 (n * sz))). split; [done|]. split; [done|]. split; [done|]. split; [done|]. cbv zeta.
  split; [exact E|]. split; [split; [Z.div_mod_to_equations; lia|lia]|]. split; [|split; [|split; [done|rewrite Hbl; by apply take_used]]].
  - intros k' [Hu' Hk']%list_elem_of_filter. assert (Hne : k' ≠ k) by (intros ->; congruence).
    destruct (tiled_disjoint _ _ _ _ _ (hi_tiled _ _ _ _ Hi) Hk' Hk Hne); unfold b_end, sizeof_memory_header_s in *; lia.
  - intros a. rewrite Hd. destruct (decide _); [by apply zero_bytes_in|by apply zero_bytes_out].
Qed.

Lemma one_free_block bl : coalesced bl → bl ≠ [] → used_blocks bl = [] → ∃ k, bl = [k] ∧ b_used k = false.
Proof.
  destruct bl as [|k1 [|k2 bl]]; [done| |]; intros Hcl _ Hu.
  - exists k1. split; [done|]. rewrite used_cons in Hu. by destruct (b_used k1).
  - exfalso. rewrite !used_cons in Hu. destruct Hcl as [Hcl _]. by destruct (b_used k1), (b_used k2).
Qed.

Lemma holds_disjoint a bl e pn1 pn2 k1 k2 : tiled a bl e → k1 ∈ bl → k2 ∈ bl → k1 ≠ k2 → holds pn1 k1 → holds pn2 k2 →
  pn1.1 + pn1.2 < pn2.1 ∨ pn2.1 + pn2.2 < pn1.1.
Proof.
  intros Ht H1 H2 Hne [E1 S1] [E2 S2]. destruct (tiled_disjoint _ _ _ _ _ Ht H1 H2 Hne); unfold b_end, sizeof_memory_header_s in *; lia.
Qed.

Lemma holds_used `{Mbedtls} (hp : Z) (s : astate) live ks bl : ks ≡ₚ used_blocks bl → Forall2 holds live ks →
  ∀ i pn, live !! i = Some pn → ∃ k, ks !! i = Some k ∧ holds pn k ∧ k ∈ bl ∧ b_used k = true.
Proof.
  intros Hk Hf i pn Hl. destruct (Forall2_lookup_l _ _ _ _ _ Hf Hl) as (k & Hki & Hh). exists k. split; [done|]. split; [done|].
  apply list_elem_of_lookup_2 in Hki. rewrite Hk in Hki. by apply list_elem_of_filter in Hki as [? ?].
Qed.

Lemma one_block_hdr c m k fl : heap_inv c m [k] fl → b_used k = false →
  m !! buf c = Some {| magic1 := MAGIC1; size := len c - sizeof_memory_header_s; alloc := 0; prev := 0; next := 0;
                       prev_free := 0; next_free := 0; magic2 := MAGIC2 |} ∧ first_free c = buf c.
Proof.
  intros Hi Hu. pose proof (hi_tiled _ _ _ _ Hi) as (Ha & _ & He). pose proof (hi_fl _ _ _ _ Hi) as Hf. rewrite free_addrs_cons, Hu in Hf.
  apply Permutation_singleton_r in Hf as ->. assert (Hk : k ∈ [k]) by set_solver. pose proof (hi_hdr _ _ _ _ Hi k Hk) as Hh. cbn [tiled] in He.
  rewrite (hi_ff _ _ _ _ Hi), <- Ha, Hh. split; [|done]. unfold hdr_of, prev_of. cbn. rewrite Z.eqb_refl, Hu. unfold b_end in He.
  by replace (len c - sizeof_memory_header_s) with (b_size k) by lia.
Qed.

(** C31: whatever sequence of allocations and of releases of pointers handed out follows
    [mbedtls_memory_buffer_alloc_init] with a buffer of 72 bytes or more, at any address: the pointers that are out are aligned, lie inside the buffer with all the bytes
    asked for, and are apart from each other; the next allocation does not fault; the next
    release of such a pointer does not fault unless the check behind it is switched on; and when
    all of them are back, the heap is one free block again. *)
Theorem heap_reach_spec `{Mbedtls} hp s live : reach hp s live → ∃ c, ctxs s !! hp = Some c ∧
  (∀ p n, (p, n) ∈ live → p mod 8 = 0 ∧ buf c < p ∧ p + n <= buf c + len c) ∧
  (∀ i j pn1 pn2, i ≠ j → live !! i = Some pn1 → live !! j = Some pn2 → pn1.1 + pn1.2 < pn2.1 ∨ pn2.1 + pn2.2 < pn1.1) ∧
  (∀ n sz, is_u64 n → is_u64 sz → ∃ p s', buffer_alloc_calloc_with_heap hp n sz s = Ok (p, s')) ∧
  (∀ p n, (p, n) ∈ live → ∃ s', buffer_alloc_free_with_heap hp p s
     = if negb ((verify c .& MBEDTLS_MEMORY_VERIFY_FREE) =? 0) then Err FAssert else Ok ((), s')) ∧
  (live = [] → hdrs s !! buf c = Some {| magic1 := MAGIC1; size := len c - sizeof_memory_header_s; alloc := 0; prev := 0; next := 0;
                                          prev_free := 0; next_free := 0; magic2 := MAGIC2 |} ∧ first_free c = buf c).
Proof.
  intros (c & bl & fl & ks & Hc & Hi & Hk & Hf)%reach_inv. exists c. split; [done|]. pose proof (holds_used hp s live ks bl Hk Hf) as Hin.
  split; [|split; [|split; [|split]]].
  - intros p n (i & Hl)%list_elem_of_lookup_1. destruct (Hin _ _ Hl) as (k & _ & [Hp Hr] & Hkb & _). cbn [fst snd] in *. pose proof (hi_range Hi k Hkb) as Hg.
    pose proof (hi_align _ _ _ _ Hi) as Ha. rewrite Forall_forall in Ha. specialize (Ha k Hkb). unfold b_end, sizeof_memory_header_s in *.
    split; [Z.div_mod_to_equations; lia|lia].
  - intros i j pn1 pn2 Hij H1 H2. destruct (Hin _ _ H1) as (k1 & K1 & Hh1 & B1 & _), (Hin _ _ H2) as (k2 & K2 & Hh2 & B2 & _).
    eapply holds_disjoint; [apply Hi|exact B1|exact B2| |done|done]. intros ->.
    apply Hij. eapply (NoDup_lookup ks); [|done|done]. rewrite Hk. by apply NoDup_filter, (NoDup_fmap_1 b_addr), (hi_nodup Hi).
  - intros n sz Hn Hs. destruct (calloc_cases Hc Hi n sz Hn Hs) as [[_ E]|(l1 & k & l2 & f1 & f2 & s' & _ & _ & _ & _ & _ & _ & E & _)]; eauto.
  - intros p n (i & Hl)%list_elem_of_lookup_1. destruct (Hin _ _ Hl) as (k & _ & [Hp _] & Hkb & Hu). cbn [fst] in Hp. subst p.
    apply list_elem_of_split in Hkb as (l1 & l2 & ->). destruct (free_run Hc Hi Hu) as (s' & E & _). by exists s'.
  - intros ->. apply Forall2_nil_inv_l in Hf as ->. apply Permutation_nil in Hk.
    destruct (one_free_block bl (hi_coal _ _ _ _ Hi) (hi_ne _ _ _ _ Hi) Hk) as (k & -> & Hu). by eapply one_block_hdr.
Qed.

(** * Round trip *)

Lemma give_take l1 k l2 L : coalesced (l1 ++ k :: l2) → b_used k = false →
  ∃ l2', take_blocks l1 k l2 L = l1 ++ served k L :: l2' ∧ give_blocks l1 (served k L) l2' = l1 ++ k :: l2.
Proof.
  intros Hcl Hu. pose proof (coalesced_before _ _ _ Hcl Hu) as Hb. pose proof (coalesced_after _ _ _ Hcl Hu) as Ha.
  assert (Hwb : ∀ k', with_before l1 k' = (l1, freed k')).
  { intros k'. destruct l1 as [|b l0 _] using rev_ind; [done|]. rewrite last_snoc in Hb. by rewrite with_before_snoc, Hb. }
  unfold take_blocks, served. destruct (b_size k - L <? sizeof_memory_header_s + 8).
  - exists l2. split; [done|]. unfold give_blocks. rewrite Hwb.
    assert (freed (use k) = k) as Ek by (destruct k; cbn in *; by subst). fold (use k). rewrite Ek. destruct l2 as [|x l]; [done|]. cbn in Ha |- *. by rewrite Ha.
  - exists (rest k L :: l2). split; [done|]. unfold give_blocks. rewrite Hwb. cbn [with_after b_used rest]. f_equal. f_equal. destruct k as [a z u]. cbn in Hu. subst u.
    unfold join, freed, rest. cbn [b_addr b_size b_used]. f_equal. lia.
Qed.

Lemma payload_outside a bl e k x : tiled a bl e → k ∈ bl → b_addr k + sizeof_memory_header_s <= x < b_end k → outside bl x.
Proof.
  intros Ht Hk Hx k' Hk' Hr. destruct (decide (k' = k)) as [->|Hne]; [lia|]. pose proof (tiled_in _ _ _ _ Ht Hk').
  destruct (tiled_disjoint _ _ _ _ _ Ht Hk' Hk Hne); unfold b_end, sizeof_memory_header_s in *; lia.
Qed.

(** C34: an allocation and the release of its pointer, with the check behind a release switched
    off, leave the blocks of the heap exactly as they were (a block that was split is whole
    again), the same free blocks in the list, the invariant, and every byte of the other blocks
    in use. *)
Theorem calloc_free_roundtrip `{Mbedtls} s hp c bl fl n sz p s1 : ctxs s !! hp = Some c → heap_inv c (hdrs s) bl fl → is_u64 n → is_u64 sz →
  verify c .& MBEDTLS_MEMORY_VERIFY_FREE = 0 → buffer_alloc_calloc_with_heap hp n sz s = Ok (p, s1) → p ≠ 0 →
  ∃ s2 fl2, buffer_alloc_free_with_heap hp p s1 = Ok ((), s2) ∧ fl2 ≡ₚ fl ∧
    ctxs s2 = <[hp := set_first_free (hd0 fl2) c]> (ctxs s) ∧ heap_inv (set_first_free (hd0 fl2) c) (hdrs s2) bl fl2 ∧
    ∀ k a, k ∈ used_blocks bl → b_addr k + sizeof_memory_header_s <= a < b_end k → data s2 a = data s a.
Proof.
  intros Hc Hi Hn Hs Hv E Hp. destruct (calloc_cases Hc Hi n sz Hn Hs) as [[_ E']|(l1 & k & l2 & f1 & f2 & s' & H0 & Hbl & Hfl & Hu & Hl & _ & E' & Hd & Hst)];
    rewrite E' in E; injection E as <- <-; [done|]. set (L := up8 (n * sz)) in *. set (fl1 := take_free f1 k f2 L) in *. rewrite Hbl in *.
  destruct (give_take l1 k l2 L (hi_coal _ _ _ _ Hi) Hu) as (l2' & T & G). rewrite T in Hst. pose proof (hs_inv _ _ _ _ _ _ _ Hst) as Hi1.
  assert (Hc1 : ctxs s' !! hp = Some (set_first_free (hd0 fl1) c)) by (rewrite (hs_ctxs _ _ _ _ _ _ _ Hst); apply lookup_insert_eq).
  destruct (free_run Hc1 Hi1 eq_refl) as (s2 & E & Hls & Hi2). rewrite G in *. set (fl2 := give_free _ _ _ _) in *.
  cbn [verify set_first_free] in E. rewrite Hv in E. exists s2, fl2. split; [exact E|].
  split; [rewrite (hi_fl _ _ _ _ Hi2); by rewrite (hi_fl _ _ _ _ Hi)|]. split; [by rewrite (ls_ctxs _ _ _ _ _ _ _ Hls), (hs_ctxs _ _ _ _ _ _ _ Hst), insert_insert_eq|].
  split; [exact Hi2|]. intros k' a Hk' Ha. assert (Hk1 : k' ∈ used_blocks (l1 ++ served k L :: l2')) by (rewrite <- T, take_used by done; set_solver).
  apply list_elem_of_filter in Hk1 as [_ Hk1]. rewrite (ls_data _ _ _ _ _ _ _ Hls a (payload_outside _ _ _ _ _ (hi_tiled _ _ _ _ Hi1) Hk1 Ha)), Hd.
  apply zero_bytes_out. apply list_elem_of_filter in Hk' as [Hu' Hk']. assert (Hne : k' ≠ k) by (intros ->; congruence). assert (Hk : k ∈ l1 ++ k :: l2) by set_solver.
  destruct (calloc_len_up8 (n * sz) ltac:(lia)) as (_ & _ & H8). fold L in H8.
  destruct (tiled_disjoint _ _ _ _ _ (hi_tiled _ _ _ _ Hi) Hk' Hk Hne); unfold b_end, sizeof_memory_header_s in *; lia.
Qed.

(** * Release *)

(** C33: [buffer_alloc_free_with_heap] does nothing for [NULL] or on a heap that has not been set
    up; on a heap that satisfies the invariant it fails its assertions for a pointer outside the
    buffer and for a block that is free already; for the data of a block in use it makes the
    block free and joins it with free neighbours, keeps the invariant, every other block in use
    and every byte outside the headers, and returns, unless the check behind a release is
    switched on: the assertion of that check is the wrong way round, and fails on this very
    heap. *)
Theorem free_spec `{Mbedtls} s hp c : ctxs s !! hp = Some c →
  buffer_alloc_free_with_heap hp 0 s = Ok ((), s) ∧
  (buf c = 0 ∨ first c = 0 → ∀ p, buffer_alloc_free_with_heap hp p s = Ok ((), s)) ∧
  ∀ bl fl, heap_inv c (hdrs s) bl fl →
    (∀ p, is_u64 p → p ≠ 0 → p < buf c ∨ buf c + len c <= p → buffer_alloc_free_with_heap hp p s = Err FAssert) ∧
    (∀ k, k ∈ bl → b_used k = false → buffer_alloc_free_with_heap hp (b_addr k + sizeof_memory_header_s) s = Err FAssert) ∧
    (∀ k, k ∈ bl → b_used k = true → ∃ s' bl' fl',
       buffer_alloc_free_with_heap hp (b_addr k + sizeof_memory_header_s) s
       = (if negb ((verify c .& MBEDTLS_MEMORY_VERIFY_FREE) =? 0) then Err FAssert else Ok ((), s')) ∧
       used_blocks bl ≡ₚ k :: used_blocks bl' ∧ lay_step s s' hp c bl bl' fl' ∧ heap_inv (set_first_free (hd0 fl') c) (hdrs s') bl' fl').
Proof.
  intros Hc. split; [done|]. split.
  { intros H0 p. unfold buffer_alloc_free_with_heap. destruct (p =? 0); [done|]. run_step (cread_run s hp c Hc).
    by destruct H0 as [-> | ->]; rewrite ?orb_true_r. }
  intros bl fl Hi. pose proof (hi_buf _ _ _ _ Hi) as Hb. pose proof (hi_end _ _ _ _ Hi) as He.
  assert (Hpos : buf c <= buf c + len c) by (eapply tiled_le, Hi).
  split; [|split].
  - intros p Hp H0 Hr. unfold buffer_alloc_free_with_heap. rewrite (proj2 (Z.eqb_neq p 0)) by done. run_step (cread_run s hp c Hc).
    rewrite (hi_first _ _ _ _ Hi), (proj2 (Z.eqb_neq (buf c) 0)) by lia. cbn [orb]. rewrite (u64_small (buf c + len c)) by (unfold is_u64; lia).
    destruct (Z.ltb_spec p (buf c)), (Z.leb_spec (buf c + len c) p); try done. lia.
  - intros k Hk Hu. pose proof (hi_range Hi k Hk) as Hr. unfold buffer_alloc_free_with_heap. unfold b_end, sizeof_memory_header_s in *.
    rewrite (proj2 (Z.eqb_neq _ 0)) by lia. run_step (cread_run s hp c Hc). rewrite (hi_first _ _ _ _ Hi), (proj2 (Z.eqb_neq (buf c) 0)) by lia. cbn [orb].
    rewrite (u64_small (buf c + len c)) by (unfold is_u64; lia). rewrite (proj2 (Z.ltb_ge _ _)), (proj2 (Z.leb_gt _ _)) by lia. cbn [orb]. rewrite ret_bind.
    assert ((b_addr k + 64) .- 64 = b_addr k) as -> by (rewrite u64_small; unfold is_u64; lia).
    run_step (hread_run s _ _ (hi_hdr _ _ _ _ Hi k Hk)). rewrite (verify_header_ok Hi k Hk). run_step (massert_run true s eq_refl).
    cbn [alloc hdr_of]. by rewrite Hu.
  - intros k Hk Hu. apply list_elem_of_split in Hk as (l1 & l2 & ->). destruct (free_run Hc Hi Hu) as (s' & E & Hst & Hi'). eexists s', _, _.
    split; [exact E|]. split; [by apply give_used|]. by split.
Qed.

(** * A heap *)

#[local] Instance demo_flags : Mbedtls := {| MBEDTLS_MEMORY_VERIFY_ALLOC := 1; MBEDTLS_MEMORY_VERIFY_FREE := 2 |}.

Definition demo_block : blk := {| b_addr := 4096; b_size := 960; b_used := false |}.
Definition demo_heap : astate :=
  {| ctx_per_cpu := [256]; ctxs := {[256 := init_ctx 4096 1024]};
     hdrs := {[4096 := {| magic1 := MAGIC1; size := 960; alloc := 0; prev := 0; next := 0; prev_free := 0; next_free := 0; magic2 := MAGIC2 |}]};
     data := zero_bytes 4096 1024 (λ _, 0) |}.
Definition demo_next (n sz : Z) (s : astate) : astate := match buffer_alloc_calloc_with_heap 256 n sz s with Ok (_, s') => s' | Err _ => s end.

Lemma demo_inv : heap_inv (init_ctx 4096 1024) (hdrs demo_heap) [demo_block] [4096].
Proof.
  split; try done; [|by repeat constructor]. intros k ->%list_elem_of_singleton. by vm_compute.
Qed.

Lemma calloc_spec_witness :
  buffer_alloc_calloc_with_heap 256 3 5 demo_heap = Ok (4160, demo_next 3 5 demo_heap) ∧
  (((¬ (0 < 3 * 5 <= 2 ^ 64 - 8) ∨ ∀ k, k ∈ [demo_block] → b_used k = false → b_size k < up8 (3 * 5)) ∧
    buffer_alloc_calloc_with_heap 256 3 5 demo_heap = Ok (0, demo_heap)) ∨
   ∃ k s' bl' fl', k ∈ [demo_block] ∧ b_used k = false ∧ 0 < 3 * 5 <= 2 ^ 64 - 8 ∧ up8 (3 * 5) <= b_size k ∧
     let p := b_addr k + sizeof_memory_header_s in
     buffer_alloc_calloc_with_heap 256 3 5 demo_heap = Ok (p, s') ∧
     (p mod 8 = 0 ∧ 4096 < p ∧ p + 3 * 5 <= 5120) ∧
     (∀ k', k' ∈ used_blocks [demo_block] → b_end k' <= b_addr k ∨ p + 3 * 5 <= b_addr k') ∧
     (∀ a, data s' a = if decide (p <= a < p + 3 * 5) then 0 else data demo_heap a) ∧
     heap_step demo_heap s' 256 (init_ctx 4096 1024) [demo_block] bl' fl' ∧ used_blocks bl' ≡ₚ served k (up8 (3 * 5)) :: used_blocks [demo_block]).
Proof.
  split; [by vm_compute|]. apply (calloc_spec demo_heap 256 (init_ctx 4096 1024) [demo_block] [4096] 3 5); [done|apply demo_inv|done|done].
Defined.

Lemma demo_reach : reach 256 (demo_next 1 100 (demo_next 3 5 demo_heap)) [(4240, 100); (4160, 15)].
Proof.
  apply (reach_calloc 256 (demo_next 3 5 demo_heap) _ [(4160, 15)] 1 100 4240); [|done|done|by vm_compute].
  apply (reach_calloc 256 demo_heap _ [] 3 5 4160); [|done|done|by vm_compute].
  by apply (reach_init 256 {| ctx_per_cpu := [256]; ctxs := ∅; hdrs := ∅; data := λ _, 0 |} _ 0 4096 1024).
Qed.

Lemma heap_reach_spec_witness :
  let s := demo_next 1 100 (demo_next 3 5 demo_heap) in let live := [(4240, 100); (4160, 15)] in
  ∃ c, ctxs s !! 256 = Some c ∧
  (∀ p n, (p, n) ∈ live → p mod 8 = 0 ∧ buf c < p ∧ p + n <= buf c + len c) ∧
  (∀ i j pn1 pn2, i ≠ j → live !! i = Some pn1 → live !! j = Some pn2 → pn1.1 + pn1.2 < pn2.1 ∨ pn2.1 + pn2.2 < pn1.1) ∧
  (∀ n sz, is_u64 n → is_u64 sz → ∃ p s', buffer_alloc_calloc_with_heap 256 n sz s = Ok (p, s')) ∧
  (∀ p n, (p, n) ∈ live → ∃ s', buffer_alloc_free_with_heap 256 p s
     = if negb ((verify c .& 2) =? 0) then Err FAssert else Ok ((), s')) ∧
  (live = [] → hdrs s !! buf c = Some {| magic1 := MAGIC1; size := len c - sizeof_memory_header_s; alloc := 0; prev := 0; next := 0;
                                          prev_free := 0; next_free := 0; magic2 := MAGIC2 |} ∧ first_free c = buf c).
Proof.
  intros s live. exact (heap_reach_spec 256 s live demo_reach).
Defined.

Lemma calloc_free_roundtrip_witness :
  ∃ s2 fl2, buffer_alloc_free_with_heap 256 4160 (demo_next 3 5 demo_heap) = Ok ((), s2) ∧ fl2 ≡ₚ [4096] ∧
    ctxs s2 = <[256 := set_first_free (hd0 fl2) (init_ctx 4096 1024)]> (ctxs demo_heap) ∧
    heap_inv (set_first_free (hd0 fl2) (init_ctx 4096 1024)) (hdrs s2) [demo_block] fl2 ∧
    ∀ k a, k ∈ used_blocks [demo_block] → b_addr k + sizeof_memory_header_s <= a < b_end k → data s2 a = data demo_heap a.
Proof.
  apply (calloc_free_roundtrip demo_heap 256 (init_ctx 4096 1024) [demo_block] [4096] 3 5 4160 (demo_next 3 5 demo_heap));
    [done|apply demo_inv|done|done|done|by vm_compute|done].
Defined.

(** With the check behind a release switched on, the release of a good block fails. *)
Definition demo_checked : astate := set_ctxs {[256 := set_verify 2 (init_ctx 4096 1024)]} (demo_next 3 5 demo_heap).

Lemma free_spec_witness :
  buffer_alloc_free_with_heap 256 4160 demo_checked = Err FAssert ∧
  buffer_alloc_free_with_heap 256 0 demo_heap = Ok ((), demo_heap) ∧
  (∀ p, is_u64 p → p ≠ 0 → p < 4096 ∨ 5120 <= p → buffer_alloc_free_with_heap 256 p demo_heap = Err FAssert) ∧
  buffer_alloc_free_with_heap 256 4160 demo_heap = Err FAssert.
Proof.
  destruct (free_spec demo_heap 256 (init_ctx 4096 1024) eq_refl) as (H1 & _ & H2). destruct (H2 _ _ demo_inv) as (H3 & H4 & _).
  split; [by vm_compute|]. split; [exact H1|]. split; [exact H3|]. apply (H4 demo_block); [apply list_elem_of_here|done].
Defined.
