(* ===== verification/SysReg.v ===== *)
(** Trapped accesses of a realm to system registers (runtime/core/sysregs.c, opencca_fwb.c). *)
From S2P Require Import Prelude Types Granule Platform GranuleFind S2tte S2tt Measurement Buffer Walk Exec Realm Rtt Feature Rsi Gic Mpidr Psci Esr RealmCmd RsiCall Exit Rec.

(** * Encodings *)

Definition SYSREG_ESR (op0 op1 crn crm op2 : Z) : Z :=
  INPLACE_F ESR_EL2_SYSREG_TRAP_OP0 op0 .| INPLACE_F ESR_EL2_SYSREG_TRAP_OP1 op1 .| INPLACE_F ESR_EL2_SYSREG_TRAP_CRN crn .|
  INPLACE_F ESR_EL2_SYSREG_TRAP_CRM crm .| INPLACE_F ESR_EL2_SYSREG_TRAP_OP2 op2.

Definition ESR_EL2_SYSREG_MASK : Z := SYSREG_ESR 3 7 15 15 7.
Definition ESR_EL2_SYSREG_ID_MASK : Z := SYSREG_ESR 3 7 15 0 0.
Definition ESR_EL2_SYSREG_ID : Z := SYSREG_ESR 3 0 0 0 0.
Definition ESR_EL2_SYSREG_ID_AA64PFR0_EL1 : Z := SYSREG_ESR 3 0 0 4 0.
Definition ESR_EL2_SYSREG_ID_AA64PFR1_EL1 : Z := SYSREG_ESR 3 0 0 4 1.
Definition ESR_EL2_SYSREG_ID_AA64ZFR0_EL1 : Z := SYSREG_ESR 3 0 0 4 4.
Definition ESR_EL2_SYSREG_ID_AA64SMFR0_EL1 : Z := SYSREG_ESR 3 0 0 4 5.
Definition ESR_EL2_SYSREG_ID_AA64DFR0_EL1 : Z := SYSREG_ESR 3 0 0 5 0.
Definition ESR_EL2_SYSREG_ID_AA64DFR1_EL1 : Z := SYSREG_ESR 3 0 0 5 1.
Definition ESR_EL2_SYSREG_ID_AA64AFR0_EL1 : Z := SYSREG_ESR 3 0 0 5 4.
Definition ESR_EL2_SYSREG_ID_AA64AFR1_EL1 : Z := SYSREG_ESR 3 0 0 5 5.
Definition ESR_EL2_SYSREG_ID_AA64ISAR0_EL1 : Z := SYSREG_ESR 3 0 0 6 0.
Definition ESR_EL2_SYSREG_ID_AA64ISAR1_EL1 : Z := SYSREG_ESR 3 0 0 6 1.
Definition ESR_EL2_SYSREG_ID_AA64MMFR0_EL1 : Z := SYSREG_ESR 3 0 0 7 0.
Definition ESR_EL2_SYSREG_ID_AA64MMFR1_EL1 : Z := SYSREG_ESR 3 0 0 7 1.
Definition ESR_EL2_SYSREG_ID_AA64MMFR2_EL1 : Z := SYSREG_ESR 3 0 0 7 2.
Definition ESR_EL2_SYSREG_ICC_PMR_EL1 : Z := SYSREG_ESR 3 0 4 6 0.
Definition ESR_EL2_SYSREG_SCTLR_EL1 : Z := SYSREG_ESR 3 0 1 0 0.
Definition ESR_EL2_SYSREG_TTBR0_EL1 : Z := SYSREG_ESR 3 0 2 0 0.
Definition ESR_EL2_SYSREG_TTBR1_EL1 : Z := SYSREG_ESR 3 0 2 0 1.
Definition ESR_EL2_SYSREG_TCR_EL1 : Z := SYSREG_ESR 3 0 2 0 2.
Definition ESR_EL2_SYSREG_TCR2_EL1 : Z := SYSREG_ESR 3 0 2 0 3.
Definition ESR_EL2_SYSREG_AFSR0_EL1 : Z := SYSREG_ESR 3 0 5 1 0.
Definition ESR_EL2_SYSREG_AFSR1_EL1 : Z := SYSREG_ESR 3 0 5 1 1.
Definition ESR_EL2_SYSREG_ESR_EL1 : Z := SYSREG_ESR 3 0 5 2 0.
Definition ESR_EL2_SYSREG_FAR_EL1 : Z := SYSREG_ESR 3 0 6 0 0.
Definition ESR_EL2_SYSREG_MAIR_EL1 : Z := SYSREG_ESR 3 0 10 2 0.
Definition ESR_EL2_SYSREG_AMAIR_EL1 : Z := SYSREG_ESR 3 0 10 3 0.
Definition ESR_EL2_SYSREG_CONTEXTIDR_EL1 : Z := SYSREG_ESR 3 0 13 0 1.
Definition ESR_EL2_SYSREG_HCR_TVM_MASK : Z :=
  ESR_EL2_SYSREG_SCTLR_EL1 .| ESR_EL2_SYSREG_TTBR0_EL1 .| ESR_EL2_SYSREG_TTBR1_EL1 .| ESR_EL2_SYSREG_TCR_EL1 .|
  ESR_EL2_SYSREG_TCR2_EL1 .| ESR_EL2_SYSREG_AFSR0_EL1 .| ESR_EL2_SYSREG_AFSR1_EL1 .| ESR_EL2_SYSREG_ESR_EL1 .|
  ESR_EL2_SYSREG_FAR_EL1 .| ESR_EL2_SYSREG_MAIR_EL1 .| ESR_EL2_SYSREG_AMAIR_EL1 .| ESR_EL2_SYSREG_CONTEXTIDR_EL1.
Definition ESR_EL2_SYSREG_ICC_EL1_MASK : Z := SYSREG_ESR 3 3 15 8 0.
Definition ESR_EL2_SYSREG_ICC_EL1 : Z := SYSREG_ESR 3 0 12 8 0.
Definition ESR_EL2_SYSREG_ICC_DIR : Z := SYSREG_ESR 3 0 12 11 1.
Definition ESR_EL2_SYSREG_ICC_SGI1R_EL1 : Z := SYSREG_ESR 3 0 12 11 5.
Definition ESR_EL2_SYSREG_ICC_SGI0R_EL1 : Z := SYSREG_ESR 3 0 12 11 7.

Definition ID_AA64DFR0_EL1_ExtTrcBuff : bitfield := {| fshift := 56; fwidth := 4 |}.
Definition ID_AA64DFR0_EL1_BRBE : bitfield := {| fshift := 52; fwidth := 4 |}.
Definition ID_AA64DFR0_EL1_TraceBuffer : bitfield := {| fshift := 44; fwidth := 4 |}.
Definition ID_AA64DFR0_EL1_TraceFilt : bitfield := {| fshift := 40; fwidth := 4 |}.
Definition ID_AA64DFR0_EL1_PMSVer : bitfield := {| fshift := 32; fwidth := 4 |}.
Definition ID_AA64DFR0_EL1_CTX_CMPS : bitfield := {| fshift := 28; fwidth := 4 |}.
Definition ID_AA64DFR0_EL1_SEBEP : bitfield := {| fshift := 24; fwidth := 4 |}.
Definition ID_AA64DFR0_EL1_PMSS : bitfield := {| fshift := 16; fwidth := 4 |}.
Definition ID_AA64DFR0_EL1_TraceVer : bitfield := {| fshift := 4; fwidth := 4 |}.
Definition ID_AA64DFR1_EL1_EBEP : bitfield := {| fshift := 48; fwidth := 4 |}.
Definition ID_AA64DFR1_EL1_ICNTR : bitfield := {| fshift := 36; fwidth := 4 |}.
Definition ID_AA64PFR0_EL1_SVE : bitfield := {| fshift := 32; fwidth := 4 |}.
Definition ID_AA64PFR0_EL1_AMU : bitfield := {| fshift := 44; fwidth := 4 |}.
Definition ID_AA64PFR1_EL1_MTE : bitfield := {| fshift := 8; fwidth := 4 |}.
Definition ID_AA64PFR1_EL1_SME : bitfield := {| fshift := 24; fwidth := 4 |}.

Definition ID_AA64DFR0_EL1_CLEAR : Z :=
  MASK_F ID_AA64DFR0_EL1_TraceVer .| MASK_F ID_AA64DFR0_EL1_PMSS .| MASK_F ID_AA64DFR0_EL1_SEBEP .| MASK_F ID_AA64DFR0_EL1_CTX_CMPS .|
  MASK_F ID_AA64DFR0_EL1_PMSVer .| MASK_F ID_AA64DFR0_EL1_TraceFilt .| MASK_F ID_AA64DFR0_EL1_TraceBuffer .| MASK_F ID_AA64DFR0_EL1_BRBE .|
  MASK_F ID_AA64DFR0_EL1_ExtTrcBuff.
Definition ID_AA64DFR1_EL1_CLEAR : Z := MASK_F ID_AA64DFR1_EL1_EBEP .| MASK_F ID_AA64DFR1_EL1_ICNTR.
Definition ID_AA64PFR0_EL1_CLEAR : Z := MASK_F ID_AA64PFR0_EL1_AMU.
Definition ID_AA64PFR1_EL1_CLEAR : Z := MASK_F ID_AA64PFR1_EL1_MTE .| MASK_F ID_AA64PFR1_EL1_SME.

Definition SCTLR_ELx_M_BIT : Z := 1 .<< 0.
Definition SCTLR_ELx_C_BIT : Z := 1 .<< 2.

(** The identification registers that only these handlers read. *)
Class IdRegs := {
  read_id_aa64afr0_el1 : Z; read_id_aa64afr1_el1 : Z; read_id_aa64isar0_el1 : Z; read_id_aa64isar1_el1 : Z;
  read_id_aa64mmfr2_el1 : Z; read_id_aa64pfr0_el1 : Z; read_id_aa64pfr1_el1 : Z; read_id_aa64zfr0_el1 : Z;
}.

(** The realm's registers that are trapped while its caches are off. *)
Inductive vm_reg :=
  | SCTLR_EL12 | TTBR0_EL12 | TTBR1_EL12 | TCR_EL12 | MAIR_EL12 | AMAIR_EL12 | CONTEXTIDR_EL12 | AFSR0_EL12 | AFSR1_EL12 | ESR_EL12 | FAR_EL12.
#[export] Instance vm_reg_eq_dec : EqDecision vm_reg.
Proof. solve_decision. Defined.

(** Their values, HCR_EL2, and how often the data cache was flushed. *)
Record vm_regs := { vm_file : vm_reg → Z; vm_hcr_el2 : Z; vm_flushes : nat }.
Definition vm_write (x : vm_reg) (v : Z) (m : vm_regs) : vm_regs :=
  {| vm_file := λ y, if decide (y = x) then v else vm_file m y; vm_hcr_el2 := vm_hcr_el2 m; vm_flushes := vm_flushes m |}.

(** What a trap works on. *)
Record trap := { t_rec : rec; t_exit : rmi_rec_exit; t_vm : vm_regs }.
Definition trap_rec (r : rec) (t : trap) : trap := {| t_rec := r; t_exit := t_exit t; t_vm := t_vm t |}.
Definition trap_exit (e : rmi_rec_exit) (t : trap) : trap := {| t_rec := t_rec t; t_exit := e; t_vm := t_vm t |}.
Definition trap_vm (v : vm_regs) (t : trap) : trap := {| t_rec := t_rec t; t_exit := t_exit t; t_vm := v |}.

(** [rec->regs[rt] = v] *)
Definition trap_set_reg (rt v : Z) (t : trap) : result trap :=
  aset (regs (t_rec t)) rt v ≫= λ l, Ok (trap_rec (set_regs l (t_rec t)) t).

Section sysreg.
Context {CF : Config} {CPU : Cpu} {ID : IdRegs}.

Definition is_feat_sve_present : bool := negb (EXTRACT_F ID_AA64PFR0_EL1_SVE read_id_aa64pfr0_el1 =? 0).

(** * Identification registers *)

(** The [switch] of [handle_id_sysreg_trap]. *)
Definition id_reg_value (r : rec) (idreg : Z) : Z :=
  let sve_en := sve_en (inf_simd_cfg (realm_info r)) in
  if idreg =? ESR_EL2_SYSREG_ID_AA64AFR0_EL1 then read_id_aa64afr0_el1
  else if idreg =? ESR_EL2_SYSREG_ID_AA64AFR1_EL1 then read_id_aa64afr1_el1
  else if idreg =? ESR_EL2_SYSREG_ID_AA64DFR0_EL1 then read_id_aa64dfr0_el1 .& .~ ID_AA64DFR0_EL1_CLEAR
  else if idreg =? ESR_EL2_SYSREG_ID_AA64DFR1_EL1 then read_id_aa64dfr1_el1 .& .~ ID_AA64DFR1_EL1_CLEAR
  else if idreg =? ESR_EL2_SYSREG_ID_AA64ISAR0_EL1 then read_id_aa64isar0_el1
  else if idreg =? ESR_EL2_SYSREG_ID_AA64ISAR1_EL1 then read_id_aa64isar1_el1
  else if idreg =? ESR_EL2_SYSREG_ID_AA64MMFR0_EL1 then read_id_aa64mmfr0_el1
  else if idreg =? ESR_EL2_SYSREG_ID_AA64MMFR1_EL1 then read_id_aa64mmfr1_el1
  else if idreg =? ESR_EL2_SYSREG_ID_AA64MMFR2_EL1 then read_id_aa64mmfr2_el1
  else if idreg =? ESR_EL2_SYSREG_ID_AA64PFR0_EL1 then
    let value := read_id_aa64pfr0_el1 .& .~ ID_AA64PFR0_EL1_CLEAR in
    if negb (EXTRACT_F ID_AA64PFR0_EL1_SVE value =? 0) && negb sve_en then value .& .~ (MASK_F ID_AA64PFR0_EL1_SVE) else value
  else if idreg =? ESR_EL2_SYSREG_ID_AA64PFR1_EL1 then read_id_aa64pfr1_el1 .& .~ ID_AA64PFR1_EL1_CLEAR
  else if idreg =? ESR_EL2_SYSREG_ID_AA64ZFR0_EL1 then if is_feat_sve_present && sve_en then read_id_aa64zfr0_el1 else 0
  else if idreg =? ESR_EL2_SYSREG_ID_AA64SMFR0_EL1 then 0
  else 0.

Definition handle_id_sysreg_trap (t : trap) (esr : Z) : result (bool * trap) :=
  rassert (negb (ESR_EL2_SYSREG_IS_WRITE esr)) ≫= λ _,
  let rt := u32 (ESR_EL2_SYSREG_ISS_RT esr) in
  if rt =? 31 then Ok (true, t)
  else
    let idreg := esr .& ESR_EL2_SYSREG_MASK in
    trap_set_reg rt (id_reg_value (t_rec t) idreg) t ≫= λ t, Ok (true, t).

(** * The interrupt controller *)

Definition handle_icc_el1_sysreg_trap (t : trap) (esr : Z) : result (bool * trap) :=
  let sysreg := esr .& ESR_EL2_SYSREG_MASK in
  rassert ((sysreg =? ESR_EL2_SYSREG_ICC_DIR) || (sysreg =? ESR_EL2_SYSREG_ICC_SGI1R_EL1) || (sysreg =? ESR_EL2_SYSREG_ICC_SGI0R_EL1)) ≫= λ _,
  rassert (ESR_EL2_SYSREG_IS_WRITE esr) ≫= λ _,
  Ok (false, trap_exit (set_exit_esr esr (set_exit_reason RMI_EXIT_SYNC (t_exit t))) t).

(** * Registers of a realm whose caches are off, on boards without forced write-back *)

(** The [switch] over the encodings in [read_sysreg_by_esr] and [write_sysreg_by_esr]; [None] is the
    case that reports an unknown register. *)
Definition vm_reg_of (esr_val : Z) : option vm_reg :=
  if esr_val =? ESR_EL2_SYSREG_SCTLR_EL1 then Some SCTLR_EL12
  else if esr_val =? ESR_EL2_SYSREG_TTBR0_EL1 then Some TTBR0_EL12
  else if esr_val =? ESR_EL2_SYSREG_TTBR1_EL1 then Some TTBR1_EL12
  else if esr_val =? ESR_EL2_SYSREG_TCR_EL1 then Some TCR_EL12
  else if esr_val =? ESR_EL2_SYSREG_MAIR_EL1 then Some MAIR_EL12
  else if esr_val =? ESR_EL2_SYSREG_AMAIR_EL1 then Some AMAIR_EL12
  else if esr_val =? ESR_EL2_SYSREG_CONTEXTIDR_EL1 then Some CONTEXTIDR_EL12
  else if esr_val =? ESR_EL2_SYSREG_AFSR0_EL1 then Some AFSR0_EL12
  else if esr_val =? ESR_EL2_SYSREG_AFSR1_EL1 then Some AFSR1_EL12
  else if esr_val =? ESR_EL2_SYSREG_ESR_EL1 then Some ESR_EL12
  else if esr_val =? ESR_EL2_SYSREG_FAR_EL1 then Some FAR_EL12
  else None.

Definition read_sysreg_by_esr (esr_val : Z) (m : vm_regs) : Z := match vm_reg_of esr_val with Some x => vm_file m x | None => 0 end.
Definition write_sysreg_by_esr (esr_val val : Z) (m : vm_regs) : vm_regs :=
  match vm_reg_of esr_val with Some x => vm_write x val m | None => m end.

Definition has_cache_enabled (m : vm_regs) : bool :=
  let cache_bits := SCTLR_ELx_M_BIT .| SCTLR_ELx_C_BIT in
  (vm_file m SCTLR_EL12 .& cache_bits) =? cache_bits.

Definition opencca_stage2_flush_realm (m : vm_regs) : vm_regs :=
  {| vm_file := vm_file m; vm_hcr_el2 := vm_hcr_el2 m; vm_flushes := S (vm_flushes m) |}.

Definition toggle_cache (t : trap) (was_enabled : bool) : trap :=
  let now_enabled := has_cache_enabled (t_vm t) in
  let t := if negb (eqb now_enabled was_enabled) then trap_vm (opencca_stage2_flush_realm (t_vm t)) t else t in
  if now_enabled then
    let m := t_vm t in
    let t := trap_vm {| vm_file := vm_file m; vm_hcr_el2 := vm_hcr_el2 m .& .~ HCR_TVM; vm_flushes := vm_flushes m |} t in
    let y := common_sysregs (t_rec t) in
    trap_rec (set_common_sysregs {| c_vttbr_el2 := c_vttbr_el2 y; c_vtcr_el2 := c_vtcr_el2 y; c_hcr_el2 := c_hcr_el2 y .& .~ HCR_TVM;
                                    c_mdcr_el2 := c_mdcr_el2 y |} (t_rec t)) t
  else t.

Definition opencca_handle_esr_tvm_sysreg_trap (t : trap) (esr : Z) : result (bool * trap) :=
  let sysreg := esr .& ESR_EL2_SYSREG_MASK in
  let rt := u32 (ESR_EL2_SYSREG_ISS_RT esr) in
  let was_cache_enabled := has_cache_enabled (t_vm t) in
  (if ESR_EL2_SYSREG_IS_WRITE esr
   then aget (regs (t_rec t)) rt ≫= λ v, Ok (trap_vm (write_sysreg_by_esr sysreg v (t_vm t)) t)
   else trap_set_reg rt (read_sysreg_by_esr sysreg (t_vm t)) t) ≫= λ t,
  Ok (true, toggle_cache t was_cache_enabled).

(** * Dispatch *)

Record sysreg_handler := { esr_mask : Z; esr_value : Z; fn : trap → Z → result (bool * trap) }.
Definition SYSREG_HANDLER (mask value : Z) (f : trap → Z → result (bool * trap)) : sysreg_handler :=
  {| esr_mask := mask; esr_value := value; fn := f |}.

Definition sysreg_handlers : list sysreg_handler :=
  [ SYSREG_HANDLER ESR_EL2_SYSREG_ID_MASK ESR_EL2_SYSREG_ID handle_id_sysreg_trap;
    SYSREG_HANDLER ESR_EL2_SYSREG_ICC_EL1_MASK ESR_EL2_SYSREG_ICC_EL1 handle_icc_el1_sysreg_trap;
    SYSREG_HANDLER ESR_EL2_SYSREG_MASK ESR_EL2_SYSREG_ICC_PMR_EL1 handle_icc_el1_sysreg_trap ] ++
  if ENABLE_OPENCCA then
    (λ v, SYSREG_HANDLER ESR_EL2_SYSREG_HCR_TVM_MASK v opencca_handle_esr_tvm_sysreg_trap) <$>
      [ ESR_EL2_SYSREG_SCTLR_EL1; ESR_EL2_SYSREG_TTBR0_EL1; ESR_EL2_SYSREG_TTBR1_EL1; ESR_EL2_SYSREG_TCR_EL1; ESR_EL2_SYSREG_TCR2_EL1;
        ESR_EL2_SYSREG_AFSR0_EL1; ESR_EL2_SYSREG_AFSR1_EL1; ESR_EL2_SYSREG_ESR_EL1; ESR_EL2_SYSREG_FAR_EL1; ESR_EL2_SYSREG_MAIR_EL1;
        ESR_EL2_SYSREG_AMAIR_EL1; ESR_EL2_SYSREG_CONTEXTIDR_EL1 ]
  else [].

Definition get_sysreg_write_value (r : rec) (esr : Z) : result Z :=
  let rt := u32 (ESR_EL2_SYSREG_ISS_RT esr) in
  if rt =? 31 then Ok 0 else aget (regs r) rt.

Definition emulate_sysreg_access_ns (t : trap) (esr : Z) : result trap :=
  if ESR_EL2_SYSREG_IS_WRITE esr then
    get_sysreg_write_value (t_rec t) esr ≫= λ v,
    aset (ex_gprs (t_exit t)) 0 v ≫= λ l, Ok (trap_exit (set_exit_gprs l (t_exit t)) t)
  else Ok t.

(** The loop over the handlers, and what comes behind it. *)
Fixpoint dispatch_sysreg (l : list sysreg_handler) (t : trap) (esr : Z) : result (bool * trap) :=
  match l with
  | [] =>
      let rt := u32 (ESR_EL2_SYSREG_ISS_RT esr) in
      (if negb (ESR_EL2_SYSREG_IS_WRITE esr) && negb (rt =? 31) then trap_set_reg rt 0 t else Ok t) ≫= λ t, Ok (true, t)
  | handler :: l' =>
      if (esr .& esr_mask handler) =? esr_value handler then
        fn handler t esr ≫= λ o : bool * trap,
        let '(handled, t) := o in
        (if negb handled then emulate_sysreg_access_ns t esr else Ok t) ≫= λ t, Ok (handled, t)
      else dispatch_sysreg l' t esr
  end.

(** [true]: the realm goes on. *)
Definition handle_sysreg_access_trap (t : trap) (esr : Z) : result (bool * trap) :=
  rassert (negb (ESR_IL esr =? 0)) ≫= λ _, dispatch_sysreg sysreg_handlers t esr.
End sysreg.
