(* ===== verification/SysRegSpec.v ===== *)
(** What a trapped access to a system register does to the realm, and what the host learns of it. *)
From S2P Require Import Prelude Types Granule Platform GranuleFind S2tte S2tt Measurement Buffer Walk Exec Realm Rtt Feature Rsi Gic Mpidr Psci Esr RealmCmd RsiCall Exit Rec SysReg.

(** The register of the instruction: 31 is XZR. *)
Definition trap_rt (esr : Z) : Z := ESR_EL2_SYSREG_ISS_RT esr.
Definition put_reg (rt v : Z) (r : rec) : rec := if rt =? 31 then r else set_regs (<[Z.to_nat rt := v]> (regs r)) r.
Definition get_reg (rt : Z) (r : rec) : Z := if rt =? 31 then 0 else default 0 (regs r !! Z.to_nat rt).

Definition in_id_space (esr : Z) : bool := (esr .& ESR_EL2_SYSREG_ID_MASK) =? ESR_EL2_SYSREG_ID.
Definition in_icc_space (esr : Z) : bool :=
  ((esr .& ESR_EL2_SYSREG_ICC_EL1_MASK) =? ESR_EL2_SYSREG_ICC_EL1) || ((esr .& ESR_EL2_SYSREG_MASK) =? ESR_EL2_SYSREG_ICC_PMR_EL1).
Definition tvm_values : list Z :=
  [ ESR_EL2_SYSREG_SCTLR_EL1; ESR_EL2_SYSREG_TTBR0_EL1; ESR_EL2_SYSREG_TTBR1_EL1; ESR_EL2_SYSREG_TCR_EL1; ESR_EL2_SYSREG_TCR2_EL1;
    ESR_EL2_SYSREG_AFSR0_EL1; ESR_EL2_SYSREG_AFSR1_EL1; ESR_EL2_SYSREG_ESR_EL1; ESR_EL2_SYSREG_FAR_EL1; ESR_EL2_SYSREG_MAIR_EL1;
    ESR_EL2_SYSREG_AMAIR_EL1; ESR_EL2_SYSREG_CONTEXTIDR_EL1 ].
Definition in_tvm_space (esr : Z) : bool := existsb (λ v, (esr .& ESR_EL2_SYSREG_HCR_TVM_MASK) =? v) tvm_values.
Definition is_icc_reg (esr : Z) : bool :=
  let sysreg := esr .& ESR_EL2_SYSREG_MASK in
  (sysreg =? ESR_EL2_SYSREG_ICC_DIR) || (sysreg =? ESR_EL2_SYSREG_ICC_SGI1R_EL1) || (sysreg =? ESR_EL2_SYSREG_ICC_SGI0R_EL1).

Lemma trap_rt_range esr : 0 <= trap_rt esr < 32.
Proof. apply (EXTRACT_range 5 5 esr); lia. Qed.

Lemma trap_rt_u32 esr : u32 (ESR_EL2_SYSREG_ISS_RT esr) = trap_rt esr.
Proof. unfold u32. pose proof (trap_rt_range esr). unfold trap_rt in *. apply Z.mod_small. lia. Qed.

Section spec.
Context {CF : Config} {CPU : Cpu} {ID : IdRegs}.

Lemma dispatch_tvm vals t esr :
  dispatch_sysreg ((λ v, SYSREG_HANDLER ESR_EL2_SYSREG_HCR_TVM_MASK v opencca_handle_esr_tvm_sysreg_trap) <$> vals) t esr
  = if existsb (λ v, (esr .& ESR_EL2_SYSREG_HCR_TVM_MASK) =? v) vals
    then opencca_handle_esr_tvm_sysreg_trap t esr else dispatch_sysreg [] t esr.
Proof.
  induction vals as [|v vals IH]; [done|]. cbn [fmap list_fmap dispatch_sysreg existsb esr_mask esr_value SYSREG_HANDLER].
  destruct (_ =? v); [|exact IH]. cbn [orb fn SYSREG_HANDLER]. unfold opencca_handle_esr_tvm_sysreg_trap.
  set (X := if ESR_EL2_SYSREG_IS_WRITE esr then _ else _). by destruct X.
Qed.

Section trap.
Context (t : trap) (Hr : length (regs (t_rec t)) = 31%nat) (Hg : length (ex_gprs (t_exit t)) = 31%nat).

Lemma set_reg_run esr v : trap_rt esr ≠ 31 → trap_set_reg (trap_rt esr) v t = Ok (trap_rec (put_reg (trap_rt esr) v (t_rec t)) t).
Proof using Hr Hg.
  intros Hn. unfold trap_set_reg, put_reg. pose proof (trap_rt_range esr). rewrite aset_ok by (rewrite Hr; lia).
  by rewrite (proj2 (Z.eqb_neq _ _) Hn).
Qed.

Lemma default_run esr : dispatch_sysreg [] t esr
  = Ok (true, if ESR_EL2_SYSREG_IS_WRITE esr then t else trap_rec (put_reg (trap_rt esr) 0 (t_rec t)) t).
Proof using Hr Hg.
  cbn [dispatch_sysreg]. rewrite trap_rt_u32. destruct (ESR_EL2_SYSREG_IS_WRITE esr); [done|]. cbn [negb andb].
  destruct (Z.eqb_spec (trap_rt esr) 31) as [E|E]; cbn [negb].
  - unfold put_reg. rewrite E. cbn. by destruct t.
  - by rewrite set_reg_run.
Qed.

Lemma id_trap_run esr : handle_id_sysreg_trap t esr
  = if ESR_EL2_SYSREG_IS_WRITE esr then Err FAssert
    else Ok (true, trap_rec (put_reg (trap_rt esr) (id_reg_value (t_rec t) (esr .& ESR_EL2_SYSREG_MASK)) (t_rec t)) t).
Proof using Hr Hg.
  unfold handle_id_sysreg_trap. destruct (ESR_EL2_SYSREG_IS_WRITE esr); [done|]. rewrite rassert_bind by done. rewrite trap_rt_u32.
  destruct (Z.eqb_spec (trap_rt esr) 31) as [E|E].
  - unfold put_reg. rewrite E. cbn. by destruct t.
  - by rewrite set_reg_run.
Qed.

Lemma get_reg_run esr : get_sysreg_write_value (t_rec t) esr = Ok (get_reg (trap_rt esr) (t_rec t)).
Proof using Hr Hg.
  unfold get_sysreg_write_value, get_reg. rewrite trap_rt_u32. destruct (Z.eqb_spec (trap_rt esr) 31) as [E|E]; [done|].
  pose proof (trap_rt_range esr). destruct (aget_in_range (regs (t_rec t)) (trap_rt esr)) as (v & -> & ->); [rewrite Hr; lia|done].
Qed.

(** What the host is told of a write to the interrupt controller. *)
Definition icc_exit (esr : Z) : rmi_rec_exit :=
  set_exit_gprs (<[0%nat := get_reg (trap_rt esr) (t_rec t)]> (ex_gprs (t_exit t))) (set_exit_esr esr (set_exit_reason RMI_EXIT_SYNC (t_exit t))).

Lemma icc_trap_run esr :
  (handle_icc_el1_sysreg_trap t esr ≫= λ o : bool * trap,
   let '(handled, t) := o in (if negb handled then emulate_sysreg_access_ns t esr else Ok t) ≫= λ t, Ok (handled, t))
  = if is_icc_reg esr && ESR_EL2_SYSREG_IS_WRITE esr then Ok (false, trap_exit (icc_exit esr) t) else Err FAssert.
Proof using Hr Hg.
  unfold handle_icc_el1_sysreg_trap. fold (is_icc_reg esr). destruct (is_icc_reg esr); [|done].
  destruct (ESR_EL2_SYSREG_IS_WRITE esr) eqn:Hw; [|done]. cbn [andb rassert mbind result_bind negb]. unfold emulate_sysreg_access_ns.
  rewrite Hw. cbn [t_rec t_exit trap_exit]. rewrite get_reg_run. cbn [mbind result_bind].
  rewrite aset_ok by (cbn; rewrite Hg; lia). done.
Qed.

Lemma sysreg_run esr : ESR_IL esr ≠ 0 → handle_sysreg_access_trap t esr
  = if in_id_space esr then
      if ESR_EL2_SYSREG_IS_WRITE esr then Err FAssert
      else Ok (true, trap_rec (put_reg (trap_rt esr) (id_reg_value (t_rec t) (esr .& ESR_EL2_SYSREG_MASK)) (t_rec t)) t)
    else if in_icc_space esr then
      if is_icc_reg esr && ESR_EL2_SYSREG_IS_WRITE esr then Ok (false, trap_exit (icc_exit esr) t) else Err FAssert
    else if ENABLE_OPENCCA && in_tvm_space esr then opencca_handle_esr_tvm_sysreg_trap t esr
    else Ok (true, if ESR_EL2_SYSREG_IS_WRITE esr then t else trap_rec (put_reg (trap_rt esr) 0 (t_rec t)) t).
Proof using Hr Hg.
  intros Hil. unfold handle_sysreg_access_trap. rewrite rassert_bind by (by rewrite (proj2 (Z.eqb_neq _ _) Hil)).
  unfold sysreg_handlers. cbn [app dispatch_sysreg esr_mask esr_value SYSREG_HANDLER fn]. fold (in_id_space esr).
  destruct (in_id_space esr). { rewrite id_trap_run. by destruct (ESR_EL2_SYSREG_IS_WRITE esr). }
  unfold in_icc_space. destruct ((esr .& ESR_EL2_SYSREG_ICC_EL1_MASK) =? ESR_EL2_SYSREG_ICC_EL1); [by rewrite icc_trap_run|].
  destruct ((esr .& ESR_EL2_SYSREG_MASK) =? ESR_EL2_SYSREG_ICC_PMR_EL1); [by rewrite icc_trap_run|]. cbn [orb].
  destruct ENABLE_OPENCCA; cbn [andb]; [|apply default_run]. rewrite dispatch_tvm. fold tvm_values. fold (in_tvm_space esr).
  destruct (in_tvm_space esr); [done|apply default_run].
Qed.
End trap.

(** * Registers of the translation regime *)

Lemma tvm_run t esr : length (regs (t_rec t)) = 31%nat →
  opencca_handle_esr_tvm_sysreg_trap t esr
  = if trap_rt esr =? 31 then Err FBadAccess
    else Ok (true, toggle_cache (if ESR_EL2_SYSREG_IS_WRITE esr
                                 then trap_vm (write_sysreg_by_esr (esr .& ESR_EL2_SYSREG_MASK) (get_reg (trap_rt esr) (t_rec t)) (t_vm t)) t
                                 else trap_rec (put_reg (trap_rt esr) (read_sysreg_by_esr (esr .& ESR_EL2_SYSREG_MASK) (t_vm t)) (t_rec t)) t)
                     (has_cache_enabled (t_vm t))).
Proof.
  intros Hr. unfold opencca_handle_esr_tvm_sysreg_trap. rewrite trap_rt_u32. pose proof (trap_rt_range esr) as Hx.
  destruct (Z.eqb_spec (trap_rt esr) 31) as [E|E].
  - rewrite E. destruct (ESR_EL2_SYSREG_IS_WRITE esr).
    + unfold aget. cbn [Z.leb Z.compare]. by rewrite lookup_ge_None_2 by (rewrite Hr; vm_compute; lia).
    + unfold trap_set_reg, aset. by rewrite Hr.
  - destruct (ESR_EL2_SYSREG_IS_WRITE esr).
    + unfold get_reg. rewrite (proj2 (Z.eqb_neq _ _) E). destruct (aget_in_range (regs (t_rec t)) (trap_rt esr)) as (v & -> & ->); [rewrite Hr; lia|done].
    + unfold trap_set_reg, put_reg. rewrite aset_ok by (rewrite Hr; lia). by rewrite (proj2 (Z.eqb_neq _ _) E).
Qed.

Lemma toggle_frame t was : t_exit (toggle_cache t was) = t_exit t ∧ vm_file (t_vm (toggle_cache t was)) = vm_file (t_vm t) ∧
  vm_flushes (t_vm (toggle_cache t was)) = (vm_flushes (t_vm t) + if eqb (has_cache_enabled (t_vm t)) was then 0 else 1)%nat ∧
  vm_hcr_el2 (t_vm (toggle_cache t was)) = (if has_cache_enabled (t_vm t) then vm_hcr_el2 (t_vm t) .& .~ HCR_TVM else vm_hcr_el2 (t_vm t)) ∧
  regs (t_rec (toggle_cache t was)) = regs (t_rec t).
Proof. unfold toggle_cache. destruct (has_cache_enabled (t_vm t)), was; cbn; split_and!; try done; lia. Qed.
End spec.

(** The encodings of the registers that are trapped while the caches are off. *)
Lemma vm_reg_space esr x : vm_reg_of (esr .& ESR_EL2_SYSREG_MASK) = Some x →
  in_id_space esr = false ∧ in_icc_space esr = false ∧ in_tvm_space esr = true.
Proof.
  assert (Hsub : ∀ m, m .& ESR_EL2_SYSREG_MASK = m → esr .& m = (esr .& ESR_EL2_SYSREG_MASK) .& m) by (intros m Hm; by rewrite <- Z.land_assoc, (Z.land_comm ESR_EL2_SYSREG_MASK), Hm).
  unfold in_id_space, in_icc_space, in_tvm_space.
  rewrite (Hsub ESR_EL2_SYSREG_ID_MASK), (Hsub ESR_EL2_SYSREG_ICC_EL1_MASK), (Hsub ESR_EL2_SYSREG_HCR_TVM_MASK) by (by vm_compute).
  generalize (esr .& ESR_EL2_SYSREG_MASK). intros z. unfold vm_reg_of.
  repeat (match goal with |- context [z =? ?e] => destruct (Z.eqb_spec z e) as [->|?]; [intros _; by vm_compute|] end). done.
Qed.

(** * What a realm sees of the processor *)

Definition in_word (f : bitfield) : bool := (0 <=? fshift f) && (0 <? fwidth f) && (fshift f + fwidth f <=? 64).

Lemma extract_clear f v m : in_word f = true →
  (EXTRACT_F f m = Z.ones (fwidth f) → EXTRACT_F f (v .& .~ m) = 0) ∧ (EXTRACT_F f m = 0 → EXTRACT_F f (v .& .~ m) = EXTRACT_F f v).
Proof.
  unfold in_word. rewrite !andb_true_iff, !Z.leb_le, Z.ltb_lt. intros [[H1 H2] H3]. unfold EXTRACT_F. split; intros Hm; apply Z.bits_inj'; intros i Hi;
    apply (f_equal (λ z, Z.testbit z i)) in Hm; rewrite !testbit_EXTRACT in * by lia; rewrite ?Z.bits_0, ?Z.testbit_ones in * by lia;
    rewrite Z.land_spec, testbit_not64 by lia; destruct (Z.ltb_spec i (fwidth f)); cbn [andb] in *; try done.
  - rewrite (proj2 (Z.leb_le 0 i)) in Hm by lia. rewrite Hm. cbn. by rewrite !andb_false_r.
  - rewrite Hm, (proj2 (Z.ltb_lt (i + fshift f) 64)) by lia. by rewrite andb_true_r.
Qed.

Lemma extract_cleared f v m : in_word f = true → EXTRACT_F f m = Z.ones (fwidth f) → EXTRACT_F f (v .& .~ m) = 0.
Proof. intros Hf. by apply (proj1 (extract_clear f v m Hf)). Qed.
Lemma extract_kept f v m : in_word f = true → EXTRACT_F f m = 0 → EXTRACT_F f (v .& .~ m) = EXTRACT_F f v.
Proof. intros Hf. by apply (proj2 (extract_clear f v m Hf)). Qed.

(** The encodings that are compared are constants. *)
Ltac eval_encodings :=
  repeat match goal with
  | |- context [?a =? ?b] =>
      is_const a; is_const b; let v := eval vm_compute in (a =? b) in
      match v with true => change (a =? b) with true | false => change (a =? b) with false end
  end; cbv match.

Section hidden.
Context {CF : Config} {CPU : Cpu} {ID : IdRegs} (r : rec).
Local Abbreviation seen x := (id_reg_value r x).

(** What the identification registers that a realm reads say of the features that realms do not
    have. *)
Lemma id_regs_hidden :
  Forall (λ f, EXTRACT_F f (seen ESR_EL2_SYSREG_ID_AA64DFR0_EL1) = 0)
    [ID_AA64DFR0_EL1_TraceVer; ID_AA64DFR0_EL1_PMSS; ID_AA64DFR0_EL1_SEBEP; ID_AA64DFR0_EL1_CTX_CMPS; ID_AA64DFR0_EL1_PMSVer;
     ID_AA64DFR0_EL1_TraceFilt; ID_AA64DFR0_EL1_TraceBuffer; ID_AA64DFR0_EL1_BRBE; ID_AA64DFR0_EL1_ExtTrcBuff] ∧
  Forall (λ f, EXTRACT_F f (seen ESR_EL2_SYSREG_ID_AA64DFR1_EL1) = 0) [ID_AA64DFR1_EL1_EBEP; ID_AA64DFR1_EL1_ICNTR] ∧
  Forall (λ f, EXTRACT_F f (seen ESR_EL2_SYSREG_ID_AA64PFR1_EL1) = 0) [ID_AA64PFR1_EL1_MTE; ID_AA64PFR1_EL1_SME] ∧
  EXTRACT_F ID_AA64PFR0_EL1_AMU (seen ESR_EL2_SYSREG_ID_AA64PFR0_EL1) = 0 ∧
  EXTRACT_F ID_AA64PFR0_EL1_SVE (seen ESR_EL2_SYSREG_ID_AA64PFR0_EL1)
    = (if sve_en (inf_simd_cfg (realm_info r)) then EXTRACT_F ID_AA64PFR0_EL1_SVE read_id_aa64pfr0_el1 else 0) ∧
  (sve_en (inf_simd_cfg (realm_info r)) = false → seen ESR_EL2_SYSREG_ID_AA64ZFR0_EL1 = 0) ∧
  seen ESR_EL2_SYSREG_ID_AA64SMFR0_EL1 = 0.
Proof.
  unfold id_reg_value. eval_encodings. split_and!.
  - repeat (apply Forall_cons_2; [by apply extract_cleared|]). apply Forall_nil_2.
  - repeat (apply Forall_cons_2; [by apply extract_cleared|]). apply Forall_nil_2.
  - repeat (apply Forall_cons_2; [by apply extract_cleared|]). apply Forall_nil_2.
  - set (v := read_id_aa64pfr0_el1 .& _). assert (Hv : EXTRACT_F ID_AA64PFR0_EL1_AMU v = 0) by (by apply extract_cleared).
    destruct (_ && _); [|done]. by rewrite extract_kept.
  - set (v := read_id_aa64pfr0_el1 .& _).
    assert (Hv : EXTRACT_F ID_AA64PFR0_EL1_SVE v = EXTRACT_F ID_AA64PFR0_EL1_SVE read_id_aa64pfr0_el1) by (by apply extract_kept).
    destruct (sve_en _); cbn [negb]; [by rewrite andb_false_r|]. rewrite andb_true_r.
    destruct (Z.eqb_spec (EXTRACT_F ID_AA64PFR0_EL1_SVE v) 0); [done|]. cbn [negb]. by apply extract_cleared.
  - intros ->. by rewrite andb_false_r.
  - done.
Qed.
End hidden.

(** * Theorems *)


(** While the caches of a realm are off, on boards without forced write-back. A write to a
    register of the translation regime reaches that register and no other, a read gives its
    value; the data cache is flushed exactly when the access has switched the caches on or off;
    and the traps end exactly when they are on. *)
Theorem tvm_trap_spec {CF : Config} {CPU : Cpu} {ID : IdRegs} t esr x :
  length (regs (t_rec t)) = 31%nat → length (ex_gprs (t_exit t)) = 31%nat → ESR_IL esr ≠ 0 → ENABLE_OPENCCA = true →
  vm_reg_of (esr .& ESR_EL2_SYSREG_MASK) = Some x → trap_rt esr ≠ 31 →
  ∃ t', handle_sysreg_access_trap t esr = Ok (true, t') ∧ t_exit t' = t_exit t ∧
    let write := ESR_EL2_SYSREG_IS_WRITE esr in
    regs (t_rec t') = (if write then regs (t_rec t) else <[Z.to_nat (trap_rt esr) := vm_file (t_vm t) x]> (regs (t_rec t))) ∧
    (∀ y, vm_file (t_vm t') y = if decide (y = x) then if write then get_reg (trap_rt esr) (t_rec t) else vm_file (t_vm t) x else vm_file (t_vm t) y) ∧
    let on := has_cache_enabled (t_vm t') in
    vm_flushes (t_vm t') = (vm_flushes (t_vm t) + if eqb on (has_cache_enabled (t_vm t)) then 0 else 1)%nat ∧
    vm_hcr_el2 (t_vm t') = (if on then vm_hcr_el2 (t_vm t) .& .~ HCR_TVM else vm_hcr_el2 (t_vm t)).
Proof.
  intros Hr Hg Hil Ho Hx H31. destruct (vm_reg_space esr x Hx) as (Hid & Hicc & Ht). rewrite (sysreg_run t Hr Hg esr Hil), Hid, Hicc, Ho, Ht. cbn [andb]. rewrite tvm_run by done.
  rewrite (proj2 (Z.eqb_neq _ _) H31). eexists. split; [done|]. match goal with |- context [toggle_cache ?t1 ?w] => destruct (toggle_frame t1 w) as (F1 & F2 & F3 & F4 & F5) end.
  cbv zeta. assert (Hc : ∀ m m', vm_file m = vm_file m' → has_cache_enabled m = has_cache_enabled m') by (intros m m' E; unfold has_cache_enabled; by rewrite E).
  rewrite (Hc _ _ F2), F1, F2, F3, F4, F5. unfold write_sysreg_by_esr, read_sysreg_by_esr. rewrite Hx.
  destruct (ESR_EL2_SYSREG_IS_WRITE esr); cbn [t_exit t_rec t_vm trap_vm trap_rec vm_file vm_write vm_flushes vm_hcr_el2].
  - split; [done|]. split; [done|]. split; [done|]. split; done.
  - split; [done|]. split; [unfold put_reg; by rewrite (proj2 (Z.eqb_neq _ _) H31)|]. split; [|done]. intros y. by destruct (decide (y = x)) as [->|].
Qed.

(** * Accesses *)

#[local] Instance trap_cpu : Cpu :=
  {| read_id_aa64mmfr0_el1 := 5; read_id_aa64mmfr1_el1 := 0; read_id_aa64dfr0_el1 := 0; read_id_aa64dfr1_el1 := 0; read_pmcr_el0 := 0;
     g_simd_init_done := true; g_simd_cfg := inf_simd_cfg (realm_info demo_rec); nr_lrs := 3 |}.
#[local] Instance trap_ids : IdRegs :=
  {| read_id_aa64afr0_el1 := 0; read_id_aa64afr1_el1 := 0; read_id_aa64isar0_el1 := 0; read_id_aa64isar1_el1 := 0; read_id_aa64mmfr2_el1 := 0;
     read_id_aa64pfr0_el1 := 0x1100000011; read_id_aa64pfr1_el1 := 0; read_id_aa64zfr0_el1 := 0 |}.
Definition board (opencca : bool) : Config := {| ENABLE_OPENCCA := opencca |}.

Definition trap_demo : trap :=
  {| t_rec := set_regs (replicate 31 5) demo_rec; t_exit := rmi_rec_exit_zero;
     t_vm := {| vm_file := λ _, 0; vm_hcr_el2 := HCR_TVM; vm_flushes := 0 |} |}.
(** A trapped [mrs] or [msr] of register [rt]. *)
Definition access_esr (encoding rt : Z) (read : bool) : Z :=
  MASK_F ESR_EL2_IL .| encoding .| INPLACE_F ESR_EL2_SYSREG_TRAP_RT rt .| (if read then 1 else 0).


Lemma tvm_trap_spec_witness :
  let esr := access_esr ESR_EL2_SYSREG_SCTLR_EL1 4 false in
  ∃ t', @handle_sysreg_access_trap (board true) trap_cpu trap_ids trap_demo esr = Ok (true, t') ∧ t_exit t' = rmi_rec_exit_zero ∧
    regs (t_rec t') = replicate 31 5 ∧ (∀ y, vm_file (t_vm t') y = if decide (y = SCTLR_EL12) then 5 else 0) ∧ has_cache_enabled (t_vm t') = true ∧
    vm_flushes (t_vm t') = 1%nat ∧ vm_hcr_el2 (t_vm t') = 0.
Proof.
  intros esr. destruct (@tvm_trap_spec (board true) trap_cpu trap_ids trap_demo esr SCTLR_EL12) as (t' & H1 & H2 & H3 & H4 & H5 & H6); try done.
  exists t'. assert (Hon : has_cache_enabled (t_vm t') = true) by (unfold has_cache_enabled; by rewrite H4).
  rewrite Hon in H5, H6. split; [exact H1|]. split; [exact H2|]. split; [exact H3|]. split; [exact H4|]. split; [exact Hon|]. split; [exact H5|exact H6].
Defined.
