(* ===== verification/Attest.v ===== *)
(** Measurements of a running realm and its attestation token (runtime/rsi/realm_attest.c,
    measurement_extend of lib/measurement/src/measurement.c, lib/attestation/src/attestation_token.c). *)
From S2P Require Import Prelude Types Granule Platform GranuleFind S2tte S2tt Measurement Buffer Walk Exec Realm RealmTag Rtt Feature Rsi Gic Mpidr Psci RealmCmd RsiCall Rec RecEnter.

Definition MAX_EXTENDED_SIZE : Z := 64.
Definition MAX_MEASUREMENT_WORDS : Z := 8.
Definition RIM_MEASUREMENT_SLOT : Z := 0.
Definition MEASUREMENT_SLOT_NR : Z := 5.
Definition SMC_RESULT_REGS : Z := 5.

(** [rd->measurement]: the initial measurement and the extensible ones. *)
Definition measurement (d : rd) : list (list Z) := rim d :: rems d.
Definition set_measurement (m : list (list Z)) (d : rd) : rd :=
  {| rd_state := rd_state d; rec_count := rec_count d; rim := default (rim d) (head m); rems := tail m; s2_ctx := s2_ctx d;
     num_rec_aux := num_rec_aux d; algorithm := algorithm d; pmu_enabled := pmu_enabled d; pmu_num_ctrs := pmu_num_ctrs d;
     simd_cfg := simd_cfg d; rpv := rpv d; apt_pa := apt_pa d |}.

(** The hash operations of the PSA Crypto library that take their message in parts. *)
Class HashOps := {
  psa_hash_operation_t : Type;
  psa_hash_setup : hash_algo → psa_hash_operation_t;
  psa_hash_update : psa_hash_operation_t → list Z → psa_hash_operation_t;
  psa_hash_finish : psa_hash_operation_t → list Z;
}.
(** As documented: the digest is that of the parts one behind the other. *)
Class HashOpsLaws (C : Crypto) (O : HashOps) : Prop := {
  hash_parts : ∀ a l, psa_hash_finish (fold_left psa_hash_update l (psa_hash_setup a)) = psa_hash_compute a (concat l);
}.

(** * Measurements *)

Section measurements.
Context {P : Platform} {H : Machine} {CF : Config} {O : HashOps}.

(** The digest overwrites the start of [out]. *)
Definition do_extend (psa_algorithm : hash_algo) (current_measurement extend_measurement : list Z) (out : list Z) : result (list Z) :=
  let current_measurement_size := digest_size psa_algorithm in
  let operation := psa_hash_setup psa_algorithm in
  let operation := psa_hash_update operation (take current_measurement_size current_measurement) in
  let operation := psa_hash_update operation extend_measurement in
  let digest := psa_hash_finish operation in
  rassert (Z.of_nat (length digest) =? measurement_get_size psa_algorithm) ≫= λ _,
  Ok (digest ++ drop (length digest) out).

Definition measurement_extend (algorithm : hash_algo) (current_measurement extend_measurement out : list Z) : result (list Z) :=
  rassert (Z.of_nat (length extend_measurement) <=? GRANULE_SIZE) ≫= λ _,
  do_extend algorithm current_measurement extend_measurement out.

(** The [size] bytes at [&rec->regs[i]]. *)
Definition regs_bytes (r : rec) (i : nat) (size : Z) : list Z := take (Z.to_nat size) (longs (drop i (regs r))).

Definition handle_rsi_measurement_extend (r : rec) (res : rsi_result) : M state rsi_result :=
  let res := set_action UPDATE_REC_RETURN_TO_REALM res in
  lift (granule_addr (ri_g_rd r)) ≫= λ rd_addr,
  find_lock_granule rd_addr GRANULE_STATE_RD ≫= λ og,
  massert (bool_decide (is_Some og)) ≫= λ _,
  mderef og ≫= λ g_rd,
  map_assert (ri_g_rd r) SLOT_RD ≫= λ rdp,
  lift (aget (regs r) 1) ≫= λ index,
  (if (index =? RIM_MEASUREMENT_SLOT) || (MEASUREMENT_SLOT_NR <=? index) then mret (set_res (set_x0 RSI_ERROR_INPUT) res)
   else
     lift (aget (regs r) 2) ≫= λ size,
     if MAX_EXTENDED_SIZE <? size then mret (set_res (set_x0 RSI_ERROR_INPUT) res)
     else
       read_rd rdp ≫= λ d,
       lift (aget (measurement d) index) ≫= λ current_measurement,
       lift (measurement_extend (algorithm d) current_measurement (regs_bytes r 3 size) current_measurement) ≫= λ m,
       lift (aset (measurement d) index m) ≫= λ ms,
       write_page rdp (PRd (set_measurement ms d)) ≫= λ _,
       mret (set_res (set_x0 RSI_SUCCESS) res)) ≫= λ res,
  buffer_unmap rdp ≫= λ _,
  granule_unlock g_rd ≫= λ _, mret res.

(** [*(unsigned long * )&rd->measurement[idx][i * sizeof(unsigned long)]] *)
Definition measurement_word (m : list Z) (i : Z) : result Z :=
  if 8 * i + 8 <=? Z.of_nat (length m) then Ok (member_at (8 * Z.to_nat i) 8 m) else Err FBadAccess.

Definition handle_rsi_measurement_read (r : rec) (res : rsi_result) : M state (rec * rsi_result) :=
  let res := set_action UPDATE_REC_RETURN_TO_REALM res in
  lift (aget (regs r) 1) ≫= λ idx,
  if MEASUREMENT_SLOT_NR <=? idx then mret (r, set_res (set_x0 RSI_ERROR_INPUT) res)
  else
    granule_lock (ri_g_rd r) GRANULE_STATE_RD ≫= λ _,
    map_assert (ri_g_rd r) SLOT_RD ≫= λ rdp,
    read_rd rdp ≫= λ d,
    let cnt := measurement_get_size (algorithm d) / 8 in
    massert (SMC_RESULT_REGS - 1 <=? cnt) ≫= λ _,
    massert (cnt <? 31) ≫= λ _,
    lift (aget (measurement d) idx) ≫= λ m,
    lift (measurement_word m 0) ≫= λ w0, lift (measurement_word m 1) ≫= λ w1,
    lift (measurement_word m 2) ≫= λ w2, lift (measurement_word m 3) ≫= λ w3,
    let res := set_res (λ x, set_x234 w1 w2 w3 (set_x1 w0 x)) res in
    lift (fill_regs (Z.to_nat (cnt - (SMC_RESULT_REGS - 1))) SMC_RESULT_REGS (λ i, measurement_word m (i - 1)) (regs r)) ≫= λ l,
    lift (fill_regs (Z.to_nat (MAX_MEASUREMENT_WORDS - cnt)) (cnt + 1) (λ _, Ok 0) l) ≫= λ l,
    buffer_unmap rdp ≫= λ _,
    granule_unlock (ri_g_rd r) ≫= λ _,
    mret (set_regs l r, set_res (set_x0 RSI_SUCCESS) res).
End measurements.
