(* ===== verification/Token.v ===== *)
(** The attestation token of a realm (lib/attestation/src/attestation_token.c, the calls of
    runtime/rsi/realm_attest.c that build it and copy it out), in the configuration in which the
    monitor signs tokens itself. *)
From stdpp Require Import strings.
From S2P Require Import Alloc.
From S2P Require Import Prelude Types Granule Platform GranuleFind S2tte S2tt Measurement Buffer Walk Exec Realm RealmTag Rtt Feature Rsi Gic Mpidr Psci RealmCmd RsiCall Exit Rec RecEnter Attest.

Definition CCA_REALM_CHALLENGE : Z := 10.
Definition CCA_REALM_PERSONALIZATION_VALUE : Z := 44235.
Definition CCA_REALM_HASH_ALGM_ID : Z := 44236.
Definition CCA_REALM_PUB_KEY : Z := 44237.
Definition CCA_REALM_INITIAL_MEASUREMENT : Z := 44238.
Definition CCA_REALM_EXTENSIBLE_MEASUREMENTS : Z := 44239.
Definition CCA_REALM_PUB_KEY_HASH_ALGO_ID : Z := 44240.
Definition CCA_REALM_PROFILE : Z := 265.
Definition CCA_REALM_TAG : Z := 65001.
Definition TAG_CCA_TOKEN : Z := 399.
Definition CCA_PLAT_TOKEN : Z := 44234.
Definition CCA_REALM_DELEGATED_TOKEN : Z := 44241.
Definition CCA_REALM_PROFILE_STR : string := "tag:arm.com,2023:realm#1.0.0".
Definition ATTEST_CHALLENGE_SIZE : Z := 64.
Definition RMM_REALM_TOKEN_BUF_SIZE : Z := 1024.
Definition RSI_INCOMPLETE : Z := 3.
Definition RSI_ERROR_UNKNOWN : Z := 4.
Definition REC_HEAP_SIZE : Z := REC_HEAP_PAGES * 4096.

Inductive attest_token_gen_state_t := ATTEST_TOKEN_NOT_STARTED | ATTEST_TOKEN_INIT | ATTEST_TOKEN_SIGN | ATTEST_TOKEN_CREATE.
Inductive attest_token_err_t :=
  | ATTEST_TOKEN_ERR_SUCCESS | ATTEST_TOKEN_ERR_INVALID_STATE | ATTEST_TOKEN_ERR_TOO_SMALL | ATTEST_TOKEN_ERR_CBOR_FORMATTING
  | ATTEST_TOKEN_ERR_SIGNING_KEY | ATTEST_TOKEN_ERR_COSE_ERROR | ATTEST_TOKEN_ERR_COSE_SIGN_IN_PROGRESS | ATTEST_TOKEN_ERR_CCA_TOKEN_CREATE.
#[export] Instance attest_token_gen_state_eq_dec : EqDecision attest_token_gen_state_t.
Proof. solve_decision. Defined.
#[export] Instance attest_token_err_eq_dec : EqDecision attest_token_err_t.
Proof. solve_decision. Defined.

(** * The libraries that encode and sign *)

(** One call of the encoder. *)
Inductive cbor_op :=
  | QAddTag (tag : Z) | QOpenMap | QCloseMap | QCloseArray | QBstrWrap
  | QAddBytesToMapN (label : Z) (bytes : list Z) | QAddTextToMapN (label : Z) (text : string)
  | QAddUInt64ToMapN (label v : Z) | QOpenArrayInMapN (label : Z) | QAddBytes (bytes : list Z).

(** The error codes that the callers tell apart. *)
Inductive t_cose_err_t := T_COSE_SUCCESS | T_COSE_ERR_SIG_IN_PROGRESS | T_COSE_ERR_OTHER.
Inductive QCBORError := QCBOR_SUCCESS | QCBOR_ERR_BUFFER_TOO_SMALL | QCBOR_ERR_OTHER.

Class TokenLib := {
  QCBOREncodeContext : Type;
  t_cose_signer : Type;
  QCBOREncode_zero : QCBOREncodeContext;
  t_cose_signer_zero : t_cose_signer;
  QCBOREncode_Init : Z → QCBOREncodeContext;
  QCBOREncode : cbor_op → QCBOREncodeContext → QCBOREncodeContext;
  (** The payload that is signed. *)
  QCBOREncode_CloseBstrWrap2 : QCBOREncodeContext → QCBOREncodeContext * list Z;
  (** The completed encoding, which is at the start of the output buffer. *)
  QCBOREncode_Finish : QCBOREncodeContext → QCBORError * list Z;
  (** The contexts of a signer for one algorithm, set up and joined. *)
  t_cose_sign_sign_init : Z → t_cose_signer;
  t_cose_signature_sign_restart_set_signing_key : Z → t_cose_signer → t_cose_signer;
  t_cose_sign_encode_start : t_cose_signer → QCBOREncodeContext → t_cose_err_t * t_cose_signer * QCBOREncodeContext;
  t_cose_sign_encode_finish : t_cose_signer → list Z → QCBOREncodeContext → t_cose_err_t * t_cose_signer * QCBOREncodeContext;
  T_COSE_ALGORITHM_ES384 : Z;
  (** A bound on the calls that a signature still takes. *)
  sign_left : t_cose_signer → nat;
}.
Definition encode {TL : TokenLib} (ops : list cbor_op) (c : QCBOREncodeContext) : QCBOREncodeContext := fold_left (λ c o, QCBOREncode o c) ops c.

(** As documented: a restartable signature makes progress with every call, and an encoding is not
    empty and shorter than 2^32 bytes. *)
Class TokenLibLaws (TL : TokenLib) : Prop := {
  finish_size : ∀ c bytes, QCBOREncode_Finish c = (QCBOR_SUCCESS, bytes) → 0 < Z.of_nat (length bytes) < 2 ^ 32;
  sign_progress : ∀ sg p c sg' c', t_cose_sign_encode_finish sg p c = (T_COSE_ERR_SIG_IN_PROGRESS, sg', c') → (sign_left sg' < sign_left sg)%nat;
}.

(** What the monitor got from EL3 when it was started. *)
Record attest_keys := {
  attest_initialized : bool;
  attest_key_loaded : bool;
  imported_key : Z;
  realm_attest_public_key : list Z;
  public_key_hash_algo_id : hash_algo;
  rmm_platform_token : option (list Z);
}.

(** The bits of interrupts that are pending when ISR_EL1 is read for the [n]-th time. *)
Class Interrupts := { read_isr_el1 : nat → Z }.

Section token.
Context {P : Platform} {H : Machine} {CF : Config} {RE : RecEnv} {TL : TokenLib} {IR : Interrupts}.

Definition REC_ATTEST_TOKEN_BUF_SIZE : Z := RMM_CCA_TOKEN_BUFFER * 4096.

(** [struct attest_token_encode_ctx] and what is around it. *)
Record attest_token_encode_ctx := {
  cbor_enc_ctx : QCBOREncodeContext;
  opt_flags : Z;
  key_select : Z;
  signed_payload : list Z;
  sign_ctx : t_cose_signer;
}.
Record token_sign_cntxt := { tk_state : attest_token_gen_state_t; tk_ctx : attest_token_encode_ctx }.
Record rec_attest_data := {
  rmm_realm_token_buf : list Z;
  rmm_realm_token_len : Z;
  rmm_cca_token_copied_len : Z;
  rmm_cca_token_len : Z;
  token_sign_ctx : token_sign_cntxt;
}.
Definition token_sign_cntxt_zero : token_sign_cntxt :=
  {| tk_state := ATTEST_TOKEN_NOT_STARTED;
     tk_ctx := {| cbor_enc_ctx := QCBOREncode_zero; opt_flags := 0; key_select := 0; signed_payload := []; sign_ctx := t_cose_signer_zero |} |}.

Definition set_tk_state (v : attest_token_gen_state_t) (me : token_sign_cntxt) : token_sign_cntxt := {| tk_state := v; tk_ctx := tk_ctx me |}.
Definition set_enc (c : QCBOREncodeContext) (x : attest_token_encode_ctx) : attest_token_encode_ctx :=
  {| cbor_enc_ctx := c; opt_flags := opt_flags x; key_select := key_select x; signed_payload := signed_payload x; sign_ctx := sign_ctx x |}.
Definition set_signer (g : t_cose_signer) (x : attest_token_encode_ctx) : attest_token_encode_ctx :=
  {| cbor_enc_ctx := cbor_enc_ctx x; opt_flags := opt_flags x; key_select := key_select x; signed_payload := signed_payload x; sign_ctx := g |}.
Definition set_payload (p : list Z) (x : attest_token_encode_ctx) : attest_token_encode_ctx :=
  {| cbor_enc_ctx := cbor_enc_ctx x; opt_flags := opt_flags x; key_select := key_select x; signed_payload := p; sign_ctx := sign_ctx x |}.
Definition set_tk_ctx (x : attest_token_encode_ctx) (me : token_sign_cntxt) : token_sign_cntxt := {| tk_state := tk_state me; tk_ctx := x |}.
Definition set_sign_ctx (t : token_sign_cntxt) (a : rec_attest_data) : rec_attest_data :=
  {| rmm_realm_token_buf := rmm_realm_token_buf a; rmm_realm_token_len := rmm_realm_token_len a;
     rmm_cca_token_copied_len := rmm_cca_token_copied_len a; rmm_cca_token_len := rmm_cca_token_len a; token_sign_ctx := t |}.
Definition set_realm_token_len (v : Z) (a : rec_attest_data) : rec_attest_data :=
  {| rmm_realm_token_buf := rmm_realm_token_buf a; rmm_realm_token_len := v;
     rmm_cca_token_copied_len := rmm_cca_token_copied_len a; rmm_cca_token_len := rmm_cca_token_len a; token_sign_ctx := token_sign_ctx a |}.
Definition set_realm_token_buf (l : list Z) (a : rec_attest_data) : rec_attest_data :=
  {| rmm_realm_token_buf := l; rmm_realm_token_len := rmm_realm_token_len a;
     rmm_cca_token_copied_len := rmm_cca_token_copied_len a; rmm_cca_token_len := rmm_cca_token_len a; token_sign_ctx := token_sign_ctx a |}.
Definition set_cca_lens (copied len : Z) (a : rec_attest_data) : rec_attest_data :=
  {| rmm_realm_token_buf := rmm_realm_token_buf a; rmm_realm_token_len := rmm_realm_token_len a;
     rmm_cca_token_copied_len := copied; rmm_cca_token_len := len; token_sign_ctx := token_sign_ctx a |}.

(** ** Keys and texts *)

Definition attest_get_realm_signing_key (k : attest_keys) : option Z := if negb (attest_key_loaded k) then None else Some (imported_key k).
Definition attest_get_realm_public_key (k : attest_keys) : option (list Z) := if negb (attest_key_loaded k) then None else Some (realm_attest_public_key k).
Definition attest_get_hash_algo_text (a : hash_algo) : string := match a with HASH_SHA_256 => "sha-256" | HASH_SHA_512 => "sha-512" end.

(** The output buffer once [bytes] are complete in it. *)
Definition completed (bytes buf : list Z) : list Z := bytes ++ drop (length bytes) buf.

(** ** The library of tokens *)

Definition attest_token_encode_start (k : attest_keys) (me : attest_token_encode_ctx) (flags key cose_alg_id out_size : Z)
  : attest_token_err_t * attest_token_encode_ctx :=
  let me := {| cbor_enc_ctx := cbor_enc_ctx me; opt_flags := flags; key_select := key; signed_payload := signed_payload me;
               sign_ctx := t_cose_sign_sign_init cose_alg_id |} in
  match attest_get_realm_signing_key k with
  | None => (ATTEST_TOKEN_ERR_SIGNING_KEY, me)
  | Some key_handle =>
      let me := set_signer (t_cose_signature_sign_restart_set_signing_key key_handle (sign_ctx me)) me in
      let me := set_enc (QCBOREncode_Init out_size) me in
      let '(cose_res, g, c) := t_cose_sign_encode_start (sign_ctx me) (cbor_enc_ctx me) in
      (match cose_res with T_COSE_SUCCESS => ATTEST_TOKEN_ERR_SUCCESS | _ => ATTEST_TOKEN_ERR_COSE_ERROR end, set_enc c (set_signer g me))
  end.

(** The buffer is the one that the encoder was started with. *)
Definition attest_realm_token_sign (me : token_sign_cntxt) (buf : list Z) (completed_token_len : Z)
  : attest_token_err_t * token_sign_cntxt * list Z * Z :=
  if negb (bool_decide (tk_state me = ATTEST_TOKEN_SIGN)) then (ATTEST_TOKEN_ERR_INVALID_STATE, me, buf, completed_token_len)
  else
    let x := tk_ctx me in
    let '(cose_res, g, c) := t_cose_sign_encode_finish (sign_ctx x) (signed_payload x) (cbor_enc_ctx x) in
    let me := set_tk_ctx (set_enc c (set_signer g x)) me in
    match cose_res with
    | T_COSE_ERR_SIG_IN_PROGRESS => (ATTEST_TOKEN_ERR_COSE_SIGN_IN_PROGRESS, me, buf, completed_token_len)
    | T_COSE_ERR_OTHER => (ATTEST_TOKEN_ERR_COSE_ERROR, me, buf, completed_token_len)
    | T_COSE_SUCCESS =>
        let '(qcbor_res, completed_token) := QCBOREncode_Finish c in
        match qcbor_res with
        | QCBOR_ERR_BUFFER_TOO_SMALL => (ATTEST_TOKEN_ERR_TOO_SMALL, me, buf, completed_token_len)
        | QCBOR_SUCCESS =>
            (ATTEST_TOKEN_ERR_SUCCESS, set_tk_state ATTEST_TOKEN_CREATE me, completed completed_token buf, Z.of_nat (length completed_token))
        | QCBOR_ERR_OTHER => (ATTEST_TOKEN_ERR_CBOR_FORMATTING, me, buf, completed_token_len)
        end
    end.

(** The answer, the context, the buffer of the token and, on success, its length. *)
Definition attest_cca_token_create (k : attest_keys) (me : token_sign_cntxt) (attest_token_buf : list Z) (attest_token_buf_size : Z)
  (realm_token_buf : list Z) (realm_token_len : Z) : attest_token_err_t * token_sign_cntxt * list Z * option Z :=
  if negb (bool_decide (tk_state me = ATTEST_TOKEN_CREATE)) then (ATTEST_TOKEN_ERR_INVALID_STATE, me, attest_token_buf, None)
  else match rmm_platform_token k with
  | None => (ATTEST_TOKEN_ERR_CCA_TOKEN_CREATE, me, attest_token_buf, None)
  | Some platform_token =>
      let c := encode [ QAddTag TAG_CCA_TOKEN; QOpenMap; QAddBytesToMapN CCA_PLAT_TOKEN platform_token;
                        QAddBytesToMapN CCA_REALM_DELEGATED_TOKEN (take (Z.to_nat realm_token_len) realm_token_buf); QCloseMap ]
                      (QCBOREncode_Init attest_token_buf_size) in
      let '(qcbor_res, completed_token) := QCBOREncode_Finish c in
      match qcbor_res with
      | QCBOR_SUCCESS =>
          (ATTEST_TOKEN_ERR_SUCCESS, set_tk_state ATTEST_TOKEN_NOT_STARTED me, completed completed_token attest_token_buf,
           Some (Z.of_nat (length completed_token)))
      | _ => (ATTEST_TOKEN_ERR_CCA_TOKEN_CREATE, me, attest_token_buf, None)
      end
  end.

(** The claims behind the public key. *)
Definition realm_claims (k : attest_keys) (algorithm : hash_algo) (measurements : list (list Z)) (public_key : list Z) (realm_tag : Z) : list cbor_op :=
  let measurement_size := digest_size algorithm in
  [ QAddBytesToMapN CCA_REALM_PUB_KEY public_key;
    QAddTextToMapN CCA_REALM_HASH_ALGM_ID (attest_get_hash_algo_text algorithm);
    QAddTextToMapN CCA_REALM_PUB_KEY_HASH_ALGO_ID (attest_get_hash_algo_text (public_key_hash_algo_id k));
    QAddTextToMapN CCA_REALM_PROFILE CCA_REALM_PROFILE_STR ] ++
  (if negb (realm_tag =? 0) then [QAddUInt64ToMapN CCA_REALM_TAG realm_tag] else []) ++
  [ QAddBytesToMapN CCA_REALM_INITIAL_MEASUREMENT (take measurement_size (default [] (head measurements)));
    QOpenArrayInMapN CCA_REALM_EXTENSIBLE_MEASUREMENTS ] ++
  (QAddBytes ∘ take measurement_size <$> tail measurements) ++ [ QCloseArray; QCloseMap ].

(** [true]: the function returned 0. *)
Definition attest_realm_token_create (k : attest_keys) (algorithm : hash_algo) (measurements : list (list Z)) (rpv challenge : list Z)
  (me : token_sign_cntxt) (realm_token_buf_size realm_tag : Z) : bool * token_sign_cntxt :=
  if negb (bool_decide (tk_state me = ATTEST_TOKEN_INIT)) then (false, me)
  else
    let '(token_ret, x) := attest_token_encode_start k (tk_ctx me) 0 0 T_COSE_ALGORITHM_ES384 realm_token_buf_size in
    match token_ret with
    | ATTEST_TOKEN_ERR_SUCCESS =>
        let x := set_enc (encode [ QBstrWrap; QOpenMap; QAddBytesToMapN CCA_REALM_CHALLENGE challenge;
                                   QAddBytesToMapN CCA_REALM_PERSONALIZATION_VALUE rpv ] (cbor_enc_ctx x)) x in
        match attest_get_realm_public_key k with
        | None => (false, set_tk_ctx x me)
        | Some public_key =>
            let '(c, p) := QCBOREncode_CloseBstrWrap2 (encode (realm_claims k algorithm measurements public_key realm_tag) (cbor_enc_ctx x)) in
            (true, set_tk_state ATTEST_TOKEN_SIGN (set_tk_ctx (set_payload p (set_enc c x)) me))
        end
    | _ => (false, set_tk_ctx x me)
    end.

Definition attestation_heap_ctx_init (k : attest_keys) (cpuid buf buf_size : Z) : M astate Z :=
  massert (negb (buf =? 0)) ≫= λ _,
  if negb (attest_initialized k) then mret (- EINVAL)
  else mbedtls_memory_buffer_alloc_init cpuid buf buf_size ≫= λ _, mret 0.

(** [true]: the function returned 0. *)
Definition attest_token_ctx_init (k : attest_keys) (cpuid : Z) (me : token_sign_cntxt) (heap_buf heap_buf_len : Z)
  : M astate (bool * token_sign_cntxt) :=
  if negb (bool_decide (tk_state me = ATTEST_TOKEN_INIT)) then
    let me := token_sign_cntxt_zero in
    attestation_heap_ctx_init k cpuid heap_buf heap_buf_len ≫= λ ret,
    if negb (ret =? 0) then mret (false, me) else mret (true, set_tk_state ATTEST_TOKEN_INIT me)
  else mret (true, me).

(** ** The calls of the realm *)

(** What belongs to one REC: its heap, its data of attestation and its buffer for the token, all in
    its auxiliary granules; and how often ISR_EL1 was read. *)
Record attest_env := { at_heap : astate; at_data : rec_attest_data; at_token_buf : list Z; at_isr_reads : nat }.
Definition set_at_heap (v : astate) (a : attest_env) : attest_env :=
  {| at_heap := v; at_data := at_data a; at_token_buf := at_token_buf a; at_isr_reads := at_isr_reads a |}.
Definition set_at_data (v : rec_attest_data) (a : attest_env) : attest_env :=
  {| at_heap := at_heap a; at_data := v; at_token_buf := at_token_buf a; at_isr_reads := at_isr_reads a |}.
Definition set_at_token_buf (v : list Z) (a : attest_env) : attest_env :=
  {| at_heap := at_heap a; at_data := at_data a; at_token_buf := v; at_isr_reads := at_isr_reads a |}.
Definition set_at_isr_reads (v : nat) (a : attest_env) : attest_env :=
  {| at_heap := at_heap a; at_data := at_data a; at_token_buf := at_token_buf a; at_isr_reads := v |}.

Definition tstate : Type := state * attest_env.
Definition sys {A} (m : M state A) : M tstate A := zoom fst (λ s x, (s, snd x)) m.
Definition att {A} (f : attest_env → A) : M tstate A := gets (λ x, f (snd x)).
Definition att_mod (f : attest_env → attest_env) : M tstate () := mmodify (λ x, (fst x, f (snd x))).
Definition data_mod (f : rec_attest_data → rec_attest_data) : M tstate () := att_mod (λ a, set_at_data (f (at_data a)) a).

Definition handle_rsi_attest_token_init (k : attest_keys) (cpuid attest_heap_buf : Z) (r : rec) (res : rsi_result) : M tstate rsi_result :=
  let res := set_action UPDATE_REC_RETURN_TO_REALM res in
  data_mod (λ a, set_cca_lens 0 0 (set_realm_token_len 0 a)) ≫= λ _,
  sys (lift (granule_addr (g_rec r))) ≫= λ _,
  att (token_sign_ctx ∘ at_data) ≫= λ me,
  zoom (at_heap ∘ snd) (λ h x, (fst x, set_at_heap h (snd x))) (attest_token_ctx_init k cpuid me attest_heap_buf REC_HEAP_SIZE) ≫= λ '(att_ret, me),
  data_mod (set_sign_ctx me) ≫= λ _,
  if negb att_ret then mret (set_res (set_x0 RSI_ERROR_UNKNOWN) res)
  else
    sys (granule_lock (ri_g_rd r) GRANULE_STATE_RD) ≫= λ _,
    sys (map_assert (ri_g_rd r) SLOT_RD) ≫= λ rdp,
    sys (read_rd rdp) ≫= λ d,
    sys (lift (granule_addr (ri_g_rd r))) ≫= λ rd_addr,
    sys (zoom tags set_tags (realm_tag_get_by_rd rd_addr)) ≫= λ tag,
    att (token_sign_ctx ∘ at_data) ≫= λ me,
    let '(att_ret, me) := attest_realm_token_create k (algorithm d) (measurement d) (rpv d) (regs_bytes r 1 ATTEST_CHALLENGE_SIZE) me
                            RMM_REALM_TOKEN_BUF_SIZE (default 0 tag) in
    data_mod (set_sign_ctx me) ≫= λ _,
    sys (buffer_unmap rdp) ≫= λ _,
    sys (granule_unlock (ri_g_rd r)) ≫= λ _,
    mret (if negb att_ret then set_res (set_x0 RSI_ERROR_UNKNOWN) res
          else set_res (λ x, set_x1 REC_ATTEST_TOKEN_BUF_SIZE (set_x0 RSI_SUCCESS x)) res).

Definition check_pending_irq : M tstate bool :=
  att at_isr_reads ≫= λ n, att_mod (set_at_isr_reads (S n)) ≫= λ _, mret (negb (read_isr_el1 n =? 0)).

(** Creates the token when none of it was copied yet: [None] when this fails, else how much of it is
    left to copy. *)
Definition token_left (k : attest_keys) : M tstate (option Z) :=
  att id ≫= λ a,
  let ad := at_data a in
  if rmm_cca_token_copied_len ad =? 0 then
    let '(ret, me, buf, len) := attest_cca_token_create k (token_sign_ctx ad) (at_token_buf a) REC_ATTEST_TOKEN_BUF_SIZE
                                  (rmm_realm_token_buf ad) (rmm_realm_token_len ad) in
    att_mod (λ a, set_at_token_buf buf (set_at_data (set_sign_ctx me (at_data a)) a)) ≫= λ _,
    match len with
    | None => mret None
    | Some attest_token_len =>
        data_mod (λ ad, set_cca_lens (rmm_cca_token_copied_len ad) attest_token_len ad) ≫= λ _, mret (Some attest_token_len)
    end
  else mret (Some (rmm_cca_token_len ad)).

Definition attest_token_continue_write_state (k : attest_keys) (r : rec) (res : rsi_result) : M tstate rsi_result :=
  sys (lift (aget (regs r) 1)) ≫= λ realm_att_token_ipa,
  sys (lift (aget (regs r) 2)) ≫= λ offset,
  sys (lift (aget (regs r) 3)) ≫= λ size,
  sys (realm_ipa_to_pa r realm_att_token_ipa walk_result_init) ≫= λ '(walk_status, walk_res),
  match walk_status with
  | WALK_INVALID_PARAMS => massert false ≫= λ _, mret res
  | WALK_FAIL =>
      mret (if bool_decide (sw_ripas_val walk_res = RIPAS_EMPTY) then set_res (set_x0 RSI_ERROR_INPUT) res
            else set_rtt_level (sw_rtt_level walk_res) (set_action STAGE_2_TRANSLATION_FAULT res))
  | WALK_SUCCESS =>
      (if size =? 0 then mret (set_res (set_x0 RSI_INCOMPLETE) res)
       else
         sys (map_rsi_page (sw_pa walk_res)) ≫= λ realm_att_token,
         token_left k ≫= λ o,
         match o with
         | None => mret (set_res (set_x0 RSI_ERROR_INPUT) res)
         | Some attest_token_len =>
             let length := if size <? attest_token_len then size else attest_token_len in
             att id ≫= λ a,
             let copied := rmm_cca_token_copied_len (at_data a) in
             sys (write_bytes realm_att_token (Z.to_nat offset) (take (Z.to_nat length) (drop (Z.to_nat copied) (at_token_buf a)))) ≫= λ _,
             let attest_token_len := attest_token_len .- length in
             if negb (attest_token_len =? 0) then
               data_mod (set_cca_lens (copied .+ length) attest_token_len) ≫= λ _,
               mret (set_res (λ x, set_x1 length (set_x0 RSI_INCOMPLETE x)) res)
             else
               data_mod (set_realm_token_len 0) ≫= λ _,
               mret (set_res (λ x, set_x1 length (set_x0 RSI_SUCCESS x)) res)
         end ≫= λ res,
         sys (buffer_unmap realm_att_token) ≫= λ _, mret res) ≫= λ res,
      sys (mderef (sw_llt walk_res)) ≫= λ llt,
      sys (granule_unlock llt) ≫= λ _, mret res
  end.

(** The loop that signs: [inl] when the call returns from within it. *)
Fixpoint sign_loop (fuel : nat) (rec_exit : rmi_rec_exit) (res : rsi_result) : M tstate ((rmi_rec_exit * rsi_result) + rsi_result) :=
  match fuel with
  | O => mfault FHang
  | S fuel' =>
      att at_data ≫= λ ad,
      if negb (rmm_realm_token_len ad =? 0) then mret (inr res)
      else
        let '(ret, me, buf, len) := attest_realm_token_sign (token_sign_ctx ad) (rmm_realm_token_buf ad) (rmm_realm_token_len ad) in
        data_mod (λ ad, set_realm_token_len len (set_realm_token_buf buf (set_sign_ctx me ad))) ≫= λ _,
        match ret with
        | ATTEST_TOKEN_ERR_INVALID_STATE => mret (inl (rec_exit, set_res (set_x0 RSI_ERROR_STATE) res))
        | ATTEST_TOKEN_ERR_COSE_SIGN_IN_PROGRESS | ATTEST_TOKEN_ERR_SUCCESS =>
            let res := set_res (set_x0 RSI_INCOMPLETE) res in
            check_pending_irq ≫= λ irq,
            if (irq : bool) then mret (inl (set_exit_reason RMI_EXIT_IRQ rec_exit, set_action UPDATE_REC_EXIT_TO_HOST res))
            else sign_loop fuel' rec_exit res
        | _ => mret (inl (rec_exit, set_res (set_x0 RSI_ERROR_UNKNOWN) res))
        end
  end.
(** Enough rounds for the signature, for what comes behind it and for the test of the loop. *)
Definition sign_fuel (ad : rec_attest_data) : nat := 3 + sign_left (sign_ctx (tk_ctx (token_sign_ctx ad))).

Definition handle_rsi_attest_token_continue (k : attest_keys) (r : rec) (rec_exit : rmi_rec_exit) (res : rsi_result)
  : M tstate (rmi_rec_exit * rsi_result) :=
  let res := set_action UPDATE_REC_RETURN_TO_REALM res in
  sys (lift (aget (regs r) 1)) ≫= λ realm_buf_ipa,
  sys (lift (aget (regs r) 2)) ≫= λ offset,
  sys (lift (aget (regs r) 3)) ≫= λ size,
  if negb (GRANULE_ALIGNED realm_buf_ipa) || (GRANULE_SIZE <=? offset) || (GRANULE_SIZE <? offset .+ size) || ((offset .+ size) <? offset)
  then mret (rec_exit, set_res (set_x0 RSI_ERROR_INPUT) res)
  else if negb (addr_in_rec_par r realm_buf_ipa) then mret (rec_exit, set_res (set_x0 RSI_ERROR_INPUT) res)
  else
    att at_data ≫= λ ad,
    sign_loop (sign_fuel ad) rec_exit res ≫= λ o,
    match o with
    | inl out => mret out
    | inr res => attest_token_continue_write_state k r res ≫= λ res, mret (rec_exit, res)
    end.
End token.
