(* ===== verification/AttestSpec.v ===== *)
(** What a realm's calls on its measurements do: only the extensible ones change, by one hash over
    the old digest and the realm's data, and a read gives what was measured. *)
From S2P Require Import Prelude PsciSpec Types Granule Platform GranuleFind S2tte S2tt Measurement Buffer Walk Exec Realm Rtt RttTree Feature Rsi Gic Mpidr Psci RealmCmd RsiCall Rec RecEnter HostCall CsmPropagate Attest.

(** * Bytes and words *)

Definition is_byte (b : Z) : Prop := 0 <= b < 256.

Lemma le_bytes_val l : Forall is_byte l → le_bytes (length l) (le_val l) = l.
Proof.
  induction 1 as [|b l Hb Hl IH]; [done|]. cbn [length le_val foldr]. fold (le_val l). rewrite le_bytes_S. unfold is_byte in Hb.
  rewrite (Z.mul_comm 256), Z.mod_add, Z.div_add, Z.mod_small, Z.div_small, Z.add_0_l, IH by lia. done.
Qed.

Lemma le_bytes_member off m : Forall is_byte m → (off + 8 <= length m)%nat → le_bytes 8 (member_at off 8 m) = take 8 (drop off m).
Proof.
  intros Hm Hl. unfold member_at. assert (Hlen : length (take 8 (drop off m)) = 8%nat) by (rewrite length_take, length_drop; lia).
  rewrite <- Hlen at 1. apply le_bytes_val. by apply Forall_take, Forall_drop.
Qed.

(** The words of [m] from the [i]-th. *)
Definition words (m : list Z) (i n : nat) : list Z := (λ k, member_at (8 * k) 8 m) <$> seq i n.

Lemma longs_words m i n : Forall is_byte m → (8 * (i + n) <= length m)%nat → longs (words m i n) = take (8 * n) (drop (8 * i) m).
Proof.
  intros Hm. revert i. induction n as [|n IH]; intros i Hl; [done|]. unfold words. rewrite <- cons_seq, fmap_cons, longs_cons. fold (words m (S i) n).
  rewrite IH by lia. rewrite le_bytes_member by (done || lia).
  replace (8 * S n)%nat with (8 + 8 * n)%nat by lia. rewrite <- (take_take_drop (drop (8 * i) m) 8), drop_drop. do 3 f_equal. lia.
Qed.

Lemma insert_alter {A} (f : A → A) (l : list A) i x : l !! i = Some x → <[i := f x]> l = alter f i l.
Proof. intros Hi. rewrite list_insert_alter. apply list_alter_ext; [|done]. intros y Hy. congruence. Qed.

(** * Runs *)

(** The measurements of a realm: five slots of 64 bytes. *)
Record measured (d : rd) : Prop := {
  ms_nr : length (measurement d) = 5%nat;
  ms_len : Forall (λ m, length m = 64%nat) (measurement d);
}.

Lemma measured_at d index : measured d → 0 <= index < 5 → ∃ m, measurement d !! Z.to_nat index = Some m ∧ length m = 64%nat.
Proof.
  intros [Hn Hl] Hi. destruct (lookup_lt_is_Some_2 (measurement d) (Z.to_nat index)) as [m Hm]; [rewrite Hn; lia|].
  exists m. split; [done|]. by apply (Forall_lookup_1 _ _ _ _ Hl Hm).
Qed.

Section runs.
Context {P : Platform} {H : Machine} {CF : Config} {L : PlatformLaws P} {HL : MachineLaws P H}.
Context {C : Crypto} {CL : CryptoLaws C} {O : HashOps} {OL : HashOpsLaws C O}.

(** A slot extended with [data]: the digest of the old digest and [data], in its place. *)
Definition extended (a : hash_algo) (m data : list Z) : list Z :=
  psa_hash_compute a (take (digest_size a) m ++ data) ++ drop (digest_size a) m.

Lemma hash_size a m : length (psa_hash_compute a m) = digest_size a.
Proof using CL. pose proof (hash_len a m). unfold digest_size. lia. Qed.

Lemma measurement_extend_run a m data : Z.of_nat (length data) <= 4096 → measurement_extend a m data m = Ok (extended a m data).
Proof using CL OL.
  intros Hd. unfold measurement_extend. rewrite rassert_bind by (by apply Z.leb_le). unfold do_extend.
  pose proof (hash_parts a [take (digest_size a) m; data]) as Hp. cbn [fold_left concat] in Hp. rewrite app_nil_r in Hp. rewrite Hp.
  rewrite rassert_bind by (apply Z.eqb_eq, hash_len). unfold extended. by rewrite hash_size.
Qed.

Lemma length_regs_bytes r i size : length (regs r) = 31%nat → (i <= 31)%nat → 0 <= size <= 8 * (31 - Z.of_nat i) → length (regs_bytes r i size) = Z.to_nat size.
Proof using. clear. intros Hr Hi Hs. unfold regs_bytes. rewrite length_take, length_longs, length_drop. lia. Qed.

(** The state in which slot [index] is extended. *)
Definition extend_slot (index : Z) (data : list Z) (d : rd) : rd :=
  set_measurement (alter (λ m, extended (algorithm d) m data) (Z.to_nat index) (measurement d)) d.

Lemma extend_run s r d res index size :
  rec_realm s r d → measured d → regs r !! 1%nat = Some index → regs r !! 2%nat = Some size → is_u64 index → is_u64 size →
  handle_rsi_measurement_extend r res s
  = Ok (if (1 <=? index) && (index <=? 4) && (size <=? 64)
        then (set_res (set_x0 RSI_SUCCESS) (set_action UPDATE_REC_RETURN_TO_REALM res),
              set_mem (<[ri_g_rd r := PRd (extend_slot index (regs_bytes r 3 size) d)]> (mem s)) s)
        else (set_res (set_x0 RSI_ERROR_INPUT) (set_action UPDATE_REC_RETURN_TO_REALM res), s)).
Proof using L HL CL OL.
  intros [Ha Hs (rc & tag & Hg & Hok) Hm Hrl] Hms Hi Hz Hiu Hzu. unfold handle_rsi_measurement_extend. destruct Ha as [Hg0 [a Haddr]] eqn:Ead.
  run_step (lift_run _ _ s Haddr). run_step (find_lock_run s a _ _ _ _ (find_granule_addr _ _ Hg0 Haddr) Hg Hok eq_refl).
  rewrite bool_decide_eq_true_2 by (by eexists). run_step (massert_run true (put_granule (ri_g_rd r) (Gr true GRANULE_STATE_RD rc tag) s) eq_refl).
  run_step (mderef_run (Some (ri_g_rd r)) _ (put_granule (ri_g_rd r) (Gr true GRANULE_STATE_RD rc tag) s) eq_refl). st_norm.
  exec map_assert_run. rewrite (bind_run _ _ _ _ _ (lift_run _ _ _ (aget_lookup (regs r) 1 index ltac:(lia) Hi))). cbv beta.
  unfold RIM_MEASUREMENT_SLOT, MEASUREMENT_SLOT_NR, MAX_EXTENDED_SIZE.
  destruct (Z.eqb_spec index 0) as [->|Hi0]; [|destruct (Z.leb_spec 5 index) as [Hi5|Hi5]]; cbn [orb].
  - steps. exec buffer_unmap_run. exec granule_unlock_run. rewrite insert_insert_eq, insert_id, delete_insert_id by done. by destruct s.
  - rewrite (proj2 (Z.leb_gt index 4)), andb_false_r by lia. cbn [andb].
    steps. exec buffer_unmap_run. exec granule_unlock_run. rewrite insert_insert_eq, insert_id, delete_insert_id by done. by destruct s.
  - unfold is_u64 in *. rewrite (proj2 (Z.leb_le 1 index)), (proj2 (Z.leb_le index 4)) by lia. cbn [andb]. assoc.
    rewrite (bind_run _ _ _ _ _ (lift_run _ _ _ (aget_lookup (regs r) 2 size ltac:(lia) Hz))). cbv beta.
    rewrite Z.ltb_antisym. destruct (Z.leb_spec size 64) as [Hz64|Hz64]; cbn [negb].
    + destruct (measured_at d index Hms ltac:(lia)) as (m & Hmi & Hml). steps.
      erewrite bind_run; [|eapply read_rd_run; [exec_side..|reflexivity]]. cbv beta. steps.
      rewrite (bind_run _ _ _ _ _ (lift_run _ _ _ (aget_lookup (measurement d) index m ltac:(lia) Hmi))). cbv beta. steps.
      rewrite (bind_run _ _ _ _ _ (lift_run _ _ _ (measurement_extend_run (algorithm d) m (regs_bytes r 3 size) ltac:(rewrite length_regs_bytes; lia)))). cbv beta. steps.
      rewrite (bind_run _ _ _ _ _ (lift_run _ _ _ (aset_ok (measurement d) index _ ltac:(rewrite (ms_nr _ Hms); lia)))). cbv beta. steps.
      exec write_page_run. steps. exec buffer_unmap_run. exec granule_unlock_run.
      rewrite insert_insert_eq, insert_id, delete_insert_id by done. unfold mret, M_ret, extend_slot.
      by rewrite (insert_alter (λ m, extended (algorithm d) m (regs_bytes r 3 size)) _ _ _ Hmi).
    + steps. exec buffer_unmap_run. exec granule_unlock_run. rewrite insert_insert_eq, insert_id, delete_insert_id by done. by destruct s.
Qed.

Lemma measurement_word_run m i : length m = 64%nat → 0 <= i < 8 → measurement_word m i = Ok (member_at (8 * Z.to_nat i) 8 m).
Proof using. clear. intros Hm Hi. unfold measurement_word. by rewrite Hm, (proj2 (Z.leb_le _ _)) by lia. Qed.

(** The registers after a read: the words of the digest behind the fourth, and zeros. *)
Definition read_regs (a : hash_algo) (m l : list Z) : list Z :=
  take 5 l ++ words m 4 (digest_size a / 8 - 4) ++ replicate (8 - digest_size a / 8) 0 ++ drop 9 l.

Lemma read_fill a m l : length m = 64%nat → length l = 31%nat →
  (fill_regs (Z.to_nat (measurement_get_size a / 8 - (SMC_RESULT_REGS - 1))) SMC_RESULT_REGS (λ i, measurement_word m (i - 1)) l ≫= λ l,
   fill_regs (Z.to_nat (MAX_MEASUREMENT_WORDS - measurement_get_size a / 8)) (measurement_get_size a / 8 + 1) (λ _, Ok 0) l) = Ok (read_regs a m l).
Proof using.
  clear. intros Hm Hl.
  assert (Hf : ∀ n, (n <= 4)%nat → fill_regs n 5 (λ i, measurement_word m (i - 1)) l = Ok (take 5 l ++ words m 4 n ++ drop (5 + n) l)).
  { intros n Hn. assert (Hw : length (words m 4 n) = n) by (unfold words; by rewrite length_fmap, length_seq).
    rewrite <- Hw at 1. rewrite fill_regs_run; [by rewrite Hw|lia|rewrite Hw, Hl; lia|].
    intros k v Hk. unfold words in Hk. rewrite list_lookup_fmap in Hk. apply fmap_Some in Hk as (j & Hj & ->). apply lookup_seq in Hj as [-> Hj].
    rewrite measurement_word_run by (done || lia). do 2 f_equal. lia. }
  assert (Hz : ∀ n i l', (0 <= i → i + Z.of_nat n <= Z.of_nat (length l') → fill_regs n i (λ _, Ok 0) l' = Ok (take (Z.to_nat i) l' ++ replicate n 0 ++ drop (Z.to_nat i + n) l'))).
  { intros n i l' Hi Hn. rewrite <- (length_replicate n 0) at 1. rewrite fill_regs_run; [by rewrite length_replicate|done|rewrite length_replicate; lia|].
    intros k v [-> _]%lookup_replicate. done. }
  destruct a.
  - change (fill_regs 4 5 (λ _, Ok 0) l = Ok (read_regs HASH_SHA_256 m l)).
    by rewrite Hz by (rewrite ?Hl; vm_compute; done).
  - change ((fill_regs 4 5 (λ i, measurement_word m (i - 1)) l ≫= λ l, Ok l) = Ok (read_regs HASH_SHA_512 m l)). by rewrite (Hf 4%nat) by lia.
Qed.

Lemma read_run s r d res idx :
  rec_realm s r d → measured d → regs r !! 1%nat = Some idx → is_u64 idx →
  handle_rsi_measurement_read r res s
  = Ok (match measurement d !! Z.to_nat idx with
        | Some m => (set_regs (read_regs (algorithm d) m (regs r)) r,
                     {| action := UPDATE_REC_RETURN_TO_REALM; rtt_level := rtt_level res;
                        smc_res := {| x0 := RSI_SUCCESS; x1 := member_at 0 8 m; x2 := member_at 8 8 m; x3 := member_at 16 8 m; x4 := member_at 24 8 m |} |})
        | None => (r, set_res (set_x0 RSI_ERROR_INPUT) (set_action UPDATE_REC_RETURN_TO_REALM res))
        end, s).
Proof using L HL.
  intros [Ha Hs (rc & tag & Hg & Hok) Hm Hrl] Hms Hi Hiu. unfold handle_rsi_measurement_read, is_u64 in *.
  run_step (lift_run _ _ s (aget_lookup (regs r) 1 idx ltac:(lia) Hi)). unfold MEASUREMENT_SLOT_NR. destruct (Z.leb_spec 5 idx) as [H5|H5].
  { by rewrite lookup_ge_None_2 by (rewrite (ms_nr _ Hms); lia). }
  destruct (measured_at d idx Hms ltac:(lia)) as (m & Hmi & Hml). rewrite Hmi.
  erewrite bind_run; [|by eapply (granule_lock_run s)]. cbv beta. st_norm.
  exec map_assert_run. erewrite bind_run; [|eapply read_rd_run; [exec_side..|reflexivity]]. cbv beta.
  assert (Hc : measurement_get_size (algorithm d) / 8 = 4 ∨ measurement_get_size (algorithm d) / 8 = 8) by (destruct (algorithm d); [by left|by right]).
  assert (Hc1 : (SMC_RESULT_REGS - 1 <=? measurement_get_size (algorithm d) / 8) = true) by (apply Z.leb_le; unfold SMC_RESULT_REGS; lia).
  assert (Hc2 : (measurement_get_size (algorithm d) / 8 <? 31) = true) by (apply Z.ltb_lt; lia).
  rewrite (bind_run _ _ _ _ _ (massert_run _ _ Hc1)), (bind_run _ _ _ _ _ (massert_run _ _ Hc2)).
  rewrite (bind_run _ _ _ _ _ (lift_run _ _ _ (aget_lookup (measurement d) idx m ltac:(lia) Hmi))). cbv beta.
  assert (Hw : ∀ i, 0 <= i < 4 → measurement_word m i = Ok (member_at (8 * Z.to_nat i) 8 m)) by (intros i Hi'; apply measurement_word_run; [done|lia]).
  do 4 (erewrite bind_run; [|apply lift_run, Hw; lia]; cbv beta).
  pose proof (read_fill (algorithm d) m (regs r) Hml Hrl) as Hf. apply result_bind_inv in Hf as (l & Hl1 & Hl2).
  rewrite (bind_run _ _ _ _ _ (lift_run _ _ _ Hl1)). cbv beta. rewrite (bind_run _ _ _ _ _ (lift_run _ _ _ Hl2)). cbv beta.
  exec buffer_unmap_run. exec granule_unlock_run. unfold mret, M_ret. rewrite insert_insert_eq, insert_id, delete_insert_id by done. by destruct s.
Qed.

(** ** Sequences of calls *)

(** The slot and the data of a call that is accepted. *)
Definition extend_req (r : rec) : option (Z * list Z) :=
  match regs r !! 1%nat, regs r !! 2%nat with
  | Some index, Some size => if (1 <=? index) && (index <=? 4) && (size <=? 64) then Some (index, regs_bytes r 3 size) else None
  | _, _ => None
  end.
Definition extend_by (d : rd) (r : rec) : rd :=
  match extend_req r with Some (index, data) => extend_slot index data d | None => d end.

(** A REC of the realm [g], with registers of 64 bits. *)
Record caller (g : Z) (r : rec) : Prop := {
  ca_rd : ri_g_rd r = g;
  ca_nr : length (regs r) = 31%nat;
  ca_64 : Forall is_u64 (regs r);
}.

Lemma caller_reg g r i : caller g r → (i < 31)%nat → ∃ v, regs r !! i = Some v ∧ is_u64 v.
Proof using.
  clear. intros [_ Hn Hu] Hi. destruct (lookup_lt_is_Some_2 (regs r) i) as [v Hv]; [lia|]. exists v. split; [done|]. by apply (Forall_lookup_1 _ _ _ _ Hu Hv).
Qed.

Lemma extend_slot_measurement index data d : 1 <= index →
  measurement (extend_slot index data d)
  = rim d :: alter (λ m, extended (algorithm d) m data) (Z.to_nat (index - 1)) (rems d) ∧
  measurement (extend_slot index data d) = alter (λ m, extended (algorithm d) m data) (Z.to_nat index) (measurement d).
Proof using. clear. intros Hi. unfold extend_slot, measurement. replace (Z.to_nat index) with (S (Z.to_nat (index - 1))) by lia. done. Qed.

Lemma extend_keeps d r : algorithm (extend_by d r) = algorithm d ∧ rim (extend_by d r) = rim d ∧ rd_state (extend_by d r) = rd_state d ∧
  (measured d → measured (extend_by d r)).
Proof using CL.
  unfold extend_by, extend_req. destruct (regs r !! 1%nat) as [index|]; [|done]. destruct (regs r !! 2%nat) as [size|]; [|done].
  destruct ((1 <=? index) && (index <=? 4) && (size <=? 64)) eqn:E; [|done]. rewrite !andb_true_iff, !Z.leb_le in E.
  destruct (extend_slot_measurement index (regs_bytes r 3 size) d ltac:(lia)) as [H0 Hm]. split; [done|]. split; [by injection H0|]. split; [done|].
  intros [Hn Hl]. split; rewrite Hm; [by rewrite length_alter|]. apply Forall_alter; [done|]. intros m _ Hlm. unfold extended.
  rewrite length_app, hash_size, length_drop. unfold digest_size, measurement_get_size, SHA256_SIZE, SHA512_SIZE. destruct (algorithm d); lia.
Qed.

(** The digest of slot [j] and what a call makes of it. *)
Definition digest_of (d : rd) (j : nat) : list Z := take (digest_size (algorithm d)) (default [] (measurement d !! j)).
Definition data_for (j : nat) (r : rec) : option (list Z) :=
  match extend_req r with Some (index, data) => if (Z.to_nat index =? j)%nat then Some data else None | None => None end.

Lemma extend_digest d r j : measured d → (j < 5)%nat →
  digest_of (extend_by d r) j
  = match data_for j r with Some data => psa_hash_compute (algorithm d) (digest_of d j ++ data) | None => digest_of d j end.
Proof using CL.
  intros Hms Hj. destruct (extend_keeps d r) as (Ha & _). unfold digest_of, data_for. rewrite Ha. unfold extend_by.
  destruct (extend_req r) as [[index data]|] eqn:E; [|done].
  assert (Hi : 1 <= index <= 4).
  { unfold extend_req in E. destruct (regs r !! 1%nat); [|done]. destruct (regs r !! 2%nat); [|done].
    destruct ((1 <=? z) && (z <=? 4) && (z0 <=? 64)) eqn:E2; [|done]. rewrite !andb_true_iff, !Z.leb_le in E2. injection E as -> _. lia. }
  destruct (extend_slot_measurement index data d ltac:(lia)) as [_ Hm].
  rewrite Hm. destruct (Nat.eqb_spec (Z.to_nat index) j) as [<-|Hne]; [|by rewrite list_lookup_alter_ne].
  rewrite list_lookup_alter_eq. destruct (measured_at d index Hms ltac:(lia)) as (m & -> & _). cbn [fmap option_fmap option_map default from_option]. unfold id, extended.
  rewrite <- (hash_size (algorithm d) (take (digest_size (algorithm d)) m ++ data)) at 1. apply take_app_length.
Qed.

(** The calls one after the other, with what each answers. *)
Fixpoint run_extends (l : list rec) (res : rsi_result) : M state (list Z) :=
  match l with
  | [] => mret []
  | r :: l' => handle_rsi_measurement_extend r res ≫= λ res1, run_extends l' res ≫= λ a, mret (x0 (smc_res res1) :: a)
  end.
Definition extend_answer (r : rec) : Z := if bool_decide (is_Some (extend_req r)) then RSI_SUCCESS else RSI_ERROR_INPUT.

Lemma rec_realm_put s r d d' g : rec_realm s r d → ri_g_rd r = g → rec_realm (set_mem (<[g := PRd d']> (mem s)) s) r d'.
Proof using. clear. intros [H1 H2 H3 H4 H5] <-. split; try done. cbn. apply lookup_insert_eq. Qed.

Lemma rec_realm_other s r d r' g : rec_realm s r d → ri_g_rd r = g → caller g r' → rec_realm s r' d.
Proof using. clear. intros [H1 H2 H3 H4 H5] Hg [H6 H7 _]. rewrite Hg in H1, H3, H4. split; try done; by rewrite H6. Qed.

Lemma run_extends_run l : ∀ s r d res g,
  rec_realm s r d → ri_g_rd r = g → measured d → Forall (caller g) l →
  run_extends l res s = Ok (extend_answer <$> l, set_mem (<[g := PRd (fold_left extend_by l d)]> (mem s)) s).
Proof using L HL CL OL.
  induction l as [|x l IH]; intros s r d res g Hr Hg Hms Hl.
  { cbn. unfold mret, M_ret. rewrite insert_id by (rewrite <- Hg; apply (rr_mem _ _ _ Hr)). by destruct s. }
  apply Forall_cons in Hl as [Hx Hl]. pose proof (rec_realm_other _ _ _ x _ Hr Hg Hx) as Hrx. cbn [run_extends fold_left].
  destruct (caller_reg g x 1 Hx ltac:(lia)) as (index & Hi & Hiu). destruct (caller_reg g x 2 Hx ltac:(lia)) as (size & Hz & Hzu).
  pose proof (extend_run s x d res index size Hrx Hms Hi Hz Hiu Hzu) as Hrun. rewrite (ca_rd _ _ Hx) in Hrun.
  assert (Hstate : ∃ res1, handle_rsi_measurement_extend x res s = Ok (res1, set_mem (<[g := PRd (extend_by d x)]> (mem s)) s) ∧ x0 (smc_res res1) = extend_answer x).
  { unfold extend_answer, extend_by, extend_req. rewrite Hrun, Hi, Hz. destruct ((1 <=? index) && (index <=? 4) && (size <=? 64)); [by eexists|].
    eexists. rewrite insert_id by (rewrite <- Hg; apply (rr_mem _ _ _ Hr)). split; [by destruct s|done]. }
  destruct Hstate as (res1 & Hs1 & Hx0). rewrite (bind_run _ _ _ _ _ Hs1). destruct (extend_keeps d x) as (_ & _ & _ & Hk).
  rewrite (bind_run _ _ _ _ _ (IH _ r (extend_by d x) res g (rec_realm_put s r d _ g Hr Hg) Hg (Hk Hms) Hl)). rewrite Hx0. unfold mret, M_ret, set_mem. cbn [mem granules slots vttbr_el2 tlbi tags csm_ids vmids]. by rewrite insert_insert_eq.
Qed.

Lemma fold_digest l : ∀ d j, measured d → (j < 5)%nat →
  measured (fold_left extend_by l d) ∧ algorithm (fold_left extend_by l d) = algorithm d ∧ rim (fold_left extend_by l d) = rim d ∧
  digest_of (fold_left extend_by l d) j
  = fold_left (λ h data, psa_hash_compute (algorithm d) (h ++ data)) (omap (data_for j) l) (digest_of d j).
Proof using CL.
  induction l as [|x l IH]; intros d j Hms Hj; [done|]. cbn [fold_left omap list_omap]. destruct (extend_keeps d x) as (Ha & Hrim & _ & Hk).
  destruct (IH (extend_by d x) j (Hk Hms) Hj) as (H1 & H2 & H3 & H4). rewrite H2, H3, H4, Ha, Hrim, extend_digest by done.
  split; [done|]. split; [done|]. split; [done|]. by destruct (data_for j x).
Qed.

(** The value that the four result registers and x5 to x8 hold. *)
Definition read_value (r : rec) (res : rsi_result) : list Z :=
  longs [x1 (smc_res res); x2 (smc_res res); x3 (smc_res res); x4 (smc_res res)] ++ longs (take 4 (drop 5 (regs r))).

Lemma longs_app a b : longs (a ++ b) = longs a ++ longs b.
Proof using. clear. unfold longs. by rewrite fmap_app, concat_app. Qed.

Lemma read_value_run a m r l res : length m = 64%nat → Forall is_byte (take (digest_size a) m) → length (regs r) = 31%nat →
  smc_res res = {| x0 := RSI_SUCCESS; x1 := member_at 0 8 m; x2 := member_at 8 8 m; x3 := member_at 16 8 m; x4 := member_at 24 8 m |} →
  l = read_regs a m (regs r) → read_value (set_regs l r) res = member 64 (take (digest_size a) m).
Proof using.
  clear. intros Hm Hb Hr Hres ->. unfold read_value. rewrite Hres. cbn [x1 x2 x3 x4 regs set_regs].
  set (m' := take (digest_size a) m) in *. assert (Hs : digest_size a = 32%nat ∨ digest_size a = 64%nat) by (destruct a; [by left|by right]).
  assert (Hm' : length m' = digest_size a) by (unfold m'; rewrite length_take; lia).
  assert (Hat : ∀ k, (8 * k + 8 <= digest_size a)%nat → member_at (8 * k) 8 m = member_at (8 * k) 8 m').
  { intros k Hk. unfold member_at, m'. by rewrite !take_drop_commute, take_take, Nat.min_l by lia. }
  assert (Hw : ∀ i n, (8 * (i + n) <= digest_size a)%nat → words m i n = words m' i n).
  { intros i n Hin. apply list_fmap_ext. intros j k [-> Hk]%lookup_seq. apply Hat. lia. }
  change [_; _; _; _] with (words m 0 4). unfold read_regs. rewrite (drop_app_length' (take 5 (regs r))) by (rewrite length_take; lia).
  rewrite (app_assoc (words _ _ _)), take_app_length'
    by (rewrite length_app, length_replicate; unfold words; rewrite length_fmap, length_seq; destruct Hs as [-> | ->]; vm_compute; lia).
  rewrite Hw by (destruct Hs as [-> | ->]; lia). rewrite (Hw 4%nat) by (destruct Hs as [-> | ->]; vm_compute; lia).
  rewrite longs_app, app_assoc, !longs_words, drop_0 by (done || (rewrite Hm'; destruct Hs as [-> | ->]; vm_compute; lia)).
  unfold member. rewrite Hm'. destruct Hs as [Hd|Hd]; rewrite Hd.
  - change (8 * (32 / 8 - 4))%nat with 0%nat. rewrite take_0, app_nil_r, take_ge by lia. done.
  - change (8 * (64 / 8 - 4))%nat with 32%nat. change (8 * 4)%nat with 32%nat. rewrite (take_take_drop m' 32 32), take_ge by lia. done.
Qed.

Lemma digest_bytes (DB : ∀ a m, Forall is_byte (psa_hash_compute a m)) a l : ∀ h, Forall is_byte h →
  Forall is_byte (fold_left (λ h data, psa_hash_compute a (h ++ data)) l h).
Proof using. clear -DB. induction l as [|x l IH]; intros h Hh; [done|]. cbn [fold_left]. apply IH, DB. Qed.

Lemma read_regs_other a m l i : length l = 31%nat → (i < 5)%nat ∨ (9 <= i)%nat → read_regs a m l !! i = l !! i.
Proof using.
  clear. intros Hl Hi. unfold read_regs. assert (Ht : length (take 5 l) = 5%nat) by (rewrite length_take; lia).
  destruct Hi as [Hi|Hi]; [by rewrite lookup_app_l, lookup_take_lt by lia|]. rewrite lookup_app_r, app_assoc by lia. rewrite Ht.
  assert (Hw : length (words m 4 (digest_size a / 8 - 4) ++ replicate (8 - digest_size a / 8) 0) = 4%nat) by (unfold words; rewrite length_app, length_fmap, length_seq, length_replicate; by destruct a).
  rewrite lookup_app_r by lia. rewrite Hw, lookup_drop. f_equal. lia.
Qed.

(** C36: the measurements of a realm that runs. After any sequence of calls of its RECs to extend
    measurements, each answered with success or, for the initial measurement, a slot that does
    not exist or more than 64 bytes, with an input error, a REC that reads a slot gets, in x1 to x8
    and with zeros behind a short digest, the hash chain over the digest that the slot started
    with and the data of the accepted calls for it, in their order. No call reaches the initial
    measurement. A read changes no other register, and the calls change nothing in memory but
    the realm's descriptor. *)
Theorem measurement_history_read s r d l q j res :
  rec_realm s r d → measured d → Forall (Forall is_byte) (measurement d) → (∀ a m, Forall is_byte (psa_hash_compute a m)) →
  Forall (caller (ri_g_rd r)) l → caller (ri_g_rd r) q → regs q !! 1%nat = Some (Z.of_nat j) → (j < 5)%nat →
  ∃ s1 q' res',
    run_extends l res s = Ok (extend_answer <$> l, s1) ∧
    handle_rsi_measurement_read q res s1 = Ok ((q', res'), s1) ∧ x0 (smc_res res') = RSI_SUCCESS ∧
    read_value q' res' = member 64 (fold_left (λ h data, psa_hash_compute (algorithm d) (h ++ data)) (omap (data_for j) l) (digest_of d j)) ∧
    (j = 0%nat → omap (data_for j) l = []) ∧
    (∀ i, (i < 5)%nat ∨ (9 <= i)%nat → regs q' !! i = regs q !! i) ∧
    (∀ g, g ≠ ri_g_rd r → mem s1 !! g = mem s !! g).
Proof using L HL CL OL.
  intros Hr Hms Hb DB Hl Hq Hqj Hj. pose proof (run_extends_run l s r d res _ Hr eq_refl Hms Hl) as Hrun.
  destruct (fold_digest l d j Hms Hj) as (Hms' & Ha & _ & Hdig). set (d' := fold_left extend_by l d) in *.
  pose proof (rec_realm_other _ _ _ q _ (rec_realm_put s r d d' _ Hr eq_refl) eq_refl Hq) as Hrq.
  pose proof (read_run _ q d' res (Z.of_nat j) Hrq Hms' Hqj ltac:(unfold is_u64; lia)) as Hread.
  destruct (measured_at d' (Z.of_nat j) Hms' ltac:(lia)) as (m & Hm & Hml). rewrite Hm in Hread. rewrite Nat2Z.id in Hm.
  unfold digest_of at 1 in Hdig. rewrite Hm, Ha in Hdig. cbn [default from_option] in Hdig. unfold id in Hdig.
  assert (Hbm : Forall is_byte (digest_of d j)).
  { unfold digest_of. apply Forall_take. destruct (measurement d !! j) as [x|] eqn:Hx; [|constructor]. by apply (Forall_lookup_1 _ _ _ _ Hb Hx). }
  do 3 eexists. split; [exact Hrun|]. split; [exact Hread|]. split; [done|]. split; [|split; [|split]].
  - rewrite <- Hdig. rewrite Ha. apply read_value_run; try done; [|apply (ca_nr _ _ Hq)]. rewrite Hdig. by apply digest_bytes.
  - intros ->. clear -l. induction l as [|x l IH]; [done|]. cbn [omap list_omap]. rewrite IH. unfold data_for, extend_req.
    destruct (regs x !! 1%nat) as [i|]; [|done]. destruct (regs x !! 2%nat) as [z|]; [|done].
    destruct ((1 <=? i) && (i <=? 4) && (z <=? 64)) eqn:E; [|done]. rewrite !andb_true_iff, !Z.leb_le in E.
    by rewrite (proj2 (Nat.eqb_neq _ _)) by lia.
  - intros i Hi. apply read_regs_other; [apply (ca_nr _ _ Hq)|done].
  - intros g Hg. cbn. by rewrite lookup_insert_ne.
Qed.
End runs.

(** * An example *)

(** A hash that adds up the bytes of its message. *)
Definition sum_hash (a : hash_algo) (m : list Z) : list Z := (foldr Z.add 0 m mod 256) :: replicate (digest_size a - 1) 0.
Definition sum_crypto : Crypto := {| psa_hash_compute := sum_hash |}.
Definition sum_ops : HashOps :=
  {| psa_hash_operation_t := hash_algo * list Z; psa_hash_setup a := (a, []); psa_hash_update o m := (fst o, snd o ++ m);
     psa_hash_finish o := sum_hash (fst o) (snd o) |}.
Lemma sum_laws : CryptoLaws sum_crypto.
Proof. split. by intros [] m. Qed.
Lemma sum_ops_laws : HashOpsLaws sum_crypto sum_ops.
Proof.
  split. intros a l. assert (Hf : ∀ p, fold_left (@psa_hash_update sum_ops) l (a, p) = (a, p ++ concat l)); [|change (@psa_hash_setup sum_ops a) with (a, @nil Z); by rewrite Hf].
  induction l as [|x l IH]; intros p; cbn [fold_left concat]; [by rewrite app_nil_r|].
  change (fold_left (@psa_hash_update sum_ops) l (a, p ++ x) = (a, p ++ x ++ concat l)). by rewrite IH, app_assoc.
Qed.
Lemma sum_bytes a m : Forall is_byte (sum_hash a m).
Proof.
  apply Forall_cons. split; [apply Z.mod_pos_bound; lia|]. apply Forall_replicate. unfold is_byte. lia.
Qed.

(** A REC that calls with [args] in x1, x2 and so on. *)
Definition call_with (args : list Z) : rec := PsciSpec.demo_rec 0 0 true (0 :: args).
Definition two_extends : list rec := [call_with [2; 3; 0x30201]; call_with [0; 1; 7]; call_with [2; 1; 0x105]].

Lemma call_with_ok args : Forall is_u64 args → (length args <= 30)%nat → caller 2 (call_with args).
Proof.
  intros Ha Hl. split; [done|cbn; rewrite length_app, length_replicate; lia|]. cbn [regs call_with PsciSpec.demo_rec app].
  apply Forall_cons. split; [by vm_compute|]. apply Forall_app. split; [done|]. apply Forall_replicate. by vm_compute.
Qed.

Lemma measurement_history_read_witness :
  ∃ s1 q' res',
    run_extends (P := demo_psci_platform) (H := zero_machine) (O := sum_ops) two_extends demo_rsi_result (demo_psci_state (call_with [2]))
    = Ok ([RSI_SUCCESS; RSI_ERROR_INPUT; RSI_SUCCESS], s1) ∧
    handle_rsi_measurement_read (P := demo_psci_platform) (H := zero_machine) (call_with [2]) demo_rsi_result s1 = Ok ((q', res'), s1) ∧
    read_value q' res' = 11 :: replicate 63 0.
Proof.
  destruct (measurement_history_read (P := demo_psci_platform) (H := zero_machine) (L := demo_psci_laws) (HL := demo_psci_machine) (C := sum_crypto)
    (CL := sum_laws) (O := sum_ops) (OL := sum_ops_laws) (demo_psci_state (call_with [2])) (call_with [2]) PsciSpec.demo_rd two_extends (call_with [2]) 2 demo_rsi_result)
    as (s1 & q' & res' & H1 & H2 & _ & H3 & _).
  - by apply demo_rec_realm.
  - split; [done|]. repeat (apply Forall_cons; split; [done|]). done.
  - repeat (apply Forall_cons; split; [apply (Forall_replicate is_byte 64 0); by vm_compute|]). done.
  - apply sum_bytes.
  - repeat (apply Forall_cons; split; [apply call_with_ok; [repeat (apply Forall_cons; split; [by vm_compute|]); done|cbn; lia]|]). done.
  - apply call_with_ok; [repeat (apply Forall_cons; split; [by vm_compute|]); done|cbn; lia].
  - done.
  - lia.
  - exists s1, q', res'. split; [exact H1|]. split; [exact H2|]. rewrite H3. by vm_compute.
Defined.
