(* ===== verification/TokenSpec.v ===== *)
(** From the first call for a token to its last byte: signing comes to an end, and the pieces that a
    realm is given make up the token. *)
From stdpp Require Import strings.
From S2P Require Import Alloc AllocSpec.
From S2P Require Import Prelude PsciSpec Types Granule Platform GranuleFind S2tte S2tt Measurement Buffer Walk Exec Realm RealmTag Rtt RttTree Feature Rsi Gic Mpidr Psci RealmCmd RsiCall Exit Rec RecEnter DataAbort HostCall CsmSpec Attest Token AttestSpec.

Section token.
Context {P : Platform} {H : Machine} {CF : Config} {L : PlatformLaws P} {HL : MachineLaws P H}.
Context {RE : RecEnv} {TL : TokenLib} {TLL : TokenLibLaws TL} {IR : Interrupts}.

Lemma sys_run {A} (m : M state A) s (a : attest_env) v s' : m s = Ok (v, s') → sys m (s, a) = Ok (v, (s', a)).
Proof using. clear. intros Hm. unfold sys, zoom. cbn [fst]. by rewrite Hm. Qed.

Lemma data_mod_bind {B} f (k : () → M tstate B) s a : (data_mod f ≫= k) (s, a) = k () (s, set_at_data (f (at_data a)) a).
Proof using. done. Qed.
Lemma att_bind {A B} (f : attest_env → A) (k : A → M tstate B) s a : (att f ≫= k) (s, a) = k (f a) (s, a).
Proof using. done. Qed.

(** * Phases *)

(** The signature is complete after [n] calls that say that it is in progress, with the token
    [b]. *)
Inductive signs : nat → t_cose_signer → list Z → QCBOREncodeContext → list Z → Prop :=
  | signs_done sg p c sg' c' b : t_cose_sign_encode_finish sg p c = (T_COSE_SUCCESS, sg', c') → QCBOREncode_Finish c' = (QCBOR_SUCCESS, b) → signs 0 sg p c b
  | signs_more n sg p c sg' c' b : t_cose_sign_encode_finish sg p c = (T_COSE_ERR_SIG_IN_PROGRESS, sg', c') → signs n sg' p c' b → signs (S n) sg p c b.

Lemma signs_bound n sg p c b : signs n sg p c b → (n <= sign_left sg)%nat.
Proof using TLL. induction 1 as [|n sg p c sg' c' b Hf _ IH]; [lia|]. pose proof (sign_progress _ _ _ _ _ Hf). lia. Qed.

Definition tk (a : attest_env) : token_sign_cntxt := token_sign_ctx (at_data a).

Record signing (a : attest_env) (n : nat) (b : list Z) : Prop := {
  sg_len : rmm_realm_token_len (at_data a) = 0;
  sg_copied : rmm_cca_token_copied_len (at_data a) = 0;
  sg_state : tk_state (tk a) = ATTEST_TOKEN_SIGN;
  sg_signs : signs n (sign_ctx (tk_ctx (tk a))) (signed_payload (tk_ctx (tk a))) (cbor_enc_ctx (tk_ctx (tk a))) b;
}.
(** The realm's token [b] is complete. *)
Record signed (a : attest_env) (b : list Z) : Prop := {
  sd_len : rmm_realm_token_len (at_data a) = Z.of_nat (length b);
  sd_copied : rmm_cca_token_copied_len (at_data a) = 0;
  sd_state : tk_state (tk a) = ATTEST_TOKEN_CREATE;
  sd_buf : take (length b) (rmm_realm_token_buf (at_data a)) = b;
  sd_pos : 0 < Z.of_nat (length b);
}.
(** The whole token [tok] is in the buffer, and [c] bytes of it were copied. *)
Record loaded (a : attest_env) (tok : list Z) (c : Z) : Prop := {
  ld_len : rmm_realm_token_len (at_data a) ≠ 0;
  ld_copied : rmm_cca_token_copied_len (at_data a) = c;
  ld_left : rmm_cca_token_len (at_data a) = Z.of_nat (length tok) - c;
  ld_state : tk_state (tk a) = ATTEST_TOKEN_NOT_STARTED;
  ld_buf : take (length tok) (at_token_buf a) = tok;
  ld_range : 0 <= c < Z.of_nat (length tok) ∧ Z.of_nat (length tok) < 2 ^ 32;
}.
Record finished (a : attest_env) : Prop := {
  fi_len : rmm_realm_token_len (at_data a) = 0;
  fi_state : tk_state (tk a) = ATTEST_TOKEN_NOT_STARTED;
}.

(** The token of the platform and the realm's token [b] make up [tok]. *)
Definition token_of (k : attest_keys) (b tok : list Z) : Prop :=
  ∃ pt, rmm_platform_token k = Some pt ∧
    QCBOREncode_Finish (encode [ QAddTag TAG_CCA_TOKEN; QOpenMap; QAddBytesToMapN CCA_PLAT_TOKEN pt; QAddBytesToMapN CCA_REALM_DELEGATED_TOKEN b; QCloseMap ]
                               (QCBOREncode_Init REC_ATTEST_TOKEN_BUF_SIZE)) = (QCBOR_SUCCESS, tok).

(** [c] bytes of [tok] have been given to the realm. *)
Definition ready (k : attest_keys) (a : attest_env) (tok : list Z) (c : Z) : Prop :=
  (∃ b, c = 0 ∧ signed a b ∧ token_of k b tok) ∨ (0 < c ∧ loaded a tok c).

(** * Signing *)

Lemma take_completed (b l : list Z) : take (length b) (completed b l) = b.
Proof using. clear. unfold completed. by rewrite take_app_length. Qed.

(** One round that does not fail. *)
Definition after_round (me : token_sign_cntxt) (buf : list Z) (len : Z) (a : attest_env) : attest_env :=
  set_at_isr_reads (S (at_isr_reads a)) (set_at_data (set_realm_token_len len (set_realm_token_buf buf (set_sign_ctx me (at_data a)))) a).

Lemma sign_round s ex res fuel a ret me buf len :
  rmm_realm_token_len (at_data a) = 0 → attest_realm_token_sign (tk a) (rmm_realm_token_buf (at_data a)) 0 = (ret, me, buf, len) →
  ret = ATTEST_TOKEN_ERR_SUCCESS ∨ ret = ATTEST_TOKEN_ERR_COSE_SIGN_IN_PROGRESS →
  let res1 := set_res (set_x0 RSI_INCOMPLETE) res in
  sign_loop (S fuel) ex res (s, a)
  = if negb (read_isr_el1 (at_isr_reads a) =? 0)
    then Ok (inl (set_exit_reason RMI_EXIT_IRQ ex, set_action UPDATE_REC_EXIT_TO_HOST res1), (s, after_round me buf len a))
    else sign_loop fuel ex res1 (s, after_round me buf len a).
Proof using.
  clear. intros Hl Hs Hret res1. cbn [sign_loop]. unfold att at 1. rewrite gets_bind. cbn [snd]. rewrite Hl. cbn [Z.eqb negb]. unfold tk in Hs. rewrite Hs.
  unfold data_mod, att_mod at 1. rewrite mmodify_bind. cbn [fst snd]. by destruct Hret as [-> | ->]; destruct (negb (read_isr_el1 (at_isr_reads a) =? 0)) eqn:E;
    unfold check_pending_irq, att, att_mod; rewrite bind_assoc, gets_bind, bind_assoc, mmodify_bind, ret_bind; cbn [fst snd at_isr_reads set_at_data]; rewrite E.
Qed.

Lemma sign_loop_skip s ex res fuel a : rmm_realm_token_len (at_data a) ≠ 0 → sign_loop (S fuel) ex res (s, a) = Ok (inr res, (s, a)).
Proof using. clear. intros Hl. cbn [sign_loop]. unfold att. rewrite gets_bind. cbn [snd]. by rewrite (proj2 (Z.eqb_neq _ _) Hl). Qed.

Lemma sign_loop_run s ex b : ∀ n fuel a res, signing a n b → (n + 2 <= fuel)%nat →
  ∃ a', let res1 := set_res (set_x0 RSI_INCOMPLETE) res in
    (sign_loop fuel ex res (s, a) = Ok (inr res1, (s, a')) ∧ signed a' b) ∨
    (sign_loop fuel ex res (s, a) = Ok (inl (set_exit_reason RMI_EXIT_IRQ ex, set_action UPDATE_REC_EXIT_TO_HOST res1), (s, a')) ∧
     (signed a' b ∨ ∃ n', (n' < n)%nat ∧ signing a' n' b)).
Proof using TLL.
  induction n as [|n IH]; intros fuel a res [Hl Hc Hst Hs] Hf; (destruct fuel as [|fuel]; [lia|]);
    inversion Hs as [? ? ? sg' c' ? E1 E2|? ? ? ? sg' c' ? E1 E2]; subst.
  - assert (Hsign : attest_realm_token_sign (tk a) (rmm_realm_token_buf (at_data a)) 0
      = (ATTEST_TOKEN_ERR_SUCCESS, set_tk_state ATTEST_TOKEN_CREATE (set_tk_ctx (set_enc c' (set_signer sg' (tk_ctx (tk a)))) (tk a)),
         completed b (rmm_realm_token_buf (at_data a)), Z.of_nat (length b))).
    { unfold attest_realm_token_sign. rewrite Hst, bool_decide_eq_true_2 by done. cbn [negb]. by rewrite E1, E2. }
    pose proof (sign_round s ex res fuel a _ _ _ _ Hl Hsign (or_introl eq_refl)) as Hr. cbv zeta in Hr. rewrite Hr. set (a' := after_round _ _ _ a).
    assert (Hsd : signed a' b) by (pose proof (finish_size _ _ E2); split; cbn; [done|done|done|apply take_completed|lia]).
    exists a'. destruct (negb (read_isr_el1 _ =? 0)); [right; split; [done|by left]|]. left. split; [|done]. destruct fuel as [|fuel]; [lia|]. apply sign_loop_skip.
    rewrite (sd_len _ _ Hsd). pose proof (sd_pos _ _ Hsd). lia.
  - assert (Hsign : attest_realm_token_sign (tk a) (rmm_realm_token_buf (at_data a)) 0
      = (ATTEST_TOKEN_ERR_COSE_SIGN_IN_PROGRESS, set_tk_ctx (set_enc c' (set_signer sg' (tk_ctx (tk a)))) (tk a), rmm_realm_token_buf (at_data a), 0)).
    { unfold attest_realm_token_sign. rewrite Hst, bool_decide_eq_true_2 by done. cbn [negb]. by rewrite E1. }
    pose proof (sign_round s ex res fuel a _ _ _ _ Hl Hsign (or_intror eq_refl)) as Hr. cbv zeta in Hr. rewrite Hr. set (a1 := after_round _ _ _ a).
    assert (Hsg : signing a1 n b) by (split; cbn; done).
    destruct (negb (read_isr_el1 _ =? 0)); [exists a1; right; split; [done|]; right; by exists n; split; [lia|]|].
    destruct (IH fuel a1 (set_res (set_x0 RSI_INCOMPLETE) res) Hsg ltac:(lia)) as (a' & Hrun). exists a'.
    destruct Hrun as [[Hrun Hd]|[Hrun [Hd|(n' & Hn & Hd)]]]; [left; by rewrite Hrun|right; rewrite Hrun; split; [done|by left]|right; rewrite Hrun; split; [done|]].
    right. exists n'. split; [lia|done].
Qed.

Lemma sign_loop_idle s ex res fuel a : finished a →
  ∃ a', sign_loop (S fuel) ex res (s, a) = Ok (inl (ex, set_res (set_x0 RSI_ERROR_STATE) res), (s, a')) ∧ a' = a.
Proof using.
  clear. intros [Hl Hst]. unfold tk in *. cbn [sign_loop]. unfold att. rewrite gets_bind. cbn [snd]. rewrite Hl. cbn [Z.eqb negb]. unfold attest_realm_token_sign. rewrite Hst.
  rewrite bool_decide_eq_false_2 by done. cbn [negb]. unfold data_mod, att_mod. rewrite mmodify_bind. cbn [fst snd]. eexists. split; [done|].
  destruct a as [h [] tb ir]. cbn in *. by rewrite Hl.
Qed.

(** * Copying *)

Lemma token_left_run k s a tok c : ready k a tok c →
  ∃ a', token_left k (s, a) = Ok (Some (Z.of_nat (length tok) - c), (s, a')) ∧ loaded a' tok c.
Proof using TLL.
  intros [(b & -> & [Hl Hc Hst Hb Hpos] & pt & Hpt & Hf)|[Hc Hld]]; unfold token_left, att; rewrite gets_bind; cbn [snd]; unfold id.
  - rewrite Hc. cbn [Z.eqb]. unfold attest_cca_token_create, tk in *. rewrite Hst, bool_decide_eq_true_2 by done. cbn [negb]. rewrite Hpt, Hl, Nat2Z.id, Hb, Hf.
    unfold data_mod, att_mod. rewrite !mmodify_bind. eexists. rewrite Z.sub_0_r. split; [done|]. pose proof (finish_size _ _ Hf).
    split; cbn; [by rewrite Hl; lia|done|lia|done|apply take_completed|lia].
  - rewrite (ld_copied _ _ _ Hld), (ld_left _ _ _ Hld). rewrite (proj2 (Z.eqb_neq c 0)) by lia. by exists a.
Qed.

(** A call for the next piece of the token, to a page that is mapped. *)
Record token_call (s : state) (r : rec) (T : gmap Z (Z * Z)) (ipa off size : Z) : Prop := {
  tc_ok : calls_ok s r T ipa;
  tc_x1 : regs r !! 1%nat = Some ipa;
  tc_x2 : regs r !! 2%nat = Some off;
  tc_x3 : regs r !! 3%nat = Some size;
  tc_u64 : is_u64 ipa;
  tc_al : GRANULE_ALIGNED ipa = true;
  tc_par : addr_in_rec_par r ipa = true;
  tc_off : 0 <= off ∧ 0 < size ∧ off + size <= 4096;
  tc_map : ∀ i e, leaf_entry s T ipa i e → s2tte_is_assigned_ram e i = true;
}.

Lemma page_of_aligned ipa : is_u64 ipa → GRANULE_ALIGNED ipa = true → ipa .& GRANULE_MASK = ipa.
Proof using.
  clear. intros Hu Ha. rewrite page_mask_split by done. unfold GRANULE_ALIGNED, ALIGNED in Ha. apply Z.eqb_eq in Ha. change GRANULE_SIZE with 4096 in Ha. lia.
Qed.

Lemma map_rsi_page_run s pa gd : find_granule pa = Ok (Some gd) → has_addr gd → slots s !! SLOT_RSI_CALL = None →
  map_rsi_page pa s = Ok (SLOT_RSI_CALL, set_slots (<[SLOT_RSI_CALL := gd]> (slots s)) s).
Proof using L HL.
  intros Hf Had Hs. unfold map_rsi_page. run_step (lift_run _ _ s Hf). run_step (mderef_run (Some gd) _ s eq_refl). by apply map_assert_run.
Qed.

Lemma piece_in_buf (buf tok : list Z) n c : take (length tok) buf = tok → (c + n <= length tok)%nat → take n (drop c buf) = take n (drop c tok).
Proof using.
  clear. intros Hb Hn. transitivity (take n (drop c (take (length tok) buf))); [|by rewrite Hb]. by rewrite !take_drop_commute, take_take, Nat.min_l by lia.
Qed.

(** The memory with [piece] at offset [off] of the page that maps [ipa]. *)
Definition page_written (s : state) (r : rec) (T : gmap Z (Z * Z)) (ipa off : Z) (piece : list Z) (s' : state) : Prop :=
  ∃ i e gd bytes, leaf_entry s T ipa i e ∧ data_at s (ri_s2_ctx r) ipa i e gd bytes ∧
    s' = set_mem (<[gd := PData (splice (Z.to_nat off) piece bytes)]> (mem s)) s.

Lemma write_state_run k s a r T ipa off size tok c res :
  token_call s r T ipa off size → ready k a tok c →
  let n := Z.min size (Z.of_nat (length tok) - c) in
  let last := c + n =? Z.of_nat (length tok) in
  ∃ s' a', attest_token_continue_write_state k r res (s, a)
           = Ok (set_res (λ x, set_x1 n (set_x0 (if last then RSI_SUCCESS else RSI_INCOMPLETE) x)) res, (s', a')) ∧
    page_written s r T ipa off (take (Z.to_nat n) (drop (Z.to_nat c) tok)) s' ∧
    if last then finished a' else loaded a' tok (c + n).
Proof using L HL TLL.
  intros [Hok H1 H2 H3 Hu Hal Hpar (Ho & Hsz & Hfit) Hmap] Hrd n last.
  pose proof (page_of_aligned ipa Hu Hal) as Hp.
  destruct (host_call_walk s r T ipa Hok (proj1 Hu) ltac:(by rewrite Hp)) as (i & e & Hleaf & Hw). rewrite Hp in Hleaf, Hw.
  rewrite (Hmap _ _ Hleaf) in Hw. destruct Hw as (g & rc & tag & w & gd & bytes & Hd & Hg & Hrc & Hllt & Hf & Hrun).
  assert (Hd' := Hd). destruct Hd' as (pa & q & _ & _ & Had & Hm & Hb & Hbl).
  unfold attest_token_continue_write_state.
  run_step (sys_run _ s a _ _ (lift_run _ _ s (aget_lookup (regs r) 1 ipa ltac:(lia) H1))).
  run_step (sys_run _ s a _ _ (lift_run _ _ s (aget_lookup (regs r) 2 off ltac:(lia) H2))).
  run_step (sys_run _ s a _ _ (lift_run _ _ s (aget_lookup (regs r) 3 size ltac:(lia) H3))).
  run_step (sys_run _ s a _ _ Hrun). rewrite (proj2 (Z.eqb_neq size 0)) by lia. set (s1 := put_granule g _ s).
  pose proof (map_rsi_page_run s1 _ gd Hf Had (co_rsi _ _ _ _ Hok)) as Hmap1.
  set (s2 := set_slots _ s1) in *. rewrite bind_assoc. run_step (sys_run _ s1 a _ _ Hmap1).
  destruct (token_left_run k s2 a tok c Hrd) as (a1 & Hleft & Hld). rewrite !bind_assoc. run_step Hleft. unfold att. rewrite !bind_assoc, gets_bind. cbn [snd]. unfold id.
  destruct Hld as [Hl1 Hl2 Hl3 Hl4 Hl5 [Hl6 Hl7]]. rewrite Hl2.
  assert (Hn : (if size <? Z.of_nat (length tok) - c then size else Z.of_nat (length tok) - c) = n) by (unfold n; destruct (Z.ltb_spec size (Z.of_nat (length tok) - c)); lia).
  rewrite Hn. assert (Hn0 : 0 < n <= Z.of_nat (length tok) - c) by lia.
  pose proof (piece_in_buf (at_token_buf a1) tok (Z.to_nat n) (Z.to_nat c) Hl5 ltac:(lia)) as Hpc.
  rewrite Hpc. set (piece := take (Z.to_nat n) (drop (Z.to_nat c) tok)).
  assert (Hwr : write_bytes SLOT_RSI_CALL (Z.to_nat off) piece s2 = Ok ((), set_mem (<[gd := PData (splice (Z.to_nat off) piece bytes)]> (mem s)) s2)).
  { apply (write_bytes_run s2 _ gd q); [cbn; apply lookup_insert_eq|done|done]. }
  set (s3 := set_mem _ s2) in *. rewrite !bind_assoc. run_step (sys_run _ s2 a1 _ _ Hwr).
  assert (Hum : buffer_unmap SLOT_RSI_CALL s3 = Ok ((), set_slots (slots s) s3)).
  { rewrite (buffer_unmap_run s3 SLOT_RSI_CALL gd) by (cbn; apply lookup_insert_eq). cbn [slots s3 s2 set_mem set_slots s1 put_granule set_granules].
    by rewrite delete_insert_id by (apply (co_rsi _ _ _ _ Hok)). }
  set (s4 := set_slots (slots s) s3) in *.
  assert (Hunl : granule_unlock g s4 = Ok ((), set_mem (<[gd := PData (splice (Z.to_nat off) piece bytes)]> (mem s)) s)).
  { erewrite granule_unlock_run; [|unfold s4, s3, s2, s1; exec_side..]. unfold s4, s3, s2, s1. st_norm. by rewrite insert_insert_eq, insert_id. }
  assert (Hfin : ∀ (res' : rsi_result) (a' : attest_env), (sys (mderef (sw_llt w)) ≫= λ llt, sys (granule_unlock llt) ≫= λ _, mret res') (s4, a')
      = Ok (res', (set_mem (<[gd := PData (splice (Z.to_nat off) piece bytes)]> (mem s)) s, a'))).
  { intros res' a'. rewrite Hllt. rewrite (bind_run _ _ _ _ _ (sys_run _ s4 a' _ _ (mderef_run (Some g) _ s4 eq_refl))).
    by rewrite (bind_run _ _ _ _ _ (sys_run _ s4 a' _ _ Hunl)). }
  assert (Hsub : (Z.of_nat (length tok) - c) .- n = Z.of_nat (length tok) - c - n) by (apply u64_small; unfold is_u64; lia). rewrite Hsub.
  assert (Hlast : (Z.of_nat (length tok) - c - n =? 0) = last) by (unfold last; destruct (Z.eqb_spec (c + n) (Z.of_nat (length tok))); [apply Z.eqb_eq|apply Z.eqb_neq]; lia).
  rewrite Hlast. assert (Hpw : page_written s r T ipa off piece (set_mem (<[gd := PData (splice (Z.to_nat off) piece bytes)]> (mem s)) s)) by (by exists i, e, gd, bytes).
  destruct last eqn:El; cbn [negb]; rewrite !bind_assoc; unfold data_mod, att_mod; rewrite mmodify_bind, ret_bind; cbn [fst snd]; rewrite ?bind_assoc; rewrite (bind_run _ _ _ _ _ (sys_run _ s3 _ _ _ Hum)), ret_bind, Hfin;
    (do 2 eexists; split; [reflexivity|]; split; [exact Hpw|]).
  - split; cbn; done.
  - assert (c + n < Z.of_nat (length tok)) by (unfold last in El; apply Z.eqb_neq in El; lia).
    split; cbn; [done|apply u64_small; unfold is_u64; lia|lia|done|done|lia].
Qed.

(** * One call *)

Record call := Call { cl_s : state; cl_r : rec; cl_T : gmap Z (Z * Z); cl_ipa : Z; cl_off : Z; cl_size : Z }.
Definition call_valid (x : call) : Prop := token_call (cl_s x) (cl_r x) (cl_T x) (cl_ipa x) (cl_off x) (cl_size x).

Lemma continue_run k x a ex res o a1 : call_valid x →
  sign_loop (sign_fuel (at_data a)) ex (set_action UPDATE_REC_RETURN_TO_REALM res) (cl_s x, a) = Ok (o, (cl_s x, a1)) →
  handle_rsi_attest_token_continue k (cl_r x) ex res (cl_s x, a)
  = match o with
    | inl out => Ok (out, (cl_s x, a1))
    | inr res' => (attest_token_continue_write_state k (cl_r x) res' ≫= λ res, mret (ex, res)) (cl_s x, a1)
    end.
Proof using.
  clear. intros [Hok H1 H2 H3 Hu Hal Hpar (Ho & Hsz & Hfit) Hmap] Hloop. unfold handle_rsi_attest_token_continue.
  rewrite (bind_run _ _ _ _ _ (sys_run _ _ a _ _ (lift_run _ _ _ (aget_lookup _ 1 _ ltac:(lia) H1)))).
  rewrite (bind_run _ _ _ _ _ (sys_run _ _ a _ _ (lift_run _ _ _ (aget_lookup _ 2 _ ltac:(lia) H2)))).
  rewrite (bind_run _ _ _ _ _ (sys_run _ _ a _ _ (lift_run _ _ _ (aget_lookup _ 3 _ ltac:(lia) H3)))). cbv beta.
  rewrite Hal, Hpar. change GRANULE_SIZE with 4096. rewrite (u64_small (cl_off x + cl_size x)) by (unfold is_u64; lia).
  rewrite (proj2 (Z.leb_gt 4096 (cl_off x))), (proj2 (Z.ltb_ge 4096 _)), (proj2 (Z.ltb_ge (cl_off x + cl_size x) _)) by lia. cbn [negb orb].
  unfold att. rewrite gets_bind. cbn [snd]. rewrite (bind_run _ _ _ _ _ Hloop). by destruct o.
Qed.

(** [c] bytes of [tok] were given to the realm, and it takes at most [m] calls to give it the rest. *)
Inductive due (k : attest_keys) (a : attest_env) (tok : list Z) : nat → nat → Prop :=
  | due_sign n b : signing a n b → token_of k b tok → due k a tok 0 (S n + length tok)
  | due_copy c : ready k a tok (Z.of_nat c) → (c < length tok)%nat → due k a tok c (length tok - c).

(** What a call does that answers [code] and gives the realm [piece]: either nothing was copied, and
    the REC leaves for an interrupt; or the piece is in the page and its length in x1. *)
Definition delivers (k : attest_keys) (ex : rmi_rec_exit) (res : rsi_result) (x : call) (a : attest_env) (piece : list Z) (code : Z) (a' : attest_env) : Prop :=
  ∃ ex' res' s', handle_rsi_attest_token_continue k (cl_r x) ex res (cl_s x, a) = Ok ((ex', res'), (s', a')) ∧ x0 (smc_res res') = code ∧
    (piece = [] ∧ s' = cl_s x ∧ action res' = UPDATE_REC_EXIT_TO_HOST ∧ ex' = set_exit_reason RMI_EXIT_IRQ ex ∨
     piece ≠ [] ∧ page_written (cl_s x) (cl_r x) (cl_T x) (cl_ipa x) (cl_off x) piece s' ∧ action res' = UPDATE_REC_RETURN_TO_REALM ∧
       x1 (smc_res res') = Z.of_nat (length piece) ∧ ex' = ex).

Lemma copy_step k ex res res1 x a a1 tok c : call_valid x → ready k a1 tok (Z.of_nat c) → (c < length tok)%nat →
  sign_loop (sign_fuel (at_data a)) ex (set_action UPDATE_REC_RETURN_TO_REALM res) (cl_s x, a) = Ok (inr res1, (cl_s x, a1)) →
  action res1 = UPDATE_REC_RETURN_TO_REALM →
  ∃ piece a', piece = take (length piece) (drop c tok) ∧ piece ≠ [] ∧
    (delivers k ex res x a piece RSI_INCOMPLETE a' ∧ (c + length piece < length tok)%nat ∧ due k a' tok (c + length piece) (length tok - (c + length piece)) ∨
     delivers k ex res x a piece RSI_SUCCESS a' ∧ (c + length piece = length tok)%nat ∧ finished a').
Proof using L HL TLL.
  intros Hx Hrd Hc Hloop Hact. pose proof (continue_run k x a ex res _ _ Hx Hloop) as Hrun.
  destruct (write_state_run k (cl_s x) a1 (cl_r x) (cl_T x) (cl_ipa x) (cl_off x) (cl_size x) tok (Z.of_nat c) res1 Hx Hrd) as (s' & a' & Hw & Hpw & Hst).
  set (n := Z.min (cl_size x) (Z.of_nat (length tok) - Z.of_nat c)) in *. cbv iota in Hrun. rewrite (bind_run _ _ _ _ _ Hw) in Hrun. rewrite Nat2Z.id in Hpw.
  set (piece := take (Z.to_nat n) (drop c tok)) in *. pose proof (tc_off _ _ _ _ _ _ Hx) as (_ & Hsz & _).
  assert (Hn : 0 < n <= Z.of_nat (length tok) - Z.of_nat c) by lia.
  assert (Hpl : length piece = Z.to_nat n) by (unfold piece; rewrite length_take, length_drop; lia).
  assert (Hne : piece ≠ []) by (intros E; rewrite E in Hpl; cbn in Hpl; lia).
  exists piece, a'. split; [by rewrite Hpl|]. split; [done|].
  destruct (Z.eqb_spec (Z.of_nat c + n) (Z.of_nat (length tok))) as [E|E].
  - right. split; [|split; [lia|done]]. eexists ex, _, s'. split; [exact Hrun|]. split; [done|]. right. split; [done|]. split; [done|]. split; [done|].
    split; [|done]. cbn. lia.
  - left. split; [|split; [lia|]].
    + eexists ex, _, s'. split; [exact Hrun|]. split; [done|]. right. split; [done|]. split; [done|]. split; [done|]. split; [|done]. cbn. lia.
    + apply due_copy; [|lia]. right. split; [lia|]. by replace (Z.of_nat (c + length piece)) with (Z.of_nat c + n) by lia.
Qed.

Lemma call_step k ex res x a tok c m : due k a tok c m → call_valid x →
  ∃ piece a', piece = take (length piece) (drop c tok) ∧
    (delivers k ex res x a piece RSI_INCOMPLETE a' ∧ (∃ m', (m' < m)%nat ∧ due k a' tok (c + length piece) m') ∨
     delivers k ex res x a piece RSI_SUCCESS a' ∧ (c + length piece = length tok)%nat ∧ finished a').
Proof using L HL TLL.
  intros Hdue Hx. destruct Hdue as [n b Hsg Htok|c Hrd Hc].
  - assert (Hlen : (0 < length tok)%nat) by (destruct Htok as (pt & _ & Hf); pose proof (finish_size _ _ Hf); lia).
    assert (Hrd : ∀ a1, signed a1 b → ready k a1 tok (Z.of_nat 0)) by (intros a1 Hsd; left; by exists b).
    pose proof (signs_bound _ _ _ _ _ (sg_signs _ _ _ Hsg)) as Hb.
    destruct (sign_loop_run (cl_s x) ex b n (sign_fuel (at_data a)) a (set_action UPDATE_REC_RETURN_TO_REALM res) Hsg ltac:(unfold sign_fuel, tk in *; lia)) as (a1 & [[Hloop Hsd]|[Hloop Hst]]).
    + destruct (copy_step k ex res _ x a a1 tok 0 Hx (Hrd a1 Hsd) Hlen Hloop eq_refl) as (piece & a' & Hp & Hne & [(H1 & H2 & H3)|(H1 & H2 & H3)]);
        exists piece, a'; (split; [done|]); [left; split; [done|]; eexists; split; [|exact H3]; lia|by right].
    + exists [], a1. split; [done|]. left. split.
      * do 3 eexists. split; [by rewrite (continue_run k x a ex res _ _ Hx Hloop)|]. split; [done|]. by left.
      * destruct Hst as [Hsd|(n' & Hn & Hsg')].
        -- exists (length tok - 0)%nat. split; [lia|]. apply (due_copy k a1 tok 0); [by apply Hrd|done].
        -- exists (S n' + length tok)%nat. split; [lia|]. by apply (due_sign k a1 tok n' b).
  - assert (Hl : rmm_realm_token_len (at_data a) ≠ 0).
    { destruct Hrd as [(b & _ & Hsd & _)|[_ Hld]]; [rewrite (sd_len _ _ Hsd); pose proof (sd_pos _ _ Hsd); lia|apply (ld_len _ _ _ Hld)]. }
    destruct (copy_step k ex res _ x a a tok c Hx Hrd Hc (sign_loop_skip _ _ _ _ _ Hl) eq_refl) as (piece & a' & Hp & Hne & [(H1 & H2 & H3)|(H1 & H2 & H3)]);
      exists piece, a'; (split; [done|]); [left; split; [done|]; eexists; split; [|exact H3]|by right].
    destruct piece; [done|]. cbn [length] in *. lia.
Qed.

(** * The start of a token *)

Record init_ok (k : attest_keys) (cpuid heap_buf : Z) (s : state) (r : rec) (d : rd) (a : attest_env) : Prop := {
  io_realm : rec_realm s r d;
  io_rec : has_addr (g_rec r);
  io_tags : tag_inv (tags s);
  io_cpu : 0 <= cpuid < Z.of_nat (length (ctx_per_cpu (at_heap a)));
  io_heap : ∃ hp, ctx_per_cpu (at_heap a) !! Z.to_nat cpuid = Some hp ∧ hp ≠ 0;
  io_buf : 0 < heap_buf ∧ heap_buf + 8192 < 2 ^ 64;
}.

(** The tag of the realm, 0 when it has none. *)
Definition tag_of (s : state) (r : rec) (tag : Z) : Prop :=
  ∃ rd_addr, granule_addr (ri_g_rd r) = Ok rd_addr ∧ (registered (tags s) rd_addr tag ∨ tag = 0 ∧ ∀ t, ¬ registered (tags s) rd_addr t).

(** The encoder and the payload once all claims are in it: the challenge, the personalization
    value, the public key, the algorithms, the profile, the tag of a realm that has one, the
    initial measurement and the extensible ones. *)
Definition claims_of (k : attest_keys) (d : rd) (r : rec) (tag : Z) (c : QCBOREncodeContext) : QCBOREncodeContext * list Z :=
  let text (a : hash_algo) := (match a with HASH_SHA_256 => "sha-256" | HASH_SHA_512 => "sha-512" end)%string in
  let digest := take (match algorithm d with HASH_SHA_256 => 32 | HASH_SHA_512 => 64 end) in
  QCBOREncode_CloseBstrWrap2
    (encode ([ QBstrWrap; QOpenMap; QAddBytesToMapN 10 (take 64 (longs (drop 1 (regs r)))); QAddBytesToMapN 44235 (rpv d);
               QAddBytesToMapN 44237 (realm_attest_public_key k); QAddTextToMapN 44236 (text (algorithm d));
               QAddTextToMapN 44240 (text (public_key_hash_algo_id k)); QAddTextToMapN 265 "tag:arm.com,2023:realm#1.0.0" ] ++
             (if tag =? 0 then [] else [QAddUInt64ToMapN 65001 tag]) ++
             [ QAddBytesToMapN 44238 (digest (rim d)); QOpenArrayInMapN 44239 ] ++ ((λ m, QAddBytes (digest m)) <$> rems d) ++ [QCloseArray; QCloseMap]) c).

(** The signer with the key of the monitor, and the encoder with the headers. *)
Definition start_of (k : attest_keys) : t_cose_err_t * t_cose_signer * QCBOREncodeContext :=
  t_cose_sign_encode_start (t_cose_signature_sign_restart_set_signing_key (imported_key k) (t_cose_sign_sign_init T_COSE_ALGORITHM_ES384))
    (QCBOREncode_Init RMM_REALM_TOKEN_BUF_SIZE).

Lemma token_create_run k d r tag me : tk_state me = ATTEST_TOKEN_INIT →
  let '(cose_res, g, c) := start_of k in
  let ok := attest_key_loaded k && match cose_res with T_COSE_SUCCESS => true | _ => false end in
  ∃ me', attest_realm_token_create k (algorithm d) (measurement d) (rpv d) (regs_bytes r 1 ATTEST_CHALLENGE_SIZE) me RMM_REALM_TOKEN_BUF_SIZE tag = (ok, me') ∧
    if ok then tk_state me' = ATTEST_TOKEN_SIGN ∧ sign_ctx (tk_ctx me') = g ∧ (cbor_enc_ctx (tk_ctx me'), signed_payload (tk_ctx me')) = claims_of k d r tag c
    else tk_state me' = ATTEST_TOKEN_INIT.
Proof using.
  clear. intros Hst. unfold attest_realm_token_create. rewrite Hst, bool_decide_eq_true_2 by done. cbn [negb]. unfold attest_token_encode_start, attest_get_realm_signing_key, attest_get_realm_public_key.
  destruct (start_of k) as [[cose_res g] c] eqn:E. destruct (attest_key_loaded k); cbn [negb andb]; [|by eexists]. cbn [sign_ctx cbor_enc_ctx set_signer set_enc].
  unfold start_of in E. rewrite E. destruct cose_res; [|by eexists..]. cbn [cbor_enc_ctx set_enc].
  assert (Hc : claims_of k d r tag c = QCBOREncode_CloseBstrWrap2 (encode (realm_claims k (algorithm d) (measurement d) (realm_attest_public_key k) tag)
    (encode [ QBstrWrap; QOpenMap; QAddBytesToMapN CCA_REALM_CHALLENGE (regs_bytes r 1 64); QAddBytesToMapN CCA_REALM_PERSONALIZATION_VALUE (rpv d) ] c))).
  { unfold claims_of, encode. rewrite <- fold_left_app. do 2 f_equal. unfold realm_claims, digest_size, attest_get_hash_algo_text, measurement_get_size, SHA256_SIZE, SHA512_SIZE.
    by destruct (algorithm d), (tag =? 0). }
  rewrite Hc. unfold ATTEST_CHALLENGE_SIZE. destruct (QCBOREncode_CloseBstrWrap2 _) as [c1 p]. by eexists.
Qed.

Lemma token_tag_run s r : tag_inv (tags s) → has_addr (ri_g_rd r) →
  ∃ rd_addr o, granule_addr (ri_g_rd r) = Ok rd_addr ∧ zoom tags set_tags (realm_tag_get_by_rd rd_addr) s = Ok (o, s) ∧ tag_of s r (default 0 o).
Proof using.
  clear. intros Ht [_ [rd_addr Ha]]. destruct (realm_tag_get_by_rd_cases (tags s) rd_addr Ht) as (o & Hrun & Ho). exists rd_addr, o. split; [done|]. split.
  - rewrite (zoom_run tags set_tags _ s o (tags s) Hrun). by rewrite set_tags_id.
  - exists rd_addr. split; [done|]. destruct o as [t|]; [left; by apply Ho|right]. split; [done|]. intros t Hr. by apply Ho in Hr.
Qed.

(** What the first part leaves: the heap and a context, or a refusal. *)
Lemma token_ctx_run k cpuid buf me (a : attest_env) :
  0 <= cpuid < Z.of_nat (length (ctx_per_cpu (at_heap a))) → (∃ hp, ctx_per_cpu (at_heap a) !! Z.to_nat cpuid = Some hp ∧ hp ≠ 0) →
  0 < buf ∧ buf + 8192 < 2 ^ 64 →
  let ok := bool_decide (tk_state me = ATTEST_TOKEN_INIT) || attest_initialized k in
  ∃ h me', attest_token_ctx_init k cpuid me buf REC_HEAP_SIZE (at_heap a) = Ok ((ok, me'), h) ∧
    tk_state me' = if ok then ATTEST_TOKEN_INIT else ATTEST_TOKEN_NOT_STARTED.
Proof using.
  clear. intros Hc (hp & Hhp & Hhp0) [Hb Hb2] ok. subst ok. unfold attest_token_ctx_init. case_bool_decide as E; cbn [negb orb]; [by do 2 eexists|].
  unfold attestation_heap_ctx_init. rewrite bind_assoc. run_step (massert_run (negb (buf =? 0)) (at_heap a) ltac:(by rewrite (proj2 (Z.eqb_neq buf 0)) by lia)).
  destruct (attest_initialized k); cbn [negb]; [|by do 2 eexists].
  destruct (alloc_init_run (H := {| MBEDTLS_MEMORY_VERIFY_ALLOC := 0; MBEDTLS_MEMORY_VERIFY_FREE := 0 |}) (at_heap a) cpuid hp buf REC_HEAP_SIZE Hc Hhp Hhp0 Hb ltac:(done) Hb2) as (h & Hrun & _).
  rewrite bind_assoc. run_step Hrun. by do 2 eexists.
Qed.

Definition fresh (a : attest_env) : Prop :=
  rmm_realm_token_len (at_data a) = 0 ∧ rmm_cca_token_copied_len (at_data a) = 0 ∧ rmm_cca_token_len (at_data a) = 0.

Lemma init_run k cpuid buf s r d a res : init_ok k cpuid buf s r d a →
  let '(cose_res, g, c) := start_of k in
  let ok := (bool_decide (tk_state (tk a) = ATTEST_TOKEN_INIT) || attest_initialized k) && attest_key_loaded k &&
            match cose_res with T_COSE_SUCCESS => true | _ => false end in
  ∃ a1 tag res', handle_rsi_attest_token_init k cpuid buf r res (s, a) = Ok (res', (s, a1)) ∧ fresh a1 ∧ tag_of s r tag ∧ action res' = UPDATE_REC_RETURN_TO_REALM ∧
    if ok then x0 (smc_res res') = RSI_SUCCESS ∧ x1 (smc_res res') = REC_ATTEST_TOKEN_BUF_SIZE ∧ tk_state (tk a1) = ATTEST_TOKEN_SIGN ∧
      sign_ctx (tk_ctx (tk a1)) = g ∧ (cbor_enc_ctx (tk_ctx (tk a1)), signed_payload (tk_ctx (tk a1))) = claims_of k d r tag c
    else x0 (smc_res res') = RSI_ERROR_UNKNOWN ∧ tk_state (tk a1) ∈ [ATTEST_TOKEN_NOT_STARTED; ATTEST_TOKEN_INIT].
Proof using L HL TLL.
  intros [Hrr [Hg0 [ra Hra]] Htags Hcpu Hhp Hbuf]. destruct Hrr as [Ha Hs (rc & tag0 & Hg & Hok) Hm Hrl].
  destruct (token_tag_run s r Htags Ha) as (rd_addr & o & Haddr & Htag & Hof).
  destruct (start_of k) as [[cose_res g] c] eqn:Est. unfold handle_rsi_attest_token_init. rewrite data_mod_bind.
  set (a0 := set_at_data _ a). run_step (sys_run _ s a0 _ _ (lift_run _ _ s Hra)). rewrite att_bind.
  destruct (token_ctx_run k cpuid buf (tk a) a0 Hcpu Hhp Hbuf) as (h & me & Hctx & Hme). change ((token_sign_ctx ∘ at_data) a0) with (tk a).
  erewrite bind_run; [|unfold zoom; cbn [compose snd fst]; rewrite Hctx; reflexivity]. cbv beta iota. rewrite data_mod_bind. cbn [fst snd].
  set (a2 := set_at_data _ (set_at_heap h a0)). set (okc := bool_decide (tk_state (tk a) = ATTEST_TOKEN_INIT) || attest_initialized k) in *.
  destruct okc; cbn [negb andb].
  2:{ exists a2, (default 0 o). eexists. split; [done|]. split; [done|]. split; [done|]. split; [done|]. split; [done|]. cbn. rewrite Hme. set_solver. }
  set (s1 := put_granule (ri_g_rd r) (Gr true GRANULE_STATE_RD rc tag0) s). set (s2 := set_slots (<[SLOT_RD := ri_g_rd r]> (slots s)) s1).
  run_step (sys_run (granule_lock (ri_g_rd r) GRANULE_STATE_RD) s a2 () s1 (granule_lock_run s _ _ _ _ Hg Hok eq_refl)).
  run_step (sys_run (map_assert (ri_g_rd r) SLOT_RD) s1 a2 SLOT_RD s2 (map_assert_run s1 _ SLOT_RD Ha eq_refl Hs)).
  run_step (sys_run (read_rd SLOT_RD) s2 a2 d s2 (read_rd_run s2 _ _ _ _ (lookup_insert_eq _ _ _) Hm eq_refl)).
  run_step (sys_run _ s2 a2 _ _ (lift_run _ _ s2 Haddr)).
  assert (Htag2 : zoom tags set_tags (realm_tag_get_by_rd rd_addr) s2 = Ok (o, s2)).
  { unfold zoom in *. change (tags s2) with (tags s). destruct (realm_tag_get_by_rd rd_addr (tags s)) as [[o' t']|]; [|done]. injection Htag as -> Ht. f_equal. f_equal.
    apply (f_equal tags) in Ht. cbn in Ht. subst t'. by destruct s. }
  run_step (sys_run _ s2 a2 _ _ Htag2). rewrite att_bind. change ((token_sign_ctx ∘ at_data) a2) with me.
  pose proof (token_create_run k d r (default 0 o) me Hme) as Hcr. rewrite Est in Hcr. cbv zeta in Hcr. destruct Hcr as (me' & -> & Hme').
  set (ok := attest_key_loaded k && _) in *. rewrite data_mod_bind. set (a3 := set_at_data _ a2).
  assert (Hum : buffer_unmap SLOT_RD s2 = Ok ((), set_slots (slots s) s2)).
  { rewrite (buffer_unmap_run s2 SLOT_RD (ri_g_rd r)) by (cbn; apply lookup_insert_eq). cbn [slots s2 set_slots s1 put_granule set_granules]. by rewrite delete_insert_id. }
  run_step (sys_run _ s2 a3 _ _ Hum). set (s3 := set_slots (slots s) s2) in *.
  assert (Hunl : granule_unlock (ri_g_rd r) s3 = Ok ((), s)).
  { erewrite granule_unlock_run; [|unfold s3, s2, s1; exec_side..]. unfold s3, s2, s1. st_norm. rewrite insert_insert_eq, insert_id by done. by destruct s. }
  run_step (sys_run _ s3 a3 _ _ Hunl). exists a3, (default 0 o). eexists. split; [done|]. split; [done|]. split; [done|]. destruct ok; cbn [negb].
  - split; [done|]. split; [done|]. split; [done|]. exact Hme'.
  - split; [done|]. split; [done|]. cbn. rewrite Hme'. set_solver.
Qed.

(** * Theorems *)

(** Calls that give the realm the pieces [ps], the last of them with success. *)
Inductive transfer (k : attest_keys) (ex : rmi_rec_exit) (res : rsi_result) : attest_env → list call → list (list Z) → attest_env → Prop :=
  | transfer_last x a piece a' : delivers k ex res x a piece RSI_SUCCESS a' → transfer k ex res a [x] [piece] a'
  | transfer_more x l a piece a1 ps a' :
      delivers k ex res x a piece RSI_INCOMPLETE a1 → transfer k ex res a1 l ps a' → transfer k ex res a (x :: l) (piece :: ps) a'.

Lemma transfer_ends k ex res tok : ∀ calls a c m, due k a tok c m → Forall call_valid calls → (m <= length calls)%nat → (c < length tok)%nat →
  ∃ l1 l2 ps a', calls = l1 ++ l2 ∧ transfer k ex res a l1 ps a' ∧ concat ps = drop c tok ∧ finished a'.
Proof using L HL TLL.
  induction calls as [|x calls IH]; intros a c m Hdue Hok Hm Hc.
  { destruct Hdue; cbn [length] in Hm; lia. }
  apply Forall_cons in Hok as [Hx Hok]. destruct (call_step k ex res x a tok c m Hdue Hx) as (piece & a1 & Hp & [(Hd & m' & Hm' & Hdue')|(Hd & Hl & Hfin)]).
  - assert (Hc' : (c + length piece < length tok)%nat).
    { inversion Hdue' as [n b Hsg Htok E|c0 Hrd Hlt E]; [|done]. destruct Htok as (pt & _ & Hf). pose proof (finish_size _ _ Hf). lia. }
    destruct (IH a1 (c + length piece)%nat m' Hdue' Hok ltac:(cbn in Hm; lia) Hc') as (l1 & l2 & ps & a' & -> & Ht & Hps & Hfin).
    exists (x :: l1), l2, (piece :: ps), a'. split; [done|]. split; [by eapply transfer_more|]. split; [|done]. cbn [concat]. rewrite Hps, Hp at 1.
    rewrite <- drop_drop. by rewrite take_drop.
  - exists [x], calls, [piece], a1. split; [done|]. split; [by apply transfer_last|]. split; [|done]. cbn [concat]. rewrite app_nil_r, Hp. apply take_ge.
    rewrite length_drop. lia.
Qed.

(** The answer to the first call for a token. It fails, with an unknown error, exactly when the
    attestation of the monitor was not set up, when it has no key, or when the signature cannot
    be started. Otherwise the payload that is going to be signed has the challenge from x1 to
    x8, the personalization value, the public key, the hash algorithm, the initial and the four extensible
    measurements of the realm and, when the realm has one, its tag. Whatever was in progress is
    aborted: nothing of an older token can be copied any more. The rest of the system is as
    before. *)
Theorem attest_init_spec k cpuid buf s r d a res : init_ok k cpuid buf s r d a →
  let '(cose_res, g, c) := start_of k in
  let ok := (bool_decide (tk_state (tk a) = ATTEST_TOKEN_INIT) || attest_initialized k) && attest_key_loaded k &&
            match cose_res with T_COSE_SUCCESS => true | _ => false end in
  ∃ a1 tag res', handle_rsi_attest_token_init k cpuid buf r res (s, a) = Ok (res', (s, a1)) ∧ fresh a1 ∧ tag_of s r tag ∧ action res' = UPDATE_REC_RETURN_TO_REALM ∧
    if ok then x0 (smc_res res') = RSI_SUCCESS ∧ x1 (smc_res res') = REC_ATTEST_TOKEN_BUF_SIZE ∧ tk_state (tk a1) = ATTEST_TOKEN_SIGN ∧
      sign_ctx (tk_ctx (tk a1)) = g ∧ (cbor_enc_ctx (tk_ctx (tk a1)), signed_payload (tk_ctx (tk a1))) = claims_of k d r tag c
    else x0 (smc_res res') = RSI_ERROR_UNKNOWN ∧ tk_state (tk a1) ∈ [ATTEST_TOKEN_NOT_STARTED; ATTEST_TOKEN_INIT].
Proof using L HL TLL. apply init_run. Qed.

(** C37: a realm gets its token. After a first call that succeeded, when the libraries sign the claims
    in [n] rounds and join the result with the platform's token to [tok], any sequence of
    more than [n] calls and as many as [tok] has bytes, each with room in a mapped page, in
    whatever states of the system and with whatever interrupts in between, has a first part in
    which all calls but the last answer that the token is incomplete, the last answers with
    success, and the pieces written to the realm's pages are [tok]. A call behind them is
    answered with a state error and changes nothing. *)
Theorem attest_token_delivered k cpuid buf s r d a res ex n b tok g c : init_ok k cpuid buf s r d a →
  attest_initialized k = true → attest_key_loaded k = true → start_of k = (T_COSE_SUCCESS, g, c) →
  (∀ tag, tag_of s r tag → let '(c', p) := claims_of k d r tag c in signs n g p c' b) → token_of k b tok →
  ∃ res1 a1, handle_rsi_attest_token_init k cpuid buf r res (s, a) = Ok (res1, (s, a1)) ∧ x0 (smc_res res1) = RSI_SUCCESS ∧
    ∀ calls, Forall call_valid calls → (n + length tok < length calls)%nat →
      ∃ l1 l2 ps a', calls = l1 ++ l2 ∧ transfer k ex res a1 l1 ps a' ∧ concat ps = tok ∧
        ∀ x, call_valid x → handle_rsi_attest_token_continue k (cl_r x) ex res (cl_s x, a')
                         = Ok ((ex, set_res (set_x0 RSI_ERROR_STATE) (set_action UPDATE_REC_RETURN_TO_REALM res)), (cl_s x, a')).
Proof using L HL TLL.
  intros Hi Hinit Hkey Hst Hsigns Htok. pose proof (init_run k cpuid buf s r d a res Hi) as Hrun. rewrite Hst, Hinit, Hkey, orb_true_r in Hrun.
  destruct Hrun as (a1 & tag & res1 & Hrun & (Hf1 & Hf2 & _) & Htag & _ & Hx0 & _ & Hsign & Hg & Hclaims). exists res1, a1. split; [done|]. split; [done|].
  specialize (Hsigns tag Htag). rewrite <- Hclaims in Hsigns.
  assert (Hdue : due k a1 tok 0 (S n + length tok)) by (apply (due_sign k a1 tok n b); [split; [done..|by rewrite Hg]|done]).
  assert (Hlen : (0 < length tok)%nat) by (destruct Htok as (pt & _ & Hf); pose proof (finish_size _ _ Hf); lia).
  intros calls Hok Hl. destruct (transfer_ends k ex res tok calls a1 0 _ Hdue Hok ltac:(lia) Hlen) as (l1 & l2 & ps & a' & H1 & H2 & H3 & H4).
  exists l1, l2, ps, a'. split; [done|]. split; [done|]. split; [by rewrite drop_0 in H3|]. intros x Hx.
  destruct (sign_loop_idle (cl_s x) ex (set_action UPDATE_REC_RETURN_TO_REALM res) (2 + sign_left (sign_ctx (tk_ctx (tk a')))) a' H4) as (a2 & Hidle & ->).
  by rewrite (continue_run k x a' ex res _ _ Hx Hidle).
Qed.
End token.
