(* ===== verification/TokenDemo.v ===== *)
(** Tokens with small libraries: what the theorems on tokens say of concrete calls. *)
From S2P Require Import Alloc AllocSpec.
From S2P Require Import Prelude PsciSpec Types Granule Platform GranuleFind S2tte S2tt Measurement Buffer Walk Exec Realm RealmTag Rtt RttTree Feature Rsi Gic Mpidr Psci RealmCmd RsiCall Exit Rec RecEnter DataAbort HostCall CsmSpec CsmDemo Attest Token AttestSpec TokenSpec.

(** An encoder that counts its calls, and a signer that takes as many rounds as its key says. *)
Definition toy_lib : TokenLib :=
  {| QCBOREncodeContext := nat; t_cose_signer := nat; QCBOREncode_zero := 0%nat; t_cose_signer_zero := 0%nat;
     QCBOREncode_Init _ := 0%nat; QCBOREncode _ c := S c; QCBOREncode_CloseBstrWrap2 c := (S c, replicate c 0);
     QCBOREncode_Finish c := if (c <? 100)%nat then (QCBOR_SUCCESS, (λ i, Z.of_nat i) <$> seq 1 (S c)) else (QCBOR_ERR_BUFFER_TOO_SMALL, []);
     t_cose_sign_sign_init _ := 0%nat; t_cose_signature_sign_restart_set_signing_key key _ := Z.to_nat key;
     t_cose_sign_encode_start g c := (T_COSE_SUCCESS, g, c);
     t_cose_sign_encode_finish g p c := match g with O => (T_COSE_SUCCESS, O, S c) | S g' => (T_COSE_ERR_SIG_IN_PROGRESS, g', c) end;
     T_COSE_ALGORITHM_ES384 := -51; sign_left g := g |}.
#[local] Instance toy_lib_laws : TokenLibLaws toy_lib.
Proof.
  split.
  - intros c b. unfold QCBOREncode_Finish, toy_lib. destruct (Nat.ltb_spec c 100); [|by intros [=]]. intros [= <-]. change (0 < Z.of_nat (length ((λ i, Z.of_nat i) <$> seq 1 (S c))) < 2 ^ 32). rewrite length_fmap, length_seq. lia.
  - intros g p c g' c'. destruct g; cbn; [by intros [=]|]. intros [= -> ->]. lia.
Qed.

(** An interrupt is pending at every third look. *)
Definition toy_irqs : Interrupts := {| read_isr_el1 n := if (n mod 3 =? 2)%nat then 0x80 else 0 |}.
Definition toy_env : RecEnv := {| read_mdcr_el2 := 0; ENABLE_OPENCCA_PERF := false; RMM_CCA_TOKEN_BUFFER := 1 |}.
Definition toy_keys : attest_keys :=
  {| attest_initialized := true; attest_key_loaded := true; imported_key := 4; realm_attest_public_key := [4]; public_key_hash_algo_id := HASH_SHA_256;
     rmm_platform_token := Some [1; 2] |}.

(** The realm of granule 0, which has tag 2. *)
Definition token_state : state :=
  {| granules := {[0 := Gr false GRANULE_STATE_RD 0 0]}; mem := {[0 := PRd PsciSpec.demo_rd]}; slots := ∅; vttbr_el2 := 0; tlbi := [];
     tags := demo_tags; csm_ids := csm_ids state_init; vmids := [] |}.
Definition token_rec (args : list Z) : rec := set_regs (args ++ replicate (31 - length args) 0) Realm.demo_rec.
Definition token_env : attest_env (TL := toy_lib) :=
  {| at_heap := {| ctx_per_cpu := [8]; ctxs := ∅; hdrs := ∅; data := λ _, 0 |};
     at_data := {| rmm_realm_token_buf := replicate 1024 0; rmm_realm_token_len := 0; rmm_cca_token_copied_len := 0; rmm_cca_token_len := 0;
                   token_sign_ctx := token_sign_cntxt_zero |};
     at_token_buf := replicate 4096 0; at_isr_reads := 0 |}.

Lemma token_init_ok : init_ok (P := demo_platform) (TL := toy_lib) toy_keys 0 4096 token_state (token_rec []) PsciSpec.demo_rd token_env.
Proof.
  split; [|by split; [by vm_compute|by eexists]|apply demo_tags_inv|cbn; lia|by exists 8|lia].
  split; [by split; [by vm_compute|by eexists]|done| |done|done]. exists 0, 0. split; [done|by vm_compute].
Qed.

Lemma token_tag tag : tag_of (P := demo_platform) token_state (token_rec []) tag → tag = 2.
Proof.
  intros (rd_addr & Ha & Ht). assert (rd_addr = 0) as -> by (change (Ok 0 = Ok rd_addr) in Ha; congruence).
  assert (H2 : registered demo_tags 0 2) by (apply registered_iff; eexists; split; [by left|done]).
  destruct Ht as [Hr|[_ Hn]]; [|by destruct (Hn 2)]. apply registered_iff in Hr as (e & He & Hu & Hrd & <-).
  cbn [token_state tags demo_tags g_tags] in He. rewrite !elem_of_cons in He. destruct He as [-> | [-> | He]]; [done|done|].
  apply elem_of_replicate in He as [-> _]. done.
Qed.

(** A call for [size] bytes at [off] of the page at 4096. *)
Definition token_call_at (off size : Z) : call := Call call_state (token_rec [0; 4096; off; size]) demo_tables 4096 off size.
Lemma token_call_ok off size : 0 <= off → 0 < size → off + size <= 4096 → call_valid (P := demo_platform) (token_call_at off size).
Proof.
  intros Ho Hs Hf. split; cbn [cl_s cl_r cl_T cl_ipa cl_off cl_size token_call_at]; try done.
  - destruct (HostCall.call_ok false) as [H1 H2 H3 H4]. split; [exact H1|done|done|]. change (4096 .& GRANULE_MASK) with ((4096 + 256) .& GRANULE_MASK). exact H4.
  - intros i e [-> ->]%call_leaf. by vm_compute.
Qed.

Lemma attest_init_spec_witness :
  ∃ a1 res', handle_rsi_attest_token_init (P := demo_platform) (H := zero_machine) (RE := toy_env) (TL := toy_lib) toy_keys 0 4096 (token_rec []) demo_rsi_result (token_state, token_env)
             = Ok (res', (token_state, a1)) ∧ x0 (smc_res res') = RSI_SUCCESS ∧ x1 (smc_res res') = 4096 ∧
    signed_payload (tk_ctx (tk a1)) = replicate 17 0.
Proof.
  destruct (attest_init_spec (P := demo_platform) (H := zero_machine) (L := demo_laws) (HL := demo_machine_laws) (RE := toy_env) (TL := toy_lib) toy_keys 0 4096 token_state
    (token_rec []) PsciSpec.demo_rd token_env demo_rsi_result token_init_ok) as (a1 & tag & res' & H1 & _ & Ht & _ & H2 & H3 & _ & _ & H4).
  exists a1, res'. split; [exact H1|]. split; [exact H2|]. split; [exact H3|]. apply token_tag in Ht. subst tag. by apply (f_equal snd) in H4.
Defined.

Lemma attest_token_delivered_witness :
  ∃ a1 l1 l2 ps a', replicate 11 (token_call_at 8 2) = l1 ++ l2 ∧
    transfer (P := demo_platform) (H := zero_machine) (RE := toy_env) (TL := toy_lib) (IR := toy_irqs) toy_keys rmi_rec_exit_zero demo_rsi_result a1 l1 ps a' ∧
    concat ps = [1; 2; 3; 4; 5; 6].
Proof.
  destruct (attest_token_delivered (P := demo_platform) (H := zero_machine) (L := demo_laws) (HL := demo_machine_laws) (RE := toy_env) (TL := toy_lib) (IR := toy_irqs)
    toy_keys 0 4096 token_state (token_rec []) PsciSpec.demo_rd token_env demo_rsi_result rmi_rec_exit_zero 4 ((λ i, Z.of_nat i) <$> seq 1 20) [1; 2; 3; 4; 5; 6] 4%nat 0%nat token_init_ok)
    as (res1 & a1 & _ & _ & Hall); try done.
  - intros tag ->%token_tag. cbn -[seq]. do 4 (eapply signs_more; [done|]). by eapply signs_done.
  - by exists [1; 2].
  - destruct (Hall (replicate 11 (token_call_at 8 2))) as (l1 & l2 & ps & a' & H1 & H2 & H3 & _); [apply Forall_replicate, token_call_ok; lia|cbn; lia|].
    by exists a1, l1, l2, ps, a'.
Defined.
