(* ===== verification/Xlat.v ===== *)
(** The library for the monitor's own (stage 1) translation tables (lib/xlat): descriptors, the
    creation of the tables of a context from its memory regions (xlat_tables_core.c), the
    configuration of a context (xlat_contexts.c), the pages that are mapped at run time
    (xlat_tables_utils.c), the registers of the translation regime (xlat_tables_arch.c), and the
    context of the upper half of the addresses, which holds the stacks and the slot buffers of a
    processor (xlat_high_va.c). *)
From S2P Require Import Prelude Types GranuleFind S2tte Feature.

(** * Constants *)

(** ** xlat_defs.h *)

Definition XLAT_GRANULARITY_SIZE_SHIFT : Z := 12.
Definition PAGE_SIZE : Z := 1 .<< XLAT_GRANULARITY_SIZE_SHIFT.
Definition PAGE_SIZE_MASK : Z := PAGE_SIZE .- 1.
Definition IS_PAGE_ALIGNED (addr : Z) : bool := addr .& PAGE_SIZE_MASK =? 0.
Definition XLAT_TABLE_SIZE : Z := 1 .<< XLAT_GRANULARITY_SIZE_SHIFT.
Definition XLAT_TABLES_ALIGNMENT : Z := XLAT_TABLE_SIZE.
Definition XLAT_TABLE_LEVEL_MAX : Z := 3.
Definition XLAT_TABLE_ENTRIES_SHIFT : Z := XLAT_GRANULARITY_SIZE_SHIFT - 3.
Definition XLAT_TABLE_ENTRIES : Z := 1 .<< XLAT_TABLE_ENTRIES_SHIFT.
Definition XLAT_LM1_TABLE_ENTRIES : Z := 1 .<< 4.
Definition L2_XLAT_ADDRESS_SHIFT : Z := XLAT_GRANULARITY_SIZE_SHIFT + XLAT_TABLE_ENTRIES_SHIFT.
Definition L1_XLAT_ADDRESS_SHIFT : Z := L2_XLAT_ADDRESS_SHIFT + XLAT_TABLE_ENTRIES_SHIFT.
Definition L0_XLAT_ADDRESS_SHIFT : Z := L1_XLAT_ADDRESS_SHIFT + XLAT_TABLE_ENTRIES_SHIFT.
Definition LM1_XLAT_ADDRESS_SHIFT : Z := L0_XLAT_ADDRESS_SHIFT + XLAT_TABLE_ENTRIES_SHIFT.
Definition XLAT_ADDR_SHIFT (level : Z) : Z :=
  u32 (XLAT_GRANULARITY_SIZE_SHIFT .+ (u32 (XLAT_TABLE_LEVEL_MAX - level) .* XLAT_TABLE_ENTRIES_SHIFT)).
Definition XLAT_BLOCK_SIZE (level : Z) : Z := 1 .<< XLAT_ADDR_SHIFT level.
Definition XLAT_BLOCK_MASK (level : Z) : Z := XLAT_BLOCK_SIZE level .- 1.
Definition XLAT_ADDR_MASK (level : Z) : Z := .~ XLAT_BLOCK_MASK level.
Definition XLAT_TABLE_IDX (virtual_addr level : Z) : Z :=
  u32 ((virtual_addr .>> XLAT_ADDR_SHIFT level) .& 511).
Definition HIGH_REGION_MASK : Z := BIT_MASK_ULL 63 52.
Definition MIN_VIRT_ADDR_SPACE_SIZE : Z := 1 .<< (64 - 48).
Definition MAX_VIRT_ADDR_SPACE_SIZE : Z := 1 .<< (64 - 16).
Definition MAX_VIRT_ADDR_SPACE_SIZE_LPA2 : Z := 1 .<< (64 - 12).

(** ** Descriptors and attributes of regions (xlat_defs_private.h, xlat_tables.h) *)

Definition VALID_DESC : Z := 1.
Definition BLOCK_DESC : Z := VALID_DESC.
Definition TABLE_DESC : Z := 2 .| VALID_DESC.
Definition INVALID_DESC : Z := 0.
Definition PAGE_DESC : Z := 2 .| VALID_DESC.
Definition DESC_MASK : Z := 3.
Definition UXN : Z := 1 .<< 4.
Definition PXN : Z := 1 .<< 3.
Definition GP : Z := 1 .<< 0.
Definition UPPER_ATTRS (x : Z) : Z := INPLACE 50 x .& MASK 50 5.
Definition LOWER_ATTRS (x : Z) : Z := INPLACE 2 x .& MASK 2 10.
Definition NS : Z := 1 .<< 3.
Definition ACCESS_FLAG : Z := 1 .<< 8.
Definition AP_RO : Z := 1 .<< 5.
Definition AP_RW : Z := 0 .<< 5.
Definition AP_ACCESS_UNPRIVILEGED : Z := 1 .<< 4.
Definition ATTR_DEVICE_INDEX : Z := 1.
Definition ATTR_IWBWA_OWBWA_NTR_INDEX : Z := 0.
Definition NG_HINT : Z := 1 .<< 9.
Definition LOWER_ATTR_SH_SHIFT : Z := 6 + 2.
Definition ISH : Z := 3.
Definition XLAT_GET_UXN_DESC : Z := UPPER_ATTRS UXN.
Definition XLAT_GET_PXN_DESC : Z := UPPER_ATTRS PXN.
Definition XLAT_GET_GP_DESC : Z := UPPER_ATTRS GP.
Definition XLAT_GET_NG_HINT : Z := LOWER_ATTRS NG_HINT.
Definition XLAT_GET_AP_ACCESS_UNPRIV_DESC : Z := LOWER_ATTRS AP_ACCESS_UNPRIVILEGED.

Definition TRANSIENT_FLAG_SHIFT : Z := 55.
Definition TRANSIENT_DESC : Z := INPLACE TRANSIENT_FLAG_SHIFT 1.

Definition MT_TYPE_SHIFT : Z := 0.
Definition MT_TYPE_WIDTH : Z := 4.
Definition MT_TYPE (attr : Z) : Z := attr .& MASK MT_TYPE_SHIFT MT_TYPE_WIDTH.
Definition MT_PERM_SHIFT : Z := MT_TYPE_SHIFT + MT_TYPE_WIDTH.
Definition MT_EXECUTE_FLAG_SHIFT : Z := MT_PERM_SHIFT + 1.
Definition MT_CONT_SHIFT : Z := MT_EXECUTE_FLAG_SHIFT + 1.
Definition MT_NG_SHIFT : Z := MT_CONT_SHIFT + 1.
Definition MT_PAS_SHIFT : Z := MT_NG_SHIFT + 1.
Definition MT_PAS_WIDTH : Z := 1.
Definition MT_PAS (attr : Z) : Z := attr .& MASK MT_PAS_SHIFT MT_PAS_WIDTH.
Definition MT_ACCESS_UNPRIV_SHIFT : Z := MT_PAS_SHIFT + MT_PAS_WIDTH.
Definition MT_EXEC_UNPRIV_FLAG_SHIFT : Z := MT_ACCESS_UNPRIV_SHIFT + 1.
Definition MT_DEVICE : Z := 0.
Definition MT_MEMORY : Z := 2.
Definition MT_TRANSIENT : Z := 3.
Definition MT_RO : Z := INPLACE MT_PERM_SHIFT 0.
Definition MT_RW : Z := INPLACE MT_PERM_SHIFT 1.
Definition MT_EXECUTE : Z := INPLACE MT_EXECUTE_FLAG_SHIFT 0.
Definition MT_EXECUTE_NEVER : Z := INPLACE MT_EXECUTE_FLAG_SHIFT 1.
Definition MT_NG : Z := INPLACE MT_NG_SHIFT 1.
Definition MT_NS : Z := INPLACE MT_PAS_SHIFT 1.
Definition MT_CODE : Z := MT_MEMORY .| MT_RO .| MT_EXECUTE.
Definition MT_RO_DATA : Z := MT_MEMORY .| MT_RO .| MT_EXECUTE_NEVER.
Definition MT_RW_DATA : Z := MT_MEMORY .| MT_RW .| MT_EXECUTE_NEVER.
Definition MT_AP_UNPRIV : Z := INPLACE MT_ACCESS_UNPRIV_SHIFT 1.
Definition MT_EXEC_UNPRIV : Z := INPLACE MT_EXEC_UNPRIV_FLAG_SHIFT 1.

Definition OA_SHIFT : Z := XLAT_GRANULARITY_SIZE_SHIFT.
Definition TTE_OA_MSB : Z := 47.
Definition TTE_OA_BIT_49_LPA2 : Z := 49.
Definition TTE_OA_BITS_50_51_SHIFT : Z := 8.
Definition TTE_OA_BITS_50_51_WIDTH : Z := 2.
Definition OA_BITS_50_51_SHIFT : Z := 50.
Definition OA_BITS_50_51_WIDTH : Z := TTE_OA_BITS_50_51_WIDTH.

(** ** Error codes *)

Definition errno_EPERM : Z := 1.
Definition ENOMEM : Z := 12.
Definition EFAULT : Z := 14.
Definition ERANGE : Z := 34.
Definition EALREADY : Z := 114.

(** * Data *)

(** [enum xlat_addr_region_id]. *)
Definition VA_LOW_REGION : Z := 0.
Definition VA_HIGH_REGION : Z := 1.
Definition VA_REGIONS : Z := 2.

Record xlat_mmap_region := {
  base_pa : Z;
  base_va : Z;
  size : Z;
  attr : Z;
  granularity : Z;
}.
Definition set_base_va (v : Z) (mm : xlat_mmap_region) : xlat_mmap_region :=
  {| base_pa := base_pa mm; base_va := v; size := size mm; attr := attr mm; granularity := granularity mm |}.

Definition MAP_REGION_FULL_SPEC (pa va sz at_ gr : Z) : xlat_mmap_region :=
  {| base_pa := pa; base_va := va; size := sz; attr := at_; granularity := gr |}.
Definition MAP_REGION_TRANSIENT (va sz gr : Z) : xlat_mmap_region :=
  MAP_REGION_FULL_SPEC 0 va sz MT_TRANSIENT gr.

(** The array [mmap] and its length [mmap_regions] are a list. *)
Record xlat_ctx_cfg := {
  max_va_size : Z;
  mmap : list xlat_mmap_region;
  cfg_base_va : Z;
  max_mapped_pa : Z;
  max_mapped_va_offset : Z;
  base_level : Z;
  region : Z;
  cfg_initialized : bool;
}.

Record xlat_ctx_tbls := {
  tables : Z;
  tables_num : Z;
  next_table : Z;
  initialized : bool;
}.

Record xlat_llt_info := { llt_table : Z; llt_base_va : Z; llt_level : Z }.

Inductive action_t :=
  ACTION_NONE | ACTION_WRITE_BLOCK_ENTRY | ACTION_CREATE_NEW_TABLE | ACTION_RECURSE_INTO_TABLE.

(** The tables of a context: the structure, and the words of the area from [tables] on. A
    [uint64_t *] is an address; the monitor maps the area flat, so that the address in a
    descriptor is also the pointer to the next table. [tlbivae2] logs the operands of that
    instruction, the latest first. *)
Record xlat_state := { tbls : xlat_ctx_tbls; area : list Z; tlbivae2 : list Z }.
Definition set_area (l : list Z) (s : xlat_state) : xlat_state :=
  {| tbls := tbls s; area := l; tlbivae2 := tlbivae2 s |}.
Definition set_tbls (t : xlat_ctx_tbls) (s : xlat_state) : xlat_state :=
  {| tbls := t; area := area s; tlbivae2 := tlbivae2 s |}.
Definition set_tlbivae2 (l : list Z) (s : xlat_state) : xlat_state :=
  {| tbls := tbls s; area := area s; tlbivae2 := l |}.
Definition set_next_table (n : Z) (t : xlat_ctx_tbls) : xlat_ctx_tbls :=
  {| tables := tables t; tables_num := tables_num t; next_table := n; initialized := initialized t |}.
Definition set_initialized (b : bool) (t : xlat_ctx_tbls) : xlat_ctx_tbls :=
  {| tables := tables t; tables_num := tables_num t; next_table := next_table t; initialized := b |}.

(** The index in the area of the word at an address. *)
Definition word_index (t : xlat_ctx_tbls) (addr : Z) : result Z :=
  let off := addr - tables t in
  if off mod 8 =? 0 then Ok (off / 8) else Err FBadAccess.

(** [table[i]] and [table[i] = desc]. *)
Definition tt_get (table i : Z) : M xlat_state Z := λ s,
  match word_index (tbls s) (table + 8 * i) ≫= aget (area s) with
  | Ok d => Ok (d, s)
  | Err f => Err f
  end.
Definition tt_set (table i desc : Z) : M xlat_state () := λ s,
  match word_index (tbls s) (table + 8 * i) ≫= λ k, aset (area s) k desc with
  | Ok l => Ok ((), set_area l s)
  | Err f => Err f
  end.

Section xlat.
Context {CF : Config} {CPU : Cpu}.

Definition XLAT_TABLE_LEVEL_MIN : Z := if ENABLE_OPENCCA then 0 else -1.

Definition XLAT_GET_TABLE_ENTRIES (level : Z) : Z :=
  if level =? XLAT_TABLE_LEVEL_MIN then XLAT_LM1_TABLE_ENTRIES else XLAT_TABLE_ENTRIES.

Definition GET_XLAT_TABLE_LEVEL_BASE (virt_addr_space_sz : Z) : Z :=
  if ENABLE_OPENCCA then
    if (1 .<< L0_XLAT_ADDRESS_SHIFT) <? virt_addr_space_sz then 0
    else if (1 .<< L1_XLAT_ADDRESS_SHIFT) <? virt_addr_space_sz then 1 else 2
  else
    if (1 .<< LM1_XLAT_ADDRESS_SHIFT) <? virt_addr_space_sz then -1
    else if (1 .<< L0_XLAT_ADDRESS_SHIFT) <? virt_addr_space_sz then 0
    else if (1 .<< L1_XLAT_ADDRESS_SHIFT) <? virt_addr_space_sz then 1
    else if (1 .<< L2_XLAT_ADDRESS_SHIFT) <? virt_addr_space_sz then 2 else 3.

Definition XLAT_MIN_BLOCK_LVL : Z :=
  if is_feat_lpa2_4k_present then XLAT_TABLE_LEVEL_MIN + 1 else XLAT_TABLE_LEVEL_MIN + 2.

Definition REGION_DEFAULT_GRANULARITY : Z := XLAT_BLOCK_SIZE XLAT_MIN_BLOCK_LVL.

Definition MT_REALM : Z := if ENABLE_OPENCCA then MT_NS else INPLACE MT_PAS_SHIFT 0.

Definition set_oa_to_tte (output_addr : Z) : Z :=
  if is_feat_lpa2_4k_present then
    (output_addr .& BIT_MASK_ULL TTE_OA_BIT_49_LPA2 OA_SHIFT) .|
    INPLACE TTE_OA_BITS_50_51_SHIFT (EXTRACT OA_BITS_50_51_SHIFT OA_BITS_50_51_WIDTH output_addr)
  else output_addr .& BIT_MASK_ULL TTE_OA_MSB OA_SHIFT.

Definition xlat_get_oa_from_tte (tte : Z) : Z :=
  if is_feat_lpa2_4k_present then
    (tte .& BIT_MASK_ULL TTE_OA_BIT_49_LPA2 OA_SHIFT) .|
    INPLACE OA_BITS_50_51_SHIFT (EXTRACT TTE_OA_BITS_50_51_SHIFT TTE_OA_BITS_50_51_WIDTH tte)
  else tte .& BIT_MASK_ULL TTE_OA_MSB OA_SHIFT.

(** ** xlat_tables_arch.c *)

Definition xlat_arch_get_pas (attr : Z) : Z :=
  if ENABLE_OPENCCA then LOWER_ATTRS NS
  else if MT_PAS attr =? MT_REALM then 0 else LOWER_ATTRS NS.

Definition xlat_arch_get_max_supported_pa : result Z :=
  arch_feat_get_pa_width ≫= λ w, Ok ((1 .<< w) .- 1).

(** * Descriptors of blocks and pages (xlat_tables_core.c) *)

Definition xlat_desc (attr addr_pa level : Z) : result Z :=
  let lpa2_enabled := is_feat_lpa2_4k_present in
  if MT_TYPE attr =? MT_TRANSIENT then Ok TRANSIENT_DESC
  else
    rassert (addr_pa .& XLAT_BLOCK_MASK level =? 0) ≫= λ _,
    let desc := set_oa_to_tte addr_pa in
    let desc := desc .| (if level =? XLAT_TABLE_LEVEL_MAX then PAGE_DESC else BLOCK_DESC) in
    let desc := desc .| LOWER_ATTRS ACCESS_FLAG in
    let desc := desc .| xlat_arch_get_pas attr in
    let desc := desc .| (if negb (attr .& MT_RW =? 0) then LOWER_ATTRS AP_RW else LOWER_ATTRS AP_RO) in
    let desc :=
      if ENABLE_OPENCCA || negb (attr .& MT_NG =? 0) then desc .| XLAT_GET_NG_HINT else desc in
    let desc := if attr .& MT_EXEC_UNPRIV =? 0 then desc .| XLAT_GET_UXN_DESC else desc in
    let desc :=
      if negb (attr .& MT_AP_UNPRIV =? 0) then desc .| XLAT_GET_AP_ACCESS_UNPRIV_DESC else desc in
    let mem_type := MT_TYPE attr in
    if mem_type =? MT_DEVICE then
      Ok (desc .| LOWER_ATTRS ATTR_DEVICE_INDEX .| XLAT_GET_PXN_DESC)
    else
      rassert (mem_type =? MT_MEMORY) ≫= λ _,
      let desc :=
        if negb (attr .& MT_RW =? 0) || negb (attr .& MT_EXECUTE_NEVER =? 0)
        then desc .| XLAT_GET_PXN_DESC else desc .| XLAT_GET_GP_DESC in
      let desc := desc .| LOWER_ATTRS ATTR_IWBWA_OWBWA_NTR_INDEX in
      Ok (if negb lpa2_enabled then desc .| INPLACE LOWER_ATTR_SH_SHIFT ISH else desc).

(** * Creation of the tables (xlat_tables_core.c) *)

Definition xlat_table_get_empty : M xlat_state Z :=
  gets tbls ≫= λ t,
  massert (next_table t <? tables_num t) ≫= λ _,
  mmodify (set_tbls (set_next_table (u32 (next_table t + 1)) t)) ≫= λ _,
  mret (tables t + 8 * (XLAT_TABLE_ENTRIES .* next_table t)).

Definition xlat_tables_find_start_va (mm : xlat_mmap_region) (table_base_va level : Z) : Z :=
  if table_base_va <? base_va mm then base_va mm .& (.~ XLAT_BLOCK_MASK level) else table_base_va.

Definition xlat_tables_va_to_index (table_base_va va level : Z) : Z :=
  u32 ((va .- table_base_va) .>> XLAT_ADDR_SHIFT level).

Definition xlat_tables_map_region_action (mm : xlat_mmap_region)
    (desc_type dest_pa table_entry_base_va level : Z) : result action_t :=
  let mm_end_va := base_va mm .+ size mm .- 1 in
  let table_entry_end_va := table_entry_base_va .+ XLAT_BLOCK_SIZE level .- 1 in
  if (base_va mm <=? table_entry_base_va) && (table_entry_end_va <=? mm_end_va) then
    if level =? 3 then
      if desc_type =? PAGE_DESC then Ok ACTION_NONE
      else if negb (desc_type =? INVALID_DESC) then Err FPanic
      else Ok ACTION_WRITE_BLOCK_ENTRY
    else if desc_type =? TABLE_DESC then Ok ACTION_RECURSE_INTO_TABLE
    else if desc_type =? INVALID_DESC then
      if negb (dest_pa .& XLAT_BLOCK_MASK level =? 0) || (level <? XLAT_MIN_BLOCK_LVL) ||
         (granularity mm <? XLAT_BLOCK_SIZE level)
      then Ok ACTION_CREATE_NEW_TABLE else Ok ACTION_WRITE_BLOCK_ENTRY
    else if negb (desc_type =? BLOCK_DESC) then Err FPanic
    else Ok ACTION_NONE
  else if (base_va mm <=? table_entry_end_va) || (table_entry_base_va <=? mm_end_va) then
    if 3 <=? level then Err FPanic
    else if desc_type =? INVALID_DESC then Ok ACTION_CREATE_NEW_TABLE
    else if negb (desc_type =? TABLE_DESC) then Err FPanic
    else Ok ACTION_RECURSE_INTO_TABLE
  else Ok ACTION_NONE.

(** The body of the [while] loop up to the step to the next entry; [recurse] is the call for the
    subtable of an entry. [Some end_va] is an early return. *)
Definition map_region_entry (recurse : Z → Z → M xlat_state Z) (mm : xlat_mmap_region)
    (table_base level table_idx table_idx_va : Z) : M xlat_state (option Z) :=
  tt_get table_base table_idx ≫= λ desc,
  let table_idx_pa := base_pa mm .+ table_idx_va .- base_va mm in
  lift (xlat_tables_map_region_action mm (u32 (desc .& DESC_MASK)) table_idx_pa table_idx_va level)
    ≫= λ action,
  let block_end := table_idx_va .+ XLAT_BLOCK_SIZE level .- 1 in
  match action with
  | ACTION_WRITE_BLOCK_ENTRY =>
      lift (xlat_desc (attr mm) table_idx_pa level) ≫= λ d,
      tt_set table_base table_idx d ≫= λ _, mret None
  | ACTION_CREATE_NEW_TABLE =>
      xlat_table_get_empty ≫= λ subtable,
      (if subtable =? 0 then mfault FPanic else mret ()) ≫= λ _,
      tt_set table_base table_idx (TABLE_DESC .| subtable) ≫= λ _,
      recurse table_idx_va subtable ≫= λ end_va,
      mret (if negb (end_va =? block_end) then Some end_va else None)
  | ACTION_RECURSE_INTO_TABLE =>
      recurse table_idx_va (xlat_get_oa_from_tte desc) ≫= λ end_va,
      mret (if negb (end_va =? block_end) then Some end_va else None)
  | ACTION_NONE => mret None
  end.

(** The [while] loop over the entries of a table. *)
Fixpoint map_region_loop (n : nat) (recurse : Z → Z → M xlat_state Z) (mm : xlat_mmap_region)
    (table_base table_entries level mm_end_va table_idx table_idx_va : Z) : M xlat_state Z :=
  match n with
  | O => mfault FHang
  | S n' =>
      if negb (table_idx <? table_entries) then mret (table_idx_va .- 1)
      else
        map_region_entry recurse mm table_base level table_idx table_idx_va ≫= λ early,
        match early with
        | Some end_va => mret end_va
        | None =>
            let table_idx := u32 (table_idx + 1) in
            let table_idx_va := table_idx_va .+ XLAT_BLOCK_SIZE level in
            if mm_end_va <=? table_idx_va then mret (table_idx_va .- 1)
            else map_region_loop n' recurse mm table_base table_entries level mm_end_va
                   table_idx table_idx_va
        end
  end.

(** [fuel] bounds the levels that are left. *)
Fixpoint xlat_tables_map_region (fuel : nat) (cfg : xlat_ctx_cfg) (mm : xlat_mmap_region)
    (table_base_va table_base table_entries level : Z) : M xlat_state Z :=
  match fuel with
  | O => mfault FHang
  | S fuel' =>
      massert ((base_level cfg <=? level) && (level <=? XLAT_TABLE_LEVEL_MAX)) ≫= λ _,
      massert (table_entries <=? XLAT_GET_TABLE_ENTRIES level) ≫= λ _,
      let mm_end_va := base_va mm .+ size mm .- 1 in
      let table_idx_va := xlat_tables_find_start_va mm table_base_va level in
      let table_idx := xlat_tables_va_to_index table_base_va table_idx_va level in
      map_region_loop (S (Z.to_nat table_entries))
        (λ va subtable, xlat_tables_map_region fuel' cfg mm va subtable XLAT_TABLE_ENTRIES (level + 1))
        mm table_base table_entries level mm_end_va table_idx table_idx_va
  end.

(** The levels go from -1 to 3. *)
Definition XLAT_FUEL : nat := 5.

(** The loop over the regions: 0, or -ENOMEM at the first one that does not fit. *)
Fixpoint map_regions (cfg : xlat_ctx_cfg) (mms : list xlat_mmap_region) : M xlat_state Z :=
  match mms with
  | [] => mret 0
  | mm :: rest =>
      gets tbls ≫= λ t,
      xlat_tables_map_region XLAT_FUEL cfg mm 0 (tables t)
        (XLAT_GET_TABLE_ENTRIES (base_level cfg)) (base_level cfg) ≫= λ end_va,
      if negb (end_va =? base_va mm .+ size mm .- 1) then mret (- ENOMEM)
      else map_regions cfg rest
  end.

(** [INVALID_DESC] in the first [n] words. *)
Definition clear_tables (n : Z) (l : list Z) : result (list Z) :=
  if Z.of_nat (length l) <? n then Err FBadAccess
  else Ok (replicate (Z.to_nat n) INVALID_DESC ++ drop (Z.to_nat n) l).

(** All tables are cleared; the first one is the base table. *)
Definition xlat_init_tables_ctx (cfg : xlat_ctx_cfg) : M xlat_state Z :=
  gets tbls ≫= λ t,
  gets area ≫= λ a,
  lift (clear_tables (tables_num t * XLAT_TABLE_ENTRIES) a) ≫= λ a',
  mmodify (set_area a') ≫= λ _,
  mmodify (λ s, set_tbls (set_next_table (u32 (next_table (tbls s) + 1)) (tbls s)) s) ≫= λ _,
  map_regions cfg (mmap cfg) ≫= λ ret,
  if negb (ret =? 0) then mret ret
  else
    mmodify (λ s, set_tbls (set_initialized true (tbls s)) s) ≫= λ _,
    mret 0.

(** * Configuration of a context (xlat_contexts.c) *)

(** The comparison with the physical addresses of the earlier regions. *)
Definition pa_overlap (base end_ : Z) (mm : xlat_mmap_region) : bool :=
  let mm_end_pa := base_pa mm .+ size mm .- 1 in
  negb (MT_TYPE (attr mm) =? MT_TRANSIENT) &&
  ((base_pa mm <=? end_) && (end_ <=? mm_end_pa) || (base_pa mm <=? base) && (base <=? mm_end_pa)).

(** One iteration of [validate_mmap_regions]: [earlier] are the regions before [mm], the last
    one first. The answer and the region, moved to an offset in the high region. *)
Definition validate_region (earlier : list xlat_mmap_region) (mm : xlat_mmap_region)
    (ctx_base_va va_size region : Z) : result (Z * xlat_mmap_region) :=
  let end_pa := base_pa mm .+ size mm .- 1 in
  if (region =? VA_LOW_REGION) &&
     (negb (base_va mm .& HIGH_REGION_MASK =? 0) ||
      negb ((base_va mm .+ size mm) .& HIGH_REGION_MASK =? 0)) then Ok (- EINVAL, mm)
  else if negb (region =? VA_LOW_REGION) && (base_va mm <? ctx_base_va) then Ok (- EINVAL, mm)
  else
    let mm' := if region =? VA_LOW_REGION then mm else set_base_va (base_va mm .- ctx_base_va) mm in
    let end_va :=
      if region =? VA_LOW_REGION then base_va mm .+ size mm .- 1 else base_va mm' .+ size mm' in
    if negb (IS_PAGE_ALIGNED (base_pa mm)) || negb (IS_PAGE_ALIGNED (base_va mm')) ||
       negb (IS_PAGE_ALIGNED (size mm)) then Ok (- EFAULT, mm')
    else if negb (granularity mm =? XLAT_BLOCK_SIZE 0) && negb (granularity mm =? XLAT_BLOCK_SIZE 1) &&
            negb (granularity mm =? XLAT_BLOCK_SIZE 2) && negb (granularity mm =? XLAT_BLOCK_SIZE 3)
    then Ok (- EINVAL, mm')
    else if (end_pa <? base_pa mm) || (end_va <? base_va mm') then Ok (- ERANGE, mm')
    else if va_size <? end_va then Ok (- ERANGE, mm')
    else
      xlat_arch_get_max_supported_pa ≫= λ max_pa,
      if max_pa <? end_pa then Ok (- ERANGE, mm')
      else
        match earlier with
        | [] => Ok (0, mm')
        | prev :: _ =>
            let previous_end_va := base_va prev .+ size prev .- 1 in
            if base_va mm' <? base_va prev then Ok (- errno_EPERM, mm')
            else if base_va mm' <=? previous_end_va then Ok (- errno_EPERM, mm')
            else if MT_TYPE (attr mm) =? MT_TRANSIENT then Ok (0, mm')
            else if existsb (pa_overlap (base_pa mm) end_pa) (rev earlier) then Ok (- errno_EPERM, mm')
            else Ok (0, mm')
        end.

(** The answer and the array, whose regions are changed in place. *)
Fixpoint validate_loop (earlier mm : list xlat_mmap_region) (ctx_base_va va_size region : Z)
    : result (Z * list xlat_mmap_region) :=
  match mm with
  | [] => Ok (0, rev earlier)
  | m :: rest =>
      validate_region earlier m ctx_base_va va_size region ≫= λ '(ret, m'),
      if negb (ret =? 0) then Ok (ret, rev earlier ++ m' :: rest)
      else validate_loop (m' :: earlier) rest ctx_base_va va_size region
  end.

Definition validate_mmap_regions (mm : list xlat_mmap_region) (ctx_base_va va_size region : Z)
    : result (Z * list xlat_mmap_region) :=
  if (length mm =? 0)%nat then Ok (- EINVAL, mm)
  else validate_loop [] mm ctx_base_va va_size region.

Definition max_end_pa (acc : Z) (mm : xlat_mmap_region) : Z :=
  let end_pa := base_pa mm .+ size mm .- 1 in if acc <? end_pa then end_pa else acc.

(** The answer, the configuration and the array. *)
Definition add_mmap_to_ctx_cfg (cfg : xlat_ctx_cfg) (reg : Z) (mm : list xlat_mmap_region)
    (va_size : Z) : result (Z * xlat_ctx_cfg * list xlat_mmap_region) :=
  let base := if reg =? VA_LOW_REGION then 0 else (.~ 0) .- va_size .+ 1 in
  let cfg :=
    {| max_va_size := max_va_size cfg; mmap := mmap cfg; cfg_base_va := base;
       max_mapped_pa := max_mapped_pa cfg; max_mapped_va_offset := max_mapped_va_offset cfg;
       base_level := base_level cfg; region := region cfg; cfg_initialized := cfg_initialized cfg |} in
  validate_mmap_regions mm base va_size reg ≫= λ '(ret, mm),
  if negb (ret =? 0) then Ok (ret, cfg, mm)
  else
    match last mm with
    | None => Err FBadAccess
    | Some l =>
        Ok (0, {| max_va_size := max_va_size cfg; mmap := mm; cfg_base_va := cfg_base_va cfg;
                  max_mapped_pa := foldl max_end_pa 0 mm;
                  max_mapped_va_offset := base_va l .+ size l .- 1;
                  base_level := base_level cfg; region := region cfg;
                  cfg_initialized := cfg_initialized cfg |}, mm)
    end.

(** The structures are values, so that the checks for NULL have no counterpart. *)
Definition xlat_ctx_cfg_init (cfg : xlat_ctx_cfg) (reg : Z) (mm : list xlat_mmap_region)
    (va_size : Z) : result (Z * xlat_ctx_cfg * list xlat_mmap_region) :=
  let max_size := if is_feat_lpa2_4k_present then MAX_VIRT_ADDR_SPACE_SIZE_LPA2 else MAX_VIRT_ADDR_SPACE_SIZE in
  if VA_REGIONS <=? reg then Ok (- EINVAL, cfg, mm)
  else if negb (va_size .& (GRANULE_SIZE .- 1) =? 0) then Ok (- EINVAL, cfg, mm)
  else if (max_size <? va_size) || (va_size <? MIN_VIRT_ADDR_SPACE_SIZE) then Ok (- EINVAL, cfg, mm)
  else if cfg_initialized cfg then Ok (- EALREADY, cfg, mm)
  else
    add_mmap_to_ctx_cfg cfg reg mm va_size ≫= λ '(retval, cfg, mm),
    if retval <? 0 then Ok (retval, cfg, mm)
    else
      Ok (0, {| max_va_size := va_size; mmap := mmap cfg; cfg_base_va := cfg_base_va cfg;
                max_mapped_pa := max_mapped_pa cfg; max_mapped_va_offset := max_mapped_va_offset cfg;
                base_level := GET_XLAT_TABLE_LEVEL_BASE va_size; region := reg;
                cfg_initialized := true |}, mm).

(** [tbls] of the state is [tbls_ctx]; [area] is the memory at [tables_ptr]. *)
Definition xlat_ctx_init (cfg : xlat_ctx_cfg) (tables_ptr ntables : Z) : M xlat_state Z :=
  if (tables_ptr =? 0) || (ntables =? 0) then mret (- EINVAL)
  else if negb (ALIGNED tables_ptr XLAT_TABLES_ALIGNMENT) then mret (- EINVAL)
  else
    gets tbls ≫= λ t,
    if initialized t then mret (- EALREADY)
    else if negb (cfg_initialized cfg) then mret (- EINVAL)
    else
      mmodify (set_tbls {| tables := tables_ptr; tables_num := ntables; next_table := 0;
                           initialized := false |}) ≫= λ _,
      xlat_init_tables_ctx cfg.

(** * Pages mapped at run time (xlat_tables_utils.c) *)

Fixpoint find_last_loop (fuel : nat) (va_offset level ret_table table_base_va : Z)
    : M xlat_state (option xlat_llt_info) :=
  match fuel with
  | O => mfault FHang
  | S fuel' =>
      if negb (level <=? XLAT_TABLE_LEVEL_MAX) then mret None
      else
        let idx := XLAT_TABLE_IDX va_offset level in
        tt_get ret_table idx ≫= λ desc,
        if negb (desc .& DESC_MASK =? TABLE_DESC) || (level =? XLAT_TABLE_LEVEL_MAX) then
          mret (Some {| llt_table := ret_table; llt_base_va := table_base_va; llt_level := level |})
        else
          find_last_loop fuel' va_offset (level + 1) (xlat_get_oa_from_tte desc)
            (table_base_va .+ (XLAT_BLOCK_SIZE level .* idx))
  end.

Definition find_xlat_last_table (va : Z) (cfg : xlat_ctx_cfg) : M xlat_state (option xlat_llt_info) :=
  if va <? cfg_base_va cfg then mret None
  else
    let va_offset := (va .- cfg_base_va cfg) .& (.~ PAGE_SIZE_MASK) in
    if max_va_size cfg <=? va_offset then mret None
    else
      gets tbls ≫= λ t,
      find_last_loop XLAT_FUEL va_offset (base_level cfg) (tables t) (cfg_base_va cfg).

(** The answer, with [llt] when it is 0. *)
Definition xlat_get_llt_from_va (cfg : xlat_ctx_cfg) (va : Z) : M xlat_state (Z * option xlat_llt_info) :=
  gets tbls ≫= λ t,
  massert (initialized t) ≫= λ _,
  massert (cfg_initialized cfg) ≫= λ _,
  find_xlat_last_table va cfg ≫= λ o,
  match o with
  | None => mret (- EFAULT, None)
  | Some llt => mret (0, Some llt)
  end.

(** The address of the entry, [None] for NULL. *)
Definition xlat_get_tte_ptr (llt : xlat_llt_info) (va : Z) : result (option Z) :=
  rassert (llt_level llt <=? XLAT_TABLE_LEVEL_MAX) ≫= λ _,
  rassert (XLAT_TABLE_LEVEL_MIN <=? llt_level llt) ≫= λ _,
  if va <? llt_base_va llt then Ok None
  else
    let offset := va .- llt_base_va llt in
    let index := u32 (offset .>> XLAT_ADDR_SHIFT (llt_level llt)) in
    Ok (if index <? XLAT_GET_TABLE_ENTRIES (llt_level llt) then Some (llt_table llt + 8 * index) else None).

Definition xlat_read_tte (entry : Z) : M xlat_state Z := tt_get entry 0.
Definition xlat_write_tte (entry desc : Z) : M xlat_state () := tt_set entry 0 desc.
Definition xlat_write_tte_release (entry desc : Z) : M xlat_state () := tt_set entry 0 desc.

Definition TLBI_ADDR (x : Z) : Z := (x .>> 12) .& 17592186044415.
Definition xlat_arch_tlbi_va (va : Z) : M xlat_state () :=
  mmodify (λ s, set_tlbivae2 (TLBI_ADDR va :: tlbivae2 s) s).

Definition xlat_unmap_memory_page (table : xlat_llt_info) (va : Z) : M xlat_state Z :=
  lift (xlat_get_tte_ptr table va) ≫= λ o,
  match o with
  | None => mret (- EFAULT)
  | Some tte =>
      xlat_read_tte tte ≫= λ desc,
      if negb (desc .& (TRANSIENT_DESC .| VALID_DESC) =? TRANSIENT_DESC .| VALID_DESC) then mret (- EFAULT)
      else
        xlat_write_tte_release tte TRANSIENT_DESC ≫= λ _,
        xlat_arch_tlbi_va va ≫= λ _,
        mret 0
  end.

Definition xlat_map_memory_page_with_attrs (table : xlat_llt_info) (va pa attrs : Z) : M xlat_state Z :=
  lift (xlat_get_tte_ptr table va) ≫= λ o,
  match o with
  | None => mret (- EFAULT)
  | Some tte_ptr =>
      xlat_read_tte tte_ptr ≫= λ d,
      if negb (d =? TRANSIENT_DESC) then mret (- EFAULT)
      else
        lift xlat_arch_get_max_supported_pa ≫= λ max_pa,
        if max_pa <? pa then mret (- EFAULT)
        else
          lift (xlat_desc attrs (pa .& XLAT_ADDR_MASK (llt_level table)) (llt_level table)) ≫= λ tte,
          xlat_write_tte tte_ptr (tte .| TRANSIENT_DESC) ≫= λ _,
          mret 0
  end.

End xlat.

(** * Registers *)

Definition TCR_EL2_T0SZ : bitfield := {| fshift := 0; fwidth := 6 |}.
Definition TCR_EL2_T1SZ : bitfield := {| fshift := 16; fwidth := 6 |}.
Definition TCR_EL2_IRGN0_WBWA : Z := INPLACE 8 1.
Definition TCR_EL2_ORGN0_WBWA : Z := INPLACE 10 1.
Definition TCR_EL2_IRGN1_WBWA : Z := INPLACE 24 1.
Definition TCR_EL2_ORGN1_WBWA : Z := INPLACE 26 1.
Definition TCR_EL2_SH0_IS : Z := INPLACE 12 3.
Definition TCR_EL2_SH1_IS : Z := INPLACE 28 3.
Definition TCR_EL2_TG0_4K : Z := INPLACE 14 0.
Definition TCR_EL2_TG1_4K : Z := INPLACE 30 2.
Definition TCR_EL2_IPS_SHIFT : Z := 32.
Definition TCR_PS_BITS_4GB : Z := INPLACE TCR_EL2_IPS_SHIFT 0.
Definition TCR_PS_BITS_64GB : Z := INPLACE TCR_EL2_IPS_SHIFT 1.
Definition TCR_PS_BITS_1TB : Z := INPLACE TCR_EL2_IPS_SHIFT 2.
Definition TCR_PS_BITS_4TB : Z := INPLACE TCR_EL2_IPS_SHIFT 3.
Definition TCR_PS_BITS_16TB : Z := INPLACE TCR_EL2_IPS_SHIFT 4.
Definition TCR_PS_BITS_256TB : Z := INPLACE TCR_EL2_IPS_SHIFT 5.
Definition TCR_PS_BITS_4PB : Z := INPLACE TCR_EL2_IPS_SHIFT 6.
Definition TCR_EL2_DS_LPA2_EN : Z := INPLACE 59 1.
Definition TCR_EL2_AS : Z := 1 .<< 36.
Definition TCR_EL2_HPD0 : Z := 1 .<< 41.
Definition TCR_EL2_HPD1 : Z := 1 .<< 42.
Definition ATTR_DEVICE : Z := 4.
Definition MAKE_MAIR_NORMAL_MEMORY (inner outer : Z) : Z := inner .| (outer .<< 4).
Definition ATTR_IWBWA_OWBWA_NTR : Z := MAKE_MAIR_NORMAL_MEMORY 15 15.
Definition MAIR_ATTR_SET (attr index : Z) : Z := attr .<< (index .<< 3).
Definition TTBR_CNP_BIT : Z := 1.
Definition TTBRx_EL2_BADDR_MASK : Z := MASK 1 47.
Definition TTBRx_EL2_ASID_SHIFT : Z := 48.
Definition TTBRx_EL2_ASID : Z := MASK TTBRx_EL2_ASID_SHIFT 16.
Definition OPENCCA_TTBR0_ASID_BASE : Z := 32768.
Definition OPENCCA_TTBR1_ASID_BASE : Z := OPENCCA_TTBR0_ASID_BASE + 15.
Definition SET_TCR_SH (region sh : Z) : Z := if region =? VA_LOW_REGION then INPLACE 12 sh else INPLACE 28 sh.

(** The number of trailing zeros. *)
Definition builtin_ctzll (x : Z) : Z := Z.log2 (Z.land x (- x)).

Record xlat_mmu_cfg := { mmu_region : Z; mair : Z; tcr : Z; txsz : Z; ttbrx : Z }.

(** The registers of a processor that these functions write, and whether the MMU is on. *)
Record mmu_regs := {
  mair_el2 : Z;
  tcr_el2 : Z;
  ttbr0_el2 : Z;
  ttbr1_el2 : Z;
  is_mmu_enabled : bool;
}.

(** The processor that runs, and the top of its stacks (runtime/core/aarch64). *)
Class Self := { my_cpuid : Z; rmm_get_my_eh_stack : Z → Z; rmm_get_my_stack : Z → Z; RMM_NUM_PAGES_PER_STACK : Z }.

Section arch.
Context {CF : Config} {CPU : Cpu} {ME : Self}.

Definition read_id_aa64mmfr0_el0_tgran4 : Z := EXTRACT_F ID_AA64MMFR0_EL1_TGRAN4 read_id_aa64mmfr0_el1.

Definition xlat_arch_is_granule_size_supported (sz : Z) : bool :=
  if sz =? 4096 then read_id_aa64mmfr0_el0_tgran4 <? 8 else false.

Definition tcr_physical_addr_size_bits (max_addr : Z) : Z :=
  if negb (max_addr .& BIT_MASK_ULL 63 52 =? 0) then .~ 0
  else if negb (max_addr .& BIT_MASK_ULL 51 48 =? 0) then
    if is_feat_lpa2_4k_present then TCR_PS_BITS_4PB else .~ 0
  else if negb (max_addr .& BIT_MASK_ULL 47 44 =? 0) then TCR_PS_BITS_256TB
  else if negb (max_addr .& BIT_MASK_ULL 43 42 =? 0) then TCR_PS_BITS_16TB
  else if negb (max_addr .& BIT_MASK_ULL 41 40 =? 0) then TCR_PS_BITS_4TB
  else if negb (max_addr .& BIT_MASK_ULL 39 36 =? 0) then TCR_PS_BITS_1TB
  else if negb (max_addr .& BIT_MASK_ULL 35 32 =? 0) then TCR_PS_BITS_64GB
  else TCR_PS_BITS_4GB.

(** The answer, with the configuration when it is 0. *)
Definition xlat_arch_setup_mmu_cfg (cfg : xlat_ctx_cfg) (t : xlat_ctx_tbls) : result (Z * option xlat_mmu_cfg) :=
  if negb (xlat_arch_is_granule_size_supported 4096) then Ok (- errno_EPERM, None)
  else if negb (cfg_initialized cfg) then Ok (- EINVAL, None)
  else
    let m := MAIR_ATTR_SET ATTR_DEVICE ATTR_DEVICE_INDEX .|
             MAIR_ATTR_SET ATTR_IWBWA_OWBWA_NTR ATTR_IWBWA_OWBWA_NTR_INDEX in
    let txsz := u64 (64 - builtin_ctzll (max_va_size cfg)) in
    let tcr := TCR_EL2_IRGN0_WBWA .| TCR_EL2_ORGN0_WBWA .| TCR_EL2_SH0_IS in
    let tcr := tcr .| (TCR_EL2_IRGN1_WBWA .| TCR_EL2_ORGN1_WBWA .| TCR_EL2_SH1_IS) in
    let tcr := tcr .| (TCR_EL2_AS .| TCR_EL2_HPD0 .| TCR_EL2_HPD1) in
    let tcr := tcr .| (TCR_EL2_TG0_4K .| TCR_EL2_TG1_4K) in
    let tcr :=
      if is_feat_lpa2_4k_present then tcr .| TCR_EL2_DS_LPA2_EN .| SET_TCR_SH (region cfg) ISH else tcr in
    xlat_arch_get_max_supported_pa ≫= λ max_pa,
    let pa_size_bits := tcr_physical_addr_size_bits max_pa in
    if pa_size_bits =? .~ 0 then Ok (- errno_EPERM, None)
    else
      let ttbrx := tables t .& TTBRx_EL2_BADDR_MASK in
      let ttbrx :=
        if ENABLE_OPENCCA then
          let asid := u32 ((if region cfg =? VA_HIGH_REGION then OPENCCA_TTBR1_ASID_BASE
                            else OPENCCA_TTBR0_ASID_BASE) + my_cpuid) in
          (ttbrx .& (.~ TTBR_CNP_BIT)) .& (.~ TTBRx_EL2_ASID) .| (asid .<< TTBRx_EL2_ASID_SHIFT)
        else if region cfg =? VA_HIGH_REGION then ttbrx .& (.~ TTBR_CNP_BIT)
        else ttbrx .| TTBR_CNP_BIT in
      Ok (0, Some {| mmu_region := region cfg; mair := m; tcr := tcr .| pa_size_bits; txsz := txsz;
                     ttbrx := ttbrx |}).

Definition xlat_arch_write_mmu_cfg (c : xlat_mmu_cfg) (r : mmu_regs) : result mmu_regs :=
  rassert (negb (is_mmu_enabled r)) ≫= λ _,
  let t0sz := if mmu_region c =? VA_LOW_REGION then txsz c else EXTRACT_F TCR_EL2_T0SZ (tcr_el2 r) in
  let t1sz := if mmu_region c =? VA_LOW_REGION then EXTRACT_F TCR_EL2_T1SZ (tcr_el2 r) else txsz c in
  let tcr := tcr c .| (t0sz .<< fshift TCR_EL2_T0SZ) .| (t1sz .<< fshift TCR_EL2_T1SZ) in
  Ok {| mair_el2 := mair c; tcr_el2 := tcr;
        ttbr0_el2 := if mmu_region c =? VA_LOW_REGION then ttbrx c else ttbr0_el2 r;
        ttbr1_el2 := if mmu_region c =? VA_LOW_REGION then ttbr1_el2 r else ttbrx c;
        is_mmu_enabled := is_mmu_enabled r |}.

(** * The upper half (xlat_high_va.h, xlat_high_va.c) *)

Definition XLAT_HIGH_VA_SLOT_NUM : Z := 45.
Definition SLOT_VIRT : Z := ULONG_MAX .- (XLAT_HIGH_VA_SLOT_NUM * GRANULE_SIZE) .+ 1.
Definition RMM_CPU_STACK_SIZE : Z := RMM_NUM_PAGES_PER_STACK .* PAGE_SIZE.
Definition RMM_CPU_EH_STACK_SIZE : Z := PAGE_SIZE.
Definition CPU_STACK_GAP : Z := 1 * PAGE_SIZE.
Definition RMM_CPU_STACK_END_VA : Z := SLOT_VIRT .- CPU_STACK_GAP.
Definition CPU_STACK_VIRT : Z := RMM_CPU_STACK_END_VA .- RMM_CPU_STACK_SIZE.
Definition RMM_CPU_EH_STACK_END_VA : Z := CPU_STACK_VIRT .- CPU_STACK_GAP.
Definition CPU_EH_STACK_VIRT : Z := RMM_CPU_EH_STACK_END_VA .- RMM_CPU_EH_STACK_SIZE.
Definition XLAT_NG_DATA_ATTR : Z := MT_RW_DATA .| MT_NG.
Definition XLAT_HIGH_VA_SIZE : Z := if ENABLE_OPENCCA then 1 .<< 25 else XLAT_TABLE_ENTRIES .* PAGE_SIZE.
Definition RMM_SLOT_BUF_SIZE : Z := XLAT_HIGH_VA_SLOT_NUM * GRANULE_SIZE.
Definition high_va_tts_tables : Z := if ENABLE_OPENCCA then 12 else 1.

Definition RMM_EH_STACK_MMAP : xlat_mmap_region :=
  MAP_REGION_FULL_SPEC 0 CPU_EH_STACK_VIRT RMM_CPU_EH_STACK_SIZE XLAT_NG_DATA_ATTR PAGE_SIZE.
Definition RMM_STACK_MMAP : xlat_mmap_region :=
  MAP_REGION_FULL_SPEC 0 CPU_STACK_VIRT RMM_CPU_STACK_SIZE XLAT_NG_DATA_ATTR PAGE_SIZE.
Definition RMM_SLOT_BUF_MMAP : xlat_mmap_region := MAP_REGION_TRANSIENT SLOT_VIRT RMM_SLOT_BUF_SIZE PAGE_SIZE.

(** The static data of a processor: its regions (which a configured context refers to), its
    context, and its registers. *)
Record high_va := {
  mm_regions : list xlat_mmap_region;
  high_va_cfg : xlat_ctx_cfg;
  high_va_tbls : xlat_state;
  regs : mmu_regs;
}.

Definition set_base_pa (v : Z) (mm : xlat_mmap_region) : xlat_mmap_region :=
  {| base_pa := v; base_va := base_va mm; size := size mm; attr := attr mm; granularity := granularity mm |}.

(** What static storage holds at first; the tables at [tables_ptr] hold any words. *)
Definition high_va_reset (words : list Z) (r : mmu_regs) : high_va :=
  {| mm_regions := [RMM_EH_STACK_MMAP; RMM_STACK_MMAP; RMM_SLOT_BUF_MMAP];
     high_va_cfg := {| max_va_size := 0; mmap := []; cfg_base_va := 0; max_mapped_pa := 0;
                       max_mapped_va_offset := 0; base_level := 0; region := 0; cfg_initialized := false |};
     high_va_tbls := {| tbls := {| tables := 0; tables_num := 0; next_table := 0; initialized := false |};
                        area := words; tlbivae2 := [] |};
     regs := r |}.

(** [tables_ptr] is the part of [high_va_tts] that belongs to the processor.  In the code
    [mmap] of the configuration points to the array [mm_regions]; the array is written only
    here and by [xlat_ctx_cfg_init], and the physical addresses written are those of the
    processor's stacks, the same at every call, so the copy in [high_va_cfg] stays equal. *)
Definition xlat_high_va_setup (tables_ptr : Z) (h : high_va) : result (Z * high_va) :=
  let set_pa i v l := aget l i ≫= λ m, aset l i (set_base_pa v m) in
  set_pa 0 (rmm_get_my_eh_stack my_cpuid .- RMM_CPU_EH_STACK_SIZE) (mm_regions h) ≫= λ mm,
  set_pa 1 (rmm_get_my_stack my_cpuid .- RMM_CPU_STACK_SIZE) mm ≫= λ mm,
  xlat_ctx_cfg_init (high_va_cfg h) VA_HIGH_REGION mm XLAT_HIGH_VA_SIZE ≫= λ '(ret, cfg, mm),
  let h := {| mm_regions := mm; high_va_cfg := cfg; high_va_tbls := high_va_tbls h; regs := regs h |} in
  if negb ((ret =? 0) || (ret =? - EALREADY)) then Ok (ret, h)
  else
    xlat_ctx_init cfg tables_ptr high_va_tts_tables (high_va_tbls h) ≫= λ '(ret, x),
    let h := {| mm_regions := mm; high_va_cfg := cfg; high_va_tbls := x; regs := regs h |} in
    if negb ((ret =? 0) || (ret =? - EALREADY)) then Ok (ret, h)
    else
      xlat_arch_setup_mmu_cfg cfg (tbls x) ≫= λ '(ret, c),
      match c with
      | Some c =>
          xlat_arch_write_mmu_cfg c (regs h) ≫= λ r,
          Ok (ret, {| mm_regions := mm; high_va_cfg := cfg; high_va_tbls := x; regs := r |})
      | None => Ok (ret, h)
      end.

End arch.
