(* ===== verification/XlatTree.v ===== *)
(** The tree of translation tables in the area of a context: the walk of the hardware, the
    invariant of the tree, and what one write of a descriptor does to it; and the descriptors of
    blocks and pages: [xlat_desc] is total on the attributes the library knows, the hardware reads
    the output address back, and the permissions are those asked for. *)
From S2P Require Import Prelude Types S2tte Feature Xlat.

#[local] Ltac euclid := Z.to_euclidean_division_equations; lia.

(** * Blocks of addresses *)

(** The bytes mapped by one entry of level [l]; level -2 stands for the whole address space. *)
Definition bsize (l : Z) : Z := 2 ^ (39 - 9 * l).
Definition idx (va l : Z) : Z := (va / bsize l) mod 512.

Lemma bsize_pos l : l <= 4 → 0 < bsize l.
Proof. intros. unfold bsize. lia. Qed.

Lemma bsize_up l : l <= 3 → bsize (l - 1) = 512 * bsize l.
Proof.
  intros. unfold bsize. replace (39 - 9 * (l - 1)) with (9 + (39 - 9 * l)) by lia.
  rewrite Z.pow_add_r by lia. done.
Qed.

Lemma bsize_le l l' : l <= l' → l' <= 4 → bsize l' <= bsize l.
Proof. intros. unfold bsize. apply Z.pow_le_mono_r; lia. Qed.

Lemma bsize_divide l l' : l <= l' → l' <= 4 → (bsize l' | bsize l).
Proof.
  intros. unfold bsize. exists (2 ^ (9 * (l' - l))).
  rewrite <- Z.pow_add_r by lia. f_equal. lia.
Qed.

Lemma div_up va l : l <= 3 → va / bsize (l - 1) = va / bsize l / 512.
Proof.
  intros. rewrite bsize_up by done. pose proof (bsize_pos l ltac:(lia)).
  rewrite Z.mul_comm. by rewrite Z.div_div by lia.
Qed.

(** Two addresses of the same entry one level up and with the same index are in one block. *)
Lemma same_block va va' l :
  l <= 3 → va / bsize (l - 1) = va' / bsize (l - 1) → idx va l = idx va' l →
  va / bsize l = va' / bsize l.
Proof.
  intros Hl Hd Hi. rewrite !div_up in Hd by done. unfold idx in Hi.
  pose proof (Z.div_mod (va / bsize l) 512). pose proof (Z.div_mod (va' / bsize l) 512). lia.
Qed.

Lemma same_block_up va va' l :
  l <= 3 → va / bsize l = va' / bsize l → va / bsize (l - 1) = va' / bsize (l - 1).
Proof. intros Hl Hd. rewrite !div_up by done. by rewrite Hd. Qed.

Lemma idx_range va l : 0 <= idx va l < 512.
Proof. unfold idx. apply Z.mod_pos_bound. lia. Qed.

Lemma ADDR_SHIFT_eq l : -1 <= l <= 3 → XLAT_ADDR_SHIFT l = 39 - 9 * l.
Proof.
  intros H. assert (l = -1 ∨ l = 0 ∨ l = 1 ∨ l = 2 ∨ l = 3) as [->|[->|[->|[->| ->]]]] by lia; done.
Qed.

Lemma BLOCK_SIZE_eq l : -1 <= l <= 3 → XLAT_BLOCK_SIZE l = bsize l.
Proof.
  intros H. assert (l = -1 ∨ l = 0 ∨ l = 1 ∨ l = 2 ∨ l = 3) as [->|[->|[->|[->| ->]]]] by lia; done.
Qed.

Lemma TABLE_IDX_eq va l : -1 <= l <= 3 → XLAT_TABLE_IDX va l = idx va l.
Proof.
  intros H. unfold XLAT_TABLE_IDX, idx, bsize. rewrite ADDR_SHIFT_eq by done.
  rewrite Z.shiftr_div_pow2 by lia. change 511 with (2 ^ 9 - 1). rewrite land_ones_mod by lia.
  unfold u32. change (2 ^ 9) with 512. apply Z.mod_small.
  pose proof (Z.mod_pos_bound (va / 2 ^ (39 - 9 * l)) 512). lia.
Qed.

(** * The area of tables *)

Section tree.
Context {CF : Config} {CPU : Cpu}.
(** The level of the base table. *)
Variable L0 : Z.
Hypothesis L0_range : -1 <= L0 <= 3.

(** Entry [i] of table number [k]. *)
Definition ent (s : xlat_state) (k i : Z) : Z := default 0 (area s !! Z.to_nat (512 * k + i)).
Definition is_table (d : Z) : bool := d .& DESC_MASK =? TABLE_DESC.
Definition tnum (s : xlat_state) (d : Z) : Z := (xlat_get_oa_from_tte d - tables (tbls s)) / 4096.
Definition taddr (s : xlat_state) (k : Z) : Z := tables (tbls s) + 4096 * k.

(** The table that the walk for [va] reaches after [n] steps. *)
Fixpoint table_at (s : xlat_state) (n : nat) (va : Z) : option Z :=
  match n with
  | O => Some 0
  | S m =>
      match table_at s m va with
      | Some k =>
          let d := ent s k (idx va (L0 + Z.of_nat m)) in
          if is_table d && (L0 + Z.of_nat m <? 3) then Some (tnum s d) else None
      | None => None
      end
  end.

(** The walk for [va] ends after [n] steps in table [k] with descriptor [d]. *)
Definition walk_ends (s : xlat_state) (va : Z) (n : nat) (k d : Z) : Prop :=
  table_at s n va = Some k ∧ ent s k (idx va (L0 + Z.of_nat n)) = d ∧
  L0 + Z.of_nat n <= 3 ∧ (is_table d = false ∨ L0 + Z.of_nat n = 3).

(** The addresses that the base table can tell apart. *)
Definition in_space (va : Z) : Prop := 0 <= va < bsize (L0 - 1).

(** The tables are a tree: table descriptors point to distinct tables that are in use, and the
    tables not in use are empty. *)
Record tree (s : xlat_state) : Prop := {
  tree_len : Z.of_nat (length (area s)) = 512 * tables_num (tbls s);
  tree_next : 1 <= next_table (tbls s) <= tables_num (tbls s);
  tree_num : tables_num (tbls s) < 2 ^ 31;
  tree_base : 0 < tables (tbls s) ∧ tables (tbls s) mod 4096 = 0;
  tree_end : tables (tbls s) + 4096 * tables_num (tbls s) <= 2 ^ 48;
  tree_free k i : next_table (tbls s) <= k < tables_num (tbls s) → 0 <= i < 512 → ent s k i = 0;
  tree_table n va k : in_space va → table_at s n va = Some k → L0 + Z.of_nat n < 3 →
    is_table (ent s k (idx va (L0 + Z.of_nat n))) = true →
    ∃ k', 0 <= k' < next_table (tbls s) ∧ ent s k (idx va (L0 + Z.of_nat n)) = taddr s k' + 3;
  tree_inj n va k n' va' : in_space va → in_space va' →
    table_at s n va = Some k → table_at s n' va' = Some k →
    n = n' ∧ va / bsize (L0 + Z.of_nat n - 1) = va' / bsize (L0 + Z.of_nat n - 1);
}.

(** ** Table descriptors *)

Lemma land3_mod a : Z.land a 3 = a mod 4.
Proof. change 3 with (2 ^ 2 - 1). by rewrite land_ones_mod by lia. Qed.

Lemma land3_aligned a : a mod 4096 = 0 → Z.land a 3 = 0.
Proof. intros. rewrite land3_mod. euclid. Qed.

Lemma aligned_mul a : a mod 4096 = 0 → a = a / 4096 * 2 ^ 12.
Proof. intros. change (2 ^ 12) with 4096. euclid. Qed.

Lemma oa_table a :
  0 <= a < 2 ^ 48 → a mod 4096 = 0 → xlat_get_oa_from_tte (a + 3) = a.
Proof.
  intros Ha Hal. assert (E : a + 3 = Z.lor a 3).
  { symmetry. by apply lor_add, land3_aligned. }
  assert (Hm : ∀ m, 47 <= m → m < 64 → Z.land (a + 3) (BIT_MASK_ULL m 12) = a).
  { intros m Hm Hm'. rewrite E. apply Z.bits_inj'. intros i Hi.
    rewrite Z.land_spec, Z.lor_spec, testbit_BIT_MASK_ULL by lia.
    destruct (decide (i < 12)) as [Hlt|Hge].
    { replace (12 <=? i) with false by lia. cbn. rewrite ?andb_false_r.
      symmetry. rewrite (aligned_mul a) by done. by rewrite Z.mul_pow2_bits_low. }
    rewrite (testbit_high 3 2) by lia. rewrite orb_false_r.
    destruct (decide (48 <= i)); [by rewrite (testbit_high a 48) by lia|].
    replace (12 <=? i) with true by lia. replace (i <=? m) with true by lia. by rewrite ?andb_true_r. }
  unfold xlat_get_oa_from_tte. destruct is_feat_lpa2_4k_present.
  - unfold TTE_OA_BIT_49_LPA2, OA_SHIFT, XLAT_GRANULARITY_SIZE_SHIFT. rewrite Hm by lia.
    replace (EXTRACT _ _ _) with 0; [by rewrite Z.lor_0_r|].
    symmetry. apply Z.bits_inj'. intros i Hi. unfold TTE_OA_BITS_50_51_SHIFT, TTE_OA_BITS_50_51_WIDTH.
    rewrite Z.testbit_0_l, testbit_EXTRACT by lia.
    destruct (Z.ltb_spec i 2); [|done]. cbn [andb]. rewrite E, Z.lor_spec.
    rewrite (testbit_high 3 2) by lia. rewrite orb_false_r.
    rewrite (aligned_mul a) by done. apply Z.mul_pow2_bits_low. lia.
  - unfold TTE_OA_MSB, OA_SHIFT, XLAT_GRANULARITY_SIZE_SHIFT. by rewrite Hm by lia.
Qed.

Lemma table_desc a : a mod 4096 = 0 → TABLE_DESC .| a = a + 3.
Proof.
  intros Hal. rewrite Z.lor_comm. change TABLE_DESC with 3. by rewrite lor_add by by apply land3_aligned.
Qed.

Lemma is_table_desc a : a mod 4096 = 0 → is_table (a + 3) = true.
Proof.
  intros Hal. unfold is_table. apply Z.eqb_eq. change DESC_MASK with 3. change TABLE_DESC with 3.
  rewrite land3_mod. euclid.
Qed.

Lemma taddr_aligned s k : tree s → taddr s k mod 4096 = 0.
Proof. intros T. pose proof (tree_base s T). unfold taddr. euclid. Qed.

Lemma oa_taddr s k :
  tree s → 0 <= k < tables_num (tbls s) → xlat_get_oa_from_tte (taddr s k + 3) = taddr s k.
Proof.
  intros T Hk. apply oa_table; [|by apply taddr_aligned].
  pose proof (tree_base s T). pose proof (tree_end s T). unfold taddr. lia.
Qed.

Lemma tnum_taddr s k : tree s → 0 <= k < tables_num (tbls s) → tnum s (taddr s k + 3) = k.
Proof. intros T Hk. unfold tnum. rewrite oa_taddr by done. unfold taddr. euclid. Qed.

(** ** Walks *)

Lemma reach_S s n va :
  table_at s (S n) va =
  match table_at s n va with
  | Some k =>
      let d := ent s k (idx va (L0 + Z.of_nat n)) in
      if is_table d && (L0 + Z.of_nat n <? 3) then Some (tnum s d) else None
  | None => None
  end.
Proof. done. Qed.

Lemma reach_range s n va k : tree s → in_space va → table_at s n va = Some k → 0 <= k < next_table (tbls s).
Proof.
  intros T Hv. pose proof (tree_next s T). destruct n as [|n]; [cbn; intros [= <-]; lia|].
  rewrite reach_S. destruct (table_at s n va) as [j|] eqn:Hr; [|done]. cbv zeta.
  destruct (is_table _) eqn:Ht, (Z.ltb_spec (L0 + Z.of_nat n) 3); cbn [andb]; try done.
  destruct (tree_table s T n va j Hv Hr) as (k' & Hk' & He); [done|done|].
  rewrite He, tnum_taddr by (done || lia). by intros [= <-].
Qed.

Lemma reach_level s n va k : table_at s n va = Some k → L0 + Z.of_nat n <= 3.
Proof using L0_range.
  destruct n as [|n]; [lia|]. rewrite reach_S. destruct (table_at s n va); [|done]. cbv zeta.
  destruct (Z.ltb_spec (L0 + Z.of_nat n) 3); [lia|]. by rewrite andb_false_r.
Qed.

Lemma reach_prefix s n m va k : table_at s n va = Some k → (m <= n)%nat → is_Some (table_at s m va).
Proof.
  revert k. induction n as [|n IH]; intros k Hr Hm; [by replace m with 0%nat by lia|].
  destruct (decide (m = S n)) as [->|]; [by exists k|].
  rewrite reach_S in Hr. destruct (table_at s n va) as [j|] eqn:Hj; [|done]. apply (IH j); [done|lia].
Qed.

(** The walk depends on the block of the address only. *)
Lemma reach_block s n va va' :
  L0 + Z.of_nat n <= 4 → va / bsize (L0 + Z.of_nat n - 1) = va' / bsize (L0 + Z.of_nat n - 1) →
  table_at s n va = table_at s n va'.
Proof.
  induction n as [|n IH]; [done|]. intros Hn Hd.
  replace (L0 + Z.of_nat (S n) - 1) with (L0 + Z.of_nat n) in Hd by lia.
  rewrite !reach_S. rewrite <- IH by (lia || by apply same_block_up; [lia|]).
  unfold idx. by rewrite Hd.
Qed.

Lemma leaf_unique s va n k d n' k' d' : walk_ends s va n k d → walk_ends s va n' k' d' → n = n' ∧ k = k' ∧ d = d'.
Proof.
  intros (Hr & He & Hl & Ht) (Hr' & He' & Hl' & Ht').
  assert (Hno : ∀ m j e x, table_at s m va = Some j → ent s j (idx va (L0 + Z.of_nat m)) = e →
    (is_table e = false ∨ L0 + Z.of_nat m = 3) → (m < x)%nat → table_at s x va = None).
  { intros m j e x Hm He0 Hq Hx. destruct (table_at s x va) as [y|] eqn:Hy; [|done]. exfalso.
    destruct (reach_prefix s x (S m) va y Hy ltac:(lia)) as [z Hz].
    rewrite reach_S, Hm in Hz. cbv zeta in Hz. rewrite He0 in Hz.
    destruct Hq as [Hq|Hq]; [by rewrite Hq in Hz|].
    replace (L0 + Z.of_nat m <? 3) with false in Hz by lia. by rewrite andb_false_r in Hz. }
  destruct (Nat.lt_trichotomy n n') as [Hlt|[->|Hlt]].
  - pose proof (Hno n k d n' Hr He Ht Hlt). congruence.
  - naive_solver congruence.
  - pose proof (Hno n' k' d' n Hr' He' Ht' Hlt). congruence.
Qed.

Lemma leaf_from s n va k :
  table_at s n va = Some k → ∃ n' k' d, (n <= n')%nat ∧ walk_ends s va n' k' d.
Proof using L0_range.
  remember (Z.to_nat (3 - (L0 + Z.of_nat n))) as m eqn:Hm. revert n k Hm.
  induction m as [|m IH]; intros n k Hm Hr; pose proof (reach_level s n va k Hr).
  { exists n, k, (ent s k (idx va (L0 + Z.of_nat n))). split; [lia|]. split; [done|]. split; [done|].
    split; [done|]. right. lia. }
  destruct (is_table (ent s k (idx va (L0 + Z.of_nat n)))) eqn:Ht.
  - destruct (IH (S n) (tnum s (ent s k (idx va (L0 + Z.of_nat n))))) as (n' & k' & d & Hn & Hl); [lia|..].
    { rewrite reach_S, Hr. cbv zeta. rewrite Ht. by replace (L0 + Z.of_nat n <? 3) with true by lia. }
    exists n', k', d. split; [lia|done].
  - exists n, k, (ent s k (idx va (L0 + Z.of_nat n))). split; [lia|]. split; [done|]. split; [done|].
    split; [done|]. by left.
Qed.

Lemma leaf_exists s va : ∃ n k d, walk_ends s va n k d.
Proof using L0_range.
  destruct (leaf_from s 0 va 0) as (n & k & d & _ & H); [done|]. by exists n, k, d.
Qed.
(** ** What an address is mapped to *)

Fixpoint s1_walk (m : nat) (s : xlat_state) (k l va : Z) : Z * Z :=
  let d := ent s k (idx va l) in
  match m with
  | O => (d, l)
  | S m' => if is_table d then s1_walk m' s (tnum s d) (l + 1) va else (d, l)
  end.

(** The descriptor and the level at which the walk of the hardware ends, if the descriptor is
    not 0. *)
Definition s1_view (s : xlat_state) (va : Z) : option (Z * Z) :=
  let '(d, l) := s1_walk (Z.to_nat (3 - L0)) s 0 L0 va in
  if d =? 0 then None else Some (d, l).

Lemma walk_reach s n va k :
  table_at s n va = Some k →
  s1_walk (Z.to_nat (3 - L0)) s 0 L0 va = s1_walk (Z.to_nat (3 - (L0 + Z.of_nat n))) s k (L0 + Z.of_nat n) va.
Proof using L0_range.
  revert k. induction n as [|n IH]; intros k Hr.
  { cbn in Hr. simplify_eq. by replace (L0 + Z.of_nat 0) with L0 by lia. }
  pose proof (reach_level _ _ _ _ Hr) as Hl.
  rewrite reach_S in Hr. destruct (table_at s n va) as [j|]; [|done]. cbv zeta in Hr.
  destruct (is_table _) eqn:Ht; [|done]. rewrite (IH j) by done.
  replace (Z.to_nat (3 - (L0 + Z.of_nat n))) with (S (Z.to_nat (3 - (L0 + Z.of_nat (S n))))) by lia.
  cbn [s1_walk]. rewrite Ht. destruct (_ <? _); [|done]. simplify_eq/=.
  by replace (L0 + Z.of_nat n + 1) with (L0 + Z.of_nat (S n)) by lia.
Qed.

Lemma view_leaf s va n k d :
  walk_ends s va n k d → s1_view s va = if d =? 0 then None else Some (d, L0 + Z.of_nat n).
Proof using L0_range.
  intros (Hr & He & Hl & Ht). unfold s1_view. rewrite (walk_reach _ _ _ _ Hr).
  destruct (Z.to_nat (3 - (L0 + Z.of_nat n))) as [|m] eqn:Hm; cbn [s1_walk]; rewrite He; [done|].
  destruct Ht as [->|]; [done|lia].
Qed.

(** The tree is in the area. *)
Lemma reach_ext s s' n va : area s' = area s → tables (tbls s') = tables (tbls s) → table_at s' n va = table_at s n va.
Proof.
  intros Ha Ht. induction n as [|n IH]; [done|]. rewrite !reach_S, IH.
  destruct (table_at s n va); [|done]. cbv zeta. unfold tnum, ent. by rewrite Ha, Ht.
Qed.

Lemma view_ext s s' va : area s' = area s → tables (tbls s') = tables (tbls s) → s1_view s' va = s1_view s va.
Proof.
  intros Ha Ht. unfold s1_view. generalize 0 at 1 3 as k. generalize L0 as l. generalize (Z.to_nat (3 - L0)) as m.
  assert (H : ∀ m k l, s1_walk m s' k l va = s1_walk m s k l va).
  { induction m as [|m IH]; intros k l; cbn [s1_walk]; unfold tnum, ent; rewrite Ha, ?Ht; [done|].
    case_match; [|done]. apply IH. }
  intros m l k. by rewrite H.
Qed.

Lemma tree_ext s s' :
  area s' = area s → tables (tbls s') = tables (tbls s) → tables_num (tbls s') = tables_num (tbls s) →
  next_table (tbls s') = next_table (tbls s) → tree s → tree s'.
Proof.
  intros Ha Ht Hn Hx T.
  assert (He : ∀ k i, ent s' k i = ent s k i) by (intros; unfold ent; by rewrite Ha).
  split; rewrite ?Ha, ?Ht, ?Hn, ?Hx; try apply T.
  - intros k i Hk Hi. rewrite He. by apply T.
  - intros n va k Hva. rewrite (reach_ext s) by done. unfold taddr. rewrite He, Ht. by apply T.
  - intros n va k n' va' Hva Hva'. rewrite (reach_ext s s' n), (reach_ext s s' n') by done. by apply (tree_inj s T).
Qed.

(** ** Reading and writing an entry *)

Definition put (s : xlat_state) (k i d : Z) : xlat_state :=
  set_area (<[Z.to_nat (512 * k + i) := d]> (area s)) s.

Lemma word_index_taddr s k i : 0 <= i → word_index (tbls s) (taddr s k + 8 * i) = Ok (512 * k + i).
Proof.
  intros Hi. unfold word_index, taddr. cbv zeta.
  replace (tables (tbls s) + 4096 * k + 8 * i - tables (tbls s)) with ((512 * k + i) * 8) by lia.
  by rewrite Z.mod_mul, Z.div_mul by lia.
Qed.

Lemma ent_lookup s k i :
  tree s → 0 <= k < tables_num (tbls s) → 0 <= i < 512 →
  area s !! Z.to_nat (512 * k + i) = Some (ent s k i).
Proof.
  intros T Hk Hi. pose proof (tree_len s T). unfold ent.
  destruct (lookup_lt_is_Some_2 (area s) (Z.to_nat (512 * k + i))) as [d Hd]; [lia|]. by rewrite Hd.
Qed.

Lemma tt_get_run s k i :
  tree s → 0 <= k < tables_num (tbls s) → 0 <= i < 512 → tt_get (taddr s k) i s = Ok (ent s k i, s).
Proof.
  intros T Hk Hi. unfold tt_get. rewrite word_index_taddr, result_bind_ok by lia.
  by rewrite (aget_lookup _ _ (ent s k i)) by (lia || by apply ent_lookup).
Qed.

Lemma tt_set_run s k i d :
  Z.of_nat (length (area s)) = 512 * tables_num (tbls s) → 0 <= k < tables_num (tbls s) → 0 <= i < 512 → tt_set (taddr s k) i d s = Ok ((), put s k i d).
Proof.
  intros Hlen Hk Hi. unfold tt_set. rewrite word_index_taddr, result_bind_ok by lia.
  by rewrite aset_ok by lia.
Qed.

Lemma ent_put s k i d k' i' :
  tree s → 0 <= k < tables_num (tbls s) → 0 <= i < 512 → 0 <= k' → 0 <= i' < 512 →
  ent (put s k i d) k' i' = if decide (k' = k ∧ i' = i) then d else ent s k' i'.
Proof.
  intros T Hk Hi Hk' Hi'. pose proof (tree_len s T). unfold ent, put. cbn [area set_area].
  destruct (decide (k' = k ∧ i' = i)) as [[-> ->]|Hne].
  - by rewrite list_lookup_insert_eq by lia.
  - rewrite list_lookup_insert_ne; [done|]. lia.
Qed.

Lemma in_space_div va : in_space va → va / bsize (L0 - 1) = 0.
Proof. intros H. by apply Z.div_small. Qed.

(** *** A descriptor of a page or block *)

Section put_leaf.
Context (s : xlat_state) (va0 : Z) (n : nat) (k d : Z).
Hypothesis T : tree s.
Hypothesis Hva0 : in_space va0.
Hypothesis Hr0 : table_at s n va0 = Some k.
Local Abbreviation i0 := (idx va0 (L0 + Z.of_nat n)).
Hypothesis Hold : is_table (ent s k i0) = false ∨ L0 + Z.of_nat n = 3.
Hypothesis Hnew : is_table d = false ∨ L0 + Z.of_nat n = 3.
Local Abbreviation s' := (put s k i0 d).

Lemma put_k_range : 0 <= k < tables_num (tbls s).
Proof using T Hva0 Hr0.
  pose proof (reach_range s n va0 k T Hva0 Hr0). pose proof (tree_next s T). lia.
Qed.

Lemma ent_put' k' i' : 0 <= k' → 0 <= i' < 512 →
  ent s' k' i' = if decide (k' = k ∧ i' = i0) then d else ent s k' i'.
Proof using T Hva0 Hr0. intros. apply ent_put; [done|apply put_k_range|apply idx_range|done|done]. Qed.

Lemma put_leaf_reach m va : in_space va → table_at s' m va = table_at s m va.
Proof using T Hva0 Hr0 Hold Hnew.
  intros Hva. induction m as [|m IH]; [done|]. rewrite !reach_S, IH.
  destruct (table_at s m va) as [k'|] eqn:Hm; [|done]. cbv zeta.
  pose proof (reach_range s m va k' T Hva Hm).
  rewrite ent_put' by (lia || apply idx_range).
  destruct (decide _) as [[-> Hi]|]; [|done].
  destruct (tree_inj s T m va k n va0 Hva Hva0 Hm Hr0) as [-> _]. rewrite Hi.
  destruct (Z.ltb_spec (L0 + Z.of_nat n) 3); [|by rewrite !andb_false_r].
  destruct Hold as [->|]; [|lia]. destruct Hnew as [->|]; [|lia]. done.
Qed.

Lemma put_leaf_tree : tree s'.
Proof using T Hva0 Hr0 Hold Hnew.
  pose proof put_k_range. split; cbn [put set_area tbls area]; try apply T.
  - rewrite length_insert. apply T.
  - intros k' i' Hk' Hi'. pose proof (reach_range s n va0 k T Hva0 Hr0). rewrite ent_put' by lia.
    rewrite decide_False by lia. by apply T.
  - intros m va k' Hva Hm Hl. rewrite put_leaf_reach in Hm by done.
    pose proof (reach_range s m va k' T Hva Hm). rewrite ent_put' by (lia || apply idx_range).
    destruct (decide _) as [[-> Hi]|]; [|by apply T].
    destruct (tree_inj s T m va k n va0 Hva Hva0 Hm Hr0) as [-> _].
    intros Ht. destruct Hnew; [congruence|lia].
  - intros m va k' m' va' Hva Hva'. rewrite !put_leaf_reach by done. by apply T.
Qed.

(** The block of [va0] changes, and no other. *)
Lemma put_leaf_view va : in_space va →
  s1_view s' va =
    if decide (va / bsize (L0 + Z.of_nat n) = va0 / bsize (L0 + Z.of_nat n))
    then if d =? 0 then None else Some (d, L0 + Z.of_nat n)
    else s1_view s va.
Proof using T Hva0 Hr0 Hold Hnew L0_range.
  intros Hva. pose proof (reach_level s n va0 k Hr0) as Hl.
  destruct (decide (va / _ = va0 / _)) as [Hb|Hb].
  - assert (Hr : table_at s n va = Some k).
    { rewrite <- Hr0. apply reach_block; [lia|]. apply same_block_up; [lia|done]. }
    apply (view_leaf _ _ _ k). split; [by rewrite put_leaf_reach by done|].
    split; [|split; [lia|done]]. unfold idx at 2. rewrite Hb.
    rewrite ent_put' by (apply put_k_range || apply idx_range). by rewrite decide_True.
  - destruct (leaf_exists s va) as (m & k' & d' & Hlf). rewrite (view_leaf _ _ _ _ _ Hlf).
    apply (view_leaf _ _ _ k'). destruct Hlf as (Hm & He & Hlm & Ht).
    split; [by rewrite put_leaf_reach by done|]. split; [|done].
    pose proof (reach_range s m va k' T Hva Hm). rewrite ent_put' by (lia || apply idx_range).
    destruct (decide _) as [[-> Hi]|]; [|done]. exfalso.
    destruct (tree_inj s T m va k n va0 Hva Hva0 Hm Hr0) as [-> Hd].
    by apply Hb, same_block.
Qed.
End put_leaf.

(** *** A new table *)

Section put_table.
Context (s : xlat_state) (va0 : Z) (n : nat) (k : Z).
Hypothesis T : tree s.
Hypothesis Hva0 : in_space va0.
Hypothesis Hr0 : table_at s n va0 = Some k.
Local Abbreviation i0 := (idx va0 (L0 + Z.of_nat n)).
Local Abbreviation new := (next_table (tbls s)).
Hypothesis Hold : ent s k i0 = 0.
Hypothesis Hlevel : L0 + Z.of_nat n < 3.
Hypothesis Hfree : new < tables_num (tbls s).
Local Abbreviation s1 := (set_tbls (set_next_table (new + 1) (tbls s)) s).
Local Abbreviation s' := (put s1 k i0 (taddr s new + 3)).

Lemma table_k_range : 0 <= k < new.
Proof using T Hva0 Hr0. by apply (reach_range s n va0). Qed.

Lemma ent_table k' i' : 0 <= k' → 0 <= i' < 512 →
  ent s' k' i' = if decide (k' = k ∧ i' = i0) then taddr s new + 3 else ent s k' i'.
Proof using T Hva0 Hr0 Hfree.
  intros. pose proof table_k_range. pose proof (idx_range va0 (L0 + Z.of_nat n)).
  pose proof (tree_len s T). unfold ent, put. cbn [area set_area set_tbls].
  destruct (decide _) as [[-> ->]|Hne].
  - by rewrite list_lookup_insert_eq by lia.
  - rewrite list_lookup_insert_ne; [done|]. lia.
Qed.

Lemma tnum_new d : tnum s' d = tnum s d.
Proof. done. Qed.

Lemma reach_old_none va :
  in_space va → va / bsize (L0 + Z.of_nat n) = va0 / bsize (L0 + Z.of_nat n) →
  table_at s n va = Some k ∧ table_at s (S n) va = None.
Proof using Hr0 Hold Hlevel.
  intros Hva Hb. assert (Hr : table_at s n va = Some k).
  { rewrite <- Hr0. apply reach_block; [lia|]. apply same_block_up; [lia|done]. }
  split; [done|]. rewrite reach_S, Hr. cbv zeta. unfold idx. rewrite Hb.
  change ((va0 / bsize (L0 + Z.of_nat n)) mod 512) with i0. by rewrite Hold.
Qed.

(** The new table is reached, one level down, for the addresses of the block only. *)
Lemma put_table_reach m va : in_space va →
  table_at s' m va =
    if decide (m = S n ∧ va / bsize (L0 + Z.of_nat n) = va0 / bsize (L0 + Z.of_nat n)) then Some new
    else table_at s m va.
Proof using T Hva0 Hr0 Hold Hlevel Hfree.
  intros Hva. pose proof (tree_next s T). induction m as [|m IH]; [done|]. rewrite reach_S, IH.
  destruct (decide (m = S n ∧ _)) as [[-> Hb]|Hne].
  { rewrite decide_False by lia. cbv zeta. rewrite ent_table by (lia || apply idx_range).
    pose proof table_k_range. rewrite decide_False by lia. rewrite tree_free by (done || lia || apply idx_range).
    change (is_table 0) with false. cbn [andb]. rewrite reach_S. by destruct (reach_old_none va Hva Hb) as [_ ->]. }
  rewrite reach_S. destruct (table_at s m va) as [k'|] eqn:Hm.
  - cbv zeta. pose proof (reach_range s m va k' T Hva Hm). rewrite ent_table by (lia || apply idx_range).
    destruct (decide (k' = k ∧ _)) as [[-> Hi]|Hk].
    + destruct (tree_inj s T m va k n va0 Hva Hva0 Hm Hr0) as [-> Hd].
      rewrite decide_True by (split; [done|]; by apply same_block; [lia|..]).
      rewrite is_table_desc by by apply taddr_aligned. replace (_ <? 3) with true by lia. cbn [andb].
      f_equal. rewrite tnum_new. apply tnum_taddr; [done|lia].
    + rewrite decide_False; [done|]. intros [[= ->] Hb]. apply Hk.
      destruct (reach_old_none va Hva Hb) as [Hr _]. split; [congruence|]. unfold idx. by rewrite Hb.
  - rewrite decide_False; [done|]. intros [[= ->] Hb].
    destruct (reach_old_none va Hva Hb) as [Hr _]. congruence.
Qed.

Lemma put_table_tree : tree s'.
Proof using T Hva0 Hr0 Hold Hlevel Hfree.
  pose proof table_k_range. pose proof (tree_next s T). split; cbn [put set_area set_tbls tbls area tables tables_num next_table set_next_table]; try apply T.
  - rewrite length_insert. apply T.
  - lia.
  - intros k' i' Hk' Hi'. rewrite ent_table by lia. rewrite decide_False by lia. apply T; [lia|done].
  - intros m va k' Hva. rewrite put_table_reach by done.
    destruct (decide _) as [[-> Hb]|Hne].
    + intros [= <-] Hl. rewrite ent_table by (lia || apply idx_range). rewrite decide_False by lia.
      by rewrite tree_free by (done || lia || apply idx_range).
    + intros Hm Hl. pose proof (reach_range s m va k' T Hva Hm). rewrite ent_table by (lia || apply idx_range).
      destruct (decide _) as [[-> Hi]|].
      * intros _. exists new. split; [lia|done].
      * intros Ht. destruct (tree_table s T m va k' Hva Hm Hl Ht) as (x & Hx & He). exists x. split; [lia|done].
  - intros m va k' m' va' Hva Hva'. rewrite !put_table_reach by done.
    destruct (decide (m = S n ∧ _)) as [[-> Hb]|Hne], (decide (m' = S n ∧ _)) as [[-> Hb']|Hne'].
    + intros _ _. split; [done|]. replace (L0 + Z.of_nat (S n) - 1) with (L0 + Z.of_nat n) by lia. congruence.
    + intros [= <-] Hm'. pose proof (reach_range s m' va' _ T Hva' Hm'). lia.
    + intros Hm [= <-]. pose proof (reach_range s m va _ T Hva Hm). lia.
    + by apply T.
Qed.

(** Nothing is mapped or unmapped by it. *)
Lemma put_table_view va : in_space va → s1_view s' va = s1_view s va.
Proof using T Hva0 Hr0 Hold Hlevel Hfree L0_range.
  intros Hva. pose proof table_k_range. pose proof (tree_next s T).
  destruct (decide (va / bsize (L0 + Z.of_nat n) = va0 / bsize (L0 + Z.of_nat n))) as [Hb|Hb].
  - destruct (reach_old_none va Hva Hb) as [Hr _].
    rewrite (view_leaf s va n k 0), (view_leaf s' va (S n) new 0); [done| |].
    + split; [by rewrite put_table_reach, decide_True by done|].
      split; [|split; [lia|by left]]. rewrite ent_table by (lia || apply idx_range).
      rewrite decide_False by lia. apply tree_free; [done|lia|apply idx_range].
    + split; [done|]. split; [|split; [lia|by left]]. unfold idx. rewrite Hb. apply Hold.
  - destruct (leaf_exists s va) as (m & k' & d' & Hlf). rewrite (view_leaf _ _ _ _ _ Hlf).
    apply (view_leaf _ _ _ k'). destruct Hlf as (Hm & He & Hlm & Ht).
    split; [by rewrite put_table_reach, decide_False by naive_solver|]. split; [|done].
    pose proof (reach_range s m va k' T Hva Hm). rewrite ent_table by (lia || apply idx_range).
    destruct (decide _) as [[-> Hi]|]; [|done]. exfalso.
    destruct (tree_inj s T m va k n va0 Hva Hva0 Hm Hr0) as [-> Hd].
    apply Hb, same_block; [lia|done|done].
Qed.
End put_table.
End tree.

Section desc.
Context {CF : Config} {CPU : Cpu}.

(** The widest output address of a descriptor. *)
Definition OA_LIMIT : Z := if is_feat_lpa2_4k_present then 2 ^ 52 else 2 ^ 48.

Definition known_type (attr : Z) : Prop :=
  MT_TYPE attr = MT_DEVICE ∨ MT_TYPE attr = MT_MEMORY ∨ MT_TYPE attr = MT_TRANSIENT.

(** The bits that hold the output address, and the bits of the attributes. *)
Definition OA_FIELD : Z :=
  if is_feat_lpa2_4k_present then BIT_MASK_ULL 49 12 .| BIT_MASK_ULL 9 8 else BIT_MASK_ULL 47 12.
Definition ATTR_FIELD : Z :=
  if is_feat_lpa2_4k_present then BIT_MASK_ULL 55 50 .| BIT_MASK_ULL 11 10 .| BIT_MASK_ULL 7 0
  else BIT_MASK_ULL 55 50 .| BIT_MASK_ULL 11 0.

(** The attributes alone. *)
Definition desc_attrs (attr level : Z) : Z :=
  (if level =? XLAT_TABLE_LEVEL_MAX then PAGE_DESC else BLOCK_DESC) .| LOWER_ATTRS ACCESS_FLAG .|
  xlat_arch_get_pas attr .| (if negb (attr .& MT_RW =? 0) then LOWER_ATTRS AP_RW else LOWER_ATTRS AP_RO) .|
  (if ENABLE_OPENCCA || negb (attr .& MT_NG =? 0) then XLAT_GET_NG_HINT else 0) .|
  (if attr .& MT_EXEC_UNPRIV =? 0 then XLAT_GET_UXN_DESC else 0) .|
  (if negb (attr .& MT_AP_UNPRIV =? 0) then XLAT_GET_AP_ACCESS_UNPRIV_DESC else 0) .|
  (if MT_TYPE attr =? MT_DEVICE then LOWER_ATTRS ATTR_DEVICE_INDEX .| XLAT_GET_PXN_DESC
   else
     (if negb (attr .& MT_RW =? 0) || negb (attr .& MT_EXECUTE_NEVER =? 0)
      then XLAT_GET_PXN_DESC else XLAT_GET_GP_DESC) .|
     LOWER_ATTRS ATTR_IWBWA_OWBWA_NTR_INDEX .|
     (if negb is_feat_lpa2_4k_present then INPLACE LOWER_ATTR_SH_SHIFT ISH else 0)).

Lemma if_lor (b : bool) d x : (if b then d .| x else d) = d .| (if b then x else 0).
Proof. destruct b; [done|]. by rewrite Z.lor_0_r. Qed.

Lemma if_lor2 (b : bool) d x y : (if b then d .| x else d .| y) = d .| (if b then x else y).
Proof. by destruct b. Qed.

Lemma inmask_if m (b : bool) x y : inmask m x → inmask m y → inmask m (if b then x else y).
Proof. by destruct b. Qed.

Lemma block_mask_mod pa l : -1 <= l <= 3 → (pa .& XLAT_BLOCK_MASK l =? 0) = (pa mod bsize l =? 0).
Proof.
  intros Hl. unfold XLAT_BLOCK_MASK. rewrite BLOCK_SIZE_eq by done.
  assert (E : bsize l .- 1 = 2 ^ (39 - 9 * l) - 1).
  { unfold bsize. apply u64_small. unfold is_u64.
    pose proof (Z.pow_le_mono_r 2 (39 - 9 * l) 48). lia. }
  rewrite E, land_ones_mod by lia. done.
Qed.

Lemma xlat_desc_split attr pa l :
  known_type attr → MT_TYPE attr ≠ MT_TRANSIENT → -1 <= l <= 3 → pa mod bsize l = 0 →
  xlat_desc attr pa l = Ok (set_oa_to_tte pa .| desc_attrs attr l).
Proof.
  intros Hk Ht Hl Hpa. unfold xlat_desc. replace (MT_TYPE attr =? MT_TRANSIENT) with false by lia.
  rewrite block_mask_mod, (proj2 (Z.eqb_eq _ _) Hpa) by done. rewrite rassert_bind by done.
  rewrite !if_lor, if_lor2. unfold desc_attrs.
  destruct (Z.eqb_spec (MT_TYPE attr) MT_DEVICE) as [Hd|Hd].
  - by rewrite <- !Z.lor_assoc.
  - rewrite rassert_bind by (destruct Hk as [?|[->|?]]; done). by rewrite <- !Z.lor_assoc.
Qed.

Lemma desc_attrs_field attr l : inmask ATTR_FIELD (desc_attrs attr l).
Proof.
  unfold desc_attrs, ATTR_FIELD, xlat_arch_get_pas. destruct is_feat_lpa2_4k_present; cbn [negb];
    repeat lazymatch goal with
    | |- inmask _ (_ .| _) => apply inmask_lor
    | |- inmask _ (if _ then _ else _) => apply inmask_if
    end; vm_compute; reflexivity.
Qed.

Lemma testbit_set_oa pa i : 0 <= i →
  Z.testbit (set_oa_to_tte pa) i =
    if is_feat_lpa2_4k_present
    then (12 <=? i) && (i <=? 49) && Z.testbit pa i || (8 <=? i) && (i <=? 9) && Z.testbit pa (i + 42)
    else (12 <=? i) && (i <=? 47) && Z.testbit pa i.
Proof.
  intros Hi. unfold set_oa_to_tte, TTE_OA_BIT_49_LPA2, OA_SHIFT, XLAT_GRANULARITY_SIZE_SHIFT, TTE_OA_MSB,
    INPLACE, TTE_OA_BITS_50_51_SHIFT, OA_BITS_50_51_SHIFT, OA_BITS_50_51_WIDTH, TTE_OA_BITS_50_51_WIDTH.
  destruct is_feat_lpa2_4k_present.
  - rewrite Z.lor_spec, Z.land_spec, testbit_BIT_MASK_ULL, testbit_shl64 by lia.
    rewrite (andb_comm (Z.testbit pa i)). f_equal.
    destruct (Z.leb_spec 8 i); cycle 1.
    { rewrite testbit_neg by lia. by rewrite andb_false_r. }
    rewrite testbit_EXTRACT by lia. replace (i - 8 + 50) with (i + 42) by lia.
    destruct (Z.testbit pa (i + 42)); lia.
  - rewrite Z.land_spec, testbit_BIT_MASK_ULL by lia. apply andb_comm.
Qed.

(** The hardware finds the address in the descriptor. *)
Lemma oa_of_desc pa a :
  0 <= pa < OA_LIMIT → pa mod 4096 = 0 → inmask ATTR_FIELD a →
  xlat_get_oa_from_tte (set_oa_to_tte pa .| a) = pa.
Proof.
  intros Hpa Hal Ha.
  assert (Hlow : ∀ i, 0 <= i < 12 → Z.testbit pa i = false).
  { intros i Hi. rewrite (aligned_mul pa) by done. apply Z.mul_pow2_bits_low. lia. }
  assert (Hbits : ∀ i, 0 <= i → Z.testbit a i = true → Z.testbit ATTR_FIELD i = true).
  { intros i Hi Ht. rewrite <- Ha, Z.land_spec in Ht. by apply andb_prop in Ht as [_ ?]. }
  assert (HA : ∀ i, 0 <= i → (if is_feat_lpa2_4k_present then 12 <= i <= 49 ∨ 8 <= i <= 9 else 12 <= i <= 47) →
    Z.testbit a i = false).
  { intros i Hi Hr. destruct (Z.testbit a i) eqn:Ht; [|done]. apply Hbits in Ht; [|done].
    unfold ATTR_FIELD in Ht. destruct is_feat_lpa2_4k_present;
      rewrite !Z.lor_spec, !testbit_BIT_MASK_ULL in Ht by lia; lia. }
  unfold OA_LIMIT in Hpa. apply Z.bits_inj'. intros i Hi.
  unfold xlat_get_oa_from_tte, TTE_OA_BIT_49_LPA2, OA_SHIFT, XLAT_GRANULARITY_SIZE_SHIFT, TTE_OA_MSB,
    INPLACE, TTE_OA_BITS_50_51_SHIFT, OA_BITS_50_51_SHIFT, TTE_OA_BITS_50_51_WIDTH.
  pose proof (testbit_set_oa pa) as Ho. destruct is_feat_lpa2_4k_present.
  - rewrite Z.lor_spec, Z.land_spec, Z.lor_spec, testbit_BIT_MASK_ULL, testbit_shl64, Ho by lia.
    destruct (decide (50 <= i)) as [Hh|Hh].
    { replace (i <=? 49) with false by lia. rewrite !andb_false_r. cbn [orb].
      destruct (decide (52 <= i)) as [H52|H52].
      { rewrite (testbit_high pa 52) by lia. rewrite testbit_EXTRACT by lia.
        replace (i - 50 <? 2) with false by lia. by rewrite andb_false_r. }
      rewrite testbit_EXTRACT by lia. replace (i <? 64) with true by lia. replace (i - 50 <? 2) with true by lia.
      cbn [andb]. rewrite Z.lor_spec, Ho, HA by lia.
      replace (12 <=? i - 50 + 8) with false by lia. replace (8 <=? i - 50 + 8) with true by lia.
      replace (i - 50 + 8 <=? 9) with true by lia. cbn [andb orb]. rewrite orb_false_r. f_equal. lia. }
    rewrite (testbit_neg _ (i - 50)) by lia. rewrite andb_false_r, orb_false_r.
    destruct (decide (12 <= i)) as [H12|H12].
    + rewrite HA by lia. replace (12 <=? i) with true by lia. replace (i <=? 49) with true by lia.
      replace (i <=? 9) with false by lia. rewrite !andb_false_r. cbn [andb orb]. by rewrite !orb_false_r, andb_true_r.
    + rewrite Hlow by lia. replace (12 <=? i) with false by lia. cbn [andb]. by rewrite andb_false_r.
  - rewrite Z.land_spec, Z.lor_spec, testbit_BIT_MASK_ULL, Ho by lia.
    destruct (decide (48 <= i)) as [Hh|Hh].
    { rewrite (testbit_high pa 48) by lia. replace (i <=? 47) with false by lia. by rewrite !andb_false_r. }
    destruct (decide (12 <= i)) as [H12|H12].
    + rewrite HA by lia. replace (12 <=? i) with true by lia. replace (i <=? 47) with true by lia.
      cbn [andb]. by rewrite orb_false_r, andb_true_r.
    + rewrite Hlow by lia. replace (12 <=? i) with false by lia. cbn [andb]. by rewrite andb_false_r.
Qed.

(** ** Single bits *)

Lemma testbit_if (b : bool) x y i : Z.testbit (if b then x else y) i = if b then Z.testbit x i else Z.testbit y i.
Proof. by destruct b. Qed.

Lemma if_same {A} (b : bool) (x : A) : (if b then x else x) = x.
Proof. by destruct b. Qed.

(** Evaluates a bit of an attribute word, whose constituents are constants. *)
Ltac attr_bit :=
  unfold desc_attrs, xlat_arch_get_pas; rewrite ?Z.lor_spec, ?testbit_if;
  repeat lazymatch goal with
  | |- context [Z.testbit (Z.lor _ _) _] => rewrite Z.lor_spec
  | |- context [Z.testbit (if _ then _ else _) _] => rewrite testbit_if
  | |- context [Z.testbit ?c ?i] =>
      let v := eval vm_compute in (Z.testbit c i) in
      lazymatch v with true => idtac | false => idtac end;
      change (Z.testbit c i) with v; cbv beta iota
  end; rewrite ?if_same; cbn [orb].

Lemma desc_bits attr pa l i :
  0 <= i → (i < 8 ∨ 10 <= i < 12 ∨ 50 <= i) →
  Z.testbit (set_oa_to_tte pa .| desc_attrs attr l) i = Z.testbit (desc_attrs attr l) i.
Proof.
  intros Hi Hr. rewrite Z.lor_spec, testbit_set_oa by done.
  destruct is_feat_lpa2_4k_present; destruct (Z.testbit pa i), (Z.testbit pa (i + 42)), (Z.testbit (desc_attrs attr l) i); lia.
Qed.

(** The permissions that a descriptor gives: it is valid, its type is that of its level, it is
    accessed, read-only exactly if it was asked to be, never executable by the monitor when it
    is device memory, writable or marked so. *)
Lemma desc_attrs_perms attr l :
  let d := desc_attrs attr l in
  Z.testbit d 0 = true ∧ Z.testbit d 1 = (l =? 3) ∧ Z.testbit d 10 = true ∧
  Z.testbit d 7 = (attr .& MT_RW =? 0) ∧
  Z.testbit d 53 = (MT_TYPE attr =? MT_DEVICE) || negb (attr .& MT_RW =? 0) || negb (attr .& MT_EXECUTE_NEVER =? 0) ∧
  Z.testbit d 54 = (attr .& MT_EXEC_UNPRIV =? 0).
Proof.
  cbv zeta. unfold XLAT_TABLE_LEVEL_MAX. split_and!; attr_bit.
  all: try (destruct (attr .& MT_RW =? 0)); repeat case_match; done.
Qed.

Lemma xlat_desc_total attr pa l :
  known_type attr → -1 <= l <= 3 → pa mod bsize l = 0 →
  ∃ d, xlat_desc attr pa l = Ok d ∧ d ≠ 0 ∧ (l < 3 → is_table d = false) ∧
    (MT_TYPE attr = MT_TRANSIENT → d = TRANSIENT_DESC) ∧
    (MT_TYPE attr ≠ MT_TRANSIENT → d = set_oa_to_tte pa .| desc_attrs attr l).
Proof.
  intros Hk Hl Hpa. destruct (decide (MT_TYPE attr = MT_TRANSIENT)) as [Ht|Ht].
  { exists TRANSIENT_DESC. unfold xlat_desc. by rewrite (proj2 (Z.eqb_eq _ _) Ht). }
  exists (set_oa_to_tte pa .| desc_attrs attr l). rewrite xlat_desc_split by done. split; [done|].
  destruct (desc_attrs_perms attr l) as (H0 & H1 & _). split_and!.
  - intros E. pose proof (desc_bits attr pa l 0 ltac:(lia) ltac:(lia)) as Hb. by rewrite E, H0 in Hb.
  - intros Hl3. unfold is_table. apply Z.eqb_neq. intros E.
    pose proof (desc_bits attr pa l 1 ltac:(lia) ltac:(lia)) as Hb. rewrite H1 in Hb.
    assert (Ht1 : Z.testbit ((set_oa_to_tte pa .| desc_attrs attr l) .& DESC_MASK) 1 = true) by by rewrite E.
    rewrite Z.land_spec, Hb in Ht1. by replace (l =? 3) with false in Ht1 by lia.
  - done.
  - done.
Qed.

End desc.
