(* ===== verification/XlatMap.v ===== *)
(** Contexts: [xlat_tables_map_region] maps exactly the addresses of a region, with a bound on the
    tables it uses; what the validation of the regions makes sure of; and that after the
    initialisation of a context every address of a region translates to its physical address with
    the permissions of the region, and no other address translates. *)
From Stdlib Require Import Sorting.Sorted.
From S2P Require Import Prelude Types GranuleFind S2tte Feature Xlat XlatTree.

#[local] Ltac euclid := Z.to_euclidean_division_equations; lia.

(** * Counting tables *)

(** The blocks of level [l] that meet [lo, hi), and the tables that mapping [lo, hi) from a table
    of level [l] can need: at most one for each entry it meets above level 3. *)
Definition nblk (l lo hi : Z) : Z := (hi + bsize l - 1) / bsize l - lo / bsize l.
Fixpoint need (m : nat) (l lo hi : Z) : Z :=
  match m with
  | O => 0
  | S m' => nblk l lo hi + need m' (l + 1) lo hi
  end.
Definition tables_need (l lo hi : Z) : Z := need (Z.to_nat (3 - l)) l lo hi.

Lemma nblk_split l lo b hi : l <= 3 → b mod bsize l = 0 → nblk l lo hi = nblk l lo b + nblk l b hi.
Proof.
  intros Hl Hb. unfold nblk. pose proof (bsize_pos l ltac:(lia)).
  apply Z.mod_divide in Hb as [q ->]; [|lia].
  replace (q * bsize l + bsize l - 1) with (q * bsize l + (bsize l - 1)) by lia.
  rewrite Z.div_add_l, Z.div_mul, (Z.div_small (bsize l - 1)) by lia. lia.
Qed.

Lemma nblk_one l b lo hi :
  l <= 3 → b mod bsize l = 0 → b <= lo → lo < hi → hi <= b + bsize l → nblk l lo hi = 1.
Proof.
  intros Hl Hb Hlo Hlt Hhi. unfold nblk. pose proof (bsize_pos l ltac:(lia)).
  apply Z.mod_divide in Hb as [q ->]; [|lia].
  rewrite <- (Z.div_unique_pos lo (bsize l) q (lo - q * bsize l)) by lia.
  rewrite <- (Z.div_unique_pos (hi + bsize l - 1) (bsize l) (q + 1) (hi - 1 - q * bsize l)) by lia. lia.
Qed.

Lemma nblk_nonneg l lo hi : l <= 3 → lo <= hi → 0 <= nblk l lo hi.
Proof.
  intros Hl Hlt. unfold nblk. pose proof (bsize_pos l ltac:(lia)).
  pose proof (Z.div_le_mono lo (hi + bsize l - 1) (bsize l)). lia.
Qed.

Lemma need_nonneg m l lo hi : l + Z.of_nat m <= 4 → lo <= hi → 0 <= need m l lo hi.
Proof.
  revert l. induction m as [|m IH]; intros l Hl Hlt; cbn [need]; [lia|].
  pose proof (nblk_nonneg l lo hi). specialize (IH (l + 1)). lia.
Qed.

Lemma mod_down b l l' : l <= l' → l' <= 3 → b mod bsize l = 0 → b mod bsize l' = 0.
Proof.
  intros Hl Hl' Hb. pose proof (bsize_pos l ltac:(lia)). pose proof (bsize_pos l' ltac:(lia)).
  apply Z.mod_divide in Hb; [|lia]. apply Z.mod_divide; [lia|].
  eapply Z.divide_trans; [by apply bsize_divide; [|lia]|done].
Qed.

Lemma need_split m l lo b hi :
  l + Z.of_nat m <= 4 → b mod bsize l = 0 → need m l lo hi = need m l lo b + need m l b hi.
Proof.
  revert l. induction m as [|m IH]; intros l Hl Hb; cbn [need]; [lia|].
  rewrite (nblk_split l lo b hi) by (done || lia).
  rewrite (IH (l + 1)); [lia|lia|]. destruct m as [|m]; [|apply (mod_down b l); [lia|lia|done]].
  destruct (decide (l <= 2)); [apply (mod_down b l); [lia|lia|done]|].
  replace l with 3 in * by lia. unfold bsize in *. change (2 ^ (39 - 9 * (3 + 1))) with 8.
  change (2 ^ (39 - 9 * 3)) with 4096 in Hb. euclid.
Qed.

Lemma need_self m l b : l + Z.of_nat m <= 3 → b mod bsize l = 0 → need m l b b = 0.
Proof.
  intros Hl Hb. pose proof (need_split m l b b b ltac:(lia) Hb). lia.
Qed.

(** * Regions *)

Section map.
Context {CF : Config} {CPU : Cpu}.
Variable L0 : Z.
Hypothesis L0_range : -1 <= L0 <= 3.

(** What the configuration of a context makes sure of. *)
Record good_region (mm : xlat_mmap_region) : Prop := {
  gr_va : 0 <= base_va mm ∧ base_va mm mod 4096 = 0;
  gr_size : 0 < size mm ∧ size mm mod 4096 = 0;
  gr_space : base_va mm + size mm <= bsize (L0 - 1);
  gr_end : base_va mm + size mm <= 2 ^ 52;
  gr_pa : 0 <= base_pa mm ∧ base_pa mm mod 4096 = 0;
  gr_pa_end : base_pa mm + size mm <= 2 ^ 52;
  gr_type : known_type (attr mm);
}.

Definition in_mmap (mm : xlat_mmap_region) (va : Z) : Prop := base_va mm <= va < base_va mm + size mm.

(** The descriptor [d] of level [l] maps the block of [va], which is part of the region. *)
Definition region_entry (mm : xlat_mmap_region) (va d l : Z) : Prop :=
  let b := va / bsize l * bsize l in
  -1 <= l <= 3 ∧ base_va mm <= b ∧ b + bsize l <= base_va mm + size mm ∧
  (l = 3 ∨ bsize l <= granularity mm ∧ XLAT_MIN_BLOCK_LVL <= l) ∧
  (base_pa mm + (b - base_va mm)) mod bsize l = 0 ∧
  xlat_desc (attr mm) (base_pa mm + (b - base_va mm)) l = Ok d.

(** From [s] to [s'] the addresses from [lo] to [hi] were mapped, with at most [c] new tables. *)
Record mapped_from (mm : xlat_mmap_region) (s s' : xlat_state) (lo hi c : Z) : Prop := {
  mapped_tree : tree L0 s';
  mapped_tbls : tbls s' = set_next_table (next_table (tbls s')) (tbls s);
  mapped_tlbi : tlbivae2 s' = tlbivae2 s;
  mapped_next : next_table (tbls s') <= next_table (tbls s) + c;
  mapped_reach m va k : in_space L0 va → table_at L0 s m va = Some k → table_at L0 s' m va = Some k;
  mapped_other va : in_space L0 va → ~ (lo <= va < hi) → s1_view L0 s' va = s1_view L0 s va;
  mapped_view va : lo <= va < hi → ∃ d l, s1_view L0 s' va = Some (d, l) ∧ region_entry mm va d l;
}.

Lemma mapped_trans mm s s1 s2 a b c x y :
  (∀ va, a <= va < c → in_space L0 va) → a <= b <= c →
  mapped_from mm s s1 a b x → mapped_from mm s1 s2 b c y → mapped_from mm s s2 a c (x + y).
Proof.
  intros Hsp Habc H1 H2. split.
  - apply H2.
  - rewrite (mapped_tbls _ _ _ _ _ _ H2), (mapped_tbls _ _ _ _ _ _ H1). done.
  - rewrite (mapped_tlbi _ _ _ _ _ _ H2). apply H1.
  - pose proof (mapped_next _ _ _ _ _ _ H1). pose proof (mapped_next _ _ _ _ _ _ H2). lia.
  - intros m va k Hva Hr. apply H2; [done|]. by apply H1.
  - intros va Hva Hn. rewrite (mapped_other _ _ _ _ _ _ H2) by (done || lia). apply H1; [done|lia].
  - intros va Hva. destruct (decide (b <= va)); [apply H2; lia|].
    rewrite (mapped_other _ _ _ _ _ _ H2) by (lia || apply Hsp; lia). apply H1. lia.
Qed.

Lemma mapped_weaken mm s s' a b x y : x <= y → mapped_from mm s s' a b x → mapped_from mm s s' a b y.
Proof. intros Hxy H. destruct H. split; try done. lia. Qed.

Lemma mapped_nil mm s a c : tree L0 s → 0 <= c → mapped_from mm s s a a c.
Proof. intros T Hc. split; try done; [by destruct (tbls s)|lia|lia]. Qed.

(** ** One entry *)

Lemma word_end mm : good_region mm → base_va mm .+ size mm .- 1 = base_va mm + size mm - 1.
Proof.
  intros G. pose proof (gr_va _ G). pose proof (gr_size _ G). pose proof (gr_end _ G).
  rewrite (u64_small (base_va mm + size mm)) by (unfold is_u64; lia). apply u64_small. unfold is_u64. lia.
Qed.

Lemma bsize_bound l : -1 <= l <= 3 → 4096 <= bsize l <= 2 ^ 48.
Proof.
  intros. unfold bsize. split.
  - change 4096 with (2 ^ 12). apply Z.pow_le_mono_r; lia.
  - apply Z.pow_le_mono_r; lia.
Qed.

Lemma space_bound va : in_space L0 va → 0 <= va < 2 ^ 57.
Proof using L0_range.
  unfold in_space, bsize. intros Hva. pose proof (Z.pow_le_mono_r 2 (39 - 9 * (L0 - 1)) 57). lia.
Qed.

Lemma word_block va l :
  -1 <= l <= 3 → in_space L0 va →
  va .+ XLAT_BLOCK_SIZE l .- 1 = va + bsize l - 1 ∧ va .+ XLAT_BLOCK_SIZE l = va + bsize l.
Proof using L0_range.
  intros Hl Hva. pose proof (space_bound va Hva). pose proof (bsize_bound l Hl). rewrite BLOCK_SIZE_eq by done.
  rewrite (u64_small (va + bsize l)) by (unfold is_u64; lia). split; [|done].
  apply u64_small. unfold is_u64. lia.
Qed.

Section entry.
Context (mm : xlat_mmap_region) (G : good_region mm).
Local Abbreviation end_ := (base_va mm + size mm).

Definition covered (va l : Z) : bool := (base_va mm <=? va) && (va + bsize l <=? end_).

(** An entry can hold a block. *)
Definition block_ok (pa l : Z) : bool :=
  (l =? 3) || (pa mod bsize l =? 0) && (XLAT_MIN_BLOCK_LVL <=? l) && (bsize l <=? granularity mm).

Lemma action_table pa va l :
  -1 <= l < 3 → in_space L0 va → va < end_ → base_va mm < va + bsize l →
  xlat_tables_map_region_action mm 3 pa va l = Ok ACTION_RECURSE_INTO_TABLE.
Proof using L0_range G.
  intros Hl Hva Hlt Hgt. unfold xlat_tables_map_region_action.
  rewrite (word_end mm G), (proj1 (word_block va l ltac:(lia) Hva)). cbv zeta.
  replace (l =? 3) with false by lia. replace (3 <=? l) with false by lia. change (3 =? TABLE_DESC) with true.
  replace (base_va mm <=? va + bsize l - 1) with true by lia. by destruct (_ && _).
Qed.

Lemma action_zero pa va l :
  -1 <= l <= 3 → in_space L0 va → va < end_ → base_va mm < va + bsize l → (l = 3 → covered va l = true) →
  xlat_tables_map_region_action mm 0 pa va l =
    Ok (if covered va l && block_ok pa l then ACTION_WRITE_BLOCK_ENTRY else ACTION_CREATE_NEW_TABLE).
Proof using L0_range G.
  intros Hl Hva Hlt Hgt Hc. unfold xlat_tables_map_region_action.
  rewrite (word_end mm G), (proj1 (word_block va l Hl Hva)). cbv zeta.
  replace (va + bsize l - 1 <=? end_ - 1) with (va + bsize l <=? end_) by lia.
  fold (covered va l). rewrite BLOCK_SIZE_eq, block_mask_mod by done.
  replace (base_va mm <=? va + bsize l - 1) with true by lia. unfold block_ok.
  change (0 =? PAGE_DESC) with false. change (0 =? INVALID_DESC) with true. change (0 =? TABLE_DESC) with false.
  cbn [negb orb]. destruct (covered va l); cbn [andb].
  - destruct (Z.eqb_spec l 3); [done|]. cbn [orb].
    destruct (pa mod bsize l =? 0), (Z.ltb_spec l XLAT_MIN_BLOCK_LVL), (Z.leb_spec XLAT_MIN_BLOCK_LVL l),
      (Z.ltb_spec (granularity mm) (bsize l)), (Z.leb_spec (bsize l) (granularity mm)); done || lia.
  - destruct (Z.leb_spec 3 l); [|done]. by specialize (Hc ltac:(lia)).
Qed.

(** At level 3 an entry is inside the region or outside of it. *)
Lemma covered_page va : va mod 4096 = 0 → va < end_ → base_va mm < va + 4096 → covered va 3 = true.
Proof using G.
  intros Hva Hlt Hgt. unfold covered. change (bsize 3) with 4096.
  pose proof (gr_va mm G). pose proof (gr_size mm G).
  assert (base_va mm <= va ∧ va + 4096 <= end_); [|lia]. euclid.
Qed.

(** The part of the block of [va] that the region covers. *)
Definition part_lo (va : Z) : Z := Z.max (base_va mm) va.
Definition part_hi (va sz : Z) : Z := Z.min end_ (va + sz).

(** The call for the subtable of the entry of [va] at depth [n] maps the part of the region. *)
Definition rec_ok (recurse : Z → Z → M xlat_state Z) (n : nat) : Prop :=
  let l := L0 + Z.of_nat n in
  ∀ s va k, let a := part_lo va in let b := part_hi va (bsize l) in
  tree L0 s → in_space L0 va → va mod bsize l = 0 → table_at L0 s (S n) va = Some k → a < b →
  (∀ v, a <= v < b → s1_view L0 s v = None) →
  next_table (tbls s) + tables_need (l + 1) a b <= tables_num (tbls s) →
  ∃ s', recurse va (taddr s k) s = Ok (b - 1, s') ∧ mapped_from mm s s' a b (tables_need (l + 1) a b).

Definition entry_need (l a b : Z) : Z := if l <? 3 then 1 + tables_need (l + 1) a b else 0.

Lemma part_space va v sz : in_space L0 va → part_lo va <= v < part_hi va sz → in_space L0 v.
Proof using G.
  unfold in_space, part_lo, part_hi. intros Hva Hv. pose proof (gr_space mm G). lia.
Qed.

Lemma part_block va v l :
  -1 <= l <= 3 → va mod bsize l = 0 → va <= v < va + bsize l → v / bsize l = va / bsize l ∧ v / bsize l * bsize l = va.
Proof using Type.
  intros Hl Hm Hv. pose proof (bsize_bound l Hl). apply Z.mod_divide in Hm as [q ->]; [|lia].
  rewrite <- (Z.div_unique_pos v (bsize l) q (v - q * bsize l)) by lia. by rewrite Z.div_mul by lia.
Qed.

Section one.
Context (s : xlat_state) (n : nat) (va k : Z).
Local Abbreviation l := (L0 + Z.of_nat n).
Local Abbreviation a := (part_lo va).
Local Abbreviation b := (part_hi va (bsize l)).
Local Abbreviation d0 := (ent s k (idx va l)).
Context (T : tree L0 s) (Hva : in_space L0 va) (Hmod : va mod bsize l = 0)
  (Hr : table_at L0 s n va = Some k) (Hab : a < b) (Hnone : ∀ v, a <= v < b → s1_view L0 s v = None).

Lemma entry_level : -1 <= l <= 3.
Proof using Hr L0_range. pose proof (reach_level L0 L0_range s n va k Hr). lia. Qed.

Lemma entry_zero : is_table d0 = false ∨ l = 3 → d0 = 0.
Proof using All.
  intros Ht. pose proof entry_level as Hl. pose proof (bsize_bound l Hl).
  destruct (part_block va a l Hl Hmod) as [Hb _]; [unfold part_lo, part_hi in *; lia|].
  assert (Hlf : walk_ends L0 s a n k d0).
  { split; [|split; [|split; [lia|done]]].
    - rewrite <- Hr. apply reach_block; [lia|]. apply same_block_up; [lia|done].
    - unfold idx. by rewrite Hb. }
  pose proof (Hnone a ltac:(lia)) as Hv. rewrite (view_leaf L0 L0_range _ _ _ _ _ Hlf) in Hv.
  destruct (Z.eqb_spec d0 0); [done|discriminate].
Qed.

(** A block or page is written. *)
Lemma entry_write :
  d0 = 0 → covered va l = true → block_ok (base_pa mm .+ va .- base_va mm) l = true →
  ∃ d s', xlat_desc (attr mm) (base_pa mm .+ va .- base_va mm) l = Ok d ∧
    tt_set (taddr s k) (idx va l) d s = Ok ((), s') ∧ b = va + bsize l ∧ mapped_from mm s s' a b 0.
Proof using All.
  intros Hd0 Hc Hb. pose proof entry_level as Hl. pose proof (bsize_bound l Hl) as Hbs.
  pose proof (reach_range L0 s n va k T Hva Hr) as Hk. pose proof (tree_next L0 s T).
  unfold covered in Hc. apply andb_prop in Hc as [Hc1%Z.leb_le Hc2%Z.leb_le].
  pose proof (gr_pa mm G). pose proof (gr_pa_end mm G). pose proof (gr_va mm G). pose proof (gr_size mm G).
  pose proof (space_bound va Hva).
  assert (Epa : base_pa mm .+ va .- base_va mm = base_pa mm + (va - base_va mm)).
  { rewrite (u64_small (base_pa mm + va)) by (unfold is_u64; lia). rewrite u64_small by (unfold is_u64; lia). lia. }
  rewrite Epa in *. assert (Hal : (base_pa mm + (va - base_va mm)) mod bsize l = 0).
  { unfold block_ok in Hb. destruct (Z.eqb_spec l 3) as [E|E].
    - rewrite E in *. change (bsize 3) with 4096 in *. euclid.
    - cbn [orb] in Hb. apply andb_prop in Hb as [[?%Z.eqb_eq _]%andb_prop _]. done. }
  destruct (xlat_desc_total (attr mm) _ l (gr_type mm G) Hl Hal) as (d & Hd & Hd' & Hnt & _).
  exists d, (put s k (idx va l) d). split; [done|]. split.
  { apply tt_set_run; [apply T|lia|apply idx_range]. }
  assert (Ea : a = va) by (unfold part_lo; lia). assert (Eb : b = va + bsize l) by (unfold part_hi; lia).
  split; [done|]. rewrite Ea, Eb.
  assert (Hnew : is_table d = false ∨ l = 3) by (destruct (decide (l = 3)); [by right|left; apply Hnt; lia]).
  assert (Hold : is_table d0 = false ∨ l = 3) by (left; by rewrite Hd0).
  split.
  - by apply put_leaf_tree.
  - by destruct s as [[]].
  - done.
  - cbn. lia.
  - intros m v j Hv Hj. by rewrite put_leaf_reach.
  - intros v Hv Hn. rewrite put_leaf_view, decide_False; try done. intros E.
    apply Hn. pose proof (Z.mul_div_le v (bsize l)). pose proof (Z.mul_succ_div_gt v (bsize l)).
    rewrite E in *. apply Z.mod_divide in Hmod as [q Hq]; [|lia]. rewrite Hq, Z.div_mul in * by lia. lia.
  - intros v Hv. destruct (part_block va v l Hl Hmod Hv) as [E1 E2].
    exists d, l. split.
    + rewrite put_leaf_view, decide_True; try done; [by rewrite (proj2 (Z.eqb_neq d 0))|].
      apply (part_space va v (bsize l) Hva). by rewrite Ea, Eb.
    + unfold region_entry. rewrite E2. split_and!; try done; try lia.
      unfold block_ok in Hb. destruct (Z.eqb_spec l 3); [by left|]. right.
      cbn [orb] in Hb. by apply andb_prop in Hb as [[_ ?%Z.leb_le]%andb_prop ?%Z.leb_le].
Qed.

(** The subtable is entered. *)
Lemma entry_recurse recurse :
  rec_ok recurse n → is_table d0 = true → l < 3 →
  next_table (tbls s) + tables_need (l + 1) a b <= tables_num (tbls s) →
  ∃ s', recurse va (xlat_get_oa_from_tte d0) s = Ok (b - 1, s') ∧ mapped_from mm s s' a b (tables_need (l + 1) a b).
Proof using All.
  intros Hrec Ht Hl Hn. destruct (tree_table L0 s T n va k Hva Hr Hl Ht) as (j & Hj & E).
  pose proof (tree_next L0 s T). rewrite E, (oa_taddr L0) by (done || lia).
  apply Hrec; try done. rewrite reach_S, Hr. cbv zeta. rewrite Ht.
  replace (l <? 3) with true by lia. cbn [andb]. f_equal. rewrite E. apply (tnum_taddr L0); [done|lia].
Qed.

Local Abbreviation new := (next_table (tbls s)).

(** A new table is made and entered. *)
Lemma entry_create recurse :
  rec_ok recurse n → d0 = 0 → l < 3 →
  next_table (tbls s) + (1 + tables_need (l + 1) a b) <= tables_num (tbls s) →
  ∃ t s1 s2 s', xlat_table_get_empty s = Ok (t, s1) ∧ t ≠ 0 ∧
    tt_set (taddr s k) (idx va l) (TABLE_DESC .| t) s1 = Ok ((), s2) ∧
    recurse va t s2 = Ok (b - 1, s') ∧ mapped_from mm s s' a b (1 + tables_need (l + 1) a b).
Proof using All.
  intros Hrec Hd0 Hl Hn. pose proof (tree_next L0 s T) as Hnx. pose proof (tree_num L0 s T).
  pose proof (tree_base L0 s T). pose proof (need_nonneg (Z.to_nat (3 - (l + 1))) (l + 1) a b ltac:(lia) ltac:(lia)) as Hnn.
  fold (tables_need (l + 1) a b) in Hnn.
  pose proof (reach_range L0 s n va k T Hva Hr) as Hk.
  exists (taddr s new), (set_tbls (set_next_table (new + 1) (tbls s)) s),
    (put (set_tbls (set_next_table (new + 1) (tbls s)) s) k (idx va l) (taddr s new + 3)).
  assert (T2 : tree L0 (put (set_tbls (set_next_table (new + 1) (tbls s)) s) k (idx va l) (taddr s new + 3)))
    by (by apply (put_table_tree L0 s va n k); try done; lia).
  destruct (Hrec _ va new T2 Hva Hmod) as (s' & Hrun & Hm); try done.
  { rewrite put_table_reach, decide_True by (done || lia). done. }
  { intros v Hv. rewrite put_table_view by (done || lia || by apply (part_space va v (bsize l))).
    by apply Hnone. }
  { cbn. lia. }
  exists s'. split_and!.
  - unfold xlat_table_get_empty. rewrite gets_bind.
    assert (Hlt : (new <? tables_num (tbls s)) = true) by lia. run_step (massert_run _ s Hlt).
    rewrite mmodify_bind. unfold u32. rewrite Z.mod_small by lia.
    change XLAT_TABLE_ENTRIES with 512. rewrite (u64_small (512 * new)) by (unfold is_u64; lia).
    unfold mret, M_ret. do 2 f_equal. unfold taddr. lia.
  - unfold taddr. lia.
  - rewrite table_desc by by apply (taddr_aligned L0). 
    apply (tt_set_run (set_tbls (set_next_table (new + 1) (tbls s)) s)); [apply T|cbn; lia|apply idx_range].
  - done.
  - destruct Hm as [M1 M2 M3 M4 M5 M6 M7]. split; try done.
    + cbn in M4. lia.
    + intros m v j Hv Hj. apply M5; [done|]. rewrite put_table_reach by (done || lia).
      destruct (decide _) as [[-> E]|]; [|done]. exfalso.
      destruct (reach_old_none L0 s va n k Hr Hd0 Hl v Hv E) as [_ ?]. congruence.
    + intros v Hv Hnv. rewrite M6, put_table_view by (done || lia). done.
Qed.

(** The whole iteration. *)
Lemma entry_spec recurse :
  rec_ok recurse n → next_table (tbls s) + entry_need l a b <= tables_num (tbls s) →
  ∃ s', map_region_entry recurse mm (taddr s k) l (idx va l) va s =
      Ok (if b =? va + bsize l then None else Some (b - 1), s') ∧ mapped_from mm s s' a b (entry_need l a b).
Proof using All.
  intros Hrec Hn. pose proof entry_level as Hl. pose proof (bsize_bound l Hl) as Hbs.
  pose proof (reach_range L0 s n va k T Hva Hr) as Hk. pose proof (tree_next L0 s T).
  assert (Hin : va < end_ ∧ base_va mm < va + bsize l) by (unfold part_lo, part_hi in Hab; lia).
  unfold map_region_entry. run_step (tt_get_run L0 s k (idx va l) T ltac:(lia) (idx_range va l)).
  rewrite (proj1 (word_block va l Hl Hva)).
  assert (Hearly : (if negb (b - 1 =? va + bsize l - 1) then Some (b - 1) else None) =
    if b =? va + bsize l then None else Some (b - 1)).
  { destruct (Z.eqb_spec b (va + bsize l)), (Z.eqb_spec (b - 1) (va + bsize l - 1)); done || lia. }
  unfold entry_need in *. destruct (is_table d0) eqn:Ht, (Z.ltb_spec l 3) as [Hl3|Hl3].
  1: { assert (Et : u32 (d0 .& DESC_MASK) = 3) by (unfold is_table in Ht; by apply Z.eqb_eq in Ht as ->).
    rewrite Et. run_step (lift_run _ _ s (action_table (base_pa mm .+ va .- base_va mm) va l
      ltac:(lia) Hva (proj1 Hin) (proj2 Hin))).
    destruct (entry_recurse recurse Hrec Ht Hl3 ltac:(lia)) as (s' & Hrun & Hm).
    run_step Hrun. exists s'. rewrite Hearly. split; [done|]. by eapply mapped_weaken; [|exact Hm]; lia. }
  all: assert (Hd0 : d0 = 0) by (apply entry_zero; first [by left | right; lia]).
  all: rewrite Hd0; change (u32 (0 .& DESC_MASK)) with 0.
  all: assert (Hc3 : l = 3 → covered va l = true)
    by (intros E; rewrite E in *; apply covered_page; [done|..]; change (bsize 3) with 4096 in *; tauto || lia).
  all: run_step (lift_run _ _ s (action_zero (base_pa mm .+ va .- base_va mm) va l
      Hl Hva (proj1 Hin) (proj2 Hin) Hc3)).
  all: destruct (covered va l && block_ok (base_pa mm .+ va .- base_va mm) l) eqn:Hw.
  all: try (apply andb_prop in Hw as [Hw1 Hw2]; destruct (entry_write Hd0 Hw1 Hw2) as (d & s' & Hd & Hset & Eb & Hm);
    run_step (lift_run _ _ s Hd); run_step Hset; exists s'; rewrite Eb, Z.eqb_refl; split; [done|];
    rewrite Eb in Hm; eapply mapped_weaken; [|exact Hm]; try lia).
  all: try (exfalso; rewrite Hc3 in Hw by lia; unfold block_ok in Hw; by replace (l =? 3) with true in Hw by lia).
  - rewrite <- Eb. pose proof (need_nonneg (Z.to_nat (3 - (l + 1))) (l + 1) a b ltac:(lia) ltac:(lia)).
    unfold tables_need. lia.
  - destruct (entry_create recurse Hrec Hd0 Hl3 ltac:(lia)) as (t & s1 & s2 & s' & He & Htz & Hset & Hrun & Hm).
    run_step He. rewrite (proj2 (Z.eqb_neq t 0) Htz). rewrite ret_bind. run_step Hset. run_step Hrun.
    exists s'. rewrite Hearly. done.
Qed.
End one.

(** ** The loop over the entries of a table *)

Lemma tables_need_entry va l a b :
  -1 <= l <= 3 → va mod bsize l = 0 → va <= a → a < b → b <= va + bsize l →
  tables_need l a b = entry_need l a b.
Proof using Type.
  intros Hl Hva Ha Hab Hb. unfold tables_need at 1, entry_need. destruct (Z.ltb_spec l 3).
  - replace (Z.to_nat (3 - l)) with (S (Z.to_nat (3 - (l + 1)))) by lia. cbn [need].
    rewrite (nblk_one l va) by (done || lia). done.
  - by replace (Z.to_nat (3 - l)) with 0%nat by lia.
Qed.

Lemma tables_need_split l a b c :
  -1 <= l <= 3 → b mod bsize l = 0 → tables_need l a c = tables_need l a b + tables_need l b c.
Proof using Type. intros Hl Hb. apply need_split; [lia|done]. Qed.

Lemma tables_need_nonneg l a b : -1 <= l <= 3 → a <= b → 0 <= tables_need l a b.
Proof using Type. intros. apply need_nonneg; lia. Qed.

Lemma idx_entry tb i l :
  -1 <= l <= 3 → tb mod bsize (l - 1) = 0 → 0 <= i < 512 → idx (tb + i * bsize l) l = i.
Proof using Type.
  intros Hl Htb Hi. pose proof (bsize_bound l Hl). rewrite bsize_up in Htb by lia.
  apply Z.mod_divide in Htb as [q ->]; [|lia]. unfold idx.
  replace (q * (512 * bsize l) + i * bsize l) with ((i + q * 512) * bsize l) by ring.
  rewrite Z.div_mul by lia. rewrite Z.mod_add by lia. by apply Z.mod_small.
Qed.

Lemma pages_apart a b c d :
  a mod 4096 = 0 → b mod 4096 = 0 → c mod 4096 = 0 → d mod 4096 = 0 → a + b - 1 <= c + d → a + b <= c + d.
Proof using Type. intros. euclid. Qed.

Section loop.
Context (recurse : Z → Z → M xlat_state Z) (n : nat) (tb k entries : Z).
Local Abbreviation l := (L0 + Z.of_nat n).
Local Abbreviation hi := (part_hi tb (entries * bsize l)).
Context (Hrec : rec_ok recurse n) (Htb : in_space L0 tb) (Htbm : tb mod bsize (l - 1) = 0)
  (Hent : entries <= 512).

(** The entry [i] of the table: its address, and the part of the region that it maps. *)
Section step.
Context (s : xlat_state) (i : Z).
Local Abbreviation va := (tb + i * bsize l).
Local Abbreviation b := (part_hi va (bsize l)).
Context (T : tree L0 s) (Hr : table_at L0 s n tb = Some k) (Hi : 0 <= i < entries)
  (Hlt : part_lo va < hi) (Hbase : base_va mm < va + bsize l)
  (Hnone : ∀ v, part_lo va <= v < hi → s1_view L0 s v = None)
  (Hn : next_table (tbls s) + tables_need l (part_lo va) hi <= tables_num (tbls s)).

Lemma step_level : -1 <= l <= 3.
Proof using Hr L0_range. pose proof (reach_level L0 L0_range s n tb k Hr). lia. Qed.

Lemma step_block :
  va mod bsize l = 0 ∧ in_space L0 va ∧ va + bsize l <= tb + entries * bsize l ∧ table_at L0 s n va = Some k.
Proof using G Htb Htbm Hent Hr Hi Hlt L0_range.
  pose proof step_level as Hl. pose proof (bsize_bound l Hl) as Hbs. pose proof (gr_space mm G). split_and!.
  - rewrite Z.mod_add by lia. apply (mod_down tb (l - 1)); [lia|lia|done].
  - unfold in_space, part_lo, part_hi in *. split; [nia|lia].
  - unfold in_space, part_lo, part_hi in *. nia.
  - rewrite <- Hr. apply reach_block; [lia|]. rewrite bsize_up in * by lia.
    apply Z.mod_divide in Htbm as [q Hq]; [|lia]. rewrite Hq.
    rewrite Z.div_mul by lia. rewrite <- (Z.div_unique_pos _ _ q (i * bsize l)); [done|nia|ring].
Qed.

(** The part ends where the region ends in the table, or where the block ends. *)
Lemma step_part :
  part_lo va < b ∧ b <= hi ∧ b <= va + bsize l ∧ (b = hi ∨ b = va + bsize l ∧ va + bsize l < end_).
Proof using G Htb Htbm Hent Hr Hi Hlt Hbase L0_range.
  destruct step_block as (_ & _ & Hblk & _). pose proof (bsize_bound l step_level). unfold part_lo, part_hi in *. lia.
Qed.

Lemma step_end_mod : (va + bsize l) mod bsize l = 0.
Proof using G Htb Htbm Hent Hr Hi Hlt L0_range.
  destruct step_block as (Hvm & _). pose proof (bsize_bound l step_level).
  rewrite <- (Z.mul_1_l (bsize l)) at 2. by rewrite Z.mod_add by lia.
Qed.

(** A block that the region leaves at its end is the last one. *)
Lemma step_last : b = va + bsize l → end_ - 1 <= va + bsize l → hi = va + bsize l.
Proof using G Htb Htbm Hent Hr Hi Hlt Hbase L0_range.
  intros Eb Hend. pose proof step_level as Hl. destruct step_block as (Hvm & _).
  destruct step_part as (_ & _ & _ & [<-|[_ Hlt']]); [done|]. exfalso.
  pose proof (gr_va mm G). pose proof (gr_size mm G). pose proof (mod_down va l 3 ltac:(lia) ltac:(lia) Hvm).
  pose proof (mod_down (bsize l) l 3 ltac:(lia) ltac:(lia) (Z.mod_same (bsize l) ltac:(pose proof (bsize_bound l Hl); lia))).
  change (bsize 3) with 4096 in *. assert (end_ <= va + bsize l); [|lia]. apply pages_apart; tauto.
Qed.

Lemma step_run :
  ∃ s1, map_region_entry recurse mm (taddr s k) l i va s =
      Ok (if b =? va + bsize l then None else Some (b - 1), s1) ∧
    mapped_from mm s s1 (part_lo va) b (tables_need l (part_lo va) b).
Proof using All.
  pose proof step_level as Hl. destruct step_block as (Hvm & Hva & _ & Hrv).
  destruct step_part as (Hb1 & Hb2 & Hb3 & Hcase).
  pose proof (tables_need_entry va l (part_lo va) b Hl Hvm ltac:(unfold part_lo; lia) ltac:(lia) ltac:(lia)) as Hne.
  assert (Hneed : tables_need l (part_lo va) b <= tables_need l (part_lo va) hi).
  { destruct Hcase as [->|[Eb _]]; [lia|]. rewrite (tables_need_split l _ b hi) by (done || rewrite Eb; apply step_end_mod).
    pose proof (tables_need_nonneg l b hi Hl). lia. }
  destruct (entry_spec s n va k T Hva Hvm Hrv Hb1 ltac:(intros; apply Hnone; lia) recurse Hrec ltac:(lia)) as (s1 & Hrun & Hm1).
  rewrite <- Hne in Hm1. rewrite (idx_entry tb i l Hl Htbm ltac:(lia)) in Hrun. by exists s1.
Qed.
End step.

Lemma loop_spec m s i :
  let va := tb + i * bsize l in
  tree L0 s → table_at L0 s n tb = Some k → 0 <= i < entries → entries - i < Z.of_nat m →
  part_lo va < hi → base_va mm < va + bsize l →
  (∀ v, part_lo va <= v < hi → s1_view L0 s v = None) →
  next_table (tbls s) + tables_need l (part_lo va) hi <= tables_num (tbls s) →
  ∃ s', map_region_loop m recurse mm (taddr s k) entries l (end_ - 1) i va s = Ok (hi - 1, s') ∧
    mapped_from mm s s' (part_lo va) hi (tables_need l (part_lo va) hi).
Proof using All.
  revert s i. induction m as [|m IH]; intros s i va T Hr Hi Hm Hlt Hbase Hnone Hn; [lia|].
  pose proof (step_level s Hr) as Hl. destruct (step_block s i Hr Hi Hlt) as (_ & Hva & Hblk & _).
  destruct (step_part s i Hr Hi Hlt Hbase) as (Hb1 & Hb2 & Hb3 & Hcase).
  pose proof (step_last s i Hr Hi Hlt Hbase) as Hend. pose proof (step_end_mod s i Hr Hi Hlt) as Hbm.
  destruct (step_run s i T Hr Hi Hlt Hbase Hnone Hn) as (s1 & Hrun & Hm1).
  fold va in Hva, Hblk, Hb1, Hb2, Hb3, Hcase, Hend, Hbm, Hrun, Hm1. set (b := part_hi va (bsize l)) in *.
  pose proof (space_bound va Hva). pose proof (bsize_bound l Hl). pose proof (gr_va mm G). pose proof (gr_space mm G).
  cbn [map_region_loop]. replace (i <? entries) with true by lia. cbn [negb].
  rewrite (bind_run _ _ _ _ _ Hrun). cbv beta iota.
  destruct (Z.eqb_spec b (va + bsize l)) as [Eb|Eb]; [|destruct Hcase as [<-|[? _]]; [by exists s1|lia]].
  rewrite (proj2 (word_block va l Hl Hva)).
  assert (Eret : va + bsize l .- 1 = b - 1) by (rewrite u64_small by (unfold is_u64; lia); lia).
  destruct (Z.leb_spec (end_ - 1) (va + bsize l)) as [He|He].
  { exists s1. unfold mret, M_ret. rewrite Eret, (Hend Eb He), <- Eb. by split. }
  destruct (decide (i + 1 = entries)) as [Hlast|Hlast].
  { assert (Eh : hi = b) by (rewrite Eb; unfold part_hi; unfold va in *; nia). destruct m as [|m']; [lia|].
    cbn [map_region_loop]. unfold u32. rewrite Z.mod_small by lia. replace (i + 1 <? entries) with false by lia.
    exists s1. cbn [negb]. unfold mret, M_ret. rewrite Eret, Eh. by split. }
  assert (Enext : va + bsize l = tb + (i + 1) * bsize l) by (unfold va; ring).
  assert (Elo : part_lo (tb + (i + 1) * bsize l) = b) by (unfold part_lo; lia). rewrite <- Eb in Hbm.
  pose proof (tables_need_split l (part_lo va) b hi Hl Hbm) as Hsp.
  pose proof (mapped_tbls _ _ _ _ _ _ Hm1) as Htbls. pose proof (mapped_next _ _ _ _ _ _ Hm1).
  assert (Hnum : tables_num (tbls s1) = tables_num (tbls s)) by by rewrite Htbls.
  assert (Hta : taddr s1 k = taddr s k) by (unfold taddr; by rewrite Htbls).
  destruct (IH s1 (i + 1)) as (s2 & Hrun2 & Hm2); rewrite ?Elo, ?Hnum; try lia.
  - apply Hm1.
  - by apply (mapped_reach _ _ _ _ _ _ Hm1).
  - unfold part_hi in *. unfold va in *. nia.
  - intros v Hv. rewrite (mapped_other _ _ _ _ _ _ Hm1); [apply Hnone; lia|unfold in_space, part_hi in *; lia|lia].
  - exists s2. rewrite Elo in Hm2. unfold u32. rewrite Z.mod_small, Enext, <- Hta by lia. split; [done|].
    rewrite Hsp. apply (mapped_trans mm s s1 s2 _ b); [|lia|done|done].
    intros v Hv. unfold in_space, part_lo, part_hi in *. lia.
Qed.
End loop.

(** ** A table *)

Lemma find_start tb l :
  -1 <= l <= 3 → 0 <= tb → tb mod bsize l = 0 → tb < end_ → 0 <= base_va mm →
  let va := xlat_tables_find_start_va mm tb l in
  tb <= va ∧ va mod bsize l = 0 ∧ part_lo va = part_lo tb ∧ va < end_ ∧ base_va mm < va + bsize l ∧
  va = (if tb <? base_va mm then base_va mm / bsize l * bsize l else tb).
Proof using G.
  intros Hl Htb Hm Hlt Hb va. pose proof (bsize_bound l Hl) as Hbs. pose proof (gr_end mm G).
  pose proof (gr_size mm G). unfold va, xlat_tables_find_start_va.
  destruct (Z.ltb_spec tb (base_va mm)) as [Hc|Hc]; [|unfold part_lo; split_and!; done || lia].
  assert (E : base_va mm .& (.~ XLAT_BLOCK_MASK l) = base_va mm / bsize l * bsize l).
  { unfold XLAT_BLOCK_MASK. rewrite BLOCK_SIZE_eq by done. rewrite land_not64 by (unfold is_u64; lia).
    rewrite (u64_small (bsize l - 1)) by (unfold is_u64; lia). unfold bsize.
    replace (2 ^ (39 - 9 * l) - 1) with (Z.ones (39 - 9 * l)) by (rewrite Z.ones_equiv; lia).
    rewrite Z.ldiff_ones_r, Z.shiftr_div_pow2, Z.shiftl_mul_pow2 by lia. done. }
  rewrite E. pose proof (Z.mul_div_le (base_va mm) (bsize l)). pose proof (Z.mul_succ_div_gt (base_va mm) (bsize l)).
  assert (tb <= base_va mm / bsize l * bsize l).
  { apply Z.mod_divide in Hm as [q ->]; [|lia]. pose proof (Z.div_le_mono (q * bsize l) (base_va mm) (bsize l)).
    rewrite Z.div_mul in * by lia. nia. }
  split_and!; try done; try lia; [by rewrite Z.mod_mul by lia|unfold part_lo; lia].
Qed.

Context (cfg : xlat_ctx_cfg) (Hcfg : base_level cfg = L0) (Hmin : XLAT_TABLE_LEVEL_MIN <= L0).

Lemma sub_entries l : L0 <= l → XLAT_GET_TABLE_ENTRIES (l + 1) = 512.
Proof using Hmin.
  intros Hl. unfold XLAT_GET_TABLE_ENTRIES. by replace (l + 1 =? XLAT_TABLE_LEVEL_MIN) with false by lia.
Qed.

(** Enough tables being free, the part of the region that a table covers is mapped, and the
    last address is returned. *)
Lemma map_region_spec fuel s n tb k entries :
  let l := L0 + Z.of_nat n in let a := part_lo tb in let b := part_hi tb (entries * bsize l) in
  3 - l < Z.of_nat fuel → tree L0 s → in_space L0 tb → tb mod bsize (l - 1) = 0 →
  table_at L0 s n tb = Some k → entries <= XLAT_GET_TABLE_ENTRIES l → a < b →
  (∀ v, a <= v < b → s1_view L0 s v = None) →
  next_table (tbls s) + tables_need l a b <= tables_num (tbls s) →
  ∃ s', xlat_tables_map_region fuel cfg mm tb (taddr s k) entries l s = Ok (b - 1, s') ∧
    mapped_from mm s s' a b (tables_need l a b).
Proof using All.
  cbv zeta. revert s n tb k entries. induction fuel as [|fuel IH]; intros s n tb k entries Hf T Htb Hm Hr He Hab Hnone Hn.
  { pose proof (reach_level L0 L0_range s n tb k Hr). lia. }
  pose proof (reach_level L0 L0_range s n tb k Hr) as Hle. set (l := L0 + Z.of_nat n) in *.
  assert (Hl : -1 <= l <= 3) by lia. pose proof (bsize_bound l Hl) as Hbs.
  pose proof (gr_va mm G). pose proof (space_bound tb Htb).
  assert (He512 : entries <= 512) by (unfold XLAT_GET_TABLE_ENTRIES in He; case_match; [change XLAT_LM1_TABLE_ENTRIES with 16 in He; lia|done]).
  cbn [xlat_tables_map_region]. rewrite Hcfg.
  assert (Hlv : (L0 <=? l) && (l <=? XLAT_TABLE_LEVEL_MAX) = true) by (unfold XLAT_TABLE_LEVEL_MAX; lia).
  run_step (massert_run _ s Hlv). run_step (massert_run _ s (proj2 (Z.leb_le _ _) He)). rewrite (word_end mm G).
  assert (Hml : tb mod bsize l = 0) by (apply (mod_down tb (l - 1)); [lia|lia|done]).
  assert (Htend : tb < end_) by (unfold part_lo, part_hi in Hab; lia).
  destruct (find_start tb l Hl ltac:(lia) Hml Htend ltac:(lia)) as (Hs1 & Hs2 & Hs3 & Hs4 & Hs5 & Hs6).
  set (va := xlat_tables_find_start_va mm tb l) in *.
  assert (Hdv : ∃ i, va = tb + i * bsize l ∧ 0 <= i).
  { apply Z.mod_divide in Hs2 as [q2 E2]; [|lia]. apply Z.mod_divide in Hml as [q1 E1]; [|lia].
    exists (q2 - q1). split; [rewrite E1, E2; ring|nia]. }
  destruct Hdv as (i & Ei & Hi0).
  assert (Hi : i < entries).
  { unfold part_lo, part_hi in Hab. assert (va < tb + entries * bsize l) by (rewrite Hs6; case_match; [
      pose proof (Z.mul_div_le (base_va mm) (bsize l)); lia|lia]). nia. }
  assert (Hidx : xlat_tables_va_to_index tb va l = i).
  { unfold xlat_tables_va_to_index. rewrite u64_small by (unfold is_u64; pose proof (gr_end mm G); lia).
    rewrite ADDR_SHIFT_eq, Z.shiftr_div_pow2 by lia. fold (bsize l). replace (va - tb) with (i * bsize l) by lia.
    rewrite Z.div_mul by lia. unfold u32. apply Z.mod_small. lia. }
  rewrite Hidx.
  assert (Hrec : rec_ok (λ va0 subtable, xlat_tables_map_region fuel cfg mm va0 subtable XLAT_TABLE_ENTRIES (l + 1)) n).
  { intros s1 va1 k1 a1 b1 T1 Hva1 Hm1 Hr1 Hab1 Hnone1 Hn1.
    pose proof (reach_level L0 L0_range s1 (S n) va1 k1 Hr1) as Hle1.
    assert (El : L0 + Z.of_nat (S n) = l + 1) by lia.
    assert (Esz : 512 * bsize (l + 1) = bsize l).
    { replace l with (l + 1 - 1) at 2 by lia. by rewrite bsize_up by lia. }
    specialize (IH s1 (S n) va1 k1 512). rewrite El, Esz in IH.
    replace (l + 1 - 1) with l in IH by lia. change XLAT_TABLE_ENTRIES with 512.
    apply IH; try done; [lia|]. by rewrite sub_entries by lia. }
  destruct (loop_spec _ n tb k entries Hrec Htb Hm He512 (S (Z.to_nat entries)) s i) as (s' & Hrun & Hmap);
    fold l; rewrite <- ?Ei, ?Hs3; try done; try lia.
  fold l in Hrun, Hmap. rewrite <- Ei in Hrun, Hmap. rewrite Hs3 in Hmap.
  by exists s'.
Qed.
End entry.
End map.

Section validate.
Context {CF : Config} {CPU : Cpu}.

(** * Validation *)

(** The members of a region are 64 bits wide. *)
Definition region_words (mm : xlat_mmap_region) : Prop :=
  is_u64 (base_pa mm) ∧ is_u64 (base_va mm) ∧ is_u64 (size mm).

(** A region as the tables see it: in the high half the addresses are offsets. *)
Definition in_ctx (reg base : Z) (mm : xlat_mmap_region) : xlat_mmap_region :=
  if reg =? VA_LOW_REGION then mm else set_base_va (base_va mm - base) mm.

Record checked (va_size max_pa : Z) (mm : xlat_mmap_region) : Prop := {
  ck_va : 0 <= base_va mm ∧ base_va mm mod 4096 = 0;
  ck_size : 0 < size mm ∧ size mm mod 4096 = 0;
  ck_end : base_va mm + size mm <= va_size;
  ck_pa : 0 <= base_pa mm ∧ base_pa mm mod 4096 = 0;
  ck_pa_end : base_pa mm + size mm - 1 <= max_pa;
  ck_gran : granularity mm = XLAT_BLOCK_SIZE 0 ∨ granularity mm = XLAT_BLOCK_SIZE 1 ∨
    granularity mm = XLAT_BLOCK_SIZE 2 ∨ granularity mm = XLAT_BLOCK_SIZE 3;
}.

Definition before (m m' : xlat_mmap_region) : Prop := base_va m + size m <= base_va m'.

Lemma page_aligned_mod a : IS_PAGE_ALIGNED a = (a mod 4096 =? 0).
Proof.
  unfold IS_PAGE_ALIGNED. change PAGE_SIZE_MASK with (2 ^ 12 - 1). by rewrite land_ones_mod by lia.
Qed.

(** The checks that [validate_region] makes of a region that it accepts, in order. *)
Lemma validate_region_checks earlier mm base va_size reg mm' :
  validate_region earlier mm base va_size reg = Ok (0, mm') →
  let m := if reg =? VA_LOW_REGION then mm else set_base_va (base_va mm .- base) mm in
  let end_va := if reg =? VA_LOW_REGION then base_va mm .+ size mm .- 1 else base_va m .+ size m in
  let end_pa := base_pa mm .+ size mm .- 1 in
  mm' = m ∧ (reg ≠ VA_LOW_REGION → base <= base_va mm) ∧
  base_pa mm mod 4096 = 0 ∧ base_va m mod 4096 = 0 ∧ size mm mod 4096 = 0 ∧
  (granularity mm = XLAT_BLOCK_SIZE 0 ∨ granularity mm = XLAT_BLOCK_SIZE 1 ∨
   granularity mm = XLAT_BLOCK_SIZE 2 ∨ granularity mm = XLAT_BLOCK_SIZE 3) ∧
  base_pa mm <= end_pa ∧ base_va m <= end_va ∧ end_va <= va_size ∧
  (∃ max_pa, xlat_arch_get_max_supported_pa = Ok max_pa ∧ end_pa <= max_pa) ∧
  (∀ prev, head earlier = Some prev → base_va prev .+ size prev .- 1 < base_va m).
Proof.
  unfold validate_region. cbv zeta. rewrite !page_aligned_mod. intros H.
  destruct (_ && (_ || _)) eqn:C1 in H; [discriminate|].
  destruct (negb (reg =? VA_LOW_REGION) && (base_va mm <? base)) eqn:C2 in H; [discriminate|].
  set (m := if reg =? VA_LOW_REGION then mm else set_base_va (base_va mm .- base) mm) in *.
  set (end_va := if reg =? VA_LOW_REGION then base_va mm .+ size mm .- 1 else base_va m .+ size m) in *.
  destruct (_ || _ || _) eqn:C3 in H; [discriminate|].
  destruct (_ && _ && _ && _) eqn:C4 in H; [discriminate|].
  destruct (_ || _) eqn:C5 in H; [discriminate|].
  destruct (va_size <? end_va) eqn:C6; [discriminate|].
  destruct xlat_arch_get_max_supported_pa as [max_pa|] eqn:Hpa; [|discriminate].
  rewrite result_bind_ok in H. destruct (max_pa <? _) eqn:C7; [discriminate|].
  assert (Hm : mm' = m ∧ ∀ prev, head earlier = Some prev → base_va prev .+ size prev .- 1 < base_va m).
  { destruct earlier as [|prev e]; [by simplify_eq|].
    destruct (base_va m <? base_va prev); [discriminate|].
    destruct (Z.leb_spec (base_va m) (base_va prev .+ size prev .- 1)); [discriminate|].
    split; [repeat case_match; by simplify_eq|]. by intros p [= <-]. }
  destruct Hm as [-> Hprev]. split; [done|].
  split; [intros Hr; by replace (reg =? VA_LOW_REGION) with false in C2 by lia; cbn in C2; lia|].
  split_and!; try lia; try done. by exists max_pa; split; [|lia].
Qed.

Lemma in_ctx_eq reg base mm :
  0 <= base → (reg ≠ VA_LOW_REGION → base <= base_va mm) → is_u64 (base_va mm) →
  (if reg =? VA_LOW_REGION then mm else set_base_va (base_va mm .- base) mm) = in_ctx reg base mm.
Proof.
  intros Hb Hr Hw. unfold in_ctx. destruct (Z.eqb_spec reg VA_LOW_REGION); [done|].
  f_equal. apply u64_small. specialize (Hr ltac:(done)). unfold is_u64 in *. lia.
Qed.

Lemma in_ctx_members reg base mm :
  size (in_ctx reg base mm) = size mm ∧ base_pa (in_ctx reg base mm) = base_pa mm ∧
  attr (in_ctx reg base mm) = attr mm ∧ granularity (in_ctx reg base mm) = granularity mm.
Proof. unfold in_ctx. by destruct (reg =? VA_LOW_REGION). Qed.

Lemma max_pa_bound max_pa : xlat_arch_get_max_supported_pa = Ok max_pa → 0 <= max_pa < 2 ^ 52.
Proof.
  unfold xlat_arch_get_max_supported_pa, arch_feat_get_pa_width. intros H.
  apply result_bind_inv in H as (w & Hw & [= <-]). apply result_bind_inv in Hw as ([] & _ & Hg).
  apply aget_ok in Hg as [_ Hg]. apply list_elem_of_lookup_2 in Hg. unfold pa_range_bits_arr in Hg.
  repeat (apply elem_of_cons in Hg as [->|Hg]; [done|]). by apply elem_of_nil in Hg.
Qed.

Lemma word_no_wrap a n : is_u64 a → is_u64 n → a <= a .+ n → a .+ n = a + n.
Proof. unfold is_u64, u64. intros Ha Hn H. euclid. Qed.

(** The last byte of [a, n), when it is not before [a] and not the last byte of the words. *)
Lemma word_last a n : is_u64 a → is_u64 n → a <= a .+ n .- 1 → a .+ n .- 1 < 2 ^ 64 - 1 →
  0 < n ∧ a .+ n .- 1 = a + n - 1.
Proof. unfold is_u64, u64. intros Ha Hn H1 H2. euclid. Qed.

Lemma validate_region_ok earlier mm base va_size reg mm' max_pa :
  validate_region earlier mm base va_size reg = Ok (0, mm') → xlat_arch_get_max_supported_pa = Ok max_pa →
  region_words mm → 0 <= base → 0 <= va_size <= 2 ^ 52 → va_size mod 4096 = 0 →
  mm' = in_ctx reg base mm ∧ checked va_size max_pa mm' ∧
  (∀ prev, head earlier = Some prev → checked va_size max_pa prev → before prev mm').
Proof.
  intros H Hmax (Wp & Wv & Ws) Hb Hvs Hvm. pose proof (max_pa_bound max_pa Hmax) as Hmb.
  apply validate_region_checks in H. cbv zeta in H.
  destruct H as (Hm & Hbase & A1 & A2 & A3 & Hg & Hp & Hv & He & (x & Hx & Hpe) & Hprev).
  rewrite (in_ctx_eq reg base mm Hb Hbase Wv) in *. subst mm'.
  destruct (in_ctx_members reg base mm) as (E1 & E2 & E3 & E4).
  assert (x = max_pa) as -> by congruence.
  destruct (word_last (base_pa mm) (size mm) Wp Ws Hp ltac:(lia)) as [Hs Ep].
  assert (Wv' : is_u64 (base_va (in_ctx reg base mm))).
  { unfold in_ctx, is_u64 in *. destruct (Z.eqb_spec reg VA_LOW_REGION); [done|]. cbn.
    specialize (Hbase ltac:(done)). lia. }
  assert (Hend : base_va (in_ctx reg base mm) + size mm <= va_size).
  { destruct (reg =? VA_LOW_REGION) eqn:Er.
    - assert (Ei : in_ctx reg base mm = mm) by (unfold in_ctx; by rewrite Er). rewrite Ei in *.
      destruct (word_last (base_va mm) (size mm) Wv Ws Hv ltac:(lia)) as [_ Ev]. rewrite Ev in He.
      clear -A2 A3 He Hvm. euclid.
    - rewrite E1 in *. rewrite (word_no_wrap _ _ Wv' Ws Hv) in He. done. }
  assert (C : checked va_size max_pa (in_ctx reg base mm)).
  { split; rewrite ?E1, ?E2, ?E3, ?E4; try done; unfold is_u64 in *; lia. }
  split; [done|]. split; [done|]. intros prev Hh Cp. specialize (Hprev prev Hh).
  destruct Cp as [[P1 P1'] [P2 P2'] P3 _ _ _]. unfold before.
  rewrite (u64_small (base_va prev + size prev)) in Hprev by (unfold is_u64; lia).
  rewrite u64_small in Hprev by (unfold is_u64; lia). lia.
Qed.

(** All regions of an accepted array are checked, in ascending order and apart. *)
Lemma validate_loop_ok earlier mm base va_size reg out max_pa :
  validate_loop earlier mm base va_size reg = Ok (0, out) → xlat_arch_get_max_supported_pa = Ok max_pa →
  Forall region_words mm → 0 <= base → 0 <= va_size <= 2 ^ 52 → va_size mod 4096 = 0 →
  (∀ prev, head earlier = Some prev → checked va_size max_pa prev) →
  let ms := in_ctx reg base <$> mm in
  out = rev earlier ++ ms ∧ Forall (checked va_size max_pa) ms ∧ StronglySorted before ms ∧
  (∀ prev, head earlier = Some prev → Forall (before prev) ms).
Proof.
  intros H Hmax Hw Hb Hvs Hvm. cbv zeta. revert earlier H. induction Hw as [|m mm Wm Hw IH]; intros earlier H Hp.
  { cbn in H. injection H as <-. split; [by rewrite app_nil_r|]. repeat split; constructor. }
  cbn [validate_loop] in H. apply result_bind_inv in H as ([ret m'] & Hr & H).
  destruct (Z.eqb_spec ret 0) as [->|Hne]; cbn [negb] in H; [|by injection H].
  destruct (validate_region_ok _ _ _ _ _ _ _ Hr Hmax Wm Hb Hvs Hvm) as (-> & Hc & Hbf).
  destruct (IH _ H) as (-> & Hall & Hsort & Hnext). { by intros p [= <-]. }
  specialize (Hnext _ eq_refl). split_and!.
  - cbn. by rewrite <- app_assoc.
  - by constructor.
  - by constructor.
  - intros prev Hh. specialize (Hp prev Hh). specialize (Hbf prev Hh Hp). constructor; [done|].
    eapply Forall_impl; [exact Hnext|]. unfold before in *. pose proof (ck_size _ _ _ Hc). intros x Hx. lia.
Qed.

Lemma validate_region_neg earlier mm base va_size reg ret mm' :
  validate_region earlier mm base va_size reg = Ok (ret, mm') → -34 <= ret <= 0.
Proof.
  unfold validate_region, errno_EPERM, EFAULT, EINVAL, ERANGE. cbv zeta. intros H.
  repeat match type of H with
  | (if ?b then _ else _) = _ => destruct b
  | (?m ≫= _) = _ => destruct m; [rewrite result_bind_ok in H|discriminate]
  | match ?l with _ => _ end = _ => destruct l
  end; injection H as <- _; lia.
Qed.

Lemma validate_neg mm base va_size reg ret out :
  validate_mmap_regions mm base va_size reg = Ok (ret, out) → -34 <= ret <= 0.
Proof.
  unfold validate_mmap_regions. destruct (_ =? _)%nat; [intros [= <- _]; unfold EINVAL; lia|].
  generalize (@nil xlat_mmap_region) as earlier. induction mm as [|m mm IH]; intros earlier; cbn [validate_loop].
  { intros [= <- _]. lia. }
  intros H. apply result_bind_inv in H as ([r m'] & Hr & H). apply validate_region_neg in Hr.
  destruct (r =? 0); cbn [negb] in H; [by apply IH in H|injection H as <- _; lia].
Qed.

(** * The configuration *)

(** What a successful [xlat_ctx_cfg_init] leaves behind. *)
Record configured (cfg : xlat_ctx_cfg) (reg va_size : Z) (mm : list xlat_mmap_region) (max_pa : Z) : Prop := {
  cf_max : max_va_size cfg = va_size;
  cf_base : cfg_base_va cfg = if reg =? VA_LOW_REGION then 0 else 2 ^ 64 - va_size;
  cf_level : base_level cfg = GET_XLAT_TABLE_LEVEL_BASE va_size;
  cf_init : cfg_initialized cfg = true;
  cf_mmap : mmap cfg = in_ctx reg (cfg_base_va cfg) <$> mm;
  cf_checked : Forall (checked va_size max_pa) (mmap cfg);
  cf_sorted : StronglySorted before (mmap cfg);
  cf_mod : va_size mod 4096 = 0;
  cf_size : 2 ^ 16 <= va_size <= if is_feat_lpa2_4k_present then 2 ^ 52 else 2 ^ 48;
}.

Lemma xlat_ctx_cfg_init_fresh cfg reg mm va_size ret cfg' mm' :
  xlat_ctx_cfg_init cfg reg mm va_size = Ok (ret, cfg', mm') → cfg_initialized cfg = false → ret ≠ - EALREADY.
Proof.
  unfold xlat_ctx_cfg_init, EALREADY. intros H Hi. rewrite Hi in H.
  repeat match type of H with (if ?b then _ else _) = _ => destruct b; [injection H as <- _ _; done|] end.
  apply result_bind_inv in H as ([[r c1] m1] & Hadd & H). unfold add_mmap_to_ctx_cfg in Hadd. cbv zeta in Hadd.
  apply result_bind_inv in Hadd as ([x out] & Hv & Hadd). apply validate_neg in Hv.
  destruct (r <? 0); [|injection H as <- _ _; done]. injection H as <- _ _.
  destruct (x =? 0); cbn [negb] in Hadd; [|injection Hadd as <- _ _; lia].
  destruct (last out); [|discriminate]. injection Hadd as <- _ _. done.
Qed.

Lemma xlat_ctx_cfg_init_ok cfg reg mm va_size cfg' mm' max_pa :
  xlat_ctx_cfg_init cfg reg mm va_size = Ok (0, cfg', mm') → xlat_arch_get_max_supported_pa = Ok max_pa →
  Forall region_words mm → configured cfg' reg va_size mm max_pa ∧ mm' = mmap cfg' ∧ mm ≠ [].
Proof.
  unfold xlat_ctx_cfg_init. intros H Hmax Hw.
  destruct (VA_REGIONS <=? reg); [discriminate|].
  destruct (va_size .& (GRANULE_SIZE .- 1) =? 0) eqn:Hal; cbn [negb] in H; [|discriminate].
  apply Z.eqb_eq in Hal. change (GRANULE_SIZE .- 1) with (2 ^ 12 - 1) in Hal. rewrite land_ones_mod in Hal by lia.
  change (2 ^ 12) with 4096 in Hal.
  destruct (_ || _) eqn:Hsz in H; [discriminate|]. destruct (cfg_initialized cfg); [discriminate|].
  apply result_bind_inv in H as ([[ret c1] m1] & Hadd & H).
  assert (Hs : 2 ^ 16 <= va_size <= if is_feat_lpa2_4k_present then 2 ^ 52 else 2 ^ 48).
  { change MIN_VIRT_ADDR_SPACE_SIZE with (2 ^ 16) in Hsz. change MAX_VIRT_ADDR_SPACE_SIZE_LPA2 with (2 ^ 52) in Hsz.
    change MAX_VIRT_ADDR_SPACE_SIZE with (2 ^ 48) in Hsz. destruct is_feat_lpa2_4k_present; lia. }
  assert (Hs52 : 0 <= va_size <= 2 ^ 52) by (destruct is_feat_lpa2_4k_present; lia).
  unfold add_mmap_to_ctx_cfg in Hadd. cbv zeta in Hadd.
  apply result_bind_inv in Hadd as ([r out] & Hv & Hadd).
  destruct (Z.eqb_spec r 0) as [->|Hr]; cbn [negb] in Hadd; cycle 1.
  { injection Hadd as <- <- <-. destruct (r <? 0) eqn:Hneg; [injection H as -> <- <-; done|].
    apply validate_neg in Hv. lia. }
  destruct (last out) as [lst|] eqn:Hl; [|discriminate]. injection Hadd as <- <- <-.
  cbn in H. injection H as <- <-.
  assert (Eb : (if reg =? VA_LOW_REGION then 0 else (.~ 0) .- va_size .+ 1) =
    if reg =? VA_LOW_REGION then 0 else 2 ^ 64 - va_size).
  { destruct (reg =? VA_LOW_REGION); [done|]. change (.~ 0) with (2 ^ 64 - 1).
    rewrite (u64_small (2 ^ 64 - 1 - va_size)) by (unfold is_u64; lia). rewrite u64_small by (unfold is_u64; lia). lia. }
  unfold validate_mmap_regions in Hv. destruct (length mm =? 0)%nat eqn:Hlen; [discriminate|].
  rewrite Eb in Hv. destruct (validate_loop_ok [] mm _ va_size reg out max_pa Hv Hmax Hw) as (-> & Hc & Hsort & _);
    [destruct (reg =? _); lia|done|done|done|].
  split; [|split; [done|by intros ->]]. cbn [rev app] in *.
  split; cbn; rewrite ?Eb; done.
Qed.
End validate.

(** * The tables of a context *)

Section init.
Context {CF : Config} {CPU : Cpu}.

(** The base table covers the addresses of the context. Level 0 of the OpenCCA build has 16
    entries only. *)
Lemma level_base_facts va_size :
  2 ^ 16 <= va_size <= (if is_feat_lpa2_4k_present then 2 ^ 52 else 2 ^ 48) →
  let l := GET_XLAT_TABLE_LEVEL_BASE va_size in
  -1 <= l <= 3 ∧ XLAT_TABLE_LEVEL_MIN <= l ∧ va_size <= bsize (l - 1) ∧
  ((ENABLE_OPENCCA = true → va_size <= 2 ^ 43) → va_size <= XLAT_GET_TABLE_ENTRIES l * bsize l).
Proof.
  intros Hs. cbv zeta. unfold GET_XLAT_TABLE_LEVEL_BASE, XLAT_GET_TABLE_ENTRIES, XLAT_TABLE_LEVEL_MIN.
  change (1 .<< LM1_XLAT_ADDRESS_SHIFT) with (2 ^ 48). change (1 .<< L0_XLAT_ADDRESS_SHIFT) with (2 ^ 39).
  change (1 .<< L1_XLAT_ADDRESS_SHIFT) with (2 ^ 30). change (1 .<< L2_XLAT_ADDRESS_SHIFT) with (2 ^ 21).
  assert (Hl : ENABLE_OPENCCA = true → is_feat_lpa2_4k_present = false).
  { unfold is_feat_lpa2_4k_present. by intros ->. }
  destruct ENABLE_OPENCCA eqn:Eo.
  - rewrite (Hl eq_refl) in Hs. destruct (Z.ltb_spec (2 ^ 39) va_size); [|destruct (Z.ltb_spec (2 ^ 30) va_size)];
      change XLAT_LM1_TABLE_ENTRIES with 16; change XLAT_TABLE_ENTRIES with 512; cbn -[Z.pow];
      repeat split; intros; try (specialize (H0 eq_refl)); unfold bsize in *; cbn -[Z.pow] in *; lia.
  - destruct (Z.ltb_spec (2 ^ 48) va_size); [|destruct (Z.ltb_spec (2 ^ 39) va_size); [|
      destruct (Z.ltb_spec (2 ^ 30) va_size); [|destruct (Z.ltb_spec (2 ^ 21) va_size)]]];
      change XLAT_LM1_TABLE_ENTRIES with 16; change XLAT_TABLE_ENTRIES with 512; cbn -[Z.pow];
      repeat split; intros; unfold bsize in *; cbn -[Z.pow] in *; destruct is_feat_lpa2_4k_present; lia.
Qed.

Section regions.
Context (cfg : xlat_ctx_cfg) (L0_range : -1 <= base_level cfg <= 3)
  (Hmin : XLAT_TABLE_LEVEL_MIN <= base_level cfg).
Local Abbreviation L0 := (base_level cfg).
Local Abbreviation entries := (XLAT_GET_TABLE_ENTRIES L0).

(** The tables that a list of regions can need besides the base table. *)
Definition regions_need (mms : list xlat_mmap_region) : Z :=
  foldr (λ mm n, tables_need L0 (base_va mm) (base_va mm + size mm) + n) 0 mms.

Definition outside_all (mms : list xlat_mmap_region) (va : Z) : Prop :=
  Forall (λ mm, ~ in_mmap mm va) mms.

Lemma regions_need_nonneg mms : Forall (good_region L0) mms → 0 <= regions_need mms.
Proof using L0_range.
  induction 1 as [|mm mms G _ IH]; cbn [regions_need foldr]; [lia|].
  pose proof (tables_need_nonneg L0 (base_va mm) (base_va mm + size mm) L0_range). pose proof (gr_size _ _ G).
  fold (regions_need mms). lia.
Qed.

Lemma map_regions_spec mms s :
  Forall (good_region L0) mms → Forall (λ mm, base_va mm + size mm <= entries * bsize L0) mms →
  StronglySorted before mms → tree L0 s →
  Forall (λ mm, ∀ va, in_mmap mm va → s1_view L0 s va = None) mms →
  next_table (tbls s) + regions_need mms <= tables_num (tbls s) →
  ∃ s', map_regions cfg mms s = Ok (0, s') ∧ tree L0 s' ∧
    tbls s' = set_next_table (next_table (tbls s')) (tbls s) ∧ tlbivae2 s' = tlbivae2 s ∧
    (∀ va, in_space L0 va → outside_all mms va → s1_view L0 s' va = s1_view L0 s va) ∧
    Forall (λ mm, ∀ va, in_mmap mm va → ∃ d l, s1_view L0 s' va = Some (d, l) ∧ region_entry mm va d l) mms.
Proof using L0_range Hmin.
  intros HG. revert s. induction HG as [|mm mms G HG IH]; intros s He Hs T Hnone Hn.
  { exists s. split; [done|]. split; [done|]. split; [by destruct (tbls s)|]. split; [done|]. split; done || constructor. }
  apply Forall_cons in He as [He He']. apply Forall_cons in Hnone as [Hnone Hnone'].
  apply StronglySorted_inv in Hs as [Hs Hbef]. cbn [regions_need foldr] in Hn. fold (regions_need mms) in Hn.
  pose proof (regions_need_nonneg mms HG) as Hnn. pose proof (gr_va _ _ G) as Gv. pose proof (gr_size _ _ G) as Gs.
  pose proof (gr_space _ _ G) as Gsp. pose proof (bsize_pos (L0 - 1) ltac:(lia)).
  assert (Ea : part_lo mm 0 = base_va mm) by (unfold part_lo; lia).
  assert (Eb : part_hi mm 0 (entries * bsize L0) = base_va mm + size mm) by (unfold part_hi; lia).
  pose proof (map_region_spec L0 L0_range mm G cfg eq_refl Hmin XLAT_FUEL s 0 0 0 entries) as Hspec.
  cbv zeta in Hspec. replace (L0 + Z.of_nat 0) with L0 in Hspec by lia. rewrite Ea, Eb in Hspec.
  destruct Hspec as (s1 & Hrun & Hm); try done.
  { unfold XLAT_FUEL. lia. }
  { lia. }
  { lia. }
  cbn [map_regions]. rewrite gets_bind.
  replace (taddr s 0) with (tables (tbls s)) in Hrun by (unfold taddr; lia).
  run_step Hrun. rewrite (word_end L0 mm G), Z.eqb_refl. cbn [negb].
  pose proof (mapped_tbls _ _ _ _ _ _ _ Hm) as Ht. pose proof (mapped_next _ _ _ _ _ _ _ Hm) as Hnx.
  assert (Hnum : tables_num (tbls s1) = tables_num (tbls s)) by by rewrite Ht.
  assert (Hsp : ∀ m va, m ∈ mms → in_mmap m va → in_space L0 va ∧ ~ (base_va mm <= va < base_va mm + size mm)).
  { intros m va Hin Hva. rewrite Forall_forall in HG, Hbef. specialize (HG m Hin). specialize (Hbef m Hin).
    pose proof (gr_va _ _ HG). pose proof (gr_space _ _ HG). unfold in_mmap, before, in_space in *. lia. }
  destruct (IH s1 He' Hs (mapped_tree _ _ _ _ _ _ _ Hm)) as (s2 & Hrun2 & T2 & Ht2 & Htl & Hout & Hin).
  { rewrite Forall_forall in *. intros m Hm' va Hva. destruct (Hsp m va Hm' Hva).
    rewrite (mapped_other _ _ _ _ _ _ _ Hm) by done. by apply (Hnone' m). }
  { rewrite Hnum. lia. }
  exists s2. split; [done|]. split; [done|]. split; [by etransitivity; [exact Ht2|]; rewrite Ht|].
  split; [by rewrite Htl, (mapped_tlbi _ _ _ _ _ _ _ Hm)|]. split.
  - intros va Hva Ho. apply Forall_cons in Ho as [Ho1 Ho2]. rewrite Hout by done. by apply Hm.
  - constructor; [|done]. intros va Hva. rewrite Hout.
    + by apply Hm.
    + unfold in_mmap, in_space in *. lia.
    + apply Forall_forall. intros m Hm' Hva'. by destruct (Hsp m va Hm' Hva').
Qed.
End regions.

(** ** All tables cleared *)

Lemma cleared_tree L0 (s : xlat_state) :
  -1 <= L0 <= 3 →
  area s = replicate (Z.to_nat (tables_num (tbls s) * 512)) 0 → next_table (tbls s) = 1 →
  1 <= tables_num (tbls s) < 2 ^ 31 → 0 < tables (tbls s) → tables (tbls s) mod 4096 = 0 →
  tables (tbls s) + 4096 * tables_num (tbls s) <= 2 ^ 48 →
  tree L0 s ∧ ∀ va, s1_view L0 s va = None.
Proof.
  intros HL Ha Hn Hnum Hb Hal Hend.
  assert (Hz : ∀ k i, ent s k i = 0).
  { intros k i. unfold ent. rewrite Ha. destruct (replicate _ _ !! _) as [d|] eqn:Hd; [|done].
    apply lookup_replicate in Hd as [-> _]. done. }
  assert (Hr : ∀ n va, table_at L0 s (S n) va = None).
  { intros n va. rewrite reach_S. destruct (table_at L0 s n va); [|done]. cbv zeta. by rewrite Hz. }
  split.
  - split; try done.
    + rewrite Ha, length_replicate. lia.
    + lia.
    + lia.
    + intros n va k _ _ _. by rewrite Hz.
    + intros [|n] va k [|n'] va' Hva Hva' H1 H2; try by rewrite Hr in *.
      split; [done|]. replace (L0 + Z.of_nat 0) with L0 by lia. by rewrite !in_space_div.
  - intros va. destruct (leaf_exists L0 HL s va) as (n & k & d & Hlf).
    rewrite (view_leaf L0 HL _ _ _ _ _ Hlf). destruct Hlf as (_ & <- & _). by rewrite Hz.
Qed.
End init.

Section spec.
Context {CF : Config} {CPU : Cpu}.

(** * The hardware *)

(** A descriptor that maps memory: a page at level 3, a block at a level that allows blocks. *)
Definition maps (d l : Z) : bool :=
  Z.testbit d 0 &&
  (if l =? 3 then Z.testbit d 1
   else negb (Z.testbit d 1) && ((1 <=? l) || (l =? 0) && is_feat_lpa2_4k_present)).

(** The translation of an address of the context: the physical address, and whether the monitor
    may write and execute there. *)
Definition mmu (cfg : xlat_ctx_cfg) (s : xlat_state) (va : Z) : option (Z * bool * bool) :=
  let off := va - cfg_base_va cfg in
  if (0 <=? off) && (off <? max_va_size cfg) then
    match s1_view (base_level cfg) s off with
    | Some (d, l) =>
        if maps d l then Some (xlat_get_oa_from_tte d + off mod bsize l, negb (Z.testbit d 7), negb (Z.testbit d 53))
        else None
    | None => None
    end
  else None.

(** What a region asks for. *)
Definition wants_write (attr : Z) : bool := negb (attr .& MT_RW =? 0).
Definition wants_exec (attr : Z) : bool :=
  (MT_TYPE attr =? MT_MEMORY) && negb (wants_write attr) && (attr .& MT_EXECUTE_NEVER =? 0).
Definition region_mmu (mm : xlat_mmap_region) (va : Z) : option (Z * bool * bool) :=
  if MT_TYPE (attr mm) =? MT_TRANSIENT then None
  else Some (base_pa mm + (va - base_va mm), wants_write (attr mm), wants_exec (attr mm)).

Lemma wants_exec_bit a :
  known_type a → MT_TYPE a ≠ MT_TRANSIENT →
  negb ((MT_TYPE a =? MT_DEVICE) || negb (a .& MT_RW =? 0) || negb (a .& MT_EXECUTE_NEVER =? 0)) = wants_exec a.
Proof.
  intros Hk Ht. unfold wants_exec, wants_write.
  destruct Hk as [Hk|[Hk|Hk]]; [| |done]; rewrite Hk; change (MT_DEVICE =? MT_DEVICE) with true;
    change (MT_MEMORY =? MT_DEVICE) with false; change (MT_DEVICE =? MT_MEMORY) with false;
    change (MT_MEMORY =? MT_MEMORY) with true; cbn [orb andb negb]; [done|].
  by rewrite negb_orb, !negb_involutive.
Qed.

(** The descriptors that the library writes translate as the region asks. *)
Lemma region_entry_mmu mm off d l :
  region_entry mm off d l → known_type (attr mm) → base_pa mm + size mm <= OA_LIMIT → 0 <= base_pa mm →
  base_pa mm mod 4096 = 0 → base_va mm mod 4096 = 0 →
  (if maps d l then Some (xlat_get_oa_from_tte d + off mod bsize l, negb (Z.testbit d 7), negb (Z.testbit d 53))
   else None) = region_mmu mm off.
Proof.
  intros (Hl & Hb1 & Hb2 & Hg & Hal & Hd) Hk Hoa Hp Hpm Hvm. unfold region_mmu.
  pose proof (bsize_pos l ltac:(lia)) as Hbs. set (b := off / bsize l * bsize l) in *.
  destruct (xlat_desc_total (attr mm) _ l Hk Hl Hal) as (d' & Hd' & _ & _ & Htr & Hnt).
  rewrite Hd in Hd'. injection Hd' as <-.
  destruct (Z.eqb_spec (MT_TYPE (attr mm)) MT_TRANSIENT) as [Ht|Ht]; [by rewrite Htr by done|].
  specialize (Hnt Ht). set (pa := base_pa mm + (b - base_va mm)) in *.
  destruct (desc_attrs_perms (attr mm) l) as (P0 & P1 & _ & P7 & P53 & _).
  assert (Hbit : ∀ i, 0 <= i → (i < 8 ∨ 10 <= i < 12 ∨ 50 <= i) → Z.testbit d i = Z.testbit (desc_attrs (attr mm) l) i).
  { intros i Hi Hr. rewrite Hnt. by apply desc_bits. }
  assert (Hmaps : maps d l = true).
  { unfold maps. rewrite !Hbit, P0, P1 by lia. destruct (Z.eqb_spec l 3) as [->|Hl3]; [done|].
    destruct Hg as [?|[_ Hg]]; [done|]. unfold XLAT_MIN_BLOCK_LVL, XLAT_TABLE_LEVEL_MIN in Hg. cbn [andb negb].
    destruct ENABLE_OPENCCA, is_feat_lpa2_4k_present; lia. }
  rewrite Hmaps. assert (Hpa4 : pa mod 4096 = 0).
  { apply (mod_down pa l 3) in Hal; [|lia|lia]. done. }
  assert (Eoff : off = b + off mod bsize l).
  { unfold b. pose proof (Z.div_mod off (bsize l)). lia. }
  rewrite Hnt at 1. rewrite oa_of_desc; [|unfold pa; lia|done|apply desc_attrs_field].
  rewrite !Hbit, P7, P53 by lia. do 3 f_equal; [unfold pa; lia|].
  by apply wants_exec_bit.
Qed.

(** * Initialisation *)

Section ctx.
Context (cfg : xlat_ctx_cfg) (reg va_size max_pa : Z) (mm : list xlat_mmap_region).
Context (C : configured cfg reg va_size mm max_pa) (Hmax : xlat_arch_get_max_supported_pa = Ok max_pa).
Context (Hk : Forall (λ m, known_type (attr m)) mm) (Hoc : ENABLE_OPENCCA = true → va_size <= 2 ^ 43).
Local Abbreviation L0 := (base_level cfg).

Lemma ctx_level : -1 <= L0 <= 3 ∧ XLAT_TABLE_LEVEL_MIN <= L0 ∧ va_size <= bsize (L0 - 1) ∧
  va_size <= XLAT_GET_TABLE_ENTRIES L0 * bsize L0 ∧ va_size <= 2 ^ 52.
Proof using C Hoc.
  pose proof (cf_size _ _ _ _ _ C) as Hs. pose proof (level_base_facts va_size Hs) as H. cbv zeta in H.
  rewrite <- (cf_level _ _ _ _ _ C) in H. destruct H as (H1 & H2 & H3 & H4). split_and!; try done; try lia; [by apply H4|].
  destruct is_feat_lpa2_4k_present; lia.
Qed.

Lemma ctx_good : Forall (good_region L0) (mmap cfg).
Proof using C Hk Hoc Hmax.
  destruct ctx_level as (_ & _ & Hb & _ & H52). pose proof (max_pa_bound _ Hmax).
  apply Forall_forall. intros m Hm. pose proof (cf_checked _ _ _ _ _ C) as Hc. rewrite Forall_forall in Hc.
  destruct (Hc m Hm) as [V S E P PE _]. split; try done; try lia.
  rewrite (cf_mmap _ _ _ _ _ C) in Hm. apply list_elem_of_fmap in Hm as (m0 & -> & Hm0).
  rewrite Forall_forall in Hk. destruct (in_ctx_members reg (cfg_base_va cfg) m0) as (_ & _ & -> & _). by apply Hk.
Qed.

(** The context is built, and a walk finds the descriptor of the region, or nothing. *)
Lemma xlat_ctx_init_ok s tables_ptr ntables :
  initialized (tbls s) = false → 0 < tables_ptr → tables_ptr mod 4096 = 0 →
  tables_ptr + 4096 * ntables <= 2 ^ 48 → ntables < 2 ^ 31 → Z.of_nat (length (area s)) = 512 * ntables →
  1 + regions_need cfg (mmap cfg) <= ntables →
  ∃ s', xlat_ctx_init cfg tables_ptr ntables s = Ok (0, s') ∧ tree L0 s' ∧
    tables (tbls s') = tables_ptr ∧ tables_num (tbls s') = ntables ∧ initialized (tbls s') = true ∧
    (∀ va, in_space L0 va → outside_all (mmap cfg) va → s1_view L0 s' va = None) ∧
    Forall (λ m, ∀ va, in_mmap m va → ∃ d l, s1_view L0 s' va = Some (d, l) ∧ region_entry m va d l) (mmap cfg).
Proof using C Hk Hoc Hmax.
  intros Hi Hp Hal Hend Hnt Hlen Hneed. destruct ctx_level as (HL & Hmin & Hb & He & H52).
  pose proof (regions_need_nonneg cfg HL (mmap cfg) ctx_good) as Hnn.
  unfold xlat_ctx_init. replace (tables_ptr =? 0) with false by lia. replace (ntables =? 0) with false by lia. cbn [orb].
  unfold ALIGNED. change XLAT_TABLES_ALIGNMENT with 4096. rewrite (proj2 (Z.eqb_eq _ _) Hal). cbn [negb].
  rewrite gets_bind, Hi, (cf_init _ _ _ _ _ C). cbn [negb]. rewrite mmodify_bind.
  unfold xlat_init_tables_ctx. rewrite !gets_bind. cbn [tables_num tbls area set_tbls].
  change XLAT_TABLE_ENTRIES with 512.
  assert (Hcl : clear_tables (ntables * 512) (area s) = Ok (replicate (Z.to_nat (ntables * 512)) 0)).
  { unfold clear_tables. replace (_ <? _) with false by lia. rewrite drop_ge by lia. by rewrite app_nil_r. }
  run_step (lift_run _ _ (set_tbls {| tables := tables_ptr; tables_num := ntables; next_table := 0; initialized := false |} s) Hcl).
  rewrite !mmodify_bind.
  match goal with |- context [(map_regions _ _ ≫= _) ?st] => set (s0 := st) end.
  destruct (cleared_tree L0 s0 HL) as [T0 Hv0]; try done; [cbn; lia|].
  destruct (map_regions_spec cfg HL Hmin (mmap cfg) s0) as (s1 & Hrun & T1 & Ht & _ & Hout & Hin); try done.
  { apply ctx_good. }
  { eapply Forall_impl; [exact (cf_checked _ _ _ _ _ C)|]. intros m Hm. pose proof (ck_end _ _ _ Hm). lia. }
  { apply C. }
  { by apply Forall_forall. }
  run_step Hrun. cbn [Z.eqb negb]. rewrite mmodify_bind.
  exists (set_tbls (set_initialized true (tbls s1)) s1). split; [done|].
  split; [by apply (tree_ext L0 s1)|]. split; [by cbn; rewrite Ht|]. split; [by cbn; rewrite Ht|].
  split; [done|]. split.
  - intros va Hva Ho. rewrite (view_ext L0 s1) by done. by rewrite Hout.
  - eapply Forall_impl; [exact Hin|]. intros m Hm va Hva. rewrite (view_ext L0 s1) by done. by apply Hm.
Qed.
End ctx.

(** The memory given for the tables: aligned, below 2^48, and of [ntables] tables. *)
Definition table_area (s : xlat_state) (tables_ptr ntables : Z) : Prop :=
  0 < tables_ptr ∧ tables_ptr mod 4096 = 0 ∧ tables_ptr + 4096 * ntables <= 2 ^ 48 ∧ ntables < 2 ^ 31 ∧
  Z.of_nat (length (area s)) = 512 * ntables.

Lemma in_ctx_region cfg reg va_size mm max_pa m va :
  configured cfg reg va_size mm max_pa →
  (in_mmap (in_ctx reg (cfg_base_va cfg) m) (va - cfg_base_va cfg) ↔ in_mmap m va) ∧
  region_mmu (in_ctx reg (cfg_base_va cfg) m) (va - cfg_base_va cfg) = region_mmu m va.
Proof.
  intros C. pose proof (cf_base _ _ _ _ _ C) as Hb. unfold in_ctx, in_mmap, region_mmu.
  destruct (Z.eqb_spec reg VA_LOW_REGION); [rewrite Hb, Z.sub_0_r; done|]. cbn [base_va size base_pa attr set_base_va].
  split; [lia|]. case_match; [done|]. do 3 f_equal. lia.
Qed.

End spec.
