(* ===== verification/XlatSlot.v ===== *)
(** Pages mapped at run time, and the slot buffers on the translation tables
    (lib/slot_buf/src/buffer.c): mapping a granule in a slot writes a page descriptor, and the
    abstract map of slots of Buffer.v is what the hardware translates. At the end, concrete
    contexts, and inputs on which the library does not do what it says. *)
From S2P Require Import Buffer.
From S2P Require Import Prelude Types Granule Platform GranuleFind S2tte Feature Xlat XlatTree XlatMap.

#[local] Ltac euclid := Z.to_euclidean_division_equations; lia.

Lemma u32_small_div x : u32 (x mod 2097152 / 2 ^ 12) = x mod 2097152 / 4096.
Proof. unfold u32. change (2 ^ 12) with 4096. change (2 ^ 32) with 4294967296. euclid. Qed.

Section page.
Context {CF : Config} {CPU : Cpu}.

(** A context that is in use. *)
Record live_ctx (cfg : xlat_ctx_cfg) (s : xlat_state) : Prop := {
  lc_level : -1 <= base_level cfg <= 3 ∧ XLAT_TABLE_LEVEL_MIN <= base_level cfg;
  lc_tree : tree (base_level cfg) s;
  lc_init : initialized (tbls s) = true ∧ cfg_initialized cfg = true;
  lc_size : 0 < max_va_size cfg <= bsize (base_level cfg - 1) ∧ max_va_size cfg mod 4096 = 0;
  lc_base : 0 <= cfg_base_va cfg ∧ cfg_base_va cfg mod 4096 = 0 ∧ cfg_base_va cfg + max_va_size cfg <= 2 ^ 64;
}.

Lemma built_live cfg reg va_size mm max_pa s :
  configured cfg reg va_size mm max_pa → (ENABLE_OPENCCA = true → va_size <= 2 ^ 43) →
  tree (base_level cfg) s → initialized (tbls s) = true → live_ctx cfg s.
Proof.
  intros C Hoc T Hi. destruct (ctx_level cfg reg va_size max_pa mm C Hoc) as (H1 & H2 & H3 & _ & H52).
  pose proof (cf_base _ _ _ _ _ C) as Hb. pose proof (cf_mod _ _ _ _ _ C). pose proof (cf_size _ _ _ _ _ C) as Hs.
  assert (Hs0 : 2 ^ 16 <= va_size) by lia.
  split; try done; rewrite ?(cf_max _ _ _ _ _ C); [split; [done|apply C]|split; [lia|done]|].
  rewrite Hb. destruct (reg =? VA_LOW_REGION); [split; [lia|split; [done|lia]]|].
  split; [lia|]. split; [|lia]. change (2 ^ 64) with (4503599627370496 * 4096). euclid.
Qed.

Section ctx.
Context (cfg : xlat_ctx_cfg) (s : xlat_state) (LC : live_ctx cfg s).
Local Abbreviation L0 := (base_level cfg).
Local Abbreviation base := (cfg_base_va cfg).

(** * The table of an address *)

Lemma find_last_run fuel n k off :
  0 <= off < max_va_size cfg → table_at L0 s n off = Some k → 3 - (L0 + Z.of_nat n) < Z.of_nat fuel →
  ∃ n' k' d, walk_ends L0 s off n' k' d ∧ let l := L0 + Z.of_nat n' in
    find_last_loop fuel off (L0 + Z.of_nat n) (taddr s k)
      (base + off / bsize (L0 + Z.of_nat n - 1) * bsize (L0 + Z.of_nat n - 1)) s =
    Ok (Some {| llt_table := taddr s k'; llt_base_va := base + off / bsize (l - 1) * bsize (l - 1); llt_level := l |}, s).
Proof using LC.
  destruct LC as [[HL _] T _ [[Hs0 Hs] _] (Hb0 & _ & Hb)]. intros Hoff. revert n k.
  induction fuel as [|fuel IH]; intros n k Hr Hf; pose proof (reach_level L0 HL s n off k Hr) as Hle; [lia|].
  assert (Hin : in_space L0 off) by (unfold in_space; lia).
  pose proof (reach_range L0 s n off k T Hin Hr). pose proof (tree_next L0 s T).
  cbn [find_last_loop]. unfold XLAT_TABLE_LEVEL_MAX. replace (L0 + Z.of_nat n <=? 3) with true by lia. cbn [negb].
  rewrite TABLE_IDX_eq by lia. run_step (tt_get_run L0 s k (idx off (L0 + Z.of_nat n)) T ltac:(lia) (idx_range _ _)).
  fold (is_table (ent s k (idx off (L0 + Z.of_nat n)))).
  destruct (is_table (ent s k (idx off (L0 + Z.of_nat n)))) eqn:Ht, (Z.eqb_spec (L0 + Z.of_nat n) 3) as [E3|E3]; cbn [negb orb].
  2: { destruct (tree_table L0 s T n off k Hin Hr ltac:(lia) Ht) as (k1 & Hk1 & Ek).
    rewrite Ek, (oa_taddr L0) by (done || lia).
    assert (Hr1 : table_at L0 s (S n) off = Some k1).
    { rewrite reach_S, Hr. cbv zeta. rewrite Ht. replace (_ <? 3) with true by lia. cbn [andb]. f_equal.
      rewrite Ek. apply (tnum_taddr L0); [done|lia]. }
    destruct (IH (S n) k1 Hr1 ltac:(lia)) as (n' & k' & d & Hlf & Hrun). exists n', k', d. split; [done|].
    cbv zeta in *. rewrite <- Hrun. set (l := L0 + Z.of_nat n) in *.
    replace (L0 + Z.of_nat (S n)) with (l + 1) by lia. f_equal.
    pose proof (bsize_pos l ltac:(lia)) as Hbs. replace (l + 1 - 1) with l by lia.
    rewrite BLOCK_SIZE_eq by lia. rewrite bsize_up by lia.
    assert (Eoff : off / (512 * bsize l) * (512 * bsize l) + bsize l * idx off l = off / bsize l * bsize l).
    { unfold idx. rewrite Z.mul_comm with (n := 512), <- Z.div_div by lia.
      pose proof (Z.div_mod (off / bsize l) 512). nia. }
    pose proof (Z.mul_div_le off (bsize l)). pose proof (idx_range off l).
    assert (0 <= off / bsize l * bsize l) by (apply Z.mul_nonneg_nonneg; [apply Z.div_pos; lia|lia]).
    assert (0 <= off / (512 * bsize l) * (512 * bsize l)) by (apply Z.mul_nonneg_nonneg; [apply Z.div_pos; lia|lia]).
    assert (0 <= bsize l * idx off l) by nia.
    rewrite (u64_small (bsize l * idx off l)) by (unfold is_u64; lia). rewrite u64_small by (unfold is_u64; lia). lia. }
  all: exists n, k, (ent s k (idx off (L0 + Z.of_nat n))); split; [|done].
  all: split; [done|]; split; [done|]; split; [lia|]; tauto.
Qed.

(** The context finds the table that the walk of the hardware ends in, for every address of
    its address space, and refuses the others. *)
Lemma xlat_get_llt_spec va :
  is_u64 va →
  let off := va - base in let poff := off / 4096 * 4096 in
  (base <= va < base + max_va_size cfg ∧
   ∃ n k d, walk_ends L0 s poff n k d ∧ let l := L0 + Z.of_nat n in
     xlat_get_llt_from_va cfg va s =
       Ok ((0, Some {| llt_table := taddr s k; llt_base_va := base + poff / bsize (l - 1) * bsize (l - 1);
                       llt_level := l |}), s)) ∨
  (~ (base <= va < base + max_va_size cfg) ∧ xlat_get_llt_from_va cfg va s = Ok ((- EFAULT, None), s)).
Proof using LC.
  intros Hva. cbv zeta. pose proof (lc_size _ _ LC) as [[Hs0 Hs] Hsm]. pose proof (lc_base _ _ LC) as (Hb0 & Hbm & Hb).
  pose proof (lc_init _ _ LC) as [Hi1 Hi2]. pose proof (lc_level _ _ LC) as [HL _]. unfold is_u64 in Hva.
  unfold xlat_get_llt_from_va. rewrite gets_bind. run_step (massert_run _ s Hi1). run_step (massert_run _ s Hi2).
  unfold find_xlat_last_table. destruct (Z.ltb_spec va base); [right; split; [lia|done]|].
  rewrite (u64_small (va - base)) by (unfold is_u64; lia).
  assert (Epo : (va - base) .& (.~ PAGE_SIZE_MASK) = (va - base) / 4096 * 4096).
  { rewrite land_not64 by (unfold is_u64; lia). change PAGE_SIZE_MASK with (Z.ones 12).
    rewrite Z.ldiff_ones_r, Z.shiftr_div_pow2, Z.shiftl_mul_pow2 by lia. done. }
  rewrite Epo. set (poff := (va - base) / 4096 * 4096).
  destruct (Z.leb_spec (max_va_size cfg) poff) as [Hge|Hlt].
  { right. split; [|done]. unfold poff in Hge. pose proof (Z.mul_div_le (va - base) 4096). lia. }
  left. assert (Hp : 0 <= poff < max_va_size cfg).
  { split; [unfold poff; apply Z.mul_nonneg_nonneg; [apply Z.div_pos; lia|lia]|done]. }
  assert (va < base + max_va_size cfg).
  { unfold poff in Hlt. clear -Hlt Hsm. euclid. }
  split; [lia|].
  destruct (find_last_run XLAT_FUEL 0 0 poff Hp eq_refl) as (n & k & d & Hlf & Hrun); [unfold XLAT_FUEL; lia|].
  exists n, k, d. split; [done|]. cbv zeta in *. replace (L0 + Z.of_nat 0) with L0 in Hrun by lia.
  replace (taddr s 0) with (tables (tbls s)) in Hrun by (unfold taddr; lia).
  rewrite (Z.div_small poff (bsize (L0 - 1))) in Hrun by lia. rewrite Z.mul_0_l, Z.add_0_r in Hrun.
  rewrite (bind_run _ _ s _ s (eq_trans (gets_bind tbls _ s) Hrun)). done.
Qed.

(** * The entry of a page *)

(** [llt] describes the level 3 table [k] that the walk for [va] ends in. *)
Definition llt_of (llt : xlat_llt_info) (va k : Z) : Prop :=
  (∃ n, L0 + Z.of_nat n = 3 ∧ table_at L0 s n (va - base) = Some k) ∧
  llt = {| llt_table := taddr s k; llt_base_va := base + (va - base) / bsize 2 * bsize 2; llt_level := 3 |}.

Definition in_ctx_va (va : Z) : Prop := base <= va < base + max_va_size cfg.

Lemma llt_of_found va0 va llt d :
  is_u64 va0 → is_u64 va → xlat_get_llt_from_va cfg va0 s = Ok ((0, Some llt), s) → llt_level llt = 3 →
  (va0 - base) / bsize 2 = (va - base) / bsize 2 → in_ctx_va va → s1_view L0 s (va - base) = Some (d, 3) →
  ∃ k, llt_of llt va k ∧ ent s k (idx (va - base) 3) = d.
Proof using LC.
  intros H0 Hva Hl Hl3 Hblk Hin Hv. pose proof (lc_level _ _ LC) as [HL _].
  destruct (xlat_get_llt_spec va0 H0) as [(Hin0 & n & k & d0 & Hlf & Hrun)|[_ Hrun]]; cbv zeta in Hrun;
    rewrite Hl in Hrun; [|done]. injection Hrun as ->. cbn in Hl3.
  destruct (leaf_exists L0 HL s (va - base)) as (n' & k' & d' & Hlf').
  rewrite (view_leaf L0 HL _ _ _ _ _ Hlf') in Hv. destruct (d' =? 0); [done|]. injection Hv as -> E3.
  assert (n' = n) as -> by lia. rewrite Hl3 in *.
  assert (Hp : (va0 - base) / 4096 * 4096 / bsize 2 = (va - base) / bsize 2).
  { rewrite <- Hblk. change (bsize 2) with (4096 * 512). rewrite <- !Z.div_div by lia. by rewrite Z.div_mul by lia. }
  assert (k' = k) as ->.
  { destruct Hlf as [Hr _]. destruct Hlf' as [Hr' _]. cut (Some k' = Some k); [congruence|]. rewrite <- Hr, <- Hr'.
    apply reach_block; [lia|]. rewrite Hl3. by symmetry. }
  exists k. split.
  - split; [exists n; split; [done|apply Hlf']|]. change (3 - 1) with 2. by rewrite Hp.
  - destruct Hlf' as (_ & <- & _). by rewrite Hl3.
Qed.

Section entry.
Context (llt : xlat_llt_info) (va k : Z) (Hllt : llt_of llt va k) (Hin : in_ctx_va va).
Local Abbreviation off := (va - base).
Local Abbreviation i0 := (idx (va - base) 3).

Lemma entry_space : in_space L0 off.
Proof using LC Hin. pose proof (lc_size _ _ LC). unfold in_space, in_ctx_va in *. lia. Qed.

Lemma entry_k : 0 <= k < tables_num (tbls s).
Proof using LC Hin Hllt.
  destruct Hllt as [(n & _ & Hr) _]. pose proof (lc_tree _ _ LC) as T.
  pose proof (reach_range L0 s n _ k T entry_space Hr). pose proof (tree_next L0 s T). lia.
Qed.

Lemma tte_ptr_run : xlat_get_tte_ptr llt va = Ok (Some (taddr s k + 8 * i0)).
Proof using LC Hllt Hin.
  pose proof (lc_base _ _ LC) as (Hb0 & _ & Hb). unfold in_ctx_va in Hin. destruct Hllt as [_ ->]. unfold xlat_get_tte_ptr. cbn [llt_level llt_base_va llt_table].
  rewrite rassert_bind by done. rewrite rassert_bind by (unfold XLAT_TABLE_LEVEL_MIN; by destruct ENABLE_OPENCCA).
  change (bsize 2) with 2097152. pose proof (Z.div_mod off 2097152). pose proof (Z.mod_pos_bound off 2097152).
  assert (0 <= off / 2097152) by (apply Z.div_pos; lia).
  replace (va <? _) with false by lia. rewrite u64_small by (unfold is_u64; lia).
  assert (Ei : u32 ((va - (base + off / 2097152 * 2097152)) .>> XLAT_ADDR_SHIFT 3) = i0).
  { change (XLAT_ADDR_SHIFT 3) with 12. rewrite Z.shiftr_div_pow2 by lia.
    replace (va - (base + off / 2097152 * 2097152)) with (off mod 2097152) by lia.
    unfold idx. change (bsize 3) with (2 ^ 12). rewrite u32_small_div. change (2 ^ 12) with 4096. euclid. }
  rewrite Ei. unfold XLAT_GET_TABLE_ENTRIES, XLAT_TABLE_LEVEL_MIN. pose proof (idx_range off 3).
  replace (3 =? (if ENABLE_OPENCCA then 0 else -1)) with false by (by destruct ENABLE_OPENCCA).
  change XLAT_TABLE_ENTRIES with 512. by replace (i0 <? 512) with true by lia.
Qed.

Lemma read_entry : xlat_read_tte (taddr s k + 8 * i0) s = Ok (ent s k i0, s).
Proof using LC Hin Hllt.
  unfold xlat_read_tte, tt_get. rewrite Z.mul_0_r, Z.add_0_r. pose proof (idx_range off 3).
  rewrite word_index_taddr, result_bind_ok by lia.
  rewrite (aget_lookup _ _ (ent s k i0)); [done|pose proof entry_k; lia|].
  apply (ent_lookup L0); [apply LC|apply entry_k|done].
Qed.

Lemma write_entry d : xlat_write_tte (taddr s k + 8 * i0) d s = Ok ((), put s k i0 d).
Proof using LC Hin Hllt.
  unfold xlat_write_tte, tt_set. rewrite Z.mul_0_r, Z.add_0_r. pose proof (idx_range off 3).
  rewrite word_index_taddr, result_bind_ok by lia. pose proof entry_k. pose proof (tree_len L0 s (lc_tree _ _ LC)).
  by rewrite aset_ok by lia.
Qed.

(** ** The answers of the two functions *)

(** The descriptor that is written for a page. *)
Definition page_desc (pa attrs : Z) : Z :=
  set_oa_to_tte (pa / 4096 * 4096) .| desc_attrs attrs 3 .| TRANSIENT_DESC.

Lemma tt_map_run pa attrs max_pa :
  xlat_arch_get_max_supported_pa = Ok max_pa → is_u64 pa → known_type attrs → MT_TYPE attrs ≠ MT_TRANSIENT →
  xlat_map_memory_page_with_attrs llt va pa attrs s =
    if (ent s k i0 =? TRANSIENT_DESC) && (pa <=? max_pa) then Ok (0, put s k i0 (page_desc pa attrs))
    else Ok (- EFAULT, s).
Proof using LC Hllt Hin.
  intros Hmax Hpa Hk Ht. unfold xlat_map_memory_page_with_attrs.
  run_step (lift_run _ _ s tte_ptr_run). run_step read_entry.
  destruct (ent s k i0 =? TRANSIENT_DESC); [|done]. cbn [negb andb].
  run_step (lift_run _ _ s Hmax). destruct (Z.ltb_spec max_pa pa), (Z.leb_spec pa max_pa); try done; try lia.
  assert (El : llt_level llt = 3) by by destruct Hllt as [_ ->]. rewrite El.
  assert (Em : pa .& XLAT_ADDR_MASK 3 = pa / 4096 * 4096).
  { unfold XLAT_ADDR_MASK. rewrite land_not64 by done. change (XLAT_BLOCK_MASK 3) with (Z.ones 12).
    rewrite Z.ldiff_ones_r, Z.shiftr_div_pow2, Z.shiftl_mul_pow2 by lia. done. }
  assert (Hal : (pa / 4096 * 4096) mod bsize 3 = 0) by (change (bsize 3) with 4096; by rewrite Z.mod_mul).
  rewrite Em. run_step (lift_run _ _ s (xlat_desc_split attrs _ 3 Hk Ht ltac:(lia) Hal)).
  by run_step (write_entry (page_desc pa attrs)).
Qed.

Lemma tt_unmap_run :
  xlat_unmap_memory_page llt va s =
    if ent s k i0 .& (TRANSIENT_DESC .| VALID_DESC) =? TRANSIENT_DESC .| VALID_DESC
    then Ok (0, set_tlbivae2 (TLBI_ADDR va :: tlbivae2 s) (put s k i0 TRANSIENT_DESC))
    else Ok (- EFAULT, s).
Proof using LC Hllt Hin.
  unfold xlat_unmap_memory_page. run_step (lift_run _ _ s tte_ptr_run). run_step read_entry.
  destruct (_ =? _); [|done]. cbn [negb]. run_step (write_entry TRANSIENT_DESC : xlat_write_tte_release _ _ s = _).
  done.
Qed.

(** ** The effect of a write *)

Lemma put_page_live d : live_ctx cfg (put s k i0 d).
Proof using LC Hllt Hin.
  destruct Hllt as [(n & Hn & Hr) _]. destruct LC as [H1 T H3 H4 H5]. split; try done.
  rewrite <- Hn. apply put_leaf_tree; try done; [apply entry_space|by right|by right].
Qed.

Lemma put_page_view d v : in_space L0 v →
  s1_view L0 (put s k i0 d) v =
    if decide (v / 4096 = off / 4096) then if d =? 0 then None else Some (d, 3) else s1_view L0 s v.
Proof using LC Hllt Hin.
  intros Hv. destruct Hllt as [(n & Hn & Hr) _]. pose proof (lc_level _ _ LC) as [HL _].
  pose proof (put_leaf_view L0 HL s off n k d (lc_tree _ _ LC) entry_space Hr (or_intror Hn) (or_intror Hn) v Hv) as H.
  rewrite Hn in H. exact H.
Qed.

Lemma put_page_reach d m v : in_space L0 v → table_at L0 (put s k i0 d) m v = table_at L0 s m v.
Proof using LC Hllt Hin.
  intros Hv. destruct Hllt as [(n & Hn & Hr) _].
  pose proof (put_leaf_reach L0 s off n k d (lc_tree _ _ LC) entry_space Hr (or_intror Hn) (or_intror Hn) m v Hv) as H.
  rewrite Hn in H. exact H.
Qed.

Lemma put_page_ent d : ent (put s k i0 d) k i0 = d.
Proof using LC Hllt Hin.
  rewrite (ent_put L0) by (apply LC || apply entry_k || apply idx_range). by rewrite decide_True.
Qed.

Lemma put_put d d' : put (put s k i0 d) k i0 d' = put s k i0 d'.
Proof using Type. unfold put, set_area. cbn. by rewrite list_insert_insert_eq. Qed.

Lemma put_same : put s k i0 (ent s k i0) = s.
Proof using LC Hllt Hin.
  unfold put. rewrite list_insert_id; [by destruct s|]. apply (ent_lookup L0); [apply LC|apply entry_k|apply idx_range].
Qed.
End entry.
End ctx.

Lemma llt_of_put cfg s llt va k d :
  live_ctx cfg s → llt_of cfg s llt va k → in_ctx_va cfg va →
  llt_of cfg (put s k (idx (va - cfg_base_va cfg) 3) d) llt va k.
Proof.
  intros LC Hllt Hin. pose proof Hllt as [(n & Hn & Hr) E]. split; [|done]. exists n. split; [done|].
  by rewrite (put_page_reach cfg s LC llt va k Hllt Hin _ _ _ (entry_space cfg s LC va Hin)).
Qed.

(** ** The descriptor of a page *)

Lemma testbit_transient i : 0 <= i → i ≠ 55 → Z.testbit TRANSIENT_DESC i = false.
Proof. intros Hi Hn. change TRANSIENT_DESC with (2 ^ 55). rewrite Z.pow2_bits_false; [done|lia]. Qed.

Lemma page_desc_bits pa attrs i :
  0 <= i → (i < 8 ∨ 10 <= i < 12 ∨ 50 <= i) → i ≠ 55 → Z.testbit (page_desc pa attrs) i = Z.testbit (desc_attrs attrs 3) i.
Proof.
  intros Hi Hr Hn. unfold page_desc. rewrite Z.lor_spec, testbit_transient, orb_false_r by done. by apply desc_bits.
Qed.

Lemma page_desc_valid pa attrs :
  page_desc pa attrs .& (TRANSIENT_DESC .| VALID_DESC) = TRANSIENT_DESC .| VALID_DESC.
Proof.
  destruct (desc_attrs_perms attrs 3) as (P0 & _). change (TRANSIENT_DESC .| VALID_DESC) with (2 ^ 55 .| 2 ^ 0).
  rewrite Z.land_lor_distr_r. f_equal; apply Z.bits_inj'; intros i Hi; rewrite Z.land_spec, Z.pow2_bits_eqb by lia.
  - destruct (Z.eqb_spec 55 i) as [<-|]; [|by rewrite andb_false_r]. unfold page_desc. rewrite Z.lor_spec.
    change (Z.testbit TRANSIENT_DESC 55) with true. by rewrite orb_true_r.
  - destruct (Z.eqb_spec 0 i) as [<-|]; [|by rewrite andb_false_r]. by rewrite page_desc_bits, P0 by lia.
Qed.

Lemma page_desc_invalid pa attrs : page_desc pa attrs ≠ TRANSIENT_DESC ∧ page_desc pa attrs ≠ 0.
Proof. pose proof (page_desc_valid pa attrs) as H. split; intros E; rewrite E in H; vm_compute in H; discriminate. Qed.

Lemma page_desc_mmu pa attrs x :
  0 <= pa < OA_LIMIT → known_type attrs → MT_TYPE attrs ≠ MT_TRANSIENT →
  (if maps (page_desc pa attrs) 3 then
     Some (xlat_get_oa_from_tte (page_desc pa attrs) + x, negb (Z.testbit (page_desc pa attrs) 7),
           negb (Z.testbit (page_desc pa attrs) 53))
   else None) = Some (pa / 4096 * 4096 + x, wants_write attrs, wants_exec attrs).
Proof.
  intros Hpa Hk Ht. destruct (desc_attrs_perms attrs 3) as (P0 & P1 & _ & P7 & P53 & _).
  unfold maps. rewrite !page_desc_bits, P0, P1, P7, P53 by lia. cbn [andb Z.eqb].
  unfold page_desc. rewrite <- Z.lor_assoc, oa_of_desc.
  - do 3 f_equal. by apply wants_exec_bit.
  - pose proof (Z.mul_div_le pa 4096). pose proof (Z.div_pos pa 4096). lia.
  - by rewrite Z.mod_mul.
  - apply inmask_lor; [apply desc_attrs_field|]. unfold ATTR_FIELD. by destruct is_feat_lpa2_4k_present.
Qed.

(** * Mapping and unmapping *)

Lemma mmu_view cfg s s' va :
  s1_view (base_level cfg) s' (va - cfg_base_va cfg) = s1_view (base_level cfg) s (va - cfg_base_va cfg) →
  mmu cfg s' va = mmu cfg s va.
Proof. unfold mmu. by intros ->. Qed.

Section roundtrip.
Context (cfg : xlat_ctx_cfg) (s : xlat_state) (LC : live_ctx cfg s) (max_pa : Z).
Context (Hmax : xlat_arch_get_max_supported_pa = Ok max_pa) (Hoa : max_pa < OA_LIMIT).
Context (llt : xlat_llt_info) (va k : Z) (Hllt : llt_of cfg s llt va k) (Hin : in_ctx_va cfg va) (Hal : va mod 4096 = 0).
Local Abbreviation i0 := (idx (va - cfg_base_va cfg) 3).

(** The page of [va] is mapped to [pa], and nothing else changes. *)
Lemma put_page_mmu pa attrs v :
  0 <= pa <= max_pa → known_type attrs → MT_TYPE attrs ≠ MT_TRANSIENT →
  mmu cfg (put s k i0 (page_desc pa attrs)) v =
    if decide (va <= v < va + 4096) then Some (pa / 4096 * 4096 + (v - va), wants_write attrs, wants_exec attrs)
    else mmu cfg s v.
Proof using All.
  intros Hpa Hk Ht. pose proof (lc_size _ _ LC) as [[Hs0 Hs] Hsm]. pose proof (lc_base _ _ LC) as (Hb0 & Hbm & _).
  unfold in_ctx_va in Hin. set (base := cfg_base_va cfg) in *.
  destruct (decide (0 <= v - base < max_va_size cfg)) as [Hr|Hr]; cycle 1.
  { rewrite decide_False by (clear -Hr Hin Hal Hbm Hsm; euclid). unfold mmu. fold base.
    by replace ((0 <=? v - base) && (v - base <? max_va_size cfg)) with false by lia. }
  assert (Hd : (v - base) / 4096 = (va - base) / 4096 ↔ va <= v < va + 4096) by (clear -Hal Hbm; euclid).
  pose proof (put_page_view cfg s LC llt va k Hllt Hin (page_desc pa attrs) (v - base) ltac:(unfold in_space; lia)) as Hv.
  fold base in Hv. destruct (decide (va <= v < va + 4096)) as [Hp|Hp].
  - rewrite decide_True in Hv by tauto. rewrite (proj2 (Z.eqb_neq _ _) (proj2 (page_desc_invalid pa attrs))) in Hv.
    unfold mmu. fold base. replace ((0 <=? v - base) && (v - base <? max_va_size cfg)) with true by lia.
    rewrite Hv, page_desc_mmu by (done || lia). do 3 f_equal. change (bsize 3) with 4096. clear -Hal Hbm Hp. euclid.
  - rewrite decide_False in Hv by tauto. by apply mmu_view.
Qed.
End roundtrip.
End page.

Lemma page_offset x o : x mod 4096 = 0 → 0 <= o < 4096 → (x + o) / 4096 = x / 4096 ∧ (x + o) mod 4096 = o.
Proof. intros. euclid. Qed.

Section slot.
Context {CF : Config} {CPU : Cpu} {ME : Self}.

(** * The code *)

Definition slot_to_va (slot : Z) : result Z :=
  rassert (slot <? Buffer.NR_CPU_SLOTS) ≫= λ _, Ok (SLOT_VIRT .+ (GRANULE_SIZE .* slot)).

(** [entry] is the cached [xlat_llt_info] of the processor. *)
Definition buffer_map_tt (entry : xlat_llt_info) (slot addr : Z) : M xlat_state (option Z) :=
  lift (slot_to_va slot) ≫= λ va,
  massert (GRANULE_ALIGNED addr) ≫= λ _,
  let attr := XLAT_NG_DATA_ATTR .| (if slot =? Buffer.SLOT_NS then MT_NS else MT_REALM) in
  xlat_map_memory_page_with_attrs entry va addr attr ≫= λ ret,
  if negb (ret =? 0) then mret None else mret (Some va).

Definition buffer_unmap_tt (entry : xlat_llt_info) (buf : Z) : M xlat_state () :=
  xlat_unmap_memory_page entry buf ≫= λ ret, massert (ret =? 0).

Definition slot_to_descriptor (entry : xlat_llt_info) (slot : Z) : M xlat_state Z :=
  lift (slot_to_va slot) ≫= λ va,
  lift (xlat_get_tte_ptr entry va) ≫= λ o,
  massert (bool_decide (is_Some o)) ≫= λ _, mderef o ≫= xlat_read_tte.

(** The cache after the call; it is filled once. *)
Definition slot_buf_finish_warmboot_init (cache : option xlat_llt_info) (h : high_va) : result xlat_llt_info :=
  rassert (is_mmu_enabled (regs h)) ≫= λ _,
  match cache with
  | Some llt => Ok llt
  | None =>
      slot_to_va Buffer.SLOT_NS ≫= λ va,
      match xlat_get_llt_from_va (high_va_cfg h) va (high_va_tbls h) with
      | Ok ((ret, o), _) =>
          if negb (ret =? 0) then Err FPanic
          else match o with Some llt => Ok llt | None => Err FPanic end
      | Err f => Err f
      end
  end.

(** * Addresses *)

Definition sva (slot : Z) : Z := 2 ^ 64 - 184320 + 4096 * slot.

Lemma slot_to_va_run slot : 0 <= slot < Buffer.NR_CPU_SLOTS → slot_to_va slot = Ok (sva slot).
Proof.
  intros Hs. unfold slot_to_va. rewrite rassert_bind by (apply Z.ltb_lt; lia).
  change Buffer.NR_CPU_SLOTS with 43 in Hs. f_equal. change SLOT_VIRT with (2 ^ 64 - 184320). change GRANULE_SIZE with 4096.
  rewrite (u64_small (4096 * slot)) by (unfold is_u64; lia). apply u64_small. unfold is_u64, sva. lia.
Qed.

Definition slot_attr (slot : Z) : Z := XLAT_NG_DATA_ATTR .| (if slot =? Buffer.SLOT_NS then MT_NS else MT_REALM).

Lemma slot_attr_facts slot :
  known_type (slot_attr slot) ∧ MT_TYPE (slot_attr slot) ≠ MT_TRANSIENT ∧
  wants_write (slot_attr slot) = true ∧ wants_exec (slot_attr slot) = false.
Proof.
  unfold slot_attr, MT_REALM. destruct (slot =? Buffer.SLOT_NS), ENABLE_OPENCCA; (split; [right; left; reflexivity|]); done.
Qed.

(** * The relation with the abstract slots *)

Section refine.
Context {P : Platform} {H : Buffer.Machine}.
Context (Hmax : xlat_arch_get_max_supported_pa = Ok Buffer.xlat_arch_get_max_supported_pa)
  (Hoa : Buffer.xlat_arch_get_max_supported_pa < OA_LIMIT).
Context (cfg : xlat_ctx_cfg) (llt : xlat_llt_info).
Local Abbreviation base := (cfg_base_va cfg).

(** The upper half: a multiple of 2MB, at the end of the addresses. *)
Definition high_ctx : Prop :=
  base = 2 ^ 64 - max_va_size cfg ∧ max_va_size cfg mod 2097152 = 0 ∧ 2097152 <= max_va_size cfg.

(** The descriptor of a slot: the page of the granule that is mapped, or a free transient page. *)
Definition slot_desc (m : gmap Z Z) (slot d : Z) : Prop :=
  match m !! slot with
  | Some g => ∃ a, granule_addr g = Ok a ∧ 0 <= a <= Buffer.xlat_arch_get_max_supported_pa ∧ a mod 4096 = 0 ∧
      d = page_desc a (slot_attr slot)
  | None => d = TRANSIENT_DESC
  end.

Record slots_rel (st : state) (s : xlat_state) : Prop := {
  sr_live : live_ctx cfg s;
  sr_slot slot : 0 <= slot < Buffer.NR_CPU_SLOTS →
    ∃ k, llt_of cfg s llt (sva slot) k ∧ slot_desc (slots st) slot (ent s k (idx (sva slot - base) 3));
}.

Context (HC : high_ctx).

Lemma slot_in_ctx slot : 0 <= slot < Buffer.NR_CPU_SLOTS → in_ctx_va cfg (sva slot) ∧ sva slot mod 4096 = 0.
Proof using HC.
  change Buffer.NR_CPU_SLOTS with 43. intros Hs. destruct HC as (Hb & _ & Hm). unfold in_ctx_va, sva. split; [lia|].
  change (2 ^ 64) with (4503599627370451 * 4096 + 45 * 4096). 
  replace (_ - 184320 + 4096 * slot) with ((4503599627370451 + slot) * 4096) by lia. by rewrite Z.mod_mul.
Qed.

Lemma slot_idx slot : 0 <= slot < Buffer.NR_CPU_SLOTS → idx (sva slot - base) 3 = 467 + slot.
Proof using HC.
  change Buffer.NR_CPU_SLOTS with 43. intros Hs. destruct HC as (Hb & Hm & _). unfold idx, sva. change (bsize 3) with 4096.
  replace (2 ^ 64 - 184320 + 4096 * slot - base) with (max_va_size cfg - 184320 + 4096 * slot) by lia.
  clear Hb. euclid.
Qed.

(** Writing the entry of a slot changes that slot. *)
Lemma slots_put st s slot k d m :
  slots_rel st s → 0 <= slot < Buffer.NR_CPU_SLOTS → llt_of cfg s llt (sva slot) k →
  (∀ i, i ≠ slot → m !! i = slots st !! i) → slot_desc m slot d →
  slots_rel (set_slots m st) (put s k (idx (sva slot - base) 3) d).
Proof using HC.
  intros R Hs Hk Hm Hd. pose proof (sr_live _ _ R) as LC. destruct (slot_in_ctx slot Hs) as [Hin _].
  split; [by apply (put_page_live cfg s LC llt)|].
  intros i Hi. destruct (sr_slot _ _ R i Hi) as (k' & Hk' & Hd'). destruct (slot_in_ctx i Hi) as [Hin' _].
  assert (k' = k) as ->.
  { destruct Hk as [_ E], Hk' as [_ E']. rewrite E in E'. injection E' as E' _. unfold taddr in E'. lia. }
  exists k. split.
  - destruct Hk' as [(n & Hn & Hr) E]. split; [|done]. exists n. split; [done|].
    by rewrite (put_page_reach cfg s LC llt (sva slot) k Hk Hin _ _ _ (entry_space cfg s LC _ Hin')).
  - rewrite (ent_put (base_level cfg)) by (apply LC || (by apply (entry_k cfg s LC llt (sva slot))) ||
      apply idx_range || (pose proof (entry_k cfg s LC llt (sva slot) k Hk Hin); lia)).
    rewrite !slot_idx by done. destruct (decide (i = slot)) as [->|Hne].
    + rewrite decide_True by lia. done.
    + rewrite decide_False by lia. unfold slot_desc in *. cbn. rewrite Hm by done. by rewrite <- slot_idx by done.
Qed.

(** * Operations *)

Lemma slot_desc_free m slot d : slot_desc m slot d → m !! slot = None ↔ d = TRANSIENT_DESC.
Proof using Type.
  unfold slot_desc. destruct (m !! slot); [|tauto]. intros (a & _ & _ & _ & ->).
  split; [done|]. intros E. by destruct (page_desc_invalid a (slot_attr slot)).
Qed.

Lemma set_slots_same st : set_slots (slots st) st = st.
Proof using Type. by destruct st. Qed.

Lemma map_refines st s slot g addr :
  slots_rel st s → 0 <= slot → granule_addr g = Ok addr → is_u64 addr →
  match Buffer.buffer_map_internal slot g addr st with
  | Ok (o, st') => ∃ s', buffer_map_tt llt slot addr s = Ok (sva <$> o, s') ∧ slots_rel st' s'
  | Err f => buffer_map_tt llt slot addr s = Err f
  end.
Proof using HC Hmax.
  intros R Hs Hg Ha. unfold Buffer.buffer_map_internal, buffer_map_tt.
  destruct (Z.ltb_spec slot Buffer.NR_CPU_SLOTS) as [Hlt|Hge]; cycle 1.
  { unfold slot_to_va. by replace (slot <? Buffer.NR_CPU_SLOTS) with false by lia. }
  run_step (massert_run true st eq_refl). run_step (lift_run _ _ s (slot_to_va_run slot ltac:(lia))).
  destruct (GRANULE_ALIGNED addr) eqn:Hal; [|done].
  run_step (massert_run true st eq_refl). run_step (massert_run true s eq_refl). rewrite gets_bind.
  fold (slot_attr slot). destruct (slot_attr_facts slot) as (F1 & F2 & _).
  destruct (sr_slot _ _ R slot ltac:(lia)) as (k & Hk & Hd). destruct (slot_in_ctx slot ltac:(lia)) as [Hin Hsa].
  pose proof (tt_map_run cfg s (sr_live _ _ R) llt (sva slot) k Hk Hin addr (slot_attr slot) _ Hmax Ha F1 F2) as Hrun.
  set (d := ent s k (idx (sva slot - base) 3)) in *. pose proof (slot_desc_free _ _ _ Hd) as Hfree.
  destruct (slots st !! slot) as [g'|] eqn:Hm.
  { replace (d =? TRANSIENT_DESC) with false in Hrun by (symmetry; apply Z.eqb_neq; intros E; apply Hfree in E; done).
    cbn [andb] in Hrun. run_step Hrun. exists s. done. }
  replace (d =? TRANSIENT_DESC) with true in Hrun by (symmetry; apply Z.eqb_eq; by apply Hfree). cbn [andb] in Hrun.
  destruct (Z.ltb_spec Buffer.xlat_arch_get_max_supported_pa addr), (Z.leb_spec addr Buffer.xlat_arch_get_max_supported_pa);
    try lia; run_step Hrun; [exists s; done|]. rewrite mmodify_bind. eexists. split; [done|].
  apply slots_put; try done; try lia.
  - intros i Hi. by rewrite lookup_insert_ne.
  - unfold slot_desc. rewrite lookup_insert_eq. exists addr. apply granule_aligned_mod in Hal. unfold is_u64 in Ha.
    split_and!; try done; lia.
Qed.

Lemma unmap_refines st s slot :
  slots_rel st s → 0 <= slot < Buffer.NR_CPU_SLOTS →
  match Buffer.buffer_unmap_internal slot st with
  | Ok (_, st') => ∃ s', buffer_unmap_tt llt (sva slot) s = Ok ((), s') ∧ slots_rel st' s'
  | Err f => buffer_unmap_tt llt (sva slot) s = Err f
  end.
Proof using HC.
  intros R Hs. unfold Buffer.buffer_unmap_internal, buffer_unmap_tt. rewrite gets_bind.
  destruct (sr_slot _ _ R slot Hs) as (k & Hk & Hd). destruct (slot_in_ctx slot Hs) as [Hin Hsa].
  pose proof (tt_unmap_run cfg s (sr_live _ _ R) llt (sva slot) k Hk Hin) as Hrun.
  pose proof Hd as Hd0. unfold slot_desc in Hd0.
  destruct (slots st !! slot) as [g|] eqn:Hm.
  - destruct Hd0 as (a & _ & _ & _ & E). rewrite E, page_desc_valid, Z.eqb_refl in Hrun. run_step Hrun.
    rewrite bool_decide_true by done. run_step (massert_run true st eq_refl). unfold mmodify. eexists. split; [done|].
    assert (R' : slots_rel (set_slots (delete slot (slots st)) st) (put s k (idx (sva slot - base) 3) TRANSIENT_DESC)).
    { apply slots_put; try done; [intros i Hi; by rewrite lookup_delete_ne|]. unfold slot_desc. by rewrite lookup_delete_eq. }
    destruct R' as [L' S']. split.
    + destruct L' as [H1 T H3 H4 H5]. split; try done. by apply (tree_ext _ (put s k (idx (sva slot - base) 3) TRANSIENT_DESC)).
    + intros i Hi. destruct (S' i Hi) as (k' & ((n & Hn & Hr) & E') & Hd'). exists k'. split; [|done].
      split; [|done]. exists n. split; [done|]. by rewrite (reach_ext _ (put s k (idx (sva slot - base) 3) TRANSIENT_DESC)).
  - rewrite Hd0 in Hrun. change (TRANSIENT_DESC .& _ =? _) with false in Hrun. run_step Hrun.
    by rewrite bool_decide_false by (intros [? ?]; done).
Qed.

(** The hardware translates the addresses of a slot to the granule mapped there, for reading and
    writing only. *)
Lemma slot_mmu st s slot o :
  slots_rel st s → 0 <= slot < Buffer.NR_CPU_SLOTS → 0 <= o < 4096 →
  match slots st !! slot with
  | Some g => ∃ a, granule_addr g = Ok a ∧ mmu cfg s (sva slot + o) = Some (a + o, true, false)
  | None => mmu cfg s (sva slot + o) = None
  end.
Proof using HC Hoa.
  intros R Hs Ho. destruct (sr_slot _ _ R slot Hs) as (k & [(n & Hn & Hr) _] & Hd).
  pose proof (sr_live _ _ R) as LC. destruct (slot_in_ctx slot Hs) as [Hin Hal]. pose proof (lc_level _ _ LC) as [HL _].
  pose proof (entry_space cfg s LC _ Hin) as Hsp. pose proof HC as (Hb & Hmm & Hm2).
  change Buffer.NR_CPU_SLOTS with 43 in Hs. unfold in_ctx_va in Hin.
  assert (Hoff : 0 <= sva slot + o - base < max_va_size cfg) by (unfold sva in *; lia).
  assert (Hx : (sva slot - base) mod 4096 = 0) by (rewrite Hb; clear -Hal Hmm; euclid).
  destruct (page_offset (sva slot - base) o Hx Ho) as [Hdiv Hmod].
  replace (sva slot - base + o) with (sva slot + o - base) in * by lia.
  set (d := ent s k (idx (sva slot - base) 3)) in *.
  assert (Hlf : walk_ends (base_level cfg) s (sva slot + o - base) n k d).
  { split; [|split; [|split; [lia|by right]]].
    - rewrite <- Hr. apply reach_block; [lia|]. apply same_block_up; [lia|]. rewrite Hn. done.
    - rewrite Hn. unfold idx. change (bsize 3) with 4096. by rewrite Hdiv. }
  pose proof (view_leaf _ HL _ _ _ _ _ Hlf) as Hv. rewrite Hn in Hv. unfold mmu.
  replace ((0 <=? _) && (_ <? max_va_size cfg)) with true by lia. rewrite Hv. unfold slot_desc in Hd.
  destruct (slots st !! slot) as [g|].
  - destruct Hd as (a & Hg & Ha & Ham & E). exists a. split; [done|]. rewrite E.
    rewrite (proj2 (Z.eqb_neq _ _) (proj2 (page_desc_invalid a (slot_attr slot)))).
    destruct (slot_attr_facts slot) as (F1 & F2 & F3 & F4).
    rewrite page_desc_mmu, F3, F4 by (done || lia). change (bsize 3) with 4096. rewrite Hmod.
    do 4 f_equal. clear -Ham. euclid.
  - by rewrite Hd.
Qed.
End refine.

(** * The context of a processor *)

(** The code that turns the MMU on after the setup is in assembly. *)
Definition mmu_on (h : high_va) : high_va :=
  {| mm_regions := mm_regions h; high_va_cfg := high_va_cfg h; high_va_tbls := high_va_tbls h;
     regs := {| mair_el2 := mair_el2 (regs h); tcr_el2 := tcr_el2 (regs h); ttbr0_el2 := ttbr0_el2 (regs h);
                ttbr1_el2 := ttbr1_el2 (regs h); is_mmu_enabled := true |} |}.

(** The regions of a processor, with its stacks. *)
Definition my_regions : list xlat_mmap_region :=
  [set_base_pa (rmm_get_my_eh_stack my_cpuid .- RMM_CPU_EH_STACK_SIZE) RMM_EH_STACK_MMAP;
   set_base_pa (rmm_get_my_stack my_cpuid .- RMM_CPU_STACK_SIZE) RMM_STACK_MMAP; RMM_SLOT_BUF_MMAP].

Lemma my_regions_words : Forall region_words my_regions.
Proof. repeat constructor; try apply u64_range; done. Qed.

Lemma my_regions_types : Forall (λ m, known_type (attr m)) my_regions.
Proof.
  unfold my_regions. rewrite !Forall_cons. unfold known_type.
  split_and!; [right; left|right; left|right; right|constructor]; done.
Qed.

Lemma high_va_size_eq : XLAT_HIGH_VA_SIZE = if ENABLE_OPENCCA then 2 ^ 25 else 2 ^ 21.
Proof. unfold XLAT_HIGH_VA_SIZE. by destruct ENABLE_OPENCCA. Qed.

Lemma nblk_bound l a n : l <= 3 → 0 <= n < bsize l → nblk l a (a + n) <= 2.
Proof.
  intros Hl Hn. unfold nblk. pose proof (bsize_pos l ltac:(lia)).
  assert ((a + n + bsize l - 1) / bsize l < a / bsize l + 3); [|lia].
  apply Z.div_lt_upper_bound; [lia|]. pose proof (Z.mul_succ_div_gt a (bsize l)). lia.
Qed.

(** The tables of a processor are enough for its regions. *)
Lemma my_regions_need cfg max_pa :
  configured cfg VA_HIGH_REGION XLAT_HIGH_VA_SIZE my_regions max_pa → 0 <= RMM_NUM_PAGES_PER_STACK < 512 →
  1 + regions_need cfg (mmap cfg) <= high_va_tts_tables.
Proof.
  intros C Hn. pose proof (cf_level _ _ _ _ _ C) as Hl. rewrite (cf_mmap _ _ _ _ _ C).
  unfold my_regions. cbn [fmap list_fmap regions_need foldr].
  rewrite high_va_size_eq in Hl. unfold GET_XLAT_TABLE_LEVEL_BASE in Hl. unfold high_va_tts_tables, tables_need.
  destruct ENABLE_OPENCCA.
  - change (base_level cfg = 2) in Hl. rewrite Hl. change (Z.to_nat (3 - 2)) with 1%nat. cbn [need].
    repeat match goal with |- context [nblk 2 (base_va ?m) _] =>
      let Hb := fresh in pose proof (nblk_bound 2 (base_va m) (size m) ltac:(lia)) as Hb;
      generalize dependent (nblk 2 (base_va m) (base_va m + size m)); intros end.
    change (bsize 2) with 2097152 in *.
    repeat match goal with H : 0 <= size (in_ctx ?r ?b ?m) < _ → _ |- _ =>
      rewrite (proj1 (in_ctx_members r b m)) in H end.
    assert (0 <= RMM_CPU_STACK_SIZE < 2097152).
    { unfold RMM_CPU_STACK_SIZE. change PAGE_SIZE with 4096. rewrite u64_small by (unfold is_u64; lia). lia. }
    cbn in *. change RMM_CPU_EH_STACK_SIZE with 4096 in *. change RMM_SLOT_BUF_SIZE with 184320 in *. lia.
  - change (base_level cfg = 3) in Hl. rewrite Hl. done.
Qed.

(** A first setup that succeeds: the context is the one built for the regions. *)
Lemma setup_inv words r tables_ptr h max_pa :
  xlat_high_va_setup tables_ptr (high_va_reset words r) = Ok (0, h) →
  xlat_arch_get_max_supported_pa = Ok max_pa → 0 <= RMM_NUM_PAGES_PER_STACK < 512 →
  table_area (high_va_tbls (high_va_reset words r)) tables_ptr high_va_tts_tables →
  let cfg := high_va_cfg h in let s := high_va_tbls h in
  configured cfg VA_HIGH_REGION XLAT_HIGH_VA_SIZE my_regions max_pa ∧ live_ctx cfg s ∧
  (∀ va, in_space (base_level cfg) va → outside_all (mmap cfg) va → s1_view (base_level cfg) s va = None) ∧
  Forall (λ m, ∀ va, in_mmap m va → ∃ d l, s1_view (base_level cfg) s va = Some (d, l) ∧ region_entry m va d l) (mmap cfg).
Proof.
  intros Hset Hmax Hn (A1 & A2 & A3 & A4 & A5). cbv zeta. unfold xlat_high_va_setup in Hset.
  change (mm_regions (high_va_reset words r)) with [RMM_EH_STACK_MMAP; RMM_STACK_MMAP; RMM_SLOT_BUF_MMAP] in Hset.
  cbn [aget aset result_bind mbind] in Hset.
  apply result_bind_inv in Hset as (mm0 & Hmm0 & Hset). apply result_bind_inv in Hset as (mm & Hmm & Hset).
  assert (mm = my_regions) as ->.
  { cbn in Hmm0. injection Hmm0 as <-. cbn in Hmm. by injection Hmm as <-. }
  apply result_bind_inv in Hset as ([[ret cfg] mm'] & Hcfg & Hset). cbv beta iota zeta in Hset.
  pose proof (xlat_ctx_cfg_init_fresh _ _ _ _ _ _ _ Hcfg eq_refl) as Hne.
  destruct (Z.eqb_spec ret 0) as [->|Hr0]; cycle 1.
  { rewrite (proj2 (Z.eqb_neq ret (- EALREADY)) Hne) in Hset. cbn [negb orb] in Hset. injection Hset as -> _. done. }
  cbn [negb orb] in Hset.
  destruct (xlat_ctx_cfg_init_ok _ _ _ _ _ _ _ Hcfg Hmax my_regions_words) as (C & -> & _).
  assert (Hoc : ENABLE_OPENCCA = true → XLAT_HIGH_VA_SIZE <= 2 ^ 43) by (rewrite high_va_size_eq; by intros ->).
  destruct (xlat_ctx_init_ok cfg _ _ _ _ C Hmax my_regions_types Hoc (high_va_tbls (high_va_reset words r))
    tables_ptr high_va_tts_tables eq_refl A1 A2 A3 A4 A5 (my_regions_need cfg max_pa C Hn))
    as (x & Hrun & T & _ & _ & Hi & Hout & Hin).
  apply result_bind_inv in Hset as ([ret2 x2] & Hrun2 & Hset).
  cbn [high_va_tbls] in Hrun2. rewrite Hrun in Hrun2. injection Hrun2 as <- <-. cbn [negb orb Z.eqb] in Hset.
  apply result_bind_inv in Hset as ([ret3 c] & _ & Hset).
  assert (Hh : high_va_cfg h = cfg ∧ high_va_tbls h = x).
  { destruct c as [c|]; [|by injection Hset as _ <-].
    apply result_bind_inv in Hset as (r' & _ & Hset). by injection Hset as _ <-. }
  destruct Hh as [-> ->]. split; [done|]. split; [by apply (built_live cfg _ _ _ _ x C Hoc)|]. done.
Qed.

Lemma high_ctx_of cfg max_pa :
  configured cfg VA_HIGH_REGION XLAT_HIGH_VA_SIZE my_regions max_pa → high_ctx cfg.
Proof.
  intros C. unfold high_ctx. rewrite (cf_base _ _ _ _ _ C), (cf_max _ _ _ _ _ C), high_va_size_eq.
  by destruct ENABLE_OPENCCA.
Qed.

(** Before any buffer is mapped all slots are free, and the cache describes their table. *)
Lemma slots_start {P : Platform} {H : Buffer.Machine} h max_pa st :
  let cfg := high_va_cfg h in let s := high_va_tbls h in
  configured cfg VA_HIGH_REGION XLAT_HIGH_VA_SIZE my_regions max_pa → live_ctx cfg s →
  Forall (λ m, ∀ va, in_mmap m va → ∃ d l, s1_view (base_level cfg) s va = Some (d, l) ∧ region_entry m va d l) (mmap cfg) →
  slots st = ∅ →
  ∃ llt, slot_buf_finish_warmboot_init None (mmu_on h) = Ok llt ∧ slots_rel cfg llt st s.
Proof.
  cbv zeta. set (cfg := high_va_cfg h). set (s := high_va_tbls h). intros C LC Hin Hst.
  pose proof (high_ctx_of cfg max_pa C) as HC. pose proof (lc_level _ _ LC) as [HL _].
  assert (Hview : ∀ slot, 0 <= slot < Buffer.NR_CPU_SLOTS →
    s1_view (base_level cfg) s (sva slot - cfg_base_va cfg) = Some (TRANSIENT_DESC, 3)).
  { intros slot Hs. rewrite (cf_mmap _ _ _ _ _ C) in Hin. unfold my_regions in Hin. cbn [fmap list_fmap] in Hin.
    rewrite !Forall_cons in Hin. destruct Hin as (_ & _ & Hin & _).
    destruct (Hin (sva slot - cfg_base_va cfg)) as (d & l & Hv & He).
    { unfold in_mmap. change Buffer.NR_CPU_SLOTS with 43 in Hs. unfold in_ctx, sva. cbn -[Z.pow].
      change SLOT_VIRT with (2 ^ 64 - 184320). change RMM_SLOT_BUF_SIZE with 184320. lia. }
    rewrite Hv. destruct He as (Hl & _ & _ & Hg & Hal & Hd).
    assert (l = 3) as ->.
    { destruct Hg as [?|[Hg _]]; [done|]. change (granularity _) with 4096 in Hg.
      destruct (decide (l = 3)); [done|]. pose proof (bsize_le l 2 ltac:(lia) ltac:(lia)) as Hb.
      change (bsize 2) with 2097152 in Hb. lia. }
    by injection Hd as <-. }
  assert (Hw : ∀ slot, 0 <= slot < Buffer.NR_CPU_SLOTS → is_u64 (sva slot)).
  { change Buffer.NR_CPU_SLOTS with 43. unfold is_u64, sva. intros. lia. }
  assert (H0 : 0 <= 0 < Buffer.NR_CPU_SLOTS) by done.
  destruct (slot_in_ctx cfg HC 0 H0) as [Hin0 Hal0].
  destruct (xlat_get_llt_spec cfg s LC (sva 0) (Hw 0 H0)) as [(_ & n & k & d & Hlf & Hrun)|[Hno _]]; [|done].
  cbv zeta in Hrun. pose proof (lc_base _ _ LC) as (_ & Hbm & _).
  assert (Epo : (sva 0 - cfg_base_va cfg) / 4096 * 4096 = sva 0 - cfg_base_va cfg) by (clear -Hal0 Hbm; euclid).
  rewrite Epo in Hlf, Hrun. pose proof (Hview 0 H0) as Hv0. rewrite (view_leaf _ HL _ _ _ _ _ Hlf) in Hv0.
  assert (Hl3 : base_level cfg + Z.of_nat n = 3) by (destruct (d =? 0); [done|]; by injection Hv0).
  eexists. split.
  - unfold slot_buf_finish_warmboot_init. rewrite rassert_bind by done.
    change Buffer.SLOT_NS with 0. rewrite slot_to_va_run, result_bind_ok by done.
    change (high_va_cfg (mmu_on h)) with cfg. change (high_va_tbls (mmu_on h)) with s. rewrite Hrun. done.
  - split; [done|]. intros slot Hs. destruct (slot_in_ctx cfg HC slot Hs) as [Hins _].
    destruct (llt_of_found cfg s LC (sva 0) (sva slot) _ TRANSIENT_DESC (Hw 0 H0) (Hw slot Hs) Hrun) as (k' & Hk & He);
      [done| |done|by apply Hview|].
    + destruct HC as (Hb & Hm & Hm2). change (bsize 2) with 2097152. change Buffer.NR_CPU_SLOTS with 43 in Hs.
      unfold sva. rewrite Hb. replace (2 ^ 64 - 184320 + 4096 * 0 - (2 ^ 64 - max_va_size cfg)) with (max_va_size cfg - 184320) by lia.
      replace (2 ^ 64 - 184320 + 4096 * slot - (2 ^ 64 - max_va_size cfg)) with (max_va_size cfg - 184320 + 4096 * slot) by lia.
      clear -Hm Hs. euclid.
    + exists k'. split; [done|]. unfold slot_desc. by rewrite Hst, lookup_empty.
Qed.

(** * Sequences of operations *)

Inductive slot_op := SlotMap (slot g addr : Z) | SlotUnmap (slot : Z).

Definition slot_op_ok {P : Platform} (op : slot_op) : Prop :=
  match op with
  | SlotMap slot g addr => 0 <= slot ∧ granule_addr g = Ok addr ∧ is_u64 addr
  | SlotUnmap slot => 0 <= slot < Buffer.NR_CPU_SLOTS
  end.

(** The operation on the abstract slots, and on the tables. *)
Definition abstract_op {H : Buffer.Machine} (op : slot_op) : M state (option Z) :=
  match op with
  | SlotMap slot g addr => Buffer.buffer_map_internal slot g addr
  | SlotUnmap slot => Buffer.buffer_unmap_internal slot ≫= λ _, mret None
  end.
Definition table_op (llt : xlat_llt_info) (op : slot_op) : M xlat_state (option Z) :=
  match op with
  | SlotMap slot g addr => buffer_map_tt llt slot addr
  | SlotUnmap slot => buffer_unmap_tt llt (sva slot) ≫= λ _, mret None
  end.
Fixpoint run_ops {S A B} (step : A → M S B) (ops : list A) : M S (list B) :=
  match ops with
  | [] => mret []
  | op :: rest => step op ≫= λ b, run_ops step rest ≫= λ bs, mret (b :: bs)
  end.

Lemma op_refines {P : Platform} {H : Buffer.Machine} cfg llt st s op :
  xlat_arch_get_max_supported_pa = Ok Buffer.xlat_arch_get_max_supported_pa → high_ctx cfg →
  slots_rel cfg llt st s → slot_op_ok op →
  match abstract_op op st with
  | Ok (o, st') => ∃ s', table_op llt op s = Ok (sva <$> o, s') ∧ slots_rel cfg llt st' s'
  | Err f => table_op llt op s = Err f
  end.
Proof.
  intros Hmax HC R Hop. destruct op as [slot g addr|slot]; cbn [abstract_op table_op slot_op_ok] in *.
  - destruct Hop as (H1 & H2 & H3). by apply (map_refines Hmax cfg).
  - pose proof (unmap_refines cfg llt HC st s slot R Hop) as Hu.
    destruct (Buffer.buffer_unmap_internal slot st) as [[[] st']|f] eqn:E.
    + destruct Hu as (s' & Hrun & R'). rewrite (bind_run _ _ _ _ _ E). exists s'. by rewrite (bind_run _ _ _ _ _ Hrun).
    + rewrite (bind_run_err _ _ _ _ E). by apply bind_run_err.
Qed.

Lemma ops_refine {P : Platform} {H : Buffer.Machine} cfg llt st s ops :
  xlat_arch_get_max_supported_pa = Ok Buffer.xlat_arch_get_max_supported_pa → high_ctx cfg →
  slots_rel cfg llt st s → Forall slot_op_ok ops →
  match run_ops abstract_op ops st with
  | Ok (os, st') => ∃ s', run_ops (table_op llt) ops s = Ok ((λ o : option Z, sva <$> o) <$> os, s') ∧ slots_rel cfg llt st' s'
  | Err f => run_ops (table_op llt) ops s = Err f
  end.
Proof.
  intros Hmax HC R Hops. revert st s R. induction Hops as [|op ops Hop Hops IH]; intros st s R; cbn [run_ops].
  { by exists s. }
  pose proof (op_refines cfg llt st s op Hmax HC R Hop) as Hstep.
  destruct (abstract_op op st) as [[o st1]|f] eqn:E; cycle 1.
  { rewrite (bind_run_err _ _ _ _ E). by apply bind_run_err. }
  destruct Hstep as (s1 & Hrun & R1). rewrite (bind_run _ _ _ _ _ E), (bind_run _ _ _ _ _ Hrun).
  specialize (IH st1 s1 R1). destruct (run_ops abstract_op ops st1) as [[os st2]|f] eqn:E2; cycle 1.
  { rewrite (bind_run_err _ _ _ _ E2). by apply bind_run_err. }
  destruct IH as (s2 & Hrun2 & R2). rewrite (bind_run _ _ _ _ _ E2). exists s2. by rewrite (bind_run _ _ _ _ _ Hrun2).
Qed.

End slot.

(** * Machines *)

Definition arm_build : Config := {| ENABLE_OPENCCA := false |}.
Definition opencca_build : Config := {| ENABLE_OPENCCA := true |}.

(** 48 bits of physical address, 4KB granules. *)
Definition cpu48 : Cpu :=
  {| read_id_aa64mmfr0_el1 := 5; read_id_aa64mmfr1_el1 := 0; read_id_aa64dfr0_el1 := 0; read_id_aa64dfr1_el1 := 0;
     read_pmcr_el0 := 0; g_simd_init_done := false; g_simd_cfg := simd_config_zero; nr_lrs := 0 |}.

(** A processor with [n] pages of stack. *)
Definition self (n : Z) : Self :=
  {| my_cpuid := 1; rmm_get_my_eh_stack := λ _, 2147487744; rmm_get_my_stack := λ _, 2147491840 + n * 4096;
     RMM_NUM_PAGES_PER_STACK := n |}.

Definition cfg_reset : xlat_ctx_cfg :=
  {| max_va_size := 0; mmap := []; cfg_base_va := 0; max_mapped_pa := 0; max_mapped_va_offset := 0;
     base_level := 0; region := 0; cfg_initialized := false |}.
Definition tbls_reset (words : list Z) : xlat_state :=
  {| tbls := {| tables := 0; tables_num := 0; next_table := 0; initialized := false |}; area := words; tlbivae2 := [] |}.
Definition regs_reset : mmu_regs :=
  {| mair_el2 := 0; tcr_el2 := 0; ttbr0_el2 := 0; ttbr1_el2 := 0; is_mmu_enabled := false |}.

(** * The low half *)

(** Code mapped by pages and 2MB blocks, a device, and a transient page. *)
Definition low_regions : list xlat_mmap_region :=
  [MAP_REGION_FULL_SPEC 1075838976 2097152 4198400 MT_CODE 2097152;
   MAP_REGION_FULL_SPEC 150994944 1073741824 4096 (MT_DEVICE .| MT_RW) 2097152;
   MAP_REGION_TRANSIENT 1073750016 4096 4096].

Definition low_cfg : xlat_ctx_cfg :=
  match xlat_ctx_cfg_init (CF := arm_build) (CPU := cpu48) cfg_reset VA_LOW_REGION low_regions (2 ^ 36) with
  | Ok (_, cfg, _) => cfg
  | Err _ => cfg_reset
  end.


(** * The upper half *)

Definition slot_machine : Buffer.Machine :=
  {| Buffer.xlat_arch_get_max_supported_pa := 2 ^ 48 - 1; Buffer.ns_ldr := λ _ _ _, None; Buffer.ns_str := λ _ _ _ _, false |}.

Definition high_words : list Z := replicate (Z.to_nat 6144) 7.
Definition high_start : high_va := high_va_reset (ME := self 5) high_words regs_reset.
Definition high_demo : high_va :=
  match xlat_high_va_setup (CF := opencca_build) (CPU := cpu48) (ME := self 5) 2415919104 high_start with
  | Ok (_, h) => h
  | Err _ => high_start
  end.

(** Two granules are mapped in the slots of the host and of a realm descriptor, the first slot is
    asked for again, and the first one is unmapped. *)
Definition demo_ops : list slot_op :=
  [SlotMap 0 1 (2 ^ 35); SlotMap 2 0 (2 ^ 31); SlotMap 0 2 (2 ^ 35 + 4096); SlotUnmap 0].


(** * What the library does not do *)

(** A region whose physical addresses contain those of an earlier region is accepted: only the
    first and the last address of the later region are compared. *)
Example validate_misses_containment :
  ∃ mm', validate_mmap_regions (CPU := cpu48)
    [MAP_REGION_FULL_SPEC 1073745920 4096 4096 MT_RW_DATA 4096;
     MAP_REGION_FULL_SPEC 1073741824 8192 12288 MT_CODE 4096] 0 (2 ^ 36) VA_LOW_REGION = Ok (0, mm').
Proof. eexists. vm_compute. reflexivity. Qed.

(** In the OpenCCA build the table of level 0 is taken to have 16 entries, like one of level -1
    elsewhere: a valid region above 2^43 cannot be mapped. *)
Example level0_sixteen_entries :
  match xlat_ctx_cfg_init (CF := opencca_build) (CPU := cpu48) cfg_reset VA_LOW_REGION
          [MAP_REGION_FULL_SPEC 1073741824 (2 ^ 43) 4096 MT_RW_DATA 4096] (2 ^ 48) with
  | Ok (0, cfg, _) =>
      match xlat_ctx_init (CF := opencca_build) (CPU := cpu48) cfg 2415919104 4 (tbls_reset (replicate (Z.to_nat 2048) 0)) with
      | Ok (ret, _) => ret = - ENOMEM
      | Err _ => False
      end
  | _ => False
  end.
Proof. vm_compute. reflexivity. Qed.

(** 465 pages of stack satisfy the assertion at compile time, which counts the stack, one guard
    page and the slots; the stack of the exception handler does not fit. *)
Example eh_stack_does_not_fit :
  465 + 1 + XLAT_HIGH_VA_SLOT_NUM <= XLAT_TABLE_ENTRIES ∧
  match xlat_high_va_setup (CF := arm_build) (CPU := cpu48) (ME := self 465) 2415919104
          (high_va_reset (ME := self 465) (replicate 512 0) regs_reset) with
  | Ok (ret, _) => ret = - EINVAL
  | Err _ => False
  end.
Proof. split; [vm_compute; congruence|]. vm_compute. reflexivity. Qed.

(** The index of an entry is cut to 32 bits before it is compared with the size of the table: an
    address 2^44 bytes after the table's first one gets its first entry. *)
Example tte_ptr_wraps :
  xlat_get_tte_ptr (CF := arm_build) {| llt_table := 2415919104; llt_base_va := 0; llt_level := 3 |} (2 ^ 44) =
    Ok (Some 2415919104).
Proof. vm_compute. reflexivity. Qed.
